(* ===== verification/_CoqProject ===== *)
-Q . S2P
Prelude.v
Queue.v
Core.v
Timer.v
Sched.v
SchedInv.v
SchedOps.v
Tick.v
SchedSleep.v
TickReady.v
Kernel.v
Context.v
KernelInv.v
Exec.v
Block.v
SchedProps.v
Sem.v
SemSpec.v
Mutex.v
MutexSpec.v
Cond.v
Object.v
UserMem.v
MsgSpec.v
TimerSys.v
ExcSpec.v
Thread.v
KernelSafe.v
System.v
Demo.v
Scenarios.v
Witnesses.v
Page.v
PageSpec.v
PageSource.v
Kmem.v
KmemSpec.v
Mmu.v
MmuSpec.v
HeapSource.v
Vm.v
VmRing.v
VmLayout.v
VmRegions.v
VmSpace.v
VmSpec.v
VmLife.v
VmMap.v
VmFork.v
VmLoad.v
VmShare.v
VmRun.v
VmDemo.v
Lib.v
Printf.v
LibSpec.v
KernLog.v
KernLogSpec.v
Irq.v
IrqSpec.v
Device.v
DeviceSpec.v
DeviceRun.v
DeviceDemo.v
Dpc.v
Tty.v
TtyQueue.v
TtySpec.v
TtyRun.v
TtyIntr.v
TtyDemo.v
Ramfs.v
RamfsSpec.v
RamfsFifo.v
RamfsTree.v
RamfsRun.v
RamfsDemo.v
