(* ===== verification/Prelude.v ===== *)
(** * Verification of the Prex microkernel

    Prex is a small real-time microkernel in C.  This library models the kernel
    (src/sys) for the 32-bit i386 configuration with an MMU, with the terminal
    driver (src/dev) and the file system in memory of the file server (src/usr),
    and proves what its parts promise to each other.  Every C function that changes state is one
    definition with the function's name, pointers are addresses ([Z]), machine
    words are reduced explicitly ([u32], [s32]), and an operation that C leaves
    undefined or that panics (a wild access, a misused list link, a failed
    ASSERT) is a fault, [None] or [Fault].

    ** The parts of the kernel and the files that model them

    - Lists.  Queue: sys/lib/queue.c, queue.h and list.h as stores to [next] and
      [prev] fields, with the refinement to sequences that lets the other files
      keep their queues as lists.
    - Scheduler and clock.  Core: struct thread (its scheduling half), struct
      timer, struct event.  Timer: time arithmetic and the sorted list of active
      timers (sys/kern/timer.c).  Sched: run queues, wake queue, sleep queues,
      the dispatcher and the tick handler (sys/kern/sched.c, timer_tick()).
      SchedInv states the invariant of the queues; SchedOps, Tick and SchedSleep
      prove that every routine keeps it and what it does; TickReady, that nothing
      the kernel does to the timers makes the next clock interrupt unsafe.
    - Kernel code.  Kernel: the whole kernel state and the monad [K] kernel code
      runs in; a context switch inside a call is the constructor [Switch], whose
      continuation is the rest of the call.  KernelInv: the kernel-wide invariant
      and rely-guarantee rules for [K].  Exec and Block: symbolic execution of
      calls, sched_lock()/sched_unlock(), blocking and preemption.  SchedProps:
      the scheduler's contract on that level.
    - Synchronisation.  Sem, Mutex, Cond: sys/sync.  SemSpec and MutexSpec: what
      the calls do on every branch, priority inheritance included.
    - IPC.  Object: sys/ipc/object.c and msg.c.  UserMem, MsgSpec: copying to and
      from user memory, and which bytes a message moves.
    - Timers, exceptions, threads, tasks.  TimerSys: the timer calls and
      sys/kern/exception.c.  Context and ExcSpec: the user context of
      sys/arch/i386/i386/context.c, delivery of an exception and return from its
      handler.  Thread: sys/kern/thread.c and task.c.
    - The system.  KernelSafe: every call keeps the invariant.  System: system
      calls, switches and clock interrupts as a transition system, and its
      invariant.  Demo, Scenarios, Witnesses: a concrete kernel, runs of it that
      end where the code does not mean to go, and the theorems applied to it.
    - Memory.  Page, PageSpec: sys/mem/page.c and kpage.c, block headers in
      memory refined to sorted, coalesced lists of free blocks.  PageSource: the
      contract of a page allocator as a class, which page.c satisfies.  Kmem,
      KmemSpec: sys/mem/kmem.c, proved against that class.  Mmu, MmuSpec:
      sys/arch/i386/i386/mmu.c, page directories and tables, proved against the
      same class.  HeapSource: the contract of the kernel allocator, which
      kmem.c satisfies.
    - Virtual memory.  Vm: sys/mem/vm.c, with the regions at their addresses and
      every link written out.  VmRing and VmLayout: the ring of regions as a list
      of areas, and layouts that tile the user addresses.  VmRegions: region_find(),
      region_alloc(), region_free() and region_split() on that list.  VmSpace: the
      invariant of an address space, layout, page tables and pages together.
      VmSpec, VmMap, VmLife, VmFork and VmLoad: allocation and release, attributes
      and mapping, creation and termination, vm_fork() and vm_load().  VmShare:
      the lists of shared regions.  VmRun: sequences of system calls and the
      theorems.  VmDemo: two address spaces, a fork
      and a module on a small machine.
    - Library.  Lib: sys/lib over a memory of bytes, an interface ([ByteMem]) with
      a mapped and a flat instance.  Printf: vsprintf.c and atol.c.  LibSpec: the
      contracts, and that the routines compute what the other files use in their
      place (Thread.strlcpy, Object.same_name, Vm.memcpy, Vm.memset).
    - Messages.  KernLog, KernLogSpec: the log buffer of sys/kern/debug.c, its
      readers, and sys_log() of system.c.
    - Interrupts.  Irq, IrqSpec: the interrupt controllers of
      sys/arch/i386/pc/interrupt.c, and sys/kern/irq.c with the interrupt service
      threads.  Dpc: the deferred procedure calls of sys/kern/sched.c.
    - Devices.  Device: sys/kern/device.c, the entries of a driver's I/O
      table being values of [devio].  DeviceSpec, DeviceRun, DeviceDemo: the invariant of
      objects and handles, runs of device calls, an example.
    - Terminals.  Tty: dev/gen/tty.c with the ring buffers of a terminal, and the
      output routines of dev/i386/pc/serial.c and console.c.  TtyQueue: the ring
      buffers as sequences.  TtySpec: the line discipline as a specification, and
      tty_input() against the class [TtyDriver] of hardware drivers, which the
      serial line and the console satisfy.  TtyRun: typing, reading and
      writing.  TtyIntr: the calls in steps between which interrupts may come.
      TtyDemo: an example.
    - Files.  Ramfs: usr/server/fs/ramfs with nodes and buffers at their
      addresses, and sys_read(), sys_write() and sys_lseek() of
      usr/server/fs/vfs/vfs_syscalls.c above it.  RamfsSpec: files as sequences of
      bytes.  RamfsFifo: FIFOs as bounded queues.  RamfsTree and RamfsRun: the
      lists of directories and the maps they stand for.  RamfsDemo: an example.

    ** What the theorems show

    - Lists: any sequence of pointer operations implements the sequence
      operations ([queue_ops_refine]).
    - Scheduling: each routine's effect on queues, states, priorities and
      quantum; the highest priority runnable thread runs; a clock tick expires
      exactly the timers that are due ([sched_switch_spec], [sched_wakeup_spec],
      [sched_wakeone_spec], [sched_tsleep_spec], [timer_tick_spec], ...).
    - The system: every state reachable by any interleaving of system calls,
      context switches inside them and clock interrupts satisfies the invariant
      ([system_invariant]), for delays below 2^31 ticks.  A step is one that does not fault: that calls return
      is what the specifications of the single calls prove, and Scenarios has
      runs in which the code does fault.
    - Synchronisation and IPC: results and effects of the calls on every branch,
      hand-over of a posted semaphore to the best waiter, priority inheritance
      along chains of owners, the bytes a message moves.
    - Memory: allocators hand out disjoint memory, give back what they took, and
      never fault within their contract; address translation after mmu_map().
    - Virtual memory: system calls keep an address space consistent and leave the
      layout, translation and contents of the others alone ([vm_run_safe],
      [vm_run_isolated]); ranges that wrap around 2^32 are excluded, for which
      vm_allocate() faults; the effect of each call on
      layout, pages, page tables and contents, out-of-memory paths included; a
      forked task sees what its parent saw ([vm_fork_spec]), a boot task its image
      ([vm_load_spec]).  vm_fork_spec is about areas that are not shared or mapped
      yet; region_delete() takes a region off its list ([region_delete_shared]),
      but region_free() does not, and the lists can dangle
      ([shared_region_dangles]).
    - Library and messages: the string loops meet their contracts; printed numbers
      are read back ([put_num_atol]); the ring buffer refines an unbounded log
      ([debug_getlog_spec]) and a message fits the static buffers
      ([sys_log_spec]).
    - Interrupts: masks agree with levels, handlers nest at most eleven deep and
      none is re-entered ([interrupt_nesting]); irq_lock() nests; no request for
      an interrupt thread is lost under any interleaving ([ist_no_lost_request],
      [ist_drains]); DPCs run in order, with the routine last passed for
      them ([dpc_drains]).
    - Devices: reference counts are exact in every reachable state and no handle
      dangles, if drivers destroy a device once ([device_refcounts]); what
      opening, closing and destroying do.
    - Terminals: tty_input() does what the line discipline says
      ([tty_input_refines]); what is typed is read ([typed_line_read]), what is
      written is sent in order ([tty_write_stream]); however calls and interrupts
      interleave, no buffer is left ([tty_run_safe]), and calls that are not
      disturbed do what the functions of Tty compute ([calls_undisturbed]).
    - Files: reads and writes refine sequences of bytes ([ramfs_file_refines]),
      FIFOs refine bounded queues ([fifo_is_queue]), and directories refine maps
      from names to nodes ([ramfs_dir_refines]).
    - Where the code does not do what it means to, a theorem or a run in
      Scenarios says what it does instead.

    ** Bounds and fuel

    Loops over lists take the number of nodes in memory as fuel, and the
    theorems show that it suffices.  The loops of sem_wait(), msg_receive() and
    of the timer thread are unbounded in C: the model takes a bound on the number
    of rounds, and running out of it is a fault, never a result; the theorems hold
    for every bound that is large enough for the run they describe.
    RESCHED_ROUNDS is 2: after one round of the loop in sched_unlock() no switch
    is pending.
    mmu_map() counts pages, mmu_extract() takes one round per page of the range.
    vsprintf() takes the length of the format as fuel, its digit loop DIGITS_FUEL =
    17 rounds: a 32-bit number has at most ten digits, and the seventeenth
    character would be past tmp[16], a fault.
    The loops over a ring buffer of a terminal take one round more than its
    characters, those over a FIFO one more than the bytes asked for, walks of a
    directory the number of nodes.

    ** What is not modelled, and simplifications

    - In System interrupts arrive between kernel calls or in user mode.  Irq, Dpc,
      KernLog and Device have states of their own beside the kernel state: a
      service thread is there its control point and its requests, with steps from
      one point where interrupts are enabled to the next.
    - Thread and task code is proved against the classes [VMOps] and [VMSafe]
      (address spaces and devices) and [KMem] (the kernel allocator): what they
      ask for is that these operations do not touch the kernel state.
    - User memory is a map from addresses to bytes per address space; kmem_map()
      succeeds there exactly if the bytes are mapped, which is the contract that
      mmu_extract() has for ranges that do not wrap around (MmuSpec).
    - task_terminate() walks snapshots of its lists, where C walks nodes that it
      has just freed.
    - The memory routines run under the scheduler lock and are atomic; physical
      page 0 is not managed; the TLB is left out.  In Vm the kernel allocator and
      the page allocator have states of their own, where they share the pages of
      the machine in C: each keeps to its contract whatever the other does.
    - main.c, syscalls.c, dki.c, the information calls of system.c, the %f
      conversion of CONFIG_KFPU, delay.c and the dump routines are left out.
    - vm_nommu.c is the variant for processors without MMU.
    - In Tty a call of a task runs to its end or to a sleep without interrupts;
      TtyIntr has the steps in between, where an update of a flag word and a copy
      of user memory are one step each, and interrupt routines are not
      interrupted.  t_column is not reduced to its width.  What malloc() and
      vm_allocate() return in the file system is an argument of the operation.
    - The other drivers, the boot loader and the other user-mode servers,
      libraries and commands (src/dev, src/boot, src/usr) are separate programs
      and are left out; of the virtual file system path lookup, mounts and the
      vnode table are left out. *)
From stdpp Require Import base numbers strings gmap list sorting.

Open Scope Z_scope.

(** ** Machine integers

    The kernel is compiled for 32-bit targets: [int], [u_int], [u_long] and
    pointers are 32 bits wide.  [u32] is the reduction of an unsigned result
    and [s32] the two's-complement reading of the same bits (the cast
    [(long)x] of timer.h). *)
Definition u32 (z : Z) : Z := z mod 2 ^ 32.
Definition s32 (z : Z) : Z := let u := u32 z in if u <? 2 ^ 31 then u else u - 2 ^ 32.

(** Bit tests and updates as the C code writes them. *)
Definition flag (w f : Z) : bool := negb (Z.land w f =? 0).
Definition clr (w f : Z) : Z := Z.ldiff w f.

Lemma u32_range z : 0 <= u32 z < 2 ^ 32.
Proof. unfold u32. apply Z.mod_pos_bound. lia. Qed.

Lemma u32_small z : 0 <= z < 2 ^ 32 -> u32 z = z.
Proof. intros. unfold u32. by apply Z.mod_small. Qed.

Lemma s32_range z : - 2 ^ 31 <= s32 z < 2 ^ 31.
Proof.
  unfold s32. pose proof (u32_range z). destruct (u32 z <? 2 ^ 31) eqn:E; lia.
Qed.

Lemma s32_id z : - 2 ^ 31 <= z < 2 ^ 31 -> s32 z = z.
Proof. intros H. unfold s32, u32. destruct (Z.ltb_spec (z mod 2 ^ 32) (2 ^ 31)); Z.div_mod_to_equations; lia. Qed.

(** The signed reading of a 32-bit difference is the exact difference as long
    as that difference fits in 31 bits, whatever wrapped around. *)
Lemma s32_u32_diff a b :
  - 2 ^ 31 <= a - b < 2 ^ 31 -> s32 (s32 (u32 a) - s32 (u32 b)) = a - b.
Proof.
  intros H. unfold s32, u32.
  repeat match goal with |- context [?x <? ?y] => destruct (x <? y) eqn:? end;
    Z.div_mod_to_equations; lia.
Qed.

(** ** Record update

    [r <| field := v |>] is the record [r] with one field replaced, as the C
    assignment [r.field = v]; [r <| field ::= f |>] applies [f] to the field.
    The setter of a projection is derived from the eta expansion of the
    record, which each record type declares as a [Settable] instance. *)
Class Settable (R : Type) := eta : R -> R.
Class Setter {R T : Type} (getter : R -> T) := set : (T -> T) -> R -> R.
Arguments set {R T} getter {Setter} f x /.

Ltac derive_setter :=
  lazymatch goal with
  | |- @Setter ?R ?T ?getter =>
      let f := fresh "f" in let x := fresh "x" in
      intros f x;
      let e := constr:(_ : Settable R) in
      let e := eval hnf in e in
      let b := eval cbv beta in (e x) in
      let g := eval cbv beta in (getter x) in
      let p := eval pattern g in b in
      lazymatch p with
      | ?q _ => let r := eval cbv beta in (q (f g)) in exact r
      end
  end.
#[export] Hint Extern 1 (Setter _) => derive_setter : typeclass_instances.

Declare Scope rec_scope.
Delimit Scope rec_scope with rec.
Notation "r <| x := v |>" := (set x (fun _ => v) r)
  (at level 12, x at next level, left associativity, format "r  <|  x  :=  v  |>") : rec_scope.
Notation "r <| x ::= f |>" := (set x f r)
  (at level 12, x at next level, f at next level, left associativity, format "r  <|  x  ::=  f  |>") : rec_scope.
Open Scope rec_scope.

(** ** Lists *)

Lemma StronglySorted_ext {A} (R R' : A -> A -> Prop) l :
  (forall a b, a ∈ l -> b ∈ l -> R a b -> R' a b) -> StronglySorted R l -> StronglySorted R' l.
Proof.
  induction l as [|x l IH]; intros HR; [constructor|]. rewrite !StronglySorted_cons, !Forall_forall.
  intros [Hx Hl]. split; [|apply IH; [|done]; set_solver].
  intros y Hy. apply HR; [set_solver..|by apply Hx].
Qed.

Lemma StronglySorted_filter {A} (R : A -> A -> Prop) (P : A -> Prop) `{forall x, Decision (P x)} l :
  StronglySorted R l -> StronglySorted R (filter P l).
Proof.
  induction l as [|x l IH]; [done|]. rewrite StronglySorted_cons, Forall_forall. intros [Hx Hl].
  rewrite filter_cons. case_decide; [|by apply IH]. constructor; [by apply IH|].
  apply Forall_forall. intros y [_ Hy]%list_elem_of_filter. by apply Hx.
Qed.

Lemma filter_id {A} (P : A -> Prop) `{forall x, Decision (P x)} (l : list A) :
  (forall x, x ∈ l -> P x) -> filter P l = l.
Proof.
  induction l as [|a l IH]; intros H'; [done|]. rewrite filter_cons, decide_True by (apply H'; by left).
  f_equal. apply IH. intros x Hx. apply H'. by right.
Qed.

Lemma filter_ext_in {A} (P Q : A -> Prop) `{forall x, Decision (P x)} `{forall x, Decision (Q x)} (l : list A) :
  (forall x, x ∈ l -> P x <-> Q x) -> filter P l = filter Q l.
Proof.
  induction l as [|a l IH]; intros H'; [done|]. rewrite !filter_cons. pose proof (H' a ltac:(by left)) as Ha.
  rewrite IH by (intros x Hx; apply H'; by right). repeat case_decide; done || tauto.
Qed.

(** A map with entries for all of a list without repetitions is at least as
    large: the fuel of a walk along linked structures. *)
Lemma mapped_size {A} (m : gmap Z A) l : NoDup l -> (forall x, x ∈ l -> is_Some (m !! x)) -> (length l <= size m)%nat.
Proof.
  intros ND Hl. rewrite <- (size_dom (D := gset Z)), <- (size_list_to_set (C := gset Z) l) by done. apply subseteq_size.
  intros x Hx%elem_of_list_to_set. apply elem_of_dom. by apply Hl.
Qed.
