(* ===== verification/Queue.v ===== *)
(** * Queue: the intrusive doubly linked lists of the kernel

    Model of [sys/lib/queue.c], [sys/include/queue.h] and
    [include/sys/list.h] at the level of the pointers: the memory is a finite
    map from node addresses to their [next]/[prev] pair, every C assignment is
    one map update, and an access to an address that holds no node is a fault
    ([None]).

    The second half relates the pointer structure to lists of addresses.  A
    set of queues whose nodes are pairwise disjoint is represented by a map
    from head addresses to lists; each operation of queue.c simulates the
    corresponding list operation.  This is what allows the scheduler, timer
    and IPC models to keep their queues as lists. *)
From stdpp Require Import base numbers gmap list.
From S2P Require Import Prelude.

Open Scope Z_scope.

(** struct queue *)
Record queue := mkqueue { q_next : Z; q_prev : Z }.

Abbreviation qmem := (gmap Z queue).

Definition get_next (a : Z) (h : qmem) : option Z := q_next <$> h !! a.
Definition get_prev (a : Z) (h : qmem) : option Z := q_prev <$> h !! a.

Definition set_next (a v : Z) (h : qmem) : option qmem :=
  n ← h !! a; Some (<[a := mkqueue v (q_prev n)]> h).
Definition set_prev (a v : Z) (h : qmem) : option qmem :=
  n ← h !! a; Some (<[a := mkqueue (q_next n) v]> h).

Module QueueC.

(** queue_init(head): ((head)->next = (head)->prev = (head)) *)
Definition queue_init (head : Z) (h : qmem) : option qmem :=
  h ← set_prev head head h;
  set_next head head h.

Definition queue_empty (head : Z) (h : qmem) : option bool :=
  n ← get_next head h; Some (n =? head).

Definition queue_first (head : Z) (h : qmem) : option Z := get_next head h.
Definition queue_last (head : Z) (h : qmem) : option Z := get_prev head h.

(** Insert element at tail of queue. *)
Definition enqueue (head item : Z) (h : qmem) : option qmem :=
  h ← set_next item head h;
  p ← get_prev head h;
  h ← set_prev item p h;
  p ← get_prev item h;
  h ← set_next p item h;
  set_prev head item h.

(** Remove and return element of head of queue; the C function returns a
    null pointer on an empty queue. *)
Definition dequeue (head : Z) (h : qmem) : option (option Z * qmem) :=
  n ← get_next head h;
  if n =? head then Some (None, h)
  else
    item ← get_next head h;
    i ← get_next item h;
    h ← set_prev i head h;
    i ← get_next item h;
    h ← set_next head i h;
    Some (Some item, h).

(** Insert element after specified element. *)
Definition queue_insert (prev item : Z) (h : qmem) : option qmem :=
  h ← set_prev item prev h;
  n ← get_next prev h;
  h ← set_next item n h;
  n ← get_next prev h;
  h ← set_prev n item h;
  set_next prev item h.

(** Remove specified element from queue. *)
Definition queue_remove (item : Z) (h : qmem) : option qmem :=
  p ← get_prev item h;
  n ← get_next item h;
  h ← set_next p n h;
  n ← get_next item h;
  p ← get_prev item h;
  set_prev n p h.

(** list.h: list_insert, whose stores come in another order so that a node
    is complete before it becomes reachable, and list_remove. *)
Definition list_insert (prev node : Z) (h : qmem) : option qmem :=
  n ← get_next prev h;
  h ← set_next node n h;
  h ← set_prev node prev h;
  n ← get_next prev h;
  h ← set_prev n node h;
  set_next prev node h.

Definition list_remove (node : Z) (h : qmem) : option qmem :=
  p ← get_prev node h;
  n ← get_next node h;
  h ← set_next p n h;
  n ← get_next node h;
  p ← get_prev node h;
  set_prev n p h.

End QueueC.
Import QueueC.

(** ** Representation *)

(** [seg h x l y]: following [next] from [x] visits exactly the nodes [l] and
    then [y], and [prev] leads back. *)
Fixpoint seg (h : qmem) (x : Z) (l : list Z) (y : Z) : Prop :=
  match l with
  | [] => get_next x h = Some y /\ get_prev y h = Some x
  | z :: l => get_next x h = Some z /\ get_prev z h = Some x /\ seg h z l y
  end.

Definition queue_rep (h : qmem) (head : Z) (l : list Z) : Prop :=
  NoDup (head :: l) /\ seg h head l head.

Lemma seg_app h x l1 z l2 y :
  seg h x (l1 ++ z :: l2) y <-> seg h x l1 z /\ seg h z l2 y.
Proof. revert x; induction l1 as [|a l1 IH]; intros x; simpl; [tauto|]. rewrite IH. tauto. Qed.

Lemma seg_ext h h' x l y :
  (forall a, a ∈ x :: l -> get_next a h' = get_next a h) ->
  (forall a, a ∈ l ++ [y] -> get_prev a h' = get_prev a h) ->
  seg h x l y -> seg h' x l y.
Proof.
  revert x; induction l as [|z l IH]; intros x Hn Hp; simpl in *.
  - rewrite Hn, Hp by set_solver. tauto.
  - rewrite Hn, Hp by set_solver. intros (?&?&?). split_and!; [done..|].
    apply IH; [set_solver|set_solver|done].
Qed.

Lemma get_next_set_next a b v h h' :
  set_next a v h = Some h' -> get_next b h' = if decide (a = b) then Some v else get_next b h.
Proof.
  unfold set_next, get_next. destruct (h !! a) eqn:E; simpl; [|done]. intros [= <-].
  rewrite lookup_insert. by case_decide.
Qed.
Lemma get_prev_set_next a b v h h' : set_next a v h = Some h' -> get_prev b h' = get_prev b h.
Proof.
  unfold set_next, get_prev. destruct (h !! a) eqn:E; simpl; [|done]. intros [= <-].
  rewrite lookup_insert. case_decide; subst; [|done]. by rewrite E.
Qed.
Lemma get_prev_set_prev a b v h h' :
  set_prev a v h = Some h' -> get_prev b h' = if decide (a = b) then Some v else get_prev b h.
Proof.
  unfold set_prev, get_prev. destruct (h !! a) eqn:E; simpl; [|done]. intros [= <-].
  rewrite lookup_insert. by case_decide.
Qed.
Lemma get_next_set_prev a b v h h' : set_prev a v h = Some h' -> get_next b h' = get_next b h.
Proof.
  unfold set_prev, get_next. destruct (h !! a) eqn:E; simpl; [|done]. intros [= <-].
  rewrite lookup_insert. case_decide; subst; [|done]. by rewrite E.
Qed.

(** Two memories with the same [next] and [prev] everywhere are equal. *)
Lemma qmem_ext (h h' : qmem) :
  (forall a, get_next a h = get_next a h') -> (forall a, get_prev a h = get_prev a h') -> h = h'.
Proof.
  intros Hn Hp. apply map_eq; intros a. specialize (Hn a). specialize (Hp a).
  unfold get_next, get_prev in *. destruct (h !! a) as [[]|], (h' !! a) as [[]|]; simpl in *; congruence.
Qed.

Lemma set_next_ok a v h : is_Some (h !! a) -> is_Some (set_next a v h).
Proof. intros [n Hn]. unfold set_next. rewrite Hn. by eexists. Qed.
Lemma set_prev_ok a v h : is_Some (h !! a) -> is_Some (set_prev a v h).
Proof. intros [n Hn]. unfold set_prev. rewrite Hn. by eexists. Qed.

(** ** Linking and unlinking one node *)

Definition lastd (x : Z) (l : list Z) : Z := default x (last l).
Definition headd (l : list Z) (y : Z) : Z := default y (head l).

Lemma lastd_cons x a l : lastd x (a :: l) = lastd a l.
Proof. unfold lastd. destruct l as [|b l]; [done|]. simpl. by destruct (last (b :: l)) eqn:E; [|apply last_None in E]. Qed.

Lemma lastd_elem x l : lastd x l ∈ x :: l.
Proof.
  revert x; induction l as [|a l IH]; intros x; [set_solver|].
  rewrite lastd_cons. specialize (IH a). set_solver.
Qed.

Lemma headd_elem l y : headd l y ∈ l ++ [y].
Proof. destruct l; unfold headd; simpl; set_solver. Qed.

(** The pointers of [h'] are those of [h] with [item] linked between [p] and
    [n], resp. with [p] and [n] linked to each other. *)
Definition linked (h h' : qmem) (p item n : Z) : Prop :=
  (forall a, get_next a h' = if decide (a = p) then Some item
                             else if decide (a = item) then Some n else get_next a h) /\
  (forall a, get_prev a h' = if decide (a = n) then Some item
                             else if decide (a = item) then Some p else get_prev a h).

Definition unlinked (h h' : qmem) (p n : Z) : Prop :=
  (forall a, get_next a h' = if decide (a = p) then Some n else get_next a h) /\
  (forall a, get_prev a h' = if decide (a = n) then Some p else get_prev a h).

Ltac case_decides := repeat case_decide; simplify_eq; try done; try congruence; try set_solver.

Lemma seg_ends h x l1 l2 y :
  seg h x (l1 ++ l2) y ->
  get_next (lastd x l1) h = Some (headd l2 y) /\ get_prev (headd l2 y) h = Some (lastd x l1).
Proof.
  revert x; induction l1 as [|a l1 IH]; intros x; simpl.
  - destruct l2; unfold lastd, headd; simpl; tauto.
  - intros (_&_&H). rewrite lastd_cons. by apply IH.
Qed.

Lemma cut_neq a l1 l2 y :
  NoDup (a :: l1 ++ l2) -> y <> a -> lastd a l1 ∈ a :: l1 ++ l2 /\ a <> headd l2 y.
Proof.
  intros ND Hy. apply NoDup_cons in ND as [Ha _]. split.
  - pose proof (lastd_elem a l1). set_solver.
  - pose proof (headd_elem l2 y) as H. intros E. rewrite <- E in H.
    apply elem_of_app in H as [H|H]; set_solver.
Qed.

Lemma seg_linked h h' x l1 l2 y item :
  NoDup (x :: l1 ++ l2) -> y ∉ l1 ++ l2 -> item ∉ x :: l1 ++ l2 -> item <> y ->
  linked h h' (lastd x l1) item (headd l2 y) ->
  seg h x (l1 ++ l2) y -> seg h' x (l1 ++ item :: l2) y.
Proof.
  intros ND Hy Hi Hiy [Ln Lp]. revert x ND Hi Ln Lp; induction l1 as [|a l1 IH]; intros x ND Hi Ln Lp Hs.
  - unfold lastd in *; simpl in *. apply NoDup_cons in ND as [Hx ND].
    destruct l2 as [|z l2]; unfold headd in *; simpl in *.
    + rewrite !Ln, !Lp. case_decides.
    + destruct Hs as (?&?&Hs). apply NoDup_cons in ND as [Hz ND].
      rewrite !Ln, !Lp. split_and!; [case_decides..|].
      eapply seg_ext; [..|exact Hs]; intros b Hb; [rewrite Ln|rewrite Lp]; case_decides.
  - rewrite lastd_cons in *. simpl in *. destruct Hs as (Hn&Hp&Hs).
    apply NoDup_cons in ND as [Hx ND].
    destruct (cut_neq a l1 l2 y) as [Hla Hha]; [done|set_solver|].
    rewrite Ln, Lp, !decide_False; [|set_solver|done|set_solver|set_solver].
    split_and!; [done..|].
    apply IH; try done; set_solver.
Qed.

Lemma seg_unlinked h h' x l1 l2 y item :
  NoDup (x :: l1 ++ item :: l2) -> y ∉ l1 ++ item :: l2 ->
  unlinked h h' (lastd x l1) (headd l2 y) ->
  seg h x (l1 ++ item :: l2) y -> seg h' x (l1 ++ l2) y.
Proof.
  intros ND Hy [Ln Lp]. revert x ND Ln Lp; induction l1 as [|a l1 IH]; intros x ND Ln Lp Hs.
  - unfold lastd in *; simpl in *. destruct Hs as (?&?&Hs).
    apply NoDup_cons in ND as [Hx ND]. apply NoDup_cons in ND as [Hz ND].
    destruct l2 as [|z l2]; unfold headd in *; simpl in *.
    + rewrite Ln, Lp. case_decides.
    + destruct Hs as (?&?&Hs). apply NoDup_cons in ND as [Hz' ND].
      rewrite Ln, Lp. split_and!; [case_decides..|].
      eapply seg_ext; [..|exact Hs]; intros b Hb; [rewrite Ln|rewrite Lp]; case_decides.
  - rewrite lastd_cons in *. simpl in *. destruct Hs as (Hn&Hp&Hs).
    apply NoDup_cons in ND as [Hx ND].
    assert (NoDup (a :: l1 ++ l2)) as ND'
      by (rewrite <- Permutation_middle in ND;
          apply NoDup_cons in ND as [Ha ND]; apply NoDup_cons in ND as [_ ND]; constructor; set_solver).
    destruct (cut_neq a l1 l2 y) as [Hla Hha]; [done|set_solver|].
    rewrite Ln, Lp, !decide_False; [|done|set_solver].
    split_and!; [done..|].
    apply IH; try done; set_solver.
Qed.

Lemma queue_rep_linked h h' head l1 l2 item :
  queue_rep h head (l1 ++ l2) -> item ∉ head :: l1 ++ l2 ->
  linked h h' (lastd head l1) item (headd l2 head) -> queue_rep h' head (l1 ++ item :: l2).
Proof.
  intros [ND Hs] Hi HL. split.
  - assert (head :: l1 ++ item :: l2 ≡ₚ item :: head :: l1 ++ l2) as ->
      by (rewrite <- Permutation_middle; constructor).
    by constructor.
  - apply NoDup_cons in ND as [Hh ND].
    eapply seg_linked; [by constructor|done|done|set_solver|done|done].
Qed.

Lemma queue_rep_unlinked h h' head l1 l2 item :
  queue_rep h head (l1 ++ item :: l2) ->
  unlinked h h' (lastd head l1) (headd l2 head) -> queue_rep h' head (l1 ++ l2).
Proof.
  intros [ND Hs] HL. split.
  - assert (head :: l1 ++ item :: l2 ≡ₚ item :: head :: l1 ++ l2) as E
      by (rewrite <- Permutation_middle; constructor).
    rewrite E in ND. by apply NoDup_cons in ND as [_ ND].
  - pose proof ND as ND'. apply NoDup_cons in ND' as [Hh _]. by eapply seg_unlinked.
Qed.

Lemma queue_rep_mapped h head l a : queue_rep h head l -> a ∈ head :: l -> is_Some (h !! a).
Proof.
  intros [ND Hs] Ha. assert (is_Some (get_next a h)) as [n Hn].
  { clear ND. revert Hs Ha. generalize head at 1 3; intros x; revert x.
    induction l as [|z l IH]; intros x; simpl.
    - intros [? ?] ?. assert (a = x) as -> by set_solver. by eexists.
    - intros (?&?&Hs) Ha. apply elem_of_cons in Ha as [->|Ha]; [by eexists|]. by eapply IH. }
  unfold get_next in Hn. destruct (h !! a); [by eexists|done].
Qed.

(** ** The operations of queue.c on a represented queue *)

Ltac rsolve :=
  repeat match goal with
  | H : set_next ?a ?v ?h = Some ?h' |- context [get_next _ ?h'] =>
      rewrite (get_next_set_next _ _ _ _ _ H)
  | H : set_next ?a ?v ?h = Some ?h' |- context [get_prev _ ?h'] =>
      rewrite (get_prev_set_next _ _ _ _ _ H)
  | H : set_prev ?a ?v ?h = Some ?h' |- context [get_next _ ?h'] =>
      rewrite (get_next_set_prev _ _ _ _ _ H)
  | H : set_prev ?a ?v ?h = Some ?h' |- context [get_prev _ ?h'] =>
      rewrite (get_prev_set_prev _ _ _ _ _ H)
  end.

Lemma set_next_mapped a v h h' b :
  set_next a v h = Some h' -> is_Some (h !! b) -> is_Some (h' !! b).
Proof.
  unfold set_next. destruct (h !! a) eqn:E; simpl; [|done]. intros [= <-] Hb.
  rewrite lookup_insert. case_decide; [by eexists|done].
Qed.
Lemma set_prev_mapped a v h h' b :
  set_prev a v h = Some h' -> is_Some (h !! b) -> is_Some (h' !! b).
Proof.
  unfold set_prev. destruct (h !! a) eqn:E; simpl; [|done]. intros [= <-] Hb.
  rewrite lookup_insert. case_decide; [by eexists|done].
Qed.

Create HintDb qdb.
#[export] Hint Resolve set_next_mapped set_prev_mapped : qdb.

(** Run the next store of an operation; its address is mapped. *)
Ltac run_set :=
  match goal with
  | |- context [set_next ?a ?v ?h ≫= _] =>
      let h' := fresh "h" in let E := fresh "E" in
      destruct (set_next_ok a v h) as [h' E]; [eauto 8 with qdb|]; rewrite E; cbn [mbind option_bind]
  | |- context [set_prev ?a ?v ?h ≫= _] =>
      let h' := fresh "h" in let E := fresh "E" in
      destruct (set_prev_ok a v h) as [h' E]; [eauto 8 with qdb|]; rewrite E; cbn [mbind option_bind]
  | |- exists _, set_next ?a ?v ?h = _ /\ _ =>
      let h' := fresh "h" in let E := fresh "E" in
      destruct (set_next_ok a v h) as [h' E]; [eauto 8 with qdb|]; exists h'; split; [exact E|]
  | |- exists _, set_prev ?a ?v ?h = _ /\ _ =>
      let h' := fresh "h" in let E := fresh "E" in
      destruct (set_prev_ok a v h) as [h' E]; [eauto 8 with qdb|]; exists h'; split; [exact E|]
  end.

Ltac run_get lem := rsolve; rewrite ?decide_True, ?decide_False by congruence; rewrite ?lem; cbn [mbind option_bind].

Section Operations.
Context (h : qmem) (head item : Z).

(** What the store sequences do to the pointers, whatever the order in which
    the two C files write them. *)
Lemma enqueue_links p :
  get_prev head h = Some p -> p <> item -> item <> head ->
  is_Some (h !! item) -> is_Some (h !! head) -> is_Some (h !! p) ->
  exists h', enqueue head item h = Some h' /\ linked h h' p item head.
Proof.
  intros Hp ?? ???. unfold enqueue. run_set. run_get Hp. run_set. run_get Hp.
  run_set. run_set. split; intros a; rsolve; case_decides.
Qed.

Lemma queue_insert_links n :
  get_next head h = Some n -> n <> item -> item <> head ->
  is_Some (h !! item) -> is_Some (h !! head) -> is_Some (h !! n) ->
  exists h', queue_insert head item h = Some h' /\ linked h h' head item n.
Proof.
  intros Hn ?? ???. unfold queue_insert. run_set. run_get Hn. run_set. run_get Hn.
  run_set. run_set. split; intros a; rsolve; case_decides.
Qed.

Lemma list_insert_links n :
  get_next head h = Some n -> n <> item -> item <> head ->
  is_Some (h !! item) -> is_Some (h !! head) -> is_Some (h !! n) ->
  exists h', list_insert head item h = Some h' /\ linked h h' head item n.
Proof.
  intros Hn ?? ???. unfold list_insert. run_get Hn. run_set. run_set. run_get Hn.
  run_set. run_set. split; intros a; rsolve; case_decides.
Qed.

Lemma queue_remove_links p n :
  get_prev item h = Some p -> get_next item h = Some n -> p <> item -> n <> item ->
  is_Some (h !! p) -> is_Some (h !! n) ->
  exists h', queue_remove item h = Some h' /\ unlinked h h' p n.
Proof.
  intros Hp Hn ????. unfold queue_remove. run_get Hp. run_get Hn. run_set. run_get Hn. run_get Hp.
  run_set. split; intros a; rsolve; case_decides.
Qed.

Lemma list_remove_eq : list_remove item h = queue_remove item h.
Proof. done. Qed.

Lemma dequeue_links n :
  get_next head h = Some item -> item <> head -> get_next item h = Some n -> n <> item ->
  is_Some (h !! head) -> is_Some (h !! n) ->
  exists h', dequeue head h = Some (Some item, h') /\ unlinked h h' head n.
Proof.
  intros Hi ? Hn ???. unfold dequeue. rewrite Hi. cbn [mbind option_bind].
  destruct (Z.eqb_spec item head); [done|]. rewrite Hn. cbn [mbind option_bind].
  run_set. run_get Hn. run_set. exists h1. split; [done|]. split; intros a; rsolve; case_decides.
Qed.
End Operations.

(** ** Refinement: a memory of disjoint queues *)

(** Abstract state: the list of elements of every queue head. *)
Abbreviation qmap := (gmap Z (list Z)).

Definition on_none (x : Z) (m : qmap) : Prop := map_Forall (fun head l => x ∉ head :: l) m.

Record queues_rep (nodes : gset Z) (h : qmem) (m : qmap) : Prop := {
  qr_mapped : forall x, x ∈ nodes -> is_Some (h !! x);
  qr_rep : forall head l, m !! head = Some l -> queue_rep h head l;
  qr_disj : forall h1 l1 h2 l2, m !! h1 = Some l1 -> m !! h2 = Some l2 -> h1 <> h2 ->
            forall x, x ∈ h1 :: l1 -> x ∉ h2 :: l2;
}.

Inductive qop :=
| OpInit (head : Z)
| OpFirst (head : Z)
| OpLast (head : Z)
| OpEnqueue (head item : Z)
| OpInsert (head item : Z)
| OpRemove (item : Z)
| OpDequeue (head : Z)
| OpListInsert (prev node : Z)
| OpListRemove (node : Z).

(** [x] right behind [p]. *)
Fixpoint ins_after (p x : Z) (l : list Z) : list Z :=
  match l with
  | [] => []
  | a :: l => if a =? p then a :: x :: l else a :: ins_after p x l
  end.

(** The abstract operation; [None] when its use is not covered by the
    contract (an unknown head, an element already on a queue, the removal of
    an element that is on no queue). *)
Definition astep (nodes : gset Z) (op : qop) (m : qmap) : option (option Z * qmap) :=
  match op with
  | OpInit head => if decide (head ∈ nodes /\ on_none head m) then Some (None, <[head := []]> m) else None
  | OpFirst head => l ← m !! head; Some (Some (headd l head), m)
  | OpLast head => l ← m !! head; Some (Some (lastd head l), m)
  | OpEnqueue head x =>
      l ← m !! head;
      if decide (x ∈ nodes /\ on_none x m) then Some (None, <[head := l ++ [x]]> m) else None
  | OpInsert head x =>
      l ← m !! head;
      if decide (x ∈ nodes /\ on_none x m) then Some (None, <[head := x :: l]> m) else None
  | OpRemove x =>
      if decide (map_Exists (fun _ l => x ∈ l) m) then
        Some (None, filter (fun y => y <> x) <$> m)
      else None
  | OpDequeue head =>
      l ← m !! head;
      match l with
      | [] => Some (None, m)
      | x :: l => Some (Some x, <[head := l]> m)
      end
  | OpListInsert p x =>
      if decide (x ∈ nodes /\ on_none x m) then
        match m !! p with
        | Some l => Some (None, <[p := x :: l]> m)
        | None => if decide (map_Exists (fun _ l => p ∈ l) m) then Some (None, ins_after p x <$> m) else None
        end
      else None
  | OpListRemove x =>
      if decide (map_Exists (fun _ l => x ∈ l) m) then
        Some (None, filter (fun y => y <> x) <$> m)
      else None
  end.

(** The same operation of queue.c, queue.h or list.h. *)
Definition cstep (op : qop) (h : qmem) : option (option Z * qmem) :=
  match op with
  | OpInit head => h ← queue_init head h; Some (None, h)
  | OpFirst head => x ← queue_first head h; Some (Some x, h)
  | OpLast head => x ← queue_last head h; Some (Some x, h)
  | OpEnqueue head x => h ← enqueue head x h; Some (None, h)
  | OpInsert head x => h ← queue_insert head x h; Some (None, h)
  | OpRemove x => h ← queue_remove x h; Some (None, h)
  | OpDequeue head => dequeue head h
  | OpListInsert p x => h ← list_insert p x h; Some (None, h)
  | OpListRemove x => h ← list_remove x h; Some (None, h)
  end.

(** Sequences of operations, with the results. *)
Fixpoint asteps (nodes : gset Z) (ops : list qop) (m : qmap) : option (list (option Z) * qmap) :=
  match ops with
  | [] => Some ([], m)
  | op :: ops => '(r, m) ← astep nodes op m; '(rs, m) ← asteps nodes ops m; Some (r :: rs, m)
  end.
Fixpoint csteps (ops : list qop) (h : qmem) : option (list (option Z) * qmem) :=
  match ops with
  | [] => Some ([], h)
  | op :: ops => '(r, h) ← cstep op h; '(rs, h) ← csteps ops h; Some (r :: rs, h)
  end.

Lemma mapped_get_next h a : is_Some (h !! a) <-> is_Some (get_next a h).
Proof. unfold get_next. by rewrite fmap_is_Some. Qed.

Lemma queue_rep_ext h h' head l :
  (forall a, a ∈ head :: l -> get_next a h' = get_next a h /\ get_prev a h' = get_prev a h) ->
  queue_rep h head l -> queue_rep h' head l.
Proof.
  intros He [ND Hs]. split; [done|].
  eapply seg_ext; [..|done]; intros a Ha; apply He; set_solver.
Qed.

(** If only nodes of the queue [head] and a node that was on no queue changed,
    it suffices to show that [head] represents its new list. *)
Lemma queues_rep_update nodes h h' m head l l' x :
  queues_rep nodes h m -> m !! head = Some l ->
  (forall a, is_Some (h !! a) -> is_Some (h' !! a)) ->
  (forall a, a ∉ x :: head :: l -> get_next a h' = get_next a h /\ get_prev a h' = get_prev a h) ->
  (forall a, a ∈ l' -> a ∈ l \/ a = x) -> (x ∈ head :: l \/ on_none x m) ->
  queue_rep h' head l' -> queues_rep nodes h' (<[head := l']> m).
Proof.
  intros [Hm Hr Hd] Hl Hmap Hfr Hl' Hx Hrep.
  assert (forall h2 l2, m !! h2 = Some l2 -> h2 <> head -> forall a, a ∈ x :: head :: l -> a ∉ h2 :: l2) as Hout.
  { intros h2 l2 E2 Hne a [->|Ha]%elem_of_cons.
    - destruct Hx as [Hx|Hx]; [by eapply (Hd head l h2 l2)|by apply (Hx h2)].
    - by eapply (Hd head l h2 l2). }
  assert (forall a, a ∈ head :: l' -> a ∈ x :: head :: l) as Hin'.
  { intros a. rewrite !elem_of_cons. intros [->|Ha]; [tauto|]. destruct (Hl' a Ha); tauto. }
  split.
  - intros y Hy. by apply Hmap, Hm.
  - intros h2 l2. rewrite lookup_insert_Some. intros [[<- <-]|[Hne E2]]; [done|].
    eapply queue_rep_ext; [|by apply Hr]. intros a Ha. apply Hfr. intros Hin. by eapply Hout.
  - intros h1 l1 h2 l2. rewrite !lookup_insert_Some. intros [[<- <-]|[Hne1 E1]] [[<- <-]|[Hne2 E2]] Hne a Ha;
      [done|..].
    + eapply Hout; [done..|]. by apply Hin'.
    + intros Ha'. eapply (Hout h1 l1); [done..|by apply Hin'|exact Ha].
    + by eapply (Hd h1).
Qed.

Lemma linked_mapped h h' p x n a : linked h h' p x n -> is_Some (h !! a) -> is_Some (h' !! a).
Proof. intros [Ln _]. rewrite !mapped_get_next, Ln. case_decides. Qed.
Lemma unlinked_mapped h h' p n a : unlinked h h' p n -> is_Some (h !! a) -> is_Some (h' !! a).
Proof. intros [Ln _]. rewrite !mapped_get_next, Ln. case_decides. Qed.

Section Refinement.
Context (nodes : gset Z) (h : qmem) (m : qmap) (head : Z) (l : list Z).
Hypothesis (HR : queues_rep nodes h m) (Hl : m !! head = Some l).

Lemma rep_head : queue_rep h head l.
Proof. by apply HR. Qed.

Lemma rep_head_mapped a : a ∈ head :: l -> is_Some (h !! a).
Proof. apply queue_rep_mapped, rep_head. Qed.

(** Linking a free node behind [lastd head l1]. *)
Lemma insert_refines h' l1 l2 x :
  l = l1 ++ l2 -> on_none x m -> linked h h' (lastd head l1) x (headd l2 head) ->
  queues_rep nodes h' (<[head := l1 ++ x :: l2]> m).
Proof.
  pose proof rep_head as Hrep. intros -> Hf HL. pose proof (Hf head _ Hl) as Hx. simpl in Hx.
  pose proof (lastd_elem head l1). pose proof (headd_elem l2 head).
  eapply (queues_rep_update _ _ _ _ _ _ _ x HR Hl); [intros a; by eapply linked_mapped| |set_solver|by right|].
  - intros a Ha. destruct HL as [Ln Lp]. rewrite Ln, Lp, !decide_False; set_solver.
  - by eapply queue_rep_linked.
Qed.

Lemma remove_refines h' l1 l2 x :
  l = l1 ++ x :: l2 -> unlinked h h' (lastd head l1) (headd l2 head) ->
  queues_rep nodes h' (<[head := l1 ++ l2]> m).
Proof.
  pose proof rep_head as Hrep. intros -> HL.
  pose proof (lastd_elem head l1). pose proof (headd_elem l2 head).
  eapply (queues_rep_update _ _ _ _ _ _ _ x HR Hl);
    [intros a; by eapply unlinked_mapped| |set_solver|left; set_solver|].
  - intros a Ha. destruct HL as [Ln Lp]. rewrite Ln, Lp, !decide_False; set_solver.
  - by eapply queue_rep_unlinked.
Qed.

Lemma enqueue_refines x :
  x ∈ nodes -> on_none x m ->
  exists h', enqueue head x h = Some h' /\ queues_rep nodes h' (<[head := l ++ [x]]> m).
Proof.
  intros Hx Hf. pose proof (Hf head _ Hl) as Hxl. simpl in Hxl.
  pose proof rep_head as [ND Hs]. pose proof (lastd_elem head l).
  edestruct (seg_ends h head l []) as [Hn Hp]; [by rewrite app_nil_r|].
  unfold headd in *; simpl in *.
  destruct (enqueue_links h head x (lastd head l)) as (h'&E&HL);
    [done|set_solver|set_solver|by apply HR|apply rep_head_mapped; set_solver|by apply rep_head_mapped|].
  exists h'. split; [done|]. eapply insert_refines; [|done|done]. by rewrite app_nil_r.
Qed.

Lemma queue_insert_refines x :
  x ∈ nodes -> on_none x m ->
  exists h', queue_insert head x h = Some h' /\ queues_rep nodes h' (<[head := x :: l]> m).
Proof.
  intros Hx Hf. pose proof (Hf head _ Hl) as Hxl. simpl in Hxl.
  pose proof rep_head as [ND Hs]. pose proof (headd_elem l head).
  edestruct (seg_ends h head [] l) as [Hn Hp]; [done|]. unfold lastd in *; simpl in *.
  destruct (queue_insert_links h head x (headd l head)) as (h'&E&HL);
    [done|set_solver|set_solver|by apply HR|apply rep_head_mapped; set_solver|apply rep_head_mapped; set_solver|].
  exists h'. split; [done|]. by eapply (insert_refines _ [] l).
Qed.

Lemma queue_remove_refines l1 l2 x :
  l = l1 ++ x :: l2 ->
  exists h', queue_remove x h = Some h' /\ queues_rep nodes h' (<[head := l1 ++ l2]> m).
Proof.
  intros El. pose proof rep_head as [ND Hs]. pose proof rep_head_mapped as Hm. rewrite El in ND, Hs, Hm.
  edestruct (seg_ends h head l1 (x :: l2)) as [_ Hp]; [done|].
  apply seg_app in Hs as [_ Hs]. edestruct (seg_ends h x [] l2) as [Hn _]; [done|].
  unfold lastd, headd in Hp, Hn; simpl in Hp, Hn. fold (lastd head l1) (headd l2 head) in *.
  pose proof (lastd_elem head l1) as Hla. pose proof (headd_elem l2 head) as Hhd.
  assert (x ∉ head :: l1 /\ x ∉ l2 ++ [head]) as [Hx1 Hx2].
  { assert (head :: l1 ++ x :: l2 ≡ₚ x :: head :: l1 ++ l2) as E
      by (rewrite <- Permutation_middle; constructor).
    rewrite E in ND. apply NoDup_cons in ND as [Hx _]. set_solver. }
  destruct (queue_remove_links h x (lastd head l1) (headd l2 head)) as (h'&E&HL);
    [done|done|set_solver|set_solver|apply Hm; set_solver|apply Hm; set_solver|].
  exists h'. split; [done|]. by eapply remove_refines.
Qed.

Lemma dequeue_refines :
  match l with
  | [] => dequeue head h = Some (None, h)
  | x :: l' => exists h', dequeue head h = Some (Some x, h') /\ queues_rep nodes h' (<[head := l']> m)
  end.
Proof.
  pose proof rep_head as [ND Hs]. pose proof rep_head_mapped as Hm.
  pose proof remove_refines as Hrem. destruct l as [|x l'] eqn:El.
  - destruct Hs as [Hn _]. unfold dequeue. rewrite Hn. simpl. by rewrite Z.eqb_refl.
  - destruct Hs as (Hn&Hp&Hs). edestruct (seg_ends h x [] l') as [Hn' _]; [done|].
    unfold lastd in Hn'; simpl in Hn'. pose proof (headd_elem l' head) as Hhd.
    apply NoDup_cons in ND as [Hh ND]. apply NoDup_cons in ND as [Hx ND].
    destruct (dequeue_links h head x (headd l' head)) as (h'&E&HL);
      [done|set_solver|done|set_solver|apply Hm; set_solver|apply Hm; set_solver|].
    exists h'. split; [done|]. by eapply (Hrem _ [] l' x).
Qed.
End Refinement.

Lemma filter_notin (x : Z) (l : list Z) : x ∉ l -> filter (fun y => y <> x) l = l.
Proof.
  induction l as [|a l IH]; [done|]. intros [Ha Hl]%not_elem_of_cons. rewrite filter_cons.
  rewrite decide_True by congruence. by rewrite IH.
Qed.

Lemma filter_mid (x : Z) (l1 l2 : list Z) :
  x ∉ l1 -> x ∉ l2 -> filter (fun y => y <> x) (l1 ++ x :: l2) = l1 ++ l2.
Proof.
  intros. rewrite filter_app, filter_cons, decide_False by congruence. by rewrite !filter_notin.
Qed.

(** Removing from every queue is removing from the one that holds the element. *)
Lemma remove_all nodes h (m : qmap) head l1 x l2 :
  queues_rep nodes h m -> m !! head = Some (l1 ++ x :: l2) ->
  filter (fun y => y <> x) <$> m = <[head := l1 ++ l2]> m.
Proof.
  intros HR Hl. apply map_eq; intros h2. rewrite lookup_fmap, lookup_insert. case_decide; subst.
  - rewrite Hl. simpl. f_equal. destruct (qr_rep _ _ _ HR _ _ Hl) as [ND _].
    apply NoDup_cons in ND as [_ ND]. rewrite <- Permutation_middle in ND.
    apply NoDup_cons in ND as [Hx _]. apply not_elem_of_app in Hx as [??]. by apply filter_mid.
  - destruct (m !! h2) as [l'|] eqn:E; [|done]. simpl. f_equal. apply filter_notin.
    intros Hin. eapply (qr_disj _ _ _ HR head _ h2 l'); [done..|idtac|by right].
    right. apply elem_of_app. right. by left.
Qed.

(** Inserting behind an element in every queue is inserting in the one that
    holds it. *)
Lemma ins_after_notin p x l : p ∉ l -> ins_after p x l = l.
Proof.
  induction l as [|a l IH]; [done|]. intros [Ha Hl]%not_elem_of_cons. cbn. destruct (Z.eqb_spec a p); [congruence|]. by rewrite IH.
Qed.
Lemma ins_after_mid p x l1 l2 : p ∉ l1 -> ins_after p x (l1 ++ p :: l2) = l1 ++ p :: x :: l2.
Proof.
  induction l1 as [|a l1 IH]; cbn; [by rewrite Z.eqb_refl|]. intros [Ha Hl]%not_elem_of_cons.
  destruct (Z.eqb_spec a p); [congruence|]. by rewrite IH.
Qed.
Lemma insert_all nodes h (m : qmap) head l1 p x l2 :
  queues_rep nodes h m -> m !! head = Some (l1 ++ p :: l2) ->
  ins_after p x <$> m = <[head := l1 ++ p :: x :: l2]> m.
Proof.
  intros HR Hl. apply map_eq; intros h2. rewrite lookup_fmap, lookup_insert. case_decide; subst.
  - rewrite Hl. cbn. f_equal. destruct (qr_rep _ _ _ HR _ _ Hl) as [ND _]. apply NoDup_cons in ND as [_ ND].
    rewrite <- Permutation_middle in ND. apply NoDup_cons in ND as [Hp _]. apply not_elem_of_app in Hp as [??]. by apply ins_after_mid.
  - destruct (m !! h2) as [l'|] eqn:E; [|done]. cbn. f_equal. apply ins_after_notin.
    intros Hin. eapply (qr_disj _ _ _ HR head _ h2 l'); [done..|idtac|by right]. right. apply elem_of_app. right. by left.
Qed.

(** list_insert() behind the head or behind an element. *)
Lemma list_insert_refines nodes h m head l1 l2 x :
  queues_rep nodes h m -> m !! head = Some (l1 ++ l2) -> x ∈ nodes -> on_none x m ->
  exists h', list_insert (lastd head l1) x h = Some h' /\ queues_rep nodes h' (<[head := l1 ++ x :: l2]> m).
Proof.
  intros HR Hl Hx Hf. pose proof (Hf head _ Hl) as Hxl. simpl in Hxl. pose proof (qr_rep _ _ _ HR _ _ Hl) as [ND Hs].
  pose proof (lastd_elem head l1) as H1. pose proof (headd_elem l2 head) as H2.
  assert (lastd head l1 ∈ head :: l1 ++ l2) as H1' by set_solver +H1. assert (headd l2 head ∈ head :: l1 ++ l2) as H2' by set_solver +H2.
  destruct (seg_ends _ _ _ _ _ Hs) as [Hn _].
  destruct (list_insert_links h (lastd head l1) x (headd l2 head)) as (h'&E&HL);
    [done|congruence|congruence|by apply HR|eapply queue_rep_mapped; [by eapply (qr_rep _ _ _ HR)|done]..|].
  exists h'. split; [done|]. by eapply (insert_refines _ _ _ _ _ HR Hl).
Qed.

(** A node that is on no queue becomes an empty one. *)
Lemma queue_init_refines nodes h m head :
  queues_rep nodes h m -> head ∈ nodes -> on_none head m ->
  exists h', queue_init head h = Some h' /\ queues_rep nodes h' (<[head := []]> m).
Proof.
  intros HR Hh Hf. destruct (qr_mapped _ _ _ HR head Hh) as [[n p] Hm]. unfold queue_init, set_prev, set_next. rewrite Hm. cbn [mbind option_bind].
  rewrite lookup_insert_eq. cbn [mbind option_bind q_prev q_next]. rewrite insert_insert_eq. eexists. split; [done|].
  assert (forall h2 l2, m !! h2 = Some l2 -> h2 <> head /\ head ∉ h2 :: l2) as Hout.
  { intros h2 l2 E. pose proof (Hf _ _ E) as Hx. cbn in Hx. split; [set_solver +Hx|done]. }
  split.
  - intros x Hx. destruct (decide (x = head)) as [->|]; [rewrite lookup_insert_eq; by eexists|rewrite lookup_insert_ne by done; by apply HR].
  - intros h2 l2. rewrite lookup_insert_Some. intros [[<- <-]|[_ E]].
    + split; [apply NoDup_singleton|]. cbn. unfold get_next, get_prev. by rewrite lookup_insert_eq.
    + destruct (Hout _ _ E) as [_ Hn]. eapply queue_rep_ext; [|by apply (qr_rep _ _ _ HR)]. intros a Ha. unfold get_next, get_prev.
      rewrite lookup_insert_ne; [done|]. intros ->. done.
  - intros h1 l1 h2 l2. rewrite !lookup_insert_Some. intros [[<- <-]|[Hne1 E1]] [[<- <-]|[Hne2 E2]] Hne x Hx.
    + done.
    + apply list_elem_of_singleton in Hx as ->. by apply (Hout h2).
    + intros ->%list_elem_of_singleton. by apply (Hout h1 l1 E1).
    + by eapply (qr_disj _ _ _ HR h1).
Qed.

Lemma queue_op_refines nodes h m op r m' :
  queues_rep nodes h m -> astep nodes op m = Some (r, m') ->
  exists h', cstep op h = Some (r, h') /\ queues_rep nodes h' m'.
Proof.
  intros HR. assert (forall x, map_Exists (fun _ l => x ∈ l) m -> exists h', queue_remove x h = Some h' /\ queues_rep nodes h' (filter (fun y => y <> x) <$> m)) as Hrem.
  { intros x (head&l&E&Hx). apply list_elem_of_split in Hx as (l1&l2&->). edestruct queue_remove_refines as (h'&->&?); [done..|]. exists h'. split; [done|]. by erewrite remove_all. }
  destruct op as [head|head|head|head x|head x|x|head|p x|x]; simpl.
  - case_decide as Hc; [|done]. intros [= <- <-]. destruct Hc. edestruct queue_init_refines as (h'&->&?); [done..|]. by exists h'.
  - destruct (m !! head) as [l|] eqn:E; simpl; [|done]. intros [= <- <-]. destruct (qr_rep _ _ _ HR _ _ E) as [_ Hs].
    destruct (seg_ends h head [] l head Hs) as [Hn _]. unfold lastd in Hn. simpl in Hn. unfold queue_first. rewrite Hn. by exists h.
  - destruct (m !! head) as [l|] eqn:E; simpl; [|done]. intros [= <- <-]. destruct (qr_rep _ _ _ HR _ _ E) as [_ Hs].
    edestruct (seg_ends h head l []) as [_ Hp]; [by rewrite app_nil_r|]. unfold headd in Hp. simpl in Hp. unfold queue_last. rewrite Hp. by exists h.
  - destruct (m !! head) as [l|] eqn:E; simpl; [|done]. case_decide as Hc; [|done].
    intros [= <- <-]. destruct Hc. edestruct enqueue_refines as (h'&->&?); [done..|]. by exists h'.
  - destruct (m !! head) as [l|] eqn:E; simpl; [|done]. case_decide as Hc; [|done].
    intros [= <- <-]. destruct Hc. edestruct queue_insert_refines as (h'&->&?); [done..|]. by exists h'.
  - case_decide as Hc; [|done]. intros [= <- <-]. destruct (Hrem x Hc) as (h'&->&?). by exists h'.
  - destruct (m !! head) as [l|] eqn:E; simpl; [|done].
    pose proof (dequeue_refines nodes h m head l HR E) as Hd. destruct l as [|x l].
    + intros [= <- <-]. rewrite Hd. by exists h.
    + intros [= <- <-]. destruct Hd as (h'&->&?). by exists h'.
  - case_decide as Hc; [|done]. destruct Hc as [Hx Hf]. destruct (m !! p) as [l|] eqn:E.
    + intros [= <- <-]. destruct (list_insert_refines nodes h m p [] l x HR E Hx Hf) as (h'&Ei&?). unfold lastd in Ei. simpl in Ei. rewrite Ei. by exists h'.
    + case_decide as Hp; [|done]. intros [= <- <-]. destruct Hp as (head&l&El&Hp). apply list_elem_of_split in Hp as (l1&l2&->).
      destruct (list_insert_refines nodes h m head (l1 ++ [p]) l2 x HR) as (h'&Ei&HR'); [by rewrite <- app_assoc|done..|].
      assert (lastd head (l1 ++ [p]) = p) as EL by (unfold lastd; by rewrite last_snoc). rewrite EL in Ei. rewrite Ei. exists h'. split; [done|].
      rewrite (insert_all nodes h m head l1 p x l2 HR El). by rewrite <- app_assoc in HR'.
  - case_decide as Hc; [|done]. intros [= <- <-]. rewrite list_remove_eq. destruct (Hrem x Hc) as (h'&->&?). by exists h'.
Qed.

(** C21: refinement of queue.c, queue.h and list.h.  In a memory that holds
    any number of disjoint queues, every sequence of operations (queue_init,
    queue_first, queue_last, enqueue, dequeue, queue_insert, queue_remove,
    list_insert behind a head or an element, list_remove) whose use respects
    the contract (known heads, inserted nodes on no queue, removed nodes on
    one) succeeds without touching unmapped memory, returns the results of the
    list operations and leaves the lists they leave. *)
Theorem queue_ops_refine nodes h m ops rs m' :
  queues_rep nodes h m -> asteps nodes ops m = Some (rs, m') ->
  exists h', csteps ops h = Some (rs, h') /\ queues_rep nodes h' m'.
Proof.
  revert h m rs. induction ops as [|op ops IH]; intros h m rs HR; cbn [asteps csteps]; [intros [= <- <-]; by exists h|].
  destruct (astep nodes op m) as [[r m1]|] eqn:E; [|done]. cbn [mbind option_bind].
  destruct (asteps nodes ops m1) as [[rs1 m2]|] eqn:Es; [|done]. intros [= <- <-].
  destruct (queue_op_refines nodes h m op r m1 HR E) as (h1&->&HR1). cbn [mbind option_bind].
  destruct (IH h1 m1 rs1 HR1 Es) as (h'&->&HR'). by exists h'.
Qed.

(** A queue of one head and one free node, on which the refinement applies. *)
Definition demo_mem : qmem := {[ 16 := mkqueue 16 16; 32 := mkqueue 0 0 ]}.

Lemma demo_rep : queues_rep {[ 32 ]} demo_mem {[ 16 := [] ]}.
Proof.
  split.
  - intros x Hx%elem_of_singleton. subst. by eexists.
  - intros head l [<- <-]%lookup_singleton_Some. split; [apply NoDup_singleton|done].
  - intros h1 l1 h2 l2 [<- <-]%lookup_singleton_Some [<- <-]%lookup_singleton_Some. done.
Qed.

Lemma queue_ops_refine_witness :
  exists h', csteps [OpEnqueue 16 32; OpFirst 16; OpListRemove 32; OpListInsert 16 32] demo_mem = Some ([None; Some 32; None; None], h') /\
             queues_rep {[ 32 ]} h' {[ 16 := [32] ]}.
Proof. apply (queue_ops_refine _ _ _ _ _ _ demo_rep). vm_compute. reflexivity. Defined.

(** list.h: [list_insert(prev, node)] puts the node right behind [prev], be it
    the head or an element. *)
Lemma list_insert_rep h head l1 l2 x :
  queue_rep h head (l1 ++ l2) -> x ∉ head :: l1 ++ l2 -> is_Some (h !! x) ->
  exists h', list_insert (lastd head l1) x h = Some h' /\ queue_rep h' head (l1 ++ x :: l2).
Proof.
  intros HR Hx Hm. pose proof (queue_rep_mapped _ _ _ (lastd head l1) HR) as Hm1.
  pose proof (queue_rep_mapped _ _ _ (headd l2 head) HR) as Hm2.
  pose proof (lastd_elem head l1) as H1. pose proof (headd_elem l2 head) as H2.
  assert (lastd head l1 ∈ head :: l1 ++ l2) as H1' by set_solver +H1.
  assert (headd l2 head ∈ head :: l1 ++ l2) as H2' by set_solver +H2.
  destruct HR as [ND Hs]. destruct (seg_ends _ _ _ _ _ Hs) as [Hn Hp].
  destruct (list_insert_links h (lastd head l1) x (headd l2 head)) as (h'&E&HL);
    [done|congruence|congruence|done|by apply Hm1|by apply Hm2|].
  exists h'. split; [done|]. by eapply queue_rep_linked.
Qed.

(** Why the list models treat the removal of an element that is on no queue as
    a fault: the element still carries its old neighbours.  Here 32 is queued
    on 16 and removed, 48 is queued, and the second removal of 32 silently
    drops 48 from the queue. *)
Example stale_remove_corrupts :
  (h ← enqueue 16 32 {[ 16 := mkqueue 16 16; 32 := mkqueue 0 0; 48 := mkqueue 0 0 ]};
   h ← queue_remove 32 h; h ← enqueue 16 48 h; h ← queue_remove 32 h;
   n ← queue_first 16 h; p ← queue_last 16 h; Some (n, p)) = Some (16, 16).
Proof. vm_compute. reflexivity. Qed.
