(* ===== verification/Core.v ===== *)
(** * Core: the data shared by the scheduler and the timer service

    Constants and structures of [sys/include/thread.h], [sched.h], [event.h]
    and [timer.h].  The queues of the kernel are the intrusive lists of
    queue.c; here each queue is the list of its elements (Queue.v relates the
    two), and a use of an intrusive link outside the contract of queue.c
    (linking a node that is already linked, unlinking one that is not) is a
    fault, [None].

    [struct thread] is split in two records: [sthread] holds the fields the
    scheduler owns, and the record [thread] of Kernel.v the others. *)
From stdpp Require Import base numbers gmap list.
From S2P Require Import Prelude.

Open Scope Z_scope.

Abbreviation tid := Z.   (* address of a struct thread *)

(** ** Error numbers and the memory map *)
Definition EPERM := 1.
Definition ENOENT := 2.
Definition ESRCH := 3.
Definition EINTR := 4.
Definition EDEADLK := 11.
Definition ENOMEM := 12.
Definition EACCES := 13.
Definition EFAULT := 14.
Definition EBUSY := 16.
Definition EEXIST := 17.
Definition EINVAL := 22.
Definition ENOSPC := 28.
Definition ERANGE := 34.
Definition EAGAIN := 35.
Definition ETIMEDOUT := 60.
Definition ENAMETOOLONG := 63.

(** conf/i386/config.pc: memory PAGE_OFFSET 0x80000000, UMEM_MAX 0x80000000. *)
Definition PAGE_OFFSET := 0x80000000.
Definition UMEM_MAX := 0x80000000.
Definition kern_area (a : Z) : bool := PAGE_OFFSET <=? a.
Definition user_area (a : Z) : bool := a <? UMEM_MAX.

(** ** Constants *)
Definition TH_RUN := 0x00.
Definition TH_SLEEP := 0x01.
Definition TH_SUSPEND := 0x02.
Definition TH_EXIT := 0x04.

Definition SLP_SUCCESS := 0.
Definition SLP_BREAK := 1.
Definition SLP_TIMEOUT := 2.
Definition SLP_INVAL := 3.
Definition SLP_INTR := 4.

Definition PRIO_TIMER := 15.
Definition PRIO_IST := 16.
Definition PRIO_DPC := 33.
Definition PRIO_DFLT := 200.
Definition PRIO_IDLE := 255.
Definition MAX_PRIO := 0.
Definition MIN_PRIO := 255.
Definition NPRIO := 256.

Definition SCHED_FIFO := 0.
Definition SCHED_RR := 1.
Definition SCHED_OTHER := 2.

(** conf/i386/config.pc: options HZ=1000, TIME_SLICE=50. *)
Definition HZ := 1000.
Definition CONFIG_TIME_SLICE := 50.
Definition QUANTUM := CONFIG_TIME_SLICE * HZ / 1000.

(** ** Names of the statically and dynamically allocated events and timers *)

(** An event is identified by the object it is embedded in: the static events
    of sched.c, timer.c, msg.c and exception.c, and the [event] member of a
    mutex, a condition variable, a semaphore, a periodic timer or an irq at a
    given address. *)
Inductive evt :=
| EvDpc | EvTimer | EvDelay | EvIpc | EvException
| EvMutex (a : Z) | EvCond (a : Z) | EvSem (a : Z) | EvPeriodic (a : Z) | EvIst (a : Z).

#[export] Instance evt_eq_dec : EqDecision evt.
Proof. solve_decision. Defined.
#[export] Instance evt_countable : Countable evt.
Proof.
  refine (inj_countable'
    (fun e => match e with
       | EvDpc => (0, 0) | EvTimer => (1, 0) | EvDelay => (2, 0) | EvIpc => (3, 0)
       | EvException => (4, 0) | EvMutex a => (5, a) | EvCond a => (6, a) | EvSem a => (7, a)
       | EvPeriodic a => (8, a) | EvIst a => (9, a) end)
    (fun p => match p with
       | (0, _) => EvDpc | (1, _) => EvTimer | (2, _) => EvDelay | (3, _) => EvIpc
       | (4, _) => EvException | (5, a) => EvMutex a | (6, a) => EvCond a | (7, a) => EvSem a
       | (8, a) => EvPeriodic a | (_, a) => EvIst a end) _).
  by intros [].
Defined.

(** A timer is the [timeout] member of a thread, the [alarm] member of a task,
    or a timer allocated on its own (periodic timers, drivers). *)
Inductive tmr := TmTimeout (t : tid) | TmAlarm (task : Z) | TmHeap (a : Z).

#[export] Instance tmr_eq_dec : EqDecision tmr.
Proof. solve_decision. Defined.
#[export] Instance tmr_countable : Countable tmr.
Proof.
  refine (inj_countable'
    (fun t => match t with TmTimeout a => (0, a) | TmAlarm a => (1, a) | TmHeap a => (2, a) end)
    (fun p => match p with (0, a) => TmTimeout a | (1, a) => TmAlarm a | (_, a) => TmHeap a end) _).
  by intros [].
Defined.

(** The callout routines of the kernel with their argument; a driver's
    routine is an opaque code address. *)
Inductive callback :=
| SleepExpire (t : tid) | AlarmExpire (task : Z) | DriverCallout (func arg : Z).

#[export] Instance callback_eq_dec : EqDecision callback.
Proof. solve_decision. Defined.

(** ** struct timer and the static variables of timer.c *)
Record timer := mk_timer {
  tm_active : bool;
  tm_expire : Z;                 (* u_long *)
  tm_interval : Z;               (* u_long *)
  tm_func : option callback;
}.
#[export] Instance timer_eta : Settable timer := fun x =>
  mk_timer (tm_active x) (tm_expire x) (tm_interval x) (tm_func x).

Record timers := mk_timers {
  lbolt : Z;                     (* u_long, wraps *)
  timer_list : list tmr;
  expire_list : list tmr;
  tmrs : gmap tmr timer;
}.
#[export] Instance timers_eta : Settable timers := fun x =>
  mk_timers (lbolt x) (timer_list x) (expire_list x) (tmrs x).

(** ** The scheduler's part of struct thread *)
Record sthread := mk_sthread {
  th_state : Z;
  th_policy : Z;
  th_prio : Z;
  th_baseprio : Z;
  th_timeleft : Z;
  th_time : Z;
  th_resched : bool;
  th_locks : Z;
  th_slpevt : option evt;
  th_slpret : Z;
}.
#[export] Instance sthread_eta : Settable sthread := fun x =>
  mk_sthread (th_state x) (th_policy x) (th_prio x) (th_baseprio x) (th_timeleft x)
    (th_time x) (th_resched x) (th_locks x) (th_slpevt x) (th_slpret x).

(** ** The static variables of sched.c, with the event queues *)
Record sched := mk_sched {
  sth : gmap tid sthread;
  runq : gmap Z (list tid);      (* run queues *)
  wakeq : list tid;              (* queue for waking threads *)
  sleepq : gmap evt (list tid);  (* sleepq of every event *)
  top_prio : Z;                  (* highest priority in runq *)
  cur : tid;                     (* cur_thread *)
  tms : timers;
}.
#[export] Instance sched_eta : Settable sched := fun x =>
  mk_sched (sth x) (runq x) (wakeq x) (sleepq x) (top_prio x) (cur x) (tms x).

Definition rq (s : sched) (p : Z) : list tid := default [] (runq s !! p).
Definition sq (s : sched) (e : evt) : list tid := default [] (sleepq s !! e).

Definition event_waiting (s : sched) (e : evt) : bool :=
  match sq s e with [] => false | _ => true end.

(** event_init(): queue_init(&(event)->sleepq) *)
Definition event_init (e : evt) (s : sched) : sched := s <| sleepq ::= <[e := []]> |>.

(** ** Access to a thread and to its link *)

Definition th_upd (t : tid) (f : sthread -> sthread) (s : sched) : option sched :=
  th ← sth s !! t; Some (s <| sth ::= <[t := f th]> |>).

(** The [link] member of thread [t] is on no scheduling queue. *)
Definition link_free (t : tid) (s : sched) : bool :=
  bool_decide (t ∉ wakeq s /\ map_Forall (fun _ l => t ∉ l) (runq s)
                           /\ map_Forall (fun _ l => t ∉ l) (sleepq s)).

Definition without (t : tid) (l : list tid) : list tid := filter (fun x => x <> t) l.

(** queue_remove(&th->link): the thread leaves whichever queue holds it. *)
Definition unlink (t : tid) (s : sched) : option sched :=
  if link_free t s then None
  else Some (s <| wakeq ::= without t |> <| runq ::= fmap (without t) |> <| sleepq ::= fmap (without t) |>).

(** enqueue(&runq[p], &th->link), queue_insert, and the other queues. *)
Definition runq_tail (p : Z) (t : tid) (s : sched) : option sched :=
  if link_free t s then Some (s <| runq ::= <[p := rq s p ++ [t]]> |>) else None.
Definition runq_head (p : Z) (t : tid) (s : sched) : option sched :=
  if link_free t s then Some (s <| runq ::= <[p := t :: rq s p]> |>) else None.
Definition wakeq_tail (t : tid) (s : sched) : option sched :=
  if link_free t s then Some (s <| wakeq ::= fun l => l ++ [t] |>) else None.
Definition sleepq_tail (e : evt) (t : tid) (s : sched) : option sched :=
  if link_free t s then Some (s <| sleepq ::= <[e := sq s e ++ [t]]> |>) else None.
