(* ===== verification/Timer.v ===== *)
(** * Timer: the timer list of sys/kern/timer.c

    Time arithmetic of timer.h on 32-bit tick counts that wrap around, and the
    operations on the sorted list of active timers: [timer_add],
    [timer_callout], [timer_stop].  The tick handler, which also wakes
    threads, is in Sched.v. *)
From stdpp Require Import base numbers gmap list sorting.
From S2P Require Import Prelude Core.

Open Scope Z_scope.

(** ** timer.h *)

(** time_after(a,b): (((long)(b) - (long)(a)) < 0) *)
Definition time_after (a b : Z) : bool := s32 (s32 b - s32 a) <? 0.
Definition time_before (a b : Z) : bool := time_after b a.

(** msec_to_tick(ms): (((ms) >= 0x20000) ? ((ms) / 1000UL) * HZ : ((ms) * HZ) / 1000UL) *)
Definition msec_to_tick (ms : Z) : Z :=
  if 0x20000 <=? ms then u32 (ms / 1000 * HZ) else u32 (ms * HZ) / 1000.

(** tick_to_msec(tick): (((tick) * 1000) / HZ) *)
Definition tick_to_msec (tick : Z) : Z := u32 (tick * 1000) / HZ.

(** ** timer.c *)

Definition time_remain (expire : Z) (T : timers) : Z :=
  if time_before (lbolt T) expire then u32 (expire - lbolt T) else 0.

Definition tm_linked (tm : tmr) (T : timers) : bool :=
  bool_decide (tm ∈ timer_list T \/ tm ∈ expire_list T).

(** list_remove(&tmr->link) *)
Definition tm_unlink (tm : tmr) (T : timers) : option timers :=
  if tm_linked tm T then
    Some (T <| timer_list ::= filter (fun x => x <> tm) |> <| expire_list ::= filter (fun x => x <> tm) |>)
  else None.

Definition tm_upd (tm : tmr) (f : timer -> timer) (T : timers) : option timers :=
  t ← tmrs T !! tm; Some (T <| tmrs ::= <[tm := f t]> |>).

(** The search loop of [timer_add] and the insertion in front of the node it
    stops at. *)
Fixpoint timer_insert (M : gmap tmr timer) (expire : Z) (tm : tmr) (l : list tmr) : option (list tmr) :=
  match l with
  | [] => Some [tm]
  | n :: l' =>
      t ← M !! n;
      if time_before expire (tm_expire t) then Some (tm :: n :: l')
      else l'' ← timer_insert M expire tm l'; Some (n :: l'')
  end.

Definition timer_add (tm : tmr) (ticks : Z) (T : timers) : option timers :=
  T ← tm_upd tm (fun t => t <| tm_expire := u32 (lbolt T + ticks) |>) T;
  t ← tmrs T !! tm;
  if tm_linked tm T then None
  else
    l ← timer_insert (tmrs T) (tm_expire t) tm (timer_list T);
    Some (T <| timer_list := l |>).

Definition timer_callout (tm : tmr) (msec : Z) (func : callback) (T : timers) : option timers :=
  let ticks := msec_to_tick msec in
  let ticks := if ticks =? 0 then 1 else ticks in
  t ← tmrs T !! tm;
  T ← (if tm_active t then tm_unlink tm T else Some T);
  T ← tm_upd tm (fun t => t <| tm_func := Some func |> <| tm_active := true |> <| tm_interval := 0 |>) T;
  timer_add tm ticks T.

Definition timer_stop (tm : tmr) (T : timers) : option timers :=
  t ← tmrs T !! tm;
  if tm_active t then
    T ← tm_unlink tm T;
    tm_upd tm (fun t => t <| tm_active := false |>) T
  else Some T.

(** ** Time arithmetic *)

(** Signed distance in ticks from now to [expire]. *)
Definition dist (now expire : Z) : Z := s32 (expire - now).

Lemma dist_u32 now d : - 2 ^ 31 <= d < 2 ^ 31 -> dist now (u32 (now + d)) = d.
Proof.
  intros H. unfold dist, s32, u32.
  destruct (_ <? _) eqn:E; Z.div_mod_to_equations; lia.
Qed.

Lemma u32_dist now e : 0 <= e < 2 ^ 32 -> u32 (now + dist now e) = e.
Proof.
  intros H. unfold dist, s32, u32. destruct (_ <? _) eqn:E; Z.div_mod_to_equations; lia.
Qed.

(** The comparison of two deadlines that both lie less than half the counter
    range ahead is the comparison of the time left, however the tick counter
    wrapped. *)
Lemma time_before_dist now a b :
  0 <= a < 2 ^ 32 -> 0 <= b < 2 ^ 32 ->
  - 2 ^ 31 <= dist now a - dist now b < 2 ^ 31 ->
  time_before a b = (dist now a <? dist now b).
Proof.
  intros Ha Hb Hd. unfold time_before, time_after.
  rewrite <- (u32_dist now a), <- (u32_dist now b) at 1 by done.
  rewrite s32_u32_diff by lia. apply Bool.eq_iff_eq_true. rewrite !Z.ltb_lt. lia.
Qed.

Lemma time_before_now now e :
  0 <= now < 2 ^ 32 -> 0 <= e < 2 ^ 32 -> - 2 ^ 31 < dist now e ->
  time_before now e = (0 <? dist now e).
Proof.
  intros Hn He Hd. assert (dist now now = 0) as H0.
  { unfold dist. by rewrite Z.sub_diag. }
  pose proof (s32_range (e - now)) as Hr. fold (dist now e) in Hr.
  rewrite (time_before_dist now) by (rewrite ?H0; lia). by rewrite H0.
Qed.

Lemma time_remain_dist T e :
  0 <= lbolt T < 2 ^ 32 -> 0 <= e < 2 ^ 32 -> - 2 ^ 31 < dist (lbolt T) e ->
  time_remain e T = Z.max 0 (dist (lbolt T) e).
Proof.
  intros Hl He Hd. unfold time_remain. rewrite time_before_now by done.
  destruct (Z.ltb_spec 0 (dist (lbolt T) e)); [|lia].
  rewrite <- (u32_dist (lbolt T) e) at 1 by done.
  assert (u32 (u32 (lbolt T + dist (lbolt T) e) - lbolt T) = u32 (dist (lbolt T) e)) as ->.
  { unfold u32. rewrite Zminus_mod_idemp_l. f_equal. lia. }
  pose proof (s32_range (e - lbolt T)) as Hr. fold (dist (lbolt T) e) in Hr. rewrite u32_small; lia.
Qed.

(** ** The sorted list *)

(** Ticks left until the deadline of a timer. *)
Definition ticks_left (T : timers) (tm : tmr) : Z :=
  from_option (fun t => dist (lbolt T) (tm_expire t)) 0 (tmrs T !! tm).

(** Invariant of the timer list between two ticks: every linked timer exists,
    no timer is linked twice, and the deadlines on [timer_list] are not behind
    and are sorted. *)
Record timers_wf (T : timers) : Prop := {
  tw_now : 0 <= lbolt T < 2 ^ 32;
  tw_nodup : NoDup (timer_list T ++ expire_list T);
  tw_expire : forall tm t, tmrs T !! tm = Some t -> 0 <= tm_expire t < 2 ^ 32;
  tw_known : forall tm, tm ∈ timer_list T ++ expire_list T -> is_Some (tmrs T !! tm);
  tw_ahead : forall tm, tm ∈ timer_list T -> 0 <= ticks_left T tm;
  tw_sorted : StronglySorted (fun a b => ticks_left T a <= ticks_left T b) (timer_list T);
}.

Lemma left_range T tm : - 2 ^ 31 <= ticks_left T tm < 2 ^ 31.
Proof.
  unfold ticks_left. destruct (tmrs T !! tm); simpl; [|lia]. apply s32_range.
Qed.

Lemma left_Some T tm t : tmrs T !! tm = Some t -> ticks_left T tm = dist (lbolt T) (tm_expire t).
Proof. unfold ticks_left. by intros ->. Qed.

Lemma tm_linked_spec tm T : tm_linked tm T = true <-> tm ∈ timer_list T ++ expire_list T.
Proof. unfold tm_linked. by rewrite bool_decide_eq_true, elem_of_app. Qed.

Lemma tm_linked_false tm T : tm_linked tm T = false <-> tm ∉ timer_list T ++ expire_list T.
Proof. by rewrite <- tm_linked_spec, Bool.not_true_iff_false. Qed.

(** The search loop stops at the first timer that is due strictly later: the
    new timer goes behind all timers due at the same tick. *)
Lemma timer_insert_split T now M e tm l :
  M = tmrs T -> now = lbolt T ->
  (forall x t, M !! x = Some t -> 0 <= tm_expire t < 2 ^ 32) ->
  (forall x, x ∈ l -> is_Some (M !! x)) -> (forall x, x ∈ l -> 0 <= ticks_left T x) ->
  0 <= e < 2 ^ 32 -> 0 <= dist now e ->
  StronglySorted (fun a b => ticks_left T a <= ticks_left T b) l ->
  exists l1 l2, l = l1 ++ l2 /\ timer_insert M e tm l = Some (l1 ++ tm :: l2) /\
    (forall x, x ∈ l1 -> ticks_left T x <= dist now e) /\ (forall x, x ∈ l2 -> dist now e < ticks_left T x).
Proof.
  intros -> -> He Hk Ha Hr Hd. induction l as [|n l IH]; intros Hs.
  - exists [], []. split_and!; [done..|set_solver|set_solver].
  - apply StronglySorted_inv in Hs as [Hs Hn]. destruct (Hk n) as [t Ht]; [set_solver|]. simpl. rewrite Ht. simpl.
    pose proof (left_Some _ _ _ Ht) as Hl. pose proof (Ha n ltac:(set_solver)) as Hn0.
    pose proof (left_range T n). pose proof (s32_range (e - lbolt T)) as Hdr. fold (dist (lbolt T) e) in Hdr.
    rewrite (time_before_dist (lbolt T)) by (try lia; by eapply He).
    destruct (Z.ltb_spec (dist (lbolt T) e) (dist (lbolt T) (tm_expire t))).
    + exists [], (n :: l). split_and!; [done|done|set_solver|]. intros x [->|Hx]%elem_of_cons; [lia|].
      rewrite Forall_forall in Hn. specialize (Hn x Hx). simpl in Hn. lia.
    + destruct IH as (l1&l2&->&E&H1&H2); [set_solver|set_solver|done|]. rewrite E. simpl.
      exists (n :: l1), l2. split_and!; [done|done| |done].
      intros x [->|Hx]%elem_of_cons; [lia|by apply H1].
Qed.

Section Link.
Context (T T' : timers) (tm : tmr) (t1 : timer).
Hypothesis (Elb : lbolt T' = lbolt T) (Etm : tmrs T' = <[tm := t1]> (tmrs T)).

Lemma left_relink x :
  ticks_left T' x = if decide (tm = x) then dist (lbolt T) (tm_expire t1) else ticks_left T x.
Proof using Elb Etm. unfold ticks_left. rewrite Elb, Etm, lookup_insert. by case_decide. Qed.

(** Linking [tm] between [l1] and [l2] keeps the list well formed if its new
    deadline is between theirs. *)
Lemma timers_wf_link l1 l2 :
  timers_wf T -> tm ∉ timer_list T ++ expire_list T ->
  expire_list T' = expire_list T -> 0 <= tm_expire t1 < 2 ^ 32 -> 0 <= ticks_left T' tm ->
  timer_list T = l1 ++ l2 -> timer_list T' = l1 ++ tm :: l2 ->
  (forall x, x ∈ l1 -> ticks_left T x <= ticks_left T' tm) -> (forall x, x ∈ l2 -> ticks_left T' tm < ticks_left T x) ->
  timers_wf T'.
Proof using Elb Etm.
  intros W Hnl Eex Hex Hle El El' H1 H2.
  assert (forall x, x ∈ l1 ++ l2 -> ticks_left T' x = ticks_left T x) as Hsame.
  { intros x Hx. rewrite left_relink, decide_False; [done|]. intros ->. apply Hnl. rewrite El. set_solver. }
  assert (timer_list T' ++ expire_list T' ≡ₚ tm :: timer_list T ++ expire_list T) as HP.
  { rewrite El', Eex, El, <- !app_assoc. simpl. by rewrite <- Permutation_middle. }
  split.
  - rewrite Elb. apply W.
  - rewrite HP. constructor; [done|apply W].
  - intros x t. rewrite Etm, lookup_insert_Some. intros [[_ <-]|[_ Hx]]; [done|by eapply W].
  - intros x. rewrite HP, Etm, elem_of_cons. intros Hx. apply lookup_insert_is_Some'.
    destruct Hx as [->|Hx]; [by left|right]. by apply W.
  - intros x. rewrite El'. intros Hx. destruct (decide (x = tm)) as [->|Hne]; [done|].
    rewrite Hsame by set_solver. apply W. rewrite El. set_solver.
  - rewrite El'. destruct W as [_ _ _ _ _ HS]. rewrite El in HS.
    apply (StronglySorted_ext _ (fun a b => ticks_left T' a <= ticks_left T' b)) in HS.
    2:{ intros a b Ha Hb. by rewrite !Hsame. }
    apply StronglySorted_app in HS as (HS12&HS1&HS2). apply StronglySorted_app. split_and!; [|done|].
    + intros a b Ha [->|Hb]%elem_of_cons; [|by apply HS12]. rewrite (Hsame a) by set_solver. by apply H1.
    + constructor; [done|]. apply Forall_forall. intros b Hb. rewrite (Hsame b) by set_solver.
      apply Z.lt_le_incl. by apply H2.
Qed.
End Link.

(** What [timer_add] does on a well-formed list: the timer is due in [ticks]
    ticks, stands behind all timers due no later and before all timers due
    later, and nothing else changes. *)
Lemma timer_add_ok T tm t0 ticks :
  timers_wf T -> tmrs T !! tm = Some t0 ->
  tm ∉ timer_list T ++ expire_list T -> 0 <= ticks < 2 ^ 31 ->
  exists T' l1 l2, timer_add tm ticks T = Some T' /\ timers_wf T' /\
    timer_list T = l1 ++ l2 /\ timer_list T' = l1 ++ tm :: l2 /\ expire_list T' = expire_list T /\
    lbolt T' = lbolt T /\ tmrs T' = <[tm := t0 <| tm_expire := u32 (lbolt T + ticks) |>]> (tmrs T) /\
    ticks_left T' tm = ticks /\ (forall x, x ∈ l1 -> ticks_left T x <= ticks) /\ (forall x, x ∈ l2 -> ticks < ticks_left T x).
Proof.
  intros W Ht Hnl Hti. unfold timer_add, tm_upd. rewrite Ht. cbn [mbind option_bind].
  set (t1 := t0 <| tm_expire := u32 (lbolt T + ticks) |>).
  set (T1 := T <| tmrs ::= <[tm := t1]> |>).
  assert (tmrs T1 !! tm = Some t1) as Ht1 by (subst T1; simpl; apply lookup_insert_eq).
  rewrite Ht1. cbn [mbind option_bind]. change (timer_list T1) with (timer_list T).
  replace (tm_linked tm T1) with false by (symmetry; by apply tm_linked_false).
  assert (dist (lbolt T) (tm_expire t1) = ticks) as Hd by (simpl; apply dist_u32; lia).
  assert (forall x, x ∈ timer_list T -> ticks_left T1 x = ticks_left T x) as HL.
  { intros x Hx. rewrite (left_relink T T1 tm t1), decide_False; [done| |done..].
    intros ->. apply Hnl, elem_of_app; by left. }
  destruct (timer_insert_split T1 (lbolt T) (tmrs T1) (tm_expire t1) tm (timer_list T))
    as (l1&l2&El&Ei&H1&H2); [done|done|..].
  - intros x t. subst T1; simpl. rewrite lookup_insert_Some. intros [[_ <-]|[_ Hx]]; [apply u32_range|by eapply W].
  - intros x Hx. subst T1; simpl. apply lookup_insert_is_Some'. right. apply W, elem_of_app. by left.
  - intros x Hx. rewrite HL by done. by apply W.
  - apply u32_range.
  - lia.
  - eapply StronglySorted_ext; [|by apply W]. intros a b Ha Hb. by rewrite !HL.
  - rewrite Ei. cbn [mbind option_bind]. exists (T1 <| timer_list := l1 ++ tm :: l2 |>), l1, l2.
    rewrite Hd in H1, H2.
    assert (forall x, x ∈ l1 -> ticks_left T x <= ticks) as H1'
      by (intros x Hx; rewrite <- HL by (rewrite El; set_solver); by apply H1).
    assert (forall x, x ∈ l2 -> ticks < ticks_left T x) as H2'
      by (intros x Hx; rewrite <- HL by (rewrite El; set_solver); by apply H2).
    assert (ticks_left (T1 <| timer_list := l1 ++ tm :: l2 |>) tm = ticks) as Hl.
    { rewrite (left_relink T _ tm t1), decide_True; done. }
    split_and!; try done.
    eapply (timers_wf_link T _ tm t1); try done; rewrite ?Hl; [apply u32_range|lia|done|done].
Qed.

Lemma tm_unlink_ok T tm :
  timers_wf T -> tm ∈ timer_list T ++ expire_list T ->
  exists T', tm_unlink tm T = Some T' /\ timers_wf T' /\
    tm ∉ timer_list T' ++ expire_list T' /\ tmrs T' = tmrs T /\ lbolt T' = lbolt T /\
    timer_list T' = filter (fun x => x <> tm) (timer_list T) /\
    expire_list T' = filter (fun x => x <> tm) (expire_list T).
Proof.
  intros W Hl. unfold tm_unlink. rewrite (proj2 (tm_linked_spec tm T)) by done.
  eexists. split; [reflexivity|].
  split; [|split_and!; try done; simpl; rewrite <- filter_app, list_elem_of_filter; tauto].
  split; simpl.
  - apply W.
  - rewrite <- filter_app. eapply sublist_NoDup; [apply W|apply sublist_filter].
  - apply W.
  - intros x. rewrite <- filter_app, list_elem_of_filter. intros [_ ?]. by apply W.
  - intros x. rewrite list_elem_of_filter. intros [_ ?]. by apply W.
  - apply StronglySorted_filter, W.
Qed.

(** The fields of a timer other than the deadline are free. *)
Lemma timers_wf_upd T tm t f :
  timers_wf T -> tmrs T !! tm = Some t -> tm_expire (f t) = tm_expire t ->
  timers_wf (T <| tmrs ::= <[tm := f t]> |>).
Proof.
  intros W Ht Hf.
  assert (forall x, ticks_left (T <| tmrs ::= <[tm := f t]> |>) x = ticks_left T x) as HL.
  { intros x. rewrite (left_relink T _ tm (f t)) by done. case_decide; [|done].
    subst. by rewrite Hf, (left_Some _ _ _ Ht). }
  split; try apply W.
  - intros x t'. simpl. rewrite lookup_insert_Some. intros [[_ <-]|[_ ?]]; [rewrite Hf|]; by eapply W.
  - intros x Hx. simpl. apply lookup_insert_is_Some'. right. by apply W.
  - intros x Hx. rewrite HL. by apply W.
  - eapply StronglySorted_ext; [|apply W]. intros a b _ _. by rewrite !HL.
Qed.

Lemma filter_mid_tmr (tm : tmr) l1 l2 :
  filter (fun x => x <> tm) (l1 ++ tm :: l2) = filter (fun x => x <> tm) (l1 ++ l2).
Proof. rewrite !filter_app, filter_cons, decide_False by congruence. done. Qed.

Lemma filter_same_elem (tm x : tmr) (l l' : list tmr) :
  filter (fun x => x <> tm) l = filter (fun x => x <> tm) l' -> x <> tm -> x ∈ l <-> x ∈ l'.
Proof.
  intros Hf Hx. pose proof (list_elem_of_filter (fun y => y <> tm) l x) as H1.
  pose proof (list_elem_of_filter (fun y => y <> tm) l' x) as H2. rewrite Hf in H1. tauto.
Qed.

(** Ticks [timer_callout] programs for a delay: at least one. *)
Definition callout_ticks (msec : Z) : Z :=
  if msec_to_tick msec =? 0 then 1 else msec_to_tick msec.

(** What [timer_callout] does. *)
Lemma timer_callout_ok T tm t0 msec func :
  timers_wf T -> tmrs T !! tm = Some t0 ->
  (tm ∈ timer_list T ++ expire_list T <-> tm_active t0 = true) ->
  callout_ticks msec < 2 ^ 31 ->
  exists T' t1, timer_callout tm msec func T = Some T' /\ timers_wf T' /\
    tmrs T' !! tm = Some t1 /\ tm_active t1 = true /\ tm_interval t1 = 0 /\ tm_func t1 = Some func /\
    tm ∈ timer_list T' /\ ticks_left T' tm = callout_ticks msec /\
    filter (fun x => x <> tm) (timer_list T') = filter (fun x => x <> tm) (timer_list T) /\
    filter (fun x => x <> tm) (expire_list T') = filter (fun x => x <> tm) (expire_list T) /\
    (forall x, x <> tm -> ticks_left T' x = ticks_left T x) /\
    tmrs T' = <[tm := t1]> (tmrs T) /\
    (forall x, x <> tm -> x ∈ timer_list T' ++ expire_list T' <-> x ∈ timer_list T ++ expire_list T).
Proof.
  intros W Ht Hlk Hticks. unfold timer_callout. rewrite Ht. cbn [mbind option_bind].
  fold (callout_ticks msec).
  assert (exists T1, (if tm_active t0 then tm_unlink tm T else Some T) = Some T1 /\ timers_wf T1 /\
    tm ∉ timer_list T1 ++ expire_list T1 /\ tmrs T1 = tmrs T /\ lbolt T1 = lbolt T /\
    filter (fun x => x <> tm) (timer_list T1) = filter (fun x => x <> tm) (timer_list T) /\
    filter (fun x => x <> tm) (expire_list T1) = filter (fun x => x <> tm) (expire_list T))
    as (T1&->&W1&Hn1&Et1&El1&Ef1&Ef1').
  { destruct (tm_active t0) eqn:Ea.
    - destruct (tm_unlink_ok T tm) as (T1&->&W1&Hn&Et&El&E1&E2); [done|by apply Hlk|].
      exists T1. split_and!; try done; rewrite ?E1, ?E2; by apply list_filter_filter_l.
    - exists T. split_and!; try done. intros H. by apply Hlk in H. }
  cbn [mbind option_bind]. unfold tm_upd. rewrite Et1, Ht. cbn [mbind option_bind].
  set (t1 := t0 <| tm_func := Some func |> <| tm_active := true |> <| tm_interval := 0 |>).
  pose proof (timers_wf_upd T1 tm t0
    (fun t => t <| tm_func := Some func |> <| tm_active := true |> <| tm_interval := 0 |>) W1) as W2.
  rewrite Et1 in W2. specialize (W2 Ht eq_refl). fold t1 in W2. cbv beta in W2. fold t1.
  destruct (timer_add_ok (T1 <| tmrs ::= <[tm := t1]> |>) tm t1 (callout_ticks msec))
    as (T'&l1&l2&->&W'&E1&E2&E3&E4&E5&E6&E7&E8); [done|simpl; apply lookup_insert_eq|done| |].
  { split; [|done]. unfold callout_ticks, msec_to_tick.
    destruct (_ =? 0); [lia|]. destruct (_ <=? msec); [apply u32_range|]. apply Z.div_pos; [apply u32_range|lia]. }
  simpl in E1, E3, E4. exists T'. eexists. split_and!; try done.
  - rewrite E5. apply lookup_insert_eq.
  - done.
  - done.
  - done.
  - rewrite E2. set_solver.
  - by rewrite E2, filter_mid_tmr, <- E1.
  - by rewrite E3.
  - intros x Hx. unfold ticks_left. rewrite E5, E4, El1. simpl. by rewrite Et1, !lookup_insert_ne.
  - rewrite E5. simpl. by rewrite insert_insert_eq, Et1.
  - intros x Hx. assert (filter (fun x => x <> tm) (timer_list T' ++ expire_list T') =
      filter (fun x => x <> tm) (timer_list T ++ expire_list T)) as Hf.
    { rewrite !filter_app. f_equal; [by rewrite E2, filter_mid_tmr, <- E1|by rewrite E3]. }
    by apply (filter_same_elem tm).
Qed.

(** [timer_callout] schedules a known timer [max(1, msec_to_tick(msec))]
    ticks ahead: it ends up on the timer list exactly once (an earlier
    programming of the same timer is withdrawn), carries the callout, the list
    stays sorted with the timer behind those due no later, and the deadlines
    and relative order of all other timers are untouched. *)
Theorem timer_callout_schedules T tm t0 msec func :
  timers_wf T -> tmrs T !! tm = Some t0 ->
  (tm ∈ timer_list T ++ expire_list T <-> tm_active t0 = true) ->
  callout_ticks msec < 2 ^ 31 ->
  exists T' t1, timer_callout tm msec func T = Some T' /\ timers_wf T' /\
    tmrs T' !! tm = Some t1 /\ tm_active t1 = true /\ tm_interval t1 = 0 /\ tm_func t1 = Some func /\
    tm ∈ timer_list T' /\ ticks_left T' tm = callout_ticks msec /\
    filter (fun x => x <> tm) (timer_list T') = filter (fun x => x <> tm) (timer_list T) /\
    filter (fun x => x <> tm) (expire_list T') = filter (fun x => x <> tm) (expire_list T) /\
    (forall x, x <> tm -> ticks_left T' x = ticks_left T x).
Proof.
  intros W Ht Hlk Hticks. destruct (timer_callout_ok T tm t0 msec func W Ht Hlk Hticks) as (T'&t1&H1&H2&H3&H4&H5&H6&H7&H8&H9&H10&H11&_).
  by exists T', t1.
Qed.

(** A timer list with one free timer, just before the counter wraps. *)
Definition demo_timers : timers :=
  mk_timers (2 ^ 32 - 2) [] [] {[ TmHeap 64 := mk_timer false 0 0 None ]}.

Lemma demo_timers_wf : timers_wf demo_timers.
Proof.
  split; simpl.
  - lia.
  - constructor.
  - intros tm t [<- <-]%lookup_singleton_Some. simpl. lia.
  - set_solver.
  - set_solver.
  - constructor.
Qed.

Lemma timer_callout_schedules_witness :
  exists T' t1, timer_callout (TmHeap 64) 5 (DriverCallout 1 2) demo_timers = Some T' /\ timers_wf T' /\
    tmrs T' !! TmHeap 64 = Some t1 /\ tm_active t1 = true /\ tm_interval t1 = 0 /\
    tm_func t1 = Some (DriverCallout 1 2) /\
    TmHeap 64 ∈ timer_list T' /\ ticks_left T' (TmHeap 64) = callout_ticks 5 /\
    filter (fun x => x <> TmHeap 64) (timer_list T') = filter (fun x => x <> TmHeap 64) (timer_list demo_timers) /\
    filter (fun x => x <> TmHeap 64) (expire_list T') = filter (fun x => x <> TmHeap 64) (expire_list demo_timers) /\
    (forall x, x <> TmHeap 64 -> ticks_left T' x = ticks_left demo_timers x).
Proof.
  apply (timer_callout_schedules demo_timers (TmHeap 64) (mk_timer false 0 0 None));
    [exact demo_timers_wf|reflexivity|split; [intros H; exfalso; revert H; apply not_elem_of_nil|discriminate]|reflexivity].
Defined.

(** [timer_stop] of an active timer takes it off the list; an inactive timer is
    left alone.  The other timers keep their order and deadlines. *)
Lemma timer_stop_ok T tm t0 :
  timers_wf T -> tmrs T !! tm = Some t0 -> (tm_active t0 = true -> tm ∈ timer_list T ++ expire_list T) ->
  exists T', timer_stop tm T = Some T' /\ timers_wf T' /\ lbolt T' = lbolt T /\
    tmrs T' = <[tm := t0 <| tm_active := false |>]> (tmrs T) /\
    (forall x, x <> tm -> ticks_left T' x = ticks_left T x) /\
    (tm ∈ timer_list T' ++ expire_list T' <-> tm_active t0 = false /\ tm ∈ timer_list T ++ expire_list T) /\
    filter (fun x => x <> tm) (timer_list T') = filter (fun x => x <> tm) (timer_list T) /\
    (forall x, x <> tm -> x ∈ timer_list T' ++ expire_list T' <-> x ∈ timer_list T ++ expire_list T).
Proof.
  intros W Ht Hl. unfold timer_stop. rewrite Ht. cbn [mbind option_bind]. destruct (tm_active t0) eqn:Ea.
  - destruct (tm_unlink_ok T tm) as (T1&->&W1&Hn&Et&El&E1&E2); [done|by apply Hl|].
    cbn [mbind option_bind]. unfold tm_upd. rewrite Et, Ht. cbn [mbind option_bind].
    eexists. split; [reflexivity|].
    pose proof (timers_wf_upd T1 tm t0 (fun t => t <| tm_active := false |>) W1) as W2.
    rewrite Et in W2. specialize (W2 Ht eq_refl). split; [done|]. split; [done|].
    split_and!; try by (intros (?&?)).
    + simpl. by rewrite Et.
    + intros x Hx. unfold ticks_left. simpl. by rewrite El, Et, lookup_insert_ne by congruence.
    + split; [intros H; exfalso; by apply Hn|by intros [? _]].
    + simpl. rewrite E1. by apply list_filter_filter_l.
    + intros x Hx. simpl. rewrite E1, E2, <- filter_app, list_elem_of_filter. tauto.
  - exists T. split; [done|]. split; [done|]. split; [done|]. split_and!; try done.
    + destruct t0; simpl in *; subst. symmetry. by apply insert_id.
    + tauto.
Qed.

(** ** Conversion between milliseconds and ticks *)

(** With HZ=1000, converting a delay to ticks and back loses less than one
    second, and nothing below 131.072 s, as long as the tick count stays below
    2^32/1000. *)
Theorem msec_tick_roundtrip ms :
  0 <= ms < 4294967 ->
  tick_to_msec (msec_to_tick ms) <= ms < tick_to_msec (msec_to_tick ms) + 1000 /\
  (ms < 0x20000 -> tick_to_msec (msec_to_tick ms) = ms).
Proof.
  intros H. unfold tick_to_msec, msec_to_tick, HZ. destruct (Z.leb_spec 0x20000 ms).
  - rewrite (u32_small (ms / 1000 * 1000)), u32_small; Z.div_mod_to_equations; lia.
  - rewrite (u32_small (ms * 1000)) by lia. rewrite Z.div_mul, u32_small, Z.div_mul by lia. lia.
Qed.

Lemma msec_tick_roundtrip_witness :
  tick_to_msec (msec_to_tick 200500) <= 200500 < tick_to_msec (msec_to_tick 200500) + 1000 /\
  (200500 < 0x20000 -> tick_to_msec (msec_to_tick 200500) = 200500).
Proof. apply msec_tick_roundtrip. lia. Defined.

(** Beyond that bound the multiplication in [tick_to_msec] wraps: of a
    remaining time of 4,295,000 ticks (71 minutes) 32 ms are reported. *)
Theorem tick_to_msec_wraps : tick_to_msec 4295000 = 32.
Proof. reflexivity. Qed.

(** A timer programmed more than half the counter range ahead counts as
    already expired: no time remains, at once. *)
Theorem long_timeout_already_expired T ticks :
  2 ^ 31 < ticks < 2 ^ 32 -> 0 <= lbolt T < 2 ^ 32 ->
  time_remain (u32 (lbolt T + ticks)) T = 0 /\ time_before (lbolt T) (u32 (lbolt T + ticks)) = false.
Proof.
  intros Ht Hl. assert (u32 (lbolt T + ticks) = u32 (lbolt T + (ticks - 2 ^ 32))) as E.
  { unfold u32. rewrite <- (Z_mod_plus_full (lbolt T + (ticks - 2 ^ 32)) 1). f_equal. lia. }
  assert (dist (lbolt T) (u32 (lbolt T + ticks)) = ticks - 2 ^ 32) as Hd by (rewrite E; apply dist_u32; lia).
  split.
  - rewrite time_remain_dist; [lia|done|apply u32_range|lia].
  - rewrite time_before_now; [|done|apply u32_range|lia]. apply Z.ltb_ge. lia.
Qed.

Lemma long_timeout_already_expired_witness :
  time_remain (u32 (lbolt demo_timers + 3000000000)) demo_timers = 0 /\
  time_before (lbolt demo_timers) (u32 (lbolt demo_timers + 3000000000)) = false.
Proof. apply long_timeout_already_expired; simpl; lia. Defined.
