(* ===== verification/Sched.v ===== *)
(** * Sched: the scheduler of sys/kern/sched.c and the tick handler of timer.c

    Every routine that does not itself switch threads, as a function on the
    scheduler state; [None] is a fault (an absent thread, a misused intrusive
    link, an empty run queue where the code takes its head).  Functions that
    in C take and release the scheduler lock around their work appear here
    under the name of the C function with the suffix [_body]; the locked
    versions, [sched_unlock], [sched_tsleep] and the context switch are in
    Kernel.v. *)
From stdpp Require Import base numbers gmap list.
From S2P Require Import Prelude Core Timer.

Open Scope Z_scope.

(** ** Run queues *)

(** for (prio = 0; prio < MIN_PRIO; prio++) if (!queue_empty(&runq[prio])) break; *)
Fixpoint runq_scan (n : nat) (prio : Z) (s : sched) : Z :=
  match n with
  | O => prio
  | S n => match rq s prio with [] => runq_scan n (prio + 1) s | _ => prio end
  end.
Definition runq_top (s : sched) : Z := runq_scan (Z.to_nat MIN_PRIO) 0 s.

Definition runq_enqueue (t : tid) (s : sched) : option sched :=
  th ← sth s !! t;
  s ← runq_tail (th_prio th) t s;
  if th_prio th <? top_prio s then
    let s := s <| top_prio := th_prio th |> in
    th_upd (cur s) (fun c => c <| th_resched := true |>) s
  else Some s.

Definition runq_insert (t : tid) (s : sched) : option sched :=
  th ← sth s !! t;
  s ← runq_head (th_prio th) t s;
  if th_prio th <? top_prio s then Some (s <| top_prio := th_prio th |>) else Some s.

Definition runq_dequeue (s : sched) : option (tid * sched) :=
  match rq s (top_prio s) with
  | [] => None
  | t :: l =>
      let s := s <| runq ::= <[top_prio s := l]> |> in
      match rq s (top_prio s) with
      | [] => Some (t, s <| top_prio := runq_top s |>)
      | _ => Some (t, s)
      end
  end.

Definition runq_remove (t : tid) (s : sched) : option sched :=
  s ← unlink t s;
  Some (s <| top_prio := runq_top s |>).

(** ** Wake queue *)

(** The body of the loop of [wakeq_flush], for the dequeued thread. *)
Definition wakeq_flush_one (t : tid) (s : sched) : option sched :=
  s ← th_upd t (fun th => th <| th_slpevt := None |> <| th_state ::= fun st => clr st TH_SLEEP |>) s;
  th ← sth s !! t;
  if negb (t =? cur s) && (th_state th =? TH_RUN) then runq_enqueue t s else Some s.

Fixpoint wakeq_flush_loop (n : nat) (s : sched) : option sched :=
  match wakeq s with
  | [] => Some s
  | t :: l =>
      match n with
      | O => None
      | S n => s ← wakeq_flush_one t (s <| wakeq := l |>); wakeq_flush_loop n s
      end
  end.
Definition wakeq_flush (s : sched) : option sched := wakeq_flush_loop (length (wakeq s)) s.

(** ** sched_switch, up to the context switch: the thread that runs next is
    the new [cur]. *)
Definition sched_switch_sel (s : sched) : option sched :=
  let prev := cur s in
  th ← sth s !! prev;
  s ← (if th_state th =? TH_RUN then
         if top_prio s <? th_prio th then runq_insert prev s else runq_enqueue prev s
       else Some s);
  s ← th_upd prev (fun th => th <| th_resched := false |>) s;
  '(next, s) ← runq_dequeue s;
  Some (s <| cur := next |>).

(** ** Sleep and wakeup *)

Definition stop_timeout (t : tid) (s : sched) : option sched :=
  T ← timer_stop (TmTimeout t) (tms s); Some (s <| tms := T |>).

(** The part of sched_tsleep before the switch: the current thread joins the
    sleep queue and its timeout is programmed. *)
Definition sleep_enter (e : evt) (msec : Z) (s : sched) : option sched :=
  let t := cur s in
  s ← th_upd t (fun th => th <| th_slpevt := Some e |> <| th_state ::= fun st => Z.lor st TH_SLEEP |>) s;
  s ← sleepq_tail e t s;
  if negb (msec =? 0) then
    T ← timer_callout (TmTimeout t) msec (SleepExpire t) (tms s); Some (s <| tms := T |>)
  else Some s.

Definition wake (t : tid) (result : Z) (s : sched) : option sched :=
  s ← th_upd t (fun th => th <| th_slpret := result |>) s;
  s ← wakeq_tail t s;
  stop_timeout t s.

Fixpoint wakeup_loop (n : nat) (e : evt) (s : sched) : option sched :=
  match sq s e with
  | [] => Some s
  | t :: l =>
      match n with
      | O => None
      | S n => s ← wake t 0 (s <| sleepq ::= <[e := l]> |>); wakeup_loop n e s
      end
  end.
Definition sched_wakeup_body (e : evt) (s : sched) : option sched := wakeup_loop (length (sq s e)) e s.

(** Selection of the best thread of a queue, as in sched_wakeone and
    msg_dequeue: the first one of the smallest priority value. *)
Fixpoint select_top (top : tid) (l : list tid) (s : sched) : option tid :=
  match l with
  | [] => Some top
  | t :: l =>
      th ← sth s !! t; tp ← sth s !! top;
      select_top (if th_prio th <? th_prio tp then t else top) l s
  end.

Definition sched_wakeone_body (e : evt) (s : sched) : option (option tid * sched) :=
  match sq s e with
  | [] => Some (None, s)
  | t :: _ =>
      top ← select_top t (sq s e) s;
      s ← unlink top s;
      s ← wake top 0 s;
      Some (Some top, s)
  end.

Definition sched_unsleep_body (t : tid) (result : Z) (s : sched) : option sched :=
  th ← sth s !! t;
  if flag (th_state th) TH_SLEEP then s ← unlink t s; wake t result s else Some s.

Definition sched_yield_body (s : sched) : option sched :=
  c ← sth s !! cur s;
  match rq s (th_prio c) with
  | [] => Some s
  | _ => th_upd (cur s) (fun th => th <| th_resched := true |>) s
  end.

(** ** Suspend, resume, start, stop *)

Definition sched_suspend (t : tid) (s : sched) : option sched :=
  th ← sth s !! t;
  s ← (if th_state th =? TH_RUN then
         if t =? cur s then th_upd t (fun th => th <| th_resched := true |>) s else runq_remove t s
       else Some s);
  th_upd t (fun th => th <| th_state ::= fun st => Z.lor st TH_SUSPEND |>) s.

Definition sched_resume (t : tid) (s : sched) : option sched :=
  th ← sth s !! t;
  if flag (th_state th) TH_SUSPEND then
    s ← th_upd t (fun th => th <| th_state ::= fun st => clr st TH_SUSPEND |>) s;
    th ← sth s !! t;
    if th_state th =? TH_RUN then runq_enqueue t s else Some s
  else Some s.

Definition sched_tick (s : sched) : option sched :=
  s ← th_upd (cur s) (fun c => c <| th_time ::= fun n => u32 (n + 1) |>) s;
  c ← sth s !! cur s;
  if th_policy c =? SCHED_RR then
    s ← th_upd (cur s) (fun c => c <| th_timeleft ::= fun n => n - 1 |>) s;
    c ← sth s !! cur s;
    if th_timeleft c <=? 0 then
      th_upd (cur s) (fun c => c <| th_timeleft ::= fun n => n + QUANTUM |> <| th_resched := true |>) s
    else Some s
  else Some s.

Definition sched_start (t : tid) (s : sched) : option sched :=
  th_upd t (fun th => th <| th_state := Z.lor TH_RUN TH_SUSPEND |> <| th_policy := SCHED_RR |>
                         <| th_prio := PRIO_DFLT |> <| th_baseprio := PRIO_DFLT |>
                         <| th_timeleft := QUANTUM |>) s.

Definition sched_stop (t : tid) (s : sched) : option sched :=
  th ← sth s !! t;
  s ← (if t =? cur s then th_upd t (fun th => th <| th_locks := 1 |> <| th_resched := true |>) s
       else if th_state th =? TH_RUN then runq_remove t s
       else if flag (th_state th) TH_SLEEP then unlink t s
       else Some s);
  s ← stop_timeout t s;
  th_upd t (fun th => th <| th_state := TH_EXIT |>) s.

(** ** Priority and policy *)

Definition sched_getprio (t : tid) (s : sched) : option Z := th_prio <$> sth s !! t.

Definition sched_setprio (t : tid) (base p : Z) (s : sched) : option sched :=
  s ← th_upd t (fun th => th <| th_baseprio := base |>) s;
  th ← sth s !! t;
  if t =? cur s then
    s ← th_upd t (fun th => th <| th_prio := p |>) s;
    let s := s <| top_prio := runq_top s |> in
    if negb (p =? top_prio s) then th_upd (cur s) (fun c => c <| th_resched := true |>) s else Some s
  else if th_state th =? TH_RUN then
    s ← runq_remove t s;
    s ← th_upd t (fun th => th <| th_prio := p |>) s;
    runq_enqueue t s
  else th_upd t (fun th => th <| th_prio := p |>) s.

Definition sched_getpolicy (t : tid) (s : sched) : option Z := th_policy <$> sth s !! t.

Definition sched_setpolicy (t : tid) (policy : Z) (s : sched) : option (Z * sched) :=
  if (policy =? SCHED_RR) || (policy =? SCHED_FIFO) then
    s ← th_upd t (fun th => th <| th_timeleft := QUANTUM |> <| th_policy := policy |>) s; Some (0, s)
  else Some (-1, s).

(** ** The tick handler of timer.c *)

(** One expired timer: a periodic timer is programmed again and its waiters
    are woken, any other goes to the head of the expired list; the flag tells
    whether the timer thread has to run. *)
Definition timer_expire (tm : tmr) (s : sched) : option (bool * sched) :=
  t ← tmrs (tms s) !! tm;
  T ← tm_unlink tm (tms s);
  if negb (tm_interval t =? 0) then
    let ticks := time_remain (u32 (tm_expire t + tm_interval t)) T in
    let ticks := if ticks =? 0 then 1 else ticks in
    T ← timer_add tm ticks T;
    s ← (match tm with
         | TmHeap a => sched_wakeup_body (EvPeriodic a) (s <| tms := T |>)
         | _ => Some (s <| tms := T |>)
         end);
    Some (false, s)
  else Some (true, s <| tms := T <| expire_list ::= cons tm |> |>).

Fixpoint timer_tick_loop (n : nat) (wakeup : bool) (s : sched) : option (bool * sched) :=
  match timer_list (tms s) with
  | [] => Some (wakeup, s)
  | tm :: _ =>
      t ← tmrs (tms s) !! tm;
      if time_before (lbolt (tms s)) (tm_expire t) then Some (wakeup, s)
      else
        match n with
        | O => None
        | S n => p ← timer_expire tm s; timer_tick_loop n (wakeup || p.1) p.2
        end
  end.

(** The result is the argument passed to the tick hook, a driver routine. *)
Definition timer_tick (s : sched) : option (bool * sched) :=
  let s := s <| tms ::= set lbolt (fun l => u32 (l + 1)) |> in
  '(wakeup, s) ← timer_tick_loop (length (timer_list (tms s))) false s;
  s ← (if (wakeup : bool) then sched_wakeup_body EvTimer s else Some s);
  s ← sched_tick s;
  c ← sth s !! cur s;
  Some (th_prio c =? PRIO_IDLE, s).
