(* ===== verification/SchedInv.v ===== *)
(** * SchedInv: the invariant of the scheduler and its preservation

    [qwf X R s] says that the intrusive queues agree with the thread states:
    a thread is on the run queue of its priority exactly if it is runnable and
    not running, on the wake queue or on the sleep queue of its event exactly
    if it is sleeping, and on no queue otherwise.  [R] is the running thread;
    [X] is a thread that has been taken off its queue while it is being
    changed and is exempt. *)
From stdpp Require Import base numbers gmap list.
From S2P Require Import Prelude Core Timer Sched.

Open Scope Z_scope.

Definition sleeping (th : sthread) : bool := flag (th_state th) TH_SLEEP.

Record qwf (X R : option tid) (s : sched) : Prop := {
  wf_rq_nodup : forall p, NoDup (rq s p);
  wf_rq_in : forall p t, t ∈ rq s p -> exists th, sth s !! t = Some th /\ th_prio th = p /\
             th_state th = TH_RUN /\ Some t <> X /\ Some t <> R;
  wf_wq_nodup : NoDup (wakeq s);
  wf_wq_in : forall t, t ∈ wakeq s -> exists th, sth s !! t = Some th /\ sleeping th = true /\ Some t <> X;
  wf_sq_nodup : forall e, NoDup (sq s e);
  wf_sq_in : forall e t, t ∈ sq s e -> exists th, sth s !! t = Some th /\ sleeping th = true /\
             th_slpevt th = Some e /\ t ∉ wakeq s /\ Some t <> X;
  wf_run : forall t th, sth s !! t = Some th -> th_state th = TH_RUN -> Some t <> X -> Some t <> R ->
           t ∈ rq s (th_prio th);
  wf_slp : forall t th, sth s !! t = Some th -> sleeping th = true -> Some t <> X ->
           t ∈ wakeq s \/ exists e, th_slpevt th = Some e /\ t ∈ sq s e;
  wf_prio : forall t th, sth s !! t = Some th -> 0 <= th_prio th <= MIN_PRIO /\ 0 <= th_baseprio th <= MIN_PRIO;
}.

(** [top_prio] caches the best priority with a queued thread. *)
Record top_ok (s : sched) : Prop := { top_eq : top_prio s = runq_top s }.

(** No unserved claim to the CPU: the current thread does not sleep and, unless
    a reschedule is pending, is runnable and no queued thread has a better
    priority. *)
Definition best (s : sched) : Prop :=
  exists c, sth s !! cur s = Some c /\ sleeping c = false /\
    (th_resched c = true \/ (th_state c = TH_RUN /\ th_prio c <= top_prio s)).

(** Only the current thread is ever marked for rescheduling. *)
Definition quiet (s : sched) : Prop :=
  forall t th, sth s !! t = Some th -> th_resched th = true -> t = cur s.

Definition swf (s : sched) : Prop := qwf None (Some (cur s)) s /\ top_ok s /\ best s /\ quiet s.

(** ** Reading the fields of an updated state *)

Lemma rq_insert s p l q :
  rq (s <| runq ::= <[p := l]> |>) q = if decide (p = q) then l else rq s q.
Proof. unfold rq. simpl. rewrite lookup_insert. by case_decide. Qed.

Lemma sq_insert s e l q :
  sq (s <| sleepq ::= <[e := l]> |>) q = if decide (e = q) then l else sq s q.
Proof. unfold sq. simpl. rewrite lookup_insert. by case_decide. Qed.

Lemma rq_without s t p : rq (s <| runq ::= fmap (without t) |>) p = without t (rq s p).
Proof. unfold rq. simpl. rewrite lookup_fmap. by destruct (runq s !! p). Qed.

Lemma sq_without s t e : sq (s <| sleepq ::= fmap (without t) |>) e = without t (sq s e).
Proof. unfold sq. simpl. rewrite lookup_fmap. by destruct (sleepq s !! e). Qed.

Lemma elem_of_without t x l : x ∈ without t l <-> x <> t /\ x ∈ l.
Proof. unfold without. by rewrite list_elem_of_filter. Qed.

Lemma NoDup_without t l : NoDup l -> NoDup (without t l).
Proof. intros. eapply sublist_NoDup; [done|apply sublist_filter]. Qed.

Lemma without_notin t l : t ∉ l -> without t l = l.
Proof.
  unfold without. induction l as [|a l IH]; [done|]. intros [Ha Hl]%not_elem_of_cons.
  rewrite filter_cons, decide_True by congruence. by rewrite IH.
Qed.

Lemma link_free_spec t s :
  link_free t s = true <-> t ∉ wakeq s /\ (forall p, t ∉ rq s p) /\ (forall e, t ∉ sq s e).
Proof.
  unfold link_free. rewrite bool_decide_eq_true. unfold map_Forall, rq, sq. split.
  - intros (?&Hr&Hs). split_and!; [done|..].
    + intros p. destruct (runq s !! p) eqn:E; simpl; [by eapply Hr|apply not_elem_of_nil].
    + intros e. destruct (sleepq s !! e) eqn:E; simpl; [by eapply Hs|apply not_elem_of_nil].
  - intros (?&Hr&Hs). split_and!; [done|..].
    + intros p l E. specialize (Hr p). by rewrite E in Hr.
    + intros e l E. specialize (Hs e). by rewrite E in Hs.
Qed.

Lemma link_free_false t s :
  t ∈ wakeq s \/ (exists p, t ∈ rq s p) \/ (exists e, t ∈ sq s e) -> link_free t s = false.
Proof.
  intros H. apply Bool.not_true_iff_false. rewrite link_free_spec. naive_solver.
Qed.

(** [eq_queues s s']: the two states differ at most in fields other than the queues. *)
Definition eq_queues (s s' : sched) : Prop :=
  runq s' = runq s /\ wakeq s' = wakeq s /\ sleepq s' = sleepq s.

Lemma eq_queues_rq s s' p : eq_queues s s' -> rq s' p = rq s p.
Proof. unfold rq. by intros (->&_). Qed.
Lemma eq_queues_sq s s' e : eq_queues s s' -> sq s' e = sq s e.
Proof. unfold sq. by intros (_&_&->). Qed.

(** ** The highest non-empty run queue *)

Lemma runq_scan_spec n p s :
  p <= runq_scan n p s <= p + Z.of_nat n /\
  (forall q, p <= q < runq_scan n p s -> rq s q = []) /\
  (runq_scan n p s < p + Z.of_nat n -> rq s (runq_scan n p s) <> []).
Proof.
  revert p; induction n as [|n IH]; intros p; cbn [runq_scan].
  - split_and!; [lia|lia|lia|lia].
  - destruct (rq s p) as [|x l] eqn:E.
    + destruct (IH (p + 1)) as (H1&H2&H3). split_and!; [lia|lia| |].
      * intros q Hq. destruct (decide (q = p)) as [->|]; [done|]. apply H2. lia.
      * intros H. apply H3. lia.
    + split_and!; [lia|lia|intros; lia|]. intros _. by rewrite E.
Qed.

(** [runq_top] is the best priority with a non-empty run queue, and
    [MIN_PRIO] when only the idle priority can have one. *)
Lemma runq_top_ok s :
  0 <= runq_top s <= MIN_PRIO /\ (forall q, 0 <= q < runq_top s -> rq s q = []) /\
  (runq_top s < MIN_PRIO -> rq s (runq_top s) <> []).
Proof.
  unfold runq_top. destruct (runq_scan_spec (Z.to_nat MIN_PRIO) 0 s) as (H1&H2&H3).
  rewrite Z2Nat.id in * by done. split_and!; [lia|lia|done|]. intros H. apply H3. lia.
Qed.

#[global] Opaque runq_top.

Lemma runq_top_unique s p :
  0 <= p <= MIN_PRIO -> (forall q, 0 <= q < p -> rq s q = []) -> (p < MIN_PRIO -> rq s p <> []) ->
  runq_top s = p.
Proof.
  intros Hp He Hn. destruct (runq_top_ok s) as (Ht&He'&Hn').
  destruct (Z.lt_trichotomy (runq_top s) p) as [Hlt|[Heq|Hgt]]; [|done|].
  - exfalso. apply Hn'; [lia|]. apply He. lia.
  - exfalso. apply Hn; [lia|]. apply He'. lia.
Qed.

Lemma runq_top_ext s s' : (forall p, rq s' p = rq s p) -> runq_top s' = runq_top s.
Proof.
  intros E. destruct (runq_top_ok s) as (Ht&He&Hn).
  apply runq_top_unique; [done|..]; intros; rewrite E; auto.
Qed.

Lemma top_ok_ext s s' : (forall p, rq s' p = rq s p) -> top_prio s' = runq_top s -> top_ok s'.
Proof. intros E H. split. rewrite H. symmetry. by apply runq_top_ext. Qed.

Lemma top_ok_frame s s' : (forall p, rq s' p = rq s p) -> top_prio s' = top_prio s -> top_ok s -> top_ok s'.
Proof. intros E H [Ht]. apply (top_ok_ext s); congruence. Qed.

(** A thread on a run queue bounds the top priority. *)
Lemma runq_top_le s t p : 0 <= p -> t ∈ rq s p -> runq_top s <= p.
Proof.
  intros Hp Ht. destruct (runq_top_ok s) as (_&He&_).
  destruct (Z.le_gt_cases (runq_top s) p); [done|]. rewrite He in Ht by lia. by apply not_elem_of_nil in Ht.
Qed.

(** ** Changing a thread, detaching and attaching it *)

(** What decides the place of a thread in the queues. *)
Definition place (th : sthread) :=
  (if bool_decide (th_state th = TH_RUN) then Some (th_prio th) else None, sleeping th, th_slpevt th).

(** What [qwf] looks at in a thread. *)
Definition view (th : sthread) := (place th, th_prio th, th_baseprio th).

Lemma place_inv th th' : place th = place th' ->
  (th_state th = TH_RUN <-> th_state th' = TH_RUN) /\ sleeping th = sleeping th' /\
  (th_state th = TH_RUN -> th_prio th = th_prio th') /\ th_slpevt th = th_slpevt th'.
Proof.
  unfold place. intros [= H ? ?]. repeat case_bool_decide; simplify_eq; split_and!; try done; intros; congruence.
Qed.

Lemma view_inv th th' : view th = view th' ->
  (th_state th = TH_RUN <-> th_state th' = TH_RUN) /\ sleeping th = sleeping th' /\
  th_prio th = th_prio th' /\ th_baseprio th = th_baseprio th' /\ th_slpevt th = th_slpevt th'.
Proof.
  intros H. assert (place th = place th' /\ th_prio th = th_prio th' /\ th_baseprio th = th_baseprio th') as (Hp&?&Hb).
  { unfold view in H. split_and!; congruence. }
  apply place_inv in Hp as (?&?&?&?). done.
Qed.

(** Two states with the same queues, and the same places of all threads except
    possibly the exempt one, are equally well formed. *)
Lemma qwf_ext_place X R s s' :
  eq_queues s s' ->
  (forall t, Some t <> X -> place <$> sth s' !! t = place <$> sth s !! t) ->
  (forall t th, sth s' !! t = Some th -> 0 <= th_prio th <= MIN_PRIO /\ 0 <= th_baseprio th <= MIN_PRIO) ->
  qwf X R s -> qwf X R s'.
Proof.
  intros EQ EV HX [W1 W2 W3 W4 W5 W6 W7 W8 W9].
  assert (forall t th', Some t <> X -> sth s' !! t = Some th' ->
            exists th, sth s !! t = Some th /\ place th = place th') as Hb.
  { intros t th' Ht E. specialize (EV t Ht). rewrite E in EV.
    destruct (sth s !! t) as [th|]; cbn [fmap option_fmap option_map] in EV; [|done].
    exists th. split; [done|congruence]. }
  assert (forall t th, Some t <> X -> sth s !! t = Some th ->
            exists th', sth s' !! t = Some th' /\ place th' = place th) as Hf.
  { intros t th Ht E. specialize (EV t Ht). rewrite E in EV.
    destruct (sth s' !! t) as [th'|]; cbn [fmap option_fmap option_map] in EV; [|done].
    exists th'. split; [done|congruence]. }
  pose proof (fun p => eq_queues_rq s s' p EQ) as Er. pose proof (fun e => eq_queues_sq s s' e EQ) as Es.
  destruct EQ as (_&Ew&_).
  split; intros *; rewrite ?Er, ?Es, ?Ew; auto.
  - intros Hin. destruct (W2 _ _ Hin) as (th&E&?&?&?&?). destruct (Hf _ _ ltac:(done) E) as (th'&E'&Hv).
    apply place_inv in Hv as (Hv1&?&Hv3&?). exists th'. split_and!; [done|rewrite Hv3 by tauto; congruence|tauto|done..].
  - intros Hin. destruct (W4 _ Hin) as (th&E&?&?). destruct (Hf _ _ ltac:(done) E) as (th'&E'&Hv).
    apply place_inv in Hv as (_&?&_). exists th'. split_and!; [done|congruence|done].
  - intros Hin. destruct (W6 _ _ Hin) as (th&E&?&?&?&?). destruct (Hf _ _ ltac:(done) E) as (th'&E'&Hv).
    apply place_inv in Hv as (_&?&_&?). exists th'. split_and!; congruence.
  - intros E' Hr HtX HtR. destruct (Hb _ _ HtX E') as (th0&E&Hv). apply place_inv in Hv as (Hv1&_&Hv3&_).
    rewrite <- Hv3 by tauto. apply W7; [done|tauto|done..].
  - intros E' Hsl HtX. destruct (Hb _ _ HtX E') as (th0&E&Hv). apply place_inv in Hv as (_&Hv2&_&Hv5).
    destruct (W8 t th0 E) as [?|(e&?&?)]; [congruence|done|by left|].
    right. exists e. rewrite Es. split; congruence.
  - by apply HX.
Qed.

Lemma qwf_ext X R s s' :
  eq_queues s s' ->
  (forall t, Some t <> X -> view <$> sth s' !! t = view <$> sth s !! t) ->
  (forall t th, Some t = X -> sth s' !! t = Some th ->
     0 <= th_prio th <= MIN_PRIO /\ 0 <= th_baseprio th <= MIN_PRIO) ->
  qwf X R s -> qwf X R s'.
Proof.
  intros EQ EV HX W. apply (qwf_ext_place X R s); [done| | |done].
  - intros t Ht. specialize (EV t Ht). destruct (sth s !! t), (sth s' !! t); try done.
    cbn [fmap option_fmap option_map] in *. unfold view in EV. congruence.
  - intros t th E. destruct (decide (Some t = X)) as [HX'|HX']; [by eapply HX|].
    specialize (EV t HX'). rewrite E in EV. destruct (sth s !! t) as [th0|] eqn:E0; [|done].
    cbn [fmap option_fmap option_map] in EV. assert (view th = view th0) as Hv by congruence.
    apply view_inv in Hv as (_&_&Hp&Hb&_). rewrite Hp, Hb. by apply (wf_prio _ _ _ W t).
Qed.

Lemma th_upd_Some t f s s' :
  th_upd t f s = Some s' <-> exists th, sth s !! t = Some th /\ s' = s <| sth ::= <[t := f th]> |>.
Proof.
  unfold th_upd. destruct (sth s !! t) as [th|]; simpl; [|naive_solver].
  split; [intros [= <-]; eauto|]. intros (th'&[= <-]&->). done.
Qed.

(** A change of fields [qwf] does not look at. *)
Lemma qwf_upd_view X R s s' t f :
  th_upd t f s = Some s' -> (forall th, sth s !! t = Some th -> view (f th) = view th) ->
  qwf X R s -> qwf X R s'.
Proof.
  intros (th&E&->)%th_upd_Some Hf W. eapply qwf_ext; [| | |exact W]; [done|..].
  - intros x _. simpl. rewrite lookup_insert. case_decide; subst; [|done]. rewrite E. cbn [fmap option_fmap option_map]. by rewrite Hf.
  - intros x th' _. simpl. rewrite lookup_insert_Some. intros [[<- <-]|[_ E']]; [|by eapply W].
    pose proof (wf_prio _ _ _ W _ _ E) as Hp. specialize (Hf th E). apply view_inv in Hf as (_&_&H3&H4&_).
    by rewrite H3, H4.
Qed.

(** Any change of the detached thread. *)
Lemma qwf_upd_detached R s s' t f :
  th_upd t f s = Some s' ->
  (forall th, sth s !! t = Some th ->
     0 <= th_prio (f th) <= MIN_PRIO /\ 0 <= th_baseprio (f th) <= MIN_PRIO) ->
  qwf (Some t) R s -> qwf (Some t) R s'.
Proof.
  intros (th&E&->)%th_upd_Some Hf W. eapply qwf_ext; [| | |exact W]; [done|..].
  - intros x Hx. simpl. rewrite lookup_insert_ne; [done|congruence].
  - intros x th' [= ->]. simpl. rewrite lookup_insert_eq. intros [= <-]. by apply Hf.
Qed.

Lemma qwf_link_free R s t : qwf (Some t) R s -> link_free t s = true.
Proof.
  intros [W1 W2 W3 W4 W5 W6 W7 W8 W9]. apply link_free_spec. split_and!.
  - intros H. by destruct (W4 _ H) as (?&_&_&?).
  - intros p H. by destruct (W2 _ _ H) as (?&_&_&_&?&_).
  - intros e H. by destruct (W6 _ _ H) as (?&_&_&_&_&?).
Qed.

(** A thread that is on no queue can be exempted, and an exempt thread that
    belongs on no queue can be released. *)
Lemma qwf_detach R s t : link_free t s = true -> qwf None R s -> qwf (Some t) R s.
Proof.
  rewrite link_free_spec. intros (Hw&Hr&Hs) [W1 W2 W3 W4 W5 W6 W7 W8 W9]. split; try done.
  - intros p x H. destruct (W2 _ _ H) as (th&?&?&?&?&?). exists th. split_and!; try done.
    intros [= ->]. by eapply Hr.
  - intros x H. destruct (W4 _ H) as (th&?&?&?). exists th. split_and!; try done. by intros [= ->].
  - intros e x H. destruct (W6 _ _ H) as (th&?&?&?&?&?). exists th. split_and!; try done.
    intros [= ->]. by eapply Hs.
  - intros x th E Hst _ HR. by apply W7.
  - intros x th E Hst _. by apply W8.
Qed.

Lemma qwf_attach R s t :
  (forall th, sth s !! t = Some th -> (th_state th = TH_RUN -> Some t = R) /\ sleeping th = false) ->
  qwf (Some t) R s -> qwf None R s.
Proof.
  intros Ht [W1 W2 W3 W4 W5 W6 W7 W8 W9]. split; try done.
  - intros p x H. destruct (W2 _ _ H) as (th&?&?&?&?&?). exists th. by split_and!.
  - intros x H. destruct (W4 _ H) as (th&?&?&?). exists th. by split_and!.
  - intros e x H. destruct (W6 _ _ H) as (th&?&?&?&?&?). exists th. by split_and!.
  - intros x th E Hst _ HR. destruct (decide (x = t)) as [->|Hx]; [|apply W7; congruence].
    destruct (Ht _ E) as [H _]. by apply H in Hst.
  - intros x th E Hst _. destruct (decide (x = t)) as [->|Hx]; [|apply W8; congruence].
    destruct (Ht _ E) as [_ H]. congruence.
Qed.

Lemma flag_run : flag TH_RUN TH_SLEEP = false.
Proof. reflexivity. Qed.

Lemma run_not_sleeping th : th_state th = TH_RUN -> sleeping th = false.
Proof. unfold sleeping. by intros ->. Qed.

(** A running thread is on no queue. *)
Lemma running_link_free s t th :
  qwf None (Some t) s -> sth s !! t = Some th -> th_state th = TH_RUN -> link_free t s = true.
Proof.
  intros [W1 W2 W3 W4 W5 W6 W7 W8 W9] E Hr. pose proof (run_not_sleeping _ Hr) as Hs.
  apply link_free_spec. split_and!.
  - intros H. destruct (W4 _ H) as (?&?&?&?). congruence.
  - intros p H. by destruct (W2 _ _ H) as (?&_&_&_&_&?).
  - intros e H. destruct (W6 _ _ H) as (?&?&?&?). congruence.
Qed.

(** For a runnable thread, running and exempt are the same thing. *)
Lemma qwf_running_detached s t th :
  sth s !! t = Some th -> th_state th = TH_RUN -> qwf None (Some t) s -> qwf (Some t) None s.
Proof.
  intros E Hr W. pose proof (qwf_detach _ _ _ (running_link_free _ _ _ W E Hr) W) as W'.
  destruct W' as [W1 W2 W3 W4 W5 W6 W7 W8 W9]. split; try done.
  - intros p x H. destruct (W2 _ _ H) as (th'&?&?&?&?&?). exists th'. by split_and!.
  - intros x th' E' Hst HX _. by apply W7.
Qed.

Lemma qwf_detached_running s t th :
  sth s !! t = Some th -> th_state th = TH_RUN -> qwf (Some t) None s -> qwf None (Some t) s.
Proof.
  intros E Hr [W1 W2 W3 W4 W5 W6 W7 W8 W9]. split; try done.
  - intros p x H. destruct (W2 _ _ H) as (th'&?&?&?&?&?). exists th'. by split_and!.
  - intros x H. destruct (W4 _ H) as (th'&?&?&?). exists th'. by split_and!.
  - intros e x H. destruct (W6 _ _ H) as (th'&?&?&?&?&?). exists th'. by split_and!.
  - intros x th' E' Hst _ HX. by apply W7.
  - intros x th' E' Hst _. destruct (decide (x = t)) as [->|Hx]; [|apply W8; congruence].
    simplify_eq. by rewrite run_not_sleeping in Hst.
Qed.

(** A thread that is not runnable does not occupy the CPU. *)
Lemma qwf_not_running X s t :
  (forall th, sth s !! t = Some th -> th_state th <> TH_RUN) -> qwf X (Some t) s -> qwf X None s.
Proof.
  intros Ht [W1 W2 W3 W4 W5 W6 W7 W8 W9]. split; try done.
  - intros p x H. destruct (W2 _ _ H) as (th'&?&?&?&?&?). exists th'. by split_and!.
  - intros x th' E' Hst HX _. destruct (decide (x = t)) as [->|Hx]; [|apply W7; congruence].
    by apply Ht in E'.
Qed.

(** ** Putting a detached thread on a queue *)

Lemma qwf_runq_put R s t th l :
  sth s !! t = Some th -> th_state th = TH_RUN -> Some t <> R -> l ≡ₚ t :: rq s (th_prio th) ->
  qwf (Some t) R s -> qwf None R (s <| runq ::= <[th_prio th := l]> |>).
Proof.
  intros E Hr HR HP W. pose proof (qwf_link_free _ _ _ W) as Hf. apply link_free_spec in Hf as (Hw&Hq&Hs).
  destruct W as [W1 W2 W3 W4 W5 W6 W7 W8 W9]. split; try done.
  - intros p. rewrite rq_insert. case_decide; [|done]. rewrite HP. by constructor.
  - intros p x. rewrite rq_insert. case_decide as Hd.
    + subst p. rewrite HP, elem_of_cons. intros [->|H]; [by exists th|].
      destruct (W2 _ _ H) as (th'&?&?&?&?&?). exists th'. by split_and!.
    + intros H. destruct (W2 _ _ H) as (th'&?&?&?&?&?). exists th'. by split_and!.
  - intros x H. destruct (W4 _ H) as (th'&?&?&?). exists th'. by split_and!.
  - intros e x H. destruct (W6 _ _ H) as (th'&?&?&?&?&?). exists th'. by split_and!.
  - intros x th' E' Hst _ HR'. change (sth s !! x = Some th') in E'. rewrite rq_insert. destruct (decide (x = t)) as [->|Hx].
    + simplify_eq. rewrite decide_True, HP; [by left|done].
    + case_decide as Hp; [rewrite HP; right; rewrite Hp|]; (apply W7; [done..|congruence|done]).
  - intros x th' E' Hst _. change (sth s !! x = Some th') in E'.
    destruct (decide (x = t)) as [->|Hx]; [|apply W8; congruence].
    simplify_eq. by rewrite run_not_sleeping in Hst.
Qed.

Lemma runq_top_put s p l :
  0 <= p <= MIN_PRIO -> l <> [] -> runq_top (s <| runq ::= <[p := l]> |>) = Z.min p (runq_top s).
Proof.
  intros Hp Hl. destruct (runq_top_ok s) as (Ht&He&Hn). apply runq_top_unique; [lia|..].
  - intros q Hq. rewrite rq_insert, decide_False by lia. apply He. lia.
  - intros H. rewrite rq_insert. case_decide; [done|].
    replace (Z.min p (runq_top s)) with (runq_top s) in * by lia. by apply Hn.
Qed.

Definition mark_resched (b : bool) (s : sched) : gmap tid sthread :=
  if b then alter (fun c => c <| th_resched := true |>) (cur s) (sth s) else sth s.

Lemma mark_resched_view b s t : view <$> mark_resched b s !! t = view <$> sth s !! t.
Proof.
  unfold mark_resched. destruct b; [|done]. rewrite lookup_alter. case_decide; [|done].
  subst. by destruct (sth s !! cur s).
Qed.

Lemma th_upd_alter t f s : is_Some (sth s !! t) -> th_upd t f s = Some (s <| sth ::= alter f t |>).
Proof.
  intros [th E]. unfold th_upd. rewrite E. simpl. unfold set. do 2 f_equal.
  apply map_eq. intros x. rewrite lookup_insert, lookup_alter. case_decide; [|done]. subst. by rewrite E.
Qed.

(** [runq_enqueue] of a detached runnable thread: it is the last one of its
    queue, the top priority is updated, and the current thread is marked for
    rescheduling if the top improved. *)
Lemma runq_enqueue_ok R s t th :
  qwf (Some t) R s -> top_ok s -> sth s !! t = Some th -> th_state th = TH_RUN -> Some t <> R ->
  is_Some (sth s !! cur s) ->
  exists s', runq_enqueue t s = Some s' /\ qwf None R s' /\ top_ok s' /\ (best s -> best s') /\
    s' = s <| runq ::= <[th_prio th := rq s (th_prio th) ++ [t]]> |>
           <| sth := mark_resched (th_prio th <? top_prio s) s |>
           <| top_prio := Z.min (th_prio th) (top_prio s) |>.
Proof.
  intros W Ht E Hr HR Hc. unfold runq_enqueue, runq_tail. rewrite E, (qwf_link_free _ _ _ W).
  cbn [mbind option_bind]. pose proof (wf_prio _ _ _ W _ _ E) as [Hp _].
  set (s1 := s <| runq ::= <[th_prio th := rq s (th_prio th) ++ [t]]> |>).
  assert (qwf None R s1) as W1.
  { eapply qwf_runq_put; try done. by rewrite Permutation_app_comm. }
  assert (runq_top s1 = Z.min (th_prio th) (top_prio s)) as Htop.
  { unfold s1. rewrite runq_top_put by (try done; by destruct (rq s (th_prio th))). by rewrite (top_eq _ Ht). }
  change (top_prio s1) with (top_prio s). change (cur (s1 <| top_prio := th_prio th |>)) with (cur s).
  destruct (Z.ltb_spec (th_prio th) (top_prio s)) as [Hlt|Hge].
  - rewrite th_upd_alter by done. eexists. split; [reflexivity|]. rewrite (Z.min_l (th_prio th)) in * by lia.
    split; [|split; [by apply (top_ok_ext s1)|split]].
    + eapply (qwf_ext None R s1); [done| |done|done].
      intros x _. apply (mark_resched_view true s).
    + intros (c&Ec&Hs&_). exists (c <| th_resched := true |>). simpl. rewrite lookup_alter_eq, Ec. auto.
    + done.
  - exists s1. rewrite (Z.min_r (th_prio th)) in * by lia. split_and!; [done|done|by apply (top_ok_ext s1)|done|].
    unfold s1. by destruct s.
Qed.

Lemma runq_insert_ok R s t th :
  qwf (Some t) R s -> top_ok s -> sth s !! t = Some th -> th_state th = TH_RUN -> Some t <> R ->
  exists s', runq_insert t s = Some s' /\ qwf None R s' /\ top_ok s' /\
    s' = s <| runq ::= <[th_prio th := t :: rq s (th_prio th)]> |>
           <| top_prio := Z.min (th_prio th) (top_prio s) |>.
Proof.
  intros W Ht E Hr HR. unfold runq_insert, runq_head. rewrite E, (qwf_link_free _ _ _ W).
  cbn [mbind option_bind]. pose proof (wf_prio _ _ _ W _ _ E) as [Hp _].
  set (s1 := s <| runq ::= <[th_prio th := t :: rq s (th_prio th)]> |>).
  assert (qwf None R s1) as W1 by by eapply qwf_runq_put.
  assert (runq_top s1 = Z.min (th_prio th) (top_prio s)) as Htop.
  { unfold s1. rewrite runq_top_put by done. by rewrite (top_eq _ Ht). }
  change (top_prio s1) with (top_prio s).
  destruct (Z.ltb_spec (th_prio th) (top_prio s)) as [Hlt|Hge]; eexists; (split; [reflexivity|]).
  - rewrite (Z.min_l (th_prio th)) in * by lia. split_and!; [eapply (qwf_ext None R s1); done|by apply (top_ok_ext s1)|done].
  - rewrite (Z.min_r (th_prio th)) in * by lia. split_and!; [done|by apply (top_ok_ext s1)|]. unfold s1. by destruct s.
Qed.

(** Taking the head of the best queue. *)
Lemma runq_dequeue_ok s t l :
  qwf None None s -> top_ok s -> rq s (top_prio s) = t :: l ->
  exists s' th, runq_dequeue s = Some (t, s') /\ sth s !! t = Some th /\ th_state th = TH_RUN /\
    th_prio th = top_prio s /\ qwf None (Some t) s' /\ top_ok s' /\
    s' = s <| runq ::= <[top_prio s := l]> |> <| top_prio := top_prio s' |>.
Proof.
  intros W Ht El. destruct (wf_rq_in _ _ _ W (top_prio s) t) as (th&E&Hp&Hr&_); [rewrite El; by left|].
  unfold runq_dequeue. rewrite El. set (s1 := s <| runq ::= <[top_prio s := l]> |>).
  pose proof (wf_rq_nodup _ _ _ W (top_prio s)) as ND. rewrite El in ND. apply NoDup_cons in ND as [Hnl ND].
  assert (qwf None (Some t) s1) as W1.
  { apply (qwf_detached_running _ _ th); [done..|].
    destruct W as [W1 W2 W3 W4 W5 W6 W7 W8 W9]. split; try done.
    - intros p. unfold s1. rewrite rq_insert. by case_decide.
    - intros p x. unfold s1. rewrite rq_insert. intros H.
      assert (x <> t /\ x ∈ rq s p) as [Hx Hin].
      { case_decide; subst; [split; [congruence|]; rewrite El; by right|].
        split; [|done]. intros ->. destruct (W2 _ _ H) as (?&?&?&?). congruence. }
      destruct (W2 _ _ Hin) as (th'&?&?&?&?&?). exists th'. split_and!; [done..|congruence|done].
    - intros x H. destruct (W4 _ H) as (th'&E'&Hs&_). exists th'. split_and!; [done..|].
      intros [= ->]. simplify_eq. by rewrite run_not_sleeping in Hs.
    - intros e x H. destruct (W6 _ _ H) as (th'&E'&Hs&?&?&_). exists th'. split_and!; [done..|].
      intros [= ->]. simplify_eq. by rewrite run_not_sleeping in Hs.
    - intros x th' E' Hst Hx _. assert (x ∈ rq s (th_prio th')) as Hin by (apply W7; done).
      unfold s1. rewrite rq_insert. case_decide as Hd; [|done]. rewrite <- Hd, El in Hin.
      apply elem_of_cons in Hin as [->|?]; congruence.
    - intros x th' E' Hst _. by apply W8. }
  assert (qwf None (Some t) (s1 <| top_prio := runq_top s1 |>)) as W2 by (by eapply (qwf_ext None (Some t) s1)).
  change (top_prio s1) with (top_prio s). unfold s1 at 1. rewrite rq_insert, decide_True by done.
  destruct l as [|y l'].
  - exists (s1 <| top_prio := runq_top s1 |>), th. split; [reflexivity|].
    split_and!; [done..|by apply (top_ok_ext s1)|by destruct s].
  - assert (top_ok s1) as Ht1.
    { split. symmetry. unfold s1. change (top_prio (_ <| runq ::= _ |>)) with (top_prio s).
      destruct (runq_top_ok s) as (H1&H2&H3). rewrite <- (top_eq _ Ht) in *. apply runq_top_unique; [done|..].
      - intros q Hq. rewrite rq_insert, decide_False by lia. apply H2; lia.
      - intros _. rewrite rq_insert, decide_True; done. }
    exists s1, th. split_and!; try done.
Qed.

(** ** Taking a thread off its queue *)

Definition unlinked (t : tid) (s : sched) : sched :=
  s <| wakeq ::= without t |> <| runq ::= fmap (without t) |> <| sleepq ::= fmap (without t) |>.

Lemma rq_unlinked s t p : rq (unlinked t s) p = without t (rq s p).
Proof. apply (rq_without s). Qed.
Lemma sq_unlinked s t e : sq (unlinked t s) e = without t (sq s e).
Proof. apply (sq_without s). Qed.

Lemma unlink_Some t s s' : unlink t s = Some s' <-> link_free t s = false /\ s' = unlinked t s.
Proof. unfold unlink. destruct (link_free t s); naive_solver. Qed.

Lemma qwf_unlinked R s t : qwf None R s -> qwf (Some t) R (unlinked t s).
Proof.
  intros [W1 W2 W3 W4 W5 W6 W7 W8 W9]. split.
  - intros p. rewrite rq_unlinked. by apply NoDup_without.
  - intros p x. rewrite rq_unlinked, elem_of_without. intros [Hx H].
    destruct (W2 _ _ H) as (th&?&?&?&?&?). exists th. split_and!; [done..|congruence|done].
  - by apply NoDup_without.
  - intros x [Hx H]%elem_of_without. destruct (W4 _ H) as (th&?&?&?). exists th. split_and!; [done..|congruence].
  - intros e. rewrite sq_unlinked. by apply NoDup_without.
  - intros e x. rewrite sq_unlinked, elem_of_without. intros [Hx H].
    destruct (W6 _ _ H) as (th&?&?&?&?&?). exists th. split_and!; [done..| |congruence].
    intros [_ ?]%elem_of_without. done.
  - intros x th E Hst HX HR. rewrite rq_unlinked, elem_of_without. split; [congruence|]. by apply W7.
  - intros x th E Hst HX. destruct (W8 x th E Hst) as [?|(e&?&?)]; [done|left|right; exists e].
    + apply elem_of_without. split; [congruence|done].
    + rewrite sq_unlinked, elem_of_without. split_and!; [done|congruence|done].
  - done.
Qed.

Lemma without_nil t l : without t l = [] -> forall x, x ∈ l -> x = t.
Proof.
  intros H x Hx. destruct (decide (x = t)); [done|]. assert (x ∈ without t l) as H'.
  { by apply elem_of_without. } rewrite H in H'. by apply not_elem_of_nil in H'.
Qed.

(** Removing threads can only worsen the top priority. *)
Lemma runq_top_mono s s' : (forall p, rq s p = [] -> rq s' p = []) -> runq_top s <= runq_top s'.
Proof.
  intros H. destruct (runq_top_ok s) as (Ht&He&Hn), (runq_top_ok s') as (Ht'&He'&Hn').
  destruct (Z.le_gt_cases (runq_top s) (runq_top s')) as [?|Hlt]; [done|].
  exfalso. apply Hn'; [lia|]. apply H, He. lia.
Qed.

Lemma runq_top_unlinked s t : (forall p, t ∉ rq s p) -> runq_top (unlinked t s) = runq_top s.
Proof. intros H. apply runq_top_ext. intros p. rewrite rq_unlinked. by apply without_notin. Qed.

Lemma runq_top_unlinked_le s t : runq_top s <= runq_top (unlinked t s).
Proof. apply runq_top_mono. intros p H. rewrite rq_unlinked, H. done. Qed.

(** The head of a sleep queue or of the wake queue leaves it. *)
Lemma sleepq_pop R s e t l :
  qwf None R s -> sq s e = t :: l -> s <| sleepq ::= <[e := l]> |> = unlinked t s.
Proof.
  intros [W1 W2 W3 W4 W5 W6 W7 W8 W9] El. assert (t ∈ sq s e) as Hin by (rewrite El; by left).
  destruct (W6 _ _ Hin) as (th&E&Hs&He&Hw&_). pose proof (W5 e) as ND. rewrite El in ND.
  apply NoDup_cons in ND as [Hn _].
  assert (wakeq s = without t (wakeq s)) as Ew by (by rewrite without_notin).
  assert (runq s = without t <$> runq s) as Er.
  { apply map_eq. intros p. rewrite lookup_fmap. pose proof (W2 p t) as H. unfold rq in H.
    destruct (runq s !! p) as [q|]; [|done]. simpl. f_equal. symmetry. apply without_notin. intros Hq.
    destruct (H Hq) as (th'&?&_&Hr&_). simplify_eq. by rewrite run_not_sleeping in Hs. }
  assert (<[e := l]> (sleepq s) = without t <$> sleepq s) as Es.
  { apply map_eq. intros e'. rewrite lookup_fmap, lookup_insert. case_decide as Hd.
    - subst e'. unfold sq in El. destruct (sleepq s !! e) as [q|]; simpl in El; [|done]. subst q. simpl.
      f_equal. unfold without. rewrite filter_cons, decide_False by (by intros []). symmetry. by apply without_notin.
    - pose proof (W6 e' t) as H. unfold sq in H. destruct (sleepq s !! e') as [q|]; [|done]. simpl. f_equal.
      symmetry. apply without_notin. intros Hq. destruct (H Hq) as (th'&?&_&?&_). simplify_eq. }
  clear -Ew Er Es. destruct s; cbn in *. unfold unlinked; cbn. by f_equal.
Qed.

Lemma wakeq_pop R s t l :
  qwf None R s -> wakeq s = t :: l -> s <| wakeq := l |> = unlinked t s.
Proof.
  intros [W1 W2 W3 W4 W5 W6 W7 W8 W9] El. assert (t ∈ wakeq s) as Hin by (rewrite El; by left).
  destruct (W4 _ Hin) as (th&E&Hs&_). rewrite El in W3. apply NoDup_cons in W3 as [Hn _].
  assert (l = without t (wakeq s)) as Ew.
  { rewrite El. unfold without. rewrite filter_cons, decide_False by (by intros []). symmetry. by apply without_notin. }
  assert (runq s = without t <$> runq s) as Er.
  { apply map_eq. intros p. rewrite lookup_fmap. pose proof (W2 p t) as H. unfold rq in H.
    destruct (runq s !! p) as [q|]; [|done]. simpl. f_equal. symmetry. apply without_notin. intros Hq.
    destruct (H Hq) as (th'&?&_&Hr&_). simplify_eq. by rewrite run_not_sleeping in Hs. }
  assert (sleepq s = without t <$> sleepq s) as Es.
  { apply map_eq. intros e'. rewrite lookup_fmap. pose proof (W6 e' t) as H. unfold sq in H.
    destruct (sleepq s !! e') as [q|]; [|done]. simpl. f_equal.
    symmetry. apply without_notin. intros Hq. by destruct (H Hq) as (th'&_&_&_&?&_). }
  clear -Ew Er Es. destruct s; cbn in *. unfold unlinked; cbn. by f_equal.
Qed.

(** ** Sleeping threads *)

Lemma qwf_wakeq_put R s t th :
  sth s !! t = Some th -> sleeping th = true -> qwf (Some t) R s ->
  qwf None R (s <| wakeq ::= fun l => l ++ [t] |>).
Proof.
  intros E Hs W. pose proof (qwf_link_free _ _ _ W) as Hf. apply link_free_spec in Hf as (Hw&Hq&Hsq).
  destruct W as [W1 W2 W3 W4 W5 W6 W7 W8 W9]. split; try done.
  - intros p x H. destruct (W2 _ _ H) as (th'&?&?&?&?&?). exists th'. by split_and!.
  - change (NoDup (wakeq s ++ [t])). apply NoDup_app. split_and!; [done| |apply NoDup_singleton].
    intros x Hx ->%list_elem_of_singleton. done.
  - intros x [H|H%list_elem_of_singleton]%elem_of_app.
    + destruct (W4 _ H) as (th'&?&?&?). exists th'. by split_and!.
    + subst x. by exists th.
  - intros e x H. destruct (W6 _ _ H) as (th'&?&?&?&?&?). exists th'. split_and!; [done..| |done].
    intros [H'|H'%list_elem_of_singleton]%elem_of_app; [done|]. subst x. by apply (Hsq e).
  - intros x th' E' Hst _ HR. change (sth s !! x = Some th') in E'. apply W7; [done..| |done].
    intros [= ->]. simplify_eq. by rewrite run_not_sleeping in Hs.
  - intros x th' E' Hst _. change (sth s !! x = Some th') in E'. destruct (decide (x = t)) as [->|Hx].
    + left. apply elem_of_app. right. by apply list_elem_of_singleton.
    + destruct (W8 x th' E' Hst) as [?|?]; [congruence| |by right]. left. apply elem_of_app. by left.
Qed.

Lemma qwf_sleepq_put R s e t th :
  sth s !! t = Some th -> sleeping th = true -> th_slpevt th = Some e -> qwf (Some t) R s ->
  qwf None R (s <| sleepq ::= <[e := sq s e ++ [t]]> |>).
Proof.
  intros E Hs He W. pose proof (qwf_link_free _ _ _ W) as Hf. apply link_free_spec in Hf as (Hw&Hq&Hsq).
  destruct W as [W1 W2 W3 W4 W5 W6 W7 W8 W9]. split; try done.
  - intros p x H. destruct (W2 _ _ H) as (th'&?&?&?&?&?). exists th'. by split_and!.
  - intros x H. destruct (W4 _ H) as (th'&?&?&?). exists th'. by split_and!.
  - intros e'. rewrite sq_insert. case_decide; [|done]. apply NoDup_app.
    split_and!; [done| |apply NoDup_singleton]. intros x Hx ->%list_elem_of_singleton. by apply (Hsq e).
  - intros e' x. rewrite sq_insert. intros H.
    assert ((x = t /\ e' = e) \/ x ∈ sq s e') as [[-> ->]|Hin].
    { case_decide as Hd; [|by right]. subst e'. apply elem_of_app in H as [?|H%list_elem_of_singleton]; auto. }
    + exists th. split_and!; done.
    + destruct (W6 _ _ Hin) as (th'&?&?&?&?&?). exists th'. by split_and!.
  - intros x th' E' Hst _ HR. change (sth s !! x = Some th') in E'. apply W7; [done..| |done].
    intros [= ->]. simplify_eq. by rewrite run_not_sleeping in Hs.
  - intros x th' E' Hst _. change (sth s !! x = Some th') in E'. destruct (decide (x = t)) as [->|Hx].
    + right. simplify_eq. exists e. split; [done|]. rewrite sq_insert, decide_True by done.
      apply elem_of_app. right. by apply list_elem_of_singleton.
    + destruct (W8 x th' E' Hst) as [?|(e'&?&?)]; [congruence|by left|]. right. exists e'. split; [done|].
      rewrite sq_insert. case_decide; [|done]. subst. apply elem_of_app. by left.
Qed.

(** A state that is neither sleeping nor TH_RUN keeps the thread off all queues. *)
Lemma clr_sleep_sleeping th : sleeping (th <| th_state ::= fun st => clr st TH_SLEEP |>) = false.
Proof.
  unfold sleeping, flag, clr. cbn. apply negb_false_iff, Z.eqb_eq. apply Z.bits_inj'. intros n Hn.
  rewrite Z.land_spec, Z.ldiff_spec, Z.bits_0. by destruct (Z.testbit (th_state th) n), (Z.testbit TH_SLEEP n).
Qed.

Lemma lor_sleep_sleeping st : flag (Z.lor st TH_SLEEP) TH_SLEEP = true.
Proof.
  unfold flag. apply negb_true_iff, Z.eqb_neq. intros H. apply (f_equal (fun z => Z.testbit z 0)) in H.
  rewrite Z.land_spec, Z.lor_spec in H. cbn in H. by rewrite orb_true_r in H.
Qed.

(** ** wakeq_flush *)

(** What every queue operation leaves alone: the current thread, the timers,
    the set of threads, and the reschedule marks of the other threads. *)
Definition frame_tms (s s' : sched) : Prop :=
  cur s' = cur s /\ tms s' = tms s /\ dom (sth s') = dom (sth s) /\
  (forall t, t <> cur s -> th_resched <$> sth s' !! t = th_resched <$> sth s !! t).

Lemma frame_refl s : frame_tms s s.
Proof. done. Qed.
Lemma frame_trans s1 s2 s3 : frame_tms s1 s2 -> frame_tms s2 s3 -> frame_tms s1 s3.
Proof.
  intros (E1&?&?&H1) (E2&?&?&H2). split_and!; [congruence..|]. intros t Ht. rewrite H2 by congruence. by apply H1.
Qed.
Lemma frame_is_Some s s' t : frame_tms s s' -> is_Some (sth s !! t) -> is_Some (sth s' !! t).
Proof. intros (_&_&Ed&_). rewrite <- !elem_of_dom. by rewrite Ed. Qed.

Lemma frame_quiet s s' : frame_tms s s' -> quiet s -> quiet s'.
Proof.
  intros (Ec&_&_&H) Hq t th E Hr. rewrite Ec. destruct (decide (t = cur s)) as [?|Hne]; [done|].
  specialize (H t Hne). rewrite E in H. destruct (sth s !! t) as [th0|] eqn:E0; [|done].
  cbn in H. apply (Hq t th0 E0). congruence.
Qed.

Lemma frame_upd s s' t f :
  th_upd t f s = Some s' ->
  t = cur s \/ (forall th, sth s !! t = Some th -> th_resched (f th) = th_resched th) -> frame_tms s s'.
Proof.
  intros (th&E&->)%th_upd_Some Hf. split_and!; [done..| |].
  - cbn. apply dom_insert_lookup_L. by eexists.
  - intros x Hx. cbn. rewrite lookup_insert. case_decide as Hd; [|done]. subst x. rewrite E. cbn.
    destruct Hf as [?|Hf]; [done|]. by rewrite Hf.
Qed.

Lemma dom_mark_resched b s : dom (mark_resched b s) = dom (sth s).
Proof. unfold mark_resched. destruct b; [|done]. apply dom_alter_L. Qed.
Lemma mark_resched_other b s t : t <> cur s -> mark_resched b s !! t = sth s !! t.
Proof. unfold mark_resched. destruct b; [|done]. intros. by rewrite lookup_alter_ne. Qed.

(** A thread that has left the wake queue. *)
Definition woken (th : sthread) : sthread :=
  th <| th_slpevt := None |> <| th_state ::= fun st => clr st TH_SLEEP |>.
(** Its insertion in a run queue: unless it is the current thread or still
    suspended. *)
Definition enqueues (s : sched) (t : tid) (th : sthread) : bool :=
  negb (t =? cur s) && (th_state (woken th) =? TH_RUN).

Lemma wakeq_flush_one_ok s t l :
  qwf None (Some (cur s)) s -> top_ok s -> is_Some (sth s !! cur s) -> wakeq s = t :: l ->
  exists s' th, wakeq_flush_one t (s <| wakeq := l |>) = Some s' /\ qwf None (Some (cur s)) s' /\
    top_ok s' /\ (best s -> best s') /\ frame_tms s s' /\ wakeq s' = l /\
    sth s !! t = Some th /\ (forall e, sq s' e = sq s e) /\
    (forall p, rq s' p = if enqueues s t th && (th_prio th =? p) then rq s p ++ [t] else rq s p) /\
    sth s' = mark_resched (enqueues s t th && (th_prio th <? top_prio s)) (s <| sth ::= <[t := woken th]> |>).
Proof.
  intros W Ht Hc El. destruct (wf_wq_in _ _ _ W t) as (th&E&Hs&_); [rewrite El; by left|].
  assert (forall p, t ∉ rq s p) as Hnr.
  { intros p Hp. destruct (wf_rq_in _ _ _ W _ _ Hp) as (th'&?&_&Hr&_). simplify_eq. by rewrite run_not_sleeping in Hs. }
  assert (forall e, t ∉ sq s e) as Hns.
  { intros e He. destruct (wf_sq_in _ _ _ W _ _ He) as (_&_&_&_&Hw&_). apply Hw. rewrite El. by left. }
  rewrite (wakeq_pop _ _ _ _ W El). unfold wakeq_flush_one.
  assert (wakeq (unlinked t s) = l) as El'.
  { by rewrite <- (wakeq_pop _ _ _ _ W El). }
  pose proof (qwf_unlinked _ _ t W) as W1. set (s1 := unlinked t s) in *.
  assert (forall p, rq s1 p = rq s p) as Er1 by (intros p; unfold s1; rewrite rq_unlinked; by apply without_notin).
  assert (forall e, sq s1 e = sq s e) as Es1 by (intros e; unfold s1; rewrite sq_unlinked; by apply without_notin).
  set (s2 := s1 <| sth ::= <[t := woken th]> |>).
  assert (th_upd t woken s1 = Some s2) as E2 by (unfold th_upd; change (sth s1) with (sth s); by rewrite E).
  change (th_upd t _ s1) with (th_upd t woken s1). rewrite E2. cbn [mbind option_bind].
  assert (qwf (Some t) (Some (cur s)) s2) as W2.
  { eapply qwf_upd_detached; [done| |done]. intros th' E'. by apply (wf_prio _ _ _ W1 _ _ E'). }
  assert (frame_tms s1 s2) as F2 by (eapply frame_upd; [done|by right]).
  assert (sth s2 !! t = Some (woken th)) as Eth by apply lookup_insert_eq.
  assert (top_ok s2) as Ht2.
  { apply (top_ok_ext s1); [done|]. unfold s1. rewrite runq_top_unlinked by done. exact (top_eq _ Ht). }
  assert (best s -> best s2) as Hb.
  { intros (c&Ec&Hc'). unfold best. cbn. destruct (decide (t = cur s)) as [Ht'|Hne].
    - rewrite <- Ht' in *. assert (c = th) as -> by congruence. destruct Hc' as [? _]. congruence.
    - exists c. split; [by rewrite lookup_insert_ne|done]. }
  rewrite Eth. cbn [mbind option_bind]. change (cur s2) with (cur s). fold (enqueues s t th).
  destruct (enqueues s t th) eqn:Hcond; cbn [andb].
  - pose proof Hcond as Hq. apply andb_true_iff in Hcond as [Hne Hr]. apply negb_true_iff, Z.eqb_neq in Hne. apply Z.eqb_eq in Hr.
    destruct (runq_enqueue_ok (Some (cur s)) s2 t (woken th)) as (s3&E3&W3&Ht3&Hb3&Es3); try done; [congruence| |].
    { by apply (frame_is_Some s s2). }
    assert (frame_tms s2 s3) as F3.
    { rewrite Es3. split_and!; [done..|apply dom_mark_resched|]. intros x Hx. cbn. by rewrite mark_resched_other. }
    exists s3, th. rewrite Hq. split_and!; [done..|by auto|by apply (frame_trans s s2)|rewrite Es3; exact El'|done| | |by rewrite Es3].
    + intros e. rewrite Es3. exact (Es1 e).
    + intros p. rewrite Es3. rewrite (eq_queues_rq (s2 <| runq ::= <[th_prio th := rq s2 (th_prio th) ++ [t]]> |>)) by done.
      rewrite rq_insert. change (rq s2) with (rq s1). rewrite !Er1.
      destruct (Z.eqb_spec (th_prio th) p); case_decide; [by subst|done..].
  - exists s2, th. rewrite Hcond. split_and!; [done| |done..]. eapply qwf_attach; [|exact W2]. intros th' Eth'.
    assert (th' = woken th) as -> by congruence. split; [|apply clr_sleep_sleeping].
    intros Hr. unfold enqueues in Hcond. rewrite Hr in Hcond. apply andb_false_iff in Hcond as [Hc'|Hc']; [|done].
    by apply negb_false_iff, Z.eqb_eq in Hc' as ->.
Qed.

Lemma wakeq_flush_ok s :
  qwf None (Some (cur s)) s -> top_ok s -> is_Some (sth s !! cur s) ->
  exists s', wakeq_flush s = Some s' /\ qwf None (Some (cur s)) s' /\ top_ok s' /\
    (best s -> best s') /\ frame_tms s s' /\ wakeq s' = [].
Proof.
  unfold wakeq_flush. remember (length (wakeq s)) as n eqn:Hn. revert s Hn.
  induction n as [|n IH]; intros s Hn W Ht Hc; cbn [wakeq_flush_loop].
  - destruct (wakeq s) eqn:E; [|done]. by exists s.
  - destruct (wakeq s) as [|t l] eqn:E; [done|]. cbn in Hn.
    destruct (wakeq_flush_one_ok s t l) as (s1&th&E1&W1&Ht1&Hb1&F1&El1&_); [done..|].
    rewrite E1. cbn [mbind option_bind]. pose proof F1 as (Ec&_).
    destruct (IH s1) as (s2&E2&W2&Ht2&Hb2&F2&El2);
      [rewrite El1; lia|by rewrite Ec|done|rewrite Ec; by apply (frame_is_Some s)|].
    exists s2. rewrite Ec in W2. split_and!; auto. by eapply frame_trans.
Qed.
