(* ===== verification/SchedOps.v ===== *)
(** * SchedOps: the operations of the scheduler preserve its invariant

    For each routine of Sched.v: under the invariant [swf] of SchedInv.v it
    does not fault, it re-establishes the invariant, and it does to the queues
    what the routine is for. *)
From stdpp Require Import base numbers gmap list.
From S2P Require Import Prelude Core Timer Sched SchedInv.

Open Scope Z_scope.

Lemma top_ok_range s : top_ok s -> 0 <= top_prio s <= MIN_PRIO.
Proof. intros [->]. apply runq_top_ok. Qed.

(** ** sched_switch *)

(** The run queues once the previous thread is put back: at the head of its
    queue if a better thread preempts it, at the tail otherwise. *)
Definition requeued (s : sched) (th : sthread) (p : Z) : list tid :=
  if (th_state th =? TH_RUN) && (th_prio th =? p) then
    if top_prio s <? th_prio th then cur s :: rq s p else rq s p ++ [cur s]
  else rq s p.

(** A thread up to its reschedule mark. *)
Definition calmed (th : sthread) : sthread := th <| th_resched := false |>.

Lemma mark_resched_calmed b s t : calmed <$> mark_resched b s !! t = calmed <$> sth s !! t.
Proof.
  unfold mark_resched. destruct b; [|done]. destruct (decide (t = cur s)) as [->|?]; [|by rewrite lookup_alter_ne].
  rewrite lookup_alter_eq. by destruct (sth s !! cur s).
Qed.

(** The first half of sched_switch. *)
Lemma switch_requeue s th :
  qwf None (Some (cur s)) s -> top_ok s -> sth s !! cur s = Some th ->
  exists s1,
    (if th_state th =? TH_RUN then
       if top_prio s <? th_prio th then runq_insert (cur s) s else runq_enqueue (cur s) s
     else Some s) = Some s1 /\
    qwf None None s1 /\ top_ok s1 /\ frame_tms s s1 /\ (forall p, rq s1 p = requeued s th p) /\
    wakeq s1 = wakeq s /\ sleepq s1 = sleepq s /\ (forall t, calmed <$> sth s1 !! t = calmed <$> sth s !! t).
Proof.
  intros W Ht E. unfold requeued. destruct (Z.eqb_spec (th_state th) TH_RUN) as [Hr|Hr]; cbn [andb].
  - pose proof (qwf_running_detached _ _ _ E Hr W) as W'. destruct (top_prio s <? th_prio th) eqn:Hlt.
    + destruct (runq_insert_ok None s (cur s) th) as (s1&E1&W1&Ht1&Es1); [done..|].
      exists s1. split_and!; [done..|by rewrite Es1| |by rewrite Es1|by rewrite Es1|by rewrite Es1].
      intros p. rewrite Es1. rewrite (eq_queues_rq (s <| runq ::= <[th_prio th := cur s :: rq s (th_prio th)]> |>)) by done.
      rewrite rq_insert. destruct (Z.eqb_spec (th_prio th) p); case_decide; [by subst|done..].
    + destruct (runq_enqueue_ok None s (cur s) th) as (s1&E1&W1&Ht1&_&Es1); [done..|].
      exists s1. split_and!; [done..| | |by rewrite Es1|by rewrite Es1|rewrite Es1; apply mark_resched_calmed].
      * rewrite Es1. split_and!; [done..|apply dom_mark_resched|]. intros x Hx. cbn. by rewrite mark_resched_other.
      * intros p. rewrite Es1. rewrite (eq_queues_rq (s <| runq ::= <[th_prio th := rq s (th_prio th) ++ [cur s]]> |>)) by done.
        rewrite rq_insert. destruct (Z.eqb_spec (th_prio th) p); case_decide; [by subst|done..].
  - exists s. split_and!; try done. eapply (qwf_not_running _ _ (cur s)); [|done]. intros th' E'. congruence.
Qed.

Lemma top_nonempty s t th :
  qwf None None s -> top_ok s -> sth s !! t = Some th -> th_state th = TH_RUN -> rq s (top_prio s) <> [].
Proof.
  intros W [->] E Hr. pose proof (wf_run _ _ _ W _ _ E Hr) as Hin. pose proof (wf_prio _ _ _ W _ _ E) as [Hp _].
  destruct (runq_top_ok s) as (Hb&He&Hn).
  destruct (decide (runq_top s < MIN_PRIO)) as [Hlt|Hge]; [by apply Hn|].
  assert (t ∈ rq s (th_prio th)) as Hin' by (by apply Hin). intros H.
  pose proof (runq_top_le s t (th_prio th) ltac:(lia) Hin') as Hle.
  replace (th_prio th) with (runq_top s) in Hin' by lia. rewrite H in Hin'. by apply not_elem_of_nil in Hin'.
Qed.

(** A runnable thread never has a better priority than the running one, unless
    a reschedule is pending. *)
Lemma swf_best_prio s c t th :
  swf s -> sth s !! cur s = Some c -> th_resched c = false ->
  sth s !! t = Some th -> th_state th = TH_RUN -> th_prio c <= th_prio th.
Proof.
  intros (W&Ht&(c'&Ec&_&Hb)&_) E Hc Et Hr. simplify_eq. destruct Hb as [?|[_ Hb]]; [congruence|].
  destruct (decide (t = cur s)) as [->|Hne]; [by simplify_eq|].
  assert (t ∈ rq s (th_prio th)) as Hin by (apply (wf_run _ _ _ W); congruence).
  pose proof (wf_prio _ _ _ W _ _ Et) as [Hp _]. rewrite (top_eq _ Ht) in Hb.
  pose proof (runq_top_le s t (th_prio th) ltac:(lia) Hin). lia.
Qed.

Lemma sched_switch_ok s th t0 th0 :
  qwf None (Some (cur s)) s -> top_ok s -> quiet s -> sth s !! cur s = Some th ->
  sth s !! t0 = Some th0 -> th_state th0 = TH_RUN ->
  exists s' c, sched_switch_sel s = Some s' /\ swf s' /\
    sth s' !! cur s' = Some c /\ th_state c = TH_RUN /\ th_resched c = false /\
    requeued s th (th_prio c) = cur s' :: rq s' (th_prio c) /\
    (forall p, p <> th_prio c -> rq s' p = requeued s th p) /\
    wakeq s' = wakeq s /\ sleepq s' = sleepq s /\ tms s' = tms s /\ dom (sth s') = dom (sth s) /\
    (forall t, calmed <$> sth s' !! t = calmed <$> sth s !! t).
Proof.
  intros W Ht Hq E E0 Hr0. unfold sched_switch_sel. rewrite E. cbn [mbind option_bind].
  destruct (switch_requeue s th W Ht E) as (s1&E1&W1&Ht1&F1&Er1&Ew1&Es1&Ecm1). rewrite E1. cbn [mbind option_bind].
  pose proof (frame_quiet _ _ F1 Hq) as Hq1. pose proof F1 as (Ec1&Em1&Ed1&_).
  destruct (frame_is_Some _ _ (cur s) F1 (ex_intro _ _ E)) as [th1 Eth1].
  set (f := fun th => th <| th_resched := false |>).
  assert (th_upd (cur s) f s1 = Some (s1 <| sth ::= <[cur s := f th1]> |>)) as Eu.
  { unfold th_upd. by rewrite Eth1. }
  rewrite Eu. cbn [mbind option_bind]. set (s2 := s1 <| sth ::= _ |>) in *.
  assert (qwf None None s2) as W2 by (eapply qwf_upd_view; [exact Eu|done|done]).
  assert (top_ok s2) as Ht2 by (apply (top_ok_frame s1); done).
  assert (forall x thx, sth s2 !! x = Some thx -> th_resched thx = false) as Hq2.
  { intros x thx Hx. unfold s2 in Hx. cbn in Hx. apply lookup_insert_Some in Hx as [[<- <-]|[Hne Hx]]; [done|].
    apply Bool.not_true_iff_false. intros Hx'. apply Hne. rewrite <- Ec1. symmetry. by eapply Hq1. }
  assert (exists t th, sth s2 !! t = Some th /\ th_state th = TH_RUN) as (tr&thr&Etr&Hrr).
  { destruct (decide (t0 = cur s)) as [->|Hne].
    - assert (th_state th1 = TH_RUN) as Hr1.
      { assert (th0 = th) as -> by congruence.
        destruct (wf_rq_in _ _ _ W1 (th_prio th) (cur s)) as (y&Ey&_&Hy&_); [|congruence].
        rewrite Er1. unfold requeued. rewrite (proj2 (Z.eqb_eq _ _) Hr0), Z.eqb_refl. cbn.
        destruct (_ <? _); [by left|]. apply elem_of_app. right. by apply list_elem_of_singleton. }
      exists (cur s), (f th1). split; [apply lookup_insert_eq|done].
    - assert (t0 ∈ rq s1 (th_prio th0)) as Hin.
      { rewrite Er1. assert (t0 ∈ rq s (th_prio th0)) by (apply (wf_run _ _ _ W); congruence).
        unfold requeued. destruct (_ && _); [|done]. destruct (_ <? _); [by right|]. apply elem_of_app. by left. }
      destruct (wf_rq_in _ _ _ W2 (th_prio th0) t0) as (y&Ey&_&Hy&_); [exact Hin|]. by exists t0, y. }
  destruct (rq s2 (top_prio s2)) as [|n l] eqn:El; [by apply (top_nonempty s2 tr thr) in El|].
  destruct (runq_dequeue_ok s2 n l W2 Ht2 El) as (s3&c&E3&Ec&Hrc&Hpc&W3&Ht3&Es3). rewrite E3. cbn [mbind option_bind].
  exists (s3 <| cur := n |>), c.
  assert (forall p, rq s3 p = if decide (top_prio s2 = p) then l else rq s2 p) as Er3.
  { intros p. rewrite Es3. rewrite (eq_queues_rq (s2 <| runq ::= <[top_prio s2 := l]> |>)) by done. apply rq_insert. }
  assert (sth s3 = sth s2) as Eth3 by (by rewrite Es3).
  assert (top_prio s2 <= top_prio s3) as Hle.
  { rewrite (top_eq _ Ht2), (top_eq _ Ht3). apply runq_top_mono. intros p Hp. rewrite Er3. case_decide; [congruence|done]. }
  split; [done|]. split_and!.
  - split_and!; [by eapply (qwf_ext None (Some n) s3)|by apply (top_ok_frame s3)| |].
    + exists c. cbn. rewrite Eth3. split; [done|]. split; [by apply run_not_sleeping|]. right. split; [done|].
      rewrite Hpc. exact Hle.
    + intros x thx Hx Hrx. cbn in Hx. rewrite Eth3 in Hx. apply Hq2 in Hx. congruence.
  - cbn. by rewrite Eth3.
  - done.
  - by eapply Hq2.
  - rewrite <- Er1, Hpc. change (rq (s3 <| cur := n |>)) with (rq s3). rewrite Er3, decide_True by done. exact El.
  - intros p Hp. rewrite <- Er1. change (rq (s3 <| cur := n |>)) with (rq s3). rewrite Er3, decide_False by congruence. done.
  - cbn. by rewrite Es3.
  - cbn. by rewrite Es3.
  - cbn. rewrite Es3. exact Em1.
  - cbn. rewrite Eth3. unfold s2. cbn. rewrite dom_insert_lookup_L by (by eexists). done.
  - intros t. cbn. rewrite Eth3, <- Ecm1. unfold s2. cbn. destruct (decide (t = cur s)) as [->|?]; [|by rewrite lookup_insert_ne].
    by rewrite lookup_insert_eq, Eth1.
Qed.

(** C3: [sched_switch] on any well-formed state with a runnable thread succeeds
    and makes the highest-priority runnable thread the current one, taking it
    from the head of its queue; the previous thread, if still runnable, goes to
    the head of its own queue when it is preempted and to the tail otherwise;
    no other queue changes, no reschedule is pending afterwards and the
    scheduler invariant holds again. *)
Theorem sched_switch_spec s th t0 th0 :
  qwf None (Some (cur s)) s -> top_ok s -> quiet s -> sth s !! cur s = Some th ->
  sth s !! t0 = Some th0 -> th_state th0 = TH_RUN ->
  exists s' c, sched_switch_sel s = Some s' /\ swf s' /\
    sth s' !! cur s' = Some c /\ th_state c = TH_RUN /\ th_resched c = false /\
    requeued s th (th_prio c) = cur s' :: rq s' (th_prio c) /\
    (forall p, p <> th_prio c -> rq s' p = requeued s th p) /\
    (forall t th, sth s' !! t = Some th -> th_state th = TH_RUN -> th_prio c <= th_prio th).
Proof.
  intros W Ht Hq E E0 Hr0.
  destruct (sched_switch_ok s th t0 th0) as (s'&c&E'&S'&Ec&Hc&Hrc&H1&H2&_); [done..|].
  exists s', c. split_and!; try done. intros t th' Et Hr. by eapply swf_best_prio.
Qed.

(** ** Timeouts *)

(** The timer service as the scheduler uses it: the lists are well formed and
    the timeout of every thread exists and is active whenever it is linked. *)
Definition timeouts_ok (s : sched) : Prop :=
  timers_wf (tms s) /\
  forall t, is_Some (sth s !! t) -> exists tm, tmrs (tms s) !! TmTimeout t = Some tm /\
    (TmTimeout t ∈ timer_list (tms s) ++ expire_list (tms s) <-> tm_active tm = true).

(** The timeouts of the threads [l] have left the lists and are not active; all
    other timers are as before, in the same order. *)
Record timeouts_stopped (l : list tid) (T T' : timers) : Prop := {
  ts_now : lbolt T' = lbolt T;
  ts_list : timer_list T' = filter (fun x => x ∉ TmTimeout <$> l) (timer_list T);
  ts_expired : expire_list T' = filter (fun x => x ∉ TmTimeout <$> l) (expire_list T);
  ts_timers : forall x, tmrs T' !! x = if decide (x ∈ TmTimeout <$> l) then set tm_active (fun _ => false) <$> tmrs T !! x else tmrs T !! x;
}.

Lemma elem_timeout x t l : x ∈ TmTimeout <$> t :: l <-> x = TmTimeout t \/ x ∈ TmTimeout <$> l.
Proof. by rewrite fmap_cons, elem_of_cons. Qed.
Lemma elem_timeout1 x t : x ∈ TmTimeout <$> [t] <-> x = TmTimeout t.
Proof. rewrite elem_timeout. cbn. rewrite elem_of_nil. tauto. Qed.

Lemma timeouts_stopped_nil T : timeouts_stopped [] T T.
Proof. split; try done; symmetry; apply filter_id; intros; apply not_elem_of_nil. Qed.

Lemma timeouts_stopped_cons t l T T1 T2 :
  timeouts_stopped [t] T T1 -> timeouts_stopped l T1 T2 -> timeouts_stopped (t :: l) T T2.
Proof.
  intros [A1 A2 A3 A4] [B1 B2 B3 B4]. split.
  - congruence.
  - rewrite B2, A2, list_filter_filter. apply filter_ext_in. intros x _. rewrite !elem_timeout. change (TmTimeout <$> []) with (@nil tmr). rewrite elem_of_nil. tauto.
  - rewrite B3, A3, list_filter_filter. apply filter_ext_in. intros x _. rewrite !elem_timeout. change (TmTimeout <$> []) with (@nil tmr). rewrite elem_of_nil. tauto.
  - intros x. rewrite B4, A4. destruct (decide (x ∈ TmTimeout <$> t :: l)) as [H|H]; rewrite elem_timeout in H.
    + destruct (decide (x ∈ TmTimeout <$> l)), (decide (x ∈ TmTimeout <$> [t])) as [|Hn]; try done; [by destruct (tmrs T !! x)|]. rewrite elem_timeout1 in Hn. tauto.
    + rewrite !decide_False; [done|..]; rewrite ?elem_timeout1; tauto.
Qed.

Lemma stop_timeout_ok s t :
  timeouts_ok s -> is_Some (sth s !! t) ->
  exists T', stop_timeout t s = Some (s <| tms := T' |>) /\ timeouts_ok (s <| tms := T' |>) /\ timeouts_stopped [t] (tms s) T'.
Proof.
  intros [W H] Ht. destruct (H t Ht) as (tm&Etm&Hl).
  assert (forall T', timer_stop (TmTimeout t) (tms s) = Some T' -> timeouts_stopped [t] (tms s) T') as Hst.
  { intros T'. unfold timer_stop. rewrite Etm. cbn [mbind option_bind]. destruct (tm_active tm) eqn:Ea.
    - destruct (tm_unlink_ok (tms s) (TmTimeout t)) as (T1&->&_&_&Et1&El1&E1&E2); [done|by apply Hl|]. cbn [mbind option_bind]. unfold tm_upd. rewrite Et1, Etm. cbn [mbind option_bind].
      assert (forall l, filter (fun x => x <> TmTimeout t) l = filter (fun x => x ∉ TmTimeout <$> [t]) l) as HF by (intros l; apply filter_ext_in; intros x _; by rewrite elem_timeout1).
      intros [= <-]. rewrite HF in E1, E2. split; [exact El1|exact E1|exact E2|].
      intros x. rewrite <- Et1. cbn [set tmrs]. rewrite lookup_insert.
      destruct (decide (TmTimeout t = x)) as [<-|]; [rewrite decide_True by (by apply elem_timeout1); by rewrite Et1, Etm|].
      rewrite decide_False; [done|]. rewrite elem_timeout1. congruence.
    - intros [= <-]. assert (forall x, x ∈ timer_list (tms s) ++ expire_list (tms s) -> x ∉ TmTimeout <$> [t]) as Hx.
      { intros x Hx Hin%elem_timeout1. subst x. apply Hl in Hx. congruence. }
      split; try done; try (symmetry; apply filter_id; intros x Hin; apply Hx, elem_of_app; tauto).
      intros x. case_decide as Hd; [|done]. apply elem_timeout1 in Hd as ->. rewrite Etm. cbn. f_equal. destruct tm; cbn in *; by subst. }
  unfold stop_timeout.
  destruct (timer_stop_ok (tms s) (TmTimeout t) tm W Etm) as (T'&Est&W'&Elb&Etm'&_&Hn&_&Hsub); [by apply Hl|]. rewrite Est.
  exists T'. split; [done|]. split; [|by apply Hst]. split; [done|]. intros x Hx. change (is_Some (sth s !! x)) in Hx. cbn.
  destruct (H x Hx) as (tx&Ex&Hlx). destruct (decide (x = t)) as [->|Hne].
  - exists (tm <| tm_active := false |>). rewrite Etm', lookup_insert_eq. split; [done|]. rewrite Hn, Hl. cbn.
    split; [intros [? ?]; congruence|done].
  - exists tx. rewrite Etm', lookup_insert_ne by congruence. split; [done|]. rewrite Hsub by congruence. exact Hlx.
Qed.

(** Stopping a timeout that is not active changes nothing. *)
Definition no_timeout (t : tid) (s : sched) : Prop :=
  tm_active <$> tmrs (tms s) !! TmTimeout t = Some false.

Lemma stop_timeout_inactive s t : no_timeout t s -> stop_timeout t s = Some (s <| tms := tms s |>).
Proof.
  unfold no_timeout, stop_timeout, timer_stop. destruct (tmrs (tms s) !! TmTimeout t) as [tm|]; [|done].
  cbn. by intros [= ->].
Qed.

(** A step that keeps the current thread and changes nothing in any thread but
    the result of its sleep. *)
Definition awake (th : sthread) : sthread := th <| th_slpret := 0 |>.
Definition frame (s s' : sched) : Prop :=
  cur s' = cur s /\ forall t, awake <$> sth s' !! t = awake <$> sth s !! t.

Lemma frame_lookup s s' t th :
  frame s s' -> sth s !! t = Some th -> exists th', sth s' !! t = Some th' /\ awake th' = awake th.
Proof.
  intros [_ H] E. specialize (H t). rewrite E in H. destruct (sth s' !! t) as [th'|]; [|done].
  exists th'. split; [done|]. cbn [fmap option_fmap option_map] in H. congruence.
Qed.

Lemma timeouts_ok_frame s s' : frame_tms s s' -> timeouts_ok s -> timeouts_ok s'.
Proof.
  intros (_&Em&Ed&_) [W H]. split; [by rewrite Em|]. rewrite Em. intros t Ht. apply H.
  by rewrite <- elem_of_dom, <- Ed, elem_of_dom.
Qed.

(** ** wake *)

(** A detached sleeping thread goes to the tail of the wake queue with its
    result set and its timeout stopped. *)
Lemma wake_ok R s t th r :
  qwf (Some t) R s -> timeouts_ok s -> sth s !! t = Some th -> sleeping th = true ->
  exists T', wake t r s = Some (s <| sth ::= <[t := th <| th_slpret := r |>]> |>
                                 <| wakeq ::= fun l => l ++ [t] |> <| tms := T' |>) /\
    let s' := s <| sth ::= <[t := th <| th_slpret := r |>]> |>
                <| wakeq ::= fun l => l ++ [t] |> <| tms := T' |> in
    qwf None R s' /\ timeouts_ok s' /\ frame s s' /\ (best s -> best s') /\ (no_timeout t s -> T' = tms s) /\ timeouts_stopped [t] (tms s) T'.
Proof.
  intros W HT E Hs. unfold wake. set (f := fun th => th <| th_slpret := r |>).
  assert (th_upd t f s = Some (s <| sth ::= <[t := f th]> |>)) as Eu by (unfold th_upd; by rewrite E).
  rewrite Eu. cbn [mbind option_bind]. assert (frame_tms s (s <| sth ::= <[t := f th]> |>)) as F.
  { eapply frame_upd; [done|by right]. }
  assert (qwf (Some t) R (s <| sth ::= <[t := f th]> |>)) as W1 by (by eapply qwf_upd_view).
  set (s1 := s <| sth ::= _ |>) in *. assert (sth s1 !! t = Some (f th)) as E1 by apply lookup_insert_eq.
  unfold wakeq_tail. rewrite (qwf_link_free _ _ _ W1). cbn [mbind option_bind].
  assert (timeouts_ok (s1 <| wakeq ::= fun l => l ++ [t] |>)) as HT1 by (by apply (timeouts_ok_frame s)).
  destruct (stop_timeout_ok (s1 <| wakeq ::= fun l => l ++ [t] |>) t HT1) as (T'&E2&HT2&HS2); [by eexists|].
  exists T'. rewrite E2. split; [done|]. cbv zeta. split_and!.
  - eapply (qwf_ext None R (s1 <| wakeq ::= fun l => l ++ [t] |>)); [done..|]. by eapply qwf_wakeq_put.
  - done.
  - split; [done|]. intros x. cbn. rewrite lookup_insert. case_decide as Hd; [|done]. subst x. by rewrite E.
  - intros (c&Ec&Hb). unfold best. cbn. destruct (decide (t = cur s)) as [->|Hne].
    + exists (f th). rewrite lookup_insert_eq. split; [done|]. assert (c = th) as -> by congruence. done.
    + exists c. by rewrite lookup_insert_ne.
  - intros Hn. rewrite stop_timeout_inactive in E2 by done. injection E2 as E2. done.
  - done.
Qed.

Definition sinv (s : sched) : Prop := swf s /\ timeouts_ok s.

Lemma frame_sym s s' : frame s s' -> frame s' s.
Proof. intros [E H]. split; [done|]. intros t. by rewrite H. Qed.

Lemma frame_quiet' s s' : frame s s' -> quiet s -> quiet s'.
Proof.
  intros F Hq t th E Hr. destruct (frame_lookup _ _ _ _ (frame_sym _ _ F) E) as (th0&E0&H0).
  destruct F as [-> _]. apply (Hq t th0 E0). destruct th, th0. unfold awake, set in H0. cbn in *. congruence.
Qed.

Lemma frame_trans' s1 s2 s3 : frame s1 s2 -> frame s2 s3 -> frame s1 s3.
Proof. intros (E1&H1) (E2&H2). split; [congruence|]. intros t. by rewrite H2. Qed.

Lemma sleeping_not_queued R s t th :
  qwf None R s -> sth s !! t = Some th -> th_state th <> TH_RUN -> forall p, t ∉ rq s p.
Proof. intros W E Hs p Hp. destruct (wf_rq_in _ _ _ W _ _ Hp) as (th'&?&_&Hr&_). congruence. Qed.

Lemma sleeping_not_run th : sleeping th = true -> th_state th <> TH_RUN.
Proof. intros Hs Hr. by rewrite run_not_sleeping in Hs. Qed.

Lemma best_unlinked s t : top_ok s -> (forall p, t ∉ rq s p) -> best s -> best (unlinked t s).
Proof. intros Ht Hn (c&Ec&Hb). exists c. split; [exact Ec|]. exact Hb. Qed.

(** A sleeping thread, wherever it is queued, is moved to the wake queue. *)
Lemma wake_sleeping_ok s t th r :
  sinv s -> sth s !! t = Some th -> sleeping th = true ->
  exists s', wake t r (unlinked t s) = Some s' /\ sinv s' /\ frame s s' /\
    sth s' = <[t := th <| th_slpret := r |>]> (sth s) /\ top_prio s' = top_prio s /\
    wakeq s' = without t (wakeq s) ++ [t] /\ (forall e, sq s' e = without t (sq s e)) /\
    (forall p, rq s' p = rq s p) /\ (no_timeout t s -> tms s' = tms s) /\ timeouts_stopped [t] (tms s) (tms s').
Proof.
  intros [(W&Ht&Hb&Hq) HT] E Hs.
  pose proof (sleeping_not_queued _ _ _ _ W E (sleeping_not_run _ Hs)) as Hnr.
  destruct (wake_ok (Some (cur s)) (unlinked t s) t th r) as (T'&E'&W'&HT'&F&Hb'&Hnt&Hst); [by apply qwf_unlinked|done..|].
  set (s' := _ <| tms := T' |>) in *. exists s'.
  assert (forall p, rq s' p = rq s p) as Er.
  { intros p. change (rq s' p) with (rq (unlinked t s) p). rewrite rq_unlinked. by apply without_notin. }
  split_and!; try done.
  - split; [|done]. split_and!; [done| | |].
    + apply (top_ok_frame s); done.
    + apply Hb'. by apply best_unlinked.
    + by apply (frame_quiet' s).
  - intros e. change (sq s' e) with (sq (unlinked t s) e). apply sq_unlinked.
Qed.

(** ** sched_wakeup *)

Lemma wakeup_loop_ok e s :
  sinv s -> exists s', wakeup_loop (length (sq s e)) e s = Some s' /\ sinv s' /\ frame s s' /\
    wakeq s' = wakeq s ++ sq s e /\ sq s' e = [] /\
    (forall e', e' <> e -> sq s' e' = sq s e') /\ (forall p, rq s' p = rq s p) /\
    (forall t, sth s' !! t = if decide (t ∈ sq s e) then set th_slpret (fun _ => 0) <$> sth s !! t else sth s !! t) /\
    ((forall t, t ∈ sq s e -> no_timeout t s) -> tms s' = tms s) /\ top_prio s' = top_prio s /\ timeouts_stopped (sq s e) (tms s) (tms s').
Proof.
  remember (sq s e) as l eqn:El. revert s El. induction l as [|t l IH]; intros s El I; cbn [wakeup_loop length].
  - rewrite <- El. exists s. split_and!; try done; [by rewrite app_nil_r|apply timeouts_stopped_nil].
  - rewrite <- El. pose proof I as [(W&_) _].
    destruct (wf_sq_in _ _ _ W e t) as (th&E&Hs&He&Hw&_); [rewrite <- El; by left|].
    pose proof (wf_sq_nodup _ _ _ W e) as ND. rewrite <- El in ND. apply NoDup_cons in ND as [Hn ND].
    rewrite (sleepq_pop _ _ _ _ _ W (eq_sym El)).
    destruct (wake_sleeping_ok s t th 0 I E Hs) as (s1&E1&I1&F1&Eth&Etp&Ew&Es&Er&Hnt&Hst). rewrite E1. cbn [mbind option_bind].
    assert (sq s1 e = l) as El1.
    { rewrite Es, <- El. unfold without. rewrite filter_cons, decide_False by (by intros []). by apply without_notin. }
    destruct (IH s1 (eq_sym El1) I1) as (s2&E2&I2&F2&Ew2&Es2&Eso2&Er2&Eth2&Hnt2&Etp2&Hst2). exists s2. split_and!; try done.
    + by eapply frame_trans'.
    + rewrite Ew2, Ew, without_notin, <- app_assoc; done.
    + intros e' Hne. rewrite Eso2, Es by done. apply without_notin. intros Hin.
      destruct (wf_sq_in _ _ _ W _ _ Hin) as (?&?&_&?&_). congruence.
    + intros p. by rewrite Er2, Er.
    + intros x. rewrite Eth2, Eth, lookup_insert. destruct (decide (t = x)) as [<-|Hne].
      * rewrite decide_False, decide_True, E by (done || by left). done.
      * destruct (decide (x ∈ l)); [rewrite decide_True by (by right)|rewrite decide_False]; try done.
        intros [?|?]%elem_of_cons; congruence.
    + intros Hq. assert (tms s1 = tms s) as Em by (apply Hnt, Hq; by left).
      rewrite Hnt2; [done|]. intros x Hx. unfold no_timeout. rewrite Em. apply Hq. by right.
    + congruence.
    + by eapply timeouts_stopped_cons.
Qed.

(** C23: [sched_wakeup] never faults and its loop ends: every thread sleeping on
    the event, and no other, moves to the wake queue in the order in which
    they went to sleep, with result SLP_SUCCESS, and its timeout, if one is
    running, is stopped: taken off the timer list and marked inactive.  All
    other timers, threads, event and run queues, the current thread and the
    cached top priority stay as they are, and the scheduler invariant, which is
    assumed, holds again. *)
Theorem sched_wakeup_spec e s :
  sinv s -> exists s', sched_wakeup_body e s = Some s' /\ sinv s' /\
    wakeq s' = wakeq s ++ sq s e /\ sq s' e = [] /\
    (forall e', e' <> e -> sq s' e' = sq s e') /\ (forall p, rq s' p = rq s p) /\
    (forall t th, t ∈ sq s e -> sth s !! t = Some th ->
       sth s' !! t = Some (th <| th_slpret := SLP_SUCCESS |>)) /\
    (forall t, t ∉ sq s e -> sth s' !! t = sth s !! t) /\
    cur s' = cur s /\ top_prio s' = top_prio s /\ timeouts_stopped (sq s e) (tms s) (tms s').
Proof.
  intros I. destruct (wakeup_loop_ok e s I) as (s'&E&I'&[Hc _]&Ew&Es&Eso&Er&Eth&_&Etp&Hst). exists s'. split_and!; try done.
  - intros t th Hin Et. by rewrite Eth, decide_True, Et.
  - intros t Hn. by rewrite Eth, decide_False.
Qed.

(** ** sched_wakeone *)

Definition prio_of (s : sched) (t : tid) : Z := from_option th_prio 0 (sth s !! t).

Lemma select_top_spec s top l :
  is_Some (sth s !! top) -> (forall x, x ∈ l -> is_Some (sth s !! x)) ->
  exists m, select_top top l s = Some m /\
    ((m = top /\ forall x, x ∈ l -> prio_of s top <= prio_of s x) \/
     (exists l1 l2, l = l1 ++ m :: l2 /\ prio_of s m < prio_of s top /\
        (forall x, x ∈ l1 -> prio_of s m < prio_of s x) /\ (forall x, x ∈ l2 -> prio_of s m <= prio_of s x))).
Proof.
  revert top; induction l as [|t l IH]; intros top Htop Hl; cbn [select_top].
  - exists top. split; [done|]. left. split; [done|]. intros x Hx. by apply not_elem_of_nil in Hx.
  - destruct (Hl t) as [th E]; [by left|]. destruct Htop as [tp Etp]. rewrite E, Etp. cbn [mbind option_bind].
    assert (prio_of s t = th_prio th) as Hpt by (unfold prio_of; by rewrite E).
    assert (prio_of s top = th_prio tp) as Hptop by (unfold prio_of; by rewrite Etp).
    destruct (Z.ltb_spec (th_prio th) (th_prio tp)) as [Hlt|Hge].
    + destruct (IH t) as (m&Em&Hm); [by eexists|intros; apply Hl; by right|]. exists m. split; [done|]. right.
      destruct Hm as [[-> Hm]|(l1&l2&->&Hlt'&H1&H2)].
      * exists [], l. split_and!; [done|lia| |done]. intros x Hx. by apply not_elem_of_nil in Hx.
      * exists (t :: l1), l2. split_and!; [done|lia| |done]. intros x [->|Hx]%elem_of_cons; [done|by apply H1].
    + destruct (IH top) as (m&Em&Hm); [by eexists|intros; apply Hl; by right|]. exists m. split; [done|].
      destruct Hm as [[-> Hm]|(l1&l2&->&Hlt'&H1&H2)].
      * left. split; [done|]. intros x [->|Hx]%elem_of_cons; [lia|by apply Hm].
      * right. exists (t :: l1), l2. split_and!; [done..| |done]. intros x [->|Hx]%elem_of_cons; [lia|by apply H1].
Qed.

(** Started on the head of the list, the search returns the first element of
    the best priority. *)
Lemma select_top_first s t l :
  (forall x, x ∈ t :: l -> is_Some (sth s !! x)) ->
  exists m l1 l2, select_top t (t :: l) s = Some m /\ t :: l = l1 ++ m :: l2 /\
    (forall x, x ∈ l1 -> prio_of s m < prio_of s x) /\ (forall x, x ∈ l2 -> prio_of s m <= prio_of s x).
Proof.
  intros H. destruct (select_top_spec s t (t :: l)) as (m&Em&Hm); [apply H; by left|done|].
  destruct Hm as [[-> Hm]|(l1&l2&El&_&H1&H2)]; [|by exists m, l1, l2].
  exists t, [], l. split_and!; [done..| |].
  - intros x Hx. by apply not_elem_of_nil in Hx.
  - intros x Hx. apply Hm. by right.
Qed.

Lemma sleeping_linked R s t th :
  qwf None R s -> sth s !! t = Some th -> sleeping th = true -> link_free t s = false.
Proof.
  intros W E Hs. apply link_free_false. destruct (wf_slp _ _ _ W _ _ E Hs) as [?|(e&_&?)]; eauto.
Qed.

(** The waiter that [sched_wakeone] selects. *)
Record best_waiter (s : sched) (e : evt) (t : tid) (l1 l2 : list tid) : Prop := {
  bw_queue : sq s e = l1 ++ t :: l2;
  bw_before : forall x, x ∈ l1 -> prio_of s t < prio_of s x;
  bw_after : forall x, x ∈ l2 -> prio_of s t <= prio_of s x;
}.

Lemma wakeone_selects s e t l : sinv s -> sq s e = t :: l ->
  exists m l1 l2 th, select_top t (t :: l) s = Some m /\ best_waiter s e m l1 l2 /\ sth s !! m = Some th /\
    sleeping th = true /\ th_slpevt th = Some e /\ m ∉ wakeq s.
Proof.
  intros [(W&_) _] El. destruct (select_top_first s t l) as (m&l1&l2&Em&Em'&H1&H2).
  { intros x Hx. rewrite <- El in Hx. destruct (wf_sq_in _ _ _ W _ _ Hx) as (?&?&_). by eexists. }
  assert (m ∈ sq s e) as Hin by (rewrite El, Em'; apply elem_of_app; right; by left).
  destruct (wf_sq_in _ _ _ W _ _ Hin) as (th&E&Hs&He&Hw&_). exists m, l1, l2, th. split_and!; try done.
  by split; rewrite ?El.
Qed.

Lemma best_waiter_sleeps s e t l1 l2 : sinv s -> best_waiter s e t l1 l2 ->
  t <> cur s /\ exists th, sth s !! t = Some th /\ sleeping th = true.
Proof.
  intros [(W&_&(c&Ec&Hs&_)&_) _] [Eq _ _].
  destruct (wf_sq_in _ _ _ W e t) as (th&E&Hst&_); [rewrite Eq; apply elem_of_app; right; by left|].
  split; [congruence|by exists th].
Qed.

(** The first thread of the smallest priority value is unique. *)
Lemma best_split s (l1 l2 l1' l2' : list tid) t t' :
  l1 ++ t :: l2 = l1' ++ t' :: l2' ->
  (forall x, x ∈ l1 -> prio_of s t < prio_of s x) -> (forall x, x ∈ l2 -> prio_of s t <= prio_of s x) ->
  (forall x, x ∈ l1' -> prio_of s t' < prio_of s x) -> (forall x, x ∈ l2' -> prio_of s t' <= prio_of s x) ->
  t' = t /\ l1' = l1 /\ l2' = l2.
Proof.
  intros Q B1 A1 B2 A2.
  apply app_eq_inv in Q as [(k&E1&E2)|(k&E1&E2)]; destruct k as [|y k]; cbn in E2; injection E2 as E3 E4;
    try (rewrite app_nil_r in E1; done); exfalso; subst y.
  - specialize (B1 t'). specialize (A2 t). rewrite E1 in B1. rewrite E4 in A2.
    rewrite elem_of_app, elem_of_cons in B1. rewrite elem_of_app, elem_of_cons in A2.
    specialize (B1 ltac:(auto)). specialize (A2 ltac:(auto)). lia.
  - specialize (B2 t). specialize (A1 t'). rewrite E1 in B2. rewrite E4 in A1.
    rewrite elem_of_app, elem_of_cons in B2. rewrite elem_of_app, elem_of_cons in A1.
    specialize (B2 ltac:(auto)). specialize (A1 ltac:(auto)). lia.
Qed.

Lemma select_top_best s t l m l1 l2 :
  (forall x, x ∈ t :: l -> is_Some (sth s !! x)) -> t :: l = l1 ++ m :: l2 ->
  (forall x, x ∈ l1 -> prio_of s m < prio_of s x) -> (forall x, x ∈ l2 -> prio_of s m <= prio_of s x) ->
  select_top t (t :: l) s = Some m.
Proof.
  intros H Q B A. destruct (select_top_first s t l H) as (m'&l1'&l2'&E&Q'&B'&A'). rewrite E. f_equal.
  rewrite Q in Q'. by apply (best_split s l1 l2 l1' l2' m m').
Qed.

Lemma best_waiter_split s e t l1 l2 t' l1' l2' :
  best_waiter s e t l1 l2 -> best_waiter s e t' l1' l2' -> t' = t /\ l1' = l1 /\ l2' = l2.
Proof. intros [Q1 B1 A1] [Q2 B2 A2]. apply (best_split s); try done. by rewrite <- Q1. Qed.
Lemma best_waiter_unique s e t l1 l2 t' l1' l2' : best_waiter s e t l1 l2 -> best_waiter s e t' l1' l2' -> t' = t.
Proof. intros B B'. by destruct (best_waiter_split _ _ _ _ _ _ _ _ B B'). Qed.
Lemma best_waiter_rest s e t l1 l2 l1' l2' :
  best_waiter s e t l1' l2' -> best_waiter s e t l1 l2 -> l1' ++ l2' = l1 ++ l2.
Proof. intros B B'. by destruct (best_waiter_split _ _ _ _ _ _ _ _ B B') as (_&->&->). Qed.

(** The outcome when somebody waits. *)
Record woke (s : sched) (e : evt) (t : tid) (l1 l2 : list tid) (th : sthread) (s' : sched) : Prop := {
  wk_inv : sinv s';
  wk_cur : cur s' = cur s;
  wk_wakeq : wakeq s' = wakeq s ++ [t];
  wk_queue : sq s' e = l1 ++ l2;
  wk_queues : forall e', e' <> e -> sq s' e' = sq s e';
  wk_runq : forall p, rq s' p = rq s p;
  wk_top : top_prio s' = top_prio s;
  wk_sth : sth s' = <[t := th <| th_slpret := SLP_SUCCESS |>]> (sth s);
}.

Lemma sched_wakeone_ok e s : sinv s ->
  (sq s e = [] /\ sched_wakeone_body e s = Some (None, s)) \/
  (exists t l1 l2 th s', best_waiter s e t l1 l2 /\ sth s !! t = Some th /\ sleeping th = true /\ t ∉ wakeq s /\
     sched_wakeone_body e s = Some (Some t, s') /\ woke s e t l1 l2 th s').
Proof.
  intros I. pose proof I as [(W&_) _]. unfold sched_wakeone_body. destruct (sq s e) as [|t l] eqn:El; [by left|right].
  destruct (wakeone_selects s e t l I El) as (m&l1&l2&th&Em&B&E&Hs&He&Hw). rewrite Em. cbn [mbind option_bind].
  pose proof B as [Eq H1 H2].
  assert (unlink m s = Some (unlinked m s)) as ->.
  { apply unlink_Some. split; [|done]. by eapply sleeping_linked. }
  cbn [mbind option_bind]. destruct (wake_sleeping_ok s m th 0 I E Hs) as (s'&E'&I'&F&Eth&Etop&Ew&Es&Er&_).
  rewrite E'. cbn [mbind option_bind]. exists m, l1, l2, th, s'.
  pose proof (wf_sq_nodup _ _ _ W e) as ND. rewrite Eq in ND. apply NoDup_app in ND as (_&Hd&ND).
  apply NoDup_cons in ND as [Hn _]. split_and!; try done. split; try done.
  - by destruct F.
  - rewrite Ew. by rewrite without_notin.
  - rewrite Es, Eq. unfold without. rewrite filter_app, filter_cons, decide_False by (by intros []).
    f_equal; apply without_notin; [|done]. intros H. apply (Hd _ H). by left.
  - intros e' Hne. rewrite Es. apply without_notin. intros H.
    destruct (wf_sq_in _ _ _ W _ _ H) as (?&?&_&?&_). congruence.
Qed.

(** [sched_wakeone] wakes exactly one sleeper when there is one: the one of
    the best priority, the longest waiting among equals; the others keep their
    places. *)
Theorem sched_wakeone_spec e s :
  sinv s ->
  (sq s e = [] /\ sched_wakeone_body e s = Some (None, s)) \/
  (exists t l1 l2 s', sq s e = l1 ++ t :: l2 /\ sched_wakeone_body e s = Some (Some t, s') /\ sinv s' /\
     (forall x, x ∈ l1 -> prio_of s t < prio_of s x) /\ (forall x, x ∈ l2 -> prio_of s t <= prio_of s x) /\
     wakeq s' = wakeq s ++ [t] /\ sq s' e = l1 ++ l2 /\ (forall e', e' <> e -> sq s' e' = sq s e') /\
     (forall p, rq s' p = rq s p) /\ th_slpret <$> sth s' !! t = Some SLP_SUCCESS).
Proof.
  intros I. destruct (sched_wakeone_ok e s I) as [?|(t&l1&l2&th&s'&[]&E&_&_&E'&[])]; [by left|right].
  exists t, l1, l2, s'. split_and!; try done. by rewrite wk_sth0, lookup_insert_eq.
Qed.

(** [sched_unsleep] moves a sleeping thread to the wake queue with the given
    result and leaves a thread that does not sleep alone. *)
Theorem sched_unsleep_spec s t th r :
  sinv s -> sth s !! t = Some th ->
  exists s', sched_unsleep_body t r s = Some s' /\ sinv s' /\ (forall p, rq s' p = rq s p) /\
    if sleeping th then
      wakeq s' = without t (wakeq s) ++ [t] /\ (forall e, sq s' e = without t (sq s e)) /\
      sth s' !! t = Some (th <| th_slpret := r |>)
    else s' = s.
Proof.
  intros I E. unfold sched_unsleep_body. rewrite E. cbn [mbind option_bind]. fold (sleeping th).
  destruct (sleeping th) eqn:Hs; [|by exists s].
  pose proof I as [(W&_) _]. assert (unlink t s = Some (unlinked t s)) as ->.
  { apply unlink_Some. split; [|done]. by eapply sleeping_linked. }
  cbn [mbind option_bind]. destruct (wake_sleeping_ok s t th r I E Hs) as (s'&E'&I'&F&Eth&_&Ew&Es&Er&_).
  exists s'. split_and!; try done. by rewrite Eth, lookup_insert_eq.
Qed.

(** ** Changes of a single thread *)

Lemma th_upd_ok s t f th : sth s !! t = Some th -> th_upd t f s = Some (s <| sth ::= <[t := f th]> |>).
Proof. intros E. unfold th_upd. by rewrite E. Qed.

(** [best] only looks at the current thread and the top priority. *)
Lemma best_frame s s' :
  cur s' = cur s -> sth s' !! cur s = sth s !! cur s -> top_prio s <= top_prio s' -> best s -> best s'.
Proof.
  intros Ec E Ht (c&E0&Hs&Hb). exists c. rewrite Ec, E. split; [done|]. split; [done|].
  destruct Hb as [?|[? ?]]; [by left|right].
  split; [done|lia].
Qed.

Lemma best_marked s c : sth s !! cur s = Some c -> sleeping c = false -> th_resched c = true -> best s.
Proof. intros E Hs H. exists c. auto. Qed.

(** A change that keeps the thread's place in the queues and sets its mark
    only if it is the current thread. *)
Lemma sinv_upd s t f th :
  sinv s -> sth s !! t = Some th -> view (f th) = view th ->
  (th_resched (f th) = th_resched th \/ (t = cur s /\ th_resched (f th) = true)) ->
  exists s', th_upd t f s = Some s' /\ sinv s' /\ s' = s <| sth ::= <[t := f th]> |>.
Proof.
  intros [(W&Ht&Hb&Hq) HT] E Hv Hr. eexists. rewrite (th_upd_ok _ _ _ _ E). split; [done|]. split; [|done].
  pose proof (th_upd_ok _ _ f _ E) as Eu. assert (frame_tms s (s <| sth ::= <[t := f th]> |>)) as F.
  { split_and!; [done..| |].
    - cbn. apply dom_insert_lookup_L. by eexists.
    - intros x Hx. cbn. rewrite lookup_insert. case_decide as Hd; [|done]. subst x. rewrite E. cbn.
      destruct Hr as [Hr|[? _]]; [by rewrite Hr|done]. }
  split; [split_and!|].
  - eapply qwf_upd_view; [exact Eu| |done]. intros th' E'. congruence.
  - apply (top_ok_frame s); done.
  - destruct (decide (t = cur s)) as [->|Hne].
    + destruct Hb as (c&Ec&Hs&Hb). assert (c = th) as -> by congruence. exists (f th). cbn. rewrite lookup_insert_eq.
      split; [done|]. apply view_inv in Hv as (H1&H2&H3&_). split; [by rewrite H2|]. destruct Hr as [Hr|[_ Hr]]; [|by left].
      rewrite Hr, H3. destruct Hb as [?|[? ?]]; [by left|right]. tauto.
    + apply (best_frame s); [done| |done|done]. cbn. by rewrite lookup_insert_ne.
  - by apply (frame_quiet s).
  - by apply (timeouts_ok_frame s).
Qed.

(** Any change of a detached thread that ends up off the queues, or of the
    running thread. *)
Lemma sinv_of_detached s0 s t f th :
  sinv s0 -> frame_tms s0 s -> sth s = sth s0 -> qwf (Some t) (Some (cur s)) s -> top_ok s ->
  top_prio s0 <= top_prio s -> sth s !! t = Some th ->
  (th_state (f th) = TH_RUN -> t = cur s) -> sleeping (f th) = false ->
  0 <= th_prio (f th) <= MIN_PRIO -> 0 <= th_baseprio (f th) <= MIN_PRIO ->
  (if decide (t = cur s) then th_resched (f th) = true else th_resched (f th) = th_resched th) ->
  exists s', th_upd t f s = Some s' /\ sinv s' /\ s' = s <| sth ::= <[t := f th]> |>.
Proof.
  intros [(W0&_&Hb&Hq) HT] F Esth W Ht Hle E Hrun Hs Hp Hbp Hr. eexists. rewrite (th_upd_ok _ _ _ _ E).
  split; [done|]. split; [|done]. pose proof (th_upd_ok _ _ f _ E) as Eu. set (s' := s <| sth ::= _ |>) in *.
  assert (frame_tms s s') as F'.
  { eapply frame_upd; [exact Eu|]. case_decide as Hd; [by left|]. right. intros th' E'. congruence. }
  pose proof (frame_trans _ _ _ F F') as F2. split; [split_and!|].
  - eapply (qwf_attach _ _ t).
    + intros th'. change (sth s') with (<[t := f th]> (sth s)). rewrite lookup_insert_eq. intros [= <-].
      split; [|done]. intros H. f_equal. by apply Hrun.
    + eapply qwf_upd_detached; [exact Eu| |done]. intros th' E'. assert (th' = th) as -> by congruence. done.
  - apply (top_ok_frame s); done.
  - case_decide as Hd.
    + apply (best_marked _ (f th)); [|done..]. cbn. rewrite <- Hd. apply lookup_insert_eq.
    + apply (best_frame s0); [apply F2| |done|done]. destruct F as (Ec&_). rewrite <- Ec.
      cbn. rewrite lookup_insert_ne by done. by rewrite Esth.
  - by apply (frame_quiet s0).
  - by apply (timeouts_ok_frame s0).
Qed.

(** A runnable thread other than the current one leaves its run queue. *)
Lemma runq_remove_ok s t th :
  swf s -> sth s !! t = Some th -> th_state th = TH_RUN -> t <> cur s ->
  exists s', runq_remove t s = Some s' /\ qwf (Some t) (Some (cur s)) s' /\ top_ok s' /\
    frame_tms s s' /\ top_prio s <= top_prio s' /\ s' = unlinked t s <| top_prio := top_prio s' |>.
Proof.
  intros (W&Ht&_) E Hr Hne. assert (t ∈ rq s (th_prio th)) as Hin by (apply (wf_run _ _ _ W); congruence).
  unfold runq_remove. assert (unlink t s = Some (unlinked t s)) as ->.
  { apply unlink_Some. split; [|done]. apply link_free_false. eauto. }
  cbn [mbind option_bind]. eexists. split; [reflexivity|]. split; [|split; [|split; [done|split; [|done]]]].
  - eapply (qwf_ext _ _ (unlinked t s)); [done..| |by apply qwf_unlinked].
    intros x thx _ Ex. by apply (wf_prio _ _ _ W x).
  - apply (top_ok_ext (unlinked t s)); done.
  - cbn. rewrite (top_eq _ Ht). apply runq_top_unlinked_le.
Qed.

(** ** sched_yield, sched_tick *)

(** [sched_yield] marks the current thread exactly when another runnable
    thread of its priority is waiting. *)
Theorem sched_yield_spec s c :
  sinv s -> sth s !! cur s = Some c ->
  exists s', sched_yield_body s = Some s' /\ sinv s' /\
    sth s' !! cur s = Some (if decide (rq s (th_prio c) = []) then c else c <| th_resched := true |>) /\
    (forall t, t <> cur s -> sth s' !! t = sth s !! t) /\ runq s' = runq s.
Proof.
  intros I E. unfold sched_yield_body. rewrite E. cbn [mbind option_bind].
  destruct (rq s (th_prio c)) as [|x l] eqn:El; [by exists s|].
  destruct (sinv_upd s (cur s) (fun th => th <| th_resched := true |>) c I E) as (s'&E'&I'&->); [done|by right|].
  eexists. split_and!; [done..|apply lookup_insert_eq| |done]. intros t Ht. cbn. by rewrite lookup_insert_ne.
Qed.

(** A clock tick accounts one tick to the current thread and, for a
    round-robin thread, takes one tick off its quantum; when the quantum is
    used up it is refilled and a reschedule is requested, so that the quantum
    left always stays between 1 and QUANTUM. *)
Lemma sched_tick_ok s c :
  sinv s -> sth s !! cur s = Some c -> 1 <= th_timeleft c <= QUANTUM ->
  exists s' c', sched_tick s = Some s' /\ sinv s' /\ sth s' !! cur s = Some c' /\
    th_time c' = u32 (th_time c + 1) /\ 1 <= th_timeleft c' <= QUANTUM /\
    (forall t, t <> cur s -> sth s' !! t = sth s !! t) /\
    (cur s' = cur s /\ tms s' = tms s /\ eq_queues s s' /\ th_prio c' = th_prio c) /\
    if th_policy c =? SCHED_RR then
      if th_timeleft c =? 1 then th_timeleft c' = QUANTUM /\ th_resched c' = true
      else th_timeleft c' = th_timeleft c - 1 /\ th_resched c' = th_resched c
    else th_timeleft c' = th_timeleft c /\ th_resched c' = th_resched c.
Proof.
  intros I E Hq. unfold sched_tick.
  destruct (sinv_upd s (cur s) (fun c => c <| th_time ::= fun n => u32 (n + 1) |>) c I E) as (s1&E1&I1&Es1); [done|by left|].
  rewrite E1. cbn [mbind option_bind]. assert (cur s1 = cur s) as Ec1 by (by subst s1). rewrite Ec1.
  set (c1 := c <| th_time ::= _ |>) in *. assert (sth s1 !! cur s = Some c1) as Ec by (subst s1; apply lookup_insert_eq).
  assert (forall t, t <> cur s -> sth s1 !! t = sth s !! t) as Ho by (intros; subst s1; by apply lookup_insert_ne).
  rewrite Ec. cbn [mbind option_bind]. change (th_policy c1) with (th_policy c).
  destruct (th_policy c =? SCHED_RR) eqn:Hrr; [|exists s1, c1; split_and!; try done; try (cbn; lia); by subst s1].
  rewrite <- Ec1 in Ec.
  destruct (sinv_upd s1 (cur s1) (fun c => c <| th_timeleft ::= fun n => n - 1 |>) c1 I1 Ec) as (s2&E2&I2&Es2); [done|by left|].
  rewrite Ec1 in E2. rewrite E2. cbn [mbind option_bind]. set (c2 := c1 <| th_timeleft ::= _ |>) in *.
  assert (cur s2 = cur s) as Ec2 by (by subst s2). rewrite Ec2.
  assert (sth s2 !! cur s = Some c2) as Ecc by (subst s2; rewrite <- Ec1; apply lookup_insert_eq).
  assert (forall t, t <> cur s -> sth s2 !! t = sth s !! t) as Ho2.
  { intros t Ht. rewrite <- Ho by done. subst s2. apply lookup_insert_ne. congruence. }
  rewrite Ecc. cbn [mbind option_bind]. change (th_timeleft c2) with (th_timeleft c - 1).
  destruct (Z.eqb_spec (th_timeleft c) 1) as [H1|H1].
  - rewrite (proj2 (Z.leb_le _ _)) by lia. rewrite <- Ec2 in Ecc.
    destruct (sinv_upd s2 (cur s2) (fun c => c <| th_timeleft ::= fun n => n + QUANTUM |> <| th_resched := true |>)
                c2 I2 Ecc) as (s3&E3&I3&Es3); [done|by right|].
    rewrite Ec2 in E3. exists s3, (c2 <| th_timeleft ::= fun n => n + QUANTUM |> <| th_resched := true |>).
    split_and!; try done.
    + subst s3. rewrite <- Ec2. apply lookup_insert_eq.
    + cbn. lia.
    + cbn. lia.
    + intros t Ht. rewrite <- Ho2 by done. subst s3. apply lookup_insert_ne. congruence.
    + by subst s3.
    + by subst s3 s2 s1.
    + by subst s3 s2 s1.
    + cbn. lia.
  - rewrite (proj2 (Z.leb_gt _ _)) by lia. exists s2, c2. split_and!; try done; try (cbn; lia); by subst s2 s1.
Qed.

(** The current thread after a tick, whatever is left of its quantum. *)
Definition ticked (c : sthread) : sthread :=
  let c := c <| th_time ::= fun n => u32 (n + 1) |> in
  if th_policy c =? SCHED_RR then
    let c := c <| th_timeleft ::= fun n => n - 1 |> in
    if th_timeleft c <=? 0 then c <| th_timeleft ::= fun n => n + QUANTUM |> <| th_resched := true |> else c
  else c.

Lemma sth_insert_twice (s : sched) t (a b : sthread) : s <| sth ::= <[t := a]> |> <| sth ::= <[t := b]> |> = s <| sth ::= <[t := b]> |>.
Proof. destruct s as [th]. cbn. f_equal. apply insert_insert_eq. Qed.

Lemma sched_tick_eval s c :
  sinv s -> sth s !! cur s = Some c ->
  sched_tick s = Some (s <| sth ::= <[cur s := ticked c]> |>) /\ sinv (s <| sth ::= <[cur s := ticked c]> |>).
Proof.
  intros I E. unfold sched_tick, ticked. set (c1 := c <| th_time ::= _ |>). set (s1 := s <| sth ::= <[cur s := c1]> |>).
  destruct (sinv_upd s (cur s) (fun c => c <| th_time ::= fun n => u32 (n + 1) |>) c I E) as (s1'&E1&I1&Es1); [done|by left|].
  fold c1 s1 in Es1. rewrite Es1 in E1, I1. rewrite E1. cbn [mbind option_bind]. clear s1' Es1.
  assert (sth s1 !! cur s1 = Some c1) as Ec by apply lookup_insert_eq. rewrite Ec. cbn [mbind option_bind].
  destruct (th_policy c1 =? SCHED_RR); [|done]. set (c2 := c1 <| th_timeleft ::= _ |>). set (s2 := s1 <| sth ::= <[cur s := c2]> |>).
  destruct (sinv_upd s1 (cur s1) (fun c => c <| th_timeleft ::= fun n => n - 1 |>) c1 I1 Ec) as (s2'&E2&I2&Es2); [done|by left|].
  change (s2' = s2) in Es2. rewrite Es2 in E2, I2. rewrite E2. cbn [mbind option_bind]. clear s2' Es2.
  assert (sth s2 !! cur s2 = Some c2) as Ec2 by apply lookup_insert_eq. rewrite Ec2. cbn [mbind option_bind].
  assert (s2 = s <| sth ::= <[cur s := c2]> |>) as Es2 by apply sth_insert_twice.
  destruct (th_timeleft c2 <=? 0); [|by rewrite <- Es2].
  destruct (sinv_upd s2 (cur s2) (fun c => c <| th_timeleft ::= fun n => n + QUANTUM |> <| th_resched := true |>) c2 I2 Ec2) as (s3&E3&I3&Es3); [done|by right|].
  rewrite Es3 in E3, I3. rewrite Es2 in E3, I3 |- *. cbv beta in E3, I3.
  change (cur (s <| sth ::= <[cur s := c2]> |>)) with (cur s) in *. rewrite sth_insert_twice in E3, I3. done.
Qed.

(** ** sched_suspend, sched_resume *)

Lemma land_bit_other st m n : Z.land m n = 0 -> Z.land (Z.lor st m) n = Z.land st n.
Proof. intros H. rewrite Z.land_lor_distr_l, H. apply Z.lor_0_r. Qed.

Lemma ldiff_bit_other st m n : Z.land m n = 0 -> Z.land (Z.ldiff st m) n = Z.land st n.
Proof.
  intros H. apply Z.bits_inj'. intros i Hi. rewrite !Z.land_spec, Z.ldiff_spec.
  apply (f_equal (fun z => Z.testbit z i)) in H. rewrite Z.land_spec, Z.bits_0 in H.
  by destruct (Z.testbit st i), (Z.testbit m i), (Z.testbit n i).
Qed.

Lemma lor_nonzero st m : m <> 0 -> Z.lor st m <> TH_RUN.
Proof. intros Hm H. by apply Z.lor_eq_0_iff in H as [_ ?]. Qed.

Lemma suspend_view th :
  th_state th <> TH_RUN -> view (th <| th_state ::= fun st => Z.lor st TH_SUSPEND |>) = view th.
Proof.
  intros H. unfold view, place, sleeping, flag. cbn. rewrite land_bit_other by done.
  rewrite !bool_decide_eq_false_2; [done|done|]. by apply lor_nonzero.
Qed.

(** [sched_suspend] takes a runnable thread off the run queue (or requests a
    reschedule if it is the current one) and leaves a sleeping thread where it
    waits; in every case the thread ends up suspended and the scheduler
    invariant holds. *)
Lemma sched_suspend_ok s t th :
  sinv s -> sth s !! t = Some th ->
  exists s' th', sched_suspend t s = Some s' /\ sinv s' /\ cur s' = cur s /\ sth s' !! t = Some th' /\
    th_state th' = Z.lor (th_state th) TH_SUSPEND /\ th_prio th' = th_prio th /\
    (t = cur s -> th_state th = TH_RUN -> th_resched th' = true) /\
    (forall p, rq s' p = without t (rq s p)) /\ wakeq s' = wakeq s /\ (forall e, sq s' e = sq s e).
Proof.
  intros I E. pose proof I as [(W&Ht&Hb&Hq) HT]. unfold sched_suspend. rewrite E. cbn [mbind option_bind].
  set (f := fun th => th <| th_state ::= fun st => Z.lor st TH_SUSPEND |>).
  destruct (Z.eqb_spec (th_state th) TH_RUN) as [Hr|Hr].
  - destruct (Z.eqb_spec t (cur s)) as [->|Hne].
    + pose proof (running_link_free _ _ _ W E Hr) as Hf. pose proof Hf as (Hf1&Hf2&Hf3)%link_free_spec.
      destruct (sinv_upd s (cur s) (fun th => th <| th_resched := true |>) th I E) as (s1&E1&I1&Es1); [done|by right|].
      rewrite E1. cbn [mbind option_bind]. set (th1 := th <| th_resched := true |>) in *.
      assert (sth s1 !! cur s = Some th1) as Eth by (subst s1; apply lookup_insert_eq). pose proof I1 as [(W1&Ht1&_) _].
      destruct (sinv_of_detached s1 s1 (cur s) f th1) as (s2&E2&I2&Es2); try done.
      { apply qwf_detach; [by subst s1|done]. }
      { by subst s1. }
      { unfold sleeping. cbn. by rewrite Hr. }
      { by apply (wf_prio _ _ _ W1 _ _ Eth). }
      { by apply (wf_prio _ _ _ W1 _ _ Eth). }
      { by case_decide. }
      exists s2, (f th1). split_and!; try done.
      * by subst s2 s1.
      * subst s2. apply lookup_insert_eq.
      * intros p. rewrite without_notin by done. by subst s2 s1.
      * by subst s2 s1.
      * by subst s2 s1.
    + destruct (runq_remove_ok s t th) as (s1&E1&W1&Ht1&F1&Hle&Es1); [by destruct I|done..|].
      rewrite E1. cbn [mbind option_bind]. assert (cur s1 = cur s) as Ec1 by apply F1.
      assert (forall q, t ∉ q -> without t q = q) as Hwo by (intros; by apply without_notin).
      destruct (sinv_of_detached s s1 t f th) as (s2&E2&I2&Es2); try done.
      { by rewrite Es1. } { by rewrite Ec1. } { by rewrite Es1. }
      { cbn. by rewrite Hr. }
      { unfold sleeping. cbn. by rewrite Hr. }
      { by apply (wf_prio _ _ _ W _ _ E). }
      { by apply (wf_prio _ _ _ W _ _ E). }
      { rewrite Ec1. by rewrite decide_False. }
      exists s2, (f th). split_and!; try done.
      * subst s2. exact Ec1.
      * subst s2. apply lookup_insert_eq.
      * intros p. subst s2. rewrite <- rq_unlinked. rewrite Es1. done.
      * subst s2. rewrite Es1. cbn. apply Hwo. intros Hin. destruct (wf_wq_in _ _ _ W _ Hin) as (?&?&Hs&_).
        simplify_eq. by rewrite run_not_sleeping in Hs.
      * intros e. subst s2. rewrite Es1. etransitivity; [apply (sq_unlinked s t e)|]. apply Hwo. intros Hin.
        destruct (wf_sq_in _ _ _ W _ _ Hin) as (?&?&Hs&_). simplify_eq. by rewrite run_not_sleeping in Hs.
  - cbn [mbind option_bind]. destruct (sinv_upd s t f th I E) as (s'&E'&I'&Es'); [by apply suspend_view|by left|].
    exists s', (f th). split_and!; try done; try by subst s'.
    + subst s'. apply lookup_insert_eq.
    + intros p. subst s'. rewrite without_notin; [done|]. by eapply sleeping_not_queued.
Qed.

Lemma flag_clr st m : flag (clr st m) m = false.
Proof.
  unfold flag, clr. apply negb_false_iff, Z.eqb_eq. apply Z.bits_inj'. intros i Hi.
  rewrite Z.land_spec, Z.ldiff_spec, Z.bits_0. by destruct (Z.testbit st i), (Z.testbit m i).
Qed.

Lemma flag_not_run st m : flag st m = true -> st <> TH_RUN.
Proof. by intros H ->. Qed.

Lemma suspended_only st : flag st TH_SUSPEND = true -> clr st TH_SUSPEND = TH_RUN -> flag st TH_SLEEP = false.
Proof.
  unfold flag, clr. intros _ H. rewrite <- (ldiff_bit_other st TH_SUSPEND TH_SLEEP) by done. by rewrite H.
Qed.

Lemma not_queued_link_free R s t th :
  qwf None R s -> sth s !! t = Some th -> th_state th <> TH_RUN -> sleeping th = false -> link_free t s = true.
Proof.
  intros W E Hr Hs. apply link_free_spec. split_and!.
  - intros Hin. destruct (wf_wq_in _ _ _ W _ Hin) as (?&?&?&_). congruence.
  - by eapply sleeping_not_queued.
  - intros e Hin. destruct (wf_sq_in _ _ _ W _ _ Hin) as (?&?&?&_). congruence.
Qed.

(** A running thread that does not sleep is on no queue. *)
Lemma current_link_free s th :
  qwf None (Some (cur s)) s -> sth s !! cur s = Some th -> sleeping th = false -> link_free (cur s) s = true.
Proof.
  intros W E Hs. destruct (decide (th_state th = TH_RUN)); [by eapply running_link_free|].
  by eapply not_queued_link_free.
Qed.

Lemma enqueue_frame s t th :
  frame_tms s (s <| runq ::= <[th_prio th := rq s (th_prio th) ++ [t]]> |>
                 <| sth := mark_resched (th_prio th <? top_prio s) s |>
                 <| top_prio := Z.min (th_prio th) (top_prio s) |>).
Proof.
  split_and!; [done..|apply dom_mark_resched|]. intros x Hx. cbn. by rewrite mark_resched_other.
Qed.

Lemma mark_resched_state b s x : th_state <$> mark_resched b s !! x = th_state <$> sth s !! x.
Proof.
  unfold mark_resched. destruct b; [|done]. rewrite lookup_alter. case_decide; [|done].
  subst. by destruct (sth s !! cur s).
Qed.

(** A detached thread that becomes runnable is queued. *)
Lemma sinv_enqueue s0 s t f th :
  sinv s0 -> frame_tms s0 s -> sth s = sth s0 -> qwf (Some t) (Some (cur s)) s -> top_ok s ->
  top_prio s0 <= top_prio s -> sth s !! t = Some th -> t <> cur s -> th_state (f th) = TH_RUN ->
  0 <= th_prio (f th) <= MIN_PRIO -> 0 <= th_baseprio (f th) <= MIN_PRIO -> th_resched (f th) = th_resched th ->
  exists s' s'', th_upd t f s = Some s' /\ runq_enqueue t s' = Some s'' /\ sinv s'' /\ frame_tms s0 s'' /\
    s' = s <| sth ::= <[t := f th]> |> /\ sth s'' !! t = Some (f th) /\
    rq s'' (th_prio (f th)) = rq s (th_prio (f th)) ++ [t] /\
    (forall p, p <> th_prio (f th) -> rq s'' p = rq s p) /\
    wakeq s'' = wakeq s /\ (forall e, sq s'' e = sq s e) /\
    (forall x, x <> t -> th_state <$> sth s'' !! x = th_state <$> sth s !! x).
Proof.
  intros [(W0&_&Hb&Hq) HT] F Esth W Ht Hle E Hne Hrun Hp Hbp Hr.
  pose proof (th_upd_ok _ _ f _ E) as Eu. set (s' := s <| sth ::= _ |>) in *.
  assert (sth s' !! t = Some (f th)) as Eth by apply lookup_insert_eq.
  assert (frame_tms s s') as F'.
  { eapply frame_upd; [exact Eu|]. right. intros th' E'. congruence. }
  assert (cur s' = cur s0) as Ec by (etransitivity; [apply F'|apply F]).
  assert (is_Some (sth s !! cur s)) as Hc.
  { apply (frame_is_Some s0 s); [done|]. destruct F as (->&_). destruct Hb as (c&?&_). by eexists. }
  destruct (runq_enqueue_ok (Some (cur s)) s' t (f th)) as (s2&E2&W2&Ht2&Hb2&Es2); [| |done|done| | |].
  { eapply qwf_upd_detached; [exact Eu| |done]. intros th' E'. assert (th' = th) as -> by congruence. done. }
  { apply (top_ok_frame s); done. }
  { congruence. }
  { by apply (frame_is_Some s s'). }
  assert (frame_tms s' s2) as F2 by (rewrite Es2; apply enqueue_frame).
  pose proof (frame_trans _ _ _ (frame_trans _ _ _ F F') F2) as F3.
  exists s', s2. split_and!; try done.
  - split; [split_and!|].
    + destruct F3 as (->&_). destruct F as (Ec0&_). by rewrite <- Ec0.
    + done.
    + apply Hb2. apply (best_frame s0); [done| |done|done]. destruct F as (<-&_). cbn.
      rewrite lookup_insert_ne by done. by rewrite Esth.
    + by apply (frame_quiet s0).
    + by apply (timeouts_ok_frame s0).
  - rewrite Es2. cbn. rewrite mark_resched_other; [done|]. change (cur s') with (cur s). done.
  - rewrite Es2. etransitivity; [apply (rq_insert s')|]. by rewrite decide_True.
  - intros p Hp'. rewrite Es2. etransitivity; [apply (rq_insert s')|]. by rewrite decide_False.
  - by rewrite Es2.
  - intros e. by rewrite Es2.
  - intros x Hx. rewrite Es2. cbn. rewrite mark_resched_state. cbn. by rewrite lookup_insert_ne.
Qed.

Lemma resume_view th :
  flag (th_state th) TH_SUSPEND = true -> clr (th_state th) TH_SUSPEND <> TH_RUN ->
  view (th <| th_state ::= fun st => clr st TH_SUSPEND |>) = view th.
Proof.
  intros Hf H. unfold view, place, sleeping. cbn. rewrite !bool_decide_eq_false_2; [|by eapply flag_not_run|done].
  unfold flag, clr. by rewrite ldiff_bit_other.
Qed.

(** [sched_resume] of a suspended thread other than the current one: it loses
    the suspension and, if nothing else blocks it, joins the tail of the run
    queue of its priority. *)
Lemma sched_resume_ok s t th :
  sinv s -> sth s !! t = Some th -> t <> cur s ->
  exists s', sched_resume t s = Some s' /\ sinv s' /\ cur s' = cur s /\
    ((exists c, sth s !! cur s = Some c /\ th_state c = TH_RUN) ->
     (exists c, sth s' !! cur s' = Some c /\ th_state c = TH_RUN)) /\
    if flag (th_state th) TH_SUSPEND then
      th_state <$> sth s' !! t = Some (clr (th_state th) TH_SUSPEND) /\
      (forall p, rq s' p = if decide (clr (th_state th) TH_SUSPEND = TH_RUN /\ p = th_prio th)
                           then rq s p ++ [t] else rq s p) /\
      wakeq s' = wakeq s /\ (forall e, sq s' e = sq s e)
    else s' = s.
Proof.
  intros I E Hne. pose proof I as [(W&Ht&Hb&Hq) HT]. unfold sched_resume. rewrite E. cbn [mbind option_bind].
  destruct (flag (th_state th) TH_SUSPEND) eqn:Hf; [|by exists s].
  set (f := fun th => th <| th_state ::= fun st => clr st TH_SUSPEND |>).
  destruct (Z.eqb_spec (clr (th_state th) TH_SUSPEND) TH_RUN) as [Hr|Hr].
  - pose proof (wf_prio _ _ _ W _ _ E) as [Hp Hbp].
    destruct (sinv_enqueue s s t f th) as (s1&s2&E1&E2&I2&F2&Es1&Eth2&Er1&Er2&Ew&Es&Est); try done.
    { apply qwf_detach; [|done]. eapply not_queued_link_free; [done..|by eapply flag_not_run|by apply suspended_only]. }
    rewrite E1. cbn [mbind option_bind]. assert (sth s1 !! t = Some (f th)) as -> by (subst s1; apply lookup_insert_eq).
    cbn [mbind option_bind]. change (th_state (f th)) with (clr (th_state th) TH_SUSPEND). rewrite Hr, Z.eqb_refl.
    assert (cur s2 = cur s) as Ec2 by apply F2.
    exists s2. split_and!; [done..| |rewrite Eth2; cbn; by rewrite Hr| |done|done].
    { intros (c&Ec&Hc). specialize (Est (cur s) (not_eq_sym Hne)). rewrite Ec in Est. rewrite Ec2.
      destruct (sth s2 !! cur s) as [c2|]; [|done]. exists c2. split; [done|]. cbn in Est. congruence. }
    intros p. case_decide as Hd.
    + destruct Hd as [_ ->]. apply Er1.
    + apply Er2. tauto.
  - destruct (sinv_upd s t f th I E) as (s1&E1&I1&Es1); [by apply resume_view|by left|].
    rewrite E1. cbn [mbind option_bind]. assert (sth s1 !! t = Some (f th)) as Eth by (subst s1; apply lookup_insert_eq).
    rewrite Eth. cbn [mbind option_bind]. change (th_state (f th)) with (clr (th_state th) TH_SUSPEND).
    rewrite (proj2 (Z.eqb_neq _ _) Hr). exists s1. split_and!; [done|done|by subst s1| |by rewrite Eth| |by subst s1|by subst s1].
    { intros (c&Ec&Hc). exists c. subst s1. cbn. by rewrite lookup_insert_ne. }
    intros p. rewrite decide_False by tauto. by subst s1.
Qed.

(** ** sched_stop *)

Lemma sinv_tms s T : sinv s -> timeouts_ok (s <| tms := T |>) -> sinv (s <| tms := T |>).
Proof.
  intros [(W&Ht&Hb&Hq) _] HT. split; [|done]. split_and!; [|by apply (top_ok_frame s)|done|done].
  by eapply (qwf_ext None (Some (cur s)) s).
Qed.

(** Whatever its state, the thread is first taken off its queue. *)
Lemma stop_detach s t th :
  sinv s -> sth s !! t = Some th ->
  exists s0 s1 th1,
    (if t =? cur s then th_upd t (fun th => th <| th_locks := 1 |> <| th_resched := true |>) s
     else if th_state th =? TH_RUN then runq_remove t s
     else if flag (th_state th) TH_SLEEP then unlink t s else Some s) = Some s1 /\
    sinv s0 /\ frame_tms s0 s1 /\ sth s1 = sth s0 /\ qwf (Some t) (Some (cur s1)) s1 /\ top_ok s1 /\
    top_prio s0 <= top_prio s1 /\ frame_tms s s1 /\ sth s1 !! t = Some th1 /\ (t = cur s -> th_resched th1 = true) /\
    th_prio th1 = th_prio th /\ th_baseprio th1 = th_baseprio th.
Proof.
  intros I E. pose proof I as [(W&Ht&Hb&Hq) HT]. destruct (Z.eqb_spec t (cur s)) as [->|Hne].
  - assert (link_free (cur s) s = true) as Hf.
    { destruct Hb as (c&?&?&_). eapply current_link_free; [done..|congruence]. }
    destruct (sinv_upd s (cur s) (fun th => th <| th_locks := 1 |> <| th_resched := true |>) th I E)
      as (s1&E1&I1&Es1); [done|by right|].
    assert (frame_tms s s1) as F1 by (eapply frame_upd; [done|by left]).
    exists s1, s1, (th <| th_locks := 1 |> <| th_resched := true |>). pose proof I1 as [(W1&Ht1&_) _].
    split_and!; try done; [|subst s1; apply lookup_insert_eq]. apply qwf_detach; [by subst s1|done].
  - destruct (Z.eqb_spec (th_state th) TH_RUN) as [Hr|Hr].
    + destruct (runq_remove_ok s t th) as (s1&E1&W1&Ht1&F1&Hle&Es1); [by destruct I|done..|].
      exists s, s1, th. split_and!; try done; [by rewrite Es1|by destruct F1 as (->&_)|by rewrite Es1].
    + fold (sleeping th). destruct (sleeping th) eqn:Hs.
      * exists s, (unlinked t s), th. assert (unlink t s = Some (unlinked t s)) as ->.
        { apply unlink_Some. split; [|done]. by eapply sleeping_linked. }
        pose proof (sleeping_not_queued _ _ _ _ W E Hr) as Hnr.
        split_and!; try done; [by apply qwf_unlinked|].
        apply (top_ok_frame s); [|done..]. intros p. rewrite rq_unlinked. by apply without_notin.
      * exists s, s, th. split_and!; try done. apply qwf_detach; [|done]. by eapply not_queued_link_free.
Qed.

Lemma sched_stop_ok s t th :
  sinv s -> sth s !! t = Some th ->
  exists s' th', sched_stop t s = Some s' /\ sinv s' /\ cur s' = cur s /\ sth s' !! t = Some th' /\
    th_state th' = TH_EXIT /\ (t = cur s -> th_resched th' = true) /\ link_free t s' = true.
Proof.
  intros I E. unfold sched_stop. rewrite E. cbn [mbind option_bind].
  destruct (stop_detach s t th I E) as (s0&s1&th1&E1&I0&F0&Es&W1&Ht1&Hle&F1&Eth&Hrs&Hp&Hbp).
  rewrite E1. cbn [mbind option_bind]. pose proof I0 as [(W0&_) HT0].
  destruct (stop_timeout_ok s1 t) as (T'&E2&HT2&HS2); [by apply (timeouts_ok_frame s0)|by eexists|].
  rewrite E2. cbn [mbind option_bind]. set (f := fun th => th <| th_state := TH_EXIT |>).
  assert (timeouts_ok (s0 <| tms := T' |>)) as HT0'.
  { destruct HT2 as [? H2]. split; [done|]. intros x Hx. apply H2. cbn. rewrite Es. exact Hx. }
  assert (cur s1 = cur s) as Ec by apply F1.
  assert (0 <= th_prio th1 <= MIN_PRIO /\ 0 <= th_baseprio th1 <= MIN_PRIO) as [? ?].
  { apply (wf_prio _ _ _ W0 t). by rewrite <- Es. }
  assert (qwf (Some t) (Some (cur s1)) (s1 <| tms := T' |>)) as W2.
  { eapply (qwf_ext _ _ s1); [done..| |done]. intros x thx _ Ex. by apply (wf_prio _ _ _ W1 x). }
  destruct (sinv_of_detached (s0 <| tms := T' |>) (s1 <| tms := T' |>) t f th1) as (s'&E'&I'&Es'); try done.
  { by apply sinv_tms. }
  { destruct F0 as (?&?&?&?). split_and!; done. }
  { by apply (top_ok_frame s1). }
  { case_decide as Hd; [|done]. apply Hrs. rewrite Hd. exact Ec. }
  exists s', (f th1). split_and!; try done.
  - by subst s'.
  - subst s'. apply lookup_insert_eq.
  - subst s'. exact (qwf_link_free _ _ _ W2).
Qed.

(** ** sched_setprio, sched_setpolicy *)

(** A change of the priorities that does not move the thread. *)
Lemma sinv_upd_place s t f th :
  sinv s -> sth s !! t = Some th -> place (f th) = place th -> th_resched (f th) = th_resched th ->
  0 <= th_prio (f th) <= MIN_PRIO -> 0 <= th_baseprio (f th) <= MIN_PRIO ->
  (t = cur s -> th_prio (f th) = th_prio th) ->
  sinv (s <| sth ::= <[t := f th]> |>).
Proof.
  intros [(W&Ht&(c&Ec&Hs&Hb)&Hq) HT] E Hpl Hr Hp Hbase Hc. set (s' := _ <| sth ::= _ |>).
  assert (frame_tms s s') as F.
  { apply (frame_upd _ _ t f); [by apply th_upd_ok|right; intros; congruence]. }
  split; [split_and!|].
  - apply (qwf_ext_place _ _ s); [done| | |done].
    + intros x _. cbn. rewrite lookup_insert. case_decide; [|done]. subst. rewrite E.
      cbn [fmap option_fmap option_map]. by rewrite Hpl.
    + intros x thx. cbn. rewrite lookup_insert_Some. intros [[<- <-]|[_ Ex]]; [done|by apply (wf_prio _ _ _ W x)].
  - by apply (top_ok_frame s).
  - destruct (decide (t = cur s)) as [->|Hne].
    + assert (c = th) as -> by congruence. exists (f th). split; [apply lookup_insert_eq|].
      rewrite Hr, Hc by done. apply place_inv in Hpl as (?&Hs'&_). split; [by rewrite Hs'|]. cbn. destruct Hb as [?|[? ?]]; [by left|right]. tauto.
    + exists c. split; [|done]. cbn. by rewrite lookup_insert_ne.
  - by apply (frame_quiet s).
  - by apply (timeouts_ok_frame s).
Qed.

(** A new priority for the running thread: a reschedule is requested unless it
    still is the best one. *)
Lemma setprio_current s th p :
  sinv s -> sth s !! cur s = Some th -> 0 <= p <= MIN_PRIO ->
  let s1 := s <| sth ::= <[cur s := th <| th_prio := p |>]> |> in
  let s2 := s1 <| top_prio := runq_top s1 |> in
  exists s', (if negb (p =? top_prio s2) then th_upd (cur s2) (fun c => c <| th_resched := true |>) s2 else Some s2)
     = Some s' /\ sinv s' /\ frame_tms s s'.
Proof.
  intros [(W&Ht&(c&Ec0&Hs&Hb)&Hq) HT] E Hp s1 s2. assert (c = th) as -> by congruence.
  set (th1 := th <| th_prio := p |>) in *.
  assert (th_upd (cur s) (fun th => th <| th_prio := p |>) s = Some s1) as E1 by by apply th_upd_ok.
  assert (frame_tms s s1) as F1 by (eapply frame_upd; [done|by left]).
  assert (qwf None (Some (cur s)) s2) as W2.
  { apply (qwf_ext None _ s1); [done..|]. apply (qwf_attach _ _ (cur s)).
    - intros th' E'. change (sth s1) with (<[cur s := th1]> (sth s)) in E'. rewrite lookup_insert_eq in E'.
      assert (th' = th1) as -> by congruence. done.
    - eapply qwf_upd_detached; [exact E1| |apply qwf_detach; [by eapply current_link_free|done]].
      intros th' E'. split; [exact Hp|]. by apply (wf_prio _ _ _ W _ _ E'). }
  assert (top_ok s2) as Ht2 by (apply (top_ok_ext s1); done).
  assert (frame_tms s s2) as F2 by exact F1. assert (cur s2 = cur s) as Ec by done.
  assert (sth s2 !! cur s = Some th1) as Eth by apply lookup_insert_eq.
  clearbody s2. rewrite Ec. destruct (Z.eqb_spec p (top_prio s2)) as [Heq|Hne]; cbn [negb].
  - exists s2. split; [done|]. split; [|done]. split; [split_and!|].
    + by rewrite Ec. + done.
    + exists th1. rewrite Ec. split; [done|]. split; [done|]. destruct Hb as [?|[? _]]; [by left|right].
      split; [done|]. cbn. lia.
    + by apply (frame_quiet s). + by apply (timeouts_ok_frame s).
  - rewrite (th_upd_ok _ _ _ _ Eth). eexists. split; [done|].
    pose proof (th_upd_ok _ _ (fun c => c <| th_resched := true |>) _ Eth) as Eu.
    assert (frame_tms s2 (s2 <| sth ::= <[cur s := th1 <| th_resched := true |>]> |>)) as F3.
    { eapply frame_upd; [exact Eu|by left]. }
    pose proof (frame_trans _ _ _ F2 F3) as F4. split; [|done]. split; [split_and!|].
    + eapply qwf_upd_view; [exact Eu|done|]. cbn. by rewrite Ec.
    + by apply (top_ok_frame s2).
    + eapply best_marked; [cbn; rewrite Ec; apply lookup_insert_eq|done..].
    + by apply (frame_quiet s). + by apply (timeouts_ok_frame s).
Qed.

Lemma sched_setprio_ok s t th base p :
  sinv s -> sth s !! t = Some th -> 0 <= base <= MIN_PRIO -> 0 <= p <= MIN_PRIO ->
  exists s', sched_setprio t base p s = Some s' /\ sinv s' /\ cur s' = cur s.
Proof.
  intros I E Hbase Hp. unfold sched_setprio. rewrite (th_upd_ok _ _ _ _ E). cbn [mbind option_bind].
  pose proof I as [(W&_) _]. pose proof (wf_prio _ _ _ W _ _ E) as [Hp0 Hbp0].
  assert (sinv (s <| sth ::= <[t := th <| th_baseprio := base |>]> |>)) as I1.
  { by apply (sinv_upd_place s t (fun th => th <| th_baseprio := base |>) th). } set (s1 := s <| sth ::= _ |>) in *.
  set (th1 := th <| th_baseprio := base |>) in *.
  assert (sth s1 !! t = Some th1) as E1 by apply lookup_insert_eq. rewrite E1. cbn [mbind option_bind].
  change (th_state th1) with (th_state th). assert (cur s1 = cur s) as Ec1 by done.
  pose proof I1 as [(W1&Ht1&Hb1&Hq1) HT1]. clearbody s1. pose proof (wf_prio _ _ _ W1 _ _ E1) as [Hp1 Hbp1].
  set (f := fun th => th <| th_prio := p |>). destruct (Z.eqb_spec t (cur s1)) as [Hc|Hne].
  - rewrite (th_upd_ok _ _ _ _ E1). cbn [mbind option_bind]. subst t.
    destruct (setprio_current s1 th1 p) as (s'&E'&I'&F'); [done..|].
    exists s'. split; [exact E'|]. split; [done|]. destruct F' as (->&_). done.
  - destruct (Z.eqb_spec (th_state th) TH_RUN) as [Hr|Hr].
    + destruct (runq_remove_ok s1 t th1) as (s2&E2&W2&Ht2&F2&Hle&Es2); [by destruct I1|done..|].
      rewrite E2. cbn [mbind option_bind]. assert (cur s2 = cur s1) as Ec2 by apply F2.
      destruct (sinv_enqueue s1 s2 t f th1) as (s3&s4&E3&E4&I4&F4&_); try done.
      { by rewrite Es2. } { by rewrite Ec2. } { by rewrite Es2. } { by rewrite Ec2. }
      rewrite E3. cbn [mbind option_bind]. exists s4. split_and!; [done..|]. destruct F4 as (->&_). done.
    + rewrite (th_upd_ok _ _ _ _ E1). eexists. split; [reflexivity|]. split; [|done].
      apply (sinv_upd_place s1 t f th1); try done. unfold place. cbn. by rewrite !bool_decide_eq_false_2.
Qed.

(** The effect of sched_setprio() on the threads, up to reschedule marks, and on
    the queues of sleeping threads. *)
Definition reprio (base p : Z) (th : sthread) : sthread := th <| th_baseprio := base |> <| th_prio := p |>.

Lemma enqueue_effect t s s' : runq_enqueue t s = Some s' ->
  (forall x, calmed <$> sth s' !! x = calmed <$> sth s !! x) /\ wakeq s' = wakeq s /\ sleepq s' = sleepq s.
Proof.
  unfold runq_enqueue, runq_tail. destruct (sth s !! t) as [th|]; [|done]. cbn [mbind option_bind].
  destruct (link_free t s); [|done]. cbn [mbind option_bind]. set (s1 := s <| runq ::= _ |>).
  destruct (_ <? _); [|by intros [= <-]]. intros (c&Ec&->)%th_upd_Some. split_and!; try done.
  intros x. cbn in Ec |- *.
  destruct (decide (x = cur s)) as [->|?]; [by rewrite lookup_insert_eq, Ec|by rewrite lookup_insert_ne].
Qed.

Lemma sched_setprio_effect s t th base p s' :
  sinv s -> sth s !! t = Some th -> sched_setprio t base p s = Some s' ->
  (forall x, calmed <$> sth s' !! x = calmed <$> <[t := reprio base p th]> (sth s) !! x) /\
  wakeq s' = wakeq s /\ (forall e, sq s' e = sq s e).
Proof.
  intros I E. unfold sched_setprio. rewrite (th_upd_ok _ _ _ _ E). cbn [mbind option_bind].
  set (th1 := th <| th_baseprio := base |>). set (s1 := s <| sth ::= _ |>).
  assert (sth s1 !! t = Some th1) as E1 by apply lookup_insert_eq. rewrite E1. cbn [mbind option_bind].
  assert (<[t := th1 <| th_prio := p |>]> (sth s1) = <[t := reprio base p th]> (sth s)) as Em.
  { cbn. by rewrite insert_insert_eq. }
  change (cur s1) with (cur s). destruct (Z.eqb_spec t (cur s)) as [->|Hne].
  - rewrite (th_upd_ok _ _ _ _ E1). cbn [mbind option_bind]. set (s2 := s1 <| sth ::= _ |>). set (s3 := s2 <| top_prio := _ |>).
    change (cur s3) with (cur s). assert (sth s3 = <[cur s := reprio base p th]> (sth s)) as E3 by exact Em.
    destruct (negb _); [|intros [= <-]; split_and!; [by rewrite E3|done|done]].
    intros (c&Ec&->)%th_upd_Some. split_and!; [|done|done]. intros x. cbn [sth set].
    rewrite E3 in Ec |- *. rewrite lookup_insert_eq in Ec. injection Ec as <-. rewrite insert_insert_eq.
    destruct (decide (x = cur s)) as [->|?]; [by rewrite !lookup_insert_eq|by rewrite !lookup_insert_ne].
  - change (th_state th1) with (th_state th). destruct (Z.eqb_spec (th_state th) TH_RUN) as [Hr|Hr].
    + unfold runq_remove. destruct (unlink t s1) as [s2|] eqn:E2; [|done]. apply unlink_Some in E2 as [_ ->].
      cbn [mbind option_bind]. set (s3 := unlinked t s1 <| top_prio := _ |>).
      assert (sth s3 !! t = Some th1) as E3 by exact E1. rewrite (th_upd_ok _ _ _ _ E3). cbn [mbind option_bind].
      intros (H1&H2&H3)%enqueue_effect. pose proof I as [(W&_) _]. split_and!.
      * intros x. rewrite H1. change (sth (s3 <| sth ::= <[t := th1 <| th_prio := p |>]> |>)) with (<[t := th1 <| th_prio := p |>]> (sth s1)).
        by rewrite Em.
      * rewrite H2. change (without t (wakeq s) = wakeq s). apply without_notin. intros Hin.
        destruct (wf_wq_in _ _ _ W _ Hin) as (th'&E'&Hs&_). apply run_not_sleeping in Hr. congruence.
      * intros e. unfold sq. rewrite H3. change (sq (unlinked t s1) e = sq s e). rewrite sq_unlinked.
        change (sq s1 e) with (sq s e). apply without_notin. intros Hin.
        destruct (wf_sq_in _ _ _ W _ _ Hin) as (th'&E'&Hs&_). apply run_not_sleeping in Hr. congruence.
    + rewrite (th_upd_ok _ _ _ _ E1). intros [= <-]. split_and!; [|done|done]. intros x. by rewrite <- Em.
Qed.

Lemma sched_setpolicy_ok s t th policy :
  sinv s -> sth s !! t = Some th ->
  exists r s', sched_setpolicy t policy s = Some (r, s') /\ sinv s' /\ cur s' = cur s /\
    (r = 0 /\ (policy = SCHED_RR \/ policy = SCHED_FIFO) /\
       sth s' !! t = Some (th <| th_timeleft := QUANTUM |> <| th_policy := policy |>) \/
     r = -1 /\ policy <> SCHED_RR /\ policy <> SCHED_FIFO /\ s' = s).
Proof.
  intros I E. unfold sched_setpolicy.
  destruct (Z.eqb_spec policy SCHED_RR) as [H1|H1], (Z.eqb_spec policy SCHED_FIFO) as [H2|H2]; cbn [orb].
  4: exists (-1), s; split_and!; [done..|by right].
  all: destruct (sinv_upd s t (fun th => th <| th_timeleft := QUANTUM |> <| th_policy := policy |>) th I E)
    as (s'&E'&I'&Es'); [done|by left|]; rewrite E'; cbn [mbind option_bind]; exists 0, s'; split_and!; try done;
    [by subst s'|]; left; split_and!; [done|auto|subst s'; apply lookup_insert_eq].
Qed.

(** ** sched_start *)

(** A new thread, with a timeout of its own, starts suspended and on no queue. *)
Lemma sched_start_ok s t th T :
  sinv s -> sth s !! t = None -> th_resched th = false ->
  timers_wf T -> (forall x, x <> TmTimeout t -> tmrs T !! x = tmrs (tms s) !! x) ->
  (exists tm, tmrs T !! TmTimeout t = Some tm /\ (TmTimeout t ∈ timer_list T ++ expire_list T <-> tm_active tm = true)) ->
  timer_list T = timer_list (tms s) -> expire_list T = expire_list (tms s) ->
  exists s' th', sched_start t (s <| sth ::= <[t := th]> |> <| tms := T |>) = Some s' /\ sinv s' /\ cur s' = cur s /\
    sth s' !! t = Some th' /\ th_state th' = TH_SUSPEND /\ th_prio th' = PRIO_DFLT /\ th_policy th' = SCHED_RR /\
    th_timeleft th' = QUANTUM /\ link_free t s' = true.
Proof.
  intros [(W&Ht&Hb&Hq) HT] E Hr WT HTo HTt El Ee. unfold sched_start.
  set (f := fun th => th <| th_state := Z.lor TH_RUN TH_SUSPEND |> <| th_policy := SCHED_RR |>
              <| th_prio := PRIO_DFLT |> <| th_baseprio := PRIO_DFLT |> <| th_timeleft := QUANTUM |>).
  set (s0 := s <| sth ::= <[t := th]> |> <| tms := T |>).
  assert (sth s0 !! t = Some th) as E0 by apply lookup_insert_eq. rewrite (th_upd_ok _ _ _ _ E0).
  eexists _, (f th). split; [reflexivity|]. set (s' := s0 <| sth ::= _ |>).
  assert (sth s' = <[t := f th]> (sth s)) as Esth by (unfold s', s0; cbn; apply insert_insert_eq).
  assert (link_free t s = true) as Hf.
  { apply link_free_spec. split_and!.
    - intros H. destruct (wf_wq_in _ _ _ W _ H) as (?&?&_). congruence.
    - intros p H. destruct (wf_rq_in _ _ _ W _ _ H) as (?&?&_). congruence.
    - intros e H. destruct (wf_sq_in _ _ _ W _ _ H) as (?&?&_). congruence. }
  assert (t <> cur s) as Hne by (intros ->; destruct Hb as (c&?&_); congruence).
  assert (qwf (Some t) (Some (cur s)) s') as W'.
  { eapply (qwf_ext _ _ s); [done| | |by apply qwf_detach].
    - intros x Hx. rewrite Esth, lookup_insert_ne; [done|congruence].
    - intros x thx [= ->]. rewrite Esth, lookup_insert_eq. by intros [= <-]. }
  split_and!; try done; [|by rewrite Esth, lookup_insert_eq]. split; [split_and!|].
  - eapply (qwf_attach _ _ t); [|exact W']. intros th'. rewrite Esth, lookup_insert_eq. by intros [= <-].
  - by apply (top_ok_frame s).
  - apply (best_frame s); try done. by rewrite Esth, lookup_insert_ne.
  - intros x thx. rewrite Esth, lookup_insert_Some. intros [[<- <-]|[_ Hx]]; [cbn; congruence|by apply Hq].
  - split; [done|]. intros x. rewrite Esth. change (tms s') with T. rewrite lookup_insert_is_Some.
    destruct (decide (x = t)) as [->|Hx]; [done|]. intros [?|[_ Hs]]; [congruence|].
    rewrite HTo, El, Ee by congruence. by apply HT.
Qed.
