(* ===== verification/Tick.v ===== *)
(** * Tick: the clock interrupt

    [timer_tick] advances the clock by one tick, moves the one-shot timers that
    are due to the expired list, reprograms the periodic ones, and lets the
    scheduler account the tick. *)
From stdpp Require Import base numbers gmap list sorting.
From S2P Require Import Prelude Core Timer Sched SchedInv SchedOps.

Open Scope Z_scope.

Definition interval (T : timers) (tm : tmr) : Z := from_option tm_interval 0 (tmrs T !! tm).

(** The one-shot timers that are due, in list order. *)
Definition is_due (T : timers) (tm : tmr) : Prop := ticks_left T tm <= 0 /\ interval T tm = 0.
#[export] Instance is_due_dec T tm : Decision (is_due T tm).
Proof. unfold is_due. apply _. Defined.
Definition due (T : timers) : list tmr := filter (is_due T) (timer_list T).

(** The periodic timers that are due, in list order. *)
Definition is_due_periodic (T : timers) (tm : tmr) : Prop := ticks_left T tm <= 0 /\ interval T tm <> 0.
#[export] Instance is_due_periodic_dec T tm : Decision (is_due_periodic T tm).
Proof. unfold is_due_periodic. apply _. Defined.
Definition due_periodic (T : timers) : list tmr := filter (is_due_periodic T) (timer_list T).

(** The threads that wait for the next period of a timer, and the event they
    wait on. *)
Definition waiters (s : sched) (tm : tmr) : list tid := match tm with TmHeap a => sq s (EvPeriodic a) | _ => [] end.
Definition period_events (l : list tmr) : list evt := omap (fun tm => match tm with TmHeap a => Some (EvPeriodic a) | _ => None end) l.

(** The waiters of the timers [E] have moved to the wake queue, and nothing
    else has happened to queues and threads. *)
Record periods_woken (E : list tmr) (s s' : sched) : Prop := {
  pw_wakeq : wakeq s' = wakeq s ++ concat (waiters s <$> E);
  pw_sq : forall e, sq s' e = if decide (e ∈ period_events E) then [] else sq s e;
  pw_rq : forall p, rq s' p = rq s p;
  pw_top : top_prio s' = top_prio s;
  pw_cur : cur s' = cur s;
  pw_sth : forall t, sth s' !! t = if decide (t ∈ concat (waiters s <$> E)) then set th_slpret (fun _ => 0) <$> sth s !! t else sth s !! t;
}.

Lemma periods_woken_nil s T : periods_woken [] s (s <| tms := T |>).
Proof.
  split; try done. cbn. by rewrite app_nil_r.
Qed.

Lemma periods_woken_idle s T tm : (forall a, tm <> TmHeap a) -> periods_woken [tm] s (s <| tms := T |>).
Proof.
  intros H. destruct tm as [| |a]; [..|by destruct (H a)]; split; try done; cbn; by rewrite app_nil_r.
Qed.

Lemma elem_period_events e E : e ∈ period_events E <-> exists a, e = EvPeriodic a /\ TmHeap a ∈ E.
Proof.
  unfold period_events. rewrite list_elem_of_omap. split.
  - intros ([| |a]&H&[= <-]). by exists a.
  - intros (a&->&H). by exists (TmHeap a).
Qed.

Lemma waiters_woken E s s' x : periods_woken E s s' -> x ∉ E -> waiters s' x = waiters s x.
Proof.
  intros H Hx. destruct x as [| |a]; try done. cbn. rewrite (pw_sq _ _ _ H), decide_False; [done|]. rewrite elem_period_events. intros (b&[= <-]&?). done.
Qed.

Lemma periods_woken_app E1 E2 s s1 s2 : (forall x, x ∈ E2 -> x ∉ E1) -> periods_woken E1 s s1 -> periods_woken E2 s1 s2 -> periods_woken (E1 ++ E2) s s2.
Proof.
  intros HD H1 H2. assert (waiters s1 <$> E2 = waiters s <$> E2) as HW.
  { apply list_fmap_ext. intros i x Hx. eapply waiters_woken; [done|]. apply HD. by eapply list_elem_of_lookup_2. }
  pose proof H1 as [A1 A2 A3 A4 A5 A6]. destruct H2 as [B1 B2 B3 B4 B5 B6]. rewrite HW in B1, B6. split.
  - by rewrite B1, A1, fmap_app, concat_app, app_assoc.
  - intros e. rewrite B2, A2. unfold period_events. rewrite omap_app. fold (period_events E1) (period_events E2).
    destruct (decide (e ∈ period_events E2)); [by rewrite decide_True by (apply elem_of_app; by right)|].
    destruct (decide (e ∈ period_events E1)); [by rewrite decide_True by (apply elem_of_app; by left)|]. rewrite decide_False; [done|]. rewrite elem_of_app. tauto.
  - intros p. by rewrite B3, A3.
  - congruence.
  - congruence.
  - intros t. rewrite B6, A6, fmap_app, concat_app. destruct (decide (t ∈ concat (waiters s <$> E1) ++ concat (waiters s <$> E2))) as [H|H]; rewrite elem_of_app in H.
    + destruct (decide (t ∈ concat (waiters s <$> E2))), (decide (t ∈ concat (waiters s <$> E1))); try done; [by destruct (sth s !! t)|tauto].
    + rewrite !decide_False by tauto. done.
Qed.

Definition intervals_ok (T : timers) : Prop :=
  forall tm t, tmrs T !! tm = Some t -> 0 <= tm_interval t < 2 ^ 31.

(** What the loop of [timer_tick] does to the timer lists. *)
Record expired (T T' : timers) : Prop := {
  ex_now : lbolt T' = lbolt T;
  ex_list : expire_list T' = reverse (due T) ++ expire_list T;
  ex_kept : forall x, x ∈ timer_list T' <-> x ∈ timer_list T /\ x ∉ due T;
  ex_left : forall x, x ∈ timer_list T' ->
            ticks_left T' x = if ticks_left T x <=? 0 then interval T x else ticks_left T x;
  ex_interval : forall x, interval T' x = interval T x;
  ex_known : forall x, tm_active <$> tmrs T' !! x = tm_active <$> tmrs T !! x;
}.

Lemma filter_head (tm : tmr) l : tm ∉ l -> filter (fun x => x <> tm) (tm :: l) = l.
Proof.
  intros H. rewrite filter_cons, decide_False by (by intros []).
  apply filter_id. intros x Hx ->. done.
Qed.

Lemma wf_head T tm l :
  timers_wf T -> timer_list T = tm :: l ->
  exists t, tmrs T !! tm = Some t /\ tm ∉ l /\ tm ∉ expire_list T /\ 0 <= ticks_left T tm /\
    (forall x, x ∈ l -> ticks_left T tm <= ticks_left T x).
Proof.
  intros W El. destruct (tw_known _ W tm) as [t Et]; [rewrite El; by left|]. exists t.
  pose proof (tw_nodup _ W) as ND. rewrite El in ND. cbn in ND. apply NoDup_cons in ND as [Hn _].
  rewrite elem_of_app in Hn. pose proof (tw_sorted _ W) as Hs. rewrite El in Hs.
  apply StronglySorted_inv in Hs as [_ Hs]. rewrite Forall_forall in Hs.
  split_and!; [done|tauto|tauto| |done]. apply (tw_ahead _ W). rewrite El. by left.
Qed.

Lemma expire_oneshot T tm l :
  timers_wf T -> timer_list T = tm :: l ->
  exists T1, tm_unlink tm T = Some T1 /\
    let T' := T1 <| expire_list ::= cons tm |> in
    timers_wf T' /\ lbolt T' = lbolt T /\ tmrs T' = tmrs T /\ timer_list T' = l /\
    expire_list T' = tm :: expire_list T.
Proof.
  intros W El. destruct (wf_head _ _ _ W El) as (t&Et&Hnl&Hne&_).
  destruct (tm_unlink_ok T tm) as (T1&E1&W1&Hn&Et1&Elb&El1&Ee1); [done|rewrite El; by left|].
  exists T1. split; [done|]. rewrite El, filter_head in El1 by done. rewrite filter_id in Ee1 by (intros x Hx ->; done).
  cbv zeta. assert (timer_list (T1 <| expire_list ::= cons tm |>) ++ expire_list (T1 <| expire_list ::= cons tm |>)
      ≡ₚ tm :: timer_list T1 ++ expire_list T1) as HP by (cbn; by rewrite <- Permutation_middle).
  split_and!; [|done..|cbn; by rewrite Ee1]. destruct W1 as [Wa Wb Wc Wd We Wf]. split; try done.
  - rewrite HP. by apply NoDup_cons.
  - intros x. rewrite HP, elem_of_cons. intros [->|Hx]; [cbn; rewrite Et1, Et; by eexists|by apply Wd].
Qed.

Lemma expire_periodic T tm t l :
  timers_wf T -> timer_list T = tm :: l -> tmrs T !! tm = Some t -> ticks_left T tm <= 0 ->
  0 < tm_interval t < 2 ^ 31 ->
  exists T1 T' l1 l2, tm_unlink tm T = Some T1 /\
    (let ticks := time_remain (u32 (tm_expire t + tm_interval t)) T1 in
     timer_add tm (if ticks =? 0 then 1 else ticks) T1 = Some T') /\
    timers_wf T' /\ lbolt T' = lbolt T /\
    tmrs T' = <[tm := t <| tm_expire := u32 (lbolt T + tm_interval t) |>]> (tmrs T) /\
    l = l1 ++ l2 /\ timer_list T' = l1 ++ tm :: l2 /\ expire_list T' = expire_list T /\
    ticks_left T' tm = tm_interval t.
Proof.
  intros W El Et Hd Hi. destruct (wf_head _ _ _ W El) as (t0&Et'&Hnl&Hne&Ha&_). assert (t0 = t) as -> by congruence.
  destruct (tm_unlink_ok T tm) as (T1&E1&W1&Hn&Et1&Elb&El1&Ee1); [done|rewrite El; by left|].
  rewrite El, filter_head in El1 by done. rewrite filter_id in Ee1 by (intros x Hx ->; done).
  assert (tm_expire t = lbolt T) as Hex.
  { rewrite (left_Some _ _ _ Et) in Hd, Ha. rewrite <- (u32_dist (lbolt T) (tm_expire t)) by (by eapply W).
    replace (dist (lbolt T) (tm_expire t)) with 0 by lia. rewrite Z.add_0_r. apply u32_small, W. }
  assert (time_remain (u32 (tm_expire t + tm_interval t)) T1 = tm_interval t) as Htr.
  { rewrite Hex, <- Elb. assert (dist (lbolt T1) (u32 (lbolt T1 + tm_interval t)) = tm_interval t) as Hdist.
    { apply dist_u32. lia. }
    rewrite time_remain_dist; [rewrite Hdist; lia|apply W1|apply u32_range|rewrite Hdist; lia]. }
  destruct (timer_add_ok T1 tm t (tm_interval t)) as (T'&l1&l2&E2&W2&Ea&Eb&Ec&Ed&Ee&Ef&_);
    [done|by rewrite Et1|done|lia|].
  exists T1, T', l1, l2. cbv zeta. rewrite Htr. destruct (Z.eqb_spec (tm_interval t) 0); [lia|].
  split_and!; try done; try congruence. by rewrite Ee, Elb, Et1.
Qed.

(** ** The loop *)

Lemma due_cons T tm l :
  timer_list T = tm :: l -> due T = if decide (is_due T tm) then tm :: filter (is_due T) l else filter (is_due T) l.
Proof. unfold due. intros ->. by rewrite filter_cons. Qed.

Lemma interval_Some T tm t : tmrs T !! tm = Some t -> interval T tm = tm_interval t.
Proof. unfold interval. by intros ->. Qed.

(** Nothing due: nothing to do. *)
Lemma expired_refl T :
  (forall x, x ∈ timer_list T -> 0 < ticks_left T x) -> expired T T.
Proof.
  intros H. assert (due T = []) as Hd.
  { unfold due. destruct (filter _ _) as [|x l] eqn:E; [done|]. assert (x ∈ filter (is_due T) (timer_list T)) as Hx.
    { rewrite E. by left. } apply list_elem_of_filter in Hx as [[Hx _] Hin]. apply H in Hin. lia. }
  split; rewrite ?Hd; try done.
  - intros x. rewrite elem_of_nil. tauto.
  - intros x Hx. apply H in Hx. destruct (Z.leb_spec (ticks_left T x) 0); [lia|done].
Qed.

(** A one-shot timer at the head that is due leaves first. *)
Lemma expired_oneshot T T1 T' tm l :
  timers_wf T -> timer_list T = tm :: l -> is_due T tm ->
  lbolt T1 = lbolt T -> tmrs T1 = tmrs T -> timer_list T1 = l -> expire_list T1 = tm :: expire_list T ->
  expired T1 T' -> expired T T'.
Proof.
  intros W El Hd Elb Etm El1 Ee [X1 X2 X3 X4 X5 X6]. destruct (wf_head _ _ _ W El) as (t&Et&Hnl&_).
  assert (forall x, ticks_left T1 x = ticks_left T x) as HL by (intros; unfold ticks_left; by rewrite Elb, Etm).
  assert (forall x, interval T1 x = interval T x) as HI by (intros; unfold interval; by rewrite Etm).
  assert (due T = tm :: due T1) as Hdue.
  { rewrite (due_cons _ _ _ El), decide_True by done. f_equal. unfold due. rewrite El1. apply filter_ext_in.
    intros x _. unfold is_due. by rewrite HL, HI. }
  split.
  - by rewrite X1.
  - by rewrite X2, Ee, Hdue, reverse_cons, <- app_assoc.
  - intros x. rewrite X3, El1, El, Hdue, !elem_of_cons. split; [|tauto]. intros [Hx Hx']. split; [by right|].
    intros [->|?]; done.
  - intros x Hx. by rewrite X4, HL, HI.
  - intros x. by rewrite X5, HI.
  - intros x. by rewrite X6, Etm.
Qed.

(** A periodic timer at the head that is due is programmed again. *)
Lemma expired_periodic T T1 T' tm t l l1 l2 :
  timers_wf T -> timer_list T = tm :: l -> tmrs T !! tm = Some t -> ticks_left T tm <= 0 ->
  0 < tm_interval t < 2 ^ 31 -> lbolt T1 = lbolt T ->
  tmrs T1 = <[tm := t <| tm_expire := u32 (lbolt T + tm_interval t) |>]> (tmrs T) ->
  l = l1 ++ l2 -> timer_list T1 = l1 ++ tm :: l2 -> expire_list T1 = expire_list T ->
  ticks_left T1 tm = tm_interval t -> expired T1 T' -> expired T T'.
Proof.
  intros W El Et Hd Hi Elb Etm Ell El1 Ee Hl [X1 X2 X3 X4 X5 X6]. destruct (wf_head _ _ _ W El) as (t'&Et'&Hnl&_).
  assert (forall x, x <> tm -> ticks_left T1 x = ticks_left T x) as HL.
  { intros x Hx. unfold ticks_left. by rewrite Elb, Etm, lookup_insert_ne. }
  assert (forall x, interval T1 x = interval T x) as HI.
  { intros x. unfold interval. rewrite Etm, lookup_insert. case_decide; [|done]. subst. by rewrite Et. }
  assert (timer_list T1 ≡ₚ timer_list T) as HP by (by rewrite El, El1, Ell, Permutation_middle).
  assert (due T = due T1) as Hdue.
  { rewrite (due_cons _ _ _ El), decide_False; [|intros [_ H]; rewrite (interval_Some _ _ _ Et) in H; lia].
    unfold due. rewrite El1, filter_app, filter_cons, decide_False; [|intros [H _]; lia].
    rewrite <- filter_app, <- Ell. apply filter_ext_in. intros x Hx. unfold is_due. rewrite HL, HI; [done|congruence]. }
  split.
  - by rewrite X1.
  - by rewrite X2, Ee, Hdue.
  - intros x. by rewrite X3, Hdue, HP.
  - intros x Hx. rewrite X4 by done. rewrite HI. destruct (decide (x = tm)) as [->|Hne]; [|by rewrite HL].
    rewrite Hl, (interval_Some _ _ _ Et). rewrite (proj2 (Z.leb_le (ticks_left T tm) 0)) by lia. by destruct (_ <=? 0).
  - intros x. by rewrite X5, HI.
  - intros x. rewrite X6, Etm, lookup_insert. case_decide; [|done]. subst. by rewrite Et.
Qed.

(** [timeouts_ok] does not depend on which of the two lists a timer is on. *)
Lemma timeouts_ok_relist s T' :
  timeouts_ok s -> timers_wf T' -> timer_list T' ++ expire_list T' ≡ₚ timer_list (tms s) ++ expire_list (tms s) ->
  (forall x, tm_active <$> tmrs T' !! x = tm_active <$> tmrs (tms s) !! x) -> timeouts_ok (s <| tms := T' |>).
Proof.
  intros [W H] W' HP HA. split; [done|]. intros t Ht. destruct (H t Ht) as (tm&Etm&Hl). specialize (HA (TmTimeout t)).
  rewrite Etm in HA. cbn. destruct (tmrs T' !! TmTimeout t) as [tm'|]; [|done]. exists tm'. split; [done|].
  rewrite HP, Hl. cbn in HA. split; congruence.
Qed.

(** The threads that wait for a periodic timer (timer_waitperiod) and the timer
    thread itself sleep without a timeout. *)
Definition untimed (e : evt) (s : sched) : Prop := forall t, t ∈ sq s e -> no_timeout t s.

Definition untimed_waits (s : sched) : Prop := untimed EvTimer s /\ forall a, untimed (EvPeriodic a) s.

(** What the loop preserves. *)
Definition tickable (s : sched) : Prop := sinv s /\ intervals_ok (tms s) /\ untimed_waits s.

Lemma untimed_shrink e s s' :
  (forall x, x ∈ sq s' e -> x ∈ sq s e) ->
  (forall x, tm_active <$> tmrs (tms s') !! x = tm_active <$> tmrs (tms s) !! x) -> untimed e s -> untimed e s'.
Proof. intros H HA Hu t Ht. unfold no_timeout. rewrite HA. apply Hu. by apply H. Qed.

Lemma tickable_shrink s s' :
  sinv s' -> intervals_ok (tms s') -> (forall e x, x ∈ sq s' e -> x ∈ sq s e) ->
  (forall x, tm_active <$> tmrs (tms s') !! x = tm_active <$> tmrs (tms s) !! x) -> tickable s -> tickable s'.
Proof.
  intros I Hi Hq HA (_&_&Hu1&Hu2). split; [done|]. split; [done|].
  split; [by apply (untimed_shrink _ s); auto|]. intros a. by apply (untimed_shrink _ s); auto.
Qed.

Lemma wakeup_shrinks e s s' :
  sq s' e = [] -> (forall e', e' <> e -> sq s' e' = sq s e') -> forall e' x, x ∈ sq s' e' -> x ∈ sq s e'.
Proof.
  intros H0 H e' x. destruct (decide (e' = e)) as [->|Hne]; [rewrite H0; by intros ?%not_elem_of_nil|by rewrite H].
Qed.

(** Number of timers that are due, the measure of the loop. *)
Definition ndue (T : timers) : nat := length (filter (fun x => ticks_left T x <= 0) (timer_list T)).

(** One iteration: the head of the list is due. *)
Lemma timer_expire_ok s tm l :
  tickable s -> timer_list (tms s) = tm :: l -> ticks_left (tms s) tm <= 0 ->
  exists b s', timer_expire tm s = Some (b, s') /\ tickable s' /\ frame s s' /\
    (forall T', expired (tms s') T' -> expired (tms s) T') /\
    b = bool_decide (is_due (tms s) tm) /\
    (ndue (tms s') < ndue (tms s))%nat /\
    exists E1, due_periodic (tms s) = E1 ++ due_periodic (tms s') /\ periods_woken E1 s s' /\
      due (tms s) = (if b then [tm] else []) ++ due (tms s').
Proof.
  intros TK El Hd. pose proof TK as (I&Hi&Hu). pose proof I as [S HT]. pose proof HT as [W _].
  destruct (wf_head _ _ _ W El) as (t&Et&Hnl&Hne&_). unfold timer_expire. rewrite Et. cbn [mbind option_bind].
  unfold ndue. rewrite El, filter_cons, decide_True by done. cbn [length].
  pose proof (Hi _ _ Et) as Hit. destruct (Z.eqb_spec (tm_interval t) 0) as [H0|H0]; cbn [negb].
  - assert (is_due (tms s) tm) as Hdue by (split; [done|by rewrite (interval_Some _ _ _ Et)]).
    destruct (expire_oneshot _ _ _ W El) as (T1&E1&W'&Elb&Etm&El'&Ee). rewrite E1. cbn [mbind option_bind].
    set (T' := T1 <| expire_list ::= cons tm |>) in *. clearbody T'.
    assert (timeouts_ok (s <| tms := T' |>)) as HT'.
    { apply timeouts_ok_relist; try done; [|intros x; by rewrite Etm]. by rewrite El', Ee, El, <- Permutation_middle. }
    exists true, (s <| tms := T' |>). split_and!; try done.
    + apply (tickable_shrink s); try done; [by apply sinv_tms| |intros; cbn; by rewrite Etm].
      intros x tx. cbn. rewrite Etm. apply Hi.
    + intros T2. cbn. by apply (expired_oneshot _ _ _ tm l).
    + by rewrite bool_decide_eq_true_2.
    + cbn. rewrite El'. apply Nat.lt_succ_r. unfold ticks_left. by rewrite Elb, Etm.
    + assert (forall x, ticks_left T' x = ticks_left (tms s) x /\ interval T' x = interval (tms s) x) as HE by (intros; unfold ticks_left, interval; by rewrite Elb, Etm).
      exists []. split; [|split; [apply periods_woken_nil|]]; cbn [app].
      * unfold due_periodic. cbn. rewrite El, El', filter_cons, decide_False by (intros [_ Hnz]; destruct Hdue; done). apply filter_ext_in. intros x _. unfold is_due_periodic. by rewrite !(proj1 (HE x)), (proj2 (HE x)).
      * rewrite (due_cons _ _ _ El), decide_True by done. f_equal. unfold due. cbn. rewrite El'. apply filter_ext_in. intros x _. unfold is_due. by rewrite !(proj1 (HE x)), (proj2 (HE x)).
  - destruct (expire_periodic _ _ _ _ W El Et Hd) as (T1&T'&l1&l2&E1&E2&W'&Elb&Etm&Ell&El'&Ee&Hl); [lia|].
    rewrite E1. cbn [mbind option_bind]. cbv zeta in E2. rewrite E2. cbn [mbind option_bind].
    assert (forall x, tm_active <$> tmrs T' !! x = tm_active <$> tmrs (tms s) !! x) as HA.
    { intros x. rewrite Etm, lookup_insert. case_decide; [|done]. subst. by rewrite Et. }
    assert (timeouts_ok (s <| tms := T' |>)) as HT'.
    { apply timeouts_ok_relist; try done. by rewrite El', Ee, El, Ell, Permutation_middle. }
    assert (tickable (s <| tms := T' |>)) as TK'.
    { apply (tickable_shrink s); try done; [by apply sinv_tms|]. intros x tx. cbn. rewrite Etm.
      rewrite lookup_insert_Some. intros [[<- <-]|[_ Hx]]; [done|by apply (Hi x)]. }
    assert (exists s', (match tm with TmHeap a => sched_wakeup_body (EvPeriodic a) (s <| tms := T' |>)
                        | _ => Some (s <| tms := T' |>) end) = Some s' /\ tickable s' /\ frame s s' /\ tms s' = T' /\ periods_woken [tm] s s')
      as (s'&E3&TK3&F3&Em3&PW).
    { destruct tm as [| |a]; [eexists; split_and!; [done..|by apply periods_woken_idle]|eexists; split_and!; [done..|by apply periods_woken_idle]|].
      destruct (wakeup_loop_ok (EvPeriodic a) (s <| tms := T' |>)) as (s'&E3&I3&F3&Ew3&Es3&Eso3&Er3&Eth3&Hnt&Etp3&_); [apply TK'|].
      exists s'. assert (tms s' = T') as Em by (apply Hnt; by apply TK'). split_and!; try done.
      - apply (tickable_shrink (s <| tms := T' |>)); try done; rewrite ?Em; try done; [apply TK'|]. by apply (wakeup_shrinks (EvPeriodic a)).
      - split; cbn [fmap list_fmap concat]; rewrite ?app_nil_r; try done; [|apply F3].
        intros e. destruct (decide (e = EvPeriodic a)) as [->|Hnx]; [rewrite decide_True by (by left); done|].
        rewrite decide_False; [by apply Eso3|]. cbn. by rewrite list_elem_of_singleton. }
    rewrite E3. cbn [mbind option_bind]. exists false, s'. split_and!; try done.
    + intros T2. rewrite Em3. eapply (expired_periodic (tms s) T'); try done. lia.
    + rewrite bool_decide_eq_false_2; [done|]. intros [_ H]. by rewrite (interval_Some _ _ _ Et) in H.
    + rewrite Em3, El', filter_app, filter_cons, decide_False by lia. rewrite <- filter_app, <- Ell.
      apply Nat.lt_succ_r. apply Nat.eq_le_incl. f_equal. apply filter_ext_in. intros x Hx.
      unfold ticks_left. rewrite Elb, Etm, lookup_insert_ne; [done|congruence].
    + assert (forall x, x ∈ l -> ticks_left T' x = ticks_left (tms s) x /\ interval T' x = interval (tms s) x) as HE.
      { intros x Hx. unfold ticks_left, interval. rewrite Elb, Etm, lookup_insert_ne; [done|congruence]. }
      exists [tm]. rewrite Em3. split; [|split; [done|]]; cbn [app].
      * unfold due_periodic. rewrite El, El', filter_cons, decide_True by (split; [done|by rewrite (interval_Some _ _ _ Et)]). f_equal.
        rewrite filter_app, filter_cons, decide_False by (intros [? _]; lia). rewrite <- filter_app, <- Ell. apply filter_ext_in. intros x Hx. unfold is_due_periodic. by rewrite !(proj1 (HE x Hx)), (proj2 (HE x Hx)).
      * rewrite (due_cons _ _ _ El), decide_False by (intros [_ Hi0]; by rewrite (interval_Some _ _ _ Et) in Hi0). unfold due.
        rewrite El', filter_app, filter_cons, decide_False by (intros [? _]; lia). rewrite <- filter_app, <- Ell. apply filter_ext_in. intros x Hx. unfold is_due. by rewrite !(proj1 (HE x Hx)), (proj2 (HE x Hx)).
Qed.

Lemma due_nil_iff T : due T = [] <-> forall x, x ∈ timer_list T -> ~ is_due T x.
Proof.
  unfold due. split.
  - intros E x Hx Hd. assert (x ∈ filter (is_due T) (timer_list T)) as H by (by apply list_elem_of_filter).
    rewrite E in H. by apply not_elem_of_nil in H.
  - intros H. destruct (filter _ _) as [|x l] eqn:E; [done|]. assert (x ∈ filter (is_due T) (timer_list T)) as Hx.
    { rewrite E. by left. } apply list_elem_of_filter in Hx as [Hx Hin]. by apply H in Hin.
Qed.

Lemma nothing_due s w : (forall x, x ∈ timer_list (tms s) -> 0 < ticks_left (tms s) x) ->
  expired (tms s) (tms s) /\ w = w || bool_decide (due (tms s) <> []) /\ periods_woken (due_periodic (tms s)) s s /\ due (tms s) = [].
Proof.
  intros H. assert (due (tms s) = []) as -> by (apply due_nil_iff; intros x Hx [Hd _]; apply H in Hx; lia).
  assert (due_periodic (tms s) = []) as ->.
  { unfold due_periodic. destruct (filter _ _) as [|x l] eqn:E; [done|]. assert (x ∈ filter (is_due_periodic (tms s)) (timer_list (tms s))) as Hx by (rewrite E; by left).
    apply list_elem_of_filter in Hx as [[Hd _] Hx]. apply H in Hx. lia. }
  split_and!; [by apply expired_refl|by rewrite orb_false_r| |done]. destruct s. apply periods_woken_nil.
Qed.

Lemma timer_tick_loop_ok n w s :
  tickable s -> (ndue (tms s) <= n)%nat ->
  exists b s', timer_tick_loop n w s = Some (b, s') /\ tickable s' /\ frame s s' /\
    expired (tms s) (tms s') /\ (forall x, x ∈ timer_list (tms s') -> 1 <= ticks_left (tms s') x) /\
    b = w || bool_decide (due (tms s) <> []) /\ periods_woken (due_periodic (tms s)) s s'.
Proof.
  revert w s. induction n as [|n IH]; intros w s TK Hn; cbn [timer_tick_loop].
  all: pose proof TK as ([_ [W _]]&_&_); destruct (timer_list (tms s)) as [|tm l] eqn:El;
    [exists w, s; destruct (nothing_due s w) as (?&?&?&?); [rewrite El; intros x Hx; by apply not_elem_of_nil in Hx|]; split_and!; try done; rewrite El; intros x Hx; by apply not_elem_of_nil in Hx|].
  all: destruct (wf_head _ _ _ W El) as (t&Et&_&_&Ha&Hs); rewrite Et; cbn [mbind option_bind].
  all: rewrite time_before_now by (try apply (tw_now _ W); try (by eapply tw_expire); rewrite <- (left_Some _ _ _ Et); lia).
  all: rewrite <- (left_Some _ _ _ Et); destruct (Z.ltb_spec 0 (ticks_left (tms s) tm)) as [Hlt|Hge].
  1, 3: assert (forall x, x ∈ timer_list (tms s) -> 1 <= ticks_left (tms s) x) as H1
    by (rewrite El; intros x [->|Hx%Hs]%elem_of_cons; lia);
    exists w, s; destruct (nothing_due s w) as (?&?&?&?); [intros x Hx; apply H1 in Hx; lia|]; by split_and!.
  - exfalso. unfold ndue in Hn. rewrite El, filter_cons, decide_True in Hn by done. cbn in Hn. lia.
  - destruct (timer_expire_ok s tm l TK El Hge) as (b&s1&E1&TK1&F1&Hex&_&Hlt&L1&HP1&PW1&HD1). rewrite E1. cbn [mbind option_bind fst snd].
    destruct (IH (w || b) s1 TK1) as (b'&s2&E2&TK2&F2&X2&H2&Hb&PW2); [lia|]. exists b', s2. split_and!; try done.
    + by eapply frame_trans'.
    + by apply Hex.
    + rewrite Hb, HD1, <- orb_assoc. f_equal. by destruct b.
    + rewrite HP1. apply (periods_woken_app _ _ _ s1); [|done|done]. intros x Hx2 Hx1.
      assert (NoDup (due_periodic (tms s))) as ND.
      { apply NoDup_filter. pose proof (tw_nodup _ W) as N. by apply NoDup_app in N as (N&_&_). }
      rewrite HP1 in ND. apply NoDup_app in ND as (_&ND&_). by apply (ND x).
Qed.

(** The clock advances: every deadline comes one tick closer. *)
Lemma advance_left T x :
  - 2 ^ 31 < ticks_left T x -> is_Some (tmrs T !! x) ->
  ticks_left (T <| lbolt ::= fun l => u32 (l + 1) |>) x = ticks_left T x - 1.
Proof.
  intros H [t Et]. rewrite (left_Some _ _ _ Et) in H |- *. rewrite (left_Some _ _ t) by done. cbn.
  unfold dist, s32, u32 in *. repeat case_match; Z.div_mod_to_equations; lia.
Qed.

Lemma advance_wf T :
  timers_wf T -> (forall x, x ∈ timer_list T -> 1 <= ticks_left T x) ->
  timers_wf (T <| lbolt ::= fun l => u32 (l + 1) |>).
Proof.
  intros [Wa Wb Wc Wd We Wf] H1.
  assert (forall x, x ∈ timer_list T -> ticks_left (T <| lbolt ::= fun l => u32 (l + 1) |>) x = ticks_left T x - 1) as HL.
  { intros x Hx. apply advance_left; [apply H1 in Hx; lia|]. apply Wd, elem_of_app. by left. }
  split; try done.
  - apply u32_range.
  - intros x Hx. rewrite HL by done. apply H1 in Hx. lia.
  - eapply StronglySorted_ext; [|exact Wf]. intros a b Ha Hb. rewrite !HL by done. lia.
Qed.

Lemma ndue_le T : (ndue T <= length (timer_list T))%nat.
Proof. unfold ndue. apply length_filter. Qed.

Lemma tickable_tms s T :
  tickable s -> timers_wf T -> timer_list T = timer_list (tms s) -> expire_list T = expire_list (tms s) ->
  tmrs T = tmrs (tms s) -> tickable (s <| tms := T |>).
Proof.
  intros TK W El Ee Et. pose proof TK as (I&Hi&_). apply (tickable_shrink s); try done.
  - apply sinv_tms; [done|]. apply timeouts_ok_relist; [apply I|done|by rewrite El, Ee|by rewrite Et].
  - intros x t. cbn. rewrite Et. apply Hi.
  - intros x. cbn. by rewrite Et.
Qed.

(** What a clock tick does besides the timers: the waiters of the periodic
    timers that are due, then, if a one-shot timer is due, the timer thread are
    put on the wake queue; the current thread is charged; all other threads and
    queues stay as they are. *)
Record tick_effect (s : sched) (c : sthread) (s' : sched) : Prop := {
  te_wakeq : let T := tms s <| lbolt ::= fun l => u32 (l + 1) |> in
    wakeq s' = wakeq s ++ concat (waiters s <$> due_periodic T) ++ (if decide (due T = []) then [] else sq s EvTimer);
  te_sq : let T := tms s <| lbolt ::= fun l => u32 (l + 1) |> in
    forall e, sq s' e = if decide (e ∈ period_events (due_periodic T) \/ e = EvTimer /\ due T <> []) then [] else sq s e;
  te_rq : forall p, rq s' p = rq s p;
  te_top : top_prio s' = top_prio s;
  te_cur : cur s' = cur s;
  te_current : sth s' !! cur s = Some (ticked c);
  te_others : forall t, t <> cur s -> sth s' !! t = if decide (t ∈ wakeq s' /\ t ∉ wakeq s) then set th_slpret (fun _ => 0) <$> sth s !! t else sth s !! t;
}.

(** The wake queue and the sleep queues have no thread in common. *)
Lemma sleeper_not_woken s e t : sinv s -> t ∈ sq s e -> t ∉ wakeq s /\ t <> cur s.
Proof.
  intros [(W&_&(c&Ec&Hs&_)&_) _] Ht. destruct (wf_sq_in _ _ _ W e t Ht) as (th&E&Hsl&_&Hw&_). split; [done|]. intros ->. congruence.
Qed.

Lemma waiters_sleep s E t : t ∈ concat (waiters s <$> E) -> exists e, t ∈ sq s e.
Proof.
  induction E as [|x E IH]; cbn; [by intros ?%not_elem_of_nil|]. intros [Hx|Hx]%elem_of_app; [|by apply IH].
  destruct x as [| |a]; cbn in Hx; [by apply not_elem_of_nil in Hx..|by eexists].
Qed.

Lemma timer_tick_ok s c :
  tickable s -> (forall x, x ∈ timer_list (tms s) -> 1 <= ticks_left (tms s) x) ->
  sth s !! cur s = Some c ->
  exists s', timer_tick s = Some (th_prio c =? PRIO_IDLE, s') /\ tickable s' /\
    (forall x, x ∈ timer_list (tms s') -> 1 <= ticks_left (tms s') x) /\
    expired (tms s <| lbolt ::= fun l => u32 (l + 1) |>) (tms s') /\ tick_effect s c s'.
Proof.
  intros TK H1 Ec. unfold timer_tick. pose proof TK as (I0&_&_). pose proof I0 as [_ [W _]].
  set (s0 := s <| tms ::= set lbolt (fun l => u32 (l + 1)) |>).
  assert (tickable s0) as TK0 by (apply (tickable_tms s (tms s <| lbolt ::= fun l => u32 (l + 1) |>)); [done|by apply advance_wf|done..]).
  assert (ndue (tms s0) <= length (timer_list (tms s0)))%nat as Hn by apply ndue_le.
  destruct (timer_tick_loop_ok _ false s0 TK0 Hn) as (b&s1&E1&TK1&F1&X1&Hl1&Hb&PW). rewrite E1. cbn [mbind option_bind].
  set (T := tms s0) in *. change (tms s <| lbolt ::= fun l => u32 (l + 1) |>) with T. cbn [orb] in Hb.
  assert (exists s2, (if b then sched_wakeup_body EvTimer s1 else Some s1) = Some s2 /\ tickable s2 /\ tms s2 = tms s1 /\ cur s2 = cur s1 /\ top_prio s2 = top_prio s1 /\ (forall p, rq s2 p = rq s1 p) /\
    wakeq s2 = wakeq s1 ++ (if b then sq s1 EvTimer else []) /\ (forall e, sq s2 e = if decide (e = EvTimer /\ b = true) then [] else sq s1 e) /\
    (forall t, sth s2 !! t = if decide (t ∈ (if b then sq s1 EvTimer else [])) then set th_slpret (fun _ => 0) <$> sth s1 !! t else sth s1 !! t))
    as (s2&E2&TK2&Em2&Ec2&Et2&Er2&Ew2&Es2&Eth2).
  { destruct b.
    - destruct (wakeup_loop_ok EvTimer s1) as (s2&E2&I2&[F2 _]&Ew2&Es2&Eso2&Er2&Eth2&Hnt&Etp2&_); [apply TK1|].
      exists s2. assert (tms s2 = tms s1) as Em by (apply Hnt; apply TK1). split_and!; try done.
      + apply (tickable_shrink s1); try done; rewrite ?Em; try done; [apply TK1|]. by apply (wakeup_shrinks EvTimer).
      + intros e. case_decide as Hd; [destruct Hd; by subst|]. apply Eso2. tauto.
    - exists s1. split_and!; try done; [by rewrite app_nil_r|]. intros e. rewrite decide_False; [done|]. by intros [_ ?]. }
  rewrite E2. cbn [mbind option_bind]. destruct PW as [P1 P2 P3 P4 P5 P6]. change (waiters s0) with (waiters s) in P1, P6.
  assert (sq s1 EvTimer = sq s EvTimer) as Eq1.
  { rewrite P2, decide_False; [done|]. rewrite elem_period_events. by intros (a&?&_). }
  rewrite Eq1 in Ew2, Eth2.
  assert (forall t, t ∈ concat (waiters s <$> due_periodic T) \/ t ∈ (if b then sq s EvTimer else []) -> t ∉ wakeq s /\ t <> cur s) as Hsl.
  { intros t [(e&He)%waiters_sleep|Ht]; [by eapply sleeper_not_woken|]. destruct b; [by eapply sleeper_not_woken|by apply not_elem_of_nil in Ht]. }
  assert (sth s2 !! cur s2 = Some c) as Ecc.
  { rewrite Eth2, decide_False by (intros ?; by apply (Hsl (cur s2)); [right|rewrite Ec2, P5]).
    rewrite P6, decide_False by (intros ?; by apply (Hsl (cur s2)); [left|rewrite Ec2, P5]). by rewrite Ec2, P5. }
  destruct (sched_tick_eval s2 c) as [E3 I3]; [apply TK2|done|]. rewrite E3. cbn [mbind option_bind].
  set (s3 := s2 <| sth ::= <[cur s2 := ticked c]> |>) in *. change (cur s3) with (cur s2).
  assert (sth s3 !! cur s2 = Some (ticked c)) as Ec3 by apply lookup_insert_eq. rewrite Ec3. cbn [mbind option_bind].
  assert (th_prio (ticked c) = th_prio c) as -> by (unfold ticked; cbn; repeat case_match; done).
  exists s3. split; [done|]. split; [|split; [change (tms s3) with (tms s2); by rewrite Em2|split; [change (tms s3) with (tms s2); by rewrite Em2|]]].
  { apply (tickable_shrink s2); try done. apply TK2. }
  assert (b = bool_decide (due T <> [])) as Hb' by done.
  assert (wakeq s3 = wakeq s ++ concat (waiters s <$> due_periodic T) ++ (if decide (due T = []) then [] else sq s EvTimer)) as Hw.
  { change (wakeq s3) with (wakeq s2). rewrite Ew2, P1, <- app_assoc. do 2 f_equal. rewrite Hb'. destruct (decide (due T = [])) as [->|]; [done|]. by rewrite bool_decide_eq_true_2. }
  split; try done.
  - intros T0. subst T0. intros e. change (sq s3 e) with (sq s2 e). rewrite Es2, P2. fold T.
    destruct (decide (e = EvTimer /\ b = true)) as [[-> Hbt]|Hn1].
    + rewrite decide_True; [done|]. right. split; [done|]. rewrite Hb' in Hbt. by apply bool_decide_eq_true in Hbt.
    + destruct (decide (e ∈ period_events (due_periodic T))); [by rewrite decide_True by (by left)|]. rewrite decide_False; [done|].
      intros [?|[-> Hd]]; [done|]. apply Hn1. split; [done|]. rewrite Hb'. by apply bool_decide_eq_true_2.
  - intros p. change (rq s3 p) with (rq s2 p). rewrite Er2, P3. done.
  - change (top_prio s3) with (top_prio s2). by rewrite Et2, P4.
  - change (cur s3) with (cur s2). by rewrite Ec2, P5.
  - rewrite <- Ec3. f_equal. by rewrite Ec2, P5.
  - intros t Ht. assert (cur s2 <> t) as Hne by (rewrite Ec2, P5; by apply not_eq_sym). change (sth s3 !! t) with (<[cur s2 := ticked c]> (sth s2) !! t). rewrite lookup_insert_ne by done.
    rewrite Eth2, P6, Hw. rewrite Hb' in *. assert ((if bool_decide (due T <> []) then sq s EvTimer else []) = (if decide (due T = []) then [] else sq s EvTimer)) as EL.
    { destruct (decide (due T = [])) as [->|]; [done|]. by rewrite bool_decide_eq_true_2. } rewrite EL in *.
    destruct (decide (t ∈ wakeq s ++ concat (waiters s <$> due_periodic T) ++ (if decide (due T = []) then [] else sq s EvTimer) /\ t ∉ wakeq s)) as [[Hin Hnw]|Hout].
    + rewrite !elem_of_app in Hin. destruct (decide (t ∈ (if decide (due T = []) then [] else sq s EvTimer))), (decide (t ∈ concat (waiters s <$> due_periodic T))); try done; [|tauto]. change (sth s0) with (sth s). by destruct (sth s !! t).
    + rewrite !elem_of_app in Hout. rewrite !decide_False; [done|..]; intros Hin; apply Hout; (split; [tauto|]); apply (Hsl t); tauto.
Qed.

(** C24: a clock interrupt never faults and its loop ends.  The clock advances by
    one; exactly the one-shot timers that are due move to the expired list
    (the last one of the list first), each periodic timer that is due is
    programmed one interval ahead, every other timer keeps its deadline, and
    afterwards every timer on the list lies strictly in the future.  The
    waiters of the periodic timers that are due, in list order, and then, if a
    one-shot timer is due, the timer thread go to the wake queue; no other
    queue changes.  The current thread is charged one tick; if it is scheduled
    round-robin its quantum is reduced by one, and refilled with a request to
    reschedule when it is used up.  The result, which is passed to the tick hook, tells
    whether the idle thread runs.  Assumed: the invariants of the scheduler and
    of the timers (intervals below 2^31 ticks, active timers at least a tick
    ahead, threads that wait for a period or for timers sleep without a
    timeout); they hold again afterwards. *)
Theorem timer_tick_spec s c :
  tickable s -> (forall x, x ∈ timer_list (tms s) -> 1 <= ticks_left (tms s) x) ->
  sth s !! cur s = Some c ->
  exists s', timer_tick s = Some (th_prio c =? PRIO_IDLE, s') /\ tickable s' /\
    (forall x, x ∈ timer_list (tms s') -> 1 <= ticks_left (tms s') x) /\
    expired (tms s <| lbolt ::= fun l => u32 (l + 1) |>) (tms s') /\ tick_effect s c s'.
Proof. intros TK H1 Ec. by apply timer_tick_ok. Qed.

(** ** The tick as a step of the system

    Without the condition on the threads that wait: whatever timeouts the
    woken threads have, the invariants hold again after a tick. *)
Definition tick_ready (T : timers) : Prop := (forall x, x ∈ timer_list T -> 1 <= ticks_left T x) /\ intervals_ok T.

(** Timers that are dropped or changed in ways the clock does not look at. *)
Record timers_shrink (T T' : timers) : Prop := {
  sh_now : lbolt T' = lbolt T;
  sh_list : forall x, x ∈ timer_list T' -> x ∈ timer_list T;
  sh_timers : forall x t', tmrs T' !! x = Some t' -> exists t, tmrs T !! x = Some t /\ tm_expire t' = tm_expire t /\ tm_interval t' = tm_interval t;
  sh_known : forall x, x ∈ timer_list T' -> is_Some (tmrs T !! x) -> is_Some (tmrs T' !! x);
}.

Lemma shrink_left T T' x : timers_shrink T T' -> x ∈ timer_list T' -> is_Some (tmrs T !! x) -> ticks_left T' x = ticks_left T x.
Proof.
  intros H Hx Hk. destruct (sh_known _ _ H x Hx Hk) as [t' Et']. destruct (sh_timers _ _ H x t' Et') as (t&Et&E&_).
  by rewrite (left_Some _ _ _ Et'), (left_Some _ _ _ Et), E, (sh_now _ _ H).
Qed.

Lemma shrink_intervals T T' : timers_shrink T T' -> intervals_ok T -> intervals_ok T'.
Proof. intros H Hi x t' E'. destruct (sh_timers _ _ H x t' E') as (t&Et&_&->). by eapply Hi. Qed.

Lemma stopped_shrinks l T T' : timeouts_stopped l T T' -> timers_shrink T T'.
Proof.
  intros [E1 E2 E3 E4]. split; [done|..].
  - intros x. rewrite E2. by intros [_ ?]%list_elem_of_filter.
  - intros x t'. rewrite E4. case_decide; [|by exists t']. destruct (tmrs T !! x) as [t|]; [|done]. intros [= <-]. by exists t.
  - intros x _ [t Et]. rewrite E4, Et. case_decide; by eexists.
Qed.

Lemma filter_length_le {A} (P Q : A -> Prop) `{forall x, Decision (P x)} `{forall x, Decision (Q x)} (l : list A) :
  (forall x, x ∈ l -> P x -> Q x) -> (length (filter P l) <= length (filter Q l))%nat.
Proof.
  induction l as [|a l IH]; intros HPQ; [done|]. rewrite !filter_cons. assert (length (filter P l) <= length (filter Q l))%nat by (apply IH; intros x Hx; apply HPQ; by right).
  destruct (decide (P a)) as [Hp|], (decide (Q a)) as [|Hq]; cbn; try lia. destruct Hq. apply HPQ; [by left|done].
Qed.

Lemma stopped_ndue l T T' : timers_wf T -> timeouts_stopped l T T' -> (ndue T' <= ndue T)%nat.
Proof.
  intros W H. pose proof (stopped_shrinks _ _ _ H) as HS. unfold ndue. rewrite (ts_list _ _ _ H), list_filter_filter. apply filter_length_le.
  intros x Hx [Hd Hn]. rewrite <- (shrink_left T T' x HS); [done| |].
  - rewrite (ts_list _ _ _ H). by apply list_elem_of_filter.
  - apply (tw_known _ W), elem_of_app. by left.
Qed.

Lemma timer_expire_safe s tm l :
  sinv s -> intervals_ok (tms s) -> timer_list (tms s) = tm :: l -> ticks_left (tms s) tm <= 0 ->
  exists b s', timer_expire tm s = Some (b, s') /\ sinv s' /\ intervals_ok (tms s') /\ cur s' = cur s /\ (ndue (tms s') < ndue (tms s))%nat.
Proof.
  intros I Hi El Hd. pose proof I as [_ HT]. pose proof HT as [W _].
  destruct (wf_head _ _ _ W El) as (t&Et&Hnl&Hne&_). unfold timer_expire. rewrite Et. cbn [mbind option_bind].
  assert (ndue (tms s) = S (length (filter (fun x => ticks_left (tms s) x <= 0) l))) as HN by (unfold ndue; by rewrite El, filter_cons, decide_True).
  rewrite HN. pose proof (Hi _ _ Et) as Hit. destruct (Z.eqb_spec (tm_interval t) 0) as [H0|H0]; cbn [negb].
  - destruct (expire_oneshot _ _ _ W El) as (T1&E1&W'&Elb&Etm&El'&Ee). rewrite E1. cbn [mbind option_bind].
    set (T' := T1 <| expire_list ::= cons tm |>) in *. clearbody T'.
    exists true, (s <| tms := T' |>). split_and!; try done.
    + apply sinv_tms; [done|]. apply timeouts_ok_relist; try done; [|intros x; by rewrite Etm]. by rewrite El', Ee, El, <- Permutation_middle.
    + intros x tx. cbn. rewrite Etm. apply Hi.
    + unfold ndue. cbn. rewrite El'. apply Nat.lt_succ_r. unfold ticks_left. by rewrite Elb, Etm.
  - destruct (expire_periodic _ _ _ _ W El Et Hd) as (T1&T'&l1&l2&E1&E2&W'&Elb&Etm&Ell&El'&Ee&Hl); [lia|].
    rewrite E1. cbn [mbind option_bind]. cbv zeta in E2. rewrite E2. cbn [mbind option_bind].
    assert (forall x, tm_active <$> tmrs T' !! x = tm_active <$> tmrs (tms s) !! x) as HA.
    { intros x. rewrite Etm, lookup_insert. case_decide; [|done]. subst. by rewrite Et. }
    assert (sinv (s <| tms := T' |>)) as I'.
    { apply sinv_tms; [done|]. apply timeouts_ok_relist; try done. by rewrite El', Ee, El, Ell, Permutation_middle. }
    assert (intervals_ok T') as Hi'.
    { intros x tx. rewrite Etm, lookup_insert_Some. intros [[<- <-]|[_ Hx]]; [done|by apply (Hi x)]. }
    assert (ndue T' = length (filter (fun x => ticks_left (tms s) x <= 0) l)) as HN'.
    { unfold ndue. rewrite El', filter_app, filter_cons, decide_False by lia. rewrite <- filter_app, <- Ell. f_equal. apply filter_ext_in. intros x Hx.
      unfold ticks_left. rewrite Elb, Etm, lookup_insert_ne; [done|congruence]. }
    assert (exists s', (match tm with TmHeap a => sched_wakeup_body (EvPeriodic a) (s <| tms := T' |>)
                        | _ => Some (s <| tms := T' |>) end) = Some s' /\ sinv s' /\ intervals_ok (tms s') /\ cur s' = cur s /\ (ndue (tms s') <= ndue T')%nat) as (s'&E3&I3&Hi3&Hc3&Hn3).
    { destruct tm as [| |a]; [by eexists|by eexists|].
      destruct (wakeup_loop_ok (EvPeriodic a) (s <| tms := T' |>)) as (s'&E3&I3&[F3 _]&_&_&_&_&_&_&_&Hst); [done|].
      exists s'. split_and!; try done; [by eapply shrink_intervals, Hi'; eapply stopped_shrinks|by eapply stopped_ndue]. }
    rewrite E3. cbn [mbind option_bind]. exists false, s'. split_and!; try done. lia.
Qed.

Lemma timer_tick_loop_safe n w s :
  sinv s -> intervals_ok (tms s) -> (ndue (tms s) <= n)%nat ->
  exists b s', timer_tick_loop n w s = Some (b, s') /\ sinv s' /\ tick_ready (tms s') /\ cur s' = cur s.
Proof.
  revert w s. induction n as [|n IH]; intros w s I Hi Hn; cbn [timer_tick_loop].
  all: pose proof I as [_ [W _]]; destruct (timer_list (tms s)) as [|tm l] eqn:El;
    [exists w, s; split_and!; try done; split; [rewrite El; by intros x ?%not_elem_of_nil|done]|].
  all: destruct (wf_head _ _ _ W El) as (t&Et&_&_&Ha&Hs); rewrite Et; cbn [mbind option_bind].
  all: rewrite time_before_now by (try apply (tw_now _ W); try (by eapply tw_expire); rewrite <- (left_Some _ _ _ Et); lia).
  all: rewrite <- (left_Some _ _ _ Et); destruct (Z.ltb_spec 0 (ticks_left (tms s) tm)) as [Hlt|Hge].
  1, 3: exists w, s; split_and!; try done; split; [|done]; rewrite El; intros x [->|Hx%Hs]%elem_of_cons; lia.
  - exfalso. unfold ndue in Hn. rewrite El, filter_cons, decide_True in Hn by done. cbn in Hn. lia.
  - destruct (timer_expire_safe s tm l I Hi El Hge) as (b&s1&E1&I1&Hi1&Hc1&Hlt). rewrite E1. cbn [mbind option_bind fst snd].
    destruct (IH (w || b) s1 I1 Hi1) as (b'&s2&E2&I2&TR2&Hc2); [lia|]. exists b', s2. split_and!; try done. congruence.
Qed.

Lemma shrink_ready T T' : timers_wf T -> timers_shrink T T' -> tick_ready T -> tick_ready T'.
Proof.
  intros W H [H1 Hi]. split; [|by eapply shrink_intervals]. intros x Hx. pose proof (sh_list _ _ H x Hx) as Hx'.
  rewrite (shrink_left _ _ _ H) by (done || apply (tw_known _ W), elem_of_app; by left). by apply H1.
Qed.

Lemma timer_tick_safe s :
  sinv s -> tick_ready (tms s) -> exists i s', timer_tick s = Some (i, s') /\ sinv s' /\ tick_ready (tms s') /\ cur s' = cur s.
Proof.
  intros I [H1 Hi]. unfold timer_tick. pose proof I as [_ HT]. pose proof HT as [W _].
  set (T := tms s <| lbolt ::= fun l => u32 (l + 1) |>). set (s0 := s <| tms ::= set lbolt (fun l => u32 (l + 1)) |>).
  assert (sinv s0) as I0 by (apply (sinv_tms s T I), timeouts_ok_relist; try done; by apply advance_wf).
  destruct (timer_tick_loop_safe (length (timer_list (tms s0))) false s0 I0) as (b&s1&E1&I1&TR1&Hc1); [done|apply ndue_le|]. rewrite E1. cbn [mbind option_bind].
  assert (exists s2, (if b then sched_wakeup_body EvTimer s1 else Some s1) = Some s2 /\ sinv s2 /\ tick_ready (tms s2) /\ cur s2 = cur s1) as (s2&E2&I2&TR2&Hc2).
  { destruct b; [|by exists s1]. destruct (wakeup_loop_ok EvTimer s1 I1) as (s2&E2&I2&[F2 _]&_&_&_&_&_&_&_&Hst). exists s2. split_and!; try done.
    eapply shrink_ready; [apply I1|by eapply stopped_shrinks|done]. }
  rewrite E2. cbn [mbind option_bind]. pose proof I2 as [(_&_&(c&Ec&_)&_) _]. destruct (sched_tick_eval s2 c I2 Ec) as [E3 I3]. rewrite E3. cbn [mbind option_bind].
  change (cur (s2 <| sth ::= <[cur s2 := ticked c]> |>)) with (cur s2). assert (sth (s2 <| sth ::= <[cur s2 := ticked c]> |>) !! cur s2 = Some (ticked c)) as -> by apply lookup_insert_eq.
  cbn [mbind option_bind]. eexists _, _. split; [done|]. split; [done|]. split; [done|]. cbn. by rewrite Hc2, Hc1.
Qed.
