(* ===== verification/SchedSleep.v ===== *)
(** * SchedSleep: sleeping, and the births and deaths of threads

    The parts of the scheduler's work that leave the invariant for a moment:
    between [sleep_enter] and the switch the current thread is asleep. *)
From stdpp Require Import base numbers gmap list.
From S2P Require Import Prelude Core Timer Sched SchedInv SchedOps.

Open Scope Z_scope.

(** A state in which a thread has just been dispatched. *)
Record ready_sched (s : sched) : Prop := {
  rs_inv : sinv s;
  rs_wakeq : wakeq s = [];
  rs_calm : exists c, sth s !! cur s = Some c /\ th_state c = TH_RUN /\ th_resched c = false;
}.

(** [sinv] without the clause on the current thread: the states in which
    wakeq_flush() and sched_switch() run. *)
Record midway (s : sched) : Prop := {
  mw_q : qwf None (Some (cur s)) s;
  mw_top : top_ok s;
  mw_quiet : quiet s;
  mw_tm : timeouts_ok s;
  mw_cur : is_Some (sth s !! cur s);
}.

Lemma sinv_midway s : sinv s -> midway s.
Proof. intros [(W&Ht&(c&E&_)&Hq) HT]. by split. Qed.

Lemma midway_flush s :
  midway s -> exists s', wakeq_flush s = Some s' /\ midway s' /\ wakeq s' = [] /\ cur s' = cur s /\ (best s -> best s').
Proof.
  intros [W Ht Hq HT Hc]. destruct (wakeq_flush_ok s W Ht Hc) as (s'&E&W'&Ht'&Hb&F&Ew).
  exists s'. pose proof F as (Ec&_). split_and!; try done. split; try done.
  - by rewrite Ec.
  - by apply (frame_quiet s).
  - by apply (timeouts_ok_frame s).
  - rewrite Ec. by apply (frame_is_Some s).
Qed.

(** If sched_switch() finds a thread to run, it leaves a ready state. *)
Lemma switch_ready s s' :
  midway s -> wakeq s = [] -> sched_switch_sel s = Some s' -> ready_sched s'.
Proof.
  intros [W Ht Hq HT [th E]] Hw Hs.
  destruct (decide (map_Exists (fun _ th => th_state th = TH_RUN) (sth s))) as [(t0&th0&E0&Hr0)|Hno].
  - destruct (sched_switch_ok s th t0 th0) as (s1&c&E1&S1&Ec&Hr&Hc&_&_&Ew&Es&Em&Ed&_); try done.
    assert (s1 = s') as <- by congruence. split; [split; [done|]|congruence|by exists c].
    destruct HT as [HTw HT]. split; [by rewrite Em|]. intros t. rewrite Em, <- elem_of_dom, Ed, elem_of_dom. apply HT.
  - exfalso. assert (forall t th, sth s !! t = Some th -> th_state th <> TH_RUN) as Hnr.
    { intros t th' E' Hr. apply Hno. by exists t, th'. }
    revert Hs. unfold sched_switch_sel. rewrite E. cbn [mbind option_bind].
    rewrite (proj2 (Z.eqb_neq _ _) (Hnr _ _ E)). cbn [mbind option_bind]. rewrite (th_upd_ok _ _ _ _ E).
    cbn [mbind option_bind]. unfold runq_dequeue. set (s2 := s <| sth ::= _ |>).
    assert (rq s2 (top_prio s2) = []) as ->; [|done]. change (rq s (top_prio s) = []).
    destruct (rq s (top_prio s)) as [|x l] eqn:El; [done|]. exfalso.
    destruct (wf_rq_in _ _ _ W (top_prio s) x) as (thx&Ex&_&Hx&_); [rewrite El; by left|]. by apply Hnr in Ex.
Qed.

(** ** Going to sleep *)

Definition timeout_fits (msec : Z) : Prop := callout_ticks msec < 2 ^ 31.

Lemma callout_timeouts s t msec f :
  timeouts_ok s -> is_Some (sth s !! t) -> timeout_fits msec ->
  exists T', timer_callout (TmTimeout t) msec f (tms s) = Some T' /\ timeouts_ok (s <| tms := T' |>).
Proof.
  intros [W H] Ht Hf. destruct (H t Ht) as (tm&Etm&Hl).
  destruct (timer_callout_ok (tms s) (TmTimeout t) tm msec f W Etm Hl Hf)
    as (T'&t1&E&W'&E1&Ha&_&_&Hin&_&_&_&_&Em&Hsub).
  exists T'. split; [done|]. split; [done|]. intros x Hx. change (is_Some (sth s !! x)) in Hx. cbn.
  destruct (decide (x = t)) as [->|Hne]; [exists t1; split; [done|]; split; [done|]; intros _; apply elem_of_app; by left|].
  destruct (H x Hx) as (tx&Ex&Hlx). exists tx. rewrite Em, lookup_insert_ne by congruence. split; [done|].
  rewrite Hsub by congruence. exact Hlx.
Qed.

Lemma sleep_enter_ok s e msec :
  sinv s -> timeout_fits msec -> exists s', sleep_enter e msec s = Some s' /\ midway s' /\ cur s' = cur s.
Proof.
  intros [(W&Ht&(c&Ec&Hs&Hb)&Hq) HT] Hf. unfold sleep_enter.
  set (f := fun th => th <| th_slpevt := Some e |> <| th_state ::= fun st => Z.lor st TH_SLEEP |>).
  pose proof (th_upd_ok _ _ f _ Ec) as Eu. rewrite Eu. cbn [mbind option_bind]. set (s1 := s <| sth ::= _ |>) in *.
  assert (frame_tms s s1) as F1 by (eapply frame_upd; [exact Eu|by left]).
  assert (qwf (Some (cur s)) (Some (cur s)) s1) as W1.
  { eapply qwf_upd_detached; [exact Eu| |apply qwf_detach; [by eapply current_link_free|done]].
    intros th' E'. by apply (wf_prio _ _ _ W _ _ E'). }
  assert (sth s1 !! cur s = Some (f c)) as E1 by apply lookup_insert_eq.
  unfold sleepq_tail. rewrite (qwf_link_free _ _ _ W1). cbn [mbind option_bind].
  set (s2 := s1 <| sleepq ::= _ |>).
  assert (qwf None (Some (cur s)) s2) as W2.
  { eapply qwf_sleepq_put; [exact E1|apply lor_sleep_sleeping|done|done]. }
  assert (midway s2) as M2.
  { split; [done|by apply (top_ok_frame s)|by apply (frame_quiet s)|by apply (timeouts_ok_frame s)|by eexists]. }
  destruct (negb (msec =? 0)); [|by exists s2].
  destruct (callout_timeouts s2 (cur s) msec (SleepExpire (cur s))) as (T'&E2&HT2); [apply M2|by eexists|done|].
  rewrite E2. cbn [mbind option_bind]. exists (s2 <| tms := T' |>). split_and!; try done.
  split; [by eapply (qwf_ext _ _ s2)|by apply (top_ok_frame s)|apply M2|done|apply M2].
Qed.

(** ** Births and deaths *)

Lemma sched_forget_ok s t s' :
  sinv s -> t <> cur s -> link_free t s = true -> TmTimeout t ∉ timer_list (tms s) ++ expire_list (tms s) ->
  s' = s <| sth ::= delete t |> <| tms := tms s <| tmrs ::= delete (TmTimeout t) |> |> -> sinv s'.
Proof.
  intros [(W&Ht&(c&Ec&Hb)&Hq) HT] Hne (Hw&Hr&Hs)%link_free_spec Hn ->. set (s' := _ <| tms := _ |>).
  assert (forall x, x <> t -> sth s' !! x = sth s !! x) as El by (intros; cbn; by rewrite lookup_delete_ne).
  assert (sth s' !! t = None) as Et by (cbn; apply lookup_delete_eq).
  assert (forall x th, sth s' !! x = Some th -> x <> t /\ sth s !! x = Some th) as Hx.
  { intros x th Hx. assert (x <> t) by congruence. split; [done|]. by rewrite <- El. }
  destruct W as [W1 W2 W3 W4 W5 W6 W7 W8 W9]. split; [split_and!|].
  - split; try done.
    + intros p x H. destruct (W2 _ _ H) as (th&?&?&?&?&?). exists th. split_and!; try done. rewrite El; [done|].
      intros ->. by apply (Hr p).
    + intros x H. destruct (W4 _ H) as (th&?&?&?). exists th. split_and!; try done. rewrite El; [done|]. by intros ->.
    + intros e x H. destruct (W6 _ _ H) as (th&?&?&?&?&?). exists th. split_and!; try done. rewrite El; [done|].
      intros ->. by apply (Hs e).
    + intros x th [_ E]%Hx. by apply W7.
    + intros x th [_ E]%Hx. by apply W8.
    + intros x th [_ E]%Hx. by eapply W9.
  - by apply (top_ok_frame s).
  - exists c. split; [|done]. cbn. by rewrite lookup_delete_ne.
  - intros x th [_ E]%Hx. by apply Hq.
  - destruct HT as [[T1 T2 T3 T4 T5 T6] HT].
    assert (forall x, x <> TmTimeout t -> tmrs (tms s') !! x = tmrs (tms s) !! x) as ET by (intros; cbn; by rewrite lookup_delete_ne).
    assert (forall x, x ∈ timer_list (tms s) -> ticks_left (tms s') x = ticks_left (tms s) x) as EL.
    { intros x Hin. unfold ticks_left. rewrite ET; [done|]. intros ->. apply Hn, elem_of_app. by left. }
    split; [split; try done|].
    + intros tm x Ex. cbn in Ex. apply lookup_delete_Some in Ex as [_ Ex]. by eapply T3.
    + intros tm Hin. rewrite ET; [by apply T4|]. by intros ->.
    + intros tm Hin. rewrite EL by done. by apply T5.
    + eapply StronglySorted_ext; [|exact T6]. intros a b Ha Hb'. by rewrite !EL.
    + intros x [th [Hxt E]%Hx]. destruct (HT x) as (tm&Etm&Hl); [by eexists|]. exists tm. split; [|done].
      rewrite ET; [done|congruence].
Qed.

Lemma event_init_ok s e : sinv s -> sq s e = [] -> sinv (event_init e s).
Proof.
  intros [(W&Ht&Hb&Hq) HT] He. assert (forall x, sq (event_init e s) x = sq s x) as Es.
  { intros x. unfold event_init. rewrite sq_insert. case_decide; [by subst|done]. }
  destruct W as [W1 W2 W3 W4 W5 W6 W7 W8 W9]. split; [split_and!|done]; try done; [|by apply (top_ok_frame s)].
  split; try done.
  - intros x. by rewrite Es.
  - intros e' x. rewrite Es. apply W6.
  - intros t th E Hs HX. destruct (W8 t th E Hs HX) as [?|(e'&?&?)]; [by left|right]. exists e'. by rewrite Es.
Qed.
