(* ===== verification/TickReady.v ===== *)
(** * TickReady: what the clock interrupt relies on

    [tick_ready] of Tick.v says that every active timer is at least a tick
    ahead and that the intervals are below half the range of the tick counter.
    The scheduler's routines keep it: they only stop timers, or program one
    for a timeout. *)
From stdpp Require Import base numbers gmap list.
From S2P Require Import Prelude Core Timer Sched SchedInv SchedOps Tick SchedSleep.

Open Scope Z_scope.

Lemma ready_known T x : tick_ready T -> x ∈ timer_list T -> is_Some (tmrs T !! x).
Proof. intros [H _] Hx%H. unfold ticks_left in Hx. destruct (tmrs T !! x); [by eexists|cbn in Hx; lia]. Qed.

Lemma shrunk_ready T T' : timers_shrink T T' -> tick_ready T -> tick_ready T'.
Proof.
  intros H TR. pose proof TR as [H1 Hi]. split; [|by eapply shrink_intervals]. intros x Hx. pose proof (sh_list _ _ H x Hx) as Hx'.
  rewrite (shrink_left _ _ _ H) by (done || by apply ready_known). by apply H1.
Qed.

(** ** The timer operations *)

Lemma unlink_ready tm T T' : tm_unlink tm T = Some T' -> tick_ready T -> tick_ready T'.
Proof.
  unfold tm_unlink. destruct (tm_linked tm T); [|done]. intros [= <-]. apply shrunk_ready. split; cbn; try done.
  - intros x. by intros [_ ?]%list_elem_of_filter.
  - intros x t' E. by exists t'.
Qed.

Lemma upd_ready tm f T T' :
  (forall t, tm_expire (f t) = tm_expire t) -> (forall t, 0 <= tm_interval t < 2 ^ 31 -> 0 <= tm_interval (f t) < 2 ^ 31) ->
  tm_upd tm f T = Some T' -> tick_ready T -> tick_ready T'.
Proof.
  intros He Hv. unfold tm_upd. destruct (tmrs T !! tm) as [t|] eqn:Et; [|done]. cbn [mbind option_bind]. intros [= <-] [H1 Hi]. split.
  - intros x Hx. cbn in Hx. unfold ticks_left. cbn. specialize (H1 x Hx). unfold ticks_left in H1. rewrite lookup_insert. case_decide; [|done].
    subst. rewrite Et in H1. cbn in *. by rewrite He.
  - intros x t'. cbn. rewrite lookup_insert_Some. intros [[_ <-]|[_ E]]; [|by eapply Hi]. apply Hv. by eapply Hi.
Qed.

Lemma insert_elem M e tm l l' x : timer_insert M e tm l = Some l' -> x ∈ l' -> x = tm \/ x ∈ l.
Proof.
  revert l'. induction l as [|n l IH]; intros l'; cbn [timer_insert].
  - intros [= <-] ?%list_elem_of_singleton. by left.
  - destruct (M !! n) as [t|]; [|done]. cbn [mbind option_bind]. destruct (time_before _ _).
    + intros [= <-] [->|?]%elem_of_cons; [by left|by right].
    + destruct (timer_insert M e tm l) as [l1|]; [|done]. cbn [mbind option_bind]. intros [= <-] [->|Hx]%elem_of_cons; [right; by left|].
      destruct (IH l1) as [?|?]; [done..|by left|right; by right].
Qed.

Lemma add_ready tm ticks T T' : 1 <= ticks < 2 ^ 31 -> timer_add tm ticks T = Some T' -> tick_ready T -> tick_ready T'.
Proof.
  intros Ht. unfold timer_add, tm_upd. destruct (tmrs T !! tm) as [t|] eqn:Et; [|done]. cbn [mbind option_bind].
  set (t1 := t <| tm_expire := u32 (lbolt T + ticks) |>). set (T1 := T <| tmrs ::= _ |>).
  assert (tmrs T1 !! tm = Some t1) as -> by apply lookup_insert_eq. cbn [mbind option_bind]. destruct (tm_linked tm T1); [done|].
  destruct (timer_insert _ _ _ _) as [l|] eqn:El; [|done]. cbn [mbind option_bind]. intros [= <-] [H1 Hi]. split.
  - intros x Hx. unfold ticks_left. cbn. rewrite lookup_insert. case_decide as Hd; [cbn; rewrite dist_u32; lia|].
    apply (insert_elem _ _ _ _ _ _ El) in Hx as [->|Hx]; [done|]. apply H1. exact Hx.
  - intros x t'. cbn. rewrite lookup_insert_Some. intros [[_ <-]|[_ E]]; [exact (Hi _ _ Et)|by eapply Hi].
Qed.

Lemma stop_ready tm T T' : timer_stop tm T = Some T' -> tick_ready T -> tick_ready T'.
Proof.
  unfold timer_stop. destruct (tmrs T !! tm) as [t|]; [|done]. cbn [mbind option_bind]. destruct (tm_active t); [|by intros [= <-]].
  destruct (tm_unlink tm T) as [T1|] eqn:E1; [|done]. cbn [mbind option_bind]. intros E2 TR. eapply upd_ready; [| |exact E2|by eapply unlink_ready]; done.
Qed.

Lemma callout_ready tm msec f T T' : timeout_fits msec -> timer_callout tm msec f T = Some T' -> tick_ready T -> tick_ready T'.
Proof.
  intros Hf. unfold timer_callout. fold (callout_ticks msec). destruct (tmrs T !! tm) as [t|]; [|done]. cbn [mbind option_bind].
  destruct (if tm_active t then tm_unlink tm T else Some T) as [T1|] eqn:E1; [|done]. cbn [mbind option_bind].
  destruct (tm_upd tm _ T1) as [T2|] eqn:E2; [|done]. cbn [mbind option_bind]. intros E3 TR. eapply add_ready; [|exact E3|].
  - split; [|exact Hf]. unfold callout_ticks. destruct (Z.eqb_spec (msec_to_tick msec) 0); [done|]. assert (0 <= msec_to_tick msec); [|lia].
    unfold msec_to_tick. destruct (_ <=? _); [apply u32_range|]. apply Z.div_pos; [apply u32_range|lia].
  - eapply upd_ready; [| |exact E2|]; [done|done|]. destruct (tm_active t); [by eapply unlink_ready|by injection E1 as <-].
Qed.

Lemma new_ready tm t T : tm ∉ timer_list T -> 0 <= tm_interval t < 2 ^ 31 -> tick_ready T -> tick_ready (T <| tmrs ::= <[tm := t]> |>).
Proof.
  intros Hn Ht [H1 Hi]. split.
  - intros x Hx. unfold ticks_left. cbn in *. rewrite lookup_insert_ne by congruence. by apply H1.
  - intros x t'. cbn. rewrite lookup_insert_Some. intros [[_ <-]|[_ E]]; [done|by eapply Hi].
Qed.

Lemma del_ready tm T : tm ∉ timer_list T -> tick_ready T -> tick_ready (T <| tmrs ::= delete tm |>).
Proof.
  intros Hn [H1 Hi]. split.
  - intros x Hx. unfold ticks_left. cbn in *. rewrite lookup_delete_ne by congruence. by apply H1.
  - intros x t'. cbn. rewrite lookup_delete_Some. intros [_ E]. by eapply Hi.
Qed.

(** ** The scheduler's routines *)

Definition sready (s : sched) : Prop := tick_ready (tms s).
Definition oready (o : option sched) : Prop := forall s, o = Some s -> sready s.

Lemma oready_some s : sready s -> oready (Some s).
Proof. by intros H s' [= <-]. Qed.
Lemma oready_none : oready None.
Proof. done. Qed.
Lemma oready_bind o f : oready o -> (forall s, sready s -> oready (f s)) -> oready (o ≫= f).
Proof. intros Ho Hf s'. destruct o as [s|]; [|done]. cbn. apply Hf, Ho. done. Qed.
Lemma oready_bind_any {A} (o : option A) f : (forall a, oready (f a)) -> oready (o ≫= f).
Proof. intros Hf s'. destruct o as [a|]; [|done]. cbn. apply Hf. Qed.
Lemma oready_timers (o : option timers) s :
  (forall T, o = Some T -> tick_ready T) -> oready (T ← o; Some (s <| tms := T |>)).
Proof. intros Ho s'. destruct o as [T|]; [|done]. cbn. intros [= <-]. by apply Ho. Qed.

Create HintDb tready.
#[export] Hint Resolve oready_some oready_none : tready.

Ltac oready_step :=
  lazymatch goal with
  | |- oready (mbind (M := option) (A := sched) _ _) => apply oready_bind; [|intros]
  | |- oready (mbind (M := option) (A := timers) _ _) => apply oready_timers; intros
  | |- oready (mbind (M := option) _ _) => apply oready_bind_any; intros
  | |- oready (if ?c then _ else _) => destruct c
  | |- oready (match ?x with _ => _ end) => destruct x
  | |- oready _ => solve [auto with tready]
  end.
Ltac oready := repeat (progress cbv zeta || oready_step).

Lemma oready_th_upd t f s : sready s -> oready (th_upd t f s).
Proof. intros. unfold th_upd. oready. Qed.
Lemma oready_unlink t s : sready s -> oready (unlink t s).
Proof. intros. unfold unlink. oready. Qed.
Lemma oready_runq_tail p t s : sready s -> oready (runq_tail p t s).
Proof. intros. unfold runq_tail. oready. Qed.
Lemma oready_runq_head p t s : sready s -> oready (runq_head p t s).
Proof. intros. unfold runq_head. oready. Qed.
Lemma oready_wakeq_tail t s : sready s -> oready (wakeq_tail t s).
Proof. intros. unfold wakeq_tail. oready. Qed.
Lemma oready_sleepq_tail e t s : sready s -> oready (sleepq_tail e t s).
Proof. intros. unfold sleepq_tail. oready. Qed.
#[export] Hint Resolve oready_th_upd oready_unlink oready_runq_tail oready_runq_head oready_wakeq_tail oready_sleepq_tail : tready.

Lemma oready_runq_enqueue t s : sready s -> oready (runq_enqueue t s).
Proof. intros. unfold runq_enqueue. oready. Qed.
Lemma oready_runq_insert t s : sready s -> oready (runq_insert t s).
Proof. intros. unfold runq_insert. oready. Qed.
Lemma oready_runq_remove t s : sready s -> oready (runq_remove t s).
Proof. intros. unfold runq_remove. oready. Qed.
Lemma oready_stop_timeout t s : sready s -> oready (stop_timeout t s).
Proof. intros. unfold stop_timeout. oready. by eapply stop_ready. Qed.
#[export] Hint Resolve oready_runq_enqueue oready_runq_insert oready_runq_remove oready_stop_timeout : tready.

Lemma oready_wakeq_flush s : sready s -> oready (wakeq_flush s).
Proof.
  unfold wakeq_flush. generalize (length (wakeq s)). intros n. revert s.
  induction n as [|n IH]; intros s H; cbn [wakeq_flush_loop]; unfold wakeq_flush_one; oready.
Qed.
Lemma ready_dequeue s t s' : sready s -> runq_dequeue s = Some (t, s') -> sready s'.
Proof.
  unfold runq_dequeue. destruct (rq s (top_prio s)) as [|x l]; [done|]. cbv zeta. destruct (rq _ _); by intros ? [= _ <-].
Qed.
Lemma oready_switch_sel s : sready s -> oready (sched_switch_sel s).
Proof.
  intros. unfold sched_switch_sel. cbv zeta. oready_step. oready_step; [oready|]. oready_step; [oready|]. intros s' E.
  destruct (runq_dequeue _) as [[x s2]|] eqn:Ed; [|done]. injection E as <-. exact (ready_dequeue _ _ _ H1 Ed).
Qed.
Lemma oready_wake t r s : sready s -> oready (wake t r s).
Proof. intros. unfold wake. oready. Qed.
#[export] Hint Resolve oready_wakeq_flush oready_switch_sel oready_wake : tready.

Lemma oready_wakeup e s : sready s -> oready (sched_wakeup_body e s).
Proof.
  unfold sched_wakeup_body. generalize (length (sq s e)). intros n. revert s.
  induction n as [|n IH]; intros s H; cbn [wakeup_loop]; oready.
Qed.
Lemma ready_wakeone e s o s' : sready s -> sched_wakeone_body e s = Some (o, s') -> sready s'.
Proof.
  intros H. unfold sched_wakeone_body. destruct (sq s e) as [|t l]; [by intros [= _ <-]|]. destruct (select_top _ _ _) as [top|]; [|done]. cbn [mbind option_bind].
  destruct (unlink top s) as [s1|] eqn:E1; [|done]. cbn [mbind option_bind]. destruct (wake top 0 s1) as [s2|] eqn:E2; [|done]. intros [= _ <-].
  eapply oready_wake; [|exact E2]. by eapply oready_unlink.
Qed.
Lemma oready_unsleep t r s : sready s -> oready (sched_unsleep_body t r s).
Proof. intros. unfold sched_unsleep_body. oready. Qed.
Lemma oready_yield s : sready s -> oready (sched_yield_body s).
Proof. intros. unfold sched_yield_body. oready. Qed.
Lemma oready_suspend t s : sready s -> oready (sched_suspend t s).
Proof. intros. unfold sched_suspend. oready. Qed.
Lemma oready_resume t s : sready s -> oready (sched_resume t s).
Proof. intros. unfold sched_resume. oready. Qed.
Lemma oready_stop t s : sready s -> oready (sched_stop t s).
Proof. intros. unfold sched_stop. oready. Qed.
Lemma oready_setprio t b p s : sready s -> oready (sched_setprio t b p s).
Proof. intros. unfold sched_setprio. oready. Qed.
Lemma ready_setpolicy t p s r s' : sready s -> sched_setpolicy t p s = Some (r, s') -> sready s'.
Proof.
  intros H. unfold sched_setpolicy. destruct (_ || _); [|by intros [= _ <-]]. destruct (th_upd t _ s) as [s1|] eqn:E; [|done].
  intros [= _ <-]. by eapply oready_th_upd.
Qed.
Lemma oready_sleep_enter e msec s : timeout_fits msec -> sready s -> oready (sleep_enter e msec s).
Proof. intros. unfold sleep_enter. oready. by eapply callout_ready. Qed.
#[export] Hint Resolve oready_wakeup oready_unsleep oready_yield oready_suspend oready_resume oready_stop oready_setprio oready_sleep_enter : tready.
