(* ===== verification/Kernel.v ===== *)
(** * Kernel: the kernel state and the effects of kernel code

    Kernel code runs in a monad [K] over the whole kernel state [kst]: it can
    read and write the state, fault (a wild memory access, a misused intrusive
    link, a panic), and give up the CPU.  [Switch s k] is the context switch of
    sched_switch(): another thread runs from state [s] on, and [k] is the rest
    of this thread's work, entered when the thread is dispatched again.

    The kernel allocator is a parameter, the class [KMem]; so is the contents
    of freshly allocated memory. *)
From stdpp Require Import base numbers strings gmap list.
From S2P Require Import Prelude Core Timer Sched.

Open Scope Z_scope.

(** ** Constants *)
Definition OBJECT_MAGIC := 0x4f626a3f.
Definition TASK_MAGIC := 0x54736b3f.
Definition THREAD_MAGIC := 0x5468723f.
Definition MUTEX_MAGIC := 0x4d75783f.
Definition COND_MAGIC := 0x436f6e3f.
Definition SEM_MAGIC := 0x53656d3f.

Definition CAP_SETPCAP := 0x1.
Definition CAP_TASK := 0x2.
Definition CAP_MEMORY := 0x4.
Definition CAP_KILL := 0x8.
Definition CAP_SEMAPHORE := 0x10.
Definition CAP_NICE := 0x20.
Definition CAP_IPC := 0x40.

Definition NULL := 0.

(** ** Data *)

(** struct cpu_regs: the user-mode registers at the top of the kernel stack. *)
Record uregs := mk_uregs {
  u_ebx : Z; u_ecx : Z; u_edx : Z; u_esi : Z; u_edi : Z; u_ebp : Z; u_eax : Z; u_ds : Z; u_es : Z;
  u_trap_no : Z; u_err_code : Z; u_eip : Z; u_cs : Z; u_eflags : Z; u_esp : Z; u_ss : Z;
}.
#[export] Instance uregs_eta : Settable uregs := fun x =>
  mk_uregs (u_ebx x) (u_ecx x) (u_edx x) (u_esi x) (u_edi x) (u_ebp x) (u_eax x) (u_ds x) (u_es x)
    (u_trap_no x) (u_err_code x) (u_eip x) (u_cs x) (u_eflags x) (u_esp x) (u_ss x).

(** The fields of struct thread that the scheduler does not own.  [msgaddr] is
    the kernel alias of a user buffer: the address space and the address in
    it. *)
Record thread := mk_thread {
  th_magic : Z;
  th_name : list Z;
  th_task : Z;
  th_suscnt : Z;
  th_periodic : Z;
  th_excbits : Z;
  th_msgaddr : Z * Z;
  th_msgsize : Z;
  th_sender : tid;
  th_receiver : tid;
  th_sendobj : Z;
  th_recvobj : Z;
  th_mutexes : list Z;
  th_wait_mutex : Z;
  th_kstack : Z;
  th_regs : uregs;                 (* *ctx.uregs *)
  th_saved : Z;                    (* ctx.saved_regs: an address on the user stack *)
}.
#[export] Instance thread_eta : Settable thread := fun x =>
  mk_thread (th_magic x) (th_name x) (th_task x) (th_suscnt x) (th_periodic x) (th_excbits x) (th_msgaddr x)
    (th_msgsize x) (th_sender x) (th_receiver x) (th_sendobj x) (th_recvobj x) (th_mutexes x) (th_wait_mutex x)
    (th_kstack x) (th_regs x) (th_saved x).

Record task := mk_task {
  tk_magic : Z;
  tk_name : list Z;
  tk_objects : list Z;
  tk_threads : list tid;
  tk_map : Z;
  tk_suscnt : Z;
  tk_capability : Z;
  tk_handler : Z;
  tk_parent : Z;
}.
#[export] Instance task_eta : Settable task := fun x =>
  mk_task (tk_magic x) (tk_name x) (tk_objects x) (tk_threads x) (tk_map x) (tk_suscnt x) (tk_capability x)
    (tk_handler x) (tk_parent x).

Record sem := mk_sem { s_magic : Z; s_task : Z; s_value : Z }.
#[export] Instance sem_eta : Settable sem := fun x => mk_sem (s_magic x) (s_task x) (s_value x).

Record mutex := mk_mutex { m_magic : Z; m_task : Z; m_owner : tid; m_prio : Z; m_locks : Z }.
#[export] Instance mutex_eta : Settable mutex := fun x =>
  mk_mutex (m_magic x) (m_task x) (m_owner x) (m_prio x) (m_locks x).

Record cond := mk_cond { c_magic : Z; c_task : Z; c_wait : Z; c_signal : Z }.
#[export] Instance cond_eta : Settable cond := fun x => mk_cond (c_magic x) (c_task x) (c_wait x) (c_signal x).

Record object := mk_object {
  o_magic : Z; o_name : list Z; o_owner : Z; o_sendq : list tid; o_recvq : list tid }.
#[export] Instance object_eta : Settable object := fun x =>
  mk_object (o_magic x) (o_name x) (o_owner x) (o_sendq x) (o_recvq x).

(** The kernel allocator: a request of a size yields the address of a block and
    the new heap, or nothing; freeing a block that was not allocated is a
    fault.  [junk] is what a fresh block happens to contain, read as a
    word or as a string. *)
Class KMem := {
  kheap : Type;
  kmem_alloc : Z -> kheap -> option (Z * kheap);
  kmem_free : Z -> kheap -> option kheap;
  junk_int : Z -> Z;
  junk_str : Z -> list Z;
}.

Section Kernel.
Context {KM : KMem}.

Record kst := mk_kst {
  sch : sched;
  thr : gmap tid thread;
  tasks : gmap Z task;
  sems : gmap Z sem;
  mutexes : gmap Z mutex;
  conds : gmap Z cond;
  objs : gmap Z object;
  obj_table : gmap Z (list Z);     (* object hash table *)
  task_list : list Z;              (* every task, from kern_task's link on *)
  kern_task : Z;                   (* address of kern_task *)
  zombie : tid;
  umem : gmap (Z * Z) Z;           (* user memory: map, address -> byte *)
  heap : kheap;
}.
#[export] Instance kst_eta : Settable kst := fun x =>
  mk_kst (sch x) (thr x) (tasks x) (sems x) (mutexes x) (conds x) (objs x) (obj_table x) (task_list x) (kern_task x)
    (zombie x) (umem x) (heap x).

(** ** The monad *)
Inductive res (A : Type) :=
| Done (a : A) (s : kst)
| Switch (s : kst) (k : kst -> res A)
| Fault.
Arguments Done {A}.
Arguments Switch {A}.
Arguments Fault {A}.

Definition K (A : Type) := kst -> res A.

Fixpoint rbind {A B} (r : res A) (f : A -> K B) : res B :=
  match r with
  | Done a s => f a s
  | Switch s k => Switch s (fun s' => rbind (k s') f)
  | Fault => Fault
  end.

#[export] Instance K_ret : MRet K := fun A a s => Done a s.
#[export] Instance K_bind : MBind K := fun A B f m s => rbind (m s) f.

Definition fault {A} : K A := fun _ => Fault.
Definition gets {A} (f : kst -> A) : K A := fun s => Done (f s) s.
Definition modify (f : kst -> kst) : K unit := fun s => Done tt (f s).
Definition lift_o {A} (o : option A) : K A := fun s => match o with Some a => Done a s | None => Fault end.
Definition getso {A} (f : kst -> option A) : K A := fun s => match f s with Some a => Done a s | None => Fault end.

(** Access to a structure by address: an address that holds none is a fault. *)
Definition rd {X} (m : kst -> gmap Z X) (a : Z) : K X := getso (fun s => m s !! a).
Definition upd_thr (t : tid) (f : thread -> thread) : K unit :=
  x ← rd thr t; modify (fun s => s <| thr ::= <[t := f x]> |>).
Definition upd_task (t : Z) (f : task -> task) : K unit :=
  x ← rd tasks t; modify (fun s => s <| tasks ::= <[t := f x]> |>).
Definition upd_sem (a : Z) (f : sem -> sem) : K unit :=
  x ← rd sems a; modify (fun s => s <| sems ::= <[a := f x]> |>).
Definition upd_mutex (a : Z) (f : mutex -> mutex) : K unit :=
  x ← rd mutexes a; modify (fun s => s <| mutexes ::= <[a := f x]> |>).
Definition upd_cond (a : Z) (f : cond -> cond) : K unit :=
  x ← rd conds a; modify (fun s => s <| conds ::= <[a := f x]> |>).
Definition upd_obj (a : Z) (f : object -> object) : K unit :=
  x ← rd objs a; modify (fun s => s <| objs ::= <[a := f x]> |>).

(** ** The scheduler's entry points *)

Definition lift_s (f : sched -> option sched) : K unit := fun s =>
  match f (sch s) with Some S' => Done tt (s <| sch := S' |>) | None => Fault end.
Definition lift_sa {A} (f : sched -> option (A * sched)) : K A := fun s =>
  match f (sch s) with Some (a, S') => Done a (s <| sch := S' |>) | None => Fault end.

Definition cur_thread : K tid := gets (fun s => cur (sch s)).
Definition cur_task : K Z := t ← cur_thread; th ← rd thr t; mret (th_task th).
Definition s_thread (t : tid) : K sthread := getso (fun s => sth (sch s) !! t).

(** sched_switch(): the selection, then the context switch proper. *)
Definition sched_switch : K unit := fun s =>
  match sched_switch_sel (sch s) with
  | None => Fault
  | Some S' =>
      if cur S' =? cur (sch s) then Done tt (s <| sch := S' |>)
      else Switch (s <| sch := S' |>) (fun s' => Done tt s')
  end.

Definition sched_lock : K unit := lift_s (fun s => th_upd (cur s) (fun c => c <| th_locks ::= Z.succ |>) s).

(** while (cur_thread->resched) { sched_switch(); wakeq_flush(); } *)
Fixpoint resched_loop (n : nat) : K unit :=
  t ← cur_thread; c ← s_thread t;
  if th_resched c then
    match n with
    | O => fault
    | S n => sched_switch;; lift_s wakeq_flush;; resched_loop n
    end
  else mret tt.

(** A switched-out thread comes back with its mark cleared and with an empty
    wake queue (see KernelInv.v), so one round of the loop is enough. *)
Definition RESCHED_ROUNDS : nat := 2.

Definition sched_unlock : K unit :=
  t ← cur_thread; c ← s_thread t;
  (if th_locks c =? 1 then lift_s wakeq_flush;; resched_loop RESCHED_ROUNDS else mret tt);;
  lift_s (fun s => th_upd (cur s) (fun c => c <| th_locks ::= Z.pred |>) s).

Definition sched_tsleep (e : evt) (msec : Z) : K Z :=
  sched_lock;;
  lift_s (sleep_enter e msec);;
  lift_s wakeq_flush;;
  sched_switch;;
  sched_unlock;;
  t ← cur_thread; c ← s_thread t; mret (th_slpret c).
Definition sched_sleep (e : evt) : K Z := sched_tsleep e 0.

Definition sched_wakeup (e : evt) : K unit := sched_lock;; lift_s (sched_wakeup_body e);; sched_unlock.
(** The thread woken, or NULL. *)
Definition sched_wakeone (e : evt) : K tid :=
  sched_lock;; o ← lift_sa (sched_wakeone_body e); sched_unlock;; mret (default NULL o).
Definition sched_unsleep (t : tid) (result : Z) : K unit :=
  sched_lock;; lift_s (sched_unsleep_body t result);; sched_unlock.
Definition sched_yield : K unit := sched_lock;; lift_s sched_yield_body;; sched_unlock.

(** Emptying the queue of an event that threads sleep on would strand them: a
    misuse of their links. *)
Definition kevent_init (e : evt) : K unit :=
  b ← gets (fun s => event_waiting (sch s) e);
  if (b : bool) then fault else modify (fun s => s <| sch ::= event_init e |>).
Definition kevent_waiting (e : evt) : K bool := gets (fun s => event_waiting (sch s) e).

(** ** Kernel memory *)

(** The address holds a structure the kernel is using. *)
Definition addr_used (a : Z) (s : kst) : bool :=
  bool_decide (is_Some (thr s !! a) \/ is_Some (sth (sch s) !! a) \/ is_Some (tasks s !! a) \/ is_Some (sems s !! a) \/
    is_Some (mutexes s !! a) \/ is_Some (conds s !! a) \/ is_Some (objs s !! a) \/
    is_Some (tmrs (tms (sch s)) !! TmHeap a)).

(** An allocator that hands out NULL or memory in use breaks its contract: a
    fault. *)
Definition kalloc (size : Z) : K (option Z) := fun s =>
  match kmem_alloc size (heap s) with
  | Some (a, h) => if (a =? NULL) || addr_used a s then Fault else Done (Some a) (s <| heap := h |>)
  | None => Done None s
  end.
Definition kfree (a : Z) : K unit := fun s =>
  match kmem_free a (heap s) with Some h => Done tt (s <| heap := h |>) | None => Fault end.

(** ** User memory *)

Definition byte_at (w : Z) (i : nat) : Z := Z.land (Z.shiftr w (8 * Z.of_nat i)) 0xff.
Definition bytes_of_word (w : Z) : list Z := byte_at w <$> seq 0 4.
Fixpoint word_of_bytes (l : list Z) : Z :=
  match l with [] => 0 | b :: l => b + 256 * word_of_bytes l end.

Definition uread (M : gmap (Z * Z) Z) (m a : Z) (n : nat) : option (list Z) :=
  mapM (fun i => M !! (m, a + Z.of_nat i)) (seq 0 n).
(** rep movsb: the bytes before an unmapped one have been copied when the page
    fault ends the copy. *)
Fixpoint uwrite (M : gmap (Z * Z) Z) (m a : Z) (bs : list Z) : bool * gmap (Z * Z) Z :=
  match bs with
  | [] => (true, M)
  | b :: bs =>
      match M !! (m, a) with
      | None => (false, M)
      | Some _ => uwrite (<[(m, a) := b]> M) m (a + 1) bs
      end
  end.

Definition cur_map : K Z := k ← cur_task; tk ← rd tasks k; mret (tk_map tk).

(** The range check of umem_copyin and umem_copyout: the end of the range, as an
    unsigned sum without carry, lies below UMEM_MAX. *)
Definition umem_ok (a n : Z) : bool := a + n <? UMEM_MAX.

(** umem_copyin(): the bytes at a user address of the current task, or a page
    fault that the routine reports. *)
Definition umem_copyin (a : Z) (n : nat) : K (option (list Z)) :=
  m ← cur_map;
  gets (fun s => if umem_ok a (Z.of_nat n) then uread (umem s) m a n else None).
Definition umem_copyout (a : Z) (bs : list Z) : K bool :=
  m ← cur_map;
  (fun s =>
    if umem_ok a (Z.of_nat (length bs)) then
      let '(ok, M) := uwrite (umem s) m a bs in Done ok (s <| umem := M |>)
    else Done false s) : K bool.
Definition copyin_word (a : Z) : K (option Z) := o ← umem_copyin a 4; mret (word_of_bytes <$> o).
Definition copyout_word (a w : Z) : K bool := umem_copyout a (bytes_of_word w).

(** umem_strnlen(), repne scasb: the length of the string, or [maxlen] - 1 if
    there is no terminator among the first [maxlen] bytes. *)
Fixpoint scasb (M : gmap (Z * Z) Z) (m a : Z) (n : nat) (i : Z) : option Z :=
  match n with
  | O => Some (i - 1)
  | S n => b ← M !! (m, a); if b =? 0 then Some i else scasb M m (a + 1) n (i + 1)
  end.
Definition umem_strnlen (a : Z) (maxlen : nat) : K (option Z) :=
  m ← cur_map;
  gets (fun s => if UMEM_MAX <=? a then None else scasb (umem s) m a maxlen 0).

(** The characters of a C string in a byte array; none if it is not terminated. *)
Fixpoint cstr (l : list Z) : option (list Z) :=
  match l with
  | [] => None
  | b :: l => if b =? 0 then Some [] else s ← cstr l; Some (b :: s)
  end.

(** ** Timers, and the validity checks of threads and tasks *)

Definition lift_t (f : timers -> option timers) : K unit :=
  lift_s (fun s => T ← f (tms s); Some (s <| tms := T |>)).
Definition timer_of (tm : tmr) : K timer := getso (fun s => tmrs (tms (sch s)) !! tm).

(** A timer in new or released memory; releasing one that is still linked is a
    misuse of its link. *)
Definition timer_new (tm : tmr) (t : timer) : K unit :=
  lift_t (fun T => if tm_linked tm T then None else Some (T <| tmrs ::= <[tm := t]> |>)).
Definition timer_del (tm : tmr) : K unit :=
  lift_t (fun T => if tm_linked tm T then None else Some (T <| tmrs ::= delete tm |>)).

Definition thread_valid (t : tid) : K bool :=
  gets (fun s => kern_area t && from_option (fun th => th_magic th =? THREAD_MAGIC) false (thr s !! t)).
Definition task_valid (k : Z) : K bool :=
  gets (fun s => kern_area k && from_option (fun tk => tk_magic tk =? TASK_MAGIC) false (tasks s !! k)).
Definition is_kern_task : K bool := k ← cur_task; gets (fun s => k =? kern_task s).

(** ** task_capable *)
Definition task_capable (cap : Z) : K bool :=
  k ← cur_task; tk ← rd tasks k; mret (flag (tk_capability tk) cap).

Definition task_access (task : Z) : K bool :=
  kt ← gets kern_task;
  if task =? kt then mret false else
  k ← cur_task;
  if task =? k then mret true else
  tk ← rd tasks task;
  if tk_parent tk =? k then mret true else task_capable CAP_TASK.
End Kernel.

Arguments Done {KM A}.
Arguments Switch {KM A}.
Arguments Fault {KM A}.
