(* ===== verification/Context.v ===== *)
(** * Context: the user-mode context of a thread

    sys/arch/i386/i386/context.c: the registers a thread resumes with in user
    mode, and the copy of them that is kept on the user stack while an
    exception handler runs.  The kernel-mode half of a context (struct
    kern_regs and the kernel stack) is what the continuations of the kernel
    monad stand for. *)
From stdpp Require Import base numbers strings gmap list.
From S2P Require Import Prelude Core Timer Sched Kernel.

Open Scope Z_scope.

Definition USER_CS := 0x20.
Definition USER_DS := 0x28.
Definition EFL_IF := 0x200.
Definition EFL_IOPL := 0x3000.
Definition EFL_IOPL_KERN := 0.
(** sizeof(struct cpu_regs) *)
Definition SIZEOF_CPU_REGS := 64.

(** The registers that context_set() is asked to set.  CTX_KENTRY and CTX_KARG
    are kernel-mode. *)
Inductive ctx_type :=
| CTX_KSTACK
| CTX_USTACK (val : Z)
| CTX_UENTRY (val : Z)
| CTX_UARG (val : Z).

(** struct cpu_regs in memory: sixteen words in the order of its members. *)
Definition regs_words (u : uregs) : list Z :=
  [u_ebx u; u_ecx u; u_edx u; u_esi u; u_edi u; u_ebp u; u_eax u; u_ds u; u_es u;
   u_trap_no u; u_err_code u; u_eip u; u_cs u; u_eflags u; u_esp u; u_ss u].
Definition regs_of_words (l : list Z) : option uregs :=
  match l with
  | [ebx; ecx; edx; esi; edi; ebp; eax; ds; es; trap_no; err_code; eip; cs; eflags; esp; ss] =>
      Some (mk_uregs ebx ecx edx esi edi ebp eax ds es trap_no err_code eip cs eflags esp ss)
  | _ => None
  end.
Definition bytes_of_words (l : list Z) : list Z := mjoin (bytes_of_word <$> l).
Fixpoint words_of_bytes (n : nat) (l : list Z) : list Z :=
  match n with O => [] | S n => word_of_bytes (take 4 l) :: words_of_bytes n (drop 4 l) end.

Section Context.
Context {KM : KMem}.

(** A direct access to user memory through a pointer.  Unlike the umem
    routines the code checks nothing: an address outside the user area is
    kernel memory, and an unmapped one is a kernel page fault, on which
    trap_handler() panics. *)
Definition poke (a : Z) (bs : list Z) : K unit :=
  m ← cur_map;
  (fun s =>
    if (0 <=? a) && (a + Z.of_nat (length bs) <=? UMEM_MAX) then
      let '(ok, M) := uwrite (umem s) m a bs in if (ok : bool) then Done tt (s <| umem := M |>) else Fault
    else Fault) : K unit.
Definition peek (a : Z) (n : nat) : K (list Z) :=
  m ← cur_map;
  getso (fun s => if (0 <=? a) && (a + Z.of_nat n <=? UMEM_MAX) then uread (umem s) m a n else None).

(** ** context_set *)

Definition reset_kstack (u : uregs) : uregs := u <| u_eax := 0 |> <| u_eflags := Z.lor EFL_IF EFL_IOPL_KERN |>.
Definition set_ustack (val : Z) (u : uregs) : uregs := u <| u_esp := val |> <| u_ss := Z.lor USER_DS 3 |>.
Definition JUNK := 0x12345678.
Definition set_uentry (val : Z) (u : uregs) : uregs :=
  u <| u_eip := val |> <| u_cs := Z.lor USER_CS 3 |> <| u_ds := Z.lor USER_DS 3 |> <| u_es := Z.lor USER_DS 3 |>
    <| u_eflags := Z.lor EFL_IF EFL_IOPL_KERN |>
    <| u_eax := JUNK |> <| u_ebx := JUNK |> <| u_ecx := JUNK |> <| u_edx := JUNK |>
    <| u_edi := JUNK |> <| u_esi := JUNK |> <| u_ebp := JUNK |>.

Definition upd_regs (t : tid) (f : uregs -> uregs) : K unit := upd_thr t (fun th => th <| th_regs ::= f |>).

(** The result of umem_copyout() is not looked at. *)
Definition context_set (t : tid) (type : ctx_type) : K unit :=
  match type with
  | CTX_KSTACK => upd_regs t reset_kstack
  | CTX_USTACK val => upd_regs t (set_ustack val)
  | CTX_UENTRY val => upd_regs t (set_uentry val)
  | CTX_UARG val =>
      th ← rd thr t;
      _ ← copyout_word (u32 (u_esp (th_regs th) + 4)) (u32 val);
      mret tt
  end.

(** ** context_save and context_restore *)

(** [sav - (sizeof(uint32_t) * 2)] is arithmetic on a pointer to struct cpu_regs:
    eight structures, not eight bytes. *)
Definition context_save (t : tid) : K unit :=
  th ← rd thr t;
  let cur := th_regs th in
  let sav := u32 (u_esp cur - SIZEOF_CPU_REGS) in
  poke sav (bytes_of_words (regs_words cur));;
  upd_thr t (fun th => th <| th_saved := sav |>);;
  upd_regs t (fun u => u <| u_esp := u32 (sav - 8 * SIZEOF_CPU_REGS) |>).

Definition fix_regs (u : uregs) : uregs :=
  u <| u_cs := Z.lor USER_CS 3 |> <| u_ss := Z.lor USER_DS 3 |> <| u_ds := Z.lor USER_DS 3 |> <| u_es := Z.lor USER_DS 3 |>
    <| u_eflags ::= fun f => Z.lor f EFL_IF |>.

(** ASSERT(cur->eip && user_area(cur->eip)), and the same of esp. *)
Definition user_ptr (a : Z) : bool := negb (a =? 0) && user_area a.

Definition context_restore (t : tid) : K unit :=
  th ← rd thr t;
  bs ← peek (th_saved th) (Z.to_nat SIZEOF_CPU_REGS);
  u ← lift_o (regs_of_words (words_of_bytes 16 bs));
  upd_regs t (fun _ => fix_regs u);;
  if user_ptr (u_eip u) && user_ptr (u_esp u) then mret tt else fault.

(** The way back of a system call (syscall_entry in locore.S): the return value of
    the routine goes to eax of the saved registers. *)
Definition syscall_return (r : Z) : K unit :=
  t ← cur_thread; upd_regs t (fun u => u <| u_eax := u32 r |>).
End Context.
