(* ===== verification/KernelInv.v ===== *)
(** * KernelInv: the kernel-wide invariant and a logic for kernel code

    [safe b b' m] says: started by the current thread in a state of the
    invariant, the kernel code [m] keeps the invariant at every context switch
    and when it returns, and returns in the thread that called it.  The rule
    for a context switch is a rely-guarantee one: the code must leave a
    dispatchable state ([ready]) and may assume nothing but such a state, with
    itself dispatched, when it continues.

    The flag records what is known of the current thread: with [true] it is
    runnable, with [false] it may be suspended or terminated and about to
    leave the CPU. *)
From stdpp Require Import base numbers strings gmap list.
From S2P Require Import Prelude Core Timer Sched SchedInv SchedOps Tick SchedSleep TickReady Kernel.

Open Scope Z_scope.

Section KernelInv.
Context {KM : KMem}.

Definition mprio_ok (s : kst) : Prop :=
  forall a m, mutexes s !! a = Some m -> 0 <= m_prio m <= MIN_PRIO.

Definition running (s : sched) : Prop := exists c, sth s !! cur s = Some c /\ th_state c = TH_RUN.

(** Beside the scheduler's invariant: the priorities of the mutexes are in
    range, and the timers are as the clock interrupt needs them. *)
Definition karound (s : kst) : Prop := mprio_ok s /\ sready (sch s).

Definition kinv (b : bool) (s : kst) : Prop :=
  sinv (sch s) /\ karound s /\ (b = true -> running (sch s)).

Definition ready (s : kst) : Prop := ready_sched (sch s) /\ karound s.

Lemma ready_kinv b s : ready s -> kinv b s.
Proof. intros [[I _ (c&E&Hr&_)] M]. split_and!; [done..|]. intros _. by exists c. Qed.

Lemma kinv_weaken b s : kinv b s -> kinv false s.
Proof. intros (?&?&_). by split_and!. Qed.

Fixpoint rsafe {A} (t : tid) (Q : A -> kst -> Prop) (r : res A) : Prop :=
  match r with
  | Done a s => Q a s
  | Switch s k => ready s /\ forall s', ready s' -> cur (sch s') = t -> rsafe t Q (k s')
  | Fault => True
  end.

Definition safe (b b' : bool) {A} (m : K A) : Prop :=
  forall s, kinv b s -> rsafe (cur (sch s)) (fun _ s' => kinv b' s' /\ cur (sch s') = cur (sch s)) (m s).

Lemma rsafe_mono {A} t (Q Q' : A -> kst -> Prop) r :
  (forall a s, Q a s -> Q' a s) -> rsafe t Q r -> rsafe t Q' r.
Proof. intros H. induction r as [a s|s k IH|]; cbn; [apply H| |done]. intros [? Hk]. split; [done|]. auto. Qed.

Lemma rsafe_bind {A B} t (Q : B -> kst -> Prop) (r : res A) (f : A -> K B) :
  rsafe t (fun a s => rsafe t Q (f a s)) r -> rsafe t Q (rbind r f).
Proof. induction r as [a s|s k IH|]; cbn; [done| |done]. intros [? Hk]. split; [done|]. auto. Qed.

(** ** Structural rules *)

Lemma safe_bind b1 b2 b3 {A B} (m : K A) (f : A -> K B) :
  safe b1 b2 m -> (forall a, safe b2 b3 (f a)) -> safe b1 b3 (m ≫= f).
Proof.
  intros Hm Hf s Hs. apply rsafe_bind. eapply rsafe_mono; [|by apply Hm]. cbn. intros a s' [Hk Hc].
  rewrite <- Hc. eapply rsafe_mono; [|by apply Hf]. cbn. intros _ s2. by rewrite Hc.
Qed.

Lemma safe_weaken b1 b2 b1' b2' {A} (m : K A) :
  safe b1 b2 m -> (b1 = true -> b1' = true) -> (b2' = true -> b2 = true) -> safe b1' b2' m.
Proof.
  intros Hm H1 H2 s (I&M&R). eapply rsafe_mono; [|apply Hm]; [cbn|by split_and!; auto].
  intros _ s' [(I'&M'&R') ?]. split; [|done]. split_and!; auto.
Qed.

Lemma safe_ret b {A} (a : A) : safe b b (mret a).
Proof. by intros s Hs. Qed.
Lemma safe_fault b b' {A} : safe b b' (fault (A := A)).
Proof. by intros s Hs. Qed.
Lemma safe_gets b {A} (f : kst -> A) : safe b b (gets f).
Proof. by intros s Hs. Qed.
Lemma safe_getso b {A} (f : kst -> option A) : safe b b (getso f).
Proof. intros s Hs. unfold getso. by destruct (f s). Qed.
Lemma safe_lift_o b {A} (o : option A) : safe b b (lift_o o).
Proof. intros s Hs. unfold lift_o. by destruct o. Qed.
Lemma safe_rd b {X} (m : kst -> gmap Z X) a : safe b b (rd m a).
Proof. apply safe_getso. Qed.

(** Updates that do not touch the scheduler and the mutexes. *)
Lemma safe_modify b f :
  (forall s, sch (f s) = sch s) -> (forall s, mutexes (f s) = mutexes s) -> safe b b (modify f).
Proof.
  intros Hs Hm s (I&M&R). cbn. unfold kinv, karound, mprio_ok. rewrite Hs, Hm. destruct M. by split_and!.
Qed.

Lemma safe_upd_thr b t f : safe b b (upd_thr t f).
Proof. eapply safe_bind; [apply safe_rd|]. intros. by apply safe_modify. Qed.
Lemma safe_upd_task b t f : safe b b (upd_task t f).
Proof. eapply safe_bind; [apply safe_rd|]. intros. by apply safe_modify. Qed.
Lemma safe_upd_sem b t f : safe b b (upd_sem t f).
Proof. eapply safe_bind; [apply safe_rd|]. intros. by apply safe_modify. Qed.
Lemma safe_upd_cond b t f : safe b b (upd_cond t f).
Proof. eapply safe_bind; [apply safe_rd|]. intros. by apply safe_modify. Qed.
Lemma safe_upd_obj b t f : safe b b (upd_obj t f).
Proof. eapply safe_bind; [apply safe_rd|]. intros. by apply safe_modify. Qed.

Lemma safe_upd_mutex b a f :
  (forall m, 0 <= m_prio m <= MIN_PRIO -> 0 <= m_prio (f m) <= MIN_PRIO) -> safe b b (upd_mutex a f).
Proof.
  intros Hf s (I&M&R). unfold upd_mutex, rd, getso, mbind, K_bind. destruct (mutexes s !! a) as [m|] eqn:E; [|done]. cbn [rbind]. unfold modify. cbn [rsafe].
  split; [|done]. destruct M as [M TR]. split_and!; [done| |done]. split; [|done]. intros x mx. cbn. rewrite lookup_insert_Some.
  intros [[_ <-]|[_ ?]]; [apply Hf|]; by eapply M.
Qed.

(** What is read of a thread or a mutex has a priority in range. *)
Definition prios_ok (th : sthread) : Prop := 0 <= th_prio th <= MIN_PRIO /\ 0 <= th_baseprio th <= MIN_PRIO.

Lemma safe_s_thread_bind b b' {B} t (f : sthread -> K B) :
  (forall th, prios_ok th -> safe b b' (f th)) -> safe b b' (s_thread t ≫= f).
Proof.
  intros Hf s Hs. apply rsafe_bind. unfold s_thread, getso. destruct (sth (sch s) !! t) as [th|] eqn:E; [|done].
  cbn. apply Hf; [|done]. destruct Hs as ([(W&_) _]&_). by apply (wf_prio _ _ _ W _ _ E).
Qed.

Lemma safe_rd_mutex_bind b b' {B} a (f : mutex -> K B) :
  (forall m, 0 <= m_prio m <= MIN_PRIO -> safe b b' (f m)) -> safe b b' (rd mutexes a ≫= f).
Proof.
  intros Hf s Hs. apply rsafe_bind. unfold rd, getso. destruct (mutexes s !! a) as [m|] eqn:E; [|done].
  cbn. apply Hf; [|done]. destruct Hs as (_&[M _]&_). by eapply M.
Qed.

(** ** Scheduler operations *)

Lemma karound_sch s S' : karound s -> sready S' -> karound (s <| sch := S' |>).
Proof. by intros [M _] H. Qed.

Lemma safe_lift_s b f :
  (forall s s', sinv s -> sready s -> f s = Some s' -> sinv s' /\ sready s' /\ cur s' = cur s) -> safe b false (lift_s f).
Proof.
  intros Hf s (I&M&R). unfold lift_s. destruct (f (sch s)) as [S'|] eqn:E; [|done]. cbn.
  destruct (Hf _ _ I (proj2 M) E) as (I'&T'&Hc). split; [|done]. split_and!; [done|by apply karound_sch|done].
Qed.

Definition keeps_run (f : sched -> option sched) : Prop := forall s s',
  sinv s -> f s = Some s' -> sinv s' /\ cur s' = cur s /\ (running s -> running s').
Definition keeps_ready (f : sched -> option sched) : Prop := forall s, sready s -> oready (f s).

Lemma safe_lift_s_run b f : keeps_run f -> keeps_ready f -> safe b b (lift_s f).
Proof.
  intros Hf Ht s (I&M&R). unfold lift_s. destruct (f (sch s)) as [S'|] eqn:E; [|done]. cbn.
  destruct (Hf _ _ I E) as (I'&Hc&HR). pose proof (Ht _ (proj2 M) _ E). split; [|done].
  split_and!; [done|by apply karound_sch|]. intros Hb. by apply HR, R.
Qed.

Lemma safe_lift_sa b {A} (f : sched -> option (A * sched)) :
  (forall s a s', sinv s -> sready s -> f s = Some (a, s') -> sinv s' /\ sready s' /\ cur s' = cur s /\ (running s -> running s')) ->
  safe b b (lift_sa f).
Proof.
  intros Hf s (I&M&R). unfold lift_sa. destruct (f (sch s)) as [[a S']|] eqn:E; [|done]. cbn.
  destruct (Hf _ _ _ I (proj2 M) E) as (I'&T'&Hc&HR). split; [|done]. split_and!; [done|by apply karound_sch|]. intros Hb. by apply HR, R.
Qed.

Lemma frame_running s s' : frame s s' -> running s -> running s'.
Proof.
  intros F (c&E&Hr). destruct (frame_lookup _ _ _ _ F E) as (c'&E'&Ha). destruct F as [Ec _].
  exists c'. rewrite Ec. split; [done|]. destruct c, c'. unfold awake, set in Ha. cbn in *. congruence.
Qed.

Lemma keeps_locks g : keeps_run (fun s => th_upd (cur s) (fun c => c <| th_locks ::= g |>) s).
Proof.
  intros s s' I E. pose proof I as [(_&_&(c&Ec&_)&_) _].
  destruct (sinv_upd s (cur s) (fun c => c <| th_locks ::= g |>) c I Ec) as (s1&E1&I1&Es1); [done|by left|].
  assert (s1 = s') as -> by congruence. split_and!; [done|by subst s'|]. intros (c0&Ec0&Hr). subst s'.
  eexists. split; [apply lookup_insert_eq|]. cbn. congruence.
Qed.

Lemma safe_sched_lock b : safe b b sched_lock.
Proof. apply safe_lift_s_run; [apply keeps_locks|]. intros s H. auto with tready. Qed.

Lemma running_of_best s c : best s -> sth s !! cur s = Some c -> th_resched c = false -> running s.
Proof. intros (c'&E&_&Hb) Ec Hr. exists c. assert (c' = c) as -> by congruence. split; [done|]. destruct Hb as [?|[? _]]; congruence. Qed.

Lemma sinv_of_midway s : midway s -> best s -> sinv s.
Proof. intros [W Ht Hq HT Hc] Hb. by split. Qed.

(** After the loop of sched_unlock() the thread is runnable. *)
Lemma rsafe_resched_loop n s t :
  sinv (sch s) -> karound s -> wakeq (sch s) = [] -> cur (sch s) = t ->
  rsafe t (fun _ s' => kinv true s' /\ cur (sch s') = t) (resched_loop n s).
Proof.
  revert s; induction n as [|n IH]; intros s I M Hw Hc; cbn [resched_loop];
    unfold cur_thread, gets, mbind, K_bind; cbn [rbind]; unfold s_thread, getso;
    destruct (sth (sch s) !! cur (sch s)) as [c|] eqn:E; try done; cbn [rbind];
    destruct (th_resched c) eqn:Hr; try done.
  1, 3: split; [|done]; split_and!; [done..|]; intros _; eapply running_of_best; [apply I|done|done].
  assert (forall s1, ready s1 -> cur (sch s1) = t ->
    rsafe t (fun _ s' => kinv true s' /\ cur (sch s') = t) (rbind (lift_s wakeq_flush s1) (fun _ => resched_loop n))) as Hnext.
  { intros s1 [[I1 Hw1 _] M1] Hc1. unfold lift_s.
    destruct (midway_flush (sch s1) (sinv_midway _ I1)) as (S2&E2&M2&Hw2&Hc2&Hb2). rewrite E2. cbn [rbind].
    apply IH; try done; cbn; [| |congruence].
    - apply sinv_of_midway; [done|]. apply Hb2. apply I1.
    - apply karound_sch; [done|]. by apply (oready_wakeq_flush _ (proj2 M1)). }
  unfold sched_switch. destruct (sched_switch_sel (sch s)) as [S'|] eqn:Es; [|done].
  pose proof (switch_ready _ _ (sinv_midway _ I) Hw Es) as Hrd.
  assert (ready (s <| sch := S' |>)) as HR by (split; [done|]; apply karound_sch; [done|]; by apply (oready_switch_sel _ (proj2 M))).
  destruct (Z.eqb_spec (cur S') (cur (sch s))) as [Heq|Hne]; cbn [rbind].
  - apply Hnext; [done|]. cbn. congruence.
  - split; [done|]. intros s' Hs' Hc'. cbn [rbind]. by apply Hnext.
Qed.

Lemma safe_sched_unlock b : safe b b sched_unlock.
Proof.
  intros s (I&M&R). unfold sched_unlock, cur_thread, gets, mbind, K_bind. cbn [rbind]. unfold s_thread, getso.
  destruct (sth (sch s) !! cur (sch s)) as [c|] eqn:E; [|done]. cbn [rbind].
  assert (forall b s1, kinv b s1 -> cur (sch s1) = cur (sch s) ->
    rsafe (cur (sch s)) (fun _ s' => kinv b s' /\ cur (sch s') = cur (sch s))
      (lift_s (fun s => th_upd (cur s) (fun c => c <| th_locks ::= Z.pred |>) s) s1)) as Hlast.
  { intros b1 s1 Hs1 Hc1. rewrite <- Hc1. apply (safe_lift_s_run b1); [apply keeps_locks| |done]. intros S0 H0. auto with tready. }
  destruct (th_locks c =? 1); [|cbn [rbind]; by apply Hlast].
  apply rsafe_bind. cbv beta. unfold lift_s at 2. destruct (midway_flush (sch s) (sinv_midway _ I)) as (S1&E1&M1&Hw1&Hc1&Hb1).
  rewrite E1. cbn [rbind]. eapply rsafe_mono; [|apply rsafe_resched_loop; cbn; try done].
  - intros _ s' [Hk Hc']. eapply rsafe_mono; [|by apply (Hlast true)]. cbn. intros _ s2 [(?&?&Hrun) ?].
    split; [|done]. split_and!; [done..|by auto].
  - apply sinv_of_midway; [done|]. apply Hb1, I.
  - apply karound_sch; [done|]. by apply (oready_wakeq_flush _ (proj2 M)).
Qed.

(** ** Sleeping *)

Lemma rsafe_lift_s t (Q : unit -> kst -> Prop) f s S' :
  f (sch s) = Some S' -> Q tt (s <| sch := S' |>) -> rsafe t Q (lift_s f s).
Proof. intros E H. unfold lift_s. by rewrite E. Qed.

Lemma safe_sched_tsleep b e msec : timeout_fits msec -> safe b true (sched_tsleep e msec).
Proof.
  intros Hf. unfold sched_tsleep. eapply (safe_bind _ b); [apply safe_sched_lock|intros _].
  intros s (I&M&R). destruct (sleep_enter_ok (sch s) e msec I Hf) as (S1&E1&M1&Hc1).
  destruct (midway_flush S1 M1) as (S2&E2&M2&Hw2&Hc2&_).
  apply rsafe_bind. eapply rsafe_lift_s; [exact E1|]. apply rsafe_bind. eapply rsafe_lift_s; [exact E2|].
  apply rsafe_bind. unfold sched_switch. change (sch (s <| sch := S1 |> <| sch := S2 |>)) with S2.
  destruct (sched_switch_sel S2) as [S3|] eqn:E3; [|done]. pose proof (switch_ready _ _ M2 Hw2 E3) as Hrd.
  assert (ready (s <| sch := S1 |> <| sch := S2 |> <| sch := S3 |>)) as HR.
  { split; [done|]. apply (karound_sch s); [done|]. apply (oready_switch_sel S2); [|done]. apply (oready_wakeq_flush S1); [|done].
    by apply (oready_sleep_enter e msec (sch s) Hf (proj2 M)). }
  assert (forall s1, ready s1 -> cur (sch s1) = cur (sch s) ->
    rsafe (cur (sch s)) (fun _ s' => kinv true s' /\ cur (sch s') = cur (sch s))
      ((sched_unlock;; t ← cur_thread; c ← s_thread t; mret (th_slpret c)) s1)) as Hnext.
  { intros s1 Hs1 Hc. rewrite <- Hc. apply (safe_bind true true true); [apply safe_sched_unlock| |by apply ready_kinv].
    intros _. eapply (safe_bind _ true); [apply safe_gets|intros t]. eapply (safe_bind _ true); [apply safe_getso|intros c].
    apply safe_ret. }
  destruct (cur S3 =? cur S2) eqn:Hcc; cbn [rsafe].
  - apply Hnext; [done|]. cbn. apply Z.eqb_eq in Hcc. congruence.
  - split; [done|]. intros s' Hs' Hc'. by apply Hnext.
Qed.

Lemma timeout_fits_0 : timeout_fits 0.
Proof. reflexivity. Qed.

Lemma safe_sched_sleep b e : safe b true (sched_sleep e).
Proof. apply safe_sched_tsleep, timeout_fits_0. Qed.

(** ** Wakeups *)

Lemma keeps_frame f :
  (forall s s', sinv s -> f s = Some s' -> sinv s' /\ frame s s') -> keeps_run f.
Proof.
  intros H s s' I E. destruct (H s s' I E) as [I' F]. split_and!; [done|by destruct F|]. by apply frame_running.
Qed.

Lemma safe_bracket b {A} (m : K A) : safe b b m -> safe b b (sched_lock;; m).
Proof. intros H. eapply safe_bind; [apply safe_sched_lock|by intros _]. Qed.

Lemma wakeone_keeps e s o s' :
  sinv s -> sched_wakeone_body e s = Some (o, s') -> sinv s' /\ frame s s'.
Proof.
  intros I E. destruct (sched_wakeone_ok e s I) as [[_ E']|(t&l1&l2&th&s1&_&Et&_&_&E'&[])].
  - assert (s' = s) as -> by congruence. by split_and!.
  - assert (s1 = s') as -> by congruence. split; [done|]. split; [done|]. intros x. rewrite wk_sth.
    destruct (decide (x = t)) as [->|?]; [by rewrite lookup_insert_eq, Et|by rewrite lookup_insert_ne].
Qed.

Lemma unsleep_keeps t r s s' : sinv s -> sched_unsleep_body t r s = Some s' -> sinv s' /\ frame s s'.
Proof.
  intros I. unfold sched_unsleep_body. destruct (sth s !! t) as [th|] eqn:E; [|done]. cbn [mbind option_bind].
  fold (sleeping th). destruct (sleeping th) eqn:Hs; [|by intros [= <-]].
  destruct (unlink t s) as [s1|] eqn:E1; [|done]. apply unlink_Some in E1 as [_ ->]. cbn [mbind option_bind]. intros E2.
  destruct (wake_sleeping_ok s t th r I E Hs) as (s3&E3&I3&F3&_). assert (s3 = s') as <- by congruence. done.
Qed.

Lemma safe_sched_wakeup b e : safe b b (sched_wakeup e).
Proof.
  apply safe_bracket. eapply safe_bind; [|intros _; apply safe_sched_unlock]. apply safe_lift_s_run; [apply keeps_frame|by intros ?; auto with tready].
  intros s s' I E. destruct (wakeup_loop_ok e s I) as (s1&E1&I1&F1&_). assert (s1 = s') as <- by (unfold sched_wakeup_body in E; congruence). done.
Qed.

Lemma safe_sched_wakeone b e : safe b b (sched_wakeone e).
Proof.
  apply safe_bracket. eapply safe_bind; [apply safe_lift_sa|intros o].
  - intros s o s' I TR E. destruct (wakeone_keeps _ _ _ _ I E) as [I' F]. split_and!; [done|by eapply ready_wakeone|by destruct F|by apply frame_running].
  - eapply safe_bind; [apply safe_sched_unlock|intros _; apply safe_ret].
Qed.

Lemma safe_sched_unsleep b t r : safe b b (sched_unsleep t r).
Proof.
  apply safe_bracket. eapply safe_bind; [|intros _; apply safe_sched_unlock]. apply safe_lift_s_run; [apply keeps_frame|by intros ?; auto with tready].
  apply unsleep_keeps.
Qed.

Lemma safe_sched_yield b : safe b b sched_yield.
Proof.
  apply safe_bracket. eapply safe_bind; [|intros _; apply safe_sched_unlock]. apply safe_lift_s_run; [|by intros ?; auto with tready].
  intros s s' I. unfold sched_yield_body. destruct (sth s !! cur s) as [c|] eqn:E; [|done]. cbn [mbind option_bind].
  destruct (rq s (th_prio c)) as [|x l]; [by intros [= <-]|]. intros E'.
  destruct (sinv_upd s (cur s) (fun th => th <| th_resched := true |>) c I E) as (s1&E1&I1&Es1); [done|by right|].
  assert (s1 = s') as -> by congruence. split_and!; [done|by subst s'|]. intros (c0&Ec0&Hr). subst s'.
  eexists. split; [apply lookup_insert_eq|]. cbn. congruence.
Qed.

Lemma safe_sched_suspend b t : safe b false (lift_s (sched_suspend t)).
Proof.
  apply safe_lift_s. intros s s' I TR E.
  destruct (sth s !! t) as [th|] eqn:Et; [|unfold sched_suspend in E; by rewrite Et in E].
  destruct (sched_suspend_ok s t th I Et) as (s1&th1&E1&I1&Hc1&_). assert (s1 = s') as <- by congruence.
  split_and!; [done|by eapply oready_suspend|done].
Qed.

Lemma safe_sched_setprio b t base p :
  0 <= base <= MIN_PRIO -> 0 <= p <= MIN_PRIO -> safe b false (lift_s (sched_setprio t base p)).
Proof.
  intros Hb Hp. apply safe_lift_s. intros s s' I TR E.
  destruct (sth s !! t) as [th|] eqn:Et; [|unfold sched_setprio, th_upd in E; by rewrite Et in E].
  destruct (sched_setprio_ok s t th base p I Et Hb Hp) as (s1&E1&I1&Hc1). assert (s1 = s') as <- by congruence.
  split_and!; [done|by eapply oready_setprio|done].
Qed.

Lemma safe_sched_stop b t : safe b false (lift_s (sched_stop t)).
Proof.
  apply safe_lift_s. intros s s' I TR E.
  destruct (sth s !! t) as [th|] eqn:Et; [|unfold sched_stop in E; by rewrite Et in E].
  destruct (sched_stop_ok s t th I Et) as (s1&th1&E1&I1&Hc1&_). assert (s1 = s') as <- by congruence.
  split_and!; [done|by eapply oready_stop|done].
Qed.

(** Only with the current thread runnable: resuming a thread must not queue
    the one that is running. *)
Lemma safe_sched_resume t : safe true true (lift_s (sched_resume t)).
Proof.
  intros s (I&M&R). destruct (R eq_refl) as (c&Ec&Hr). unfold lift_s.
  destruct (sched_resume t (sch s)) as [S'|] eqn:E; [|done]. cbn.
  destruct (sth (sch s) !! t) as [th|] eqn:Et; [|unfold sched_resume in E; by rewrite Et in E].
  destruct (decide (t = cur (sch s))) as [->|Hne].
  - unfold sched_resume in E. rewrite Et in E. cbn [mbind option_bind] in E. assert (th = c) as -> by congruence.
    rewrite Hr in E. cbn in E. injection E as <-. by split_and!.
  - destruct (sched_resume_ok (sch s) t th I Et Hne) as (S1&E1&I1&Hc1&HR1&_). assert (S1 = S') as -> by congruence.
    split; [|done]. split_and!; [done| |]; [|intros _; apply HR1; by exists c].
    apply karound_sch; [done|]. by apply (oready_resume t _ (proj2 M)).
Qed.
End KernelInv.
