(* ===== verification/Exec.v ===== *)
(** * Exec: running kernel code symbolically

    The rules of KernelInv.v say what every run keeps; the lemmas here say what
    a run does.  A system call that does not touch the scheduler runs between
    sched_lock() and sched_unlock() and comes back to the caller with the
    scheduler as it was ([unlock_calm]); the primitives of Kernel.v are
    evaluated to the pure functions [user_word], [task_caps], ... *)
From stdpp Require Import base numbers strings gmap list.
From S2P Require Import Prelude Core Timer Sched SchedInv SchedOps SchedSleep Kernel KernelInv.

Open Scope Z_scope.

Section Exec.
Context {KM : KMem}.

Lemma bind_done {A B} (m : K A) (f : A -> K B) s a s' : m s = Done a s' -> (m ≫= f) s = f a s'.
Proof. intros E. unfold mbind, K_bind. by rewrite E. Qed.
Lemma bind_fault {A B} (m : K A) (f : A -> K B) s : m s = Fault -> (m ≫= f) s = Fault.
Proof. intros E. unfold mbind, K_bind. by rewrite E. Qed.
Lemma bind_switch {A B} (m : K A) (f : A -> K B) s s' k :
  m s = Switch s' k -> (m ≫= f) s = Switch s' (fun s2 => rbind (k s2) f).
Proof. intros E. unfold mbind, K_bind. by rewrite E. Qed.

Lemma bind_eq {A B} (m m' : K A) (f : A -> K B) s s' : m s = m' s' -> (m ≫= f) s = (m' ≫= f) s'.
Proof. intros E. unfold mbind, K_bind. by rewrite E. Qed.

(** Two states are equal if their fields are. *)
Lemma kst_ext s s' :
  sch s = sch s' -> thr s = thr s' -> tasks s = tasks s' -> sems s = sems s' -> mutexes s = mutexes s' -> conds s = conds s' ->
  objs s = objs s' -> obj_table s = obj_table s' -> task_list s = task_list s' -> kern_task s = kern_task s' ->
  zombie s = zombie s' -> umem s = umem s' -> heap s = heap s' -> s = s'.
Proof. destruct s, s'; cbn. intros. by subst. Qed.

(** ** The context of a system call *)

(** The current thread [th] with scheduling part [c], in task [tk], outside the
    kernel: no lock held, no reschedule pending, nobody waiting to be
    queued. *)
Record calm (s : kst) (c : sthread) (th : thread) (tk : task) : Prop := {
  cm_sth : sth (sch s) !! cur (sch s) = Some c;
  cm_locks : th_locks c = 0;
  cm_resched : th_resched c = false;
  cm_wakeq : wakeq (sch s) = [];
  cm_thr : thr s !! cur (sch s) = Some th;
  cm_task : tasks s !! th_task th = Some tk;
}.

(** The same inside the kernel, with any lock count. *)
Record within (s : kst) (th : thread) (tk : task) : Prop := {
  wi_thr : thr s !! cur (sch s) = Some th;
  wi_task : tasks s !! th_task th = Some tk;
}.
Lemma calm_within s c th tk : calm s c th tk -> within s th tk.
Proof. by intros []. Qed.

(** The scheduler after sched_lock(). *)
Definition locked (c : sthread) (S : sched) : sched := S <| sth ::= <[cur S := c <| th_locks ::= Z.succ |>]> |>.
Definition lock_of (c : sthread) (s : kst) : kst := s <| sch ::= locked c |>.

Lemma sched_lock_eval s c : sth (sch s) !! cur (sch s) = Some c -> sched_lock s = Done tt (lock_of c s).
Proof. intros E. unfold sched_lock, lift_s, th_upd. by rewrite E. Qed.

Lemma within_lock s c th tk : within s th tk -> within (lock_of c s) th tk.
Proof. by intros []. Qed.

Lemma unlock_locked c S : sth S !! cur S = Some c -> locked c S <| sth ::= <[cur S := c]> |> = S.
Proof.
  destruct S as [h r w q t cc T]; cbn. intros Ec. unfold locked, set; cbn. f_equal.
  rewrite insert_insert_eq. by apply insert_id.
Qed.

(** sched_unlock() when nothing happened to the scheduler since the lock was
    taken: the state is the one before the call, with what was done to it. *)
Lemma unlock_calm s s' c :
  sth (sch s) !! cur (sch s) = Some c -> th_locks c = 0 -> th_resched c = false -> wakeq (sch s) = [] ->
  sch s' = locked c (sch s) -> sched_unlock s' = Done tt (s' <| sch := sch s |>).
Proof.
  intros Ec Hl Hr Hw Es. set (c1 := c <| th_locks ::= Z.succ |>).
  assert (sth (locked c (sch s)) !! cur (sch s) = Some c1) as El by apply lookup_insert_eq.
  assert (s_thread (cur (sch s)) s' = Done c1 s') as E1 by (unfold s_thread, getso; by rewrite Es, El).
  assert (cur_thread s' = Done (cur (sch s)) s') as E0 by (unfold cur_thread, gets; by rewrite Es).
  assert (lift_s wakeq_flush s' = Done tt s') as E2.
  { unfold lift_s, wakeq_flush. rewrite Es. change (wakeq (locked c (sch s))) with (wakeq (sch s)). rewrite Hw.
    cbn [length wakeq_flush_loop]. change (wakeq (locked c (sch s))) with (wakeq (sch s)). rewrite Hw, <- Es. by destruct s'. }
  unfold sched_unlock. rewrite (bind_done _ _ _ _ _ E0), (bind_done _ _ _ _ _ E1).
  change (th_locks c1) with (Z.succ (th_locks c)). rewrite Hl. change (Z.succ 0 =? 1) with true. cbv iota.
  erewrite bind_done with (s' := s').
  2:{ rewrite (bind_done _ _ _ _ _ E2). cbn [RESCHED_ROUNDS resched_loop].
      rewrite (bind_done _ _ _ _ _ E0), (bind_done _ _ _ _ _ E1). change (th_resched c1) with (th_resched c). by rewrite Hr. }
  unfold lift_s, th_upd. rewrite Es. change (cur (locked c (sch s))) with (cur (sch s)).
  rewrite El. cbn [mbind option_bind].
  assert (c1 <| th_locks ::= Z.pred |> = c) as -> by (subst c1; destruct c; cbn in *; by rewrite Hl).
  by rewrite unlock_locked.
Qed.

Lemma calm_unlock s s' c th tk :
  calm s c th tk -> sch s' = locked c (sch s) -> sched_unlock s' = Done tt (s' <| sch := sch s |>).
Proof. intros []. by apply unlock_calm. Qed.

(** The two ends of a system call. *)
Lemma enter_call {A} s c th tk (f : unit -> K A) : calm s c th tk -> (sched_lock ≫= f) s = f tt (lock_of c s).
Proof. intros []. by rewrite (bind_done _ _ _ _ _ (sched_lock_eval _ _ cm_sth0)). Qed.
Lemma leave_call {A} s s' c th tk (f : unit -> K A) :
  calm s c th tk -> sch s' = locked c (sch s) -> (sched_unlock ≫= f) s' = f tt (s' <| sch := sch s |>).
Proof. intros H E. by rewrite (bind_done _ _ _ _ _ (calm_unlock _ _ _ _ _ H E)). Qed.
Lemma leave_with {A} s s1 s' s2 c th tk (m : K A) a :
  calm s c th tk -> m s1 = Done a s' -> sch s' = locked c (sch s) -> s' <| sch := sch s |> = s2 ->
  (err ← m; sched_unlock;; mret err) s1 = Done a s2.
Proof. intros H E Es <-. rewrite (bind_done _ _ _ _ _ E). by rewrite (leave_call s s' c th tk). Qed.
Lemma within_call s c th tk : calm s c th tk -> within (lock_of c s) th tk.
Proof. intros H. apply within_lock. by eapply calm_within. Qed.
Lemma reset_sch s s' c : s' = lock_of c s -> s' <| sch := sch s |> = s.
Proof. intros ->. by destruct s. Qed.

(** ** The primitives *)

Lemma cur_task_eval s th tk : within s th tk -> cur_task s = Done (th_task th) s.
Proof. intros [Et _]. unfold cur_task, cur_thread, gets, rd, getso, mbind, K_bind. cbn [rbind]. by rewrite Et. Qed.

Lemma rd_eval {X} (m : kst -> gmap Z X) s a x : m s !! a = Some x -> rd m a s = Done x s.
Proof. intros E. unfold rd, getso. by rewrite E. Qed.

Lemma upd_thr_run t f s x : thr s !! t = Some x -> upd_thr t f s = Done tt (s <| thr ::= <[t := f x]> |>).
Proof. intros E. unfold upd_thr. by rewrite (bind_done _ _ _ _ _ (rd_eval thr s t x E)). Qed.

Lemma cur_map_eval s th tk : within s th tk -> cur_map s = Done (tk_map tk) s.
Proof.
  intros H. unfold cur_map. rewrite (bind_done _ _ _ _ _ (cur_task_eval _ _ _ H)).
  destruct H. by rewrite (bind_done _ _ _ _ _ (rd_eval _ _ _ _ wi_task0)).
Qed.

Lemma task_capable_eval s th tk cap : within s th tk -> task_capable cap s = Done (flag (tk_capability tk) cap) s.
Proof.
  intros H. unfold task_capable. rewrite (bind_done _ _ _ _ _ (cur_task_eval _ _ _ H)).
  destruct H. by rewrite (bind_done _ _ _ _ _ (rd_eval _ _ _ _ wi_task0)).
Qed.

(** The word at a user address of the address space [m]. *)
Definition user_word (M : gmap (Z * Z) Z) (m a : Z) : option Z :=
  if umem_ok a 4 then word_of_bytes <$> uread M m a 4 else None.

Lemma copyin_word_eval s th tk a : within s th tk -> copyin_word a s = Done (user_word (umem s) (tk_map tk) a) s.
Proof.
  intros H. unfold copyin_word, umem_copyin, mbind, K_bind. rewrite (cur_map_eval _ _ _ H). cbn [rbind gets].
  unfold user_word. change (Z.of_nat 4) with 4. by destruct (umem_ok a 4).
Qed.

(** What copyout_word() does to user memory. *)
Definition write_word (M : gmap (Z * Z) Z) (m a w : Z) : bool * gmap (Z * Z) Z :=
  if umem_ok a 4 then uwrite M m a (bytes_of_word w) else (false, M).

Lemma copyout_word_eval s th tk a w : within s th tk ->
  copyout_word a w s = Done (write_word (umem s) (tk_map tk) a w).1 (s <| umem := (write_word (umem s) (tk_map tk) a w).2 |>).
Proof.
  intros H. unfold copyout_word, umem_copyout, mbind, K_bind. rewrite (cur_map_eval _ _ _ H). cbn [rbind].
  change (Z.of_nat (length (bytes_of_word w))) with 4. unfold write_word. destruct (umem_ok a 4); [|by destruct s].
  by destruct (uwrite _ _ _ _).
Qed.
End Exec.

(** Equality of states that differ by repeated updates of a map. *)
Ltac kst_eq := apply kst_ext; solve [reflexivity | exact (insert_insert_eq _ _ _ _)].
