(* ===== verification/Block.v ===== *)
(** * Block: giving up the CPU

    What sched_unlock() and sched_tsleep() do at a context switch: the caller of
    sched_tsleep() is queued on its event and the best runnable thread is
    dispatched; when the caller runs again the call returns the result left by
    whoever woke it.  A thread woken under the scheduler lock preempts the
    current one at sched_unlock() exactly if its priority is better. *)
From stdpp Require Import base numbers strings gmap list.
From S2P Require Import Prelude Core Timer Sched SchedInv SchedOps SchedSleep Kernel KernelInv Exec.

Open Scope Z_scope.

Section Block.
Context {KM : KMem}.

Definition relock (f : Z -> Z) (c : sthread) (S : sched) : sched := S <| sth ::= <[cur S := c <| th_locks ::= f |>]> |>.

Lemma s_thread_eval s t th : sth (sch s) !! t = Some th -> s_thread t s = Done th s.
Proof. intros E. unfold s_thread, getso. by rewrite E. Qed.

Lemma flush_nil s : wakeq (sch s) = [] -> lift_s wakeq_flush s = Done tt s.
Proof. intros Hw. unfold lift_s, wakeq_flush. rewrite Hw. cbn [length wakeq_flush_loop]. rewrite Hw. by destruct s. Qed.

Lemma lock_adjust f s c :
  sth (sch s) !! cur (sch s) = Some c ->
  lift_s (fun s => th_upd (cur s) (fun c => c <| th_locks ::= f |>) s) s = Done tt (s <| sch ::= relock f c |>).
Proof. intros E. unfold lift_s, th_upd. by rewrite E. Qed.

Lemma resched_unmarked n s c :
  sth (sch s) !! cur (sch s) = Some c -> th_resched c = false -> resched_loop n s = Done tt s.
Proof.
  intros Ec Hr. assert (cur_thread s = Done (cur (sch s)) s) as E0 by done.
  destruct n; cbn [resched_loop]; by rewrite (bind_done _ _ _ _ _ E0), (bind_done _ _ _ _ _ (s_thread_eval _ _ _ Ec)), Hr.
Qed.
Lemma resched_marked n s c :
  sth (sch s) !! cur (sch s) = Some c -> th_resched c = true ->
  resched_loop (S n) s = (sched_switch;; lift_s wakeq_flush;; resched_loop n) s.
Proof.
  intros Ec Hr. assert (cur_thread s = Done (cur (sch s)) s) as E0 by done.
  cbn [resched_loop]. by rewrite (bind_done _ _ _ _ _ E0), (bind_done _ _ _ _ _ (s_thread_eval _ _ _ Ec)), Hr.
Qed.

(** The outermost sched_unlock(), once its loop is over. *)
Lemma unlock_outer s c :
  sth (sch s) !! cur (sch s) = Some c -> th_locks c = 1 ->
  sched_unlock s = (m ← (lift_s wakeq_flush;; resched_loop RESCHED_ROUNDS);
                    lift_s (fun s => th_upd (cur s) (fun c => c <| th_locks ::= Z.pred |>) s)) s.
Proof.
  intros Ec Hl. assert (cur_thread s = Done (cur (sch s)) s) as E0 by done.
  unfold sched_unlock. by rewrite (bind_done _ _ _ _ _ E0), (bind_done _ _ _ _ _ (s_thread_eval _ _ _ Ec)), Hl.
Qed.

(** A thread that has just been dispatched leaves a critical section without
    further ado, however deep it is. *)
Lemma unlock_ready s c :
  ready_sched (sch s) -> sth (sch s) !! cur (sch s) = Some c -> sched_unlock s = Done tt (s <| sch ::= relock Z.pred c |>).
Proof.
  intros [_ Hw (c'&Ec'&_&Hr)] Ec. assert (c' = c) as -> by congruence.
  assert (cur_thread s = Done (cur (sch s)) s) as E0 by done. pose proof (s_thread_eval _ _ _ Ec) as E1.
  unfold sched_unlock. rewrite (bind_done _ _ _ _ _ E0), (bind_done _ _ _ _ _ E1).
  rewrite (bind_done _ _ _ tt s); [by apply lock_adjust|]. destruct (th_locks c =? 1); [|done].
  rewrite (bind_done _ _ _ _ _ (flush_nil _ Hw)). by apply (resched_unmarked _ _ c).
Qed.

(** ** Sleeping *)

Definition asleep (e : evt) (th : sthread) : sthread :=
  th <| th_slpevt := Some e |> <| th_state ::= fun st => Z.lor st TH_SLEEP |>.

Lemma sleep_enter_eval s c e msec :
  sinv s -> timeout_fits msec -> sth s !! cur s = Some c ->
  exists T, sleep_enter e msec s =
    Some (s <| sth ::= <[cur s := asleep e c]> |> <| sleepq ::= <[e := sq s e ++ [cur s]]> |> <| tms := T |>) /\
    (msec = 0 -> T = tms s).
Proof.
  intros I Hf Ec. destruct (sleep_enter_ok s e msec I Hf) as (s'&E&_&_). revert E. unfold sleep_enter.
  change (th_upd (cur s) _ s) with (th_upd (cur s) (asleep e) s). rewrite (th_upd_ok _ _ (asleep e) _ Ec). cbn [mbind option_bind]. unfold sleepq_tail. destruct (link_free _ _); [|done].
  cbn [mbind option_bind]. destruct (Z.eqb_spec msec 0) as [->|Hne]; cbn [negb].
  - intros _. exists (tms s). split; [|done]. by destruct s.
  - match goal with |- context [timer_callout ?a ?b ?c ?d] => destruct (timer_callout a b c d) as [T|] end; [|done].
    cbn [mbind option_bind]. intros [= <-]. by exists T.
Qed.

(** The state after the caller has been queued and another thread dispatched. *)
Record blocked (s : sched) (c : sthread) (e : evt) (s' : sched) : Prop := {
  bl_ready : ready_sched s';
  bl_other : cur s' <> cur s;
  bl_caller : sth s' !! cur s = Some (calmed (asleep e c));
  bl_others : forall x, x <> cur s -> calmed <$> sth s' !! x = calmed <$> sth s !! x;
  bl_queue : sq s' e = sq s e ++ [cur s];
  bl_queues : forall e', e' <> e -> sq s' e' = sq s e';
  bl_best : exists n, sth s' !! cur s' = Some n /\
    forall t th, sth s' !! t = Some th -> th_state th = TH_RUN -> th_prio n <= th_prio th;
}.

Lemma sleep_switch s c e msec t0 th0 :
  sinv s -> wakeq s = [] -> timeout_fits msec -> sth s !! cur s = Some c ->
  t0 <> cur s -> sth s !! t0 = Some th0 -> th_state th0 = TH_RUN ->
  exists s1 s2, sleep_enter e msec s = Some s1 /\ wakeq_flush s1 = Some s1 /\ cur s1 = cur s /\
    sched_switch_sel s1 = Some s2 /\ blocked s c e s2.
Proof.
  intros I Hw Hf Ec Hne E0 Hr0. destruct (sleep_enter_ok s e msec I Hf) as (s1&E1&M1&Hc1).
  destruct (sleep_enter_eval s c e msec I Hf Ec) as (T&E1'&_). rewrite E1 in E1'. injection E1' as Es1.
  assert (sth s1 = <[cur s := asleep e c]> (sth s)) as Eth1 by (by rewrite Es1).
  assert (sleepq s1 = <[e := sq s e ++ [cur s]]> (sleepq s)) as Esq1 by (by rewrite Es1).
  assert (wakeq s1 = []) as Hw1 by (by rewrite Es1). clear Es1.
  assert (sth s1 !! cur s1 = Some (asleep e c)) as Ec1 by (rewrite Hc1, Eth1; apply lookup_insert_eq).
  assert (sth s1 !! t0 = Some th0) as E01 by (rewrite Eth1; by rewrite lookup_insert_ne).
  pose proof M1 as [W1 Ht1 Hq1 _ _].
  destruct (sched_switch_ok s1 (asleep e c) t0 th0 W1 Ht1 Hq1 Ec1 E01 Hr0)
    as (s2&n&E2&S2&En&Hrn&Hcn&Hq&_&Hw2&Hs2&_&_&Hcm).
  pose proof (switch_ready _ _ M1 Hw1 E2) as R2.
  assert (sleeping (asleep e c) = true) as Hsl by apply lor_sleep_sleeping.
  assert (th_state (asleep e c) <> TH_RUN) as Hnr by (intros H; apply run_not_sleeping in H; congruence).
  assert (cur s2 <> cur s) as Hne2.
  { intros Hc2. assert (cur s2 ∈ rq s1 (th_prio n)) as Hin.
    { unfold requeued in Hq. rewrite (proj2 (Z.eqb_neq _ _) Hnr) in Hq. cbn in Hq. rewrite Hq. by left. }
    destruct (wf_rq_in _ _ _ W1 _ _ Hin) as (_&_&_&_&_&HR). congruence. }
  exists s1, s2. split_and!; [done| |done|done|].
  { unfold wakeq_flush. rewrite Hw1. cbn. by rewrite Hw1. }
  split; [done|done| | | | |].
  - specialize (Hcm (cur s)). rewrite <- Hc1, Ec1, Hc1 in Hcm. destruct (sth s2 !! cur s) as [c2|] eqn:Ec2; [|done].
    cbn in Hcm. injection Hcm as Hcm. f_equal.
    assert (th_resched c2 = false) as Hr2.
    { apply Bool.not_true_iff_false. intros Hx. destruct S2 as (_&_&_&Hq2). by apply Hne2, eq_sym, (Hq2 _ _ Ec2). }
    destruct c2, c; cbn in *. unfold calmed, asleep, set in *; cbn in *. congruence.
  - intros x Hx. by rewrite Hcm, Eth1, lookup_insert_ne.
  - unfold sq. by rewrite Hs2, Esq1, lookup_insert_eq.
  - intros e' He'. unfold sq. by rewrite Hs2, Esq1, lookup_insert_ne.
  - exists n. split; [done|]. intros t th Et Hrt. by apply (swf_best_prio s2 n t th).
Qed.

(** What sched_tsleep() does: the caller sleeps, another thread runs, and when
    the caller is dispatched again it returns its sleep result. *)
Definition slept (s : kst) (r : res Z) (s1 : kst) (k : kst -> res Z) : Prop :=
  r = Switch s1 k /\
  forall s2 c2, ready_sched (sch s2) -> cur (sch s2) = cur (sch s) -> sth (sch s2) !! cur (sch s2) = Some c2 ->
    k s2 = Done (th_slpret c2) (s2 <| sch ::= relock Z.pred c2 |>).

Lemma tsleep_return s c :
  ready_sched (sch s) -> sth (sch s) !! cur (sch s) = Some c ->
  (sched_unlock;; t ← cur_thread; c ← s_thread t; mret (th_slpret c)) s = Done (th_slpret c) (s <| sch ::= relock Z.pred c |>).
Proof.
  intros R Ec. rewrite (bind_done _ _ _ _ _ (unlock_ready _ _ R Ec)). set (s' := _ <| sch ::= _ |>).
  assert (sth (sch s') !! cur (sch s') = Some (c <| th_locks ::= Z.pred |>)) as E' by apply lookup_insert_eq.
  assert (cur_thread s' = Done (cur (sch s')) s') as E0 by done.
  by rewrite (bind_done _ _ _ _ _ E0), (bind_done _ _ _ _ _ (s_thread_eval _ _ _ E')).
Qed.

Lemma sched_tsleep_ok s c e msec t0 th0 :
  sinv (sch s) -> wakeq (sch s) = [] -> timeout_fits msec -> sth (sch s) !! cur (sch s) = Some c ->
  t0 <> cur (sch s) -> sth (sch s) !! t0 = Some th0 -> th_state th0 = TH_RUN ->
  exists S' k, slept s (sched_tsleep e msec s) (s <| sch := S' |>) k /\
    blocked (sch s) (c <| th_locks ::= Z.succ |>) e S'.
Proof.
  intros I Hw Hf Ec Hne E0 Hr0. unfold sched_tsleep. set (c1 := c <| th_locks ::= Z.succ |>).
  rewrite (bind_done _ _ _ _ _ (sched_lock_eval _ _ Ec)).
  assert (sinv (sch (lock_of c s))) as I1.
  { destruct (keeps_locks Z.succ (sch s) (locked c (sch s)) I) as (?&_&_); [|done]. unfold th_upd. by rewrite Ec. }
  destruct (sleep_switch (sch (lock_of c s)) c1 e msec t0 th0) as (S1&S2&E1&E2&Hc1&E3&B); try done.
  { apply lookup_insert_eq. }
  { cbn. by rewrite lookup_insert_ne. }
  set (s1 := lock_of c s <| sch := S1 |>).
  assert (lift_s (sleep_enter e msec) (lock_of c s) = Done tt s1) as F1 by (unfold lift_s; by rewrite E1).
  assert (lift_s wakeq_flush s1 = Done tt s1) as F2 by (unfold lift_s; cbn [sch s1 set]; by rewrite E2).
  assert (sched_switch s1 = Switch (s <| sch := S2 |>) (fun s' => Done tt s')) as F3.
  { unfold sched_switch. change (sch s1) with S1. rewrite E3, Hc1. destruct B as [_ Hd _ _ _ _ _].
    by rewrite (proj2 (Z.eqb_neq _ _) Hd). }
  rewrite (bind_done _ _ _ _ _ F1), (bind_done _ _ _ _ _ F2), (bind_switch _ _ _ _ _ F3). eexists S2, _. split; [|].
  - split; [reflexivity|]. intros s2 c2 R2 Hc2 Ec2. cbn [rbind]. by apply tsleep_return.
  - destruct B as [B1 B2 B3 B4 B5 B6 B7]. split; try done. intros x Hx. rewrite B4 by done. cbn. by rewrite lookup_insert_ne.
Qed.

(** ** Preemption by a woken thread *)

(** The one thread on the wake queue is moved to its run queue. *)
Lemma flush_one s c t th :
  sinv s -> sth s !! cur s = Some c -> wakeq s = [t] -> sth s !! t = Some th -> th_state (woken th) = TH_RUN ->
  exists s1, wakeq_flush s = Some s1 /\ sinv s1 /\ t <> cur s /\ cur s1 = cur s /\ wakeq s1 = [] /\
    (forall p, rq s1 p = if th_prio th =? p then rq s p ++ [t] else rq s p) /\ (forall e, sq s1 e = sq s e) /\
    sth s1 = mark_resched (th_prio th <? top_prio s) (s <| sth ::= <[t := woken th]> |>).
Proof.
  intros I Ec Hw Et Hr. pose proof I as [(W&Ht&(c'&Ec'&Hs&_)&Hq) HT]. assert (c' = c) as -> by congruence.
  destruct (wf_wq_in _ _ _ W t) as (th'&Et'&Hst&_); [rewrite Hw; by left|]. assert (th' = th) as -> by congruence.
  assert (t <> cur s) as Hne by congruence.
  destruct (wakeq_flush_one_ok s t []) as (s1&th'&E1&_&_&_&F1&Hw1&Eth'&Hs1&Hr1&Hth1); try done.
  assert (th' = th) as -> by congruence. assert (enqueues s t th = true) as He.
  { unfold enqueues. by rewrite (proj2 (Z.eqb_neq _ _) Hne), Hr. }
  rewrite He in Hr1, Hth1. cbn [andb] in Hr1, Hth1.
  assert (wakeq_flush s = Some s1) as Ef.
  { unfold wakeq_flush. rewrite Hw. cbn [length wakeq_flush_loop]. rewrite Hw, E1. cbn [mbind option_bind wakeq_flush_loop]. by rewrite Hw1. }
  destruct (midway_flush s (sinv_midway _ I)) as (s1'&Ef'&M1&_&Hc1&Hb1). assert (s1' = s1) as -> by congruence.
  exists s1. split_and!; try done. apply sinv_of_midway; [done|]. apply Hb1, I.
Qed.

Lemma below_top s p : top_ok s -> 0 <= p < top_prio s -> rq s p = [].
Proof. intros [E] Hp. destruct (runq_top_ok s) as (_&H&_). apply H. by rewrite <- E. Qed.

Definition unmarked (m : gmap tid sthread) : Prop := forall x th, m !! x = Some th -> th_resched th = false.
Lemma calmed_eq m1 m2 : (forall x, calmed <$> m1 !! x = calmed <$> m2 !! x) -> unmarked m1 -> unmarked m2 -> m1 = m2.
Proof.
  intros H U1 U2. apply map_eq. intros x. specialize (H x). specialize (U1 x). specialize (U2 x).
  destruct (m1 !! x) as [a|], (m2 !! x) as [b|]; try done. cbn in H. injection H as H. f_equal.
  specialize (U1 a eq_refl). specialize (U2 b eq_refl). destruct a, b; cbn in *. congruence.
Qed.

(** What the reschedule after such a move selects, when the woken thread has a
    better priority than every queued one. *)
Lemma switch_woken s s1 c t th :
  sinv s -> sth s !! cur s = Some c -> th_resched c = false -> sth s !! t = Some th -> th_state (woken th) = TH_RUN ->
  th_prio th < top_prio s -> sinv s1 -> t <> cur s -> cur s1 = cur s -> wakeq s1 = [] ->
  (forall p, rq s1 p = if th_prio th =? p then rq s p ++ [t] else rq s p) -> (forall e, sq s1 e = sq s e) ->
  sth s1 = mark_resched true (s <| sth ::= <[t := woken th]> |>) ->
  exists s2, sched_switch_sel s1 = Some s2 /\ ready_sched s2 /\
    cur s2 = (if th_prio th <=? th_prio c then t else cur s) /\ (forall e, sq s2 e = sq s e) /\
    sth s2 = <[t := woken th]> (sth s) /\
    (th_prio c < th_prio th -> rq s2 (th_prio th) = [t]).
Proof.
  intros I Ec Hrc Et Hrt Hlt I1 Hne Hc1 Hw1 Hr1 Hs1 Hth1.
  pose proof I as [(W&Ht&(c'&Ec'&_&Hb)&Hq) HT]. assert (c' = c) as -> by congruence.
  destruct Hb as [?|[HrunC Hle]]; [congruence|].
  pose proof (wf_prio _ _ _ W _ _ Et) as [Hpt _]. pose proof (wf_prio _ _ _ W _ _ Ec) as [Hpc _].
  assert (sth s1 !! cur s1 = Some (c <| th_resched := true |>)) as Ec1.
  { rewrite Hth1, Hc1. cbn. by rewrite lookup_alter_eq, lookup_insert_ne, Ec by done. }
  assert (sth s1 !! t = Some (woken th)) as Et1.
  { rewrite Hth1. cbn. rewrite lookup_alter_ne by done. apply lookup_insert_eq. }
  pose proof I1 as [(W1&Ht1&_&Hq1) _].
  assert (top_prio s1 = th_prio th) as Htop1.
  { rewrite (top_eq _ Ht1). apply runq_top_unique; [done| |].
    - intros q Hq'. rewrite Hr1. destruct (Z.eqb_spec (th_prio th) q); [lia|]. apply below_top; [done|lia].
    - intros _. rewrite Hr1, Z.eqb_refl. by destruct (rq s (th_prio th)). }
  destruct (sched_switch_ok s1 _ t (woken th) W1 Ht1 Hq1 Ec1 Et1 Hrt) as (s2&n&E2&S2&En&Hrn&Hcn&Hqn&Hqo&_&Hs2&_&_&Hcm).
  pose proof (switch_ready _ _ (sinv_midway _ I1) Hw1 E2) as R2. exists s2. split; [done|]. split; [done|].
  assert (forall x th', sth s2 !! x = Some th' -> th_resched th' = false) as Hq2.
  { intros x th' E'. apply Bool.not_true_iff_false. intros Hx. destruct S2 as (_&_&_&Hq2).
    rewrite (Hq2 _ _ E' Hx) in E'. congruence. }
  assert (sth s2 = <[t := woken th]> (sth s)) as Hth2.
  { apply calmed_eq; [|done|].
    - intros x. by rewrite Hcm, Hth1, mark_resched_calmed.
    - intros x th'. rewrite lookup_insert_Some. intros [[<- <-]|[_ E']];
        apply Bool.not_true_iff_false; intros Hx; [by apply Hne, (Hq t th)|]. pose proof (Hq _ _ E' Hx) as ->. congruence. }
  assert (forall x th', sth s2 !! x = Some th' -> th_state th' = TH_RUN -> th_prio n <= th_prio th') as Hbest.
  { intros x th' Ex Hx. by apply (swf_best_prio s2 n x th'). }
  assert (th_prio n <= th_prio th) as Hn1.
  { apply (Hbest t (woken th)); [|done]. rewrite Hth2. apply lookup_insert_eq. }
  assert (th_prio n <= th_prio c) as Hn2.
  { apply (Hbest (cur s) c); [|done]. by rewrite Hth2, lookup_insert_ne. }
  assert (0 <= th_prio n) as Hn0 by (destruct S2 as (W2&_); by apply (wf_prio _ _ _ W2 _ _ En)).
  assert (forall p, requeued s1 (c <| th_resched := true |>) p =
    if th_prio c =? p then if th_prio th <? th_prio c then cur s :: rq s1 p else rq s1 p ++ [cur s] else rq s1 p) as Hreq.
  { intros p. unfold requeued. rewrite Htop1, Hc1. cbn [th_state th_prio set]. by rewrite HrunC. }
  rewrite Hreq in Hqn.
  assert (rq s (th_prio n) = []) as En0 by (apply below_top; [done|lia]).
  rewrite Hr1, En0 in Hqn.
  split_and!.
  - destruct (Z.leb_spec (th_prio th) (th_prio c)); destruct (Z.eqb_spec (th_prio c) (th_prio n));
      destruct (Z.eqb_spec (th_prio th) (th_prio n)); destruct (Z.ltb_spec (th_prio th) (th_prio c)); try lia; cbn in Hqn; congruence.
  - intros e. rewrite <- Hs1. unfold sq. by rewrite Hs2.
  - done.
  - intros Hlt2. assert (th_prio n <> th_prio th) as Hnt.
    { intros Heq. lia. }
    rewrite Hqo, Hreq, Hr1, Z.eqb_refl by done. destruct (Z.eqb_spec (th_prio c) (th_prio th)); [lia|].
    rewrite below_top by (try done; lia). done.
Qed.

Definition preempts (s : sched) (c th : sthread) : bool := (th_prio th <=? th_prio c) && (th_prio th <? top_prio s).

(** The end of a critical section that made [S1] of the scheduler and left the
    current thread unmarked. *)
Lemma unlock_stays s S1 c :
  sth (sch s) !! cur (sch s) = Some c -> th_locks c = 1 -> wakeq_flush (sch s) = Some S1 -> cur S1 = cur (sch s) ->
  sth S1 !! cur (sch s) = Some c -> th_resched c = false ->
  sched_unlock s = Done tt (s <| sch := relock Z.pred c S1 |>).
Proof.
  intros Ec Hl E1 Hc1 Ec1 Hr. rewrite (unlock_outer _ _ Ec Hl). set (s1 := s <| sch := S1 |>).
  assert (lift_s wakeq_flush s = Done tt s1) as F1 by (unfold lift_s; by rewrite E1).
  assert (sth (sch s1) !! cur (sch s1) = Some c) as Ecs by (cbn [sch s1 set]; by rewrite Hc1).
  rewrite (bind_done _ _ _ tt s1); [by rewrite (lock_adjust Z.pred s1 c)|].
  rewrite (bind_done _ _ _ _ _ F1). by apply (resched_unmarked _ _ c).
Qed.

(** The same when the current thread is marked and the switch comes back to it. *)
Lemma unlock_returns s S1 S2 c :
  sth (sch s) !! cur (sch s) = Some c -> th_locks c = 1 -> wakeq_flush (sch s) = Some S1 -> cur S1 = cur (sch s) ->
  sth S1 !! cur (sch s) = Some (c <| th_resched := true |>) -> sched_switch_sel S1 = Some S2 -> cur S2 = cur (sch s) ->
  wakeq S2 = [] -> sth S2 !! cur (sch s) = Some c -> th_resched c = false ->
  sched_unlock s = Done tt (s <| sch := relock Z.pred c S2 |>).
Proof.
  intros Ec Hl E1 Hc1 Ec1 E2 Hc2 Hw2 Ec2 Hr. rewrite (unlock_outer _ _ Ec Hl).
  set (s1 := s <| sch := S1 |>). set (s2 := s <| sch := S2 |>).
  assert (lift_s wakeq_flush s = Done tt s1) as F1 by (unfold lift_s; by rewrite E1).
  assert (sched_switch s1 = Done tt s2) as F2.
  { unfold sched_switch. cbn [sch s1 set]. by rewrite E2, Hc1, Hc2, Z.eqb_refl. }
  assert (sth (sch s2) !! cur (sch s2) = Some c) as Ecs by (cbn [sch s2 set]; by rewrite Hc2).
  rewrite (bind_done _ _ _ tt s2); [by rewrite (lock_adjust Z.pred s2 c)|].
  rewrite (bind_done _ _ _ _ _ F1). unfold RESCHED_ROUNDS.
  rewrite (resched_marked _ s1 (c <| th_resched := true |>)) by (cbn [sch s1 set]; by rewrite ?Hc1).
  rewrite (bind_done _ _ _ _ _ F2), (bind_done _ _ _ _ _ (flush_nil s2 Hw2)). by apply (resched_unmarked _ _ c).
Qed.

(** The same when another thread is dispatched. *)
Lemma unlock_switches s S1 S2 c :
  sth (sch s) !! cur (sch s) = Some c -> th_locks c = 1 -> wakeq_flush (sch s) = Some S1 -> cur S1 = cur (sch s) ->
  sth S1 !! cur (sch s) = Some (c <| th_resched := true |>) -> sched_switch_sel S1 = Some S2 -> cur S2 <> cur (sch s) ->
  exists k, sched_unlock s = Switch (s <| sch := S2 |>) k /\
    forall s2 c2, ready_sched (sch s2) -> sth (sch s2) !! cur (sch s2) = Some c2 ->
      k s2 = Done tt (s2 <| sch ::= relock Z.pred c2 |>).
Proof.
  intros Ec Hl E1 Hc1 Ec1 E2 Hc2. rewrite (unlock_outer _ _ Ec Hl). set (s1 := s <| sch := S1 |>).
  assert (lift_s wakeq_flush s = Done tt s1) as F1 by (unfold lift_s; by rewrite E1).
  assert (sched_switch s1 = Switch (s <| sch := S2 |>) (fun s' => Done tt s')) as F2.
  { unfold sched_switch. cbn [sch s1 set]. rewrite E2, Hc1. by rewrite (proj2 (Z.eqb_neq _ _) Hc2). }
  eexists. split.
  - eapply bind_switch. rewrite (bind_done _ _ _ _ _ F1). unfold RESCHED_ROUNDS.
    rewrite (resched_marked _ s1 (c <| th_resched := true |>)) by (cbn [sch s1 set]; by rewrite ?Hc1).
    by rewrite (bind_switch _ _ _ _ _ F2).
  - intros s3 c3 [_ Hw3 (c3'&Ec3'&_&Hr3)] Ec3. assert (c3' = c3) as -> by congruence. cbn [rbind].
    rewrite (bind_done _ _ _ _ _ (flush_nil _ Hw3)), (resched_unmarked _ s3 c3) by done. by apply lock_adjust.
Qed.

(** The end of a critical section in which [t] was woken. *)
Lemma unlock_woken_ok s c t th :
  sinv (sch s) -> sth (sch s) !! cur (sch s) = Some c -> th_locks c = 1 -> th_resched c = false ->
  wakeq (sch s) = [t] -> sth (sch s) !! t = Some th -> th_state (woken th) = TH_RUN ->
  exists S', sinv S' /\ wakeq S' = [] /\ sth S' = <[t := woken th]> (sth (sch s)) /\ (forall e, sq S' e = sq (sch s) e) /\
  if preempts (sch s) c th then
    cur S' = t /\ ready_sched S' /\
    exists k, sched_unlock s = Switch (s <| sch := S' |>) k /\
      forall s2 c2, ready_sched (sch s2) -> sth (sch s2) !! cur (sch s2) = Some c2 ->
        k s2 = Done tt (s2 <| sch ::= relock Z.pred c2 |>)
  else
    cur S' = cur (sch s) /\ t ∈ rq S' (th_prio th) /\ sched_unlock s = Done tt (s <| sch := relock Z.pred c S' |>).
Proof.
  intros I Ec Hl Hr Hw Et Hrt. destruct (flush_one _ _ _ _ I Ec Hw Et Hrt) as (S1&E1&I1&Hne&Hc1&Hw1&Hr1&Hs1&Hth1).
  unfold preempts. destruct (Z.ltb_spec (th_prio th) (top_prio (sch s))) as [Hlt|Hge].
  - assert (sth S1 !! cur (sch s) = Some (c <| th_resched := true |>)) as Ec1.
    { rewrite Hth1. cbn. by rewrite lookup_alter_eq, lookup_insert_ne, Ec by done. }
    destruct (switch_woken (sch s) S1 c t th) as (S2&E2&R2&Hc2&Hs2&Hth2&Hrq2); try done.
    pose proof R2 as [I2 Hw2 _]. exists S2. split_and!; try done. rewrite andb_true_r.
    destruct (Z.leb_spec (th_prio th) (th_prio c)) as [Hle|Hgt]; (split; [done|split]); try done.
    + eapply unlock_switches; try done. congruence.
    + rewrite Hrq2 by lia. by left.
    + eapply unlock_returns; try done. by rewrite Hth2, lookup_insert_ne.
  - rewrite andb_false_r. assert (sth S1 = <[t := woken th]> (sth (sch s))) as Hth1' by done.
    exists S1. split_and!; try done.
    + rewrite Hr1, Z.eqb_refl. apply elem_of_app. right. by apply list_elem_of_singleton.
    + apply unlock_stays; try done. by rewrite Hth1', lookup_insert_ne.
Qed.

(** ** Nested critical sections *)

Lemma unlock_nested s c :
  sth (sch s) !! cur (sch s) = Some c -> th_locks c <> 1 -> sched_unlock s = Done tt (s <| sch ::= relock Z.pred c |>).
Proof.
  intros Ec Hl. assert (cur_thread s = Done (cur (sch s)) s) as E0 by done.
  unfold sched_unlock. rewrite (bind_done _ _ _ _ _ E0), (bind_done _ _ _ _ _ (s_thread_eval _ _ _ Ec)).
  rewrite (proj2 (Z.eqb_neq _ _) Hl). rewrite (bind_done _ _ _ tt s) by done. by apply lock_adjust.
Qed.

Lemma relock_sinv f s c : sinv s -> sth s !! cur s = Some c -> sinv (relock f c s).
Proof.
  intros I Ec. destruct (keeps_locks f s (relock f c s) I) as (?&_&_); [|done]. unfold th_upd. by rewrite Ec.
Qed.

Lemma prio_of_relock f c s t : sth s !! cur s = Some c -> prio_of (relock f c s) t = prio_of s t.
Proof.
  intros Ec. unfold prio_of. cbn. destruct (decide (t = cur s)) as [->|?]; [|by rewrite lookup_insert_ne].
  by rewrite lookup_insert_eq, Ec.
Qed.

Lemma best_waiter_relock f c s e t l1 l2 :
  sth s !! cur s = Some c -> best_waiter (relock f c s) e t l1 l2 -> best_waiter s e t l1 l2.
Proof.
  intros Ec [H1 H2 H3]. split; [done|..]; intros x Hx; [specialize (H2 x Hx)|specialize (H3 x Hx)];
    by rewrite !prio_of_relock in * by done.
Qed.

Lemma relock_relock f g c s : relock f (c <| th_locks ::= g |>) (relock g c s) = relock (fun n => f (g n)) c s.
Proof. unfold relock, set; cbn. f_equal. by rewrite insert_insert_eq. Qed.
Lemma relock_id f c s : sth s !! cur s = Some c -> f (th_locks c) = th_locks c -> relock f c s = s.
Proof.
  intros Ec Hf. unfold relock, set; cbn. destruct s; cbn in *. f_equal. rewrite insert_id; [done|]. rewrite Ec. f_equal.
  destruct c; cbn in *. by rewrite Hf.
Qed.

(** A wakeup between a nested lock and unlock, seen from outside of them. *)
Lemma relock_woke s c e t l1 l2 w s2 :
  sinv s -> sth s !! cur s = Some c -> t <> cur s -> woke (locked c s) e t l1 l2 w s2 ->
  sth s2 !! cur s2 = Some (c <| th_locks ::= Z.succ |>) /\
  woke s e t l1 l2 w (relock Z.pred (c <| th_locks ::= Z.succ |>) s2).
Proof.
  intros I Ec Hne [W1 W2 W3 W4 W5 W6 W7 W8]. set (c1 := c <| th_locks ::= Z.succ |>) in *.
  assert (c1 <| th_locks ::= Z.pred |> = c) as Hcc.
  { unfold c1. destruct c; cbn. unfold set; cbn. f_equal. lia. }
  assert (sth s2 !! cur s2 = Some c1) as Ec2.
  { rewrite W8, W2. rewrite lookup_insert_ne by done. apply lookup_insert_eq. }
  split; [done|]. split; try done; [by apply relock_sinv|].
  change (sth (relock Z.pred c1 s2)) with (<[cur s2 := c1 <| th_locks ::= Z.pred |>]> (sth s2)).
  rewrite Hcc, W8, W2. change (sth (locked c s)) with (<[cur s := c1]> (sth s)). change (cur (locked c s)) with (cur s).
  rewrite (insert_insert_ne _ _ _ _ _ Hne), insert_insert_eq. apply insert_id. by rewrite lookup_insert_ne.
Qed.

(** sched_wakeone() inside a critical section: its own lock and unlock cancel
    out. *)
Lemma wakeone_nested_ok e s c :
  sinv (sch s) -> sth (sch s) !! cur (sch s) = Some c -> th_locks c <> 0 ->
  (sq (sch s) e = [] /\ sched_wakeone e s = Done NULL s) \/
  (exists t l1 l2 th S', best_waiter (sch s) e t l1 l2 /\ sth (sch s) !! t = Some th /\ sleeping th = true /\
     sched_wakeone e s = Done t (s <| sch := S' |>) /\ woke (sch s) e t l1 l2 th S').
Proof.
  intros I Ec Hl. unfold sched_wakeone. rewrite (bind_done _ _ _ _ _ (sched_lock_eval _ _ Ec)).
  set (s1 := lock_of c s). set (c1 := c <| th_locks ::= Z.succ |>).
  assert (sth (sch s1) !! cur (sch s1) = Some c1) as Ec1 by apply lookup_insert_eq.
  assert (th_locks c1 <> 1) as Hl1 by (cbn; lia).
  assert (sinv (sch s1)) as I1 by (by apply (relock_sinv Z.succ)).
  destruct (sched_wakeone_ok e (sch s1) I1) as [[Hq E1]|(t&l1&l2&th&S2&B&Et&Hs&Hw&E1&K)].
  - left. split; [done|]. rewrite (bind_done _ _ _ None s1) by (unfold lift_sa; rewrite E1; by destruct s).
    rewrite (bind_done _ _ _ _ _ (unlock_nested _ _ Ec1 Hl1)). change (default NULL None) with NULL. do 2 f_equal.
    assert (relock Z.pred c1 (sch s1) = sch s) as Er.
    { change (relock Z.pred c1 (relock Z.succ c (sch s)) = sch s). unfold c1. rewrite relock_relock. apply relock_id; [done|lia]. }
    change (s <| sch := relock Z.pred c1 (sch s1) |> = s). rewrite Er. by destruct s.
  - right. apply (best_waiter_relock Z.succ c _ _ _ _ _ Ec) in B.
    destruct (best_waiter_sleeps _ _ _ _ _ I B) as (Hne&w'&Ew&_).
    assert (w' = th) as -> by (cbn in Et; rewrite lookup_insert_ne in Et; congruence).
    destruct (relock_woke _ _ _ _ _ _ _ _ I Ec Hne K) as [Ec2 K2]. set (s2 := s1 <| sch := S2 |>).
    rewrite (bind_done _ _ _ (Some t) s2) by (unfold lift_sa; by rewrite E1).
    rewrite (bind_done _ _ _ _ _ (unlock_nested s2 c1 Ec2 Hl1)). by exists t, l1, l2, th, (relock Z.pred c1 S2).
Qed.

(** sched_unsleep() of a sleeping thread with result 0 inside a critical
    section. *)
Lemma unsleep_woke s e t w :
  sinv s -> sth s !! t = Some w -> sleeping w = true -> t ∉ wakeq s -> th_slpevt w = Some e ->
  exists l1 l2 s', sq s e = l1 ++ t :: l2 /\ sched_unsleep_body t 0 s = Some s' /\ woke s e t l1 l2 w s'.
Proof.
  intros I Et Hs Hw He. pose proof I as [(W&_) _].
  destruct (wf_slp _ _ _ W _ _ Et Hs) as [?|(e'&He'&Hin)]; [done|done|]. assert (e' = e) as -> by congruence.
  apply list_elem_of_split in Hin as (l1&l2&Eq). unfold sched_unsleep_body. rewrite Et. cbn [mbind option_bind].
  fold (sleeping w). rewrite Hs. assert (unlink t s = Some (unlinked t s)) as ->.
  { apply unlink_Some. split; [|done]. by eapply sleeping_linked. }
  cbn [mbind option_bind]. destruct (wake_sleeping_ok s t w 0 I Et Hs) as (s'&E'&I'&F&Eth&Etop&Ew&Es&Er&_).
  exists l1, l2, s'. pose proof (wf_sq_nodup _ _ _ W e) as ND. rewrite Eq in ND. apply NoDup_app in ND as (_&Hd&ND).
  apply NoDup_cons in ND as [Hn _]. split_and!; [done..|]. split; try done.
  - by destruct F.
  - by rewrite Ew, without_notin.
  - rewrite Es, Eq. unfold without. rewrite filter_app, filter_cons, decide_False by (by intros []).
    f_equal; apply without_notin; [|done]. intros H. apply (Hd _ H). by left.
  - intros e' Hne. rewrite Es. apply without_notin. intros H.
    destruct (wf_sq_in _ _ _ W _ _ H) as (?&?&_&?&_). congruence.
Qed.

Lemma unsleep_nested_ok s c e t w :
  sinv (sch s) -> sth (sch s) !! cur (sch s) = Some c -> th_locks c <> 0 ->
  sth (sch s) !! t = Some w -> sleeping w = true -> t ∉ wakeq (sch s) -> th_slpevt w = Some e ->
  exists l1 l2 S', sq (sch s) e = l1 ++ t :: l2 /\ sched_unsleep t 0 s = Done tt (s <| sch := S' |>) /\
    woke (sch s) e t l1 l2 w S'.
Proof.
  intros I Ec Hl Et Hs Hw He. assert (t <> cur (sch s)) as Hne.
  { intros ->. destruct I as [(_&_&(c'&Ec'&Hsc&_)&_) _]. congruence. }
  unfold sched_unsleep. rewrite (bind_done _ _ _ _ _ (sched_lock_eval _ _ Ec)). set (s1 := lock_of c s).
  assert (sinv (sch s1)) as I1 by (by apply (relock_sinv Z.succ)).
  destruct (unsleep_woke (sch s1) e t w I1) as (l1&l2&S2&Eq&E&K); try done; [cbn; by rewrite lookup_insert_ne|].
  destruct (relock_woke _ _ _ _ _ _ _ _ I Ec Hne K) as [Ec2 K2]. set (s2 := s1 <| sch := S2 |>).
  rewrite (bind_done _ _ _ tt s2) by (unfold lift_s; by rewrite E).
  exists l1, l2. eexists. split_and!; [done| |exact K2]. rewrite (unlock_nested s2 _ Ec2); [done|cbn; lia].
Qed.

(** ** A system call that wakes one thread *)

(** The call returns [a]; if it was preempted at its end, when its thread is
    dispatched again. *)
Definition completes {A} (r : res A) (preempted : bool) (a : A) (s' : kst) : Prop :=
  if preempted then
    exists k, r = Switch s' k /\
      forall s2 c2, ready_sched (sch s2) -> sth (sch s2) !! cur (sch s2) = Some c2 ->
        k s2 = Done a (s2 <| sch ::= relock Z.pred c2 |>)
  else r = Done a s'.

Lemma completes_bind {A B} (m : K A) (f : A -> K B) s b a a' s' :
  completes (m s) b a s' -> (forall s2, f a s2 = Done a' s2) -> completes ((m ≫= f) s) b a' s'.
Proof.
  unfold completes. destruct b.
  - intros (k&E&Hk) Hf. rewrite (bind_switch _ _ _ _ _ E). eexists. split; [reflexivity|]. intros s2 c2 R Ec. cbv beta.
    rewrite (Hk s2 c2 R Ec). apply Hf.
  - intros E Hf. by rewrite (bind_done _ _ _ _ _ E).
Qed.

(** The scheduler after [t], sleeping as [w], was woken by the current thread
    [c]. *)
Record handed (s : sched) (c : sthread) (t : tid) (w : sthread) (s' : sched) : Prop := {
  hd_inv : sinv s';
  hd_wakeq : wakeq s' = [];
  hd_woken : sth s' !! t = Some (woken (w <| th_slpret := SLP_SUCCESS |>));
  hd_others : forall x, x <> t -> x <> cur s -> sth s' !! x = sth s !! x;
  hd_cpu : if preempts s c w then cur s' = t /\ ready_sched s' else cur s' = cur s /\ t ∈ rq s' (th_prio w);
}.

Lemma unlock_handed s c s1 e t l1 l2 w :
  sinv (sch s) -> sth (sch s) !! cur (sch s) = Some c -> th_locks c = 0 -> th_resched c = false -> wakeq (sch s) = [] ->
  sth (sch s) !! t = Some w -> sleeping w = true -> th_state (woken w) = TH_RUN ->
  woke (locked c (sch s)) e t l1 l2 w (sch s1) ->
  exists S', handed (sch s) c t w S' /\ (forall x, sq S' x = sq (sch s1) x) /\
    completes (sched_unlock s1) (preempts (sch s) c w) tt (s1 <| sch := S' |>).
Proof.
  intros I Ec Hl Hr Hw Et Hs Hrun [K1 K2 K3 K4 K5 K6 K7 K8]. set (c1 := c <| th_locks ::= Z.succ |>).
  assert (t <> cur (sch s)) as Hne.
  { intros ->. destruct I as [(_&_&(c'&Ec'&Hsc&_)&_) _]. congruence. }
  assert (cur (sch s1) = cur (sch s)) as Hc1 by (by rewrite K2).
  assert (sth (sch s1) = <[t := w <| th_slpret := SLP_SUCCESS |>]> (<[cur (sch s) := c1]> (sth (sch s)))) as Hth1 by done.
  assert (sth (sch s1) !! cur (sch s1) = Some c1) as Ec1.
  { rewrite Hth1, Hc1, lookup_insert_ne by done. apply lookup_insert_eq. }
  destruct (unlock_woken_ok s1 c1 t (w <| th_slpret := SLP_SUCCESS |>)) as (S'&I'&Hw'&Hth'&Hs'&Hcase); try done.
  { cbn. by rewrite Hl. }
  { rewrite K3. change (wakeq (locked c (sch s))) with (wakeq (sch s)). by rewrite Hw. }
  { rewrite Hth1. apply lookup_insert_eq. }
  assert (preempts (sch s1) c1 (w <| th_slpret := SLP_SUCCESS |>) = preempts (sch s) c w) as Hp.
  { unfold preempts. rewrite K7. done. }
  rewrite Hp in Hcase. unfold completes. destruct (preempts (sch s) c w) eqn:Hpre.
  - destruct Hcase as (Hcs&R&Hk). exists S'. split_and!; [|done|done]. split; try done.
    + rewrite Hth'. apply lookup_insert_eq.
    + intros x Hx Hxc. by rewrite Hth', Hth1, !lookup_insert_ne.
    + by rewrite Hpre.
  - destruct Hcase as (Hcs&Hin&Hk). exists (relock Z.pred c1 S').
    assert (sth S' !! cur S' = Some c1) as EcS by (rewrite Hth', Hcs, Hc1; rewrite lookup_insert_ne by done; by rewrite <- Hc1).
    split_and!; [|done|done]. split; try done.
    + by apply relock_sinv.
    + cbn. rewrite Hcs, Hc1, lookup_insert_ne by done. rewrite Hth'. apply lookup_insert_eq.
    + intros x Hx Hxc. cbn. rewrite Hcs, Hc1, lookup_insert_ne by done. by rewrite Hth', Hth1, !lookup_insert_ne.
    + rewrite Hpre. split; [cbn; congruence|done].
Qed.

(** ** After a sleep *)

Lemma relock_ready f s c : ready_sched s -> sth s !! cur s = Some c -> ready_sched (relock f c s).
Proof.
  intros [I Hw (c'&Ec'&Hr&Hm)] Ec. assert (c' = c) as -> by congruence. split; [by apply relock_sinv|done|].
  exists (c <| th_locks ::= f |>). split; [apply lookup_insert_eq|done].
Qed.



Lemma lock_relock s c :
  sth (sch s) !! cur (sch s) = Some c -> lock_of (c <| th_locks ::= Z.pred |>) (s <| sch ::= relock Z.pred c |>) = s.
Proof.
  intros Ec. assert (locked (c <| th_locks ::= Z.pred |>) (relock Z.pred c (sch s)) = sch s) as E.
  { change (relock Z.succ (c <| th_locks ::= Z.pred |>) (relock Z.pred c (sch s)) = sch s).
    rewrite relock_relock. apply relock_id; [done|lia]. }
  change (s <| sch := locked (c <| th_locks ::= Z.pred |>) (relock Z.pred c (sch s)) |> = s). rewrite E. by destruct s.
Qed.

Lemma relock_ext f g c s : f (th_locks c) = g (th_locks c) -> relock f c s = relock g c s.
Proof. intros H. unfold relock, set. cbn. do 2 f_equal. by rewrite H. Qed.

Lemma relock_twice s2 c2 :
  s2 <| sch ::= relock Z.pred c2 |> <| sch ::= relock Z.pred (c2 <| th_locks ::= Z.pred |>) |> =
  s2 <| sch ::= relock (fun n => n - 2) c2 |>.
Proof.
  change (s2 <| sch := relock Z.pred (c2 <| th_locks ::= Z.pred |>) (relock Z.pred c2 (sch s2)) |> =
          s2 <| sch := relock (fun n => n - 2) c2 (sch s2) |>).
  rewrite relock_relock. erewrite relock_ext; [reflexivity|]. cbv beta. lia.
Qed.
End Block.
