(* ===== verification/SchedProps.v ===== *)
(** * SchedProps: what the scheduler promises to the rest of the kernel

    Statements over the lemmas of SchedOps.v and Block.v about the operations
    that change a thread's state, priority or quantum, and about preemption. *)
From stdpp Require Import base numbers strings gmap list.
From S2P Require Import Prelude Core Timer Sched SchedInv SchedOps SchedSleep Kernel KernelInv Exec Block.

Open Scope Z_scope.

(** Suspending a runnable thread and resuming it: the suspended thread is on
    no run queue, and once resumed it is runnable again, at the tail of the
    queue of its priority; nobody else moves. *)
Theorem suspend_resume s t th :
  sinv s -> sth s !! t = Some th -> t <> cur s -> th_state th = TH_RUN ->
  exists s1 s2, sched_suspend t s = Some s1 /\ sched_resume t s1 = Some s2 /\ sinv s1 /\ sinv s2 /\
    (forall p, t ∉ rq s1 p) /\ th_state <$> sth s2 !! t = Some TH_RUN /\
    (forall p, rq s2 p = if decide (p = th_prio th) then without t (rq s p) ++ [t] else rq s p) /\
    wakeq s2 = wakeq s /\ (forall e, sq s2 e = sq s e).
Proof.
  intros I E Hne Hr. destruct (sched_suspend_ok s t th I E) as (s1&th1&E1&I1&Hc1&Et1&Hst1&Hp1&_&Hr1&Hw1&Hs1).
  rewrite Hr in Hst1. change (Z.lor TH_RUN TH_SUSPEND) with TH_SUSPEND in Hst1.
  destruct (sched_resume_ok s1 t th1 I1 Et1) as (s2&E2&I2&Hc2&_&H2); [by rewrite Hc1|].
  rewrite Hst1 in H2. change (flag TH_SUSPEND TH_SUSPEND) with true in H2. change (clr TH_SUSPEND TH_SUSPEND) with TH_RUN in H2.
  destruct H2 as (Hst2&Hr2&Hw2&Hs2). rewrite Hp1 in Hr2. pose proof I as [(W&_) _].
  assert (forall p, p <> th_prio th -> without t (rq s p) = rq s p) as Hother.
  { intros p Hp. apply without_notin. intros Hin. destruct (wf_rq_in _ _ _ W _ _ Hin) as (th'&E'&Hp'&_). congruence. }
  exists s1, s2. split_and!; try done.
  - intros p. rewrite Hr1, elem_of_without. by intros [? _].
  - intros p. rewrite Hr2, Hr1. destruct (decide (p = th_prio th)) as [->|Hp].
    + by rewrite decide_True.
    + rewrite decide_False by (by intros [_ ?]). by apply Hother.
  - congruence.
  - intros e. by rewrite Hs2.
Qed.

(** [sched_setprio] gives a thread its new base and current priority, whatever
    its state, keeps the other threads (a reschedule mark on the current one
    apart), the wake queue and the sleep queues, and restores the scheduler
    invariant: a runnable thread is on the run queue of its new priority, and
    if it now outranks the current thread a reschedule is pending. *)
Theorem sched_setprio_spec s t th base p :
  sinv s -> sth s !! t = Some th -> 0 <= base <= MIN_PRIO -> 0 <= p <= MIN_PRIO ->
  exists s', sched_setprio t base p s = Some s' /\ sinv s' /\ cur s' = cur s /\
    (forall x, calmed <$> sth s' !! x = calmed <$> <[t := reprio base p th]> (sth s) !! x) /\
    wakeq s' = wakeq s /\ (forall e, sq s' e = sq s e) /\
    (t <> cur s -> th_state th = TH_RUN -> t ∈ rq s' p) /\
    (forall x xth c, x <> cur s -> sth s' !! x = Some xth -> th_state xth = TH_RUN -> sth s' !! cur s = Some c ->
       th_resched c = true \/ th_prio c <= th_prio xth).
Proof.
  intros I E Hb Hp. destruct (sched_setprio_ok s t th base p I E Hb Hp) as (s'&E'&I'&Hc').
  destruct (sched_setprio_effect _ _ _ _ _ _ I E E') as (Hth&Hw&Hs). exists s'. split_and!; try done.
  - intros Hne Hr. specialize (Hth t). rewrite lookup_insert_eq in Hth. destruct (sth s' !! t) as [y|] eqn:Ey; [|done].
    cbn in Hth. injection Hth as Hst _ Hpy _ _ _ _ _ _. pose proof I' as [(W'&_) _].
    rewrite <- Hpy. apply (wf_run _ _ _ W' _ _ Ey); congruence.
  - intros x xth c Hx Ex Hr Ec. destruct (th_resched c) eqn:Hm; [by left|right]. rewrite <- Hc' in Ec.
    apply (swf_best_prio s' c x xth); try done. apply I'.
Qed.

(** The time slice: a clock tick charges one tick to the current thread; a
    round-robin thread loses one tick of its quantum, and with its last one it
    gets a full quantum and is marked for rescheduling, so that the quantum
    left stays between 1 and QUANTUM; a FIFO thread keeps the CPU. *)
Theorem sched_tick_spec s c :
  sinv s -> sth s !! cur s = Some c -> 1 <= th_timeleft c <= QUANTUM ->
  exists s' c', sched_tick s = Some s' /\ sinv s' /\ sth s' !! cur s = Some c' /\
    th_time c' = u32 (th_time c + 1) /\ 1 <= th_timeleft c' <= QUANTUM /\
    (forall t, t <> cur s -> sth s' !! t = sth s !! t) /\
    if th_policy c =? SCHED_RR then
      if th_timeleft c =? 1 then th_timeleft c' = QUANTUM /\ th_resched c' = true
      else th_timeleft c' = th_timeleft c - 1 /\ th_resched c' = th_resched c
    else th_timeleft c' = th_timeleft c /\ th_resched c' = th_resched c.
Proof.
  intros I Ec Hq. destruct (sched_tick_ok s c I Ec Hq) as (s'&c'&E&I'&Ec'&Ht&Hq'&Ho&_&Hp). by exists s', c'.
Qed.

(** A stopped thread is in state TH_EXIT, linked nowhere, and asks for the
    CPU to be given away if it is the one running. *)
Theorem sched_stop_spec s t th :
  sinv s -> sth s !! t = Some th ->
  exists s' th', sched_stop t s = Some s' /\ sinv s' /\ cur s' = cur s /\ sth s' !! t = Some th' /\
    th_state th' = TH_EXIT /\ (t = cur s -> th_resched th' = true) /\
    t ∉ wakeq s' /\ (forall p, t ∉ rq s' p) /\ (forall e, t ∉ sq s' e).
Proof.
  intros I E. destruct (sched_stop_ok s t th I E) as (s'&th'&E'&I'&Hc&Et&Hst&Hr&Hl). exists s', th'.
  apply link_free_spec in Hl as (?&?&?). by split_and!.
Qed.

Section Blocking.
Context {KM : KMem}.

(** C22: sched_tsleep() outside a critical section: the caller is queued last on
    the event and the best runnable thread is dispatched, in a state of the
    scheduler invariant; whenever the caller is dispatched again the call
    returns the result that its waker left, with the lock released. *)
Theorem sched_tsleep_spec s c e msec t0 th0 :
  sinv (sch s) -> wakeq (sch s) = [] -> timeout_fits msec -> sth (sch s) !! cur (sch s) = Some c ->
  t0 <> cur (sch s) -> sth (sch s) !! t0 = Some th0 -> th_state th0 = TH_RUN ->
  exists S' k, sched_tsleep e msec s = Switch (s <| sch := S' |>) k /\
    blocked (sch s) (c <| th_locks ::= Z.succ |>) e S' /\
    forall s2 c2, ready_sched (sch s2) -> cur (sch s2) = cur (sch s) -> sth (sch s2) !! cur (sch s2) = Some c2 ->
      k s2 = Done (th_slpret c2) (s2 <| sch ::= relock Z.pred c2 |>).
Proof.
  intros I Hw Hf Ec Hne E0 Hr0. destruct (sched_tsleep_ok s c e msec t0 th0) as (S'&k&[E Hk]&B); try done.
  by exists S', k.
Qed.

(** Who runs after a wakeup: when the best waiter [t] of an event is woken by
    a thread that then leaves its critical section, [t] gets the CPU if its
    priority is at least that of the waker and better than that of every
    queued thread, and otherwise joins the tail of its run queue while the
    waker goes on. *)
Theorem sched_wakeone_preempts e s c t l1 l2 w :
  sinv (sch s) -> sth (sch s) !! cur (sch s) = Some c -> th_locks c = 0 -> th_resched c = false -> wakeq (sch s) = [] ->
  best_waiter (sch s) e t l1 l2 -> sth (sch s) !! t = Some w -> th_state (woken w) = TH_RUN ->
  exists S', handed (sch s) c t w S' /\ sq S' e = l1 ++ l2 /\
    completes (sched_wakeone e s) ((th_prio w <=? th_prio c) && (th_prio w <? top_prio (sch s))) t (s <| sch := S' |>).
Proof.
  intros I Ec Hl Hr Hw B Et Hrun. change ((_ <=? _) && _) with (preempts (sch s) c w). unfold sched_wakeone.
  rewrite (bind_done _ _ _ _ _ (sched_lock_eval _ _ Ec)).
  destruct (best_waiter_sleeps _ _ _ _ _ I B) as (Hne&w'&Et'&Hs). assert (w' = w) as -> by congruence.
  assert (sinv (sch (lock_of c s))) as I1 by (by apply (relock_sinv Z.succ)).
  destruct (sched_wakeone_ok e (sch (lock_of c s)) I1) as [[Hq _]|(t'&l1'&l2'&w'&S1&B'&Ew'&_&_&E1&K)].
  { pose proof B as [Bq _ _]. change (sq (sch s) e = []) in Hq. rewrite Bq in Hq. by destruct l1. }
  apply (best_waiter_relock Z.succ c _ _ _ _ _ Ec) in B'.
  assert (t' = t) as -> by (by eapply best_waiter_unique).
  assert (w' = w) as -> by (cbn in Ew'; rewrite lookup_insert_ne in Ew'; congruence).
  set (s1 := lock_of c s <| sch := S1 |>).
  rewrite (bind_done _ _ _ (Some t) s1) by (unfold lift_sa; by rewrite E1).
  destruct (unlock_handed s c s1 e t l1' l2' w) as (S'&Hh&Hsq&Hcomp); try done.
  exists S'. split_and!; [done| |].
  - rewrite Hsq. change (sq S1 e = l1 ++ l2). rewrite (wk_queue _ _ _ _ _ _ _ K).
    by apply (best_waiter_rest (sch s) e t).
  - eapply completes_bind; [exact Hcomp|done].
Qed.
End Blocking.
