(* ===== verification/Sem.v ===== *)
(** * Sem: counting semaphores, sys/sync/sem.c *)
From stdpp Require Import base numbers strings gmap list.
From S2P Require Import Prelude Core Timer Sched Kernel.

Open Scope Z_scope.

Section Sem.
Context {KM : KMem}.

(** ((u_int)((~0u) >> 1)) *)
Definition MAXSEMVAL := Z.shiftr (2 ^ 32 - 1) 1.
Definition SIZEOF_SEM := 24.

Definition sem_valid (a : Z) : K bool :=
  gets (fun s => kern_area a && from_option (fun x => s_magic x =? SEM_MAGIC) false (sems s !! a)).

(** kmem_free(s): the structure is gone. *)
Definition sem_free (a : Z) : K unit := kfree a;; modify (fun s => s <| sems ::= delete a |>).

Definition sem_init (sem value : Z) : K Z :=
  if MAXSEMVAL <? value then mret EINVAL else
  o ← copyin_word sem;
  match o with
  | None => mret EFAULT
  | Some a =>
      sched_lock;;
      v ← sem_valid a;
      err ← (if negb (a =? NULL) && (v : bool) then
               x ← rd sems a; k ← cur_task; c ← task_capable CAP_SEMAPHORE;
               if negb (s_task x =? k) && negb c then mret EPERM
               else w ← kevent_waiting (EvSem a);
                    if (w : bool) then mret EBUSY
                    else upd_sem a (fun x => x <| s_value := value |>);; mret 0
             else
               o ← kalloc SIZEOF_SEM;
               match o with
               | None => mret ENOSPC
               | Some a =>
                   kevent_init (EvSem a);;
                   k ← cur_task;
                   modify (fun s => s <| sems ::= <[a := mk_sem SEM_MAGIC k value]> |>);;
                   ok ← copyout_word sem a;
                   if (ok : bool) then mret 0 else sem_free a;; mret EFAULT
               end);
      sched_unlock;;
      mret err
  end.

(** The semaphore, or the error. *)
Definition sem_copyin (usem : Z) : K (Z + Z) :=
  o ← copyin_word usem;
  match o with
  | None => mret (inr EFAULT)
  | Some a =>
      v ← sem_valid a;
      if negb v then mret (inr EINVAL) else
      x ← rd sems a; k ← cur_task; c ← task_capable CAP_SEMAPHORE;
      if negb (s_task x =? k) && negb c then mret (inr EPERM) else mret (inl a)
  end.

Definition sem_destroy (sem : Z) : K Z :=
  sched_lock;;
  r ← sem_copyin sem;
  match r with
  | inr err => sched_unlock;; mret err
  | inl a =>
      w ← kevent_waiting (EvSem a);
      if (w : bool) then sched_unlock;; mret EBUSY
      else
        upd_sem a (fun x => x <| s_magic := 0 |>);;
        sem_free a;;
        sched_unlock;;
        mret 0
  end.

(** while (s->value == 0) { ... }: at most [n] rounds. *)
Fixpoint sem_wait_loop (n : nat) (a timeout : Z) : K Z :=
  x ← rd sems a;
  if s_value x =? 0 then
    match n with
    | O => fault
    | S n =>
        rc ← sched_tsleep (EvSem a) timeout;
        if rc =? SLP_TIMEOUT then mret ETIMEDOUT
        else if rc =? SLP_INTR then mret EINTR
        else sched_unlock;; sched_lock;; sem_wait_loop n a timeout
    end
  else
    upd_sem a (fun x => x <| s_value ::= Z.pred |>);;
    mret 0.

Definition sem_wait (n : nat) (sem timeout : Z) : K Z :=
  sched_lock;;
  r ← sem_copyin sem;
  err ← (match r with inr err => mret err | inl a => sem_wait_loop n a timeout end);
  sched_unlock;;
  mret err.

Definition sem_trywait (sem : Z) : K Z :=
  sched_lock;;
  r ← sem_copyin sem;
  match r with
  | inr err => sched_unlock;; mret err
  | inl a =>
      x ← rd sems a;
      err ← (if 0 <? s_value x then upd_sem a (fun x => x <| s_value ::= Z.pred |>);; mret 0 else mret EAGAIN);
      sched_unlock;;
      mret err
  end.

Definition sem_post (sem : Z) : K Z :=
  sched_lock;;
  r ← sem_copyin sem;
  match r with
  | inr err => sched_unlock;; mret err
  | inl a =>
      x ← rd sems a;
      if MAXSEMVAL <=? s_value x then sched_unlock;; mret ERANGE
      else
        upd_sem a (fun x => x <| s_value ::= Z.succ |>);;
        x ← rd sems a;
        (if 0 <? s_value x then _ ← sched_wakeone (EvSem a); mret tt else mret tt);;
        sched_unlock;;
        mret 0
  end.

Definition sem_getvalue (sem value : Z) : K Z :=
  sched_lock;;
  r ← sem_copyin sem;
  match r with
  | inr err => sched_unlock;; mret err
  | inl a =>
      x ← rd sems a;
      ok ← copyout_word value (s_value x);
      sched_unlock;;
      mret (if (ok : bool) then 0 else EFAULT)
  end.
End Sem.
