(* ===== verification/SemSpec.v ===== *)
(** * SemSpec: what the semaphore calls do

    Each call is characterised completely: its result and the state it leaves,
    for every handle a program may pass. *)
From stdpp Require Import base numbers strings gmap list.
From S2P Require Import Prelude Core Timer Sched SchedInv SchedOps SchedSleep Kernel KernelInv Exec Block Sem.

Open Scope Z_scope.

Section SemSpec.
Context {KM : KMem}.

(** The semaphore a user handle denotes for thread [th] of task [tk], or the
    error. *)
Definition sem_lookup (s : kst) (th : thread) (tk : task) (usem : Z) : (Z * sem) + Z :=
  match user_word (umem s) (tk_map tk) usem with
  | None => inr EFAULT
  | Some a =>
      match sems s !! a with
      | Some x =>
          if kern_area a && (s_magic x =? SEM_MAGIC) then
            if (s_task x =? th_task th) || flag (tk_capability tk) CAP_SEMAPHORE then inl (a, x) else inr EPERM
          else inr EINVAL
      | None => inr EINVAL
      end
  end.

Lemma sem_lookup_inl s th tk usem a x : sem_lookup s th tk usem = inl (a, x) -> sems s !! a = Some x.
Proof.
  unfold sem_lookup. destruct (user_word _ _ _) as [a'|]; [|done]. destruct (sems s !! a') as [x'|] eqn:E; [|done].
  destruct (_ && _); [|done]. destruct (_ || _); [|done]. by intros [= <- <-].
Qed.

Lemma sem_copyin_eval s th tk usem : within s th tk ->
  sem_copyin usem s = Done (match sem_lookup s th tk usem with inl (a, _) => inl a | inr e => inr e end) s.
Proof.
  intros H. unfold sem_copyin, sem_lookup. rewrite (bind_done _ _ _ _ _ (copyin_word_eval _ _ _ usem H)).
  destruct (user_word _ _ _) as [a|]; [|done]. unfold sem_valid.
  rewrite (bind_done (gets _) _ s _ s) by reflexivity. destruct (sems s !! a) as [x|] eqn:E; cbn [from_option];
    [|by rewrite andb_false_r].
  destruct (kern_area a && (s_magic x =? SEM_MAGIC)); cbn [negb]; [|done].
  rewrite (bind_done _ _ _ _ _ (rd_eval sems s a x E)), (bind_done _ _ _ _ _ (cur_task_eval _ _ _ H)).
  rewrite (bind_done _ _ _ _ _ (task_capable_eval _ _ _ CAP_SEMAPHORE H)).
  by destruct (s_task x =? th_task th), (flag (tk_capability tk) CAP_SEMAPHORE).
Qed.

Definition put_sem (a : Z) (x : sem) (s : kst) : kst := s <| sems ::= <[a := x]> |>.

Lemma upd_sem_eval a f s x : sems s !! a = Some x -> upd_sem a f s = Done tt (put_sem a (f x) s).
Proof. intros E. unfold upd_sem. by rewrite (bind_done _ _ _ _ _ (rd_eval sems s a x E)). Qed.

(** The state after a call that left the scheduler alone. *)
Lemma reset_sch_sem s c a x : put_sem a x (lock_of c s) <| sch := sch s |> = put_sem a x s.
Proof. by destruct s. Qed.

Context (s : kst) (c : sthread) (th : thread) (tk : task) (HC : calm s c th tk).

Let within_locked : within (lock_of c s) th tk.
Proof. by apply within_call. Qed.
Let lock_eval : sched_lock s = Done tt (lock_of c s).
Proof. apply sched_lock_eval, HC. Qed.
Let unlock_eval {A} s' (f : unit -> K A) :
  sch s' = locked c (sch s) -> (sched_unlock ≫= f) s' = f tt (s' <| sch := sch s |>).
Proof. by apply (leave_call s s' c th tk). Qed.
Lemma lookup_locked usem : sem_lookup (lock_of c s) th tk usem = sem_lookup s th tk usem.
Proof. done. Qed.

Lemma sem_trywait_ok usem :
  sem_trywait usem s =
  match sem_lookup s th tk usem with
  | inr err => Done err s
  | inl (a, x) => if 0 <? s_value x then Done 0 (put_sem a (x <| s_value ::= Z.pred |>) s) else Done EAGAIN s
  end.
Proof.
  unfold sem_trywait. rewrite (bind_done _ _ _ _ _ lock_eval), (bind_done _ _ _ _ _ (sem_copyin_eval _ _ _ usem within_locked)).
  rewrite lookup_locked. destruct (sem_lookup s th tk usem) as [[a x]|err] eqn:E.
  - apply sem_lookup_inl in E. rewrite (bind_done _ _ _ _ _ (rd_eval sems (lock_of c s) a x E)).
    destruct (0 <? s_value x).
    + rewrite (bind_done _ _ _ 0 (put_sem a (x <| s_value ::= Z.pred |>) (lock_of c s))).
      * rewrite unlock_eval by done. by rewrite reset_sch_sem.
      * by rewrite (bind_done _ _ _ _ _ (upd_sem_eval a _ (lock_of c s) x E)).
    + rewrite (bind_done _ _ _ EAGAIN (lock_of c s)) by done. rewrite unlock_eval by done.
      by rewrite (reset_sch s _ c).
  - rewrite unlock_eval by done. by rewrite (reset_sch s _ c).
Qed.

Lemma sem_post_ok usem :
  sinv (sch s) -> (forall a x, sems s !! a = Some x -> 0 <= s_value x) ->
  match sem_lookup s th tk usem with
  | inr err => sem_post usem s = Done err s
  | inl (a, x) =>
      if MAXSEMVAL <=? s_value x then sem_post usem s = Done ERANGE s
      else
        let s' := put_sem a (x <| s_value ::= Z.succ |>) s in
        (sq (sch s) (EvSem a) = [] /\ sem_post usem s = Done 0 s') \/
        (exists t l1 l2 w, best_waiter (sch s) (EvSem a) t l1 l2 /\ sth (sch s) !! t = Some w /\
           (th_state (woken w) = TH_RUN ->
            exists S', handed (sch s) c t w S' /\ sq S' (EvSem a) = l1 ++ l2 /\
              completes (sem_post usem s) (preempts (sch s) c w) 0 (s' <| sch := S' |>)))
  end.
Proof.
  intros I Hv. unfold sem_post. rewrite (bind_done _ _ _ _ _ lock_eval), (bind_done _ _ _ _ _ (sem_copyin_eval _ _ _ usem within_locked)).
  rewrite lookup_locked. destruct (sem_lookup s th tk usem) as [[a x]|err] eqn:E;
    [|rewrite unlock_eval by done; by rewrite (reset_sch s _ c)].
  apply sem_lookup_inl in E. rewrite (bind_done _ _ _ _ _ (rd_eval sems (lock_of c s) a x E)).
  destruct (MAXSEMVAL <=? s_value x); [rewrite unlock_eval by done; by rewrite (reset_sch s _ c)|]. cbv zeta.
  set (x' := x <| s_value ::= Z.succ |>). set (s1 := put_sem a x' (lock_of c s)).
  rewrite (bind_done _ _ _ _ _ (upd_sem_eval a _ (lock_of c s) x E)). fold x'. fold s1.
  assert (sems s1 !! a = Some x') as E1 by apply lookup_insert_eq.
  rewrite (bind_done _ _ _ _ _ (rd_eval sems s1 a x' E1)).
  assert (0 <? s_value x' = true) as -> by (apply Z.ltb_lt; cbn; specialize (Hv a x E); lia).
  destruct HC as [Ec Hl Hr Hw _ _]. set (c1 := c <| th_locks ::= Z.succ |>).
  destruct (wakeone_nested_ok (EvSem a) s1 c1) as [[Hq E2]|(t&l1&l2&w&S1&B&Et&Hs&E2&K)];
    [by apply (relock_sinv Z.succ)|apply lookup_insert_eq|cbn; lia| |].
  - left. split; [done|]. rewrite (bind_done _ _ _ tt s1) by (by rewrite (bind_done _ _ _ _ _ E2)).
    rewrite unlock_eval by done. unfold s1. by rewrite reset_sch_sem.
  - right. assert (best_waiter (sch s) (EvSem a) t l1 l2) as B' by (by apply (best_waiter_relock Z.succ c)).
    destruct (best_waiter_sleeps _ _ _ _ _ I B') as (Hne&w'&Et'&Hs').
    assert (w' = w) as -> by (cbn in Et; rewrite lookup_insert_ne in Et; congruence).
    exists t, l1, l2, w. split_and!; try done. intros Hrun.
    destruct (unlock_handed s c (s1 <| sch := S1 |>) (EvSem a) t l1 l2 w) as (S'&Hh&Hsq&Hc); try done.
    exists S'. split_and!; [done|rewrite Hsq; apply (wk_queue _ _ _ _ _ _ _ K)|].
    rewrite (bind_done _ _ _ tt (s1 <| sch := S1 |>)) by (by rewrite (bind_done _ _ _ _ _ E2)).
    eapply completes_bind; [exact Hc|done].
Qed.

(** What the loop of sem_wait() and the calls around it do once the sleep is
    over, in a state with the caller dispatched again. *)
Lemma sem_wait_resumed n a timeout s2 c2 :
  ready_sched (sch s2) -> sth (sch s2) !! cur (sch s2) = Some c2 ->
  (err ← (if th_slpret c2 =? SLP_TIMEOUT then mret ETIMEDOUT
          else if th_slpret c2 =? SLP_INTR then mret EINTR
          else sched_unlock;; sched_lock;; sem_wait_loop n a timeout);
   sched_unlock;; mret err) s2 =
  (if th_slpret c2 =? SLP_TIMEOUT then Done ETIMEDOUT (s2 <| sch ::= relock Z.pred c2 |>)
   else if th_slpret c2 =? SLP_INTR then Done EINTR (s2 <| sch ::= relock Z.pred c2 |>)
   else (err ← sem_wait_loop n a timeout; sched_unlock;; mret err) s2).
Proof.
  intros R Ec. pose proof (unlock_ready _ _ R Ec) as Eu.
  destruct (_ =? SLP_TIMEOUT); [rewrite (bind_done _ _ _ ETIMEDOUT s2) by done; by rewrite (bind_done _ _ _ _ _ Eu)|].
  destruct (_ =? SLP_INTR); [rewrite (bind_done _ _ _ EINTR s2) by done; by rewrite (bind_done _ _ _ _ _ Eu)|].
  set (s3 := s2 <| sch ::= relock Z.pred c2 |>).
  assert (sched_lock s3 = Done tt s2) as El.
  { rewrite (sched_lock_eval s3 (c2 <| th_locks ::= Z.pred |>)) by apply lookup_insert_eq. f_equal. by apply lock_relock. }
  unfold mbind at 1, K_bind at 1. rewrite (bind_done _ _ _ _ _ Eu), (bind_done _ _ _ _ _ El). done.
Qed.

Lemma sem_wait_loop_takes n a timeout s2 x :
  sems s2 !! a = Some x -> s_value x <> 0 -> sem_wait_loop n a timeout s2 = Done 0 (put_sem a (x <| s_value ::= Z.pred |>) s2).
Proof.
  intros E Hv. destruct n; cbn [sem_wait_loop]; rewrite (bind_done _ _ _ _ _ (rd_eval sems s2 a x E)), (proj2 (Z.eqb_neq _ _) Hv);
    by rewrite (bind_done _ _ _ _ _ (upd_sem_eval a _ s2 x E)).
Qed.

(** What a waiter does when it is dispatched again, with the result of its
    sleep: [s3] is the state with its two locks released. *)
Definition wait_resumes (a : Z) (k : kst -> res Z) : Prop := forall s2 c2,
  ready_sched (sch s2) -> cur (sch s2) = cur (sch s) -> sth (sch s2) !! cur (sch s2) = Some c2 ->
  let s3 := s2 <| sch ::= relock (fun n => n - 2) c2 |> in
  (th_slpret c2 = SLP_TIMEOUT -> k s2 = Done ETIMEDOUT s3) /\
  (th_slpret c2 = SLP_INTR -> k s2 = Done EINTR s3) /\
  (th_slpret c2 <> SLP_TIMEOUT -> th_slpret c2 <> SLP_INTR ->
   forall x, sems s2 !! a = Some x -> s_value x <> 0 -> k s2 = Done 0 (put_sem a (x <| s_value ::= Z.pred |>) s3)).

Lemma wait_resumes_ok n a timeout k0 :
  (forall s2 c2, ready_sched (sch s2) -> cur (sch s2) = cur (sch s) -> sth (sch s2) !! cur (sch s2) = Some c2 ->
     k0 s2 = Done (th_slpret c2) (s2 <| sch ::= relock Z.pred c2 |>)) ->
  wait_resumes a (fun s2 => rbind (rbind (k0 s2) (fun rc =>
    if rc =? SLP_TIMEOUT then mret ETIMEDOUT else if rc =? SLP_INTR then mret EINTR
    else sched_unlock;; sched_lock;; sem_wait_loop n a timeout)) (fun err => sched_unlock;; mret err)).
Proof.
  intros Hk s2 c2 R Hc2 Ec. cbv beta zeta. rewrite (Hk _ _ R Hc2 Ec). cbn [rbind].
  set (s3 := s2 <| sch ::= relock Z.pred c2 |>). set (c3 := c2 <| th_locks ::= Z.pred |>).
  assert (ready_sched (sch s3)) as R3 by (by apply relock_ready).
  assert (sth (sch s3) !! cur (sch s3) = Some c3) as Ec3 by apply lookup_insert_eq.
  pose proof (sem_wait_resumed n a timeout s3 c3 R3 Ec3) as H. change (th_slpret c3) with (th_slpret c2) in H.
  unfold mbind at 1, K_bind at 1 in H. rewrite H. clear H. rewrite <- relock_twice. fold s3. fold c3. split_and!.
  - by intros ->.
  - by intros ->.
  - intros H1 H2 x Ex Hv. rewrite (proj2 (Z.eqb_neq _ _) H1), (proj2 (Z.eqb_neq _ _) H2).
    rewrite (bind_done _ _ _ _ _ (sem_wait_loop_takes n a timeout s3 x Ex Hv)).
    set (s4 := put_sem a _ s3).
    by rewrite (bind_done _ _ _ _ _ (unlock_ready s4 c3 R3 Ec3)).
Qed.

Lemma sem_wait_ok n usem timeout t0 th0 :
  sinv (sch s) -> timeout_fits timeout ->
  t0 <> cur (sch s) -> sth (sch s) !! t0 = Some th0 -> th_state th0 = TH_RUN ->
  match sem_lookup s th tk usem with
  | inr err => sem_wait (S n) usem timeout s = Done err s
  | inl (a, x) =>
      if s_value x =? 0 then
        exists S' k, sem_wait (S n) usem timeout s = Switch (s <| sch := S' |>) k /\
          blocked (sch s) (c <| th_locks := 2 |>) (EvSem a) S' /\ wait_resumes a k
      else sem_wait (S n) usem timeout s = Done 0 (put_sem a (x <| s_value ::= Z.pred |>) s)
  end.
Proof.
  intros I Hf Hne E0 Hr0. unfold sem_wait.
  rewrite (bind_done _ _ _ _ _ lock_eval), (bind_done _ _ _ _ _ (sem_copyin_eval _ _ _ usem within_locked)).
  rewrite lookup_locked. destruct (sem_lookup s th tk usem) as [[a x]|err] eqn:E.
  2:{ rewrite (bind_done _ _ _ err (lock_of c s)) by done. rewrite unlock_eval by done. by rewrite (reset_sch s _ c). }
  apply sem_lookup_inl in E. destruct (Z.eqb_spec (s_value x) 0) as [Hz|Hnz].
  - pose proof HC as [Ec Hl Hr Hw _ _]. set (c1 := c <| th_locks ::= Z.succ |>).
    destruct (sched_tsleep_ok (lock_of c s) c1 (EvSem a) timeout t0 th0) as (S'&k0&[Esl Hk]&B); try done.
    { by apply (relock_sinv Z.succ). }
    { apply lookup_insert_eq. }
    { cbn. by rewrite lookup_insert_ne. }
    exists S'. eexists. split_and!; cycle 2.
    + apply (wait_resumes_ok n a timeout k0). exact Hk.
    + eapply bind_switch. cbn [sem_wait_loop].
      rewrite (bind_done _ _ _ _ _ (rd_eval sems (lock_of c s) a x E)), Hz. change (0 =? 0) with true. cbv iota.
      by rewrite (bind_switch _ _ _ _ _ Esl).
    + assert (c1 <| th_locks ::= Z.succ |> = c <| th_locks := 2 |>) as Hcc by (unfold c1; destruct c; cbn in *; by rewrite Hl).
      rewrite Hcc in B. destruct B as [B1 B2 B3 B4 B5 B6 B7]. split; try done. intros y Hy. rewrite B4 by done. cbn. by rewrite lookup_insert_ne.
  - rewrite (bind_done _ _ _ _ _ (sem_wait_loop_takes (S n) a timeout (lock_of c s) x E Hnz)).
    rewrite unlock_eval by done. by rewrite reset_sch_sem.
Qed.
End SemSpec.

(** ** Properties *)
Section SemProperties.
Context {KM : KMem}.

(** sem_trywait() on every handle: a bad handle gives its error, a positive
    semaphore is decremented and the call returns 0, a zero one gives EAGAIN;
    nothing else in the kernel state changes in any case. *)
Theorem sem_trywait_spec s c th tk usem : calm s c th tk ->
  sem_trywait usem s =
  match sem_lookup s th tk usem with
  | inr err => Done err s
  | inl (a, x) => if 0 <? s_value x then Done 0 (put_sem a (x <| s_value ::= Z.pred |>) s) else Done EAGAIN s
  end.
Proof. intros HC. by apply (sem_trywait_ok s c th tk HC). Qed.

(** sem_post() on every handle: a bad handle gives its error, a semaphore at
    SEM_VALUE_MAX gives ERANGE; otherwise the value is incremented and, if
    threads wait, the one of the best priority (the first among equals) is
    taken off the semaphore's queue and made runnable, running at once if it
    preempts the caller; the call returns 0, after the caller is dispatched
    again when it was preempted. *)
Theorem sem_post_spec s c th tk usem : calm s c th tk ->
  sinv (sch s) -> (forall a x, sems s !! a = Some x -> 0 <= s_value x) ->
  match sem_lookup s th tk usem with
  | inr err => sem_post usem s = Done err s
  | inl (a, x) =>
      if MAXSEMVAL <=? s_value x then sem_post usem s = Done ERANGE s
      else
        let s' := put_sem a (x <| s_value ::= Z.succ |>) s in
        (sq (sch s) (EvSem a) = [] /\ sem_post usem s = Done 0 s') \/
        (exists t l1 l2 w, best_waiter (sch s) (EvSem a) t l1 l2 /\ sth (sch s) !! t = Some w /\
           (th_state (woken w) = TH_RUN ->
            exists S', handed (sch s) c t w S' /\ sq S' (EvSem a) = l1 ++ l2 /\
              completes (sem_post usem s) (preempts (sch s) c w) 0 (s' <| sch := S' |>)))
  end.
Proof. intros HC. by apply (sem_post_ok s c th tk HC). Qed.

(** sem_wait() on every handle: a bad handle gives its error and a non-zero
    semaphore is decremented at once; on a zero semaphore the caller joins the
    tail of its queue and the best other thread runs, and when the caller is
    dispatched again it returns ETIMEDOUT or EINTR without touching the
    semaphore if that is the result of its sleep, and otherwise takes the
    semaphore if it is then non-zero. *)
Theorem sem_wait_spec s c th tk n usem timeout t0 th0 : calm s c th tk ->
  sinv (sch s) -> timeout_fits timeout ->
  t0 <> cur (sch s) -> sth (sch s) !! t0 = Some th0 -> th_state th0 = TH_RUN ->
  match sem_lookup s th tk usem with
  | inr err => sem_wait (S n) usem timeout s = Done err s
  | inl (a, x) =>
      if s_value x =? 0 then
        exists S' k, sem_wait (S n) usem timeout s = Switch (s <| sch := S' |>) k /\
          blocked (sch s) (c <| th_locks := 2 |>) (EvSem a) S' /\ wait_resumes s a k
      else sem_wait (S n) usem timeout s = Done 0 (put_sem a (x <| s_value ::= Z.pred |>) s)
  end.
Proof. intros HC. by apply (sem_wait_ok s c th tk HC). Qed.

End SemProperties.
