(* ===== verification/Mutex.v ===== *)
(** * Mutex: mutexes with priority inheritance, sys/sync/mutex.c *)
From stdpp Require Import base numbers strings gmap list.
From S2P Require Import Prelude Core Timer Sched Kernel.

Open Scope Z_scope.

Section Mutex.
Context {KM : KMem}.

Definition MAXINHERIT := 10.
Definition SIZEOF_MUTEX := 40.
Definition MUTEX_INITIALIZER := 0x4d496e69.

Definition mutex_valid (a : Z) : K bool :=
  k ← cur_task;
  gets (fun s => kern_area a &&
    from_option (fun m => (m_magic m =? MUTEX_MAGIC) && (m_task m =? k)) false (mutexes s !! a)).

Definition mutex_free (a : Z) : K unit := kfree a;; modify (fun s => s <| mutexes ::= delete a |>).

Definition mutex_init (mtx : Z) : K Z :=
  o ← kalloc SIZEOF_MUTEX;
  match o with
  | None => mret ENOMEM
  | Some a =>
      kevent_init (EvMutex a);;
      k ← cur_task;
      modify (fun s => s <| mutexes ::= <[a := mk_mutex MUTEX_MAGIC k NULL MIN_PRIO (junk_int a)]> |>);;
      ok ← copyout_word mtx a;
      if (ok : bool) then mret 0 else mutex_free a;; mret EFAULT
  end.

Definition mutex_destroy (mtx : Z) : K Z :=
  sched_lock;;
  o ← copyin_word mtx;
  err ← (match o with
         | None => mret EFAULT
         | Some a =>
             v ← mutex_valid a;
             if negb v then mret EINVAL else
             m ← rd mutexes a; w ← kevent_waiting (EvMutex a);
             if negb (m_owner m =? NULL) || (w : bool) then mret EBUSY
             else upd_mutex a (fun m => m <| m_magic := 0 |>);; mutex_free a;; mret 0
         end);
  sched_unlock;;
  mret err.

Definition mutex_copyin (umtx : Z) : K (Z + Z) :=
  o ← copyin_word umtx;
  match o with
  | None => mret (inr EFAULT)
  | Some a =>
      if a =? MUTEX_INITIALIZER then
        err ← mutex_init umtx;
        if negb (err =? 0) then mret (inr err)
        else
          (* the value of m is kept if this copy fails *)
          o ← copyin_word umtx;
          mret (inl (default a o))
      else
        v ← mutex_valid a;
        if negb v then mret (inr EINVAL) else mret (inl a)
  end.

(** Priority of the waiter is passed along the chain of owners.  A chain of more
    than MAXINHERIT owners fails the ASSERT. *)
Fixpoint prio_inherit_loop (n : nat) (count : Z) (waiter : tid) (a : Z) : K Z :=
  m ← rd mutexes a;
  let owner := m_owner m in
  if owner =? waiter then mret EDEADLK else
  o ← s_thread owner; w ← s_thread waiter;
  (if th_prio w <? th_prio o then
     lift_s (Sched.sched_setprio owner (th_baseprio o) (th_prio w));;
     upd_mutex a (fun m => m <| m_prio := th_prio w |>)
   else mret tt);;
  ot ← rd thr owner;
  (* ASSERT(count < MAXINHERIT): without DEBUG the loop is left here *)
  if MAXINHERIT <=? count then fault
  else if th_wait_mutex ot =? NULL then mret 0
  else match n with
       | O => fault
       | S n => prio_inherit_loop n (count + 1) waiter (th_wait_mutex ot)
       end.

(** The counter bounds the loop: at most MAXINHERIT + 1 rounds, the last of which
    only looks for the deadlock. *)
Definition prio_inherit (waiter : tid) : K Z :=
  w ← rd thr waiter; prio_inherit_loop (Z.to_nat MAXINHERIT) 0 waiter (th_wait_mutex w).

Fixpoint top_mutex_prio (top : Z) (l : list Z) : K Z :=
  match l with
  | [] => mret top
  | a :: l => m ← rd mutexes a; top_mutex_prio (if m_prio m <? top then m_prio m else top) l
  end.

Definition prio_uninherit (t : tid) : K unit :=
  s ← s_thread t;
  if th_prio s =? th_baseprio s then mret tt
  else
    th ← rd thr t;
    top ← top_mutex_prio (th_baseprio s) (th_mutexes th);
    lift_s (Sched.sched_setprio t (th_baseprio s) top).

(** m->locks = 1; m->owner = cur_thread; list_insert(&cur_thread->mutexes, &m->link): linking a mutex that is on a
    list already is a misuse of its link. *)
Definition mutex_take (a : Z) : K unit :=
  t ← cur_thread;
  linked ← gets (fun s => existsb (fun p => bool_decide (a ∈ th_mutexes p.2)) (map_to_list (thr s)));
  upd_mutex a (fun m => m <| m_locks := 1 |> <| m_owner := t |>);;
  if (linked : bool) then fault
  else upd_thr t (fun th => th <| th_mutexes ::= cons a |>).

Definition mutex_lock (mtx : Z) : K Z :=
  sched_lock;;
  r ← mutex_copyin mtx;
  err ← (match r with
         | inr err => mret err
         | inl a =>
             t ← cur_thread; m ← rd mutexes a;
             if m_owner m =? t then upd_mutex a (fun m => m <| m_locks ::= Z.succ |>);; mret 0
             else if m_owner m =? NULL then
               c ← s_thread t;
               upd_mutex a (fun m => m <| m_prio := th_prio c |>);;
               mutex_take a;; mret 0
             else
               upd_thr t (fun th => th <| th_wait_mutex := a |>);;
               err ← prio_inherit t;
               if negb (err =? 0) then upd_thr t (fun th => th <| th_wait_mutex := NULL |>);; mret err
               else
                 rc ← sched_sleep (EvMutex a);
                 upd_thr t (fun th => th <| th_wait_mutex := NULL |>);;
                 if rc =? SLP_INTR then mret EINTR else mutex_take a;; mret 0
         end);
  sched_unlock;;
  mret err.

Definition mutex_trylock (mtx : Z) : K Z :=
  sched_lock;;
  r ← mutex_copyin mtx;
  err ← (match r with
         | inr err => mret err
         | inl a =>
             t ← cur_thread; m ← rd mutexes a;
             if m_owner m =? t then upd_mutex a (fun m => m <| m_locks ::= Z.succ |>);; mret 0
             else if negb (m_owner m =? NULL) then mret EBUSY
             else mutex_take a;; mret 0
         end);
  sched_unlock;;
  mret err.

(** list_remove(&m->link) for a mutex on the list of thread [t]. *)
Definition mutex_unlink (t : tid) (a : Z) : K unit :=
  th ← rd thr t;
  if bool_decide (a ∈ th_mutexes th) then upd_thr t (fun th => th <| th_mutexes ::= filter (fun x => x <> a) |>)
  else fault.

(** m->owner = sched_wakeone(&m->event), and what depends on it. *)
Definition mutex_handover (a : Z) : K unit :=
  t ← sched_wakeone (EvMutex a);
  upd_mutex a (fun m => m <| m_owner := t |>);;
  (if negb (t =? NULL) then upd_thr t (fun th => th <| th_wait_mutex := NULL |>) else mret tt);;
  p ← (if negb (t =? NULL) then th ← s_thread t; mret (th_prio th) else mret MIN_PRIO);
  upd_mutex a (fun m => m <| m_prio := p |>).

Definition mutex_unlock_count (mtx : Z) : K Z :=
  sched_lock;;
  r ← mutex_copyin mtx;
  err ← (match r with
         | inr err => mret err
         | inl a =>
             t ← cur_thread; m ← rd mutexes a;
             if negb (m_owner m =? t) || (m_locks m <=? 0) then mret EPERM
             else
               upd_mutex a (fun m => m <| m_locks ::= Z.pred |>);;
               m ← rd mutexes a;
               let err := - m_locks m in
               (if err =? 0 then mutex_unlink t a;; prio_uninherit t;; mutex_handover a else mret tt);;
               mret err
         end);
  sched_unlock;;
  mret err.

Definition mutex_unlock (mtx : Z) : K Z := rc ← mutex_unlock_count mtx; mret (if rc <? 0 then 0 else rc).

(** while (!list_empty(head)): one round per mutex held. *)
Fixpoint mutex_cleanup_loop (n : nat) (t : tid) : K unit :=
  th ← rd thr t;
  match th_mutexes th with
  | [] => mret tt
  | a :: _ =>
      match n with
      | O => fault
      | S n =>
          upd_mutex a (fun m => m <| m_locks := 0 |>);;
          mutex_unlink t a;;
          mutex_handover a;;
          mutex_cleanup_loop n t
      end
  end.
Definition mutex_cleanup (t : tid) : K unit := th ← rd thr t; mutex_cleanup_loop (length (th_mutexes th)) t.

Definition mutex_setprio (t : tid) (prio : Z) : K unit :=
  th ← rd thr t; s ← s_thread t;
  if negb (th_wait_mutex th =? NULL) && (prio <? th_prio s) then _ ← prio_inherit t; mret tt else mret tt.
End Mutex.
