(* ===== verification/MutexSpec.v ===== *)
(** * MutexSpec: what the mutex calls do *)
From stdpp Require Import base numbers strings gmap list.
From S2P Require Import Prelude Core Timer Sched SchedInv SchedOps SchedSleep Kernel KernelInv Exec Block Mutex.

Open Scope Z_scope.

Section MutexSpec.
Context {KM : KMem}.

(** The mutex a user handle denotes, or the error; a handle holding
    MUTEX_INITIALIZER is not resolved here. *)
Definition mutex_lookup (s : kst) (th : thread) (tk : task) (umtx : Z) : option ((Z * mutex) + Z) :=
  match user_word (umem s) (tk_map tk) umtx with
  | None => Some (inr EFAULT)
  | Some a =>
      if a =? MUTEX_INITIALIZER then None else
      Some (match mutexes s !! a with
            | Some m =>
                if kern_area a && ((m_magic m =? MUTEX_MAGIC) && (m_task m =? th_task th)) then inl (a, m) else inr EINVAL
            | None => inr EINVAL
            end)
  end.

Lemma mutex_lookup_inl s th tk umtx a m : mutex_lookup s th tk umtx = Some (inl (a, m)) -> mutexes s !! a = Some m.
Proof.
  unfold mutex_lookup. destruct (user_word _ _ _) as [a'|]; [|done]. destruct (_ =? _); [done|].
  destruct (mutexes s !! a') as [x'|] eqn:E; [|done]. destruct (_ && _); [|done]. by intros [= <- <-].
Qed.

Definition handle (r : (Z * mutex) + Z) : Z + Z := match r with inl (a, _) => inl a | inr e => inr e end.

Lemma mutex_copyin_eval s th tk umtx r :
  within s th tk -> mutex_lookup s th tk umtx = Some r -> mutex_copyin umtx s = Done (handle r) s.
Proof.
  intros H. unfold mutex_copyin, mutex_lookup. rewrite (bind_done _ _ _ _ _ (copyin_word_eval _ _ _ umtx H)).
  destruct (user_word _ _ _) as [a|]; [|by intros [= <-]]. destruct (a =? MUTEX_INITIALIZER); [done|]. intros [= <-].
  unfold mutex_valid. unfold mbind at 1, K_bind at 1. rewrite (bind_done _ _ _ _ _ (cur_task_eval _ _ _ H)). cbn [gets rbind].
  destruct (mutexes s !! a) as [m|]; cbn [from_option]; [|by rewrite andb_false_r]. by destruct (kern_area a && _).
Qed.

Definition put_mutex (a : Z) (m : mutex) (s : kst) : kst := s <| mutexes ::= <[a := m]> |>.
Definition put_thr (t : tid) (x : thread) (s : kst) : kst := s <| thr ::= <[t := x]> |>.

Lemma upd_mutex_eval a f s m : mutexes s !! a = Some m -> upd_mutex a f s = Done tt (put_mutex a (f m) s).
Proof. intros E. unfold upd_mutex. by rewrite (bind_done _ _ _ _ _ (rd_eval mutexes s a m E)). Qed.
Lemma upd_thr_eval t f s x : thr s !! t = Some x -> upd_thr t f s = Done tt (put_thr t (f x) s).
Proof. apply upd_thr_run. Qed.

(** The mutex is on no thread's list of held mutexes. *)
Definition unheld (s : kst) (a : Z) : Prop := forall t x, thr s !! t = Some x -> a ∉ th_mutexes x.

Lemma mutex_take_eval s a m x :
  mutexes s !! a = Some m -> thr s !! cur (sch s) = Some x -> unheld s a ->
  mutex_take a s =
    Done tt (put_thr (cur (sch s)) (x <| th_mutexes ::= cons a |>)
      (put_mutex a (m <| m_locks := 1 |> <| m_owner := cur (sch s) |>) s)).
Proof.
  intros Em Ex Hu. unfold mutex_take. assert (cur_thread s = Done (cur (sch s)) s) as E0 by done. rewrite (bind_done _ _ _ _ _ E0).
  rewrite (bind_done (gets _) _ s false s).
  2:{ unfold gets. f_equal. apply Bool.not_true_iff_false. rewrite existsb_exists. intros ([t y]&Hin&Hb).
      apply bool_decide_eq_true in Hb. apply list_elem_of_In, elem_of_map_to_list in Hin. by apply (Hu _ _ Hin). }
  rewrite (bind_done _ _ _ _ _ (upd_mutex_eval a _ s m Em)). by apply upd_thr_eval.
Qed.

(** ** Priority inheritance *)

(** The owners met by following the mutexes that owners wait for, from mutex [a]
    on: at most [n] + 1 of them. *)
Fixpoint owners (n : nat) (s : kst) (a : Z) : list tid :=
  match mutexes s !! a with
  | None => []
  | Some m =>
      m_owner m ::
      match n, thr s !! m_owner m with
      | S n, Some ot => if th_wait_mutex ot =? NULL then [] else owners n s (th_wait_mutex ot)
      | _, _ => []
      end
  end.

(** From mutex [a] on there are at most [n] owners, up to the waiter itself, and
    every structure on the way exists. *)
Fixpoint chain_ok (n : nat) (s : kst) (w : tid) (a : Z) : Prop :=
  exists m, mutexes s !! a = Some m /\
    (m_owner m = w \/
     match n with
     | O => False
     | S n =>
         is_Some (sth (sch s) !! m_owner m) /\
         exists ot, thr s !! m_owner m = Some ot /\ (th_wait_mutex ot = NULL \/ chain_ok n s w (th_wait_mutex ot))
     end).

(** The owners in front of [w]. *)
Fixpoint ahead (w : tid) (l : list tid) : list tid :=
  match l with [] => [] | o :: l => if decide (o = w) then [] else o :: ahead w l end.

(** The threads of two states have the same priorities, except that those on
    [l] have been raised to [p] if theirs was worse. *)
Definition raised (l : list tid) (p : Z) (s s' : sched) : Prop := forall x,
  (fun th => (th_state th, th_prio th, th_baseprio th)) <$> sth s' !! x =
  (fun th => (th_state th, if decide (x ∈ l) then Z.min (th_prio th) p else th_prio th, th_baseprio th)) <$> sth s !! x.

Definition same_chain (s s' : kst) : Prop :=
  thr s' = thr s /\ (forall a, m_owner <$> mutexes s' !! a = m_owner <$> mutexes s !! a) /\
  (forall t, is_Some (sth (sch s) !! t) -> is_Some (sth (sch s') !! t)).

Lemma owners_same n s s' a : same_chain s s' -> owners n s' a = owners n s a.
Proof.
  intros (Et&Em&_). revert a. induction n as [|n IH]; intros a; cbn [owners]; specialize (Em a);
    destruct (mutexes s !! a) as [m|], (mutexes s' !! a) as [m'|]; try done; cbn in Em; injection Em as Em; rewrite Em, ?Et; [done|].
  f_equal. destruct (thr s !! m_owner m) as [ot|]; [|done]. destruct (_ =? _); [done|]. apply IH.
Qed.
Lemma chain_ok_same n s s' w a : same_chain s s' -> chain_ok n s w a -> chain_ok n s' w a.
Proof.
  intros (Et&Em&Es). revert a. induction n as [|n IH]; intros a (m&E&H); cbn [chain_ok]; specialize (Em a); rewrite E in Em;
    destruct (mutexes s' !! a) as [m'|]; try done; cbn in Em; injection Em as Em; exists m'; (split; [done|]); rewrite Em;
    destruct H as [?|H]; try (by left).
  right. destruct H as (?&ot&Eot&H). split; [by apply Es|]. exists ot. rewrite Et. split; [done|]. destruct H as [?|H]; [by left|right; by apply IH].
Qed.

Lemma raised_refl p s : raised [] p s s.
Proof. intros x. destruct (decide (x ∈ [])) as [H|]; [by apply not_elem_of_nil in H|done]. Qed.
Lemma raised_trans l1 l2 p s1 s2 s3 : raised l1 p s1 s2 -> raised l2 p s2 s3 -> raised (l1 ++ l2) p s1 s3.
Proof.
  intros H1 H2 x. specialize (H1 x). specialize (H2 x). rewrite H2. destruct (sth s1 !! x) as [a|], (sth s2 !! x) as [b|]; try done.
  cbn in H1 |- *. injection H1 as Hs Hp Hb. rewrite Hs, Hb. do 3 f_equal.
  destruct (decide (x ∈ l1 ++ l2)) as [H|H]; rewrite elem_of_app in H; destruct (decide (x ∈ l1)), (decide (x ∈ l2)); rewrite Hp; tauto || lia.
Qed.

(** What one round leaves untouched. *)
Record kept (s s' : kst) : Prop := {
  kp_inv : sinv (sch s');
  kp_chain : same_chain s s';
  kp_cur : cur (sch s') = cur (sch s);
  kp_wakeq : wakeq (sch s') = wakeq (sch s);
  kp_sq : forall e, sq (sch s') e = sq (sch s) e;
}.
Lemma kept_refl s : sinv (sch s) -> kept s s.
Proof. by split. Qed.
Lemma kept_trans s1 s2 s3 : kept s1 s2 -> kept s2 s3 -> kept s1 s3.
Proof.
  intros [A1 (A2&A3&A4) A5 A6 A7] [B1 (B2&B3&B4) B5 B6 B7]. split; [done| |congruence..|intros; by rewrite B7].
  split_and!; [congruence|intros; by rewrite B3|auto].
Qed.

(** One owner is raised to the waiter's priority. *)
Definition raise_owner (a : Z) (o : tid) (oth wth : sthread) : K unit :=
  if th_prio wth <? th_prio oth then
    lift_s (sched_setprio o (th_baseprio oth) (th_prio wth));;
    upd_mutex a (fun m => m <| m_prio := th_prio wth |>)
  else mret tt.

Lemma raise_owner_ok s a m o oth w wth :
  sinv (sch s) -> mutexes s !! a = Some m -> sth (sch s) !! o = Some oth -> sth (sch s) !! w = Some wth ->
  exists s', raise_owner a o oth wth s = Done tt s' /\ kept s s' /\ raised [o] (th_prio wth) (sch s) (sch s').
Proof.
  intros I Em Eo Ew. unfold raise_owner. pose proof I as [(W&_) _].
  pose proof (wf_prio _ _ _ W _ _ Eo) as [_ Hb]. pose proof (wf_prio _ _ _ W _ _ Ew) as [Hp _].
  destruct (Z.ltb_spec (th_prio wth) (th_prio oth)) as [Hlt|Hge].
  - destruct (sched_setprio_ok (sch s) o oth _ _ I Eo Hb Hp) as (S'&E'&I'&Hc').
    destruct (sched_setprio_effect _ _ _ _ _ _ I Eo E') as (Hth&Hw&Hs). set (s1 := s <| sch := S' |>).
    assert (lift_s (sched_setprio o (th_baseprio oth) (th_prio wth)) s = Done tt s1) as F1 by (unfold lift_s; by rewrite E').
    rewrite (bind_done _ _ _ _ _ F1), (upd_mutex_eval a _ s1 m Em). eexists. split; [reflexivity|].
    assert (forall x, calmed <$> sth S' !! x = calmed <$> <[o := reprio (th_baseprio oth) (th_prio wth) oth]> (sth (sch s)) !! x) as Hth' by done.
    split; [split; try done|].
    + split_and!; [done| |].
      * intros x. cbn. destruct (decide (x = a)) as [->|?]; [by rewrite lookup_insert_eq, Em|by rewrite lookup_insert_ne].
      * intros t Ht. change (is_Some (sth S' !! t)). specialize (Hth' t). destruct (sth S' !! t); [done|]. exfalso.
        destruct (decide (t = o)) as [->|?]; [by rewrite lookup_insert_eq in Hth'|]. rewrite lookup_insert_ne in Hth' by done.
        destruct Ht as [? Ht]. by rewrite Ht in Hth'.
    + intros x. change (sth (sch (put_mutex a _ s1))) with (sth S'). specialize (Hth' x). destruct (decide (x = o)) as [->|Hne].
      * rewrite lookup_insert_eq in Hth'. rewrite Eo. destruct (sth S' !! o) as [y|]; [|done]. cbn in Hth' |- *.
        rewrite decide_True by (by left). rewrite Z.min_r by lia. injection Hth'. intros. congruence.
      * rewrite lookup_insert_ne in Hth' by done. destruct (decide (x ∈ [o])) as [?%list_elem_of_singleton|_]; [congruence|].
        destruct (sth S' !! x) as [y|], (sth (sch s) !! x) as [z|]; try done. cbn in Hth' |- *. injection Hth'. intros. congruence.
  - exists s. split_and!; [done|by apply kept_refl|]. intros x. destruct (decide (x ∈ [o])) as [->%list_elem_of_singleton|]; [|done].
    rewrite Eo. cbn. rewrite Z.min_l by lia. done.
Qed.

Lemma raised_keeps l p s s' w wth : raised l p s s' -> w ∉ l -> sth s !! w = Some wth ->
  exists wth', sth s' !! w = Some wth' /\ th_prio wth' = th_prio wth.
Proof.
  intros H Hw E. specialize (H w). rewrite E in H. destruct (sth s' !! w) as [y|]; [|done]. exists y. split; [done|].
  cbn in H. rewrite decide_False in H by done. congruence.
Qed.

Lemma prio_inherit_loop_ok n count w a s wth :
  sinv (sch s) -> sth (sch s) !! w = Some wth -> chain_ok n s w a -> count = MAXINHERIT - Z.of_nat n ->
  exists s', prio_inherit_loop n count w a s = Done (if decide (w ∈ owners n s a) then EDEADLK else 0) s' /\
    kept s s' /\ raised (ahead w (owners n s a)) (th_prio wth) (sch s) (sch s').
Proof.
  revert count a s wth. induction n as [|n IH]; intros count a s wth I Ew (m&Em&Hok) Hcount; cbn [prio_inherit_loop owners];
    rewrite (bind_done _ _ _ _ _ (rd_eval mutexes s a m Em)), Em; cbn [ahead];
    (destruct (Z.eqb_spec (m_owner m) w) as [Ho|Ho];
      [rewrite Ho, decide_True by (by left); rewrite decide_True by done; exists s; split_and!; [done|by apply kept_refl|apply raised_refl]|]);
    rewrite (decide_False _ _ Ho); (destruct Hok as [?|Hok]; [done|]); [done|].
  destruct Hok as ((oth&Eo)&ot&Eot&Hok).
  rewrite (bind_done _ _ _ _ _ (s_thread_eval _ _ _ Eo)), (bind_done _ _ _ _ _ (s_thread_eval _ _ _ Ew)).
  destruct (raise_owner_ok s a m (m_owner m) oth w wth I Em Eo Ew) as (s1&E1&K1&R1).
  rewrite (bind_done _ _ _ tt s1) by exact E1. pose proof K1 as [I1 (Et1&_) _ _ _].
  rewrite (bind_done _ _ _ ot s1) by (apply rd_eval; by rewrite Et1).
  rewrite (proj2 (Z.leb_gt _ _)) by lia. rewrite Eot. destruct (Z.eqb_spec (th_wait_mutex ot) NULL) as [Hw|Hw].
    + exists s1. rewrite decide_False by (rewrite list_elem_of_singleton; congruence). done.
    + destruct Hok as [?|Hok]; [done|].
      destruct (raised_keeps _ _ _ _ w wth R1) as (wth1&Ew1&Hp1); [rewrite list_elem_of_singleton; congruence|done|].
      destruct (IH (count + 1) (th_wait_mutex ot) s1 wth1) as (s2&E2&K2&R2); [done|done|by eapply chain_ok_same; [apply K1|]|lia|].
      rewrite (owners_same n s s1) in E2, R2 by apply K1. rewrite Hp1 in R2. exists s2. split_and!.
      * rewrite E2. f_equal. destruct (decide (w ∈ owners n s (th_wait_mutex ot))) as [H|H].
        -- by rewrite decide_True by (by right).
        -- rewrite decide_False; [done|]. rewrite elem_of_cons. intros [?|?]; congruence.
      * by eapply kept_trans.
      * change (m_owner m :: ?l) with ([m_owner m] ++ l). by eapply raised_trans.
Qed.

(** More than [n] owners, none of them the waiter. *)
Fixpoint long_chain (n : nat) (s : kst) (w : tid) (a : Z) : Prop :=
  exists m ot, mutexes s !! a = Some m /\ m_owner m <> w /\ is_Some (sth (sch s) !! m_owner m) /\ thr s !! m_owner m = Some ot /\
    match n with O => True | S n => th_wait_mutex ot <> NULL /\ long_chain n s w (th_wait_mutex ot) end.

Lemma long_chain_same n s s' w a : same_chain s s' -> long_chain n s w a -> long_chain n s' w a.
Proof.
  intros (Et&Em&Es). revert a. induction n as [|n IH]; intros a (m&ot&E&Hw&Hs&Eo&H); cbn [long_chain]; specialize (Em a); rewrite E in Em;
    destruct (mutexes s' !! a) as [m'|]; try done; cbn in Em; injection Em as Em; exists m', ot; rewrite Em, Et; split_and!; auto; [apply H|].
  apply IH, H.
Qed.

Lemma prio_inherit_loop_long n count w a s wth :
  sinv (sch s) -> sth (sch s) !! w = Some wth -> long_chain n s w a -> count = MAXINHERIT - Z.of_nat n ->
  prio_inherit_loop n count w a s = Fault.
Proof.
  revert count a s wth. induction n as [|n IH]; intros count a s wth I Ew (m&ot&Em&Ho&(oth&Eo)&Eot&H) Hcount; cbn [prio_inherit_loop];
    rewrite (bind_done _ _ _ _ _ (rd_eval mutexes s a m Em)), (proj2 (Z.eqb_neq _ _) Ho), (bind_done _ _ _ _ _ (s_thread_eval _ _ _ Eo)),
      (bind_done _ _ _ _ _ (s_thread_eval _ _ _ Ew));
    destruct (raise_owner_ok s a m (m_owner m) oth w wth I Em Eo Ew) as (s1&E1&K1&R1); rewrite (bind_done _ _ _ tt s1) by exact E1;
    pose proof K1 as [I1 (Et1&_) _ _ _]; (rewrite (bind_done _ _ _ ot s1) by (apply rd_eval; by rewrite Et1)).
  - by rewrite (proj2 (Z.leb_le _ _)) by lia.
  - rewrite (proj2 (Z.leb_gt _ _)) by lia. destruct H as [Hn H]. rewrite (proj2 (Z.eqb_neq _ _) Hn).
    destruct (raised_keeps _ _ _ _ w wth R1) as (wth1&Ew1&_); [rewrite list_elem_of_singleton; congruence|done|].
    apply (IH (count + 1) (th_wait_mutex ot) s1 wth1); [done|done|by eapply long_chain_same; [apply K1|]|lia].
Qed.

(** A chain of more than MAXINHERIT owners fails the ASSERT in front of the
    fail-safe exit of the loop. *)
Theorem prio_inherit_long_chain s w x wth :
  sinv (sch s) -> thr s !! w = Some x -> sth (sch s) !! w = Some wth -> long_chain 10 s w (th_wait_mutex x) ->
  prio_inherit w s = Fault.
Proof.
  intros I Ex Ew Hc. unfold prio_inherit. rewrite (bind_done _ _ _ _ _ (rd_eval thr s w x Ex)).
  by apply (prio_inherit_loop_long 10 0 w (th_wait_mutex x) s wth).
Qed.

Context (s : kst) (c : sthread) (th : thread) (tk : task) (HC : calm s c th tk).

Abbreviation me := (cur (sch s)).

Lemma mutex_trylock_ok umtx r : mutex_lookup s th tk umtx = Some r ->
  (forall a m, r = inl (a, m) -> m_owner m = NULL -> unheld s a) ->
  mutex_trylock umtx s =
  match r with
  | inr err => Done err s
  | inl (a, m) =>
      if m_owner m =? me then Done 0 (put_mutex a (m <| m_locks ::= Z.succ |>) s)
      else if m_owner m =? NULL then
        Done 0 (put_thr me (th <| th_mutexes ::= cons a |>) (put_mutex a (m <| m_locks := 1 |> <| m_owner := me |>) s))
      else Done EBUSY s
  end.
Proof.
  intros El Hu. unfold mutex_trylock. rewrite (enter_call s c th tk) by done.
  rewrite (bind_done _ _ _ _ _ (mutex_copyin_eval _ _ _ umtx r (within_call _ _ _ _ HC) El)). destruct r as [[a m]|err]; cbn [handle].
  2:{ eapply (leave_with s); [done|done|done|by apply (reset_sch s _ c)]. }
  pose proof (mutex_lookup_inl _ _ _ _ _ _ El) as Em.
  assert (cur_thread (lock_of c s) = Done me (lock_of c s)) as E0 by done.
  assert (forall f s1 a2 s2, f (lock_of c s) = Done a2 s1 -> sch s1 = locked c (sch s) -> s1 <| sch := sch s |> = s2 ->
    (err ← f; sched_unlock;; mret err) (lock_of c s) = Done (A := Z) a2 s2) as Hlv by (intros; by eapply (leave_with s)).
  destruct (m_owner m =? me) eqn:Ho; [|destruct (m_owner m =? NULL) eqn:Hn].
  all: eapply Hlv; [rewrite (bind_done _ _ _ _ _ E0), (bind_done _ _ _ _ _ (rd_eval mutexes (lock_of c s) a m Em)), Ho, ?Hn; cbn [negb]|..].
  - by rewrite (bind_done _ _ _ _ _ (upd_mutex_eval a _ (lock_of c s) m Em)).
  - done.
  - by destruct s.
  - apply Z.eqb_eq in Hn. by rewrite (bind_done _ _ _ _ _ (mutex_take_eval (lock_of c s) a m th Em (cm_thr _ _ _ _ HC) (Hu _ _ eq_refl Hn))).
  - done.
  - by destruct s.
  - reflexivity.
  - done.
  - by apply (reset_sch s _ c).
Qed.

(** The owner of the mutex a thread sleeps on does not run at a worse priority. *)
Lemma raised_prio l p s1 s2 o oth : raised l p s1 s2 -> o ∈ l -> sth s1 !! o = Some oth -> prio_of s2 o <= p.
Proof.
  intros H Ho E. specialize (H o). rewrite E in H. unfold prio_of. destruct (sth s2 !! o) as [y|]; [|done].
  cbn in H |- *. rewrite decide_True in H by done. injection H. intros. lia.
Qed.

(** What a waiter does when it is dispatched again. *)
Definition lock_resumes (a : Z) (k : kst -> res Z) : Prop := forall s2 c2 x2 m2,
  ready_sched (sch s2) -> cur (sch s2) = me -> sth (sch s2) !! me = Some c2 -> thr s2 !! me = Some x2 ->
  mutexes s2 !! a = Some m2 -> unheld s2 a ->
  let s3 := s2 <| sch ::= relock (fun n => n - 2) c2 |> in
  k s2 = (if th_slpret c2 =? SLP_INTR then Done EINTR (put_thr me (x2 <| th_wait_mutex := NULL |>) s3)
          else Done 0 (put_thr me (x2 <| th_wait_mutex := NULL |> <| th_mutexes ::= cons a |>)
                 (put_mutex a (m2 <| m_locks := 1 |> <| m_owner := me |>) s3))).

Lemma lock_resumes_ok a k0 :
  (forall s2 c2, ready_sched (sch s2) -> cur (sch s2) = me -> sth (sch s2) !! cur (sch s2) = Some c2 ->
     k0 s2 = Done (th_slpret c2) (s2 <| sch ::= relock Z.pred c2 |>)) ->
  lock_resumes a (fun s2 => rbind (rbind (k0 s2) (fun rc =>
    upd_thr me (fun th => th <| th_wait_mutex := NULL |>);;
    if rc =? SLP_INTR then mret EINTR else mutex_take a;; mret 0)) (fun err => sched_unlock;; mret err)).
Proof.
  intros Hk s2 c2 x2 m2 R Hc2 Ec Ex Em Hu. cbv beta zeta. rewrite <- Hc2 in Ec. rewrite (Hk _ _ R Hc2 Ec). cbn [rbind].
  set (s3 := s2 <| sch ::= relock Z.pred c2 |>). set (c3 := c2 <| th_locks ::= Z.pred |>).
  assert (ready_sched (sch s3)) as R3 by (by apply relock_ready).
  assert (sth (sch s3) !! cur (sch s3) = Some c3) as Ec3 by apply lookup_insert_eq.
  rewrite <- relock_twice. fold s3. fold c3. set (x3 := x2 <| th_wait_mutex := NULL |>). set (s4 := put_thr me x3 s3).
  rewrite (bind_done _ _ _ _ _ (upd_thr_eval me _ s3 x2 Ex)). fold x3. fold s4.
  destruct (th_slpret c2 =? SLP_INTR).
  - unfold mret, K_ret. cbn [rbind]. by rewrite (bind_done _ _ _ _ _ (unlock_ready s4 c3 R3 Ec3)).
  - assert (thr s4 !! cur (sch s4) = Some x3) as E4 by (change (cur (sch s4)) with (cur (sch s2)); rewrite Hc2; apply lookup_insert_eq).
    assert (unheld s4 a) as Hu4.
    { intros t y. cbn. rewrite lookup_insert_Some. intros [[_ <-]|[_ E']]; [exact (Hu me x2 Ex)|by apply (Hu t y)]. }
    rewrite (bind_done _ _ _ _ _ (mutex_take_eval s4 a m2 x3 Em E4 Hu4)). unfold mret, K_ret at 1. cbn [rbind].
    change (cur (sch s4)) with (cur (sch s2)). rewrite Hc2. set (s5 := put_thr _ _ _).
    rewrite (bind_done _ _ _ _ _ (unlock_ready s5 c3 R3 Ec3)). unfold K_ret. f_equal. kst_eq.
Qed.

(** mutex_lock() when the mutex is free or already held by the caller. *)
Lemma mutex_lock_ok umtx r : mutex_lookup s th tk umtx = Some r ->
  (forall a m, r = inl (a, m) -> m_owner m = NULL -> unheld s a) ->
  match r with
  | inr err => mutex_lock umtx s = Done err s
  | inl (a, m) =>
      (m_owner m = me -> mutex_lock umtx s = Done 0 (put_mutex a (m <| m_locks ::= Z.succ |>) s)) /\
      (m_owner m = NULL -> me <> NULL ->
       mutex_lock umtx s =
       Done 0 (put_thr me (th <| th_mutexes ::= cons a |>)
         (put_mutex a (m <| m_prio := th_prio c |> <| m_locks := 1 |> <| m_owner := me |>) s)))
  end.
Proof.
  intros El Hu. unfold mutex_lock. rewrite (enter_call s c th tk) by done.
  rewrite (bind_done _ _ _ _ _ (mutex_copyin_eval _ _ _ umtx r (within_call _ _ _ _ HC) El)). destruct r as [[a m]|err]; cbn [handle].
  2:{ eapply (leave_with s); [done|done|done|by apply (reset_sch s _ c)]. }
  pose proof (mutex_lookup_inl _ _ _ _ _ _ El) as Em.
  assert (cur_thread (lock_of c s) = Done me (lock_of c s)) as E0 by done.
  split.
  - intros Ho. eapply (leave_with s); [done| | |].
    + rewrite (bind_done _ _ _ _ _ E0), (bind_done _ _ _ _ _ (rd_eval mutexes (lock_of c s) a m Em)), Ho, Z.eqb_refl.
      by rewrite (bind_done _ _ _ _ _ (upd_mutex_eval a _ (lock_of c s) m Em)).
    + done.
    + by destruct s.
  - intros Hn Hme. eapply (leave_with s); [done| | |].
    + rewrite (bind_done _ _ _ _ _ E0), (bind_done _ _ _ _ _ (rd_eval mutexes (lock_of c s) a m Em)), Hn.
      rewrite (proj2 (Z.eqb_neq NULL me)) by done. change (NULL =? NULL) with true. cbv iota.
      assert (sth (sch (lock_of c s)) !! me = Some (c <| th_locks ::= Z.succ |>)) as Ec by apply lookup_insert_eq.
      rewrite (bind_done _ _ _ _ _ (s_thread_eval (lock_of c s) _ _ Ec)).
      rewrite (bind_done _ _ _ _ _ (upd_mutex_eval a _ (lock_of c s) m Em)).
      set (m1 := m <| m_prio := _ |>).
      rewrite (bind_done _ _ _ _ _ (mutex_take_eval (put_mutex a m1 (lock_of c s)) a m1 th (lookup_insert_eq _ _ _) (cm_thr _ _ _ _ HC) (Hu _ _ eq_refl Hn))).
      reflexivity.
    + done.
    + kst_eq.
Qed.

Lemma mutex_lock_blocks_ok umtx a m t0 th0 :
  sinv (sch s) -> mutex_lookup s th tk umtx = Some (inl (a, m)) -> m_owner m <> me -> m_owner m <> NULL ->
  (let sw := put_thr me (th <| th_wait_mutex := a |>) s in
   chain_ok 10 sw me a /\ me ∉ owners 10 sw a) ->
  t0 <> me -> sth (sch s) !! t0 = Some th0 -> th_state th0 = TH_RUN ->
  exists s1 k, mutex_lock umtx s = Switch s1 k /\ ready_sched (sch s1) /\ cur (sch s1) <> me /\
    sq (sch s1) (EvMutex a) = sq (sch s) (EvMutex a) ++ [me] /\
    prio_of (sch s1) (m_owner m) <= th_prio c /\
    thr s1 !! me = Some (th <| th_wait_mutex := a |>) /\ lock_resumes a k.
Proof.
  intros I El Ho Hn (Hch&Hnw) Hne E0 Hr0. unfold mutex_lock. rewrite (enter_call s c th tk) by done.
  rewrite (bind_done _ _ _ _ _ (mutex_copyin_eval _ _ _ umtx _ (within_call _ _ _ _ HC) El)). cbn [handle].
  pose proof (mutex_lookup_inl _ _ _ _ _ _ El) as Em. pose proof HC as [Ec Hl Hr Hw Et _].
  set (s0 := lock_of c s). assert (cur_thread s0 = Done me s0) as Ecur by done. set (c1 := c <| th_locks ::= Z.succ |>).
  set (sw := put_thr me (th <| th_wait_mutex := a |>) s0).
  assert (same_chain (put_thr me (th <| th_wait_mutex := a |>) s) sw) as Hsame.
  { split_and!; [done|done|]. intros t Ht. cbn. by apply lookup_insert_is_Some'; right. }
  assert (sth (sch sw) !! me = Some c1) as Ecw by apply lookup_insert_eq.
  assert (sinv (sch sw)) as Iw by (by apply (relock_sinv Z.succ)).
  destruct (prio_inherit_loop_ok 10 0 me a sw c1 Iw Ecw) as (s1&E1&K1&R1); [by eapply chain_ok_same|done|].
  rewrite (owners_same 10 _ _ _ Hsame) in E1, R1. rewrite decide_False in E1 by done.
  assert (prio_inherit me sw = Done 0 s1) as Ep.
  { unfold prio_inherit. rewrite (bind_done _ _ _ (th <| th_wait_mutex := a |>) sw) by (apply rd_eval, lookup_insert_eq). exact E1. }
  pose proof K1 as [I1 (Et1&_&Es1) Hc1 Hw1 Hs1]. change (cur (sch sw)) with me in Hc1.
  assert (exists c2, sth (sch s1) !! cur (sch s1) = Some c2) as [c2 Ec2].
  { rewrite Hc1. destruct (Es1 me) as [y Hy]; [by eexists|]. by exists y. }
  assert (exists th2, sth (sch s1) !! t0 = Some th2 /\ th_state th2 = TH_RUN) as (th2&E2&Hr2).
  { specialize (R1 t0). change (sth (sch sw) !! t0) with (<[me := c1]> (sth (sch s)) !! t0) in R1.
    rewrite lookup_insert_ne, E0 in R1 by done. destruct (sth (sch s1) !! t0) as [y|]; [|done]. exists y. split; [done|].
    cbn in R1. congruence. }
  destruct (sched_tsleep_ok s1 c2 (EvMutex a) 0 t0 th2) as (S'&k0&[Esl Hk]&B); try done.
  { by rewrite Hw1. } { by rewrite Hc1. }
  exists (s1 <| sch := S' |>). eexists. split; [|split_and!].
  - eapply bind_switch. rewrite (bind_done _ _ _ _ _ Ecur), (bind_done _ _ _ _ _ (rd_eval mutexes s0 a m Em)).
    rewrite (proj2 (Z.eqb_neq _ _) Ho), (proj2 (Z.eqb_neq _ _) Hn).
    rewrite (bind_done _ _ _ _ _ (upd_thr_eval me _ s0 th Et)). fold sw.
    rewrite (bind_done _ _ _ _ _ Ep). change (negb (0 =? 0)) with false. cbv iota. unfold sched_sleep.
    by rewrite (bind_switch _ _ _ _ _ Esl).
  - apply B.
  - rewrite <- Hc1. apply B.
  - cbn. rewrite (bl_queue _ _ _ _ B), Hc1, Hs1. done.
  - assert (m_owner m ∈ ahead me (owners 10 (put_thr me (th <| th_wait_mutex := a |>) s) a)) as Hin.
    { cbn [owners]. change (mutexes (put_thr _ _ s)) with (mutexes s). rewrite Em. cbn [ahead]. rewrite decide_False by done. by left. }
    destruct Hch as (m'&Em'&Hok). assert (m' = m) as -> by (change (mutexes s !! a = Some m') in Em'; congruence).
    destruct Hok as [?|((oth&Eo)&_)]; [done|].
    assert (prio_of (sch s1) (m_owner m) <= th_prio c1) as Hp.
    { eapply (raised_prio _ _ _ _ _ oth R1 Hin). cbn. by rewrite lookup_insert_ne. }
    unfold prio_of in *. pose proof (bl_others _ _ _ _ B (m_owner m) ltac:(congruence)) as Hb.
    change (sch (s1 <| sch := S' |>)) with S'.
    destruct (sth S' !! m_owner m) as [y|], (sth (sch s1) !! m_owner m) as [z|]; try done. cbn in Hb, Hp |- *.
    injection Hb. intros. congruence.
  - change (thr s1 !! me = Some (th <| th_wait_mutex := a |>)). rewrite Et1. apply lookup_insert_eq.
  - apply lock_resumes_ok. intros s2 c3 R3 Hc3 Ec3. apply Hk; [done|congruence|done].
Qed.

(** ** Unlocking *)

Lemma mutex_unlock_of umtx e s' : 0 <= e -> mutex_unlock_count umtx s = Done e s' -> mutex_unlock umtx s = Done e s'.
Proof.
  intros He E. unfold mutex_unlock. rewrite (bind_done _ _ _ _ _ E). rewrite (proj2 (Z.ltb_ge _ _)) by done. done.
Qed.

Lemma mutex_lookup_err umtx e : mutex_lookup s th tk umtx = Some (inr e) -> 0 <= e.
Proof.
  unfold mutex_lookup. destruct (user_word _ _ _); [|by intros [= <-]]. destruct (_ =? _); [done|].
  destruct (mutexes s !! _); [|by intros [= <-]]. destruct (_ && _); [done|by intros [= <-]].
Qed.

(** mutex_unlock() that does not release the mutex. *)
Lemma mutex_unlock_ok umtx r : mutex_lookup s th tk umtx = Some r ->
  match r with
  | inr err => mutex_unlock umtx s = Done err s
  | inl (a, m) =>
      (m_owner m <> me \/ m_locks m <= 0 -> mutex_unlock umtx s = Done EPERM s) /\
      (m_owner m = me -> 1 < m_locks m -> mutex_unlock umtx s = Done 0 (put_mutex a (m <| m_locks ::= Z.pred |>) s))
  end.
Proof.
  intros El. pose proof (mutex_copyin_eval _ _ _ umtx r (within_call _ _ _ _ HC) El) as Ei.
  destruct r as [[a m]|err]; cbn [handle] in Ei.
  2:{ apply mutex_unlock_of; [by eapply mutex_lookup_err|]. unfold mutex_unlock_count. rewrite (enter_call s c th tk) by done.
      rewrite (bind_done _ _ _ _ _ Ei). eapply (leave_with s); [done|done|done|by apply (reset_sch s _ c)]. }
  pose proof (mutex_lookup_inl _ _ _ _ _ _ El) as Em. assert (cur_thread (lock_of c s) = Done me (lock_of c s)) as E0 by done.
  split.
  - intros Hno. apply mutex_unlock_of; [done|]. unfold mutex_unlock_count. rewrite (enter_call s c th tk) by done.
    rewrite (bind_done _ _ _ _ _ Ei). eapply (leave_with s _ (lock_of c s)); [done| |done|by apply (reset_sch s _ c)].
    rewrite (bind_done _ _ _ _ _ E0), (bind_done _ _ _ _ _ (rd_eval mutexes (lock_of c s) a m Em)).
    assert (negb (m_owner m =? me) || (m_locks m <=? 0) = true) as ->; [|done].
    destruct Hno as [H|H]; [by rewrite (proj2 (Z.eqb_neq _ _) H)|]. rewrite (proj2 (Z.leb_le _ _) H). apply orb_true_r.
  - intros Ho Hl. unfold mutex_unlock. rewrite (bind_done _ _ _ (- Z.pred (m_locks m)) (put_mutex a (m <| m_locks ::= Z.pred |>) s)).
    { rewrite (proj2 (Z.ltb_lt _ _)) by lia. done. }
    unfold mutex_unlock_count. rewrite (enter_call s c th tk) by done. rewrite (bind_done _ _ _ _ _ Ei).
    set (m1 := m <| m_locks ::= Z.pred |>). set (s1 := put_mutex a m1 (lock_of c s)).
    eapply (leave_with s _ s1); [done| |done|by destruct s].
    rewrite (bind_done _ _ _ _ _ E0), (bind_done _ _ _ _ _ (rd_eval mutexes (lock_of c s) a m Em)), Ho, Z.eqb_refl.
    rewrite (proj2 (Z.leb_gt _ _)) by lia. cbn [negb orb].
    rewrite (bind_done _ _ _ _ _ (upd_mutex_eval a _ (lock_of c s) m Em)). fold m1. fold s1.
    rewrite (bind_done _ _ _ _ _ (rd_eval mutexes s1 a m1 (lookup_insert_eq _ _ _))). cbv zeta.
    change (m_locks m1) with (Z.pred (m_locks m)). rewrite (proj2 (Z.eqb_neq _ _)) by lia. done.
Qed.

(** The mutex and its new owner after a release. *)
Definition released (a : Z) (m : mutex) (s' : kst) : kst :=
  put_mutex a (m <| m_locks := 0 |> <| m_owner := NULL |> <| m_prio := MIN_PRIO |>)
    (put_thr me (th <| th_mutexes ::= filter (fun x => x <> a) |>) s').
Definition passed (a : Z) (m : mutex) (t : tid) (x : thread) (p : Z) (s' : kst) : kst :=
  put_mutex a (m <| m_locks := 0 |> <| m_owner := t |> <| m_prio := p |>)
    (put_thr t (x <| th_wait_mutex := NULL |>) (put_thr me (th <| th_mutexes ::= filter (fun x => x <> a) |>) s')).

Lemma mutex_unlink_eval s1 a x :
  thr s1 !! me = Some x -> a ∈ th_mutexes x -> mutex_unlink me a s1 = Done tt (put_thr me (x <| th_mutexes ::= filter (fun y => y <> a) |>) s1).
Proof.
  intros Ex Hin. unfold mutex_unlink. rewrite (bind_done _ _ _ _ _ (rd_eval thr s1 me x Ex)).
  rewrite bool_decide_true by done. by apply upd_thr_eval.
Qed.

(** The handover, with the lock held. *)
Lemma mutex_handover_eval s1 a m c1 :
  sinv (sch s1) -> cur (sch s1) = me -> sth (sch s1) !! me = Some c1 -> th_locks c1 <> 0 -> mutexes s1 !! a = Some m ->
  (sq (sch s1) (EvMutex a) = [] /\
   mutex_handover a s1 = Done tt (put_mutex a (m <| m_owner := NULL |> <| m_prio := MIN_PRIO |>) s1)) \/
  (exists t l1 l2 w S', best_waiter (sch s1) (EvMutex a) t l1 l2 /\ sth (sch s1) !! t = Some w /\ sleeping w = true /\
     woke (sch s1) (EvMutex a) t l1 l2 w S' /\
     forall x, t <> NULL -> thr s1 !! t = Some x ->
       mutex_handover a s1 = Done tt (put_mutex a (m <| m_owner := t |> <| m_prio := th_prio w |>)
         (put_thr t (x <| th_wait_mutex := NULL |>) (s1 <| sch := S' |>)))).
Proof.
  intros I Hc Ec Hl Em. unfold mutex_handover.
  destruct (wakeone_nested_ok (EvMutex a) s1 c1 I) as [[Hq E]|(t&l1&l2&w&S'&B&Et&Hs&E&K)]; [by rewrite Hc|done| |].
  - left. split; [done|]. rewrite (bind_done _ _ _ _ _ E), (bind_done _ _ _ _ _ (upd_mutex_eval a _ s1 m Em)).
    change (NULL =? NULL) with true. cbn [negb]. set (s2 := put_mutex a _ s1).
    rewrite (bind_done _ _ _ tt s2) by done. rewrite (bind_done _ _ _ MIN_PRIO s2) by done.
    rewrite (upd_mutex_eval a _ s2 _ (lookup_insert_eq _ _ _)). f_equal. kst_eq.
  - right. exists t, l1, l2, w, S'. split_and!; try done. intros x Hne Ex.
    set (s' := s1 <| sch := S' |>) in *. assert (mutexes s' !! a = Some m) as Em' by exact Em.
    rewrite (bind_done _ _ _ _ _ E), (bind_done _ _ _ _ _ (upd_mutex_eval a _ s' m Em')).
    rewrite (proj2 (Z.eqb_neq _ _) Hne). cbn [negb]. set (s2 := put_mutex a _ _).
    rewrite (bind_done _ _ _ _ _ (upd_thr_eval t _ s2 x Ex)). set (s3 := put_thr t _ s2).
    assert (sth (sch s3) !! t = Some (w <| th_slpret := SLP_SUCCESS |>)) as E3.
    { change (sth S' !! t = Some (w <| th_slpret := SLP_SUCCESS |>)). rewrite (wk_sth _ _ _ _ _ _ _ K). apply lookup_insert_eq. }
    rewrite (bind_done _ _ _ (th_prio w) s3) by (by rewrite (bind_done _ _ _ _ _ (s_thread_eval s3 t _ E3))).
    rewrite (upd_mutex_eval a _ s3 (m <| m_owner := t |>) (lookup_insert_eq _ _ _)). f_equal. kst_eq.
Qed.

Lemma prio_uninherit_eval s1 c1 :
  sth (sch s1) !! me = Some c1 -> th_prio c1 = th_baseprio c1 -> prio_uninherit me s1 = Done tt s1.
Proof.
  intros E Hp. unfold prio_uninherit. rewrite (bind_done _ _ _ _ _ (s_thread_eval s1 me c1 E)). by rewrite Hp, Z.eqb_refl.
Qed.

Lemma passed_eq a m t x p S1 S' :
  put_mutex a (m <| m_locks := 0 |> <| m_owner := t |> <| m_prio := p |>)
    (put_thr t (x <| th_wait_mutex := NULL |>)
      (put_thr me (th <| th_mutexes ::= filter (fun y => y <> a) |>) (put_mutex a (m <| m_locks := 0 |>) (lock_of c s)) <| sch := S1 |>))
    <| sch := S' |> = passed a m t x p s <| sch := S' |>.
Proof.
  kst_eq.
Qed.

(** The last unlock of a mutex by an owner that has inherited no priority. *)
Lemma mutex_release_ok umtx a m :
  sinv (sch s) -> mutex_lookup s th tk umtx = Some (inl (a, m)) -> m_owner m = me -> m_locks m = 1 ->
  a ∈ th_mutexes th -> th_prio c = th_baseprio c ->
  (sq (sch s) (EvMutex a) = [] /\ mutex_unlock umtx s = Done 0 (released a m s)) \/
  (exists t l1 l2 w, best_waiter (sch s) (EvMutex a) t l1 l2 /\ sth (sch s) !! t = Some w /\
     forall x, th_state (woken w) = TH_RUN -> t <> NULL -> thr s !! t = Some x ->
     exists S', handed (sch s) c t w S' /\ sq S' (EvMutex a) = l1 ++ l2 /\
       completes (mutex_unlock umtx s) (preempts (sch s) c w) 0 (passed a m t x (th_prio w) s <| sch := S' |>)).
Proof.
  intros I El Ho Hl Hin Hp. pose proof (mutex_copyin_eval _ _ _ umtx _ (within_call _ _ _ _ HC) El) as Ei. cbn [handle] in Ei.
  pose proof (mutex_lookup_inl _ _ _ _ _ _ El) as Em. assert (cur_thread (lock_of c s) = Done me (lock_of c s)) as E0 by done.
  pose proof HC as [Ec Hlk Hr Hw Et _]. set (c1 := c <| th_locks ::= Z.succ |>). set (m1 := m <| m_locks := 0 |>).
  set (s1 := put_mutex a m1 (lock_of c s)). set (th1 := th <| th_mutexes ::= filter (fun y => y <> a) |>). set (s2 := put_thr me th1 s1).
  assert (m <| m_locks ::= Z.pred |> = m1) as Hm1 by (unfold m1; destruct m; cbn in *; by rewrite Hl).
  assert (sth (sch s2) !! me = Some c1) as Ec2 by apply lookup_insert_eq.
  (* everything up to the handover *)
  assert (mutex_unlock_count umtx s = (err ← (mutex_handover a;; mret 0); sched_unlock;; mret err) s2) as Epre.
  { unfold mutex_unlock_count. rewrite (enter_call s c th tk) by done. rewrite (bind_done _ _ _ _ _ Ei). apply bind_eq. rewrite (bind_done _ _ _ _ _ E0), (bind_done _ _ _ _ _ (rd_eval mutexes (lock_of c s) a m Em)), Ho, Z.eqb_refl, Hl.
    change (negb true || (1 <=? 0)) with false. cbv iota.
    rewrite (bind_done _ _ _ _ _ (upd_mutex_eval a _ (lock_of c s) m Em)), Hm1. fold s1.
    rewrite (bind_done _ _ _ _ _ (rd_eval mutexes s1 a m1 (lookup_insert_eq _ _ _))). cbv zeta. change (- m_locks m1) with 0.
    change (0 =? 0) with true. cbv iota. apply bind_eq.
    rewrite (bind_done _ _ _ _ _ (mutex_unlink_eval s1 a th Et Hin)). fold th1. fold s2.
    by rewrite (bind_done _ _ _ _ _ (prio_uninherit_eval s2 c1 Ec2 Hp)). }
  assert (sinv (sch s2)) as I2 by (by apply (relock_sinv Z.succ)).
  destruct (mutex_handover_eval s2 a m1 c1 I2 eq_refl Ec2) as [[Hq E]|(t&l1&l2&w&S1&B&Etw&Hs&K&E)];
    [cbn; lia|apply lookup_insert_eq| |].
  - left. split; [done|]. apply mutex_unlock_of; [done|]. rewrite Epre.
    eapply (leave_with s); [done|by rewrite (bind_done _ _ _ _ _ E)|done|].
    kst_eq.
  - right. assert (best_waiter (sch s) (EvMutex a) t l1 l2) as B' by (by apply (best_waiter_relock Z.succ c)).
    destruct (best_waiter_sleeps _ _ _ _ _ I B') as (Hne&w'&Etw'&Hs').
    assert (w' = w) as -> by (cbn in Etw; rewrite lookup_insert_ne in Etw; congruence).
    exists t, l1, l2, w. split_and!; try done. intros x Hrun Hnn Ex.
    assert (thr s2 !! t = Some x) as Ex2 by (cbn; by rewrite lookup_insert_ne).
    specialize (E x Hnn Ex2). set (s3 := put_mutex a _ _) in E.
    destruct (unlock_handed s c s3 (EvMutex a) t l1 l2 w) as (S'&Hh&Hsq&Hcomp); try done.
    exists S'. split_and!; [done|rewrite Hsq; apply (wk_queue _ _ _ _ _ _ _ K)|].
    assert (s3 <| sch := S' |> = passed a m t x (th_prio w) s <| sch := S' |>) as Es3.
    { apply passed_eq. }
    rewrite Es3 in Hcomp. unfold mutex_unlock. eapply (completes_bind _ _ _ _ 0); [|done]. rewrite Epre.
    rewrite (bind_done _ _ _ 0 s3) by (by rewrite (bind_done _ _ _ _ _ E)). eapply completes_bind; [exact Hcomp|done].
Qed.
End MutexSpec.

Section MutexProps.
Context {KM : KMem}.

(** mutex_trylock(): an invalid handle is an error and changes nothing, the
    owner's lock count goes up, a free mutex becomes the caller's with count
    1, and a mutex of another thread gives EBUSY and changes nothing. *)
Theorem mutex_trylock_spec s c th tk umtx r : calm s c th tk -> mutex_lookup s th tk umtx = Some r ->
  (forall a m, r = inl (a, m) -> m_owner m = NULL -> unheld s a) ->
  mutex_trylock umtx s =
  match r with
  | inr err => Done err s
  | inl (a, m) =>
      if m_owner m =? cur (sch s) then Done 0 (put_mutex a (m <| m_locks ::= Z.succ |>) s)
      else if m_owner m =? NULL then
        Done 0 (put_thr (cur (sch s)) (th <| th_mutexes ::= cons a |>)
          (put_mutex a (m <| m_locks := 1 |> <| m_owner := cur (sch s) |>) s))
      else Done EBUSY s
  end.
Proof. intros HC. by apply (mutex_trylock_ok s c th tk HC). Qed.

(** C26: mutex_lock() of a mutex that another thread holds, called by a thread that
    is not itself one of the owners the mutex waits for (no deadlock) along a
    chain of at most MAXINHERIT owners, while some other thread is runnable:
    the caller goes to sleep
    at the end of the mutex's queue and another thread is dispatched; the owner
    now runs at least at the caller's priority; and once the caller is
    dispatched again it owns the mutex, with count 1 and the mutex on its
    list, unless its sleep was interrupted, when it returns EINTR without the
    mutex. *)
Theorem mutex_lock_blocks s c th tk umtx a m t0 th0 :
  calm s c th tk -> sinv (sch s) -> mutex_lookup s th tk umtx = Some (inl (a, m)) ->
  m_owner m <> cur (sch s) -> m_owner m <> NULL ->
  (let sw := put_thr (cur (sch s)) (th <| th_wait_mutex := a |>) s in
   chain_ok 10 sw (cur (sch s)) a /\ cur (sch s) ∉ owners 10 sw a) ->
  t0 <> cur (sch s) -> sth (sch s) !! t0 = Some th0 -> th_state th0 = TH_RUN ->
  exists s1 k, mutex_lock umtx s = Switch s1 k /\ ready_sched (sch s1) /\ cur (sch s1) <> cur (sch s) /\
    sq (sch s1) (EvMutex a) = sq (sch s) (EvMutex a) ++ [cur (sch s)] /\
    prio_of (sch s1) (m_owner m) <= th_prio c /\
    thr s1 !! cur (sch s) = Some (th <| th_wait_mutex := a |>) /\ lock_resumes s a k.
Proof. intros HC. by apply (mutex_lock_blocks_ok s c th tk HC). Qed.

(** C25: priority inheritance: prio_inherit() follows the mutexes that owners wait
    for; every owner in front of the waiter is raised to the waiter's priority
    if its own is worse, no other thread's priority or state changes, and the
    result is EDEADLK exactly when the waiter is itself one of the owners.
    Condition: the chain has at most MAXINHERIT (10) owners in front of the
    waiter or its end; on a longer one the ASSERT of the loop fails (see
    [prio_inherit_long_chain]). *)
Theorem prio_inherit_spec s w x wth :
  sinv (sch s) -> thr s !! w = Some x -> sth (sch s) !! w = Some wth -> chain_ok 10 s w (th_wait_mutex x) ->
  exists s', prio_inherit w s = Done (if decide (w ∈ owners 10 s (th_wait_mutex x)) then EDEADLK else 0) s' /\
    sinv (sch s') /\ cur (sch s') = cur (sch s) /\ (forall e, sq (sch s') e = sq (sch s) e) /\
    raised (ahead w (owners 10 s (th_wait_mutex x))) (th_prio wth) (sch s) (sch s').
Proof.
  intros I Ex Ew Hc. unfold prio_inherit. rewrite (bind_done _ _ _ _ _ (rd_eval thr s w x Ex)).
  destruct (prio_inherit_loop_ok 10 0 w (th_wait_mutex x) s wth I Ew Hc eq_refl) as (s'&E&K&HR).
  exists s'. split; [exact E|]. by destruct K.
Qed.

(** mutex_unlock(): an invalid handle is an error, EPERM is returned to a caller
    that is not the owner, and a lock taken several times is only counted
    down. *)
Theorem mutex_unlock_spec s c th tk umtx r : calm s c th tk -> mutex_lookup s th tk umtx = Some r ->
  match r with
  | inr err => mutex_unlock umtx s = Done err s
  | inl (a, m) =>
      (m_owner m <> cur (sch s) \/ m_locks m <= 0 -> mutex_unlock umtx s = Done EPERM s) /\
      (m_owner m = cur (sch s) -> 1 < m_locks m ->
       mutex_unlock umtx s = Done 0 (put_mutex a (m <| m_locks ::= Z.pred |>) s))
  end.
Proof. intros HC. by apply (mutex_unlock_ok s c th tk HC). Qed.

(** The last mutex_unlock() by its owner: a mutex nobody waits for becomes free;
    otherwise the best waiter is made the owner and woken, the other waiters
    keep their places, and the caller is preempted exactly when the new
    owner's priority demands it. *)
Theorem mutex_release_spec s c th tk umtx a m :
  calm s c th tk -> sinv (sch s) -> mutex_lookup s th tk umtx = Some (inl (a, m)) ->
  m_owner m = cur (sch s) -> m_locks m = 1 -> a ∈ th_mutexes th -> th_prio c = th_baseprio c ->
  (sq (sch s) (EvMutex a) = [] /\ mutex_unlock umtx s = Done 0 (released s th a m s)) \/
  (exists t l1 l2 w, best_waiter (sch s) (EvMutex a) t l1 l2 /\ sth (sch s) !! t = Some w /\
     forall x, th_state (woken w) = TH_RUN -> t <> NULL -> thr s !! t = Some x ->
     exists S', handed (sch s) c t w S' /\ sq S' (EvMutex a) = l1 ++ l2 /\
       completes (mutex_unlock umtx s) (preempts (sch s) c w) 0 (passed s th a m t x (th_prio w) s <| sch := S' |>)).
Proof. intros HC. by apply (mutex_release_ok s c th tk HC). Qed.
End MutexProps.
