(* ===== verification/Cond.v ===== *)
(** * Cond: condition variables, sys/sync/cond.c *)
From stdpp Require Import base numbers strings gmap list.
From S2P Require Import Prelude Core Timer Sched Kernel Mutex.

Open Scope Z_scope.

Section Cond.
Context {KM : KMem}.

Definition SIZEOF_COND := 28.
Definition COND_INITIALIZER := 0x43496e69.

Definition cond_valid (a : Z) : K bool :=
  k ← cur_task;
  gets (fun s => kern_area a &&
    from_option (fun c => (c_magic c =? COND_MAGIC) && (c_task c =? k)) false (conds s !! a)).

Definition cond_free (a : Z) : K unit := kfree a;; modify (fun s => s <| conds ::= delete a |>).

Definition cond_init (cond : Z) : K Z :=
  o ← kalloc SIZEOF_COND;
  match o with
  | None => mret ENOMEM
  | Some a =>
      kevent_init (EvCond a);;
      k ← cur_task;
      modify (fun s => s <| conds ::= <[a := mk_cond COND_MAGIC k 0 0]> |>);;
      ok ← copyout_word cond a;
      if (ok : bool) then mret 0 else cond_free a;; mret EFAULT
  end.

Definition cond_copyin (ucond : Z) : K (Z + Z) :=
  o ← copyin_word ucond;
  match o with
  | None => mret (inr EFAULT)
  | Some a => v ← cond_valid a; if negb v then mret (inr EINVAL) else mret (inl a)
  end.

Definition cond_destroy (cond : Z) : K Z :=
  sched_lock;;
  r ← cond_copyin cond;
  match r with
  | inr err => sched_unlock;; mret err
  | inl a =>
      w ← kevent_waiting (EvCond a);
      if (w : bool) then sched_unlock;; mret EBUSY
      else
        upd_cond a (fun c => c <| c_magic := 0 |>);;
        cond_free a;;
        sched_unlock;;
        mret 0
  end.

(** What cond_wait returns once the mutex is locked again. *)
Definition cond_result (rc : Z) : Z :=
  if rc =? SLP_TIMEOUT then ETIMEDOUT else if rc =? SLP_INTR then EINTR else EINVAL.

(** The part of cond_wait after the condition variable has been found. *)
Definition cond_wait_on (a mtx timeout : Z) : K Z :=
  upd_cond a (fun c => c <| c_wait ::= Z.succ |>);;
  err ← mutex_unlock_count mtx;
  if negb (err =? 0) then
    if err <? 0 then _ ← mutex_lock mtx; sched_unlock;; mret EDEADLK
    else sched_unlock;; mret err
  else
    rc ← sched_tsleep (EvCond a) timeout;
    err ← mutex_lock mtx;
    upd_cond a (fun c => c <| c_wait ::= Z.pred |>);;
    c ← rd conds a;
    err ← (if err =? 0 then
             if negb (c_signal c =? 0) then upd_cond a (fun c => c <| c_signal ::= Z.pred |>);; mret 0
             else mret (cond_result rc)
           else mret err);
    sched_unlock;;
    mret err.

Definition cond_wait (cond mtx timeout : Z) : K Z :=
  o ← copyin_word cond;
  match o with
  | None => mret EFAULT
  | Some a =>
      sched_lock;;
      if a =? COND_INITIALIZER then
        err ← cond_init cond;
        if negb (err =? 0) then sched_unlock;; mret err
        else o ← copyin_word cond; cond_wait_on (default a o) mtx timeout
      else
        v ← cond_valid a;
        if negb v then sched_unlock;; mret EINVAL else cond_wait_on a mtx timeout
  end.

Definition cond_signal (cond : Z) : K Z :=
  sched_lock;;
  r ← cond_copyin cond;
  err ← (match r with
         | inr err => mret err
         | inl a =>
             c ← rd conds a;
             (if c_signal c <? c_wait c then
                upd_cond a (fun c => c <| c_signal ::= Z.succ |>);;
                _ ← sched_wakeone (EvCond a); mret tt
              else mret tt);;
             mret 0
         end);
  sched_unlock;;
  mret err.

Definition cond_broadcast (cond : Z) : K Z :=
  sched_lock;;
  r ← cond_copyin cond;
  err ← (match r with
         | inr err => mret err
         | inl a =>
             c ← rd conds a;
             (if c_signal c <? c_wait c then
                upd_cond a (fun c => c <| c_signal := c_wait c |>);;
                sched_wakeup (EvCond a)
              else mret tt);;
             mret 0
         end);
  sched_unlock;;
  mret err.
End Cond.
