(* ===== verification/Object.v ===== *)
(** * Object: IPC objects and message passing, sys/ipc/object.c and sys/ipc/msg.c *)
From stdpp Require Import base numbers strings gmap list.
From S2P Require Import Prelude Core Timer Sched Kernel.

Open Scope Z_scope.

Section Object.
Context {KM : KMem}.

Definition MAXOBJNAME : nat := 16.
Definition OBJ_MAXBUCKETS := 32.
Definition SIZEOF_OBJECT := 56.
Definition SIZEOF_MSG_HEADER := 12.

Definition object_valid (a : Z) : K bool :=
  gets (fun s => kern_area a && from_option (fun o => o_magic o =? OBJECT_MAGIC) false (objs s !! a)).

(** ** Queues of waiting threads *)

(** The [ipc_link] of thread [t] is on some queue. *)
Definition ipc_linked (t : tid) (s : kst) : bool :=
  existsb (fun p => bool_decide (t ∈ o_sendq p.2 \/ t ∈ o_recvq p.2)) (map_to_list (objs s)).

Definition ipc_without (t : tid) (o : object) : object :=
  o <| o_sendq ::= without t |> <| o_recvq ::= without t |>.

(** queue_remove(&th->ipc_link) *)
Definition ipc_remove (t : tid) : K unit :=
  b ← gets (ipc_linked t);
  if (b : bool) then modify (fun s => s <| objs ::= fmap (ipc_without t) |>) else fault.

(** msg_enqueue(&obj->sendq, th), msg_enqueue(&obj->recvq, th) *)
Definition msg_enqueue_send (a : Z) (t : tid) : K unit :=
  b ← gets (ipc_linked t);
  if (b : bool) then fault else upd_obj a (fun o => o <| o_sendq ::= fun l => l ++ [t] |>).
Definition msg_enqueue_recv (a : Z) (t : tid) : K unit :=
  b ← gets (ipc_linked t);
  if (b : bool) then fault else upd_obj a (fun o => o <| o_recvq ::= fun l => l ++ [t] |>).

(** The best thread of the queue leaves it. *)
Definition msg_dequeue (l : list tid) : K tid :=
  match l with
  | [] => fault
  | t :: _ => top ← getso (fun s => select_top t l (sch s)); ipc_remove top;; mret top
  end.

(** ** msg.c *)

(** kmem_map(): the kernel alias of a user buffer whose bytes are all mapped. *)
Definition kmem_map (a size : Z) : K (option (Z * Z)) :=
  m ← cur_map;
  gets (fun s => match uread (umem s) m a (Z.to_nat size) with Some _ => Some (m, a) | None => None end).

(** Access through the alias. *)
Definition alias_write (p : Z * Z) (bs : list Z) : K unit := fun s =>
  match uwrite (umem s) p.1 p.2 bs with
  | (true, M) => Done tt (s <| umem := M |>)
  | (false, _) => Fault
  end.

(** rep movsb between two places of user memory, one of them a kernel alias:
    byte by byte upwards, so that the bytes in front of an unmapped one have
    been copied, and a destination inside the source repeats it. *)
Inductive moved := MovedAll | NoSource | NoDest.

Fixpoint umove (M : gmap (Z * Z) Z) (src dst : Z * Z) (n : nat) : moved * gmap (Z * Z) Z :=
  match n with
  | O => (MovedAll, M)
  | S n =>
      match M !! src, M !! dst with
      | None, _ => (NoSource, M)
      | _, None => (NoDest, M)
      | Some b, Some _ => umove (<[dst := b]> M) (src.1, src.2 + 1) (dst.1, dst.2 + 1) n
      end
  end.

(** umem_copyout() from the alias of another task's buffer, and umem_copyin() to
    it.  A page fault at the user address is reported, one at the alias is a
    fault of the kernel. *)
Definition copyout_alias (src : Z * Z) (a : Z) (n : nat) : K bool :=
  m ← cur_map;
  (fun s =>
    if umem_ok a (Z.of_nat n) then
      match umove (umem s) src (m, a) n with
      | (MovedAll, M) => Done true (s <| umem := M |>)
      | (NoDest, M) => Done false (s <| umem := M |>)
      | (NoSource, _) => Fault
      end
    else Done false s) : K bool.
Definition copyin_alias (a : Z) (dst : Z * Z) (n : nat) : K bool :=
  m ← cur_map;
  (fun s =>
    if umem_ok a (Z.of_nat n) then
      match umove (umem s) (m, a) dst n with
      | (MovedAll, M) => Done true (s <| umem := M |>)
      | (NoSource, M) => Done false (s <| umem := M |>)
      | (NoDest, _) => Fault
      end
    else Done false s) : K bool.

Definition send_result (rc : Z) : Z :=
  if rc =? SLP_BREAK then EAGAIN else if rc =? SLP_INVAL then EINVAL
  else if rc =? SLP_INTR then EINTR else if rc =? SLP_TIMEOUT then ETIMEDOUT else 0.

(** What msg_send does once the message has been accepted. *)
Definition msg_send_wait (obj timeout : Z) : K Z :=
  t ← cur_thread;
  o ← rd objs obj;
  (match o_recvq o with
   | [] => mret tt
   | _ => r ← msg_dequeue (o_recvq o); sched_unsleep r 0
   end);;
  upd_thr t (fun th => th <| th_sendobj := obj |>);;
  msg_enqueue_send obj t;;
  rc ← sched_tsleep EvIpc timeout;
  (if rc =? SLP_INTR then ipc_remove t else mret tt);;
  upd_thr t (fun th => th <| th_sendobj := NULL |>);;
  sched_unlock;;
  mret (send_result rc).

Definition msg_send (obj msg size timeout : Z) : K Z :=
  if negb (user_area msg) then mret EFAULT else
  if size <? SIZEOF_MSG_HEADER then mret EINVAL else
  sched_lock;;
  v ← object_valid obj;
  if negb v then sched_unlock;; mret EINVAL else
  o ← rd objs obj; k ← cur_task; cap ← task_capable CAP_IPC;
  if negb (o_owner o =? k) && negb cap then sched_unlock;; mret EPERM else
  t ← cur_thread; th ← rd thr t;
  if obj =? th_recvobj th then sched_unlock;; mret EDEADLK else
  km ← kmem_map msg size;
  match km with
  | None => sched_unlock;; mret EFAULT
  | Some kmsg =>
      alias_write kmsg (bytes_of_word k);;
      upd_thr t (fun th => th <| th_msgaddr := kmsg |> <| th_msgsize := size |>);;
      msg_send_wait obj timeout
  end.

(** while (queue_empty(&obj->sendq)) { ... }: at most [n] rounds; 0 when a sender is there. *)
Fixpoint msg_receive_loop (n : nat) (obj timeout : Z) : K Z :=
  t ← cur_thread;
  o ← rd objs obj;
  match o_sendq o with
  | [] =>
      match n with
      | O => fault
      | S n =>
          msg_enqueue_recv obj t;;
          rc ← sched_tsleep EvIpc timeout;
          if negb (rc =? 0) then
            err ← (if rc =? SLP_INVAL then mret EINVAL
                   else if rc =? SLP_INTR then ipc_remove t;; mret EINTR
                   else if rc =? SLP_TIMEOUT then mret ETIMEDOUT
                   else fault);
            upd_thr t (fun th => th <| th_recvobj := NULL |>);;
            mret err
          else msg_receive_loop n obj timeout
      end
  | _ => mret 0
  end.

(** The transfer, when a sender is in the queue. *)
Definition msg_receive_copy (obj msg size : Z) : K Z :=
  t ← cur_thread;
  o ← rd objs obj;
  sd ← msg_dequeue (o_sendq o);
  sth ← rd thr sd;
  let len := if size <? th_msgsize sth then size else th_msgsize sth in
  ok ← (if 0 <? len then copyout_alias (th_msgaddr sth) msg (Z.to_nat len) else mret true);
  if negb ok then
    msg_enqueue_send obj sd;;
    upd_thr t (fun th => th <| th_recvobj := NULL |>);;
    mret EFAULT
  else
    upd_thr t (fun th => th <| th_sender := sd |>);;
    upd_thr sd (fun th => th <| th_receiver := t |>);;
    mret 0.

Definition msg_receive (n : nat) (obj msg size timeout : Z) : K Z :=
  if negb (user_area msg) then mret EFAULT else
  sched_lock;;
  v ← object_valid obj;
  err ← (if negb v then mret EINVAL else
         o ← rd objs obj; k ← cur_task;
         if negb (o_owner o =? k) then mret EACCES else
         t ← cur_thread; th ← rd thr t;
         if negb (th_recvobj th =? NULL) then mret EBUSY else
         upd_thr t (fun th => th <| th_recvobj := obj |>);;
         err ← msg_receive_loop n obj timeout;
         if negb (err =? 0) then mret err else msg_receive_copy obj msg size);
  sched_unlock;;
  mret err.

Definition clear_transmit (t : tid) : K unit :=
  upd_thr t (fun th => th <| th_sender := NULL |> <| th_recvobj := NULL |>).

Definition msg_reply (obj msg size : Z) : K Z :=
  if negb (user_area msg) then mret EFAULT else
  sched_lock;;
  v ← object_valid obj; t ← cur_thread; th ← rd thr t;
  if negb v || negb (obj =? th_recvobj th) then sched_unlock;; mret EINVAL else
  if th_sender th =? NULL then clear_transmit t;; sched_unlock;; mret EINVAL else
  let sd := th_sender th in
  sth ← rd thr sd;
  let len := if size <? th_msgsize sth then size else th_msgsize sth in
  ok ← (if 0 <? len then copyin_alias msg (th_msgaddr sth) (Z.to_nat len) else mret true);
  if negb ok then sched_unlock;; mret EFAULT else
  sched_unsleep sd 0;;
  upd_thr sd (fun th => th <| th_receiver := NULL |>);;
  clear_transmit t;;
  sched_unlock;;
  mret 0.

Definition msg_cleanup (t : tid) : K unit :=
  sched_lock;;
  th ← rd thr t;
  (if negb (th_sendobj th =? NULL) then
     if negb (th_receiver th =? NULL) then upd_thr (th_receiver th) (fun r => r <| th_sender := NULL |>)
     else ipc_remove t
   else mret tt);;
  th ← rd thr t;
  (if negb (th_recvobj th =? NULL) then
     if negb (th_sender th =? NULL) then
       sched_unsleep (th_sender th) SLP_BREAK;;
       th ← rd thr t;
       upd_thr (th_sender th) (fun x => x <| th_receiver := NULL |>)
     else ipc_remove t
   else mret tt);;
  sched_unlock.

(** while (!queue_empty(&obj->sendq)) ..., one round per thread. *)
Fixpoint cancel_sendq (n : nat) (obj : Z) : K unit :=
  o ← rd objs obj;
  match o_sendq o with
  | [] => mret tt
  | t :: l =>
      match n with
      | O => fault
      | S n =>
          upd_obj obj (fun o => o <| o_sendq := l |>);;
          sched_unsleep t SLP_INVAL;;
          cancel_sendq n obj
      end
  end.
Fixpoint cancel_recvq (n : nat) (obj : Z) : K unit :=
  o ← rd objs obj;
  match o_recvq o with
  | [] => mret tt
  | t :: l =>
      match n with
      | O => fault
      | S n =>
          upd_obj obj (fun o => o <| o_recvq := l |>);;
          sched_unsleep t SLP_INVAL;;
          cancel_recvq n obj
      end
  end.
Definition msg_cancel (obj : Z) : K unit :=
  sched_lock;;
  o ← rd objs obj;
  cancel_sendq (length (o_sendq o)) obj;;
  o ← rd objs obj;
  cancel_recvq (length (o_recvq o)) obj;;
  sched_unlock.

(** ** object.c *)

(** A character is a signed char. *)
Definition s8 (b : Z) : Z := if b <? 128 then b else b - 256.
Fixpoint hash_from (h : Z) (l : list Z) : Z :=
  match l with [] => h | b :: l => hash_from (u32 (u32 (u32 (Z.shiftl h 5) + h) + s8 b)) l end.
Definition object_hash (name : list Z) : Z := Z.land (hash_from 0 name) (OBJ_MAXBUCKETS - 1).

Definition bucket (s : kst) (h : Z) : list Z := default [] (obj_table s !! h).

(** strncmp(obj->name, name, MAXOBJNAME) == 0 *)
Definition same_name (x y : list Z) : bool := bool_decide (take MAXOBJNAME x = take MAXOBJNAME y).

Fixpoint find_in (name : list Z) (l : list Z) : K Z :=
  match l with
  | [] => mret NULL
  | a :: l => o ← rd objs a; if same_name (o_name o) name then mret a else find_in name l
  end.
Definition object_find (name : list Z) : K Z := l ← gets (fun s => bucket s (object_hash name)); find_in name l.

Definition object_lookup (name objp : Z) : K Z :=
  len ← umem_strnlen name MAXOBJNAME;
  match len with
  | None => mret EFAULT
  | Some len =>
      if (len =? 0) || (Z.of_nat MAXOBJNAME <=? len) then mret ESRCH else
      o ← umem_copyin name (Z.to_nat (len + 1));
      match o with
      | None => mret EFAULT
      | Some bs =>
          (* str has no terminator: object_hash runs off the array *)
          str ← lift_o (cstr bs);
          sched_lock;;
          a ← object_find str;
          sched_unlock;;
          if a =? NULL then mret ENOENT else
          ok ← copyout_word objp a;
          mret (if (ok : bool) then 0 else EFAULT)
      end
  end.

(** object_hash(name) on the user's own string: it is read up to its
    terminator, however long. *)
Fixpoint user_str (n : nat) (M : gmap (Z * Z) Z) (m a : Z) : option (list Z) :=
  match n with
  | O => None
  | S n => b ← M !! (m, a); if b =? 0 then Some [] else s ← user_str n M m (a + 1); Some (b :: s)
  end.
Definition object_hash_user (name : Z) : K Z :=
  if name =? NULL then mret 0 else
  m ← cur_map; str ← getso (fun s => user_str (S (size (umem s))) (umem s) m name); mret (object_hash str).

(** The part of object_create after the name has been copied in. *)
Definition object_create_named (name objp : Z) (str : list Z) : K Z :=
  sched_lock;;
  ok ← copyout_word objp NULL;
  if negb ok then sched_unlock;; mret EFAULT else
  old ← object_find str;
  if negb (old =? NULL) then sched_unlock;; mret EEXIST else
  o ← kalloc SIZEOF_OBJECT;
  match o with
  | None => sched_unlock;; mret ENOMEM
  | Some a =>
      self ← cur_task;
      modify (fun s => s <| objs ::= <[a := mk_object OBJECT_MAGIC (if name =? NULL then junk_str a else str) self [] []]> |>);;
      h ← object_hash_user name;
      modify (fun s => s <| obj_table ::= <[h := a :: bucket s h]> |>);;
      upd_task self (fun k => k <| tk_objects ::= cons a |>);;
      _ ← copyout_word objp a;
      sched_unlock;;
      mret 0
  end.

Definition object_create (name objp : Z) : K Z :=
  if name =? NULL then object_create_named name objp [] else
  len ← umem_strnlen name MAXOBJNAME;
  match len with
  | None => mret EFAULT
  | Some len =>
      if Z.of_nat MAXOBJNAME <=? len then mret ENAMETOOLONG else
      o ← umem_copyin name (Z.to_nat (len + 1));
      match o with
      | None => mret EFAULT
      | Some bs => str ← lift_o (cstr (take (Z.to_nat len) bs ++ [0])); object_create_named name objp str
      end
  end.

Definition object_destroy (obj : Z) : K Z :=
  sched_lock;;
  v ← object_valid obj;
  err ← (if negb v then mret EINVAL else
         o ← rd objs obj; k ← cur_task;
         if negb (o_owner o =? k) then mret EACCES else
         upd_obj obj (fun o => o <| o_magic := 0 |>);;
         msg_cancel obj;;
         upd_task (o_owner o) (fun k => k <| tk_objects ::= filter (fun x => x <> obj) |>);;
         modify (fun s => s <| obj_table ::= fmap (filter (fun x => x <> obj)) |>);;
         kfree obj;;
         modify (fun s => s <| objs ::= delete obj |>);;
         mret 0);
  sched_unlock;;
  mret err.
End Object.
