(* ===== verification/UserMem.v ===== *)
(** * UserMem: copying to and from user memory

    umem_copyin(), umem_copyout() and umem_strnlen() of the i386 port: what is
    written is read back, other addresses keep their contents, and the length
    that umem_strnlen() reports. *)
From stdpp Require Import base numbers strings gmap list.
From S2P Require Import Prelude Core Timer Sched SchedInv SchedOps SchedSleep Kernel KernelInv Exec Object.

Open Scope Z_scope.

(** ** Words and bytes *)

Lemma byte_at_div w i : 0 <= w -> byte_at w i = w / 2 ^ (8 * Z.of_nat i) mod 256.
Proof.
  intros Hw. unfold byte_at. rewrite Z.shiftr_div_pow2 by lia. change 0xff with (Z.ones 8). by rewrite Z.land_ones by lia.
Qed.

Lemma word_of_bytes_of_word w : 0 <= w < 2 ^ 32 -> word_of_bytes (bytes_of_word w) = w.
Proof.
  intros Hw. unfold bytes_of_word. cbn [seq fmap list_fmap word_of_bytes]. rewrite !byte_at_div by lia.
  change (2 ^ (8 * Z.of_nat 0)) with 1. change (2 ^ (8 * Z.of_nat 1)) with 256. change (2 ^ (8 * Z.of_nat 2)) with 65536.
  change (2 ^ (8 * Z.of_nat 3)) with 16777216. Z.to_euclidean_division_equations. lia.
Qed.

(** ** Ranges of user memory *)

Section UserMem.
Implicit Types M : gmap (Z * Z) Z.

Definition mapped M (m a : Z) (n : nat) : Prop := forall i, 0 <= i < Z.of_nat n -> is_Some (M !! (m, a + i)).

Lemma uread_ok M m a n l :
  uread M m a n = Some l <-> length l = n /\ forall i : nat, (i < n)%nat -> M !! (m, a + Z.of_nat i) = l !! i.
Proof.
  unfold uread. rewrite mapM_Some. split.
  - intros H. pose proof (Forall2_length _ _ _ H) as Hl. rewrite length_seq in Hl. split; [done|]. intros i Hi.
    destruct (lookup_lt_is_Some_2 l i) as [b Hb]; [lia|]. rewrite Hb.
    eapply (Forall2_lookup_lr _ _ _ i i b H); [|done]. by apply lookup_seq.
  - intros [Hl H]. apply Forall2_same_length_lookup. split; [by rewrite length_seq|].
    intros i j b Hi Hb. apply lookup_seq in Hi as [-> Hi]. cbn. by rewrite H.
Qed.

Lemma uwrite_ok M m a bs : mapped M m a (length bs) ->
  exists M', uwrite M m a bs = (true, M') /\
    (forall i : nat, (i < length bs)%nat -> M' !! (m, a + Z.of_nat i) = bs !! i) /\
    (forall m' x, m' <> m \/ x < a \/ a + Z.of_nat (length bs) <= x -> M' !! (m', x) = M !! (m', x)).
Proof.
  revert M a. induction bs as [|b bs IH]; intros M a Hm; cbn [uwrite].
  - exists M. split_and!; [done|cbn; lia|done].
  - destruct (Hm 0) as [v Hv]; [cbn; lia|]. rewrite Z.add_0_r in Hv. rewrite Hv.
    destruct (IH (<[(m, a) := b]> M) (a + 1)) as (M'&E&Hin&Hout).
    { intros i Hi. apply lookup_insert_is_Some'. right. replace (a + 1 + i) with (a + (i + 1)) by lia. apply Hm. cbn; lia. }
    exists M'. split_and!; [done| |].
    + intros [|i] Hi; cbn.
      * rewrite Z.add_0_r, Hout by lia. apply lookup_insert_eq.
      * rewrite <- Hin by (cbn in Hi; lia). do 2 f_equal. lia.
    + intros m' x Hx. rewrite Hout by (cbn in Hx; lia). apply lookup_insert_ne. intros [= -> ->]. cbn in Hx. lia.
Qed.

(** A write that succeeds had its whole range mapped. *)
Lemma uwrite_mapped M m a bs M' : uwrite M m a bs = (true, M') -> mapped M m a (length bs).
Proof.
  revert M a. induction bs as [|b bs IH]; intros M a; cbn [uwrite]; [intros _ i Hi; cbn in Hi; lia|].
  destruct (M !! (m, a)) as [v|] eqn:Hv; [|done]. intros H i Hi. destruct (decide (i = 0)) as [->|]; [rewrite Z.add_0_r; by eexists|].
  specialize (IH _ _ H (i - 1) ltac:(cbn in Hi; lia)). apply lookup_insert_is_Some in IH.
  replace (a + 1 + (i - 1)) with (a + i) in IH by lia. destruct IH as [[= ?]|[_ ?]]; [lia|done].
Qed.

Lemma uwrite_read M m a bs M' : uwrite M m a bs = (true, M') -> uread M' m a (length bs) = Some bs.
Proof.
  intros E. destruct (uwrite_ok M m a bs) as (M1&E1&Hin&_); [by eapply uwrite_mapped|]. assert (M1 = M') as -> by congruence.
  apply uread_ok. split; [done|]. exact Hin.
Qed.

(** ** Moving *)

(** Unless the destination starts inside the source, moving is reading and then
    writing. *)
Lemma umove_ok M sm sa dm da n bs :
  uread M sm sa n = Some bs -> mapped M dm da n -> (sm <> dm \/ da <= sa \/ sa + Z.of_nat n <= da) ->
  exists M', umove M (sm, sa) (dm, da) n = (MovedAll, M') /\ uwrite M dm da bs = (true, M').
Proof.
  revert M sa da bs. induction n as [|n IH]; intros M sa da bs; rewrite uread_ok; intros [Hl Hrd] Hm Hd; cbn [umove].
  - exists M. destruct bs; [done|done].
  - destruct bs as [|b bs]; [done|]. injection Hl as Hl. pose proof (Hrd 0%nat ltac:(lia)) as Hb. rewrite Z.add_0_r in Hb. cbn in Hb.
    destruct (Hm 0) as [v Hv]; [lia|]. rewrite Z.add_0_r in Hv. rewrite Hb, Hv. cbn [uwrite fst snd]. rewrite Hv.
    apply IH; [|intros i Hi|lia].
    + apply uread_ok. split; [done|]. intros i Hi. rewrite lookup_insert_ne by (intros [= -> ?]; lia).
      specialize (Hrd (S i) ltac:(lia)). change ((b :: bs) !! S i) with (bs !! i) in Hrd. rewrite <- Hrd. do 2 f_equal. lia.
    + apply lookup_insert_is_Some'. right. replace (da + 1 + i) with (da + (i + 1)) by lia. apply Hm. lia.
Qed.

(** ** String length *)

Lemma scasb_bound M m a n i len : scasb M m a n i = Some len -> i - 1 <= len < i + Z.of_nat n.
Proof.
  revert a i. induction n as [|n IH]; intros a i; cbn [scasb]; [intros [= <-]; lia|].
  destruct (M !! (m, a)) as [b|]; [|done]. cbn [mbind option_bind]. destruct (b =? 0); [intros [= <-]; lia|].
  intros H%IH. lia.
Qed.

(** The length of a terminated string. *)
Lemma scasb_string M m a n i (str : list Z) :
  (length str < n)%nat -> (forall j b, str !! j = Some b -> b <> 0 /\ M !! (m, a + Z.of_nat j) = Some b) ->
  M !! (m, a + Z.of_nat (length str)) = Some 0 -> scasb M m a n i = Some (i + Z.of_nat (length str)).
Proof.
  revert a n i. induction str as [|b str IH]; intros a [|n] i Hn Hs Hz; cbn in Hn; try lia; cbn [scasb].
  - cbn in Hz. rewrite Z.add_0_r in Hz. rewrite Hz. cbn. f_equal. lia.
  - destruct (Hs 0%nat b eq_refl) as [Hb Hl]. cbn in Hl. rewrite Z.add_0_r in Hl. rewrite Hl. cbn [mbind option_bind].
    rewrite (proj2 (Z.eqb_neq _ _) Hb). rewrite (IH (a + 1) n (i + 1)); [f_equal; cbn; lia|lia| |].
    + intros j b' Hj. destruct (Hs (S j) b' Hj) as [? Hl']. split; [done|]. rewrite <- Hl'. do 2 f_equal. lia.
    + rewrite <- Hz. do 2 f_equal. cbn. lia.
Qed.
End UserMem.

Section UserCalls.
Context {KM : KMem}.

(** A word copied out to user memory is the word copied in from there: if
    copyout of [w] to [a] succeeds, copyin at [a] then returns [w]; the other
    bytes of the address space and all other address spaces keep their
    contents. *)
Theorem copyout_copyin s th tk a w s' :
  within s th tk -> 0 <= w < 2 ^ 32 -> copyout_word a w s = Done true s' ->
  copyin_word a s' = Done (Some w) s' /\
  forall m x, m <> tk_map tk \/ x < a \/ a + 4 <= x -> umem s' !! (m, x) = umem s !! (m, x).
Proof.
  intros H Hw. rewrite (copyout_word_eval _ _ _ a w H). unfold write_word.
  destruct (umem_ok a 4) eqn:Ha; [|done]. destruct (uwrite (umem s) (tk_map tk) a (bytes_of_word w)) as [ok M'] eqn:E.
  intros [= Hok <-]. cbn [fst] in Hok. subst ok.
  match goal with |- copyin_word a ?x = _ /\ _ => set (s2 := x) end.
  assert (within s2 th tk) as H' by (by destruct H). rewrite (copyin_word_eval _ _ _ a H').
  unfold user_word. rewrite Ha. change (umem s2) with M'. change 4%nat with (length (bytes_of_word w)).
  rewrite (uwrite_read _ _ _ _ _ E). cbn [fmap option_fmap option_map]. rewrite word_of_bytes_of_word by done. split; [done|].
  intros m x Hx. destruct (uwrite_ok (umem s) (tk_map tk) a (bytes_of_word w)) as (M1&E1&_&Hout); [by eapply uwrite_mapped|].
  assert (M1 = M') as -> by congruence. by apply Hout.
Qed.

Lemma umem_strnlen_below s name n len s' : umem_strnlen name n s = Done (Some len) s' -> len < Z.of_nat n.
Proof.
  unfold umem_strnlen, cur_map, cur_task, cur_thread, rd, gets, getso, mbind, K_bind. cbn [rbind].
  destruct (thr s !! cur (sch s)) as [x|]; [|done]. cbn [rbind]. unfold mret, K_ret. cbn [rbind].
  destruct (tasks s !! th_task x) as [k|]; [|done]. cbn [rbind]. destruct (UMEM_MAX <=? name); [done|].
  intros [= H _]. apply scasb_bound in H. lia.
Qed.

(** umem_strnlen() never reports a length of [maxlen] or more, terminated or
    not, so the test for names that are too long never fires: whatever the
    name, object_create() gets past it, to the copy of the name or to its
    page fault. *)
Theorem strnlen_below_max s name objp : name <> NULL ->
  (forall n len s', umem_strnlen name n s = Done (Some len) s' -> len < Z.of_nat n) /\
  (object_create name objp s = Fault \/
   (exists s', umem_strnlen name MAXOBJNAME s = Done None s' /\ object_create name objp s = Done EFAULT s') \/
   (exists len s', umem_strnlen name MAXOBJNAME s = Done (Some len) s' /\
      object_create name objp s =
      (o ← umem_copyin name (Z.to_nat (len + 1));
       match o with
       | None => mret EFAULT
       | Some bs => str ← lift_o (cstr (take (Z.to_nat len) bs ++ [0])); object_create_named name objp str
       end) s')).
Proof.
  intros Hn. split; [intros; by eapply umem_strnlen_below|]. unfold object_create. rewrite (proj2 (Z.eqb_neq _ _) Hn).
  destruct (umem_strnlen name MAXOBJNAME s) as [[len|] s'|s' k|] eqn:E.
  - right; right. exists len, s'. split; [done|]. rewrite (bind_done _ _ _ _ _ E).
    apply umem_strnlen_below in E. by rewrite (proj2 (Z.leb_gt _ _) E).
  - right; left. exists s'. split; [done|]. by rewrite (bind_done _ _ _ _ _ E).
  - exfalso. revert E. unfold umem_strnlen, cur_map, cur_task, cur_thread, rd, gets, getso, mbind, K_bind. cbn [rbind].
    destruct (thr s !! cur (sch s)) as [x|]; [|done]. cbn [rbind]. unfold mret, K_ret. cbn [rbind].
    by destruct (tasks s !! th_task x) as [y|].
  - left. by rewrite (bind_fault _ _ _ E).
Qed.
End UserCalls.
