(* ===== verification/MsgSpec.v ===== *)
(** * MsgSpec: what message passing transfers

    msg_receive() with a sender in the queue and msg_reply(): which bytes move
    between the two address spaces, who is connected to whom, and who runs. *)
From stdpp Require Import base numbers strings gmap list.
From S2P Require Import Prelude Core Timer Sched SchedInv SchedOps SchedSleep Kernel KernelInv Exec Block Object UserMem.

Open Scope Z_scope.

Section MsgSpec.
Context {KM : KMem}.

Definition min_len (size : Z) (x : thread) : Z := if size <? th_msgsize x then size else th_msgsize x.

Lemma object_valid_eval s obj o : objs s !! obj = Some o -> object_valid obj s = Done (kern_area obj && (o_magic o =? OBJECT_MAGIC)) s.
Proof. intros E. unfold object_valid, gets. by rewrite E. Qed.

(** The two buffers of a transfer of [n] bytes lie so that the copy upwards does
    not run into its own output: in different address spaces, or the
    destination does not start inside the source. *)
Definition apart (src dst : Z * Z) (n : Z) : Prop := src.1 <> dst.1 \/ dst.2 <= src.2 \/ src.2 + n <= dst.2.

Lemma copyout_alias_eval s th tk src a n bs :
  within s th tk -> umem_ok a (Z.of_nat n) = true -> uread (umem s) src.1 src.2 n = Some bs ->
  mapped (umem s) (tk_map tk) a n -> apart src (tk_map tk, a) (Z.of_nat n) ->
  exists M', copyout_alias src a n s = Done true (s <| umem := M' |>) /\ uwrite (umem s) (tk_map tk) a bs = (true, M').
Proof.
  intros H Ha Hr Hm Hd. destruct src as [sm sa]. destruct (umove_ok _ sm sa _ a _ _ Hr Hm Hd) as (M'&E&Ew). exists M'. split; [|done].
  unfold copyout_alias. rewrite (bind_done _ _ _ _ _ (cur_map_eval _ _ _ H)). by rewrite Ha, E.
Qed.
Lemma copyin_alias_eval s th tk a dst n bs :
  within s th tk -> umem_ok a (Z.of_nat n) = true -> uread (umem s) (tk_map tk) a n = Some bs ->
  mapped (umem s) dst.1 dst.2 n -> apart (tk_map tk, a) dst (Z.of_nat n) ->
  exists M', copyin_alias a dst n s = Done true (s <| umem := M' |>) /\ uwrite (umem s) dst.1 dst.2 bs = (true, M').
Proof.
  intros H Ha Hr Hm Hd. destruct dst as [dm da]. destruct (umove_ok _ _ _ dm da _ _ Hr Hm Hd) as (M'&E&Ew). exists M'. split; [|done].
  unfold copyin_alias. rewrite (bind_done _ _ _ _ _ (cur_map_eval _ _ _ H)). by rewrite Ha, E.
Qed.

(** ipc_remove() of a queued thread. *)
Lemma ipc_remove_eval s t obj o : objs s !! obj = Some o -> t ∈ o_sendq o ->
  ipc_remove t s = Done tt (s <| objs ::= fmap (ipc_without t) |>).
Proof.
  intros E Hin. unfold ipc_remove. rewrite (bind_done _ _ _ true s); [done|]. unfold gets, ipc_linked. f_equal.
  apply existsb_exists. exists (obj, o). split; [by apply list_elem_of_In, elem_of_map_to_list|].
  apply bool_decide_eq_true. by left.
Qed.

(** The best sender of a queue: the first one of the best priority. *)
Record best_sender (s : kst) (o : object) (sd : tid) (l1 l2 : list tid) : Prop := {
  bs_queue : o_sendq o = l1 ++ sd :: l2;
  bs_before : forall x, x ∈ l1 -> prio_of (sch s) sd < prio_of (sch s) x;
  bs_after : forall x, x ∈ l2 -> prio_of (sch s) sd <= prio_of (sch s) x;
  bs_alive : forall x, x ∈ o_sendq o -> is_Some (sth (sch s) !! x);
}.

Lemma msg_dequeue_eval s obj o sd l1 l2 : objs s !! obj = Some o -> best_sender s o sd l1 l2 ->
  msg_dequeue (o_sendq o) s = Done sd (s <| objs ::= fmap (ipc_without sd) |>).
Proof.
  intros E [Q B A H]. unfold msg_dequeue. destruct (o_sendq o) as [|t l] eqn:El; [by destruct l1|].
  rewrite (bind_done _ _ _ sd s) by (unfold getso; by rewrite (select_top_best _ _ _ _ _ _ H Q B A)).
  rewrite (bind_done _ _ _ _ _ (ipc_remove_eval s sd obj o E ltac:(rewrite El, Q; apply elem_of_app; right; by left))). done.
Qed.

Context (s : kst) (c : sthread) (th : thread) (tk : task) (HC : calm s c th tk).
Abbreviation me := (cur (sch s)).

(** The caller may receive from the object. *)
Record receivable (obj : Z) (o : object) : Prop := {
  rv_obj : objs s !! obj = Some o;
  rv_area : kern_area obj = true;
  rv_magic : o_magic o = OBJECT_MAGIC;
  rv_owner : o_owner o = th_task th;
  rv_idle : th_recvobj th = NULL;
}.

(** The state after the transfer of a message. *)
Definition connected (obj : Z) (sd : tid) (x : thread) (M' : gmap (Z * Z) Z) : kst :=
  s <| objs ::= fmap (ipc_without sd) |>
    <| thr := <[sd := x <| th_receiver := me |>]> (<[me := th <| th_recvobj := obj |> <| th_sender := sd |>]> (thr s)) |>
    <| umem := M' |>.

Lemma msg_receive_ok n obj o msg size timeout sd l1 l2 x bs :
  user_area msg = true -> receivable obj o -> best_sender s o sd l1 l2 -> sd <> me -> thr s !! sd = Some x ->
  0 < min_len size x -> uread (umem s) (th_msgaddr x).1 (th_msgaddr x).2 (Z.to_nat (min_len size x)) = Some bs ->
  umem_ok msg (min_len size x) = true -> mapped (umem s) (tk_map tk) msg (Z.to_nat (min_len size x)) ->
  apart (th_msgaddr x) (tk_map tk, msg) (min_len size x) ->
  exists M', msg_receive n obj msg size timeout s = Done 0 (connected obj sd x M') /\ uwrite (umem s) (tk_map tk) msg bs = (true, M').
Proof.
  intros Hm [Eo Ha Hmg Hown Hid] B Hne Ex Hlen Hrd Hok Hmap Hap. unfold msg_receive. rewrite Hm. cbn [negb].
  rewrite (enter_call s c th tk) by done. set (s0 := lock_of c s).
  rewrite (bind_done _ _ _ _ _ (object_valid_eval s0 obj o Eo)), Ha, Hmg. cbn [andb]. rewrite Z.eqb_refl. cbn [negb].
  pose proof (within_call _ _ _ _ HC) as Hin. pose proof HC as [Ec Hl Hr Hw Et Htk].
  set (th1 := th <| th_recvobj := obj |>). set (s1 := s0 <| thr ::= <[me := th1]> |>).
  set (s2 := s1 <| objs ::= fmap (ipc_without sd) |>).
  assert (within s2 th1 tk) as Hin2 by (split; [apply lookup_insert_eq|done]).
  destruct (copyout_alias_eval s2 th1 tk (th_msgaddr x) msg (Z.to_nat (min_len size x)) bs Hin2) as (M'&Ecp&Ew); [by rewrite Z2Nat.id by lia|done|done|by rewrite Z2Nat.id by lia|].
  exists M'. split; [|done]. set (s3 := s2 <| umem := M' |>).
  set (s4 := s3 <| thr ::= <[me := th1 <| th_sender := sd |>]> |>). set (s5 := s4 <| thr ::= <[sd := x <| th_receiver := me |>]> |>).
  assert (cur_thread s0 = Done me s0) as E0 by done. assert (cur_thread s1 = Done me s1) as E1 by done.
  assert (thr s1 !! sd = Some x) as Ex1 by (cbn; by rewrite lookup_insert_ne).
  assert (msg_receive_loop n obj timeout s1 = Done 0 s1) as Eloop.
  { destruct n; cbn [msg_receive_loop]; rewrite (bind_done _ _ _ _ _ E1), (bind_done _ _ _ _ _ (rd_eval objs s1 obj o Eo));
      destruct B as [Q _ _ _]; rewrite Q; by destruct l1. }
  assert (best_sender s1 o sd l1 l2) as B1.
  { destruct B as [Q B1 B2 B3].
    assert (forall y, prio_of (sch s1) y = prio_of (sch s) y) as Hp by (intros y; by apply (prio_of_relock Z.succ c)).
    split; [done|..]; intros y Hy; rewrite ?Hp; [by apply B1|by apply B2|]. cbn. apply lookup_insert_is_Some'. right. by apply B3. }
  assert (msg_receive_copy obj msg size s1 = Done 0 s5) as Ecopy.
  { unfold msg_receive_copy. rewrite (bind_done _ _ _ _ _ E1), (bind_done _ _ _ _ _ (rd_eval objs s1 obj o Eo)).
    rewrite (bind_done _ _ _ _ _ (msg_dequeue_eval s1 obj o sd l1 l2 Eo B1)). fold s2.
    rewrite (bind_done _ _ _ _ _ (rd_eval thr s2 sd x Ex1)). cbv zeta. fold (min_len size x).
    rewrite (proj2 (Z.ltb_lt _ _) Hlen). rewrite (bind_done _ _ _ _ _ Ecp). fold s3.
    cbn [negb]. rewrite (bind_done _ _ _ _ _ (upd_thr_run me _ s3 th1 (lookup_insert_eq _ _ _))). fold s4.
    assert (thr s4 !! sd = Some x) as Ex4 by (cbn; rewrite lookup_insert_ne by done; exact Ex1).
    by rewrite (bind_done _ _ _ _ _ (upd_thr_run sd _ s4 x Ex4)). }
  eapply (leave_with s _ s5); [done| |done|].
  - rewrite (bind_done _ _ _ _ _ (rd_eval objs s0 obj o Eo)), (bind_done _ _ _ _ _ (cur_task_eval _ _ _ Hin)).
    rewrite Hown, Z.eqb_refl. cbn [negb]. rewrite (bind_done _ _ _ _ _ E0), (bind_done _ _ _ _ _ (rd_eval thr s0 me th Et)).
    rewrite Hid. change (NULL =? NULL) with true. cbn [negb].
    rewrite (bind_done _ _ _ _ _ (upd_thr_run me _ s0 th Et)). fold th1. fold s1. rewrite (bind_done _ _ _ _ _ Eloop).
    change (negb (0 =? 0)) with false. exact Ecopy.
  - apply kst_ext; try reflexivity. change (<[sd := x <| th_receiver := me |>]> (<[me := th1 <| th_sender := sd |>]> (<[me := th1]> (thr s))) =
      <[sd := x <| th_receiver := me |>]> (<[me := th1 <| th_sender := sd |>]> (thr s))). by rewrite insert_insert_eq.
Qed.

(** The state after a reply. *)
Definition replied (sd : tid) (x : thread) (M' : gmap (Z * Z) Z) : kst :=
  s <| thr := <[me := th <| th_sender := NULL |> <| th_recvobj := NULL |>]> (<[sd := x <| th_receiver := NULL |>]> (thr s)) |>
    <| umem := M' |>.

Lemma msg_reply_ok obj o msg size sd x w bs :
  sinv (sch s) -> user_area msg = true -> objs s !! obj = Some o -> kern_area obj = true -> o_magic o = OBJECT_MAGIC ->
  th_recvobj th = obj -> th_sender th = sd -> sd <> NULL -> sd <> me -> thr s !! sd = Some x -> 0 < min_len size x ->
  umem_ok msg (min_len size x) = true -> uread (umem s) (tk_map tk) msg (Z.to_nat (min_len size x)) = Some bs ->
  mapped (umem s) (th_msgaddr x).1 (th_msgaddr x).2 (Z.to_nat (min_len size x)) ->
  apart (tk_map tk, msg) (th_msgaddr x) (min_len size x) ->
  sth (sch s) !! sd = Some w -> sleeping w = true -> th_slpevt w = Some EvIpc -> th_state (woken w) = TH_RUN ->
  exists M' S', handed (sch s) c sd w S' /\ uwrite (umem s) (th_msgaddr x).1 (th_msgaddr x).2 bs = (true, M') /\
    completes (msg_reply obj msg size s) (preempts (sch s) c w) 0 (replied sd x M' <| sch := S' |>).
Proof.
  intros I Hm Eo Ha Hmg Hro Hsd Hnn Hne Ex Hlen Hok Hrd Hmap Hap Ew Hs He Hrun. unfold msg_reply. rewrite Hm. cbn [negb].
  rewrite (enter_call s c th tk) by done. set (s0 := lock_of c s).
  rewrite (bind_done _ _ _ _ _ (object_valid_eval s0 obj o Eo)), Ha, Hmg. cbn [andb]. rewrite Z.eqb_refl.
  pose proof (within_call _ _ _ _ HC) as Hin. pose proof HC as [Ec Hl Hr Hwq Et Htk].
  assert (cur_thread s0 = Done me s0) as E0 by done.
  rewrite (bind_done _ _ _ _ _ E0), (bind_done _ _ _ _ _ (rd_eval thr s0 me th Et)), Hro, Z.eqb_refl. cbn [negb orb].
  rewrite Hsd, (proj2 (Z.eqb_neq _ _) Hnn). cbv zeta. rewrite (bind_done _ _ _ _ _ (rd_eval thr s0 sd x Ex)).
  fold (min_len size x). rewrite (proj2 (Z.ltb_lt _ _) Hlen). 
  destruct (copyin_alias_eval s0 th tk msg (th_msgaddr x) (Z.to_nat (min_len size x)) bs Hin) as (M'&Ecp&Ewr); [by rewrite Z2Nat.id by lia|done|done|by rewrite Z2Nat.id by lia|].
  set (s1 := s0 <| umem := M' |>). exists M'. rewrite (bind_done _ _ _ _ _ Ecp). fold s1.
  cbn [negb]. set (c1 := c <| th_locks ::= Z.succ |>).
  destruct (unsleep_nested_ok s1 c1 EvIpc sd w) as (l1&l2&S1&Eq&Eu&K); try done.
  { by apply (relock_sinv Z.succ). } { apply lookup_insert_eq. } { cbn. lia. } { cbn. by rewrite lookup_insert_ne. }
  { change (wakeq (sch s1)) with (wakeq (sch s)). rewrite Hwq. apply not_elem_of_nil. }
  rewrite (bind_done _ _ _ _ _ Eu). set (s2 := s1 <| sch := S1 |>).
  rewrite (bind_done _ _ _ _ _ (upd_thr_run sd _ s2 x Ex)). set (s3 := s2 <| thr ::= _ |>).
  assert (thr s3 !! me = Some th) as Et3 by (cbn; by rewrite lookup_insert_ne).
  unfold clear_transmit. rewrite (bind_done _ _ _ _ _ (upd_thr_run me _ s3 th Et3)). set (s4 := s3 <| thr ::= _ |>).
  destruct (unlock_handed s c s4 EvIpc sd l1 l2 w) as (S'&Hh&_&Hcomp); try done.
  exists S'. split; [done|]. split; [done|]. assert (s4 <| sch := S' |> = replied sd x M' <| sch := S' |>) as Es4 by kst_eq. rewrite Es4 in Hcomp.
  eapply completes_bind; [exact Hcomp|done].
Qed.
End MsgSpec.

Section MsgProperties.
Context {KM : KMem}.

(** C27: msg_receive() with a sender waiting: the message of the best sender (the
    first of the best priority) is taken, the first bytes of its buffer, as
    many as both sides have room for, are in the receiver's buffer afterwards,
    the sender has left the queue and the two threads are connected for the
    reply; the call returns 0 without blocking, and no other user memory is
    written.  Conditions: the receiver's buffer is mapped and ends below the
    user limit, and it does not start inside the sender's buffer (possible
    only between threads of one task; the copy is done byte by byte upwards
    and would repeat its own output). *)
Theorem msg_receive_spec s c th tk n obj o msg size timeout sd l1 l2 x bs :
  calm s c th tk -> user_area msg = true -> receivable s th obj o -> best_sender s o sd l1 l2 -> sd <> cur (sch s) ->
  thr s !! sd = Some x -> 0 < min_len size x ->
  uread (umem s) (th_msgaddr x).1 (th_msgaddr x).2 (Z.to_nat (min_len size x)) = Some bs ->
  umem_ok msg (min_len size x) = true -> mapped (umem s) (tk_map tk) msg (Z.to_nat (min_len size x)) ->
  apart (th_msgaddr x) (tk_map tk, msg) (min_len size x) ->
  exists M', msg_receive n obj msg size timeout s = Done 0 (connected s th obj sd x M') /\
    uread M' (tk_map tk) msg (Z.to_nat (min_len size x)) = Some bs /\
    (forall m y, m <> tk_map tk \/ y < msg \/ msg + min_len size x <= y -> M' !! (m, y) = umem s !! (m, y)).
Proof.
  intros HC Hm Hv B Hne Ex Hlen Hrd Hok Hmap Hap. assert (length bs = Z.to_nat (min_len size x)) as Hbs by (by apply uread_ok in Hrd as [? _]).
  destruct (msg_receive_ok s c th tk HC n obj o msg size timeout sd l1 l2 x bs) as (M1&E1&Ew); try done.
  rewrite <- Hbs in Hmap. destruct (uwrite_ok _ _ _ _ Hmap) as (M'&Ew'&Hin&Hout). assert (M1 = M') as -> by congruence. exists M'. split_and!.
  - done.
  - rewrite <- Hbs. by eapply uwrite_read.
  - intros m y Hy. apply Hout. rewrite Hbs, Z2Nat.id by lia. done.
Qed.

(** msg_reply() to a sender that sleeps in msg_send(): the first bytes of the
    reply, as many as both sides have room for, are in the sender's buffer
    afterwards, the connection is closed on both sides, and the sender is
    woken with result 0, running at once if it preempts the replier; the call
    returns 0. *)
Theorem msg_reply_spec s c th tk obj o msg size sd x w bs :
  calm s c th tk -> sinv (sch s) -> user_area msg = true -> objs s !! obj = Some o -> kern_area obj = true ->
  o_magic o = OBJECT_MAGIC -> th_recvobj th = obj -> th_sender th = sd -> sd <> NULL -> sd <> cur (sch s) ->
  thr s !! sd = Some x -> 0 < min_len size x -> umem_ok msg (min_len size x) = true ->
  uread (umem s) (tk_map tk) msg (Z.to_nat (min_len size x)) = Some bs ->
  mapped (umem s) (th_msgaddr x).1 (th_msgaddr x).2 (Z.to_nat (min_len size x)) ->
  apart (tk_map tk, msg) (th_msgaddr x) (min_len size x) ->
  sth (sch s) !! sd = Some w -> sleeping w = true -> th_slpevt w = Some EvIpc -> th_state (woken w) = TH_RUN ->
  exists M' S', handed (sch s) c sd w S' /\
    uread M' (th_msgaddr x).1 (th_msgaddr x).2 (Z.to_nat (min_len size x)) = Some bs /\
    completes (msg_reply obj msg size s) (preempts (sch s) c w) 0 (replied s th sd x M' <| sch := S' |>).
Proof.
  intros HC I Hm Eo Ha Hmg Hro Hsd Hnn Hne Ex Hlen Hok Hrd Hmap Hap Ew Hs He Hrun.
  assert (length bs = Z.to_nat (min_len size x)) as Hbs by (by apply uread_ok in Hrd as [? _]).
  destruct (msg_reply_ok s c th tk HC obj o msg size sd x w bs) as (M'&S'&Hh&Ewr&Hc); try done.
  exists M', S'. split_and!; try done. rewrite <- Hbs. by eapply uwrite_read.
Qed.
End MsgProperties.
