(* ===== verification/TimerSys.v ===== *)
(** * TimerSys: the timer system calls of sys/kern/timer.c and the exceptions of
    sys/kern/exception.c *)
From stdpp Require Import base numbers strings gmap list.
From S2P Require Import Prelude Core Timer Sched Kernel Context.

Open Scope Z_scope.

Section TimerSys.
Context {KM : KMem}.

Definition SIGALRM := 14.
Definition NEXC := 32.
Definition SIZEOF_TIMER := 40.

(** ** exception_post *)

(** The first thread of the list that waits in exception_wait(), else NULL. *)
Fixpoint find_waiter (l : list tid) : K (option tid) :=
  match l with
  | [] => mret None
  | t :: l => s ← s_thread t; if bool_decide (th_slpevt s = Some EvException) then mret (Some t) else find_waiter l
  end.

(** A task without threads has no master thread: the code then takes the list
    head for a thread. *)
Definition exception_post (task exc : Z) : K Z :=
  if (exc <? 0) || (NEXC <=? exc) then mret EINVAL else
  tk ← rd tasks task;
  w ← find_waiter (tk_threads tk);
  t ← (match w with Some t => mret t | None => lift_o (head (tk_threads tk)) end);
  upd_thr t (fun th => th <| th_excbits ::= fun b => Z.lor b (u32 (Z.shiftl 1 exc)) |>);;
  sched_unsleep t SLP_INTR;;
  mret 0.

(** ** Timer services *)

Definition timer_delay (msec : Z) : K Z :=
  rc ← sched_tsleep EvDelay msec;
  if negb (rc =? SLP_TIMEOUT) then
    t ← cur_thread; tm ← timer_of (TmTimeout t);
    gets (fun s => tick_to_msec (time_remain (tm_expire tm) (tms (sch s))))
  else mret 0.

Definition timer_sleep (msec remain : Z) : K Z :=
  left ← timer_delay msec;
  ok ← (if negb (remain =? NULL) then copyout_word remain left else mret true);
  mret (if negb ok then EFAULT else if 0 <? left then EINTR else 0).

Definition timer_alarm (msec remain : Z) : K Z :=
  self ← cur_task;
  tm ← timer_of (TmAlarm self);
  left ← gets (fun s => if tm_active tm then tick_to_msec (time_remain (tm_expire tm) (tms (sch s))) else 0);
  (if msec =? 0 then lift_t (timer_stop (TmAlarm self))
   else lift_t (timer_callout (TmAlarm self) msec (AlarmExpire self)));;
  if negb (remain =? NULL) then
    ok ← copyout_word remain left; mret (if (ok : bool) then 0 else EFAULT)
  else mret 0.

(** The timer of a thread, allocated at the first call: only [active], the
    event and the interval are set. *)
Definition periodic_alloc (t : tid) : K (option Z) :=
  o ← kalloc SIZEOF_TIMER;
  match o with
  | None => mret None
  | Some a =>
      kevent_init (EvPeriodic a);;
      timer_new (TmHeap a) (mk_timer true (u32 (junk_int a)) (u32 (junk_int a)) None);;
      upd_thr t (fun th => th <| th_periodic := a |>);;
      mret (Some a)
  end.

Definition timer_periodic (t : tid) (start period : Z) : K Z :=
  if negb (start =? 0) && (period =? 0) then mret EINVAL else
  sched_lock;;
  v ← thread_valid t;
  if negb v then sched_unlock;; mret ESRCH else
  th ← rd thr t; k ← cur_task;
  if negb (th_task th =? k) then sched_unlock;; mret EPERM else
  if start =? 0 then
    err ← (if th_periodic th =? NULL then mret EINVAL else
           tm ← timer_of (TmHeap (th_periodic th));
           if tm_active tm then lift_t (timer_stop (TmHeap (th_periodic th)));; mret 0 else mret EINVAL);
    sched_unlock;; mret err
  else
    o ← (if th_periodic th =? NULL then periodic_alloc t else mret (Some (th_periodic th)));
    match o with
    | None => sched_unlock;; mret ENOMEM
    | Some a =>
        let ticks := msec_to_tick period in
        lift_t (tm_upd (TmHeap a) (fun x => x <| tm_interval := if ticks =? 0 then 1 else ticks |>));;
        lift_t (timer_add (TmHeap a) (msec_to_tick start));;
        sched_unlock;; mret 0
    end.

Definition timer_waitperiod : K Z :=
  t ← cur_thread; th ← rd thr t;
  if th_periodic th =? NULL then mret EINVAL else
  tm ← timer_of (TmHeap (th_periodic th));
  b ← gets (fun s => time_before (lbolt (tms (sch s))) (tm_expire tm));
  if (b : bool) then
    rc ← sched_sleep (EvPeriodic (th_periodic th));
    mret (if rc =? SLP_SUCCESS then 0 else EINTR)
  else mret 0.

Definition timer_cleanup (t : tid) : K unit :=
  th ← rd thr t;
  if th_periodic th =? NULL then mret tt else
  lift_t (timer_stop (TmHeap (th_periodic th)));;
  kfree (th_periodic th);;
  timer_del (TmHeap (th_periodic th)).

(** ** The timer thread *)

(** The callout routines: sleep_expire and alarm_expire; a driver's routine is
    not kernel code. *)
Definition callout (f : option callback) : K unit :=
  match f with
  | Some (SleepExpire t) => sched_unsleep t SLP_TIMEOUT
  | Some (AlarmExpire task) => _ ← exception_post task SIGALRM; mret tt
  | Some (DriverCallout _ _) => mret tt
  | None => fault
  end.

(** while (!list_empty(&expire_list)) { ... }: at most [n] timers. *)
Fixpoint timer_thread_loop (n : nat) : K unit :=
  l ← gets (fun s => expire_list (tms (sch s)));
  match l with
  | [] => mret tt
  | tm :: _ =>
      match n with
      | O => fault
      | S n =>
          lift_t (tm_unlink tm);;
          lift_t (tm_upd tm (fun t => t <| tm_active := false |>));;
          sched_lock;;
          t ← timer_of tm;
          callout (tm_func t);;
          sched_unlock;;
          timer_thread_loop n
      end
  end.
Definition timer_thread_round (n : nat) : K unit := _ ← sched_sleep EvTimer; timer_thread_loop n.

(** ** Exceptions *)

(** Remove the handler: pending exceptions are dropped, waiters released. *)
Fixpoint discard_exceptions (l : list tid) : K unit :=
  match l with
  | [] => mret tt
  | t :: l =>
      upd_thr t (fun th => th <| th_excbits := 0 |>);;
      s ← s_thread t;
      (if bool_decide (th_slpevt s = Some EvException) then sched_unsleep t SLP_BREAK else mret tt);;
      discard_exceptions l
  end.

Definition exception_setup (handler : Z) : K Z :=
  self ← cur_task;
  if negb (handler =? NULL) && negb (user_area handler) then mret EFAULT else
  sched_lock;;
  tk ← rd tasks self;
  (if negb (tk_handler tk =? NULL) && (handler =? NULL) then discard_exceptions (tk_threads tk) else mret tt);;
  upd_task self (fun k => k <| tk_handler := handler |>);;
  sched_unlock;;
  mret 0.

Definition exception_raise (task exc : Z) : K Z :=
  sched_lock;;
  v ← task_valid task;
  err ← (if negb v then mret ESRCH else
         k ← cur_task; cap ← task_capable CAP_KILL;
         if negb (task =? k) && negb cap then mret EPERM else
         kt ← gets kern_task; tk ← rd tasks task;
         if (task =? kt) || (tk_handler tk =? NULL) || bool_decide (tk_threads tk = []) then mret EPERM
         else exception_post task exc);
  sched_unlock;;
  mret err.

(** for (i = 0; i < NEXC; i++) if (bits & (1 << i)) break; *)
Fixpoint lowest_bit (n : nat) (i bits : Z) : Z :=
  match n with O => i | S n => if Z.testbit bits i then i else lowest_bit n (i + 1) bits end.

Definition exception_wait (exc : Z) : K Z :=
  self ← cur_task; tk ← rd tasks self;
  if tk_handler tk =? NULL then mret EINVAL else
  if negb (user_area exc) then mret EFAULT else
  sched_lock;;
  rc ← sched_sleep EvException;
  if rc =? SLP_BREAK then sched_unlock;; mret EINVAL else
  t ← cur_thread; th ← rd thr t;
  let i := lowest_bit (Z.to_nat NEXC) 0 (th_excbits th) in
  sched_unlock;;
  ok ← copyout_word exc i;
  mret (if (ok : bool) then EINTR else EFAULT).

Definition exception_mark (exc : Z) : K unit :=
  t ← cur_thread; upd_thr t (fun th => th <| th_excbits ::= fun b => Z.lor b (u32 (Z.shiftl 1 exc)) |>).

(** exception_deliver(), with task_terminate() as argument (Task.v). *)
Definition exception_deliver (task_terminate : Z -> K Z) : K unit :=
  t ← cur_thread; self ← cur_task;
  sched_lock;;
  th ← rd thr t;
  (if negb (th_excbits th =? 0) then
     let exc := lowest_bit (Z.to_nat NEXC) 0 (th_excbits th) in
     tk ← rd tasks self;
     if tk_handler tk =? NULL then _ ← task_terminate self; mret tt
     else
       context_save t;;
       context_set t (CTX_UENTRY (tk_handler tk));;
       context_set t (CTX_UARG exc);;
       upd_thr t (fun th => th <| th_excbits ::= fun b => clr b (u32 (Z.shiftl 1 exc)) |>)
   else mret tt);;
  sched_unlock.

Definition exception_return : K Z :=
  t ← cur_thread; context_restore t;; mret 0.
End TimerSys.
