(* ===== verification/ExcSpec.v ===== *)
(** * ExcSpec: what exceptions do

    Which exception is delivered, what the handler sees, and that returning
    from the handler restores the interrupted context. *)
From stdpp Require Import base numbers strings gmap list.
From S2P Require Import Prelude Core Timer Sched SchedInv SchedOps SchedSleep Kernel KernelInv Exec Block Object UserMem Context TimerSys.

Open Scope Z_scope.

(** ** The lowest pending exception *)

Lemma lowest_bit_ok n i bits :
  i <= lowest_bit n i bits <= i + Z.of_nat n /\
  (forall j, i <= j < lowest_bit n i bits -> Z.testbit bits j = false) /\
  (lowest_bit n i bits < i + Z.of_nat n -> Z.testbit bits (lowest_bit n i bits) = true).
Proof.
  revert i; induction n as [|n IH]; intros i; cbn [lowest_bit]; [split_and!; intros; lia|].
  destruct (Z.testbit bits i) eqn:E; [split_and!; intros; (lia || done)|].
  destruct (IH (i + 1)) as (H1&H2&H3). split_and!; [lia|lia| |].
  - intros j Hj. destruct (decide (j = i)) as [->|]; [done|]. apply H2. lia.
  - intros H. apply H3. lia.
Qed.

(** A word with a pending exception has a lowest one below NEXC. *)
Lemma pending_lowest bits : 0 < bits < 2 ^ 32 ->
  let i := lowest_bit (Z.to_nat NEXC) 0 bits in
  0 <= i < NEXC /\ Z.testbit bits i = true /\ forall j, 0 <= j < i -> Z.testbit bits j = false.
Proof.
  intros Hb. cbv zeta. destruct (lowest_bit_ok (Z.to_nat NEXC) 0 bits) as (H1&H2&H3). rewrite Z2Nat.id in * by done.
  set (i := lowest_bit (Z.to_nat NEXC) 0 bits) in *.
  assert (i < NEXC) as Hi.
  { destruct (decide (i < NEXC)) as [|Hge]; [done|]. exfalso. assert (bits = 0); [|lia].
    apply Z.bits_inj'. intros j Hj. rewrite Z.bits_0. destruct (decide (j < NEXC)) as [Hlt|Hge'].
    - apply H2. unfold NEXC in *. lia.
    - rewrite <- (Z.mod_small bits (2 ^ 32)) by lia. apply Z.mod_pow2_bits_high. unfold NEXC in *. lia. }
  split_and!; [lia|done|apply H3; lia|]. intros j Hj. apply H2. lia.
Qed.

(** ** Register frames in memory *)

Definition is_word (w : Z) : Prop := 0 <= w < 2 ^ 32.

Lemma length_bytes_of_words l : length (bytes_of_words l) = (4 * length l)%nat.
Proof. induction l as [|w l IH]; [done|]. cbn [length]. change (bytes_of_words (w :: l)) with (bytes_of_word w ++ bytes_of_words l). rewrite length_app, IH. cbn. lia. Qed.

Lemma words_of_bytes_of_words l : Forall is_word l -> words_of_bytes (length l) (bytes_of_words l) = l.
Proof.
  induction 1 as [|w l Hw _ IH]; [done|]. cbn [length words_of_bytes].
  change (bytes_of_words (w :: l)) with (bytes_of_word w ++ bytes_of_words l).
  rewrite take_app_length', drop_app_length' by done. by rewrite IH, word_of_bytes_of_word.
Qed.

Lemma regs_of_words_words u : regs_of_words (regs_words u) = Some u.
Proof. by destruct u. Qed.

(** A frame that a thread can run with in user mode: the kernel's choice of
    segments, and interrupts enabled. *)
Definition user_mode (u : uregs) : Prop :=
  u_cs u = Z.lor USER_CS 3 /\ u_ss u = Z.lor USER_DS 3 /\ u_ds u = Z.lor USER_DS 3 /\ u_es u = Z.lor USER_DS 3 /\
  Z.lor (u_eflags u) EFL_IF = u_eflags u.

Lemma uregs_ext u v : regs_words u = regs_words v -> u = v.
Proof. intros H. apply (inj Some). by rewrite <- (regs_of_words_words u), <- (regs_of_words_words v), H. Qed.

Lemma fix_regs_user u : user_mode u -> fix_regs u = u.
Proof.
  intros (H1&H2&H3&H4&H5). apply uregs_ext. unfold regs_words.
  repeat (apply (f_equal2 cons); [first [reflexivity|by symmetry|exact H5]|]). reflexivity.
Qed.

(** Program counter and stack pointer are user addresses. *)
Definition user_ptrs (u : uregs) : bool := user_ptr (u_eip u) && user_ptr (u_esp u).

(** What an exception takes of the user stack: the frame, and the eight frames
    below it. *)
Definition EXC_FRAME := 9 * SIZEOF_CPU_REGS.

Section ExcSpec.
Context {KM : KMem}.

(** The thread once exception [i] has been delivered to [handler]. *)
Definition delivered (i handler : Z) (th : thread) : thread :=
  th <| th_regs ::= fun u => set_uentry handler (u <| u_esp ::= fun e => e - EXC_FRAME |>) |>
     <| th_saved := u_esp (th_regs th) - SIZEOF_CPU_REGS |>
     <| th_excbits ::= fun b => clr b (u32 (Z.shiftl 1 i)) |>.

Lemma upd_thr_again t x f s : upd_thr t f (s <| thr ::= <[t := x]> |>) = Done tt (s <| thr ::= <[t := f x]> |>).
Proof.
  rewrite (upd_thr_run _ _ _ x) by apply lookup_insert_eq. f_equal. kst_eq.
Qed.

Lemma poke_eval s th tk a bs : within s th tk -> 0 <= a -> a + Z.of_nat (length bs) <= UMEM_MAX ->
  mapped (umem s) (tk_map tk) a (length bs) ->
  exists M, uwrite (umem s) (tk_map tk) a bs = (true, M) /\ poke a bs s = Done tt (s <| umem := M |>).
Proof.
  intros H Ha Hb Hm. destruct (uwrite_ok _ _ _ _ Hm) as (M&E&_). exists M. split; [done|].
  unfold poke. rewrite (bind_done _ _ _ _ _ (cur_map_eval _ _ _ H)).
  rewrite (proj2 (Z.leb_le 0 a)), (proj2 (Z.leb_le _ UMEM_MAX)) by done. cbn [andb]. by rewrite E.
Qed.

Lemma mapped_uwrite M m a bs M' a' n : uwrite M m a bs = (true, M') -> mapped M m a' n -> mapped M' m a' n.
Proof.
  intros E Hm i Hi. destruct (uwrite_ok _ _ _ _ (uwrite_mapped _ _ _ _ _ E)) as (M1&E1&Hin&Hout).
  assert (M1 = M') as -> by congruence.
  destruct (decide (a <= a' + i < a + Z.of_nat (length bs))) as [Hr|Hr]; [|rewrite Hout by lia; by apply Hm].
  replace (a' + i) with (a + Z.of_nat (Z.to_nat (a' + i - a))) by lia. rewrite Hin by lia. apply lookup_lt_is_Some_2. lia.
Qed.

Lemma mapped_sub M m a n a' n' : mapped M m a n -> a <= a' -> a' + Z.of_nat n' <= a + Z.of_nat n -> mapped M m a' n'.
Proof. intros Hm H1 H2 i Hi. replace (a' + i) with (a + (a' + i - a)) by lia. apply Hm. lia. Qed.

(** Reading outside of what was written. *)
Lemma uread_uwrite_other M m a bs M' a' n l : uwrite M m a bs = (true, M') ->
  a' + Z.of_nat n <= a \/ a + Z.of_nat (length bs) <= a' -> uread M m a' n = Some l -> uread M' m a' n = Some l.
Proof.
  intros E Hd. destruct (uwrite_ok _ _ _ _ (uwrite_mapped _ _ _ _ _ E)) as (M1&E1&_&Hout). assert (M1 = M') as -> by congruence.
  rewrite !uread_ok. intros [Hl H]. split; [done|]. intros i Hi. rewrite Hout by lia. by apply H.
Qed.

(** The stack of the interrupted thread has room for the frame. *)
Record stack_room (s : kst) (th : thread) (tk : task) : Prop := {
  sr_low : EXC_FRAME <= u_esp (th_regs th);
  sr_high : u_esp (th_regs th) <= UMEM_MAX;
  sr_mapped : mapped (umem s) (tk_map tk) (u_esp (th_regs th) - EXC_FRAME) (Z.to_nat EXC_FRAME);
  sr_words : Forall is_word (regs_words (th_regs th)) }.

(** The user memory once the frame of [th] and the argument [i] are stored. *)
Definition framed (M : gmap (Z * Z) Z) (m i : Z) (th : thread) (M' : gmap (Z * Z) Z) : Prop :=
  let e := u_esp (th_regs th) in
  uread M' m (e - SIZEOF_CPU_REGS) (Z.to_nat SIZEOF_CPU_REGS) = Some (bytes_of_words (regs_words (th_regs th))) /\
  user_word M' m (e - EXC_FRAME + 4) = Some i /\
  forall m' x, m' <> m \/ x < e - EXC_FRAME \/ e <= x -> M' !! (m', x) = M !! (m', x).

Lemma umax : UMEM_MAX = 2 ^ 31. Proof. reflexivity. Qed.

Lemma context_save_eval s th tk t m1 : within s th tk -> t = cur (sch s) -> stack_room s th tk ->
  uwrite (umem s) (tk_map tk) (u_esp (th_regs th) - SIZEOF_CPU_REGS) (bytes_of_words (regs_words (th_regs th))) = (true, m1) ->
  context_save t s = Done tt (s <| umem := m1 |> <| thr ::= <[t :=
    th <| th_saved := u_esp (th_regs th) - SIZEOF_CPU_REGS |> <| th_regs ::= fun u => u <| u_esp ::= fun e => e - EXC_FRAME |> |>]> |>).
Proof.
  intros W -> [Hlo Hhi Hm Hws] E. pose proof W as [Et _]. pose proof umax as Hu. unfold EXC_FRAME, SIZEOF_CPU_REGS in *.
  unfold context_save. rewrite (bind_done _ _ _ _ _ (rd_eval thr s _ th Et)). cbv beta zeta. unfold SIZEOF_CPU_REGS.
  set (e := u_esp (th_regs th)) in *. assert (u32 (e - 64) = e - 64) as -> by (unfold u32; apply Z.mod_small; lia).
  destruct (poke_eval s th tk (e - 64) (bytes_of_words (regs_words (th_regs th))) W) as (M&EM&EP).
  - lia.
  - rewrite length_bytes_of_words. cbn [length regs_words]. lia.
  - eapply mapped_sub; [exact Hm| |]; rewrite ?length_bytes_of_words; cbn [length regs_words]; lia.
  - assert (M = m1) as -> by congruence. rewrite (bind_done _ _ _ _ _ EP).
    set (s1 := s <| umem := m1 |>). erewrite bind_done by exact (upd_thr_run _ _ s1 th Et).
    unfold upd_regs. rewrite upd_thr_again. do 2 f_equal.
    assert (u32 (e - 64 - 8 * 64) = e - 9 * 64) as -> by (unfold u32; rewrite Z.mod_small; lia). done.
Qed.

Lemma exception_deliver_ok s c th tk terminate : calm s c th tk -> 0 < th_excbits th < 2 ^ 32 -> tk_handler tk <> NULL ->
  stack_room s th tk ->
  let i := lowest_bit (Z.to_nat NEXC) 0 (th_excbits th) in
  exists M, framed (umem s) (tk_map tk) i th M /\
    exception_deliver terminate s =
      Done () (s <| umem := M |> <| thr ::= <[cur (sch s) := delivered i (tk_handler tk) th]> |>).
Proof.
  intros HC Hb Hh HR i. destruct (pending_lowest _ Hb) as (Hi&_&_). fold i in Hi. pose proof umax as Hu.
  pose proof HC as [Ec Hl Hr Hw Et Htk]. pose proof HR as [Hlo Hhi Hm Hws]. set (e := u_esp (th_regs th)) in *.
  assert (mapped (umem s) (tk_map tk) (e - SIZEOF_CPU_REGS) (length (bytes_of_words (regs_words (th_regs th))))) as Hm1.
  { unfold EXC_FRAME, SIZEOF_CPU_REGS in *. eapply mapped_sub; [exact Hm| |]; rewrite ?length_bytes_of_words; cbn [length regs_words]; lia. }
  destruct (uwrite_ok _ _ _ _ Hm1) as (M1&E1&_&Hout1).
  assert (mapped M1 (tk_map tk) (e - EXC_FRAME + 4) (length (bytes_of_word i))) as Hm2.
  { eapply mapped_uwrite; [exact E1|]. unfold EXC_FRAME, SIZEOF_CPU_REGS in *. eapply mapped_sub; [exact Hm| |]; cbn; lia. }
  destruct (uwrite_ok _ _ _ _ Hm2) as (M2&E2&_&Hout2).
  exists M2. rewrite length_bytes_of_words in Hout1. cbn [length regs_words] in Hout1. change (length (bytes_of_word i)) with 4%nat in Hout2.
  assert (umem_ok (e - EXC_FRAME + 4) 4 = true) as Hok by (apply Z.ltb_lt; unfold EXC_FRAME, SIZEOF_CPU_REGS in *; lia).
  split; [split_and!; fold e|].
  - eapply uread_uwrite_other; [exact E2|cbn; unfold EXC_FRAME, SIZEOF_CPU_REGS; lia|].
    rewrite <- (uwrite_read _ _ _ _ _ E1). by rewrite length_bytes_of_words.
  - unfold user_word. rewrite Hok. change 4%nat with (length (bytes_of_word i)). rewrite (uwrite_read _ _ _ _ _ E2). cbn [fmap option_fmap option_map].
    rewrite word_of_bytes_of_word; [done|]. unfold NEXC in Hi. lia.
  - intros m' x Hx. rewrite Hout2 by (unfold EXC_FRAME, SIZEOF_CPU_REGS in *; lia). apply Hout1. unfold EXC_FRAME, SIZEOF_CPU_REGS in *. lia.
  - unfold exception_deliver. assert (cur_thread s = Done (cur (sch s)) s) as E0 by done.
    rewrite (bind_done _ _ _ _ _ E0), (bind_done _ _ _ _ _ (cur_task_eval _ _ _ (calm_within _ _ _ _ HC))).
    rewrite (enter_call s c th tk) by done. set (s0 := lock_of c s).
    rewrite (bind_done _ _ _ _ _ (rd_eval thr s0 (cur (sch s)) th Et)). rewrite (proj2 (Z.eqb_neq (th_excbits th) 0)) by lia. cbn [negb].
    cbv zeta. fold i. set (s1 := s0 <| umem := M2 |> <| thr ::= <[cur (sch s) := delivered i (tk_handler tk) th]> |>).
    assert (within s0 th tk) as W0 by (split; done). assert (stack_room s0 th tk) as HR0 by (split; done).
    rewrite (bind_done _ _ _ () s1).
    + by rewrite (calm_unlock s s1 c th tk HC) by done.
    + rewrite (bind_done _ _ _ _ _ (rd_eval tasks s0 (th_task th) tk Htk)), (proj2 (Z.eqb_neq _ _) Hh).
      set (s2 := s0 <| umem := M1 |>).
      set (x1 := th <| th_saved := e - SIZEOF_CPU_REGS |> <| th_regs ::= fun u => u <| u_esp ::= fun e => e - EXC_FRAME |> |>).
      assert (context_save (cur (sch s)) s0 = Done tt (s2 <| thr ::= <[cur (sch s) := x1]> |>)) as ES
        by exact (context_save_eval s0 th tk _ M1 W0 eq_refl HR0 E1).
      rewrite (bind_done _ _ _ _ _ ES). cbn [context_set]. unfold upd_regs.
      rewrite (bind_done _ _ _ _ _ (upd_thr_again _ x1 _ s2)). set (x2 := x1 <| th_regs ::= _ |>).
      set (s3 := s2 <| thr ::= <[cur (sch s) := x2]> |>).
      assert (within s3 x2 tk) as W3 by (split; [apply lookup_insert_eq|done]).
      unfold mbind at 1, K_bind at 1. rewrite (bind_done _ _ _ _ _ (rd_eval thr s3 (cur (sch s)) x2 (lookup_insert_eq _ _ _))).
      rewrite (bind_done _ _ _ _ _ (copyout_word_eval _ _ _ _ _ W3)). cbn [rbind mret K_ret].
      assert (u32 (u_esp (th_regs x2) + 4) = e - EXC_FRAME + 4) as ->.
      { unfold u32. cbn. unfold EXC_FRAME, SIZEOF_CPU_REGS in *. fold e. apply Z.mod_small. lia. }
      assert (u32 i = i) as -> by (unfold u32, NEXC in *; apply Z.mod_small; lia).
      assert (write_word (umem s3) (tk_map tk) (e - EXC_FRAME + 4) i = (true, M2)) as -> by (unfold write_word; by rewrite Hok).
      cbn [fst snd]. change (s3 <| umem := M2 |>) with (s0 <| umem := M2 |> <| thr ::= <[cur (sch s) := x2]> |>).
      by rewrite upd_thr_again.
Qed.

Lemma context_restore_eval s th tk t u : within s th tk -> t = cur (sch s) ->
  0 <= th_saved th -> th_saved th + SIZEOF_CPU_REGS <= UMEM_MAX -> Forall is_word (regs_words u) -> user_ptrs u = true ->
  uread (umem s) (tk_map tk) (th_saved th) (Z.to_nat SIZEOF_CPU_REGS) = Some (bytes_of_words (regs_words u)) ->
  context_restore t s = Done tt (s <| thr ::= <[t := th <| th_regs := fix_regs u |>]> |>).
Proof.
  intros W -> Hlo Hhi Hws Hp E. pose proof W as [Et _]. unfold context_restore. rewrite (bind_done _ _ _ _ _ (rd_eval thr s _ th Et)).
  rewrite (bind_done _ _ _ (bytes_of_words (regs_words u)) s).
  - rewrite (bind_done _ _ _ u s); [|unfold lift_o].
    { unfold upd_regs. rewrite (bind_done _ _ _ _ _ (upd_thr_run _ _ s th Et)). unfold user_ptrs in Hp. by rewrite Hp. }
   
    change 16%nat with (length (regs_words u)). rewrite (words_of_bytes_of_words (regs_words u)) by done. by rewrite regs_of_words_words.
  - unfold peek. rewrite (bind_done _ _ _ _ _ (cur_map_eval _ _ _ W)). unfold getso.
    rewrite (proj2 (Z.leb_le 0 _)), (proj2 (Z.leb_le _ UMEM_MAX)) by done. cbn [andb]. by rewrite E.
Qed.

(** C28: delivery of an exception and return from its handler, for a thread that
    was interrupted with user segments and user addresses in its program
    counter and stack pointer, and whose mapped user stack has room for nine
    register frames: the lowest-numbered pending exception is delivered and
    exactly its bit is cleared; the thread resumes in the task's handler, with
    the exception's number where the handler's first argument is, the rest of
    user memory above the frame and in other tasks untouched; and the system
    call exception_return() restores the registers of the moment of delivery,
    all but eax: the system call's return value 0 replaces it. *)
Theorem exception_deliver_return s c th tk terminate :
  calm s c th tk -> 0 < th_excbits th < 2 ^ 32 -> tk_handler tk <> NULL -> stack_room s th tk -> user_mode (th_regs th) ->
  user_ptrs (th_regs th) = true ->
  exists i x s1 s2, 0 <= i < NEXC /\ Z.testbit (th_excbits th) i = true /\
    (forall j, 0 <= j < i -> Z.testbit (th_excbits th) j = false) /\
    exception_deliver terminate s = Done tt s1 /\ thr s1 !! cur (sch s) = Some x /\
    u_eip (th_regs x) = tk_handler tk /\ user_word (umem s1) (tk_map tk) (u_esp (th_regs x) + 4) = Some i /\
    (forall m a, m <> tk_map tk \/ u_esp (th_regs th) <= a -> umem s1 !! (m, a) = umem s !! (m, a)) /\
    (forall j, 0 <= j < NEXC -> Z.testbit (th_excbits x) j = Z.testbit (th_excbits th) j && negb (j =? i)) /\
    (exception_return ≫= syscall_return) s1 = Done tt s2 /\
    (th_regs <$> thr s2 !! cur (sch s)) = Some (th_regs th <| u_eax := 0 |>) /\ umem s2 = umem s1 /\ sch s2 = sch s.
Proof.
  intros HC Hb Hh HR HU HP. destruct (pending_lowest _ Hb) as (Hi&Ht&Hlow).
  destruct (exception_deliver_ok s c th tk terminate HC Hb Hh HR) as (M&(HM1&HM2&HM3)&ED). set (i := lowest_bit _ _ _) in *.
  set (x := delivered i (tk_handler tk) th) in *. set (s1 := s <| umem := M |> <| thr ::= <[cur (sch s) := x]> |>) in *.
  assert (thr s1 !! cur (sch s) = Some x) as Ex by apply lookup_insert_eq.
  assert (within s1 x tk) as W1 by (split; [done|apply HC]). set (x2 := x <| th_regs := fix_regs (th_regs th) |>).
  set (s2 := s1 <| thr ::= <[cur (sch s) := x2]> |>).
  exists i, x, s1, (s1 <| thr ::= <[cur (sch s) := x2 <| th_regs ::= fun u => u <| u_eax := u32 0 |> |>]> |>).
  split; [done|]. split; [done|]. split; [done|]. split; [done|]. split; [done|]. split; [done|]. split; [done|]. split_and!.
  - intros m a Ha. apply HM3. lia.
  - intros j Hj. change (th_excbits x) with (clr (th_excbits th) (u32 (Z.shiftl 1 i))). unfold clr. rewrite Z.ldiff_spec. f_equal. f_equal.
    unfold u32. rewrite Z.mod_pow2_bits_low by (unfold NEXC in *; lia). rewrite Z.shiftl_1_l.
    rewrite Z.pow2_bits_eqb by lia. apply Z.eqb_sym.
  - rewrite (bind_done _ _ _ 0 s2).
    + unfold syscall_return. rewrite (bind_done _ _ _ (cur (sch s)) s2) by done. unfold upd_regs. apply upd_thr_again.
    + unfold exception_return. assert (cur_thread s1 = Done (cur (sch s)) s1) as E0 by done.
      rewrite (bind_done _ _ _ _ _ E0). destruct HR as [Hlo Hhi _ Hws]. pose proof umax as Hu. unfold EXC_FRAME, SIZEOF_CPU_REGS in *.
      by rewrite (bind_done _ _ _ _ _ (context_restore_eval s1 x tk (cur (sch s)) (th_regs th) W1 eq_refl
        ltac:(cbn; unfold SIZEOF_CPU_REGS; lia) ltac:(cbn; unfold SIZEOF_CPU_REGS; lia) Hws HP HM1)).
  - unfold x2. rewrite (fix_regs_user _ HU). cbn. by rewrite lookup_insert_eq.
  - done.
  - done.
Qed.

(** The frame is in user memory, where the handler can change it, and
    exception_return() takes every register from there except the segments and
    the interrupt flag: an I/O privilege level of 3 is loaded as it is. *)
Lemma restored_iopl s th tk u : within s th tk ->
  0 <= th_saved th -> th_saved th + SIZEOF_CPU_REGS <= UMEM_MAX -> Forall is_word (regs_words u) -> user_ptrs u = true ->
  uread (umem s) (tk_map tk) (th_saved th) (Z.to_nat SIZEOF_CPU_REGS) = Some (bytes_of_words (regs_words u)) ->
  exists s' x, exception_return s = Done 0 s' /\ thr s' !! cur (sch s) = Some x /\
    Z.land (u_eflags (th_regs x)) EFL_IOPL = Z.land (u_eflags u) EFL_IOPL.
Proof.
  intros W Hlo Hhi Hws Hp E. eexists. exists (th <| th_regs := fix_regs u |>). split_and!; [| |].
  - unfold exception_return. assert (cur_thread s = Done (cur (sch s)) s) as E0 by done. rewrite (bind_done _ _ _ _ _ E0).
    by rewrite (bind_done _ _ _ _ _ (context_restore_eval s th tk (cur (sch s)) u W eq_refl Hlo Hhi Hws Hp E)).
  - apply lookup_insert_eq.
  - cbn. rewrite Z.land_lor_distr_l. by rewrite Z.lor_0_r.
Qed.
End ExcSpec.
