(* ===== verification/Thread.v ===== *)
(** * Thread: threads and tasks, sys/kern/thread.c and sys/kern/task.c *)
From stdpp Require Import base numbers strings gmap list.
From S2P Require Import Prelude Core Timer Sched Kernel Mutex Object Context TimerSys.

Open Scope Z_scope.

(** The address-space and device operations the task code calls (sys/mem/vm.c,
    sys/kern/device.c). *)
Class VMOps `{KMem} := {
  vm_create : K Z;                (* NULL on failure *)
  vm_reference : Z -> K unit;
  vm_fork : Z -> K Z;
  vm_terminate : Z -> K unit;
  device_terminate : Z -> K unit;
}.

Section Thread.
Context {KM : KMem}.

Definition KSTACK_SIZE := 768.
Definition SIZEOF_THREAD := 212.
Definition MAXTHNAME : nat := 12.

(** ** Allocation *)

Definition zero_uregs : uregs := mk_uregs 0 0 0 0 0 0 0 0 0 0 0 0 0 0 0 0.
Definition filled_uregs : uregs :=
  let w := 0xaaaaaaaa in mk_uregs w w w w w w w w w w w w w w w w.
Definition zero_thread (stack : Z) : thread :=
  mk_thread THREAD_MAGIC [] 0 0 0 0 (0, 0) 0 0 0 0 0 [] 0 stack zero_uregs NULL.
Definition zero_sthread : sthread := mk_sthread 0 0 0 0 0 0 false 0 None 0.
Definition zero_timer : timer := mk_timer false 0 0 None.

(** The scheduler learns of the new thread in [sched_start]; until then the
    zeroed scheduling fields are not looked at. *)
Definition thread_alloc : K (option tid) :=
  o ← kalloc SIZEOF_THREAD;
  match o with
  | None => mret None
  | Some t =>
      o ← kalloc KSTACK_SIZE;
      match o with
      | None => kfree t;; mret None
      | Some stack =>
          if stack =? t then fault else
          modify (fun s => s <| thr ::= <[t := zero_thread stack]> |>);; mret (Some t)
      end
  end.

Definition sched_start_new (t : tid) (s : sched) : option sched :=
  if bool_decide (is_Some (sth s !! t)) || tm_linked (TmTimeout t) (tms s) then None else
  sched_start t (s <| sth ::= <[t := zero_sthread]> |>
                   <| tms := tms s <| tmrs ::= <[TmTimeout t := zero_timer]> |> |>).

(** The scheduler forgets a thread; releasing the running thread, or one that
    is still linked, is a fault. *)
Definition sched_forget (t : tid) (s : sched) : option sched :=
  if (t =? cur s) || negb (link_free t s) || tm_linked (TmTimeout t) (tms s) then None else
  Some (s <| sth ::= delete t |> <| tms := tms s <| tmrs ::= delete (TmTimeout t) |> |>).

Definition thread_free (t : tid) : K unit :=
  th ← rd thr t;
  upd_thr t (fun th => th <| th_magic := 0 |>);;
  kfree (th_kstack th);;
  kfree t;;
  modify (fun s => s <| thr ::= delete t |>);;
  lift_s (sched_forget t).

(** ** Creation and termination *)

(** [user] tells whether the result goes to user memory (the caller is not the
    kernel task). *)
Definition thread_create (task thp : Z) : K Z :=
  sched_lock;;
  v ← task_valid task;
  err ← (if negb v then mret ESRCH else
         acc ← task_access task;
         if negb acc then mret EPERM else
         o ← thread_alloc;
         match o with
         | None => mret ENOMEM
         | Some t =>
             kern ← is_kern_task;
             ok ← (if (kern : bool) then mret true else copyout_word thp t);
             if negb ok then thread_free t;; mret EFAULT else
             tk ← rd tasks task;
             c ← cur_thread; cth ← rd thr c;
             (* the kernel stack of the caller, with its user registers, is copied *)
             upd_thr t (fun th => th <| th_task := task |> <| th_suscnt := tk_suscnt tk + 1 |>
                                     <| th_regs := th_regs cth |>);;
             context_set t CTX_KSTACK;;
             upd_task task (fun k => k <| tk_threads ::= fun l => l ++ [t] |>);;
             lift_s (sched_start_new t);;
             mret 0
         end);
  sched_unlock;;
  mret err.

Definition task_unlink_thread (t : tid) : K unit :=
  modify (fun s => s <| tasks ::= fmap (fun k => k <| tk_threads ::= filter (fun x => x <> t) |>) |>).

Definition do_terminate (t : tid) : K unit :=
  msg_cleanup t;;
  timer_cleanup t;;
  mutex_cleanup t;;
  task_unlink_thread t;;
  lift_s (sched_stop t);;
  upd_thr t (fun th => th <| th_excbits := 0 |> <| th_magic := 0 |>);;
  z ← gets zombie;
  (if negb (z =? NULL) then thread_free z;; modify (fun s => s <| zombie := NULL |>) else mret tt);;
  c ← cur_thread;
  if t =? c then modify (fun s => s <| zombie := t |>) else thread_free t.

Definition thread_terminate (t : tid) : K Z :=
  sched_lock;;
  v ← thread_valid t;
  if negb v then sched_unlock;; mret ESRCH else
  th ← rd thr t; acc ← task_access (th_task th);
  if negb acc then sched_unlock;; mret EPERM else
  do_terminate t;; sched_unlock;; mret 0.

Definition thread_load (t : tid) (entry stack : Z) : K Z :=
  if negb (entry =? NULL) && negb (user_area entry) then mret EINVAL else
  if negb (stack =? NULL) && negb (user_area stack) then mret EINVAL else
  sched_lock;;
  v ← thread_valid t;
  if negb v then sched_unlock;; mret ESRCH else
  th ← rd thr t; acc ← task_access (th_task th);
  if negb acc then sched_unlock;; mret EPERM else
  (if negb (entry =? NULL) then context_set t (CTX_UENTRY entry) else mret tt);;
  (if negb (stack =? NULL) then context_set t (CTX_USTACK stack) else mret tt);;
  sched_unlock;; mret 0.

(** A name is a kernel string for the kernel task and a user address otherwise. *)
Inductive name_arg := KName (l : list Z) | UName (a : Z).

(** strlcpy(dst, src, count): at most count - 1 characters. *)
Definition strlcpy (src : list Z) (count : nat) : list Z := take (count - 1) src.

(** The characters of an array up to a terminator, if it has one. *)
Fixpoint chars (l : list Z) : list Z :=
  match l with [] => [] | b :: l => if b =? 0 then [] else b :: chars l end.

(** umem_copyin(name, dst, len): the characters now in dst, or none on a fault. *)
Definition copyin_name (a : Z) (len : nat) : K (option (list Z)) :=
  o ← umem_copyin a len; mret (chars <$> o).

Definition thread_name (t : tid) (name : name_arg) : K Z :=
  sched_lock;;
  v ← thread_valid t;
  err ← (if negb v then mret ESRCH else
         kern ← is_kern_task; th ← rd thr t; acc ← task_access (th_task th);
         if negb kern && negb acc then mret EPERM else
         match (kern : bool), name with
         | true, KName l => upd_thr t (fun th => th <| th_name := strlcpy l MAXTHNAME |>);; mret 0
         | false, UName a =>
             o ← umem_strnlen a MAXTHNAME;
             match o with
             | None => mret EFAULT
             | Some len =>
                 if Z.of_nat MAXTHNAME <=? len then
                   b ← umem_copyin a (MAXTHNAME - 1);
                   upd_thr t (fun th => th <| th_name := chars (default [] b) |>);;
                   mret ENAMETOOLONG
                 else
                   b ← copyin_name a (Z.to_nat (len + 1));
                   match b with
                   | None => mret EFAULT
                   | Some s => upd_thr t (fun th => th <| th_name := s |>);; mret 0
                   end
             end
         | _, _ => fault
         end);
  sched_unlock;;
  mret err.

Definition thread_self : K tid := cur_thread.
Definition thread_yield : K unit := sched_yield.

(** ** Suspension *)

Definition thread_suspend (t : tid) : K Z :=
  sched_lock;;
  v ← thread_valid t;
  if negb v then sched_unlock;; mret ESRCH else
  th ← rd thr t; acc ← task_access (th_task th);
  if negb acc then sched_unlock;; mret EPERM else
  upd_thr t (fun th => th <| th_suscnt ::= Z.succ |>);;
  th ← rd thr t;
  (if th_suscnt th =? 1 then lift_s (sched_suspend t) else mret tt);;
  sched_unlock;; mret 0.

Definition thread_resume (t : tid) : K Z :=
  sched_lock;;
  v ← thread_valid t;
  err ← (if negb v then mret ESRCH else
         th ← rd thr t; acc ← task_access (th_task th);
         if negb acc then mret EPERM else
         if th_suscnt th =? 0 then mret EINVAL else
         upd_thr t (fun th => th <| th_suscnt ::= Z.pred |>);;
         th ← rd thr t; tk ← rd tasks (th_task th);
         (if (th_suscnt th =? 0) && (tk_suscnt tk =? 0) then lift_s (sched_resume t) else mret tt);;
         mret 0);
  sched_unlock;;
  mret err.

(** ** Scheduling parameters *)

Definition OP_GETPRIO := 0.
Definition OP_SETPRIO := 1.
Definition OP_GETPOLICY := 2.
Definition OP_SETPOLICY := 3.

(** case OP_SETPRIO, once the new priority has been copied in. *)
Definition schedparam_setprio (t : tid) (prio : Z) : K Z :=
  let prio := if prio <? 0 then 0 else if PRIO_IDLE <=? prio then PRIO_IDLE - 1 else prio in
  s ← s_thread t; cap ← task_capable CAP_NICE;
  if (prio <? th_prio s) && negb cap then mret EPERM else
  let prio := if negb (th_prio s =? th_baseprio s) && (th_prio s <? prio) then th_prio s else prio in
  mutex_setprio t prio;;
  lift_s (sched_setprio t prio prio);;
  mret 0.

Definition thread_schedparam (t : tid) (op param : Z) : K Z :=
  sched_lock;;
  v ← thread_valid t;
  err ← (if negb v then mret ESRCH else
         th ← rd thr t; kt ← gets kern_task;
         if th_task th =? kt then mret EPERM else
         k ← cur_task; cap ← task_capable CAP_NICE;
         if negb (th_task th =? k) && negb cap then mret EPERM else
         if op =? OP_GETPRIO then
           p ← getso (fun s => sched_getprio t (sch s));
           ok ← copyout_word param p; mret (if (ok : bool) then 0 else EFAULT)
         else if op =? OP_SETPRIO then
           o ← copyin_word param;
           match o with None => mret EFAULT | Some w => schedparam_setprio t (s32 w) end
         else if op =? OP_GETPOLICY then
           p ← getso (fun s => sched_getpolicy t (sch s));
           ok ← copyout_word param p; mret (if (ok : bool) then 0 else EFAULT)
         else if op =? OP_SETPOLICY then
           o ← copyin_word param;
           match o with
           | None => mret EFAULT
           | Some w => r ← lift_sa (sched_setpolicy t (s32 w)); mret (if r =? 0 then 0 else EINVAL)
           end
         else mret EINVAL);
  sched_unlock;;
  mret err.

(** ** Kernel threads *)

Definition kthread_create (prio : Z) : K tid :=
  o ← thread_alloc;
  match o with
  | None => mret NULL
  | Some t =>
      kt ← gets kern_task;
      (* the kernel stack, where the registers are, is filled with 0xAA bytes *)
      upd_thr t (fun th => th <| th_task := kt |> <| th_regs := filled_uregs |>);;
      context_set t CTX_KSTACK;;
      upd_task kt (fun k => k <| tk_threads ::= cons t |>);;
      lift_s (sched_start_new t);;
      _ ← lift_sa (sched_setpolicy t SCHED_FIFO);
      lift_s (sched_setprio t prio prio);;
      lift_s (sched_resume t);;
      mret t
  end.

Definition kthread_terminate (t : tid) : K unit := sched_lock;; do_terminate t;; sched_unlock.

(** The search of thread_info(): tasks in list order, the threads of each; a
    task without threads makes the do-while loop take its list head for a
    thread. *)
Fixpoint info_search (index target : Z) (l : list (list tid)) : option (option tid) :=
  match l with
  | [] => Some None
  | [] :: l => if index =? target then None else info_search (index + 1) target l
  | ths :: l =>
      if (index <=? target) && (target <? index + Z.of_nat (length ths))
      then Some (ths !! Z.to_nat (target - index))
      else info_search (index + Z.of_nat (length ths)) target l
  end.
Definition thread_info (cookie : Z) : K (Z + tid) :=
  sched_lock;;
  ts ← gets (fun s => (fun k => default [] (tk_threads <$> tasks s !! k)) <$> task_list s);
  r ← lift_o (info_search 0 cookie ts);
  sched_unlock;;
  mret (match r with Some t => inr t | None => inl ESRCH end).

(** ** Tasks *)

Definition MAXTASKNAME : nat := 12.
Definition SIZEOF_TASK := 256.
Definition VM_NEW := 0.
Definition VM_SHARE := 1.
Definition VM_COPY := 2.
Definition new_task (map handler cap parent : Z) : task := mk_task TASK_MAGIC [] [] [] map 0 cap handler parent.

Context `{!VMOps}.

Definition task_create (parent vm_option child : Z) : K Z :=
  if negb ((vm_option =? VM_NEW) || (vm_option =? VM_SHARE) || (vm_option =? VM_COPY)) then mret EINVAL else
  sched_lock;;
  v ← task_valid parent;
  err ← (if negb v then mret ESRCH else
         kern ← is_kern_task; acc ← task_access parent;
         if negb kern && negb acc then mret EPERM else
         ok ← (if (kern : bool) then mret true else copyout_word child 0);
         if negb ok then mret EFAULT else
         o ← kalloc SIZEOF_TASK;
         match o with
         | None => mret ENOMEM
         | Some k =>
             p ← rd tasks parent;
             map ← (if vm_option =? VM_NEW then vm_create
                    else if vm_option =? VM_SHARE then vm_reference (tk_map p);; mret (tk_map p)
                    else vm_fork (tk_map p));
             if map =? NULL then kfree k;; mret ENOMEM else
             timer_new (TmAlarm k) zero_timer;;
             modify (fun s => s <| tasks ::= <[k := new_task map (tk_handler p) (tk_capability p) parent]> |>
                               <| task_list ::= fun l => match l with [] => [k] | kt :: l => kt :: k :: l end |>);;
             if (kern : bool) then mret 0 else ok ← copyout_word child k; mret (if (ok : bool) then 0 else EFAULT)
         end);
  sched_unlock;;
  mret err.

(** The two loops of task_terminate() over the threads and the objects. *)
Fixpoint terminate_threads (l : list tid) : K unit :=
  match l with
  | [] => mret tt
  | t :: l => c ← cur_thread; (if t =? c then mret tt else _ ← thread_terminate t; mret tt);; terminate_threads l
  end.
Fixpoint destroy_objects (l : list Z) : K unit :=
  match l with
  | [] => mret tt
  | a :: l => k ← cur_task; upd_obj a (fun o => o <| o_owner := k |>);; _ ← object_destroy a; destroy_objects l
  end.

Definition task_terminate (task : Z) : K Z :=
  sched_lock;;
  v ← task_valid task;
  if negb v then sched_unlock;; mret ESRCH else
  acc ← task_access task;
  if negb acc then sched_unlock;; mret EPERM else
  device_terminate task;;
  tk ← rd tasks task;
  terminate_threads (tk_threads tk);;
  tk ← rd tasks task;
  destroy_objects (tk_objects tk);;
  lift_t (timer_stop (TmAlarm task));;
  tk ← rd tasks task;
  vm_terminate (tk_map tk);;
  kfree task;;
  k ← cur_task;
  modify (fun s => s <| tasks ::= delete task |> <| task_list ::= filter (fun x => x <> task) |>);;
  timer_del (TmAlarm task);;
  (if task =? k then
     c ← cur_thread;
     upd_thr c (fun th => th <| th_task := NULL |>);;
     _ ← thread_terminate c; mret tt
   else mret tt);;
  sched_unlock;; mret 0.

Fixpoint suspend_all (l : list tid) : K unit :=
  match l with [] => mret tt | t :: l => _ ← thread_suspend t; suspend_all l end.
Fixpoint resume_all (l : list tid) : K unit :=
  match l with [] => mret tt | t :: l => _ ← thread_resume t; resume_all l end.

Definition task_suspend (task : Z) : K Z :=
  sched_lock;;
  v ← task_valid task;
  if negb v then sched_unlock;; mret ESRCH else
  acc ← task_access task;
  if negb acc then sched_unlock;; mret EPERM else
  upd_task task (fun k => k <| tk_suscnt ::= Z.succ |>);;
  tk ← rd tasks task;
  (if tk_suscnt tk =? 1 then suspend_all (tk_threads tk) else mret tt);;
  sched_unlock;; mret 0.

Definition task_resume (task : Z) : K Z :=
  sched_lock;;
  v ← task_valid task;
  err ← (if negb v then mret ESRCH else
         acc ← task_access task;
         if negb acc then mret EPERM else
         tk ← rd tasks task;
         if tk_suscnt tk =? 0 then mret EINVAL else
         upd_task task (fun k => k <| tk_suscnt ::= Z.pred |>);;
         tk ← rd tasks task;
         (if tk_suscnt tk =? 0 then resume_all (tk_threads tk) else mret tt);;
         mret 0);
  sched_unlock;;
  mret err.

Definition task_name (task : Z) (name : name_arg) : K Z :=
  sched_lock;;
  v ← task_valid task;
  err ← (if negb v then mret ESRCH else
         acc ← task_access task;
         if negb acc then mret EPERM else
         kern ← is_kern_task;
         match (kern : bool), name with
         | true, KName l => upd_task task (fun k => k <| tk_name := strlcpy l MAXTASKNAME |>);; mret 0
         | false, UName a =>
             o ← umem_strnlen a MAXTASKNAME;
             match o with
             | None => mret EFAULT
             | Some len =>
                 if Z.of_nat MAXTASKNAME <=? len then mret ENAMETOOLONG else
                 b ← copyin_name a (Z.to_nat (len + 1));
                 match b with
                 | None => mret EFAULT
                 | Some s => upd_task task (fun k => k <| tk_name := s |>);; mret 0
                 end
             end
         | _, _ => fault
         end);
  sched_unlock;;
  mret err.

Definition task_getcap (task cap : Z) : K Z :=
  sched_lock;;
  v ← task_valid task;
  if negb v then sched_unlock;; mret ESRCH else
  tk ← rd tasks task;
  sched_unlock;;
  ok ← copyout_word cap (tk_capability tk);
  mret (if (ok : bool) then 0 else EFAULT).

Definition task_setcap (task cap : Z) : K Z :=
  c ← task_capable CAP_SETPCAP;
  if negb c then mret EPERM else
  sched_lock;;
  v ← task_valid task;
  if negb v then sched_unlock;; mret ESRCH else
  o ← copyin_word cap;
  match o with
  | None => sched_unlock;; mret EFAULT
  | Some w => upd_task task (fun k => k <| tk_capability := w |>);; sched_unlock;; mret 0
  end.
End Thread.
