(* ===== verification/KernelSafe.v ===== *)
(** * KernelSafe: every kernel routine keeps the invariant

    The rules of KernelInv.v applied to the routines of Sem.v, Mutex.v, Cond.v,
    Object.v, TimerSys.v and Thread.v. *)
From stdpp Require Import base numbers strings gmap list.
From S2P Require Import Prelude Core Timer Sched SchedInv SchedOps Tick SchedSleep TickReady Kernel KernelInv Sem Mutex Cond Object Context TimerSys Thread.

Open Scope Z_scope.

Create HintDb ksafe.

Section TimerOps.
Context {KM : KMem}.

Lemma safe_lift_t b f :
  (forall s T', sinv s -> f (tms s) = Some T' -> timeouts_ok (s <| tms := T' |>)) ->
  (forall T T', f T = Some T' -> tick_ready T -> tick_ready T') -> safe b b (lift_t f).
Proof.
  intros H HT. apply safe_lift_s_run; [|intros s TR; apply oready_timers; intros T E; by eapply HT]. intros s s' I E. destruct (f (tms s)) as [T'|] eqn:Ef; [|done].
  cbn in E. injection E as <-. split_and!; [|done|done]. apply sinv_tms; [done|]. by apply H.
Qed.

(** A timer other than the timeouts of the threads changes. *)
Lemma timeouts_ok_other s T' :
  timeouts_ok s -> timers_wf T' -> (forall t, tmrs T' !! TmTimeout t = tmrs (tms s) !! TmTimeout t) ->
  (forall t, TmTimeout t ∈ timer_list T' ++ expire_list T' <-> TmTimeout t ∈ timer_list (tms s) ++ expire_list (tms s)) ->
  timeouts_ok (s <| tms := T' |>).
Proof.
  intros [W H] W' Ht Hl. split; [done|]. intros t Hs. destruct (H t Hs) as (tm&E&Hi). exists tm. cbn.
  by rewrite Ht, Hl.
Qed.

Definition not_timeout (tm : tmr) : Prop := forall t, tm <> TmTimeout t.

Lemma safe_timer_stop b tm : not_timeout tm -> safe b b (lift_t (timer_stop tm)).
Proof.
  intros Hn. apply safe_lift_t; [|intros T T'; apply stop_ready]. intros s T' [_ HT] E. pose proof HT as [W _].
  destruct (tmrs (tms s) !! tm) as [t0|] eqn:Et; [|unfold timer_stop in E; by rewrite Et in E].
  assert (tm_active t0 = true -> tm ∈ timer_list (tms s) ++ expire_list (tms s)) as Ha.
  { intros Ha. unfold timer_stop in E. rewrite Et in E. cbn [mbind option_bind] in E. rewrite Ha in E. unfold tm_unlink in E.
    destruct (tm_linked tm (tms s)) eqn:Hl; [by apply tm_linked_spec|done]. }
  destruct (timer_stop_ok _ _ _ W Et Ha) as (T1&E1&W1&_&Em&_&_&_&Hs). assert (T1 = T') as -> by congruence.
  apply timeouts_ok_other; try done; intros t; [rewrite Em, lookup_insert_ne; [done|apply Hn]|]. apply Hs. symmetry. apply Hn.
Qed.

Lemma safe_timer_callout b tm msec f :
  not_timeout tm -> timeout_fits msec -> safe b b (lift_t (timer_callout tm msec f)).
Proof.
  intros Hn Hf. apply safe_lift_t; [|intros T T'; by apply callout_ready]. intros s T' [_ HT] E. pose proof HT as [W _].
  destruct (tmrs (tms s) !! tm) as [t0|] eqn:Et; [|unfold timer_callout in E; by rewrite Et in E].
  assert (tm ∈ timer_list (tms s) ++ expire_list (tms s) <-> tm_active t0 = true) as Ha.
  { rewrite <- tm_linked_spec. unfold timer_callout in E. rewrite Et in E. cbn [mbind option_bind] in E.
    destruct (tm_active t0) eqn:Ea.
    - split; [done|]. intros _. unfold tm_unlink in E. by destruct (tm_linked tm (tms s)).
    - split; [|done]. intros Hl. exfalso. revert E. cbn [mbind option_bind]. unfold tm_upd at 1. rewrite Et. cbn [mbind option_bind].
      unfold timer_add, tm_upd. cbn [tmrs set]. rewrite lookup_insert_eq. cbn [mbind option_bind tmrs set].
      rewrite lookup_insert_eq. cbn [mbind option_bind].
      match goal with |- context [tm_linked tm ?T1] => assert (tm_linked tm T1 = true) as -> by exact Hl end. done. }
  destruct (timer_callout_ok _ _ _ msec f W Et Ha Hf) as (T1&t1&E1&W1&_&_&_&_&_&_&_&_&_&Em&Hs).
  assert (T1 = T') as -> by congruence.
  apply timeouts_ok_other; try done; intros t; [rewrite Em, lookup_insert_ne; [done|apply Hn]|]. apply Hs. symmetry. apply Hn.
Qed.

Lemma safe_timer_add b tm ticks :
  not_timeout tm -> 1 <= ticks < 2 ^ 31 -> safe b b (lift_t (timer_add tm ticks)).
Proof.
  intros Hn Hf. apply safe_lift_t; [|intros T T'; by apply add_ready]. intros s T' [_ HT] E. pose proof HT as [W _].
  destruct (tmrs (tms s) !! tm) as [t0|] eqn:Et; [|unfold timer_add, tm_upd in E; by rewrite Et in E].
  assert (tm ∉ timer_list (tms s) ++ expire_list (tms s)) as Hl.
  { rewrite <- tm_linked_spec. intros Hl. revert E. unfold timer_add, tm_upd. rewrite Et. cbn [mbind option_bind tmrs set].
    rewrite lookup_insert_eq. cbn [mbind option_bind].
    match goal with |- context [tm_linked tm ?T1] => assert (tm_linked tm T1 = true) as -> by exact Hl end. done. }
  destruct (timer_add_ok _ _ _ ticks W Et Hl) as (T1&l1&l2&E1&W1&Ea&Eb&Ec&_&Em&_); [lia|]. assert (T1 = T') as -> by congruence.
  apply timeouts_ok_other; try done; intros t; [rewrite Em, lookup_insert_ne; [done|apply Hn]|].
  rewrite Ea, Eb, Ec, !elem_of_app, elem_of_cons. assert (TmTimeout t <> tm) by (symmetry; apply Hn). tauto.
Qed.

Lemma safe_tm_upd b tm f :
  not_timeout tm -> (forall t, tm_expire (f t) = tm_expire t) ->
  (forall t, 0 <= tm_interval t < 2 ^ 31 -> 0 <= tm_interval (f t) < 2 ^ 31) -> safe b b (lift_t (tm_upd tm f)).
Proof.
  intros Hn Hf Hi. apply safe_lift_t; [|intros T T'; by apply upd_ready]. intros s T' [_ HT] E. pose proof HT as [W _]. unfold tm_upd in E.
  destruct (tmrs (tms s) !! tm) as [t0|] eqn:Et; [|done]. cbn in E. injection E as <-.
  apply timeouts_ok_other; try done; [by apply timers_wf_upd|]. intros t. cbn. rewrite lookup_insert_ne; [done|apply Hn].
Qed.

Lemma timers_wf_insert T tm t :
  timers_wf T -> tm ∉ timer_list T ++ expire_list T -> 0 <= tm_expire t < 2 ^ 32 ->
  timers_wf (T <| tmrs ::= <[tm := t]> |>).
Proof.
  intros [T1 T2 T3 T4 T5 T6] Hl He.
  assert (forall x, x ∈ timer_list T -> ticks_left (T <| tmrs ::= <[tm := t]> |>) x = ticks_left T x) as HL.
  { intros x Hx. unfold ticks_left. cbn. rewrite lookup_insert_ne; [done|]. intros ->. apply Hl, elem_of_app. by left. }
  split; try done.
  - intros x tx. cbn. rewrite lookup_insert_Some. intros [[_ <-]|[_ ?]]; [done|by eapply T3].
  - intros x Hx. cbn. apply lookup_insert_is_Some'. right. by apply T4.
  - intros x Hx. rewrite HL by done. by apply T5.
  - eapply StronglySorted_ext; [|exact T6]. intros a b Ha Hb. by rewrite !HL.
Qed.

Lemma timers_wf_delete T tm :
  timers_wf T -> tm ∉ timer_list T ++ expire_list T -> timers_wf (T <| tmrs ::= delete tm |>).
Proof.
  intros [T1 T2 T3 T4 T5 T6] Hl.
  assert (forall x, x ∈ timer_list T ++ expire_list T -> tmrs (T <| tmrs ::= delete tm |>) !! x = tmrs T !! x) as HE.
  { intros x Hx. cbn. rewrite lookup_delete_ne; [done|]. by intros ->. }
  assert (forall x, x ∈ timer_list T -> ticks_left (T <| tmrs ::= delete tm |>) x = ticks_left T x) as HL.
  { intros x Hx. unfold ticks_left. rewrite HE; [done|]. apply elem_of_app. by left. }
  split; try done.
  - intros x tx. cbn. rewrite lookup_delete_Some. intros [_ ?]. by eapply T3.
  - intros x Hx. rewrite HE by done. by apply T4.
  - intros x Hx. rewrite HL by done. by apply T5.
  - eapply StronglySorted_ext; [|exact T6]. intros a b Ha Hb. by rewrite !HL.
Qed.

Lemma linked_not_listed tm T : tm_linked tm T = false -> tm ∉ timer_list T.
Proof. intros Hl%tm_linked_false Hx. apply Hl, elem_of_app. by left. Qed.

Lemma safe_timer_new b tm t :
  not_timeout tm -> 0 <= tm_expire t < 2 ^ 32 -> 0 <= tm_interval t < 2 ^ 31 -> safe b b (timer_new tm t).
Proof.
  intros Hn He Hi. apply safe_lift_t; [|intros T T'; destruct (tm_linked tm T) eqn:Hl; [done|]; intros [= <-]; apply new_ready, Hi; by apply linked_not_listed]. intros s T' [_ HT] E. pose proof HT as [W _].
  destruct (tm_linked tm (tms s)) eqn:Hl; [done|]. injection E as <-. apply tm_linked_false in Hl.
  apply timeouts_ok_other; try done; [by apply timers_wf_insert|]. intros x. cbn. rewrite lookup_insert_ne; [done|apply Hn].
Qed.

Lemma safe_timer_del b tm : not_timeout tm -> safe b b (timer_del tm).
Proof.
  intros Hn. apply safe_lift_t; [|intros T T'; destruct (tm_linked tm T) eqn:Hl; [done|]; intros [= <-]; apply del_ready; by apply linked_not_listed]. intros s T' [_ HT] E. pose proof HT as [W _].
  destruct (tm_linked tm (tms s)) eqn:Hl; [done|]. injection E as <-. apply tm_linked_false in Hl.
  apply timeouts_ok_other; try done; [by apply timers_wf_delete|]. intros x. cbn. rewrite lookup_delete_ne; [done|apply Hn].
Qed.

(** Taking an expired timer off the list and clearing its flag go together. *)
Lemma safe_timer_fire b b' tm {A} (k : K A) :
  safe b b' k -> safe b b' (lift_t (tm_unlink tm);; lift_t (tm_upd tm (fun t => t <| tm_active := false |>));; k).
Proof.
  intros Hk s (I&M&R). pose proof I as [S HT]. pose proof HT as [W H]. apply rsafe_bind. unfold lift_t at 2. unfold lift_s.
  destruct (tm_unlink tm (tms (sch s))) as [T1|] eqn:E1; [|done]. cbn [mbind option_bind rsafe].
  assert (tm ∈ timer_list (tms (sch s)) ++ expire_list (tms (sch s))) as Hl.
  { unfold tm_unlink in E1. destruct (tm_linked tm (tms (sch s))) eqn:Hl; [by apply tm_linked_spec|done]. }
  destruct (tm_unlink_ok _ _ W Hl) as (T1'&E1'&W1&Hn&Em&_&El1&El2). assert (T1' = T1) as -> by congruence.
  apply rsafe_bind. unfold lift_t, lift_s. change (tms (sch (s <| sch := sch s <| tms := T1 |> |>))) with T1.
  unfold tm_upd. destruct (tmrs T1 !! tm) as [t0|] eqn:Et; [|done]. cbn [mbind option_bind rsafe].
  set (T2 := T1 <| tmrs ::= _ |>). set (s2 := _ <| sch := _ |>). assert (cur (sch s2) = cur (sch s)) as Hc by done.
  rewrite <- Hc. apply Hk. split_and!; [| |done].
  2:{ apply (karound_sch s); [done|]. apply (upd_ready tm (fun t => t <| tm_active := false |>) T1); [done|done| |].
      - unfold tm_upd. by rewrite Et.
      - by eapply unlink_ready, M. }
  apply (sinv_tms (sch s) T2 I). split; [by apply timers_wf_upd|].
  intros t Ht. destruct (H t Ht) as (tt&Ett&Hi). cbn. rewrite Em in Et. destruct (decide (tm = TmTimeout t)) as [->|Hne].
  - exists (t0 <| tm_active := false |>). rewrite lookup_insert_eq. split; [done|]. split; [by intros ?%Hn|done].
  - exists tt. rewrite lookup_insert_ne, Em by done. split; [done|]. rewrite El1, El2, <- filter_app, list_elem_of_filter.
    rewrite <- Hi. split; [by intros [_ ?]|]. intros ?. split; [congruence|done].
Qed.
End TimerOps.

(** ** Automation *)

#[export] Hint Resolve safe_ret safe_fault safe_gets safe_getso safe_lift_o safe_rd safe_upd_thr safe_upd_task
  safe_upd_sem safe_upd_cond safe_upd_obj safe_sched_lock safe_sched_unlock safe_sched_wakeup safe_sched_wakeone
  safe_sched_unsleep safe_sched_yield safe_sched_suspend safe_sched_setprio safe_sched_stop : ksafe.

Section Derived.
Context {KM : KMem}.

Lemma safe_modify' f :
  (forall s, sch (f s) = sch s /\ mutexes (f s) = mutexes s) -> safe false false (modify f).
Proof. intros H. apply safe_modify; apply H. Qed.

Lemma safe_sched_tsleep' e msec : timeout_fits msec -> safe false false (sched_tsleep e msec).
Proof. intros H. eapply safe_weaken; [by apply (safe_sched_tsleep false)|done..]. Qed.
Lemma safe_sched_sleep' e : safe false false (sched_sleep e).
Proof. apply safe_sched_tsleep', timeout_fits_0. Qed.

Lemma safe_kevent_init e : safe false false (kevent_init e).
Proof.
  intros s (I&M&R). unfold kevent_init, gets, mbind, K_bind. cbn [rbind]. unfold event_waiting.
  destruct (sq (sch s) e) eqn:Es; [|done]. cbn. split; [|done]. split_and!; [by apply event_init_ok|exact M|done].
Qed.
Lemma safe_kevent_waiting e : safe false false (kevent_waiting e).
Proof. apply safe_gets. Qed.

Lemma safe_kalloc n : safe false false (kalloc n).
Proof. intros s Hs. unfold kalloc. destruct (kmem_alloc n (heap s)) as [[a h]|]; [|done]. by destruct (_ || _). Qed.
Lemma safe_kfree a : safe false false (kfree a).
Proof. intros s Hs. unfold kfree. by destruct (kmem_free a (heap s)). Qed.
End Derived.

#[export] Hint Resolve safe_sched_tsleep' safe_sched_sleep' safe_kevent_init safe_kevent_waiting safe_kalloc safe_kfree : ksafe.

(** One step: a leaf, a bind or a case distinction. *)
Ltac ksafe_step :=
  lazymatch goal with
  | |- safe _ _ (s_thread _ ≫= _) => apply safe_s_thread_bind; intros ? [? ?]
  | |- safe _ _ (rd mutexes _ ≫= _) => apply safe_rd_mutex_bind; intros ? ?
  | |- safe _ _ (_ ≫= _) => apply (safe_bind false false false); [|intros]
  | |- safe _ _ (if ?c then _ else _) => destruct c
  | |- safe _ _ (match ?x with _ => _ end) => destruct x
  | |- safe _ _ (modify _) => solve [apply safe_modify'; intros; split; reflexivity]
  | |- safe _ _ (upd_mutex _ _) => apply safe_upd_mutex; intros ? ?; cbn in *
  | |- safe _ _ _ => solve [auto with ksafe]
  end.
Ltac ksafe := repeat (progress cbv zeta || ksafe_step).

Section UserMemory.
Context {KM : KMem}.

Lemma safe_cur_thread : safe false false cur_thread.
Proof. apply safe_gets. Qed.
Lemma safe_cur_task : safe false false cur_task.
Proof. unfold cur_task, cur_thread. ksafe. Qed.
Hint Resolve safe_cur_thread safe_cur_task : ksafe.
Lemma safe_cur_map : safe false false cur_map.
Proof. unfold cur_map. ksafe. Qed.
Hint Resolve safe_cur_map : ksafe.
Lemma safe_umem_copyin a n : safe false false (umem_copyin a n).
Proof. unfold umem_copyin. ksafe. Qed.
Lemma safe_umem_copyout a bs : safe false false (umem_copyout a bs).
Proof.
  unfold umem_copyout. ksafe. intros s Hs. destruct (umem_ok _ _); [|done]. by destruct (uwrite _ _ _ _).
Qed.
Hint Resolve safe_umem_copyin safe_umem_copyout : ksafe.
Lemma safe_copyin_word a : safe false false (copyin_word a).
Proof. unfold copyin_word. ksafe. Qed.
Lemma safe_copyout_word a w : safe false false (copyout_word a w).
Proof. unfold copyout_word. ksafe. Qed.
Lemma safe_umem_strnlen a n : safe false false (umem_strnlen a n).
Proof. unfold umem_strnlen. ksafe. Qed.
Lemma safe_task_capable c : safe false false (task_capable c).
Proof. unfold task_capable. ksafe. Qed.
Hint Resolve safe_task_capable : ksafe.
Lemma safe_task_access t : safe false false (task_access t).
Proof. unfold task_access. ksafe. Qed.
Lemma safe_thread_valid t : safe false false (thread_valid t).
Proof. apply safe_gets. Qed.
Lemma safe_task_valid t : safe false false (task_valid t).
Proof. apply safe_gets. Qed.
Lemma safe_is_kern_task : safe false false is_kern_task.
Proof. unfold is_kern_task. ksafe. Qed.
Lemma safe_timer_of tm : safe false false (timer_of tm).
Proof. apply safe_getso. Qed.
End UserMemory.

#[export] Hint Resolve safe_cur_thread safe_cur_task safe_cur_map safe_umem_copyin safe_umem_copyout safe_copyin_word
  safe_copyout_word safe_umem_strnlen safe_task_capable safe_task_access safe_thread_valid safe_task_valid
  safe_is_kern_task safe_timer_of : ksafe.

(** ** Contexts *)
Section ContextSafe.
Context {KM : KMem}.

Lemma safe_poke a bs : safe false false (poke a bs).
Proof.
  unfold poke. ksafe. intros s Hs. destruct (_ && _); [|done]. by destruct (uwrite _ _ _ _) as [[] ?].
Qed.
Lemma safe_peek a n : safe false false (peek a n).
Proof. unfold peek. ksafe. Qed.
Lemma safe_upd_regs t f : safe false false (upd_regs t f).
Proof. apply safe_upd_thr. Qed.
Hint Resolve safe_poke safe_peek safe_upd_regs : ksafe.
Lemma safe_context_set t c : safe false false (context_set t c).
Proof. unfold context_set. ksafe. Qed.
Lemma safe_context_save t : safe false false (context_save t).
Proof. unfold context_save. ksafe. Qed.
Lemma safe_context_restore t : safe false false (context_restore t).
Proof. unfold context_restore. ksafe. Qed.
End ContextSafe.

#[export] Hint Resolve safe_context_set safe_context_save safe_context_restore : ksafe.

(** ** Semaphores *)
Section SemSafe.
Context {KM : KMem}.

Lemma safe_sem_valid a : safe false false (sem_valid a).
Proof. apply safe_gets. Qed.
Lemma safe_sem_free a : safe false false (sem_free a).
Proof. unfold sem_free. ksafe. Qed.
Hint Resolve safe_sem_valid safe_sem_free : ksafe.
Lemma safe_sem_copyin a : safe false false (sem_copyin a).
Proof. unfold sem_copyin. ksafe. Qed.
Hint Resolve safe_sem_copyin : ksafe.
Lemma safe_sem_init a v : safe false false (sem_init a v).
Proof. unfold sem_init. ksafe. Qed.
Lemma safe_sem_destroy a : safe false false (sem_destroy a).
Proof. unfold sem_destroy. ksafe. Qed.
Lemma safe_sem_wait_loop n a timeout : timeout_fits timeout -> safe false false (sem_wait_loop n a timeout).
Proof. intros Hf. induction n as [|n IH]; cbn [sem_wait_loop]; ksafe. Qed.
Hint Resolve safe_sem_wait_loop : ksafe.
Lemma safe_sem_wait n a timeout : timeout_fits timeout -> safe false false (sem_wait n a timeout).
Proof. intros Hf. unfold sem_wait. ksafe. Qed.
Lemma safe_sem_trywait a : safe false false (sem_trywait a).
Proof. unfold sem_trywait. ksafe. Qed.
Lemma safe_sem_post a : safe false false (sem_post a).
Proof. unfold sem_post. ksafe. Qed.
Lemma safe_sem_getvalue a v : safe false false (sem_getvalue a v).
Proof. unfold sem_getvalue. ksafe. Qed.
End SemSafe.

#[export] Hint Resolve safe_sem_init safe_sem_destroy safe_sem_wait safe_sem_trywait safe_sem_post safe_sem_getvalue : ksafe.

(** ** Mutexes and condition variables *)
Section MutexSafe.
Context {KM : KMem}.

Lemma MIN_PRIO_ok : 0 <= MIN_PRIO <= MIN_PRIO.
Proof. done. Qed.
Hint Resolve MIN_PRIO_ok : ksafe.

Lemma safe_mutex_valid a : safe false false (mutex_valid a).
Proof. unfold mutex_valid. ksafe. Qed.
Lemma mprio_update s s' :
  karound s -> sch s' = sch s -> (forall a m, mutexes s' !! a = Some m -> mutexes s !! a = Some m \/ m_prio m = MIN_PRIO) -> karound s'.
Proof. intros [M TR] Es H. split; [|by rewrite Es]. intros a m E. destruct (H _ _ E) as [?| ->]; [by eapply M|done]. Qed.
Lemma safe_mutex_free a : safe false false (mutex_free a).
Proof.
  unfold mutex_free. ksafe. intros s (I&M&R). cbn. split; [|done]. split_and!; [done| |done].
  apply (mprio_update s); [done|done|]. intros x m. cbn. rewrite lookup_delete_Some. intros [_ ?]. by left.
Qed.
Hint Resolve safe_mutex_valid safe_mutex_free : ksafe.
Lemma safe_mutex_new a k l :
  safe false false (modify (fun s => s <| mutexes ::= <[a := mk_mutex MUTEX_MAGIC k NULL MIN_PRIO l]> |>)).
Proof.
  intros s (I&M&R). cbn. split; [|done]. split_and!; [done| |done].
  apply (mprio_update s); [done|done|]. intros x m. cbn. rewrite lookup_insert_Some. intros [[_ <-]|[_ ?]]; [by right|by left].
Qed.
Lemma safe_mutex_init a : safe false false (mutex_init a).
Proof.
  unfold mutex_init. ksafe_step; [ksafe|]. ksafe_step; [|ksafe]. ksafe_step; [ksafe|].
  ksafe_step; [ksafe|]. ksafe_step; [apply safe_mutex_new|]. ksafe.
Qed.
Hint Resolve safe_mutex_init : ksafe.
Lemma safe_mutex_copyin a : safe false false (mutex_copyin a).
Proof. unfold mutex_copyin. ksafe. Qed.
Hint Resolve safe_mutex_copyin : ksafe.
Lemma safe_mutex_destroy a : safe false false (mutex_destroy a).
Proof. unfold mutex_destroy. ksafe; lia. Qed.

Lemma safe_prio_inherit_loop n c w a : safe false false (prio_inherit_loop n c w a).
Proof. revert c a. induction n as [|n IH]; intros c a; cbn [prio_inherit_loop]; ksafe; lia. Qed.
Hint Resolve safe_prio_inherit_loop : ksafe.
Lemma safe_prio_inherit w : safe false false (prio_inherit w).
Proof. unfold prio_inherit. ksafe. Qed.

Lemma safe_top_mutex_prio_bind {B} l top (f : Z -> K B) :
  0 <= top <= MIN_PRIO -> (forall p, 0 <= p <= MIN_PRIO -> safe false false (f p)) ->
  safe false false (top_mutex_prio top l ≫= f).
Proof.
  intros Ht Hf s Hs. revert top Ht. induction l as [|a l IH]; intros top Ht; cbn [top_mutex_prio].
  - by apply Hf.
  - unfold rd, getso, mbind, K_bind. destruct (mutexes s !! a) as [m|] eqn:E; [|done]. cbn [rbind].
    assert (0 <= m_prio m <= MIN_PRIO) by (destruct Hs as (_&M&_); by eapply M).
    apply IH. destruct (m_prio m <? top); lia.
Qed.
Lemma safe_prio_uninherit t : safe false false (prio_uninherit t).
Proof.
  unfold prio_uninherit. ksafe_step. ksafe_step; [ksafe|]. ksafe_step; [ksafe|].
  apply safe_top_mutex_prio_bind; [done|]. intros p Hp. ksafe.
Qed.
Hint Resolve safe_prio_inherit safe_prio_uninherit : ksafe.

Lemma safe_mutex_take a : safe false false (mutex_take a).
Proof. unfold mutex_take. ksafe; lia. Qed.
Lemma safe_mutex_unlink t a : safe false false (mutex_unlink t a).
Proof. unfold mutex_unlink. ksafe. Qed.
Hint Resolve safe_mutex_take safe_mutex_unlink : ksafe.
Lemma safe_owner_prio_bind {B} t (f : Z -> K B) :
  (forall p, 0 <= p <= MIN_PRIO -> safe false false (f p)) ->
  safe false false ((if negb (t =? NULL) then th ← s_thread t; mret (th_prio th) else mret MIN_PRIO) ≫= f).
Proof.
  intros Hf. destruct (negb (t =? NULL)); [|intros s Hs; by apply Hf].
  intros s Hs. unfold s_thread, getso, mbind, K_bind. destruct (sth (sch s) !! t) as [th|] eqn:E; [|done].
  apply Hf; [|done]. destruct Hs as ([(W&_) _]&_). by apply (wf_prio _ _ _ W _ _ E).
Qed.
Lemma safe_mutex_handover a : safe false false (mutex_handover a).
Proof.
  unfold mutex_handover. do 3 (ksafe_step; [ksafe; lia|]). apply safe_owner_prio_bind. intros p Hp. ksafe. lia.
Qed.
Hint Resolve safe_mutex_handover : ksafe.
Lemma safe_mutex_lock a : safe false false (mutex_lock a).
Proof. unfold mutex_lock. ksafe; lia. Qed.
Lemma safe_mutex_trylock a : safe false false (mutex_trylock a).
Proof. unfold mutex_trylock. ksafe; lia. Qed.
Lemma safe_mutex_unlock_count a : safe false false (mutex_unlock_count a).
Proof. unfold mutex_unlock_count. ksafe; lia. Qed.
Hint Resolve safe_mutex_lock safe_mutex_unlock_count : ksafe.
Lemma safe_mutex_unlock a : safe false false (mutex_unlock a).
Proof. unfold mutex_unlock. ksafe. Qed.
Lemma safe_mutex_cleanup_loop n t : safe false false (mutex_cleanup_loop n t).
Proof. induction n as [|n IH]; cbn [mutex_cleanup_loop]; ksafe; lia. Qed.
Hint Resolve safe_mutex_cleanup_loop : ksafe.
Lemma safe_mutex_cleanup t : safe false false (mutex_cleanup t).
Proof. unfold mutex_cleanup. ksafe. Qed.
Lemma safe_mutex_setprio t p : safe false false (mutex_setprio t p).
Proof. unfold mutex_setprio. ksafe. Qed.

Lemma safe_cond_valid a : safe false false (cond_valid a).
Proof. unfold cond_valid. ksafe. Qed.
Lemma safe_cond_free a : safe false false (cond_free a).
Proof. unfold cond_free. ksafe. Qed.
Hint Resolve safe_cond_valid safe_cond_free : ksafe.
Lemma safe_cond_init a : safe false false (cond_init a).
Proof. unfold cond_init. ksafe. Qed.
Lemma safe_cond_copyin a : safe false false (cond_copyin a).
Proof. unfold cond_copyin. ksafe. Qed.
Hint Resolve safe_cond_init safe_cond_copyin : ksafe.
Lemma safe_cond_destroy a : safe false false (cond_destroy a).
Proof. unfold cond_destroy. ksafe. Qed.
Lemma safe_cond_wait_on a m timeout : timeout_fits timeout -> safe false false (cond_wait_on a m timeout).
Proof. intros. unfold cond_wait_on. ksafe. Qed.
Hint Resolve safe_cond_wait_on : ksafe.
Lemma safe_cond_wait a m timeout : timeout_fits timeout -> safe false false (cond_wait a m timeout).
Proof. intros. unfold cond_wait. ksafe. Qed.
Lemma safe_cond_signal a : safe false false (cond_signal a).
Proof. unfold cond_signal. ksafe. Qed.
Lemma safe_cond_broadcast a : safe false false (cond_broadcast a).
Proof. unfold cond_broadcast. ksafe. Qed.
End MutexSafe.

#[export] Hint Resolve safe_mutex_init safe_mutex_destroy safe_mutex_lock safe_mutex_trylock safe_mutex_unlock
  safe_mutex_cleanup safe_mutex_setprio safe_cond_init safe_cond_destroy safe_cond_wait safe_cond_signal
  safe_cond_broadcast : ksafe.

(** ** IPC *)
Section ObjectSafe.
Context {KM : KMem}.

Lemma safe_object_valid a : safe false false (object_valid a).
Proof. apply safe_gets. Qed.
Lemma safe_ipc_remove t : safe false false (ipc_remove t).
Proof. unfold ipc_remove. ksafe. Qed.
Hint Resolve safe_object_valid safe_ipc_remove : ksafe.
Lemma safe_msg_enqueue_send a t : safe false false (msg_enqueue_send a t).
Proof. unfold msg_enqueue_send. ksafe. Qed.
Lemma safe_msg_enqueue_recv a t : safe false false (msg_enqueue_recv a t).
Proof. unfold msg_enqueue_recv. ksafe. Qed.
Lemma safe_msg_dequeue l : safe false false (msg_dequeue l).
Proof. unfold msg_dequeue. ksafe. Qed.
Lemma safe_kmem_map a n : safe false false (kmem_map a n).
Proof. unfold kmem_map. ksafe. Qed.
Lemma safe_alias_write p bs : safe false false (alias_write p bs).
Proof. intros s Hs. unfold alias_write. by destruct (uwrite _ _ _ _) as [[] M]. Qed.
Lemma safe_copyout_alias p a n : safe false false (copyout_alias p a n).
Proof. unfold copyout_alias. ksafe. intros s Hs. destruct (umem_ok _ _); [|done]. by destruct (umove _ _ _ _) as [[] M]. Qed.
Lemma safe_copyin_alias a p n : safe false false (copyin_alias a p n).
Proof. unfold copyin_alias. ksafe. intros s Hs. destruct (umem_ok _ _); [|done]. by destruct (umove _ _ _ _) as [[] M]. Qed.
Hint Resolve safe_msg_enqueue_send safe_msg_enqueue_recv safe_msg_dequeue safe_kmem_map safe_alias_write safe_copyout_alias safe_copyin_alias : ksafe.
Lemma safe_msg_send_wait a timeout : timeout_fits timeout -> safe false false (msg_send_wait a timeout).
Proof. intros. unfold msg_send_wait. ksafe. Qed.
Hint Resolve safe_msg_send_wait : ksafe.
Lemma safe_msg_send a m n timeout : timeout_fits timeout -> safe false false (msg_send a m n timeout).
Proof. intros. unfold msg_send. ksafe. Qed.
Lemma safe_msg_receive_loop n a timeout : timeout_fits timeout -> safe false false (msg_receive_loop n a timeout).
Proof. intros. induction n as [|n IH]; cbn [msg_receive_loop]; ksafe. Qed.
Lemma safe_msg_receive_copy a m n : safe false false (msg_receive_copy a m n).
Proof. unfold msg_receive_copy. ksafe. Qed.
Hint Resolve safe_msg_receive_loop safe_msg_receive_copy : ksafe.
Lemma safe_msg_receive n a m sz timeout : timeout_fits timeout -> safe false false (msg_receive n a m sz timeout).
Proof. intros. unfold msg_receive. ksafe. Qed.
Lemma safe_msg_reply a m n : safe false false (msg_reply a m n).
Proof. unfold msg_reply, clear_transmit. ksafe. Qed.
Lemma safe_msg_cleanup t : safe false false (msg_cleanup t).
Proof. unfold msg_cleanup. ksafe. Qed.
Lemma safe_cancel_sendq n a : safe false false (cancel_sendq n a).
Proof. induction n as [|n IH]; cbn [cancel_sendq]; ksafe. Qed.
Lemma safe_cancel_recvq n a : safe false false (cancel_recvq n a).
Proof. induction n as [|n IH]; cbn [cancel_recvq]; ksafe. Qed.
Hint Resolve safe_cancel_sendq safe_cancel_recvq : ksafe.
Lemma safe_msg_cancel a : safe false false (msg_cancel a).
Proof. unfold msg_cancel. ksafe. Qed.
Hint Resolve safe_msg_cancel : ksafe.
Lemma safe_find_in name l : safe false false (find_in name l).
Proof. induction l as [|a l IH]; cbn [find_in]; ksafe. Qed.
Hint Resolve safe_find_in : ksafe.
Lemma safe_object_find name : safe false false (object_find name).
Proof. unfold object_find. ksafe. Qed.
Hint Resolve safe_object_find : ksafe.
Lemma safe_object_lookup name p : safe false false (object_lookup name p).
Proof. unfold object_lookup. ksafe. Qed.
Lemma safe_object_hash_user name : safe false false (object_hash_user name).
Proof. unfold object_hash_user. ksafe. Qed.
Hint Resolve safe_object_hash_user : ksafe.
Lemma safe_object_create_named name p str : safe false false (object_create_named name p str).
Proof. unfold object_create_named. ksafe. Qed.
Hint Resolve safe_object_create_named : ksafe.
Lemma safe_object_create name p : safe false false (object_create name p).
Proof. unfold object_create. ksafe. Qed.
Lemma safe_object_destroy a : safe false false (object_destroy a).
Proof. unfold object_destroy. ksafe. Qed.
End ObjectSafe.

#[export] Hint Resolve safe_msg_send safe_msg_receive safe_msg_reply safe_msg_cleanup safe_object_lookup safe_object_create
  safe_object_destroy : ksafe.

(** ** Timers and exceptions *)
Section TimerSafe.
Context {KM : KMem}.

Lemma not_timeout_heap a : not_timeout (TmHeap a).
Proof. done. Qed.
Lemma not_timeout_alarm a : not_timeout (TmAlarm a).
Proof. done. Qed.
Hint Resolve not_timeout_heap not_timeout_alarm safe_timer_stop safe_timer_callout safe_timer_del : ksafe.

Lemma safe_find_waiter l : safe false false (find_waiter l).
Proof. induction l as [|t l IH]; cbn [find_waiter]; ksafe. Qed.
Hint Resolve safe_find_waiter : ksafe.
Lemma safe_exception_post k e : safe false false (exception_post k e).
Proof. unfold exception_post. ksafe. Qed.
Hint Resolve safe_exception_post : ksafe.
Lemma safe_timer_delay msec : timeout_fits msec -> safe false false (timer_delay msec).
Proof. intros. unfold timer_delay. ksafe. Qed.
Hint Resolve safe_timer_delay : ksafe.
Lemma safe_timer_sleep msec r : timeout_fits msec -> safe false false (timer_sleep msec r).
Proof. intros. unfold timer_sleep. ksafe. Qed.
Lemma safe_timer_alarm msec r : timeout_fits msec -> safe false false (timer_alarm msec r).
Proof. intros. unfold timer_alarm. ksafe. Qed.
(** A fresh periodic timer holds junk until its interval is set. *)
Lemma safe_periodic_alloc t i {B} (none : K B) (rest : Z -> K B) :
  0 <= i < 2 ^ 31 -> safe false false none -> (forall a, safe false false (rest a)) ->
  safe false false (o ← periodic_alloc t;
    match o with
    | None => none
    | Some a => lift_t (tm_upd (TmHeap a) (fun x => x <| tm_interval := i |>));; rest a
    end).
Proof.
  intros Hi Hn Hr s Hs. apply rsafe_bind. unfold periodic_alloc. apply rsafe_bind.
  eapply rsafe_mono; [|by apply safe_kalloc]. cbn beta. intros [a|] s1 [Hs1 <-]; [|by apply Hn].
  apply rsafe_bind. eapply rsafe_mono; [|by apply safe_kevent_init]. cbn beta. intros _ s2 [Hs2 <-].
  apply rsafe_bind. unfold timer_new, lift_t at 2, lift_s. destruct (tm_linked (TmHeap a) (tms (sch s2))) eqn:Hl; [done|]. cbn [mbind option_bind rsafe].
  apply rsafe_bind. unfold upd_thr, rd, getso, mbind, K_bind. cbn [rbind thr set]. destruct (thr s2 !! t) as [th|]; [|done].
  cbn [rbind modify rsafe mret K_ret]. apply rsafe_bind. unfold lift_t, lift_s, tm_upd. cbn [tmrs tms sch set]. rewrite lookup_insert_eq. cbn [mbind option_bind rsafe].
  match goal with |- rsafe _ _ (rest a ?s5) => assert (kinv false s5) as Hk; [|exact (Hr a s5 Hk)] end.
  destruct Hs2 as (I&[M TR]&R). set (t1 := mk_timer true (u32 (junk_int a)) i None).
  set (T1 := tms (sch s2) <| tmrs ::= <[TmHeap a := t1]> |>).
  assert (forall S1, S1 = sch s2 <| tms := T1 |> -> sinv S1 /\ sready S1) as HS.
  { intros ? ->. pose proof I as [_ HT]. pose proof HT as [W _]. pose proof (tm_linked_false (TmHeap a) (tms (sch s2))) as [Hl' _]. specialize (Hl' Hl). split.
    - apply sinv_tms; [done|]. apply timeouts_ok_other; try done; [apply timers_wf_insert; [done|done|apply u32_range]|]. intros x. cbn. by rewrite lookup_insert_ne.
    - apply (new_ready (TmHeap a) t1 (tms (sch s2))); [by apply linked_not_listed|done|exact TR]. }
  match goal with |- kinv false ?s5 => destruct (HS (sch s5)) as [I5 TR5] end.
  { unfold T1. cbn. unfold set. cbn. by rewrite insert_insert_eq. }
  by split_and!.
Qed.

Lemma msec_to_tick_range ms : 0 <= ms < 2 ^ 31 -> (ms <> 0 -> 1 <= msec_to_tick ms) /\ 0 <= msec_to_tick ms < 2 ^ 31.
Proof.
  intros H. unfold msec_to_tick, HZ. destruct (Z.leb_spec 0x20000 ms).
  - rewrite u32_small; Z.div_mod_to_equations; lia.
  - rewrite u32_small by lia. rewrite Z.div_mul by lia. lia.
Qed.

Lemma safe_timer_periodic t start period :
  0 <= start < 2 ^ 31 -> 0 <= period < 2 ^ 31 -> safe false false (timer_periodic t start period).
Proof.
  intros [H1 Hs]%msec_to_tick_range [_ Hp]%msec_to_tick_range.
  set (i := if msec_to_tick period =? 0 then 1 else msec_to_tick period).
  assert (0 <= i < 2 ^ 31) as Hi by (unfold i; destruct (_ =? 0); lia).
  assert (forall a, safe false false (lift_t (tm_upd (TmHeap a) (fun x => x <| tm_interval := i |>)))) as Hu.
  { intros a. by apply safe_tm_upd. }
  unfold timer_periodic. cbv zeta. fold i. ksafe_step; [ksafe|]. ksafe_step; [ksafe|]. ksafe_step; [ksafe|]. ksafe_step; [ksafe|].
  ksafe_step; [ksafe|]. ksafe_step; [ksafe|]. ksafe_step; [ksafe|]. destruct (Z.eqb_spec start 0) as [|Hne]; [ksafe|].
  assert (forall a, safe false false (lift_t (timer_add (TmHeap a) (msec_to_tick start)))) as Ha.
  { intros x. apply safe_timer_add; [done|]. specialize (H1 Hne). lia. }
  destruct (_ =? NULL); [|ksafe]. apply safe_periodic_alloc; [done|ksafe|intros; ksafe].
Qed.
Lemma safe_timer_waitperiod : safe false false timer_waitperiod.
Proof. unfold timer_waitperiod. ksafe. Qed.
Lemma safe_timer_cleanup t : safe false false (timer_cleanup t).
Proof. unfold timer_cleanup. ksafe. Qed.
Lemma safe_callout f : safe false false (callout f).
Proof. unfold callout. ksafe. Qed.
Hint Resolve safe_callout : ksafe.
Lemma safe_timer_thread_loop n : safe false false (timer_thread_loop n).
Proof.
  induction n as [|n IH]; cbn [timer_thread_loop]; [ksafe|]. ksafe_step; [ksafe|]. ksafe_step; [ksafe|].
  apply safe_timer_fire. ksafe.
Qed.
Hint Resolve safe_timer_thread_loop : ksafe.
Lemma safe_timer_thread_round n : safe false false (timer_thread_round n).
Proof. unfold timer_thread_round. ksafe. Qed.
Lemma safe_discard_exceptions l : safe false false (discard_exceptions l).
Proof. induction l as [|t l IH]; cbn [discard_exceptions]; ksafe. Qed.
Hint Resolve safe_discard_exceptions : ksafe.
Lemma safe_exception_setup h : safe false false (exception_setup h).
Proof. unfold exception_setup. ksafe. Qed.
Lemma safe_exception_raise k e : safe false false (exception_raise k e).
Proof. unfold exception_raise. ksafe. Qed.
Lemma safe_exception_wait e : safe false false (exception_wait e).
Proof. unfold exception_wait. ksafe. Qed.
Lemma safe_exception_mark e : safe false false (exception_mark e).
Proof. unfold exception_mark. ksafe. Qed.
Lemma safe_exception_deliver tt : (forall k, safe false false (tt k)) -> safe false false (exception_deliver tt).
Proof. intros H. unfold exception_deliver. ksafe. Qed.
Lemma safe_exception_return : safe false false exception_return.
Proof. unfold exception_return. ksafe. Qed.
End TimerSafe.

#[export] Hint Resolve not_timeout_heap not_timeout_alarm safe_timer_stop safe_timer_callout safe_timer_del safe_timer_sleep
  safe_timer_alarm safe_timer_periodic safe_timer_waitperiod safe_timer_cleanup safe_timer_thread_round
  safe_exception_setup safe_exception_raise safe_exception_wait safe_exception_mark safe_exception_return : ksafe.

(** ** Threads and tasks *)

(** What the task code relies on: the address-space and device operations do
    not touch the scheduler and the mutexes. *)
Class VMSafe `{VMOps} := {
  safe_vm_create : safe false false vm_create;
  safe_vm_reference : forall m, safe false false (vm_reference m);
  safe_vm_fork : forall m, safe false false (vm_fork m);
  safe_vm_terminate : forall m, safe false false (vm_terminate m);
  safe_device_terminate : forall k, safe false false (device_terminate k);
}.

Section ThreadSafe.
Context {KM : KMem}.

Lemma safe_thread_alloc : safe false false thread_alloc.
Proof. unfold thread_alloc. ksafe. Qed.
Lemma safe_sched_forget t : safe false false (lift_s (sched_forget t)).
Proof.
  apply safe_lift_s. intros s s' I TR E. unfold sched_forget in E.
  destruct (Z.eqb_spec t (cur s)); [done|]. destruct (link_free t s) eqn:Hl; [|done].
  destruct (tm_linked (TmTimeout t) (tms s)) eqn:Ht; [done|]. cbn in E. injection E as <-.
  split_and!; [|by apply (del_ready _ _ (linked_not_listed _ _ Ht))|done]. eapply sched_forget_ok; try done. by apply tm_linked_false.
Qed.
Hint Resolve safe_sched_forget : ksafe.
Lemma safe_thread_free t : safe false false (thread_free t).
Proof. unfold thread_free. ksafe. Qed.
Lemma sched_start_new_keeps t s s' :
  sinv s -> sched_start_new t s = Some s' -> sinv s' /\ cur s' = cur s /\ (running s -> running s').
Proof.
  intros I E. unfold sched_start_new in E. case_bool_decide as Hs; [done|].
  destruct (tm_linked (TmTimeout t) (tms s)) eqn:Ht; [done|]. cbn [orb] in E. apply tm_linked_false in Ht.
  assert (sth s !! t = None) as En by (destruct (sth s !! t) as [x|]; [destruct Hs; by eexists|done]).
  pose proof I as [(_&_&(c&Ec&_)&_) [WT _]].
  destruct (sched_start_ok s t zero_sthread (tms s <| tmrs ::= <[TmTimeout t := zero_timer]> |>)) as (s1&th1&E1&I1&Hc&_); try done.
  - by apply timers_wf_insert.
  - intros x Hx. cbn. by rewrite lookup_insert_ne.
  - exists zero_timer. cbn. rewrite lookup_insert_eq. split; [done|]. split; [by intros ?%Ht|done].
  - assert (s1 = s') as -> by congruence. split_and!; [done..|]. intros (c0&E0&Hr). exists c0. rewrite Hc.
    unfold sched_start in E1. rewrite (th_upd_ok _ _ _ zero_sthread) in E1 by (apply lookup_insert_eq).
    injection E1 as <-. cbn. assert (t <> cur s) by congruence. by rewrite !lookup_insert_ne.
Qed.
Lemma safe_sched_start_new t : safe false false (lift_s (sched_start_new t)).
Proof.
  apply safe_lift_s_run; [intros s s'; apply sched_start_new_keeps|]. intros s TR. unfold sched_start_new, sched_start.
  destruct (_ || _) eqn:Hl; [done|]. apply orb_false_iff in Hl as [_ Hl]. apply oready_th_upd.
  by apply (new_ready (TmTimeout t) zero_timer (tms s) (linked_not_listed _ _ Hl)).
Qed.
Hint Resolve safe_thread_alloc safe_thread_free safe_sched_start_new : ksafe.
Lemma safe_thread_create k p : safe false false (thread_create k p).
Proof. unfold thread_create. ksafe. Qed.
Lemma safe_do_terminate t : safe false false (do_terminate t).
Proof. unfold do_terminate, task_unlink_thread. ksafe. Qed.
Hint Resolve safe_do_terminate : ksafe.
Lemma safe_thread_terminate t : safe false false (thread_terminate t).
Proof. unfold thread_terminate. ksafe. Qed.
Lemma safe_thread_load t e s : safe false false (thread_load t e s).
Proof. unfold thread_load. ksafe. Qed.
Lemma safe_copyin_name a n : safe false false (copyin_name a n).
Proof. unfold copyin_name. ksafe. Qed.
Hint Resolve safe_copyin_name : ksafe.
Lemma safe_thread_name t n : safe false false (thread_name t n).
Proof. unfold thread_name. ksafe. Qed.
Lemma safe_thread_yield : safe false false thread_yield.
Proof. unfold thread_yield. ksafe. Qed.
Lemma safe_thread_suspend t : safe false false (thread_suspend t).
Proof. unfold thread_suspend. ksafe. Qed.
Lemma safe_schedparam_setprio t p : safe false false (schedparam_setprio t p).
Proof.
  unfold schedparam_setprio. cbv zeta. set (p1 := if p <? 0 then _ else _).
  assert (0 <= p1 <= MIN_PRIO) as Hp1.
  { unfold p1, PRIO_IDLE, MIN_PRIO. destruct (Z.ltb_spec p 0); [lia|]. destruct (Z.leb_spec 255 p); lia. }
  clearbody p1. ksafe_step. ksafe_step; [ksafe|]. ksafe_step; [ksafe|]. ksafe_step; [ksafe|].
  ksafe_step; [|ksafe]. apply safe_sched_setprio; by destruct (_ && _).
Qed.
Lemma safe_sched_setpolicy t p : safe false false (lift_sa (sched_setpolicy t p)).
Proof.
  intros s (I&M&R). unfold lift_sa. destruct (sched_setpolicy t p (sch s)) as [[r S']|] eqn:E; [|done]. cbn.
  destruct (sth (sch s) !! t) as [th|] eqn:Et.
  - destruct (sched_setpolicy_ok (sch s) t th p I Et) as (r1&S1&E1&I1&Hc&_). assert (S1 = S') as -> by congruence.
    split; [|done]. split_and!; [done| |done]. apply karound_sch; [done|]. by eapply ready_setpolicy, E; apply M.
  - unfold sched_setpolicy, th_upd in E. rewrite Et in E. destruct (_ || _); [done|]. injection E as _ <-. by split_and!.
Qed.
Hint Resolve safe_schedparam_setprio safe_sched_setpolicy : ksafe.
Lemma safe_thread_schedparam t op p : safe false false (thread_schedparam t op p).
Proof. unfold thread_schedparam. ksafe. Qed.
Lemma safe_kthread_terminate t : safe false false (kthread_terminate t).
Proof. unfold kthread_terminate. ksafe. Qed.
Lemma safe_thread_info c : safe false false (thread_info c).
Proof. unfold thread_info. ksafe. Qed.
Hint Resolve safe_thread_terminate safe_thread_suspend : ksafe.

Lemma safe_terminate_threads l : safe false false (terminate_threads l).
Proof. induction l as [|t l IH]; cbn [terminate_threads]; ksafe. Qed.
Lemma safe_destroy_objects l : safe false false (destroy_objects l).
Proof. induction l as [|t l IH]; cbn [destroy_objects]; ksafe. Qed.
Lemma safe_suspend_all l : safe false false (suspend_all l).
Proof. induction l as [|t l IH]; cbn [suspend_all]; ksafe. Qed.
Hint Resolve safe_terminate_threads safe_destroy_objects safe_suspend_all : ksafe.

Context `{!VMOps, !VMSafe}.
Hint Resolve safe_vm_create safe_vm_reference safe_vm_fork safe_vm_terminate safe_device_terminate : ksafe.

Lemma safe_task_create p o c : safe false false (task_create p o c).
Proof. unfold task_create. ksafe. by apply safe_timer_new. Qed.
Lemma safe_task_terminate k : safe false false (task_terminate k).
Proof. unfold task_terminate. ksafe. Qed.
Lemma safe_task_suspend k : safe false false (task_suspend k).
Proof. unfold task_suspend. ksafe. Qed.
Lemma safe_task_name k n : safe false false (task_name k n).
Proof. unfold task_name. ksafe. Qed.
Lemma safe_task_getcap k c : safe false false (task_getcap k c).
Proof. unfold task_getcap. ksafe. Qed.
Lemma safe_task_setcap k c : safe false false (task_setcap k c).
Proof. unfold task_setcap. ksafe. Qed.
End ThreadSafe.

#[export] Hint Resolve safe_thread_create safe_thread_terminate safe_thread_load safe_thread_name safe_thread_yield
  safe_thread_suspend safe_thread_schedparam safe_kthread_terminate safe_thread_info safe_task_create
  safe_task_terminate safe_task_suspend safe_task_name safe_task_getcap safe_task_setcap : ksafe.

(** ** Resuming: code that relies on the current thread being runnable *)
Ltac krun_step :=
  lazymatch goal with
  | |- safe _ _ (_ ≫= _) => apply (safe_bind true true true); [|intros]
  | |- safe _ _ (if ?c then _ else _) => destruct c
  | |- safe _ _ (match ?x with _ => _ end) => destruct x
  | |- safe _ _ _ => solve [auto with ksafe]
  end.
Ltac krun := repeat (progress cbv zeta || krun_step).

Section ResumeSafe.
Context {KM : KMem}.

Lemma run_cur_task : safe true true cur_task.
Proof. unfold cur_task, cur_thread. krun. Qed.
Hint Resolve run_cur_task safe_sched_resume : ksafe.
Lemma run_task_capable c : safe true true (task_capable c).
Proof. unfold task_capable. krun. Qed.
Hint Resolve run_task_capable : ksafe.
Lemma run_task_access k : safe true true (task_access k).
Proof. unfold task_access. krun. Qed.
Lemma run_thread_valid t : safe true true (thread_valid t).
Proof. apply safe_gets. Qed.
Lemma run_task_valid t : safe true true (task_valid t).
Proof. apply safe_gets. Qed.
Hint Resolve run_task_access run_thread_valid run_task_valid : ksafe.
Lemma run_thread_resume t : safe true true (thread_resume t).
Proof. unfold thread_resume. krun. Qed.
Hint Resolve run_thread_resume : ksafe.
Lemma run_resume_all l : safe true true (resume_all l).
Proof. induction l as [|t l IH]; cbn [resume_all]; krun. Qed.
Hint Resolve run_resume_all : ksafe.
Lemma run_task_resume k : safe true true (task_resume k).
Proof. unfold task_resume. krun. Qed.
End ResumeSafe.
