(* ===== verification/System.v ===== *)
(** * System: the kernel as a whole

    System calls, clock interrupts and context switches as the steps of a
    transition system, and the invariant that every reachable state has. *)
From stdpp Require Import base numbers strings gmap list.
From S2P Require Import Prelude Core Timer Sched SchedInv SchedOps Tick SchedSleep TickReady Kernel KernelInv Exec Block Sem Mutex Cond Object TimerSys Thread KernelSafe.

Open Scope Z_scope.

(** ** System calls *)

(** The entries of the system call table (sys/kern/syscalls.c) that are
    modelled, and the entry points of kernel threads and traps.  [n] bounds the
    rounds of the loops that retry after a wakeup. *)
Inductive syscall :=
| ObjectCreate (name p : Z) | ObjectDestroy (a : Z) | ObjectLookup (name p : Z)
| MsgSend (a m sz timeout : Z) | MsgReceive (n : nat) (a m sz timeout : Z) | MsgReply (a m sz : Z)
| TaskCreate (parent opt p : Z) | TaskTerminate (k : Z) | TaskSuspend (k : Z) | TaskResume (k : Z)
| TaskName (k : Z) (name : name_arg) | TaskGetcap (k p : Z) | TaskSetcap (k p : Z)
| ThreadCreate (k p : Z) | ThreadTerminate (t : tid) | ThreadLoad (t entry stack : Z) | ThreadYield
| ThreadSuspend (t : tid) | ThreadResume (t : tid) | ThreadSchedparam (t op p : Z) | ThreadName (t : tid) (name : name_arg)
| TimerSleep (ms p : Z) | TimerAlarm (ms p : Z) | TimerPeriodic (t start period : Z) | TimerWaitperiod
| ExceptionSetup (h : Z) | ExceptionReturn | ExceptionRaise (k e : Z) | ExceptionWait (p : Z)
| MutexInit (p : Z) | MutexDestroy (p : Z) | MutexLock (p : Z) | MutexTrylock (p : Z) | MutexUnlock (p : Z)
| CondInit (p : Z) | CondDestroy (p : Z) | CondWait (p m timeout : Z) | CondSignal (p : Z) | CondBroadcast (p : Z)
| SemInit (p v : Z) | SemDestroy (p : Z) | SemWait (n : nat) (p timeout : Z) | SemTrywait (p : Z) | SemPost (p : Z)
| SemGetvalue (p v : Z)
| TimerThread (n : nat) | ExceptionMark (e : Z) | ExceptionDeliver.

Definition unit_call {KM : KMem} (m : K unit) : K Z := m;; mret 0.

Definition run_syscall `{VMOps} (c : syscall) : K Z :=
  match c with
  | ObjectCreate name p => object_create name p | ObjectDestroy a => object_destroy a
  | ObjectLookup name p => object_lookup name p
  | MsgSend a m sz t => msg_send a m sz t | MsgReceive n a m sz t => msg_receive n a m sz t
  | MsgReply a m sz => msg_reply a m sz
  | TaskCreate p o c => task_create p o c | TaskTerminate k => task_terminate k | TaskSuspend k => task_suspend k
  | TaskResume k => task_resume k | TaskName k n => task_name k n | TaskGetcap k p => task_getcap k p
  | TaskSetcap k p => task_setcap k p
  | ThreadCreate k p => thread_create k p | ThreadTerminate t => thread_terminate t
  | ThreadLoad t e s => thread_load t e s | ThreadYield => unit_call thread_yield
  | ThreadSuspend t => thread_suspend t | ThreadResume t => thread_resume t
  | ThreadSchedparam t o p => thread_schedparam t o p | ThreadName t n => thread_name t n
  | TimerSleep ms p => timer_sleep ms p | TimerAlarm ms p => timer_alarm ms p
  | TimerPeriodic t s p => timer_periodic t s p | TimerWaitperiod => timer_waitperiod
  | ExceptionSetup h => exception_setup h | ExceptionReturn => exception_return
  | ExceptionRaise k e => exception_raise k e | ExceptionWait p => exception_wait p
  | MutexInit p => mutex_init p | MutexDestroy p => mutex_destroy p | MutexLock p => mutex_lock p
  | MutexTrylock p => mutex_trylock p | MutexUnlock p => mutex_unlock p
  | CondInit p => cond_init p | CondDestroy p => cond_destroy p | CondWait p m t => cond_wait p m t
  | CondSignal p => cond_signal p | CondBroadcast p => cond_broadcast p
  | SemInit p v => sem_init p v | SemDestroy p => sem_destroy p | SemWait n p t => sem_wait n p t
  | SemTrywait p => sem_trywait p | SemPost p => sem_post p | SemGetvalue p v => sem_getvalue p v
  | TimerThread n => unit_call (timer_thread_round n) | ExceptionMark e => unit_call (exception_mark e)
  | ExceptionDeliver => unit_call (exception_deliver task_terminate)
  end.

(** The clock interrupt: interrupt_common locks the scheduler, the clock's
    service routine calls timer_tick(), and sched_unlock() tries to preempt. *)
Definition clock_interrupt {KM : KMem} : K Z :=
  sched_lock;;
  _ ← lift_sa timer_tick;
  sched_unlock;;
  mret 0.

(** The delays, timeouts and periods a call passes, which the code does not
    check, stay below half the range of the tick counter (see
    [long_timeout_already_expired] of Timer.v for what happens otherwise). *)
Definition call_fits (c : syscall) : Prop :=
  match c with
  | MsgSend _ _ _ t | MsgReceive _ _ _ _ t | CondWait _ _ t | SemWait _ _ t => timeout_fits t
  | TimerSleep ms _ | TimerAlarm ms _ => timeout_fits ms
  | TimerPeriodic _ s p => 0 <= s < 2 ^ 31 /\ 0 <= p < 2 ^ 31
  | _ => True
  end.

Section System.
Context {KM : KMem} `{!VMOps, !VMSafe}.

(** The calls that resume threads. *)
Definition resumes (c : syscall) : bool :=
  match c with ThreadResume _ | TaskResume _ => true | _ => false end.

Lemma safe_run_syscall c : call_fits c -> safe (resumes c) false (run_syscall c).
Proof.
  intros Hf. destruct c; cbn [run_syscall call_fits resumes] in *; unfold unit_call;
    try (destruct Hf; by apply safe_timer_periodic);
    try (apply (safe_weaken true true true false); [|done..]; (apply run_thread_resume || apply run_task_resume)); ksafe.
  apply safe_exception_deliver. auto with ksafe.
Qed.

(** ** Steps *)

(** [conts] holds the rest of the kernel work of every thread that was switched
    out inside the kernel; [dispatched] says that a context switch has just
    happened and the new current thread has not run yet. *)
Record config := mk_config { ck : kst; conts : gmap tid (kst -> res Z); dispatched : bool }.

(** What becomes of the system when thread [t] has run up to [r]: a fault stops
    it. *)
Definition after (t : tid) (C : gmap tid (kst -> res Z)) (r : res Z) : option config :=
  match r with
  | Done _ s => Some (mk_config s C false)
  | Switch s k => Some (mk_config s (<[t := k]> C) true)
  | Fault => None
  end.

(** A thread that makes a system call is runnable; the calls that resume
    threads depend on it.  A clock interrupt may arrive whenever the current
    thread is outside the kernel. *)
Inductive step : config -> config -> Prop :=
| step_call c s C x' :
    C !! cur (sch s) = None -> call_fits c -> (resumes c = true -> running (sch s)) ->
    after (cur (sch s)) C (run_syscall c s) = Some x' ->
    step (mk_config s C false) x'
| step_continue s C k x' :
    C !! cur (sch s) = Some k -> after (cur (sch s)) (delete (cur (sch s)) C) (k s) = Some x' ->
    step (mk_config s C true) x'
| step_enter s C :
    C !! cur (sch s) = None -> step (mk_config s C true) (mk_config s C false)
| step_tick s C x' :
    C !! cur (sch s) = None ->
    after (cur (sch s)) C (clock_interrupt s) = Some x' ->
    step (mk_config s C false) x'.

Inductive steps : config -> config -> Prop :=
| steps_refl x : steps x x
| steps_trans x y z : step x y -> steps y z -> steps x z.

Definition conts_safe (C : gmap tid (kst -> res Z)) : Prop :=
  forall t k, C !! t = Some k -> forall s, ready s -> cur (sch s) = t ->
    rsafe t (fun _ s' => kinv false s' /\ cur (sch s') = t) (k s).

Definition config_inv (x : config) : Prop :=
  kinv false (ck x) /\ (dispatched x = true -> ready (ck x)) /\ conts_safe (conts x).

Lemma after_inv t C r x' :
  conts_safe C -> rsafe t (fun _ s' => kinv false s' /\ cur (sch s') = t) r -> after t C r = Some x' -> config_inv x'.
Proof.
  intros HC Hr. destruct r as [a s|s k|]; cbn in *; [intros [= <-]|intros [= <-]|done].
  - destruct Hr as [? _]. by split_and!.
  - destruct Hr as [Hrd Hk]. split_and!; [by apply ready_kinv|done|]. cbn.
    intros t' k'. rewrite lookup_insert_Some. intros [[<- <-]|[_ E]]; [done|by apply HC].
Qed.

(** The tick itself never faults (see [timer_tick_safe] of Tick.v). *)
Lemma safe_timer_tick : safe false false (lift_sa timer_tick).
Proof.
  intros s (I&M&R). unfold lift_sa. destruct (timer_tick_safe (sch s) I (proj2 M)) as (i&S'&->&I'&TR'&Hc). cbn.
  split; [|done]. split_and!; [done|by apply karound_sch|done].
Qed.

Lemma safe_clock_interrupt : safe false false clock_interrupt.
Proof. unfold clock_interrupt. ksafe. apply safe_timer_tick. Qed.

Lemma step_inv x y : step x y -> config_inv x -> config_inv y.
Proof.
  intros Hs (Hk&Hd&HC). destruct Hs as [c s C x' En Hf Hrun Ha|s C k x' En Ha|s C En|s C x' En Ha]; cbn in *.
  - eapply after_inv; [exact HC| |exact Ha]. apply (safe_run_syscall c Hf s). destruct Hk as (I&M&_). by split_and!.
  - eapply after_inv; [|by eapply HC; eauto|exact Ha]. intros t' k' E. apply lookup_delete_Some in E as [_ E]. by apply HC.
  - by split_and!.
  - eapply after_inv; [exact HC| |exact Ha]. by apply safe_clock_interrupt.
Qed.

(** C1: the invariant of the kernel holds in every state the system can reach by
    system calls of the current thread, context switches inside them,
    resumptions and clock interrupts, in any order: the run, wake and sleep
    queues agree with the thread states, the cached top priority is right, only
    the current thread is marked for rescheduling, the current thread is the
    best runnable one unless it is marked, the timer lists are in order with
    every active timer at least a tick ahead, and every suspended kernel
    computation may safely continue.  A clock interrupt may arrive in any state
    in which the current thread is outside the kernel; nothing is assumed of it
    and the tick itself cannot fault.  Conditions on the calls: delays, timeouts
    and periods below 2^31 ticks ([call_fits]; the code does not check them),
    and thread_resume and task_resume made by a runnable thread.  A run that
    ends in a fault (a panic) is not a step. *)
Theorem system_invariant x y : config_inv x -> steps x y -> config_inv y.
Proof. intros Hx Hs. induction Hs as [|x y z Hxy _ IH]; [done|]. apply IH. by apply (step_inv x). Qed.
End System.
