(* ===== verification/Demo.v ===== *)
(** * Demo: a concrete kernel

    A trivial allocator, a decision procedure for the scheduler invariant and a
    small system of three threads, on which theorems are applied and programs
    are run. *)
From stdpp Require Import base numbers strings gmap list.
From S2P Require Import Prelude Core Timer Sched SchedInv SchedOps Tick SchedSleep Kernel KernelInv Sem Mutex Cond Object TimerSys Thread KernelSafe System.

Open Scope Z_scope.

(** ** An allocator that never reuses memory, and address spaces without
    contents *)
#[export] Instance demo_kmem : KMem := {|
  kheap := Z;
  kmem_alloc := fun n h => Some (h, h + n);
  kmem_free := fun _ h => Some h;
  junk_int := fun _ => 0;
  junk_str := fun _ => [];
|}.
#[export] Instance demo_vm : VMOps := {|
  vm_create := mret 7;
  vm_reference := fun _ => mret tt;
  vm_fork := fun _ => mret 8;
  vm_terminate := fun _ => mret tt;
  device_terminate := fun _ => mret tt;
|}.
#[export] Instance demo_vm_safe : VMSafe.
Proof. split; intros; apply safe_ret. Qed.

(** ** Deciding the invariant *)

Definition place_ok (s : sched) (t : tid) (th : sthread) : Prop :=
  (th_state th = TH_RUN -> t <> cur s -> t ∈ rq s (th_prio th)) /\
  (sleeping th = true -> t ∈ wakeq s \/ match th_slpevt th with Some e => t ∈ sq s e | None => False end) /\
  (0 <= th_prio th <= MIN_PRIO /\ 0 <= th_baseprio th <= MIN_PRIO) /\
  (th_resched th = true -> t = cur s) /\
  match tmrs (tms s) !! TmTimeout t with Some tm => tm_active tm = false | None => False end.
Definition on_runq (s : sched) (p : Z) (t : tid) : Prop :=
  match sth s !! t with Some th => th_prio th = p /\ th_state th = TH_RUN /\ t <> cur s | None => False end.
Definition on_wakeq (s : sched) (t : tid) : Prop :=
  match sth s !! t with Some th => sleeping th = true | None => False end.
Definition on_sleepq (s : sched) (e : evt) (t : tid) : Prop :=
  match sth s !! t with
  | Some th => sleeping th = true /\ th_slpevt th = Some e /\ t ∉ wakeq s | None => False end.
Definition cur_ok (s : sched) : Prop :=
  match sth s !! cur s with
  | Some c => sleeping c = false /\ (th_resched c = true \/ (th_state c = TH_RUN /\ th_prio c <= top_prio s))
  | None => False end.
Definition idle_timers (T : timers) : Prop :=
  timer_list T = [] /\ expire_list T = [] /\ (0 <= lbolt T < 2 ^ 32) /\
  map_Forall (fun _ t => 0 <= tm_expire t < 2 ^ 32) (tmrs T).
Definition sched_ok (s : sched) : Prop :=
  map_Forall (place_ok s) (sth s) /\
  map_Forall (fun p l => NoDup l /\ Forall (on_runq s p) l) (runq s) /\
  (NoDup (wakeq s) /\ Forall (on_wakeq s) (wakeq s)) /\
  map_Forall (fun e l => NoDup l /\ Forall (on_sleepq s e) l) (sleepq s) /\
  top_prio s = runq_top s /\ cur_ok s /\ idle_timers (tms s).

#[export] Instance place_ok_dec s t th : Decision (place_ok s t th).
Proof.
  unfold place_ok. apply and_dec; [apply _|]. apply and_dec; [destruct (th_slpevt th); apply _|].
  apply and_dec; [apply _|]. apply and_dec; [apply _|]. destruct (tmrs (tms s) !! TmTimeout t); apply _.
Defined.
#[export] Instance on_runq_dec s p t : Decision (on_runq s p t).
Proof. unfold on_runq. destruct (sth s !! t); apply _. Defined.
#[export] Instance on_wakeq_dec s t : Decision (on_wakeq s t).
Proof. unfold on_wakeq. destruct (sth s !! t); apply _. Defined.
#[export] Instance on_sleepq_dec s e t : Decision (on_sleepq s e t).
Proof. unfold on_sleepq. destruct (sth s !! t); apply _. Defined.
#[export] Instance cur_ok_dec s : Decision (cur_ok s).
Proof. unfold cur_ok. destruct (sth s !! cur s); apply _. Defined.
#[export] Instance sched_ok_dec s : Decision (sched_ok s).
Proof. unfold sched_ok, idle_timers. apply _. Defined.

Lemma sched_ok_sinv s : sched_ok s -> sinv s.
Proof.
  intros (H1&H2&[H3 H4]&H5&H6&H7&H8&H9&H10&H11). unfold cur_ok in H7.
  destruct (sth s !! cur s) as [c|] eqn:Ec; [|done]. rewrite Forall_forall in H4.
  assert (forall p, NoDup (rq s p) /\ forall t, t ∈ rq s p -> on_runq s p t) as Hrq.
  { intros p. unfold rq. destruct (runq s !! p) as [l|] eqn:E; cbn; [|split; [constructor|set_solver]].
    destruct (H2 _ _ E) as [? Hf]. by rewrite Forall_forall in Hf. }
  assert (forall e, NoDup (sq s e) /\ forall t, t ∈ sq s e -> on_sleepq s e t) as Hsq.
  { intros p. unfold sq. destruct (sleepq s !! p) as [l|] eqn:E; cbn; [|split; [constructor|set_solver]].
    destruct (H5 _ _ E) as [? Hf]. by rewrite Forall_forall in Hf. }
  split; [split_and!|split].
  - split.
    + intros p. apply Hrq.
    + intros p t Ht. apply Hrq in Ht. unfold on_runq in Ht. destruct (sth s !! t) as [th|]; [|done].
      exists th. destruct Ht as (?&?&?). split_and!; [done..|congruence].
    + done.
    + intros t Ht. specialize (H4 t Ht). unfold on_wakeq in H4. destruct (sth s !! t) as [th|]; [|done]. by exists th.
    + intros e. apply Hsq.
    + intros e t Ht. apply Hsq in Ht. unfold on_sleepq in Ht. destruct (sth s !! t) as [th|]; [|done].
      exists th. destruct Ht as (?&?&?). by split_and!.
    + intros t th E Hr _ Hne. apply (H1 _ _ E); [done|congruence].
    + intros t th E Hs _. destruct (H1 _ _ E) as (_&Hp&_). destruct (Hp Hs) as [?|He]; [by left|right].
      destruct (th_slpevt th) as [e|]; [by exists e|done].
    + intros t th E. by apply (H1 _ _ E).
  - by split.
  - by exists c.
  - intros t th E. by apply (H1 _ _ E).
  - split; rewrite ?H8, ?H9; try done; [constructor|set_solver|set_solver|constructor].
  - intros t [th E]. destruct (H1 _ _ E) as (_&_&_&_&Ht). destruct (tmrs (tms s) !! TmTimeout t) as [tm|]; [|done].
    exists tm. split; [done|]. rewrite H8, H9, Ht. split; [by intros ?%not_elem_of_nil|done].
Qed.

(** ** A system of two tasks *)

Definition KERN := 0x80001000.
Definition IDLE := 0x80002000.
Definition TASK := 0x80003000.
Definition T1 := 0x80004000.
Definition T2 := 0x80005000.
Definition TIMER := 0x80006000.
Definition TASK2 := 0x80007000.
Definition T3 := 0x80008000.

Definition mk_sth (state policy prio : Z) (resched : bool) : sthread :=
  mk_sthread state policy prio prio QUANTUM 0 resched 0 None 0.
Definition mk_thr (task : Z) : thread :=
  mk_thread THREAD_MAGIC [] task 0 0 0 (0, 0) 0 0 0 0 0 [] 0 0 zero_uregs NULL.

(** The timer thread runs; T1 and T2 of the first task are ready with priorities
    100 and 150, T3 of the second one with 200, and the idle thread. *)
Definition demo_sched : sched :=
  mk_sched {[ IDLE := mk_sth TH_RUN SCHED_FIFO PRIO_IDLE false; TIMER := mk_sth TH_RUN SCHED_FIFO PRIO_TIMER false;
              T1 := mk_sth TH_RUN SCHED_FIFO 100 false; T2 := mk_sth TH_RUN SCHED_RR 150 false;
              T3 := mk_sth TH_RUN SCHED_RR 200 false ]}
    {[ 255 := [IDLE]; 100 := [T1]; 150 := [T2]; 200 := [T3] ]} [] ∅ 100 TIMER
    (mk_timers 0 [] [] {[ TmTimeout IDLE := zero_timer; TmTimeout TIMER := zero_timer; TmTimeout T1 := zero_timer;
                          TmTimeout T2 := zero_timer; TmTimeout T3 := zero_timer; TmAlarm TASK := zero_timer;
                          TmAlarm TASK2 := zero_timer ]}).

(** Bytes in the address space [m] from [a] on. *)
Definition bytes_at (m a : Z) (l : list Z) : gmap (Z * Z) Z :=
  list_to_map (imap (fun i b => ((m, a + Z.of_nat i), b)) l).

(** The user memory of the first task: room for handles from 0x1000 on, the
    priority 150 at 0x1040, the name abc at 0x1050, a name of 20 characters at
    0x1060, room for messages from 0x1080 on and a stack below 0x2400. *)
Definition demo_umem : gmap (Z * Z) Z :=
  bytes_at 1 0x1000 (replicate 64 0 ++ bytes_of_word 150 ++ replicate 12 0 ++ [97; 98; 99; 0] ++ replicate 12 0 ++
                     replicate 20 97 ++ replicate 12 0 ++ replicate 64 7) ∪
  bytes_at 1 0x2000 (replicate 1024 0) ∪ bytes_at 2 0x1000 (replicate 64 9).

Definition demo_kst : kst :=
  mk_kst demo_sched
    {[ IDLE := mk_thr KERN; TIMER := mk_thr KERN; T1 := mk_thr TASK; T2 := mk_thr TASK; T3 := mk_thr TASK2 ]}
    {[ KERN := mk_task TASK_MAGIC [] [] [TIMER; IDLE] 0 0 0xffffffff 0 0;
       TASK := mk_task TASK_MAGIC [] [] [T1; T2] 1 0 0 0 KERN;
       TASK2 := mk_task TASK_MAGIC [] [] [T3] 2 0 0 0 TASK ]}
    ∅ ∅ ∅ ∅ ∅ [KERN; TASK; TASK2] KERN NULL demo_umem 0x80100000.

Definition demo_config : config := mk_config demo_kst ∅ false.

Lemma demo_sched_ok : sched_ok demo_sched.
Proof. apply (bool_decide_unpack _). vm_compute. exact I. Qed.
Lemma demo_sinv : sinv demo_sched.
Proof. apply sched_ok_sinv, demo_sched_ok. Qed.
Lemma demo_ready : tick_ready (tms demo_sched).
Proof.
  split; [by intros x ?%not_elem_of_nil|]. apply (map_Forall_lookup (fun _ t => 0 <= tm_interval t < 2 ^ 31)).
  apply (bool_decide_unpack _). vm_compute. exact I.
Qed.
Lemma demo_config_inv : config_inv demo_config.
Proof.
  split_and!; [|done|].
  - split_and!; [apply demo_sinv| |done]. split; [|apply demo_ready]. intros a m E. cbn in E. by rewrite lookup_empty in E.
  - intros t k E. cbn in E. by rewrite lookup_empty in E.
Qed.

(** ** Running the system *)

(** What may happen next: the current thread makes a system call, goes on with
    one it was switched out of, returns to user mode after its dispatch, or the
    clock ticks. *)
Inductive action := Call (c : syscall) | Continue | Enter | Tick.

Definition call_ok (c : syscall) : bool :=
  match c with
  | MsgSend _ _ _ t | MsgReceive _ _ _ _ t | CondWait _ _ t | SemWait _ _ t => callout_ticks t <? 2 ^ 31
  | TimerSleep ms _ | TimerAlarm ms _ => callout_ticks ms <? 2 ^ 31
  | TimerPeriodic _ s p => bool_decide (0 <= s < 2 ^ 31 /\ 0 <= p < 2 ^ 31)
  | _ => true
  end.
Definition running_b (s : sched) : bool := from_option (fun c => th_state c =? TH_RUN) false (sth s !! cur s).

#[export] Instance no_timeout_dec t s : Decision (no_timeout t s).
Proof. unfold no_timeout. apply _. Defined.
Definition untimed_queue (s : sched) (e : evt) (l : list tid) : bool :=
  match e with
  | EvTimer | EvPeriodic _ => forallb (fun t => bool_decide (no_timeout t s)) l
  | _ => true
  end.
(** The conditions of [timer_tick_spec]. *)
Definition tick_ok (s : sched) : bool :=
  bool_decide (map_Forall (fun _ t => 0 <= tm_interval t < 2 ^ 31) (tmrs (tms s))) &&
  bool_decide (map_Forall (fun e l => untimed_queue s e l = true) (sleepq s)) &&
  forallb (fun x => 1 <=? ticks_left (tms s) x) (timer_list (tms s)).

Definition result_of (r : res Z) : option Z := match r with Done a _ => Some a | _ => None end.

(** The kernel code that an action runs, if the action is possible: what is left
    of the suspended computations and the outcome. *)
Definition attempt (a : action) (x : config) : option (gmap tid (kst -> res Z) * res Z) :=
  let t := cur (sch (ck x)) in
  match a with
  | Call c =>
      if dispatched x || bool_decide (is_Some (conts x !! t)) || negb (call_ok c) || (resumes c && negb (running_b (sch (ck x))))
      then None else Some (conts x, run_syscall c (ck x))
  | Continue => if negb (dispatched x) then None else k ← conts x !! t; Some (delete t (conts x), k (ck x))
  | Enter => None
  | Tick =>
      if dispatched x || bool_decide (is_Some (conts x !! t)) then None
      else Some (conts x, clock_interrupt (ck x))
  end.

(** One step, with the result of the call if one returned. *)
Definition perform (a : action) (x : config) : option (option Z * config) :=
  let t := cur (sch (ck x)) in
  match a with
  | Enter =>
      if dispatched x && bool_decide (conts x !! t = None) then Some (None, mk_config (ck x) (conts x) false) else None
  | _ => p ← attempt a x; y ← after t p.1 p.2; Some (result_of p.2, y)
  end.

Fixpoint perform_all (l : list action) (x : config) : option (list (option Z) * config) :=
  match l with
  | [] => Some ([], x)
  | a :: l => p ← perform a x; q ← perform_all l p.2; Some (p.1 :: q.1, q.2)
  end.

Lemma call_ok_fits c : call_ok c = true -> call_fits c.
Proof. destruct c; cbn; try done; unfold timeout_fits; (apply Z.ltb_lt || apply bool_decide_eq_true_1). Qed.

Lemma running_b_spec s : running_b s = true -> running s.
Proof. unfold running_b. destruct (sth s !! cur s) as [c|] eqn:E; [|done]. intros ?%Z.eqb_eq. by exists c. Qed.

Lemma tick_ok_spec s : sinv s -> tick_ok s = true ->
  tickable s /\ (forall x, x ∈ timer_list (tms s) -> 1 <= ticks_left (tms s) x).
Proof.
  intros I. unfold tick_ok. rewrite !andb_true_iff, !bool_decide_eq_true, forallb_forall. intros [[H1 H2] H3].
  assert (forall e, (e = EvTimer \/ exists a, e = EvPeriodic a) -> untimed e s) as Hu.
  { intros e He t. unfold sq. destruct (sleepq s !! e) as [l|] eqn:E; cbn; [|by intros ?%not_elem_of_nil].
    specialize (H2 _ _ E). intros Hin. destruct He as [->|[a ->]]; cbn in H2; rewrite forallb_forall in H2;
      by apply (bool_decide_eq_true_1 (no_timeout t s)), H2, list_elem_of_In. }
  split; [|intros x Hx; apply Z.leb_le, H3; by apply list_elem_of_In].
  split; [done|]. split; [exact H1|]. split; [apply Hu; by left|]. intros a. apply Hu. right. by exists a.
Qed.

Lemma perform_step a x r y : config_inv x -> perform a x = Some (r, y) -> step x y.
Proof.
  intros ((I&_)&_). destruct x as [s C d]. unfold perform, attempt. cbn [ck conts dispatched]. destruct a as [c| | |].
  - destruct d; [done|]. case_bool_decide as Hc; [done|]. destruct (call_ok c) eqn:Hf; [|done]. cbn [orb negb].
    destruct (resumes c && negb (running_b (sch s))) eqn:Hr; [done|]. cbn [mbind option_bind fst snd].
    destruct (after _ _ _) as [y'|] eqn:Ea; [|done]. intros [= _ <-]. eapply step_call; [| |..]; try done.
    + destruct (C !! cur (sch s)); [by destruct Hc|done].
    + by apply call_ok_fits.
    + intros Hre. rewrite Hre in Hr. cbn in Hr. apply running_b_spec. by destruct (running_b (sch s)).
  - destruct d; [|done]. cbn [negb]. destruct (C !! cur (sch s)) as [k|] eqn:Ek; [|done]. cbn [mbind option_bind fst snd].
    destruct (after _ _ _) as [y'|] eqn:Ea; [|done]. intros [= _ <-]. by eapply step_continue.
  - destruct d; [|done]. case_bool_decide; [|done]. intros [= _ <-]. by apply step_enter.
  - destruct d; [done|]. case_bool_decide as Hc; [done|]. cbn [orb negb mbind option_bind fst snd].
    destruct (after _ _ _) as [y'|] eqn:Ea; [|done]. intros [= _ <-].
    eapply step_tick; try done.
    destruct (C !! cur (sch s)); [by destruct Hc|done].
Qed.

Lemma perform_all_steps l x rs y : config_inv x -> perform_all l x = Some (rs, y) -> steps x y.
Proof.
  revert x rs. induction l as [|a l IH]; intros x rs Hx; cbn [perform_all]; [intros [= _ <-]; constructor|].
  destruct (perform a x) as [[r z]|] eqn:E; [|done]. cbn [mbind option_bind fst snd].
  destruct (perform_all l z) as [[qs w]|] eqn:E2; [|done]. cbn [mbind option_bind fst snd]. intros [= _ <-].
  pose proof (perform_step _ _ _ _ Hx E) as Hs. econstructor; [exact Hs|]. eapply IH; [|exact E2]. by apply (step_inv x).
Qed.

(** The results of a run from the initial state, and its final state. *)
Definition results (l : list action) : option (list (option Z)) := fst <$> perform_all l demo_config.
Definition final (l : list action) : option kst := (fun p => ck p.2) <$> perform_all l demo_config.

(** After the actions [l] the kernel code that [a] runs faults. *)
Definition crashes (l : list action) (a : action) : bool :=
  match perform_all l demo_config with
  | Some (_, x) => match attempt a x with Some (_, Fault) => true | _ => false end
  | None => false
  end.

(** The timer thread goes to sleep and T1 starts. *)
Definition boot : list action := [Call (TimerThread 8); Enter].

Example demo_sem :
  results (boot ++ [Call (SemInit 0x1000 1); Call (SemTrywait 0x1000); Call (SemTrywait 0x1000)]) =
  Some [None; None; Some 0; Some 0; Some EAGAIN].
Proof. vm_compute. reflexivity. Qed.
