(* ===== verification/Scenarios.v ===== *)
(** * Scenarios: runs of the system that go wrong

    Each theorem exhibits a run of the two-task system of Demo.v, made of
    system calls, clock interrupts and context switches, that ends in a state
    the code does not mean to reach.  [reaches l P] says that the run [l] is
    possible and ends with results and a state that satisfy [P]; by
    [reaches_steps] that state is reachable in the sense of System.v. *)
From stdpp Require Import base numbers strings gmap list.
From S2P Require Import Prelude Core Timer Sched SchedInv SchedOps Tick SchedSleep Kernel KernelInv Sem Mutex Cond Object TimerSys Thread KernelSafe System Demo.

Open Scope Z_scope.

Definition reaches (l : list action) (P : list (option Z) -> kst -> Prop) : Prop :=
  match perform_all l demo_config with Some (rs, y) => P rs (ck y) | None => False end.

Lemma reaches_steps l P : reaches l P -> exists rs y, steps demo_config y /\ P rs (ck y).
Proof.
  unfold reaches. destruct (perform_all l demo_config) as [[rs y]|] eqn:E; [|done]. intros H. exists rs, y. split; [|done].
  by eapply perform_all_steps; [apply demo_config_inv|].
Qed.

(** Two ticks pass, the timer thread handles the timer that expired and waits
    for the next one. *)
Definition timer_fires : list action := [Tick; Tick; Continue; Call (TimerThread 8)].

(** The addresses of the first objects allocated. *)
Definition A1 := 0x80100000.

(** ** Condition variables *)

Definition M := 0x1000.
Definition CV := 0x1004.

(** T1 waits on a condition variable and is signalled, but before it gets the
    mutex back an exception interrupts it: cond_wait() returns EINTR with the
    signal counted and not consumed, so the assertion that there are at most as
    many signals as waiters is false. *)
Definition interrupted_wait : list action :=
  boot ++ [Call (MutexInit M); Call (CondInit CV); Call (MutexLock M); Call (CondWait CV M 0);
           Enter; Call (MutexLock M); Call (CondSignal CV); Continue; Continue;
           Call (ExceptionSetup 0x2000); Call (ExceptionRaise TASK 1); Continue].
Theorem cond_wait_interrupted :
  reaches interrupted_wait (fun rs k =>
    last rs = Some (Some EINTR) /\ (c_wait <$> conds k !! (A1 + SIZEOF_MUTEX)) = Some 0 /\
    (c_signal <$> conds k !! (A1 + SIZEOF_MUTEX)) = Some 1).
Proof. vm_compute. done. Qed.

(** When T1 then waits again, as the comment of cond_wait() tells it to, a
    cond_signal() returns 0 and leaves T1 asleep: the signal is lost. *)
Theorem cond_signal_lost :
  reaches (interrupted_wait ++
           [Call (MutexLock M); Continue; Call (MutexUnlock M); Continue; Call (CondWait CV M 0); Continue; Call (CondSignal CV)])
    (fun rs k => last rs = Some (Some 0) /\ sq (sch k) (EvCond (A1 + SIZEOF_MUTEX)) = [T1]).
Proof. vm_compute. done. Qed.

(** cond_wait() without the mutex fails with EPERM and still counts the caller
    as a waiter; a later cond_signal() then leaves a signal behind for which a
    wait that times out returns 0. *)
Theorem cond_wait_timeout_ignored :
  reaches (boot ++ [Call (MutexInit M); Call (CondInit CV); Call (CondWait CV M 0); Call (CondSignal CV); Call (MutexLock M);
                    Call (CondWait CV M 2); Enter] ++ timer_fires ++ [Continue])
    (fun rs k => rs !! 4%nat = Some (Some EPERM) /\ last rs = Some (Some 0) /\ th_slpret <$> sth (sch k) !! T1 = Some SLP_TIMEOUT).
Proof. vm_compute. done. Qed.

(** ** Messages *)

(** T1 creates an object and waits; T2 sends to the object with a timeout of two
    ticks, and nobody receives. *)
Definition timed_out_send : list action :=
  boot ++ [Call (ObjectCreate 0x1050 0x1000); Call (SemInit 0x1004 0); Call (SemWait 4 0x1004 0); Enter;
           Call (ObjectLookup 0x1050 0x1008); Call (MsgSend A1 0x1080 16 2); Enter] ++ timer_fires ++ [Continue].

(** msg_send() returns ETIMEDOUT and its thread is still on the send queue of
    the object. *)
Theorem send_timeout_stays_queued :
  reaches timed_out_send (fun rs k => last rs = Some (Some ETIMEDOUT) /\ (o_sendq <$> objs k !! A1) = Some [T2]).
Proof. vm_compute. done. Qed.

(** A receiver gets the message of the thread that has given up, which is then
    its sender without waiting for a reply. *)
Theorem receive_from_timed_out_sender :
  reaches (timed_out_send ++ [Call (SemPost 0x1004); Continue; Call (MsgReceive 4 A1 0x10a0 16 0)])
    (fun rs k => last rs = Some (Some 0) /\ (th_sender <$> thr k !! T1) = Some T2 /\ (th_state <$> sth (sch k) !! T2) = Some TH_RUN).
Proof. vm_compute. done. Qed.

(** Sending again links the thread twice, and if the thread has terminated the
    receiver follows a pointer to freed memory. *)
Theorem send_again_after_timeout : crashes timed_out_send (Call (MsgSend A1 0x1080 16 2)) = true.
Proof. vm_compute. done. Qed.
Theorem receive_after_termination :
  crashes (timed_out_send ++ [Call (SemPost 0x1004); Continue; Call (ThreadTerminate T2)]) (Call (MsgReceive 4 A1 0x10a0 16 0)) = true.
Proof. vm_compute. done. Qed.

(** ** Objects *)

(** Names of 16 characters and more are not refused: they are cut to 15, and two
    objects get the same name because their hash is computed on the uncut
    string; object_lookup() of such a name runs off its buffer. *)
Theorem long_names_collide :
  reaches (boot ++ [Call (ObjectCreate 0x1060 0x1000); Call (ObjectCreate 0x1064 0x1000)])
    (fun rs k => last rs = Some (Some 0) /\ (o_name <$> objs k !! A1) = Some (replicate 15 97) /\
                 (o_name <$> objs k !! (A1 + SIZEOF_OBJECT)) = Some (replicate 15 97)).
Proof. vm_compute. done. Qed.
Theorem long_lookup_overruns : crashes boot (Call (ObjectLookup 0x1060 0x1000)) = true.
Proof. vm_compute. done. Qed.

(** The name of an object without a name is whatever its memory held; when that
    is the empty string, the second such object is refused. *)
Theorem second_anonymous_object_refused :
  reaches (boot ++ [Call (ObjectCreate 0 0x1000); Call (ObjectCreate 0 0x1004)]) (fun rs _ => last rs = Some (Some EEXIST)).
Proof. vm_compute. done. Qed.

(** ** Semaphores *)

(** A waiter has been woken and has not run yet when the semaphore is destroyed:
    it goes on with the freed semaphore. *)
Theorem semaphore_used_after_destroy :
  crashes (boot ++ [Call (SemInit 0x1000 0); Call (SemInit 0x1004 0); Call (SemWait 4 0x1004 2); Enter; Call (SemWait 4 0x1000 0);
                    Enter] ++ timer_fires ++
           [Continue; Call (SemPost 0x1000); Call (SemDestroy 0x1000); Call (SemWait 4 0x1004 0)]) Continue = true.
Proof. vm_compute. done. Qed.

(** ** Scheduling *)

(** T1 runs under SCHED_FIFO at priority 150 and is preempted, not at a better
    priority but at the same one, by the thread it posts a semaphore to. *)
Theorem fifo_preempted_at_equal_priority :
  reaches (boot ++ [Call (SemInit 0x1000 0); Call (SemInit 0x1004 0); Call (ThreadSchedparam T1 OP_SETPRIO 0x1040);
                    Call (SemWait 4 0x1004 2); Enter; Call (SemWait 4 0x1000 0); Enter] ++ timer_fires ++
           [Continue; Call (SemPost 0x1000)])
    (fun rs k => cur (sch k) = T2 /\ (th_policy <$> sth (sch k) !! T1) = Some SCHED_FIFO /\
       (th_prio <$> sth (sch k) !! T1) = Some 150 /\ (th_prio <$> sth (sch k) !! T2) = Some 150 /\ rq (sch k) 150 = [T1]).
Proof. vm_compute. done. Qed.

(** T2 inherits priority 100 from T1 through a first mutex and then locks a
    second one, which records that priority as if somebody of it waited for it;
    after T2 has released the first mutex it keeps the priority although
    nobody waits for it. *)
Theorem inherited_priority_kept :
  reaches (boot ++ [Call (MutexInit 0x1000); Call (MutexInit 0x1004); Call (SemInit 0x1008 0); Call (SemWait 4 0x1008 2); Enter;
                    Call (MutexLock 0x1000)] ++ timer_fires ++
           [Continue; Call (MutexLock 0x1000); Continue; Call (MutexLock 0x1004); Call (MutexUnlock 0x1000); Continue;
            Call (MutexUnlock 0x1000); Call (SemWait 4 0x1008 0)])
    (fun rs k => cur (sch k) = T2 /\ (th_prio <$> sth (sch k) !! T2) = Some 100 /\ (th_baseprio <$> sth (sch k) !! T2) = Some 150 /\
       sq (sch k) (EvMutex A1) = [] /\ sq (sch k) (EvMutex (A1 + SIZEOF_MUTEX)) = []).
Proof. vm_compute. done. Qed.

(** ** Threads and timers *)

(** A thread created in a task that is suspended twice stays suspended after it
    and its task have been resumed as often as they were suspended. *)
Theorem thread_stays_suspended :
  reaches (boot ++ [Call (TaskSuspend TASK2); Call (TaskSuspend TASK2); Call (ThreadCreate TASK2 0x1000);
                    Call (ThreadResume A1); Call (TaskResume TASK2); Call (TaskResume TASK2)])
    (fun rs k => last rs = Some (Some 0) /\ (tk_suscnt <$> tasks k !! TASK2) = Some 0 /\ (th_suscnt <$> thr k !! A1) = Some 1 /\
       (th_state <$> sth (sch k) !! A1) = Some TH_SUSPEND).
Proof. vm_compute. done. Qed.

(** Resuming a thread of a suspended task takes its suspend count to 0 without
    running it, and when the task is resumed too the thread is passed over: it
    stays suspended with both counts at 0, and resuming it is refused. *)
Theorem resumed_thread_stuck :
  reaches (boot ++ [Call (TaskSuspend TASK2); Call (ThreadResume T3); Call (TaskResume TASK2); Call (ThreadResume T3)])
    (fun rs k => last rs = Some (Some EINVAL) /\ (tk_suscnt <$> tasks k !! TASK2) = Some 0 /\ (th_suscnt <$> thr k !! T3) = Some 0 /\
       (th_state <$> sth (sch k) !! T3) = Some TH_SUSPEND).
Proof. vm_compute. done. Qed.

(** timer_periodic() on a timer that is already running links it twice; on one
    that was stopped it does not mark it active, and the timer is freed while
    linked when its thread terminates. *)
Theorem periodic_timer_linked_twice :
  crashes (boot ++ [Call (TimerPeriodic T1 1 1)]) (Call (TimerPeriodic T1 1 1)) = true.
Proof. vm_compute. done. Qed.
Theorem periodic_timer_freed_while_linked :
  crashes (boot ++ [Call (TimerPeriodic T1 1 1); Call (TimerPeriodic T1 0 0); Call (TimerPeriodic T1 1 1)])
    (Call (ThreadTerminate T1)) = true.
Proof. vm_compute. done. Qed.
