(* ===== verification/Witnesses.v ===== *)
(** * Witnesses: the theorems applied to concrete states

    States of the two-task system of Demo.v at which the hypotheses of the
    theorems hold.  Most are reached by running system calls from the initial
    state. *)
From stdpp Require Import base numbers strings gmap list.
From S2P Require Import Prelude Core Timer Sched SchedInv SchedOps Tick SchedSleep Kernel Context KernelInv Exec Block SchedProps Sem SemSpec Mutex MutexSpec Cond Object UserMem MsgSpec TimerSys ExcSpec Thread KernelSafe System Demo.

Open Scope Z_scope.

(** The state a run of the system ends in. *)
Definition after_run (l : list action) : kst := default demo_kst (final l).

Definition sth_of (s : kst) (t : tid) : sthread := default zero_sthread (sth (sch s) !! t).
Definition thr_of (s : kst) (t : tid) : thread := default (zero_thread 0) (thr s !! t).
Definition task_of (s : kst) (k : Z) : task := default (mk_task 0 [] [] [] 0 0 0 0 0) (tasks s !! k).
Definition cur_sth (s : kst) : sthread := sth_of s (cur (sch s)).
Definition cur_thr (s : kst) : thread := thr_of s (cur (sch s)).
Definition cur_tsk (s : kst) : task := task_of s (th_task (cur_thr s)).

Ltac run := vm_compute; reflexivity.
Ltac checked := apply (bool_decide_unpack _); vm_compute; exact I.
Ltac inv_ok := apply sched_ok_sinv; checked.

(** T1 runs and the timer thread sleeps. *)
Definition booted : kst := after_run boot.
(** T1 waits on the semaphore at 0x1000 and T2 runs. *)
Definition waiting : kst := after_run (boot ++ [Call (SemInit 0x1000 0); Call (SemWait 8 0x1000 0); Enter]).
Definition the_sem : Z := default 0 (user_word (umem waiting) 1 0x1000).

Lemma waiting_inv : sinv (sch waiting).
Proof. inv_ok. Qed.
Lemma booted_inv : sinv (sch booted).
Proof. inv_ok. Qed.
Lemma waiting_calm : calm waiting (cur_sth waiting) (cur_thr waiting) (cur_tsk waiting).
Proof. split; run. Qed.
Lemma booted_calm : calm booted (cur_sth booted) (cur_thr booted) (cur_tsk booted).
Proof. split; run. Qed.
Lemma waiting_queue : sq (sch waiting) (EvSem the_sem) = [T1].
Proof. run. Qed.
Lemma waiting_best : best_waiter (sch waiting) (EvSem the_sem) T1 [] [].
Proof. split; [exact waiting_queue|intros x Hx; exfalso; exact (not_elem_of_nil _ Hx)..]. Qed.

#[local] Opaque waiting booted.

(** ** The scheduler *)

Lemma sched_switch_spec_witness : exists s' c, sched_switch_sel demo_sched = Some s' /\ swf s' /\
  sth s' !! cur s' = Some c /\ th_state c = TH_RUN /\ requeued demo_sched (sth_of demo_kst TIMER) (th_prio c) = cur s' :: rq s' (th_prio c).
Proof.
  destruct demo_sinv as [(W&Ht&_&Hq) _].
  destruct (sched_switch_spec demo_sched (sth_of demo_kst TIMER) T1 (sth_of demo_kst T1)) as (s'&c&E&Hw&Ec&Hr&_&Hh&_);
    [exact W|exact Ht|exact Hq|run|run|run|]. exists s', c. split_and!; [exact E|exact Hw|exact Ec|exact Hr|exact Hh].
Defined.

Lemma sched_wakeup_spec_witness : exists s', sched_wakeup_body (EvSem the_sem) (sch waiting) = Some s' /\ sinv s' /\
  wakeq s' = wakeq (sch waiting) ++ [T1] /\ sq s' (EvSem the_sem) = [].
Proof.
  destruct (sched_wakeup_spec (EvSem the_sem) (sch waiting) waiting_inv) as (s'&E&Hi&Hw&Hq&_).
  exists s'. rewrite waiting_queue in Hw. split_and!; [exact E|exact Hi|exact Hw|exact Hq].
Defined.

Lemma sched_wakeone_spec_witness : exists t s', sched_wakeone_body (EvSem the_sem) (sch waiting) = Some (Some t, s') /\ sinv s' /\
  th_slpret <$> sth s' !! t = Some SLP_SUCCESS.
Proof.
  destruct (sched_wakeone_spec (EvSem the_sem) (sch waiting) waiting_inv) as [[E _]|(t&l1&l2&s'&_&E&Hi&_&_&_&_&_&_&Hr)].
  - rewrite waiting_queue in E. discriminate E.
  - exists t, s'. split_and!; [exact E|exact Hi|exact Hr].
Defined.

Lemma sched_unsleep_spec_witness : exists s', sched_unsleep_body T1 SLP_INTR (sch waiting) = Some s' /\ sinv s' /\
  sq s' (EvSem the_sem) = [].
Proof.
  destruct (sched_unsleep_spec (sch waiting) T1 (sth_of waiting T1) SLP_INTR waiting_inv ltac:(run)) as (s'&E&Hi&_&H).
  exists s'. assert (sleeping (sth_of waiting T1) = true) as Hs by run. rewrite Hs in H. destruct H as (_&Hq&_).
  split_and!; [exact E|exact Hi|]. rewrite Hq, waiting_queue. run.
Defined.

Lemma sched_yield_spec_witness : exists s', sched_yield_body (sch booted) = Some s' /\ sinv s' /\ runq s' = runq (sch booted).
Proof.
  destruct (sched_yield_spec (sch booted) (cur_sth booted) booted_inv ltac:(run)) as (s'&E&Hi&_&_&Hr).
  exists s'. split_and!; [exact E|exact Hi|exact Hr].
Defined.

Lemma suspend_resume_witness : exists s1 s2, sched_suspend T2 (sch booted) = Some s1 /\ sched_resume T2 s1 = Some s2 /\
  sinv s2 /\ rq s2 150 = [T2].
Proof.
  destruct (suspend_resume (sch booted) T2 (sth_of booted T2) booted_inv ltac:(run) ltac:(vm_compute; congruence) ltac:(run))
    as (s1&s2&E1&E2&_&Hi&_&_&Hr&_). exists s1, s2. split_and!; [exact E1|exact E2|exact Hi|]. rewrite (Hr 150). run.
Defined.

Lemma sched_setprio_spec_witness : exists s', sched_setprio T2 50 50 (sch booted) = Some s' /\ sinv s' /\ T2 ∈ rq s' 50.
Proof.
  destruct (sched_setprio_spec (sch booted) T2 (sth_of booted T2) 50 50 booted_inv ltac:(run)
    ltac:(unfold MIN_PRIO; lia) ltac:(unfold MIN_PRIO; lia)) as (s'&E&Hi&_&_&_&_&Hq&_).
  exists s'. split_and!; [exact E|exact Hi|]. apply Hq; [vm_compute; congruence|run].
Defined.

Lemma sched_tick_spec_witness : exists s' c', sched_tick (sch waiting) = Some s' /\ sinv s' /\
  sth s' !! T2 = Some c' /\ th_timeleft c' = QUANTUM - 1.
Proof.
  destruct (sched_tick_spec (sch waiting) (cur_sth waiting) waiting_inv ltac:(run)) as (s'&c'&E&Hi&Ec&_&_&_&H).
  - assert (th_timeleft (cur_sth waiting) = QUANTUM) as -> by run. split; vm_compute; discriminate.
  - exists s', c'. split_and!; [exact E|exact Hi|exact Ec|].
    assert (th_policy (cur_sth waiting) =? SCHED_RR = true) as Hp by run. rewrite Hp in H.
    assert (th_timeleft (cur_sth waiting) = QUANTUM) as Ht by run. rewrite Ht in H. destruct H as [H _]. exact H.
Defined.

Lemma sched_stop_spec_witness : exists s' th', sched_stop T1 (sch waiting) = Some s' /\ sinv s' /\
  sth s' !! T1 = Some th' /\ th_state th' = TH_EXIT /\ T1 ∉ sq s' (EvSem the_sem).
Proof.
  destruct (sched_stop_spec (sch waiting) T1 (sth_of waiting T1) waiting_inv ltac:(run)) as (s'&th'&E&Hi&_&Et&Hx&_&_&_&Hq).
  exists s', th'. split_and!; [exact E|exact Hi|exact Et|exact Hx|apply Hq].
Defined.

Lemma sched_tsleep_spec_witness : exists S' k, sched_tsleep (EvSem 1) 10 booted = Switch (booted <| sch := S' |>) k /\
  blocked (sch booted) (cur_sth booted <| th_locks ::= Z.succ |>) (EvSem 1) S'.
Proof.
  destruct (sched_tsleep_spec booted (cur_sth booted) (EvSem 1) 10 T2 (sth_of booted T2) booted_inv ltac:(run) ltac:(run) ltac:(run)
    ltac:(vm_compute; congruence) ltac:(run) ltac:(run)) as (S'&k&E&Hb&_). exists S', k. split; [exact E|exact Hb].
Defined.

Lemma sched_wakeone_preempts_witness : exists S', handed (sch waiting) (cur_sth waiting) T1 (sth_of waiting T1) S' /\ cur S' = T1.
Proof.
  destruct (sched_wakeone_preempts (EvSem the_sem) waiting (cur_sth waiting) T1 [] [] (sth_of waiting T1) waiting_inv
    ltac:(run) ltac:(run) ltac:(run) ltac:(run) waiting_best ltac:(run) ltac:(run)) as (S'&Hh&_).
  exists S'. split; [exact Hh|]. destruct Hh as [_ _ _ _ Hc].
  assert (preempts (sch waiting) (cur_sth waiting) (sth_of waiting T1) = true) as Hp by run. rewrite Hp in Hc. apply Hc.
Defined.

Lemma timer_tick_spec_witness : exists s', timer_tick (sch waiting) = Some (false, s') /\ tickable s' /\
  sth s' !! T2 = Some (ticked (cur_sth waiting)) /\ th_timeleft (ticked (cur_sth waiting)) = QUANTUM - 1.
Proof.
  destruct (tick_ok_spec (sch waiting) waiting_inv ltac:(run)) as (TK&H1).
  destruct (timer_tick_spec (sch waiting) (cur_sth waiting) TK H1 ltac:(run)) as (s'&E&TK'&_&_&Ef).
  exists s'. split_and!; [rewrite E; f_equal; f_equal; run|exact TK'|exact (te_current _ _ _ Ef)|run].
Defined.

(** ** Semaphores *)

Definition sems_nonneg (s : kst) : Prop := map_Forall (fun _ x => 0 <= s_value x) (sems s).
Definition sem_at (s : kst) (a : Z) : sem := default (mk_sem 0 0 0) (sems s !! a).

(** The semaphore is set up and T1 has not waited yet. *)
Definition inited : kst := after_run (boot ++ [Call (SemInit 0x1000 0)]).
Lemma inited_inv : sinv (sch inited).
Proof. inv_ok. Qed.
Lemma inited_calm : calm inited (cur_sth inited) (cur_thr inited) (cur_tsk inited).
Proof. split; run. Qed.
Lemma waiting_sems : sems_nonneg waiting.
Proof. checked. Qed.
Lemma waiting_lookup : sem_lookup waiting (cur_thr waiting) (cur_tsk waiting) 0x1000 = inl (the_sem, sem_at waiting the_sem).
Proof. run. Qed.
#[local] Opaque inited.

Lemma sem_trywait_spec_witness : sem_trywait 0x1000 waiting = Done EAGAIN waiting.
Proof.
  rewrite (sem_trywait_spec waiting _ _ _ 0x1000 waiting_calm), waiting_lookup.
  assert (0 <? s_value (sem_at waiting the_sem) = false) as -> by run. reflexivity.
Defined.

Lemma sem_post_spec_witness : exists S', handed (sch waiting) (cur_sth waiting) T1 (sth_of waiting T1) S' /\
  completes (sem_post 0x1000 waiting) true 0
    (put_sem the_sem (sem_at waiting the_sem <| s_value ::= Z.succ |>) waiting <| sch := S' |>).
Proof.
  pose proof (sem_post_spec waiting _ _ _ 0x1000 waiting_calm waiting_inv waiting_sems) as H. rewrite waiting_lookup in H.
  assert (MAXSEMVAL <=? s_value (sem_at waiting the_sem) = false) as Hv by run. rewrite Hv in H. cbv zeta in H.
  rewrite waiting_queue in H. destruct H as [[H _]|(t&l1&l2&w&Hb&Ew&H)]; [discriminate H|].
  assert (t = T1) as ->.
  { pose proof (bw_queue _ _ _ _ _ Hb) as Hq. rewrite waiting_queue in Hq. destruct l1 as [|y [|]]; cbn in Hq; congruence. }
  assert (sth (sch waiting) !! T1 = Some (sth_of waiting T1)) as E1 by run. assert (w = sth_of waiting T1) as -> by exact (inj Some _ _ (eq_trans (eq_sym Ew) E1)).
  destruct (H ltac:(run)) as (S'&Hh&_&Hc). exists S'. split; [exact Hh|].
  assert (preempts (sch waiting) (cur_sth waiting) (sth_of waiting T1) = true) as Hp by run. rewrite Hp in Hc. exact Hc.
Defined.

Lemma sem_wait_spec_witness : exists S' k, sem_wait 8 0x1000 0 inited = Switch (inited <| sch := S' |>) k /\
  blocked (sch inited) (cur_sth inited <| th_locks := 2 |>) (EvSem the_sem) S'.
Proof.
  pose proof (sem_wait_spec inited _ _ _ 7 0x1000 0 T2 (sth_of inited T2) inited_calm inited_inv ltac:(run)
    ltac:(vm_compute; congruence) ltac:(run) ltac:(run)) as H.
  assert (sem_lookup inited (cur_thr inited) (cur_tsk inited) 0x1000 = inl (the_sem, sem_at inited the_sem)) as E by run.
  rewrite E in H. assert (s_value (sem_at inited the_sem) =? 0 = true) as Hv by run. rewrite Hv in H.
  destruct H as (S'&k&H1&H2&_). exists S', k. split; [exact H1|exact H2].
Defined.


(** ** Mutexes *)

Definition mutex_at (s : kst) (a : Z) : mutex := default (mk_mutex 0 0 0 0 0) (mutexes s !! a).

(** T1 has taken the mutex at 0x1000. *)
Definition owning : kst := after_run (boot ++ [Call (MutexInit 0x1000); Call (MutexLock 0x1000)]).
(** T2 has taken it, and T1 runs. *)
Definition contended : kst := after_run (boot ++
  [Call (MutexInit 0x1000); Call (SemInit 0x1004 0); Call (SemWait 8 0x1004 0); Enter;
   Call (MutexLock 0x1000); Call (SemPost 0x1004); Continue]).
(** T1 then waits for it, and T2 runs with the priority of T1. *)
Definition boosted : kst := after_run (boot ++
  [Call (MutexInit 0x1000); Call (SemInit 0x1004 0); Call (SemWait 8 0x1004 0); Enter;
   Call (MutexLock 0x1000); Call (SemPost 0x1004); Continue; Call (MutexLock 0x1000); Continue]).
Definition the_mutex : Z := default 0 (user_word (umem owning) 1 0x1000).

Lemma owning_inv : sinv (sch owning).
Proof. inv_ok. Qed.
Lemma owning_calm : calm owning (cur_sth owning) (cur_thr owning) (cur_tsk owning).
Proof. split; run. Qed.
Lemma owning_lookup : mutex_lookup owning (cur_thr owning) (cur_tsk owning) 0x1000 = Some (inl (the_mutex, mutex_at owning the_mutex)).
Proof. run. Qed.
Lemma contended_inv : sinv (sch contended).
Proof. inv_ok. Qed.
Lemma contended_calm : calm contended (cur_sth contended) (cur_thr contended) (cur_tsk contended).
Proof. split; run. Qed.
Lemma contended_lookup :
  mutex_lookup contended (cur_thr contended) (cur_tsk contended) 0x1000 = Some (inl (the_mutex, mutex_at contended the_mutex)).
Proof. run. Qed.
Lemma boosted_inv : sinv (sch boosted).
Proof. inv_ok. Qed.

Ltac one_owner :=
  eexists; split; [run|]; right; split; [eexists; run|]; eexists; split; [run|]; left; run.

Lemma contended_chain :
  let sw := put_thr (cur (sch contended)) (cur_thr contended <| th_wait_mutex := the_mutex |>) contended in
  chain_ok 10 sw (cur (sch contended)) the_mutex /\ cur (sch contended) ∉ owners 10 sw the_mutex.
Proof. cbv zeta. split; [one_owner|checked]. Qed.
Lemma boosted_chain : chain_ok 10 boosted T1 (th_wait_mutex (thr_of boosted T1)).
Proof. one_owner. Qed.
#[local] Opaque owning contended boosted.

Lemma mutex_trylock_spec_witness : mutex_trylock 0x1000 contended = Done EBUSY contended.
Proof.
  rewrite (mutex_trylock_spec contended _ _ _ 0x1000 _ contended_calm contended_lookup).
  - assert (m_owner (mutex_at contended the_mutex) =? cur (sch contended) = false) as -> by run.
    assert (m_owner (mutex_at contended the_mutex) =? NULL = false) as -> by run. reflexivity.
  - intros a m E Ho. exfalso.
    pose proof (f_equal (fun r => match r with inl (_, m) => m_owner m | inr _ => 0 end) E) as E1. cbv beta iota in E1.
    rewrite Ho in E1. revert E1. vm_compute. discriminate.
Defined.

Lemma mutex_lock_blocks_witness : exists s1 k, mutex_lock 0x1000 contended = Switch s1 k /\
  prio_of (sch s1) T2 <= 100 /\ lock_resumes contended the_mutex k.
Proof.
  destruct (mutex_lock_blocks contended _ _ _ 0x1000 the_mutex _ T2 (sth_of contended T2) contended_calm contended_inv contended_lookup)
    as (s1&k&E&_&_&_&Hp&_&Hk); [vm_compute; congruence|vm_compute; congruence|exact contended_chain|vm_compute; congruence|run|run|].
  exists s1, k. split; [exact E|]. split; [|exact Hk].
  assert (m_owner (mutex_at contended the_mutex) = T2) as Ho by run. rewrite Ho in Hp.
  assert (th_prio (cur_sth contended) = 100) as Hc by run. rewrite Hc in Hp. exact Hp.
Defined.

Lemma prio_inherit_spec_witness : exists s', prio_inherit T1 boosted = Done 0 s' /\ sinv (sch s') /\
  raised [T2] 100 (sch boosted) (sch s').
Proof.
  destruct (prio_inherit_spec boosted T1 (thr_of boosted T1) (sth_of boosted T1) boosted_inv ltac:(run) ltac:(run) boosted_chain)
    as (s'&E&Hi&_&_&Hr).
  assert (owners 10 boosted (th_wait_mutex (thr_of boosted T1)) = [T2]) as Ho by run. rewrite Ho in E, Hr.
  assert (th_prio (sth_of boosted T1) = 100) as Hp by run. rewrite Hp in Hr. exists s'. split; [exact E|]. split; [exact Hi|exact Hr].
Defined.

Lemma mutex_unlock_spec_witness : mutex_unlock 0x1000 contended = Done EPERM contended.
Proof.
  pose proof (mutex_unlock_spec contended _ _ _ 0x1000 _ contended_calm contended_lookup) as H. cbv beta iota in H.
  destruct H as [H _]. apply H. left. vm_compute. congruence.
Defined.

Lemma mutex_release_spec_witness :
  mutex_unlock 0x1000 owning = Done 0 (released owning (cur_thr owning) the_mutex (mutex_at owning the_mutex) owning).
Proof.
  destruct (mutex_release_spec owning _ _ _ 0x1000 the_mutex _ owning_calm owning_inv owning_lookup)
    as [[_ H]|(t&l1&l2&w&Hb&_)]; [run|run|checked|run|exact H|].
  exfalso. pose proof (bw_queue _ _ _ _ _ Hb) as Hq. assert (sq (sch owning) (EvMutex the_mutex) = []) as E by run.
  rewrite E in Hq. destruct l1; discriminate Hq.
Defined.

(** ** User memory *)

Lemma mapped_check M m a n : forallb (fun i => bool_decide (is_Some (M !! (m, a + Z.of_nat i)))) (seq 0 n) = true -> mapped M m a n.
Proof.
  intros H i Hi. rewrite forallb_forall in H. specialize (H (Z.to_nat i)). rewrite Z2Nat.id in H by lia.
  apply (bool_decide_eq_true_1 (is_Some (M !! (m, a + i)))), H, in_seq. lia.
Qed.

Lemma copyout_copyin_witness : exists s', copyout_word 0x1000 42 booted = Done true s' /\ copyin_word 0x1000 s' = Done (Some 42) s'.
Proof.
  pose proof (calm_within _ _ _ _ booted_calm) as W. pose proof (copyout_word_eval _ _ _ 0x1000 42 W) as E.
  assert ((write_word (umem booted) (tk_map (cur_tsk booted)) 0x1000 42).1 = true) as H by run. rewrite H in E.
  eexists. split; [exact E|]. apply (copyout_copyin booted _ _ 0x1000 42 _ W); [lia|exact E].
Defined.

Lemma strnlen_below_max_witness : 0x1060 <> NULL /\
  forall n len s', umem_strnlen 0x1060 n booted = Done (Some len) s' -> len < Z.of_nat n.
Proof.
  split; [discriminate|]. apply (strnlen_below_max booted 0x1060 0x1000). discriminate.
Defined.

(** ** Messages *)

Definition object_at (s : kst) (a : Z) : object := default (mk_object 0 [] 0 [] []) (objs s !! a).
Definition the_object : Z := default 0 (user_word (umem (after_run (boot ++ [Call (ObjectCreate 0x1050 0x1000)]))) 1 0x1000).

(** The first word is the sender's task, put there by the kernel. *)
Definition the_message : list Z := bytes_of_word TASK ++ replicate 12 7.

(** T1 has sent a message of 16 bytes to the object it made, and T2 runs. *)
Definition sent : kst := after_run (boot ++ [Call (ObjectCreate 0x1050 0x1000); Call (MsgSend the_object 0x1080 16 0); Enter]).
(** T2 has received it. *)
Definition received : kst := after_run (boot ++
  [Call (ObjectCreate 0x1050 0x1000); Call (MsgSend the_object 0x1080 16 0); Enter; Call (MsgReceive 8 the_object 0x10a0 16 0)]).

Lemma sent_calm : calm sent (cur_sth sent) (cur_thr sent) (cur_tsk sent).
Proof. split; run. Qed.
Lemma sent_receivable : receivable sent (cur_thr sent) the_object (object_at sent the_object).
Proof. split; run. Qed.
Lemma sent_best : best_sender sent (object_at sent the_object) T1 [] [].
Proof.
  split; [run|intros x Hx; exfalso; exact (not_elem_of_nil _ Hx)..|]. intros x Hx.
  assert (o_sendq (object_at sent the_object) = [T1]) as E by run. rewrite E in Hx. apply list_elem_of_singleton in Hx as ->.
  exists (sth_of sent T1). run.
Qed.
Lemma received_calm : calm received (cur_sth received) (cur_thr received) (cur_tsk received).
Proof. split; run. Qed.
Lemma received_inv : sinv (sch received).
Proof. inv_ok. Qed.
#[local] Opaque sent received.

Lemma msg_receive_spec_witness : exists M', msg_receive 8 the_object 0x10a0 16 0 sent =
    Done 0 (connected sent (cur_thr sent) the_object T1 (thr_of sent T1) M') /\ uread M' 1 0x10a0 16 = Some the_message.
Proof.
  destruct (msg_receive_spec sent _ _ _ 8 the_object _ 0x10a0 16 0 T1 [] [] (thr_of sent T1) the_message
    sent_calm ltac:(run) sent_receivable sent_best ltac:(vm_compute; congruence) ltac:(run) ltac:(run) ltac:(run) ltac:(run)
    ltac:(apply mapped_check; run) ltac:(right; right; vm_compute; discriminate)) as (M'&E&Hr&_). exists M'. split; [exact E|].
  assert (min_len 16 (thr_of sent T1) = 16) as Hl by run. rewrite Hl in Hr.
  assert (tk_map (cur_tsk sent) = 1) as Hm by run. rewrite Hm in Hr. exact Hr.
Defined.

Lemma msg_reply_spec_witness : exists S', handed (sch received) (cur_sth received) T1 (sth_of received T1) S' /\
  exists M', completes (msg_reply the_object 0x10a0 16 received) true 0
    (replied received (cur_thr received) T1 (thr_of received T1) M' <| sch := S' |>).
Proof.
  destruct (msg_reply_spec received _ _ _ the_object (object_at received the_object) 0x10a0 16 T1 (thr_of received T1)
    (sth_of received T1) the_message received_calm received_inv ltac:(run) ltac:(run) ltac:(run) ltac:(run) ltac:(run)
    ltac:(run) ltac:(vm_compute; congruence) ltac:(vm_compute; congruence) ltac:(run) ltac:(run) ltac:(run) ltac:(run)
    ltac:(apply mapped_check; run) ltac:(right; left; vm_compute; discriminate) ltac:(run) ltac:(run) ltac:(run) ltac:(run)) as (M'&S'&Hh&_&Hc).
  assert (preempts (sch received) (cur_sth received) (sth_of received T1) = true) as Hp by run. rewrite Hp in Hc.
  exists S'. split; [exact Hh|]. exists M'. exact Hc.
Defined.

(** ** Exceptions *)

(** T1 has a stack, the task has a handler, and exceptions 11 and 4 are pending. *)
Definition raised_kst : kst := after_run (boot ++
  [Call (ThreadLoad T1 0x5000 0x2400); Call (ExceptionSetup 0x6000); Call (ExceptionRaise TASK 11); Call (ExceptionRaise TASK 4)]).

Lemma raised_calm : calm raised_kst (cur_sth raised_kst) (cur_thr raised_kst) (cur_tsk raised_kst).
Proof. split; run. Qed.
Lemma raised_room : stack_room raised_kst (cur_thr raised_kst) (cur_tsk raised_kst).
Proof.
  split; [vm_compute; discriminate|vm_compute; discriminate|apply mapped_check; run|].
  unfold is_word. apply (bool_decide_unpack (Forall (fun w => 0 <= w < 2 ^ 32) _)). vm_compute. exact I.
Qed.
Lemma raised_user : user_mode (th_regs (cur_thr raised_kst)).
Proof. repeat split; run. Qed.
#[local] Opaque raised_kst.

Lemma exception_deliver_return_witness : exists x s1 s2,
  exception_deliver task_terminate raised_kst = Done tt s1 /\ thr s1 !! T1 = Some x /\ u_eip (th_regs x) = 0x6000 /\
  user_word (umem s1) 1 (u_esp (th_regs x) + 4) = Some 4 /\
  (exception_return ≫= syscall_return) s1 = Done tt s2 /\
  th_regs <$> thr s2 !! T1 = Some (th_regs (cur_thr raised_kst) <| u_eax := 0 |>).
Proof.
  assert (th_excbits (cur_thr raised_kst) = 2064) as Hb by run.
  destruct (exception_deliver_return raised_kst _ _ _ task_terminate raised_calm) as (i&x&s1&s2&Hi&Ht&Hlow&E1&Ex&Hip&Ha&_&_&E2&Hr&_);
    [rewrite Hb; lia|vm_compute; congruence|exact raised_room|exact raised_user|run|].
  assert (i = 4) as ->.
  { rewrite Hb in Ht, Hlow. destruct (Z.lt_trichotomy i 4) as [Hlt|[H|Hgt]]; [|exact H|].
    - assert (i = 0 \/ i = 1 \/ i = 2 \/ i = 3) as [->|[->|[->| ->]]] by lia; discriminate Ht.
    - specialize (Hlow 4 ltac:(lia)). discriminate Hlow. }
  assert (cur (sch raised_kst) = T1) as Hc by run. rewrite Hc in Ex, Hr.
  assert (tk_handler (cur_tsk raised_kst) = 0x6000) as Hh by run. rewrite Hh in Hip.
  assert (tk_map (cur_tsk raised_kst) = 1) as Hm by run. rewrite Hm in Ha.
  exists x, s1, s2. split; [exact E1|]. split; [exact Ex|]. split; [exact Hip|]. split; [exact Ha|]. split; [exact E2|exact Hr].
Defined.

(** ** The system *)

Lemma system_invariant_witness : exists rs y,
  perform_all (boot ++ [Call (TimerAlarm 1 0); Tick; Continue]) demo_config = Some (rs, y) /\ config_inv y.
Proof.
  destruct (perform_all _ demo_config) as [[rs y]|] eqn:E.
  - exists rs, y. split; [reflexivity|].
    apply (system_invariant demo_config y demo_config_inv). exact (perform_all_steps _ _ _ _ demo_config_inv E).
  - exfalso. assert (is_Some (results (boot ++ [Call (TimerAlarm 1 0); Tick; Continue]))) as [l Hl] by (eexists; run). unfold results in Hl. rewrite E in Hl. discriminate Hl.
Defined.
