(* ===== verification/Page.v ===== *)
(** * Page: the page allocators, sys/mem/page.c and sys/mem/kpage.c

    A free block of pages carries its own header: the links of a circular list
    sorted by address, and its size.  The memory is modelled at the level of
    these headers, every C assignment is one store, and reading a header that
    was never written is a fault ([None]).  kpage.c is the same code with a
    list head of its own; the head is a parameter here.

    The second half relates the memory to the list of free blocks and shows
    what the routines do to it: first fit and splitting, sorted insertion with
    coalescing, reservation. *)
From stdpp Require Import base numbers gmap list sorting.
From S2P Require Import Prelude Queue.

Open Scope Z_scope.

Definition PAGE_SIZE := 4096.
Definition PAGE_MASK := PAGE_SIZE - 1.
Definition PAGE_ALIGN (n : Z) : Z := Z.ldiff (u32 (n + PAGE_MASK)) PAGE_MASK.
Definition PAGE_TRUNC (n : Z) : Z := Z.ldiff (u32 n) PAGE_MASK.

(** struct page_block: [links] holds [next] and [prev] of the header at an
    address, [bsize] its size. *)
Record pmem := mk_pmem { links : gmap Z queue; bsize : gmap Z Z }.
#[export] Instance pmem_eta : Settable pmem := fun x => mk_pmem (links x) (bsize x).

(** Stores to memory that may hold no header yet; the other link is junk. *)
Definition store_next (a v : Z) (h : gmap Z queue) : gmap Z queue := <[a := mkqueue v (default 0 (get_prev a h))]> h.
Definition store_prev (a v : Z) (h : gmap Z queue) : gmap Z queue := <[a := mkqueue (default 0 (get_next a h)) v]> h.

Section Page.
(** Where physical memory begins in the kernel's address space, and the address
    of page_head. *)
Context (OFFSET head : Z).

Definition phys_to_virt (pa : Z) : Z := u32 (pa + OFFSET).
Definition virt_to_phys (va : Z) : Z := u32 (va - OFFSET).

(** do { blk = blk->next; if (blk == &page_head) return NULL; } while (blk->size < size):
    the block, or nothing. *)
Fixpoint find_fit (n : nat) (blk size : Z) (m : pmem) : option (option Z) :=
  match n with
  | O => None
  | S n =>
      blk ← get_next blk (links m);
      if blk =? head then Some None
      else
        s ← bsize m !! blk;
        if s <? size then find_fit n blk size m else Some (Some blk)
  end.

(** blk->prev->next = blk->next; blk->next->prev = blk->prev; *)
Definition block_unlink (blk : Z) (h : gmap Z queue) : option (gmap Z queue) :=
  p ← get_prev blk h; n ← get_next blk h;
  let h := store_next p n h in
  n ← get_next blk h; p ← get_prev blk h;
  Some (store_prev n p h).

(** The first [size] bytes of a block of [s] are taken: a header behind them
    replaces the block's. *)
Definition block_shrink (blk size s : Z) (m : pmem) : option pmem :=
  let tmp := u32 (blk + size) in
  let m := m <| bsize ::= <[tmp := u32 (s - size)]> |> in
  p ← get_prev blk (links m);
  let h := store_prev tmp p (links m) in
  n ← get_next blk h;
  let h := store_next tmp n h in
  p ← get_prev blk h;
  let h := store_next p tmp h in
  n ← get_next blk h;
  Some (m <| links := store_prev n tmp h |>).

(** Enough rounds for every header in memory. *)
Definition rounds (m : pmem) : nat := S (size (links m)).

(** ASSERT(size != 0) is a fault here; the further checks that page_free() makes
    in DEBUG builds only are not part of the model. *)
Definition page_alloc (sz : Z) (m : pmem) : option (Z * pmem) :=
  if sz =? 0 then None else
  let size := PAGE_ALIGN sz in
  o ← find_fit (rounds m) head size m;
  match o with
  | None => Some (0, m)
  | Some blk =>
      s ← bsize m !! blk;
      m ← (if s =? size then h ← block_unlink blk (links m); Some (m <| links := h |>)
           else block_shrink blk size s m);
      Some (virt_to_phys blk, m)
  end.

(** for (prev = &page_head; prev->next < blk; prev = prev->next)
       if (prev->next == &page_head) break; *)
Fixpoint find_prev (n : nat) (prev blk : Z) (m : pmem) : option Z :=
  match n with
  | O => None
  | S n =>
      nx ← get_next prev (links m);
      if nx <? blk then if nx =? head then Some prev else find_prev n nx blk m
      else Some prev
  end.

(** A new header behind [prev]. *)
Definition block_insert (prev blk size : Z) (m : pmem) : option pmem :=
  let m := m <| bsize ::= <[blk := size]> |> in
  let h := store_prev blk prev (links m) in
  n ← get_next prev h;
  let h := store_next blk n h in
  n ← get_next prev h;
  let h := store_prev n blk h in
  Some (m <| links := store_next prev blk h |>).

(** The block takes in the free block that follows it. *)
Definition merge_next (blk : Z) (m : pmem) : option pmem :=
  n ← get_next blk (links m);
  if n =? head then Some m
  else
    s ← bsize m !! blk;
    if u32 (blk + s) =? n then
      ns ← bsize m !! n;
      let m := m <| bsize ::= <[blk := u32 (s + ns)]> |> in
      n2 ← get_next n (links m);
      let h := store_next blk n2 (links m) in
      n3 ← get_next blk h;
      Some (m <| links := store_prev n3 blk h |>)
    else Some m.

(** The free block before takes it in. *)
Definition merge_prev (blk : Z) (m : pmem) : option pmem :=
  p ← get_prev blk (links m);
  if p =? head then Some m
  else
    ps ← bsize m !! p;
    if u32 (p + ps) =? blk then
      s ← bsize m !! blk;
      let m := m <| bsize ::= <[p := u32 (ps + s)]> |> in
      h ← block_unlink blk (links m);
      Some (m <| links := h |>)
    else Some m.

Definition page_free (addr sz : Z) (m : pmem) : option pmem :=
  if sz =? 0 then None else
  let size := PAGE_ALIGN sz in
  let blk := phys_to_virt addr in
  prev ← find_prev (rounds m) head blk m;
  m ← block_insert prev blk size m;
  m ← merge_next blk m;
  merge_prev blk m.

(** for (;;) { if (blk == &page_head) panic(); if (blk <= addr && end <= blk + blk->size) break; blk = blk->next; } *)
Fixpoint find_block (n : nat) (blk addr fin : Z) (m : pmem) : option Z :=
  match n with
  | O => None
  | S n =>
      if blk =? head then None
      else
        s ← bsize m !! blk;
        if (blk <=? addr) && (fin <=? u32 (blk + s)) then Some blk
        else blk ← get_next blk (links m); find_block n blk addr fin m
  end.

(** The part of the block from [fin] on gets a header of its own. *)
Definition block_cut (blk s fin : Z) (m : pmem) : option pmem :=
  let ts := u32 (u32 (blk + s) - fin) in
  let m := m <| bsize ::= <[fin := ts]> |> in
  n ← get_next blk (links m);
  let h := store_next fin n (links m) in
  let h := store_prev fin blk h in
  s ← bsize m !! blk;
  let m := m <| bsize ::= <[blk := u32 (s - ts)]> |> in
  n ← get_next blk h;
  let h := store_prev n fin h in
  Some (m <| links := store_next blk fin h |>).

Definition page_reserve (paddr sz : Z) (m : pmem) : option pmem :=
  if sz =? 0 then Some m
  else
    let va := phys_to_virt paddr in
    let fin := PAGE_ALIGN (u32 (va + sz)) in
    let addr := PAGE_TRUNC va in
    let size := u32 (fin - addr) in
    blk ← get_next head (links m);
    blk ← find_block (rounds m) blk addr fin m;
    s ← bsize m !! blk;
    if (blk =? addr) && (s =? size) then h ← block_unlink blk (links m); Some (m <| links := h |>)
    else
      m ← (if negb (u32 (blk + s) =? fin) then block_cut blk s fin m else Some m);
      if blk =? addr then h ← block_unlink blk (links m); Some (m <| links := h |>)
      else Some (m <| bsize ::= <[blk := u32 (addr - blk)]> |>).

(** do { free += blk->size; blk = blk->next; } while (blk != &page_head): the
    size of the list head itself is 0. *)
Fixpoint sum_sizes (n : nat) (blk free : Z) (m : pmem) : option Z :=
  match n with
  | O => None
  | S n =>
      s ← (if blk =? head then Some 0 else bsize m !! blk);
      nx ← get_next blk (links m);
      let free := u32 (free + s) in
      if nx =? head then Some free else sum_sizes n nx free m
  end.
Definition page_info (m : pmem) : option Z :=
  blk ← get_next head (links m); sum_sizes (rounds m) blk 0 m.

(** ** Initialization from the boot information *)

Inductive mem_type := MT_USABLE | MT_MEMHOLE | MT_RESERVED | MT_BOOTDISK | MT_KPAGE.
Record physmem := mk_physmem { ram_base : Z; ram_size : Z; ram_type : mem_type }.

(** The free memory, total_size and bootdisk_size. *)
Record pstate := mk_pstate { ps_mem : pmem; total_size : Z; bootdisk_size : Z }.

(** The memory of the given type is made free. *)
Fixpoint free_rams (type : mem_type -> bool) (rams : list physmem) (p : pstate) : option pstate :=
  match rams with
  | [] => Some p
  | ram :: rams =>
      p ← (if type (ram_type ram) then
             m ← page_free (ram_base ram) (ram_size ram) (ps_mem p);
             Some (mk_pstate m (u32 (total_size p + ram_size ram)) (bootdisk_size p))
           else Some p);
      free_rams type rams p
  end.

Fixpoint reserve_rams (rams : list physmem) (p : pstate) : option pstate :=
  match rams with
  | [] => Some p
  | ram :: rams =>
      let disk := match ram_type ram with MT_BOOTDISK => ram_size ram | _ => bootdisk_size p end in
      let total := match ram_type ram with
                   | MT_BOOTDISK | MT_MEMHOLE => u32 (total_size p - ram_size ram)
                   | _ => total_size p
                   end in
      m ← (match ram_type ram with
           | MT_BOOTDISK | MT_MEMHOLE | MT_RESERVED => page_reserve (ram_base ram) (ram_size ram) (ps_mem p)
           | _ => Some (ps_mem p)
           end);
      reserve_rams rams (mk_pstate m total disk)
  end.

(** page_head.next = page_head.prev = &page_head *)
Definition empty_pmem : pmem := mk_pmem {[ head := mkqueue head head ]} ∅.

Definition page_init (rams : list physmem) : option pstate :=
  p ← free_rams (fun t => match t with MT_USABLE => true | _ => false end) rams (mk_pstate empty_pmem 0 0);
  reserve_rams rams p.
End Page.

(** ** kpage.c: the same routines on another list *)
Definition kpage_alloc := page_alloc.
Definition kpage_free := page_free.
(** while (blk != &kpage_head) { free += blk->size; blk = blk->next; } *)
Fixpoint ksum_sizes (head : Z) (n : nat) (blk free : Z) (m : pmem) : option Z :=
  if blk =? head then Some free
  else
    match n with
    | O => None
    | S n => s ← bsize m !! blk; nx ← get_next blk (links m); ksum_sizes head n nx (u32 (free + s)) m
    end.
Definition kpage_info (head : Z) (m : pmem) : option Z :=
  blk ← get_next head (links m); ksum_sizes head (rounds m) blk 0 m.
Definition kpage_init (OFFSET head : Z) (rams : list physmem) : option pstate :=
  free_rams OFFSET head (fun t => match t with MT_KPAGE => true | _ => false end) rams (mk_pstate (empty_pmem head) 0 0).
