(* ===== verification/PageSpec.v ===== *)
(** * PageSpec: what the page allocators do

    The free memory as the list of its blocks: maximal, disjoint and sorted by
    address.  Allocation and release are functions of that list, and of the
    set of free addresses. *)
From stdpp Require Import base numbers gmap list sorting.
From S2P Require Import Prelude Queue Page.

Open Scope Z_scope.

Abbreviation blocks := (list (Z * Z)).

(** ** Rounding *)

Lemma ldiff_mask n : Z.ldiff n PAGE_MASK = n - n mod PAGE_SIZE.
Proof.
  change PAGE_MASK with (Z.ones 12). rewrite Z.ldiff_ones_r, Z.shiftl_mul_pow2, Z.shiftr_div_pow2 by lia.
  change PAGE_SIZE with (2 ^ 12). pose proof (Z.div_mod n (2 ^ 12)). lia.
Qed.

Definition aligned (n : Z) : Prop := n mod PAGE_SIZE = 0.

Lemma PAGE_ALIGN_ok n : 0 <= n -> n + PAGE_MASK < 2 ^ 32 -> aligned (PAGE_ALIGN n) /\ n <= PAGE_ALIGN n < n + PAGE_SIZE.
Proof.
  intros H0 H1. unfold PAGE_ALIGN, aligned. unfold PAGE_MASK, PAGE_SIZE in *. rewrite u32_small by lia.
  rewrite ldiff_mask. unfold PAGE_SIZE. Z.to_euclidean_division_equations. lia.
Qed.
Lemma PAGE_ALIGN_id n : 0 <= n -> n + PAGE_MASK < 2 ^ 32 -> aligned n -> PAGE_ALIGN n = n.
Proof.
  unfold PAGE_ALIGN, aligned. intros H0 H1 H2. rewrite u32_small by (unfold PAGE_MASK, PAGE_SIZE in *; lia).
  rewrite ldiff_mask. unfold PAGE_MASK, PAGE_SIZE in *. Z.to_euclidean_division_equations. lia.
Qed.

Lemma PAGE_TRUNC_ok n : 0 <= n < 2 ^ 32 -> aligned (PAGE_TRUNC n) /\ n - PAGE_SIZE < PAGE_TRUNC n <= n /\ 0 <= PAGE_TRUNC n.
Proof.
  intros H. unfold PAGE_TRUNC, aligned. rewrite u32_small, ldiff_mask by done. unfold PAGE_SIZE. Z.to_euclidean_division_equations. lia.
Qed.

(** ** Blocks *)

(** The address is in the block, in one of the blocks. *)
Definition in_block (p : Z) (b : Z * Z) : Prop := b.1 <= p < b.1 + b.2.
Definition free_at (l : blocks) (p : Z) : Prop := exists b, b ∈ l /\ in_block p b.

(** The blocks are apart: between them is memory that is not free. *)
Definition apart (x y : Z * Z) : Prop := x.1 + x.2 < y.1.
Definition block_ok (lo head : Z) (b : Z * Z) : Prop :=
  lo < b.1 /\ aligned b.1 /\ 0 < b.2 /\ aligned b.2 /\ b.1 + b.2 < 2 ^ 32 /\ ~ in_block head b.

Definition wf (lo head : Z) (l : blocks) : Prop := Forall (block_ok lo head) l /\ StronglySorted apart l.

(** First fit; the front of a larger block is taken. *)
Fixpoint take_fit (size : Z) (l : blocks) : option (Z * blocks) :=
  match l with
  | [] => None
  | (a, s) :: l =>
      if s <? size then r ← take_fit size l; Some (r.1, (a, s) :: r.2)
      else Some (a, if s =? size then l else (a + size, s - size) :: l)
  end.

(** A block in front of others, joined with the first of them if they touch. *)
Definition join (b : Z * Z) (l : blocks) : blocks :=
  match l with
  | c :: l' => if b.1 + b.2 =? c.1 then (b.1, b.2 + c.2) :: l' else b :: l
  | [] => [b]
  end.
Fixpoint put_block (a s : Z) (l : blocks) : blocks :=
  match l with
  | [] => [(a, s)]
  | b :: l' => if b.1 <? a then join b (put_block a s l') else join (a, s) l
  end.

Lemma wf_cons lo head b l : wf lo head (b :: l) <-> block_ok lo head b /\ (forall c, c ∈ l -> apart b c) /\ wf lo head l.
Proof. unfold wf. rewrite Forall_cons, StronglySorted_cons, (Forall_forall (apart b)). tauto. Qed.

Lemma wf_app lo head l1 l2 :
  wf lo head (l1 ++ l2) <-> wf lo head l1 /\ wf lo head l2 /\ (forall b c, b ∈ l1 -> c ∈ l2 -> apart b c).
Proof.
  induction l1 as [|b l1 IH]; cbn.
  - split; [|tauto]. intros H. split_and!; [by repeat constructor|done|]. intros b c ?%not_elem_of_nil. done.
  - rewrite !wf_cons, IH. split.
    + intros (?&H&?&?&?). split_and!; try done; [intros; apply H; set_solver|]. intros b' c [->|?]%elem_of_cons ?; [apply H; set_solver|auto].
    + intros ((?&H&?)&?&H'). split_and!; try done; [|intros; apply H'; set_solver].
      intros c [?|?]%elem_of_app; [by apply H|apply H'; set_solver].
Qed.

Lemma free_at_nil p : ~ free_at [] p.
Proof. intros (b&?%not_elem_of_nil&_). done. Qed.
Lemma free_at_cons b l p : free_at (b :: l) p <-> in_block p b \/ free_at l p.
Proof.
  unfold free_at. split.
  - intros (c&[->|?]%elem_of_cons&?); [by left|right; by exists c].
  - intros [?|(c&?&?)]; [exists b|exists c]; split; set_solver.
Qed.

(** *** Taking *)

Lemma take_fit_None size l : take_fit size l = None <-> forall b, b ∈ l -> b.2 < size.
Proof.
  induction l as [|[a s] l IH]; cbn [take_fit]; [split; [intros _ b ?%not_elem_of_nil; done|done]|].
  destruct (Z.ltb_spec s size) as [Hlt|Hge].
  - destruct (take_fit size l) as [r|] eqn:E; cbn; [split; [done|]|].
    + intros H. assert (Some r = None) by (apply IH; intros b Hb; apply H; by right). done.
    + split; [|done]. intros _ b [->|Hb]%elem_of_cons; [done|]. by apply IH.
  - split; [done|]. intros H. specialize (H (a, s) ltac:(by left)). cbn in H. lia.
Qed.

Lemma take_fit_Some size l a l' : take_fit size l = Some (a, l') ->
  exists l1 s l2, l = l1 ++ (a, s) :: l2 /\ size <= s /\ (forall b, b ∈ l1 -> b.2 < size) /\
    l' = l1 ++ (if s =? size then l2 else (a + size, s - size) :: l2).
Proof.
  revert l'. induction l as [|[b t] l IH]; intros l'; cbn [take_fit]; [done|]. destruct (Z.ltb_spec t size) as [Hlt|Hge].
  - destruct (take_fit size l) as [[c r]|]; [|done]. cbn. intros [= -> <-].
    destruct (IH r eq_refl) as (l1&s&l2&->&Hs&Hb&->). exists ((b, t) :: l1), s, l2. split_and!; [done..| |done].
    intros x [->|Hx]%elem_of_cons; [done|by apply Hb].
  - intros [= -> <-]. exists [], t, l. split_and!; [done|lia| |done]. intros x ?%not_elem_of_nil. done.
Qed.

Lemma aligned_add a b : aligned a -> aligned b -> aligned (a + b).
Proof. unfold aligned, PAGE_SIZE. intros. Z.to_euclidean_division_equations. lia. Qed.
Lemma aligned_sub a b : aligned a -> aligned b -> aligned (a - b).
Proof. unfold aligned, PAGE_SIZE. intros. Z.to_euclidean_division_equations. lia. Qed.

(** The rest of a split block. *)
Lemma block_ok_rest lo head a s size :
  block_ok lo head (a, s) -> aligned size -> 0 < size < s -> block_ok lo head (a + size, s - size).
Proof.
  intros (H1&H2&H3&H4&H5&H6) Ha Hs. unfold in_block in H6. cbn in *.
  split_and!; cbn; [lia|by apply aligned_add|lia|by apply aligned_sub|lia|unfold in_block; cbn; lia].
Qed.

Lemma take_fit_ok lo head size l a l' : wf lo head l -> aligned size -> 0 < size -> take_fit size l = Some (a, l') ->
  wf lo head l' /\ lo < a /\ aligned a /\ a + size < 2 ^ 32 /\ ~ in_block head (a, size) /\
  (forall p, in_block p (a, size) -> free_at l p) /\
  (forall p, free_at l' p <-> free_at l p /\ ~ in_block p (a, size)).
Proof.
  revert l'. induction l as [|[b t] l IH]; intros l' W Ha H0; cbn [take_fit]; [done|].
  apply wf_cons in W as (Hb&Hs&W). pose proof Hb as (B1&B2&B3&B4&B5&B6). unfold in_block in B6. cbn in *.
  destruct (Z.ltb_spec t size) as [Hlt|Hge].
  - destruct (take_fit size l) as [[c r]|] eqn:E; [|done]. cbn. intros [= -> <-].
    destruct (IH r W Ha H0 eq_refl) as (W'&C1&C2&C3&C4&C5&C6). split_and!; try done.
    + apply wf_cons. split_and!; [done| |done]. intros [x y] Hx. unfold apart. cbn.
      assert (free_at r x) as [_ Hn]%C6.
      { exists (x, y). split; [done|]. destruct W' as [F _]. rewrite Forall_forall in F. specialize (F _ Hx).
        destruct F as (_&_&?&_). unfold in_block. cbn in *. lia. }
      assert (free_at r x) as [(z&Hz&Hin) _]%C6.
      { exists (x, y). split; [done|]. destruct W' as [F _]. rewrite Forall_forall in F. specialize (F _ Hx).
        destruct F as (_&_&?&_). unfold in_block. cbn in *. lia. }
      specialize (Hs z Hz). unfold apart, in_block in *. cbn in *. lia.
    + intros p Hp. apply free_at_cons. right. by apply C5.
    + intros p. rewrite !free_at_cons, C6. split; [|tauto]. intros [Hp|?]; [|tauto]. split; [by left|].
      intros Hin. destruct (C5 p Hin) as (z&Hz&Hin'). specialize (Hs z Hz). unfold apart, in_block in *. cbn in *. lia.
  - intros [= -> <-]. split_and!; try (cbn; lia || done).
    + destruct (Z.eqb_spec t size); [done|]. apply wf_cons. split_and!; [apply block_ok_rest; (done || lia)| |done].
      intros c Hc. specialize (Hs c Hc). unfold apart in *. cbn in *. lia.
    + unfold in_block. cbn. lia.
    + intros p Hp. apply free_at_cons. left. unfold in_block in *. cbn in *. lia.
    + intros p. assert (free_at l p -> ~ in_block p (a, t)) as Hd.
      { intros (z&Hz&Hin) Hin'. specialize (Hs z Hz). unfold apart, in_block in *. cbn in *. lia. }
      destruct (Z.eqb_spec t size) as [->|Hne]; rewrite ?free_at_cons; [tauto|].
      unfold in_block in *. cbn in *. split; [intros [?|Hf]; [split; [left|]; lia|split; [by right|]; specialize (Hd Hf); lia]|].
      intros [[?|?] ?]; [left; lia|by right].
Qed.

(** *** Putting back *)

(** The block touches none of the others. *)
Definition outside (a s : Z) (l : blocks) : Prop := forall b, b ∈ l -> b.1 + b.2 <= a \/ a + s <= b.1.

Lemma join_ok lo head b l : block_ok lo head b -> wf lo head l -> (forall c, c ∈ l -> b.1 + b.2 <= c.1) ->
  wf lo head (join b l) /\ (forall p, free_at (join b l) p <-> in_block p b \/ free_at l p) /\
  (forall c, c ∈ join b l -> b.1 <= c.1).
Proof.
  intros Hb W Hc. pose proof Hb as (B1&B2&B3&B4&B5&B6). destruct l as [|c l]; cbn [join].
  { split_and!; [|intros p; rewrite free_at_cons; tauto|].
    - apply wf_cons. split_and!; [done|intros c ?%not_elem_of_nil; done|by repeat constructor].
    - intros c ->%list_elem_of_singleton. lia. }
  apply wf_cons in W as (Hk&Hs&W). pose proof Hk as (C1&C2&C3&C4&C5&C6). pose proof (Hc c ltac:(by left)) as Hbc.
  destruct (Z.eqb_spec (b.1 + b.2) c.1) as [E|Hne].
  - split_and!.
    + apply wf_cons. split_and!; [|intros d Hd; specialize (Hs d Hd); unfold apart in *; cbn in *; lia|done].
      unfold in_block in *. split_and!; cbn; try done; [lia|by apply aligned_add|lia|unfold in_block; cbn; lia].
    + intros p. rewrite !free_at_cons. unfold in_block. cbn.
      split; [intros [?|?]; [destruct (decide (p < c.1)); [left|right; left]; lia|tauto]|].
      intros [?|[?|?]]; [left; lia|left; lia|by right].
    + intros d [->|Hd]%elem_of_cons; [cbn; lia|]. specialize (Hs d Hd). unfold apart in Hs. lia.
  - split_and!; [|intros p; rewrite !free_at_cons; tauto|].
    + apply wf_cons. split_and!; [done| |by apply wf_cons]. intros d [->|Hd]%elem_of_cons; [unfold apart; lia|].
      specialize (Hs d Hd). unfold apart in *. lia.
    + intros d [->|[->|Hd]%elem_of_cons]%elem_of_cons; [lia|lia|]. specialize (Hs d Hd). unfold apart in Hs. lia.
Qed.

Lemma put_block_ok lo head a s l : wf lo head l -> block_ok lo head (a, s) -> outside a s l ->
  wf lo head (put_block a s l) /\ (forall p, free_at (put_block a s l) p <-> in_block p (a, s) \/ free_at l p) /\
  (forall x c, (forall b, b ∈ l -> x <= b.1) -> x <= a -> c ∈ put_block a s l -> x <= c.1).
Proof.
  intros W Hb. pose proof Hb as (B1&B2&B3&B4&B5&B6). cbn in *. induction l as [|c l IH]; intros Ho; cbn [put_block].
  { split_and!; [|intros p; rewrite free_at_cons; tauto|].
    - apply wf_cons. split_and!; [done|intros c ?%not_elem_of_nil; done|by repeat constructor].
    - intros x c _ Hx ->%list_elem_of_singleton. done. }
  apply wf_cons in W as (Hk&Hs&W). pose proof Hk as (C1&C2&C3&C4&C5&C6). pose proof (Ho c ltac:(by left)) as Hoc.
  destruct (Z.ltb_spec c.1 a) as [Hlt|Hge].
  - destruct (IH W) as (W'&Hf&Hlo); [intros d Hd; apply Ho; by right|].
    destruct (join_ok lo head c (put_block a s l)) as (J1&J2&J3); [done|done| |].
    { intros d Hd. apply (Hlo _ d); [|lia|done]. intros e He. specialize (Hs e He). unfold apart in Hs. lia. }
    split_and!; [done|intros p; rewrite J2, Hf, free_at_cons; tauto|].
    intros x d Hx Hxa Hd. specialize (J3 d Hd). specialize (Hx c ltac:(by left)). lia.
  - destruct (join_ok lo head (a, s) (c :: l)) as (J1&J2&J3); [done|by apply wf_cons| |].
    { intros d [->|Hd]%elem_of_cons; [cbn; lia|]. specialize (Hs d Hd). unfold apart in Hs. cbn. lia. }
    split_and!; [done|intros p; rewrite J2, free_at_cons; tauto|].
    intros x d Hx Hxa Hd. specialize (J3 d Hd). cbn in J3. lia.
Qed.

(** Taking and putting back is the identity. *)
Lemma put_take lo head size l a l' : wf lo head l -> 0 < size -> take_fit size l = Some (a, l') -> put_block a size l' = l.
Proof.
  revert l'. induction l as [|[b t] l IH]; intros l' W H0; cbn [take_fit]; [done|].
  pose proof W as W0. apply wf_cons in W as (Hb&Hs&W). pose proof Hb as (B1&B2&B3&B4&B5&B6). cbn in *.
  destruct (Z.ltb_spec t size) as [Hlt|Hge].
  - destruct (take_fit size l) as [[c r]|] eqn:E; [|done]. cbn. intros [= -> <-]. cbn [put_block fst].
    assert (b + t < a) as Hba.
    { destruct (take_fit_Some _ _ _ _ E) as (l1&s&l2&->&_). specialize (Hs (a, s) ltac:(set_solver)). unfold apart in Hs. cbn in Hs. lia. }
    rewrite (proj2 (Z.ltb_lt b a)) by lia. rewrite (IH r W H0 eq_refl). destruct l as [|c l]; cbn [join fst snd]; [done|].
    specialize (Hs c ltac:(by left)). unfold apart in Hs. cbn in Hs. by rewrite (proj2 (Z.eqb_neq (b + t) c.1)) by lia.
  - intros [= -> <-]. destruct (Z.eqb_spec t size) as [->|Hne].
    + destruct l as [|c l]; cbn [put_block]; [done|]. specialize (Hs c ltac:(by left)). unfold apart in Hs. cbn in Hs.
      rewrite (proj2 (Z.ltb_ge c.1 a)) by lia. cbn [join fst snd]. by rewrite (proj2 (Z.eqb_neq (a + size) c.1)) by lia.
    + cbn [put_block fst]. rewrite (proj2 (Z.ltb_ge (a + size) a)) by lia. cbn [join fst snd]. rewrite Z.eqb_refl. do 2 f_equal. lia.
Qed.

(** *** Carving out a range *)

Definition part (a e : Z) : blocks := if a =? e then [] else [(a, e - a)].
Fixpoint carve (a e : Z) (l : blocks) : option blocks :=
  match l with
  | [] => None
  | (b, t) :: l =>
      if (b <=? a) && (e <=? b + t) then Some (part b a ++ part e (b + t) ++ l)
      else r ← carve a e l; Some ((b, t) :: r)
  end.

Lemma part_ok lo head b a e : block_ok lo head b -> b.1 <= a <= e -> e <= b.1 + b.2 -> aligned a -> aligned e ->
  wf lo head (part a e) /\ (forall c, c ∈ part a e -> c = (a, e - a) /\ a < e) /\ (forall p, free_at (part a e) p <-> a <= p < e).
Proof.
  intros (B1&B2&B3&B4&B5&B6) H1 H2 Ha He. unfold in_block in B6. unfold part. destruct (Z.eqb_spec a e) as [->|Hne].
  - split_and!; [by repeat constructor|intros c ?%not_elem_of_nil; done|]. intros p. split; [intros []%free_at_nil|lia].
  - split_and!.
    + apply wf_cons. split_and!; [|intros c ?%not_elem_of_nil; done|by repeat constructor].
      unfold block_ok, in_block. cbn. split_and!; [lia|done|lia|by apply aligned_sub|lia|lia].
    + intros c ->%list_elem_of_singleton. split; [done|lia].
    + intros p. rewrite free_at_cons. unfold in_block. cbn. split; [intros [?|[]%free_at_nil]; lia|]. left; lia.
Qed.

Lemma carve_ok lo head a e l l' : wf lo head l -> aligned a -> aligned e -> a < e -> carve a e l = Some l' ->
  wf lo head l' /\ (forall p, a <= p < e -> free_at l p) /\ (forall p, free_at l' p <-> free_at l p /\ ~ (a <= p < e)) /\
  (forall c, c ∈ l' -> exists b, b ∈ l /\ b.1 <= c.1).
Proof.
  intros W Ha He Hae. revert l'. induction l as [|[b t] l IH]; intros l'; cbn [carve]; [done|].
  apply wf_cons in W as (Hb&Hs&W). pose proof Hb as (B1&B2&B3&B4&B5&B6). cbn [fst snd] in *.
  destruct (Z.leb_spec b a) as [H1|H1]; [destruct (Z.leb_spec e (b + t)) as [H2|H2]|]; cbn [andb].
  1:{ intros [= <-].
    destruct (part_ok lo head (b, t) b a Hb) as (P1&P2&P3); cbn; try lia; try done.
    destruct (part_ok lo head (b, t) e (b + t) Hb) as (Q1&Q2&Q3); cbn; try lia; try done; [by apply aligned_add|].
    assert (forall p, free_at l p -> b + t < p) as Hl by (intros p (c&Hc&Hp); specialize (Hs c Hc); unfold apart, in_block in *; cbn in *; lia).
    split_and!.
    - apply wf_app. split_and!; [done|apply wf_app; split_and!; [done..|]|].
      + intros c d [-> ?]%Q2 Hd. specialize (Hs d Hd). unfold apart in *. cbn in *. lia.
      + intros c d [-> ?]%P2 [Hd|Hd]%elem_of_app; [apply Q2 in Hd as [-> ?]; unfold apart; cbn; lia|].
        specialize (Hs d Hd). unfold apart in *. cbn in *. lia.
    - intros p Hp. apply free_at_cons. left. unfold in_block. cbn. lia.
    - intros p. assert (forall l1 l2, free_at (l1 ++ l2) p <-> free_at l1 p \/ free_at l2 p) as Happ.
      { intros l1 l2. unfold free_at. setoid_rewrite elem_of_app. split; [intros (c&[?|?]&?); [left|right]; by exists c|].
        intros [(c&?&?)|(c&?&?)]; exists c; tauto. }
      rewrite !Happ, P3, Q3, free_at_cons. unfold in_block. cbn. specialize (Hl p). split.
      + intros [?|[?|Hf]]; [split; [left|]; lia|split; [left|]; lia|]. specialize (Hl Hf). split; [by right|lia].
      + intros [[?|Hf] ?]; [|tauto]. destruct (decide (p < a)); [left; lia|right; left; lia].
    - intros c [Hc|[Hc|Hc]%elem_of_app]%elem_of_app.
      + apply P2 in Hc as [-> ?]. exists (b, t). split; [by left|]. cbn. lia.
      + apply Q2 in Hc as [-> ?]. exists (b, t). split; [by left|]. cbn. lia.
      + exists c. split; [by right|lia]. }
  all: destruct (carve a e l) as [r|] eqn:Er; [|done]; cbn; intros [= <-]; destruct (IH W r eq_refl) as (C1&C2&C3&C4); split_and!;
    [apply wf_cons; split_and!; [done| |done]; intros c (d&Hd&?)%C4; specialize (Hs d Hd); unfold apart in *; cbn in *; lia
    |intros p Hp; apply free_at_cons; right; by apply C2
    |intros p; rewrite !free_at_cons, C3; split; [|tauto]; intros [Hp|?]; [|tauto]; split; [by left|]; intros Hp';
       destruct (C2 p Hp') as (d&Hd&Hin); specialize (Hs d Hd); unfold apart, in_block in *; cbn in *; lia
    |intros c [->|(d&Hd&?)%C4]%elem_of_cons; [exists (b, t)|exists d]; (split; [set_solver|cbn; lia])].
Qed.

(** The list is determined by the set of free addresses: two well-formed lists
    that free the same addresses are equal. *)
Lemma wf_unique lo head l1 l2 : wf lo head l1 -> wf lo head l2 -> (forall p, free_at l1 p <-> free_at l2 p) -> l1 = l2.
Proof.
  revert l2. induction l1 as [|[a s] l1 IH]; intros l2 W1 W2 Hf.
  { destruct l2 as [|c l2]; [done|]. exfalso. apply wf_cons in W2 as ((_&_&?&_)&_). apply (free_at_nil c.1), Hf, free_at_cons.
    left. unfold in_block. lia. }
  destruct l2 as [|[b t] l2].
  { exfalso. apply wf_cons in W1 as ((_&_&?&_)&_). apply (free_at_nil a), Hf, free_at_cons. left. unfold in_block. cbn in *. lia. }
  apply wf_cons in W1 as ((A1&A2&A3&A4&A5&A6)&S1&W1). apply wf_cons in W2 as ((B1&B2&B3&B4&B5&B6)&S2&W2). cbn in *.
  assert (forall p, free_at ((a, s) :: l1) p -> a <= p) as Ha.
  { intros p [?|(c&Hc&?)]%free_at_cons; [unfold in_block in *; cbn in *; lia|]. specialize (S1 c Hc). unfold apart, in_block in *. cbn in *. lia. }
  assert (forall p, free_at ((b, t) :: l2) p -> b <= p) as Hb.
  { intros p [?|(c&Hc&?)]%free_at_cons; [unfold in_block in *; cbn in *; lia|]. specialize (S2 c Hc). unfold apart, in_block in *. cbn in *. lia. }
  assert (a = b) as ->.
  { apply Z.le_antisymm; [apply Ha, Hf|apply Hb, Hf]; apply free_at_cons; left; unfold in_block; cbn; lia. }
  assert (forall l, (forall c, c ∈ l -> apart (b, s) c) -> ~ free_at ((b, s) :: l) (b + s)) as Hend1.
  { intros l Hl [?|(c&Hc&?)]%free_at_cons; [unfold in_block in *; cbn in *; lia|]. specialize (Hl c Hc). unfold apart, in_block in *. cbn in *. lia. }
  assert (~ free_at ((b, t) :: l2) (b + t)) as Hend2.
  { intros [?|(c&Hc&?)]%free_at_cons; [unfold in_block in *; cbn in *; lia|]. specialize (S2 c Hc). unfold apart, in_block in *. cbn in *. lia. }
  assert (s = t) as ->.
  { destruct (Z.lt_trichotomy s t) as [Hlt|[?|Hlt]]; [|done|]; exfalso.
    - apply (Hend1 l1 S1), Hf, free_at_cons. left. unfold in_block. cbn. lia.
    - apply Hend2, Hf, free_at_cons. left. unfold in_block. cbn. lia. }
  f_equal. apply IH; [done|done|]. intros p.
  assert (forall l, (forall c, c ∈ l -> apart (b, t) c) -> free_at l p -> ~ in_block p (b, t)) as Hd.
  { intros l Hl (c&Hc&?) ?. specialize (Hl c Hc). unfold apart, in_block in *. cbn in *. lia. }
  specialize (Hf p). rewrite !free_at_cons in Hf. specialize (Hd l1 S1) as D1. specialize (Hd l2 S2) as D2. tauto.
Qed.

(** ** The headers in memory *)

Lemma get_next_store_next a b v h : get_next b (store_next a v h) = if decide (a = b) then Some v else get_next b h.
Proof. unfold get_next, store_next. rewrite lookup_insert. by case_decide. Qed.
Lemma get_prev_store_prev a b v h : get_prev b (store_prev a v h) = if decide (a = b) then Some v else get_prev b h.
Proof. unfold get_prev, store_prev. rewrite lookup_insert. by case_decide. Qed.
Lemma get_prev_store_next a b v h :
  get_prev b (store_next a v h) = if decide (a = b) then Some (default 0 (get_prev b h)) else get_prev b h.
Proof. unfold get_prev, store_next. rewrite lookup_insert. case_decide; [by subst|done]. Qed.
Lemma get_next_store_prev a b v h :
  get_next b (store_prev a v h) = if decide (a = b) then Some (default 0 (get_next b h)) else get_next b h.
Proof. unfold get_next, store_prev. rewrite lookup_insert. case_decide; [by subst|done]. Qed.

#[local] Hint Rewrite get_next_store_next get_prev_store_prev get_prev_store_next get_next_store_prev : stores.

(** Evaluate the stores, then decide which addresses coincide. *)
Ltac stores := autorewrite with stores; repeat (case_decide; try congruence); simplify_eq; try done.

Lemma block_unlink_ok blk h p n :
  get_prev blk h = Some p -> get_next blk h = Some n -> p <> blk -> n <> blk ->
  is_Some (get_prev p h) -> is_Some (get_next n h) ->
  exists h', block_unlink blk h = Some h' /\ unlinked h h' p n.
Proof.
  intros Hp Hn Hpb Hnb [pp Hpp] [nn Hnn]. unfold block_unlink. rewrite Hp, Hn. cbn [mbind option_bind].
  rewrite get_next_store_next, get_prev_store_next, !decide_False by done. rewrite Hp, Hn. cbn [mbind option_bind].
  eexists. split; [done|].
  split; intros a; autorewrite with stores; repeat (case_decide; subst); try done; rewrite ?Hpp, ?Hnn; done.
Qed.

Section Rep.
Context (OFFSET head : Z).

Record page_rep (m : pmem) (l : blocks) : Prop := {
  pr_links : queue_rep (links m) head l.*1;
  pr_sizes : forall b, b ∈ l -> bsize m !! b.1 = Some b.2;
}.

Lemma seg_mapped h x l y a : seg h x l y -> a ∈ l -> is_Some (get_next a h) /\ is_Some (get_prev a h).
Proof.
  revert x. induction l as [|z l IH]; intros x; cbn; [intros _ ?%not_elem_of_nil; done|].
  intros (_&Hp&Hs) [->|Ha]%elem_of_cons; [|by eapply IH]. split; [|by eexists].
  destruct l; cbn in Hs; destruct Hs as [Hn _]; by eexists.
Qed.
Lemma rep_mapped h l a : queue_rep h head l -> a ∈ head :: l -> is_Some (get_next a h) /\ is_Some (get_prev a h).
Proof.
  intros Q Ha. destruct (queue_rep_mapped _ _ _ _ Q Ha) as [q E]. unfold get_next, get_prev. rewrite E. split; by eexists.
Qed.

Lemma rounds_enough m l : page_rep m l -> (S (length l) < rounds m)%nat.
Proof.
  intros [[ND Q] _]. unfold rounds.
  assert (list_to_set (head :: l.*1) ⊆ dom (links m)) as Hsub.
  { intros a Ha. apply elem_of_list_to_set in Ha. apply elem_of_dom. by eapply queue_rep_mapped. }
  apply subseteq_size in Hsub. rewrite size_list_to_set, size_dom in Hsub by done. cbn in Hsub. rewrite length_fmap in Hsub. lia.
Qed.

Lemma find_fit_ok m l x n size : seg (links m) x l.*1 head -> head ∉ l.*1 -> (forall b, b ∈ l -> bsize m !! b.1 = Some b.2) ->
  (length l < n)%nat -> find_fit head n x size m = Some (fst <$> take_fit size l).
Proof.
  revert x n. induction l as [|[a s] l IH]; intros x [|n] Hs Hh Hb Hn; cbn in Hn; try lia; cbn [find_fit take_fit].
  - cbn in Hs. destruct Hs as [-> _]. cbn. by rewrite Z.eqb_refl.
  - cbn in Hs, Hh. destruct Hs as (->&_&Hs). cbn [mbind option_bind]. rewrite (proj2 (Z.eqb_neq a head)) by set_solver.
    pose proof (Hb (a, s) ltac:(by left)) as Ea. cbn in Ea. rewrite Ea. cbn [mbind option_bind snd]. destruct (s <? size); [|done].
    rewrite IH by (done || lia || set_solver). by destruct (take_fit size l).
Qed.

(** Neighbours of a block in the list. *)
Lemma rep_split h l1 a l2 : queue_rep h head (l1 ++ a :: l2) ->
  get_prev a h = Some (lastd head l1) /\ get_next a h = Some (headd l2 head) /\
  lastd head l1 <> a /\ headd l2 head <> a /\ lastd head l1 ∈ head :: l1 ++ a :: l2 /\ headd l2 head ∈ head :: l1 ++ a :: l2.
Proof.
  intros [ND Q]. pose proof (seg_ends _ _ _ (a :: l2) _ Q) as [_ Hp].
  replace (l1 ++ a :: l2) with ((l1 ++ [a]) ++ l2) in Q by (by rewrite <- app_assoc).
  pose proof (seg_ends _ _ _ _ _ Q) as [Hn _]. unfold headd in Hp at 1. cbn in Hp.
  assert (lastd head (l1 ++ [a]) = a) as El by (unfold lastd; by rewrite last_snoc). rewrite El in Hn.
  pose proof (lastd_elem head l1) as Hl. pose proof (headd_elem l2 head) as Hh.
  rewrite <- Permutation_middle in ND. apply NoDup_cons in ND as [Hh' ND]. apply NoDup_cons in ND as [Ha ND].
  split_and!; [done|done| | |set_solver|set_solver].
  - intros E. rewrite E in Hl. set_solver.
  - intros E. rewrite E in Hh. set_solver.
Qed.

Lemma unlink_block m l1 b l2 : page_rep m (l1 ++ b :: l2) ->
  exists h, block_unlink b.1 (links m) = Some h /\ page_rep (m <| links := h |>) (l1 ++ l2).
Proof.
  intros [Q S]. rewrite fmap_app in Q. cbn in Q. destruct (rep_split _ _ _ _ Q) as (Hp&Hn&Hpa&Hna&Hpi&Hni).
  destruct (block_unlink_ok b.1 (links m) _ _ Hp Hn Hpa Hna) as (h&E&U);
    [by eapply rep_mapped|by eapply rep_mapped|].
  exists h. split; [done|]. split; cbn.
  - rewrite fmap_app. eapply queue_rep_unlinked; [exact Q|exact U].
  - intros c Hc. apply S. set_solver.
Qed.

(** What the stores that put [tmp] in the place of a block do. *)
Lemma replace_links h h1 p tmp n : unlinked h h1 p n -> tmp <> p -> tmp <> n ->
  is_Some (get_next n h) -> is_Some (get_prev p h) ->
  linked h1 (store_prev n tmp (store_next p tmp (store_next tmp n (store_prev tmp p h)))) p tmp n.
Proof.
  intros [U1 U2] ?? [nn Hnn] [pp Hpp].
  split; intros x; autorewrite with stores; rewrite ?U1, ?U2;
    repeat (case_decide; subst; try done; try congruence); rewrite ?Hnn, ?Hpp; done.
Qed.

Lemma shrink_block m l1 a s l2 size : page_rep m (l1 ++ (a, s) :: l2) ->
  u32 (a + size) = a + size -> u32 (s - size) = s - size -> a + size ∉ head :: (l1 ++ (a, s) :: l2).*1 ->
  exists m', block_shrink a size s m = Some m' /\ page_rep m' (l1 ++ (a + size, s - size) :: l2).
Proof.
  intros [Q S] E1 E2 Ht. unfold block_shrink. rewrite E1, E2. set (tmp := a + size) in *. cbv zeta.
  rewrite fmap_app in Q, Ht. cbn in Q, Ht. destruct (rep_split _ _ _ _ Q) as (Hp&Hn&Hpa&Hna&Hpi&Hni).
  set (p := lastd head l1.*1) in *. set (n := headd l2.*1 head) in *. set (m1 := m <| bsize ::= _ |>). change (links m1) with (links m).
  assert (tmp <> a /\ tmp <> p /\ tmp <> n) as (Ha&Hpt&Hnt) by (split_and!; intros E; apply Ht; rewrite E; set_solver).
  rewrite Hp. cbn [mbind option_bind]. rewrite get_next_store_prev, decide_False, Hn by done. cbn [mbind option_bind].
  rewrite get_prev_store_next, decide_False, get_prev_store_prev, decide_False, Hp by done. cbn [mbind option_bind].
  rewrite get_next_store_next, decide_False, get_next_store_next, decide_False, get_next_store_prev, decide_False, Hn by done. cbn [mbind option_bind].
  eexists. split; [done|].
  destruct (block_unlink_ok a (links m) _ _ Hp Hn Hpa Hna) as (h1&_&U); [by eapply rep_mapped|by eapply rep_mapped|].
  split; cbn.
  - rewrite fmap_app. cbn. eapply queue_rep_linked; [|set_solver|].
    + eapply queue_rep_unlinked; [exact Q|exact U].
    + apply replace_links; try done; by eapply rep_mapped.
  - intros b Hb. destruct (decide (b = (tmp, s - size))) as [->|Hne]; [apply lookup_insert_eq|].
    assert (b ∈ l1 ++ (a, s) :: l2) as Hb' by set_solver. rewrite lookup_insert_ne; [by apply S|].
    intros E. apply Ht. rewrite E. apply elem_of_cons. right. apply (list_elem_of_fmap_2 fst) in Hb'. by rewrite fmap_app in Hb'.
Qed.

(** An address inside a block is that of no header but the block's own. *)
Lemma inside_fresh lo l1 b t l2 e : wf lo head (l1 ++ (b, t) :: l2) -> b < e < b + t -> e ∉ head :: (l1 ++ (b, t) :: l2).*1.
Proof.
  intros W He. pose proof W as [F _]. rewrite Forall_forall in F. apply wf_app in W as (_&((_&_&_&_&_&B6)&W1&_)%wf_cons&W2).
  intros [->|(c&Ec&Hc)%list_elem_of_fmap]%elem_of_cons; [unfold in_block in B6; cbn in B6; lia|].
  apply elem_of_app in Hc as [Hc|[->|Hc]%elem_of_cons]; [|cbn in Ec; lia|].
  - specialize (W2 c (b, t) Hc ltac:(by left)). destruct (F c ltac:(set_solver)) as (_&_&?&_). unfold apart in W2. cbn in W2. lia.
  - specialize (W1 c Hc). unfold apart in W1. cbn in W1. lia.
Qed.

(** page_alloc() implements [take_fit]. *)
Lemma page_alloc_refines lo m l sz : page_rep m l -> wf lo head l -> 0 <= lo ->
  0 < sz -> sz + PAGE_MASK < 2 ^ 32 ->
  match take_fit (PAGE_ALIGN sz) l with
  | None => page_alloc OFFSET head sz m = Some (0, m)
  | Some (a, l') => exists m', page_alloc OFFSET head sz m = Some (virt_to_phys OFFSET a, m') /\ page_rep m' l'
  end.
Proof.
  intros R W Hlo Hsz Hmax. destruct (PAGE_ALIGN_ok sz) as [Hal Hge]; [lia|done|]. unfold page_alloc. rewrite (proj2 (Z.eqb_neq sz 0)) by lia. set (size := PAGE_ALIGN sz) in *.
  pose proof R as [Q S]. pose proof Q as [ND Hs]. apply NoDup_cons in ND as [Hh _].
  rewrite (find_fit_ok m l head (rounds m) size) by (done || (pose proof (rounds_enough _ _ R); lia)). cbn [mbind option_bind].
  destruct (take_fit size l) as [[a l']|] eqn:E; cbn [fmap option_fmap option_map fst]; [|done].
  destruct (take_fit_Some _ _ _ _ E) as (l1&s&l2&->&Hss&_&->).
  pose proof W as (_&((B1&B2&B3&B4&B5&B6)&_)%wf_cons&_)%wf_app. cbn [fst snd] in B1, B2, B3, B4, B5.
  pose proof (S (a, s) ltac:(set_solver)) as Ea. cbn in Ea. rewrite Ea. cbn [mbind option_bind].
  destruct (Z.eqb_spec s size) as [->|Hne].
  - destruct (unlink_block m l1 (a, size) l2 R) as (h&Eh&R'). cbn in Eh. rewrite Eh. cbn [mbind option_bind]. by eexists.
  - destruct (shrink_block m l1 a s l2 size R) as (m'&Eh&R'); [apply u32_small; lia|apply u32_small; lia| |].
    { apply (inside_fresh lo); [done|lia]. }
    rewrite Eh. cbn [mbind option_bind]. by eexists.
Qed.

(** *** Release *)

Lemma put_block_app lo hd a s l1 b l2 : wf lo hd (l1 ++ b :: l2) -> (forall c, c ∈ l1 ++ [b] -> c.1 < a) ->
  (forall c, c ∈ l2 -> a <= c.1) -> put_block a s (l1 ++ b :: l2) = l1 ++ join b (join (a, s) l2).
Proof.
  intros W Hl Hr. assert (put_block a s l2 = join (a, s) l2) as E2.
  { destruct l2 as [|c l2]; cbn [put_block]; [done|]. by rewrite (proj2 (Z.ltb_ge c.1 a)) by (apply Hr; by left). }
  induction l1 as [|c l1 IH]; cbn [app put_block].
  - rewrite (proj2 (Z.ltb_lt b.1 a)) by (apply Hl; set_solver). by rewrite E2.
  - rewrite (proj2 (Z.ltb_lt c.1 a)) by (apply Hl; set_solver). cbn in W. apply wf_cons in W as (_&Hs&W).
    rewrite IH; [|done|intros d Hd; apply Hl; set_solver]. clear IH.
    assert (c.1 + c.2 <> (List.hd c (l1 ++ join b (join (a, s) l2))).1) as Hne.
    { destruct l1 as [|d l1]; cbn.
      - specialize (Hs b ltac:(by left)). unfold apart in Hs. destruct (join (a, s) l2) as [|x l] eqn:E; cbn; [lia|].
        destruct (b.1 + b.2 =? x.1); cbn; lia.
      - specialize (Hs d ltac:(by left)). unfold apart in Hs. lia. }
    destruct (l1 ++ join b (join (a, s) l2)) as [|d l]; cbn in Hne |- *; [done|]. by rewrite (proj2 (Z.eqb_neq _ _) Hne).
Qed.

Lemma find_prev_ok m (l1 l2 : blocks) x n blk : seg (links m) x (l1 ++ l2).*1 head -> head ∉ (l1 ++ l2).*1 ->
  (forall c, c ∈ l1 -> c.1 < blk) -> (forall c, c ∈ l2 -> blk <= c.1) -> (length l1 < n)%nat ->
  find_prev head n x blk m = Some (lastd x l1.*1).
Proof.
  revert x n. induction l1 as [|b l1 IH]; intros x [|n] Hs Hh Hl Hr Hn; cbn in Hn; try lia; cbn [find_prev].
  - pose proof (seg_ends (links m) x [] l2.*1 head Hs) as [E _]. change (lastd x []) with x in E. rewrite E. cbn [mbind option_bind].
    destruct l2 as [|c l2]; unfold headd; cbn.
    + destruct (head <? blk); [|done]. by rewrite Z.eqb_refl.
    + by rewrite (proj2 (Z.ltb_ge c.1 blk)) by (apply Hr; by left).
  - cbn in Hs, Hh. destruct Hs as (->&_&Hs). cbn [mbind option_bind].
    rewrite (proj2 (Z.ltb_lt b.1 blk)) by (apply Hl; by left). rewrite (proj2 (Z.eqb_neq b.1 head)) by set_solver.
    cbn [fmap list_fmap]. rewrite lastd_cons. apply IH; try done; [set_solver|intros c Hc; apply Hl; by right|lia].
Qed.

Lemma insert_links h p item n : get_next p h = Some n -> item <> p -> item <> n ->
  is_Some (get_next n h) -> is_Some (get_prev p h) ->
  linked h (store_next p item (store_prev n item (store_next item n (store_prev item p h)))) p item n.
Proof.
  intros Hn ?? [nn Hnn] [pp Hpp]. split; intros x; autorewrite with stores;
    repeat (case_decide; subst; try done; try congruence); rewrite ?Hnn, ?Hpp; done.
Qed.

Lemma insert_block m (l1 l2 : blocks) a s : page_rep m (l1 ++ l2) -> a ∉ head :: (l1 ++ l2).*1 ->
  exists m', block_insert (lastd head l1.*1) a s m = Some m' /\ page_rep m' (l1 ++ (a, s) :: l2).
Proof.
  intros [Q S] Ha. rewrite fmap_app in Q, Ha. unfold block_insert. cbv zeta. set (m1 := m <| bsize ::= _ |>). change (links m1) with (links m).
  pose proof Q as [_ Hs]. destruct (seg_ends _ _ _ _ _ Hs) as [Hn Hp]. set (p := lastd head l1.*1) in *. set (n := headd l2.*1 head) in *.
  assert (p ∈ head :: l1.*1 ++ l2.*1) as Hpi by (pose proof (lastd_elem head l1.*1); set_solver).
  assert (n ∈ head :: l1.*1 ++ l2.*1) as Hni by (pose proof (headd_elem l2.*1 head); set_solver).
  assert (a <> p /\ a <> n) as (Hap&Han) by (split; intros E; apply Ha; by rewrite E).
  rewrite get_next_store_prev, decide_False, Hn by done. cbn [mbind option_bind].
  rewrite get_next_store_next, decide_False, get_next_store_prev, decide_False, Hn by done. cbn [mbind option_bind].
  eexists. split; [done|]. split; cbn.
  - rewrite fmap_app. cbn. eapply queue_rep_linked; [exact Q|set_solver|]. apply insert_links; try done; by eapply rep_mapped.
  - intros b Hb. destruct (decide (b = (a, s))) as [->|Hne]; [apply lookup_insert_eq|].
    assert (b ∈ l1 ++ l2) as Hb' by set_solver. rewrite lookup_insert_ne; [by apply S|].
    intros E. apply Ha. rewrite E. apply elem_of_cons. right. apply (list_elem_of_fmap_2 fst) in Hb'. by rewrite fmap_app in Hb'.
Qed.

(** The two merges. *)
Lemma merge_next_ok m l1 a s l2 : page_rep m (l1 ++ (a, s) :: l2) -> u32 (a + s) = a + s ->
  (forall b, b ∈ l2 -> u32 (s + b.2) = s + b.2) ->
  exists m', merge_next head a m = Some m' /\ page_rep m' (l1 ++ join (a, s) l2).
Proof.
  intros R Hu Hu2. pose proof R as [Q S]. rewrite fmap_app in Q. cbn in Q. destruct (rep_split _ _ _ _ Q) as (Hp&Hn&Hpa&Hna&_).
  pose proof (S (a, s) ltac:(set_solver)) as Es. cbn in Es. unfold merge_next. rewrite Hn. cbn [mbind option_bind].
  destruct l2 as [|[b t] l2]; unfold headd; cbn [fmap list_fmap List.head default].
  { cbn. rewrite Z.eqb_refl. by exists m. }
  unfold default, id. cbn [fst]. pose proof Q as [ND _]. apply NoDup_cons in ND as [Hh _].
  rewrite (proj2 (Z.eqb_neq b head)) by set_solver. rewrite Es. cbn [mbind option_bind]. rewrite Hu. unfold join. cbn [fst snd].
  destruct (Z.eqb_spec (a + s) b) as [E|Hne]; [|by exists m].
  pose proof (S (b, t) ltac:(set_solver)) as Eb. cbn in Eb. rewrite Eb. cbn [mbind option_bind].
  replace (l1.*1 ++ a :: ((b, t) :: l2).*1) with ((l1.*1 ++ [a]) ++ b :: l2.*1) in Q by (by rewrite <- app_assoc).
  destruct (rep_split _ _ _ _ Q) as (_&Hbn&_&Hbn'&_&Hni). change (links (m <| bsize ::= _ |>)) with (links m). rewrite Hbn. cbn [mbind option_bind].
  rewrite get_next_store_next, decide_True by done. cbn [mbind option_bind]. eexists. split; [done|].
  set (n := headd l2.*1 head) in *. destruct (rep_mapped _ _ n Q Hni) as [[nn Hnn] _].
  destruct (rep_mapped _ _ a Q ltac:(set_solver)) as [_ [pp Hpp]]. split; cbn.
  - rewrite fmap_app. cbn. replace (l1.*1 ++ a :: l2.*1) with ((l1.*1 ++ [a]) ++ l2.*1) by (by rewrite <- app_assoc).
    eapply queue_rep_unlinked; [exact Q|]. replace (lastd head (l1.*1 ++ [a])) with a by (unfold lastd; by rewrite last_snoc).
    split; intros x; autorewrite with stores; repeat (case_decide; subst; try done; try congruence); rewrite ?Hnn, ?Hpp; done.
  - intros c Hc. pose proof (Hu2 (b, t) ltac:(by left)) as Hst. cbn in Hst. rewrite Hst. destruct (decide (c = (a, s + t))) as [->|Hc']; [apply lookup_insert_eq|].
    assert (c ∈ l1 ++ l2) as Hcl by set_solver. rewrite lookup_insert_ne; [apply S; set_solver|]. intros Ea.
    apply (list_elem_of_fmap_2 fst) in Hcl. rewrite <- Ea, fmap_app in Hcl. destruct Q as [ND _].
    rewrite <- !app_assoc in ND. cbn in ND. rewrite <- Permutation_middle in ND.
    apply NoDup_cons in ND as [_ ND]. apply NoDup_cons in ND as [Hna' _]. apply Hna'. set_solver.
Qed.

Lemma merge_prev_ok m l1 b a s l2 : page_rep m (l1 ++ b :: (a, s) :: l2) -> u32 (b.1 + b.2) = b.1 + b.2 -> u32 (b.2 + s) = b.2 + s ->
  exists m', merge_prev head a m = Some m' /\ page_rep m' (l1 ++ join b ((a, s) :: l2)).
Proof.
  intros R Hu Hu2. pose proof R as [Q S]. pose proof Q as [ND _]. rewrite fmap_app in Q, ND. cbn in Q, ND.
  replace (l1.*1 ++ b.1 :: a :: l2.*1) with ((l1.*1 ++ [b.1]) ++ a :: l2.*1) in Q by (by rewrite <- app_assoc).
  destruct (rep_split _ _ _ _ Q) as (Hp&_). replace (lastd head (l1.*1 ++ [b.1])) with b.1 in Hp by (unfold lastd; by rewrite last_snoc).
  unfold merge_prev. rewrite Hp. cbn [mbind option_bind]. pose proof ND as [Hh _]%NoDup_cons. rewrite (proj2 (Z.eqb_neq b.1 head)) by set_solver.
  rewrite (S b) by set_solver. cbn [mbind option_bind]. rewrite Hu. unfold join. cbn [fst snd]. destruct (Z.eqb_spec (b.1 + b.2) a) as [E|Hne].
  2:{ by exists m. }
  pose proof (S (a, s) ltac:(set_solver)) as Es. cbn in Es. rewrite Es. cbn [mbind option_bind].
  replace (l1 ++ b :: (a, s) :: l2) with ((l1 ++ [b]) ++ (a, s) :: l2) in R by (by rewrite <- app_assoc).
  destruct (unlink_block m _ _ _ R) as (h&Eh&[Q' S']). change (links (m <| bsize ::= _ |>)) with (links m). cbn [fst] in Eh. rewrite Eh.
  cbn [mbind option_bind]. eexists. split; [done|]. split; cbn.
  - rewrite <- app_assoc, fmap_app in Q'. rewrite fmap_app. exact Q'.
  - intros c Hc. rewrite Hu2. destruct (decide (c = (b.1, b.2 + s))) as [->|Hc']; [apply lookup_insert_eq|].
    assert (c ∈ l1 ++ l2) as Hcl by set_solver. rewrite lookup_insert_ne; [apply S'; set_solver|]. intros Eb.
    apply (list_elem_of_fmap_2 fst) in Hcl. rewrite <- Eb, fmap_app in Hcl.
    rewrite <- Permutation_middle in ND. apply NoDup_cons in ND as [_ ND]. apply NoDup_cons in ND as [Hn _]. apply Hn. set_solver.
Qed.

(** A list without the address [a] in its blocks falls apart in front of it. *)
Lemma outside_split lo a s l : wf lo head l -> 0 < s -> outside a s l ->
  exists l1 l2, l = l1 ++ l2 /\ (forall c, c ∈ l1 -> c.1 < a) /\ (forall c, c ∈ l2 -> a + s <= c.1).
Proof.
  intros W Hs. induction l as [|b l IH]; intros Ho.
  - exists [], []. split_and!; [done|intros c ?%not_elem_of_nil; done..].
  - apply wf_cons in W as ((_&_&?&_)&Hap&W). destruct (decide (b.1 < a)) as [Hlt|Hge].
    + destruct (IH W) as (l1&l2&->&H1&H2); [intros c Hc; apply Ho; by right|]. exists (b :: l1), l2. split_and!; [done| |done].
      intros c [->|Hc]%elem_of_cons; [done|by apply H1].
    + exists [], (b :: l). split_and!; [done|intros c ?%not_elem_of_nil; done|].
      destruct (Ho b ltac:(by left)) as [?|Hb]; [lia|]. intros c [->|Hc]%elem_of_cons; [done|].
      specialize (Hap c Hc). unfold apart in Hap. lia.
Qed.

(** page_free() implements [put_block]. *)
Lemma page_free_refines lo m l addr sz a : page_rep m l -> wf lo head l -> 0 <= lo ->
  a = phys_to_virt OFFSET addr -> block_ok lo head (a, PAGE_ALIGN sz) -> outside a (PAGE_ALIGN sz) l ->
  exists m', page_free OFFSET head addr sz m = Some m' /\ page_rep m' (put_block a (PAGE_ALIGN sz) l).
Proof.
  intros R W Hlo Ha Hb Ho. unfold page_free. rewrite (proj2 (Z.eqb_neq sz 0)) by (intros ->; destruct Hb as (_&_&Hz&_); discriminate Hz). rewrite <- Ha. set (s := PAGE_ALIGN sz) in *. pose proof Hb as (B1&B2&B3&B4&B5&B6). cbn [fst snd] in B1, B2, B3, B4, B5, B6.
  destruct (outside_split lo a s l W B3 Ho) as (l1&l2&->&H1&H2). pose proof R as [[ND Hs] _]. apply NoDup_cons in ND as [Hh _].
  rewrite (find_prev_ok m l1 l2) by (done || (intros c Hc; specialize (H2 c Hc); lia) ||
    (pose proof (rounds_enough _ _ R) as Hr; rewrite length_app in Hr; lia)). cbn [mbind option_bind].
  pose proof W as (W1&W2&Hap)%wf_app. destruct W1 as [F1 _]. destruct W2 as [F2 _]. rewrite Forall_forall in F1, F2.
  assert (a ∉ head :: (l1 ++ l2).*1) as Hni.
  { intros [E|Hin]%elem_of_cons; [unfold in_block in B6; cbn in B6; lia|]. apply list_elem_of_fmap in Hin as (c&Ec&[Hc|Hc]%elem_of_app);
      [specialize (H1 c Hc)|specialize (H2 c Hc)]; lia. }
  destruct (insert_block m l1 l2 a s R Hni) as (m1&E1&R1). rewrite E1. cbn [mbind option_bind].
  destruct (merge_next_ok m1 l1 a s l2 R1) as (m2&E2&R2); [apply u32_small; lia| |].
  { intros c Hc. specialize (H2 c Hc). destruct (F2 c Hc) as (?&_&?&_&?&_). apply u32_small. lia. }
  rewrite E2. cbn [mbind option_bind]. destruct l1 as [|b l1 _] using rev_ind.
  - exists m2. replace (put_block a s ([] ++ l2)) with (join (a, s) l2).
    + split; [|exact R2]. destruct R2 as [[ND Q] _]. unfold merge_prev. cbn [app] in Q.
      assert (exists s' l', join (a, s) l2 = (a, s') :: l') as (s'&l'&Ej).
      { destruct l2 as [|c l2]; cbn; [by eexists _, _|]. destruct (_ =? _); by eexists _, _. }
      rewrite Ej in Q. cbn in Q. destruct Q as (_&Hp&_). rewrite Hp. cbn [mbind option_bind]. by rewrite Z.eqb_refl.
    + cbn. destruct l2 as [|c l2]; cbn [put_block]; [done|]. by rewrite (proj2 (Z.ltb_ge c.1 a)) by (specialize (H2 c ltac:(by left)); lia).
  - rewrite <- app_assoc in W, R2 |- *. cbn [app] in W, R2 |- *.
    rewrite (put_block_app lo head) by (done || (intros c Hc; specialize (H2 c Hc); lia)).
    assert (exists s' l', join (a, s) l2 = (a, s') :: l' /\ a + s' < 2 ^ 32 /\ 0 < s') as (s'&l'&Ej&Hs'&Hs0).
    { destruct l2 as [|c l2]; cbn; [by eexists _, _|]. destruct (Z.eqb_spec (a + s) c.1) as [Ec|]; [|by eexists _, _].
      destruct (F2 c ltac:(by left)) as (?&_&?&_&?&_). eexists _, _. split_and!; [done|lia|lia]. }
    rewrite Ej in R2 |- *. destruct (F1 b ltac:(set_solver)) as (?&_&?&_&?&_). specialize (H1 b ltac:(set_solver)).
    pose proof (Ho b ltac:(set_solver)) as Hob.
    destruct (merge_prev_ok m2 l1 b a s' l' R2) as (m3&E3&R3); [apply u32_small; lia|apply u32_small; lia|].
    exists m3. split; [exact E3|exact R3].
Qed.

(** *** Reservation *)

Definition holds (a e : Z) (b : Z * Z) : bool := (b.1 <=? a) && (e <=? b.1 + b.2).

Lemma carve_Some a e l l' : carve a e l = Some l' ->
  exists l1 b t l2, l = l1 ++ (b, t) :: l2 /\ b <= a /\ e <= b + t /\ (forall c, c ∈ l1 -> holds a e c = false) /\
    l' = l1 ++ part b a ++ part e (b + t) ++ l2.
Proof.
  revert l'. induction l as [|[b t] l IH]; intros l'; cbn [carve]; [done|]. destruct (_ && _) eqn:E.
  - intros [= <-]. apply andb_true_iff in E as [?%Z.leb_le ?%Z.leb_le]. exists [], b, t, l.
    split_and!; [done..|intros c ?%not_elem_of_nil; done|done].
  - destruct (carve a e l) as [r|]; [|done]. cbn. intros [= <-]. destruct (IH r eq_refl) as (l1&b'&t'&l2&->&?&?&?&->).
    exists ((b, t) :: l1), b', t', l2. split_and!; [done..| |done]. intros c [->|Hc]%elem_of_cons; [exact E|auto].
Qed.
Lemma carve_None a e l : carve a e l = None -> forall c, c ∈ l -> holds a e c = false.
Proof.
  induction l as [|[b t] l IH]; cbn [carve]; [intros _ c ?%not_elem_of_nil; done|]. destruct (_ && _) eqn:E; [done|].
  destruct (carve a e l); [done|]. intros _ c [->|Hc]%elem_of_cons; [exact E|auto].
Qed.

Lemma find_block_ok m l1 l2 x n a e : seg (links m) x (l1 ++ l2).*1 head -> head ∉ (l1 ++ l2).*1 ->
  (forall b : Z * Z, b ∈ l1 ++ l2 -> bsize m !! b.1 = Some b.2 /\ u32 (b.1 + b.2) = b.1 + b.2) ->
  (forall c, c ∈ l1 -> holds a e c = false) -> match l2 with [] => True | c :: _ => holds a e c = true end ->
  (length l1 < n)%nat ->
  (blk ← get_next x (links m); find_block head n blk a e m) = match l2 with [] => None | c :: _ => Some c.1 end.
Proof.
  revert x n. induction l1 as [|b l1 IH]; intros x [|n] Hs Hh Hb H1 H2 Hn; cbn in Hn; try lia.
  - pose proof (seg_ends (links m) x [] l2.*1 head Hs) as [E _]. change (lastd x []) with x in E. rewrite E. cbn [mbind option_bind find_block].
    destruct l2 as [|c l2]; unfold headd; cbn; [by rewrite Z.eqb_refl|]. cbn in Hh. rewrite (proj2 (Z.eqb_neq c.1 head)) by set_solver.
    destruct (Hb c ltac:(by left)) as [-> Hu]. cbn [mbind option_bind]. unfold holds in H2. rewrite Hu, H2. done.
  - cbn in Hs, Hh. destruct Hs as (->&_&Hs). cbn [mbind option_bind find_block]. rewrite (proj2 (Z.eqb_neq b.1 head)) by set_solver.
    destruct (Hb b ltac:(by left)) as [-> Hu]. cbn [mbind option_bind]. pose proof (H1 b ltac:(by left)) as Hf. unfold holds in Hf. rewrite Hu, Hf.
    apply IH; try done; [set_solver|intros c Hc; apply Hb; by right|intros c Hc; apply H1; by right|lia].
Qed.

Lemma cut_links h p item n : get_next p h = Some n -> item <> p -> item <> n ->
  is_Some (get_next n h) -> is_Some (get_prev p h) ->
  linked h (store_next p item (store_prev n item (store_prev item p (store_next item n h)))) p item n.
Proof.
  intros Hn ?? [nn Hnn] [pp Hpp]. split; intros x; autorewrite with stores;
    repeat (case_decide; subst; try done; try congruence); rewrite ?Hnn, ?Hpp; done.
Qed.

Lemma cut_block m l1 b t l2 e : page_rep m (l1 ++ (b, t) :: l2) -> b < e < b + t -> 0 <= b -> b + t < 2 ^ 32 ->
  e ∉ head :: (l1 ++ (b, t) :: l2).*1 ->
  exists m', block_cut b t e m = Some m' /\ page_rep m' (l1 ++ (b, e - b) :: (e, b + t - e) :: l2).
Proof.
  intros R He Hb0 Hbt Hni. pose proof R as [Q S]. rewrite fmap_app in Q, Hni. cbn in Q, Hni. destruct (rep_split _ _ _ _ Q) as (_&Hn&_&_&_&Hnin).
  unfold block_cut. rewrite (u32_small (b + t)), (u32_small (b + t - e)) by lia. cbv zeta. set (m1 := m <| bsize ::= _ |>).
  change (links m1) with (links m). rewrite Hn. cbn [mbind option_bind]. set (n := headd l2.*1 head) in *.
  assert (e <> b /\ e <> n) as [Heb Hen] by (split; [lia|]; intros E; apply Hni; rewrite E; set_solver).
  assert (bsize m1 !! b = Some t) as Eb by (cbn; rewrite lookup_insert_ne by done; apply (S (b, t)); set_solver).
  rewrite Eb. cbn [mbind option_bind]. rewrite get_next_store_prev, decide_False, get_next_store_next, decide_False, Hn by done. cbn [mbind option_bind].
  eexists. split; [done|]. split; cbn.
  - rewrite fmap_app. cbn. replace (l1.*1 ++ b :: e :: l2.*1) with ((l1.*1 ++ [b]) ++ e :: l2.*1) by (by rewrite <- app_assoc).
    replace (l1.*1 ++ b :: l2.*1) with ((l1.*1 ++ [b]) ++ l2.*1) in Q by (by rewrite <- app_assoc).
    eapply queue_rep_linked; [exact Q|set_solver|]. replace (lastd head (l1.*1 ++ [b])) with b by (unfold lastd; by rewrite last_snoc).
    apply cut_links; [exact Hn|done|done|eapply rep_mapped; [exact Q|set_solver]..].
  - destruct Q as [ND _]. intros c Hc. rewrite (u32_small (t - _)) by lia.
    destruct (decide (c.1 = b)) as [Ecb|Hcb].
    { assert (c = (b, e - b)) as ->; [|cbn; rewrite lookup_insert_eq; f_equal; lia].
      rewrite <- Permutation_middle in ND. apply NoDup_cons in ND as [_ ND]. apply NoDup_cons in ND as [Hbn _].
      apply elem_of_app in Hc as [Hc|[->|[->|Hc]%elem_of_cons]%elem_of_cons]; [|done|cbn in Ecb; lia|];
        exfalso; apply Hbn; rewrite <- Ecb; apply elem_of_app; [left|right]; by apply list_elem_of_fmap_2. }
    rewrite lookup_insert_ne by congruence. destruct (decide (c = (e, b + t - e))) as [->|Hce]; [apply lookup_insert_eq|].
    assert (c ∈ l1 ++ (b, t) :: l2) as Hc' by (apply elem_of_app in Hc as [?|[->|[->|?]%elem_of_cons]%elem_of_cons]; set_solver).
    rewrite lookup_insert_ne; [by apply S|]. intros Ee. apply Hni. apply elem_of_cons. right.
    apply (list_elem_of_fmap_2 fst) in Hc'. rewrite fmap_app in Hc'. by rewrite Ee.
Qed.

(** The size of a block in the middle changes. *)
Lemma resize_block m l1 b t l2 t' : page_rep m (l1 ++ (b, t) :: l2) -> page_rep (m <| bsize ::= <[b := t']> |>) (l1 ++ (b, t') :: l2).
Proof.
  intros [Q S]. split; cbn; [by rewrite fmap_app in *|]. intros c Hc. destruct (decide (c = (b, t'))) as [->|Hne]; [apply lookup_insert_eq|].
  assert (c ∈ l1 ++ l2) as Hcl by set_solver. rewrite lookup_insert_ne; [apply S; set_solver|]. intros E.
  apply (list_elem_of_fmap_2 fst) in Hcl. rewrite <- E, fmap_app in Hcl. destruct Q as [ND _]. rewrite fmap_app in ND. cbn in ND.
  rewrite <- Permutation_middle in ND. apply NoDup_cons in ND as [_ ND]. apply NoDup_cons in ND as [Hn _]. by apply Hn.
Qed.

(** page_reserve() implements [carve]; where that is undefined it panics. *)
Lemma page_reserve_refines lo m l paddr sz va : page_rep m l -> wf lo head l -> 0 <= lo ->
  va = phys_to_virt OFFSET paddr -> 0 < sz -> va + sz + PAGE_MASK < 2 ^ 32 ->
  match carve (PAGE_TRUNC va) (PAGE_ALIGN (va + sz)) l with
  | None => page_reserve OFFSET head paddr sz m = None
  | Some l' => exists m', page_reserve OFFSET head paddr sz m = Some m' /\ page_rep m' l'
  end.
Proof.
  intros R W Hlo Hva Hsz Hmax. assert (0 <= va) by (rewrite Hva; apply u32_range).
  assert (0 <= PAGE_MASK) by (unfold PAGE_MASK, PAGE_SIZE; lia).
  destruct (PAGE_ALIGN_ok (va + sz)) as [He1 He2]; [lia|lia|]. destruct (PAGE_TRUNC_ok va) as (Ha1&Ha2&Ha3); [lia|].
  unfold page_reserve. rewrite (proj2 (Z.eqb_neq sz 0)) by lia. rewrite <- Hva. rewrite (u32_small (va + sz)) by lia.
  set (e := PAGE_ALIGN (va + sz)) in *. set (a := PAGE_TRUNC va) in *. cbv zeta.
  assert (e < 2 ^ 32) as He32.
  { unfold e, PAGE_ALIGN. rewrite ldiff_mask. pose proof (u32_range (va + sz + PAGE_MASK)).
    pose proof (Z.mod_pos_bound (u32 (va + sz + PAGE_MASK)) PAGE_SIZE ltac:(done)). lia. }
  pose proof R as [[ND Hs] S]. apply NoDup_cons in ND as [Hh _]. pose proof W as [F _]. rewrite Forall_forall in F.
  assert (forall b, b ∈ l -> bsize m !! b.1 = Some b.2 /\ u32 (b.1 + b.2) = b.1 + b.2) as Hb.
  { intros b Hb. split; [by apply S|]. destruct (F b Hb) as (?&_&?&_&?&_). apply u32_small. lia. }
  pose proof (rounds_enough _ _ R) as Hr. destruct (carve a e l) as [l'|] eqn:Ec.
  - destruct (carve_Some _ _ _ _ Ec) as (l1&b&t&l2&->&Hba&Het&Hno&->). rewrite length_app in Hr. cbn in Hr.
    pose proof (find_block_ok m l1 ((b, t) :: l2) head (rounds m) a e Hs Hh Hb Hno) as Hf. unfold holds in Hf. cbn [fst snd] in Hf.
    rewrite (proj2 (Z.leb_le _ _) Hba), (proj2 (Z.leb_le _ _) Het) in Hf. specialize (Hf eq_refl ltac:(lia)).
    destruct (get_next head (links m)) as [x|]; [|done]. cbn [mbind option_bind] in Hf |- *. rewrite Hf. cbn [mbind option_bind].
    destruct (Hb (b, t) ltac:(set_solver)) as [Eb Hu]. cbn [fst snd] in Eb, Hu. rewrite Eb. cbn [mbind option_bind]. rewrite Hu.
    destruct (F (b, t) ltac:(set_solver)) as (B1&B2&B3&B4&B5&B6). cbn [fst snd] in B1, B2, B3, B4, B5. unfold in_block in B6. cbn in B6.
    rewrite (u32_small (e - a)) by lia. unfold part. destruct (Z.eqb_spec b a) as [Eba|Hbne].
    + subst b. cbn [andb]. destruct (Z.eqb_spec t (e - a)) as [->|Hne].
      { destruct (unlink_block m l1 (a, e - a) l2 R) as (h&Eh&R'). cbn [fst] in Eh. rewrite Eh. cbn [mbind option_bind].
        replace (a + (e - a)) with e by lia. rewrite Z.eqb_refl. by eexists. }
      rewrite (proj2 (Z.eqb_neq (a + t) e)), (proj2 (Z.eqb_neq e (a + t))) by lia. cbn [negb].
      destruct (cut_block m l1 a t l2 e R) as (m1&E1&R1); [lia|lia|lia| |].
      { apply (inside_fresh lo); [done|lia]. }
      rewrite E1. cbn [mbind option_bind]. rewrite ?Z.eqb_refl. destruct (unlink_block m1 l1 _ _ R1) as (h&Eh&R'). cbn [fst] in Eh. rewrite Eh.
      cbn [mbind option_bind app]. by eexists.
    + cbn [andb]. destruct (Z.eqb_spec (b + t) e) as [Eq|Hne]; cbn [negb mbind option_bind].
      * rewrite Eq, Z.eqb_refl. cbn [app]. eexists. split; [done|]. rewrite (u32_small (a - b)) by lia.
        by apply (resize_block m l1 b t).
      * rewrite (proj2 (Z.eqb_neq e (b + t))) by lia. destruct (cut_block m l1 b t l2 e R) as (m1&E1&R1); [lia|lia|lia| |].
        { apply (inside_fresh lo); [done|lia]. }
        rewrite E1. cbn [mbind option_bind app]. eexists. split; [done|]. rewrite (u32_small (a - b)) by lia.
        by apply (resize_block m1 l1 b (e - b)).
  - pose proof (find_block_ok m l [] head (rounds m) a e) as Hf. rewrite app_nil_r in Hf.
    specialize (Hf Hs Hh Hb (carve_None _ _ _ Ec) I ltac:(lia)). destruct (get_next head (links m)) as [x|]; [|done].
    cbn [mbind option_bind] in Hf |- *. by rewrite Hf.
Qed.
End Rep.

(** ** The allocators *)

Section Spec.
Context (OFFSET head : Z) (HO : 0 <= OFFSET).

(** The memory holds the free list [l]. *)
Definition pages_ok (m : pmem) (l : blocks) : Prop := page_rep head m l /\ wf OFFSET head l.

Inductive page_op := OpAlloc (sz : Z) | OpFree (addr sz : Z) | OpReserve (addr sz : Z).

(** The operations on free lists, where their preconditions hold. *)
Definition page_astep (op : page_op) (l : blocks) : option (Z * blocks) :=
  match op with
  | OpAlloc sz =>
      if (0 <? sz) && (sz + PAGE_MASK <? 2 ^ 32) then
        Some (match take_fit (PAGE_ALIGN sz) l with Some (a, l') => (a - OFFSET, l') | None => (0, l) end)
      else None
  | OpFree addr sz =>
      let a := addr + OFFSET in let s := PAGE_ALIGN sz in
      if bool_decide (block_ok OFFSET head (a, s)) && forallb (fun b => (b.1 + b.2 <=? a) || (a + s <=? b.1)) l
      then Some (0, put_block a s l) else None
  | OpReserve addr sz =>
      let va := addr + OFFSET in
      if (0 <=? addr) && (0 <? sz) && (va + sz + PAGE_MASK <? 2 ^ 32) then
        l' ← carve (PAGE_TRUNC va) (PAGE_ALIGN (va + sz)) l; Some (0, l')
      else None
  end.
Definition page_cstep (op : page_op) (m : pmem) : option (Z * pmem) :=
  match op with
  | OpAlloc sz => page_alloc OFFSET head sz m
  | OpFree addr sz => m ← page_free OFFSET head addr sz m; Some (0, m)
  | OpReserve addr sz => m ← page_reserve OFFSET head addr sz m; Some (0, m)
  end.

Lemma virt_to_phys_ok a : OFFSET < a < 2 ^ 32 -> virt_to_phys OFFSET a = a - OFFSET.
Proof. intros H. unfold virt_to_phys. apply u32_small. lia. Qed.

Lemma page_alloc_ok m l sz : pages_ok m l -> 0 < sz -> sz + PAGE_MASK < 2 ^ 32 ->
  match take_fit (PAGE_ALIGN sz) l with
  | None => page_alloc OFFSET head sz m = Some (0, m)
  | Some (a, l') => exists m', page_alloc OFFSET head sz m = Some (a - OFFSET, m') /\ pages_ok m' l' /\ OFFSET < a < 2 ^ 32
  end.
Proof.
  intros [R W] H0 H1. pose proof (page_alloc_refines OFFSET head OFFSET m l sz R W HO H0 H1) as H.
  destruct (take_fit (PAGE_ALIGN sz) l) as [[a l']|] eqn:E; [|done]. destruct H as (m'&Em&R').
  destruct (PAGE_ALIGN_ok sz) as [Hal Hge]; [lia|done|]. destruct (take_fit_ok _ _ _ _ _ _ W Hal ltac:(lia) E) as (W'&A1&_&A3&_).
  exists m'. rewrite Em, virt_to_phys_ok by lia. split; [done|]. split; [by split|lia].
Qed.

(** C14: the page allocator at the level of headers in memory implements the
    operations on the list of free blocks: whenever page_alloc(), page_free()
    or page_reserve() is called within its contract, the stores succeed, the
    result is that of first fit, of sorted insertion with coalescing, or of
    carving out a range, and the new memory holds the new list, again sorted,
    page-aligned and fully coalesced. *)
Theorem page_ops_refine m l op r l' : pages_ok m l -> page_astep op l = Some (r, l') ->
  exists m', page_cstep op m = Some (r, m') /\ pages_ok m' l'.
Proof.
  intros H. destruct op as [sz|addr sz|addr sz]; cbn [page_astep page_cstep].
  - destruct (0 <? sz) eqn:E0; [|done]. destruct (sz + PAGE_MASK <? 2 ^ 32) eqn:E1; [|done]. cbn [andb]. intros E.
    apply Z.ltb_lt in E0, E1. pose proof (page_alloc_ok m l sz H E0 E1) as Ha.
    destruct (take_fit (PAGE_ALIGN sz) l) as [[a l1]|]; injection E as <- <-; [|by exists m].
    destruct Ha as (m'&Em&Hm&_). by exists m'.
  - cbv zeta. case_bool_decide as Hb; [|done]. cbn [andb]. destruct (forallb _ l) eqn:Ef; [|done]. intros [= <- <-].
    rewrite forallb_forall in Ef. destruct H as [R W]. pose proof Hb as (B1&B2&B3&B4&B5&B6). cbn [fst snd] in B1, B5.
    assert (outside (addr + OFFSET) (PAGE_ALIGN sz) l) as Ho.
    { intros b Hb'. specialize (Ef b ltac:(by apply list_elem_of_In)). apply orb_true_iff in Ef as [?%Z.leb_le|?%Z.leb_le]; [left|right]; lia. }
    assert (addr + OFFSET = phys_to_virt OFFSET addr) as Ea by (unfold phys_to_virt; rewrite u32_small; [done|cbn in B3; lia]).
    destruct (page_free_refines OFFSET head OFFSET m l addr sz (addr + OFFSET) R W HO Ea Hb Ho) as (m'&Em&R'). rewrite Em. cbn [mbind option_bind].
    exists m'. split; [done|]. split; [exact R'|]. by apply put_block_ok.
  - cbv zeta. destruct (_ && _) eqn:E0; [|done]. apply andb_true_iff in E0 as [[E0%Z.leb_le E1%Z.ltb_lt]%andb_true_iff E2%Z.ltb_lt]. destruct (carve _ _ l) as [l1|] eqn:Ec; [|done]. cbn [mbind option_bind]. intros [= <- <-].
    destruct H as [R W]. assert (0 <= PAGE_MASK) by (unfold PAGE_MASK, PAGE_SIZE; lia).
    assert (addr + OFFSET = phys_to_virt OFFSET addr) as Ea by (unfold phys_to_virt; rewrite u32_small; [done|lia]).
    pose proof (page_reserve_refines OFFSET head OFFSET m l addr sz _ R W HO Ea E1 E2) as Hr. rewrite Ec in Hr.
    destruct Hr as (m'&Em&R'). rewrite Em. cbn [mbind option_bind]. exists m'. split; [done|]. split; [exact R'|].
    destruct (PAGE_ALIGN_ok (addr + OFFSET + sz)) as [He1 He2]; [lia|lia|]. destruct (PAGE_TRUNC_ok (addr + OFFSET)) as (Ha1&Ha2&_); [lia|].
    eapply carve_ok; [exact W|exact Ha1|exact He1|lia|exact Ec].
Qed.

(** page_alloc() by the addresses it gives out: it returns NULL and changes
    nothing exactly when no free block has the rounded size; otherwise the
    returned range is page-aligned, lay in free memory, avoids the list head,
    and is what the free memory loses. *)
Theorem page_alloc_spec m l sz : pages_ok m l -> 0 < sz -> sz + PAGE_MASK < 2 ^ 32 ->
  (page_alloc OFFSET head sz m = Some (0, m) /\ forall b, b ∈ l -> b.2 < PAGE_ALIGN sz) \/
  (exists pa m' l', page_alloc OFFSET head sz m = Some (pa, m') /\ pages_ok m' l' /\ 0 < pa /\ aligned (pa + OFFSET) /\
     (forall p, in_block p (pa + OFFSET, PAGE_ALIGN sz) -> free_at l p) /\
     (forall p, free_at l' p <-> free_at l p /\ ~ in_block p (pa + OFFSET, PAGE_ALIGN sz))).
Proof.
  intros H H0 H1. pose proof (page_alloc_ok m l sz H H0 H1) as Ha. destruct (PAGE_ALIGN_ok sz) as [Hal Hge]; [lia|done|].
  destruct (take_fit (PAGE_ALIGN sz) l) as [[a l']|] eqn:E.
  - right. destruct Ha as (m'&Em&Hm&Hr). destruct H as [_ W].
    destruct (take_fit_ok _ _ _ _ _ _ W Hal ltac:(lia) E) as (_&A1&A2&A3&A4&A5&A6).
    exists (a - OFFSET), m', l'. replace (a - OFFSET + OFFSET) with a by lia. split_and!; try done. lia.
  - left. split; [done|]. by apply take_fit_None.
Qed.

(** Freeing what page_alloc() returned, with the same size, puts the allocator
    back where it was: the list of free blocks, split by the allocation, is
    joined again to the very list from before. *)
Theorem page_alloc_free m l sz pa m1 : pages_ok m l -> 0 < sz -> sz + PAGE_MASK < 2 ^ 32 ->
  page_alloc OFFSET head sz m = Some (pa, m1) -> pa <> 0 ->
  exists m2, page_free OFFSET head pa sz m1 = Some m2 /\ pages_ok m2 l.
Proof.
  intros H H0 H1 E Hpa. pose proof (page_alloc_ok m l sz H H0 H1) as Ha. destruct (PAGE_ALIGN_ok sz) as [Hal Hge]; [lia|done|].
  destruct (take_fit (PAGE_ALIGN sz) l) as [[a l']|] eqn:Et; [|congruence]. destruct Ha as (m'&Em&[R' W']&Hr).
  assert (pa = a - OFFSET /\ m1 = m') as [-> ->] by (split; congruence). destruct H as [R W].
  destruct (take_fit_ok _ _ _ _ _ _ W Hal ltac:(lia) Et) as (_&A1&A2&A3&A4&A5&A6).
  assert (block_ok OFFSET head (a, PAGE_ALIGN sz)) as Hb by (split_and!; cbn; (done || lia)).
  assert (outside a (PAGE_ALIGN sz) l') as Ho.
  { intros b Hb'. destruct W' as [F _]. rewrite Forall_forall in F. destruct (F b Hb') as (_&_&?&_).
    assert (forall p, in_block p b -> ~ in_block p (a, PAGE_ALIGN sz)) as Hd by (intros p Hp; apply A6; by exists b).
    unfold in_block in Hd. cbn in Hd. pose proof (Hd b.1). pose proof (Hd (Z.max a b.1)). lia. }
  destruct (page_free_refines OFFSET head OFFSET m' l' (a - OFFSET) sz a R' W' HO) as (m2&E2&R2); [|done..|].
  { unfold phys_to_virt. rewrite u32_small; lia. }
  rewrite (put_take OFFSET head (PAGE_ALIGN sz) l a l' W ltac:(lia) Et) in R2. exists m2. by split.
Qed.

(** A request that PAGE_ALIGN wraps to 0 returns the first free block, which
    stays free. *)
Lemma page_alloc_wraps m a s l sz : pages_ok m ((a, s) :: l) -> 2 ^ 32 - PAGE_SIZE < sz < 2 ^ 32 ->
  exists m', page_alloc OFFSET head sz m = Some (a - OFFSET, m') /\ pages_ok m' ((a, s) :: l).
Proof.
  intros [R W] Hsz. assert (PAGE_ALIGN sz = 0) as Hz.
  { unfold PAGE_ALIGN, PAGE_MASK, PAGE_SIZE, u32 in *. change (4096 - 1) with PAGE_MASK. rewrite ldiff_mask. unfold PAGE_SIZE.
    replace (sz + PAGE_MASK) with (sz + PAGE_MASK - 2 ^ 32 + 1 * 2 ^ 32) by lia. rewrite Z.mod_add by lia.
    unfold PAGE_MASK, PAGE_SIZE. rewrite Z.mod_small by lia. rewrite Z.mod_small by lia. lia. }
  pose proof W as [(B1&B2&B3&B4&B5&B6) _]%wf_cons. cbn [fst snd] in B1, B2, B3, B4, B5.
  pose proof R as [Q S]. pose proof (S (a, s) ltac:(by left)) as Ea. cbn in Ea. pose proof Q as [ND Hs]. apply NoDup_cons in ND as [Hh _].
  unfold page_alloc. rewrite (proj2 (Z.eqb_neq sz 0)), Hz by (unfold PAGE_SIZE in *; lia). cbn [take_fit].
  rewrite (find_fit_ok head m ((a, s) :: l) head (rounds m) 0) by (done || (pose proof (rounds_enough _ _ _ R); cbn in *; lia)).
  cbn [mbind option_bind take_fit]. rewrite (proj2 (Z.ltb_ge s 0)) by lia. cbn [fmap option_fmap option_map fst].
  rewrite Ea. cbn [mbind option_bind]. rewrite (proj2 (Z.eqb_neq s 0)) by lia.
  destruct (rep_split head (links m) [] a l.*1 Q) as (Hp&Hn&Hpa&Hna&Hpi&Hni). unfold block_shrink. rewrite (u32_small (a + 0)), (u32_small (s - 0)) by lia.
  replace (a + 0) with a by lia. replace (s - 0) with s by lia. cbv zeta. set (m1 := m <| bsize ::= _ |>). change (links m1) with (links m).
  change (lastd head []) with head in *. set (n := headd l.*1 head) in *. rewrite Hp. cbn [mbind option_bind].
  destruct (rep_mapped _ _ _ n Q Hni) as [[nn Hnn] [np Hnp]]. destruct (rep_mapped _ _ _ head Q ltac:(by left)) as [[hn Hhn] [hp Hhp]].
  assert (hn = a) as -> by (cbn in Hs; destruct Hs as (?&_); congruence).
  assert (np = a) as ->.
  { pose proof (seg_ends (links m) head [a] l.*1 head Hs) as [_ Hx]. unfold lastd in Hx. cbn in Hx. fold n in Hx. congruence. }
  rewrite get_next_store_prev, decide_True, Hn by done. change (default 0 (Some n)) with n. cbn [mbind option_bind].
  rewrite get_prev_store_next, decide_True, get_prev_store_prev, decide_True by done. change (default 0 (Some head)) with head. cbn [mbind option_bind].
  rewrite get_next_store_next, decide_False, get_next_store_next, decide_True by congruence. cbn [mbind option_bind].
  eexists. rewrite virt_to_phys_ok by lia. split; [done|]. split; [|exact W]. clearbody n. split; cbn.
  - split; [apply Q|]. apply (seg_ext (links m)); [| |exact Hs]; intros x _; autorewrite with stores;
      repeat (case_decide; subst; try done; try congruence); rewrite ?Hnn, ?Hhp; done.
  - intros b Hb. destruct (decide (b.1 = a)) as [E|Hne]; [|rewrite lookup_insert_ne by done; by apply S].
    pose proof (S b Hb) as Eb. rewrite E in Eb |- *. rewrite lookup_insert_eq. congruence.
Qed.

(** ** Initialization *)

(** A free range lies in one block, since blocks do not touch. *)
Lemma carve_defined a e l : wf OFFSET head l -> a < e -> (forall p, a <= p < e -> free_at l p) -> is_Some (carve a e l).
Proof.
  intros W Hae. revert a Hae. induction l as [|[b t] l IH]; intros a Hae Hf; cbn [carve].
  { destruct (free_at_nil a). apply Hf. lia. }
  apply wf_cons in W as (Hb&Hs&W). pose proof Hb as (_&_&B3&_). cbn in B3.
  assert (forall p, free_at l p -> b + t < p) as Hl by (intros p (c&Hc&Hp); specialize (Hs c Hc); unfold apart, in_block in *; cbn in *; lia).
  destruct (decide (b <= a < b + t)) as [Hin|Hout].
  - destruct (Z.leb_spec b a); [|lia]. destruct (Z.leb_spec e (b + t)) as [He|He]; [by eexists|]. exfalso.
    destruct (Hf (b + t)) as (c&[->|Hc]%elem_of_cons&Hp); [lia|unfold in_block in Hp; cbn in Hp; lia|].
    specialize (Hl (b + t) ltac:(by exists c)). lia.
  - assert (b + t < a) as Hba by (destruct (Hf a ltac:(lia)) as (c&[->|Hc]%elem_of_cons&Hp);
      [unfold in_block in Hp; cbn in Hp; lia|apply Hl; by exists c]).
    destruct (IH W a Hae) as [r Er].
    { intros p Hp. specialize (Hf p Hp) as [?|?]%free_at_cons; [unfold in_block in *; cbn in *; lia|done]. }
    rewrite Er. destruct (_ && _); by eexists.
Qed.

Definition usable (ram : physmem) : bool := match ram_type ram with MT_USABLE => true | _ => false end.
Definition reserved (ram : physmem) : bool := match ram_type ram with MT_MEMHOLE | MT_RESERVED | MT_BOOTDISK => true | _ => false end.
(** The pages of a memory slot: of usable memory, and of reserved memory, whose
    start is rounded down. *)
Definition ram_block (ram : physmem) : Z * Z := (ram_base ram + OFFSET, PAGE_ALIGN (ram_size ram)).
Definition ram_range (ram : physmem) : Z * Z :=
  let va := ram_base ram + OFFSET in (PAGE_TRUNC va, PAGE_ALIGN (va + ram_size ram)).

Lemma page_free_ok m l addr sz : pages_ok m l -> block_ok OFFSET head (addr + OFFSET, PAGE_ALIGN sz) ->
  outside (addr + OFFSET) (PAGE_ALIGN sz) l ->
  exists m', page_free OFFSET head addr sz m = Some m' /\ pages_ok m' (put_block (addr + OFFSET) (PAGE_ALIGN sz) l).
Proof.
  intros [R W] Hb Ho. pose proof Hb as (B1&_&B3&_&B5&_). cbn [fst snd] in B1, B3, B5.
  destruct (page_free_refines OFFSET head OFFSET m l addr sz (addr + OFFSET) R W HO) as (m'&E&R'); [|done..|].
  { unfold phys_to_virt. rewrite u32_small; lia. }
  exists m'. split; [done|]. split; [done|]. by apply put_block_ok.
Qed.

Lemma outside_free_at a s l : wf OFFSET head l -> 0 < s -> outside a s l <-> forall p, in_block p (a, s) -> ~ free_at l p.
Proof.
  intros W Hs. split.
  - intros Ho p Hp (b&Hb&Hin). specialize (Ho b Hb). unfold in_block in *. cbn in *. lia.
  - intros H b Hb. destruct W as [F _]. rewrite Forall_forall in F. destruct (F b Hb) as (_&_&?&_).
    assert (~ in_block (Z.max a b.1) b \/ ~ in_block (Z.max a b.1) (a, s)) as Hn.
    { destruct (decide (in_block (Z.max a b.1) (a, s))) as [Hi|?]; [left|by right]. intros Hi'. apply (H _ Hi). by exists b. }
    unfold in_block in Hn. cbn in Hn. lia.
Qed.

Lemma free_rams_ok rams p l : pages_ok (ps_mem p) l ->
  (forall ram, ram ∈ rams -> usable ram = true -> block_ok OFFSET head (ram_block ram) /\
     (forall x, in_block x (ram_block ram) -> ~ free_at l x)) ->
  ForallPairs (fun r1 r2 => usable r1 = true -> usable r2 = true -> r1 <> r2 -> forall x, in_block x (ram_block r1) -> ~ in_block x (ram_block r2)) rams ->
  NoDup rams ->
  exists p' l', free_rams OFFSET head (fun t => match t with MT_USABLE => true | _ => false end) rams p = Some p' /\
    pages_ok (ps_mem p') l' /\
    forall x, free_at l' x <-> free_at l x \/ exists ram, ram ∈ rams /\ usable ram = true /\ in_block x (ram_block ram).
Proof.
  revert p l. induction rams as [|ram rams IH]; intros p l HP Hok Hd ND; cbn [free_rams].
  { exists p, l. split_and!; [done..|]. intros x. split; [by left|]. intros [?|(r&?%not_elem_of_nil&_)]; done. }
  apply NoDup_cons in ND as [Hni ND].
  assert (ForallPairs (fun r1 r2 => usable r1 = true -> usable r2 = true -> r1 <> r2 -> forall x, in_block x (ram_block r1) -> ~ in_block x (ram_block r2)) rams) as Hd'
    by (intros r1 r2 H1 H2; apply Hd; by right).
  change (match ram_type ram with MT_USABLE => true | _ => false end) with (usable ram). destruct (usable ram) eqn:Eu.
  - destruct (Hok ram ltac:(by left) Eu) as [Hb Hx]. pose proof HP as [_ W].
    destruct (page_free_ok (ps_mem p) l (ram_base ram) (ram_size ram) HP Hb) as (m'&Em&HP').
    { apply outside_free_at; [done|apply Hb|done]. }
    rewrite Em. cbn [mbind option_bind]. destruct (put_block_ok OFFSET head _ _ l W Hb) as (_&Hf&_); [apply outside_free_at; [done|apply Hb|done]|].
    edestruct (IH (mk_pstate m' (u32 (total_size p + ram_size ram)) (bootdisk_size p)) _ HP') as (p'&l'&E&HP''&Hf'); [|done|done|].
    { intros r Hr Hur. destruct (Hok r ltac:(by right) Hur) as [Hb' Hx']. split; [done|]. intros x Hin. rewrite Hf. intros [Hin'|?]; [|by apply (Hx' x)].
      apply (Hd r ram ltac:(by apply list_elem_of_In; right) ltac:(by left) Hur Eu ltac:(congruence) x Hin). exact Hin'. }
    exists p', l'. split_and!; [done..|]. intros x. rewrite Hf', Hf. split.
    + intros [[Hin|?]|(r&?&?&?)]; [right; exists ram|by left|right; exists r]; set_solver.
    + intros [?|(r&[->|?]%elem_of_cons&?&?)]; [tauto|left; by left|right; by exists r].
  - cbn [mbind option_bind]. destruct (IH p l HP) as (p'&l'&E&HP'&Hf); [intros r Hr; apply Hok; by right|done|done|].
    exists p', l'. split_and!; [done..|]. intros x. rewrite Hf. split.
    + intros [?|(r&?&?&?)]; [by left|right; exists r]; set_solver.
    + intros [?|(r&[->|?]%elem_of_cons&?&?)]; [by left|congruence|right; by exists r].
Qed.

Definition in_range (x : Z) (r : Z * Z) : Prop := r.1 <= x < r.2.

Lemma page_reserve_ok m l ram : pages_ok m l -> 0 <= ram_base ram -> 0 < ram_size ram ->
  ram_base ram + OFFSET + ram_size ram + PAGE_MASK < 2 ^ 32 -> (forall x, in_range x (ram_range ram) -> free_at l x) ->
  exists m' l', page_reserve OFFSET head (ram_base ram) (ram_size ram) m = Some m' /\ pages_ok m' l' /\
    forall x, free_at l' x <-> free_at l x /\ ~ in_range x (ram_range ram).
Proof.
  intros [R W] H0 H1 H2 Hf. assert (0 <= PAGE_MASK) by (unfold PAGE_MASK, PAGE_SIZE; lia). set (va := ram_base ram + OFFSET) in *.
  assert (va = phys_to_virt OFFSET (ram_base ram)) as Ea by (unfold phys_to_virt; rewrite u32_small; [done|lia]).
  pose proof (page_reserve_refines OFFSET head OFFSET m l (ram_base ram) (ram_size ram) va R W HO Ea H1 ltac:(lia)) as Hr.
  destruct (PAGE_ALIGN_ok (va + ram_size ram)) as [He1 He2]; [lia|lia|]. destruct (PAGE_TRUNC_ok va) as (Ha1&Ha2&_); [lia|].
  unfold ram_range in *. cbv zeta in *. fold va in Hf |- *. set (a := PAGE_TRUNC va) in *. set (e := PAGE_ALIGN (va + ram_size ram)) in *.
  destruct (carve_defined a e l W) as [l' El]; [lia|exact Hf|]. rewrite El in Hr. destruct Hr as (m'&Em&R').
  destruct (carve_ok _ _ _ _ _ _ W Ha1 He1 ltac:(lia) El) as (W'&_&Hfree&_). exists m', l'. split; [done|]. split; [by split|exact Hfree].
Qed.

(** The table of memory slots is consistent: usable slots are page-aligned and
    disjoint, every reserved slot lies in usable memory, and reserved slots
    share no page. *)
Record rams_ok (rams : list physmem) : Prop := {
  ro_nodup : NoDup rams;
  ro_usable : forall ram, ram ∈ rams -> usable ram = true -> block_ok OFFSET head (ram_block ram);
  ro_disjoint : ForallPairs (fun r1 r2 => usable r1 = true -> usable r2 = true -> r1 <> r2 ->
    forall x, in_block x (ram_block r1) -> ~ in_block x (ram_block r2)) rams;
  ro_bounds : forall ram, ram ∈ rams -> reserved ram = true ->
    0 <= ram_base ram /\ 0 < ram_size ram /\ ram_base ram + OFFSET + ram_size ram + PAGE_MASK < 2 ^ 32;
  ro_inside : forall ram, ram ∈ rams -> reserved ram = true -> forall x, in_range x (ram_range ram) ->
    exists r, r ∈ rams /\ usable r = true /\ in_block x (ram_block r);
  ro_apart : ForallPairs (fun r1 r2 => reserved r1 = true -> reserved r2 = true -> r1 <> r2 ->
    forall x, in_range x (ram_range r1) -> ~ in_range x (ram_range r2)) rams;
}.

Lemma reserve_rams_ok rams p l : pages_ok (ps_mem p) l -> NoDup rams ->
  (forall ram, ram ∈ rams -> reserved ram = true ->
    0 <= ram_base ram /\ 0 < ram_size ram /\ ram_base ram + OFFSET + ram_size ram + PAGE_MASK < 2 ^ 32 /\
    forall x, in_range x (ram_range ram) -> free_at l x) ->
  ForallPairs (fun r1 r2 => reserved r1 = true -> reserved r2 = true -> r1 <> r2 ->
    forall x, in_range x (ram_range r1) -> ~ in_range x (ram_range r2)) rams ->
  exists p' l', reserve_rams OFFSET head rams p = Some p' /\ pages_ok (ps_mem p') l' /\
    forall x, free_at l' x <-> free_at l x /\ forall ram, ram ∈ rams -> reserved ram = true -> ~ in_range x (ram_range ram).
Proof.
  revert p l. induction rams as [|ram rams IH]; intros p l HP ND Hok Hd; cbn [reserve_rams].
  { exists p, l. split_and!; [done..|]. intros x. split; [|tauto]. intros ?. split; [done|]. intros r ?%not_elem_of_nil. done. }
  apply NoDup_cons in ND as [Hni ND]. cbv zeta.
  assert (exists m1 l1, (match ram_type ram with
           | MT_BOOTDISK | MT_MEMHOLE | MT_RESERVED => page_reserve OFFSET head (ram_base ram) (ram_size ram) (ps_mem p)
           | _ => Some (ps_mem p) end) = Some m1 /\ pages_ok m1 l1 /\
    forall x, free_at l1 x <-> free_at l x /\ (reserved ram = true -> ~ in_range x (ram_range ram))) as (m1&l1&E1&HP1&Hf1).
  { pose proof (Hok ram ltac:(by left)) as Hr. unfold reserved in Hr |- *.
    destruct (ram_type ram); try (exists (ps_mem p), l; split_and!; [done..|]; intros x; split; [intros ?; split; [done|done]|tauto]).
    all: destruct (Hr eq_refl) as (R1&R2&R3&R4); destruct (page_reserve_ok _ l ram HP R1 R2 R3 R4) as (m1&l1&E&HP1&Hf);
      exists m1, l1; split_and!; [done..|]; intros x; rewrite Hf; tauto. }
  rewrite E1. cbn [mbind option_bind].
  match goal with |- context [mk_pstate m1 ?t ?d] => set (q := mk_pstate m1 t d) end.
  destruct (IH q l1 HP1 ND) as (p'&l'&E&HP'&Hf').
  { intros r Hr Hres. destruct (Hok r ltac:(by right) Hres) as (R1&R2&R3&R4). split_and!; [done..|]. intros x Hx. apply Hf1. split; [by apply R4|].
    intros Hres' Hx'. apply (Hd ram r ltac:(by left) ltac:(by apply list_elem_of_In; right) Hres' Hres ltac:(congruence) x Hx' Hx). }
  { intros r1 r2 H1 H2. apply Hd; by right. }
  exists p', l'. split; [exact E|]. split; [exact HP'|]. intros x. rewrite Hf', Hf1. split.
  - intros [[Hl Hr] H]. split; [done|]. intros r [->|Hin]%elem_of_cons Hres; [by apply Hr|by apply H].
  - intros [Hl H]. split; [split; [done|]|]; [intros Hres; apply (H ram ltac:(by left) Hres)|]. intros r Hin. apply H. by right.
Qed.

Lemma empty_pages_ok : pages_ok (empty_pmem head) [].
Proof.
  split; [split|by repeat constructor].
  - split; [apply NoDup_singleton|]. cbn. unfold get_next, get_prev, empty_pmem. cbn. by rewrite lookup_singleton_eq.
  - intros b ?%not_elem_of_nil. done.
Qed.

(** page_init() on a consistent memory table ends without panic, and exactly the
    usable memory outside the reserved pages is free. *)
Theorem page_init_spec rams : rams_ok rams ->
  exists p l, page_init OFFSET head rams = Some p /\ pages_ok (ps_mem p) l /\
    forall x, free_at l x <-> (exists ram, ram ∈ rams /\ usable ram = true /\ in_block x (ram_block ram)) /\
                              (forall ram, ram ∈ rams -> reserved ram = true -> ~ in_range x (ram_range ram)).
Proof.
  intros [ND Hu Hd Hb Hi Ha]. unfold page_init.
  destruct (free_rams_ok rams (mk_pstate (empty_pmem head) 0 0) [] empty_pages_ok) as (p&l&E&HP&Hf); [|done|done|].
  { intros ram Hr Hur. split; [by apply Hu|]. intros x _ []%free_at_nil. }
  rewrite E. cbn [mbind option_bind]. destruct (reserve_rams_ok rams p l HP ND) as (p'&l'&E'&HP'&Hf'); [|done|].
  { intros ram Hr Hres. destruct (Hb ram Hr Hres) as (?&?&?). split_and!; [done..|]. intros x Hx. apply Hf. right. by apply (Hi ram). }
  exists p', l'. split_and!; [done..|]. intros x. rewrite Hf', Hf. split; [|tauto]. intros [[[]%free_at_nil|?] ?]. tauto.
Qed.

(** ** The amount of free memory *)

Lemma sum_sizes_ok m l x n f s : seg (links m) x l.*1 head -> head ∉ x :: l.*1 -> bsize m !! x = Some s ->
  (forall b, b ∈ l -> bsize m !! b.1 = Some b.2) -> (length l < n)%nat ->
  sum_sizes head n x f m = Some (u32 (f + s + foldr (fun b t => b.2 + t) 0 l)).
Proof.
  revert x n f s. induction l as [|b l IH]; intros x [|n] f s Hs Hh Hx Hb Hn; cbn [length] in Hn; try lia; cbn [sum_sizes foldr] in *.
  - rewrite (proj2 (Z.eqb_neq x head)) by set_solver. rewrite Hx. cbn in Hs. destruct Hs as [-> _]. cbn [mbind option_bind].
    rewrite Z.eqb_refl. do 2 f_equal. lia.
  - rewrite (proj2 (Z.eqb_neq x head)) by set_solver. rewrite Hx. cbn in Hs. destruct Hs as (->&_&Hs). cbn [mbind option_bind].
    cbn in Hh. rewrite (proj2 (Z.eqb_neq b.1 head)) by set_solver.
    rewrite (IH b.1 n (u32 (f + s)) b.2); [|done|set_solver|apply Hb; by left|intros c Hc; apply Hb; by right|lia].
    f_equal. unfold u32. rewrite <- Z.add_assoc, Zplus_mod_idemp_l. f_equal; lia.
Qed.

Lemma page_info_ok m l : pages_ok m l -> page_info head m = Some (u32 (foldr (fun b t => b.2 + t) 0 l)).
Proof.
  intros [R W]. pose proof R as [[ND Hs] S]. pose proof (rounds_enough _ _ _ R) as Hr. unfold page_info.
  destruct l as [|b l]; cbn in Hs.
  - destruct Hs as [-> _]. cbn [mbind option_bind]. unfold rounds in *. cbn [sum_sizes]. rewrite Z.eqb_refl. cbn [mbind option_bind].
    destruct R as [[_ Hs'] _]. cbn in Hs'. destruct Hs' as [-> _]. cbn [mbind option_bind]. by rewrite Z.eqb_refl.
  - destruct Hs as (->&_&Hs). cbn [mbind option_bind]. cbn in ND, Hr. apply NoDup_cons in ND as [Hh _].
    rewrite (sum_sizes_ok m l b.1 (rounds m) 0 b.2); [done|done|set_solver|apply S; by left|intros c Hc; apply S; by right|lia].
Qed.
End Spec.

(** ** A small machine: sixteen pages, of which the first holds the list head and
    two are reserved *)
Module PageDemo.
Definition OFFSET := 0x80000000.
Definition head := 0x80000100.
Definition rams := [mk_physmem 0x1000 0xF000 MT_USABLE; mk_physmem 0x3000 0x1800 MT_RESERVED].
Definition mem : pmem := default (empty_pmem head) (ps_mem <$> page_init OFFSET head rams).
Definition free : blocks := [(0x80001000, 0x2000); (0x80005000, 0xB000)].

Lemma offset_ok : 0 <= OFFSET.
Proof. done. Qed.

Lemma pages : pages_ok OFFSET head mem free.
Proof.
  split; [split|split].
  - split; [apply (bool_decide_unpack _); by vm_compute|]. vm_compute. tauto.
  - intros b [->|[->|[]%elem_of_nil]%elem_of_cons]%elem_of_cons; by vm_compute.
  - unfold free, block_ok, aligned, in_block. repeat constructor; cbn; unfold OFFSET, head, PAGE_SIZE; (reflexivity || lia).
  - unfold free, apart. repeat constructor; cbn; lia.
Qed.

Lemma consistent : rams_ok OFFSET head rams.
Proof.
  assert (forall r, r ∈ rams -> r = mk_physmem 0x1000 0xF000 MT_USABLE \/ r = mk_physmem 0x3000 0x1800 MT_RESERVED) as Hin.
  { intros r [->|[->|[]%elem_of_nil]%elem_of_cons]%elem_of_cons; tauto. }
  split.
  - repeat constructor; set_solver.
  - intros r [->| ->]%Hin Hu; [|done]. unfold block_ok, aligned, in_block. vm_compute. split_and!; (reflexivity || discriminate || intuition congruence).
  - intros r1 r2 H1%list_elem_of_In H2%list_elem_of_In. destruct (Hin _ H1) as [-> | ->], (Hin _ H2) as [-> | ->]; done.
  - intros r [->| ->]%Hin Hr; [done|]. by vm_compute.
  - intros r [->| ->]%Hin Hr x Hx; [done|]. eexists. split; [by left|]. split; [done|]. revert Hx. unfold in_range, in_block, ram_range, ram_block.
    cbn [ram_base ram_size fst snd]. unfold OFFSET.
    change (PAGE_TRUNC (0x3000 + 0x80000000)) with 0x80003000. change (PAGE_ALIGN (0x3000 + 0x80000000 + 0x1800)) with 0x80005000.
    change (PAGE_ALIGN 0xF000) with 0xF000. lia.
  - intros r1 r2 H1%list_elem_of_In H2%list_elem_of_In. destruct (Hin _ H1) as [-> | ->], (Hin _ H2) as [-> | ->]; done.
Qed.

Lemma page_ops_refine_witness : page_astep OFFSET head (OpAlloc 0x2800) free = Some (0x5000, [(0x80001000, 0x2000); (0x80008000, 0x8000)]) /\
  exists m', page_cstep OFFSET head (OpAlloc 0x2800) mem = Some (0x5000, m') /\ pages_ok OFFSET head m' [(0x80001000, 0x2000); (0x80008000, 0x8000)].
Proof. split; [reflexivity|]. exact (page_ops_refine OFFSET head offset_ok mem free (OpAlloc 0x2800) _ _ pages eq_refl). Defined.

Lemma page_alloc_spec_witness : 0 < 0x2800 /\
  ((page_alloc OFFSET head 0x2800 mem = Some (0, mem) /\ forall b, b ∈ free -> b.2 < PAGE_ALIGN 0x2800) \/
   (exists pa m' l', page_alloc OFFSET head 0x2800 mem = Some (pa, m') /\ pages_ok OFFSET head m' l' /\ 0 < pa /\ aligned (pa + OFFSET) /\
     (forall p, in_block p (pa + OFFSET, PAGE_ALIGN 0x2800) -> free_at free p) /\
     (forall p, free_at l' p <-> free_at free p /\ ~ in_block p (pa + OFFSET, PAGE_ALIGN 0x2800)))).
Proof. split; [lia|]. exact (page_alloc_spec OFFSET head offset_ok mem free 0x2800 pages eq_refl eq_refl). Defined.

Lemma page_alloc_free_witness : exists pa m1, page_alloc OFFSET head 0x1000 mem = Some (pa, m1) /\ pa <> 0 /\
  exists m2, page_free OFFSET head pa 0x1000 m1 = Some m2 /\ pages_ok OFFSET head m2 free.
Proof.
  destruct (page_alloc OFFSET head 0x1000 mem) as [[pa m1]|] eqn:E; [|vm_compute in E; discriminate].
  assert (pa = 0x1000) as Hpa by (vm_compute in E; congruence). assert (pa <> 0) as Hnz by (rewrite Hpa; discriminate).
  exists pa, m1. split; [reflexivity|]. split; [exact Hnz|].
  exact (page_alloc_free OFFSET head offset_ok mem free 0x1000 pa m1 pages eq_refl eq_refl E Hnz).
Defined.

Lemma page_init_spec_witness : rams_ok OFFSET head rams /\
  exists p l, page_init OFFSET head rams = Some p /\ pages_ok OFFSET head (ps_mem p) l /\
    forall x, free_at l x <-> (exists ram, ram ∈ rams /\ usable ram = true /\ in_block x (ram_block OFFSET ram)) /\
                              (forall ram, ram ∈ rams -> reserved ram = true -> ~ in_range x (ram_range OFFSET ram)).
Proof. split; [exact consistent|]. exact (page_init_spec OFFSET head offset_ok rams consistent). Defined.
End PageDemo.
