(* ===== verification/PageSource.v ===== *)
(** * PageSource: what the users of a page allocator rely on

    kmem.c takes pages from kpage.c, mmu.c and vm.c from page.c.  Their theorems
    are proved against the class [PageSource], the two calls, and the class
    [PageSourceLaws], their contract in terms of the set of pages that are
    handed out.  The allocator of page.c obeys the laws. *)
From stdpp Require Import base numbers gmap list.
From S2P Require Import Prelude Queue Page PageSpec.

Open Scope Z_scope.

(** The pages of a block. *)
Definition pages_of (a size : Z) : gset Z := list_to_set ((fun i => a + PAGE_SIZE * i) <$> seqZ 0 (size / PAGE_SIZE)).

Lemma elem_of_pages_of x a size : x ∈ pages_of a size <-> exists i, 0 <= i < size / PAGE_SIZE /\ x = a + PAGE_SIZE * i.
Proof.
  unfold pages_of. rewrite elem_of_list_to_set, list_elem_of_fmap. setoid_rewrite elem_of_seqZ. split; intros (i&?&?); exists i; split; done || lia.
Qed.

Lemma pages_of_one a : pages_of a PAGE_SIZE = {[a]}.
Proof. apply set_eq. intros x. rewrite elem_of_pages_of, elem_of_singleton. change (PAGE_SIZE / PAGE_SIZE) with 1. unfold PAGE_SIZE. split; [intros (i&?&->)|intros ->; exists 0]; lia. Qed.

Lemma PAGE_ALIGN_page : PAGE_ALIGN PAGE_SIZE = PAGE_SIZE.
Proof. done. Qed.

Lemma aligned_apart a b x : aligned a -> aligned b -> in_block x (a, PAGE_SIZE) -> in_block x (b, PAGE_SIZE) -> a = b.
Proof. unfold aligned, in_block, PAGE_SIZE. cbn. intros. Z.div_mod_to_equations. lia. Qed.

(** The bytes of a block are those of its pages. *)
Lemma block_pages x a size : aligned size -> in_block x (a, size) <-> exists p, p ∈ pages_of a size /\ in_block x (p, PAGE_SIZE).
Proof.
  intros Hs. unfold in_block, aligned in *. cbn. split.
  - intros Hx. exists (a + PAGE_SIZE * ((x - a) / PAGE_SIZE)). rewrite elem_of_pages_of. unfold PAGE_SIZE in *. split; [eexists; split; [|done]|]; Z.div_mod_to_equations; lia.
  - intros (p&(i&Hi&->)%elem_of_pages_of&Hx). unfold PAGE_SIZE in *. Z.div_mod_to_equations. lia.
Qed.

(** page_alloc(size) and page_free(addr, size), by physical address; 0 is NULL. *)
Class PageSource (P : Type) := {
  kp_alloc : Z -> P -> option (Z * P);
  kp_free : Z -> Z -> P -> option P;
}.

(** [kp_inv p own] says that the pages at the virtual addresses [own] are handed
    out.  They are aligned and clear of the kernel's static data; pages handed
    out are not handed out again before they are freed, and a block whose pages
    are all out can be given back. *)
Class PageSourceLaws (P : Type) `{PageSource P} (OFFSET : Z) (static : Z -> Prop) := {
  kp_inv : P -> gset Z -> Prop;
  kp_page : forall p own a, kp_inv p own -> a ∈ own ->
    aligned a /\ OFFSET < a /\ a + PAGE_SIZE < 2 ^ 32 /\ forall x, static x -> ~ in_block x (a, PAGE_SIZE);
  kp_alloc_ok : forall p own sz, kp_inv p own -> 0 < sz -> sz + PAGE_MASK < 2 ^ 32 -> exists r p', kp_alloc sz p = Some (r, p') /\
    ((r = 0 /\ p' = p) \/
     (r <> 0 /\ pages_of (r + OFFSET) (PAGE_ALIGN sz) ## own /\ kp_inv p' (pages_of (r + OFFSET) (PAGE_ALIGN sz) ∪ own)));
  kp_free_ok : forall p own a sz, kp_inv p own -> 0 < sz -> sz + PAGE_MASK < 2 ^ 32 -> pages_of a (PAGE_ALIGN sz) ⊆ own ->
    exists p', kp_free (a - OFFSET) sz p = Some p' /\ kp_inv p' (own ∖ pages_of a (PAGE_ALIGN sz));
}.

(** ** One page *)
Section One.
Context {P : Type} `{PageSource P} (OFFSET : Z) (static : Z -> Prop) `{!PageSourceLaws P OFFSET static}.

Lemma kp_alloc_page p own : kp_inv p own -> exists r p', kp_alloc PAGE_SIZE p = Some (r, p') /\
  ((r = 0 /\ p' = p) \/ (r <> 0 /\ r + OFFSET ∉ own /\ kp_inv p' ({[r + OFFSET]} ∪ own))).
Proof.
  intros HI. destruct (kp_alloc_ok p own PAGE_SIZE HI) as (r&p'&E&Hr); [done..|]. exists r, p'. split; [done|].
  rewrite PAGE_ALIGN_page, pages_of_one in Hr. destruct Hr as [?|(?&Hd&?)]; [by left|]. right. split_and!; [done| |done]. by apply disjoint_singleton_l.
Qed.
Lemma kp_free_page p own a : kp_inv p own -> a ∈ own -> exists p', kp_free (a - OFFSET) PAGE_SIZE p = Some p' /\ kp_inv p' (own ∖ {[a]}).
Proof.
  intros HI Ha. destruct (kp_free_ok p own a PAGE_SIZE HI) as (p'&E&Hp); [done..| |]; rewrite PAGE_ALIGN_page, pages_of_one in *; [by apply singleton_subseteq_l|].
  by exists p'.
Qed.
End One.

(** ** page.c obeys the laws *)
Section Source.
Context (OFFSET head : Z) (HO : 0 <= OFFSET) (static : Z -> Prop).

Definition page_source : PageSource pmem := {| kp_alloc := page_alloc OFFSET head; kp_free := page_free OFFSET head |}.
#[local] Existing Instance page_source.

(** The pages [own] and the static data are not free. *)
Definition page_own (m : pmem) (own : gset Z) : Prop := exists l, pages_ok OFFSET head m l /\
  (forall a, a ∈ own -> block_ok OFFSET head (a, PAGE_SIZE) /\ forall x, in_block x (a, PAGE_SIZE) -> ~ free_at l x /\ ~ static x) /\
  (forall x, static x -> ~ free_at l x).

Lemma page_law p own a : page_own p own -> a ∈ own ->
  aligned a /\ OFFSET < a /\ a + PAGE_SIZE < 2 ^ 32 /\ forall x, static x -> ~ in_block x (a, PAGE_SIZE).
Proof.
  intros (l&_&Hown&_) Ha. destruct (Hown a Ha) as [(B1&B2&_&_&B5&_) Hx]. split_and!; [done..|]. intros x Hs Hin. by destruct (Hx x Hin).
Qed.

Lemma page_block_ok a size : block_ok OFFSET head (a, size) -> forall b, b ∈ pages_of a size -> block_ok OFFSET head (b, PAGE_SIZE).
Proof.
  intros (B1&B2&B3&B4&B5&B6) b Hb. pose proof Hb as (i&Hi&->)%elem_of_pages_of. unfold block_ok. cbn [fst snd] in *. split_and!.
  6: { intros Hin. apply B6, block_pages; [done|]. eexists. split; [exact Hb|exact Hin]. }
  all: unfold aligned, PAGE_SIZE in *; Z.div_mod_to_equations; lia.
Qed.
Lemma pages_block_ok a size : 0 < size -> aligned size -> (forall b, b ∈ pages_of a size -> block_ok OFFSET head (b, PAGE_SIZE)) -> block_ok OFFSET head (a, size).
Proof.
  intros H0 Ha Hb. destruct (Hb a) as (B1&B2&_).
  { apply elem_of_pages_of. exists 0. unfold aligned, PAGE_SIZE in *. Z.div_mod_to_equations. lia. }
  destruct (Hb (a + PAGE_SIZE * (size / PAGE_SIZE - 1))) as (_&_&_&_&B5&_).
  { apply elem_of_pages_of. eexists. split; [|done]. unfold aligned, PAGE_SIZE in *. Z.div_mod_to_equations. lia. }
  unfold block_ok. cbn [fst snd] in *. split_and!; [done..| |].
  - unfold aligned, PAGE_SIZE in *. Z.div_mod_to_equations. lia.
  - intros (p&Hp&Hin)%block_pages; [|done]. by destruct (Hb p Hp) as (_&_&_&_&_&?).
Qed.

Lemma page_alloc_law p own sz : page_own p own -> 0 < sz -> sz + PAGE_MASK < 2 ^ 32 -> exists r p', kp_alloc sz p = Some (r, p') /\
  ((r = 0 /\ p' = p) \/
   (r <> 0 /\ pages_of (r + OFFSET) (PAGE_ALIGN sz) ## own /\ page_own p' (pages_of (r + OFFSET) (PAGE_ALIGN sz) ∪ own))).
Proof.
  intros (l&HP&Hown&Hst) H0 H1. pose proof (page_alloc_ok OFFSET head HO p l sz HP H0 H1) as Ha. destruct (PAGE_ALIGN_ok sz) as [Hal Hge]; [lia|done|].
  cbn [kp_alloc page_source]. set (size := PAGE_ALIGN sz) in *. destruct (take_fit size l) as [[a l']|] eqn:Et.
  2: { exists 0, p. split; [exact Ha|]. left. done. }
  destruct Ha as (p'&E&HP'&Hr). destruct HP as [_ W]. destruct (take_fit_ok OFFSET head size l a l' W Hal ltac:(lia) Et) as (_&A1&A2&A3&A4&A5&A6).
  exists (a - OFFSET), p'. split; [exact E|]. right. replace (a - OFFSET + OFFSET) with a by lia. split; [lia|].
  assert (block_ok OFFSET head (a, size)) as Hbo by (split_and!; cbn; (done || lia)). split.
  - intros b Hb Hin. destruct (Hown b Hin) as [_ Hx]. assert (in_block b (b, PAGE_SIZE)) as Hself by (unfold in_block, PAGE_SIZE; cbn; lia).
    destruct (Hx b Hself) as [Hn _]. apply Hn, A5, block_pages; [done|]. by exists b.
  - exists l'. split; [done|]. split; [intros b [Hb|Hb]%elem_of_union|intros x Hs Hf; apply A6 in Hf as [? _]; by apply (Hst x)].
    + split; [by apply (page_block_ok a size)|]. intros x Hx. assert (in_block x (a, size)) as Hx' by (apply block_pages; [done|by exists b]).
      split; [intros Hf; apply A6 in Hf as [_ ?]; done|]. intros Hs. by apply (Hst x Hs), A5.
    + destruct (Hown b Hb) as [Hbo' Hx]. split; [done|]. intros x Hin. destruct (Hx x Hin) as [Hn ?]. split; [|done]. intros Hf. apply A6 in Hf as [? _]. done.
Qed.

Lemma page_free_law p own a sz : page_own p own -> 0 < sz -> sz + PAGE_MASK < 2 ^ 32 -> pages_of a (PAGE_ALIGN sz) ⊆ own ->
  exists p', kp_free (a - OFFSET) sz p = Some p' /\ page_own p' (own ∖ pages_of a (PAGE_ALIGN sz)).
Proof.
  intros (l&HP&Hown&Hst) H0 H1 Hsub. pose proof HP as [_ W]. destruct (PAGE_ALIGN_ok sz) as [Hal Hge]; [lia|done|]. set (size := PAGE_ALIGN sz) in *.
  assert (block_ok OFFSET head (a, size)) as Hbo by (apply pages_block_ok; [lia|done|intros b Hb; by apply Hown, Hsub]).
  assert (forall x, in_block x (a, size) -> ~ free_at l x /\ ~ static x) as Hx by (intros x (b&Hb&Hin)%block_pages; [|done]; by apply (Hown b (Hsub b Hb))).
  assert (outside a size l) as Ho by (apply (outside_free_at OFFSET head); [done|lia|intros x Hin; by destruct (Hx x Hin)]).
  cbn [kp_free page_source]. destruct (page_free_ok OFFSET head HO p l (a - OFFSET) sz HP) as (p'&E&HP');
    replace (a - OFFSET + OFFSET) with a in * by lia; [exact Hbo|exact Ho|].
  exists p'. split; [exact E|]. exists (put_block a size l). split; [done|]. destruct (put_block_ok OFFSET head a size l W Hbo Ho) as (_&Hf&_). split.
  - intros b [Hb Hne]%elem_of_difference. destruct (Hown b Hb) as [Hbo' Hx']. split; [done|]. intros x Hin. destruct (Hx' x Hin) as [Hn Hs]. split; [|done].
    rewrite Hf. intros [(c&Hc&Hin')%block_pages|?]; [|done|done]. apply Hne. destruct (Hown c (Hsub c Hc)) as [(_&?&_) _], Hbo' as (_&?&_).
    by rewrite (aligned_apart b c x).
  - intros x Hs. rewrite Hf. intros [Hin|?]; [|by apply (Hst x)]. by destruct (Hx x Hin).
Qed.

Definition page_laws : PageSourceLaws pmem OFFSET static := {|
  kp_inv := page_own;
  kp_page := page_law;
  kp_alloc_ok := page_alloc_law;
  kp_free_ok := page_free_law;
|}.
End Source.
