(* ===== verification/Kmem.v ===== *)
(** * Kmem: the kernel memory allocator, sys/mem/kmem.c

    Pages taken from the page allocator are divided into blocks.  A page begins
    with a header, a block with another; the headers of one page are chained by
    [pg_next], free blocks are linked on 256 lists by size, the pages on one
    list.  The model keeps exactly the headers the C code keeps, at the
    addresses where it keeps them (offsets as on a 32-bit machine), and every
    C assignment is one update.  Reading a header that is not there, a failed
    ASSERT and a call of panic() are faults ([None]).

    The page allocator behind it is the interface of PageSource. *)
From stdpp Require Import base numbers gmap list.
From S2P Require Import Prelude Queue Page PageSource.

Open Scope Z_scope.

(** ** Headers *)

(** struct block_hdr and struct page_hdr; their [link] fields are nodes of the
    list memory, at offset 4. *)
Record block_hdr := mk_block_hdr { b_magic : Z; b_size : Z; pg_next : Z }.
Record page_hdr := mk_page_hdr { p_magic : Z; nallocs : Z }.
#[export] Instance block_hdr_eta : Settable block_hdr := fun x => mk_block_hdr (b_magic x) (b_size x) (pg_next x).
#[export] Instance page_hdr_eta : Settable page_hdr := fun x => mk_page_hdr (p_magic x) (nallocs x).

Definition LINK := 4.
Definition FIRST_BLK := 12.

Definition ALIGN_MASK := 15.
Definition ALLOC_ALIGN (n : Z) : Z := Z.ldiff (u32 (n + ALIGN_MASK)) ALIGN_MASK.
Definition ALLOC_MAGIC := 0xcafe.
Definition FREE_MAGIC := 0xdead.
Definition PAGE_MAGIC := 0xbeef.
Definition BLKHDR_SIZE := 16.
Definition PGHDR_SIZE := 28.
Definition MAX_ALLOC_SIZE := PAGE_SIZE - PGHDR_SIZE.
Definition MIN_BLOCK_SIZE := BLKHDR_SIZE + 16.
Definition MAX_BLOCK_SIZE := PAGE_SIZE - (PGHDR_SIZE - BLKHDR_SIZE).
Definition PAGE_TOP (n : Z) : Z := Z.ldiff n (PAGE_SIZE - 1).
Definition BLKIDX (size : Z) : Z := Z.shiftr size 4.
Definition NR_BLOCK_LIST := PAGE_SIZE / 16.

Definition u16 (z : Z) : Z := z mod 2 ^ 16.

Section Kmem.
Context {P : Type} `{PageSource P}.
(** The virtual address of physical 0, and the addresses of the two static variables. *)
Context (OFFSET free_blocks kmem_pages : Z).

Record kheap := mk_kheap { klinks : qmem; blks : gmap Z block_hdr; pgs : gmap Z page_hdr; source : P }.
#[export] Instance kheap_eta : Settable kheap := fun x => mk_kheap (klinks x) (blks x) (pgs x) (source x).

(** &free_blocks[i] *)
Definition free_head (i : Z) : Z := free_blocks + 8 * i.

(** Memory that becomes a list node holds junk at first. *)
Definition as_node (a : Z) (h : qmem) : qmem :=
  match h !! a with Some _ => h | None => <[a := mkqueue 0 0]> h end.

(** ** kmem_check *)

Definition assert (b : bool) : option unit := if b then Some () else None.

Fixpoint check_blocks (n : nat) (pg blk : Z) (hb : gmap Z block_hdr) : option unit :=
  if blk =? 0 then Some ()
  else
    match n with
    | O => None
    | S n =>
        _ ← assert (pg <? blk);
        _ ← assert (blk <? u32 (pg + MAX_BLOCK_SIZE));
        b ← hb !! blk;
        _ ← assert ((b_magic b =? ALLOC_MAGIC) || (b_magic b =? FREE_MAGIC));
        check_blocks n pg (pg_next b) hb
    end.

Definition check_page (h : kheap) (n : Z) : option unit :=
  let pg := n - LINK in
  _ ← assert (OFFSET <=? pg);
  p ← pgs h !! pg;
  _ ← assert (p_magic p =? PAGE_MAGIC);
  check_blocks (size (blks h)) pg (pg + FIRST_BLK) (blks h).

Fixpoint check_pages (fuel : nat) (n : Z) (h : kheap) : option unit :=
  if n =? kmem_pages then Some ()
  else
    match fuel with
    | O => None
    | S fuel => _ ← check_page h n; n ← get_next n (klinks h); check_pages fuel n h
    end.

Definition kmem_check (h : kheap) : option unit :=
  n ← QueueC.queue_first kmem_pages (klinks h); check_pages (size (klinks h)) n h.

(** ** Allocation *)

(** for (; i < NR_BLOCK_LIST; i++) if (!list_empty(&free_blocks[i])) break; [n]
    is the number of lists left. *)
Fixpoint find_list (n : nat) (i : Z) (h : qmem) : option (option Z) :=
  match n with
  | O => Some None
  | S n =>
      e ← QueueC.queue_empty (free_head i) h;
      if (e : bool) then find_list n (i + 1) h
      else n ← QueueC.queue_first (free_head i) h; Some (Some (n - LINK))
  end.

Definition block_find (size : Z) (h : qmem) : option (option Z) :=
  let i := Z.shiftr size 4 in find_list (Z.to_nat (NR_BLOCK_LIST - i)) i h.

(** A new page whose one block is free, and that block; nothing when there is
    no page. *)
Definition new_page (h : kheap) : option (option (Z * Z) * kheap) :=
  r ← kp_alloc PAGE_SIZE (source h);
  let (pa, p) := r : Z * P in
  let h := h <| source := p |> in
  if pa =? 0 then Some (None, h)
  else
    let pg := phys_to_virt OFFSET pa in
    let h := h <| pgs ::= <[pg := mk_page_hdr PAGE_MAGIC 0]> |> in
    l ← QueueC.list_insert kmem_pages (pg + LINK) (as_node (pg + LINK) (klinks h));
    let blk := pg + FIRST_BLK in
    let b := mk_block_hdr FREE_MAGIC MAX_BLOCK_SIZE 0 in
    Some (Some (blk, pg), h <| klinks := l |> <| blks ::= <[blk := b]> |>).

(** The block found on a free list and its page, or a new page. *)
Definition take_block (size : Z) (h : kheap) : option (option (Z * Z) * kheap) :=
  o ← block_find size (klinks h);
  match o with
  | Some blk => l ← QueueC.list_remove (blk + LINK) (klinks h); Some (Some (blk, PAGE_TOP blk), h <| klinks := l |>)
  | None => new_page h
  end.

(** if (blk->size - size >= MIN_BLOCK_SIZE): the rest becomes a free block. *)
Definition split_block (blk size : Z) (h : kheap) : option kheap :=
  b ← blks h !! blk;
  if MIN_BLOCK_SIZE <=? u32 (b_size b - size) then
    let newblk := blk + size in
    let rest := u16 (b_size b - size) in
    l ← QueueC.list_insert (free_head (BLKIDX rest)) (newblk + LINK) (as_node (newblk + LINK) (klinks h));
    Some (h <| klinks := l |>
            <| blks ::= fun hb => <[blk := b <| pg_next := newblk |> <| b_size := u16 size |>]>
                                  (<[newblk := mk_block_hdr FREE_MAGIC rest (pg_next b)]> hb) |>)
  else Some h.

Definition kmem_alloc (size : Z) (h : kheap) : option (Z * kheap) :=
  _ ← kmem_check h;
  let size := ALLOC_ALIGN (u32 (size + BLKHDR_SIZE)) in
  _ ← assert (negb (size =? 0) && (size <=? MAX_ALLOC_SIZE));
  r ← take_block size h;
  let (o, h) := r : option (Z * Z) * kheap in
  match o with
  | None => Some (0, h)
  | Some (blk, pg) =>
      p ← pgs h !! pg;
      b ← blks h !! blk;
      if negb (p_magic p =? PAGE_MAGIC) || negb (b_magic b =? FREE_MAGIC) then None
      else
        h ← split_block blk size h;
        b ← blks h !! blk;
        let h := h <| blks ::= <[blk := b <| b_magic := ALLOC_MAGIC |>]> |> in
        p ← pgs h !! pg;
        let h := h <| pgs ::= <[pg := p <| nallocs := u16 (nallocs p + 1) |>]> |> in
        Some (blk + BLKHDR_SIZE, h)
  end.

(** ** Release *)

(** for (blk = &(pg->first_blk); blk != NULL; blk = blk->pg_next) *)
Fixpoint drop_blocks (n : nat) (blk : Z) (h : kheap) : option kheap :=
  if blk =? 0 then Some h
  else
    match n with
    | O => None
    | S n =>
        l ← QueueC.list_remove (blk + LINK) (klinks h);
        b ← blks h !! blk;
        drop_blocks n (pg_next b) (h <| klinks := l |> <| blks ::= <[blk := b <| b_magic := 0 |>]> |>)
    end.

(** The page allocator owns the page from here on: nothing in it is a header. *)
Definition in_page {A} (pg : Z) (kv : Z * A) : bool := (pg <=? kv.1) && (kv.1 <? pg + PAGE_SIZE).
Definition forget (pg : Z) (h : kheap) : kheap :=
  h <| klinks ::= filter (fun kv => in_page pg kv = false) |>
    <| blks ::= filter (fun kv => in_page pg kv = false) |>
    <| pgs ::= filter (fun kv => in_page pg kv = false) |>.

Definition free_page (pg : Z) (h : kheap) : option kheap :=
  h ← drop_blocks (size (blks h)) (pg + FIRST_BLK) h;
  l ← QueueC.list_remove (pg + LINK) (klinks h);
  p ← pgs h !! pg;
  let h := h <| klinks := l |> <| pgs ::= <[pg := p <| p_magic := 0 |>]> |> in
  s ← kp_free (virt_to_phys OFFSET pg) PAGE_SIZE (source h);
  Some (forget pg (h <| source := s |>)).

Definition kmem_free (ptr : Z) (h : kheap) : option kheap :=
  _ ← assert (negb (ptr =? 0));
  _ ← kmem_check h;
  let blk := ptr - BLKHDR_SIZE in
  b ← blks h !! blk;
  if negb (b_magic b =? ALLOC_MAGIC) then None
  else
    let h := h <| blks ::= <[blk := b <| b_magic := FREE_MAGIC |>]> |> in
    l ← QueueC.list_insert (free_head (BLKIDX (b_size b))) (blk + LINK) (as_node (blk + LINK) (klinks h));
    let h := h <| klinks := l |> in
    let pg := PAGE_TOP blk in
    p ← pgs h !! pg;
    let n := u16 (nallocs p - 1) in
    let h := h <| pgs ::= <[pg := p <| nallocs := n |>]> |> in
    if n <=? 0 then free_page pg h else Some h.

(** ** kmem_init *)

Definition list_init (a : Z) (h : qmem) : qmem := <[a := mkqueue a a]> h.
Definition kmem_init (s : P) : kheap :=
  mk_kheap (foldl (fun h i => list_init (free_head (Z.of_nat i)) h) (list_init kmem_pages ∅) (seq 0 (Z.to_nat NR_BLOCK_LIST)))
    ∅ ∅ s.
End Kmem.
Arguments kheap : clear implicits.
Arguments mk_kheap {P}.
