(* ===== verification/KmemSpec.v ===== *)
(** * KmemSpec: the kernel memory allocator keeps its blocks apart

    The abstract state is the list of pages with the sizes of their blocks and
    which of them are in use; the headers and links of Kmem represent it.
    kmem_alloc() and kmem_free() are related to the blocks in use, against the
    laws of PageSource. *)
From stdpp Require Import base numbers gmap list.
From S2P Require Import Prelude Queue Page PageSpec PageSource Kmem.
Import QueueC.

Open Scope Z_scope.

(** ** Free lists and the page list *)
Section Links.
Context (free_blocks kmem_pages : Z).
Abbreviation free_head := (Kmem.free_head free_blocks).

Definition is_head (x : Z) : Prop := x = kmem_pages \/ exists i, 0 <= i < NR_BLOCK_LIST /\ x = free_head i.

(** The page list is [pn], and the free lists hold the blocks [B] (address and
    size), each on the list of its size. *)
Definition links_ok (h : qmem) (pn : list Z) (B : gset (Z * Z)) : Prop :=
  exists m, queues_rep ∅ h m /\ m !! kmem_pages = Some pn /\
    (forall i, 0 <= i < NR_BLOCK_LIST -> exists l, m !! free_head i = Some l /\
       forall x, x ∈ l <-> exists b, b ∈ B /\ x = b.1 + LINK /\ BLKIDX b.2 = i) /\
    (forall k, is_Some (m !! k) -> is_head k).

(** A list of the memory and its elements. *)
Lemma links_on_none (h : qmem) (pn : list Z) (B : gset (Z * Z)) (m : qmap) (x : Z) : queues_rep ∅ h m -> m !! kmem_pages = Some pn ->
  (forall i, 0 <= i < NR_BLOCK_LIST -> exists l, m !! free_head i = Some l /\
       forall x, x ∈ l <-> exists b, b ∈ B /\ x = b.1 + LINK /\ BLKIDX b.2 = i) ->
  (forall k, is_Some (m !! k) -> is_head k) ->
  ~ is_head x -> x ∉ pn -> (forall b, b ∈ B -> x <> b.1 + LINK) -> on_none x m.
Proof.
  intros HR Hp Hf Hd Hh Hx HB k l Ek. apply not_elem_of_cons. split.
  - intros ->. apply Hh, Hd. by eexists.
  - destruct (Hd k ltac:(by eexists)) as [->|(i&Hi&->)]; [congruence|].
    destruct (Hf i Hi) as (l'&El&Hl). rewrite Ek in El. injection El as <-. rewrite Hl. intros (b&Hb&E&_). by apply (HB b).
Qed.

Lemma as_node_get x a h : is_Some (h !! x) -> get_next x (as_node a h) = get_next x h /\ get_prev x (as_node a h) = get_prev x h.
Proof.
  unfold as_node, get_next, get_prev. intros [q Hq]. destruct (h !! a) eqn:E; [done|]. rewrite lookup_insert_ne; [done|congruence].
Qed.
Lemma as_node_mapped a h : is_Some (as_node a h !! a).
Proof. unfold as_node. destruct (h !! a) eqn:E; [by eexists|]. rewrite lookup_insert_eq. by eexists. Qed.

Lemma as_node_rep a h m : queues_rep ∅ h m -> queues_rep {[a]} (as_node a h) m.
Proof.
  intros [Hm Hr Hd]. split; [|intros head l E|done].
  - intros x ->%elem_of_singleton. apply as_node_mapped.
  - eapply queue_rep_ext; [|by apply Hr]. intros x Hx. apply as_node_get. by eapply queue_rep_mapped; [apply Hr|].
Qed.
Lemma queues_rep_nodes n h m : queues_rep n h m -> queues_rep ∅ h m.
Proof. intros [_ Hr Hd]. split; [set_solver|done..]. Qed.

Lemma free_head_inj i j : free_head i = free_head j -> i = j.
Proof. unfold Kmem.free_head. lia. Qed.

Context (heads_apart : forall i, 0 <= i < NR_BLOCK_LIST -> kmem_pages <> free_head i).

Lemma links_insert h pn B a s : links_ok h pn B -> ~ is_head (a + LINK) -> a + LINK ∉ pn -> (forall b, b ∈ B -> b.1 <> a) ->
  0 <= BLKIDX s < NR_BLOCK_LIST ->
  exists h', list_insert (free_head (BLKIDX s)) (a + LINK) (as_node (a + LINK) h) = Some h' /\ links_ok h' pn ({[(a, s)]} ∪ B).
Proof.
  intros (m&HR&Hp&Hf&Hd) Hh Hpn HB Hi. assert (on_none (a + LINK) m) as Hon.
  { eapply links_on_none; [done..|]. intros b Hb E. apply (HB b Hb). unfold LINK in *. lia. }
  destruct (Hf _ Hi) as (l&El&Hl).
  destruct (list_insert_refines {[a + LINK]} _ _ _ [] _ _ (as_node_rep (a + LINK) _ _ HR) El (proj2 (elem_of_singleton _ _) eq_refl) Hon) as (h'&E&HR').
  exists h'. split; [done|]. eexists. split; [by eapply queues_rep_nodes|]. split_and!.
  - rewrite lookup_insert_ne; [done|]. intros E'. by apply (heads_apart (BLKIDX s)).
  - intros i Hi'. destruct (decide (i = BLKIDX s)) as [->|Hne].
    + exists (a + LINK :: l). rewrite lookup_insert_eq. split; [done|]. intros x. rewrite elem_of_cons, Hl. split.
      * intros [->|(b&?&?&?)]; [exists (a, s)|exists b]; set_solver.
      * intros (b&[->%elem_of_singleton|?]%elem_of_union&->&?); [by left|right; by exists b].
    + destruct (Hf i Hi') as (l'&El'&Hl'). exists l'. rewrite lookup_insert_ne by (intros ?%free_head_inj; congruence). split; [done|].
      intros x. rewrite Hl'. split; intros (b&Hb&->&Hbi); exists b; split_and!; try done; [set_solver|].
      apply elem_of_union in Hb as [->%elem_of_singleton|?]; [|done]. by destruct Hne.
  - intros k [?|[_ ?]]%lookup_insert_is_Some; [|by apply Hd]. subst k. right. by exists (BLKIDX s).
Qed.

Lemma links_push_page h pn B x : links_ok h pn B -> ~ is_head x -> x ∉ pn -> (forall b, b ∈ B -> x <> b.1 + LINK) ->
  exists h', list_insert kmem_pages x (as_node x h) = Some h' /\ links_ok h' (x :: pn) B.
Proof.
  intros (m&HR&Hp&Hf&Hd) Hh Hpn HB. assert (on_none x m) as Hon by (by eapply links_on_none).
  destruct (list_insert_refines {[x]} _ _ _ [] _ _ (as_node_rep x _ _ HR) Hp (proj2 (elem_of_singleton _ _) eq_refl) Hon) as (h'&E&HR').
  exists h'. split; [done|]. eexists. split; [by eapply queues_rep_nodes|]. split_and!.
  - by rewrite lookup_insert_eq.
  - intros i Hi. destruct (Hf i Hi) as (l&El&Hl). exists l. rewrite lookup_insert_ne by (by apply heads_apart). done.
  - intros k [?|[_ ?]]%lookup_insert_is_Some; [|by apply Hd]. subst k. by left.
Qed.

Lemma links_remove h pn B a s : links_ok h pn B -> (a, s) ∈ B -> (forall b, b ∈ B -> b.1 = a -> b = (a, s)) -> 0 <= BLKIDX s < NR_BLOCK_LIST ->
  exists h', list_remove (a + LINK) h = Some h' /\ links_ok h' pn (B ∖ {[(a, s)]}).
Proof.
  intros (m&HR&Hp&Hf&Hd) Hin Hu Hi. destruct (Hf _ Hi) as (l&El&Hl).
  destruct (list_elem_of_split l (a + LINK)) as (l1&l2&->); [apply Hl; by exists (a, s)|].
  destruct (queue_remove_refines _ _ _ _ _ HR El l1 l2 (a + LINK) eq_refl) as (h'&E&HR').
  assert (a + LINK ∉ l1 ++ l2) as Hni.
  { destruct (rep_head _ _ _ _ _ HR El) as [[_ ND]%NoDup_cons _]. rewrite <- Permutation_middle in ND. by apply NoDup_cons in ND as [? _]. }
  exists h'. split; [done|]. eexists. split; [done|]. split_and!.
  - rewrite lookup_insert_ne; [done|]. intros E'. by apply (heads_apart (BLKIDX s)).
  - intros i Hi'. destruct (decide (i = BLKIDX s)) as [->|Hne].
    + exists (l1 ++ l2). rewrite lookup_insert_eq. split; [done|]. intros x.
      assert (x ∈ l1 ++ l2 <-> x ∈ l1 ++ a + LINK :: l2 /\ x <> a + LINK) as -> by set_solver. rewrite Hl. split.
      * intros [(b&Hb&->&Hbi) Hx]. exists b. split_and!; [|done..]. apply elem_of_difference. split; [done|]. intros ->%elem_of_singleton. done.
      * intros (b&[Hb Hne]%elem_of_difference&->&Hbi). split; [by exists b|]. intros Hx. apply Hne, elem_of_singleton, Hu; [done|unfold LINK in *; lia].
    + destruct (Hf i Hi') as (l'&El'&Hl'). exists l'. rewrite lookup_insert_ne by (intros ?%free_head_inj; congruence). split; [done|].
      intros x. rewrite Hl'. split; intros (b&Hb&->&Hbi); exists b; split_and!; try done; [|set_solver].
      apply elem_of_difference. split; [done|]. intros ->%elem_of_singleton. by destruct Hne.
  - intros k [?|[_ ?]]%lookup_insert_is_Some; [|by apply Hd]. subst k. right. by exists (BLKIDX s).
Qed.

Lemma links_drop_page h p1 x p2 B : links_ok h (p1 ++ x :: p2) B ->
  exists h', list_remove x h = Some h' /\ links_ok h' (p1 ++ p2) B.
Proof.
  intros (m&HR&Hp&Hf&Hd). destruct (queue_remove_refines _ _ _ _ _ HR Hp p1 p2 x eq_refl) as (h'&E&HR').
  exists h'. split; [done|]. eexists. split; [done|]. split_and!.
  - by rewrite lookup_insert_eq.
  - intros i Hi. destruct (Hf i Hi) as (l&El&Hl). exists l. rewrite lookup_insert_ne by (by apply heads_apart). done.
  - intros k [?|[_ ?]]%lookup_insert_is_Some; [|by apply Hd]. subst k. by left.
Qed.

(** Links are kept when memory that holds none of them is forgotten. *)
Lemma links_forget h pn B pg : links_ok h pn B -> (forall x, is_head x -> ~ in_block x (pg, PAGE_SIZE)) ->
  (forall x, x ∈ pn -> ~ in_block x (pg, PAGE_SIZE)) -> (forall b, b ∈ B -> ~ in_block (b.1 + LINK) (pg, PAGE_SIZE)) ->
  links_ok (filter (fun kv => in_page pg kv = false) h) pn B.
Proof.
  intros (m&HR&Hp&Hf&Hd) Hh Hpn HB. exists m. split; [|done]. destruct HR as [Hm Hr Hdj]. split; [set_solver| |done].
  intros head l E. eapply queue_rep_ext; [|by apply Hr]. intros x Hx.
  assert (~ in_block x (pg, PAGE_SIZE)) as Hout.
  { apply elem_of_cons in Hx as [->|Hx]; [apply Hh, Hd; by eexists|].
    destruct (Hd head ltac:(by eexists)) as [->|(i&Hi&->)]; [apply Hpn; congruence|].
    destruct (Hf i Hi) as (l'&El&Hl). rewrite E in El. injection El as <-. apply Hl in Hx as (b&?&->&_). by apply HB. }
  unfold get_next, get_prev. destruct (h !! x) as [q|] eqn:Eq.
  - rewrite (map_lookup_filter_Some_2 _ h x q); [done|done|]. unfold in_page, in_block in *. cbn in *.
    destruct (Z.leb_spec pg x), (Z.ltb_spec x (pg + PAGE_SIZE)); cbn; lia || done.
  - by rewrite (map_lookup_filter_None_2 _ h x) by (by left).
Qed.

(** block_find() answers with a block of the first list that is not empty. *)
Lemma find_list_ok n i h pn B : links_ok h pn B -> 0 <= i -> i + Z.of_nat n = NR_BLOCK_LIST ->
  exists o, find_list free_blocks n i h = Some o /\
    match o with
    | Some a => exists s, (a, s) ∈ B /\ i <= BLKIDX s
    | None => forall b, b ∈ B -> ~ (i <= BLKIDX b.2 < NR_BLOCK_LIST)
    end.
Proof.
  intros Hlk. pose proof Hlk as (m&HR&_&Hf&_). revert i. induction n as [|n IH]; intros i H0 Hn; cbn [find_list].
  { exists None. split; [done|]. intros b _. lia. }
  destruct (Hf i ltac:(lia)) as (l&El&Hl). destruct (rep_head _ _ _ _ _ HR El) as [ND Hs]. unfold queue_empty, queue_first.
  destruct l as [|x l]; cbn in Hs.
  - destruct Hs as [-> _]. cbn [mbind option_bind]. rewrite Z.eqb_refl.
    destruct (IH (i + 1) ltac:(lia) ltac:(lia)) as (o&E&Ho). exists o. split; [done|]. destruct o as [a|].
    + destruct Ho as (s&?&?). exists s. split; [done|lia].
    + intros b Hb Hi. destruct (decide (BLKIDX b.2 = i)) as [Hbi|?]; [|apply (Ho b Hb); lia].
      apply (not_elem_of_nil (b.1 + LINK)). apply Hl. by exists b.
  - destruct Hs as (->&_). cbn [mbind option_bind]. apply NoDup_cons in ND as [[Hx _]%not_elem_of_cons _].
    rewrite (proj2 (Z.eqb_neq x (free_head i))) by congruence.
    exists (Some (x - LINK)). split; [done|]. destruct (proj1 (Hl x) ltac:(by left)) as ([a s]&Hb&->&Hbi). cbn in *.
    replace (a + LINK - LINK) with a by lia. exists s. split; [done|lia].
Qed.
End Links.

(** ** Pages of blocks *)

(** The blocks of a page: size, and whether in use. *)
Abbreviation blist := (list (Z * bool)).
Definition apage : Type := Z * blist.

(** &pg->link *)
Definition page_node (p : apage) : Z := p.1 + LINK.
Definition magic (u : bool) : Z := if u then ALLOC_MAGIC else FREE_MAGIC.
Definition total (bl : blist) : Z := foldr (fun b t => b.1 + t) 0 bl.
Definition used (bl : blist) : Z := foldr (fun b t => Z.b2z b.2 + t) 0 bl.

(** The headers of blocks laid out from [a], where more follow and where none do. *)
Fixpoint lay (a : Z) (bl : blist) : list (Z * block_hdr) :=
  match bl with [] => [] | (s, u) :: bl => (a, mk_block_hdr (magic u) s (a + s)) :: lay (a + s) bl end.
Definition next_of (a : Z) (bl : blist) : Z := match bl with [] => 0 | _ => a end.
Fixpoint layout (a : Z) (bl : blist) : list (Z * block_hdr) :=
  match bl with [] => [] | (s, u) :: bl => (a, mk_block_hdr (magic u) s (next_of (a + s) bl)) :: layout (a + s) bl end.

Definition pblocks (p : apage) : list (Z * block_hdr) := layout (p.1 + FIRST_BLK) p.2.
Definition all_blocks (pages : list apage) : list (Z * block_hdr) := pages ≫= pblocks.

(** Of a list of headers, the blocks in use and the free ones that are not in [out]. *)
Definition live_of (bs : list (Z * block_hdr)) : list (Z * Z) :=
  (fun b => (b.1, b_size b.2)) <$> filter (fun b => b_magic b.2 = ALLOC_MAGIC) bs.
Definition free_of (out : gset Z) (bs : list (Z * block_hdr)) : gset (Z * Z) :=
  list_to_set ((fun b => (b.1, b_size b.2)) <$> filter (fun b => b_magic b.2 = FREE_MAGIC /\ b.1 ∉ out) bs).
Definition live (pages : list apage) : list (Z * Z) := live_of (all_blocks pages).

Record apage_wf (p : apage) : Prop := {
  aw_total : total p.2 = MAX_BLOCK_SIZE;
  aw_sizes : Forall (fun b => BLKHDR_SIZE <= b.1) p.2;
}.

Lemma layout_app a bl1 x bl2 : layout a (bl1 ++ x :: bl2) = lay a bl1 ++ layout (a + total bl1) (x :: bl2).
Proof.
  revert a. induction bl1 as [|[s u] bl1 IH]; intros a; cbn [app lay layout total foldr fst]; [by rewrite Z.add_0_r|].
  rewrite IH. fold (total bl1). rewrite <- Z.add_assoc. f_equal. f_equal. f_equal. by destruct bl1.
Qed.

Lemma total_app bl1 bl2 : total (bl1 ++ bl2) = total bl1 + total bl2.
Proof. induction bl1 as [|[s u] bl1 IH]; cbn; [done|]. fold (total (bl1 ++ bl2)) (total bl1). lia. Qed.
Lemma used_app bl1 bl2 : used (bl1 ++ bl2) = used bl1 + used bl2.
Proof. induction bl1 as [|[s u] bl1 IH]; cbn; [done|]. fold (used (bl1 ++ bl2)) (used bl1). lia. Qed.
Lemma total_nonneg bl : Forall (fun b => BLKHDR_SIZE <= b.1) bl -> BLKHDR_SIZE * Z.of_nat (length bl) <= total bl.
Proof. induction 1 as [|[s u] bl Hs _ IH]; cbn in *; [done|]. fold (total bl). unfold BLKHDR_SIZE in *. lia. Qed.
Lemma used_bounds bl : 0 <= used bl <= Z.of_nat (length bl).
Proof. induction bl as [|[s u] bl IH]; cbn; [lia|]. fold (used bl). destruct u; cbn; lia. Qed.

(** Every header lies within the page, with all its bytes. *)
Lemma lay_range a bl b : Forall (fun b => BLKHDR_SIZE <= b.1) bl -> b ∈ lay a bl -> a <= b.1 /\ b.1 + BLKHDR_SIZE <= a + total bl.
Proof.
  intros F. revert a. induction F as [|[s u] bl Hs F IH]; intros a; cbn; [intros ?%elem_of_nil; done|].
  pose proof (total_nonneg _ F). fold (total bl). unfold BLKHDR_SIZE in *. cbn in Hs. intros [->|Hb]%elem_of_cons; cbn; [lia|]. specialize (IH _ Hb). lia.
Qed.
Lemma layout_range a bl b : Forall (fun b => BLKHDR_SIZE <= b.1) bl -> b ∈ layout a bl -> a <= b.1 /\ b.1 + b_size b.2 <= a + total bl /\ BLKHDR_SIZE <= b_size b.2.
Proof.
  intros F. revert a. induction F as [|[s u] bl Hs F IH]; intros a; cbn; [intros ?%elem_of_nil; done|].
  pose proof (total_nonneg _ F). fold (total bl). unfold BLKHDR_SIZE in *. cbn in Hs. intros [->|Hb]%elem_of_cons; cbn; [lia|]. specialize (IH _ Hb). lia.
Qed.

Lemma layout_NoDup a bl : Forall (fun b => BLKHDR_SIZE <= b.1) bl -> NoDup (layout a bl).*1.
Proof.
  intros F. revert a. induction F as [|[s u] bl Hs F IH]; intros a; cbn; constructor; [|by apply IH].
  intros (b&Ea&Hb)%list_elem_of_fmap. destruct (layout_range _ _ _ F Hb) as [? _]. unfold BLKHDR_SIZE in *. cbn in *. lia.
Qed.

(** The bytes of two blocks of one page do not meet. *)
Lemma layout_disjoint a bl b c x : Forall (fun b => BLKHDR_SIZE <= b.1) bl -> b ∈ layout a bl -> c ∈ layout a bl ->
  in_block x (b.1, b_size b.2) -> in_block x (c.1, b_size c.2) -> b = c.
Proof.
  intros F. revert a. induction F as [|[s u] bl Hs F IH]; intros a; cbn; [intros ?%elem_of_nil; done|]. unfold in_block in *. cbn.
  intros [->|Hb]%elem_of_cons [->|Hc]%elem_of_cons H1 H2; cbn in *; [done|..|by eapply IH].
  - destruct (layout_range _ _ _ F Hc) as (?&?&?). lia.
  - destruct (layout_range _ _ _ F Hb) as (?&?&?). lia.
Qed.

Lemma layout_magic a bl b : b ∈ layout a bl -> b_magic b.2 = ALLOC_MAGIC \/ b_magic b.2 = FREE_MAGIC.
Proof.
  revert a. induction bl as [|[s u] bl IH]; intros a; cbn; [intros ?%elem_of_nil; done|].
  intros [->|Hb]%elem_of_cons; [destruct u; auto|by eapply IH].
Qed.

Lemma live_of_elem b bs : b ∈ live_of bs <-> exists hd, (b.1, hd) ∈ bs /\ b_magic hd = ALLOC_MAGIC /\ b_size hd = b.2.
Proof.
  unfold live_of. rewrite list_elem_of_fmap. setoid_rewrite list_elem_of_filter. split.
  - intros ([a hd]&->&?&?). by exists hd.
  - intros (hd&?&?&?). exists (b.1, hd). destruct b; cbn in *. by subst.
Qed.
Lemma free_of_elem out b bs : b ∈ free_of out bs <-> exists hd, (b.1, hd) ∈ bs /\ b_magic hd = FREE_MAGIC /\ b_size hd = b.2 /\ b.1 ∉ out.
Proof.
  unfold free_of. rewrite elem_of_list_to_set, list_elem_of_fmap. setoid_rewrite list_elem_of_filter. split.
  - intros ([a hd]&->&[??]&?). by exists hd.
  - intros (hd&?&?&?&?). exists (b.1, hd). destruct b; cbn in *. by subst.
Qed.

Lemma live_of_app bs cs : live_of (bs ++ cs) = live_of bs ++ live_of cs.
Proof. unfold live_of. by rewrite filter_app, fmap_app. Qed.
Lemma live_of_used a s n bs : live_of ((a, mk_block_hdr ALLOC_MAGIC s n) :: bs) = (a, s) :: live_of bs.
Proof. done. Qed.
Lemma live_of_free a s n bs : live_of ((a, mk_block_hdr FREE_MAGIC s n) :: bs) = live_of bs.
Proof. done. Qed.

Lemma all_blocks_elem pages b : b ∈ all_blocks pages <-> exists p, p ∈ pages /\ b ∈ pblocks p.
Proof. unfold all_blocks. rewrite list_elem_of_bind. naive_solver. Qed.

(** One block of a list of pages and what surrounds it. *)
Lemma all_blocks_split ps1 a bl1 s u bl2 ps2 : let A := a + FIRST_BLK + total bl1 in
  all_blocks (ps1 ++ (a, bl1 ++ (s, u) :: bl2) :: ps2) =
  (all_blocks ps1 ++ lay (a + FIRST_BLK) bl1) ++ (A, mk_block_hdr (magic u) s (next_of (A + s) bl2)) :: layout (A + s) bl2 ++ all_blocks ps2.
Proof.
  cbv zeta. unfold all_blocks. rewrite bind_app. cbn [mbind list_bind]. unfold pblocks at 2. cbn [fst snd]. rewrite layout_app. cbn [layout].
  by rewrite <- !app_assoc.
Qed.

Lemma layout_locate a bl b : b ∈ layout a bl -> exists bl1 s u bl2, bl = bl1 ++ (s, u) :: bl2 /\
  b = (a + total bl1, mk_block_hdr (magic u) s (next_of (a + total bl1 + s) bl2)).
Proof.
  revert a. induction bl as [|[s u] bl IH]; intros a; cbn; [intros ?%elem_of_nil; done|]. intros [->|Hb]%elem_of_cons.
  - exists [], s, u, bl. cbn. by rewrite Z.add_0_r.
  - destruct (IH _ Hb) as (bl1&s'&u'&bl2&->&->). exists ((s, u) :: bl1), s', u', bl2. cbn. fold (total bl1). by rewrite !Z.add_assoc.
Qed.
Lemma locate pages b : b ∈ all_blocks pages -> exists ps1 a bl1 s u bl2 ps2, pages = ps1 ++ (a, bl1 ++ (s, u) :: bl2) :: ps2 /\
  b = (a + FIRST_BLK + total bl1, mk_block_hdr (magic u) s (next_of (a + FIRST_BLK + total bl1 + s) bl2)).
Proof.
  intros ([a bl]&(ps1&ps2&->)%list_elem_of_split&Hb)%all_blocks_elem.
  destruct (layout_locate _ _ _ Hb) as (bl1&s&u&bl2&Ebl&->). cbn in Ebl |- *. subst bl. by exists ps1, a, bl1, s, u, bl2, ps2.
Qed.

Record pages_wf (pages : list apage) : Prop := {
  pw_nodup : NoDup pages.*1;
  pw_aligned : forall p, p ∈ pages -> aligned p.1 /\ 0 < p.1 /\ p.1 + PAGE_SIZE < 2 ^ 32;
  pw_blocks : forall p, p ∈ pages -> apage_wf p;
}.

Section Wf.
Context (pages : list apage) (W : pages_wf pages).

Lemma page_unique p q : p ∈ pages -> q ∈ pages -> p.1 = q.1 -> p = q.
Proof.
  destruct W as [ND _ _]. intros [i Hi]%list_elem_of_lookup [j Hj]%list_elem_of_lookup E.
  assert (i = j) as ->; [|congruence]. eapply (NoDup_lookup _ i j p.1); [exact ND|by rewrite list_lookup_fmap, Hi|by rewrite list_lookup_fmap, Hj, E].
Qed.

Lemma pblocks_range p b : p ∈ pages -> b ∈ pblocks p ->
  p.1 + FIRST_BLK <= b.1 /\ b.1 + b_size b.2 <= p.1 + PAGE_SIZE /\ BLKHDR_SIZE <= b_size b.2.
Proof.
  intros Hp Hb. destruct (pw_blocks _ W p Hp) as [Ht Hs]. destruct (layout_range _ _ _ Hs Hb) as (?&?&?). rewrite Ht in *.
  unfold MAX_BLOCK_SIZE, FIRST_BLK, PGHDR_SIZE, BLKHDR_SIZE in *. lia.
Qed.

Lemma block_page p b x : p ∈ pages -> b ∈ pblocks p -> in_block x (b.1, b_size b.2) -> in_block x (p.1, PAGE_SIZE).
Proof. intros Hp Hb. destruct (pblocks_range p b Hp Hb) as (?&?&?). unfold in_block, FIRST_BLK in *. cbn. lia. Qed.

Lemma pages_apart p q x : p ∈ pages -> q ∈ pages -> in_block x (p.1, PAGE_SIZE) -> in_block x (q.1, PAGE_SIZE) -> p = q.
Proof.
  intros Hp Hq H1 H2. apply page_unique; [done..|]. destruct (pw_aligned _ W p Hp) as [? _], (pw_aligned _ W q Hq) as [? _].
  by eapply aligned_apart.
Qed.

(** The bytes of different blocks do not meet. *)
Lemma blocks_apart b c x : b ∈ all_blocks pages -> c ∈ all_blocks pages ->
  in_block x (b.1, b_size b.2) -> in_block x (c.1, b_size c.2) -> b = c.
Proof.
  intros (p&Hp&Hb)%all_blocks_elem (q&Hq&Hc)%all_blocks_elem H1 H2.
  assert (p = q) as <- by (eapply (pages_apart p q x); [done..|by eapply block_page|by eapply block_page]).
  destruct (pw_blocks _ W p Hp) as [_ Hs]. by eapply layout_disjoint.
Qed.

Lemma block_self b : b ∈ all_blocks pages -> in_block b.1 (b.1, b_size b.2).
Proof.
  intros (p&Hp&Hb)%all_blocks_elem. destruct (pblocks_range p b Hp Hb) as (?&?&?). unfold in_block, BLKHDR_SIZE in *. cbn. lia.
Qed.

Lemma block_unique b c : b ∈ all_blocks pages -> c ∈ all_blocks pages -> b.1 = c.1 -> b = c.
Proof. intros Hb Hc E. eapply (blocks_apart b c b.1); [done..|by apply block_self|rewrite E; by apply block_self]. Qed.

Lemma PAGE_TOP_ok p b : p ∈ pages -> b ∈ pblocks p -> PAGE_TOP b.1 = p.1.
Proof.
  intros Hp Hb. destruct (pblocks_range p b Hp Hb) as (?&?&?). destruct (pw_aligned _ W p Hp) as (?&?&?). unfold PAGE_TOP.
  change (PAGE_SIZE - 1) with PAGE_MASK. rewrite ldiff_mask. unfold aligned, PAGE_SIZE, FIRST_BLK, BLKHDR_SIZE in *. Z.div_mod_to_equations. lia.
Qed.
End Wf.

Lemma elem_mid {A} (l1 : list A) x l2 : x ∈ l1 ++ x :: l2.
Proof. apply elem_of_app. right. by left. Qed.

Lemma pages_wf_cons p pages : pages_wf (p :: pages) -> pages_wf pages.
Proof. intros [[_ ND]%NoDup_cons Ha Hb]. split; [done|..]; intros q Hq; [apply Ha|apply Hb]; by right. Qed.

Lemma all_NoDup pages : pages_wf pages -> NoDup (all_blocks pages).*1.
Proof.
  induction pages as [|p pages IH]; intros W; [constructor|]. unfold all_blocks. cbn [mbind list_bind]. rewrite fmap_app. apply NoDup_app. split_and!.
  - destruct (pw_blocks _ W p ltac:(by left)) as [_ Hs]. by apply layout_NoDup.
  - intros a (b&->&Hb)%list_elem_of_fmap (c&E&Hc)%list_elem_of_fmap. apply (all_blocks_elem pages) in Hc as (q&Hq&Hc).
    assert (p = q) as <-.
    { apply (pages_apart _ W p q b.1); [by left|by right|..].
      - eapply block_page; [exact W|by left|done|]. apply (block_self _ W). apply all_blocks_elem. exists p. split; [by left|done].
      - eapply block_page; [exact W|by right|done|]. rewrite E. apply (block_self _ W). apply all_blocks_elem. exists q. split; [by right|done]. }
    pose proof (pw_nodup _ W) as [Hp _]%NoDup_cons. apply Hp. by apply list_elem_of_fmap_2.
  - by apply IH, pages_wf_cons with p.
Qed.

(** One header in a list with distinct addresses is replaced. *)
Lemma headers_update (hb : gmap Z block_hdr) C D A x : NoDup (C ++ (A, x) :: D).*1 ->
  (forall b, b ∈ C ++ D -> hb !! b.1 = Some b.2) -> forall b, b ∈ C ++ (A, x) :: D -> <[A := x]> hb !! b.1 = Some b.2.
Proof.
  intros ND Hb b Hin. rewrite fmap_app, fmap_cons, <- Permutation_middle in ND. apply NoDup_cons in ND as [HA _]. cbn in HA.
  apply elem_of_app in Hin as [Hin|[->|Hin]%elem_of_cons].
  2: cbn; by rewrite lookup_insert_eq.
  all: rewrite lookup_insert_ne; [apply Hb; set_solver|]; intros ->; apply HA; rewrite <- fmap_app; apply list_elem_of_fmap_2; set_solver.
Qed.

(** ** The representation *)
Section Spec.
Context {P : Type} `{PageSource P} (OFFSET : Z) (static : Z -> Prop) `{!PageSourceLaws P OFFSET static}.
Context (free_blocks kmem_pages : Z).
Abbreviation free_head := (Kmem.free_head free_blocks).
Context (HO : 0 <= OFFSET) (heads_apart : forall i, 0 <= i < NR_BLOCK_LIST -> kmem_pages <> free_head i).
Context (heads_static : forall x, is_head free_blocks kmem_pages x -> static x).

(** The memory holds the pages; the blocks [out] are free but on no list. *)
Record kmem_rep (out : gset Z) (h : kheap P) (pages : list apage) : Prop := {
  kr_own : kp_inv (source h) (list_to_set pages.*1);
  kr_wf : pages_wf pages;
  kr_pgs : forall p, p ∈ pages -> pgs h !! p.1 = Some (mk_page_hdr PAGE_MAGIC (used p.2));
  kr_blks : forall b, b ∈ all_blocks pages -> blks h !! b.1 = Some b.2;
  kr_links : links_ok free_blocks kmem_pages (klinks h) (page_node <$> pages) (free_of out (all_blocks pages));
}.

(** Between calls, every free block is on its list and every page has a block
    in use. *)
Definition kmem_ok (h : kheap P) (pages : list apage) : Prop :=
  kmem_rep ∅ h pages /\ forall p, p ∈ pages -> 0 < used p.2.

Section Rep.
Context (out : gset Z) (h : kheap P) (pages : list apage) (R : kmem_rep out h pages).

Lemma rep_page p x : p ∈ pages -> is_head free_blocks kmem_pages x -> ~ in_block x (p.1, PAGE_SIZE).
Proof.
  intros Hp Hx. destruct (kp_page _ _ p.1 (kr_own _ _ _ R)) as (_&_&_&Hs); [|by apply Hs, heads_static].
  apply elem_of_list_to_set, list_elem_of_fmap. by exists p.
Qed.

Lemma block_link b : b ∈ all_blocks pages ->
  ~ is_head free_blocks kmem_pages (b.1 + LINK) /\ b.1 + LINK ∉ page_node <$> pages.
Proof.
  intros (p&Hp&Hb)%all_blocks_elem. destruct (pblocks_range _ (kr_wf _ _ _ R) p b Hp Hb) as (?&?&?). split.
  - intros Hh. apply (rep_page p _ Hp Hh). unfold in_block, LINK, FIRST_BLK, BLKHDR_SIZE in *. cbn. lia.
  - intros (q&E&Hq)%list_elem_of_fmap. unfold page_node in E. assert (p = q) as <-.
    { apply (pages_apart _ (kr_wf _ _ _ R) p q b.1); [done..| |]; unfold in_block, LINK, FIRST_BLK, BLKHDR_SIZE, PAGE_SIZE in *; cbn; lia. }
    unfold FIRST_BLK in *. lia.
Qed.

Lemma block_idx b : b ∈ all_blocks pages -> 0 <= BLKIDX (b_size b.2) < NR_BLOCK_LIST.
Proof.
  intros (p&Hp&Hb)%all_blocks_elem. destruct (pblocks_range _ (kr_wf _ _ _ R) p b Hp Hb) as (?&?&?). unfold BLKIDX, NR_BLOCK_LIST, FIRST_BLK, BLKHDR_SIZE, PAGE_SIZE in *.
  rewrite Z.shiftr_div_pow2 by lia. change (4096 / 16) with 256. change (2 ^ 4) with 16. Z.div_mod_to_equations. lia.
Qed.
End Rep.

(** *** kmem_check finds nothing *)

Lemma check_blocks_ok n pg a bl hb : (forall b, b ∈ layout a bl -> hb !! b.1 = Some b.2) -> Forall (fun b => BLKHDR_SIZE <= b.1) bl ->
  0 < pg < a -> a + total bl = pg + PAGE_SIZE -> pg + PAGE_SIZE < 2 ^ 32 -> (length bl <= n)%nat -> check_blocks n pg (next_of a bl) hb = Some ().
Proof.
  intros Hb F. revert n a Hb. induction F as [|[s u] bl Hs F IH]; intros n a Hb Ha Ht Hp Hn; [by destruct n|].
  destruct n as [|n]; cbn [length] in Hn; [lia|]. cbn [next_of check_blocks total foldr fst] in *. fold (total bl) in Ht.
  pose proof (total_nonneg _ F). unfold BLKHDR_SIZE in *. rewrite (proj2 (Z.eqb_neq a 0)) by lia. rewrite (proj2 (Z.ltb_lt pg a)) by lia. cbn [assert mbind option_bind].
  rewrite u32_small by (unfold MAX_BLOCK_SIZE, PGHDR_SIZE, BLKHDR_SIZE, PAGE_SIZE in *; lia).
  rewrite (proj2 (Z.ltb_lt a _)) by (unfold MAX_BLOCK_SIZE, PGHDR_SIZE, BLKHDR_SIZE, PAGE_SIZE in *; lia). cbn [assert mbind option_bind].
  pose proof (Hb (a, mk_block_hdr (magic u) s (next_of (a + s) bl)) ltac:(by left)) as E. cbn [fst snd] in E. rewrite E. cbn [mbind option_bind b_magic pg_next].
  replace (_ || _) with true by (by destruct u). cbn [assert mbind option_bind]. apply IH; [intros b ?; apply Hb; by right|lia..].
Qed.

Lemma check_page_ok out h pages p : kmem_rep out h pages -> p ∈ pages -> check_page OFFSET h (p.1 + LINK) = Some ().
Proof.
  intros R Hp. unfold check_page. replace (p.1 + LINK - LINK) with p.1 by lia.
  destruct (kp_page _ _ p.1 (kr_own _ _ _ R)) as (_&Hlo&Hhi&_); [apply elem_of_list_to_set, list_elem_of_fmap; by exists p|].
  rewrite (proj2 (Z.leb_le OFFSET p.1)) by lia. cbn [assert mbind option_bind]. rewrite (kr_pgs _ _ _ R p Hp). cbn [mbind option_bind p_magic].
  rewrite Z.eqb_refl. cbn [assert mbind option_bind]. destruct (pw_blocks _ (kr_wf _ _ _ R) p Hp) as [Ht Hs].
  assert (forall b, b ∈ pblocks p -> blks h !! b.1 = Some b.2) as Hb by (intros b Hb; apply (kr_blks _ _ _ R), all_blocks_elem; by exists p).
  replace (p.1 + FIRST_BLK) with (next_of (p.1 + FIRST_BLK) p.2).
  2: { destruct (p.2); [cbn in Ht; unfold MAX_BLOCK_SIZE, PGHDR_SIZE, BLKHDR_SIZE, PAGE_SIZE in Ht; lia|done]. }
  apply check_blocks_ok; [exact Hb|exact Hs|unfold FIRST_BLK; lia| |done|].
  { rewrite Ht. unfold FIRST_BLK, MAX_BLOCK_SIZE, PGHDR_SIZE, BLKHDR_SIZE. lia. }
  replace (length p.2) with (length (pblocks p).*1).
  { apply mapped_size; [by apply layout_NoDup|]. intros x (b&->&?)%list_elem_of_fmap. rewrite (Hb b) by done. by eexists. }
  rewrite length_fmap. unfold pblocks. generalize (p.1 + FIRST_BLK). clear. generalize p.2 as bl. clear. intros bl.
  induction bl as [|[s u] bl IH]; intros a; cbn; [done|]. by rewrite IH.
Qed.

Lemma check_pages_ok (h : kheap P) : forall l n fuel, seg (klinks h) n l kmem_pages -> kmem_pages ∉ n :: l ->
  (forall x, x ∈ n :: l -> check_page OFFSET h x = Some ()) -> (length l < fuel)%nat -> check_pages OFFSET kmem_pages fuel n h = Some ().
Proof.
  induction l as [|y l IH]; intros n [|fuel] Hs Hk Hc Hf; cbn [length] in Hf; try lia; cbn [check_pages];
    (rewrite (proj2 (Z.eqb_neq n kmem_pages)) by set_solver); rewrite Hc by (by left); cbn [mbind option_bind].
  - destruct Hs as [-> _]. cbn [mbind option_bind]. destruct fuel; cbn [check_pages]; by rewrite Z.eqb_refl.
  - destruct Hs as (->&_&Hs). cbn [mbind option_bind]. apply IH; [done|set_solver|set_solver|lia].
Qed.

Lemma kmem_check_ok out h pages : kmem_rep out h pages -> kmem_check OFFSET kmem_pages h = Some ().
Proof.
  intros R. pose proof (kr_links _ _ _ R) as (m&HR&Hp&_). pose proof (rep_head _ _ _ _ _ HR Hp) as [ND Hs]. unfold kmem_check, queue_first.
  assert (length (kmem_pages :: (page_node <$> pages)) <= size (klinks h))%nat as Hsz.
  { apply mapped_size; [done|]. intros x Hx. eapply rep_head_mapped; [exact HR|exact Hp|done]. }
  destruct pages as [|p pages]; cbn in Hs.
  - destruct Hs as [-> _]. cbn [mbind option_bind]. destruct (size _); cbn [check_pages]; by rewrite Z.eqb_refl.
  - destruct Hs as (->&_&Hs). cbn [mbind option_bind]. apply NoDup_cons in ND as [Hk _].
    eapply check_pages_ok; [exact Hs|exact Hk| |cbn in Hsz; lia]. intros x Hx.
    change (page_node p :: _) with (page_node <$> p :: pages) in Hx.
    apply list_elem_of_fmap in Hx as (q&->&Hq). by apply (check_page_ok out h (p :: pages) q).
Qed.

(** *** Taking a free block *)

Lemma take_found h pages a s : kmem_rep ∅ h pages -> (a, s) ∈ free_of ∅ (all_blocks pages) ->
  exists l, list_remove (a + LINK) (klinks h) = Some l /\ kmem_rep {[a]} (h <| klinks := l |>) pages.
Proof.
  intros R Ha. pose proof Ha as (hd&Hin&Hm&Hs&_)%free_of_elem. cbn [fst snd] in *.
  destruct (links_remove _ _ heads_apart _ _ _ a s (kr_links _ _ _ R) Ha) as (l&E&HL).
  { intros b (hd'&Hin'&_&Hs'&_)%free_of_elem Eb. rewrite Eb in Hin'. pose proof (block_unique _ (kr_wf _ _ _ R) _ _ Hin Hin' eq_refl) as [= <-].
    destruct b as [x y]. cbn in *. congruence. }
  { subst s. by apply (block_idx ∅ h pages R (a, hd)). }
  exists l. split; [done|]. destruct R as [R1 R2 R3 R4 _]. split; try done. cbn [klinks set].
  replace (free_of {[a]} _) with (free_of ∅ (all_blocks pages) ∖ {[(a, s)]}); [exact HL|]. apply set_eq. intros [x y].
  rewrite elem_of_difference, !free_of_elem, elem_of_singleton. cbn. split.
  - intros [(hd'&?&?&?&_) Hne]. exists hd'. split_and!; [done..|]. intros ->%elem_of_singleton. apply Hne.
    pose proof (block_unique _ R2 (a, hd') (a, hd) ltac:(done) ltac:(done) eq_refl). congruence.
  - intros (hd'&?&?&?&Hne). split; [exists hd'; set_solver|]. intros [= -> ->]. set_solver.
Qed.

Lemma new_page_wf pages pg : pages_wf pages -> pg ∉ pages.*1 -> aligned pg -> 0 < pg -> pg + PAGE_SIZE < 2 ^ 32 ->
  pages_wf ((pg, [(MAX_BLOCK_SIZE, false)]) :: pages).
Proof.
  intros [ND Ha Hb] Hni H1 H2 H3. split; [by constructor|..]; intros p [->|Hp]%elem_of_cons; [done|by apply Ha| |by apply Hb].
  split; [done|]. constructor; [|constructor]. done.
Qed.

Lemma new_page_ok h pages : kmem_rep ∅ h pages ->
  exists o h', new_page OFFSET kmem_pages h = Some (o, h') /\
    match o with
    | None => kmem_rep ∅ h' pages
    | Some (blk, pg) => blk = pg + FIRST_BLK /\ kmem_rep {[blk]} h' ((pg, [(MAX_BLOCK_SIZE, false)]) :: pages)
    end.
Proof.
  intros R. unfold new_page. destruct (kp_alloc_page OFFSET static _ _ (kr_own _ _ _ R)) as (r&s&E&[[-> ->]|(Hr&Hni&Hi)]); rewrite E; cbn [mbind option_bind].
  { rewrite Z.eqb_refl. eexists _, _. split; [done|]. by destruct R. }
  rewrite (proj2 (Z.eqb_neq r 0)) by done. destruct (kp_page _ _ (r + OFFSET) Hi) as (Hal&Hlo&Hhi&Hst); [set_solver|].
  assert (phys_to_virt OFFSET r = r + OFFSET) as -> by (unfold phys_to_virt; apply u32_small; unfold PAGE_SIZE in *; lia).
  set (pg := r + OFFSET) in *. rewrite elem_of_list_to_set in Hni. pose proof (new_page_wf pages pg (kr_wf _ _ _ R) Hni Hal ltac:(lia) Hhi) as W.
  set (np := (pg, [(MAX_BLOCK_SIZE, false)])) in *.
  assert (forall p, p ∈ pages -> forall x, in_block x (p.1, PAGE_SIZE) -> ~ in_block x (pg, PAGE_SIZE)) as Hap.
  { intros p Hp x H1 H2. apply Hni. pose proof (pages_apart _ W np p x ltac:(by left) ltac:(by right) H2 H1) as <-. change pg with np.1. by apply list_elem_of_fmap_2. }
  assert (in_block (pg + LINK) (pg, PAGE_SIZE)) as Hself by (unfold in_block, LINK, PAGE_SIZE; cbn; lia).
  destruct (links_push_page _ _ heads_apart _ _ _ (pg + LINK) (kr_links _ _ _ R)) as (l&El&HL).
  { intros Hh. exact (Hst _ (heads_static _ Hh) Hself). }
  { intros (p&Ep&Hp)%list_elem_of_fmap. apply (Hap p Hp (pg + LINK)); [|done]. rewrite Ep. unfold in_block, page_node, LINK, PAGE_SIZE. cbn. lia. }
  { intros b (hd&(p&Hp&Hb)%all_blocks_elem&_)%free_of_elem Eb. apply (Hap p Hp (pg + LINK)); [|done].
    destruct (pblocks_range _ (kr_wf _ _ _ R) p _ Hp Hb) as (?&?&?). cbn in *. rewrite Eb. unfold in_block, LINK, FIRST_BLK, BLKHDR_SIZE in *. cbn. lia. }
  cbn [klinks set]. rewrite El. cbn [mbind option_bind]. eexists _, _. split; [done|]. split; [done|].
  assert (forall b, b ∈ all_blocks pages -> b.1 <> pg + FIRST_BLK) as Hnb.
  { intros b Hb E'. pose proof (proj1 (all_blocks_elem _ _) Hb) as (p&Hp&Hb'). apply (Hap p Hp b.1).
    - eapply block_page; [exact (kr_wf _ _ _ R)|done..|]. by apply (block_self _ (kr_wf _ _ _ R)).
    - rewrite E'. unfold in_block, FIRST_BLK, PAGE_SIZE. cbn. lia. }
  split; cbn [source pgs blks klinks set].
  - exact Hi.
  - exact W.
  - intros p [->|Hp]%elem_of_cons; [by rewrite lookup_insert_eq|]. rewrite lookup_insert_ne; [by apply R|]. intros Ep. apply Hni. rewrite Ep. by apply list_elem_of_fmap_2.
  - intros b [->|Hb]%elem_of_cons; [cbn; by rewrite lookup_insert_eq|]. rewrite lookup_insert_ne; [by apply R|]. intros Eb. symmetry in Eb. by apply (Hnb b Hb).
  - replace (free_of {[pg + FIRST_BLK]} _) with (free_of ∅ (all_blocks pages)); [exact HL|]. apply set_eq. intros [x y].
    rewrite !free_of_elem. cbn [fst snd]. split; intros (hd&Hin&?&?&Hx); exists hd.
    + split_and!; [by right|done..|]. intros ->%elem_of_singleton. by apply (Hnb _ Hin).
    + apply elem_of_cons in Hin as [[= -> ->]|Hin]; [set_solver|]. split_and!; [done..|set_solver].
Qed.

(** *** Changing one block *)

Lemma replace_wf ps1 a bl bl' ps2 : pages_wf (ps1 ++ (a, bl) :: ps2) -> total bl' = total bl -> Forall (fun b => BLKHDR_SIZE <= b.1) bl' ->
  pages_wf (ps1 ++ (a, bl') :: ps2).
Proof.
  intros [ND Ha Hb] Ht Hs. split.
  - rewrite fmap_app, fmap_cons in *. done.
  - intros p [Hp|[->|Hp]%elem_of_cons]%elem_of_app; [apply Ha; set_solver|apply (Ha (a, bl)); set_solver|apply Ha; set_solver].
  - intros p [Hp|[->|Hp]%elem_of_cons]%elem_of_app; [apply Hb; set_solver| |apply Hb; set_solver].
    split; [|done]. cbn [snd]. rewrite Ht. apply (Hb (a, bl)). set_solver.
Qed.

Lemma replace_nodes (ps1 : list apage) a (bl bl' : blist) ps2 : page_node <$> (ps1 ++ (a, bl) :: ps2) = page_node <$> (ps1 ++ (a, bl') :: ps2).
Proof. by rewrite !fmap_app. Qed.
Lemma replace_addrs (ps1 : list apage) a (bl bl' : blist) ps2 : (ps1 ++ (a, bl) :: ps2).*1 = (ps1 ++ (a, bl') :: ps2).*1.
Proof. by rewrite !fmap_app. Qed.

(** The page header counts the blocks in use; other pages' headers do not change. *)
Lemma replace_pgs (hp : gmap Z page_hdr) ps1 a bl bl' ps2 : pages_wf (ps1 ++ (a, bl) :: ps2) ->
  (forall p, p ∈ ps1 ++ (a, bl) :: ps2 -> hp !! p.1 = Some (mk_page_hdr PAGE_MAGIC (used p.2))) ->
  forall p, p ∈ ps1 ++ (a, bl') :: ps2 -> <[a := mk_page_hdr PAGE_MAGIC (used bl')]> hp !! p.1 = Some (mk_page_hdr PAGE_MAGIC (used p.2)).
Proof.
  intros W Hp p Hin. pose proof (pw_nodup _ W) as ND. rewrite fmap_app, fmap_cons, <- Permutation_middle in ND. apply NoDup_cons in ND as [Ha _]. cbn in Ha.
  apply elem_of_app in Hin as [Hin|[->|Hin]%elem_of_cons].
  2: cbn; by rewrite lookup_insert_eq.
  all: rewrite lookup_insert_ne; [apply Hp; set_solver|]; intros ->; apply Ha; rewrite <- fmap_app; apply list_elem_of_fmap_2; set_solver.
Qed.

Section OneBlock.
Context (ps1 : list apage) (a : Z) (bl1 bl2 : blist) (s : Z) (ps2 : list apage).
Let A := a + FIRST_BLK + total bl1.
Abbreviation pages bl := (ps1 ++ (a, bl1 ++ bl ++ bl2) :: ps2).

Lemma one_block u : let hd := mk_block_hdr (magic u) s (next_of (A + s) bl2) in
  (A, hd) ∈ pblocks (a, bl1 ++ [(s, u)] ++ bl2) /\ (A, hd) ∈ all_blocks (pages [(s, u)]).
Proof.
  cbv zeta. split.
  - unfold pblocks. cbn [fst snd app]. rewrite layout_app. apply elem_of_app. right. by left.
  - cbn [app]. rewrite all_blocks_split. apply elem_of_app. right. by left.
Qed.

Lemma one_block_range out h u : kmem_rep out h (pages [(s, u)]) -> BLKHDR_SIZE <= s <= MAX_BLOCK_SIZE.
Proof.
  intros R. destruct (one_block u) as [Hb _]. destruct (pblocks_range _ (kr_wf _ _ _ R) _ _ (elem_mid _ _ _) Hb) as (?&?&?). cbn in *.
  unfold MAX_BLOCK_SIZE, PGHDR_SIZE, BLKHDR_SIZE, FIRST_BLK, PAGE_SIZE in *. lia.
Qed.

Lemma split_ok h n : kmem_rep {[A]} h (pages [(s, false)]) -> BLKHDR_SIZE <= n <= s ->
  exists h', split_block free_blocks A n h = Some h' /\
    kmem_rep {[A]} h' (pages (if MIN_BLOCK_SIZE <=? s - n then [(n, false); (s - n, false)] else [(s, false)])).
Proof.
  intros R Hn. destruct (one_block false) as [_ Hb]. pose proof (one_block_range _ _ _ R) as Hs. unfold split_block.
  pose proof (kr_blks _ _ _ R _ Hb) as E. cbn [fst snd] in E. rewrite E. cbn [mbind option_bind b_size].
  unfold MAX_BLOCK_SIZE, PGHDR_SIZE, BLKHDR_SIZE, PAGE_SIZE in *. rewrite u32_small by lia.
  destruct (Z.leb_spec MIN_BLOCK_SIZE (s - n)) as [Hm|_]; [|by eexists]. unfold MIN_BLOCK_SIZE, BLKHDR_SIZE in Hm.
  assert (pages_wf (pages [(n, false); (s - n, false)])) as W.
  { eapply replace_wf; [exact (kr_wf _ _ _ R)|rewrite !total_app; cbn; lia|]. destruct (pw_blocks _ (kr_wf _ _ _ R) _ (elem_mid _ _ _)) as [_ F].
    cbn [snd] in F. rewrite !Forall_app in F. destruct F as (F1&_&F2). rewrite !Forall_app, !Forall_cons. unfold BLKHDR_SIZE in *. split_and!; (done || cbn; lia). }
  unfold u16. rewrite !Z.mod_small by lia. set (hd0 := mk_block_hdr (magic false) s (next_of (A + s) bl2)) in *.
  set (hd1 := hd0 <| pg_next := A + n |> <| b_size := n |>). set (hd2 := mk_block_hdr FREE_MAGIC (s - n) (pg_next hd0)).
  set (C := all_blocks ps1 ++ lay (a + FIRST_BLK) bl1). set (D := layout (A + s) bl2 ++ all_blocks ps2).
  assert (all_blocks (pages [(s, false)]) = C ++ (A, hd0) :: D) as EB by apply (all_blocks_split ps1 a bl1 s false bl2 ps2).
  assert (all_blocks (pages [(n, false); (s - n, false)]) = C ++ (A, hd1) :: (A + n, hd2) :: D) as EB'.
  { cbn [app]. rewrite all_blocks_split. cbn [layout next_of]. fold A C. replace (A + n + (s - n)) with (A + s) by lia. done. }
  pose proof (all_NoDup _ W) as ND. rewrite EB' in ND.
  destruct (links_insert _ _ heads_apart _ _ _ (A + n) (s - n) (kr_links _ _ _ R)) as (l&El&HL).
  - intros Hh. apply (rep_page _ _ _ R _ _ (elem_mid _ _ _) Hh).
    destruct (pblocks_range _ (kr_wf _ _ _ R) _ _ (elem_mid _ _ _) (proj1 (one_block false))) as (?&?&_). cbn in *.
    unfold in_block, FIRST_BLK, LINK, PAGE_SIZE in *. cbn. lia.
  - rewrite (replace_nodes _ _ _ (bl1 ++ [(n, false); (s - n, false)] ++ bl2)). intros (q&Eq&Hq)%list_elem_of_fmap.
    assert ((A + n, hd2) ∈ pblocks (a, bl1 ++ [(n, false); (s - n, false)] ++ bl2)) as Hb2.
    { unfold pblocks. cbn [fst snd app]. rewrite layout_app. cbn [layout next_of]. fold A. replace (A + n + (s - n)) with (A + s) by lia. set_solver. }
    destruct (pblocks_range _ W _ _ (elem_mid _ _ _) Hb2) as (?&?&?). cbn in *. unfold page_node in Eq.
    assert ((a, bl1 ++ [(n, false); (s - n, false)] ++ bl2) = q) as <-.
    { apply (pages_apart _ W _ q (A + n + LINK)); [apply elem_mid|done|..]; unfold in_block, LINK, FIRST_BLK, BLKHDR_SIZE, PAGE_SIZE in *; cbn; lia. }
    unfold LINK, FIRST_BLK in *. cbn in *. lia.
  - intros b (hd&Hin&_&_&_)%free_of_elem Eb. rewrite EB in Hin. rewrite Eb in Hin. rewrite fmap_app, !fmap_cons in ND. cbn in ND.
    assert (A + n ∉ C.*1 ++ A :: D.*1) as Hni.
    { rewrite (Permutation_app_comm C.*1), <- !app_comm_cons in ND. apply NoDup_cons in ND as [H1 [H2 _]%NoDup_cons]. set_solver. }
    apply Hni. change (A :: D.*1) with ((A, hd0) :: D).*1. rewrite <- fmap_app. by apply (list_elem_of_fmap_2 fst) in Hin.
  - unfold BLKIDX, NR_BLOCK_LIST, PAGE_SIZE. rewrite Z.shiftr_div_pow2 by lia. change (4096 / 16) with 256. change (2 ^ 4) with 16. Z.div_mod_to_equations. lia.
  - rewrite El. cbn [mbind option_bind]. eexists. split; [done|]. fold hd1 hd2. split; cbn [source pgs blks klinks set].
    + rewrite (replace_addrs _ _ _ (bl1 ++ [(s, false)] ++ bl2)). apply R.
    + exact W.
    + pose proof (replace_pgs _ _ _ _ (bl1 ++ [(n, false); (s - n, false)] ++ bl2) _ (kr_wf _ _ _ R) (kr_pgs _ _ _ R)) as Hr.
      assert (used (bl1 ++ [(n, false); (s - n, false)] ++ bl2) = used (bl1 ++ [(s, false)] ++ bl2)) as Eu by (rewrite !used_app; done).
      rewrite Eu, insert_id in Hr; [exact Hr|]. apply (kr_pgs _ _ _ R (a, bl1 ++ [(s, false)] ++ bl2)), elem_mid.
    + rewrite EB'. apply headers_update; [done|]. intros b Hb'.
      assert (forall b, b ∈ C ++ (A + n, hd2) :: D -> <[A + n := hd2]> (blks h) !! b.1 = Some b.2) as Hu.
      { apply headers_update; [|intros c Hc; apply (kr_blks _ _ _ R); rewrite EB; set_solver].
        rewrite fmap_app, !fmap_cons in ND |- *. rewrite (Permutation_app_comm C.*1), <- !app_comm_cons in ND |- *. by apply NoDup_cons in ND as [_ ND]. }
      by apply Hu.
    + rewrite (replace_nodes _ _ _ (bl1 ++ [(s, false)] ++ bl2)).
      replace (free_of {[A]} _) with ({[(A + n, s - n)]} ∪ free_of {[A]} (all_blocks (pages [(s, false)]))); [exact HL|].
      apply set_eq. intros [x y]. rewrite elem_of_union, elem_of_singleton, !free_of_elem, EB, EB'. cbn [fst snd]. split.
      * intros [[= -> ->]|(hd&Hin&?&?&Hx)]; [exists hd2|exists hd]; (split; [set_solver|split_and!; try done]); try set_solver; apply not_elem_of_singleton; lia.
      * intros (hd&Hin&?&?&Hx). assert ((x, hd) = (A + n, hd2) \/ (x, hd) ∈ C ++ (A, hd0) :: D) as [[= -> ->]|?] by set_solver; [left; by subst y|right; by exists hd].
Qed.

(** The block changes between free and in use; while free it is on no list. *)
Lemma free_of_mark C D x y : NoDup (C ++ (A, x) :: D).*1 -> free_of {[A]} (C ++ (A, x) :: D) = free_of {[A]} (C ++ (A, y) :: D) /\
  (b_magic y <> FREE_MAGIC -> free_of ∅ (C ++ (A, y) :: D) = free_of {[A]} (C ++ (A, y) :: D)).
Proof.
  intros ND. rewrite fmap_app, fmap_cons, <- Permutation_middle, <- fmap_app in ND. apply NoDup_cons in ND as [HA _]. cbn [fst] in HA.
  assert (forall b hd z, (b, hd) ∈ C ++ (A, z) :: D <-> (b, hd) ∈ C ++ D \/ (b, hd) = (A, z)) as Hin by (intros; rewrite !elem_of_app, elem_of_cons; tauto).
  split; [|intros Hy]; apply set_eq; intros [b t]; rewrite !free_of_elem; cbn [fst snd]; setoid_rewrite Hin.
  - split; intros (hd&[?|[= -> ->]]&?&?&Hb); first [by destruct Hb; apply elem_of_singleton|exists hd; tauto].
  - split; intros (hd&[Hd|[= -> ->]]&?&?&Hb); try done; exists hd; (split; [by left|split_and!; [done..|]]).
    + intros ->%elem_of_singleton. apply HA. by apply (list_elem_of_fmap_2 fst) in Hd.
    + by apply not_elem_of_empty.
Qed.

Definition set_used (u : bool) (h : kheap P) : kheap P :=
  h <| blks ::= <[A := mk_block_hdr (magic u) s (next_of (A + s) bl2)]> |>
    <| pgs ::= <[a := mk_page_hdr PAGE_MAGIC (used (bl1 ++ [(s, u)] ++ bl2))]> |>.

Lemma set_used_ok (u : bool) h : kmem_rep (if u then {[A]} else ∅) h (pages [(s, negb u)]) -> kmem_rep (if u then ∅ else {[A]}) (set_used u h) (pages [(s, u)]).
Proof.
  intros R. assert (pages_wf (pages [(s, u)])) as W.
  { eapply replace_wf; [exact (kr_wf _ _ _ R)|by rewrite !total_app|]. destruct (pw_blocks _ (kr_wf _ _ _ R) _ (elem_mid _ _ _)) as [_ F].
    cbn [snd] in F. rewrite !Forall_app, !Forall_cons in *. exact F. }
  set (C := all_blocks ps1 ++ lay (a + FIRST_BLK) bl1). set (D := layout (A + s) bl2 ++ all_blocks ps2).
  set (x v := mk_block_hdr (magic v) s (next_of (A + s) bl2)).
  assert (forall v, all_blocks (pages [(s, v)]) = C ++ (A, x v) :: D) as EB by (intros v; apply (all_blocks_split ps1 a bl1 s v bl2 ps2)).
  pose proof (all_NoDup _ W) as ND. rewrite EB in ND. pose proof (all_NoDup _ (kr_wf _ _ _ R)) as ND'. rewrite EB in ND'.
  split; cbn [source pgs blks klinks set set_used].
  - rewrite (replace_addrs _ _ _ (bl1 ++ [(s, negb u)] ++ bl2)). apply R.
  - exact W.
  - exact (replace_pgs _ _ _ _ (bl1 ++ [(s, u)] ++ bl2) _ (kr_wf _ _ _ R) (kr_pgs _ _ _ R)).
  - rewrite EB. apply headers_update; [done|]. intros b Hb. apply (kr_blks _ _ _ R). rewrite EB. apply elem_of_app. apply elem_of_app in Hb as [?|?]; [by left|right; by right].
  - rewrite (replace_nodes _ _ _ (bl1 ++ [(s, negb u)] ++ bl2)). pose proof (kr_links _ _ _ R) as HL. rewrite EB in HL |- *.
    destruct (free_of_mark C D (x (negb u)) (x u) ND') as [E1 E2]. destruct (free_of_mark C D (x u) (x (negb u)) ND) as [_ E3].
    destruct u; cbn in *; [rewrite E2, <- E1 by done|rewrite <- E1, <- E3 by done]; exact HL.
Qed.

Lemma link_free_ok h : kmem_rep {[A]} h (pages [(s, false)]) ->
  exists l, list_insert (free_head (BLKIDX s)) (A + LINK) (as_node (A + LINK) (klinks h)) = Some l /\ kmem_rep ∅ (h <| klinks := l |>) (pages [(s, false)]).
Proof.
  intros R. destruct (one_block false) as [_ Hb]. destruct (block_link _ _ _ R _ Hb) as [Hh Hpn]. pose proof (block_idx _ _ _ R _ Hb) as Hi. cbn [fst snd b_size] in *.
  destruct (links_insert _ _ heads_apart _ _ _ A s (kr_links _ _ _ R) Hh Hpn) as (l&El&HL); [|done|].
  { intros b (hd&_&_&_&Hne)%free_of_elem Eb. by apply Hne, elem_of_singleton. }
  exists l. split; [done|]. destruct R as [R1 R2 R3 R4 _]. split; try done. cbn [klinks set].
  replace (free_of ∅ _) with ({[(A, s)]} ∪ free_of {[A]} (all_blocks (pages [(s, false)]))); [exact HL|]. apply set_eq. intros [b t].
  rewrite elem_of_union, elem_of_singleton, !free_of_elem. cbn [fst snd]. split.
  - intros [[= -> ->]|(hd&?&?&?&_)]; eexists; (split; [done|]); split_and!; try done; apply not_elem_of_empty.
  - intros (hd&Hin&?&?&_). destruct (decide (b = A)) as [->|Hne]; [left|right; exists hd; split_and!; [done..|by apply not_elem_of_singleton]].
    pose proof (block_unique _ R2 _ _ Hin Hb eq_refl) as [= ->]. cbn in *. congruence.
Qed.
End OneBlock.

(** *** kmem_alloc *)

Lemma ALLOC_ALIGN_ok n : 0 <= n <= 4048 -> let size := ALLOC_ALIGN (u32 (n + BLKHDR_SIZE)) in
  size mod 16 = 0 /\ n + BLKHDR_SIZE <= size <= MAX_ALLOC_SIZE.
Proof.
  intros Hn. cbv zeta. unfold ALLOC_ALIGN, BLKHDR_SIZE, ALIGN_MASK, MAX_ALLOC_SIZE, PGHDR_SIZE, PAGE_SIZE. rewrite (u32_small (n + 16)), u32_small by lia.
  change 15 with (Z.ones 4). rewrite Z.ldiff_ones_r, Z.shiftl_mul_pow2, Z.shiftr_div_pow2 by lia. change (Z.ones 4) with 15. change (2 ^ 4) with 16.
  Z.div_mod_to_equations. lia.
Qed.

(** A block on a list of index at least [size >> 4] is large enough, because
    sizes are rounded up to multiples of 16. *)
Lemma BLKIDX_le size s : size mod 16 = 0 -> BLKIDX size <= BLKIDX s -> size <= s.
Proof. unfold BLKIDX. rewrite !Z.shiftr_div_pow2 by lia. change (2 ^ 4) with 16. intros. Z.div_mod_to_equations. lia. Qed.
Lemma BLKIDX_lt size s : s < size -> BLKIDX s <= BLKIDX size.
Proof. unfold BLKIDX. rewrite !Z.shiftr_div_pow2 by lia. intros. apply Z.div_le_mono; lia. Qed.

Lemma take_block_ok h pages size : kmem_rep ∅ h pages -> size mod 16 = 0 -> BLKHDR_SIZE <= size <= MAX_ALLOC_SIZE ->
  exists o h', take_block OFFSET free_blocks kmem_pages size h = Some (o, h') /\
  match o with
  | None => kmem_rep ∅ h' pages /\ (forall b, b ∈ free_of ∅ (all_blocks pages) -> b.2 < size) /\ kp_alloc PAGE_SIZE (source h) = Some (0, source h')
  | Some (blk, pg) => exists ps1 bl1 s bl2 ps2, let pages' := ps1 ++ (pg, bl1 ++ [(s, false)] ++ bl2) :: ps2 in
      blk = pg + FIRST_BLK + total bl1 /\ size <= s /\ kmem_rep {[blk]} h' pages' /\ live pages' = live pages /\
      (forall p, p ∈ ps1 ++ ps2 -> p ∈ pages) 
  end.
Proof.
  intros R Hs16 Hsz. unfold take_block, block_find. pose proof (kr_links _ _ _ R) as HL.
  assert (0 <= BLKIDX size < NR_BLOCK_LIST) as Hidx.
  { unfold BLKIDX, NR_BLOCK_LIST, MAX_ALLOC_SIZE, PGHDR_SIZE, BLKHDR_SIZE, PAGE_SIZE in *. rewrite Z.shiftr_div_pow2 by lia. change (2 ^ 4) with 16. change (4096 / 16) with 256. Z.div_mod_to_equations. lia. }
  change (Z.shiftr size 4) with (BLKIDX size). set (n := Z.to_nat _).
  destruct (find_list_ok free_blocks kmem_pages n (BLKIDX size) _ _ _ HL ltac:(lia) ltac:(lia)) as (o&E&Ho). rewrite E. cbn [mbind option_bind].
  destruct o as [blk|].
  - destruct Ho as (s&Hin&Hle). destruct (take_found _ _ _ _ R Hin) as (l&El&R'). rewrite El. cbn [mbind option_bind].
    apply free_of_elem in Hin as (hd&Hb&Hm&Hs&_). cbn [fst snd] in *. destruct (locate _ _ Hb) as (ps1&a&bl1&s'&u&bl2&ps2&Ep&[= Eblk ->]).
    destruct u; [done|]. cbn in Hs. subst s'. rewrite Ep in R', R |- *. eexists _, _. split; [done|]. exists ps1, bl1, s, bl2, ps2. cbv zeta.
    assert (PAGE_TOP blk = a) as ->.
    { rewrite Eblk. apply (PAGE_TOP_ok _ (kr_wf _ _ _ R) _ _ (elem_mid _ _ _) (proj1 (one_block ps1 a bl1 bl2 s ps2 false))). }
    split_and!; [done|by apply BLKIDX_le|done|done|set_solver].
  - destruct (new_page_ok _ _ R) as (o&h'&Eo&Hp). rewrite Eo. eexists _, _. split; [done|]. destruct o as [[blk pg]|].
    + destruct Hp as [-> R']. exists [], [], MAX_BLOCK_SIZE, [], pages. cbv zeta. split_and!; [cbn; lia| |exact R'|done|set_solver].
      unfold MAX_ALLOC_SIZE, MAX_BLOCK_SIZE, PGHDR_SIZE, BLKHDR_SIZE in *. lia.
    + split; [done|]. split.
      * intros b Hb. destruct (Z.lt_ge_cases b.2 size) as [?|Hge]; [done|]. destruct (Ho b Hb).
        apply free_of_elem in Hb as (hd&Hb&_&Hs&_). pose proof (block_idx _ _ _ R _ Hb) as Hi. cbn in Hi. rewrite Hs in Hi. split; [|lia].
        unfold BLKIDX in *. rewrite !Z.shiftr_div_pow2 by lia. apply Z.div_le_mono; lia.
      * unfold new_page in Eo. destruct (kp_alloc PAGE_SIZE (source h)) as [[r p]|] eqn:Er; [|done]. cbn [mbind option_bind] in Eo.
        destruct (Z.eqb_spec r 0) as [->|?]; [by injection Eo as <-|]. destruct (list_insert _ _ _); discriminate Eo.
Qed.

Lemma used_small pages p : pages_wf pages -> p ∈ pages -> 0 <= used p.2 <= 255.
Proof.
  intros W Hp. destruct (pw_blocks _ W p Hp) as [Ht F]. pose proof (total_nonneg _ F). pose proof (used_bounds p.2).
  unfold MAX_BLOCK_SIZE, PGHDR_SIZE, BLKHDR_SIZE, PAGE_SIZE in *. lia.
Qed.

Lemma live_mark ps1 a bl1 s bl2 ps2 : live (ps1 ++ (a, bl1 ++ [(s, true)] ++ bl2) :: ps2) ≡ₚ
  (a + FIRST_BLK + total bl1, s) :: live (ps1 ++ (a, bl1 ++ [(s, false)] ++ bl2) :: ps2).
Proof.
  unfold live. cbn [app]. rewrite !all_blocks_split, !(live_of_app (_ ++ _)). cbn [magic]. rewrite live_of_used, live_of_free. by rewrite Permutation_middle.
Qed.

Lemma live_split ps1 a bl1 s n bl2 ps2 : live (ps1 ++ (a, bl1 ++ [(n, false); (s - n, false)] ++ bl2) :: ps2) = live (ps1 ++ (a, bl1 ++ [(s, false)] ++ bl2) :: ps2).
Proof.
  unfold live. cbn [app]. rewrite !all_blocks_split. cbn [layout magic]. rewrite !(live_of_app (_ ++ _)). f_equal.
  cbn [app]. rewrite !live_of_free. by replace (a + FIRST_BLK + total bl1 + n + (s - n)) with (a + FIRST_BLK + total bl1 + s) by lia.
Qed.

(** The block that is left for the caller, at least of the requested size. *)
Lemma split_some h ps1 a bl1 s bl2 ps2 n : let A := a + FIRST_BLK + total bl1 in
  kmem_rep {[A]} h (ps1 ++ (a, bl1 ++ [(s, false)] ++ bl2) :: ps2) -> BLKHDR_SIZE <= n <= s ->
  exists h' s' bl2', let pages' := ps1 ++ (a, bl1 ++ [(s', false)] ++ bl2') :: ps2 in
    split_block free_blocks A n h = Some h' /\ kmem_rep {[A]} h' pages' /\ n <= s' /\
    live pages' = live (ps1 ++ (a, bl1 ++ [(s, false)] ++ bl2) :: ps2).
Proof.
  cbv zeta. intros R Hn. destruct (split_ok ps1 a bl1 bl2 s ps2 h n R Hn) as (h'&E&R'). exists h'. destruct (_ <=? _).
  - exists n, ((s - n, false) :: bl2). split_and!; [done|done|lia|]. apply live_split.
  - exists s, bl2. split_and!; [done|done|lia|done].
Qed.

Lemma kmem_alloc_ok h pages n : kmem_ok h pages -> 0 <= n <= 4048 ->
  exists r h' pages', kmem_alloc OFFSET free_blocks kmem_pages n h = Some (r, h') /\ kmem_ok h' pages' /\
    ((r = 0 /\ pages' = pages /\ kp_alloc PAGE_SIZE (source h) = Some (0, source h') /\
      forall b, b ∈ free_of ∅ (all_blocks pages) -> b.2 < ALLOC_ALIGN (u32 (n + BLKHDR_SIZE))) \/
     (0 < r /\ exists s, n + BLKHDR_SIZE <= s /\ live pages' ≡ₚ (r - BLKHDR_SIZE, s) :: live pages)).
Proof.
  intros [R HU] Hn. unfold kmem_alloc. rewrite (kmem_check_ok _ _ _ R). cbn [mbind option_bind].
  destruct (ALLOC_ALIGN_ok n Hn) as [Hs16 Hsz]. set (size := ALLOC_ALIGN _) in *.
  rewrite (proj2 (Z.eqb_neq size 0)), (proj2 (Z.leb_le size _)) by (unfold BLKHDR_SIZE in *; lia). cbn [negb andb assert mbind option_bind].
  destruct (take_block_ok h pages size R Hs16) as (o&h1&E&Ho); [lia|]. rewrite E. cbn [mbind option_bind]. destruct o as [[blk pg]|].
  2: { destruct Ho as (R1&Hb&Ha). exists 0, h1, pages. split; [done|]. split; [done|]. left. done. }
  destruct Ho as (ps1&bl1&s&bl2&ps2&->&Hle&R1&Hl&Hin). set (A := pg + FIRST_BLK + total bl1) in *.
  pose proof (kr_pgs _ _ _ R1 _ (elem_mid _ _ _)) as Ep. cbn [fst snd] in Ep. rewrite Ep. cbn [mbind option_bind p_magic].
  pose proof (kr_blks _ _ _ R1 _ (proj2 (one_block ps1 pg bl1 bl2 s ps2 false))) as Eb. cbn [fst snd] in Eb. fold A in Eb. rewrite Eb. cbn [mbind option_bind b_magic magic].
  rewrite !Z.eqb_refl. cbn [negb orb]. destruct (split_some h1 ps1 pg bl1 s bl2 ps2 size R1 ltac:(lia)) as (h2&s'&bl2'&Es&R2&Hs'&Hl2).
  fold A in Es, R2. rewrite Es. cbn [mbind option_bind].
  pose proof (kr_blks _ _ _ R2 _ (proj2 (one_block ps1 pg bl1 bl2' s' ps2 false))) as Eb'. cbn [fst snd] in Eb'. fold A in Eb'. rewrite Eb'. cbn [mbind option_bind].
  pose proof (kr_pgs _ _ _ R2 _ (elem_mid _ _ _)) as Ep'. cbn [fst snd] in Ep'. cbn [pgs set]. rewrite Ep'. cbn [mbind option_bind nallocs].
  pose proof (used_small _ _ (kr_wf _ _ _ R2) (elem_mid _ _ _)) as Hus. cbn [snd] in Hus.
  pose proof (set_used_ok ps1 pg bl1 bl2' s' ps2 true h2 R2) as R3. unfold set_used in R3.
  assert (used (bl1 ++ [(s', true)] ++ bl2') = used (bl1 ++ [(s', false)] ++ bl2') + 1) as Eu by (rewrite !used_app; cbn; lia).
  rewrite Eu in R3. unfold u16. rewrite Z.mod_small by lia.
  eexists _, _, (ps1 ++ (pg, bl1 ++ [(s', true)] ++ bl2') :: ps2). split; [done|]. split; [split; [exact R3|]|right].
  - intros p [Hp|[->|Hp]%elem_of_cons]%elem_of_app; [apply HU, Hin; set_solver| |apply HU, Hin; set_solver]. cbn [snd]. rewrite Eu. lia.
  - destruct (pw_aligned _ (kr_wf _ _ _ R2) _ (elem_mid _ _ _)) as (_&Hpg&_). cbn in Hpg.
    destruct (pblocks_range _ (kr_wf _ _ _ R2) _ _ (elem_mid _ _ _) (proj1 (one_block ps1 pg bl1 bl2' s' ps2 false))) as (Hlo&_&_). cbn [fst] in Hlo. fold A in Hlo.
    split; [unfold BLKHDR_SIZE, FIRST_BLK in *; lia|]. exists s'. split; [lia|]. rewrite live_mark. fold A. replace (A + BLKHDR_SIZE - BLKHDR_SIZE) with A by lia.
    by rewrite Hl2, Hl.
Qed.

(** *** kmem_free *)

Lemma used_zero bl : used bl = 0 -> Forall (fun b => b.2 = false) bl.
Proof.
  induction bl as [|[s u] bl IH]; cbn; [constructor|]. fold (used bl). pose proof (used_bounds bl). destruct u; cbn; [lia|]. intros ?. constructor; [done|]. apply IH. lia.
Qed.

Lemma free_of_app out bs cs : free_of out (bs ++ cs) = free_of out bs ∪ free_of out cs.
Proof. unfold free_of. by rewrite filter_app, fmap_app, list_to_set_app_L. Qed.

Lemma free_of_free a s n bs : free_of ∅ ((a, mk_block_hdr FREE_MAGIC s n) :: bs) = {[(a, s)]} ∪ free_of ∅ bs.
Proof. unfold free_of. rewrite filter_cons, decide_True; [done|]. split; [done|]. apply not_elem_of_empty. Qed.

(** Walking the blocks of a page that are all free takes each from its list. *)
Lemma drop_blocks_ok bl : forall a (h : kheap P) pn B n, Forall (fun b => BLKHDR_SIZE <= b.1 <= MAX_BLOCK_SIZE) bl -> Forall (fun b => b.2 = false) bl -> 0 < a ->
  links_ok free_blocks kmem_pages (klinks h) pn (free_of ∅ (layout a bl) ∪ B) -> (forall b, b ∈ B -> b.1 ∉ (layout a bl).*1) ->
  (forall b, b ∈ layout a bl -> blks h !! b.1 = Some b.2) -> (length bl <= n)%nat ->
  exists h', drop_blocks n (next_of a bl) h = Some h' /\ links_ok free_blocks kmem_pages (klinks h') pn B /\
    (forall x, x ∉ (layout a bl).*1 -> blks h' !! x = blks h !! x) /\ source h' = source h /\ pgs h' = pgs h.
Proof.
  induction bl as [|[s u] bl IH]; intros a h pn B n Hs Hu Ha HL HB Hb Hn.
  { exists h. split; [by destruct n|]. split_and!; [|done..]. replace B with (free_of ∅ (layout a []) ∪ B); [done|]. unfold free_of. cbn. by rewrite union_empty_l_L. }
  apply Forall_cons in Hs as [Hs1 Hs], Hu as [Hu1 Hu]. cbn in Hs1, Hu1. subst u. cbn [layout magic] in *.
  pose proof (Hb _ ltac:(by left)) as Ea. cbn [fst snd] in Ea. set (nx := next_of (a + s) bl) in *.
  assert (Forall (fun b : Z * bool => BLKHDR_SIZE <= b.1) bl) as Hs' by (eapply Forall_impl; [exact Hs|]; cbn; lia).
  assert (forall c, c ∈ layout (a + s) bl -> c.1 <> a) as Hne by (intros c Hc; destruct (layout_range _ _ _ Hs' Hc) as [? _]; unfold BLKHDR_SIZE in *; lia).
  destruct n as [|n]; cbn [length] in Hn; [lia|]. cbn [next_of drop_blocks]. rewrite (proj2 (Z.eqb_neq a 0)) by lia.
  rewrite free_of_free, <- (assoc_L (∪)) in HL. destruct (links_remove _ _ heads_apart _ _ _ a s HL) as (l&El&HL').
  - apply elem_of_union. left. by apply elem_of_singleton.
  - intros b [->%elem_of_singleton|[Hf|Hin]%elem_of_union]%elem_of_union Eb; [done|..].
    + apply free_of_elem in Hf as (hd&Hin&_). by destruct (Hne _ Hin).
    + destruct (HB b Hin). rewrite Eb. by left.
  - unfold BLKIDX, NR_BLOCK_LIST, MAX_BLOCK_SIZE, PGHDR_SIZE, BLKHDR_SIZE, PAGE_SIZE in *. rewrite Z.shiftr_div_pow2 by lia. change (4096 / 16) with 256. change (2 ^ 4) with 16. Z.div_mod_to_equations. lia.
  - rewrite El, Ea. cbn [mbind option_bind pg_next]. set (h1 := _ <| blks ::= _ |>).
    assert (({[(a, s)]} ∪ (free_of ∅ (layout (a + s) bl) ∪ B)) ∖ {[(a, s)]} = free_of ∅ (layout (a + s) bl) ∪ B) as EB.
    { rewrite difference_union_distr_l_L, difference_diag_L, union_empty_l_L. apply difference_disjoint_L. apply disjoint_singleton_r.
      intros [(hd&Hin&_)%free_of_elem|Hin]%elem_of_union; [by apply (Hne _ Hin)|]. apply (HB _ Hin). by left. }
    rewrite EB in HL'. destruct (IH (a + s) h1 pn B n Hs Hu) as (h'&E&HL''&Hx&Hsrc&Hpg); [unfold BLKHDR_SIZE in *; lia|done|..].
    + intros b Hin ?. apply (HB b Hin). by right.
    + intros b Hin. cbn. rewrite lookup_insert_ne; [apply Hb; by right|]. intros ->. by apply (Hne _ Hin).
    + lia.
    + exists h'. split; [done|]. split; [done|]. split; [|done]. intros x Hx'. apply not_elem_of_cons in Hx' as [Hx1 Hx2]. rewrite (Hx x Hx2). cbn. by rewrite lookup_insert_ne.
Qed.

Lemma free_page_live a bl : Forall (fun b => b.2 = false) bl -> live_of (layout a bl) = [].
Proof. intros F. revert a. induction F as [|[s u] bl Hu F IH]; intros a; [done|]. cbn in Hu. subst u. cbn [layout magic]. rewrite live_of_free. apply IH. Qed.

Lemma all_blocks_app ps1 ps2 : all_blocks (ps1 ++ ps2) = all_blocks ps1 ++ all_blocks ps2.
Proof. unfold all_blocks. apply bind_app. Qed.
Lemma all_blocks_cons p ps : all_blocks (p :: ps) = pblocks p ++ all_blocks ps.
Proof. done. Qed.

Lemma sizes_bounded bl : Forall (fun b => BLKHDR_SIZE <= b.1) bl -> Forall (fun b => BLKHDR_SIZE <= b.1 <= total bl) bl.
Proof.
  induction 1 as [|[s u] bl Hs F IH]; constructor; cbn in *; fold (total bl); pose proof (total_nonneg _ F); unfold BLKHDR_SIZE in *; [lia|].
  eapply Forall_impl; [exact IH|]. cbn. lia.
Qed.

Section FreePage.
Context (ps1 : list apage) (a : Z) (bl : blist) (ps2 : list apage) (W : pages_wf (ps1 ++ (a, bl) :: ps2)).

Lemma other_pages p : p ∈ ps1 ++ ps2 -> p.1 <> a /\ p ∈ ps1 ++ (a, bl) :: ps2.
Proof.
  intros Hp. split; [|set_solver]. intros E. pose proof (pw_nodup _ W) as ND. rewrite fmap_app, fmap_cons, <- Permutation_middle, <- fmap_app in ND.
  apply NoDup_cons in ND as [Ha _]. apply Ha. cbn. rewrite <- E. by apply list_elem_of_fmap_2.
Qed.
Lemma other_blocks b x : b ∈ all_blocks (ps1 ++ ps2) -> in_block x (b.1, b_size b.2) -> ~ in_block x (a, PAGE_SIZE).
Proof.
  intros (p&Hp&Hb)%all_blocks_elem Hx Hx'. destruct (other_pages p Hp) as [Hne Hp']. apply Hne.
  pose proof (pages_apart _ W p (a, bl) x Hp' (elem_mid _ _ _) (block_page _ W _ _ _ Hp' Hb Hx) Hx') as ->. done.
Qed.
Lemma other_wf : pages_wf (ps1 ++ ps2).
Proof.
  destruct W as [ND Ha Hb]. split; [|intros p Hp; apply Ha; set_solver|intros p Hp; apply Hb; set_solver].
  rewrite fmap_app, fmap_cons, <- Permutation_middle, <- fmap_app in ND. by apply NoDup_cons in ND as [_ ?].
Qed.
Lemma other_addrs : list_to_set (ps1 ++ (a, bl) :: ps2).*1 ∖ {[a]} =@{gset Z} list_to_set (ps1 ++ ps2).*1.
Proof.
  apply set_eq. intros x. rewrite elem_of_difference, !elem_of_list_to_set, elem_of_singleton. split.
  - intros [(p&->&[Hp|[->|Hp]%elem_of_cons]%elem_of_app)%list_elem_of_fmap Hne]; [|done|]; apply list_elem_of_fmap_2; set_solver.
  - intros (p&->&Hp)%list_elem_of_fmap. destruct (other_pages p Hp) as [? ?]. split; [by apply list_elem_of_fmap_2|done].
Qed.
End FreePage.

Lemma lookup_outside {A} (m : gmap Z A) a x : ~ in_block x (a, PAGE_SIZE) -> filter (fun kv => in_page a kv = false) m !! x = m !! x.
Proof.
  intros Hout. destruct (m !! x) as [q|] eqn:Eq; [|apply map_lookup_filter_None_2; by left].
  apply map_lookup_filter_Some_2; [done|]. unfold in_page, in_block in *. cbn in *. destruct (Z.leb_spec a x), (Z.ltb_spec x (a + PAGE_SIZE)); cbn; lia || done.
Qed.

Lemma free_page_ok h (ps1 : list apage) a bl (ps2 : list apage) : kmem_rep ∅ h (ps1 ++ (a, bl) :: ps2) -> used bl = 0 ->
  exists h', free_page OFFSET a h = Some h' /\ kmem_rep ∅ h' (ps1 ++ ps2).
Proof.
  intros R Hu. pose proof (kr_wf _ _ _ R) as W. destruct (pw_blocks _ W _ (elem_mid _ _ _)) as [Ht Hs]. cbn [fst snd] in *.
  destruct (kp_page _ _ a (kr_own _ _ _ R)) as (Hal&Hlo&Hhi&Hst); [apply elem_of_list_to_set; change a with (a, bl).1; apply list_elem_of_fmap_2, elem_mid|].
  unfold free_page. set (B := free_of ∅ (all_blocks (ps1 ++ ps2))).
  assert (free_of ∅ (all_blocks (ps1 ++ (a, bl) :: ps2)) = free_of ∅ (layout (a + FIRST_BLK) bl) ∪ B) as EB.
  { unfold B. rewrite !all_blocks_app, all_blocks_cons, !free_of_app. change (pblocks (a, bl)) with (layout (a + FIRST_BLK) bl). apply set_eq. intros x. rewrite !elem_of_union. tauto. }
  pose proof (kr_links _ _ _ R) as HL. rewrite EB in HL.
  assert (forall b, b ∈ layout (a + FIRST_BLK) bl -> blks h !! b.1 = Some b.2) as Hb by (intros b Hb; apply (kr_blks _ _ _ R), all_blocks_elem; eexists; split; [apply elem_mid|exact Hb]).
  assert (next_of (a + FIRST_BLK) bl = a + FIRST_BLK) as En by (destruct bl; [discriminate Ht|done]).
  destruct (drop_blocks_ok bl (a + FIRST_BLK) h (page_node <$> ps1 ++ (a, bl) :: ps2) B (size (blks h))) as (h1&E1&HL1&Hx1&Hsrc&Hpg).
  - rewrite <- Ht. by apply sizes_bounded.
  - by apply used_zero.
  - unfold FIRST_BLK. lia.
  - exact HL.
  - intros b (hd&Hin&_)%free_of_elem (c&Ec&Hc)%list_elem_of_fmap. eapply (other_blocks _ _ _ _ W _ b.1 Hin).
    + apply (block_self _ (other_wf _ _ _ _ W) _ Hin).
    + rewrite Ec. eapply (block_page _ W _ c _ (elem_mid _ _ _) Hc). apply (block_self _ W). apply all_blocks_elem. eexists; split; [apply elem_mid|exact Hc].
  - exact Hb.
  - replace (length bl) with (length (layout (a + FIRST_BLK) bl).*1).
    + apply mapped_size; [by apply layout_NoDup|]. intros x (b&->&Hb')%list_elem_of_fmap. rewrite (Hb b Hb'). by eexists.
    + rewrite length_fmap. generalize (a + FIRST_BLK). clear. induction bl as [|[s u] bl IH]; intros a; cbn; [done|]. by rewrite IH.
  - rewrite En in E1. rewrite E1. cbn [mbind option_bind]. rewrite fmap_app, fmap_cons in HL1. destruct (links_drop_page _ _ heads_apart _ _ _ _ _ HL1) as (l&El&HL2).
    unfold page_node at 1 in El. cbn [fst] in El. rewrite El, Hpg. pose proof (kr_pgs _ _ _ R _ (elem_mid _ _ _)) as Ep. cbn [fst snd] in Ep. rewrite Ep. cbn [mbind option_bind source set klinks pgs].
    assert (virt_to_phys OFFSET a = a - OFFSET) as -> by (unfold virt_to_phys; apply u32_small; unfold PAGE_SIZE in *; lia).
    destruct (kp_free_page OFFSET static _ _ a (kr_own _ _ _ R)) as (s&Es&Hi); [apply elem_of_list_to_set; change a with (a, bl).1; apply list_elem_of_fmap_2, elem_mid|].
    rewrite Hsrc, Es. cbn [mbind option_bind]. eexists. split; [done|]. split; cbn [forget source set klinks pgs blks].
    + exact (eq_ind _ (kp_inv s) Hi _ (other_addrs ps1 a bl ps2 W)).
    + exact (other_wf ps1 a bl ps2 W).
    + intros p Hp. destruct (other_pages _ _ _ _ W p Hp) as [Hne Hp']. rewrite lookup_outside.
      * rewrite Hpg, lookup_insert_ne by congruence. by apply R.
      * intros Hin. apply Hne. by pose proof (pages_apart _ W p (a, bl) p.1 Hp' (elem_mid _ _ _) ltac:(unfold in_block, PAGE_SIZE; cbn; lia) Hin) as ->.
    + intros b Hin. pose proof (other_blocks _ _ _ _ W _ _ Hin (block_self _ (other_wf _ _ _ _ W) _ Hin)) as Hout. rewrite lookup_outside by done.
      rewrite Hx1; [apply R; revert Hin; rewrite !all_blocks_app, all_blocks_cons; set_solver|]. intros (c&Ec&Hc)%list_elem_of_fmap. apply Hout. rewrite Ec.
      eapply (block_page _ W _ c _ (elem_mid _ _ _) Hc). apply (block_self _ W). apply all_blocks_elem. eexists; split; [apply elem_mid|exact Hc].
    + rewrite <- fmap_app in HL2. apply (links_forget _ _ heads_apart); [done| | |].
      * intros x Hh. by apply Hst, heads_static.
      * intros x (p&->&Hp)%list_elem_of_fmap Hin. destruct (other_pages _ _ _ _ W p Hp) as [Hne Hp']. apply Hne.
        by pose proof (pages_apart _ W p (a, bl) (page_node p) Hp' (elem_mid _ _ _) ltac:(unfold in_block, page_node, LINK, PAGE_SIZE; cbn; lia) Hin) as ->.
      * intros b (hd&Hin&_)%free_of_elem. eapply (other_blocks _ _ _ _ W _ _ Hin). cbn. pose proof Hin as (p&Hp&Hb')%all_blocks_elem.
        destruct (pblocks_range _ (other_wf _ _ _ _ W) p _ Hp Hb') as (?&?&?). unfold in_block, LINK, BLKHDR_SIZE in *. cbn in *. lia.
Qed.

Lemma kmem_free_ok h pages b s : kmem_ok h pages -> (b, s) ∈ live pages ->
  exists h' pages', kmem_free OFFSET free_blocks kmem_pages (b + BLKHDR_SIZE) h = Some h' /\ kmem_ok h' pages' /\
    live pages ≡ₚ (b, s) :: live pages'.
Proof.
  intros [R HU] Hin. apply live_of_elem in Hin as (hd&Hb&Hm&Hs). cbn [fst snd] in *.
  destruct (locate _ _ Hb) as (ps1&a&bl1&s'&u&bl2&ps2&->&[= Eb ->]). destruct u; [|done]. cbn in Hs. subst s'.
  set (A := a + FIRST_BLK + total bl1) in *. subst b. pose proof (one_block ps1 a bl1 bl2 s ps2 true) as [Hpb Hab]. fold A in Hpb, Hab.
  pose proof (pblocks_range _ (kr_wf _ _ _ R) _ _ (elem_mid _ _ _) Hpb) as (Hlo&_&_). cbn [fst] in Hlo.
  destruct (pw_aligned _ (kr_wf _ _ _ R) _ (elem_mid _ _ _)) as (_&Hpg&_). cbn [fst] in Hpg.
  unfold kmem_free. rewrite (proj2 (Z.eqb_neq _ 0)) by (unfold BLKHDR_SIZE, FIRST_BLK in *; lia). cbn [negb assert mbind option_bind].
  rewrite (kmem_check_ok _ _ _ R). cbn [mbind option_bind]. replace (A + BLKHDR_SIZE - BLKHDR_SIZE) with A by lia.
  pose proof (kr_blks _ _ _ R _ Hab) as Eb. cbn [fst snd] in Eb. rewrite Eb. cbn [mbind option_bind b_magic magic b_size]. rewrite Z.eqb_refl. cbn [negb].
  pose proof (set_used_ok ps1 a bl1 bl2 s ps2 false h R) as R1. fold A in R1. destruct (link_free_ok ps1 a bl1 bl2 s ps2 _ R1) as (l&El&R2). fold A in El.
  cbn [klinks set set_used] in El |- *. rewrite El. cbn [mbind option_bind pgs].
  pose proof (PAGE_TOP_ok _ (kr_wf _ _ _ R) _ _ (elem_mid _ _ _) Hpb) as Et. cbn [fst] in Et. rewrite Et.
  pose proof (kr_pgs _ _ _ R _ (elem_mid _ _ _)) as Ep. cbn [fst snd] in Ep. cbn [app] in *. rewrite Ep. cbn [mbind option_bind nallocs].
  pose proof (used_small _ _ (kr_wf _ _ _ R) (elem_mid _ _ _)) as Hus. cbn [snd] in Hus. pose proof (HU _ (elem_mid _ _ _)) as Hpos. cbn [snd] in Hpos.
  assert (used (bl1 ++ (s, false) :: bl2) = used (bl1 ++ (s, true) :: bl2) - 1) as Eu by (rewrite !used_app; cbn; lia).
  unfold u16. rewrite Z.mod_small by lia. rewrite <- Eu in *. unfold set_used in R2. cbn [app] in R2. fold A in R2.
  pose proof (live_mark ps1 a bl1 s bl2 ps2) as HLV. cbn [app] in HLV. fold A in HLV.
  destruct (Z.leb_spec (used (bl1 ++ (s, false) :: bl2)) 0) as [Hz|Hz].
  - destruct (free_page_ok _ ps1 a _ ps2 R2 ltac:(lia)) as (h'&Ef&R3). exists h', (ps1 ++ ps2). split; [exact Ef|]. split.
    + split; [done|]. intros p Hp. apply HU. set_solver.
    + rewrite HLV. unfold live. rewrite !all_blocks_app, all_blocks_cons, !live_of_app. unfold pblocks. cbn [fst snd].
      rewrite free_page_live by (apply used_zero; lia). done.
  - eexists _, _. split; [done|]. split; [split; [exact R2|]|exact HLV].
    intros p [Hp|[->|Hp]%elem_of_cons]%elem_of_app; [apply HU; set_solver|cbn [snd]; lia|apply HU; set_solver].
Qed.

(** ** What clients see: the blocks in use *)

(** The heap is sound and the blocks in use, with their headers, are [L]. *)
Definition kmem_inv (h : kheap P) (L : list (Z * Z)) : Prop := exists pages, kmem_ok h pages /\ live pages ≡ₚ L.

Lemma live_NoDup pages : pages_wf pages -> NoDup (live pages).*1.
Proof.
  intros W. pose proof (all_NoDup _ W) as ND. unfold live, live_of. rewrite <- list_fmap_compose.
  eapply sublist_NoDup; [exact ND|]. apply (fmap_sublist fst). apply sublist_filter.
Qed.

Lemma live_apart h L b c x : kmem_inv h L -> b ∈ L -> c ∈ L -> in_block x b -> in_block x c -> b = c.
Proof.
  intros (pages&[R _]&E) Hb Hc Hxb Hxc. rewrite <- E in Hb, Hc. apply live_of_elem in Hb as (hb&Hb&_&Sb), Hc as (hc&Hc&_&Sc).
  destruct b as [b1 b2], c as [c1 c2]. cbn in *. subst b2 c2. pose proof (blocks_apart _ (kr_wf _ _ _ R) _ _ x Hb Hc Hxb Hxc) as [= -> ->]. done.
Qed.

Lemma kmem_inv_NoDup h L : kmem_inv h L -> NoDup L.*1.
Proof. intros (pages&[R _]&E). rewrite <- E. apply live_NoDup, R. Qed.

Lemma kmem_alloc_live h L n : kmem_inv h L -> 0 <= n <= 4048 ->
  (exists h', kmem_alloc OFFSET free_blocks kmem_pages n h = Some (0, h') /\ kmem_inv h' L /\ kp_alloc PAGE_SIZE (source h) = Some (0, source h')) \/
  (exists r s h', kmem_alloc OFFSET free_blocks kmem_pages n h = Some (r, h') /\ 0 < r /\ n + BLKHDR_SIZE <= s /\
     kmem_inv h' ((r - BLKHDR_SIZE, s) :: L)).
Proof.
  intros (pages&HK&E) Hn. destruct (kmem_alloc_ok h pages n HK Hn) as (r&h'&pages'&Ea&HK'&[(->&->&Hs&_)|(Hr&s&Hs&Hl)]).
  - left. exists h'. split; [done|]. split; [by exists pages|done].
  - right. exists r, s, h'. split_and!; [done..|]. exists pages'. split; [done|]. by rewrite Hl, E.
Qed.

Lemma kmem_free_live h L b s : kmem_inv h ((b, s) :: L) ->
  exists h', kmem_free OFFSET free_blocks kmem_pages (b + BLKHDR_SIZE) h = Some h' /\ kmem_inv h' L.
Proof.
  intros (pages&HK&E). destruct (kmem_free_ok h pages b s HK) as (h'&pages'&Ef&HK'&Hl); [rewrite E; by left|].
  exists h'. split; [done|]. exists pages'. split; [done|]. rewrite Hl in E. by apply Permutation_cons_inv in E.
Qed.

Lemma kmem_inv_perm h L L' : kmem_inv h L -> L ≡ₚ L' -> kmem_inv h L'.
Proof. intros (pages&HK&E) El. exists pages. split; [done|]. by rewrite E. Qed.

(** The pages kmem holds are those with a block in use. *)
Lemma kmem_pages_held h L : kmem_inv h L -> kp_inv (source h) (list_to_set ((fun b => PAGE_TOP b.1) <$> L)).
Proof.
  intros (pages&[R HU]&E). pose proof (kr_own _ _ _ R) as Ho.
  replace (list_to_set ((fun b => PAGE_TOP b.1) <$> L)) with (list_to_set pages.*1 : gset Z); [done|]. apply set_eq. intros x.
  rewrite !elem_of_list_to_set, !list_elem_of_fmap. setoid_rewrite <- E. split.
  - intros (p&->&Hp). specialize (HU p Hp). destruct (decide (Forall (fun b => b.2 = false) p.2)) as [F|F].
    { assert (used p.2 = 0) by (clear -F; induction F as [|[s u] bl Hu F IH]; cbn in *; [done|]; fold (used bl); subst u; cbn; lia). lia. }
    apply not_Forall_Exists, Exists_exists in F as ([s u]&(bl1&bl2&Ebl)%list_elem_of_split&Hu); [|apply _]. destruct u; [|by destruct Hu].
    destruct p as [a bl]. cbn in Ebl. subst bl. apply list_elem_of_split in Hp as (ps1&ps2&->).
    destruct (one_block ps1 a bl1 bl2 s ps2 true) as [Hpb Hab]. exists (a + FIRST_BLK + total bl1, s). split.
    + symmetry. apply (PAGE_TOP_ok _ (kr_wf _ _ _ R) _ _ (elem_mid _ _ _) Hpb).
    + apply live_of_elem. eexists. split; [exact Hab|done].
  - intros ([b s]&->&(hd&Hb&_)%live_of_elem). cbn in *. pose proof Hb as (p&Hp&Hpb)%all_blocks_elem. exists p. split; [|done].
    apply (PAGE_TOP_ok _ (kr_wf _ _ _ R) _ _ Hp Hpb).
Qed.

(** *** kmem_init *)

Lemma init_lookup ixs h x : foldl (fun h i => list_init (free_head (Z.of_nat i)) h) h ixs !! x =
  if decide (x ∈ (fun i => free_head (Z.of_nat i)) <$> ixs) then Some (mkqueue x x) else h !! x.
Proof.
  revert h. induction ixs as [|i ixs IH]; intros h; cbn [foldl]; [by rewrite decide_False by apply not_elem_of_nil|].
  rewrite IH. unfold list_init. rewrite lookup_insert, fmap_cons. destruct (decide (x ∈ _ <$> ixs)) as [Hin|Hni].
  - by rewrite decide_True by (by right).
  - destruct (decide (free_head (Z.of_nat i) = x)) as [<-|Hne].
    + by rewrite decide_True by (by left).
    + by rewrite decide_False by (intros [?|?]%elem_of_cons; congruence).
Qed.

(** Empty lists at all heads. *)
Lemma empty_links (h : qmem) (heads : list Z) : (forall x, x ∈ heads <-> is_head free_blocks kmem_pages x) -> (forall x, x ∈ heads -> h !! x = Some (mkqueue x x)) ->
  links_ok free_blocks kmem_pages h [] ∅.
Proof.
  intros Hh Hq. set (m := gset_to_gmap (@nil Z) (list_to_set heads)).
  assert (forall x l, m !! x = Some l <-> x ∈ heads /\ l = []) as Hm.
  { intros x l. unfold m. rewrite lookup_gset_to_gmap_Some, elem_of_list_to_set. split; intros [? ?]; (split; [done|congruence]). }
  clearbody m. exists m. split_and!.
  - split; [intros x ?%elem_of_empty; done|intros x l [Hx ->]%Hm|
      intros x l y l' [Hx ->]%Hm [Hy ->]%Hm Hne z ->%list_elem_of_singleton; by rewrite list_elem_of_singleton].
    split; [apply NoDup_singleton|]. cbn. unfold get_next, get_prev. by rewrite (Hq x Hx).
  - apply Hm. split; [|done]. apply Hh. by left.
  - intros i Hi. exists []. split; [apply Hm; split; [|done]; apply Hh; right; by exists i|]. intros x. split; [intros ?%elem_of_nil; done|].
    intros (b&?%elem_of_empty&_). done.
  - intros k [l [Hk _]%Hm]. by apply Hh.
Qed.

Lemma kmem_init_live s : kp_inv s ∅ -> kmem_inv (kmem_init free_blocks kmem_pages s) [].
Proof.
  intros Hs. exists []. split; [|done]. split; [|intros p ?%elem_of_nil; done].
  split; [exact Hs|split; [constructor|..]|..]; try (intros p ?%elem_of_nil; done).
  apply (empty_links _ (kmem_pages :: ((fun i => free_head (Z.of_nat i)) <$> seq 0 (Z.to_nat NR_BLOCK_LIST)))).
  - intros x. unfold is_head. rewrite elem_of_cons, list_elem_of_fmap. setoid_rewrite elem_of_seq. split.
    + intros [->|(i&->&Hi)]; [by left|]. right. exists (Z.of_nat i). split; [lia|done].
    + intros [->|(i&Hi&->)]; [by left|]. right. exists (Z.to_nat i). split; [by rewrite Z2Nat.id by lia|lia].
  - intros x Hx. unfold kmem_init. cbn [klinks]. rewrite init_lookup. case_decide as Hd; [done|].
    apply elem_of_cons in Hx as [->|Hx]; [|done]. unfold list_init. by rewrite lookup_insert_eq.
Qed.

(** ** Runs of a client *)

(** A client keeps the pointers it was given, with the sizes it asked for, in a
    table, asks for memory of up to 4048 bytes and gives back entries of its
    table. *)
Inductive kop := KAlloc (n : Z) | KFree (i : nat).
Definition kop_ok (op : kop) : Prop := match op with KAlloc n => 0 <= n <= 4048 | KFree _ => True end.

Definition kstep (op : kop) (st : kheap P * list (Z * Z)) : option (kheap P * list (Z * Z)) :=
  let (h, T) := st in
  match op with
  | KAlloc n => r ← kmem_alloc OFFSET free_blocks kmem_pages n h; Some (r.2, if r.1 =? 0 then T else (r.1, n) :: T)
  | KFree i =>
      match T !! i with
      | Some t => h ← kmem_free OFFSET free_blocks kmem_pages t.1 h; Some (h, delete i T)
      | None => Some (h, T)
      end
  end.
Fixpoint krun (ops : list kop) (st : kheap P * list (Z * Z)) : option (kheap P * list (Z * Z)) :=
  match ops with [] => Some st | op :: ops => st ← kstep op st; krun ops st end.

Definition payload (b : Z * Z) : Z := b.1 + BLKHDR_SIZE.

(** An entry of the table and its block, which has room for a header and for
    the bytes asked for. *)
Definition held_entry (t b : Z * Z) : Prop := t.1 = payload b /\ 0 <= t.2 /\ t.2 + BLKHDR_SIZE <= b.2.

Lemma kstep_ok op h T L : kmem_inv h L -> Forall2 held_entry T L -> kop_ok op ->
  exists h' T' L', kstep op (h, T) = Some (h', T') /\ kmem_inv h' L' /\ Forall2 held_entry T' L'.
Proof.
  intros HI HT Hop. destruct op as [n|i]; cbn [kstep].
  - destruct (kmem_alloc_live h L n HI Hop) as [(h'&E&HI'&_)|(r&s&h'&E&Hr&Hs&HI')]; rewrite E; cbn [mbind option_bind fst snd].
    + eexists _, _, L. split; [done|]. done.
    + eexists _, _, _. split; [done|]. split; [exact HI'|]. rewrite (proj2 (Z.eqb_neq r 0)) by lia. constructor; [|done]. cbn in Hop. unfold held_entry, payload. cbn. lia.
  - destruct (T !! i) as [t|] eqn:Et; [|by exists h, T, L]. destruct (Forall2_lookup_l _ _ _ _ _ HT Et) as ([b s]&Ei&Hb&_). unfold payload in Hb. cbn in Hb.
    apply kmem_inv_perm with (L' := (b, s) :: delete i L) in HI; [|by apply delete_Permutation].
    destruct (kmem_free_live h _ b s HI) as (h'&E&HI'). rewrite Hb, E. cbn [mbind option_bind].
    eexists _, _, (delete i L). split; [done|]. split; [done|]. by apply Forall2_delete.
Qed.

Lemma krun_ok ops h T L : kmem_inv h L -> Forall2 held_entry T L -> Forall kop_ok ops ->
  exists h' T' L', krun ops (h, T) = Some (h', T') /\ kmem_inv h' L' /\ Forall2 held_entry T' L'.
Proof.
  revert h T L. induction ops as [|op ops IH]; intros h T L HI ET Hops; cbn [krun]; [by exists h, T, L|].
  apply Forall_cons in Hops as [Hop Hops]. destruct (kstep_ok op h T L HI ET Hop) as (h1&T1&L1&E&HI1&ET1). rewrite E. cbn [mbind option_bind]. by eapply IH.
Qed.

(** kmem_alloc() of at most 4048 bytes, on any heap that is sound, neither
    panics nor trips an ASSERT.  It returns NULL only when the page allocator is
    out of pages, and then changes no block; otherwise the block behind the
    pointer has room for the request, and its bytes, header included, meet
    those of no block in use. *)
Theorem kmem_alloc_spec h L n : kmem_inv h L -> 0 <= n <= 4048 ->
  (exists h', kmem_alloc OFFSET free_blocks kmem_pages n h = Some (0, h') /\ kmem_inv h' L /\ kp_alloc PAGE_SIZE (source h) = Some (0, source h')) \/
  (exists r s h', kmem_alloc OFFSET free_blocks kmem_pages n h = Some (r, h') /\ 0 < r /\ kmem_inv h' ((r - BLKHDR_SIZE, s) :: L) /\
     n + BLKHDR_SIZE <= s /\ forall b x, b ∈ L -> in_block x (r - BLKHDR_SIZE, s) -> ~ in_block x b).
Proof.
  intros HI Hn. destruct (kmem_alloc_live h L n HI Hn) as [?|(r&s&h'&E&Hr&Hs&HI')]; [by left|]. right. exists r, s, h'. split_and!; [done..|].
  intros b x Hb Hx Hx'. pose proof (live_apart _ _ _ _ x HI' (list_elem_of_here _ _) (list_elem_of_further _ _ _ Hb) Hx Hx') as <-.
  pose proof (kmem_inv_NoDup _ _ HI') as [Hni _]%NoDup_cons. apply Hni. change (r - BLKHDR_SIZE) with (r - BLKHDR_SIZE, s).1. by apply list_elem_of_fmap_2.
Qed.

(** kmem_free() of a pointer that kmem_alloc() returned and that is still in
    use succeeds, and exactly that block stops being in use. *)
Theorem kmem_free_spec h L b s : kmem_inv h L -> (b, s) ∈ L ->
  exists h' L', kmem_free OFFSET free_blocks kmem_pages (b + BLKHDR_SIZE) h = Some h' /\ kmem_inv h' L' /\ L ≡ₚ (b, s) :: L'.
Proof.
  intros HI (L1&L2&->)%list_elem_of_split. assert (L1 ++ (b, s) :: L2 ≡ₚ (b, s) :: L1 ++ L2) as E by (by rewrite Permutation_middle).
  destruct (kmem_free_live h (L1 ++ L2) b s) as (h'&Ef&HI'); [by eapply kmem_inv_perm|]. by exists h', (L1 ++ L2).
Qed.

(** C9: from kmem_init() on, whatever the order in which a client asks for up to
    4048 bytes and gives back what it holds, no call faults.  kmem_alloc() returns
    NULL only when the page allocator has no page.  Every pointer the client
    holds is behind the header of a block of its own that has room for the
    header and the bytes asked for, so that no two of its allocations, headers
    included, have a byte in common; and the pages kmem has taken from the page
    allocator are exactly those with a block in use: a client that has given
    everything back leaves no page behind. *)
Theorem kmem_run_safe s ops : kp_inv s ∅ -> Forall kop_ok ops ->
  (exists h T, krun ops (kmem_init free_blocks kmem_pages s, []) = Some (h, T) /\
    (forall i j t u x, T !! i = Some t -> T !! j = Some u -> t.1 - BLKHDR_SIZE <= x < t.1 + t.2 -> u.1 - BLKHDR_SIZE <= x < u.1 + u.2 -> i = j) /\
    kp_inv (source h) (list_to_set ((fun t => PAGE_TOP (t.1 - BLKHDR_SIZE)) <$> T))) /\
  (forall ops1 n ops2 h T h', ops = ops1 ++ KAlloc n :: ops2 -> krun ops1 (kmem_init free_blocks kmem_pages s, []) = Some (h, T) ->
    kmem_alloc OFFSET free_blocks kmem_pages n h = Some (0, h') -> kp_alloc PAGE_SIZE (source h) = Some (0, source h')).
Proof.
  intros Hs Hops. split.
  - destruct (krun_ok ops _ [] [] (kmem_init_live s Hs) ltac:(constructor) Hops) as (h&T&L&E&HI&ET). exists h, T. split_and!; [done|..].
    + intros i j t u x Ht Hu Hx Hx'. destruct (Forall2_lookup_l _ _ _ _ _ ET Ht) as (b&Hb&Eb&_&Sb), (Forall2_lookup_l _ _ _ _ _ ET Hu) as (c&Hc&Ec&_&Sc).
      assert (b = c) as -> by (apply (live_apart h L b c x HI); [by eapply list_elem_of_lookup_2..|unfold in_block, payload in *; lia|unfold in_block, payload in *; lia]).
      pose proof (kmem_inv_NoDup _ _ HI) as ND. eapply (NoDup_lookup _ i j c.1 ND); by rewrite list_lookup_fmap, ?Hb, ?Hc.
    + replace ((fun t => PAGE_TOP (t.1 - BLKHDR_SIZE)) <$> T) with ((fun b => PAGE_TOP b.1) <$> L); [by apply kmem_pages_held|].
      clear -ET. induction ET as [|t b T L (Et&_) _ IH]; [done|]. cbn [fmap list_fmap]. rewrite <- IH. f_equal. f_equal. unfold payload in Et. lia.
  - intros ops1 n ops2 h T h' -> Er Ea. apply Forall_app in Hops as [Hops1 [Hn _]%Forall_cons].
    destruct (krun_ok ops1 _ [] [] (kmem_init_live s Hs) ltac:(constructor) Hops1) as (h1&T1&L1&E1&HI&_). rewrite E1 in Er. injection Er as -> ->.
    destruct (kmem_alloc_live h L1 n HI Hn) as [(h2&E2&_&Hk)|(r&s2&h2&E2&Hr&_)]; rewrite E2 in Ea; simplify_eq; [done|lia].
Qed.
End Spec.

(** ** On the small machine of PageSpec: the static variables of kmem.c lie in
    the reserved pages *)
Module KmemDemo.
Import PageDemo.

Definition free_blocks := 0x80003000.
Definition kmem_pages := 0x80003800.
Definition static (x : Z) : Prop := 0x80003000 <= x < 0x80005000.
#[local] Instance source : PageSource pmem := page_source OFFSET head.
#[local] Instance laws : PageSourceLaws pmem OFFSET static := page_laws OFFSET head offset_ok static.

Lemma apart i : 0 <= i < NR_BLOCK_LIST -> kmem_pages <> Kmem.free_head free_blocks i.
Proof. unfold kmem_pages, Kmem.free_head, free_blocks, NR_BLOCK_LIST, PAGE_SIZE. change (4096 / 16) with 256. lia. Qed.
Lemma heads_static x : is_head free_blocks kmem_pages x -> static x.
Proof.
  unfold is_head, static, kmem_pages, Kmem.free_head, free_blocks, NR_BLOCK_LIST, PAGE_SIZE. change (4096 / 16) with 256.
  intros [->|(i&Hi&->)]; lia.
Qed.

Lemma kmem_pages_free : kp_inv mem ∅.
Proof.
  exists free. split; [exact pages|]. split; [intros a ?%elem_of_empty; done|]. intros x Hs (b&Hb&Hx). unfold static, in_block in *.
  apply elem_of_cons in Hb as [->|[->|[]%elem_of_nil]%elem_of_cons]; cbn in Hx; lia.
Qed.

Definition heap0 : kheap pmem := kmem_init free_blocks kmem_pages mem.
Lemma heap0_inv : kmem_inv OFFSET static free_blocks kmem_pages heap0 [].
Proof. unfold heap0. apply kmem_init_live, kmem_pages_free. Qed.

#[local] Opaque heap0 kmem_alloc kmem_free.

Lemma kmem_alloc_spec_witness : kmem_inv OFFSET static free_blocks kmem_pages heap0 [] /\
  ((exists h', kmem_alloc OFFSET free_blocks kmem_pages 100 heap0 = Some (0, h') /\ kmem_inv OFFSET static free_blocks kmem_pages h' [] /\
      kp_alloc PAGE_SIZE (Kmem.source heap0) = Some (0, Kmem.source h')) \/
   (exists r s h', kmem_alloc OFFSET free_blocks kmem_pages 100 heap0 = Some (r, h') /\ 0 < r /\
      kmem_inv OFFSET static free_blocks kmem_pages h' [(r - BLKHDR_SIZE, s)] /\
      100 + BLKHDR_SIZE <= s /\ forall b x, b ∈ [] -> in_block x (r - BLKHDR_SIZE, s) -> ~ in_block x b)).
Proof.
  split; [exact heap0_inv|].
  exact (kmem_alloc_spec OFFSET static free_blocks kmem_pages offset_ok apart heads_static heap0 [] 100 heap0_inv ltac:(lia)).
Defined.

Lemma first_alloc : fst <$> kmem_alloc OFFSET free_blocks kmem_pages 100 heap0 = Some 0x8000101c.
Proof. by vm_compute. Qed.

Lemma one_block_held : exists h b s, kmem_inv OFFSET static free_blocks kmem_pages h [(b, s)].
Proof.
  pose proof first_alloc as Ef.
  destruct (kmem_alloc_live OFFSET static free_blocks kmem_pages offset_ok apart heads_static heap0 [] 100 heap0_inv ltac:(lia))
    as [(h'&E&_)|(r&s&h'&_&_&_&HI)]; [rewrite E in Ef; discriminate Ef|by exists h', (r - BLKHDR_SIZE), s].
Qed.

Lemma kmem_free_spec_witness : exists h b s, kmem_inv OFFSET static free_blocks kmem_pages h [(b, s)] /\
  exists h' L', kmem_free OFFSET free_blocks kmem_pages (b + BLKHDR_SIZE) h = Some h' /\
    kmem_inv OFFSET static free_blocks kmem_pages h' L' /\ [(b, s)] ≡ₚ (b, s) :: L'.
Proof.
  destruct one_block_held as (h&b&s&HI). exists h, b, s. split; [exact HI|].
  exact (kmem_free_spec OFFSET static free_blocks kmem_pages offset_ok apart heads_static h [(b, s)] b s HI (list_elem_of_here _ _)).
Defined.

(** Three blocks on two pages; the second page goes back when its two blocks are freed. *)
Definition ops : list kop := [KAlloc 100; KAlloc 4000; KAlloc 20; KFree 0; KFree 0].
Lemma ops_ok : Forall kop_ok ops.
Proof. unfold ops. repeat constructor; cbn; lia. Qed.

Lemma kmem_run_safe_witness : (snd <$> krun OFFSET free_blocks kmem_pages ops (heap0, [])) = Some [(0x8000101c, 100)] /\
  (exists h T, krun OFFSET free_blocks kmem_pages ops (heap0, []) = Some (h, T) /\
    (forall i j t u x, T !! i = Some t -> T !! j = Some u -> t.1 - BLKHDR_SIZE <= x < t.1 + t.2 -> u.1 - BLKHDR_SIZE <= x < u.1 + u.2 -> i = j) /\
    kp_inv (Kmem.source h) (list_to_set ((fun t => PAGE_TOP (t.1 - BLKHDR_SIZE)) <$> T))).
Proof.
  split; [vm_compute; reflexivity|].
  exact (proj1 (kmem_run_safe OFFSET static free_blocks kmem_pages offset_ok apart heads_static mem ops kmem_pages_free ops_ok)).
Defined.
End KmemDemo.
