(* ===== verification/Mmu.v ===== *)
(** * Mmu: address translation, sys/arch/i386/i386/mmu.c

    A page directory and the page tables it points to are pages of 1024 words.
    The memory is modelled at that grain: a page that holds a table maps word
    indices to words, words never written since memset() are 0, and using a page
    that holds no table is a fault ([None]).  Pages come from the interface of
    PageSource.  The TLB is not modelled: every routine flushes it. *)
From stdpp Require Import base numbers gmap list.
From S2P Require Import Prelude Queue Page PageSource.

Open Scope Z_scope.

(** ** cpu.h *)
Definition PDE_PRESENT := 1.
Definition PDE_WRITE := 2.
Definition PDE_USER := 4.
Definition PDE_ADDRESS := 0xfffff000.
Definition PTE_PRESENT := 1.
Definition PTE_WRITE := 2.
Definition PTE_USER := 4.
Definition PTE_NCACHE := 16.
Definition PTE_ADDRESS := 0xfffff000.
Definition PAGE_DIR (virt : Z) : Z := Z.land (Z.shiftr virt 22) 0x3ff.
Definition PAGE_TABLE (virt : Z) : Z := Z.land (Z.shiftr virt 12) 0x3ff.

(** arch.h: the types of a mapping *)
Definition PG_UNMAP := 0.
Definition PG_READ := 1.
Definition PG_WRITE := 2.
Definition PG_SYSTEM := 3.
Definition PG_IOMEM := 4.

(** A page of words. *)
Abbreviation table := (gmap Z Z).
Definition entry (t : table) (i : Z) : Z := default 0 (t !! i).

Section Mmu.
Context {P : Type} `{PageSource P} (OFFSET : Z).

Record mmu := mk_mmu { tabs : gmap Z table; upages : P }.
#[export] Instance mmu_eta : Settable mmu := fun x => mk_mmu (tabs x) (upages x).

Definition pte_present (d : table) (virt : Z) : bool := flag (entry d (PAGE_DIR virt)) PDE_PRESENT.
Definition page_present (t : table) (virt : Z) : bool := flag (entry t (PAGE_TABLE virt)) PTE_PRESENT.
Definition pgd_to_pte (d : table) (virt : Z) : Z := phys_to_virt OFFSET (Z.land (entry d (PAGE_DIR virt)) PDE_ADDRESS).
Definition pte_to_page (t : table) (virt : Z) : Z := Z.land (entry t (PAGE_TABLE virt)) PTE_ADDRESS.

(** The switch on the type: pte_flag and pde_flag; panic() otherwise. *)
Definition map_flags (type : Z) : option (Z * Z) :=
  let user := Z.lor (Z.lor PDE_PRESENT PDE_WRITE) PDE_USER in
  let kern := Z.lor PDE_PRESENT PDE_WRITE in
  if type =? PG_UNMAP then Some (0, user)
  else if type =? PG_READ then Some (Z.lor PTE_PRESENT PTE_USER, user)
  else if type =? PG_WRITE then Some (Z.lor (Z.lor PTE_PRESENT PTE_WRITE) PTE_USER, user)
  else if type =? PG_SYSTEM then Some (Z.lor PTE_PRESENT PTE_WRITE, kern)
  else if type =? PG_IOMEM then Some (Z.lor (Z.lor PTE_PRESENT PTE_WRITE) PTE_NCACHE, kern)
  else None.

(** The page table for [va]: the one there is, or a new one, all zero.  Nothing
    when there is no page for it; a fault where the ASSERT fails. *)
Definition get_table (pgd va pte_flag pde_flag : Z) (m : mmu) : option (option Z * mmu) :=
  d ← tabs m !! pgd;
  if pte_present d va then Some (Some (pgd_to_pte d va), m)
  else if pte_flag =? 0 then None
  else
    r ← kp_alloc PAGE_SIZE (upages m);
    let (pg, p) := r : Z * P in
    if pg =? 0 then Some (None, m <| upages := p |>)
    else
      let pte := phys_to_virt OFFSET pg in
      Some (Some pte, mk_mmu (<[pte := ∅]> (<[pgd := <[PAGE_DIR va := Z.lor pg pde_flag]> d]> (tabs m))) p).

(** while (size > 0): [n] is the number of pages left. *)
Fixpoint map_pages (n : nat) (pgd pa va pte_flag pde_flag : Z) (m : mmu) : option (Z * mmu) :=
  match n with
  | O => Some (0, m)
  | S n =>
      r ← get_table pgd va pte_flag pde_flag m;
      let (o, m) := r : option Z * mmu in
      match o with
      | None => Some (-1, m)
      | Some pte =>
          t ← tabs m !! pte;
          let m := m <| tabs ::= <[pte := <[PAGE_TABLE va := Z.lor pa pte_flag]> t]> |> in
          map_pages n pgd (u32 (pa + PAGE_SIZE)) (u32 (va + PAGE_SIZE)) pte_flag pde_flag m
      end
  end.

Definition mmu_map (pgd phys virt size type : Z) (m : mmu) : option (Z * mmu) :=
  let pa := PAGE_ALIGN phys in
  let va := PAGE_ALIGN virt in
  let size := PAGE_TRUNC size in
  f ← map_flags type;
  map_pages (Z.to_nat (size / PAGE_SIZE)) pgd pa va f.1 f.2 m.

(** memcpy(&pgd[i], &boot_pgd[i], (size_t)(1024 - i)): the length is in bytes, so
    a quarter as many words. *)
Definition copy_words (i len : Z) (src dst : table) : table :=
  foldl (fun t k => <[k := entry src k]> t) dst (seqZ i (len / 4)).

Definition mmu_newmap (boot_pgd : Z) (m : mmu) : option (Z * mmu) :=
  r ← kp_alloc PAGE_SIZE (upages m);
  let (pg, p) := r : Z * P in
  let m := m <| upages := p |> in
  if pg =? 0 then Some (0, m)
  else
    let pgd := phys_to_virt OFFSET pg in
    b ← tabs m !! boot_pgd;
    let i := PAGE_DIR OFFSET in
    Some (pgd, m <| tabs ::= <[pgd := copy_words i (1024 - i) b ∅]> |>).

(** for (i = 0; i < PAGE_DIR(PAGE_OFFSET); i++): a page given back is no table
    any more. *)
Fixpoint free_tables (ixs : list Z) (d : table) (m : mmu) : option mmu :=
  match ixs with
  | [] => Some m
  | i :: ixs =>
      let pte := entry d i in
      if pte =? 0 then free_tables ixs d m
      else
        let pa := Z.land pte PTE_ADDRESS in
        p ← kp_free pa PAGE_SIZE (upages m);
        free_tables ixs d (mk_mmu (delete (phys_to_virt OFFSET pa) (tabs m)) p)
  end.

Definition mmu_delmap (pgd : Z) (m : mmu) : option mmu :=
  d ← tabs m !! pgd;
  m ← free_tables (seqZ 0 (PAGE_DIR OFFSET)) d m;
  p ← kp_free (virt_to_phys OFFSET pgd) PAGE_SIZE (upages m);
  Some (mk_mmu (delete pgd (tabs m)) p).

(** for (pg = start; pg <= end; pg += PAGE_SIZE): are all pages there?  The loop
    does not end when [end] is the last page of the address space and all pages
    are present. *)
Fixpoint all_present (n : nat) (d : table) (pg fin : Z) (m : mmu) : option bool :=
  if fin <? pg then Some true
  else
    match n with
    | O => None
    | S n =>
        if negb (pte_present d pg) then Some false
        else
          t ← tabs m !! pgd_to_pte d pg;
          if negb (page_present t pg) then Some false else all_present n d (u32 (pg + PAGE_SIZE)) fin m
    end.

Definition mmu_extract (pgd virt size : Z) (m : mmu) : option Z :=
  let start := PAGE_TRUNC virt in
  let fin := PAGE_TRUNC (virt + size - 1) in
  d ← tabs m !! pgd;
  b ← all_present (Z.to_nat ((fin - start) / PAGE_SIZE + 1)) d start fin m;
  if negb b then Some 0
  else t ← tabs m !! pgd_to_pte d start; Some (u32 (pte_to_page t start + (virt - start))).

(** struct mmumap; the table ends with type 0. *)
Record mmumap := mk_mmumap { mm_phys : Z; mm_virt : Z; mm_size : Z; mm_type : Z }.
Fixpoint mmu_init (boot_pgd : Z) (map : list mmumap) (m : mmu) : option mmu :=
  match map with
  | [] => None
  | e :: map =>
      if mm_type e =? 0 then Some m
      else
        r ← mmu_map boot_pgd (mm_phys e) (mm_virt e) (mm_size e) (mm_type e) m;
        if negb (fst r =? 0) then None else mmu_init boot_pgd map (snd r)
  end.
End Mmu.
Arguments mmu : clear implicits.
Arguments mk_mmu {P}.
