(* ===== verification/MmuSpec.v ===== *)
(** * MmuSpec: what mmu.c does to the translation of user addresses

    The page-table entry of every user page is a function of the memory;
    mmu_map() changes exactly the entries of the range, mmu_extract() reads
    them, and the page tables are pages nobody else holds. *)
From stdpp Require Import base numbers gmap list.
From S2P Require Import Prelude Queue Page PageSpec PageSource Mmu.

Open Scope Z_scope.

(** ** Page addresses and flag bits in one word *)

Lemma lor_flags a f : aligned a -> 0 <= f < PAGE_SIZE -> Z.lor a f = a + f.
Proof.
  unfold aligned, PAGE_SIZE. intros Ha Hf. rewrite <- Z.lxor_lor, <- Z.add_nocarry_lxor; [done|..]; apply Z.bits_inj'; intros n Hn;
    rewrite Z.land_spec, Z.bits_0; replace a with (Z.shiftl (a / 4096) 12) by (rewrite Z.shiftl_mul_pow2 by lia; change (2 ^ 12) with 4096; Z.div_mod_to_equations; lia);
    rewrite Z.shiftl_spec by lia; (destruct (Z.lt_ge_cases n 12); [by rewrite (Z.testbit_neg_r (a / 4096)) by lia|]);
    rewrite (Z.bits_above_log2 f); rewrite ?andb_false_r; try done; try lia;
    (destruct (decide (f = 0)) as [->|]; [cbn; lia|]; apply Z.log2_lt_pow2; [lia|]; apply Z.lt_le_trans with (2 ^ 12); [lia|apply Z.pow_le_mono_r; lia]).
Qed.

Lemma land_address x : 0 <= x < 2 ^ 32 -> Z.land x 0xfffff000 = x - x mod PAGE_SIZE.
Proof.
  intros Hx. change 0xfffff000 with (Z.ldiff (Z.ones 32) (Z.ones 12)). rewrite Z.ldiff_land, Z.land_assoc, Z.land_ones, Z.mod_small by lia.
  rewrite <- Z.ldiff_land, Z.ldiff_ones_r, Z.shiftl_mul_pow2, Z.shiftr_div_pow2 by lia. change (2 ^ 12) with PAGE_SIZE. unfold PAGE_SIZE. Z.div_mod_to_equations. lia.
Qed.

Lemma word_address a f : aligned a -> 0 <= a < 2 ^ 32 -> 0 <= f < PAGE_SIZE -> Z.land (Z.lor a f) 0xfffff000 = a.
Proof.
  intros Ha Hr Hf. rewrite lor_flags by done. unfold aligned, PAGE_SIZE in *. rewrite land_address; unfold PAGE_SIZE; Z.div_mod_to_equations; lia.
Qed.

Lemma word_present a f : aligned a -> 0 <= f < PAGE_SIZE -> flag (Z.lor a f) 1 = Z.odd f.
Proof.
  intros Ha Hf. rewrite lor_flags by done. unfold flag. change 1 with (Z.ones 1). rewrite Z.land_ones by lia. change (2 ^ 1) with 2.
  unfold aligned, PAGE_SIZE in *. assert ((a + f) mod 2 = f mod 2) as -> by (Z.div_mod_to_equations; lia).
  rewrite Zmod_odd. by destruct (Z.odd f).
Qed.

Lemma PAGE_DIR_div va : 0 <= va < 2 ^ 32 -> PAGE_DIR va = va / 2 ^ 22.
Proof.
  intros Hv. unfold PAGE_DIR. change 0x3ff with (Z.ones 10). rewrite Z.land_ones, Z.shiftr_div_pow2 by lia. apply Z.mod_small.
  split; [apply Z.div_pos; lia|apply Z.div_lt_upper_bound; lia].
Qed.
Lemma PAGE_TABLE_div va : PAGE_TABLE va = (va / PAGE_SIZE) mod 1024.
Proof. unfold PAGE_TABLE. change 0x3ff with (Z.ones 10). rewrite Z.land_ones, Z.shiftr_div_pow2 by lia. done. Qed.

(** Two pages with the same entry are the same. *)
Lemma page_index va vb : 0 <= va < 2 ^ 32 -> 0 <= vb < 2 ^ 32 -> aligned va -> aligned vb ->
  PAGE_DIR va = PAGE_DIR vb -> PAGE_TABLE va = PAGE_TABLE vb -> va = vb.
Proof.
  intros Ha Hb Aa Ab. rewrite !PAGE_DIR_div, !PAGE_TABLE_div by done. unfold aligned, PAGE_SIZE in *. change (2 ^ 22) with 4194304.
  intros. Z.div_mod_to_equations. lia.
Qed.

(** ** Address spaces *)
Section Spec.
Context {P : Type} `{PageSource P} (OFFSET : Z) (static : Z -> Prop) `{!PageSourceLaws P OFFSET static}.
(** User addresses lie below OFFSET, which is a multiple of what one page
    table covers. *)
Context (HO : 0 < OFFSET < 2 ^ 32) (HOd : OFFSET mod 2 ^ 22 = 0).

Abbreviation user_flags := 7.
Definition dir_word (t : Z) : Z := Z.lor (t - OFFSET) user_flags.

(** The user half of a page directory: an empty entry or one for a page table of [T]. *)
Record dir_ok (d : table) (T : gset Z) : Prop := {
  do_entry : forall i, 0 <= i < PAGE_DIR OFFSET -> entry d i = 0 \/ exists t, t ∈ T /\ entry d i = dir_word t;
  do_table : forall t, t ∈ T -> exists i, 0 <= i < PAGE_DIR OFFSET /\ entry d i = dir_word t;
  do_inj : forall i j, 0 <= i < PAGE_DIR OFFSET -> 0 <= j < PAGE_DIR OFFSET -> entry d i = entry d j -> entry d i <> 0 -> i = j;
}.

Record space (m : mmu P) (pgd : Z) (T own : gset Z) : Prop := {
  sp_inv : kp_inv (upages m) own;
  sp_own : pgd ∈ own /\ T ⊆ own /\ pgd ∉ T;
  sp_tabs : forall t, t ∈ T -> is_Some (tabs m !! t);
  sp_dir : exists d, tabs m !! pgd = Some d /\ dir_ok d T;
}.

(** The entry of a page; 0 where there is no page table. *)
Definition pte (m : mmu P) (pgd va : Z) : Z :=
  match tabs m !! pgd with
  | Some d => if pte_present d va then match tabs m !! pgd_to_pte OFFSET d va with Some t => entry t (PAGE_TABLE va) | None => 0 end else 0
  | None => 0
  end.

Definition user_page (va : Z) : Prop := 0 <= va < OFFSET /\ aligned va.

Lemma user_dir va : user_page va -> 0 <= PAGE_DIR va < PAGE_DIR OFFSET.
Proof.
  intros [Hv _]. rewrite !PAGE_DIR_div by lia. split; [apply Z.div_pos; lia|]. apply Z.div_lt_upper_bound; [lia|]. Z.div_mod_to_equations. lia.
Qed.

Lemma OFFSET_aligned : aligned OFFSET.
Proof. unfold aligned, PAGE_SIZE. change (2 ^ 22) with 4194304 in HOd. Z.div_mod_to_equations. lia. Qed.

Lemma entry_insert t i j v : entry (<[i := v]> t) j = if decide (i = j) then v else entry t j.
Proof. unfold entry. rewrite lookup_insert. by case_decide. Qed.

(** A directory entry for a page table leads back to it. *)
Lemma dir_word_ok p own t : kp_inv p own -> t ∈ own ->
  flag (dir_word t) PDE_PRESENT = true /\ phys_to_virt OFFSET (Z.land (dir_word t) PDE_ADDRESS) = t /\ dir_word t <> 0.
Proof.
  intros HI Ht. destruct (kp_page _ _ t HI Ht) as (Hal&Hlo&Hhi&_). pose proof OFFSET_aligned as HOa. unfold dir_word, PDE_PRESENT, PDE_ADDRESS.
  assert (aligned (t - OFFSET)) as Ha by (unfold aligned, PAGE_SIZE in *; Z.div_mod_to_equations; lia).
  rewrite word_present, word_address by (done || unfold PAGE_SIZE in *; lia). split; [done|]. split.
  - unfold phys_to_virt. rewrite u32_small; unfold PAGE_SIZE in *; lia.
  - rewrite lor_flags by (done || unfold PAGE_SIZE; lia). lia.
Qed.

Section Space.
Context (m : mmu P) (pgd : Z) (T own : gset Z) (S : space m pgd T own).

Lemma own_word t : t ∈ T -> flag (dir_word t) PDE_PRESENT = true /\ phys_to_virt OFFSET (Z.land (dir_word t) PDE_ADDRESS) = t /\ dir_word t <> 0.
Proof. intros Ht. destruct (sp_own _ _ _ _ S) as (_&HT&_). apply (dir_word_ok (upages m) own); [apply S|by apply HT]. Qed.

(** The entry of the directory for a user page is empty or for a table of its own. *)
Lemma dir_lookup d va : tabs m !! pgd = Some d -> dir_ok d T -> user_page va ->
  (pte_present d va = false /\ entry d (PAGE_DIR va) = 0) \/
  (exists t, t ∈ T /\ pte_present d va = true /\ entry d (PAGE_DIR va) = dir_word t /\ pgd_to_pte OFFSET d va = t).
Proof.
  intros Ed HD Hva. unfold pte_present, pgd_to_pte. destruct (do_entry _ _ HD _ (user_dir va Hva)) as [E|(t&Ht&E)]; rewrite E; [by left|right].
  destruct (own_word t Ht) as (?&?&_). by exists t.
Qed.

Lemma dir_same d va vb : tabs m !! pgd = Some d -> dir_ok d T -> user_page va -> user_page vb -> pte_present d va = true ->
  pte_present d vb = true -> pgd_to_pte OFFSET d va = pgd_to_pte OFFSET d vb -> PAGE_DIR va = PAGE_DIR vb.
Proof.
  intros Ed HD Ha Hb Pa Pb E. destruct (dir_lookup d va Ed HD Ha) as [[? _]|(t&Ht&_&Et&Ept)]; [congruence|].
  destruct (dir_lookup d vb Ed HD Hb) as [[? _]|(t'&Ht'&_&Et'&Ept')]; [congruence|].
  apply (do_inj _ _ HD); [by apply user_dir..|congruence|]. rewrite Et. by apply own_word.
Qed.
End Space.

(** *** mmu_map *)

Definition has_table (m : mmu P) (pgd va : Z) : Prop := exists d, tabs m !! pgd = Some d /\ pte_present d va = true.

(** Pages that are no table of this address space keep what they hold. *)
Definition frame (m m' : mmu P) (pgd : Z) (T own : gset Z) : Prop :=
  forall k, k ∈ own -> k <> pgd -> k ∉ T -> tabs m' !! k = tabs m !! k.

Lemma get_table_ok m pgd T own va pte_flag : space m pgd T own -> user_page va ->
  (pte_flag <> 0 \/ has_table m pgd va) ->
  exists o m', get_table OFFSET pgd va pte_flag user_flags m = Some (o, m') /\
    match o with
    | None => m' = m /\ pte_flag <> 0 /\ ~ has_table m pgd va
    | Some pt => exists T' own', space m' pgd T' own' /\ own ⊆ own' /\ own' = own ∪ T' /\ T ⊆ T' /\ (T' ∖ T) ## own /\ frame m m' pgd T own /\
        (exists d, tabs m' !! pgd = Some d /\ pte_present d va = true /\ pgd_to_pte OFFSET d va = pt) /\ pt ∈ T' /\ (has_table m pgd va -> T' = T) /\
        forall vb, user_page vb -> pte m' pgd vb = pte m pgd vb /\ (has_table m pgd vb -> has_table m' pgd vb)
    end.
Proof.
  intros S Hva Hf. pose proof S as [HI (Hp&HT&HpT) Ht (d&Ed&HD)]. unfold get_table. rewrite Ed. cbn [mbind option_bind].
  destruct (dir_lookup m pgd T own S d va Ed HD Hva) as [[Ep Ee]|(t&Htin&Ep&Ee&Et)]; rewrite Ep.
  2: { eexists _, m. split; [done|]. exists T, own. split; [exact S|]. split; [done|].
    split; [by rewrite (comm_L (∪)), subseteq_union_1_L|]. split; [done|]. split; [rewrite difference_diag_L; apply disjoint_empty_l|].
    split; [done|]. split; [by exists d|]. split; [congruence|]. split; [done|done]. }
  assert (~ has_table m pgd va) as Hnt by (intros (d'&Ed'&Ep'); rewrite Ed in Ed'; injection Ed' as <-; rewrite Ep in Ep'; discriminate Ep').
  assert (pte_flag <> 0) as Hf0 by (by destruct Hf as [?|?]).
  rewrite (proj2 (Z.eqb_neq pte_flag 0)) by done.
  destruct (kp_alloc_page OFFSET static _ _ HI) as (r&p&E&[[-> ->]|(Hr&Hni&HI')]); rewrite E; cbn [mbind option_bind].
  { exists None, m. split; [by destruct m|done]. }
  rewrite (proj2 (Z.eqb_neq r 0)) by done. destruct (kp_page _ _ (r + OFFSET) HI') as (Hal&Hlo&Hhi&_); [set_solver|].
  assert (phys_to_virt OFFSET r = r + OFFSET) as -> by (unfold phys_to_virt; apply u32_small; unfold PAGE_SIZE in *; lia).
  set (t := r + OFFSET) in *. assert (Z.lor r user_flags = dir_word t) as Ew by (unfold dir_word, t; f_equal; lia). rewrite Ew.
  destruct (dir_word_ok _ _ t HI' (elem_of_union_l _ _ _ (proj2 (elem_of_singleton _ _) eq_refl))) as (Wp&Wt&W0).
  assert (t <> pgd) as Htp by (intros ->; done). assert (t ∉ T) as HtT by (intros Hin; by apply Hni, HT).
  set (d' := <[PAGE_DIR va := dir_word t]> d). eexists _, _. split; [done|]. cbn [option_map].
  assert (tabs (mk_mmu (<[t := ∅]> (<[pgd := d']> (tabs m))) p) !! pgd = Some d') as Ed' by (cbn; by rewrite lookup_insert_ne, lookup_insert_eq by done).
  assert (forall i, entry d' i = if decide (PAGE_DIR va = i) then dir_word t else entry d i) as Hd' by (intros i; apply entry_insert).
  assert (forall t', t' ∈ T -> dir_word t' <> dir_word t) as Hne.
  { intros t' Ht' E'. apply HtT. destruct (own_word m pgd T own S t' Ht') as (_&E1&_). rewrite E' in E1. congruence. }
  assert (dir_ok d' ({[t]} ∪ T)) as HD'.
  { split.
    - intros i Hi. rewrite Hd'. case_decide; [right; exists t; split; [apply elem_of_union_l, elem_of_singleton; reflexivity|reflexivity]|].
      destruct (do_entry _ _ HD i Hi) as [?|(t'&Ht'&?)]; [by left|right; exists t'; split; [by apply elem_of_union_r|done]].
    - intros t' [->%elem_of_singleton|Ht']%elem_of_union.
      + exists (PAGE_DIR va). split; [by apply user_dir|]. rewrite Hd'. by rewrite decide_True.
      + destruct (do_table _ _ HD t' Ht') as (i&Hi&Ei). exists i. split; [done|]. rewrite Hd', decide_False; [done|]. intros <-. rewrite Ee in Ei.
        by destruct (own_word m pgd T own S t' Ht') as (_&_&?).
    - intros i j Hi Hj. rewrite !Hd'. repeat case_decide; subst; try done; [intros E' _|intros E' _|by apply (do_inj _ _ HD)].
      + destruct (do_entry _ _ HD j Hj) as [E0|(t'&Ht'&Et')]; [congruence|]. rewrite Et' in E'. by destruct (Hne t' Ht').
      + destruct (do_entry _ _ HD i Hi) as [E0|(t'&Ht'&Et')]; [congruence|]. rewrite Et' in E'. by destruct (Hne t' Ht'). }
  exists ({[t]} ∪ T), ({[t]} ∪ own). split_and!.
  - split; cbn [upages tabs]; [done| |intros t' Ht'|by exists d'].
    + split; [by apply elem_of_union_r|]. split; [by apply union_mono_l|]. intros [?%elem_of_singleton|?]%elem_of_union; done.
    + rewrite !lookup_insert. repeat case_decide; [by eexists..|]. apply Ht. apply elem_of_union in Ht' as [?%elem_of_singleton|?]; done.
  - apply union_subseteq_r.
  - apply set_eq. intros x. rewrite !elem_of_union. split; [tauto|]. intros [?|[?|?%HT]]; tauto.
  - apply union_subseteq_r.
  - intros x [[->%elem_of_singleton|?]%elem_of_union ?]%elem_of_difference ?; done.
  - intros k Hk Hkp HkT. cbn. rewrite !lookup_insert_ne; [done|done|]. intros <-. done.
  - exists d'. unfold pte_present, pgd_to_pte. rewrite Hd', decide_True by done. done.
  - apply elem_of_union_l. by apply elem_of_singleton.
  - done.
  - intros vb Hvb. split; [|intros (d0&Ed0&P0); rewrite Ed in Ed0; injection Ed0 as <-; exists d'; split; [done|];
      revert P0; unfold pte_present; rewrite Hd'; by case_decide].
    unfold pte. rewrite Ed', Ed. unfold pte_present, pgd_to_pte. rewrite Hd'. case_decide as Hi.
    + rewrite Wp, Wt. cbn. rewrite lookup_insert_eq. unfold entry at 1. rewrite lookup_empty. cbn. rewrite <- Hi, Ee. done.
    + destruct (dir_lookup m pgd T own S d vb Ed HD Hvb) as [[_ Eb]|(t'&Ht'&_&Eb&_)]; rewrite Eb; [done|].
      destruct (own_word m pgd T own S t' Ht') as (->&->&_). cbn. rewrite !lookup_insert_ne; [done|congruence|]. intros <-. done.
Qed.

Lemma set_pte_ok m pgd T own va d t w : space m pgd T own -> user_page va -> tabs m !! pgd = Some d -> pte_present d va = true ->
  tabs m !! pgd_to_pte OFFSET d va = Some t -> pgd_to_pte OFFSET d va ∈ T ->
  let m' := m <| tabs ::= <[pgd_to_pte OFFSET d va := <[PAGE_TABLE va := w]> t]> |> in
  space m' pgd T own /\ frame m m' pgd T own /\
  forall vb, user_page vb -> pte m' pgd vb = (if decide (va = vb) then w else pte m pgd vb) /\ (has_table m pgd vb -> has_table m' pgd vb).
Proof.
  intros S Hva Ed Ep Et HpT. cbv zeta. pose proof S as [HI (Hp&HT&HpT') Ht (d0&Ed0&HD)]. rewrite Ed in Ed0. injection Ed0 as <-.
  set (pt := pgd_to_pte OFFSET d va) in *. assert (pt <> pgd) as Hne by (intros E; rewrite E in HpT; done).
  assert (<[pt := <[PAGE_TABLE va := w]> t]> (tabs m) !! pgd = Some d) as Ed' by (by rewrite lookup_insert_ne). split_and!.
  - split; cbn; [done|done| |by exists d]. intros t' Ht'. rewrite lookup_insert. case_decide; [by eexists|by apply Ht].
  - intros k _ _ Hk. cbn. rewrite lookup_insert_ne; [done|]. intros <-. done.
  - intros vb Hvb. split; [|intros (d0&Ed0&P0); rewrite Ed in Ed0; injection Ed0 as <-; by exists d].
    unfold pte. cbn [tabs set]. rewrite Ed', Ed. destruct (decide (va = vb)) as [<-|Hab].
    { rewrite Ep. fold pt. rewrite lookup_insert_eq, entry_insert. by rewrite decide_True. }
    destruct (pte_present d vb) eqn:Epb; [|done]. rewrite lookup_insert. case_decide as Ept; [|done]. rewrite <- Ept, Et. rewrite entry_insert, decide_False; [done|].
    intros Ei. apply Hab. destruct Hva as [? ?], Hvb as [? ?]. apply page_index; [lia|lia|done|done| |done].
    by apply (dir_same m pgd T own S d).
Qed.

(** The loop of mmu_map(): all pages of the range get their entries, or, when
    there is no page for a page table, those before it. *)
Lemma map_pages_ok pgd pte_flag n : forall m T own va pa, space m pgd T own -> aligned va -> aligned pa -> 0 <= va -> va + PAGE_SIZE * Z.of_nat n <= OFFSET ->
  0 <= pa -> pa + PAGE_SIZE * Z.of_nat n < 2 ^ 32 ->
  (pte_flag <> 0 \/ forall x, user_page x -> va <= x < va + PAGE_SIZE * Z.of_nat n -> has_table m pgd x) ->
  exists r m' T' own' k, map_pages OFFSET n pgd pa va pte_flag user_flags m = Some (r, m') /\ space m' pgd T' own' /\
    own' = own ∪ T' /\ T ⊆ T' /\ (T' ∖ T) ## own /\ frame m m' pgd T own /\
    ((r = 0 /\ k = Z.of_nat n) \/ (r = -1 /\ 0 <= k < Z.of_nat n /\ pte_flag <> 0)) /\
    ((forall x, user_page x -> va <= x < va + PAGE_SIZE * Z.of_nat n -> has_table m pgd x) -> r = 0 /\ T' = T) /\
    forall x, user_page x -> pte m' pgd x = (if decide (va <= x < va + PAGE_SIZE * k) then Z.lor (pa + (x - va)) pte_flag else pte m pgd x) /\
                             (has_table m pgd x -> has_table m' pgd x).
Proof.
  induction n as [|n IH]; intros m T own va pa S Ava Apa Hva Hvn Hpa Hpn Hf; cbn [map_pages].
  { exists 0, m, T, own, 0. split; [done|]. split; [done|]. destruct (sp_own _ _ _ _ S) as (_&HT&_).
    split; [by rewrite (comm_L (∪)), subseteq_union_1_L|]. split; [done|]. split; [rewrite difference_diag_L; apply disjoint_empty_l|]. split; [done|].
    split; [by left|]. split; [done|]. intros x _. rewrite decide_False by lia. done. }
  assert (0 < PAGE_SIZE) as HPS by done. assert (user_page va) as Huv by (split; [lia|done]).
  destruct (get_table_ok m pgd T own va pte_flag S Huv) as (o&m1&E1&Ho).
  { destruct Hf as [?|Hf]; [by left|right]. apply Hf; [done|lia]. }
  rewrite E1. cbn [mbind option_bind]. destruct o as [pt|].
  2: { destruct Ho as (->&Hf0&Hnt). exists (-1), m, T, own, 0. split; [done|]. split; [done|]. destruct (sp_own _ _ _ _ S) as (_&HT&_).
    split; [by rewrite (comm_L (∪)), subseteq_union_1_L|]. split; [done|]. split; [rewrite difference_diag_L; apply disjoint_empty_l|]. split; [done|].
    split; [right; split; [done|]; split; [lia|done]|]. split; [intros Ht; destruct Hnt; apply Ht; [done|lia]|]. intros x _. rewrite decide_False by lia. done. }
  destruct Ho as (T1&own1&S1&Hsub&Hown1&HT1&Hd1&F1&(d&Ed&Ep&Ept)&HptT&HTT1&Hpte1). subst pt. destruct (sp_tabs _ _ _ _ S1 _ HptT) as [t Et]. rewrite Et. cbn [mbind option_bind].
  destruct (set_pte_ok m1 pgd T1 own1 va d t (Z.lor pa pte_flag) S1 Huv Ed Ep Et HptT) as (S2&F2&Hpte2). set (m2 := _ <| tabs ::= _ |>) in *. clearbody m2.
  assert (aligned (va + PAGE_SIZE) /\ aligned (pa + PAGE_SIZE)) as [Ava' Apa'] by (unfold aligned, PAGE_SIZE in *; Z.div_mod_to_equations; lia).
  rewrite !u32_small by lia.
  destruct (IH m2 T1 own1 (va + PAGE_SIZE) (pa + PAGE_SIZE) S2 Ava' Apa') as (r&m'&T'&own'&k&E&S'&Hown'&HT'&Hd'&F'&Hk&HTT'&Hpte'); [lia..| |].
  { destruct Hf as [?|Hf]; [by left|right]. intros x Hx Hr. apply Hpte2; [done|]. apply Hpte1; [done|]. apply Hf; [done|lia]. }
  exists r, m', T', own', (k + 1). split; [done|]. split; [done|]. split; [rewrite Hown', Hown1, <- (assoc_L (∪)); f_equal; by apply subseteq_union_1_L|].
  split; [by transitivity T1|]. split; [|split; [|split; [lia|split]]].
  - intros x [Hx Hn]%elem_of_difference Ho. destruct (decide (x ∈ T1)) as [Hx1|Hx1]; [apply (Hd1 x); [by apply elem_of_difference|done]|].
    apply (Hd' x); [by apply elem_of_difference|by apply Hsub].
  - intros x Ho Hne Hn. assert (x ∉ T1) as Hx1 by (intros Hx1; apply (Hd1 x); [by apply elem_of_difference|done]).
    rewrite (F' x) by (done || by apply Hsub). rewrite (F2 x) by (done || by apply Hsub). by apply F1.
  - intros Ht. destruct HTT' as [-> ->]; [intros x Hx Hr; apply Hpte2; [done|]; apply Hpte1; [done|]; apply Ht; [done|lia]|]. split; [done|]. apply HTT1, Ht; [done|lia].
  - intros x Hx. destruct (Hpte' x Hx) as [-> Hh]. destruct (Hpte2 x Hx) as [E2 Hh2]. destruct (Hpte1 x Hx) as [E1' Hh1]. split; [|tauto].
    rewrite E2, E1'. assert (0 <= k) by lia. destruct (decide (va = x)) as [<-|Hne].
    + rewrite decide_False by lia. rewrite decide_True by lia. f_equal. lia.
    + destruct Hx as [_ Hx]. assert (~ va < x < va + PAGE_SIZE) as Hgap by (unfold aligned, PAGE_SIZE in *; Z.div_mod_to_equations; lia).
      replace (pa + PAGE_SIZE + (x - (va + PAGE_SIZE))) with (pa + (x - va)) by lia.
      destruct (decide (va + PAGE_SIZE <= x < va + PAGE_SIZE + PAGE_SIZE * k)); [rewrite decide_True by lia|rewrite decide_False by lia]; done.
Qed.

Lemma PAGE_TRUNC_div x : 0 <= x < 2 ^ 32 -> PAGE_TRUNC x = x - x mod PAGE_SIZE.
Proof. intros Hx. unfold PAGE_TRUNC. rewrite ldiff_mask, u32_small by done. done. Qed.
Lemma PAGE_TRUNC_id x : 0 <= x < 2 ^ 32 -> aligned x -> PAGE_TRUNC x = x.
Proof. intros Hx Ha. rewrite PAGE_TRUNC_div by done. unfold aligned in Ha. lia. Qed.
Lemma PAGE_ALIGN_page_id x : 0 <= x -> x + PAGE_SIZE <= 2 ^ 32 -> aligned x -> PAGE_ALIGN x = x.
Proof. intros Hx Hh Ha. apply PAGE_ALIGN_id; unfold PAGE_MASK, PAGE_SIZE in *; (done || lia). Qed.

Lemma mmu_map_ok m pgd T own phys virt size type f : space m pgd T own -> map_flags type = Some (f, user_flags) ->
  aligned virt -> aligned phys -> aligned size -> 0 <= virt -> 0 < size -> virt + size <= OFFSET -> 0 <= phys -> phys + size + PAGE_SIZE <= 2 ^ 32 ->
  (f <> 0 \/ forall x, user_page x -> virt <= x < virt + size -> has_table m pgd x) ->
  exists r m' T' own' k, mmu_map OFFSET pgd phys virt size type m = Some (r, m') /\ space m' pgd T' own' /\
    own' = own ∪ T' /\ T ⊆ T' /\ (T' ∖ T) ## own /\ frame m m' pgd T own /\
    ((r = 0 /\ k = size) \/ (r = -1 /\ 0 <= k < size /\ f <> 0)) /\
    ((forall x, user_page x -> virt <= x < virt + size -> has_table m pgd x) -> r = 0 /\ T' = T) /\
    forall x, user_page x -> pte m' pgd x = (if decide (virt <= x < virt + k) then Z.lor (phys + (x - virt)) f else pte m pgd x) /\
                             (has_table m pgd x -> has_table m' pgd x).
Proof.
  intros S Ef Av Ap As Hv Hs Hvs Hp Hps Hf. unfold mmu_map. rewrite Ef. cbn [mbind option_bind fst snd].
  pose proof OFFSET_aligned as HOa. rewrite (PAGE_ALIGN_page_id phys), PAGE_TRUNC_id by (done || unfold PAGE_SIZE in *; lia).
  assert (virt + PAGE_SIZE <= OFFSET) as Hv1 by (unfold aligned, PAGE_SIZE in *; Z.div_mod_to_equations; lia).
  rewrite (PAGE_ALIGN_page_id virt) by (done || lia).
  assert (PAGE_SIZE * Z.of_nat (Z.to_nat (size / PAGE_SIZE)) = size) as En by (unfold aligned, PAGE_SIZE in *; Z.div_mod_to_equations; lia).
  set (n := Z.to_nat _) in *. assert (0 < PAGE_SIZE) as HPS by done.
  destruct (map_pages_ok pgd f n m T own virt phys S Av Ap) as (r&m'&T'&own'&k&E&S'&H1&H2&H3&H4&Hk&HTT&Hx); rewrite ?En; [lia..| |].
  { destruct Hf as [?|Hf]; [by left|right]. done. }
  exists r, m', T', own', (PAGE_SIZE * k). rewrite En in HTT. split; [done|]. split; [done|]. split; [done|]. split; [done|]. split; [done|]. split; [done|]. split; [|done]. destruct Hk as [[-> ->]|(->&?&?)]; [left; split; [done|lia]|right]. unfold PAGE_SIZE in *. split_and!; [done|lia..|done].
Qed.

(** *** mmu_extract *)

Definition present (w : Z) : bool := flag w PTE_PRESENT.

Lemma pte_unfold m pgd T own d va : space m pgd T own -> tabs m !! pgd = Some d -> user_page va ->
  (pte_present d va = false /\ pte m pgd va = 0) \/
  (exists t, pte_present d va = true /\ tabs m !! pgd_to_pte OFFSET d va = Some t /\ pte m pgd va = entry t (PAGE_TABLE va)).
Proof.
  intros S Ed Hva. pose proof S as [_ _ Ht (d0&Ed0&HD)]. rewrite Ed in Ed0. injection Ed0 as <-. unfold pte. rewrite Ed.
  destruct (dir_lookup m pgd T own S d va Ed HD Hva) as [[Ep _]|(t&HtT&Ep&_&Ept)]; rewrite Ep; [by left|right].
  rewrite Ept. destruct (Ht t HtT) as [tb Etb]. exists tb. rewrite Etb. done.
Qed.

Lemma all_present_ok m pgd T own d fin n : forall pg, space m pgd T own -> tabs m !! pgd = Some d -> user_page pg -> user_page fin ->
  fin + PAGE_SIZE <= pg + PAGE_SIZE * Z.of_nat n ->
  exists b, all_present OFFSET n d pg fin m = Some b /\ (b = true <-> forall x, user_page x -> pg <= x <= fin -> present (pte m pgd x) = true).
Proof.
  induction n as [|n IH]; intros pg S Ed Hpg Hfin Hn; cbn [all_present]; (assert (0 < PAGE_SIZE) as HPS by done).
  { destruct (Z.ltb_spec fin pg); [|lia]. exists true. split; [done|]. split; [intros _ x _ ?; lia|done]. }
  destruct (Z.ltb_spec fin pg) as [Hlt|Hge].
  { exists true. split; [done|]. split; [intros _ x _ ?; lia|done]. }
  assert (present (pte m pgd pg) = false -> (false = true <-> forall x, user_page x -> pg <= x <= fin -> present (pte m pgd x) = true)) as Hno.
  { intros Hf. split; [done|]. intros Hall. rewrite Hall in Hf by (done || lia). done. }
  destruct (pte_unfold m pgd T own d pg S Ed Hpg) as [[Ep Ew]|(t&Ep&Et&Ew)]; rewrite Ep; cbn [negb].
  { exists false. split; [done|]. apply Hno. by rewrite Ew. }
  rewrite Et. cbn [mbind option_bind]. unfold page_present. rewrite <- Ew. fold (present (pte m pgd pg)). destruct (present (pte m pgd pg)) eqn:Epr; cbn [negb].
  2: { exists false. split; [done|]. by apply Hno. }
  assert (aligned (pg + PAGE_SIZE)) as Ha by (destruct Hpg; unfold aligned, PAGE_SIZE in *; Z.div_mod_to_equations; lia).
  destruct (Z.eq_dec pg fin) as [->|Hne].
  - exists true. split.
    + rewrite u32_small by (destruct Hfin; pose proof OFFSET_aligned; unfold aligned, PAGE_SIZE in *; Z.div_mod_to_equations; lia).
      destruct n; cbn [all_present]; by rewrite (proj2 (Z.ltb_lt _ _)) by lia.
    + split; [|done]. intros _ x Hx Hr. replace x with fin by lia. done.
  - assert (pg + PAGE_SIZE <= fin) as Hle by (destruct Hpg, Hfin; unfold aligned, PAGE_SIZE in *; Z.div_mod_to_equations; lia).
    pose proof Hfin as [Hf1 _]. pose proof Hpg as [Hp1 _]. rewrite u32_small by lia. destruct (IH (pg + PAGE_SIZE) S Ed) as (b&E&Hb); [split; [destruct Hpg; lia|done]|done|lia|].
    exists b. split; [done|]. rewrite Hb. split; intros Hall x Hx Hr; [|apply Hall; [done|lia]].
    destruct (Z.eq_dec x pg) as [->|]; [done|]. apply Hall; [done|]. destruct Hx, Hpg; unfold aligned, PAGE_SIZE in *; Z.div_mod_to_equations; lia.
Qed.

Definition page (va : Z) : Z := va - va mod PAGE_SIZE.

Lemma user_trunc va : 0 <= va < OFFSET -> PAGE_TRUNC va = page va /\ user_page (page va).
Proof.
  intros Hv. rewrite PAGE_TRUNC_div by lia. split; [done|]. unfold user_page, page, aligned, PAGE_SIZE. Z.div_mod_to_equations. lia.
Qed.

Lemma mmu_extract_ok m pgd T own virt size : space m pgd T own -> 0 <= virt -> 0 < size -> virt + size <= OFFSET ->
  exists r, mmu_extract OFFSET pgd virt size m = Some r /\
    ((forall x, user_page x -> page virt <= x < virt + size -> present (pte m pgd x) = true) ->
       r = u32 (Z.land (pte m pgd (page virt)) PTE_ADDRESS + (virt - page virt))) /\
    ((exists x, user_page x /\ page virt <= x < virt + size /\ present (pte m pgd x) = false) -> r = 0).
Proof.
  intros S Hv Hs Hvs. pose proof S as [_ _ _ (d&Ed&_)]. destruct (user_trunc virt ltac:(lia)) as [E1 U1]. destruct (user_trunc (virt + size - 1) ltac:(lia)) as [E2 U2].
  unfold mmu_extract. rewrite Ed. cbn [mbind option_bind]. rewrite E1, E2. set (fin := page (virt + size - 1)) in *.
  assert (page virt <= fin < virt + size) as Hle by (unfold fin, page, PAGE_SIZE; Z.div_mod_to_equations; lia).
  destruct (all_present_ok m pgd T own d fin (Z.to_nat ((fin - page virt) / PAGE_SIZE + 1)) (page virt) S Ed U1 U2) as (b&Eb&Hb).
  { destruct U1 as [? A1], U2 as [? A2]. unfold aligned, PAGE_SIZE in *. Z.div_mod_to_equations. lia. }
  rewrite Eb. cbn [mbind option_bind].
  assert (forall x, user_page x -> x < virt + size -> x <= fin) as Hfin.
  { intros x [? Ax] Hx. unfold fin, page, aligned, PAGE_SIZE in *. Z.div_mod_to_equations. lia. }
  destruct b; cbn [negb].
  - destruct (pte_unfold m pgd T own d (page virt) S Ed U1) as [[_ Ew]|(t&_&Et&Ew)].
    { pose proof (proj1 Hb eq_refl (page virt) U1 ltac:(lia)) as Hp. rewrite Ew in Hp. done. }
    rewrite Et. cbn [mbind option_bind]. eexists. split; [done|]. split; [intros _; by rewrite Ew|].
    intros (x&Hx&Hr&Hn). rewrite (proj1 Hb eq_refl x Hx) in Hn; [done|]. specialize (Hfin x Hx). lia.
  - exists 0. split; [done|]. split; [|done]. intros Hall. assert (false = true) by (apply Hb; intros x Hx Hr; apply Hall; [done|lia]). done.
Qed.

(** C29: mmu_map() of user pages: every page of the range gets the entry for its
    physical page with the flags of the type, the entry of no other page
    changes, new page tables are pages nobody held, and pages that belong to
    other address spaces or data keep their contents.  When it fails for want
    of a page, the pages before the one it stopped at are mapped. *)
Theorem mmu_map_spec m pgd T own phys virt size type f : space m pgd T own -> map_flags type = Some (f, user_flags) -> f <> 0 ->
  user_page virt -> aligned phys -> aligned size -> 0 < size -> virt + size <= OFFSET -> 0 <= phys -> phys + size + PAGE_SIZE <= 2 ^ 32 ->
  exists r m' T' k, mmu_map OFFSET pgd phys virt size type m = Some (r, m') /\ space m' pgd T' (own ∪ T') /\
    T ⊆ T' /\ (T' ∖ T) ## own /\ frame m m' pgd T own /\
    ((r = 0 /\ k = size) \/ (r = -1 /\ 0 <= k < size)) /\
    forall x, user_page x -> pte m' pgd x = if decide (virt <= x < virt + k) then Z.lor (phys + (x - virt)) f else pte m pgd x.
Proof.
  intros S Ef Hf [Hv Av] Ap As Hs Hvs Hp Hps.
  destruct (mmu_map_ok m pgd T own phys virt size type f S Ef Av Ap As ltac:(lia) Hs Hvs Hp Hps ltac:(by left)) as (r&m'&T'&own'&k&E&S'&->&?&?&?&Hk&_&Hx).
  exists r, m', T', k. split_and!; try done; [tauto|]. intros x Hxu. by apply Hx.
Qed.

(** mmu_map() with PG_UNMAP on pages that have page tables cannot fail: the
    entries of the range, and no others, are no longer present. *)
Theorem mmu_unmap_spec m pgd T own phys virt size : space m pgd T own ->
  user_page virt -> aligned phys -> aligned size -> 0 < size -> virt + size <= OFFSET -> 0 <= phys -> phys + size + PAGE_SIZE <= 2 ^ 32 ->
  (forall x, user_page x -> virt <= x < virt + size -> has_table m pgd x) ->
  exists m' T', mmu_map OFFSET pgd phys virt size PG_UNMAP m = Some (0, m') /\ space m' pgd T' (own ∪ T') /\ frame m m' pgd T own /\
    forall x, user_page x -> if decide (virt <= x < virt + size) then present (pte m' pgd x) = false else pte m' pgd x = pte m pgd x.
Proof.
  intros S [Hv Av] Ap As Hs Hvs Hp Hps Ht.
  destruct (mmu_map_ok m pgd T own phys virt size PG_UNMAP 0 S eq_refl Av Ap As ltac:(lia) Hs Hvs Hp Hps ltac:(by right))
    as (r&m'&T'&own'&k&E&S'&->&?&?&?&[[-> ->]|(_&_&?)]&_&Hx); [|done].
  exists m', T'. split_and!; try done. intros x Hxu. destruct (Hx x Hxu) as [Ex _]. case_decide as Hr; [|done]. rewrite Ex. unfold present, PTE_PRESENT. rewrite word_present; [done| |done].
  destruct Hxu as [_ Ax]. unfold aligned, PAGE_SIZE in *. Z.div_mod_to_equations. lia.
Qed.

(** mmu_extract() of a user range that does not wrap around returns NULL when a
    page of it is not present, and the physical address of its first byte when
    all are. *)
Theorem mmu_extract_spec m pgd T own virt size : space m pgd T own -> 0 <= virt -> 0 < size -> virt + size <= OFFSET ->
  exists r, mmu_extract OFFSET pgd virt size m = Some r /\
    ((forall x, user_page x -> page virt <= x < virt + size -> present (pte m pgd x) = true) ->
       r = u32 (Z.land (pte m pgd (page virt)) PTE_ADDRESS + (virt - page virt))) /\
    ((exists x, user_page x /\ page virt <= x < virt + size /\ present (pte m pgd x) = false) -> r = 0).
Proof. apply mmu_extract_ok. Qed.

(** What was mapped is found: after a successful mmu_map() to a physical block,
    mmu_extract() of any range inside the mapped one gives the address of the
    same byte of the block. *)
Theorem mmu_map_extract m pgd T own phys virt size type f a n : space m pgd T own -> map_flags type = Some (f, user_flags) -> f <> 0 ->
  user_page virt -> aligned phys -> aligned size -> 0 < size -> virt + size <= OFFSET -> 0 <= phys -> phys + size + PAGE_SIZE <= 2 ^ 32 ->
  virt <= a -> 0 < n -> a + n <= virt + size ->
  exists r m', mmu_map OFFSET pgd phys virt size type m = Some (r, m') /\ (r = 0 -> mmu_extract OFFSET pgd a n m' = Some (phys + (a - virt))).
Proof.
  intros S Ef Hf [Hv Av] Ap As Hs Hvs Hp Hps Ha Hn Han.
  destruct (mmu_map_ok m pgd T own phys virt size type f S Ef Av Ap As ltac:(lia) Hs Hvs Hp Hps ltac:(by left)) as (r&m'&T'&own'&k&E&S'&_&_&_&_&Hk&_&Hx).
  exists r, m'. split; [done|]. intros ->. destruct Hk as [[_ ->]|[? _]]; [|done].
  destruct (mmu_extract_ok m' pgd T' own' a n S' ltac:(lia) Hn ltac:(lia)) as (p&Ep&Hall&_). rewrite Ep. f_equal.
  assert (Z.odd f = true /\ 0 <= f < PAGE_SIZE) as [Hodd Hfr].
  { unfold map_flags in Ef. repeat (case_match; [first [discriminate Ef|inversion Ef; subst f; first [by destruct Hf|by vm_compute]]|]). done. }
  assert (virt <= page a) as Hva by (unfold page, aligned, PAGE_SIZE in *; Z.div_mod_to_equations; lia).
  assert (forall x, user_page x -> page a <= x < a + n -> aligned (phys + (x - virt)) /\ pte m' pgd x = Z.lor (phys + (x - virt)) f) as Hpx.
  { intros x Hxu Hr. destruct (Hx x Hxu) as [Ex _]. rewrite decide_True in Ex by lia. split; [|done]. destruct Hxu as [_ Ax]. unfold aligned, PAGE_SIZE in *. Z.div_mod_to_equations. lia. }
  rewrite Hall.
  - destruct (user_trunc a ltac:(lia)) as [_ Ua]. destruct (Hpx (page a) Ua) as [Apx ->]; [unfold page, PAGE_SIZE; Z.div_mod_to_equations; lia|].
    assert (page a <= a) by (unfold page, PAGE_SIZE; Z.div_mod_to_equations; lia).
    unfold PTE_ADDRESS. unfold PAGE_SIZE in *. rewrite word_address, u32_small by (done || lia). lia.
  - intros x Hxu Hr. destruct (Hpx x Hxu Hr) as [Apx ->]. unfold present, PTE_PRESENT. by rewrite word_present.
Qed.

(** *** New and deleted address spaces *)

Lemma copy_words_entry i len src dst k : entry (copy_words i len src dst) k = if decide (i <= k < i + len / 4) then entry src k else entry dst k.
Proof.
  unfold copy_words. assert (forall l t, entry (foldl (fun t k => <[k := entry src k]> t) t l) k = if decide (k ∈ l) then entry src k else entry t k) as Hl.
  { induction l as [|x l IH]; intros t; cbn [foldl]; [by rewrite decide_False by apply not_elem_of_nil|]. rewrite IH, entry_insert.
    destruct (decide (k ∈ l)) as [?|Hn]; [by rewrite decide_True by (by right)|]. destruct (decide (x = k)) as [->|?]; [by rewrite decide_True by (by left)|].
    rewrite decide_False; [done|]. intros [?|?]%elem_of_cons; [by subst|done]. }
  rewrite Hl. destruct (decide (i <= k < i + len / 4)) as [Hk|Hk]; [rewrite decide_True by (by apply elem_of_seqZ)|rewrite decide_False by (by rewrite elem_of_seqZ)]; done.
Qed.

Lemma mmu_newmap_ok m own boot_pgd b : kp_inv (upages m) own -> tabs m !! boot_pgd = Some b ->
  (exists m', mmu_newmap OFFSET boot_pgd m = Some (0, m') /\ m' = m) \/
  (exists pgd m' d, mmu_newmap OFFSET boot_pgd m = Some (pgd, m') /\ pgd ∉ own /\ space m' pgd ∅ ({[pgd]} ∪ own) /\
     (forall k, k <> pgd -> tabs m' !! k = tabs m !! k) /\
     (forall x, user_page x -> pte m' pgd x = 0) /\ tabs m' !! pgd = Some d /\
     forall i, PAGE_DIR OFFSET <= i < 1024 -> entry d i = if decide (i < PAGE_DIR OFFSET + (1024 - PAGE_DIR OFFSET) / 4) then entry b i else 0).
Proof.
  intros HI Eb. unfold mmu_newmap. destruct (kp_alloc_page OFFSET static _ _ HI) as (r&p&E&[[-> ->]|(Hr&Hni&HI')]); rewrite E; cbn [mbind option_bind].
  { left. exists m. split; [by destruct m|done]. }
  right. rewrite (proj2 (Z.eqb_neq r 0)) by done. cbn [tabs set]. rewrite Eb. cbn [mbind option_bind].
  destruct (kp_page _ _ (r + OFFSET) HI') as (Hal&Hlo&Hhi&_); [apply elem_of_union_l; by apply elem_of_singleton|].
  assert (phys_to_virt OFFSET r = r + OFFSET) as -> by (unfold phys_to_virt; apply u32_small; unfold PAGE_SIZE in *; lia).
  set (pgd := r + OFFSET) in *. set (d := copy_words _ _ b ∅). eexists pgd, _, d. split; [done|]. split; [done|].
  assert (forall i, entry d i = if decide (PAGE_DIR OFFSET <= i < PAGE_DIR OFFSET + (1024 - PAGE_DIR OFFSET) / 4) then entry b i else 0) as Hd.
  { intros i. unfold d. rewrite copy_words_entry. case_decide; [done|]. unfold entry. by rewrite lookup_empty. }
  assert (forall i, 0 <= i < PAGE_DIR OFFSET -> entry d i = 0) as Hz by (intros i Hi; rewrite Hd, decide_False by lia; done).
  assert (tabs (m <| upages := p |> <| tabs ::= <[pgd := d]> |>) !! pgd = Some d) as Ed by (cbn; by rewrite lookup_insert_eq). split_and!.
  - split; cbn [upages tabs set].
    + done.
    + split; [apply elem_of_union_l; by apply elem_of_singleton|]. split; [apply empty_subseteq|apply not_elem_of_empty].
    + intros t ?%elem_of_empty. done.
    + exists d. split; [done|]. split; [intros i Hi; left; by apply Hz|intros t ?%elem_of_empty; done|intros i j Hi Hj _ Hnz; by destruct (Hnz (Hz i Hi))].
  - intros k Hk. cbn. by rewrite lookup_insert_ne.
  - intros x Hx. unfold pte. cbn [tabs set]. rewrite lookup_insert_eq. unfold pte_present. by rewrite Hz by (by apply user_dir).
  - done.
  - intros i Hi. rewrite Hd. repeat case_decide; (done || lia).
Qed.

(** mmu_newmap() returns NULL when there is no page, or a directory on a page
    nobody held: no user page is mapped.  Of the kernel half of the boot
    directory it takes over only the first quarter, since the length of the
    copy counts bytes where the index counts words. *)
Theorem mmu_newmap_spec m own boot_pgd b : kp_inv (upages m) own -> tabs m !! boot_pgd = Some b ->
  (exists m', mmu_newmap OFFSET boot_pgd m = Some (0, m') /\ m' = m) \/
  (exists pgd m' d, mmu_newmap OFFSET boot_pgd m = Some (pgd, m') /\ pgd ∉ own /\ space m' pgd ∅ ({[pgd]} ∪ own) /\
     (forall k, k <> pgd -> tabs m' !! k = tabs m !! k) /\
     (forall x, user_page x -> pte m' pgd x = 0) /\ tabs m' !! pgd = Some d /\
     forall i, PAGE_DIR OFFSET <= i < 1024 -> entry d i = if decide (i < PAGE_DIR OFFSET + (1024 - PAGE_DIR OFFSET) / 4) then entry b i else 0).
Proof. apply mmu_newmap_ok. Qed.

(** What a table of the address space is worth: its entry leads to it. *)
Definition table_word (t : Z) : Prop := dir_word t <> 0 /\ Z.land (dir_word t) PTE_ADDRESS = t - OFFSET /\ phys_to_virt OFFSET (t - OFFSET) = t.

Lemma table_word_ok p own t : kp_inv p own -> t ∈ own -> table_word t.
Proof.
  intros HI Ht. destruct (dir_word_ok p own t HI Ht) as (_&Wt&W0). destruct (kp_page _ _ t HI Ht) as (Hal&Hlo&Hhi&_). pose proof OFFSET_aligned as HOa. split; [done|].
  assert (Z.land (dir_word t) PTE_ADDRESS = t - OFFSET) as Ew.
  { unfold dir_word, PTE_ADDRESS. apply word_address; unfold aligned, PAGE_SIZE in *; [Z.div_mod_to_equations|..]; lia. }
  split; [done|]. by rewrite <- Ew.
Qed.

Lemma free_tables_ok d T ixs : dir_ok d T -> (forall t, t ∈ T -> table_word t) -> forall m own, NoDup ixs -> (forall i, i ∈ ixs -> 0 <= i < PAGE_DIR OFFSET) ->
  kp_inv (upages m) own -> (forall i t, i ∈ ixs -> t ∈ T -> entry d i = dir_word t -> t ∈ own) ->
  exists m' D, free_tables OFFSET ixs d m = Some m' /\ kp_inv (upages m') (own ∖ D) /\ (forall k, k ∉ D -> tabs m' !! k = tabs m !! k) /\
    forall t, t ∈ D <-> t ∈ T /\ exists i, i ∈ ixs /\ entry d i = dir_word t.
Proof.
  intros HD HW. induction ixs as [|i ixs IH]; intros m own ND Hi HI HT.
  { exists m, ∅. split; [done|]. split; [by rewrite difference_empty_L|]. split; [done|]. intros t. split; [intros ?%elem_of_empty; done|]. intros (_&i&?%elem_of_nil&_). done. }
  apply NoDup_cons in ND as [Hni ND]. cbn [free_tables]. destruct (do_entry _ _ HD i (Hi i ltac:(by left))) as [E|(t&Ht&E)].
  - rewrite E. cbn [Z.eqb]. destruct (IH m own ND) as (m'&D&Ef&HI'&Hk&HDe); [intros j Hj; apply Hi; by right|done|intros j t Hj; apply HT; by right|].
    exists m', D. split; [done|]. split; [done|]. split; [done|]. intros t. rewrite HDe. split; intros [Ht (j&Hj&Ej)]; (split; [done|]).
    + exists j. split; [by right|done].
    + apply elem_of_cons in Hj as [->|Hj]; [|by exists j]. rewrite E in Ej. destruct (HW t Ht) as (?&_). done.
  - destruct (HW t Ht) as (W0&Ww&Wt). rewrite E, (proj2 (Z.eqb_neq _ 0)) by done. rewrite Ww, Wt.
    assert (forall j u, j ∈ ixs -> u ∈ T -> entry d j = dir_word u -> u <> t) as Hne.
    { intros j u Hj Hu Eu ->. apply Hni. replace i with j; [done|]. apply (do_inj _ _ HD); [apply Hi; by right|apply Hi; by left|congruence|congruence]. }
    destruct (kp_free_page OFFSET static _ _ t HI (HT i t ltac:(by left) Ht E)) as (p&Ep&HI1). rewrite Ep. cbn [mbind option_bind].
    destruct (IH (mk_mmu (delete t (tabs m)) p) (own ∖ {[t]}) ND) as (m'&D&Ef&HI'&Hk&HDe); [intros j Hj; apply Hi; by right|done| |].
    { intros j u Hj Hu Eu. apply elem_of_difference. split; [by apply (HT j u); [right|..]|]. rewrite elem_of_singleton. by apply (Hne j). }
    exists m', ({[t]} ∪ D). split; [done|]. split; [by rewrite <- difference_difference_l_L|]. split.
    + intros k [Hkt HkD]%not_elem_of_union. rewrite (Hk k HkD). cbn. rewrite lookup_delete_ne; [done|]. intros <-. by apply Hkt, elem_of_singleton.
    + intros u. rewrite elem_of_union, elem_of_singleton, HDe. split.
      * intros [->|(Hu&j&Hj&Ej)]; [split; [done|]; exists i; split; [by left|done]|]. split; [done|]. exists j. split; [by right|done].
      * intros (Hu&j&[->|Hj]%elem_of_cons&Ej); [left|right; split; [done|by exists j]]. destruct (HW u Hu) as (_&_&Wu). destruct (HW u Hu) as (_&Wu'&_). rewrite <- Ej, E, Ww in Wu'. lia.
Qed.

Lemma mmu_delmap_ok m pgd T own : space m pgd T own ->
  exists m', mmu_delmap OFFSET pgd m = Some m' /\ kp_inv (upages m') (own ∖ T ∖ {[pgd]}) /\
    forall k, k <> pgd -> k ∉ T -> tabs m' !! k = tabs m !! k.
Proof.
  intros [HI (Hp&HT&HpT) Ht (d&Ed&HD)]. unfold mmu_delmap. rewrite Ed. cbn [mbind option_bind].
  destruct (free_tables_ok d T (seqZ 0 (PAGE_DIR OFFSET)) HD) with (m := m) (own := own) as (m1&D&E&HI1&Hk&HDe).
  - intros t Hin. apply (table_word_ok (upages m) own); [done|by apply HT].
  - apply NoDup_seqZ.
  - intros i Hi%elem_of_seqZ. lia.
  - done.
  - intros i t _ Hin _. by apply HT.
  - assert (D = T) as ->.
    { apply set_eq. intros t. rewrite HDe. split; [tauto|]. intros Hin. split; [done|]. destruct (do_table _ _ HD t Hin) as (i&?&?). exists i. split; [apply elem_of_seqZ; lia|done]. }
    rewrite E. cbn [mbind option_bind]. destruct (kp_page _ _ pgd HI Hp) as (_&Hlo&Hhi&_).
    assert (virt_to_phys OFFSET pgd = pgd - OFFSET) as -> by (unfold virt_to_phys; apply u32_small; unfold PAGE_SIZE in *; lia).
    destruct (kp_free_page OFFSET static _ _ pgd HI1) as (p&Ep&HI2); [by apply elem_of_difference|]. rewrite Ep. cbn [mbind option_bind].
    eexists. split; [done|]. split; [done|]. intros k Hkp HkT. cbn. rewrite lookup_delete_ne by done. by apply Hk.
Qed.

(** mmu_delmap() gives back the directory and every page table of the address
    space, and no other page. *)
Theorem mmu_delmap_spec m pgd T own : space m pgd T own ->
  exists m', mmu_delmap OFFSET pgd m = Some m' /\ kp_inv (upages m') (own ∖ T ∖ {[pgd]}) /\
    forall k, k <> pgd -> k ∉ T -> tabs m' !! k = tabs m !! k.
Proof. apply mmu_delmap_ok. Qed.

(** A range that wraps around the address space is not checked at all: as long as
    the first page has a page table, an address is returned whether or not any
    page is present. *)
Lemma mmu_extract_wraps m pgd T own virt size : space m pgd T own -> 0 <= virt < OFFSET -> has_table m pgd (page virt) ->
  2 ^ 32 < virt + size <= 2 ^ 32 + page virt ->
  mmu_extract OFFSET pgd virt size m = Some (u32 (Z.land (pte m pgd (page virt)) PTE_ADDRESS + (virt - page virt))).
Proof.
  intros S Hv (d&Ed&Hd) Hw. destruct (user_trunc virt Hv) as [E1 U1]. unfold mmu_extract. rewrite Ed. cbn [mbind option_bind]. rewrite E1.
  assert (PAGE_TRUNC (virt + size - 1) < page virt) as Hlt.
  { unfold PAGE_TRUNC. rewrite ldiff_mask. unfold u32. replace (virt + size - 1) with (virt + size - 1 - 2 ^ 32 + 1 * 2 ^ 32) by lia.
    assert (page virt <= virt) by (unfold page, PAGE_SIZE; Z.div_mod_to_equations; lia).
    rewrite Z.mod_add, Z.mod_small by lia. unfold PAGE_SIZE. Z.div_mod_to_equations. lia. }
  destruct (Z.to_nat _); cbn [all_present]; rewrite (proj2 (Z.ltb_lt _ _)) by lia; cbn [mbind option_bind negb];
    (destruct (pte_unfold m pgd T own d (page virt) S Ed U1) as [[Ep _]|(t&_&Et&Ew)]; [congruence|]); rewrite Et; cbn [mbind option_bind]; by rewrite Ew.
Qed.
End Spec.

(** ** On the small machine of PageSpec *)
Module MmuDemo.
Import PageDemo.
Definition static (x : Z) : Prop := 0x80003000 <= x < 0x80005000.
#[local] Instance source : PageSource pmem := page_source OFFSET head.
#[local] Instance laws : PageSourceLaws pmem OFFSET static := page_laws OFFSET head offset_ok static.

Lemma offset_range : 0 < OFFSET < 2 ^ 32.
Proof. done. Qed.
Lemma offset_dir : OFFSET mod 2 ^ 22 = 0.
Proof. done. Qed.

Lemma mmu_pages_free : kp_inv mem ∅.
Proof.
  exists free. split; [exact pages|]. split; [intros a ?%elem_of_empty; done|]. intros x Hs (b&Hb&Hx). unfold static, in_block in *.
  apply elem_of_cons in Hb as [->|[->|[]%elem_of_nil]%elem_of_cons]; cbn in Hx; lia.
Qed.

(** A boot directory with one entry, a new address space, and two pages mapped in it. *)
Definition boot : Z := 0x80003000.
Definition boot_dir : table := {[ 512 := 0x4003 ]}.
Definition m0 : mmu pmem := mk_mmu {[ boot := boot_dir ]} mem.
Definition m1 : mmu pmem := default m0 (snd <$> mmu_newmap OFFSET boot m0).
Definition pgd : Z := 0x80001000.
Definition m2 : mmu pmem := default m1 (snd <$> mmu_map OFFSET pgd 0x5000 0x8000 0x2000 PG_WRITE m1).

Lemma newmap_runs : fst <$> mmu_newmap OFFSET boot m0 = Some pgd.
Proof. by vm_compute. Qed.
Lemma map_runs : fst <$> mmu_map OFFSET pgd 0x5000 0x8000 0x2000 PG_WRITE m1 = Some 0.
Proof. by vm_compute. Qed.

Lemma mapped_word x : aligned x -> 0x8000 <= x -> Z.lor (0x5000 + (x - 0x8000)) 7 <> 0.
Proof. intros Ha Hx. rewrite lor_flags; [lia| |done]. unfold aligned, PAGE_SIZE in *. Z.div_mod_to_equations. lia. Qed.

Lemma seven : 7 <> 0.
Proof. done. Qed.

Lemma m0_boot : tabs m0 !! boot = Some boot_dir.
Proof. by vm_compute. Qed.
Lemma m0_pages : kp_inv (upages m0) ∅.
Proof. exact mmu_pages_free. Qed.

#[local] Opaque m0 mmu_newmap mmu_map.
Lemma m1_space : space OFFSET static m1 pgd ∅ ({[pgd]} ∪ ∅).
Proof.
  pose proof newmap_runs as Er. unfold m1.
  destruct (mmu_newmap_ok OFFSET static offset_range offset_dir m0 ∅ boot boot_dir m0_pages m0_boot) as [(m'&E&_)|(p&m'&d&E&_&S&_)]; rewrite E; rewrite E in Er; cbn [fmap option_fmap option_map fst snd from_option] in Er |- *; [discriminate Er|].
  injection Er as ->. exact S.
Qed.

#[local] Opaque m1.

Lemma m2_space : exists T own, space OFFSET static m2 pgd T own /\ forall x, user_page OFFSET x -> 0x8000 <= x < 0x8000 + 0x2000 -> has_table m2 pgd x.
Proof.
  pose proof map_runs as Er. unfold m2.
  destruct (mmu_map_ok OFFSET static offset_range offset_dir m1 pgd ∅ ({[pgd]} ∪ ∅) 0x5000 0x8000 0x2000 PG_WRITE 7 m1_space eq_refl
    eq_refl eq_refl eq_refl ltac:(done) ltac:(done) ltac:(done) ltac:(done) ltac:(done) (or_introl seven)) as (r&m'&T'&own'&k&E&S&_&_&_&_&Hk&_&Hx). rewrite E. rewrite E in Er. cbn [fmap option_fmap option_map fst snd from_option] in Er |- *. injection Er as ->.
  destruct Hk as [[_ ->]|[Hk _]]; [|discriminate Hk]. exists T', own'. split; [exact S|]. intros x Hu Hr. destruct (Hx x Hu) as [Ex _]. rewrite decide_True in Ex by done.
  assert (pte OFFSET m' pgd x <> 0) as Hnz by (rewrite Ex; apply mapped_word; [apply Hu|exact (proj1 Hr)]).
  clear -Hnz. unfold pte in Hnz. destruct (tabs m' !! pgd) as [d|] eqn:Ed; [|by destruct Hnz].
  destruct (pte_present d x) eqn:Ep; [exists d; split; [exact Ed|exact Ep]|by destruct Hnz].
Qed.

#[local] Opaque m2.
Lemma page_8000 : user_page OFFSET 0x8000.
Proof. done. Qed.

Lemma mmu_map_spec_witness : space OFFSET static m1 pgd ∅ ({[pgd]} ∪ ∅) /\ 
  exists r m' T' k, mmu_map OFFSET pgd 0x5000 0x8000 0x2000 PG_WRITE m1 = Some (r, m') /\ space OFFSET static m' pgd T' ({[pgd]} ∪ ∅ ∪ T') /\
    ∅ ⊆ T' /\ (T' ∖ ∅) ## {[pgd]} ∪ ∅ /\ frame m1 m' pgd ∅ ({[pgd]} ∪ ∅) /\
    ((r = 0 /\ k = 0x2000) \/ (r = -1 /\ 0 <= k < 0x2000)) /\
    forall x, user_page OFFSET x -> pte OFFSET m' pgd x = if decide (0x8000 <= x < 0x8000 + k) then Z.lor (0x5000 + (x - 0x8000)) 7 else pte OFFSET m1 pgd x.
Proof.
  split; [exact m1_space|].
  exact (mmu_map_spec OFFSET static offset_range offset_dir m1 pgd ∅ ({[pgd]} ∪ ∅) 0x5000 0x8000 0x2000 PG_WRITE 7 m1_space eq_refl seven page_8000
    eq_refl eq_refl ltac:(done) ltac:(done) ltac:(done) ltac:(done)).
Defined.

Lemma mmu_map_extract_witness :
  exists r m', mmu_map OFFSET pgd 0x5000 0x8000 0x2000 PG_WRITE m1 = Some (r, m') /\ (r = 0 -> mmu_extract OFFSET pgd 0x8ffe 4 m' = Some (0x5000 + (0x8ffe - 0x8000))).
Proof.
  exact (mmu_map_extract OFFSET static offset_range offset_dir m1 pgd ∅ ({[pgd]} ∪ ∅) 0x5000 0x8000 0x2000 PG_WRITE 7 0x8ffe 4 m1_space eq_refl seven page_8000
    eq_refl eq_refl ltac:(done) ltac:(done) ltac:(done) ltac:(done) ltac:(done) ltac:(done) ltac:(done)).
Defined.

Lemma mmu_unmap_spec_witness : exists T own, space OFFSET static m2 pgd T own /\
  exists m' T', mmu_map OFFSET pgd 0x5000 0x8000 0x2000 PG_UNMAP m2 = Some (0, m') /\ space OFFSET static m' pgd T' (own ∪ T') /\ frame m2 m' pgd T own /\
    forall x, user_page OFFSET x -> if decide (0x8000 <= x < 0x8000 + 0x2000) then present (pte OFFSET m' pgd x) = false else pte OFFSET m' pgd x = pte OFFSET m2 pgd x.
Proof.
  destruct m2_space as (T&own&S&Ht). exists T, own. split; [exact S|].
  exact (mmu_unmap_spec OFFSET static offset_range offset_dir m2 pgd T own 0x5000 0x8000 0x2000 S page_8000
    eq_refl eq_refl ltac:(done) ltac:(done) ltac:(done) ltac:(done) Ht).
Defined.

Lemma mmu_extract_spec_witness : exists T own, space OFFSET static m2 pgd T own /\
  exists r, mmu_extract OFFSET pgd 0x9ffe 4 m2 = Some r /\
    ((forall x, user_page OFFSET x -> page 0x9ffe <= x < 0x9ffe + 4 -> present (pte OFFSET m2 pgd x) = true) ->
       r = u32 (Z.land (pte OFFSET m2 pgd (page 0x9ffe)) PTE_ADDRESS + (0x9ffe - page 0x9ffe))) /\
    ((exists x, user_page OFFSET x /\ page 0x9ffe <= x < 0x9ffe + 4 /\ present (pte OFFSET m2 pgd x) = false) -> r = 0).
Proof.
  destruct m2_space as (T&own&S&_). exists T, own. split; [exact S|].
  exact (mmu_extract_spec OFFSET static offset_range offset_dir m2 pgd T own 0x9ffe 4 S ltac:(done) ltac:(done) ltac:(done)).
Defined.

Lemma mmu_newmap_spec_witness : kp_inv (upages m0) ∅ /\
  ((exists m', mmu_newmap OFFSET boot m0 = Some (0, m') /\ m' = m0) \/
   (exists pgd m' d, mmu_newmap OFFSET boot m0 = Some (pgd, m') /\ pgd ∉ (∅ : gset Z) /\ space OFFSET static m' pgd ∅ ({[pgd]} ∪ ∅) /\
     (forall k, k <> pgd -> tabs m' !! k = tabs m0 !! k) /\
     (forall x, user_page OFFSET x -> pte OFFSET m' pgd x = 0) /\ tabs m' !! pgd = Some d /\
     forall i, PAGE_DIR OFFSET <= i < 1024 -> entry d i = if decide (i < PAGE_DIR OFFSET + (1024 - PAGE_DIR OFFSET) / 4) then entry boot_dir i else 0)).
Proof. split; [exact m0_pages|]. exact (mmu_newmap_spec OFFSET static offset_range offset_dir m0 ∅ boot boot_dir m0_pages m0_boot). Defined.

Lemma mmu_delmap_spec_witness : exists T own, space OFFSET static m2 pgd T own /\
  exists m', mmu_delmap OFFSET pgd m2 = Some m' /\ kp_inv (upages m') (own ∖ T ∖ {[pgd]}) /\ forall k, k <> pgd -> k ∉ T -> tabs m' !! k = tabs m2 !! k.
Proof.
  destruct m2_space as (T&own&S&_). exists T, own. split; [exact S|]. exact (mmu_delmap_spec OFFSET static offset_range offset_dir m2 pgd T own S).
Defined.
End MmuDemo.
