(* ===== verification/HeapSource.v ===== *)
(** * HeapSource: what the users of kmem_alloc() rely on

    vm.c keeps its regions and maps in blocks of the kernel allocator.  The
    contract is stated on the set of pointers that are in use; the allocator of
    kmem.c obeys it. *)
From stdpp Require Import base numbers gmap list.
From S2P Require Import Prelude Queue Page PageSpec PageSource Kmem KmemSpec.

Open Scope Z_scope.

(** kmem_alloc(size), where 0 is NULL, and kmem_free(ptr). *)
Class HeapSource (K : Type) := {
  hs_alloc : Z -> K -> option (Z * K);
  hs_free : Z -> K -> option K;
}.

Class HeapSourceLaws (K : Type) `{HeapSource K} := {
  hs_inv : K -> gset Z -> Prop;
  hs_pos : forall k S a, hs_inv k S -> a ∈ S -> 0 < a;
  hs_alloc_ok : forall k S n, hs_inv k S -> 0 <= n <= 4048 -> exists r k', hs_alloc n k = Some (r, k') /\
    ((r = 0 /\ hs_inv k' S) \/ (r <> 0 /\ r ∉ S /\ hs_inv k' ({[r]} ∪ S)));
  hs_free_ok : forall k S a, hs_inv k S -> a ∈ S -> exists k', hs_free a k = Some k' /\ hs_inv k' (S ∖ {[a]});
}.

Section Source.
Context {P : Type} `{PageSource P} (OFFSET : Z) (static : Z -> Prop) `{!PageSourceLaws P OFFSET static}.
Context (free_blocks kmem_pages : Z) (HO : 0 <= OFFSET).
Context (heads_apart : forall i, 0 <= i < NR_BLOCK_LIST -> kmem_pages <> Kmem.free_head free_blocks i).
Context (heads_static : forall x, is_head free_blocks kmem_pages x -> static x).

Definition kmem_source : HeapSource (kheap P) := {|
  hs_alloc := kmem_alloc OFFSET free_blocks kmem_pages;
  hs_free := kmem_free OFFSET free_blocks kmem_pages;
|}.
#[local] Existing Instance kmem_source.

Definition kmem_set (h : kheap P) (S : gset Z) : Prop :=
  exists L, kmem_inv OFFSET static free_blocks kmem_pages h L /\ S = list_to_set (payload <$> L).

Lemma payload_inj L : NoDup L.*1 -> NoDup (payload <$> L).
Proof.
  intros ND. replace (payload <$> L) with ((fun x => x + BLKHDR_SIZE) <$> L.*1) by (by rewrite <- list_fmap_compose).
  apply NoDup_fmap; [|done]. intros x y E. lia.
Qed.

Lemma kmem_set_pos h S a : kmem_set h S -> a ∈ S -> 0 < a.
Proof.
  intros (L&(pages&[R _]&E)&->) (b&->&Hb)%elem_of_list_to_set%list_elem_of_fmap. rewrite <- E in Hb. apply live_of_elem in Hb as (hd&(p&Hp&Hb)%all_blocks_elem&_).
  destruct (pblocks_range _ (kr_wf _ _ _ _ _ _ _ R) p _ Hp Hb) as (?&_). destruct (pw_aligned _ (kr_wf _ _ _ _ _ _ _ R) p Hp) as (_&?&_).
  unfold payload, BLKHDR_SIZE, FIRST_BLK in *. cbn in *. lia.
Qed.

Lemma kmem_alloc_law h S n : kmem_set h S -> 0 <= n <= 4048 -> exists r h', hs_alloc n h = Some (r, h') /\
  ((r = 0 /\ kmem_set h' S) \/ (r <> 0 /\ r ∉ S /\ kmem_set h' ({[r]} ∪ S))).
Proof.
  intros (L&HI&->) Hn. destruct (kmem_alloc_live OFFSET static free_blocks kmem_pages HO heads_apart heads_static h L n HI Hn)
    as [(h'&E&HI'&_)|(r&s&h'&E&Hr&_&HI')]; cbn [hs_alloc kmem_source]; rewrite E; eexists _, h'; (split; [done|]); [left|right].
  - split; [done|]. by exists L.
  - pose proof (payload_inj _ (kmem_inv_NoDup _ _ _ _ _ _ HI')) as [Hni _]%NoDup_cons. assert (payload (r - BLKHDR_SIZE, s) = r) as Ep by (unfold payload; cbn; lia).
    rewrite Ep in Hni. split; [lia|]. split; [by rewrite elem_of_list_to_set|]. exists ((r - BLKHDR_SIZE, s) :: L). split; [done|]. rewrite fmap_cons, list_to_set_cons, Ep. done.
Qed.

Lemma kmem_free_law h S a : kmem_set h S -> a ∈ S -> exists h', hs_free a h = Some h' /\ kmem_set h' (S ∖ {[a]}).
Proof.
  intros (L&HI&->) (b&->&(L1&L2&->)%list_elem_of_split)%elem_of_list_to_set%list_elem_of_fmap. pose proof (payload_inj _ (kmem_inv_NoDup _ _ _ _ _ _ HI)) as ND.
  assert (L1 ++ b :: L2 ≡ₚ b :: L1 ++ L2) as E by (by rewrite Permutation_middle). destruct b as [b s].
  destruct (kmem_free_live OFFSET static free_blocks kmem_pages HO heads_apart heads_static h (L1 ++ L2) b s) as (h'&Ef&HI'); [by eapply kmem_inv_perm|].
  cbn [hs_free kmem_source]. change (payload (b, s)) with (b + BLKHDR_SIZE) at 1. rewrite Ef. exists h'. split; [done|]. exists (L1 ++ L2). split; [done|].
  rewrite E in ND |- *. cbn [fmap list_fmap] in *. apply NoDup_cons in ND as [Hni _]. rewrite list_to_set_cons. apply set_eq. intros x.
  rewrite elem_of_difference, elem_of_union, elem_of_singleton, elem_of_list_to_set. split; [tauto|]. intros Hx. split; [by right|]. intros ->. done.
Qed.

Definition kmem_laws : HeapSourceLaws (kheap P) := {|
  hs_inv := kmem_set;
  hs_pos := kmem_set_pos;
  hs_alloc_ok := kmem_alloc_law;
  hs_free_ok := kmem_free_law;
|}.
End Source.
