(* ===== verification/Vm.v ===== *)
(** * Vm: virtual memory, sys/mem/vm.c

    An address space is a circular list of regions in address order; its head
    lies in the map itself.  Regions are structures in kernel memory, linked by
    pointers, and a region shared between address spaces is on a second
    circular list: the model keeps the structures at their addresses and writes
    every assignment out.  Using a structure that is not there, or one that was
    freed, is a fault ([None]).

    The kernel allocator, the page allocator and the page tables are those of
    HeapSource, PageSource and Mmu.  The contents of memory are a function of
    the kernel address.  [debug] says whether ASSERT is compiled in. *)
From stdpp Require Import base numbers gmap list.
From S2P Require Import Prelude Core Queue Page PageSource HeapSource Mmu.

Open Scope Z_scope.

(** ** vm.h *)

Record region := mk_region {
  r_prev : Z; r_next : Z; r_sh_prev : Z; r_sh_next : Z;
  r_addr : Z; r_size : Z; r_flags : Z; r_phys : Z
}.
#[export] Instance region_eta : Settable region := fun x =>
  mk_region (r_prev x) (r_next x) (r_sh_prev x) (r_sh_next x) (r_addr x) (r_size x) (r_flags x) (r_phys x).

Definition REG_READ := 0x01.
Definition REG_WRITE := 0x02.
Definition REG_SHARED := 0x08.
Definition REG_MAPPED := 0x10.
Definition REG_FREE := 0x80.

(** struct vm_map but for its head, the region at the map's address. *)
Record vm_map := mk_vm_map { v_refcnt : Z; v_pgd : Z }.
#[export] Instance vm_map_eta : Settable vm_map := fun x => mk_vm_map (v_refcnt x) (v_pgd x).

Definition VMA_READ := 0x01.
Definition VMA_WRITE := 0x02.

Definition SIZEOF_REGION := 32.
Definition SIZEOF_VM_MAP := 40.

(** struct module but for its name *)
Record module := mk_module {
  m_phys : Z; m_size : Z; m_entry : Z; m_text : Z; m_data : Z; m_bss : Z; m_ksym : Z;
  m_textsz : Z; m_datasz : Z; m_bsssz : Z; m_ksymsz : Z
}.

Definition USTACK_BASE := 0 + PAGE_SIZE.
Definition USTACK_SIZE := 4096.

Section Vm.
Context {K P : Type} `{HeapSource K} `{PageSource P}.
Context (OFFSET boot_pgd : Z) (debug : bool).

Record vmem := mk_vmem {
  regs : gmap Z region; maps : gmap Z vm_map; kh : K; mm : mmu P;
  ram : Z -> Z; cr3 : Z
}.
#[export] Instance vmem_eta : Settable vmem := fun x => mk_vmem (regs x) (maps x) (kh x) (mm x) (ram x) (cr3 x).

Definition ASSERT (b : bool) : option unit := if debug && negb b then None else Some tt.

Definition wr (a : Z) (f : region -> region) (s : vmem) : option vmem :=
  r ← regs s !! a; Some (s <| regs ::= <[a := f r]> |>).

(** Calls of the other modules. *)
Definition vm_page_alloc (size : Z) (s : vmem) : option (Z * vmem) :=
  r ← kp_alloc size (upages (mm s)); Some (fst r, s <| mm ::= fun m => m <| upages := snd r |> |>).
Definition vm_page_free (pa size : Z) (s : vmem) : option vmem :=
  p ← kp_free pa size (upages (mm s)); Some (s <| mm ::= fun m => m <| upages := p |> |>).
Definition vm_mmu_map (pgd phys virt size type : Z) (s : vmem) : option (Z * vmem) :=
  r ← Mmu.mmu_map OFFSET pgd phys virt size type (mm s); Some (fst r, s <| mm := snd r |>).
Definition vm_kmem_alloc (size : Z) (s : vmem) : option (Z * vmem) :=
  r ← hs_alloc size (kh s); Some (fst r, s <| kh := snd r |>).
(** The memory of a region or map that is freed is no structure any more. *)
Definition vm_kmem_free (a : Z) (s : vmem) : option vmem :=
  k ← hs_free a (kh s); Some (s <| kh := k |> <| regs ::= delete a |> <| maps ::= delete a |>).
(** memset() and memcpy() between kernel addresses. *)
Definition memset (a v n : Z) (s : vmem) : vmem :=
  s <| ram ::= fun r x => if (a <=? x) && (x <? a + n) then v else r x |>.
Definition memcpy (dst src n : Z) (s : vmem) : vmem :=
  s <| ram ::= fun r x => if (dst <=? x) && (x <? dst + n) then r (src + (x - dst)) else r x |>.

(** ** Regions *)

Definition region_init (reg : Z) (s : vmem) : vmem :=
  s <| regs ::= <[reg := mk_region reg reg reg reg PAGE_SIZE (UMEM_MAX - PAGE_SIZE) REG_FREE 0]> |>.

Definition region_create (prev addr size : Z) (s : vmem) : option (Z * vmem) :=
  r ← vm_kmem_alloc SIZEOF_REGION s;
  let (reg, s) := r : Z * vmem in
  if reg =? 0 then Some (0, s)
  else
    p ← regs s !! prev;
    let s := s <| regs ::= <[reg := mk_region prev (r_next p) reg reg addr size REG_FREE 0]> |> in
    s ← wr (r_next p) (fun r => r <| r_prev := reg |>) s;
    s ← wr prev (fun r => r <| r_next := reg |>) s;
    Some (reg, s).

(** reg->sh_prev->sh_next = reg->sh_next; reg->sh_next->sh_prev = reg->sh_prev;
    if (reg->sh_prev == reg->sh_next) reg->sh_prev->flags &= ~REG_SHARED; *)
Definition sh_unlink (reg : Z) (s : vmem) : option vmem :=
  r ← regs s !! reg;
  s ← wr (r_sh_prev r) (fun p => p <| r_sh_next := r_sh_next r |>) s;
  r ← regs s !! reg;
  s ← wr (r_sh_next r) (fun n => n <| r_sh_prev := r_sh_prev r |>) s;
  r ← regs s !! reg;
  if r_sh_prev r =? r_sh_next r then wr (r_sh_prev r) (fun p => p <| r_flags ::= fun f => clr f REG_SHARED |>) s
  else Some s.

Definition region_delete (head reg : Z) (s : vmem) : option vmem :=
  r ← regs s !! reg;
  s ← (if flag (r_flags r) REG_SHARED then sh_unlink reg s else Some s);
  if head =? reg then Some s else vm_kmem_free reg s.

(** The loops do { if (...) return reg; reg = reg->next; } while (reg != head);
    0 is NULL. *)
Fixpoint find_region (n : nat) (head reg : Z) (p : region -> bool) (s : vmem) : option Z :=
  match n with
  | O => None
  | S n =>
      r ← regs s !! reg;
      if p r then Some reg
      else if r_next r =? head then Some 0
      else find_region n head (r_next r) p s
  end.
Definition walk_regions (head : Z) (p : region -> bool) (s : vmem) : option Z :=
  find_region (S (size (regs s))) head head p s.

Definition region_find (head addr size : Z) (s : vmem) : option Z :=
  walk_regions head (fun r => (r_addr r <=? addr) && (u32 (addr + size) <=? u32 (r_addr r + r_size r))) s.

Definition region_alloc (head size : Z) (s : vmem) : option (Z * vmem) :=
  reg ← walk_regions head (fun r => flag (r_flags r) REG_FREE && (size <=? r_size r)) s;
  if reg =? 0 then Some (0, s)
  else
    r ← regs s !! reg;
    c ← (if negb (r_size r =? size) then region_create reg (u32 (r_addr r + size)) (u32 (r_size r - size)) s
         else Some (1, s));
    let (ok, s) := c : Z * vmem in
    if ok =? 0 then Some (0, s)
    else s ← wr reg (fun r => r <| r_size := size |>) s; Some (reg, s).

(** reg->next = next->next; next->next->prev = reg; reg->size += next->size;
    vm_kmem_free(next); *)
Definition absorb (reg next : Z) (s : vmem) : option vmem :=
  n ← regs s !! next;
  s ← wr reg (fun r => r <| r_next := r_next n |>) s;
  n ← regs s !! next;
  s ← wr (r_next n) (fun m => m <| r_prev := reg |>) s;
  n ← regs s !! next;
  s ← wr reg (fun r => r <| r_size := u32 (r_size r + r_size n) |>) s;
  vm_kmem_free next s.

Definition region_free (head reg : Z) (s : vmem) : option vmem :=
  r ← regs s !! reg;
  _ ← ASSERT (negb (r_flags r =? REG_FREE));
  s ← wr reg (fun r => r <| r_flags := REG_FREE |>) s;
  (* If it is shared region, unlink from shared list *)
  r ← regs s !! reg;
  s ← (if flag (r_flags r) REG_SHARED then sh_unlink reg s else Some s);
  (* If next region is free, merge with it. *)
  r ← regs s !! reg;
  nx ← regs s !! r_next r;
  s ← (if negb (r_next r =? head) && flag (r_flags nx) REG_FREE then absorb reg (r_next r) s else Some s);
  (* If previous region is free, merge with it. *)
  r ← regs s !! reg;
  pv ← regs s !! r_prev r;
  if negb (reg =? head) && flag (r_flags pv) REG_FREE then absorb (r_prev r) reg s else Some s.

(** region_split() from its second step on: [reg] begins at the address wanted,
    and [prev] says whether it was just split off the region before it. *)
Definition split_rest (head reg : Z) (prev : bool) (size : Z) (s : vmem) : option (Z * vmem) :=
  r ← regs s !! reg;
  c ← (if negb (r_size r =? size) then
         c ← region_create reg (u32 (r_addr r + size)) (u32 (r_size r - size)) s;
         let (next, s) := c : Z * vmem in
         if next =? 0 then s ← (if prev then region_free head reg s else Some s); Some (0, s)
         else s ← wr reg (fun r => r <| r_size := size |>) s; Some (1, s)
       else Some (1, s));
  let (ok, s) := c : Z * vmem in
  if ok =? 0 then Some (0, s)
  else s ← wr reg (fun r => r <| r_flags := 0 |>) s; Some (reg, s).

Definition region_split (head reg addr size : Z) (s : vmem) : option (Z * vmem) :=
  r ← regs s !! reg;
  if negb (r_addr r =? addr) then
    let diff := u32 (addr - r_addr r) in
    c ← region_create reg addr (u32 (r_size r - diff)) s;
    let (new, s) := c : Z * vmem in
    if new =? 0 then Some (0, s)
    else s ← wr reg (fun r => r <| r_size := diff |>) s; split_rest head new true size s
  else split_rest head reg false size s.

(** ** Allocation and release *)

(** The region for the request, or the error. *)
Definition allocate_region (map addr size : Z) (anywhere : bool) (s : vmem) : option (Z * Z * Z * vmem) :=
  if anywhere then
    let size := PAGE_ALIGN size in
    c ← region_alloc map size s;
    let (reg, s) := c : Z * vmem in
    Some (if reg =? 0 then ENOMEM else 0, reg, size, s)
  else
    let start := PAGE_TRUNC addr in
    let fin := PAGE_ALIGN (u32 (start + size)) in
    let size := u32 (fin - start) in
    reg ← region_find map start size s;
    if reg =? 0 then Some (EINVAL, 0, size, s)
    else
      r ← regs s !! reg;
      if negb (flag (r_flags r) REG_FREE) then Some (EINVAL, 0, size, s)
      else
        c ← region_split map reg start size s;
        let (reg, s) := c : Z * vmem in
        Some (if reg =? 0 then ENOMEM else 0, reg, size, s).

(** The physical pages of the region, mapped and filled with zeros, or the error
    paths err2 and err1. The result has the error and the address. *)
Definition allocate_pages (map reg size : Z) (s : vmem) : option (Z * Z * vmem) :=
  c ← vm_page_alloc size s;
  let (phys, s) := c : Z * vmem in
  if phys =? 0 then s ← region_free map reg s; Some (ENOMEM, 0, s)
  else
    m ← maps s !! map;
    r ← regs s !! reg;
    c ← vm_mmu_map (v_pgd m) phys (r_addr r) size PG_WRITE s;
    let (e, s) := c : Z * vmem in
    if negb (e =? 0) then s ← vm_page_free phys size s; s ← region_free map reg s; Some (ENOMEM, 0, s)
    else
      s ← wr reg (fun r => r <| r_phys := phys |>) s;
      let s := memset (phys_to_virt OFFSET phys) 0 (r_size r) s in
      Some (0, r_addr r, s).

Definition do_allocate (map addr size : Z) (anywhere : bool) (s : vmem) : option (Z * Z * vmem) :=
  if size =? 0 then Some (EINVAL, 0, s)
  else
    c ← allocate_region map addr size anywhere s;
    match c with
    | (err, reg, size, s) =>
        if negb (err =? 0) then Some (err, 0, s)
        else
          s ← wr reg (fun r => r <| r_flags := Z.lor REG_READ REG_WRITE |>) s;
          allocate_pages map reg size s
    end.

(** !(reg->flags & REG_SHARED) && !(reg->flags & REG_MAPPED): the pages are the
    region's own. *)
Definition own_pages (r : region) : bool := negb (flag (r_flags r) REG_SHARED) && negb (flag (r_flags r) REG_MAPPED).

Definition do_free (map addr : Z) (s : vmem) : option (Z * vmem) :=
  let addr := PAGE_TRUNC addr in
  reg ← region_find map addr 1 s;
  if reg =? 0 then Some (EINVAL, s)
  else
    r ← regs s !! reg;
    if negb (r_addr r =? addr) || flag (r_flags r) REG_FREE then Some (EINVAL, s)
    else
      m ← maps s !! map;
      c ← vm_mmu_map (v_pgd m) (r_phys r) (r_addr r) (r_size r) PG_UNMAP s;
      let s := snd c in
      s ← (if own_pages r then vm_page_free (r_phys r) (r_size r) s else Some s);
      s ← region_free map reg s;
      Some (0, s).

(** ** Attributes *)

Definition do_attribute (map addr attr : Z) (s : vmem) : option (Z * vmem) :=
  let addr := PAGE_TRUNC addr in
  reg ← region_find map addr 1 s;
  if reg =? 0 then Some (EINVAL, s)
  else
    r ← regs s !! reg;
    if negb (r_addr r =? addr) || flag (r_flags r) REG_FREE then Some (EINVAL, s)
    else if flag (r_flags r) REG_MAPPED then Some (EINVAL, s)
    else
      let new_flags := if flag (r_flags r) REG_WRITE then (if flag attr VMA_WRITE then 0 else REG_READ)
                       else if flag attr VMA_WRITE then Z.lor REG_READ REG_WRITE else 0 in
      if new_flags =? 0 then Some (0, s)
      else
        let map_type := if flag new_flags REG_WRITE then PG_WRITE else PG_READ in
        m ← maps s !! map;
        if flag (r_flags r) REG_SHARED then
          c ← vm_page_alloc (r_size r) s;
          let (new_addr, s) := c : Z * vmem in
          if new_addr =? 0 then Some (ENOMEM, s)
          else
            let s := memcpy (phys_to_virt OFFSET new_addr) (phys_to_virt OFFSET (r_phys r)) (r_size r) s in
            c ← vm_mmu_map (v_pgd m) new_addr (r_addr r) (r_size r) map_type s;
            let (e, s) := c : Z * vmem in
            if negb (e =? 0) then s ← vm_page_free new_addr (r_size r) s; Some (ENOMEM, s)
            else
              s ← wr reg (fun r => r <| r_phys := new_addr |>) s;
              s ← sh_unlink reg s;
              s ← wr reg (fun r => r <| r_sh_prev := reg |> <| r_sh_next := reg |>) s;
              s ← wr reg (fun r => r <| r_flags := new_flags |>) s;
              Some (0, s)
        else
          c ← vm_mmu_map (v_pgd m) (r_phys r) (r_addr r) (r_size r) map_type s;
          let (e, s) := c : Z * vmem in
          if negb (e =? 0) then Some (ENOMEM, s)
          else s ← wr reg (fun r => r <| r_flags := new_flags |>) s; Some (0, s).

(** ** Mapping another task's memory

    [writable] says whether umem_copyout() to [alloc] succeeds; the result has
    the error and what was last stored there. *)
Definition do_map (map curmap addr size : Z) (writable : bool) (s : vmem) : option (Z * option Z * vmem) :=
  if size =? 0 then Some (EINVAL, None, s)
  else if negb writable then Some (EFAULT, None, s)
  else
    let start := PAGE_TRUNC addr in
    let fin := PAGE_ALIGN (u32 (addr + size)) in
    let size := u32 (fin - start) in
    let offset := u32 (addr - start) in
    tgt ← region_find map start size s;
    if tgt =? 0 then Some (EINVAL, Some 0, s)
    else
      t ← regs s !! tgt;
      if flag (r_flags t) REG_FREE then Some (EINVAL, Some 0, s)
      else
        c ← region_alloc curmap size s;
        let (cur, s) := c : Z * vmem in
        if cur =? 0 then Some (ENOMEM, Some 0, s)
        else
          t ← regs s !! tgt;
          r ← regs s !! cur;
          m ← maps s !! curmap;
          let map_type := if flag (r_flags t) REG_WRITE then PG_WRITE else PG_READ in
          let phys := u32 (r_phys t + (start - r_addr t)) in
          c ← vm_mmu_map (v_pgd m) phys (r_addr r) size map_type s;
          let (e, s) := c : Z * vmem in
          if negb (e =? 0) then s ← region_free curmap cur s; Some (ENOMEM, Some 0, s)
          else
            s ← wr cur (fun r => r <| r_flags := Z.lor (r_flags t) REG_MAPPED |>) s;
            s ← wr cur (fun r => r <| r_phys := phys |>) s;
            Some (0, Some (u32 (r_addr r + offset)), s).

(** ** Address spaces *)

Definition vm_mmu_newmap (s : vmem) : option (Z * vmem) :=
  r ← Mmu.mmu_newmap OFFSET boot_pgd (mm s); Some (fst r, s <| mm := snd r |>).
Definition vm_mmu_delmap (pgd : Z) (s : vmem) : option vmem :=
  m ← Mmu.mmu_delmap OFFSET pgd (mm s); Some (s <| mm := m |>).

Definition vm_create (s : vmem) : option (Z * vmem) :=
  c ← vm_kmem_alloc SIZEOF_VM_MAP s;
  let (map, s) := c : Z * vmem in
  if map =? 0 then Some (0, s)
  else
    c ← vm_mmu_newmap s;
    let (pgd, s) := c : Z * vmem in
    if pgd =? 0 then s ← vm_kmem_free map s; Some (0, s)
    else Some (map, region_init map (s <| maps ::= <[map := mk_vm_map 1 pgd]> |>)).

(** A region of the loop of vm_terminate(): unmap it, and free its pages if they
    are not shared and mapped. *)
Definition unmap_region (pgd : Z) (r : region) (s : vmem) : option vmem :=
  if negb (r_flags r =? REG_FREE) then
    c ← vm_mmu_map pgd (r_phys r) (r_addr r) (r_size r) PG_UNMAP s;
    if own_pages r then vm_page_free (r_phys r) (r_size r) (snd c) else Some (snd c)
  else Some s.

Fixpoint terminate_regions (n : nat) (pgd head reg : Z) (s : vmem) : option vmem :=
  match n with
  | O => None
  | S n =>
      r ← regs s !! reg;
      s ← unmap_region pgd r s;
      s ← region_delete head reg s;
      if r_next r =? head then Some s else terminate_regions n pgd head (r_next r) s
  end.

Definition vm_terminate (map : Z) (s : vmem) : option vmem :=
  m ← maps s !! map;
  let cnt := v_refcnt m - 1 in
  let s := s <| maps ::= <[map := m <| v_refcnt := cnt |>]> |> in
  if 1 <=? cnt then Some s
  else
    s ← terminate_regions (S (size (regs s))) (v_pgd m) map map s;
    s ← vm_mmu_delmap (v_pgd m) s;
    vm_kmem_free map s.

(** One region of the first loop of do_fork(). The new structure: the map's own
    region for the first one, a copy linked behind [tmp] for the others; 0 is
    the return of NULL. *)
Definition fork_node (org_map tmp src : Z) (s : vmem) : option (Z * vmem) :=
  if src =? org_map then Some (tmp, s)
  else
    c ← vm_kmem_alloc SIZEOF_REGION s;
    let (dest, s) := c : Z * vmem in
    if dest =? 0 then Some (0, s)
    else
      r ← regs s !! src;
      t ← regs s !! tmp;
      let s := s <| regs ::= <[dest := r <| r_prev := tmp |> <| r_next := r_next t |>]> |> in
      s ← wr (r_next t) (fun n => n <| r_prev := dest |>) s;
      s ← wr tmp (fun t => t <| r_next := dest |>) s;
      Some (dest, s).

(** Its pages: the same ones if it can be shared, copies otherwise. The result is
    false for the return of NULL. *)
Definition fork_pages (pgd src dest : Z) (s : vmem) : option (bool * vmem) :=
  r ← regs s !! src;
  if r_flags r =? REG_FREE then Some (true, s)
  else
    s ← (if negb (flag (r_flags r) REG_WRITE) && negb (flag (r_flags r) REG_MAPPED)
         then wr dest (fun d => d <| r_flags ::= fun f => Z.lor f REG_SHARED |>) s else Some s);
    d ← regs s !! dest;
    c ← (if negb (flag (r_flags d) REG_SHARED) then
           c ← vm_page_alloc (r_size r) s;
           let (phys, s) := c : Z * vmem in
           s ← wr dest (fun d => d <| r_phys := phys |>) s;
           if phys =? 0 then Some (false, s)
           else Some (true, memcpy (phys_to_virt OFFSET phys) (phys_to_virt OFFSET (r_phys r)) (r_size r) s)
         else Some (true, s));
    let (ok, s) := c : bool * vmem in
    if negb ok then Some (false, s)
    else
      d ← regs s !! dest;
      let map_type := if flag (r_flags d) REG_WRITE then PG_WRITE else PG_READ in
      c ← vm_mmu_map pgd (r_phys d) (r_addr d) (r_size d) map_type s;
      let (e, s) := c : Z * vmem in
      Some (e =? 0, s).

Definition fork_region (org_map pgd tmp src : Z) (s : vmem) : option (option Z * vmem) :=
  c ← fork_node org_map tmp src s;
  let (dest, s) := c : Z * vmem in
  if dest =? 0 then Some (None, s)
  else
    c ← fork_pages pgd src dest s;
    let (ok, s) := c : bool * vmem in
    Some (if ok then Some dest else None, s).

Fixpoint fork_regions (n : nat) (org_map pgd tmp src : Z) (s : vmem) : option (bool * vmem) :=
  match n with
  | O => None
  | S n =>
      c ← fork_region org_map pgd tmp src s;
      match c with
      | (None, s) => Some (false, s)
      | (Some tmp, s) =>
          r ← regs s !! src;
          if r_next r =? org_map then Some (true, s) else fork_regions n org_map pgd tmp (r_next r) s
      end
  end.

(** A shared region and its copy are linked. *)
Definition link_one (dest src : Z) (s : vmem) : option vmem :=
  s ← wr src (fun r => r <| r_flags ::= fun f => Z.lor f REG_SHARED |>) s;
  s ← wr dest (fun d => d <| r_sh_prev := src |>) s;
  r ← regs s !! src;
  s ← wr dest (fun d => d <| r_sh_next := r_sh_next r |>) s;
  r ← regs s !! src;
  s ← wr (r_sh_next r) (fun n => n <| r_sh_prev := dest |>) s;
  wr src (fun r => r <| r_sh_next := dest |>) s.

(** The second loop of do_fork(). *)
Fixpoint link_shared (n : nat) (org_map dest src : Z) (s : vmem) : option vmem :=
  match n with
  | O => None
  | S n =>
      d ← regs s !! dest;
      s ← (if flag (r_flags d) REG_SHARED then link_one dest src s else Some s);
      d ← regs s !! dest;
      r ← regs s !! src;
      if r_next r =? org_map then Some s else link_shared n org_map (r_next d) (r_next r) s
  end.

(** do_fork() from the copy of the top region on. *)
Definition fork_copy (new_map org_map : Z) (s : vmem) : option (Z * vmem) :=
  r ← regs s !! org_map;
  let s := s <| regs ::= <[new_map := r <| r_next := new_map |> <| r_prev := new_map |>]> |> in
  if org_map =? r_next r then Some (new_map, s)
  else
    m ← maps s !! new_map;
    c ← fork_regions (S (size (regs s))) org_map (v_pgd m) new_map org_map s;
    let (ok, s) := c : bool * vmem in
    if negb ok then Some (0, s)
    else s ← link_shared (S (size (regs s))) org_map new_map org_map s; Some (new_map, s).

Definition do_fork (org_map : Z) (s : vmem) : option (Z * vmem) :=
  c ← vm_create s;
  let (new_map, s) := c : Z * vmem in
  if new_map =? 0 then Some (0, s) else fork_copy new_map org_map s.

Definition vm_fork := do_fork.

Definition vm_reference (map : Z) (s : vmem) : option (Z * vmem) :=
  m ← maps s !! map; Some (0, s <| maps ::= <[map := m <| v_refcnt ::= Z.succ |>]> |>).

(** mmu_switch() loads the page directory register. *)
Definition mmu_switch (pgd : Z) (s : vmem) : vmem := s <| cr3 := virt_to_phys OFFSET pgd |>.
Definition vm_switch (kern_map map : Z) (s : vmem) : option vmem :=
  if map =? kern_map then Some s else m ← maps s !! map; Some (mmu_switch (v_pgd m) s).

(** memcpy() to addresses that the processor translates; a page that is not there
    is a fault. *)
Fixpoint user_copy (n : nat) (dst src : Z) (s : vmem) : option vmem :=
  match n with
  | O => Some s
  | S n =>
      pa ← mmu_extract OFFSET (phys_to_virt OFFSET (cr3 s)) dst 1 (mm s);
      if pa =? 0 then None
      else user_copy n (dst + 1) (src + 1) (memcpy (phys_to_virt OFFSET pa) src 1 s)
  end.

(** The segments of vm_load(); the results say whether do_allocate() or
    do_attribute() failed. *)
Definition load_text (map : Z) (md : module) (src : Z) (s : vmem) : option (bool * vmem) :=
  c ← do_allocate map (m_text md) (m_textsz md) false s;
  let '(err, text, s) := c : Z * Z * vmem in
  if negb (err =? 0) then Some (false, s)
  else
    s ← user_copy (Z.to_nat (m_textsz md)) text src s;
    c ← do_attribute map text VMA_READ s;
    let (err, s) := c : Z * vmem in
    Some (err =? 0, s).

Definition load_data (map : Z) (md : module) (src : Z) (s : vmem) : option (bool * vmem) :=
  let size := u32 (m_datasz md + m_bsssz md) in
  if negb (size =? 0) then
    c ← do_allocate map (m_data md) size false s;
    let '(err, data, s) := c : Z * Z * vmem in
    if negb (err =? 0) then Some (false, s)
    else
      s ← user_copy (Z.to_nat (m_datasz md)) data (u32 (src + (m_data md - m_text md))) s;
      Some (true, s)
  else Some (true, s).

(** The result has what is returned and what was stored in *stack, if anything. *)
Definition vm_load (kern_map map : Z) (md : module) (s : vmem) : option (Z * option Z * vmem) :=
  s ← vm_switch kern_map map s;
  let src := phys_to_virt OFFSET (m_phys md) in
  c ← load_text map md src s;
  let (ok, s) := c : bool * vmem in
  if negb ok then Some (-1, None, s)
  else
    c ← load_data map md src s;
    let (ok, s) := c : bool * vmem in
    if negb ok then Some (-1, None, s)
    else
      c ← do_allocate map USTACK_BASE USTACK_SIZE false s;
      let '(err, stack, s) := c : Z * Z * vmem in
      if negb (err =? 0) then Some (-1, Some USTACK_BASE, s)
      else s ← vm_page_free (m_phys md) (m_size md) s; Some (0, Some stack, s).

Definition vm_translate (map addr size : Z) (s : vmem) : option Z :=
  m ← maps s !! map; mmu_extract OFFSET (v_pgd m) addr size (mm s).
Definition vm_kmem_map (map addr size : Z) (s : vmem) : option Z :=
  phys ← vm_translate map addr size s; Some (if phys =? 0 then 0 else phys_to_virt OFFSET phys).

Definition vm_init (kern_map : Z) (s : vmem) : option vmem :=
  c ← vm_mmu_newmap s;
  let (pgd, s) := c : Z * vmem in
  _ ← ASSERT (negb (pgd =? 0));
  Some (region_init kern_map (mmu_switch pgd (s <| maps ::= <[kern_map := mk_vm_map 0 pgd]> |>))).

(** ** System calls

    The checks on the task handle are [valid], [self] (task == cur_task()) and
    [capable]; [map] is the task's map. *)
Definition vm_free (valid self capable : bool) (map addr : Z) (s : vmem) : option (Z * vmem) :=
  if negb valid then Some (ESRCH, s)
  else if negb self && negb capable then Some (EPERM, s)
  else if negb (user_area addr) then Some (EFAULT, s)
  else do_free map addr s.

Definition vm_attribute (valid self capable : bool) (map addr attr : Z) (s : vmem) : option (Z * vmem) :=
  if (attr =? 0) || flag attr (Z.lnot (Z.lor VMA_READ VMA_WRITE)) then Some (EINVAL, s)
  else if negb valid then Some (ESRCH, s)
  else if negb self && negb capable then Some (EPERM, s)
  else if negb (user_area addr) then Some (EFAULT, s)
  else do_attribute map addr attr s.

(** [uaddr] is what umem_copyin() reads, if it can, and [again] what the later
    access *addr reads; [writable] as above. *)
Definition vm_allocate (valid self capable : bool) (map : Z) (uaddr : option Z) (again : Z) (writable : bool)
    (size : Z) (anywhere : bool) (s : vmem) : option (Z * Z * vmem) :=
  if negb valid then Some (ESRCH, 0, s)
  else if negb self && negb capable then Some (EPERM, 0, s)
  else
    match uaddr with
    | None => Some (EFAULT, 0, s)
    | Some uaddr =>
        if negb anywhere && negb (user_area again) then Some (EACCES, 0, s)
        else
          c ← do_allocate map uaddr size anywhere s;
          let '(err, a, s) := c : Z * Z * vmem in
          Some (if (err =? 0) && negb writable then EFAULT else err, a, s)
    end.

Definition vm_map_call (valid self capable : bool) (map curmap addr size : Z) (writable : bool) (s : vmem) : option (Z * option Z * vmem) :=
  if negb valid then Some (ESRCH, None, s)
  else if self then Some (EINVAL, None, s)
  else if negb capable then Some (EPERM, None, s)
  else if negb (user_area addr) then Some (EFAULT, None, s)
  else do_map map curmap addr size writable s.
End Vm.
Arguments vmem : clear implicits.
Arguments mk_vmem {K P}.
