(* ===== verification/VmRing.v ===== *)
(** * VmRing: the regions of an address space as a list

    The circular list of regions at the level of pointers stands for a list of
    areas that starts with the map's own region.  Linking a new region behind
    another and absorbing the next one are the corresponding changes of that
    list; both are local, so they are stated on the ring turned to the place
    where they happen. *)
From stdpp Require Import base numbers gmap list.
From S2P Require Import Prelude Core Queue Page PageSpec PageSource HeapSource Mmu Vm.

Open Scope Z_scope.

(** A region without its links. *)
Record area := mk_area { ar_ptr : Z; ar_addr : Z; ar_size : Z; ar_flags : Z; ar_phys : Z }.
#[export] Instance area_eta : Settable area := fun x => mk_area (ar_ptr x) (ar_addr x) (ar_size x) (ar_flags x) (ar_phys x).

Abbreviation ptrs L := (ar_ptr <$> L).

(** ** Rings *)

(** [a] lies at its address, between [p] and [n]. *)
Definition node_at (rs : gmap Z region) (p : Z) (a : area) (n : Z) : Prop :=
  exists sp sn, rs !! ar_ptr a = Some (mk_region p n sp sn (ar_addr a) (ar_size a) (ar_flags a) (ar_phys a)).

Definition nxt (L : list area) (fin : Z) : Z := match L with [] => fin | a :: _ => ar_ptr a end.
Fixpoint lst (p : Z) (L : list area) : Z := match L with [] => p | a :: L => lst (ar_ptr a) L end.

Fixpoint chain (rs : gmap Z region) (p : Z) (L : list area) (fin : Z) : Prop :=
  match L with
  | [] => True
  | a :: L => node_at rs p a (nxt L fin) /\ chain rs (ar_ptr a) L fin
  end.

Definition ring (rs : gmap Z region) (L : list area) : Prop := chain rs (lst 0 L) L (nxt L 0).

Lemma nxt_app L1 L2 fin : nxt (L1 ++ L2) fin = nxt L1 (nxt L2 fin).
Proof. by destruct L1. Qed.
Lemma lst_app p L1 L2 : lst p (L1 ++ L2) = lst (lst p L1) L2.
Proof. revert p. induction L1 as [|a L1 IH]; intros p; [done|]. cbn. apply IH. Qed.
Lemma chain_app rs p L1 L2 fin : chain rs p (L1 ++ L2) fin <-> chain rs p L1 (nxt L2 fin) /\ chain rs (lst p L1) L2 fin.
Proof. revert p. induction L1 as [|a L1 IH]; intros p; cbn; [tauto|]. rewrite IH, nxt_app. tauto. Qed.

(** A ring can be entered anywhere. *)
Lemma ring_turn rs L1 L2 : ring rs (L1 ++ L2) -> ring rs (L2 ++ L1).
Proof.
  destruct L1 as [|a L1]; [by rewrite app_nil_r|]. destruct L2 as [|b L2]; [by rewrite app_nil_r|].
  unfold ring. rewrite !chain_app, !lst_app, !nxt_app. cbn [lst nxt]. tauto.
Qed.

Lemma chain_frame rs rs' p L fin : (forall x, x ∈ ptrs L -> rs' !! x = rs !! x) -> chain rs p L fin -> chain rs' p L fin.
Proof.
  revert p. induction L as [|a L IH]; intros p Hr; [done|]. cbn. intros [(sp&sn&E) Hc]. split.
  - exists sp, sn. rewrite Hr by (by left). exact E.
  - apply IH; [|done]. intros x Hx. apply Hr. by right.
Qed.
Lemma ring_frame rs rs' L : (forall x, x ∈ ptrs L -> rs' !! x = rs !! x) -> ring rs L -> ring rs' L.
Proof. apply chain_frame. Qed.

Lemma chain_node rs p L fin a : chain rs p L fin -> a ∈ L -> exists q n, node_at rs q a n.
Proof.
  revert p. induction L as [|b L IH]; intros p; cbn; [intros _ []%elem_of_nil|]. intros [Hn Hc] [->|Ha]%elem_of_cons; [by do 2 eexists|by apply (IH (ar_ptr b))].
Qed.
Lemma ring_node rs L a : ring rs L -> a ∈ L -> exists q n, node_at rs q a n.
Proof. apply chain_node. Qed.
Lemma ring_mapped rs L x : ring rs L -> x ∈ ptrs L -> is_Some (rs !! x).
Proof. intros HR (a&->&Ha)%list_elem_of_fmap. destruct (ring_node rs L a HR Ha) as (?&?&?&?&->). by eexists. Qed.

(** *** The node of an area changes *)

Lemma chain_set rs p L fin a r : ar_ptr a ∉ ptrs L -> chain rs p L fin -> chain (<[ar_ptr a := r]> rs) p L fin.
Proof. intros Hni. apply chain_frame. intros x Hx. rewrite lookup_insert_ne; [done|]. intros <-. done. Qed.

(** The first area of a ring is replaced by one at the same address. *)
Lemma ring_update rs a M b sp sn r : NoDup (ptrs (a :: M)) -> ring rs (a :: M) -> rs !! ar_ptr a = Some r -> ar_ptr b = ar_ptr a ->
  ring (<[ar_ptr a := mk_region (r_prev r) (r_next r) sp sn (ar_addr b) (ar_size b) (ar_flags b) (ar_phys b)]> rs) (b :: M).
Proof.
  intros [Hni _]%NoDup_cons [(sp0&sn0&E) Hc] Er Eb. rewrite E in Er. injection Er as <-. cbn [r_prev r_next lst nxt] in *. unfold ring. cbn [lst nxt chain]. rewrite Eb. split.
  - exists sp, sn. by rewrite Eb, lookup_insert_eq.
  - by apply chain_set.
Qed.

Section Vm.
Context {K P : Type} `{HeapSource K} `{PageSource P}.
Implicit Types s : vmem K P.

(** *** A new region behind the first *)
Lemma ring_insert s a M b r shp shn : NoDup (ptrs (a :: M)) -> ar_ptr b ∉ ptrs (a :: M) -> ring (regs s) (a :: M) -> regs s !! ar_ptr a = Some r ->
  let reg := mk_region (ar_ptr a) (r_next r) shp shn (ar_addr b) (ar_size b) (ar_flags b) (ar_phys b) in
  exists rs', (s ← wr (r_next r) (fun r => r <| r_prev := ar_ptr b |>) (s <| regs ::= <[ar_ptr b := reg]> |>); wr (ar_ptr a) (fun r => r <| r_next := ar_ptr b |>) s) =
      Some (s <| regs := rs' |>) /\
    ring rs' (a :: b :: M) /\ (forall x, x ∉ ptrs (a :: b :: M) -> rs' !! x = regs s !! x).
Proof.
  intros ND Hb HR Er. apply NoDup_cons in ND as [Hni ND]. destruct HR as [(sp&sn&E) Hc]. rewrite E in Er. injection Er as <-. cbn [r_next nxt lst] in *.
  assert (ar_ptr b <> ar_ptr a) as Hba by (intros Eq; apply Hb; rewrite Eq; by left). assert (ar_ptr b ∉ ptrs M) as HbM by (intros ?; apply Hb; by right).
  unfold wr. cbn [regs set]. destruct M as [|m M]; cbn [nxt lst fmap list_fmap] in *.
  - rewrite lookup_insert_ne, E by done. cbn [mbind option_bind regs set]. rewrite lookup_insert_eq. cbn [mbind option_bind]. eexists. split; [done|]. split_and!.
    + split; [exists sp, sn; by rewrite lookup_insert_eq|]. split; [|done]. do 2 eexists. rewrite !lookup_insert_ne, lookup_insert_eq by done. done.
    + intros x [Hxa [Hxb _]%not_elem_of_cons]%not_elem_of_cons. rewrite !lookup_insert_ne by done. done.
  - destruct Hc as [(sp1&sn1&E1) Hc]. apply not_elem_of_cons in Hni as [Ham HaM], HbM as [Hbm HbM]. apply NoDup_cons in ND as [HmM ND].
    rewrite lookup_insert_ne, E1 by done. cbn [mbind option_bind regs set]. rewrite !lookup_insert_ne, E by done. cbn [mbind option_bind]. eexists. split; [done|]. split_and!.
    + split; [exists sp, sn; by rewrite lookup_insert_eq|]. split; [do 2 eexists; rewrite !lookup_insert_ne, lookup_insert_eq by done; done|]. cbn [nxt]. split.
      * exists sp1, sn1. rewrite lookup_insert_ne, lookup_insert_eq by done. done.
      * apply chain_set; [done|]. apply (chain_set _ _ _ _ m); [done|]. by apply chain_set.
    + intros x [Hxa [Hxb [Hxm _]%not_elem_of_cons]%not_elem_of_cons]%not_elem_of_cons. rewrite !lookup_insert_ne by done. done.
Qed.

(** *** The second region is absorbed by the first *)
Lemma ring_absorb s a b M : NoDup (ptrs (a :: b :: M)) -> ring (regs s) (a :: b :: M) ->
  exists rs' : gmap Z region, absorb (ar_ptr a) (ar_ptr b) s = vm_kmem_free (ar_ptr b) (s <| regs := rs' |>) /\
    ring (delete (ar_ptr b) rs') (a <| ar_size := u32 (ar_size a + ar_size b) |> :: M) /\
    (forall x, x ∉ ptrs (a :: b :: M) -> rs' !! x = regs s !! x).
Proof.
  intros ND HR. unfold absorb, wr. apply NoDup_cons in ND as [[Hab HaM]%not_elem_of_cons [HbM ND]%NoDup_cons].
  destruct HR as [(sp&sn&E) [(sp1&sn1&E1) Hc]]. cbn [nxt lst] in *. rewrite E1. cbn [mbind option_bind]. rewrite E. cbn [mbind option_bind regs set]. rewrite lookup_insert_ne, E1 by done.
  cbn [mbind option_bind r_next regs set]. destruct M as [|m M]; cbn [nxt lst fmap list_fmap] in *.
  - rewrite lookup_insert_eq. cbn [mbind option_bind regs set]. rewrite insert_insert_eq, (lookup_insert_ne _ _ (ar_ptr b)), E1 by done. cbn [mbind option_bind]. rewrite lookup_insert_eq. cbn [mbind option_bind].
    rewrite !insert_insert_eq. eexists. split; [done|]. split_and!.
    + split; [|done]. exists sp, sn. cbn [ar_ptr set]. by rewrite lookup_delete_ne, lookup_insert_eq by done.
    + intros x [Hxa [Hxb _]%not_elem_of_cons]%not_elem_of_cons. rewrite !lookup_insert_ne by done. done.
  - destruct Hc as [(sp2&sn2&E2) Hc]. apply not_elem_of_cons in HaM as [Ham HaM], HbM as [Hbm HbM]. apply NoDup_cons in ND as [HmM ND].
    rewrite lookup_insert_ne, E2 by done. cbn [mbind option_bind regs set]. rewrite !(lookup_insert_ne _ _ (ar_ptr b)), E1 by done. cbn [mbind option_bind].
    rewrite lookup_insert_ne, lookup_insert_eq by done. cbn [mbind option_bind regs set]. eexists. split; [done|]. split_and!.
    + split; [exists sp, sn; cbn [ar_ptr set]; by rewrite lookup_delete_ne, lookup_insert_eq by done|]. cbn [nxt]. split.
      * exists sp2, sn2. cbn [ar_ptr set]. rewrite lookup_delete_ne, lookup_insert_ne, lookup_insert_eq by done. done.
      * eapply chain_frame; [|exact Hc]. intros x Hx. rewrite lookup_delete_ne by (intros <-; done). rewrite !lookup_insert_ne by (intros <-; done). done.
    + intros x [Hxa [Hxb [Hxm _]%not_elem_of_cons]%not_elem_of_cons]%not_elem_of_cons. rewrite !lookup_insert_ne by done. done.
Qed.
End Vm.
