(* ===== verification/VmLayout.v ===== *)
(** * VmLayout: an address space as a list of areas

    What the region operations of vm.c do to the list of areas, and why the
    areas go on covering the user addresses without gap or overlap: the areas
    tile the range, and no two free ones are neighbours. *)
From stdpp Require Import base numbers gmap list.
From S2P Require Import Prelude Core Queue Page PageSpec PageSource HeapSource Mmu Vm VmRing.

Open Scope Z_scope.

Lemma flag_lor_other f g h : Z.land g h = 0 -> flag (Z.lor f g) h = flag f h.
Proof. intros E. unfold flag. by rewrite Z.land_lor_distr_l, E, Z.lor_0_r. Qed.
Lemma flag_lor_own f g : g <> 0 -> flag (Z.lor f g) g = true.
Proof.
  intros Hg. unfold flag. assert (Z.land (Z.lor f g) g = g) as -> by (apply Z.bits_inj'; intros n _; rewrite Z.land_spec, Z.lor_spec; by destruct (Z.testbit f n), (Z.testbit g n)).
  by apply negb_true_iff, Z.eqb_neq.
Qed.

Definition is_free (a : area) : bool := flag (ar_flags a) REG_FREE.

(** ** What the operations do to the list *)

(** [a] behind [L1]: merged with the last of [L1] if that is free. *)
Fixpoint join_prev (L1 : list area) (a : area) (L2 : list area) : list area :=
  match L1 with
  | [] => a :: L2
  | c :: L1' =>
      match L1' with
      | [] => if is_free c then c <| ar_size := u32 (ar_size c + ar_size a) |> :: L2 else c :: a :: L2
      | _ => c :: join_prev L1' a L2
      end
  end.
(** [a] before [L2]: merged with the first of [L2] if that is free. *)
Definition join_next (a : area) (L2 : list area) : area * list area :=
  match L2 with
  | b :: L2' => if is_free b then (a <| ar_size := u32 (ar_size a + ar_size b) |>, L2') else (a, L2)
  | [] => (a, [])
  end.
Definition release (L1 : list area) (a : area) (L2 : list area) : list area :=
  let (a, L2) := join_next (a <| ar_flags := REG_FREE |>) L2 in join_prev L1 a L2.

Lemma join_prev_snoc L1 c a L2 : join_prev (L1 ++ [c]) a L2 =
  if is_free c then L1 ++ c <| ar_size := u32 (ar_size c + ar_size a) |> :: L2 else L1 ++ c :: a :: L2.
Proof.
  induction L1 as [|d L1 IH]; [done|]. cbn [app join_prev]. destruct (L1 ++ [c]) as [|x l] eqn:E; [by destruct L1|].
  rewrite <- E in IH |- *. rewrite IH. by destruct (is_free c).
Qed.

(** The test of region_find(). *)
Definition covers (addr size : Z) (a : area) : bool := (ar_addr a <=? addr) && (u32 (addr + size) <=? u32 (ar_addr a + ar_size a)).
(** The test of region_alloc(). *)
Definition fits (size : Z) (a : area) : bool := is_free a && (size <=? ar_size a).

(** ** Well-formed layouts *)

(** The areas follow each other from [lo] to [hi]. *)
Fixpoint tiles (lo : Z) (L : list area) (hi : Z) : Prop :=
  match L with
  | [] => lo = hi
  | a :: L => ar_addr a = lo /\ 0 < ar_size a /\ aligned (ar_size a) /\ tiles (lo + ar_size a) L hi
  end.

Definition in_area (x : Z) (a : area) : Prop := ar_addr a <= x < ar_addr a + ar_size a.

(** No two free areas are neighbours. *)
Fixpoint coalesced (L : list area) : Prop :=
  match L with
  | a :: M => match M with b :: _ => ~ (is_free a = true /\ is_free b = true) | [] => True end /\ coalesced M
  | [] => True
  end.

Definition flags_ok (a : area) : Prop := is_free a = true -> ar_flags a = REG_FREE.

Record layout_ok (L : list area) : Prop := {
  lo_tiles : tiles PAGE_SIZE L UMEM_MAX;
  lo_coalesced : coalesced L;
  lo_flags : Forall flags_ok L;
}.

Lemma tiles_app lo L1 L2 hi : tiles lo (L1 ++ L2) hi <-> exists mid, tiles lo L1 mid /\ tiles mid L2 hi.
Proof.
  revert lo. induction L1 as [|a L1 IH]; intros lo; cbn; [split; [by exists lo|by intros (?&->&?)]|]. rewrite IH. naive_solver.
Qed.
Lemma tiles_le lo L hi : tiles lo L hi -> lo <= hi.
Proof. revert lo. induction L as [|a L IH]; intros lo; cbn; [lia|]. intros (_&?&_&?%IH). lia. Qed.
Lemma tiles_range lo L hi a : tiles lo L hi -> a ∈ L -> lo <= ar_addr a /\ 0 < ar_size a /\ ar_addr a + ar_size a <= hi.
Proof.
  revert lo. induction L as [|b L IH]; intros lo; cbn; [intros _ []%elem_of_nil|]. intros (E&Hs&_&Ht) [->|Ha]%elem_of_cons.
  - apply tiles_le in Ht. lia.
  - destruct (IH _ Ht Ha). lia.
Qed.
Lemma tiles_aligned lo L hi a : tiles lo L hi -> aligned lo -> a ∈ L -> aligned (ar_addr a) /\ aligned (ar_size a).
Proof.
  revert lo. induction L as [|b L IH]; intros lo; cbn; [intros _ _ []%elem_of_nil|]. intros (E&Hs&Has&Ht) Hlo [->|Ha]%elem_of_cons; [by rewrite E|].
  apply (IH _ Ht); [|done]. unfold aligned, PAGE_SIZE in *. Z.div_mod_to_equations. lia.
Qed.
(** An area is replaced by areas that tile the same range. *)
Lemma tiles_replace lo L1 a M L2 hi : tiles lo (L1 ++ a :: L2) hi -> tiles (ar_addr a) M (ar_addr a + ar_size a) -> tiles lo (L1 ++ M ++ L2) hi.
Proof.
  intros (mid&H1&(<-&_&_&H2))%tiles_app HM. apply tiles_app. eexists. split; [done|]. apply tiles_app. by eexists.
Qed.
Lemma tiles_one a : 0 < ar_size a -> aligned (ar_size a) -> tiles (ar_addr a) [a] (ar_addr a + ar_size a).
Proof. done. Qed.

Lemma coalesced_mid L1 a L2 : coalesced (L1 ++ a :: L2) <-> coalesced (L1 ++ [a]) /\ coalesced (a :: L2).
Proof.
  induction L1 as [|b L1 IH]; [cbn; tauto|]. cbn [app]. split.
  - intros [Hb Hc]. apply IH in Hc as [H1 H2]. split; [|done]. split; [|done]. destruct L1; cbn in *; done.
  - intros [[Hb H1] H2]. split; [|by apply IH]. destruct L1; cbn in *; done.
Qed.
Lemma coalesced_head a b L : is_free a = is_free b -> coalesced (a :: L) -> coalesced (b :: L).
Proof. intros E. cbn. by rewrite E. Qed.
Lemma coalesced_last a b L : is_free a = is_free b -> coalesced (L ++ [a]) -> coalesced (L ++ [b]).
Proof.
  intros E. induction L as [|c L IH]; [done|]. cbn [app]. intros [Hc Hl]. split; [|by apply IH]. destruct L; cbn in *; [by rewrite <- E|done].
Qed.
(** Between two areas that are in use there may be anything coalesced. *)
Lemma coalesced_busy a L : is_free a = false -> coalesced (a :: L) <-> coalesced L.
Proof. intros E. cbn. destruct L; cbn; [done|]. rewrite E. naive_solver. Qed.
Lemma coalesced_inv L1 L2 : coalesced (L1 ++ L2) -> coalesced L1 /\ coalesced L2.
Proof.
  induction L1 as [|a L1 IH]; [done|]. cbn [app]. intros [Ha Hc]. destruct (IH Hc) as [H1 H2]. split; [|done]. split; [|done]. by destruct L1.
Qed.

(** ** Giving an area back *)

Lemma tiles_u32 lo L1 a L2 hi : tiles lo (L1 ++ a :: L2) hi -> 0 <= lo -> hi < 2 ^ 32 -> 0 <= ar_addr a < 2 ^ 32 /\ 0 < ar_size a < 2 ^ 32 /\ u32 (ar_addr a + ar_size a) = ar_addr a + ar_size a.
Proof.
  intros Ht H0 Hh. destruct (tiles_range lo _ hi a Ht) as (?&?&?); [apply elem_of_app; right; by left|]. rewrite u32_small by lia. lia.
Qed.

(** Two neighbours become one. *)
Lemma tiles_merge lo L1 a b L2 hi : tiles lo (L1 ++ a :: b :: L2) hi -> 0 <= lo -> hi < 2 ^ 32 ->
  tiles lo (L1 ++ a <| ar_size := u32 (ar_size a + ar_size b) |> :: L2) hi.
Proof.
  intros (mid&H1&(<-&Sa&Aa&Eb&Sb&Ab&H2))%tiles_app H0 Hh. apply tiles_app. eexists. split; [exact H1|]. cbn [tiles ar_addr ar_size set].
  apply tiles_le in H1. pose proof (tiles_le _ _ _ H2). rewrite u32_small by lia. split; [done|]. split; [lia|]. rewrite Z.add_assoc. split; [|done].
  unfold aligned, PAGE_SIZE in *. Z.div_mod_to_equations. lia.
Qed.

Lemma tiles_flags lo L1 a L2 hi f : tiles lo (L1 ++ a :: L2) hi -> tiles lo (L1 ++ a <| ar_flags := f |> :: L2) hi.
Proof. rewrite !tiles_app. done. Qed.

Lemma join_next_layout lo L1 a L2 hi : tiles lo (L1 ++ a :: L2) hi -> 0 <= lo -> hi < 2 ^ 32 -> coalesced L2 -> Forall flags_ok L2 -> is_free a = true ->
  let (a', L2') := join_next a L2 in tiles lo (L1 ++ a' :: L2') hi /\ coalesced (a' :: L2') /\ Forall flags_ok L2' /\ ar_flags a' = ar_flags a.
Proof.
  intros Ht H0 Hh Hc Hf Ha. destruct L2 as [|b L2]; cbn [join_next]; [done|]. apply Forall_cons in Hf as [Hb Hf]. destruct (is_free b) eqn:Eb.
  - split; [by apply tiles_merge|]. split; [|done]. eapply coalesced_head; [|exact Hc]. rewrite Eb. symmetry. exact Ha.
  - split; [done|]. split; [|split; [by constructor|done]]. split; [|done]. rewrite Eb. by intros [_ ?].
Qed.

Lemma release_ok lo L1 a L2 hi : tiles lo (L1 ++ a :: L2) hi -> 0 <= lo -> hi < 2 ^ 32 -> coalesced L1 -> coalesced L2 -> Forall flags_ok (L1 ++ L2) ->
  tiles lo (release L1 a L2) hi /\ coalesced (release L1 a L2) /\ Forall flags_ok (release L1 a L2).
Proof.
  intros Ht H0 Hh Hc1 Hc2 [Hf1 Hf2]%Forall_app. unfold release. pose proof (join_next_layout lo L1 (a <| ar_flags := REG_FREE |>) L2 hi (tiles_flags lo L1 a L2 hi REG_FREE Ht) H0 Hh Hc2 Hf2 eq_refl) as Hn.
  destruct (join_next _ L2) as [a' L2'] in Hn |- *. destruct Hn as (Ht'&Hc'&Hf'&Ea). cbn [ar_flags set] in Ea.
  assert (is_free a' = true) as Ha' by (unfold is_free; by rewrite Ea). assert (flags_ok a') as Hfa by (intros _; exact Ea).
  destruct L1 as [|c L1 _] using rev_ind; [split; [done|]; split; [done|]; by constructor|]. rewrite join_prev_snoc. rewrite <- app_assoc in Ht'. apply Forall_app in Hf1 as [Hf1 [Hfc _]%Forall_cons].
  destruct (is_free c) eqn:Ec.
  - split; [by apply tiles_merge|]. split.
    + apply coalesced_mid. split; [by eapply (coalesced_last c)|]. eapply coalesced_head; [|exact Hc']. unfold is_free in *. cbn. congruence.
    + apply Forall_app. split; [done|]. constructor; [exact Hfc|done].
  - split; [done|]. split; [|apply Forall_app; split; [done|]; by repeat constructor].
    apply coalesced_mid. split; [done|]. by apply coalesced_busy.
Qed.

(** ** Carving an area out of a free one

    [b], the piece from [addr] of [size] bytes; before it [Q], what remains of
    [a], and behind it [R], a new free area. *)
Record carved (a : area) (Q : list area) (b : area) (R : list area) (addr size : Z) : Prop := {
  cv_piece : ar_addr b = addr /\ ar_size b = size;
  cv_before : (Q = [] /\ addr = ar_addr a /\ ar_ptr b = ar_ptr a) \/ (Q = [a <| ar_size := addr - ar_addr a |>] /\ ar_addr a < addr);
  cv_after : (R = [] /\ addr + size = ar_addr a + ar_size a) \/
    (exists p, R = [mk_area p (addr + size) (ar_addr a + ar_size a - (addr + size)) REG_FREE 0] /\ addr + size < ar_addr a + ar_size a);
}.

Lemma carved_tiles a Q b R addr size : carved a Q b R addr size -> aligned (ar_addr a) -> aligned (ar_size a) -> aligned addr -> aligned size -> 0 < size ->
  tiles (ar_addr a) (Q ++ b :: R) (ar_addr a + ar_size a).
Proof.
  intros [[E1 E2] HQ HR] Aa As Ad Az Hz. assert (tiles addr (b :: R) (ar_addr a + ar_size a)) as Hb.
  { cbn. rewrite E1, E2. split_and!; [done..|]. destruct HR as [[-> ->]|(p&->&Hlt)]; cbn; [done|]. split_and!; [done|lia| |lia]. unfold aligned, PAGE_SIZE in *. Z.div_mod_to_equations. lia. }
  destruct HQ as [(->&Eq&_)|[-> Hlt]]; [cbn [app]; rewrite <- Eq at 1; exact Hb|]. cbn [app tiles]. cbn. replace (ar_addr a + (addr - ar_addr a)) with addr by lia.
  split; [done|]. split; [lia|]. split; [|exact Hb]. unfold aligned, PAGE_SIZE in *. Z.div_mod_to_equations. lia.
Qed.

(** The layout with the piece in use. *)
Lemma carved_layout L1 a L2 Q b R addr size : layout_ok (L1 ++ a :: L2) -> is_free a = true -> carved a Q b R addr size -> is_free b = false ->
  aligned addr -> aligned size -> 0 < size -> layout_ok (L1 ++ (Q ++ b :: R) ++ L2).
Proof.
  intros [Ht Hc Hf] Ha HC Hb Ad Az Hz. destruct (tiles_aligned _ _ _ a Ht) as [Aa As]; [done|apply elem_of_app; right; by left|].
  apply Forall_app in Hf as [Hf1 [Hfa Hf2]%Forall_cons]. apply coalesced_mid in Hc as [Hc1 Hc2]. split.
  - eapply tiles_replace; [exact Ht|]. by eapply carved_tiles.
  - rewrite <- app_assoc. cbn [app]. rewrite app_assoc. apply coalesced_mid. split.
    + destruct (cv_before _ _ _ _ _ _ HC) as [(->&_)|[-> _]].
      * rewrite app_nil_r. apply coalesced_inv in Hc1 as [Hc1 _]. clear -Hc1 Hb. induction L1 as [|c L1 IH]; [done|]. cbn [app] in *. destruct Hc1 as [Hc Hc1]. split; [|by apply IH].
        destruct L1; cbn in *; [by rewrite Hb; intros [_ ?]|done].
      * rewrite <- app_assoc. cbn [app]. apply coalesced_mid. split; [by eapply (coalesced_last a)|]. cbn. rewrite Hb. split; [by intros [_ ?]|done].
    + apply coalesced_busy; [done|]. destruct (cv_after _ _ _ _ _ _ HC) as [[-> _]|(p&->&_)]; cbn [app]; [by destruct Hc2|].
      eapply coalesced_head; [|exact Hc2]. by rewrite Ha.
  - apply Forall_app. split; [done|]. apply Forall_app. split; [|done]. apply Forall_app. split.
    + destruct (cv_before _ _ _ _ _ _ HC) as [(->&_)|[-> _]]; [constructor|]. constructor; [exact Hfa|constructor].
    + constructor; [by unfold flags_ok; rewrite Hb|]. destruct (cv_after _ _ _ _ _ _ HC) as [[-> _]|(p&->&_)]; repeat constructor.
Qed.

(** Giving the piece back restores the layout. *)
Lemma release_carved L1 a L2 Q b R addr size : layout_ok (L1 ++ a :: L2) -> is_free a = true -> carved a Q b R addr size -> 0 < size ->
  exists ph, release (L1 ++ Q) b (R ++ L2) = L1 ++ a <| ar_phys := ph |> :: L2 /\ (Q = [] -> ph = ar_phys b) /\ (Q <> [] -> ph = ar_phys a).
Proof.
  intros [Ht Hc Hf] Ha HC Hz. destruct (tiles_u32 _ _ _ _ _ Ht) as ([Ha0 _]&[Hs0 Hs1]&_); [done..|]. apply coalesced_mid in Hc as [Hc1 Hc2].
  assert (ar_flags a = REG_FREE) as Ef by (apply Forall_app in Hf as [_ [Hfa _]%Forall_cons]; by apply Hfa).
  destruct HC as [[E1 E2] HQ HR]. set (full := ar_addr a + ar_size a - addr).
  assert (join_next (b <| ar_flags := REG_FREE |>) (R ++ L2) = (b <| ar_flags := REG_FREE |> <| ar_size := full |>, L2)) as Ej.
  { destruct HR as [[-> He]|(p&->&Hlt)]; cbn [app join_next].
    - assert (b <| ar_flags := REG_FREE |> <| ar_size := full |> = b <| ar_flags := REG_FREE |>) as -> by (destruct b; cbn in *; f_equal; unfold full; lia).
      destruct L2 as [|d L2]; cbn [join_next]; [done|]. destruct (is_free d) eqn:Ed; [|done]. destruct Hc2 as [Hn _]. by destruct Hn.
    - cbn [is_free ar_flags]. change (flag REG_FREE REG_FREE) with true. cbn [ar_size set]. do 2 f_equal. destruct b; cbn in *. f_equal. unfold full. rewrite u32_small; [lia|].
      destruct HQ as [(_&->&_)|[_ ?]]; lia. }
  unfold release. rewrite Ej. destruct HQ as [(->&->&Ep)|[-> Hlt]].
  - exists (ar_phys b). rewrite app_nil_r. split; [|done]. assert (b <| ar_flags := REG_FREE |> <| ar_size := full |> = a <| ar_phys := ar_phys b |>) as ->.
    { destruct a, b; cbn in *. subst. f_equal; unfold full; lia. }
    destruct L1 as [|c L1 _] using rev_ind; [done|]. rewrite join_prev_snoc, <- app_assoc. destruct (is_free c) eqn:Ec; [|done].
    rewrite <- app_assoc in Hc1. apply coalesced_mid in Hc1 as [_ [Hn _]]. by destruct Hn.
  - exists (ar_phys a). split; [|done]. rewrite join_prev_snoc. replace (is_free _) with true by (symmetry; exact Ha). do 2 f_equal. destruct a; cbn in *. f_equal.
    unfold full. rewrite u32_small; lia.
Qed.

(** ** Where the addresses of a layout are *)

Lemma tiles_others lo L1 a L2 hi c x : tiles lo (L1 ++ a :: L2) hi -> c ∈ L1 ++ L2 -> in_area x c -> ~ in_area x a.
Proof.
  unfold in_area. intros (mid&H1&Ea&Hs&_&H2)%tiles_app [Hc|Hc]%elem_of_app Hx.
  - destruct (tiles_range _ _ _ c H1 Hc) as (?&?&?). lia.
  - destruct (tiles_range _ _ _ c H2 Hc) as (?&?&?). lia.
Qed.

(** What is left of a free area around the piece. *)
Lemma carved_rest a Q b R addr size c : carved a Q b R addr size -> is_free a = true -> 0 < size -> c ∈ Q ++ R ->
  is_free c = true /\ forall x, in_area x c -> in_area x a /\ ~ (addr <= x < addr + size).
Proof.
  intros [_ HQ HR] Ha Hz [Hc|Hc]%elem_of_app; unfold in_area.
  - destruct HQ as [(->&_)|[-> Hlt]]; [by apply elem_of_nil in Hc|]. apply list_elem_of_singleton in Hc as ->. split; [exact Ha|]. cbn. intros x Hx.
    assert (addr <= ar_addr a + ar_size a) by (destruct HR as [[_ ?]|(?&_&?)]; lia). lia.
  - destruct HR as [[-> _]|(p&->&Hlt)]; [by apply elem_of_nil in Hc|]. apply list_elem_of_singleton in Hc as ->. split; [done|]. cbn. intros x Hx.
    assert (ar_addr a <= addr) by (destruct HQ as [(_&->&_)|[_ ?]]; lia). lia.
Qed.
Lemma carved_in a Q b R addr size x : carved a Q b R addr size -> 0 < size -> addr <= x < addr + size -> in_area x a.
Proof. intros [_ HQ HR] Hz Hx. unfold in_area. destruct HQ as [(_&?&_)|[_ ?]], HR as [[_ ?]|(?&_&?)]; lia. Qed.
Lemma carved_elem (L1 Q R L2 : list area) b c : c ∈ L1 ++ (Q ++ b :: R) ++ L2 <-> c = b \/ c ∈ Q ++ R \/ c ∈ L1 ++ L2.
Proof. rewrite !elem_of_app, elem_of_cons. tauto. Qed.

(** The free area that results from giving [a] back covers [a] and free neighbours. *)
Lemma join_next_elem L1 a L2 lo hi x : tiles lo (L1 ++ a :: L2) hi -> 0 <= lo -> hi < 2 ^ 32 -> in_area x (join_next a L2).1 ->
  in_area x a \/ exists d, d ∈ L2 /\ is_free d = true /\ in_area x d.
Proof.
  intros Ht H0 Hh. destruct L2 as [|b L2]; cbn [join_next fst]; [by left|]. destruct (is_free b) eqn:Eb; cbn [fst]; [|by left]. unfold in_area. cbn [ar_addr ar_size set].
  apply tiles_app in Ht as (mid&H1&Ea&Sa&_&Eb'&Sb&_&H2). pose proof (tiles_le _ _ _ H1). pose proof (tiles_le _ _ _ H2). rewrite u32_small by lia. intros Hx.
  destruct (Z.lt_ge_cases x (ar_addr a + ar_size a)); [left; lia|right]. exists b. split; [by left|]. split; [done|lia].
Qed.

Lemma release_elem lo L1 a L2 hi c : tiles lo (L1 ++ a :: L2) hi -> 0 <= lo -> hi < 2 ^ 32 -> c ∈ release L1 a L2 ->
  c ∈ L1 ++ L2 \/ (is_free c = true /\ forall x, in_area x c -> in_area x a \/ exists d, d ∈ L1 ++ L2 /\ is_free d = true /\ in_area x d).
Proof.
  intros Ht H0 Hh. unfold release. set (a1 := a <| ar_flags := REG_FREE |>). pose proof (tiles_flags _ _ _ _ _ REG_FREE Ht) as Ht1. fold a1 in Ht1.
  pose proof (fun x => join_next_elem L1 a1 L2 lo hi x Ht1 H0 Hh) as Hn. assert (is_free (join_next a1 L2).1 = true /\ forall d, d ∈ (join_next a1 L2).2 -> d ∈ L2) as [Hf Hsub].
  { destruct L2 as [|b L2]; cbn [join_next]; [done|]. destruct (is_free b); [split; [done|]; intros d; by right|done]. }
  assert (tiles lo (L1 ++ (join_next a1 L2).1 :: (join_next a1 L2).2) hi) as Ht2.
  { destruct L2 as [|b L2]; cbn [join_next]; [done|]. destruct (is_free b); [by apply tiles_merge|done]. }
  destruct (join_next a1 L2) as [a2 L3] eqn:Ej. cbn [fst snd] in *.
  assert (forall x, in_area x a2 -> in_area x a \/ exists d, d ∈ L1 ++ L2 /\ is_free d = true /\ in_area x d) as Hn'.
  { intros x Hx. destruct (Hn x Hx) as [?|(d&?&?&?)]; [by left|]. right. exists d. split; [by apply elem_of_app; right|done]. }
  destruct L1 as [|e L1 _] using rev_ind; cbn [join_prev].
  { intros [->|Hc]%elem_of_cons; [right; done|left; by apply Hsub]. }
  rewrite join_prev_snoc. rewrite <- app_assoc in Ht2. apply tiles_app in Ht2 as (mid&T1&Ee&Se&_&Ea2&Sa2&_&T2). pose proof (tiles_le _ _ _ T1). pose proof (tiles_le _ _ _ T2).
  assert (e ∈ (L1 ++ [e]) ++ L2) as He by (rewrite !elem_of_app, list_elem_of_singleton; tauto).
  destruct (is_free e) eqn:Ef; rewrite elem_of_app, ?elem_of_cons.
  - intros [Hc|[->|Hc]]; [left; rewrite !elem_of_app; tauto|right|left; apply elem_of_app; right; by apply Hsub]. split; [exact Ef|]. unfold in_area at 1. cbn [ar_addr ar_size set]. rewrite u32_small by lia. intros x Hx.
    destruct (Z.lt_ge_cases x (ar_addr e + ar_size e)); [right; exists e; split; [done|]; split; [done|unfold in_area; lia]|]. apply Hn'. unfold in_area. lia.
  - intros [Hc|[->|[->|Hc]]]; [left; rewrite !elem_of_app; tauto|by left|by right|left; apply elem_of_app; right; by apply Hsub].
Qed.

(** In a layout the test of region_find() says that the area contains the range. *)
Lemma covers_range L a addr size : layout_ok L -> a ∈ L -> 0 <= addr -> 0 < size -> addr + size < 2 ^ 32 ->
  covers addr size a = true <-> ar_addr a <= addr /\ addr + size <= ar_addr a + ar_size a.
Proof.
  intros [Ht _ _] Ha H0 Hz Hh. destruct (tiles_range _ _ _ a Ht Ha) as (?&?&?). unfold covers, UMEM_MAX, PAGE_SIZE in *. rewrite !u32_small by lia. rewrite andb_true_iff, !Z.leb_le. done.
Qed.

Lemma find_none (f : area -> bool) L a : List.find f L = None -> a ∈ L -> f a = false.
Proof. intros Hf Ha. apply (List.find_none f L Hf). by apply list_elem_of_In. Qed.

(** No two areas start at the same address. *)
Lemma area_unique L a b : layout_ok L -> a ∈ L -> b ∈ L -> ar_addr a = ar_addr b -> a = b.
Proof.
  intros [Ht _ _] Ha Hb E. revert Ht. generalize PAGE_SIZE as lo. induction L as [|c L IH]; [by apply elem_of_nil in Ha|]. intros lo (Ec&Hs&_&Ht). apply elem_of_cons in Ha as [->|Ha], Hb as [->|Hb]; [done|..|by eapply IH].
  - destruct (tiles_range _ _ _ b Ht Hb). lia.
  - destruct (tiles_range _ _ _ a Ht Ha). lia.
Qed.

Lemma split_unique lo L1 a L2 M1 b M2 hi : tiles lo (L1 ++ a :: L2) hi -> L1 ++ a :: L2 = M1 ++ b :: M2 -> ar_addr a = ar_addr b -> L1 = M1 /\ a = b /\ L2 = M2.
Proof.
  revert lo M1. induction L1 as [|c L1 IH]; intros lo [|d M1]; cbn [app]; intros Ht [= -> E2] E; subst; [done|..].
  - destruct Ht as (Ea&Hs&_&Ht). destruct (tiles_range _ _ _ b Ht) as (?&_); [apply elem_of_app; right; by left|]. lia.
  - destruct Ht as (Eb&Hs&_&Ht). destruct (tiles_range _ _ _ a Ht) as (?&_); [apply elem_of_app; right; by left|]. lia.
  - destruct Ht as (_&_&_&Ht). destruct (IH _ M1 Ht E2 E) as (->&->&->). done.
Qed.

(** What matters of a layout: the frame number left in a free region does not. *)
Definition shape (a : area) : Z * Z * Z * Z * option Z := (ar_ptr a, ar_addr a, ar_size a, ar_flags a, if is_free a then None else Some (ar_phys a)).
