(* ===== verification/VmRegions.v ===== *)
(** * VmRegions: the region operations of vm.c on the list of areas

    region_find(), region_alloc(), region_free() and region_split() against
    their effect on the list of areas that an address space is made of.  [E] is
    the set of blocks of kernel memory that others hold: every operation leaves
    the structures in [E] as they are. *)
From stdpp Require Import base numbers gmap list.
From S2P Require Import Prelude Core Queue Page PageSpec PageSource HeapSource Mmu Vm VmRing VmLayout.

Open Scope Z_scope.

(** An assignment to a field other than the links. *)
Ltac data_only := intros; do 2 eexists; reflexivity.

Section Regions.
Context {K P : Type} `{HeapSource K} `{PageSource P} `{!HeapSourceLaws K} (debug : bool).
Implicit Types s : vmem K P.

Record regions (s : vmem K P) (map : Z) (L : list area) (E : gset Z) : Prop := {
  rg_heap : hs_inv (kh s) (E ∪ list_to_set (ptrs L));
  rg_apart : forall x, x ∈ ptrs L -> x ∉ E;
  rg_nodup : NoDup (ptrs L);
  rg_ring : ring (regs s) L;
  rg_head : head (ptrs L) = Some map;
}.

(** Nothing but this address space changes. *)
Record rstep (s s' : vmem K P) (map : Z) (E : gset Z) : Prop := {
  st_rest : mm s' = mm s /\ ram s' = ram s /\ cr3 s' = cr3 s;
  st_maps : forall x, x = map \/ x ∈ E -> maps s' !! x = maps s !! x;
  st_regs : forall x, x ∈ E -> regs s' !! x = regs s !! x;
}.

Lemma rstep_refl s map E : rstep s s map E.
Proof. done. Qed.
Lemma rstep_trans s1 s2 s3 map E : rstep s1 s2 map E -> rstep s2 s3 map E -> rstep s1 s3 map E.
Proof.
  intros [(?&?&?) M1 R1] [(?&?&?) M2 R2]. split; [split_and!; congruence|intros x Hx; by rewrite M2, M1|intros x Hx; by rewrite R2, R1].
Qed.

(** A fact of one ring holds of the ring turned. *)
Lemma NoDup_turn L1 (a : area) L2 : NoDup (ptrs (L1 ++ a :: L2)) <-> NoDup (ptrs (a :: L2 ++ L1)).
Proof. by rewrite (app_comm_cons L2 L1 a), !fmap_app, (Permutation_app_comm (ptrs L1)). Qed.
Lemma ptrs_turn x L1 (a : area) L2 : x ∈ ptrs (L1 ++ a :: L2) <-> x ∈ ptrs (a :: L2 ++ L1).
Proof. rewrite (app_comm_cons L2 L1 a), !fmap_app, !elem_of_app. tauto. Qed.
Lemma head_mid (map : Z) L1 (a b : area) L2 M2 : ar_ptr b = ar_ptr a -> head (ptrs (L1 ++ a :: L2)) = Some map -> head (ptrs (L1 ++ b :: M2)) = Some map.
Proof. intros E. destruct L1; cbn; [by rewrite E|done]. Qed.

Lemma regions_lookup s map L1 a L2 E : regions s map (L1 ++ a :: L2) E ->
  exists p n sp sn, regs s !! ar_ptr a = Some (mk_region p n sp sn (ar_addr a) (ar_size a) (ar_flags a) (ar_phys a)).
Proof. intros R. destruct (ring_node (regs s) _ a (rg_ring _ _ _ _ R)) as (p&n&sp&sn&E'); [apply elem_of_app; right; by left|]. by exists p, n, sp, sn. Qed.

Lemma regions_turn s map L1 a L2 E : regions s map (L1 ++ a :: L2) E -> NoDup (ptrs (a :: L2 ++ L1)) /\ ring (regs s) (a :: L2 ++ L1).
Proof. intros R. split; [apply NoDup_turn, R|]. apply (ring_turn _ L1 (a :: L2)), R. Qed.

(** *** Assignments to a region *)

Lemma wr_ok s map L1 a b L2 E f : regions s map (L1 ++ a :: L2) E -> ar_ptr b = ar_ptr a ->
  (forall p n sp sn, exists sp' sn', f (mk_region p n sp sn (ar_addr a) (ar_size a) (ar_flags a) (ar_phys a)) = mk_region p n sp' sn' (ar_addr b) (ar_size b) (ar_flags b) (ar_phys b)) ->
  exists s', wr (ar_ptr a) f s = Some s' /\ regions s' map (L1 ++ b :: L2) E /\ rstep s s' map E /\ kh s' = kh s.
Proof.
  intros R Eb Hf. destruct (regions_turn _ _ _ _ _ _ R) as [ND HR]. destruct (regions_lookup _ _ _ _ _ _ R) as (p&n&sp&sn&Er). unfold wr. rewrite Er. cbn [mbind option_bind].
  destruct (Hf p n sp sn) as (sp'&sn'&->). eexists. split; [done|]. assert (ptrs (L1 ++ b :: L2) = ptrs (L1 ++ a :: L2)) as Ep by (by rewrite !fmap_app, !fmap_cons, Eb). split_and!.
  - split; cbn [kh regs set]; rewrite ?Ep; [apply R|apply R|apply R| |apply R].
    apply (ring_turn _ (b :: L2) L1). exact (ring_update (regs s) a (L2 ++ L1) b sp' sn' _ ND HR Er Eb).
  - split; [done|done|]. intros x Hx. cbn. rewrite lookup_insert_ne; [done|]. intros <-. apply (rg_apart _ _ _ _ R (ar_ptr a)); [|done]. apply ptrs_turn. by left.
  - done.
Qed.

(** One of the next [n] requests for a region fails. *)
Fixpoint kmem_short (n : nat) (k : K) : Prop :=
  match n with
  | O => False
  | S n => exists r k', hs_alloc SIZEOF_REGION k = Some (r, k') /\ (r = 0 \/ kmem_short n k')
  end.

Fixpoint enough (n : nat) (k : K) : bool :=
  match n with
  | O => true
  | S n => match hs_alloc SIZEOF_REGION k with Some (r, k') => negb (r =? 0) && enough n k' | None => true end
  end.
Lemma enough_ok n : forall k, enough n k = true -> ~ kmem_short n k.
Proof.
  induction n as [|n IH]; intros k Hk; [by intros []|]. intros (r&k'&E&Hr). cbn [enough] in Hk. rewrite E in Hk. apply andb_prop in Hk as [Hr0%negb_true_iff%Z.eqb_neq Hk].
  destruct Hr as [->|Hr]; [done|]. by apply (IH k').
Qed.

(** *** A new region behind another, with its links to shared regions *)
Lemma insert_ok s map L1 a L2 E b shp shn k : regions s map (L1 ++ a :: L2) E -> hs_inv k ({[ar_ptr b]} ∪ (E ∪ list_to_set (ptrs (L1 ++ a :: L2)))) -> ar_ptr b ∉ E ∪ list_to_set (ptrs (L1 ++ a :: L2)) ->
  exists p s', regs s !! ar_ptr a = Some p /\
    (s ← wr (r_next p) (fun r => r <| r_prev := ar_ptr b |>) (s <| kh := k |> <| regs ::= <[ar_ptr b := mk_region (ar_ptr a) (r_next p) shp shn (ar_addr b) (ar_size b) (ar_flags b) (ar_phys b)]> |>);
     wr (ar_ptr a) (fun r => r <| r_next := ar_ptr b |>) s) = Some s' /\ rstep s s' map E /\ kh s' = k /\ regions s' map (L1 ++ a :: b :: L2) E.
Proof.
  intros R Hk [HrE HrL]%not_elem_of_union. rewrite elem_of_list_to_set in HrL. destruct (regions_turn _ _ _ _ _ _ R) as [ND HR]. destruct (regions_lookup _ _ _ _ _ _ R) as (p&n&sp&sn&Er).
  exists (mk_region p n sp sn (ar_addr a) (ar_size a) (ar_flags a) (ar_phys a)). remember (s <| kh := k |>) as s1 eqn:Es1. assert (regs s1 = regs s) as Hrs by (by subst). rewrite <- Hrs in HR, Er |- *. cbn [r_next].
  assert (ar_ptr b ∉ ptrs (a :: L2 ++ L1)) as Hnb by (by rewrite <- ptrs_turn).
  destruct (ring_insert s1 a (L2 ++ L1) b _ shp shn ND Hnb HR Er) as (rs'&Ew&HR'&Hx). cbn [r_next] in Ew. eexists. split; [done|]. split; [exact Ew|]. rewrite Hrs in Hx. subst s1.
  assert (forall x, x ∈ E -> x ∉ ptrs (a :: b :: L2 ++ L1)) as HE.
  { intros x HxE [->|[->|Hx']%elem_of_cons]%elem_of_cons; [..|apply (rg_apart _ _ _ _ R x); [|done]; apply ptrs_turn; by right].
    - apply (rg_apart _ _ _ _ R (ar_ptr a)); [|done]. apply ptrs_turn. by left.
    - done. }
  split; [split; [done|done|]; intros x HxE; cbn; by rewrite Hx by (by apply HE)|]. split; [done|].
  assert (ptrs (L1 ++ a :: b :: L2) ≡ₚ ar_ptr b :: ptrs (L1 ++ a :: L2)) as Ep by (rewrite !fmap_app, !fmap_cons; solve_Permutation). split; cbn [kh regs set].
  - rewrite (list_to_set_perm_L _ _ Ep), list_to_set_cons. by rewrite (assoc_L (∪)), (comm_L (∪) E), <- (assoc_L (∪)).
  - intros x Hx'. rewrite Ep in Hx'. apply elem_of_cons in Hx' as [->|Hx']; [done|by apply R].
  - rewrite Ep. apply NoDup_cons. split; [done|apply R].
  - by apply (ring_turn _ (a :: b :: L2) L1).
  - eapply (head_mid map L1 a a); [done|apply R].
Qed.

(** *** region_create *)
Lemma region_create_ok s map L1 a L2 E addr size : regions s map (L1 ++ a :: L2) E ->
  exists r s', region_create (ar_ptr a) addr size s = Some (r, s') /\ rstep s s' map E /\
    ((r = 0 /\ kmem_short 1 (kh s) /\ regions s' map (L1 ++ a :: L2) E) \/
     (r <> 0 /\ hs_alloc SIZEOF_REGION (kh s) = Some (r, kh s') /\ regions s' map (L1 ++ a :: mk_area r addr size REG_FREE 0 :: L2) E)).
Proof.
  intros R. unfold region_create, vm_kmem_alloc. destruct (hs_alloc_ok _ _ SIZEOF_REGION (rg_heap _ _ _ _ R)) as (r&k&Ek&Hr); [done|]. rewrite Ek. cbn [mbind option_bind fst snd].
  destruct Hr as [[-> Hk]|(Hr0&Hni&Hk)].
  { eexists 0, _. split; [done|]. split; [done|]. left. split; [done|]. split; [exists 0, k; split; [done|by left]|]. split; cbn [kh regs set]; [done|apply R..]. }
  rewrite (proj2 (Z.eqb_neq r 0)) by done. set (b := mk_area r addr size REG_FREE 0). destruct (insert_ok s map L1 a L2 E b r r k R Hk Hni) as (p&s'&Er&Ew&St&Ekh&R').
  change (regs (s <| kh := k |>)) with (regs s). rewrite Er. cbn [mbind option_bind]. cbn [ar_ptr ar_addr ar_size ar_flags ar_phys b] in Ew.
  destruct (wr (r_next p) _ _) as [s2|] eqn:E1 in Ew |- *; [|discriminate Ew]. cbn [mbind option_bind] in Ew |- *. rewrite Ew. cbn [mbind option_bind]. eexists _, _. split; [done|].
  split; [done|]. right. split; [done|]. split; [by rewrite Ekh|exact R'].
Qed.

(** *** Absorbing the next region *)
Lemma absorb_ok s map L1 a b L2 E : regions s map (L1 ++ a :: b :: L2) E ->
  exists s', absorb (ar_ptr a) (ar_ptr b) s = Some s' /\ rstep s s' map E /\ regions s' map (L1 ++ a <| ar_size := u32 (ar_size a + ar_size b) |> :: L2) E.
Proof.
  intros R. destruct (regions_turn _ _ _ _ _ _ R) as [ND HR]. destruct (ring_absorb s a b (L2 ++ L1) ND HR) as (rs'&Ea&HR'&Hx). rewrite Ea. unfold vm_kmem_free.
  set (a' := a <| ar_size := _ |>) in *. assert (ptrs (L1 ++ a :: b :: L2) ≡ₚ ar_ptr b :: ptrs (L1 ++ a' :: L2)) as Ep by (rewrite !fmap_app, !fmap_cons; cbn [ar_ptr a' set]; solve_Permutation).
  pose proof (rg_nodup _ _ _ _ R) as ND'. rewrite Ep in ND'. apply NoDup_cons in ND' as [Hb ND'].
  assert (ar_ptr b ∈ ptrs (L1 ++ a :: b :: L2)) as HbL by (rewrite Ep; by left). assert (ar_ptr b ∉ E) as HbE by (by apply R).
  destruct (hs_free_ok _ _ (ar_ptr b) (rg_heap _ _ _ _ R)) as (k&Ek&Hk); [apply elem_of_union_r; by rewrite elem_of_list_to_set|]. cbn [kh regs set]. rewrite Ek. cbn [mbind option_bind].
  eexists. split; [done|]. assert (map <> ar_ptr b) as Hmb.
  { intros ->. pose proof (rg_head _ _ _ _ R) as Hh. apply Hb. eapply (head_mid _ L1 a a') in Hh; [|done]. apply head_Some_elem_of. exact Hh. }
  split.
  - split; [done| |].
    + intros x Hx'. cbn. rewrite lookup_delete_ne; [done|]. intros <-. destruct Hx' as [?|?]; congruence.
    + intros x HxE. cbn. rewrite lookup_delete_ne by congruence. apply Hx. intros Hin. apply (rg_apart _ _ _ _ R x); [|done]. by apply ptrs_turn.
  - split; cbn [kh regs set].
    + rewrite (list_to_set_perm_L _ _ Ep), list_to_set_cons in Hk. replace (E ∪ list_to_set _) with ((E ∪ ({[ar_ptr b]} ∪ list_to_set (ptrs (L1 ++ a' :: L2)))) ∖ {[ar_ptr b]}); [done|].
      apply set_eq. intros x. rewrite elem_of_difference, !elem_of_union, elem_of_singleton, elem_of_list_to_set. split; [tauto|]. intros [?|?]; split; [tauto|congruence|tauto|congruence].
    + intros x Hx'. apply R. rewrite Ep. by right.
    + done.
    + by apply (ring_turn _ (a' :: L2) L1).
    + eapply (head_mid map L1 a a'); [done|apply R].
Qed.

(** *** region_free *)

Lemma nxt_neq_head L1 a b L2 (map : Z) : NoDup (ptrs (L1 ++ a :: b :: L2)) -> head (ptrs (L1 ++ a :: b :: L2)) = Some map -> ar_ptr b <> map.
Proof.
  intros ND Hh <-. destruct L1 as [|c L1]; cbn in *; injection Hh as Eh; apply NoDup_cons in ND as [Hni _]; apply Hni; rewrite Eh; [by left|].
  rewrite fmap_app. apply elem_of_app. right. right. by left.
Qed.

Lemma ring_last rs a L1 L2 (map : Z) p n : ring rs (L1 ++ a :: L2) -> head (ptrs (L1 ++ a :: L2)) = Some map -> node_at rs p a n ->
  n = nxt L2 map /\ p = lst (lst 0 (L1 ++ a :: L2)) L1.
Proof.
  unfold ring. rewrite chain_app. cbn [chain]. intros (_&(sp&sn&E)&_) Hh (sp'&sn'&E'). rewrite E in E'. injection E' as <- <- _ _. split; [|done].
  destruct L1 as [|c L1], L2 as [|b L2]; cbn in *; congruence.
Qed.

Lemma join_next_ok s map L1 a L2 E r : regions s map (L1 ++ a :: L2) E -> regs s !! ar_ptr a = Some r ->
  exists s', (nx ← regs s !! r_next r; if negb (r_next r =? map) && flag (r_flags nx) REG_FREE then absorb (ar_ptr a) (r_next r) s else Some s) = Some s' /\
    rstep s s' map E /\ regions s' map (L1 ++ (join_next a L2).1 :: (join_next a L2).2) E.
Proof.
  intros R Er. destruct (regions_lookup _ _ _ _ _ _ R) as (p&n&sp&sn&Er'). rewrite Er in Er'. injection Er' as ->. cbn [r_next].
  destruct (ring_last (regs s) a L1 L2 map p n (rg_ring _ _ _ _ R) (rg_head _ _ _ _ R)) as [-> _]; [by exists sp, sn|]. destruct L2 as [|b L2]; cbn [nxt join_next fst snd].
  - assert (is_Some (regs s !! map)) as [r Em].
    { eapply ring_mapped; [apply R|]. apply head_Some_elem_of, R. }
    rewrite Em. cbn [mbind option_bind]. rewrite Z.eqb_refl. cbn [negb andb]. by exists s.
  - pose proof R as R'. rewrite (cons_middle a), app_assoc in R'. destruct (regions_lookup _ _ _ _ _ _ R') as (p'&n'&sp'&sn'&Eb). rewrite Eb. cbn [mbind option_bind r_flags].
    rewrite (proj2 (Z.eqb_neq _ _)) by (eapply nxt_neq_head; apply R). cbn [negb andb]. unfold is_free. destruct (flag (ar_flags b) REG_FREE) eqn:Ef; [|by exists s].
    by apply absorb_ok.
Qed.

Lemma join_prev_ok s map L1 a L2 E r : regions s map (L1 ++ a :: L2) E -> regs s !! ar_ptr a = Some r ->
  exists s', (pv ← regs s !! r_prev r; if negb (ar_ptr a =? map) && flag (r_flags pv) REG_FREE then absorb (r_prev r) (ar_ptr a) s else Some s) = Some s' /\
    rstep s s' map E /\ regions s' map (join_prev L1 a L2) E.
Proof.
  intros R Er. destruct (regions_lookup _ _ _ _ _ _ R) as (p&n&sp&sn&Er'). rewrite Er in Er'. injection Er' as ->. cbn [r_prev].
  destruct (ring_last (regs s) a L1 L2 map p n (rg_ring _ _ _ _ R) (rg_head _ _ _ _ R)) as [_ ->]; [by exists sp, sn|]. destruct L1 as [|c L1 _] using rev_ind; cbn [app lst].
  - assert (is_Some (regs s !! lst (ar_ptr a) L2)) as [r ->].
    { eapply ring_mapped; [apply R|]. clear. induction L2 as [|b L2 IH] in a |- *; [by left|right; apply IH]. }
    cbn [mbind option_bind]. pose proof (rg_head _ _ _ _ R) as Hh. cbn in Hh. injection Hh as ->. rewrite Z.eqb_refl. by exists s.
  - rewrite lst_app. cbn [lst]. pose proof R as R'. rewrite <- (app_assoc L1 [c]) in R'. cbn [app] in R'. destruct (regions_lookup _ _ _ _ _ _ R') as (p'&n'&sp'&sn'&Ec). rewrite Ec. cbn [mbind option_bind r_flags].
    rewrite (proj2 (Z.eqb_neq _ _)) by (eapply nxt_neq_head; apply R'). cbn [negb andb]. rewrite join_prev_snoc. unfold is_free. destruct (flag (ar_flags c) REG_FREE) eqn:Ef; [by apply absorb_ok|].
    by exists s.
Qed.

Lemma region_free_ok s map L1 a L2 E : regions s map (L1 ++ a :: L2) E -> (debug = true -> ar_flags a <> REG_FREE) ->
  exists s', region_free debug map (ar_ptr a) s = Some s' /\ rstep s s' map E /\ regions s' map (release L1 a L2) E.
Proof.
  intros R Ha. unfold region_free. destruct (regions_lookup _ _ _ _ _ _ R) as (p&n&sp&sn&Er). rewrite Er. cbn [mbind option_bind r_flags]. unfold ASSERT.
  replace (debug && negb (negb (ar_flags a =? REG_FREE))) with false by (symmetry; destruct debug; [|done]; rewrite negb_involutive; by apply Z.eqb_neq, Ha). cbn [mbind option_bind].
  set (a1 := a <| ar_flags := REG_FREE |>). destruct (wr_ok s map L1 a a1 L2 E (fun r => r <| r_flags := REG_FREE |>) R eq_refl) as (s1&->&R1&St1&_); [data_only|].
  cbn [mbind option_bind]. destruct (regions_lookup _ _ _ _ _ _ R1) as (p1&n1&sp1&sn1&Er1). cbn [ar_ptr a1 set] in Er1. rewrite Er1. cbn [mbind option_bind r_flags ar_flags a1 set flag].
  replace (flag REG_FREE REG_SHARED) with false by done. cbn [mbind option_bind]. rewrite Er1. cbn [mbind option_bind].
  destruct (join_next_ok s1 map L1 a1 L2 E _ R1 Er1) as (s2&E2&St2&R2). unfold release. fold a1. cbn [r_next ar_ptr a1 set] in E2 |- *.
  destruct (regs s1 !! n1) as [nx|]; [|discriminate E2]. cbn [mbind option_bind] in E2 |- *. rewrite E2. cbn [mbind option_bind].
  fold a1. destruct (join_next a1 L2) as [a2 L3] eqn:Ej. cbn [fst snd] in R2. assert (ar_ptr a2 = ar_ptr a) as Ep.
  { destruct L2 as [|b L2]; cbn in Ej; [by injection Ej as <- <-|]. destruct (is_free b); by injection Ej as <- <-. }
  destruct (regions_lookup _ _ _ _ _ _ R2) as (p2&n2&sp2&sn2&Er2). rewrite <- Ep, Er2. cbn [mbind option_bind].
  destruct (join_prev_ok s2 map L1 a2 L3 E _ R2 Er2) as (s3&E3&St3&R3). rewrite E3. exists s3. split; [done|]. split; [|done].
  eapply rstep_trans; [exact St1|]. by eapply rstep_trans.
Qed.

(** *** Searching *)

Lemma find_region_ok s head q (qa : area -> bool) : (forall p n sp sn a, q (mk_region p n sp sn (ar_addr a) (ar_size a) (ar_flags a) (ar_phys a)) = qa a) ->
  forall L a p n, chain (regs s) p (a :: L) head -> head ∉ ptrs L -> (length L < n)%nat ->
  find_region n head (ar_ptr a) q s = Some (default 0 (ar_ptr <$> List.find qa (a :: L))).
Proof.
  intros Hq. induction L as [|b L IH]; intros a p n [(sp&sn&E) Hc] Hh Hn; (destruct n as [|n]; [cbn in Hn; lia|]); cbn [find_region nxt List.find] in *; rewrite E; cbn [mbind option_bind]; rewrite Hq.
  - destruct (qa a); [done|]. cbn [r_next]. by rewrite Z.eqb_refl.
  - destruct (qa a); [done|]. cbn [r_next]. apply not_elem_of_cons in Hh as [Hb Hh]. rewrite (proj2 (Z.eqb_neq _ _)) by congruence.
    apply (IH b (ar_ptr a)); [done|done|]. cbn in Hn. lia.
Qed.

Lemma walk_regions_ok s map L E q (qa : area -> bool) : (forall p n sp sn a, q (mk_region p n sp sn (ar_addr a) (ar_size a) (ar_flags a) (ar_phys a)) = qa a) ->
  regions s map L E -> walk_regions map q s = Some (default 0 (ar_ptr <$> List.find qa L)).
Proof.
  intros Hq R. pose proof R as [_ _ ND HR Hh]. destruct L as [|a L]; [done|]. injection Hh as <-. unfold walk_regions. apply (find_region_ok s _ q qa Hq L a (lst 0 (a :: L))).
  - exact HR.
  - by apply NoDup_cons in ND as [? _].
  - pose proof (mapped_size (regs s) (ptrs (a :: L)) ND (fun x => ring_mapped (regs s) _ x HR)) as Hs. rewrite length_fmap in Hs. cbn in Hs. lia.
Qed.

(** The areas of an address space can be read off its regions. *)
Fixpoint collect (n : nat) (head reg : Z) (s : vmem K P) : option (list area) :=
  match n with
  | O => None
  | S n =>
      r ← regs s !! reg;
      let a := mk_area reg (r_addr r) (r_size r) (r_flags r) (r_phys r) in
      if r_next r =? head then Some [a] else L ← collect n head (r_next r) s; Some (a :: L)
  end.
Definition layout_of (map : Z) (s : vmem K P) : option (list area) := collect (S (size (regs s))) map map s.

Lemma collect_ok s head : forall L a p n, chain (regs s) p (a :: L) head -> head ∉ ptrs L -> (length L < n)%nat -> collect n head (ar_ptr a) s = Some (a :: L).
Proof.
  induction L as [|b L IH]; intros a p n [(sp&sn&E) Hc] Hh Hn; (destruct n as [|n]; [cbn in Hn; lia|]); cbn [collect nxt] in *; rewrite E; cbn [mbind option_bind r_next r_addr r_size r_flags r_phys].
  - rewrite Z.eqb_refl. by destruct a.
  - apply not_elem_of_cons in Hh as [Hb Hh]. rewrite (proj2 (Z.eqb_neq _ _)) by congruence. rewrite (IH b (ar_ptr a)); [by destruct a|done|done|cbn in Hn; lia].
Qed.

Lemma layout_of_ok s map L E : regions s map L E -> layout_of map s = Some L.
Proof.
  intros R. pose proof R as [_ _ ND HR Hh]. destruct L as [|a L]; [done|]. injection Hh as <-. unfold layout_of. apply (collect_ok s _ L a (lst 0 (a :: L))).
  - exact HR.
  - by apply NoDup_cons in ND as [? _].
  - pose proof (mapped_size (regs s) (ptrs (a :: L)) ND (fun x => ring_mapped (regs s) _ x HR)) as Hs. rewrite length_fmap in Hs. cbn in Hs. lia.
Qed.

Lemma find_split (f : area -> bool) L a : List.find f L = Some a -> exists L1 L2, L = L1 ++ a :: L2 /\ f a = true /\ Forall (fun x => f x = false) L1.
Proof.
  induction L as [|b L IH]; cbn; [done|]. destruct (f b) eqn:Eb.
  - intros [= <-]. by exists [], L.
  - intros (L1&L2&->&?&?)%IH. exists (b :: L1), L2. split; [done|]. split; [done|by constructor].
Qed.

Lemma ptr_pos s map L1 a L2 E : regions s map (L1 ++ a :: L2) E -> ar_ptr a <> 0.
Proof.
  intros R E0. assert (0 < ar_ptr a); [|lia]. eapply hs_pos; [apply R|]. apply elem_of_union_r. rewrite elem_of_list_to_set. apply ptrs_turn. by left.
Qed.

Lemma region_find_ok s map L E addr size : regions s map L E ->
  region_find map addr size s = Some (default 0 (ar_ptr <$> List.find (covers addr size) L)).
Proof. intros R. by apply (walk_regions_ok s map L E). Qed.

Lemma region_alloc_ok s map L E size : regions s map L E -> layout_ok L -> 0 < size < 2 ^ 32 ->
  exists r s', region_alloc map size s = Some (r, s') /\ rstep s s' map E /\
    ((r = 0 /\ regions s' map L E /\ (List.find (fits size) L = None \/ kmem_short 1 (kh s))) \/
     (exists L1 a L2 R, L = L1 ++ a :: L2 /\ fits size a = true /\ Forall (fun x => fits size x = false) L1 /\ r = ar_ptr a /\ r <> 0 /\
        carved a [] (a <| ar_size := size |>) R (ar_addr a) size /\ regions s' map (L1 ++ (a <| ar_size := size |> :: R) ++ L2) E)).
Proof.
  intros R [Ht _ _] Hz. unfold region_alloc. rewrite (walk_regions_ok s map L E _ (fits size)) by done. cbn [mbind option_bind].
  destruct (List.find (fits size) L) as [a|] eqn:Ef; cbn [default from_option fmap option_fmap option_map id].
  2: { exists 0, s. split; [done|]. split; [done|]. left. split; [done|]. split; [done|by left]. }
  apply find_split in Ef as (L1&L2&->&Hf&Hn). pose proof Hf as [Ha Hs]%andb_prop. apply Z.leb_le in Hs. pose proof (ptr_pos _ _ _ _ _ _ R) as Hp. rewrite (proj2 (Z.eqb_neq _ 0)) by done.
  destruct (tiles_u32 _ _ _ _ _ Ht) as ([Ha0 Ha1]&[Hs0 Hs1]&Hu); [done..|].
  assert (ar_addr a + ar_size a < 2 ^ 32) as Hin by (rewrite <- Hu; apply u32_range).
  destruct (regions_lookup _ _ _ _ _ _ R) as (p&n&sp&sn&Er). rewrite Er. cbn [mbind option_bind r_size r_addr].
  set (b := a <| ar_size := size |>). destruct (Z.eqb_spec (ar_size a) size) as [Es|Es]; cbn [negb].
  - cbn [mbind option_bind]. cbn [Z.eqb]. destruct (wr_ok s map L1 a b L2 E (fun r => r <| r_size := size |>) R eq_refl) as (s1&->&R1&St1&_); [data_only|].
    cbn [mbind option_bind]. eexists _, _. split; [done|]. split; [done|]. right. exists L1, a, L2, []. split_and!; try done. split; [done|by left|left; split; [done|lia]].
  - rewrite !u32_small by lia. destruct (region_create_ok s map L1 a L2 E (ar_addr a + size) (ar_size a - size) R) as (r&s1&->&St1&Hr). cbn [mbind option_bind].
    destruct Hr as [(->&Hk&R1)|(Hr&_&R1)]; [eexists 0, s1; split; [done|]; split; [done|]; left; split; [done|]; split; [done|by right]|]. rewrite (proj2 (Z.eqb_neq r 0)) by done.
    destruct (wr_ok s1 map L1 a b _ E (fun r => r <| r_size := size |>) R1 eq_refl) as (s2&->&R2&St2&_); [data_only|].
    cbn [mbind option_bind]. eexists _, _. split; [done|]. split; [by eapply rstep_trans|]. right. exists L1, a, L2, [mk_area r (ar_addr a + size) (ar_size a - size) REG_FREE 0]. split_and!; try done.
    split; [done|by left|right; exists r; split; [do 2 f_equal; lia|lia]].
Qed.

(** *** region_split *)

Lemma area_phys_id (a : area) : a <| ar_phys := ar_phys a |> = a.
Proof. by destruct a. Qed.

(** The second half: [c] is what is left of [a] from [addr] on, and [Q] what is before it. *)
Lemma split_rest_ok s map L1 a L2 E Q c addr size (prev : bool) : regions s map (L1 ++ Q ++ c :: L2) E -> layout_ok (L1 ++ a :: L2) -> is_free a = true ->
  carved a Q c [] addr (ar_addr a + ar_size a - addr) -> 0 <= addr -> 0 < size -> addr + size <= ar_addr a + ar_size a ->
  (if prev then Q <> [] /\ (debug = true -> ~ kmem_short 1 (kh s)) else Q = [] /\ c = a) ->
  exists r s', split_rest debug map (ar_ptr c) prev size s = Some (r, s') /\ rstep s s' map E /\
    ((r = 0 /\ kmem_short 1 (kh s) /\ regions s' map (L1 ++ a :: L2) E) \/
     (exists b R, r = ar_ptr b /\ r <> 0 /\ carved a Q b R addr size /\ ar_flags b = 0 /\ ar_phys b = ar_phys c /\ regions s' map (L1 ++ (Q ++ b :: R) ++ L2) E)).
Proof.
  intros R HL Ha HC Hc0 Hz Hhi Hprev. destruct (tiles_u32 _ _ _ _ _ (lo_tiles _ HL)) as ([Ha0 Ha1]&[Hs0 Hs1]&Hu); [done..|].
  assert (ar_addr a + ar_size a < 2 ^ 32) as Hin by (rewrite <- Hu; apply u32_range). pose proof HC as [[Ec1 Ec2] HQ _]. rewrite app_assoc in R.
  pose proof (ptr_pos _ _ _ _ _ _ R) as Hp. unfold split_rest. destruct (regions_lookup _ _ _ _ _ _ R) as (p&n&sp&sn&Er). rewrite Er. cbn [mbind option_bind r_size r_addr].
  assert (forall s' R' b, regions s' map ((L1 ++ Q) ++ b :: R' ++ L2) E -> rstep s s' map E -> carved a Q b R' addr size -> ar_ptr b = ar_ptr c -> ar_phys b = ar_phys c ->
    exists r s'', (s ← wr (ar_ptr c) (fun r => r <| r_flags := 0 |>) s'; Some (ar_ptr c, s)) = Some (r, s'') /\ rstep s s'' map E /\
      ((r = 0 /\ kmem_short 1 (kh s) /\ regions s'' map (L1 ++ a :: L2) E) \/
       (exists b R, r = ar_ptr b /\ r <> 0 /\ carved a Q b R addr size /\ ar_flags b = 0 /\ ar_phys b = ar_phys c /\ regions s'' map (L1 ++ (Q ++ b :: R) ++ L2) E))) as Hfin.
  { intros s' R' b R1 St1 [Hc1 Hc2 Hc3] Ep Eph. set (b' := b <| ar_flags := 0 |>).
    destruct (wr_ok s' map (L1 ++ Q) b b' _ E (fun r => r <| r_flags := 0 |>) R1 eq_refl) as (s2&E2&R2&St2&_); [data_only|].
    rewrite <- Ep, E2. cbn [mbind option_bind]. eexists _, _. split; [done|]. split; [by eapply rstep_trans|]. right.
    exists b', R'. split; [done|]. split; [by rewrite Ep|]. split; [done|]. split; [done|]. split; [done|]. by rewrite <- !app_assoc in R2 |- *. }
  destruct (Z.eqb_spec (ar_size c) size) as [Es|Es]; cbn [negb].
  - cbn [mbind option_bind Z.eqb]. apply (Hfin s [] c); [done|done| |done|done]. split; [done|done|left; split; [done|lia]].
  - rewrite !u32_small by lia. destruct (region_create_ok s map (L1 ++ Q) c L2 E (ar_addr c + size) (ar_size c - size) R) as (r&s1&->&St1&Hr). cbn [mbind option_bind].
    destruct Hr as [(->&Hk&R1)|(Hr&_&R1)].
    + cbn [Z.eqb]. destruct prev.
      * destruct Hprev as [HQ0 Hd]. destruct (region_free_ok s1 map (L1 ++ Q) c L2 E R1) as (s2&->&St2&R2); [intros ->; by destruct Hd|]. cbn [mbind option_bind Z.eqb].
        exists 0, s2. split; [done|]. split; [by eapply rstep_trans|]. left. split; [done|]. split; [done|].
        destruct (release_carved L1 a L2 Q c [] addr _ HL Ha HC) as (ph&Erl&_&Hph); [lia|]. cbn [app] in Erl. by rewrite Erl, Hph, area_phys_id in R2.
      * destruct Hprev as [-> ->]. cbn [mbind option_bind Z.eqb]. exists 0, s1. split; [done|]. split; [done|]. left. rewrite app_nil_r in R1. done.
    + rewrite (proj2 (Z.eqb_neq r 0)) by done. set (b := c <| ar_size := size |>).
      destruct (wr_ok s1 map (L1 ++ Q) c b _ E (fun r => r <| r_size := size |>) R1 eq_refl) as (s2&->&R2&St2&_); [data_only|]. cbn [mbind option_bind Z.eqb].
      eapply (Hfin s2 [_] b); [exact R2|by eapply rstep_trans| |done|done].
      split; [done|done|right; exists r; split; [do 2 f_equal; cbn; lia|cbn; lia]].
Qed.

(** [r] and [s'] are a result of asking for the piece at [addr] in the free area [a]. *)
Definition split_result s map L1 a L2 E addr size r s' : Prop :=
  (r = 0 /\ kmem_short 2 (kh s) /\ regions s' map (L1 ++ a :: L2) E) \/
  (exists Q b R, r = ar_ptr b /\ r <> 0 /\ carved a Q b R addr size /\ ar_flags b = 0 /\ (Q = [] -> ar_phys b = ar_phys a) /\
     regions s' map (L1 ++ (Q ++ b :: R) ++ L2) E).

Lemma kmem_short_le k : kmem_short 1 k -> kmem_short 2 k.
Proof. intros (r&k'&E&[->|[]]). exists 0, k'. split; [done|by left]. Qed.

Lemma region_split_ok s map L1 a L2 E addr size : regions s map (L1 ++ a :: L2) E -> layout_ok (L1 ++ a :: L2) -> is_free a = true ->
  ar_addr a <= addr -> 0 < size -> addr + size <= ar_addr a + ar_size a -> (debug = true -> ~ kmem_short 2 (kh s)) ->
  exists r s', region_split debug map (ar_ptr a) addr size s = Some (r, s') /\ rstep s s' map E /\ split_result s map L1 a L2 E addr size r s'.
Proof.
  intros R HL Ha Hlo Hz Hhi Hd. destruct (tiles_u32 _ _ _ _ _ (lo_tiles _ HL)) as ([Ha0 Ha1]&[Hs0 Hs1]&Hu); [done..|].
  assert (ar_addr a + ar_size a < 2 ^ 32) as Hin by (rewrite <- Hu; apply u32_range). unfold region_split.
  destruct (regions_lookup _ _ _ _ _ _ R) as (p&n&sp&sn&Er). rewrite Er. cbn [mbind option_bind r_addr r_size].
  destruct (Z.eqb_spec (ar_addr a) addr) as [Ea|Ea]; cbn [negb].
  - destruct (split_rest_ok s map L1 a L2 E [] a addr size false R HL Ha) as (r&s'&E'&St&Hr); [split; [lia|by left|left; split; [done|lia]]|lia|done|done|done|].
    exists r, s'. split; [done|]. split; [done|]. destruct Hr as [(?&?%kmem_short_le&?)|(b&R'&?&?&?&?&?&?)]; [by left|right; by exists [], b, R'].
  - rewrite !u32_small by lia. set (diff := addr - ar_addr a).
    destruct (region_create_ok s map L1 a L2 E addr (ar_size a - diff) R) as (r&s1&->&St1&Hr). cbn [mbind option_bind].
    destruct Hr as [(->&Hk%kmem_short_le&R1)|(Hr&Hk1&R1)]; [cbn [Z.eqb]; exists 0, s1; split; [done|]; split; [done|by left]|].
    rewrite (proj2 (Z.eqb_neq r 0)) by done. set (a1 := a <| ar_size := diff |>). set (c := mk_area r addr (ar_size a - diff) REG_FREE 0) in *.
    destruct (wr_ok s1 map L1 a a1 _ E (fun r => r <| r_size := diff |>) R1 eq_refl) as (s2&->&R2&St2&Hk2); [data_only|]. cbn [mbind option_bind].
    destruct (split_rest_ok s2 map L1 a L2 E [a1] c addr size true R2 HL Ha) as (r'&s'&E'&St&Hr'); [split; [cbn; lia|right; split; [done|lia]|left; split; [done|lia]]|lia|done|done| |].
    { split; [done|]. intros Ht Hs. apply (Hd Ht). exists r, (kh s1). split; [done|right; by rewrite <- Hk2]. }
    exists r', s'. split; [exact E'|]. split; [eapply rstep_trans; [exact St1|]; by eapply rstep_trans|].
    destruct Hr' as [(?&?&?)|(b&R'&?&?&?&?&?&?)]; [left; split; [done|]; split; [|done]; exists r, (kh s1); split; [done|right; by rewrite <- Hk2]|right; by exists [a1], b, R'].
Qed.

(** With ASSERT compiled in, undoing the first split is a panic: the region it
    gives back was never taken into use. *)
Lemma region_split_undo s map L1 a L2 E addr size r k k' : regions s map (L1 ++ a :: L2) E -> layout_ok (L1 ++ a :: L2) ->
  ar_addr a < addr -> 0 < size -> addr + size < ar_addr a + ar_size a ->
  hs_alloc SIZEOF_REGION (kh s) = Some (r, k) -> r <> 0 -> hs_alloc SIZEOF_REGION k = Some (0, k') -> debug = true ->
  region_split debug map (ar_ptr a) addr size s = None.
Proof.
  intros R HL Hlo Hz Hhi Ek Hr Ek' Hd. destruct (tiles_u32 _ _ _ _ _ (lo_tiles _ HL)) as ([Ha0 Ha1]&[Hs0 Hs1]&Hu); [done..|].
  assert (ar_addr a + ar_size a < 2 ^ 32) as Hin by (rewrite <- Hu; apply u32_range). unfold region_split.
  destruct (regions_lookup _ _ _ _ _ _ R) as (p&n&sp&sn&Er). rewrite Er. cbn [mbind option_bind r_addr r_size]. rewrite (proj2 (Z.eqb_neq _ _)) by lia. cbn [negb].
  rewrite !u32_small by lia. set (diff := addr - ar_addr a). destruct (region_create_ok s map L1 a L2 E addr (ar_size a - diff) R) as (r1&s1&->&St1&Hr1). cbn [mbind option_bind].
  destruct Hr1 as [(->&(r2&k2&Ek2&[->|[]])&_)|(Hr1&Hk1&R1)]; [congruence|]. rewrite Ek in Hk1. injection Hk1 as <- ->. rewrite (proj2 (Z.eqb_neq r 0)) by done.
  set (a1 := a <| ar_size := diff |>). set (c := mk_area r addr (ar_size a - diff) REG_FREE 0) in *.
  destruct (wr_ok s1 map L1 a a1 _ E (fun r => r <| r_size := diff |>) R1 eq_refl) as (s2&->&R2&St2&Hk2); [data_only|]. cbn [mbind option_bind].
  unfold split_rest. rewrite (cons_middle a1), app_assoc in R2. destruct (regions_lookup _ _ _ _ _ _ R2) as (p2&n2&sp2&sn2&Er2). cbn [ar_ptr c] in Er2. rewrite Er2. cbn [mbind option_bind r_size r_addr ar_size ar_addr c].
  rewrite (proj2 (Z.eqb_neq _ _)) by lia. cbn [negb]. destruct (region_create_ok s2 map (L1 ++ [a1]) c L2 E (u32 (addr + size)) (u32 (ar_size a - diff - size)) R2) as (r3&s3&Ec&_&Hr3). cbn [ar_ptr c] in Ec. rewrite Ec. cbn [mbind option_bind].
  destruct Hr3 as [(->&_&R3)|(Hr3&Hk3&_)]; [|rewrite Hk2, Ek' in Hk3; congruence]. cbn [Z.eqb]. unfold region_free. destruct (regions_lookup _ _ _ _ _ _ R3) as (p3&n3&sp3&sn3&Er3). cbn [ar_ptr c] in Er3.
  rewrite Er3. cbn [mbind option_bind r_flags ar_flags c]. unfold ASSERT. by rewrite Hd.
Qed.
End Regions.
