(* ===== verification/VmSpace.v ===== *)
(** * VmSpace: address spaces

    An address space is a layout of areas, the page tables that translate them
    and the pages behind them: the invariant [vm_space], and what happens to it
    when pages are taken for a piece of a free area.  [E] is the kernel memory
    and [U] are the pages that others hold. *)
From stdpp Require Import base numbers gmap list.
From S2P Require Import Prelude Core Queue Page PageSpec PageSource HeapSource Mmu MmuSpec Vm VmRing VmLayout VmRegions.

Open Scope Z_scope.

Definition page_list (a size : Z) : list Z := (fun i => a + PAGE_SIZE * i) <$> seqZ 0 (size / PAGE_SIZE).

Lemma page_list_NoDup a size : NoDup (page_list a size).
Proof. apply NoDup_fmap; [|apply NoDup_seqZ]. intros i j. unfold PAGE_SIZE. lia. Qed.
Lemma page_list_pages a size : list_to_set (page_list a size) = pages_of a size.
Proof. done. Qed.

(** The layout with the piece [b] and its pages at [phys]. *)
Definition filled (L1 Q : list area) (b : area) (R L2 : list area) (phys : Z) : list area := L1 ++ (Q ++ b <| ar_phys := phys |> :: R) ++ L2.

Section Spec.
Context {P : Type} `{PageSource P} (OFFSET : Z) (static : Z -> Prop) `{!PageSourceLaws P OFFSET static}.
Context {K : Type} `{HeapSource K} `{!HeapSourceLaws K} (boot_pgd : Z) (debug : bool).
Context (HO : 0 < OFFSET < 2 ^ 32) (HOd : OFFSET mod 2 ^ 22 = 0) (HU : UMEM_MAX <= OFFSET).
Implicit Types (s : vmem K P) (m : mmu P).

Abbreviation space := (MmuSpec.space OFFSET static).
Abbreviation pte := (MmuSpec.pte OFFSET).
Abbreviation user_page := (MmuSpec.user_page OFFSET).

(** The pages of an area: those it has for itself. *)
Definition owns_pages (a : area) : bool := negb (flag (ar_flags a) REG_SHARED) && negb (flag (ar_flags a) REG_MAPPED).
Definition area_pages (a : area) : list Z := if negb (is_free a) && owns_pages a then page_list (ar_phys a + OFFSET) (ar_size a) else [].
Definition held_pages (pgd : Z) (T : gset Z) (L : list area) : list Z := pgd :: elements T ++ (L ≫= area_pages).

(** The entry of a page of an area in use: user access, and writable or not. *)
Definition area_word (a : area) (x : Z) : Z := Z.lor (ar_phys a + (x - ar_addr a)) (if flag (ar_flags a) REG_WRITE then 7 else 5).

Record vm_space (s : vmem K P) (map pgd : Z) (L : list area) (T E U : gset Z) : Prop := {
  va_regions : regions s map L E;
  va_layout : layout_ok L;
  va_map : v_pgd <$> maps s !! map = Some pgd;
  va_space : space (mm s) pgd T (U ∪ list_to_set (held_pages pgd T L));
  va_nodup : NoDup (held_pages pgd T L);
  va_apart : forall x, x ∈ held_pages pgd T L -> x ∉ U;
  va_phys : forall a, a ∈ L -> is_free a = false -> aligned (ar_phys a) /\ 0 <= ar_phys a /\ ar_phys a + ar_size a + PAGE_SIZE <= 2 ^ 32;
  va_pte : forall a x, a ∈ L -> is_free a = false -> in_area x a -> user_page x -> pte (mm s) pgd x = area_word a x;
}.

(** Free addresses are not mapped. *)
Definition clean (s : vmem K P) (pgd : Z) (L : list area) : Prop :=
  forall a x, a ∈ L -> is_free a = true -> in_area x a -> user_page x -> present (pte (mm s) pgd x) = false.

(** What an operation on one address space leaves alone: the structures in [E]
    and the tables in [U]. *)
Record vm_frame (s s' : vmem K P) (map : Z) (E U : gset Z) : Prop := {
  vf_maps : forall x, x = map \/ x ∈ E -> maps s' !! x = maps s !! x;
  vf_regs : forall x, x ∈ E -> regs s' !! x = regs s !! x;
  vf_tabs : forall x, x ∈ U -> tabs (mm s') !! x = tabs (mm s) !! x;
  vf_cr3 : cr3 s' = cr3 s;
}.

Lemma vm_frame_trans s1 s2 s3 map E U : vm_frame s1 s2 map E U -> vm_frame s2 s3 map E U -> vm_frame s1 s3 map E U.
Proof.
  intros [M1 R1 T1 C1] [M2 R2 T2 C2]. split; [intros x Hx; by rewrite M2, M1|intros x Hx; by rewrite R2, R1|intros x Hx; by rewrite T2, T1|by rewrite C2].
Qed.
Lemma rstep_frame s s' map E U : rstep s s' map E -> vm_frame s s' map E U.
Proof. intros [(Em&_&Ec) M R]. split; [done|done|by rewrite Em|done]. Qed.

(** *** The page tables with other free pages *)
Lemma space_pages m pgd T own own' p : space m pgd T own -> kp_inv p own' -> pgd ∈ own' -> T ⊆ own' -> space (m <| upages := p |>) pgd T own'.
Proof. intros [HI (Hp&HT&HpT) Ht Hd] HI' Hp' HT'. split; [done|done|exact Ht|exact Hd]. Qed.
Lemma pte_pages m p pgd x : pte (m <| upages := p |>) pgd x = pte m pgd x.
Proof. done. Qed.

(** Areas in use have page tables. *)
Lemma pte_table m pgd x : pte m pgd x <> 0 -> has_table m pgd x.
Proof.
  unfold MmuSpec.pte, has_table. destruct (tabs m !! pgd) as [d|]; [|done]. destruct (pte_present d x) eqn:Ep; [|done]. by exists d.
Qed.

Lemma word_nonzero p f : aligned p -> 0 <= p -> 0 < f < PAGE_SIZE -> Z.lor p f <> 0.
Proof. intros Ha Hp Hf. rewrite lor_flags by (done || lia). lia. Qed.

(** *** The areas of a layout *)

Lemma area_user L a x : layout_ok L -> a ∈ L -> in_area x a -> aligned x -> user_page x.
Proof. intros [Ht _ _] Ha Hx Hal. destruct (tiles_range _ _ _ a Ht Ha) as (?&?&?). split; [|done]. unfold in_area, PAGE_SIZE in *. lia. Qed.

Lemma free_pages a : is_free a = true -> area_pages a = [].
Proof. intros E. unfold area_pages. by rewrite E. Qed.

Lemma held_mid L1 a L2 : (L1 ++ a :: L2) ≫= area_pages ≡ₚ area_pages a ++ ((L1 ++ L2) ≫= area_pages).
Proof. rewrite !bind_app, bind_cons. solve_Permutation. Qed.

Lemma carved_held L1 a L2 Q b R addr size : carved a Q b R addr size -> is_free a = true -> 0 < size ->
  (L1 ++ (Q ++ b :: R) ++ L2) ≫= area_pages ≡ₚ area_pages b ++ ((L1 ++ a :: L2) ≫= area_pages).
Proof.
  intros HC Ha Hz. assert ((Q ++ R) ≫= area_pages = []) as E.
  { assert (forall c, c ∈ Q ++ R -> area_pages c = []) as Hf by (intros c Hc; apply free_pages; by eapply carved_rest).
    induction (Q ++ R) as [|c l IH]; [done|]. rewrite bind_cons, Hf by (by left). apply IH. intros d Hd. apply Hf. by right. }
  rewrite bind_app in E. apply app_eq_nil in E as [EQ ER]. rewrite !bind_app, !bind_cons, EQ, ER, (free_pages a Ha), app_nil_r. solve_Permutation.
Qed.

(** *** A mapping of the piece *)

(** What is in use elsewhere keeps its entries, and so do the free addresses. *)
Lemma piece_elsewhere L1 a L2 Q b R addr size c x : layout_ok (L1 ++ a :: L2) -> carved a Q b R addr size -> is_free a = true -> 0 < size ->
  c ∈ (Q ++ R) ++ (L1 ++ L2) -> in_area x c -> ~ (addr <= x < addr + size).
Proof.
  intros HL HC Ha Hz [Hc|Hc]%elem_of_app Hx.
  - by eapply (carved_rest a Q b R).
  - intros Hp. eapply tiles_others; [apply HL|exact Hc|exact Hx|]. by eapply carved_in.
Qed.

(** Pages just handed out. *)
Lemma new_pages p own r size : kp_inv p (pages_of (r + OFFSET) size ∪ own) -> aligned size -> 0 < size ->
  aligned r /\ 0 < r /\ r + size + PAGE_SIZE <= 2 ^ 32 /\ r + OFFSET + size < 2 ^ 32.
Proof.
  intros HI Has Hs. pose proof (OFFSET_aligned OFFSET HOd) as HOa.
  destruct (kp_page _ _ (r + OFFSET) HI) as (A1&A2&_); [apply elem_of_union_l, elem_of_pages_of; exists 0; unfold aligned, PAGE_SIZE in *; Z.div_mod_to_equations; lia|].
  destruct (kp_page _ _ (r + OFFSET + PAGE_SIZE * (size / PAGE_SIZE - 1)) HI) as (_&_&A3&_).
  { apply elem_of_union_l, elem_of_pages_of. eexists. split; [|done]. unfold aligned, PAGE_SIZE in *. Z.div_mod_to_equations. lia. }
  unfold aligned, PAGE_SIZE in *. Z.div_mod_to_equations. lia.
Qed.

Lemma held_set pgd T L : list_to_set (held_pages pgd T L) = {[pgd]} ∪ T ∪ list_to_set (L ≫= area_pages) :> gset Z.
Proof. unfold held_pages. rewrite list_to_set_cons, list_to_set_app_L, list_to_set_elements_L. by rewrite (assoc_L (∪)). Qed.

(** More page tables. *)
Lemma more_tables pgd T T' L (U : gset Z) : NoDup (held_pages pgd T L) -> (forall x, x ∈ held_pages pgd T L -> x ∉ U) -> T ⊆ T' ->
  (forall x, x ∈ T' -> x ∉ T -> x ∉ U /\ x ∉ held_pages pgd T L) -> NoDup (held_pages pgd T' L) /\ forall x, x ∈ held_pages pgd T' L -> x ∉ U.
Proof.
  intros ND Hap HT Hnew. assert (forall x, x ∈ held_pages pgd T' L <-> x = pgd \/ x ∈ T' \/ x ∈ L ≫= area_pages) as Hel
    by (intros x; unfold held_pages; rewrite elem_of_cons, elem_of_app, elem_of_elements; done).
  assert (forall x, x ∈ held_pages pgd T L <-> x = pgd \/ x ∈ T \/ x ∈ L ≫= area_pages) as Hel0
    by (intros x; unfold held_pages; rewrite elem_of_cons, elem_of_app, elem_of_elements; done).
  unfold held_pages in ND |- *. apply NoDup_cons in ND as [Hp (ND1&Hd&ND2)%NoDup_app]. split.
  - apply NoDup_cons. split.
    + intros [Hin%elem_of_elements|Hin]%elem_of_app; [|by apply Hp, elem_of_app; right]. destruct (decide (pgd ∈ T)) as [HpT|HpT]; [apply Hp, elem_of_app; left; by apply elem_of_elements|].
      destruct (Hnew pgd Hin HpT) as [_ Hn]. apply Hn, Hel0. by left.
    + apply NoDup_app. split; [apply NoDup_elements|]. split; [|done]. intros x Hx%elem_of_elements HxL. destruct (decide (x ∈ T)) as [HxT|HxT]; [by apply (Hd x); [apply elem_of_elements|]|].
      destruct (Hnew x Hx HxT) as [_ Hn]. apply Hn, Hel0. tauto.
  - intros x Hx%Hel. destruct (decide (x ∈ T)) as [HxT|HxT]; [apply Hap, Hel0; tauto|]. destruct Hx as [->|[Hx|Hx]]; [apply Hap, Hel0; by left|by apply Hnew|apply Hap, Hel0; tauto].
Qed.

Lemma regions_ext s s' map L E : regions s map L E -> kh s' = kh s -> regs s' = regs s -> regions s' map L E.
Proof. intros [HI HA ND HR Hh] Ek Er. split; [by rewrite Ek|done|done|by rewrite Er|done]. Qed.

(** The region structures may change as long as the layout does not. *)
Lemma vm_space_rstep s s' map pgd L T E U : vm_space s map pgd L T E U -> rstep s s' map E -> regions s' map L E -> vm_space s' map pgd L T E U.
Proof.
  intros [_ VL VM VSp VN VA VP VPte] St R. pose proof (st_rest _ _ _ _ St) as (Em&_). split; [done|done|rewrite (st_maps _ _ _ _ St) by (by left); done|by rewrite Em|done|done|done|by rewrite Em].
Qed.

(** *** A piece of a free area taken into use

    The piece [b] has pages of its own, none or new ones. *)
Section Carve.
Context (s0 s' : vmem K P) (map pgd : Z) (L1 L2 Q R : list area) (a b : area) (T T' E U : gset Z) (addr size : Z).
Abbreviation own := (U ∪ list_to_set (held_pages pgd T (L1 ++ a :: L2))).
Abbreviation new := (list_to_set (area_pages b) : gset Z).
Context (VS : vm_space s0 map pgd (L1 ++ a :: L2) T E U) (Ha : is_free a = true) (HC : carved a Q b R addr size) (Hbf : is_free b = false).
Context (Aa : aligned addr) (As : aligned size) (Hz : 0 < size).
Context (HT : T ⊆ T') (HTn : (T' ∖ T) ## own).

Lemma carve_held : held_pages pgd T' (L1 ++ (Q ++ b :: R) ++ L2) ≡ₚ area_pages b ++ held_pages pgd T' (L1 ++ a :: L2).
Proof. unfold held_pages. rewrite (carved_held L1 a L2 Q b R addr size HC Ha Hz). solve_Permutation. Qed.

Lemma carve_tables : NoDup (held_pages pgd T' (L1 ++ a :: L2)) /\ forall x, x ∈ held_pages pgd T' (L1 ++ a :: L2) -> x ∉ U.
Proof.
  apply (more_tables pgd T T' (L1 ++ a :: L2) U); [apply VS|apply VS|done|]. intros x Hx HxT. assert (x ∉ own) as Hn; [intros Hin; apply (HTn x); [by apply elem_of_difference|done]|].
  apply not_elem_of_union in Hn as [? Hn]. split; [done|]. by rewrite elem_of_list_to_set in Hn.
Qed.

Lemma carve_space : maps s' !! map = maps s0 !! map -> regions s' map (L1 ++ (Q ++ b :: R) ++ L2) E ->
  aligned (ar_phys b) -> 0 <= ar_phys b -> ar_phys b + size + PAGE_SIZE <= 2 ^ 32 -> NoDup (area_pages b) -> (forall x, x ∈ area_pages b -> x ∉ own) -> (T' ∖ T) ## new -> space (mm s') pgd T' (new ∪ own ∪ T') ->
  (forall x, user_page x -> pte (mm s') pgd x = if decide (addr <= x < addr + size) then area_word b x else pte (mm s0) pgd x) ->
  vm_space s' map pgd (L1 ++ (Q ++ b :: R) ++ L2) T' E U /\ (clean s0 pgd (L1 ++ a :: L2) -> clean s' pgd (L1 ++ (Q ++ b :: R) ++ L2)).
Proof.
  intros Em Rg' Ap Hp Hps HND Hdis HTb Sp Hpte. pose proof VS as [_ VL VM VSp VN VA VP VPte]. destruct (cv_piece _ _ _ _ _ _ HC) as [E1 E2]. destruct carve_tables as [ND' Ap'].
  split; [split|].
  - done.
  - apply (carved_layout L1 a L2 Q _ R addr size VL Ha HC Hbf Aa As Hz).
  - by rewrite Em.
  - assert (new ∪ own ∪ T' = U ∪ list_to_set (held_pages pgd T' (L1 ++ (Q ++ b :: R) ++ L2))) as <-; [|done].
    rewrite (list_to_set_perm_L _ _ carve_held), list_to_set_app_L, !held_set. apply set_eq. intros x. rewrite !elem_of_union.
    split; [intros [[?|[?|[[?|?%HT]|?]]]|?]|intros [?|[?|[[?|?]|?]]]]; tauto.
  - rewrite carve_held. apply NoDup_app. split; [done|]. split; [|done]. intros x Hx Hx'.
    destruct (decide (x ∈ held_pages pgd T (L1 ++ a :: L2))) as [Hin|Hnin]; [apply (Hdis x Hx), elem_of_union_r; by rewrite elem_of_list_to_set|].
    apply (HTb x); [|by apply elem_of_list_to_set]. unfold held_pages in Hx', Hnin. rewrite elem_of_cons, elem_of_app, elem_of_elements in Hx', Hnin. apply elem_of_difference. tauto.
  - intros x Hx. rewrite carve_held in Hx. apply elem_of_app in Hx as [Hx|Hx]; [|by apply Ap']. intros HxU. by apply (Hdis x), elem_of_union_l.
  - intros d [->|[Hd|Hd]]%carved_elem Hf; [rewrite E2; split; [done|lia]| |].
    + destruct (carved_rest a Q _ R addr size d HC Ha Hz Hd). congruence.
    + apply VP; [|done]. rewrite elem_of_app, elem_of_cons. apply elem_of_app in Hd. tauto.
  - intros d x Hd Hf Hx Hu. rewrite (Hpte x Hu). apply carved_elem in Hd as [->|[Hd|Hd]].
    + unfold in_area in Hx. rewrite E1, E2 in Hx. by rewrite decide_True by done.
    + destruct (carved_rest a Q _ R addr size d HC Ha Hz Hd). congruence.
    + rewrite decide_False; [apply VPte; try done; rewrite elem_of_app, elem_of_cons; apply elem_of_app in Hd; tauto|].
      eapply (piece_elsewhere L1 a L2 Q _ R addr size d x VL HC Ha Hz); [by apply elem_of_app; right|done].
  - intros Hcl d x Hd Hf Hx Hu. rewrite (Hpte x Hu). apply carved_elem in Hd as [->|Hd]; [congruence|].
    rewrite decide_False; [|eapply (piece_elsewhere L1 a L2 Q _ R addr size d x VL HC Ha Hz); [apply elem_of_app; tauto|done]].
    destruct Hd as [Hd|Hd].
    + destruct (carved_rest a Q _ R addr size d HC Ha Hz Hd) as [_ Hin]. apply (Hcl a); [apply elem_of_app; right; by left|done|by apply Hin|done].
    + apply (Hcl d); [|done|done|done]. rewrite elem_of_app, elem_of_cons. apply elem_of_app in Hd. tauto.
Qed.

(** The mapping failed after [k] bytes, and the region was given back. *)
Lemma carve_failure k w : maps s' !! map = maps s0 !! map -> regions s' map (L1 ++ a :: L2) E -> space (mm s') pgd T' (own ∪ T') -> k <= size ->
  (forall x, user_page x -> pte (mm s') pgd x = if decide (addr <= x < addr + k) then w x else pte (mm s0) pgd x) -> vm_space s' map pgd (L1 ++ a :: L2) T' E U.
Proof.
  intros Em Rg' Sp Hk Hpte. pose proof VS as [_ VL VM VSp VN VA VP VPte]. destruct carve_tables as [ND' Ap']. split; [done|done|by rewrite Em| |done|done|done|].
  - assert (own ∪ T' = U ∪ list_to_set (held_pages pgd T' (L1 ++ a :: L2))) as <-; [|done].
    rewrite !held_set. apply set_eq. intros x. rewrite !elem_of_union. split; [intros [[?|[[?|?%HT]|?]]|?]|intros [?|[[?|?]|?]]]; tauto.
  - intros d x Hd Hf Hx Hu. rewrite (Hpte x Hu). rewrite decide_False; [by apply VPte|]. apply elem_of_app in Hd as [Hd|[->|Hd]%elem_of_cons]; [|congruence|];
      (intros Hp; eapply (tiles_others PAGE_SIZE L1 a L2 UMEM_MAX d x); [apply VL|apply elem_of_app; tauto|done|]; eapply carved_in; [exact HC|done|lia]).
Qed.
End Carve.

(** What mmu_map() of this space leaves alone. *)
Lemma mapping_frame s0 s s' m' map pgd L T E U own' : vm_space s0 map pgd L T E U -> U ⊆ own' -> rstep s0 s map E -> frame (mm s0) m' pgd T own' ->
  rstep (s <| mm := m' |>) s' map E -> vm_frame s0 s' map E U.
Proof.
  intros VS HU' St Hfr St'. pose proof (st_rest _ _ _ _ St') as (Em&_&Ec). split.
  - intros x Hx. rewrite (st_maps _ _ _ _ St' x Hx). by apply St.
  - intros x Hx. rewrite (st_regs _ _ _ _ St' x Hx). by apply St.
  - intros x Hx. rewrite Em. apply Hfr; [by apply HU'|intros ->; apply (va_apart _ _ _ _ _ _ _ VS pgd); [by left|done]|intros HxT; apply (va_apart _ _ _ _ _ _ _ VS x); [|done]].
    unfold held_pages. rewrite elem_of_cons, elem_of_app, elem_of_elements. tauto.
  - rewrite Ec. apply St.
Qed.

(** *** When there is no page for a page table

    The page tables may have grown, and the entries of the first [k] bytes been
    written. *)
Definition half_mapped (s s' : vmem K P) (map pgd : Z) (L : list area) (E U : gset Z) (addr size f : Z) : Prop := exists T' k phys, vm_space s' map pgd L T' E U /\ 0 <= k < size /\
  forall x, user_page x -> pte (mm s') pgd x = if decide (addr <= x < addr + k) then Z.lor (phys + (x - addr)) f else pte (mm s) pgd x.

(** *** Filling the piece *)
Section Piece.
Context (s0 s : vmem K P) (map pgd : Z) (L1 L2 Q R : list area) (a b : area) (T E U : gset Z) (addr size : Z).
Context (VS : vm_space s0 map pgd (L1 ++ a :: L2) T E U) (St : rstep s0 s map E) (Rg : regions s map (L1 ++ (Q ++ b :: R) ++ L2) E).
Context (HC : carved a Q b R addr size) (Ha : is_free a = true) (Hb : ar_flags b = Z.lor REG_READ REG_WRITE) (Hph : Q = [] -> ar_phys b = ar_phys a).
Context (Aa : aligned addr) (As : aligned size) (Hz : 0 < size).

Abbreviation own := (U ∪ list_to_set (held_pages pgd T (L1 ++ a :: L2))).

Lemma piece_range : PAGE_SIZE <= addr /\ addr + size <= UMEM_MAX.
Proof.
  destruct (tiles_range _ _ _ a (lo_tiles _ (va_layout _ _ _ _ _ _ _ VS))) as (?&?&?); [apply elem_of_app; right; by left|].
  pose proof (carved_in _ _ _ _ _ _ addr HC Hz). pose proof (carved_in _ _ _ _ _ _ (addr + size - 1) HC Hz). unfold in_area in *. lia.
Qed.

Lemma piece_align : PAGE_ALIGN size = size.
Proof. destruct piece_range. apply PAGE_ALIGN_page_id; [lia|unfold UMEM_MAX, PAGE_SIZE in *; lia|done]. Qed.

(** The region is given back: the layout is what it was. *)
Lemma piece_back s1 : regions s1 map (L1 ++ (Q ++ b :: R) ++ L2) E ->
  exists s2, region_free debug map (ar_ptr b) s1 = Some s2 /\ rstep s1 s2 map E /\ regions s2 map (L1 ++ a :: L2) E.
Proof.
  intros R1. assert (regions s1 map ((L1 ++ Q) ++ b :: R ++ L2) E) as R1' by (rewrite <- app_assoc; rewrite <- (app_assoc Q) in R1; exact R1).
  destruct (region_free_ok debug s1 map (L1 ++ Q) b (R ++ L2) E R1') as (s2&E2&St2&R2); [by rewrite Hb|]. exists s2. split; [done|]. split; [done|].
  destruct (release_carved L1 a L2 Q b R addr size (va_layout _ _ _ _ _ _ _ VS) Ha HC Hz) as (ph&Er&H1&H2). rewrite Er in R2.
  assert (ph = ar_phys a) as ->. { destruct Q; [rewrite H1 by done; by apply Hph|by apply H2]. } by rewrite area_phys_id in R2.
Qed.

Lemma piece_map : maps s !! map = maps s0 !! map.
Proof. apply St. by left. Qed.

Abbreviation filled := (filled L1 Q b R L2).

Lemma piece_carved phys : carved a Q (b <| ar_phys := phys |>) R addr size.
Proof. destruct HC. by split. Qed.
Lemma piece_busy phys : is_free (b <| ar_phys := phys |>) = false /\ area_pages (b <| ar_phys := phys |>) = page_list (phys + OFFSET) size.
Proof. destruct (cv_piece _ _ _ _ _ _ HC) as [_ E2]. unfold area_pages, is_free, owns_pages. cbn [ar_flags ar_phys ar_size set]. rewrite Hb, E2. done. Qed.
Lemma piece_word phys x : area_word (b <| ar_phys := phys |>) x = Z.lor (phys + (x - addr)) 7.
Proof. destruct (cv_piece _ _ _ _ _ _ HC) as [<- _]. unfold area_word. cbn [ar_flags ar_phys ar_addr set]. by rewrite Hb. Qed.

Lemma kp_pages p sz : sz = size -> kp_inv p own -> exists r p', kp_alloc sz p = Some (r, p') /\
  ((r = 0 /\ p' = p) \/ (r <> 0 /\ pages_of (r + OFFSET) size ## own /\ kp_inv p' (pages_of (r + OFFSET) size ∪ own))).
Proof.
  intros -> HI. destruct piece_range as [Hlo Hhi]. pose proof piece_align as Eal.
  destruct (kp_alloc_ok p own size HI Hz) as (r&p'&E'&Hr); [unfold UMEM_MAX, PAGE_MASK, PAGE_SIZE in *; lia|]. exists r, p'. rewrite Eal in Hr. done.
Qed.

(** The pages are there and mapped. *)
Lemma piece_filled s3 phys m2 T' : regions s3 map ((L1 ++ Q) ++ b <| ar_phys := phys |> :: R ++ L2) E -> rstep (s <| mm := m2 |>) s3 map E ->
  space m2 pgd T' (pages_of (phys + OFFSET) size ∪ own ∪ T') -> T ⊆ T' -> (T' ∖ T) ## (pages_of (phys + OFFSET) size ∪ own) ->
  aligned phys -> 0 < phys -> phys + size + PAGE_SIZE <= 2 ^ 32 -> phys + OFFSET + size < 2 ^ 32 -> pages_of (phys + OFFSET) size ## own ->
  (forall x, user_page x -> pte m2 pgd x = if decide (addr <= x < addr + size) then Z.lor (phys + (x - addr)) 7 else pte (mm s0) pgd x) ->
  let s' := memset (phys_to_virt OFFSET phys) 0 (ar_size b) s3 in
  vm_space s' map pgd (filled phys) T' E U /\ (clean s0 pgd (L1 ++ a :: L2) -> clean s' pgd (filled phys)) /\
  forall x, ram s' x = if decide (phys + OFFSET <= x < phys + OFFSET + size) then 0 else ram s0 x.
Proof.
  intros Rg3 St3 Sp HT HTn Ap Hp Hps Ho Hdis Hpte. cbv zeta. destruct (piece_busy phys) as [Hbf Hbp]. pose proof (piece_carved phys) as HC'. pose proof (st_rest _ _ _ _ St3) as (Em3&Er3&_).
  assert (forall x, x ∈ page_list (phys + OFFSET) size <-> x ∈ pages_of (phys + OFFSET) size) as Hpl by (intros x; by rewrite <- page_list_pages, elem_of_list_to_set).
  apply and_assoc. split.
  - apply (carve_space s0 _ map pgd L1 L2 Q R a _ T T' E U addr size VS Ha HC' Hbf Aa As Hz HT); rewrite ?Hbp, ?page_list_pages.
    + intros x Hx1 Hx2. apply (HTn x Hx1). by apply elem_of_union_r.
    + cbn [maps memset set]. rewrite (st_maps _ _ _ _ St3 map) by (by left). exact piece_map.
    + apply (regions_ext s3); [|done..]. rewrite <- (app_assoc Q). rewrite <- app_assoc in Rg3. exact Rg3.
    + done.
    + cbn. lia.
    + done.
    + apply page_list_NoDup.
    + intros x Hx%Hpl Ho'. by apply (Hdis x).
    + intros x Hx1 Hx2. apply (HTn x Hx1). by apply elem_of_union_l.
    + cbn [mm memset set]. by rewrite Em3.
    + intros x Hu. rewrite piece_word. cbn [mm memset set]. rewrite Em3. by apply Hpte.
  - intros x. cbn [ram memset set]. rewrite Er3. destruct (cv_piece _ _ _ _ _ _ HC) as [_ E2]. cbn [ram set]. rewrite E2. destruct (st_rest _ _ _ _ St) as (_&->&_). unfold phys_to_virt. rewrite u32_small by lia.
    case_decide; [by rewrite (proj2 (Z.leb_le _ _)), (proj2 (Z.ltb_lt _ _)) by lia|]. destruct (Z.leb_spec (phys + OFFSET) x); [|done]. by destruct (Z.ltb_spec x (phys + OFFSET + size)); [lia|].
Qed.

(** The pages go back after the mapping failed. *)
Lemma piece_undone m2 phys T' : T ⊆ T' -> (T' ∖ T) ## (pages_of (phys + OFFSET) size ∪ own) -> space m2 pgd T' (pages_of (phys + OFFSET) size ∪ own ∪ T') -> pages_of (phys + OFFSET) size ## own ->
  exists p3, kp_free phys size (upages m2) = Some p3 /\ kp_inv p3 (own ∪ T').
Proof.
  intros HT HTn Sp2 Hdis. pose proof piece_align as Eal. destruct piece_range as [Hlo Hhi].
  destruct (kp_free_ok (upages m2) _ (phys + OFFSET) size (sp_inv _ _ _ _ _ _ Sp2) Hz) as (p3&Ef&HI3); [unfold UMEM_MAX, PAGE_MASK, PAGE_SIZE in *; lia| |].
  { rewrite Eal. intros x Hin. by apply elem_of_union_l, elem_of_union_l. }
  replace (phys + OFFSET - OFFSET) with phys in Ef by lia. exists p3. split; [done|]. rewrite Eal in HI3.
  replace (own ∪ T') with ((pages_of (phys + OFFSET) size ∪ own ∪ T') ∖ pages_of (phys + OFFSET) size); [done|].
  apply set_eq. intros x. rewrite elem_of_difference, !elem_of_union. split; [tauto|]. intros Hin. split; [tauto|]. intros Hp. destruct Hin as [Hin|Hin]; [apply (Hdis x Hp); by apply elem_of_union|].
  destruct (decide (x ∈ T)) as [HxT|HxT]; [apply (Hdis x Hp); destruct (sp_own _ _ _ _ _ _ (va_space _ _ _ _ _ _ _ VS)) as (_&HTo&_); by apply HTo|]. apply (HTn x); [by apply elem_of_difference|by apply elem_of_union_l].
Qed.

Lemma allocate_pages_ok : exists err va s', allocate_pages OFFSET debug map (ar_ptr b) size s = Some (err, va, s') /\ vm_frame s0 s' map E U /\
  ((err = 0 /\ va = addr /\ exists T' phys, T ⊆ T' /\ vm_space s' map pgd (filled phys) T' E U /\ (clean s0 pgd (L1 ++ a :: L2) -> clean s' pgd (filled phys)) /\
      pages_of (phys + OFFSET) size ## own /\
      forall x, ram s' x = if decide (phys + OFFSET <= x < phys + OFFSET + size) then 0 else ram s0 x) \/
   (err = ENOMEM /\ va = 0 /\ ram s' = ram s0 /\
      ((fst <$> kp_alloc size (upages (mm s0)) = Some 0 /\ mm s' = mm s0 /\ vm_space s' map pgd (L1 ++ a :: L2) T E U) \/ half_mapped s0 s' map pgd (L1 ++ a :: L2) E U addr size 7))).
Proof.
  pose proof VS as [Rg0 VL VM VSp VN VA VP VPte]. destruct piece_range as [Hlo Hhi]. destruct (cv_piece _ _ _ _ _ _ HC) as [E1 E2]. pose proof (st_rest _ _ _ _ St) as (Em&Eram&Ecr).
  destruct (maps s0 !! map) as [mp|] eqn:Emp; [|discriminate VM]. injection VM as Epgd. pose proof piece_map as Ems. rewrite Emp in Ems.
  assert (regions s map ((L1 ++ Q) ++ b :: R ++ L2) E) as Rg1 by (rewrite <- app_assoc; rewrite <- (app_assoc Q) in Rg; exact Rg).
  destruct (regions_lookup _ _ _ _ _ _ Rg1) as (p&n&sp&sn&Er). unfold allocate_pages, vm_page_alloc. rewrite Em.
  destruct (kp_pages (upages (mm s0)) size eq_refl (sp_inv _ _ _ _ _ _ VSp)) as (r&p'&Ek&[[-> ->]|(Hr0&Hdis&HI')]); rewrite Ek; cbn [mbind option_bind fst snd].
  { destruct (piece_back (s <| mm ::= fun m => m <| upages := upages (mm s0) |> |>)) as (s2&Ef&St2&R2); [by apply (regions_ext s)|]. cbn [Z.eqb]. rewrite Ef. cbn [mbind option_bind].
    assert (rstep s s2 map E) as St2' by (destruct St2 as [(Em2&?&?) ? ?]; split; [split; [|done]; rewrite Em2; cbn; rewrite Em; by destruct (mm s0)|done|done]).
    pose proof (rstep_trans _ _ _ _ _ St St2') as St3. eexists _, _, s2. split; [done|]. split; [by apply rstep_frame|]. right. split; [done|]. split; [done|]. split; [apply St3|]. left.
    split; [done|]. split; [apply St3|]. by eapply vm_space_rstep. }
  rewrite (proj2 (Z.eqb_neq r 0)) by done. destruct (new_pages p' own r size HI' As Hz) as (Ar&Hrp&Hrs&Hro). cbn [maps regs set]. rewrite Ems, Er. cbn [mbind option_bind r_addr]. rewrite Epgd, E1.
  unfold vm_mmu_map. cbn [mm set]. rewrite Em. set (m1 := mk_mmu (tabs (mm s0)) p').
  assert (space m1 pgd T (pages_of (r + OFFSET) size ∪ own)) as Sp1.
  { eapply space_pages; [exact VSp|done|..]; destruct (sp_own _ _ _ _ _ _ VSp) as (?&HTo&_); [by apply elem_of_union_r|]. intros x Hx. by apply elem_of_union_r, HTo. }
  destruct (mmu_map_ok OFFSET static HO HOd m1 pgd T _ r addr size PG_WRITE 7 Sp1 eq_refl Aa Ar As) as (e&m2&T'&own'&k&Emap&Sp2&->&HT&HTn&Hfr&Hk&_&Hx); [unfold PAGE_SIZE in *; lia|done|lia|lia|lia|by left|].
  rewrite Emap. cbn [mbind option_bind fst snd]. destruct Hk as [[-> ->]|(->&Hk&_)]; cbn [Z.eqb negb].
  - match goal with |- context [wr (ar_ptr b) ?f ?st] => change (wr (ar_ptr b) f st) with (wr (ar_ptr b) f (s <| mm := m2 |>)); set (f2 := f) end. set (b' := b <| ar_phys := r |>).
    destruct (wr_ok (s <| mm := m2 |>) map (L1 ++ Q) b b' (R ++ L2) E f2) as (s3&Ew&Rg3&St3&_); [by apply (regions_ext s)|done|data_only|]. rewrite Ew. cbn [mbind option_bind r_size].
    eexists _, _, _. split; [done|]. pose proof (piece_filled s3 r m2 T' Rg3 St3 Sp2 HT HTn Ar Hrp Hrs Hro Hdis) as Hf. cbv zeta in Hf. destruct Hf as (Hv&Hc&Hr); [intros x Hu; by destruct (Hx x Hu) as [-> _]|].
    split; [|left].
    { destruct (mapping_frame s0 s s3 m2 map pgd (L1 ++ a :: L2) T E U (pages_of (r + OFFSET) size ∪ own) VS) as [F1 F2 F3 F4]; [|done|exact Hfr|exact St3|by split].
      intros x Hx'. by apply elem_of_union_r, elem_of_union_l. }
    split; [done|]. split; [done|]. exists T', r. by split_and!.
  - destruct (piece_undone m2 r T' HT HTn Sp2 Hdis) as (p3&Ef&HI3). unfold vm_page_free. cbn [mm set]. rewrite Ef. cbn [mbind option_bind].
    match goal with |- context [region_free _ _ _ ?st] => change st with (s <| mm := m2 <| upages := p3 |> |>) end.
    destruct (piece_back (s <| mm := m2 <| upages := p3 |> |>)) as (s4&->&St4&R4); [by apply (regions_ext s)|]. cbn [mbind option_bind]. pose proof (st_rest _ _ _ _ St4) as (Em4&Er4&Ec4).
    eexists _, _, s4. split; [done|]. split; [eapply (mapping_frame s0 s s4 (m2 <| upages := p3 |>)); [exact VS|..|exact St4]; [|done|exact Hfr]; intros x Hx'; by apply elem_of_union_r, elem_of_union_l|].
    right. split; [done|]. split; [done|]. split; [by rewrite Er4|]. right. assert (forall x, user_page x -> pte (mm s4) pgd x = if decide (addr <= x < addr + k) then Z.lor (r + (x - addr)) 7 else pte (mm s0) pgd x) as Hp.
    { intros x Hu. rewrite Em4. transitivity (pte m2 pgd x); [done|]. by destruct (Hx x Hu) as [-> _]. }
    exists T', k, r. split; [|done]. eapply (carve_failure s0 s4 map pgd L1 L2 Q R a b T T' E U addr size) with (k := k) (w := fun x => Z.lor (r + (x - addr)) 7); try eassumption.
    + unfold is_free. by rewrite Hb.
    + intros x Hx1 Hx2. apply (HTn x); [done|]. by apply elem_of_union_r.
    + rewrite (st_maps _ _ _ _ St4 map) by (by left). exact piece_map.
    + rewrite Em4. destruct (sp_own _ _ _ _ _ _ VSp) as (?&HTo&_). eapply space_pages; [exact Sp2|done|by apply elem_of_union_l|]. intros x Hx1. by apply elem_of_union_r.
    + lia.
Qed.
End Piece.

(** *** The translation of a run of areas *)
Record backed (m : mmu P) (pgd : Z) (L : list area) (T U : gset Z) : Prop := {
  bk_tiles : exists lo, PAGE_SIZE <= lo /\ aligned lo /\ tiles lo L UMEM_MAX;
  bk_space : space m pgd T (U ∪ list_to_set (held_pages pgd T L));
  bk_nodup : NoDup (held_pages pgd T L);
  bk_apart : forall x, x ∈ held_pages pgd T L -> x ∉ U;
  bk_phys : forall a, a ∈ L -> is_free a = false -> aligned (ar_phys a) /\ 0 <= ar_phys a /\ ar_phys a + ar_size a + PAGE_SIZE <= 2 ^ 32;
  bk_pte : forall a x, a ∈ L -> is_free a = false -> in_area x a -> user_page x -> pte m pgd x = area_word a x;
}.

Lemma vm_space_backed s map pgd L T E U : vm_space s map pgd L T E U -> backed (mm s) pgd L T U.
Proof. intros [_ VL _ ? ? ? ? ?]. split; [|done..]. exists PAGE_SIZE. split; [done|]. split; [done|apply VL]. Qed.

Lemma backed_range m pgd L T U a : backed m pgd L T U -> a ∈ L -> PAGE_SIZE <= ar_addr a /\ 0 < ar_size a /\ ar_addr a + ar_size a <= UMEM_MAX /\ aligned (ar_addr a) /\ aligned (ar_size a).
Proof.
  intros [(lo&Hlo&Al&Ht) _ _ _ _ _] Ha. destruct (tiles_range _ _ _ a Ht Ha) as (?&?&?). destruct (tiles_aligned _ _ _ a Ht Al Ha). split_and!; (done || lia).
Qed.

(** *** Giving an area back *)

Lemma release_held L1 a L2 : is_free a = false -> release L1 a L2 ≫= area_pages = (L1 ++ L2) ≫= area_pages.
Proof.
  intros Ha. unfold release. set (a1 := a <| ar_flags := REG_FREE |>). assert (area_pages (join_next a1 L2).1 = [] /\ (join_next a1 L2).2 ≫= area_pages = L2 ≫= area_pages) as [E1 E2].
  { destruct L2 as [|b L2]; cbn [join_next]; [done|]. destruct (is_free b) eqn:Eb; [|done]. cbn [fst snd]. split; [done|]. by rewrite bind_cons, (free_pages b Eb). }
  destruct (join_next a1 L2) as [a2 L3]. cbn [fst snd] in *. destruct L1 as [|e L1 _] using rev_ind; [cbn [join_prev]; by rewrite bind_cons, E1|].
  rewrite join_prev_snoc. destruct (is_free e) eqn:Ee.
  - rewrite !bind_app, !bind_cons, E2, (free_pages e Ee), (free_pages (e <| ar_size := _ |>)) by exact Ee. cbn. by rewrite app_nil_r.
  - rewrite !bind_app, !bind_cons, E1, E2. cbn. by rewrite app_nil_r, <- app_assoc.
Qed.

(** An unmapped area is released: [own'] has lost its pages. *)
Lemma release_space s s' map pgd L1 a L2 T E U : vm_space s map pgd (L1 ++ a :: L2) T E U -> is_free a = false ->
  regions s' map (release L1 a L2) E -> maps s' !! map = maps s !! map ->
  space (mm s') pgd T ((U ∪ list_to_set (held_pages pgd T (L1 ++ a :: L2))) ∖ list_to_set (area_pages a)) ->
  (forall x, user_page x -> if decide (in_area x a) then present (pte (mm s') pgd x) = false else pte (mm s') pgd x = pte (mm s) pgd x) ->
  vm_space s' map pgd (release L1 a L2) T E U /\ (clean s pgd (L1 ++ a :: L2) -> clean s' pgd (release L1 a L2)).
Proof.
  intros VS Ha Rg' Em Sp Hpte. pose proof VS as [_ VL VM VSp VN VA VP VPte]. pose proof VL as [Ht Hc Hf].
  assert (held_pages pgd T (L1 ++ a :: L2) ≡ₚ area_pages a ++ held_pages pgd T (release L1 a L2)) as Eh.
  { unfold held_pages. rewrite (release_held L1 a L2 Ha), held_mid. solve_Permutation. }
  rewrite Eh in VN. apply NoDup_app in VN as (_&Hdis&ND).
  assert (coalesced L1 /\ coalesced L2) as [Hc1 Hc2] by (apply coalesced_inv in Hc as [? [_ ?]]; done).
  assert (Forall flags_ok (L1 ++ L2)) as Hf' by (apply Forall_app in Hf as [? [_ ?]%Forall_cons]; by apply Forall_app).
  destruct (release_ok PAGE_SIZE L1 a L2 UMEM_MAX Ht) as (Ht'&Hc'&Hfl); [done..|].
  pose proof (fun c => release_elem PAGE_SIZE L1 a L2 UMEM_MAX c Ht ltac:(done) ltac:(done)) as Hel.
  assert (forall c, c ∈ L1 ++ L2 -> c ∈ L1 ++ a :: L2) as Hin by (intros c; rewrite !elem_of_app, elem_of_cons; tauto).
  assert (forall c, c ∈ release L1 a L2 -> is_free c = false -> c ∈ L1 ++ L2) as Hbusy by (intros c Hc0 Hcf; destruct (Hel c Hc0) as [?|[? _]]; [done|congruence]). split; [split|].
  - done.
  - by split.
  - by rewrite Em.
  - assert ((U ∪ list_to_set (held_pages pgd T (L1 ++ a :: L2))) ∖ list_to_set (area_pages a) = U ∪ list_to_set (held_pages pgd T (release L1 a L2))) as <-; [|done].
    rewrite (list_to_set_perm_L _ _ Eh), list_to_set_app_L. apply set_eq. intros x. rewrite elem_of_difference, !elem_of_union, !elem_of_list_to_set. split; [tauto|]. intros Hx. split; [tauto|].
    intros Hxa. destruct Hx as [Hx|Hx]; [|by apply (Hdis x)]. apply (VA x); [|done]. rewrite Eh. by apply elem_of_app; left.
  - done.
  - intros x Hx. apply VA. rewrite Eh. by apply elem_of_app; right.
  - intros c Hc0 Hcf. apply VP; [|done]. by apply Hin, Hbusy.
  - intros c x Hc0 Hcf Hx Hu. specialize (Hpte x Hu). rewrite decide_False in Hpte by (eapply tiles_others; [exact Ht|by apply Hbusy|done]). rewrite Hpte. apply VPte; try done. by apply Hin, Hbusy.
  - intros Hcl c x Hc0 Hcf Hx Hu. specialize (Hpte x Hu). case_decide as Hxa; [done|]. rewrite Hpte. destruct (Hel c Hc0) as [?|[_ Hcov]]; [apply (Hcl c); try done; by apply Hin|].
    destruct (Hcov x Hx) as [?|(d&Hd&Hdf&Hxd)]; [done|]. apply (Hcl d); try done. by apply Hin.
Qed.
End Spec.
