(* ===== verification/VmSpec.v ===== *)
(** * VmSpec: vm_allocate() and vm_free()

    What allocation and release do to an address space, on every path. *)
From stdpp Require Import base numbers gmap list.
From S2P Require Import Prelude Core Queue Page PageSpec PageSource HeapSource Mmu MmuSpec Vm VmRing VmLayout VmRegions VmSpace.

Open Scope Z_scope.

Section Spec.
Context {P : Type} `{PageSource P} (OFFSET : Z) (static : Z -> Prop) `{!PageSourceLaws P OFFSET static}.
Context {K : Type} `{HeapSource K} `{!HeapSourceLaws K} (debug : bool).
Context (HO : 0 < OFFSET < 2 ^ 32) (HOd : OFFSET mod 2 ^ 22 = 0) (HU : UMEM_MAX <= OFFSET).
Implicit Types s : vmem K P.

Abbreviation vm_space := (VmSpace.vm_space OFFSET static).
Abbreviation clean := (VmSpace.clean OFFSET).
Abbreviation half_mapped := (VmSpace.half_mapped OFFSET static).

(** The piece of [size] bytes at [va], which was free, is in use: writable, on
    pages of its own that are filled with zeros.  No other memory changes, and
    free addresses stay unmapped. *)
Definition allocated s s' (map pgd : Z) (L : list area) (T E U : gset Z) (va size : Z) : Prop := exists L1 a L2 Q b R T' phys,
  L = L1 ++ a :: L2 /\ is_free a = true /\ carved a Q b R va size /\ ar_flags b = Z.lor REG_READ REG_WRITE /\
  vm_space s' map pgd (filled L1 Q b R L2 phys) T' E U /\ (clean s pgd L -> clean s' pgd (filled L1 Q b R L2 phys)) /\
  pages_of (phys + OFFSET) size ## U ∪ list_to_set (held_pages OFFSET pgd T L) /\
  forall x, ram s' x = if decide (phys + OFFSET <= x < phys + OFFSET + size) then 0 else ram s x.

(** Nothing happened. *)
Definition refused s s' (map pgd : Z) (L : list area) (T E U : gset Z) : Prop := mm s' = mm s /\ ram s' = ram s /\ vm_space s' map pgd L T E U.

(** *** vm_allocate() anywhere *)

Lemma do_allocate_any_ok s map pgd L T E U addr size : vm_space s map pgd L T E U -> 0 < size -> size + PAGE_MASK < 2 ^ 32 ->
  let sz := PAGE_ALIGN size in
  exists err va s', do_allocate OFFSET debug map addr size true s = Some (err, va, s') /\ vm_frame s s' map E U /\
    ((err = 0 /\ allocated s s' map pgd L T E U va sz /\ exists a, List.find (fits sz) L = Some a /\ va = ar_addr a) \/
     (err = ENOMEM /\ va = 0 /\ ram s' = ram s /\
        ((refused s s' map pgd L T E U /\ (List.find (fits sz) L = None \/ kmem_short 1 (kh s) \/ fst <$> kp_alloc sz (upages (mm s)) = Some 0)) \/
         exists va, half_mapped s s' map pgd L E U va sz 7))).
Proof.
  intros VS Hz Hmax. cbv zeta. destruct (PAGE_ALIGN_ok size) as [As Hge]; [lia|done|]. pose proof (u32_range) as Hu. unfold do_allocate. rewrite (proj2 (Z.eqb_neq size 0)) by lia.
  unfold allocate_region. assert (PAGE_ALIGN size < 2 ^ 32) as Hs32 by (unfold PAGE_MASK, PAGE_SIZE in *; unfold aligned, PAGE_SIZE in As; Z.div_mod_to_equations; lia). set (sz := PAGE_ALIGN size) in *.
  destruct (region_alloc_ok s map L E sz (va_regions _ _ _ _ _ _ _ _ _ VS) (va_layout _ _ _ _ _ _ _ _ _ VS)) as (r&s1&->&St1&Hr); [lia|]. cbn [mbind option_bind].
  destruct Hr as [(->&R1&Hwhy)|(L1&a&L2&R&->&Hf&Hn&->&Hr&HC&R1)].
  - cbn. eexists _, _, s1. split; [done|]. split; [by apply rstep_frame|]. right. split; [done|]. split; [done|]. split; [apply St1|]. left. split; [split; [apply St1|]; split; [apply St1|]; by eapply vm_space_rstep|]. tauto.
  - rewrite (proj2 (Z.eqb_neq (ar_ptr a) 0)) by done. cbn [Z.eqb negb]. pose proof Hf as [Ha Hle]%andb_prop. set (b := a <| ar_size := sz |>) in *. set (b1 := b <| ar_flags := Z.lor REG_READ REG_WRITE |>).
    destruct (wr_ok s1 map L1 b b1 (R ++ L2) E (fun r => r <| r_flags := Z.lor REG_READ REG_WRITE |>)) as (s2&Ew&R2&St2&_); [done|done|data_only|]. change (ar_ptr b) with (ar_ptr a) in Ew. rewrite Ew. cbn [mbind option_bind].
    assert (List.find (fits sz) (L1 ++ a :: L2) = Some a) as Efind.
    { clear -Hf Hn. induction Hn as [|c L1 Hc Hn IH]; cbn; [by rewrite Hf|by rewrite Hc]. }
    destruct (allocate_pages_ok OFFSET static debug HO HOd HU s s2 map pgd L1 L2 [] R a b1 T E U (ar_addr a) sz VS) as (err&va&s'&E'&Hfr&Ho).
    { by eapply rstep_trans. } { exact R2. } { destruct HC. by split. } { done. } { done. } { done. }
    { eapply (tiles_aligned _ _ _ a (lo_tiles _ (va_layout _ _ _ _ _ _ _ _ _ VS))); [done|]. apply elem_of_app. right. by left. } { done. } { lia. }
    change (ar_ptr b1) with (ar_ptr a) in E'. exists err, va, s'. split; [done|]. split; [done|].
    destruct Ho as [(->&->&T'&phys&HT&VS'&Hcl&Hd&Hram)|(->&->&Hram&[(Hk&Em&VS')|Hh])].
    + left. split; [done|]. split; [|by exists a]. exists L1, a, L2, [], b1, R, T', phys. destruct HC. by split_and!.
    + right. split; [done|]. split; [done|]. split; [done|]. left. split; [done|]. tauto.
    + right. split; [done|]. split; [done|]. split; [done|]. right. by exists (ar_addr a).
Qed.

(** *** vm_allocate() at an address *)

Lemma do_allocate_at_ok s map pgd L T E U addr size : vm_space s map pgd L T E U -> 0 <= addr -> 0 < size -> addr + size + PAGE_SIZE < 2 ^ 32 ->
  (debug = true -> ~ kmem_short 2 (kh s)) ->
  let start := page addr in let sz := PAGE_ALIGN (start + size) - start in
  exists err va s', do_allocate OFFSET debug map addr size false s = Some (err, va, s') /\ vm_frame s s' map E U /\
    ((err = 0 /\ va = start /\ allocated s s' map pgd L T E U start sz) \/
     (err = EINVAL /\ va = 0 /\ s' = s /\ ~ exists a, a ∈ L /\ is_free a = true /\ ar_addr a <= start /\ start + sz <= ar_addr a + ar_size a) \/
     (err = ENOMEM /\ va = 0 /\ ram s' = ram s /\
        ((refused s s' map pgd L T E U /\ (kmem_short 2 (kh s) \/ fst <$> kp_alloc sz (upages (mm s)) = Some 0)) \/ half_mapped s s' map pgd L E U start sz 7))).
Proof.
  intros VS H0' Hz Hmax Hd. cbv zeta. pose proof VS as [Rg VL _ _ _ _ _ _]. unfold do_allocate. rewrite (proj2 (Z.eqb_neq size 0)) by lia. unfold allocate_region.
  assert (PAGE_TRUNC addr = page addr /\ 0 <= page addr <= addr /\ aligned (page addr)) as (Etr&Hst&Ast).
  { rewrite PAGE_TRUNC_div by (unfold PAGE_SIZE in *; lia). split; [done|]. unfold page, aligned, PAGE_SIZE. Z.div_mod_to_equations. lia. }
  rewrite Etr, (u32_small (page addr + size)) by (unfold PAGE_SIZE in *; lia). set (start := page addr) in *.
  destruct (PAGE_ALIGN_ok (start + size)) as [Af Hge]; [lia|unfold PAGE_MASK, PAGE_SIZE in *; lia|]. rewrite u32_small by (unfold PAGE_SIZE in *; lia). set (sz := PAGE_ALIGN (start + size) - start) in *.
  assert (aligned sz) as As by (unfold sz, aligned, PAGE_SIZE in *; Z.div_mod_to_equations; lia). assert (0 < sz /\ start + sz < 2 ^ 32) as [Hsz Hend] by (unfold PAGE_SIZE in *; lia).
  rewrite (region_find_ok s map L E start sz Rg). destruct (List.find (covers start sz) L) as [a|] eqn:Ef; cbn [default from_option fmap option_fmap option_map id mbind option_bind].
  2: { exists EINVAL, 0, s. split; [done|]. split; [by apply rstep_frame|]. right; left. split; [done|]. split; [done|]. split; [done|]. intros (a&Ha&_&Hr).
    apply (covers_range L a start sz) in Hr; [|done|done|lia..]. by rewrite (find_none _ _ _ Ef Ha) in Hr. }
  apply find_split in Ef as (L1&L2&->&Hc&_). assert (a ∈ L1 ++ a :: L2) as HaL by (apply elem_of_app; right; by left). apply (covers_range (L1 ++ a :: L2) a start sz) in Hc as [Hc1 Hc2]; [|done|done|lia..].
  rewrite (proj2 (Z.eqb_neq (ar_ptr a) 0)) by (by eapply ptr_pos). destruct (regions_lookup _ _ _ _ _ _ Rg) as (p&n&sp&sn&Er). rewrite Er. cbn [mbind option_bind r_flags].
  change (flag (ar_flags a) REG_FREE) with (is_free a). destruct (is_free a) eqn:Ha; cbn [negb].
  2: { exists EINVAL, 0, s. split; [done|]. split; [by apply rstep_frame|]. right; left. split; [done|]. split; [done|]. split; [done|]. intros (c&[Hc|[->|Hc]%elem_of_cons]%elem_of_app&Hf&Hr); [|congruence|];
    (eapply (tiles_others PAGE_SIZE L1 a L2 UMEM_MAX c start); [apply VL|apply elem_of_app; tauto|unfold in_area; lia..]). }
  destruct (region_split_ok debug s map L1 a L2 E start sz Rg VL Ha Hc1 Hsz Hc2 Hd) as (r&s1&->&St1&Hr). cbn [mbind option_bind].
  destruct Hr as [(->&Hk&R1)|(Q&b&R&->&Hr&HC&Hbf&Hph&R1)].
  - cbn. exists ENOMEM, 0, s1. split; [done|]. split; [by apply rstep_frame|]. right; right. split; [done|]. split; [done|]. split; [apply St1|]. left. split; [|by left].
    split; [apply St1|]. split; [apply St1|]. by eapply vm_space_rstep.
  - rewrite (proj2 (Z.eqb_neq (ar_ptr b) 0)) by done. cbn [Z.eqb negb]. set (b1 := b <| ar_flags := Z.lor REG_READ REG_WRITE |>).
    destruct (wr_ok s1 map (L1 ++ Q) b b1 (R ++ L2) E (fun r => r <| r_flags := Z.lor REG_READ REG_WRITE |>)) as (s2&->&R2&St2&_); [rewrite <- app_assoc; rewrite <- (app_assoc Q) in R1; exact R1|done|data_only|].
    cbn [mbind option_bind]. assert (carved a Q b1 R start sz) as HC1 by (by destruct HC).
    destruct (allocate_pages_ok OFFSET static debug HO HOd HU s s2 map pgd L1 L2 Q R a b1 T E U start sz VS) as (err&va&s'&E'&Hfr&Ho).
    { by eapply rstep_trans. } { rewrite <- (app_assoc Q). rewrite <- app_assoc in R2. exact R2. } { done. } { done. } { done. } { done. } { done. } { done. } { done. }
    change (ar_ptr b1) with (ar_ptr b) in E'. exists err, va, s'. split; [done|]. split; [done|].
    destruct Ho as [(->&->&T'&phys&HT&VS'&Hcl&Hdj&Hram)|(->&->&Hram&[(Hk&Em&VS')|Hh])].
    + left. split; [done|]. split; [done|]. exists L1, a, L2, Q, b1, R, T', phys. by split_and!.
    + right; right. split; [done|]. split; [done|]. split; [done|]. left. split; [done|by right].
    + right; right. split; [done|]. split; [done|]. split; [done|]. by right.
Qed.

(** *** vm_free() *)

(** The area at [addr] is free and unmapped, joined with its free neighbours; its
    pages are given back unless they are shared with others. *)
Definition freed s s' (map pgd : Z) (L : list area) (T E U : gset Z) (addr : Z) : Prop := exists L1 a L2,
  L = L1 ++ a :: L2 /\ is_free a = false /\ ar_addr a = addr /\ vm_space s' map pgd (release L1 a L2) T E U /\ (clean s pgd L -> clean s' pgd (release L1 a L2)) /\
  forall x, user_page OFFSET x -> if decide (in_area x a) then present (pte OFFSET (mm s') pgd x) = false else pte OFFSET (mm s') pgd x = pte OFFSET (mm s) pgd x.

(** The pages of an area in use have page tables. *)
Lemma area_table m pgd L1 a L2 T U : backed OFFSET static m pgd (L1 ++ a :: L2) T U -> is_free a = false ->
  forall x, user_page OFFSET x -> ar_addr a <= x < ar_addr a + ar_size a -> has_table m pgd x.
Proof.
  intros VS Ha x Hu Hx. pose proof VS as [_ VSp _ VA VP VPte]. assert (a ∈ L1 ++ a :: L2) as HaL by (apply elem_of_app; right; by left).
  destruct (backed_range OFFSET static _ _ _ _ _ a VS HaL) as (?&?&?&Aa&As). destruct (VP a HaL Ha) as (Ap&Hp&Hps).
  apply (pte_table OFFSET). rewrite (VPte a x HaL Ha Hx Hu). apply word_nonzero; [destruct Hu as [_ ?]; unfold aligned, PAGE_SIZE in *; Z.div_mod_to_equations; lia|lia|].
  unfold PAGE_SIZE. destruct (flag _ _); lia.
Qed.

(** Entries of an area in use are written again. *)
Lemma remap_area m pgd L1 a L2 T U type f : backed OFFSET static m pgd (L1 ++ a :: L2) T U -> is_free a = false -> map_flags type = Some (f, 7) ->
  exists m', Mmu.mmu_map OFFSET pgd (ar_phys a) (ar_addr a) (ar_size a) type m = Some (0, m') /\
    space OFFSET static m' pgd T (U ∪ list_to_set (held_pages OFFSET pgd T (L1 ++ a :: L2))) /\ (forall x, x ∈ U -> tabs m' !! x = tabs m !! x) /\
    forall x, user_page OFFSET x -> pte OFFSET m' pgd x = if decide (in_area x a) then Z.lor (ar_phys a + (x - ar_addr a)) f else pte OFFSET m pgd x.
Proof.
  intros B Ha Hf. pose proof B as [_ VSp _ VA VP VPte]. assert (a ∈ L1 ++ a :: L2) as HaL by (apply elem_of_app; right; by left).
  destruct (backed_range OFFSET static _ _ _ _ _ a B HaL) as (?&?&?&Aa&As). destruct (VP a HaL Ha) as (Ap&Hp&Hps).
  pose proof (area_table m pgd L1 a L2 T U B Ha) as Ht.
  destruct (mmu_map_ok OFFSET static HO HOd m pgd T _ (ar_phys a) (ar_addr a) (ar_size a) type f VSp Hf Aa Ap As) as (r&m'&T'&own'&k&Em&Sp'&->&_&_&Hfr&Hk&HTT&Hx); [unfold PAGE_SIZE in *; lia|done|lia|done|done|by right|].
  destruct (HTT Ht) as [-> ->]. destruct Hk as [[_ ->]|(?&_)]; [|done]. exists m'. split; [done|]. split.
  { destruct (sp_own _ _ _ _ _ _ VSp) as (_&HTo&_). by rewrite (comm_L (∪)), subseteq_union_1_L in Sp'. } split; [|intros x Hu; by destruct (Hx x Hu)].
  intros x HxU. apply Hfr; [by apply elem_of_union_l|intros ->; apply (VA pgd); [by left|done]|intros HxT; apply (VA x); [|done]]. unfold held_pages. rewrite elem_of_cons, elem_of_app, elem_of_elements. tauto.
Qed.
(** What unmapping does to them. *)
Lemma unmap_area m pgd L1 a L2 T U : backed OFFSET static m pgd (L1 ++ a :: L2) T U -> is_free a = false ->
  exists m', Mmu.mmu_map OFFSET pgd (ar_phys a) (ar_addr a) (ar_size a) PG_UNMAP m = Some (0, m') /\
    space OFFSET static m' pgd T (U ∪ list_to_set (held_pages OFFSET pgd T (L1 ++ a :: L2))) /\ (forall x, x ∈ U -> tabs m' !! x = tabs m !! x) /\
    forall x, user_page OFFSET x -> if decide (in_area x a) then present (pte OFFSET m' pgd x) = false else pte OFFSET m' pgd x = pte OFFSET m pgd x.
Proof.
  intros B Ha. assert (a ∈ L1 ++ a :: L2) as HaL by (apply elem_of_app; right; by left). destruct (backed_range OFFSET static _ _ _ _ _ a B HaL) as (_&_&_&Aa&_). destruct (bk_phys _ _ _ _ _ _ _ B a HaL Ha) as (Ap&_).
  destruct (remap_area m pgd L1 a L2 T U PG_UNMAP 0 B Ha eq_refl) as (m'&?&?&?&Hx). exists m'. split_and!; try done. intros x Hu. specialize (Hx x Hu). case_decide as Hr; [|done].
  rewrite Hx. unfold present, PTE_PRESENT. rewrite word_present; [done| |done]. destruct Hu as [_ Ax]. unfold aligned, PAGE_SIZE in *. Z.div_mod_to_equations. lia.
Qed.

(** The pages of an area that was unmapped are given back. *)
Lemma free_area_pages s m pgd L1 a L2 T U m' : backed OFFSET static m pgd (L1 ++ a :: L2) T U -> is_free a = false ->
  let own := U ∪ list_to_set (held_pages OFFSET pgd T (L1 ++ a :: L2)) in space OFFSET static m' pgd T own ->
  exists m2, (if owns_pages a then vm_page_free (ar_phys a) (ar_size a) (s <| mm := m' |>) else Some (s <| mm := m' |>)) = Some (s <| mm := m2 |>) /\
    tabs m2 = tabs m' /\ space OFFSET static m2 pgd T (own ∖ list_to_set (area_pages OFFSET a)).
Proof.
  intros VS Ha own Sp'. pose proof VS as [_ _ VN _ VP _]. assert (a ∈ L1 ++ a :: L2) as HaL by (apply elem_of_app; right; by left). destruct (VP a HaL Ha) as (Ap&Hp&Hps).
  destruct (backed_range OFFSET static _ _ _ _ _ a VS HaL) as (Hlo&Hs0&Hhi&Aa&As).
  unfold area_pages. rewrite Ha. cbn [negb andb]. destruct (owns_pages a) eqn:Eo; [|exists m'; split; [done|]; split; [done|]; by rewrite list_to_set_nil, difference_empty_L].
  assert (list_to_set (page_list (ar_phys a + OFFSET) (ar_size a)) ⊆ own) as Hsub.
  { intros x Hx%elem_of_list_to_set. apply elem_of_union_r, elem_of_list_to_set. unfold held_pages. rewrite held_mid, elem_of_cons, !elem_of_app. right; right; left. unfold area_pages. by rewrite Ha, Eo. }
  assert (PAGE_ALIGN (ar_size a) = ar_size a) as Eal by (apply PAGE_ALIGN_page_id; [lia|unfold UMEM_MAX, PAGE_SIZE in *; lia|done]).
  destruct (kp_free_ok (upages m') own (ar_phys a + OFFSET) (ar_size a) (sp_inv _ _ _ _ _ _ Sp') Hs0) as (p'&Ef&HI'); [unfold UMEM_MAX, PAGE_MASK, PAGE_SIZE in *; lia|by rewrite Eal|].
  replace (ar_phys a + OFFSET - OFFSET) with (ar_phys a) in Ef by lia. unfold vm_page_free. cbn [mm set]. rewrite Ef. cbn [mbind option_bind]. exists (m' <| upages := p' |>). split; [done|]. split; [done|].
  rewrite Eal in HI'. destruct (sp_own _ _ _ _ _ _ Sp') as (Hpg'&HTo&_). unfold held_pages in VN. rewrite held_mid in VN. unfold area_pages at 1 in VN. rewrite Ha, Eo in VN. cbn [negb andb] in VN.
  apply NoDup_cons in VN as [Hpn (_&Hd&_)%NoDup_app]. eapply space_pages; [exact Sp'|done|..].
  - apply elem_of_difference. split; [done|]. rewrite elem_of_list_to_set. intros Hin. apply Hpn. rewrite !elem_of_app. tauto.
  - intros x Hx. apply elem_of_difference. split; [by apply HTo|]. rewrite elem_of_list_to_set. intros Hin. apply (Hd x); [by apply elem_of_elements|apply elem_of_app; by left].
Qed.

(** The search and the check that vm_free() and vm_attribute() begin with: is
    there an area in use that starts at the page? *)
Lemma find_start s map pgd L T E U addr : vm_space s map pgd L T E U -> 0 <= addr < UMEM_MAX -> let start := page addr in
  PAGE_TRUNC addr = start /\ exists reg, region_find map start 1 s = Some reg /\
    ((exists L1 a L2 p n sp sn, L = L1 ++ a :: L2 /\ is_free a = false /\ ar_addr a = start /\ reg = ar_ptr a /\ reg <> 0 /\
        regs s !! reg = Some (mk_region p n sp sn (ar_addr a) (ar_size a) (ar_flags a) (ar_phys a))) \/
     ((~ exists a, a ∈ L /\ is_free a = false /\ ar_addr a = start) /\
      (reg = 0 \/ reg <> 0 /\ exists r, regs s !! reg = Some r /\ negb (r_addr r =? start) || flag (r_flags r) REG_FREE = true))).
Proof.
  intros VS Haddr. cbv zeta. pose proof VS as [Rg VL VM VSp VN VA VP VPte]. destruct (user_trunc OFFSET HO HOd addr) as [-> [Hpg _]]; [unfold UMEM_MAX in *; lia|]. set (start := page addr) in *. split; [done|].
  assert (start + 1 < 2 ^ 32) as Hst by lia.
  assert (forall b, b ∈ L -> ar_addr b = start -> covers start 1 b = true) as Hcov.
  { intros b Hb Eb. apply (covers_range L b start 1 VL Hb); [lia|lia|lia|]. destruct (tiles_range _ _ _ b (lo_tiles _ VL) Hb). lia. }
  rewrite (region_find_ok s map L E start 1 Rg). eexists. split; [done|]. destruct (List.find (covers start 1) L) as [a|] eqn:Ef; cbn [default from_option fmap option_fmap option_map id].
  2: { right. split; [|by left]. intros (b&Hb&_&Eb). specialize (Hcov b Hb Eb). by rewrite (find_none _ _ _ Ef Hb) in Hcov. }
  apply find_split in Ef as (L1&L2&->&Hc&_). assert (a ∈ L1 ++ a :: L2) as HaL by (apply elem_of_app; right; by left). apply (covers_range (L1 ++ a :: L2) a start 1) in Hc as [Hc1 Hc2]; [|done|done|lia..].
  assert (ar_ptr a <> 0) as Hp by (by eapply ptr_pos). destruct (regions_lookup _ _ _ _ _ _ Rg) as (p&n&sp&sn&Er). destruct (negb (ar_addr a =? start) || is_free a) eqn:Eno.
  - right. split; [|right; split; [done|]; eexists; split; [exact Er|exact Eno]]. intros (b&Hb&Hbf&Eb).
    apply elem_of_app in Hb as [Hb|[->|Hb]%elem_of_cons]; [|by rewrite Eb, Z.eqb_refl, Hbf in Eno|]; (eapply (tiles_others PAGE_SIZE L1 a L2 UMEM_MAX b start); [apply VL|apply elem_of_app; tauto|..]; unfold in_area; [|lia]);
    (destruct (tiles_range _ _ _ b (lo_tiles _ VL)) as (_&?&_); [apply elem_of_app; rewrite elem_of_cons; tauto|lia]).
  - apply orb_false_iff in Eno as [Eadr Ha]. apply negb_false_iff, Z.eqb_eq in Eadr. left. by exists L1, a, L2, p, n, sp, sn.
Qed.

Lemma do_free_ok s map pgd L T E U addr : vm_space s map pgd L T E U -> 0 <= addr < UMEM_MAX ->
  exists err s', do_free OFFSET debug map addr s = Some (err, s') /\ vm_frame s s' map E U /\ ram s' = ram s /\
    ((err = 0 /\ freed s s' map pgd L T E U (page addr)) \/
     (err = EINVAL /\ s' = s /\ ~ exists a, a ∈ L /\ is_free a = false /\ ar_addr a = page addr)).
Proof.
  intros VS Haddr. destruct (find_start s map pgd L T E U addr VS Haddr) as (Etr&reg&Ef&Hreg). unfold do_free. rewrite Etr, Ef. cbn [mbind option_bind]. set (start := page addr) in *.
  destruct Hreg as [(L1&a&L2&p&n&sp&sn&->&Ha&Eadr&->&Hp&Er)|(Hno&Hreg)].
  2: { exists EINVAL, s. split; [|split; [by apply rstep_frame|split; [done|by right]]]. destruct Hreg as [->|(Hr&r&Er&Hbad)]; [done|]. rewrite (proj2 (Z.eqb_neq reg 0)) by done. rewrite Er. cbn [mbind option_bind]. by rewrite Hbad. }
  rewrite (proj2 (Z.eqb_neq _ 0)) by done. rewrite Er. cbn [mbind option_bind r_addr r_flags]. change (flag (ar_flags a) REG_FREE) with (is_free a). rewrite Eadr, Z.eqb_refl, Ha. cbn [negb orb].
  pose proof VS as [Rg VL VM VSp VN VA VP VPte]. rewrite <- Eadr.
  destruct (maps s !! map) as [mp|] eqn:Emp; [|discriminate VM]. injection VM as Epgd. cbn [mbind option_bind r_phys r_size].
  unfold vm_mmu_map. rewrite Epgd. destruct (unmap_area (mm s) pgd L1 a L2 T U (vm_space_backed _ _ _ _ _ _ _ _ _ VS) Ha) as (m'&Emap&Sp'&Hfr&Hpte). rewrite Emap. cbn [mbind option_bind fst snd].
  change (own_pages _) with (owns_pages a). set (own := U ∪ _) in *.
  destruct (free_area_pages s (mm s) pgd L1 a L2 T U m' (vm_space_backed _ _ _ _ _ _ _ _ _ VS) Ha Sp') as (m2&->&Et2&Sp2).
  cbn [mbind option_bind]. destruct (region_free_ok debug (s <| mm := m2 |>) map L1 a L2 E) as (s3&->&St3&R3); [by apply (regions_ext s)|intros _ E0; unfold is_free in Ha; rewrite E0 in Ha; discriminate Ha|].
  cbn [mbind option_bind]. pose proof (st_rest _ _ _ _ St3) as (Em3&Er3&Ec3). cbn [mm ram cr3 set] in Em3, Er3, Ec3. exists 0, s3. split; [done|].
  assert (forall x, pte OFFSET (mm s3) pgd x = pte OFFSET m' pgd x) as Hsame by (intros x; unfold pte; by rewrite Em3, Et2). split; [|split; [by rewrite Er3|]].
  - split; [apply St3|apply St3|intros x Hx; rewrite Em3, Et2; by apply Hfr|by rewrite Ec3].
  - left. split; [done|]. exists L1, a, L2. assert (forall x, user_page OFFSET x -> if decide (in_area x a) then present (pte OFFSET (mm s3) pgd x) = false else pte OFFSET (mm s3) pgd x = pte OFFSET (mm s) pgd x) as Hpte3.
    { intros x Hu. rewrite Hsame. by apply Hpte. }
    destruct (release_space OFFSET static HO s s3 map pgd L1 a L2 T E U VS Ha R3) as [Hv Hcl]; [by rewrite (st_maps _ _ _ _ St3) by (by left)|by rewrite Em3|done|]. by split_and!.
Qed.
End Spec.
