(* ===== verification/VmLife.v ===== *)
(** * VmLife: address spaces are created, kept apart and taken down

    vm_create() makes an empty address space, what one address space does leaves
    the others as they are, and the last vm_terminate() gives everything back. *)
From stdpp Require Import base numbers gmap list.
From S2P Require Import Prelude Core Queue Page PageSpec PageSource HeapSource Mmu MmuSpec Vm VmRing VmLayout VmRegions VmSpace VmSpec.

Open Scope Z_scope.

Section Life.
Context {P : Type} `{PageSource P} (OFFSET : Z) (static : Z -> Prop) `{!PageSourceLaws P OFFSET static}.
Context {K : Type} `{HeapSource K} `{!HeapSourceLaws K} (debug : bool).
Context (HO : 0 < OFFSET < 2 ^ 32) (HOd : OFFSET mod 2 ^ 22 = 0) (HU : UMEM_MAX <= OFFSET).
Implicit Types (s : vmem K P) (m : mmu P).

Abbreviation vm_space := (VmSpace.vm_space OFFSET static).
Abbreviation clean := (VmSpace.clean OFFSET).
Abbreviation held_pages := (VmSpace.held_pages OFFSET).
Abbreviation space := (MmuSpec.space OFFSET static).
Abbreviation pte := (MmuSpec.pte OFFSET).
Abbreviation user_page := (MmuSpec.user_page OFFSET).

(** ** Other address spaces *)

Lemma pte_frame m m' pgd T own x : space m pgd T own -> (forall k, k = pgd \/ k ∈ T -> tabs m' !! k = tabs m !! k) -> user_page x -> pte m' pgd x = pte m pgd x.
Proof.
  intros S Hk Hu. pose proof S as [_ _ _ (d&Ed&HD)]. unfold MmuSpec.pte. rewrite (Hk pgd) by (by left). rewrite Ed.
  destruct (dir_lookup OFFSET static HO HOd m pgd T own S d x Ed HD Hu) as [[-> _]|(t&Ht&->&_&->)]; [done|]. by rewrite (Hk t) by (by right).
Qed.

(** An address space whose structures and tables nobody touched. *)
Lemma vm_survives s s' EE UU map pgd L T E U : hs_inv (kh s') EE -> kp_inv (upages (mm s')) UU -> vm_space s map pgd L T E U ->
  (forall x, x ∈ ptrs L -> x ∈ EE /\ maps s' !! x = maps s !! x /\ regs s' !! x = regs s !! x) -> (forall x, x ∈ held_pages pgd T L -> x ∈ UU /\ tabs (mm s') !! x = tabs (mm s) !! x) ->
  vm_space s' map pgd L T (EE ∖ list_to_set (ptrs L)) (UU ∖ list_to_set (held_pages pgd T L)) /\ forall x, user_page x -> pte (mm s') pgd x = pte (mm s) pgd x.
Proof.
  intros HH HP V HE HU'. pose proof V as [R2 VL VM S2 VN VA VP VPte].
  assert (forall k, k = pgd \/ k ∈ T -> k ∈ UU /\ tabs (mm s') !! k = tabs (mm s) !! k) as Hk by (intros k Hk; apply HU'; unfold VmSpace.held_pages; rewrite elem_of_cons, elem_of_app, elem_of_elements; tauto).
  assert (forall x, user_page x -> pte (mm s') pgd x = pte (mm s) pgd x) as Hp by (intros x Hu; apply (pte_frame (mm s) (mm s') pgd T _ x S2); [intros k Hk'; by apply Hk|done]).
  split; [|done].
  assert (forall (X : gset Z) (l : list Z), (forall x, x ∈ l -> x ∈ X) -> X ∖ list_to_set l ∪ list_to_set l = X) as Hset.
  { intros X l Hl. apply set_eq. intros x. rewrite elem_of_union, elem_of_difference, elem_of_list_to_set. split; [intros [?|?%Hl]; tauto|]. intros Hx. destruct (decide (x ∈ l)); tauto. }
  split; [split| | | | | | |].
  - rewrite Hset by (intros x Hx; by apply HE). done.
  - intros x Hx [_ Hn]%elem_of_difference. by rewrite elem_of_list_to_set in Hn.
  - apply R2.
  - eapply ring_frame; [|apply R2]. intros x Hx. by apply HE.
  - apply R2.
  - done.
  - rewrite (proj1 (proj2 (HE _ (head_Some_elem_of _ _ (rg_head _ _ _ _ R2))))). done.
  - rewrite Hset by (intros x Hx; by apply HU'). pose proof S2 as [_ (Hpg&HT&HpT) Ht (d&Ed&HD)]. split; [done| |intros t Ht2; rewrite (proj2 (Hk t (or_intror Ht2))); by apply Ht|].
    + split; [apply Hk; by left|]. split; [|done]. intros t Ht2. apply Hk. by right.
    + exists d. split; [|done]. by rewrite (proj2 (Hk pgd (or_introl eq_refl))).
  - done.
  - intros x Hx [_ Hn]%elem_of_difference. by rewrite elem_of_list_to_set in Hn.
  - done.
  - intros a x Ha Hf Hx Hu. rewrite Hp by done. by apply VPte.
Qed.

(** The space at [map2] uses memory that the space at [map1] regards as others'. *)
Lemma vm_kept s s' map1 pgd1 L1 T1 E1 U1 map2 pgd2 L2 T2 E2 U2 :
  vm_space s' map1 pgd1 L1 T1 E1 U1 -> (forall x, x ∈ E1 -> maps s' !! x = maps s !! x /\ regs s' !! x = regs s !! x) -> (forall x, x ∈ U1 -> tabs (mm s') !! x = tabs (mm s) !! x) ->
  vm_space s map2 pgd2 L2 T2 E2 U2 -> (forall x, x ∈ ptrs L2 -> x ∈ E1) -> (forall x, x ∈ held_pages pgd2 T2 L2 -> x ∈ U1) ->
  exists E2' U2', vm_space s' map2 pgd2 L2 T2 E2' U2' /\ forall x, user_page x -> pte (mm s') pgd2 x = pte (mm s) pgd2 x.
Proof.
  intros [[HH _ _ _ _] _ _ [HP _ _ _] _ _ _ _] FR FT V2 HE HU'. do 2 eexists. apply (vm_survives s s' _ _ map2 pgd2 L2 T2 E2 U2 HH HP V2).
  - intros x Hx%HE. split; [by apply elem_of_union_l|by apply FR].
  - intros x Hx%HU'. split; [by apply elem_of_union_l|by apply FT].
Qed.

Lemma vm_isolated s s' map1 pgd1 L1 T1 E1 U1 map2 pgd2 L2 T2 E2 U2 :
  vm_space s' map1 pgd1 L1 T1 E1 U1 -> vm_frame s s' map1 E1 U1 -> vm_space s map2 pgd2 L2 T2 E2 U2 ->
  (forall x, x ∈ ptrs L2 -> x ∈ E1) -> (forall x, x ∈ held_pages pgd2 T2 L2 -> x ∈ U1) ->
  exists E2' U2', vm_space s' map2 pgd2 L2 T2 E2' U2' /\ forall x, user_page x -> pte (mm s') pgd2 x = pte (mm s) pgd2 x.
Proof. intros V1 [FM FR FT _] V2 HE HU'. apply (vm_kept s s' map1 pgd1 L1 T1 E1 U1 map2 pgd2 L2 T2 E2 U2); try done. intros x Hx. split; [apply FM; by right|by apply FR]. Qed.

(** ** vm_create *)

(** One free area. *)
Definition blank (map : Z) : list area := [mk_area map PAGE_SIZE (UMEM_MAX - PAGE_SIZE) REG_FREE 0].

Lemma blank_ok map : layout_ok (blank map).
Proof. split; [by vm_compute|done|]. constructor; [done|constructor]. Qed.

Lemma blank_held map pgd : held_pages pgd ∅ (blank map) = [pgd].
Proof. unfold VmSpace.held_pages. by rewrite elements_empty. Qed.

Lemma vm_create_ok s boot_pgd b E U : hs_inv (kh s) E -> kp_inv (upages (mm s)) U -> tabs (mm s) !! boot_pgd = Some b ->
  exists map s', vm_create OFFSET boot_pgd s = Some (map, s') /\ ram s' = ram s /\ cr3 s' = cr3 s /\
    (forall x, x ∈ E -> maps s' !! x = maps s !! x /\ regs s' !! x = regs s !! x) /\
    ((map = 0 /\ mm s' = mm s /\ hs_inv (kh s') E) \/
     (map <> 0 /\ map ∉ E /\ exists pgd, v_refcnt <$> maps s' !! map = Some 1 /\ vm_space s' map pgd (blank map) ∅ E U /\ clean s' pgd (blank map) /\
        (forall x, x ∈ U -> tabs (mm s') !! x = tabs (mm s) !! x))).
Proof.
  intros HH HP Hb. unfold vm_create, vm_kmem_alloc. destruct (hs_alloc_ok _ _ SIZEOF_VM_MAP HH) as (map&k&Ek&Hr); [done|]. rewrite Ek. cbn [mbind option_bind fst snd].
  destruct Hr as [[-> Hk]|(Hm0&HmE&Hk)].
  { exists 0. eexists. split; [done|]. split; [done|]. split; [done|]. split; [done|]. by left. }
  rewrite (proj2 (Z.eqb_neq map 0)) by done. unfold vm_mmu_newmap. cbn [mm set].
  destruct (mmu_newmap_ok OFFSET static HO HOd (mm s) U boot_pgd b HP Hb) as [(m'&Em&->)|(pgd&m'&d&Em&HpU&Sp&Hfr&Hz&_)]; rewrite Em; cbn [mbind option_bind fst snd].
  - cbn [Z.eqb]. unfold vm_kmem_free. cbn [kh set]. destruct (hs_free_ok _ _ map Hk) as (k'&Ek'&Hk'); [apply elem_of_union_l; by apply elem_of_singleton|]. rewrite Ek'. cbn [mbind option_bind].
    exists 0. eexists. split; [done|]. split; [done|]. split; [done|]. split.
    + intros x Hx. cbn [regs maps set]. rewrite !lookup_delete_ne by (intros <-; done). done.
    + left. split; [done|]. split; [done|]. cbn [kh set]. replace E with (({[map]} ∪ E) ∖ {[map]}); [done|]. apply set_eq. intros x. rewrite elem_of_difference, elem_of_union, elem_of_singleton.
      split; [tauto|]. intros Hx. split; [tauto|]. intros ->. done.
  - destruct (kp_page _ _ pgd (sp_inv _ _ _ _ _ _ Sp)) as (_&Hp0&_); [apply elem_of_union_l; by apply elem_of_singleton|]. rewrite (proj2 (Z.eqb_neq pgd 0)) by lia.
    eexists map, _. split; [done|]. split; [done|]. split; [done|]. unfold region_init. cbn [regs maps mm kh set]. split; [intros x Hx; rewrite !lookup_insert_ne by (intros <-; done); done|].
    right. split; [done|]. split; [done|]. exists pgd. rewrite lookup_insert_eq. split; [done|].
    assert (list_to_set (held_pages pgd ∅ (blank map)) = {[pgd]} :> gset Z) as Eh by (rewrite blank_held; cbn; by rewrite (right_id_L ∅ (∪))). split_and!; [split|..].
    + split; cbn [kh regs set].
      * cbn. by rewrite (right_id_L ∅ (∪)), (comm_L (∪)).
      * intros x ->%list_elem_of_singleton. done.
      * apply NoDup_singleton.
      * split; [|done]. cbn. do 2 eexists. by rewrite lookup_insert_eq.
      * done.
    + apply blank_ok.
    + cbn. by rewrite lookup_insert_eq.
    + rewrite Eh, (comm_L (∪)). exact Sp.
    + apply NoDup_cons. split; [apply not_elem_of_nil|constructor].
    + intros x ->%list_elem_of_singleton. done.
    + intros a ->%list_elem_of_singleton. done.
    + intros a x ->%list_elem_of_singleton. done.
    + intros a x Ha _ _ Hu. cbn [mm set]. rewrite (Hz x Hu). done.
    + intros x Hx. apply Hfr. intros ->. done.
Qed.

(** ** vm_terminate *)

Abbreviation backed := (VmSpace.backed OFFSET static).

Lemma unmap_region_ok s pgd a M T U p n sp sn : backed (mm s) pgd (a :: M) T U -> flags_ok a ->
  exists m', unmap_region OFFSET pgd (mk_region p n sp sn (ar_addr a) (ar_size a) (ar_flags a) (ar_phys a)) s = Some (s <| mm := m' |>) /\
    backed m' pgd M T U /\ forall x, x ∈ U -> tabs m' !! x = tabs (mm s) !! x.
Proof.
  intros B Hf. pose proof B as [(lo&Hlo&Al&Ea&Hs&As&Ht) Sp ND Ap Ph Pt]. unfold unmap_region. cbn [r_flags r_phys r_addr r_size].
  assert (exists lo', PAGE_SIZE <= lo' /\ aligned lo' /\ tiles lo' M UMEM_MAX) as Ht'.
  { exists (lo + ar_size a). split; [lia|]. split; [unfold aligned, PAGE_SIZE in *; Z.div_mod_to_equations; lia|done]. }
  assert (held_pages pgd T (a :: M) ≡ₚ VmSpace.area_pages OFFSET a ++ held_pages pgd T M) as Eh by (unfold VmSpace.held_pages; rewrite bind_cons; solve_Permutation).
  destruct (is_free a) eqn:Ha.
  - rewrite (Hf Ha), Z.eqb_refl. cbn [negb]. exists (mm s). split; [by destruct s|]. split; [|done]. rewrite (free_pages OFFSET a Ha) in Eh. cbn [app] in Eh.
    split; [done|by rewrite <- (list_to_set_perm_L _ _ Eh)|by rewrite <- Eh|intros x Hx; apply Ap; by rewrite Eh|intros c Hc; apply Ph; by right|intros c x Hc; apply Pt; by right].
  - rewrite (proj2 (Z.eqb_neq _ _)) by (intros E0; unfold is_free in Ha; rewrite E0 in Ha; discriminate Ha). cbn [negb]. unfold vm_mmu_map.
    destruct (unmap_area OFFSET static HO HOd HU (mm s) pgd [] a M T U B Ha) as (m1&Em&Sp1&Hfr&Hpte). rewrite Em. cbn [mbind option_bind fst snd].
    change (own_pages _) with (owns_pages a). destruct (free_area_pages OFFSET static HO s (mm s) pgd [] a M T U m1 B Ha Sp1) as (m2&->&Et&Sp2). exists m2. split; [done|]. cbn [app] in Sp2.
    rewrite Eh in ND. apply NoDup_app in ND as (_&Hdis&ND). split; [split|intros x Hx; rewrite Et; by apply Hfr].
    + done.
    + replace (U ∪ list_to_set (held_pages pgd T M)) with ((U ∪ list_to_set (held_pages pgd T (a :: M))) ∖ list_to_set (VmSpace.area_pages OFFSET a)); [done|].
      rewrite (list_to_set_perm_L _ _ Eh), list_to_set_app_L. apply set_eq. intros x. rewrite elem_of_difference, !elem_of_union, !elem_of_list_to_set. split; [tauto|]. intros Hx. split; [tauto|].
      intros Hxa. destruct Hx as [Hx|Hx]; [|by apply (Hdis x)]. apply (Ap x); [|done]. rewrite Eh. by apply elem_of_app; left.
    + done.
    + intros x Hx. apply Ap. rewrite Eh. by apply elem_of_app; right.
    + intros c Hc. apply Ph. by right.
    + intros c x Hc Hcf Hx Hu. specialize (Hpte x Hu). rewrite decide_False in Hpte by (eapply (tiles_others lo [] a M UMEM_MAX c x); done).
      transitivity (pte m1 pgd x); [unfold MmuSpec.pte; by rewrite Et|]. rewrite Hpte. apply Pt; try done. by right.
Qed.

Definition unshared (a : area) : Prop := flag (ar_flags a) REG_SHARED = false.

(** One turn of the loop, at a region other than the head. *)
Lemma close_region_ok s map pgd a M p nx sp sn T E1 U : let r := mk_region p nx sp sn (ar_addr a) (ar_size a) (ar_flags a) (ar_phys a) in
  regs s !! ar_ptr a = Some r -> backed (mm s) pgd (a :: M) T U -> flags_ok a -> unshared a -> map <> ar_ptr a -> ar_ptr a ∉ E1 -> ar_ptr a ∉ ptrs M ->
  hs_inv (kh s) (E1 ∪ list_to_set (ptrs (a :: M))) ->
  exists s', unmap_region OFFSET pgd r s ≫= region_delete map (ar_ptr a) = Some s' /\ regs s' = delete (ar_ptr a) (regs s) /\ maps s' = delete (ar_ptr a) (maps s) /\
    hs_inv (kh s') (E1 ∪ list_to_set (ptrs M)) /\ backed (mm s') pgd M T U /\ ram s' = ram s /\ cr3 s' = cr3 s /\ forall x, x ∈ U -> tabs (mm s') !! x = tabs (mm s) !! x.
Proof.
  cbv zeta. intros E B Hf Hu Hm HaE HaM HH. destruct (unmap_region_ok s pgd a M T U p nx sp sn B Hf) as (m'&->&B'&Hfr). cbn [mbind option_bind]. unfold region_delete. cbn [regs set]. rewrite E.
  cbn [mbind option_bind r_flags]. unfold unshared in Hu. rewrite Hu, (proj2 (Z.eqb_neq map _)) by done. cbn [mbind option_bind]. unfold vm_kmem_free. cbn [kh set].
  destruct (hs_free_ok _ _ (ar_ptr a) HH) as (k&->&Hk); [apply elem_of_union_r, elem_of_list_to_set; by left|]. cbn [mbind option_bind]. eexists. split; [done|]. cbn [kh regs maps mm ram cr3 set]. split_and!; try done.
  rewrite fmap_cons, list_to_set_cons in Hk. replace (E1 ∪ list_to_set (ptrs M)) with ((E1 ∪ ({[ar_ptr a]} ∪ list_to_set (ptrs M))) ∖ {[ar_ptr a]}); [done|].
  apply set_eq. intros x. rewrite elem_of_difference, !elem_of_union, elem_of_singleton. split; [tauto|]. intros Hx. split; [tauto|]. intros ->. destruct Hx as [?|Hx%elem_of_list_to_set]; done.
Qed.

Lemma terminate_tail map pgd T E1 U : map ∈ E1 -> forall M a p n s, chain (regs s) p (a :: M) map -> NoDup (ptrs (a :: M)) -> (forall x, x ∈ ptrs (a :: M) -> x ∉ E1) ->
  hs_inv (kh s) (E1 ∪ list_to_set (ptrs (a :: M))) -> Forall flags_ok (a :: M) -> Forall unshared (a :: M) -> backed (mm s) pgd (a :: M) T U -> (length M < n)%nat ->
  exists s', terminate_regions OFFSET n pgd map (ar_ptr a) s = Some s' /\ hs_inv (kh s') E1 /\ backed (mm s') pgd [] T U /\ ram s' = ram s /\ cr3 s' = cr3 s /\
    (forall x, x ∈ E1 -> regs s' !! x = regs s !! x /\ maps s' !! x = maps s !! x) /\ forall x, x ∈ U -> tabs (mm s') !! x = tabs (mm s) !! x.
Proof.
  intros Hm. induction M as [|b M IH]; intros a p n s [(sp&sn&E) Hc] ND Hap HH Hf Hu B Hn; (destruct n as [|n]; [cbn in Hn; lia|]); cbn [terminate_regions]; rewrite E; cbn [mbind option_bind r_next];
    apply Forall_cons in Hf as [Hfa Hf], Hu as [Hua Hu]; apply NoDup_cons in ND as [Hna ND]; (assert (ar_ptr a ∉ E1) as HaE by (apply Hap; by left)); (assert (map <> ar_ptr a) as Hma by (by intros ->)).
  - destruct (close_region_ok s map pgd a [] p _ sp sn T E1 U E B Hfa Hua Hma HaE Hna HH) as (s1&E1'&Er&Em&HH1&B1&Hram&Hcr&Htabs).
    destruct (unmap_region _ _ _ _) as [s0|]; [|discriminate E1']. cbn [mbind option_bind] in E1' |- *. rewrite E1'. cbn [mbind option_bind nxt]. rewrite Z.eqb_refl. exists s1. split_and!; try done.
    + cbn in HH1. by rewrite (right_id_L ∅ (∪)) in HH1.
    + intros x Hx. rewrite Er, Em, !lookup_delete_ne by (intros <-; done). done.
  - destruct (close_region_ok s map pgd a (b :: M) p _ sp sn T E1 U E B Hfa Hua Hma HaE Hna HH) as (s1&E1'&Er&Em&HH1&B1&Hram&Hcr&Htabs).
    destruct (unmap_region _ _ _ _) as [s0|]; [|discriminate E1']. cbn [mbind option_bind] in E1' |- *. rewrite E1'. cbn [mbind option_bind nxt].
    rewrite (proj2 (Z.eqb_neq (ar_ptr b) map)) by (intros Eb; apply (Hap (ar_ptr b)); [right; by left|by rewrite Eb]). destruct (IH b (ar_ptr a) n s1) as (s'&Et&H1&H2&H3&H4&H5&H6); [|done|intros x Hx; apply Hap; by right|done..|cbn in Hn; lia|].
    + apply (chain_frame (regs s)); [|done]. intros x Hx. rewrite Er, lookup_delete_ne; [done|]. intros <-. done.
    + exists s'. split; [done|]. split; [done|]. split; [done|]. split; [congruence|]. split; [congruence|]. split.
      * intros x Hx. destruct (H5 x Hx) as [-> ->]. rewrite Er, Em, !lookup_delete_ne by (intros <-; done). done.
      * intros x Hx. rewrite (H6 x Hx). by apply Htabs.
Qed.

(** The whole loop: it starts at the head, which is freed with the map. *)
Lemma terminate_regions_ok s map pgd L T E U n : vm_space s map pgd L T E U -> Forall unshared L -> map ∉ E -> (length L <= n)%nat ->
  exists s', terminate_regions OFFSET n pgd map map s = Some s' /\ hs_inv (kh s') (E ∪ {[map]}) /\ backed (mm s') pgd [] T U /\ ram s' = ram s /\ cr3 s' = cr3 s /\
    (forall x, x ∈ E -> regs s' !! x = regs s !! x /\ maps s' !! x = maps s !! x) /\ forall x, x ∈ U -> tabs (mm s') !! x = tabs (mm s) !! x.
Proof.
  intros VS Hu HmE Hn. pose proof VS as [[HH Hap ND HR Hh] [_ _ Hf] _ _ _ _ _ _]. pose proof (vm_space_backed _ _ _ _ _ _ _ _ _ VS) as B.
  destruct L as [|a M]; [done|]. injection Hh as <-. destruct n as [|n]; [cbn in Hn; lia|]. destruct HR as [(sp&sn&Er) Hc]. cbn [terminate_regions]. rewrite Er. cbn [mbind option_bind r_next].
  apply Forall_cons in Hf as [Hfa Hf], Hu as [Hua Hu]. destruct (unmap_region_ok s pgd a M T U (lst 0 (a :: M)) (nxt M (nxt (a :: M) 0)) sp sn B Hfa) as (m'&->&B'&Hfr). cbn [mbind option_bind].
  unfold region_delete. cbn [regs set]. rewrite Er. cbn [mbind option_bind r_flags]. unfold unshared in Hua. rewrite Hua. cbn [mbind option_bind]. rewrite Z.eqb_refl. cbn [mbind option_bind nxt].
  apply NoDup_cons in ND as [Hna ND]. destruct M as [|b M]; cbn [nxt].
  - rewrite Z.eqb_refl. eexists. split; [done|]. cbn [kh regs maps mm ram cr3 set]. split_and!; try done. cbn in HH. by rewrite (right_id_L ∅ (∪)) in HH.
  - rewrite (proj2 (Z.eqb_neq (ar_ptr b) (ar_ptr a))) by (intros E0; apply Hna; rewrite <- E0; by left). match goal with |- context [terminate_regions _ _ _ _ _ ?st] => set (s1 := st) end.
    destruct (terminate_tail (ar_ptr a) pgd T (E ∪ {[ar_ptr a]}) U ltac:(apply elem_of_union_r; by apply elem_of_singleton) M b (ar_ptr a) n s1) as (s'&Et&H1&H2&H3&H4&H5&H6).
    + exact Hc.
    + done.
    + intros x Hx [HxE| ->%elem_of_singleton]%elem_of_union; [|done]. apply (Hap x); [by right|done].
    + cbn [kh s1 set]. rewrite fmap_cons, list_to_set_cons in HH. by rewrite <- (assoc_L (∪)).
    + done.
    + done.
    + done.
    + cbn in Hn. lia.
    + exists s'. split; [done|]. split; [done|]. split; [done|]. split; [done|]. split; [done|]. split.
      * intros x Hx. apply H5. by apply elem_of_union_l.
      * intros x Hx. rewrite (H6 x Hx). by apply Hfr.
Qed.

Lemma vm_terminate_ok s map pgd L T E U (v : vm_map) : vm_space s map pgd L T E U -> maps s !! map = Some v -> Forall unshared L ->
  exists s', vm_terminate OFFSET map s = Some s' /\ ram s' = ram s /\ cr3 s' = cr3 s /\
    (forall x, x ∈ E -> regs s' !! x = regs s !! x /\ maps s' !! x = maps s !! x) /\ (forall x, x ∈ U -> tabs (mm s') !! x = tabs (mm s) !! x) /\
    if decide (1 < v_refcnt v) then maps s' !! map = Some (v <| v_refcnt := v_refcnt v - 1 |>) /\ vm_space s' map pgd L T E U
    else hs_inv (kh s') E /\ kp_inv (upages (mm s')) U.
Proof.
  intros VS Em Hu. pose proof VS as [Rg VL VM VSp VN VA VP VPte]. assert (map ∉ E) as HmE by (apply Rg, head_Some_elem_of, Rg). unfold vm_terminate. rewrite Em. cbn [mbind option_bind].
  set (v1 := v <| v_refcnt := v_refcnt v - 1 |>). set (s1 := s <| maps ::= <[map := v1]> |>). assert (v_pgd v = pgd) as Epgd by (rewrite Em in VM; by injection VM).
  assert (vm_space s1 map pgd L T E U) as VS1.
  { split; try done; [by apply (regions_ext s)|]. unfold s1. cbn [maps set]. rewrite lookup_insert_eq. cbn. by rewrite Epgd. }
  destruct (Z.leb_spec 1 (v_refcnt v - 1)) as [Hcnt|Hcnt].
  - exists s1. rewrite decide_True by lia. split; [done|]. split; [done|]. split; [done|]. split; [intros x Hx; unfold s1; cbn; rewrite lookup_insert_ne by (intros <-; done); done|].
    split; [done|]. split; [unfold s1; cbn; by rewrite lookup_insert_eq|done].
  - destruct (terminate_regions_ok s1 map pgd L T E U (S (size (regs s1))) VS1 Hu HmE) as (s2&E2&H1&H2&H3&H4&H5&H6).
    { pose proof (mapped_size (regs s1) (ptrs L) (rg_nodup _ _ _ _ Rg) (fun x => ring_mapped (regs s) _ x (rg_ring _ _ _ _ Rg))) as Hs. rewrite length_fmap in Hs. lia. }
    cbn [regs s1 set] in E2 |- *. rewrite Epgd, E2. cbn [mbind option_bind]. unfold vm_mmu_delmap. destruct (mmu_delmap_ok OFFSET static HO HOd (mm s2) pgd T _ (bk_space _ _ _ _ _ _ _ H2)) as (m'&Ed&HP&Hfr).
    rewrite Ed. cbn [mbind option_bind]. unfold vm_kmem_free. cbn [kh set]. destruct (hs_free_ok _ _ map H1) as (k&->&Hk); [apply elem_of_union_r; by apply elem_of_singleton|]. cbn [mbind option_bind].
    eexists. split; [done|]. rewrite decide_False by lia. cbn [kh regs maps mm ram cr3 set]. split; [done|]. split; [done|]. split; [|split; [|split]].
    + intros x Hx. rewrite !lookup_delete_ne by (intros <-; done). destruct (H5 x Hx) as [-> ->]. cbn. by rewrite lookup_insert_ne by (intros <-; done).
    + intros x Hx. rewrite Hfr, (H6 x Hx); [done| |].
      * intros ->. apply (VA pgd); [by left|done].
      * intros HxT. apply (VA x); [|done]. unfold VmSpace.held_pages. rewrite elem_of_cons, elem_of_app, elem_of_elements. tauto.
    + replace E with ((E ∪ {[map]}) ∖ {[map]}) at 1; [done|]. apply set_eq. intros x. rewrite elem_of_difference, elem_of_union, elem_of_singleton. split; [tauto|]. intros Hx. split; [tauto|]. intros ->. done.
    + replace U with ((U ∪ list_to_set (held_pages pgd T [])) ∖ T ∖ {[pgd]}) at 1; [done|]. rewrite held_set. apply set_eq. intros x. cbn [mbind list_bind list_to_set].
      rewrite !elem_of_difference, !elem_of_union, elem_of_singleton, elem_of_empty. split; [tauto|]. intros Hx. split; [split; [tauto|]|].
      * intros HxT. apply (VA x); [|done]. unfold VmSpace.held_pages. rewrite elem_of_cons, elem_of_app, elem_of_elements. tauto.
      * intros ->. apply (VA pgd); [by left|done].
Qed.
End Life.
