(* ===== verification/VmMap.v ===== *)
(** * VmMap: vm_attribute() and vm_map()

    Changing the access to an area, and mapping the memory of another task. *)
From stdpp Require Import base numbers gmap list.
From S2P Require Import Prelude Core Queue Page PageSpec PageSource HeapSource Mmu MmuSpec Vm VmRing VmLayout VmRegions VmSpace VmSpec VmLife.

Open Scope Z_scope.

Section Map.
Context {P : Type} `{PageSource P} (OFFSET : Z) (static : Z -> Prop) `{!PageSourceLaws P OFFSET static}.
Context {K : Type} `{HeapSource K} `{!HeapSourceLaws K} (debug : bool).
Context (HO : 0 < OFFSET < 2 ^ 32) (HOd : OFFSET mod 2 ^ 22 = 0) (HU : UMEM_MAX <= OFFSET).
Implicit Types (s : vmem K P) (m : mmu P).

Abbreviation vm_space := (VmSpace.vm_space OFFSET static).
Abbreviation clean := (VmSpace.clean OFFSET).
Abbreviation held_pages := (VmSpace.held_pages OFFSET).
Abbreviation area_pages := (VmSpace.area_pages OFFSET).
Abbreviation space := (MmuSpec.space OFFSET static).
Abbreviation pte := (MmuSpec.pte OFFSET).
Abbreviation user_page := (MmuSpec.user_page OFFSET).

(** ** vm_attribute *)

(** The access of an area in use is changed. *)
Lemma layout_access L1 a b L2 : layout_ok (L1 ++ a :: L2) -> is_free a = false -> is_free b = false -> ar_addr b = ar_addr a -> ar_size b = ar_size a -> layout_ok (L1 ++ b :: L2).
Proof.
  intros [Ht Hc Hf] Ha Hb E1 E2. split.
  - apply tiles_app in Ht as (mid&T1&T2). apply tiles_app. exists mid. split; [done|]. cbn in *. by rewrite E1, E2.
  - apply coalesced_mid in Hc as [C1 C2]. apply coalesced_mid. split; [eapply coalesced_last; [|exact C1]|eapply coalesced_head; [|exact C2]]; congruence.
  - apply Forall_app in Hf as [F1 [_ F2]%Forall_cons]. apply Forall_app. split; [done|]. constructor; [|done]. unfold flags_ok. by rewrite Hb.
Qed.

Lemma access_space s s' map pgd L1 a b L2 T E U : vm_space s map pgd (L1 ++ a :: L2) T E U -> is_free a = false -> is_free b = false ->
  ar_addr b = ar_addr a -> ar_size b = ar_size a -> ar_phys b = ar_phys a -> owns_pages b = owns_pages a ->
  maps s' !! map = maps s !! map -> regions s' map (L1 ++ b :: L2) E -> space (mm s') pgd T (U ∪ list_to_set (held_pages pgd T (L1 ++ a :: L2))) ->
  (forall x, user_page x -> pte (mm s') pgd x = if decide (in_area x a) then area_word b x else pte (mm s) pgd x) ->
  vm_space s' map pgd (L1 ++ b :: L2) T E U /\ (clean s pgd (L1 ++ a :: L2) -> clean s' pgd (L1 ++ b :: L2)).
Proof.
  intros VS Ha Hb E1 E2 E3 E4 Em Rg Sp Hpte. pose proof VS as [_ VL VM VSp VN VA VP VPte].
  assert (area_pages b = area_pages a) as Ep by (unfold VmSpace.area_pages; by rewrite Ha, Hb, E2, E3, E4). assert (held_pages pgd T (L1 ++ b :: L2) = held_pages pgd T (L1 ++ a :: L2)) as Eh.
  { unfold VmSpace.held_pages. by rewrite !bind_app, !bind_cons, Ep. }
  assert (forall c, c ∈ L1 ++ b :: L2 -> c = b \/ c ∈ L1 ++ L2) as Hel by (intros c; rewrite !elem_of_app, elem_of_cons; tauto).
  assert (forall c, c ∈ L1 ++ L2 -> c ∈ L1 ++ a :: L2) as Hin by (intros c; rewrite !elem_of_app, elem_of_cons; tauto).
  assert (a ∈ L1 ++ a :: L2) as HaL by (apply elem_of_app; right; by left). split; [split|]; rewrite ?Eh; try done.
  - by apply (layout_access L1 a b L2).
  - by rewrite Em.
  - intros c [->|Hc]%Hel Hcf; [rewrite E2, E3; by apply VP|]. apply VP; [by apply Hin|done].
  - intros c x [->|Hc]%Hel Hcf Hx Hu; rewrite (Hpte x Hu).
    + unfold in_area in *. rewrite E1, E2 in Hx. by rewrite decide_True.
    + rewrite decide_False by (eapply tiles_others; [apply VL|done|done]). apply VPte; try done. by apply Hin.
  - intros Hcl c x [->|Hc]%Hel Hcf Hx Hu; [congruence|]. rewrite (Hpte x Hu), decide_False by (eapply tiles_others; [apply VL|done|done]). apply (Hcl c); try done. by apply Hin.
Qed.

(** The type of a mapping and the bits of its entries. *)
Definition map_type (flags : Z) : Z := if flag flags REG_WRITE then PG_WRITE else PG_READ.
Lemma map_type_flags flags : map_flags (map_type flags) = Some (if flag flags REG_WRITE then 7 else 5, 7).
Proof. unfold map_type. by destruct (flag flags REG_WRITE). Qed.


(** The flags after vm_attribute(): the same when the access is the same. *)
Definition access_flags (flags attr : Z) : Z :=
  if Bool.eqb (flag flags REG_WRITE) (flag attr VMA_WRITE) then flags
  else if flag attr VMA_WRITE then Z.lor REG_READ REG_WRITE else REG_READ.

Lemma do_attribute_ok s map pgd L T E U addr attr : vm_space s map pgd L T E U -> 0 <= addr < UMEM_MAX -> (forall a, a ∈ L -> ar_addr a = page addr -> unshared a) ->
  exists err s', do_attribute OFFSET map addr attr s = Some (err, s') /\ vm_frame s s' map E U /\ ram s' = ram s /\
    ((err = 0 /\ exists L1 a L2, L = L1 ++ a :: L2 /\ ar_addr a = page addr /\ is_free a = false /\ flag (ar_flags a) REG_MAPPED = false /\
        let b := a <| ar_flags := access_flags (ar_flags a) attr |> in
        vm_space s' map pgd (L1 ++ b :: L2) T E U /\ (clean s pgd L -> clean s' pgd (L1 ++ b :: L2))) \/
     (err = EINVAL /\ s' = s /\ ~ exists a, a ∈ L /\ ar_addr a = page addr /\ is_free a = false /\ flag (ar_flags a) REG_MAPPED = false)).
Proof.
  intros VS Haddr Hun. destruct (find_start OFFSET static HO HOd HU s map pgd L T E U addr VS Haddr) as (Etr&reg&Ef&Hreg). unfold do_attribute. rewrite Etr, Ef. cbn [mbind option_bind]. set (start := page addr) in *.
  destruct Hreg as [(L1&a&L2&p&n&sp&sn&->&Ha&Eadr&->&Hp&Er)|(Hno&Hreg)].
  2: { exists EINVAL, s. split; [|split; [by apply rstep_frame|split; [done|right; split; [done|]; split; [done|]; intros (a&?&?&?&_); apply Hno; by exists a]]].
    destruct Hreg as [->|(Hr&r&Er&Hbad)]; [done|]. rewrite (proj2 (Z.eqb_neq reg 0)) by done. rewrite Er. cbn [mbind option_bind]. by rewrite Hbad. }
  rewrite (proj2 (Z.eqb_neq _ 0)) by done. rewrite Er. cbn [mbind option_bind r_addr r_flags]. change (flag (ar_flags a) REG_FREE) with (is_free a). rewrite Ha. rewrite (proj2 (Z.eqb_eq _ _) Eadr). cbn [negb orb].
  pose proof VS as [Rg VL VM VSp VN VA VP VPte]. assert (a ∈ L1 ++ a :: L2) as HaL by (apply elem_of_app; right; by left). pose proof (Hun a HaL Eadr) as Hsh. unfold unshared in Hsh.
  destruct (flag (ar_flags a) REG_MAPPED) eqn:Hmp.
  { exists EINVAL, s. split; [done|]. split; [by apply rstep_frame|]. split; [done|]. right. split; [done|]. split; [done|]. intros (c&Hc&Ec&Hcf&Hcm). assert (c = a) as ->; [|congruence].
    apply (area_unique (L1 ++ a :: L2)); [done|done|done|congruence]. }
  assert (forall s', s' = s -> access_flags (ar_flags a) attr = ar_flags a -> exists L1' a' L2', L1 ++ a :: L2 = L1' ++ a' :: L2' /\ ar_addr a' = start /\ is_free a' = false /\ flag (ar_flags a') REG_MAPPED = false /\
    vm_space s' map pgd (L1' ++ a' <| ar_flags := access_flags (ar_flags a') attr |> :: L2') T E U /\ (clean s pgd (L1 ++ a :: L2) -> clean s' pgd (L1' ++ a' <| ar_flags := access_flags (ar_flags a') attr |> :: L2'))) as Hsame.
  { intros s' -> Eacc. exists L1, a, L2. rewrite Eacc. assert (a <| ar_flags := ar_flags a |> = a) as -> by (by destruct a). done. }
  rewrite Hsh. set (new := if flag (ar_flags a) REG_WRITE then _ else _). assert ((new = 0 /\ access_flags (ar_flags a) attr = ar_flags a) \/ (new <> 0 /\ access_flags (ar_flags a) attr = new)) as Hnew.
  { unfold new, access_flags. by destruct (flag (ar_flags a) REG_WRITE), (flag attr VMA_WRITE); [left|right|right|left]. }
  destruct Hnew as [[-> Eacc]|[Hn0 Eacc]]; [cbn [Z.eqb]; exists 0, s; split; [done|]; split; [by apply rstep_frame|]; split; [done|]; left; split; [done|]; by apply Hsame|].
  rewrite (proj2 (Z.eqb_neq new 0)) by done. destruct (maps s !! map) as [mp|] eqn:Emp; [|discriminate VM]. injection VM as Epgd. cbn [mbind option_bind r_phys r_size].
  change (if flag new REG_WRITE then PG_WRITE else PG_READ) with (map_type new). unfold vm_mmu_map. rewrite Epgd.
  destruct (remap_area OFFSET static HO HOd HU (mm s) pgd L1 a L2 T U (map_type new) _ (vm_space_backed _ _ _ _ _ _ _ _ _ VS) Ha (map_type_flags new)) as (m'&Em&Sp'&Hfr&Hpte). rewrite Em. cbn [mbind option_bind fst snd].
  cbn [Z.eqb negb]. set (b := a <| ar_flags := new |>). match goal with |- context [wr (ar_ptr a) ?f ?st] => set (f2 := f) end.
  destruct (wr_ok (s <| mm := m' |>) map L1 a b L2 E f2) as (s2&Ew&R2&St2&_); [by apply (regions_ext s)|done|data_only|]. rewrite Ew. cbn [mbind option_bind]. pose proof (st_rest _ _ _ _ St2) as (Em2&Er2&Ec2).
  exists 0, s2. split; [done|]. split; [split; [apply St2|apply St2|intros x Hx; rewrite Em2; by apply Hfr|by rewrite Ec2]|]. split; [by rewrite Er2|]. left. split; [done|]. exists L1, a, L2. split; [done|]. split; [done|]. split; [done|]. split; [done|].
  cbv zeta. rewrite Eacc. fold b. apply (access_space s s2 map pgd L1 a b L2 T E U VS Ha); try done.
  - unfold is_free, b. cbn [ar_flags set]. unfold new. by destruct (flag (ar_flags a) REG_WRITE), (flag attr VMA_WRITE).
  - unfold owns_pages. rewrite Hsh, Hmp. unfold b. cbn [ar_flags set]. unfold new. by destruct (flag (ar_flags a) REG_WRITE), (flag attr VMA_WRITE).
  - rewrite (st_maps _ _ _ _ St2) by (by left). cbn. by rewrite Emp.
  - by rewrite Em2.
  - intros x Hu. rewrite Em2. exact (Hpte x Hu).
Qed.

(** ** vm_map *)

(** The area in the current task for [size] bytes of the area [t] from [start] on. *)
Definition alias (a t : area) (start size : Z) : area :=
  mk_area (ar_ptr a) (ar_addr a) size (Z.lor (ar_flags t) REG_MAPPED) (ar_phys t + (start - ar_addr t)).

Lemma alias_props a t start size : is_free t = false ->
  is_free (alias a t start size) = false /\ area_pages (alias a t start size) = [] /\ forall i, area_word (alias a t start size) (ar_addr a + i) = area_word t (start + i).
Proof.
  intros Ht. unfold is_free, VmSpace.area_pages, owns_pages, area_word. cbn [alias ar_flags ar_phys ar_addr]. rewrite (flag_lor_other _ _ REG_FREE), (flag_lor_other _ _ REG_WRITE), flag_lor_own by done. split; [done|].
  split; [by rewrite andb_false_r, andb_false_r|]. intros i. f_equal. lia.
Qed.

(** The pages of [addr, addr + size). *)
Definition span (addr size : Z) : Z := PAGE_ALIGN (addr + size) - page addr.

Lemma span_ok addr size : 0 <= addr -> 0 < size -> addr + size + PAGE_SIZE < 2 ^ 32 ->
  PAGE_TRUNC addr = page addr /\ 0 <= page addr <= addr /\ aligned (page addr) /\ aligned (span addr size) /\ 0 < span addr size /\ page addr + span addr size < 2 ^ 32 /\
  PAGE_ALIGN (addr + size) = page addr + span addr size /\ addr + size <= page addr + span addr size.
Proof.
  intros H0' Hz Hmax. destruct (PAGE_ALIGN_ok (addr + size)) as [Af Hge]; [lia|unfold PAGE_MASK, PAGE_SIZE in *; lia|]. unfold span. rewrite PAGE_TRUNC_div by (unfold PAGE_SIZE in *; lia).
  unfold page, aligned, PAGE_SIZE in *. Z.div_mod_to_equations. split_and!; (done || lia).
Qed.

Section TwoTasks.
Context (s : vmem K P) (tmap tpgd : Z) (Lt : list area) (Tt Et Ut : gset Z) (map pgd : Z) (L : list area) (T E U : gset Z).
Context (VT : vm_space s tmap tpgd Lt Tt Et Ut) (VS : vm_space s map pgd L T E U).
Context (HE : forall x, x ∈ ptrs Lt -> x ∈ E) (HUt : forall x, x ∈ held_pages tpgd Tt Lt -> x ∈ U).

(** The area [t] of the target contains the range. *)
Definition target (t : area) (start size : Z) : Prop := t ∈ Lt /\ is_free t = false /\ ar_addr t <= start /\ start + size <= ar_addr t + ar_size t.

Lemma find_target start size : 0 <= start -> 0 < size -> start + size < 2 ^ 32 -> exists reg, region_find tmap start size s = Some reg /\
  ((exists t p n sp sn, target t start size /\ reg = ar_ptr t /\ reg <> 0 /\ reg ∈ E /\ regs s !! reg = Some (mk_region p n sp sn (ar_addr t) (ar_size t) (ar_flags t) (ar_phys t))) \/
   ((~ exists t, target t start size) /\ (reg = 0 \/ reg <> 0 /\ exists r, regs s !! reg = Some r /\ flag (r_flags r) REG_FREE = true))).
Proof.
  intros H0' Hz Hmax. pose proof VT as [Rg VL _ _ _ _ _ _]. rewrite (region_find_ok s tmap Lt Et start size Rg). eexists. split; [done|]. destruct (List.find (covers start size) Lt) as [t|] eqn:Ef; cbn [default from_option fmap option_fmap option_map id].
  2: { right. split; [|by left]. intros (t&Ht&_&Hr). apply (covers_range Lt t start size) in Hr; [|done..]. by rewrite (find_none _ _ _ Ef Ht) in Hr. }
  apply find_split in Ef as (L1&L2&EL&Hc&_). assert (t ∈ Lt) as HtL by (rewrite EL; apply elem_of_app; right; by left). apply (covers_range Lt t start size) in Hc as [Hc1 Hc2]; [|done..]. pose proof Rg as Rg'. rewrite EL in Rg', VL.
  assert (ar_ptr t <> 0) as Hp by (by eapply ptr_pos). destruct (regions_lookup _ _ _ _ _ _ Rg') as (p&n&sp&sn&Er). destruct (is_free t) eqn:Ht.
  - right. split; [|right; split; [done|]; eexists; split; [exact Er|exact Ht]]. intros (c&Hc&Hcf&Hr1&Hr2). rewrite EL in Hc. apply elem_of_app in Hc as [Hc|[->|Hc]%elem_of_cons]; [|congruence|];
      (eapply (tiles_others PAGE_SIZE L1 t L2 UMEM_MAX c start); [apply VL|apply elem_of_app; tauto|unfold in_area; lia..]).
  - left. exists t, p, n, sp, sn. split; [done|]. split; [done|]. split; [done|]. split; [|done]. apply HE. rewrite EL. apply ptrs_turn. by left.
Qed.

(** The range is mapped: the new area, taken from the first free one that is large
    enough, has the entries of the range in the target. *)
Definition aliased s' (start size cur : Z) : Prop := exists t L1 a L2 R T', target t start size /\ L = L1 ++ a :: L2 /\ is_free a = true /\ cur = ar_addr a /\
  carved a [] (alias a t start size) R (ar_addr a) size /\ vm_space s' map pgd (L1 ++ ([] ++ alias a t start size :: R) ++ L2) T' E U /\
  (clean s pgd L -> clean s' pgd (L1 ++ ([] ++ alias a t start size :: R) ++ L2)) /\
  forall i, 0 <= i < size -> aligned i -> pte (mm s') pgd (cur + i) = pte (mm s) tpgd (start + i).

(** From the allocation of the region on. *)
Lemma map_target t start sz s1 L1 a L2 R : target t start sz -> L = L1 ++ a :: L2 -> is_free a = true -> 0 <= start -> aligned start -> aligned sz -> 0 < sz -> debug = false ->
  carved a [] (a <| ar_size := sz |>) R (ar_addr a) sz -> rstep s s1 map E -> regions s1 map (L1 ++ (a <| ar_size := sz |> :: R) ++ L2) E ->
  let phys := u32 (ar_phys t + (start - ar_addr t)) in
  exists e m', Mmu.mmu_map OFFSET pgd phys (ar_addr a) sz (map_type (ar_flags t)) (mm s) = Some (e, m') /\
    ((e = 0 /\ exists s', wr (ar_ptr a) (fun r => r <| r_flags := Z.lor (ar_flags t) REG_MAPPED |>) (s1 <| mm := m' |>) ≫= wr (ar_ptr a) (fun r => r <| r_phys := phys |>) = Some s' /\
        vm_frame s s' map E U /\ ram s' = ram s /\ aliased s' start sz (ar_addr a)) \/
     (e <> 0 /\ exists s', region_free debug map (ar_ptr a) (s1 <| mm := m' |>) = Some s' /\ vm_frame s s' map E U /\ ram s' = ram s /\
        VmSpace.half_mapped OFFSET static s s' map pgd L E U (ar_addr a) sz (if flag (ar_flags t) REG_WRITE then 7 else 5))).
Proof.
  intros Ht EL Ha Hst Ast As Hz Hd HC St1 R1. cbv zeta. destruct Ht as (HtL&Htf&Ht1&Ht2) eqn:Htgt. clear Htgt. pose proof VT as [_ VLt _ _ _ _ VPt VPtet].
  destruct (VPt t HtL Htf) as (Apt&Hpt&Hpts). destruct (tiles_aligned _ _ _ t (lo_tiles _ VLt) ltac:(done) HtL) as [Aat Ast']. rewrite u32_small by (unfold PAGE_SIZE in *; lia). set (phys := ar_phys t + (start - ar_addr t)).
  assert (aligned phys) as Aph by (unfold phys, aligned, PAGE_SIZE in *; Z.div_mod_to_equations; lia). assert (0 <= phys /\ phys + sz + PAGE_SIZE <= 2 ^ 32) as [Hph Hphs] by (unfold phys; lia).
  pose proof VS as VS'. rewrite EL in VS'. pose proof VS' as [_ VL VM VSp VN VA VP VPte]. assert (a ∈ L1 ++ a :: L2) as HaL by (apply elem_of_app; right; by left).
  destruct (tiles_range _ _ _ a (lo_tiles _ VL) HaL) as (Hlo&Hs0&Hhi). destruct (tiles_aligned _ _ _ a (lo_tiles _ VL) ltac:(done) HaL) as [Aa Asz].
  assert (sz <= ar_size a) as Hle by (destruct (cv_after _ _ _ _ _ _ HC) as [[_ ?]|(?&_&?)]; lia). pose proof (st_rest _ _ _ _ St1) as (Em1&Er1&Ec1).
  destruct (mmu_map_ok OFFSET static HO HOd (mm s) pgd T _ phys (ar_addr a) sz (map_type (ar_flags t)) _ VSp (map_type_flags _) Aa Aph As) as (e&m'&T'&own'&k&Em&Sp'&->&HT&HTn&Hfr&Hk&_&Hx);
    [unfold PAGE_SIZE in *; lia|done|unfold PAGE_SIZE in *; lia|done|done|left; by destruct (flag _ _)|]. exists e, m'. split; [done|].
  assert (U ⊆ U ∪ list_to_set (held_pages pgd T (L1 ++ a :: L2))) as HUU by apply union_subseteq_l.
  destruct Hk as [[-> ->]|(->&Hk&_)].
  - left. split; [done|]. set (b0 := a <| ar_size := sz |>). set (b1 := b0 <| ar_flags := Z.lor (ar_flags t) REG_MAPPED |>). set (b := alias a t start sz).
    destruct (wr_ok (s1 <| mm := m' |>) map L1 b0 b1 (R ++ L2) E (fun r => r <| r_flags := Z.lor (ar_flags t) REG_MAPPED |>)) as (s2&Ew&R2&St2&_); [by apply (regions_ext s1)|done|data_only|].
    change (ar_ptr b0) with (ar_ptr a) in Ew. rewrite Ew. cbn [mbind option_bind]. destruct (wr_ok s2 map L1 b1 b (R ++ L2) E (fun r => r <| r_phys := phys |>) R2 eq_refl) as (s3&Ew3&R3&St3&_); [data_only|].
    change (ar_ptr b1) with (ar_ptr a) in Ew3. exists s3. split; [done|]. pose proof (rstep_trans _ _ _ _ _ St2 St3) as St23. pose proof (st_rest _ _ _ _ St23) as (Em3&Er3&Ec3). cbn [mm ram cr3 set] in Em3, Er3, Ec3.
    split; [eapply mapping_frame; [exact HO|exact VS'|exact HUU|exact St1|exact Hfr|exact St23]|]. split; [by rewrite Er3|].
    destruct (alias_props a t start sz Htf) as (Hbf&Hbp&Hbw). fold b in Hbf, Hbp, Hbw. assert (carved a [] b R (ar_addr a) sz) as HC' by (destruct HC; by split).
    exists t, L1, a, L2, R, T'. rewrite EL. split; [done|]. split; [done|]. split; [done|]. split; [done|]. split; [done|]. fold b. apply and_assoc. split.
    + apply (carve_space OFFSET static HO s s3 map pgd L1 L2 [] R a b T T' E U (ar_addr a) sz VS' Ha HC' Hbf Aa As Hz HT HTn); rewrite ?Hbp; try done.
      * rewrite (st_maps _ _ _ _ St23) by (by left). cbn. by rewrite (st_maps _ _ _ _ St1) by (by left).
      * by apply NoDup_nil.
      * intros x ?%elem_of_nil. done.
      * by rewrite list_to_set_nil, (left_id_L ∅ (∪)), Em3.
      * intros x Hu. rewrite Em3. destruct (Hx x Hu) as [-> _]. case_decide; [|done]. replace x with (ar_addr a + (x - ar_addr a)) at 2 by lia. rewrite Hbw. unfold area_word, phys. f_equal. lia.
    + intros i Hi Ai. rewrite Em3. assert (user_page (ar_addr a + i)) as Hu by (split; [unfold UMEM_MAX, PAGE_SIZE in *; lia|unfold aligned, PAGE_SIZE in *; Z.div_mod_to_equations; lia]).
      destruct (Hx _ Hu) as [-> _]. rewrite decide_True by lia. rewrite (VPtet t (start + i) HtL Htf); [unfold area_word, phys; f_equal; lia|unfold in_area; lia|].
      destruct (tiles_range _ _ _ t (lo_tiles _ VLt) HtL). split; [unfold UMEM_MAX, PAGE_SIZE in *; lia|unfold aligned, PAGE_SIZE in *; Z.div_mod_to_equations; lia].
  - right. split; [done|]. set (b0 := a <| ar_size := sz |>) in *. destruct (region_free_ok debug (s1 <| mm := m' |>) map L1 b0 (R ++ L2) E) as (s2&Ef&St2&R2); [by apply (regions_ext s1)|by rewrite Hd|].
    change (ar_ptr b0) with (ar_ptr a) in Ef. exists s2. split; [done|]. pose proof (st_rest _ _ _ _ St2) as (Em2&Er2&Ec2).
    split; [eapply mapping_frame; [exact HO|exact VS'|exact HUU|exact St1|exact Hfr|exact St2]|]. split; [by rewrite Er2|].
    destruct (release_carved L1 a L2 [] b0 R (ar_addr a) sz VL Ha HC Hz) as (ph&Erl&Hp1&_). rewrite app_nil_r in Erl. rewrite Erl, Hp1 in R2 by done. change (ar_phys b0) with (ar_phys a) in R2. rewrite area_phys_id in R2.
    rewrite EL. exists T', k, phys. split; [|split; [done|intros x Hu; rewrite Em2; by destruct (Hx x Hu)]].
    destruct (alias_props a t start sz Htf) as (Hbf&_). assert (carved a [] (alias a t start sz) R (ar_addr a) sz) as HC' by (destruct HC; by split).
    eapply (carve_failure OFFSET static HO s s2 map pgd L1 L2 [] R a (alias a t start sz) T T' E U (ar_addr a) sz) with (k := k) (w := fun x => Z.lor (phys + (x - ar_addr a)) (if flag (ar_flags t) REG_WRITE then 7 else 5)); try eassumption.
    + rewrite (st_maps _ _ _ _ St2) by (by left). cbn. by rewrite (st_maps _ _ _ _ St1) by (by left).
    + rewrite Em2. exact Sp'.
    + apply Z.lt_le_incl. exact (proj2 Hk).
    + intros x Hu. rewrite Em2. destruct (Hx x Hu) as [Ex _]. exact Ex.
Qed.

Lemma do_map_ok addr size : debug = false -> 0 <= addr -> 0 < size -> addr + size + PAGE_SIZE < 2 ^ 32 ->
  let start := page addr in let sz := span addr size in
  exists err out s', do_map OFFSET debug tmap map addr size true s = Some (err, out, s') /\ vm_frame s s' map E U /\ ram s' = ram s /\
    ((err = 0 /\ exists cur, out = Some (cur + (addr - start)) /\ aliased s' start sz cur) \/
     (err = EINVAL /\ out = Some 0 /\ s' = s /\ ~ exists t, target t start sz) \/
     (err = ENOMEM /\ out = Some 0 /\
        ((refused OFFSET static s s' map pgd L T E U /\ (List.find (fits sz) L = None \/ kmem_short 1 (kh s))) \/
         exists cur f, VmSpace.half_mapped OFFSET static s s' map pgd L E U cur sz f))).
Proof.
  intros Hd H0' Hz Hmax. cbv zeta. destruct (span_ok addr size H0' Hz Hmax) as (Etr&Hst&Ast&As&Hsz&Hend&Eal&_). unfold do_map. rewrite (proj2 (Z.eqb_neq size 0)) by lia. cbn [negb].
  rewrite (u32_small (addr + size)) by (unfold PAGE_SIZE in *; lia). rewrite Etr, Eal. replace (page addr + span addr size - page addr) with (span addr size) by lia. rewrite (u32_small (span addr size)), (u32_small (addr - page addr)) by (unfold PAGE_SIZE in *; lia).
  set (start := page addr) in *. set (sz := span addr size) in *. destruct (find_target start sz) as (reg&Ef&Hreg); [lia..|]. rewrite Ef. cbn [mbind option_bind].
  destruct Hreg as [(t&p&n&sp&sn&Ht&->&Hp&HpE&Er)|(Hno&Hreg)].
  2: { exists EINVAL, (Some 0), s. split; [|split; [by apply rstep_frame|split; [done|right; left; done]]]. destruct Hreg as [->|(Hr&r&Er&Hbad)]; [done|]. rewrite (proj2 (Z.eqb_neq reg 0)) by done. rewrite Er. cbn [mbind option_bind]. by rewrite Hbad. }
  rewrite (proj2 (Z.eqb_neq (ar_ptr t) 0)) by done. rewrite Er. cbn [mbind option_bind r_flags]. pose proof Ht as (_&Htf&_). change (flag (ar_flags t) REG_FREE) with (is_free t). rewrite Htf.
  pose proof VS as [Rg VL VM _ _ _ _ _]. destruct (region_alloc_ok s map L E sz Rg VL) as (r&s1&->&St1&Hr); [lia|]. cbn [mbind option_bind]. destruct Hr as [(->&R1&Hwhy)|(L1&a&L2&R&EL&Hf&_&->&Hr&HC&R1)].
  { cbn [Z.eqb]. eexists ENOMEM, _, s1. split; [done|]. split; [by apply rstep_frame|]. split; [apply St1|]. right; right. split; [done|]. split; [done|]. left. split; [|done].
    split; [apply St1|]. split; [apply St1|]. by eapply vm_space_rstep. }
  pose proof Hf as [Ha _]%andb_prop. rewrite (proj2 (Z.eqb_neq (ar_ptr a) 0)) by done. rewrite (st_regs _ _ _ _ St1 _ HpE), Er. cbn [mbind option_bind]. set (b0 := a <| ar_size := sz |>) in *.
  destruct (regions_lookup s1 map L1 b0 (R ++ L2) E R1) as (p1&n1&sp1&sn1&Er1). change (ar_ptr b0) with (ar_ptr a) in Er1. rewrite Er1. cbn [mbind option_bind].
  rewrite (st_maps _ _ _ _ St1 map) by (by left). destruct (maps s !! map) as [mp|] eqn:Emp; [|discriminate VM]. injection VM as Epgd. cbn [mbind option_bind r_flags r_phys r_addr].
  destruct (map_target t start sz s1 L1 a L2 R Ht EL Ha) as (e&m'&Em&Ho); [lia|done|done|done|done|done|done|done|]. cbv zeta in Em, Ho. unfold vm_mmu_map. rewrite Epgd. pose proof (st_rest _ _ _ _ St1) as (Em1&_). rewrite Em1.
  change (if flag (ar_flags t) REG_WRITE then PG_WRITE else PG_READ) with (map_type (ar_flags t)). change (ar_addr b0) with (ar_addr a). rewrite Em. cbn [mbind option_bind fst snd].
  destruct Ho as [(->&s'&Ew&Hfr&Hram&Hal)|(He&s'&Ew&Hfr&Hram&Hh)].
  - cbn [Z.eqb negb]. destruct (wr (ar_ptr a) _ _) as [s2|] eqn:E2 in Ew |- *; [|discriminate Ew]. cbn [mbind option_bind] in Ew |- *. rewrite Ew. cbn [mbind option_bind]. eexists _, _, s'. split; [done|]. split; [done|]. split; [done|].
    left. split; [done|]. exists (ar_addr a). split; [|done]. f_equal. apply u32_small.
    assert (a ∈ L) as HaL by (rewrite EL; apply elem_of_app; right; by left). destruct (tiles_range _ _ _ a (lo_tiles _ VL) HaL) as (?&?&?). unfold start, page, UMEM_MAX, PAGE_SIZE in *. Z.div_mod_to_equations. lia.
  - rewrite (proj2 (Z.eqb_neq e 0)) by done. cbn [negb]. rewrite Ew. cbn [mbind option_bind]. eexists _, _, s'. split; [done|]. split; [done|]. split; [done|]. right; right. split; [done|]. split; [done|]. right. by do 2 eexists.
Qed.
End TwoTasks.
End Map.
