(* ===== verification/VmFork.v ===== *)
(** * VmFork: duplicating an address space

    vm_fork() gives the child the layout of the parent: areas that can be
    written get copies of their pages, the others share the parent's pages.
    What the parent sees does not change. *)
From stdpp Require Import base numbers gmap list.
From S2P Require Import Prelude Core Queue Page PageSpec PageSource HeapSource Mmu MmuSpec Vm VmRing VmLayout VmRegions VmSpace VmSpec VmLife VmMap.

Open Scope Z_scope.

Lemma area_word_parts a x : aligned (ar_phys a) -> 0 <= ar_phys a -> ar_phys a + ar_size a + PAGE_SIZE <= 2 ^ 32 -> aligned (ar_addr a) -> in_area x a -> aligned x ->
  Z.land (area_word a x) PTE_ADDRESS = ar_phys a + (x - ar_addr a) /\ present (area_word a x) = true.
Proof.
  intros Ap Hp Hps Aa Hx Ax. unfold in_area in Hx. assert (aligned (ar_phys a + (x - ar_addr a))) as Al by (unfold aligned, PAGE_SIZE in *; Z.div_mod_to_equations; lia).
  unfold area_word. assert (exists f, (if flag (ar_flags a) REG_WRITE then 7 else 5) = f /\ 0 <= f < PAGE_SIZE /\ Z.odd f = true) as (f&->&Hf&Hb) by (destruct (flag _ _); eexists; by split_and!).
  unfold present, PTE_PRESENT. rewrite word_present by done. split; [|done]. apply word_address; [done| |done]. unfold PAGE_SIZE in *. lia.
Qed.

Lemma page_bounds x : page x <= x < page x + PAGE_SIZE /\ aligned (page x).
Proof. unfold page, aligned, PAGE_SIZE. Z.div_mod_to_equations. lia. Qed.

Lemma page_list_elem a size x : aligned a -> aligned size -> a <= x < a + size -> page x ∈ page_list a size.
Proof.
  intros Aa As Hx. apply list_elem_of_fmap. exists ((page x - a) / PAGE_SIZE). rewrite elem_of_seqZ. unfold page, aligned, PAGE_SIZE in *. split; Z.div_mod_to_equations; lia.
Qed.
Lemma page_list_range a size x : aligned size -> x ∈ page_list a size -> a <= x < a + size.
Proof. intros As (i&->&Hi)%list_elem_of_fmap. apply elem_of_seqZ in Hi. unfold aligned, PAGE_SIZE in *. Z.div_mod_to_equations. lia. Qed.

Section View.
Context {P : Type} `{PageSource P} (OFFSET : Z) (static : Z -> Prop) `{!PageSourceLaws P OFFSET static}.
Context {K : Type} `{HeapSource K} `{!HeapSourceLaws K}.
Context (HO : 0 < OFFSET < 2 ^ 32) (HOd : OFFSET mod 2 ^ 22 = 0) (HU : UMEM_MAX <= OFFSET).
Implicit Types (s : vmem K P) (m : mmu P).

Abbreviation vm_space := (VmSpace.vm_space OFFSET static).
Abbreviation held_pages := (VmSpace.held_pages OFFSET).
Abbreviation area_pages := (VmSpace.area_pages OFFSET).
Abbreviation backed := (VmSpace.backed OFFSET static).
Abbreviation space := (MmuSpec.space OFFSET static).
Abbreviation pte := (MmuSpec.pte OFFSET).
Abbreviation user_page := (MmuSpec.user_page OFFSET).

(** The byte that a task sees at an address; [None] is a page fault. *)
Definition ubyte (s : vmem K P) (pgd va : Z) : option Z :=
  pa ← mmu_extract OFFSET pgd va 1 (mm s); if pa =? 0 then None else Some (ram s (phys_to_virt OFFSET pa)).

Lemma all_present_tabs n : forall d pg fin m m', tabs m' = tabs m -> all_present OFFSET n d pg fin m' = all_present OFFSET n d pg fin m.
Proof. induction n as [|n IH]; intros d pg fin m m' E; cbn [all_present]; [done|]. rewrite E. destruct (fin <? pg); [done|]. destruct (negb _); [done|]. destruct (tabs m !! _); [|done]. cbn [mbind option_bind]. by rewrite (IH _ _ _ m m' E). Qed.
Lemma ubyte_tabs s s' pgd x : tabs (mm s') = tabs (mm s) -> ram s' = ram s -> ubyte s' pgd x = ubyte s pgd x.
Proof. intros E Er. unfold ubyte, mmu_extract. rewrite E, Er. destruct (tabs (mm s) !! pgd); [|done]. cbn [mbind option_bind]. by rewrite (all_present_tabs _ _ _ _ (mm s) (mm s') E). Qed.

Lemma page_in_area m pgd L T U a x : backed m pgd L T U -> a ∈ L -> in_area x a -> in_area (page x) a /\ user_page (page x).
Proof.
  intros B Ha Hx. destruct (backed_range OFFSET static _ _ _ _ _ a B Ha) as (?&?&?&Aa&As). destruct (page_bounds x) as [? Al]. unfold in_area, MmuSpec.user_page, aligned, PAGE_SIZE in *.
  Z.div_mod_to_equations. lia.
Qed.

(** The translation of an address of an area in use, and what is there. *)
Lemma extract_area m pgd L T U a x : backed m pgd L T U -> a ∈ L -> is_free a = false -> in_area x a -> mmu_extract OFFSET pgd x 1 m = Some (ar_phys a + (x - ar_addr a)).
Proof.
  intros B Ha Hf Hx. pose proof B as [_ Sp _ _ VP VPte]. destruct (VP a Ha Hf) as (Ap&Hp&Hps). destruct (backed_range OFFSET static _ _ _ _ _ a B Ha) as (Hlo&Hs&Hhi&Aa&As).
  destruct (page_in_area _ _ _ _ _ a x B Ha Hx) as [Hpx Hu]. destruct (page_bounds x) as [Hb Al]. pose proof Hx as Hx'. unfold in_area in Hx'.
  destruct (mmu_extract_ok OFFSET static HO HOd m pgd T _ x 1 Sp) as (r&->&Hr&_); [unfold PAGE_SIZE in *; lia|lia|lia|].
  destruct (area_word_parts a (page x) Ap Hp Hps Aa Hpx Al) as [Ew Epr]. rewrite Hr.
  - rewrite (VPte a (page x) Ha Hf Hpx Hu), Ew. unfold in_area, PAGE_SIZE in *. rewrite u32_small by lia. f_equal. lia.
  - intros y Hy [Hy1 Hy2]. assert (y = page x) as ->; [|by rewrite (VPte a (page x) Ha Hf Hpx Hu)]. destruct Hy as [_ Ay]. unfold aligned, page, PAGE_SIZE in *. Z.div_mod_to_equations. lia.
Qed.

Lemma ubyte_area s pgd L T U a x : backed (mm s) pgd L T U -> a ∈ L -> is_free a = false -> 0 < ar_phys a -> ar_phys a + ar_size a + OFFSET <= 2 ^ 32 -> in_area x a ->
  ubyte s pgd x = Some (ram s (ar_phys a + OFFSET + (x - ar_addr a))).
Proof.
  intros B Ha Hf Hpos Hmax Hx. unfold ubyte. rewrite (extract_area _ _ _ _ _ a x B Ha Hf Hx). cbn [mbind option_bind]. unfold in_area in Hx.
  rewrite (proj2 (Z.eqb_neq _ 0)) by lia. unfold phys_to_virt. rewrite u32_small by lia. do 2 f_equal. lia.
Qed.

(** A free area is taken into use as it is, with pages of its own or none. *)
Lemma backed_fill m p pgd N1 a b N2 T U type : let own := U ∪ list_to_set (held_pages pgd T (N1 ++ a :: N2)) in
  backed m pgd (N1 ++ a :: N2) T U -> is_free a = true -> is_free b = false -> ar_addr b = ar_addr a -> ar_size b = ar_size a ->
  aligned (ar_phys b) -> 0 <= ar_phys b -> ar_phys b + ar_size b + PAGE_SIZE <= 2 ^ 32 -> kp_inv p (list_to_set (area_pages b) ∪ own) -> NoDup (area_pages b) -> (forall x, x ∈ area_pages b -> x ∉ own) ->
  map_flags type = Some (if flag (ar_flags b) REG_WRITE then 7 else 5, 7) ->
  exists e m' T', Mmu.mmu_map OFFSET pgd (ar_phys b) (ar_addr b) (ar_size b) type (m <| upages := p |>) = Some (e, m') /\ (forall x, x ∈ U -> tabs m' !! x = tabs m !! x) /\
    kp_inv (upages m') (list_to_set (area_pages b) ∪ own ∪ T') /\ ((e = 0 /\ backed m' pgd (N1 ++ b :: N2) T' U) \/ e = -1).
Proof.
  intros own B Ha Hb E1 E2 Ap Hp Hps HI HND Hdis Hfl. pose proof B as [(lo&Hlo&Al&Ht) Sp ND Apt VP VPte]. assert (a ∈ N1 ++ a :: N2) as HaN by (apply elem_of_app; right; by left).
  destruct (backed_range OFFSET static _ _ _ _ _ a B HaN) as (?&?&?&Aa&As). destruct (sp_own _ _ _ _ _ _ Sp) as (Hpg&HTo&HpT).
  assert (space (m <| upages := p |>) pgd T (list_to_set (area_pages b) ∪ own)) as Sp1.
  { eapply space_pages; [exact Sp|done|by apply elem_of_union_r|]. intros x Hx. by apply elem_of_union_r, HTo. }
  rewrite E1, E2. destruct (mmu_map_ok OFFSET static HO HOd _ pgd T _ (ar_phys b) (ar_addr a) (ar_size a) type _ Sp1 Hfl Aa Ap As) as (e&m'&T'&own'&k&Em&Sp2&->&HT&HTn&Hfr&Hk&_&Hx);
    [unfold PAGE_SIZE in *; lia|done|lia|done|lia|left; by destruct (flag _ _)|].
  exists e, m', T'. split; [done|]. split.
  { intros x HxU. apply Hfr; [by apply elem_of_union_r, elem_of_union_l|intros ->; apply (Apt pgd); [by left|done]|intros HxT; apply (Apt x); [|done]]. unfold VmSpace.held_pages. rewrite elem_of_cons, elem_of_app, elem_of_elements. tauto. }
  split; [apply Sp2|]. destruct Hk as [[-> ->]|(->&_)]; [left; split; [done|]|by right].
  assert (held_pages pgd T' (N1 ++ b :: N2) ≡ₚ area_pages b ++ held_pages pgd T' (N1 ++ a :: N2)) as Eh by (unfold VmSpace.held_pages; rewrite !held_mid, (free_pages OFFSET a Ha); solve_Permutation).
  destruct (more_tables OFFSET HO pgd T T' (N1 ++ a :: N2) U ND Apt HT) as [ND' Apt'].
  { intros x Hx1 Hx2. assert (x ∉ own) as Hn by (intros Hin; apply (HTn x); [by apply elem_of_difference|by apply elem_of_union_r]). apply not_elem_of_union in Hn as [? Hn]. by rewrite elem_of_list_to_set in Hn. }
  split.
  - exists lo. split_and!; try done. change (b :: N2) with ([b] ++ N2). eapply tiles_replace; [exact Ht|]. rewrite <- E1, <- E2. apply tiles_one; [lia|by rewrite E2].
  - assert (list_to_set (area_pages b) ∪ own ∪ T' = U ∪ list_to_set (held_pages pgd T' (N1 ++ b :: N2))) as <-; [|done].
    rewrite (list_to_set_perm_L _ _ Eh), list_to_set_app_L. unfold own. rewrite !(held_set OFFSET). apply set_eq. intros x. rewrite !elem_of_union.
    split; [intros [[?|[?|[[?|?%HT]|?]]]|?]|intros [?|[?|[[?|?]|?]]]]; tauto.
  - rewrite Eh. apply NoDup_app. split; [done|]. split; [|done]. intros x Hx1 Hx2. destruct (decide (x ∈ held_pages pgd T (N1 ++ a :: N2))) as [Hin|Hnin]; [apply (Hdis x Hx1), elem_of_union_r; by rewrite elem_of_list_to_set|].
    apply (HTn x); [|by apply elem_of_union_l, elem_of_list_to_set]. unfold VmSpace.held_pages in Hx2, Hnin. rewrite elem_of_cons, elem_of_app, elem_of_elements in Hx2, Hnin. apply elem_of_difference. tauto.
  - intros x Hx'. rewrite Eh in Hx'. apply elem_of_app in Hx' as [Hx'|Hx']; [|by apply Apt']. intros HxU. by apply (Hdis x), elem_of_union_l.
  - intros c [Hc|[->|Hc]%elem_of_cons]%elem_of_app Hcf; [|by split_and!|]; (apply VP; [rewrite elem_of_app, elem_of_cons; tauto|done]).
  - intros c x Hc Hcf Hxc Hu. destruct (Hx x Hu) as [-> _]. assert (c = b \/ c ∈ N1 ++ N2) as Hc' by (rewrite elem_of_app, elem_of_cons in Hc; rewrite elem_of_app; tauto). destruct Hc' as [->|Hc'].
    + unfold in_area in Hxc. rewrite E1, E2 in Hxc. rewrite decide_True by done. unfold area_word. by rewrite E1.
    + rewrite decide_False by (eapply (tiles_others lo N1 a N2 UMEM_MAX c x); done). apply VPte; try done. rewrite elem_of_app, elem_of_cons. apply elem_of_app in Hc'. tauto.
Qed.
End View.

(** Areas that no other address space shares or maps. *)
Definition forkable (a : area) : Prop := is_free a = false -> flag (ar_flags a) REG_SHARED = false /\ flag (ar_flags a) REG_MAPPED = false.
Definition copied (a : area) : bool := is_free a || flag (ar_flags a) REG_WRITE.
Definition child_flags (a : area) : Z := if copied a then ar_flags a else Z.lor (ar_flags a) REG_SHARED.
Definition vacant (a : area) : area := a <| ar_flags := REG_FREE |>.

(** The parent's area afterwards. *)
Definition share (a : area) : area := a <| ar_flags := child_flags a |>.

Lemma vacant_tiles lo M hi : tiles lo M hi -> tiles lo (vacant <$> M) hi.
Proof. revert lo. induction M as [|a M IH]; intros lo; [done|]. cbn. intros (?&?&?&?). split_and!; try done. by apply IH. Qed.

(** An area with the place and the flags of the child's. *)
Definition like (a n : area) : Prop := ar_addr n = ar_addr a /\ ar_size n = ar_size a /\ ar_flags n = child_flags a.

Lemma like_free a n : like a n -> is_free n = is_free a.
Proof. intros (_&_&E'). unfold is_free. rewrite E'. unfold child_flags. destruct (copied a); [done|]. by rewrite flag_lor_other. Qed.
Lemma like_write a n : like a n -> flag (ar_flags n) REG_WRITE = flag (ar_flags a) REG_WRITE.
Proof. intros (_&_&E'). rewrite E'. unfold child_flags. destruct (copied a); [done|]. by rewrite flag_lor_other. Qed.

Lemma like_layout M N : Forall2 like M N -> layout_ok M -> layout_ok N.
Proof.
  intros HM [Ht Hc Hf]. split.
  - generalize dependent PAGE_SIZE. clear Hc Hf. induction HM as [|a n M N (E1&E2&_) _ IH]; intros lo; [done|]. cbn. rewrite E1, E2. intros (?&?&?&?). split_and!; try done. by apply IH.
  - clear Ht Hf. induction HM as [|a n M N Ha HM IH]; [done|]. destruct Hc as [H1 H2]. split; [|by apply IH]. destruct HM as [|b m M N Hb _]; [done|]. by rewrite (like_free _ _ Ha), (like_free _ _ Hb).
  - clear Ht Hc. induction HM as [|a n M N Ha HM IH]; [constructor|]. apply Forall_cons in Hf as [Hfa Hf]. constructor; [|by apply IH]. unfold flags_ok in *. rewrite (like_free _ _ Ha). intros Hfr.
    destruct Ha as (_&_&->). unfold child_flags, copied. rewrite Hfr. by apply Hfa.
Qed.

Lemma share_like (M : list area) : Forall2 like M (share <$> M).
Proof. induction M as [|a M IH]; [constructor|]. by constructor. Qed.
Lemma share_ptrs (M : list area) : ptrs (share <$> M) = ptrs M.
Proof. by rewrite <- list_fmap_compose. Qed.
Lemma share_lst p (M : list area) : lst p (share <$> M) = lst p M.
Proof. revert p. induction M as [|a M IH]; intros p; [done|]. apply IH. Qed.
Lemma share_nxt (M : list area) f : nxt (share <$> M) f = nxt M f.
Proof. by destruct M. Qed.

(** *** Linking shared areas *)
Section Link.
Context {K P : Type} `{HeapSource K} `{PageSource P}.
Implicit Types s : vmem K P.

Lemma link_one_ok s src dest r d : regs s !! src = Some r -> regs s !! dest = Some d -> src <> dest -> r_sh_next r = src ->
  exists rs, link_one dest src s = Some (s <| regs := rs |>) /\
    rs !! src = Some (r <| r_flags := Z.lor (r_flags r) REG_SHARED |> <| r_sh_prev := dest |> <| r_sh_next := dest |>) /\
    rs !! dest = Some (d <| r_sh_prev := src |> <| r_sh_next := src |>) /\ forall x, x <> src -> x <> dest -> rs !! x = regs s !! x.
Proof.
  intros Er Ed Hne Hsn. assert (dest <> src) as Hne' by congruence. unfold link_one, wr. rewrite Er. cbn [mbind option_bind regs set]. rewrite lookup_insert_ne, Ed by done. cbn [mbind option_bind regs set].
  rewrite (lookup_insert_ne _ dest src), lookup_insert_eq by done. cbn [mbind option_bind regs set r_sh_next]. rewrite lookup_insert_eq. cbn [mbind option_bind regs set].
  rewrite !(lookup_insert_ne _ dest src), lookup_insert_eq by done. cbn [mbind option_bind regs set r_sh_next]. rewrite Hsn, !(lookup_insert_ne _ dest src), lookup_insert_eq by done. cbn [mbind option_bind regs set].
  rewrite lookup_insert_eq. cbn [mbind option_bind regs set]. eexists. split; [done|]. split_and!.
  - rewrite lookup_insert_eq. done.
  - rewrite !lookup_insert_ne, lookup_insert_eq by done. done.
  - intros x Hx1 Hx2. by rewrite !lookup_insert_ne by done.
Qed.

(** The flags of a child's area, and an area with no link to others. *)
Definition twin (rs : gmap Z region) (a n : area) : Prop :=
  ar_flags n = child_flags a /\ (copied a = true -> flag (ar_flags a) REG_SHARED = false) /\ (copied a = false -> r_sh_next <$> rs !! ar_ptr a = Some (ar_ptr a)).

(** An area that is shared and its copy are each other's only neighbour on the
    list of shared regions. *)
Definition paired (rs : gmap Z region) (a n : area) : Prop := copied a = false -> exists r d,
  rs !! ar_ptr a = Some r /\ r_sh_prev r = ar_ptr n /\ r_sh_next r = ar_ptr n /\ rs !! ar_ptr n = Some d /\ r_sh_prev d = ar_ptr a /\ r_sh_next d = ar_ptr a.

Lemma link_loop A : forall B n s pa pb org new, Forall2 (twin (regs s)) A B -> chain (regs s) pa A org -> chain (regs s) pb B new -> NoDup (ptrs A ++ ptrs B) -> org ∉ tail (ptrs A) -> A <> [] -> (length A <= n)%nat ->
  exists rs, link_shared n org (nxt B new) (nxt A org) s = Some (s <| regs := rs |>) /\ chain rs pa (share <$> A) org /\ chain rs pb B new /\ Forall2 (paired rs) A B /\ forall x, x ∉ ptrs A -> x ∉ ptrs B -> rs !! x = regs s !! x.
Proof.
  induction A as [|a A IH]; intros B n s pa pb org new HT HA HB ND Ho Hne Hn; [done|]. destruct n as [|n]; [cbn in Hn; lia|]. destruct B as [|b B]; [by inversion HT|]. apply Forall2_cons in HT as [(Hfl&Hun&Hlo) HT].
  destruct HA as [(sp&sn&Ea) HA], HB as [(sp'&sn'&Eb) HB]. cbn [link_shared nxt]. rewrite Eb. cbn [mbind option_bind r_flags]. cbn [fmap list_fmap app] in ND.
  assert (ar_ptr a <> ar_ptr b /\ ar_ptr a ∉ ptrs A /\ ar_ptr a ∉ ptrs B /\ ar_ptr b ∉ ptrs A /\ ar_ptr b ∉ ptrs B /\ NoDup (ptrs A ++ ptrs B)) as (Hab&HaA&HaB&HbA&HbB&ND').
  { apply NoDup_cons in ND as [Hna ND]. rewrite elem_of_app, elem_of_cons in Hna. rewrite <- Permutation_middle in ND. apply NoDup_cons in ND as [Hnb ND]. rewrite elem_of_app in Hnb. split_and!; try done; tauto. }
  assert (exists rs1, (if flag (ar_flags b) REG_SHARED then link_one (ar_ptr b) (ar_ptr a) s else Some s) = Some (s <| regs := rs1 |>) /\
    node_at rs1 pa (share a) (nxt A org) /\ node_at rs1 pb b (nxt B new) /\ paired rs1 a b /\ forall x, x <> ar_ptr a -> x <> ar_ptr b -> rs1 !! x = regs s !! x) as (rs1&E1&(xa&ya&Na)&(xb&yb&Nb)&Hpr&Hx1).
  { rewrite Hfl. unfold share, child_flags. destruct (copied a) eqn:Ec.
    - rewrite Hun by done. exists (regs s). split; [by destruct s|]. split; [exists sp, sn; exact Ea|]. split; [by exists sp', sn'|]. split; [unfold paired; congruence|done].
    - rewrite flag_lor_own by done. destruct (link_one_ok s (ar_ptr a) (ar_ptr b) _ _ Ea Eb Hab) as (rs1&E1&N1&N2&Hx); [specialize (Hlo eq_refl); rewrite Ea in Hlo; by injection Hlo|].
      exists rs1. split; [done|]. split; [do 2 eexists; exact N1|]. split; [do 2 eexists; exact N2|]. split; [|done]. intros _. do 2 eexists. by split_and!. }
  rewrite E1. cbn [mbind option_bind regs set]. change (ar_ptr (share a)) with (ar_ptr a) in Na. change (regs (s <| regs := rs1 |>)) with rs1. rewrite Nb, Na. cbn [mbind option_bind r_next].
  assert (forall x, x ∈ ptrs A \/ x ∈ ptrs B -> rs1 !! x = regs s !! x) as Hx2 by (intros x Hx; apply Hx1; intros ->; tauto).
  destruct A as [|a2 A]; cbn [nxt].
  - apply Forall2_nil_inv_l in HT as ->. rewrite Z.eqb_refl. exists rs1. split; [done|]. split; [split; [by exists xa, ya|done]|]. split; [split; [by exists xb, yb|done]|]. split; [by constructor|]. intros x [Hxa _]%not_elem_of_cons [Hxb _]%not_elem_of_cons. by apply Hx1.
  - cbn [tail fmap list_fmap] in Ho. apply not_elem_of_cons in Ho as [Ho1 Ho]. rewrite (proj2 (Z.eqb_neq _ _)) by congruence.
    destruct (IH B n (s <| regs := rs1 |>) (ar_ptr a) (ar_ptr b) org new) as (rs&Er&CA&CB&HPs&Hx).
    + apply Forall2_same_length_lookup in HT as [Hlen HT]. apply Forall2_same_length_lookup. split; [done|]. intros i c d Hc Hd. destruct (HT i c d Hc Hd) as (?&?&Hs). split; [done|]. split; [done|]. intros Hcp.
      change (regs (s <| regs := rs1 |>)) with rs1. rewrite Hx2 by (left; apply list_elem_of_fmap_2; by eapply list_elem_of_lookup_2). by apply Hs.
    + eapply chain_frame; [|exact HA]. intros x Hx. apply Hx2. by left.
    + eapply chain_frame; [|exact HB]. intros x Hx. apply Hx2. by right.
    + done.
    + done.
    + done.
    + cbn in Hn |- *. lia.
    + exists rs. split; [exact Er|]. split; [|split; [|split]].
      * split; [|exact CA]. exists xa, ya. cbn [ar_ptr share set]. rewrite Hx by done. exact Na.
      * split; [|exact CB]. exists xb, yb. rewrite Hx by done. exact Nb.
      * constructor; [|exact HPs]. unfold paired. by rewrite !Hx.
      * intros x Hxa Hxb. apply not_elem_of_cons in Hxa as [? ?], Hxb as [? ?]. rewrite Hx by done. by apply Hx1.
Qed.
End Link.

Section Fork.
Context {P : Type} `{PageSource P} (OFFSET : Z) (static : Z -> Prop) `{!PageSourceLaws P OFFSET static}.
Context {K : Type} `{HeapSource K} `{!HeapSourceLaws K}.
Context (HO : 0 < OFFSET < 2 ^ 32) (HOd : OFFSET mod 2 ^ 22 = 0) (HU : UMEM_MAX <= OFFSET).
Context (s0 : vmem K P) (org pgd : Z) (L : list area) (T E U : gset Z) (new npgd : Z).
Context (VS : VmSpace.vm_space OFFSET static s0 org pgd L T E U) (HF : Forall forkable L).
Implicit Types (s : vmem K P) (m : mmu P).

Abbreviation vm_space := (VmSpace.vm_space OFFSET static).
Abbreviation held_pages := (VmSpace.held_pages OFFSET).
Abbreviation area_pages := (VmSpace.area_pages OFFSET).
Abbreviation backed := (VmSpace.backed OFFSET static).
Abbreviation user_page := (MmuSpec.user_page OFFSET).
(** The memory of the parent and the others. *)
Abbreviation EL := (E ∪ list_to_set (ptrs L)).
Abbreviation UL := (U ∪ list_to_set (held_pages pgd T L)).

(** An area of the child and the parent's. *)
Record child_area (s : vmem K P) (a n : area) : Prop := {
  ca_addr : ar_addr n = ar_addr a;
  ca_size : ar_size n = ar_size a;
  ca_flags : ar_flags n = child_flags a;
  ca_phys : copied a = false -> ar_phys n = ar_phys a;
  ca_bytes : is_free a = false -> 0 < ar_phys n /\ ar_phys n + ar_size n + OFFSET <= 2 ^ 32 /\ forall i, 0 <= i < ar_size a -> ram s (ar_phys n + OFFSET + i) = ram s0 (ar_phys a + OFFSET + i);
}.

Lemma child_ram s s' a n : ram s' = ram s -> child_area s a n -> child_area s' a n.
Proof. intros Er [? ? ? ? Hb]. split; try done. intros Hf. rewrite Er. by apply Hb. Qed.

(** The parent is as before. *)
Record parted (s : vmem K P) : Prop := {
  pt_regs : forall x, x ∈ EL -> maps s !! x = maps s0 !! x /\ regs s !! x = regs s0 !! x;
  pt_tabs : forall x, x ∈ UL -> tabs (mm s) !! x = tabs (mm s0) !! x;
  pt_ram : forall x, page x ∈ UL -> ram s x = ram s0 x;
  pt_heap : exists EE, EL ⊆ EE /\ hs_inv (kh s) EE;
  pt_pages : exists UU, UL ⊆ UU /\ kp_inv (upages (mm s)) UU;
  pt_cr3 : cr3 s = cr3 s0;
}.

(** The loop: [L1] is done, [L2] is left; the child's areas are [N], and its ring
    of regions is [M]. *)
Record forking (s : vmem K P) (L1 L2 N M : list area) (T' : gset Z) : Prop := {
  fk_parted : parted s;
  fk_map : v_pgd <$> maps s !! new = Some npgd;
  fk_regions : regions s new M EL;
  fk_backed : backed (mm s) npgd (N ++ (vacant <$> L2)) T' UL;
  fk_child : Forall2 (child_area s) L1 N;
}.

Lemma busy_pages a : a ∈ L -> is_free a = false -> area_pages a = page_list (ar_phys a + OFFSET) (ar_size a).
Proof.
  intros Ha Hf. unfold VmSpace.area_pages, owns_pages. destruct (proj1 (Forall_forall _ _) HF a Ha Hf) as [-> ->]. by rewrite Hf.
Qed.

(** The bytes of an area in use lie on pages of the parent. *)
Lemma busy_range a : a ∈ L -> is_free a = false -> aligned (ar_phys a + OFFSET) /\ aligned (ar_size a) /\ 0 < ar_size a /\ 0 < ar_phys a /\ ar_phys a + ar_size a + OFFSET <= 2 ^ 32 /\
  forall x, ar_phys a + OFFSET <= x < ar_phys a + OFFSET + ar_size a -> page x ∈ UL.
Proof.
  intros Ha Hf. pose proof VS as [_ VL _ Sp _ _ VP _]. destruct (VP a Ha Hf) as (Ap&Hp&_). destruct (tiles_range _ _ _ a (lo_tiles _ VL) Ha) as (_&Hs&_). destruct (tiles_aligned _ _ _ a (lo_tiles _ VL) ltac:(done) Ha) as [_ As].
  pose proof (OFFSET_aligned OFFSET HOd) as HOa. assert (aligned (ar_phys a + OFFSET)) as Al by (unfold aligned, PAGE_SIZE in *; Z.div_mod_to_equations; lia).
  assert (forall x, ar_phys a + OFFSET <= x < ar_phys a + OFFSET + ar_size a -> page x ∈ UL) as Hpg.
  { intros x Hx. apply elem_of_union_r, elem_of_list_to_set. unfold VmSpace.held_pages. rewrite elem_of_cons, elem_of_app, list_elem_of_bind. right; right. exists a. split; [|done]. rewrite busy_pages by done. by apply page_list_elem. }
  destruct (kp_page _ _ _ (sp_inv _ _ _ _ _ _ Sp) (Hpg (ar_phys a + OFFSET) ltac:(lia))) as (_&H1&_). destruct (kp_page _ _ _ (sp_inv _ _ _ _ _ _ Sp) (Hpg (ar_phys a + OFFSET + ar_size a - 1) ltac:(lia))) as (_&_&H2&_).
  destruct (page_bounds (ar_phys a + OFFSET)), (page_bounds (ar_phys a + OFFSET + ar_size a - 1)). split_and!; try done; unfold aligned, page, PAGE_SIZE in *; Z.div_mod_to_equations; lia.
Qed.

(** What does not touch the pages of the parent and of the child's areas. *)
Lemma child_kept s s' N M T' L1 L2 : Forall2 (child_area s) L1 N -> backed (mm s) npgd (N ++ M) T' UL -> L = L1 ++ L2 ->
  (forall x, page x ∈ UL \/ page x ∈ held_pages npgd T' (N ++ M) -> ram s' x = ram s x) -> Forall2 (child_area s') L1 N.
Proof.
  intros HC B EL' Hr. apply Forall2_same_length_lookup in HC as [Hlen HC]. apply Forall2_same_length_lookup. split; [done|]. intros i a n Ha Hn.
  destruct (HC i a n Ha Hn) as [H1 H2 H3 H4 H5]. split; try done. intros Hf. destruct (H5 Hf) as (Hp&Hmax&Hb). split; [done|]. split; [done|]. intros j Hj. rewrite <- Hb by done. apply Hr.
  assert (a ∈ L) as HaL by (rewrite EL'; apply elem_of_app; left; by eapply list_elem_of_lookup_2). assert (n ∈ N ++ M) as HnN by (apply elem_of_app; left; by eapply list_elem_of_lookup_2).
  destruct (busy_range a HaL Hf) as (_&_&_&_&_&Hpg). destruct (copied a) eqn:Ec; [right|left; rewrite (H4 eq_refl); apply Hpg; lia].
  unfold VmSpace.held_pages. rewrite elem_of_cons, elem_of_app, list_elem_of_bind. right; right. exists n. split; [|done].
  assert (is_free n = false) as Hnf by (unfold is_free; rewrite H3; unfold child_flags; by rewrite Ec).
  destruct (bk_phys _ _ _ _ _ _ _ B n HnN Hnf) as (Ap&_). destruct (backed_range OFFSET static _ _ _ _ _ n B HnN) as (_&_&_&_&As). pose proof (OFFSET_aligned OFFSET HOd) as HOa.
  unfold VmSpace.area_pages, owns_pages. rewrite Hnf, H3. unfold child_flags. rewrite Ec. destruct (proj1 (Forall_forall _ _) HF a HaL Hf) as [-> ->]. cbn [negb andb].
  apply page_list_elem; [unfold aligned, PAGE_SIZE in *; Z.div_mod_to_equations; lia|done|lia].
Qed.

Lemma parted_rstep s s' : parted s -> rstep s s' new EL -> (exists EE, EL ⊆ EE /\ hs_inv (kh s') EE) -> parted s'.
Proof.
  intros [P1 P2 P3 P4 P5 P6] [(Em&Er&Ec) M R] HH. split; [|by rewrite Em|by rewrite Er|done|by rewrite Em|congruence].
  intros x Hx. rewrite (M x (or_intror Hx)), (R x Hx). by apply P1.
Qed.
Lemma regions_heap s M : regions s new M EL -> exists EE, EL ⊆ EE /\ hs_inv (kh s) EE.
Proof. intros R. eexists. split; [|apply R]. intros x Hx. by apply elem_of_union_l. Qed.

(** The parent's structures can be read where they are. *)
Lemma parent_node s L1 a L2 : parted s -> L = L1 ++ a :: L2 -> exists p sp sn, regs s !! ar_ptr a = Some (mk_region p (nxt L2 org) sp sn (ar_addr a) (ar_size a) (ar_flags a) (ar_phys a)).
Proof.
  intros HP EL'. pose proof VS as [[_ _ _ HR Hh] _ _ _ _ _ _ _]. destruct (pt_regs _ HP (ar_ptr a)) as [_ ->]; [apply elem_of_union_r, elem_of_list_to_set; rewrite EL', fmap_app; apply elem_of_app; right; by left|].
  assert (nxt L 0 = org) as En by (destruct L; [done|by injection Hh]). unfold ring in HR. rewrite En, EL', chain_app in HR. destruct HR as [_ [(sp&sn&Er) _]]. by eexists _, sp, sn.
Qed.

(** *** The pages of one area *)

Lemma backed_free m pg N1 a b N2 T' W : backed m pg (N1 ++ a :: N2) T' W -> is_free a = true -> is_free b = true -> ar_addr b = ar_addr a -> ar_size b = ar_size a -> backed m pg (N1 ++ b :: N2) T' W.
Proof.
  intros [(lo&Hlo&Al&Ht) Sp ND Ap Ph Pt] Ha Hb E1 E2. assert (held_pages pg T' (N1 ++ b :: N2) ≡ₚ held_pages pg T' (N1 ++ a :: N2)) as Eh by (unfold VmSpace.held_pages; by rewrite !held_mid, !free_pages).
  split.
  - exists lo. split_and!; try done. change (b :: N2) with ([b] ++ N2). eapply tiles_replace; [exact Ht|]. destruct (tiles_range _ _ _ a Ht) as (_&Hs&_); [apply elem_of_app; right; by left|].
    destruct (tiles_aligned _ _ _ a Ht Al) as [_ As]; [apply elem_of_app; right; by left|]. rewrite <- E1, <- E2. apply tiles_one; by rewrite E2.
  - by rewrite (list_to_set_perm_L _ _ Eh).
  - by rewrite Eh.
  - intros x Hx. rewrite Eh in Hx. by apply Ap.
  - intros c [Hc|[->|Hc]%elem_of_cons]%elem_of_app Hf; [|congruence|]; (apply Ph; [rewrite elem_of_app, elem_of_cons; tauto|done]).
  - intros c x [Hc|[->|Hc]%elem_of_cons]%elem_of_app Hf; [|congruence|]; (apply Pt; [rewrite elem_of_app, elem_of_cons; tauto|done]).
Qed.

Lemma vacant_split N a L2 : N ++ (vacant <$> a :: L2) = N ++ vacant a :: (vacant <$> L2).
Proof. done. Qed.
Lemma snoc_split {A} (N : list A) b M : (N ++ [b]) ++ M = N ++ b :: M.
Proof. by rewrite <- app_assoc. Qed.

(** The area [a] of the parent, and what the child gets for it. *)
Section Area.
Context (L1 L2 N : list area) (a : area) (d : Z) (T' : gset Z) (HL : L = L1 ++ a :: L2).
Abbreviation own := (UL ∪ list_to_set (held_pages npgd T' (N ++ vacant a :: (vacant <$> L2)))).

Lemma area_in : a ∈ L.
Proof. rewrite HL. apply elem_of_app; right; by left. Qed.

(** The last step: the child's region is [b], and its pages are there. *)
Lemma fork_map_ok s m b p type : parted s -> v_pgd <$> maps s !! new = Some npgd -> regions s new (N ++ [b]) EL -> Forall2 (child_area s) L1 N ->
  backed m npgd (N ++ vacant a :: (vacant <$> L2)) T' UL -> mm s = m <| upages := p |> -> kp_inv p (list_to_set (area_pages b) ∪ own) -> NoDup (area_pages b) -> (forall x, x ∈ area_pages b -> x ∉ own) ->
  is_free a = false -> child_area s a b -> aligned (ar_phys b) -> ar_phys b + ar_size b + PAGE_SIZE <= 2 ^ 32 -> map_flags type = Some (if flag (ar_flags b) REG_WRITE then 7 else 5, 7) ->
  exists e s' T2, vm_mmu_map OFFSET npgd (ar_phys b) (ar_addr b) (ar_size b) type s = Some (e, s') /\ parted s' /\
    (e = 0 -> forking s' (L1 ++ [a]) L2 (N ++ [b]) (N ++ [b]) T2).
Proof.
  intros HP Hm R HC B Ep HI HND Hdis Hf Hca Ap Hps Hty. destruct (ca_bytes _ _ _ Hca Hf) as (Hpos&_&_). assert (is_free b = false) as Hbf.
  { unfold is_free. rewrite (ca_flags _ _ _ Hca). unfold child_flags. destruct (copied a); [done|]. by rewrite flag_lor_other. }
  destruct (backed_fill OFFSET static HO HOd HU m p npgd N (vacant a) b (vacant <$> L2) T' UL type B) as (e&m'&T2&Em&Ht&HI'&Ho); try done; [apply Hca|apply Hca|lia|].
  unfold vm_mmu_map. rewrite Ep, Em. cbn [mbind option_bind fst snd]. exists e, (s <| mm := m' |>), T2. split; [done|].
  assert (parted (s <| mm := m' |>)) as HP'.
  { destruct HP as [P1 P2 P3 P4 P5 P6]. split; cbn [maps regs mm ram kh cr3 set]; try done; [intros x Hx; rewrite Ht by done; rewrite Ep in P2; by apply P2|]. eexists. split; [|exact HI']. intros x Hx. by apply elem_of_union_l, elem_of_union_r, elem_of_union_l. }
  split; [done|]. intros ->. destruct Ho as [[_ B']|?]; [|done]. split; try done; cbn [mm set].
  - by apply (regions_ext s).
  - by rewrite snoc_split.
  - apply Forall2_app; [|constructor; [by apply (child_ram s)|constructor]]. eapply Forall2_impl; [exact HC|]. intros c n. by apply child_ram.
Qed.

Lemma fork_free s : forking s L1 (a :: L2) N (N ++ [a <| ar_ptr := d |>]) T' -> is_free a = true -> let a' := a <| ar_ptr := d |> in forking s (L1 ++ [a]) L2 (N ++ [a']) (N ++ [a']) T'.
Proof.
  intros [HP Hm R B HC] Hf a'. split; try done.
  - rewrite snoc_split. by eapply backed_free.
  - apply Forall2_app; [done|]. constructor; [|constructor]. unfold a'. split; cbn [ar_addr ar_size ar_flags ar_phys set]; try done; [|congruence]. unfold child_flags, copied. by rewrite Hf.
Qed.

Lemma fork_pages_ok s : forking s L1 (a :: L2) N (N ++ [a <| ar_ptr := d |>]) T' -> flags_ok a ->
  exists ok s', fork_pages OFFSET npgd (ar_ptr a) d s = Some (ok, s') /\ parted s' /\
    (ok = true -> exists b T2, ar_ptr b = d /\ forking s' (L1 ++ [a]) L2 (N ++ [b]) (N ++ [b]) T2).
Proof.
  intros F Hfl. pose proof F as [HP Hm R B HC]. set (a' := a <| ar_ptr := d |>) in *. destruct (parent_node s L1 a L2 HP HL) as (p&sp&sn&Er). unfold fork_pages. rewrite Er. cbn [mbind option_bind r_flags r_size r_phys]. rewrite vacant_split in B.
  destruct (is_free a) eqn:Hf.
  { rewrite (Hfl Hf), Z.eqb_refl. exists true, s. split; [done|]. split; [done|]. intros _. exists a', T'. split; [done|]. by apply fork_free. }
  pose proof area_in as HaL. destruct (busy_range a HaL Hf) as (Aap&As&Hs&Hpos&Hmax&Hpg). destruct (proj1 (Forall_forall _ _) HF a HaL Hf) as [Hsh Hmp]. pose proof VS as [_ VL _ _ _ _ VP _]. destruct (VP a HaL Hf) as (Ap&_&Hps).
  assert (ar_flags a =? REG_FREE = false) as -> by (apply Z.eqb_neq; intros E0; unfold is_free in Hf; by rewrite E0 in Hf). rewrite Hmp. cbn [negb]. rewrite andb_true_r.
  destruct (flag (ar_flags a) REG_WRITE) eqn:Hw; cbn [negb mbind option_bind].
  - (* copied *)
    destruct (regions_lookup _ _ _ _ _ _ R) as (p1&n1&sp1&sn1&Er1). change (ar_ptr a') with d in Er1. rewrite Er1. cbn [mbind option_bind r_flags]. change (ar_flags a') with (ar_flags a). rewrite Hsh. cbn [negb].
    assert (copied a = true) as Hcp by (unfold copied; by rewrite Hw, orb_true_r).
    destruct (tiles_range _ _ _ a (lo_tiles _ VL) HaL) as (_&_&Hhi). unfold UMEM_MAX in Hhi.
    unfold vm_page_alloc. destruct (kp_alloc_ok (upages (mm s)) own (ar_size a) (sp_inv _ _ _ _ _ _ (bk_space _ _ _ _ _ _ _ B)) Hs) as (r&p'&Ek&Hr); [unfold PAGE_MASK, PAGE_SIZE in *; lia|]. rewrite PAGE_ALIGN_page_id in Hr by (unfold PAGE_SIZE in *; done || lia).
    rewrite Ek. cbn [mbind option_bind fst snd]. match goal with |- context [wr d _ ?st] => set (s1 := st) end.
    set (b := a' <| ar_phys := r |>). destruct (wr_ok s1 new N a' b [] EL (fun r' => r' <| r_phys := r |>)) as (s2&Ew&R2&St2&_); [by apply (regions_ext s)|done|data_only|]. change (ar_ptr a') with d in Ew. rewrite Ew. cbn [mbind option_bind].
    assert (parted s1) as HP1. { destruct HP as [P1 P2 P3 P4 P5 P6]. split; try done. cbn [mm upages s1 set]. destruct Hr as [[_ ->]|(_&_&HI')]; [done|]. eexists. split; [|exact HI']. intros x Hx. by apply elem_of_union_r, elem_of_union_l. }
    pose proof (parted_rstep _ _ HP1 St2 (regions_heap _ _ R2)) as HP2. pose proof (st_rest _ _ _ _ St2) as (Em2&Er2&_).
    destruct Hr as [[-> ->]|(Hr0&Hdis&HI')]; [exists false, s2; by split_and!|]. rewrite (proj2 (Z.eqb_neq r 0)) by done. destruct (new_pages OFFSET static HO HOd p' own r (ar_size a) HI' As Hs) as (Ar&Hrp&Hrs&Hro).
    assert (area_pages b = page_list (r + OFFSET) (ar_size a)) as Eb. { unfold VmSpace.area_pages, owns_pages, is_free. change (ar_flags b) with (ar_flags a). unfold is_free in Hf. by rewrite Hf, Hsh, Hmp. }
    set (s3 := memcpy _ _ _ s2). cbn [mbind option_bind negb]. pose proof (OFFSET_aligned OFFSET HOd) as HOa. assert (aligned (r + OFFSET)) as Aro by (unfold aligned, PAGE_SIZE in *; Z.div_mod_to_equations; lia).
    assert (forall x, ram s3 x = if decide (r + OFFSET <= x < r + OFFSET + ar_size a) then ram s (ar_phys a + OFFSET + (x - (r + OFFSET))) else ram s x) as Hram.
    { intros x. cbn [ram s3 memcpy set]. unfold phys_to_virt. rewrite !u32_small by lia. rewrite Er2. cbn [ram s1 set]. case_decide; [by rewrite (proj2 (Z.leb_le _ _)), (proj2 (Z.ltb_lt _ _)) by lia|].
      destruct (Z.leb_spec (r + OFFSET) x); [|done]. by destruct (Z.ltb_spec x (r + OFFSET + ar_size a)); [lia|]. }
    assert (forall x, r + OFFSET <= x < r + OFFSET + ar_size a -> page x ∉ own) as Hnew.
    { intros x Hx Hin. apply (Hdis (page x)); [|done]. rewrite <- page_list_pages. apply elem_of_list_to_set. by apply page_list_elem. }
    assert (forall x, page x ∈ own -> ram s3 x = ram s x) as Hold by (intros x Hx; rewrite Hram, decide_False; [done|intros Hin; by apply (Hnew x)]).
    assert (parted s3) as HP3. { destruct HP2 as [P1 P2 P3 P4 P5 P6]. split; try done. intros x Hx. rewrite Hold by (by apply elem_of_union_l). by apply HP. }
    assert (regions s3 new (N ++ [b]) EL) as R3 by (by apply (regions_ext s2)). destruct (regions_lookup _ _ _ _ _ _ R3) as (p3&n3&sp3&sn3&Er3). change (ar_ptr b) with d in Er3. rewrite Er3. cbn [mbind option_bind r_flags r_phys r_addr r_size].
    change (flag (ar_flags b) REG_WRITE) with (flag (ar_flags a) REG_WRITE). rewrite Hw.
    destruct (fork_map_ok s3 (mm s) b p' PG_WRITE HP3) as (e&s4&T2&Em&HP4&Hok).
    + cbn [maps s3 memcpy set]. rewrite (st_maps _ _ _ _ St2 new) by (by left). exact Hm.
    + done.
    + eapply (child_kept s); [exact HC|exact B|exact HL|]. intros x [Hx|Hx]; apply Hold; [by apply elem_of_union_l|apply elem_of_union_r; by apply elem_of_list_to_set].
    + done.
    + cbn [mm s3 memcpy set]. by rewrite Em2.
    + by rewrite Eb, page_list_pages.
    + rewrite Eb. apply page_list_NoDup.
    + rewrite Eb. intros x Hx. rewrite <- page_list_pages in Hdis. intros Hin. apply (Hdis x); [by apply elem_of_list_to_set|done].
    + done.
    + split; cbn [ar_addr ar_size ar_flags ar_phys b a' set]; [done|done|unfold child_flags; by rewrite Hcp|congruence|]. intros _. split; [done|]. split; [lia|]. intros i Hi. rewrite Hram, decide_True by lia.
      rewrite (pt_ram _ HP); [f_equal; lia|]. apply Hpg. lia.
    + done.
    + done.
    + cbn [ar_flags b a' set]. by rewrite Hw.
    + rewrite Em. cbn [mbind option_bind]. exists (e =? 0), s4. split; [done|]. split; [done|]. intros E0%Z.eqb_eq. exists b, T2. split; [done|]. by apply Hok.
  - (* shared *)
    set (b := a' <| ar_flags := Z.lor (ar_flags a) REG_SHARED |>). assert (copied a = false) as Hcp by (unfold copied; by rewrite Hw, Hf).
    destruct (wr_ok s new N a' b [] EL (fun r => r <| r_flags ::= fun f => Z.lor f REG_SHARED |>) R eq_refl) as (s1&Ew&R1&St1&_); [data_only|]. change (ar_ptr a') with d in Ew. rewrite Ew. cbn [mbind option_bind].
    destruct (regions_lookup _ _ _ _ _ _ R1) as (p1&n1&sp1&sn1&Er1). change (ar_ptr b) with d in Er1. rewrite Er1. cbn [mbind option_bind r_flags r_phys r_addr r_size].
    assert (flag (ar_flags b) REG_SHARED = true) as Hbs by (by apply flag_lor_own). assert (flag (ar_flags b) REG_WRITE = false) as Hbw by (cbn [ar_flags b set]; by rewrite flag_lor_other). rewrite Hbs. cbn [negb mbind option_bind]. rewrite Er1. cbn [mbind option_bind r_flags r_phys r_addr r_size]. rewrite Hbw.
    assert (area_pages b = []) as Eb by (unfold VmSpace.area_pages, owns_pages; by rewrite Hbs, andb_false_r).
    pose proof (st_rest _ _ _ _ St1) as (Em1&Er1'&_).
    destruct (fork_map_ok s1 (mm s) b (upages (mm s)) PG_READ (parted_rstep _ _ HP St1 (regions_heap _ _ R1))) as (e&s4&T2&Em&HP4&Hok).
    + rewrite (st_maps _ _ _ _ St1 new) by (by left). exact Hm.
    + done.
    + eapply Forall2_impl; [exact HC|]. intros c n. by apply child_ram.
    + done.
    + rewrite Em1. by destruct (mm s).
    + rewrite Eb. cbn [list_to_set]. rewrite (left_id_L ∅ (∪)). exact (sp_inv _ _ _ _ _ _ (bk_space _ _ _ _ _ _ _ B)).
    + rewrite Eb. constructor.
    + rewrite Eb. by intros x ?%elem_of_nil.
    + done.
    + split; cbn [ar_addr ar_size ar_flags ar_phys b a' set]; [done|done|unfold child_flags; by rewrite Hcp|done|]. intros _. split; [done|]. split; [done|]. intros i Hi. rewrite Er1'. apply (pt_ram _ HP), Hpg. lia.
    + done.
    + done.
    + by rewrite Hbw.
    + rewrite Em. cbn [mbind option_bind]. exists (e =? 0), s4. split; [done|]. split; [done|]. intros E0%Z.eqb_eq. exists b, T2. split; [done|]. by apply Hok.
Qed.

End Area.

(** *** The structure of one region *)
Lemma forking_rstep s s' L1 L2 N M M' T' : forking s L1 L2 N M T' -> rstep s s' new EL -> regions s' new M' EL -> forking s' L1 L2 N M' T'.
Proof.
  intros [HP Hm R B HC] St R'. pose proof (st_rest _ _ _ _ St) as (Em&Er&_). split; [by eapply parted_rstep, regions_heap|rewrite (st_maps _ _ _ _ St new) by (by left); done|done|by rewrite Em|].
  eapply Forall2_impl; [exact HC|]. intros c n. by apply child_ram.
Qed.

Lemma fork_node_ok s L1 a L2 N T' : forking s L1 (a :: L2) N N T' -> N <> [] -> L = L1 ++ a :: L2 -> ar_ptr a <> org ->
  exists d s', fork_node org (lst 0 N) (ar_ptr a) s = Some (d, s') /\ parted s' /\ (d <> 0 -> forking s' L1 (a :: L2) N (N ++ [a <| ar_ptr := d |>]) T').
Proof.
  intros F Hne HL Hao. pose proof F as [HP Hm R B HC]. destruct N as [|c N _] using rev_ind; [done|]. clear Hne. rewrite lst_app. cbn [lst]. unfold fork_node, vm_kmem_alloc. rewrite (proj2 (Z.eqb_neq _ _)) by done.
  destruct (hs_alloc_ok _ _ SIZEOF_REGION (rg_heap _ _ _ _ R)) as (d&k&Ek&Hd); [done|]. rewrite Ek. cbn [mbind option_bind fst snd].
  destruct Hd as [[-> Hk]|(Hd0&Hni&Hk)].
  { exists 0, (s <| kh := k |>). split; [done|]. split; [|done]. apply (parted_rstep s); [done|done|]. eexists. split; [|exact Hk]. intros x Hx. by apply elem_of_union_l. }
  rewrite (proj2 (Z.eqb_neq _ _)) by done. destruct (parent_node s L1 a L2 HP HL) as (p&sp&sn&Er). change (regs (s <| kh := k |>)) with (regs s). rewrite Er. cbn [mbind option_bind].
  set (b := a <| ar_ptr := d |>). destruct (insert_ok s new N c [] EL b sp sn k R Hk Hni) as (t&s'&Et&Ew&St&_&R'). rewrite Et. cbn [mbind option_bind].
  match goal with |- context [wr (r_next t) ?f (?s1 <| regs ::= <[d := ?r]> |>)] => change r with (mk_region (ar_ptr c) (r_next t) sp sn (ar_addr b) (ar_size b) (ar_flags b) (ar_phys b)) end. change (ar_ptr b) with d in Ew.
  destruct (wr (r_next t) _ _) as [s2|] eqn:E1 in Ew |- *; [|discriminate Ew]. cbn [mbind option_bind] in Ew |- *. rewrite Ew. cbn [mbind option_bind].
  exists d, s'. split; [done|]. split; [by eapply parted_rstep, regions_heap|]. intros _. eapply forking_rstep; [exact F|exact St|]. by rewrite snoc_split.
Qed.

(** *** The loop *)
Lemma fork_done n tmp s1 s L1 a L2 N d T' : L = L1 ++ a :: L2 -> fork_node org tmp (ar_ptr a) s1 = Some (d, s) -> d <> 0 -> forking s L1 (a :: L2) N (N ++ [a <| ar_ptr := d |>]) T' ->
  (forall b M s N' T'', L2 = b :: M -> forking s (L1 ++ [a]) L2 N' N' T'' -> N' <> [] -> exists ok s', fork_regions OFFSET n org npgd (lst 0 N') (ar_ptr b) s = Some (ok, s') /\ parted s' /\
     (ok = true -> exists N' T', forking s' L [] N' N' T')) ->
  exists ok s', fork_regions OFFSET (S n) org npgd tmp (ar_ptr a) s1 = Some (ok, s') /\ parted s' /\ (ok = true -> exists N' T', forking s' L [] N' N' T').
Proof.
  intros HL En Hd F IH. cbn [fork_regions]. unfold fork_region. rewrite En. cbn [mbind option_bind]. rewrite (proj2 (Z.eqb_neq d 0)) by done. pose proof VS as [[_ _ ND _ Hh] VL _ _ _ _ _ _].
  destruct (fork_pages_ok L1 L2 N a d T' HL s F) as (ok&s2&->&HP2&Hok); [apply (proj1 (Forall_forall _ _) (lo_flags _ VL)); rewrite HL; apply elem_of_app; right; by left|]. cbn [mbind option_bind].
  destruct ok; [|exists false, s2; by split_and!]. destruct (Hok eq_refl) as (b&T2&Eb&F2). destruct (parent_node s2 L1 a L2 HP2 HL) as (p&sp&sn&Er). rewrite Er. cbn [mbind option_bind r_next].
  destruct L2 as [|c M]; cbn [nxt].
  - rewrite Z.eqb_refl. exists true, s2. split; [done|]. split; [done|]. intros _. exists (N ++ [b]), T2. by rewrite <- HL in F2.
  - rewrite (proj2 (Z.eqb_neq _ _)).
    + replace d with (lst 0 (N ++ [b])) by (by rewrite lst_app). apply (IH c M s2 (N ++ [b]) T2 eq_refl F2). by destruct N.
    + intros Ec. rewrite HL in Hh, ND. destruct L1 as [|e L1]; cbn in Hh, ND; injection Hh as Hh; apply NoDup_cons in ND as [Hni _]; apply Hni; rewrite Hh, <- Ec; [by left|].
      rewrite fmap_app. apply elem_of_app; right. right; by left.
Qed.

Lemma fork_loop L2 : forall n L1 a N s T', L = L1 ++ a :: L2 -> forking s L1 (a :: L2) N N T' -> N <> [] -> (length L2 < n)%nat ->
  exists ok s', fork_regions OFFSET n org npgd (lst 0 N) (ar_ptr a) s = Some (ok, s') /\ parted s' /\ (ok = true -> exists N' T', forking s' L [] N' N' T').
Proof.
  induction L2 as [|b M IH]; intros n L1 a N s T' HL F Hne Hn; (destruct n as [|n]; [lia|]).
  all: assert (ar_ptr a <> org) as Hao by (pose proof VS as [[_ _ ND _ Hh] _ _ _ _ _ _ _]; pose proof (Forall2_length _ _ _ (fk_child _ _ _ _ _ _ F)) as Hlen; destruct L1 as [|e L1]; [by destruct N|];
    intros Ea; rewrite HL in Hh, ND; cbn in Hh, ND; injection Hh as Hh; apply NoDup_cons in ND as [Hni _]; apply Hni; rewrite Hh, <- Ea, fmap_app; apply elem_of_app; right; by left).
  all: destruct (fork_node_ok s L1 a _ N T' F Hne HL Hao) as (d&s1&En&HP1&HF1).
  all: destruct (decide (d = 0)) as [->|Hd]; [exists false, s1; split; [|by split]; cbn [fork_regions]; unfold fork_region; by rewrite En|].
  all: eapply fork_done; [exact HL|exact En|done|by apply HF1|]; intros c M' s2 N' T2 Ec F2 Hne'; try discriminate Ec.
  injection Ec as <- <-. apply (IH n (L1 ++ [a]) b N' s2 T2); [by rewrite snoc_split|done|done|cbn in Hn; lia].
Qed.

(** *** The first region *)
Lemma vacant_held M : held_pages npgd ∅ (vacant <$> M) = [npgd].
Proof. unfold VmSpace.held_pages. rewrite elements_empty. f_equal. induction M as [|a M IH]; [done|]. cbn. exact IH. Qed.

Lemma fork_start s1 h M : vm_space s1 new npgd (blank new) ∅ EL UL -> (forall x, x ∈ EL -> maps s1 !! x = maps s0 !! x /\ regs s1 !! x = regs s0 !! x) ->
  (forall x, x ∈ UL -> tabs (mm s1) !! x = tabs (mm s0) !! x) -> ram s1 = ram s0 -> cr3 s1 = cr3 s0 -> L = h :: M -> new ∉ EL ->
  exists r, regs s1 !! org = Some r /\ r_next r = nxt M org /\ ar_ptr h = org /\
    forking (s1 <| regs ::= <[new := r <| r_next := new |> <| r_prev := new |>]> |>) [] L [] [h <| ar_ptr := new |>] ∅.
Proof.
  intros V1 HE HT Er Ec HL Hn. pose proof V1 as [R1 _ Hm Sp1 _ _ _ _]. pose proof VS as [[_ _ _ HR Hh] VL _ _ _ _ _ _].
  assert (parted s1) as HP. { split; [done|done|by rewrite Er| | |done]; eexists; (split; [|first [apply R1|apply Sp1]]); intros x Hx; by apply elem_of_union_l. }
  destruct (parent_node s1 [] h M HP HL) as (p&sp&sn&Eh). assert (ar_ptr h = org) as Eho by (rewrite HL in Hh; by injection Hh). rewrite Eho in Eh. eexists. split; [exact Eh|]. split; [done|]. split; [done|].
  match goal with |- forking ?st _ _ _ _ _ => set (s2 := st) end. split.
  - destruct HP as [P1 P2 P3 P4 P5 P6]. split; try done. intros x Hx. cbn [maps regs s2 set]. rewrite lookup_insert_ne by (intros <-; done). by apply P1.
  - done.
  - split; cbn [kh regs s2 set].
    + apply R1.
    + intros x ->%list_elem_of_singleton. done.
    + apply NoDup_singleton.
    + split; [|done]. exists sp, sn. by rewrite lookup_insert_eq.
    + done.
  - cbn [app]. rewrite blank_held in Sp1. split; rewrite ?vacant_held.
    + exists PAGE_SIZE. split; [done|]. split; [done|]. apply vacant_tiles, VL.
    + done.
    + apply NoDup_singleton.
    + intros x ->%list_elem_of_singleton. by apply (va_apart _ _ _ _ _ _ _ _ _ V1); rewrite blank_held; left.
    + intros c (d&->&_)%list_elem_of_fmap. done.
    + intros c x (d&->&_)%list_elem_of_fmap. done.
  - constructor.
Qed.

Lemma child_like s M N : Forall2 (child_area s) M N -> Forall2 like M N.
Proof. intros HM. eapply Forall2_impl; [exact HM|]. intros a n [? ? ? _ _]. by split_and!. Qed.

(** The parent's pages that are shared belong to both. *)
Lemma share_area_pages a : sublist (area_pages (share a)) (area_pages a).
Proof.
  unfold VmSpace.area_pages, owns_pages. rewrite (like_free a (share a)) by done. destruct (is_free a) eqn:Hf; cbn [negb andb]; [constructor|].
  cbn [ar_flags share set]. unfold child_flags. destruct (copied a); [reflexivity|]. rewrite flag_lor_own by done. apply sublist_nil_l.
Qed.
Lemma share_held M : sublist (held_pages pgd T (share <$> M)) (held_pages pgd T M).
Proof.
  unfold VmSpace.held_pages. apply sublist_skip, sublist_app; [done|]. induction M as [|a M IH]; [constructor|]. rewrite fmap_cons, !bind_cons. apply sublist_app; [apply share_area_pages|exact IH].
Qed.

Lemma vm_share s s' W X : vm_space s org pgd L T W X -> mm s' = mm s -> maps s' = maps s -> kh s' = kh s -> ring (regs s') (share <$> L) ->
  exists X', vm_space s' org pgd (share <$> L) T W X'.
Proof.
  intros [[HH Hap ND HR Hh] VL VM Sp VN VA VP VPte] Em Emp Ek HR'. exists ((X ∪ list_to_set (held_pages pgd T L)) ∖ list_to_set (held_pages pgd T (share <$> L))).
  assert (forall x, x ∈ held_pages pgd T (share <$> L) -> x ∈ held_pages pgd T L) as Hsub by (intros x Hx; eapply elem_of_sublist; [exact Hx|apply share_held]).
  assert (forall a', a' ∈ share <$> L -> exists a, a ∈ L /\ a' = share a /\ is_free a' = is_free a) as Hel by (intros a' (a&->&Ha)%list_elem_of_fmap; exists a; split_and!; try done; by apply like_free).
  split; [split|..]; rewrite ?share_ptrs, ?Em, ?Emp, ?Ek; try done.
  - by eapply like_layout; [apply share_like|].
  - replace (_ ∪ list_to_set (held_pages pgd T (share <$> L))) with (X ∪ list_to_set (held_pages pgd T L)); [done|]. apply set_eq. intros x. rewrite !elem_of_union, elem_of_difference, elem_of_union, !elem_of_list_to_set.
    split; [|intros [[? _]|?%Hsub]; tauto]. intros Hx. destruct (decide (x ∈ held_pages pgd T (share <$> L))); tauto.
  - by eapply sublist_NoDup; [|apply share_held].
  - intros x Hx [_ Hn]%elem_of_difference. by rewrite elem_of_list_to_set in Hn.
  - intros a' Ha' Hf. destruct (Hel a' Ha') as (a&Ha&->&Ef). rewrite Ef in Hf. exact (VP a Ha Hf).
  - intros a' x Ha' Hf Hx Hu. destruct (Hel a' Ha') as (a&Ha&->&Ef). rewrite Ef in Hf. rewrite (VPte a x Ha Hf Hx Hu). unfold area_word. by rewrite (like_write a (share a)).
Qed.

(** *** The two address spaces *)
Lemma parted_space s : parted s -> exists E' U', vm_space s org pgd L T E' U'.
Proof.
  intros [P1 P2 _ (EE&HE&HH) (UU&HU'&HP) _]. do 2 eexists. apply (vm_survives OFFSET static HO HOd s0 s EE UU org pgd L T E U HH HP VS).
  - intros x Hx. assert (x ∈ EL) as HxE by (apply elem_of_union_r; by apply elem_of_list_to_set). split; [by apply HE|by apply P1].
  - intros x Hx. assert (x ∈ UL) as HxU by (apply elem_of_union_r; by apply elem_of_list_to_set). split; [by apply HU'|by apply P2].
Qed.

(** What is seen at an address of an area of the parent. *)
Lemma origin_view a x : a ∈ L -> is_free a = false -> in_area x a -> ubyte OFFSET s0 pgd x = Some (ram s0 (ar_phys a + OFFSET + (x - ar_addr a))).
Proof. intros Ha Hf Hx. destruct (busy_range a Ha Hf) as (_&_&_&Hp&Hm&_). eapply ubyte_area; [done..| |done|done|done|done|done]. by eapply vm_space_backed. Qed.

Lemma parent_view s M W a a' x : parted s -> backed (mm s) pgd M T W -> a ∈ L -> is_free a = false -> a' ∈ M -> is_free a' = false -> ar_addr a' = ar_addr a -> ar_size a' = ar_size a -> ar_phys a' = ar_phys a ->
  in_area x a -> ubyte OFFSET s pgd x = ubyte OFFSET s0 pgd x.
Proof.
  intros HP B Ha Hf Ha' Hf' E1 E2 E3 Hx. destruct (busy_range a Ha Hf) as (_&_&_&Hp&Hm&Hpg). rewrite (origin_view a x Ha Hf Hx).
  rewrite (ubyte_area OFFSET static HO HOd HU s pgd M T W a' x B Ha' Hf'); [|lia|lia|unfold in_area in *; lia]. rewrite E1, E3. f_equal. apply (pt_ram _ HP), Hpg. unfold in_area in Hx. lia.
Qed.

Lemma child_space s N T' rs : forking s L [] N N T' -> ring rs N -> vm_space (s <| regs := rs |>) new npgd N T' EL UL.
Proof.
  intros [_ Hm [HH Hap ND _ Hh] B HC] HR. cbn [fmap list_fmap] in B. rewrite app_nil_r in B. destruct B as [_ Sp VN VA VP VPte]. split; try done.
  eapply like_layout; [by eapply child_like|apply VS].
Qed.

Lemma child_view s N T' rs a x : forking s L [] N N T' -> ring rs N -> a ∈ L -> is_free a = false -> in_area x a -> ubyte OFFSET (s <| regs := rs |>) npgd x = ubyte OFFSET s0 pgd x.
Proof.
  intros F HR Ha Hf Hx. rewrite (origin_view a x Ha Hf Hx). pose proof (vm_space_backed _ _ _ _ _ _ _ _ _ (child_space s N T' rs F HR)) as B. pose proof (fk_child _ _ _ _ _ _ F) as HC.
  apply list_elem_of_lookup in Ha as (i&Hi). apply Forall2_same_length_lookup in HC as [Hlen HC]. destruct (lookup_lt_is_Some_2 N i) as (n&Hn); [rewrite <- Hlen; by eapply lookup_lt_Some|].
  pose proof (HC i a n Hi Hn) as Hca. destruct (ca_bytes _ _ _ Hca Hf) as (Hp&Hm&Hb). pose proof (ca_addr _ _ _ Hca) as E1. pose proof (ca_size _ _ _ Hca) as E2.
  rewrite (ubyte_area OFFSET static HO HOd HU _ npgd N T' UL n x B); [..|unfold in_area in *; lia]; [|by eapply list_elem_of_lookup_2|rewrite (like_free a n); [done|destruct Hca; by split_and!]|done|done].
  f_equal. rewrite E1. apply Hb. unfold in_area in Hx. lia.
Qed.

(** Both are there, and see what the parent saw. *)
Record forked (s : vmem K P) (N : list area) (T' : gset Z) : Prop := {
  fd_parent : exists E' U', vm_space s org pgd (share <$> L) T E' U';
  fd_child : vm_space s new npgd N T' EL UL;
  fd_like : Forall2 like L N;
  fd_paired : Forall2 (paired (regs s)) L N;
  fd_view : forall a x, a ∈ L -> is_free a = false -> in_area x a -> ubyte OFFSET s npgd x = ubyte OFFSET s0 pgd x /\ ubyte OFFSET s pgd x = ubyte OFFSET s0 pgd x;
}.

Lemma fork_finish s N T' rs : forking s L [] N N T' -> ring rs N -> ring rs (share <$> L) -> Forall2 (paired rs) L N -> forked (s <| regs := rs |>) N T'.
Proof.
  intros F HN HL Hpr. pose proof (fk_parted _ _ _ _ _ _ F) as HP. destruct (parted_space s HP) as (E'&U'&V). set (s' := s <| regs := rs |>). destruct (vm_share s s' E' U' V eq_refl eq_refl eq_refl HL) as (X&V'). split.
  - by exists E', X.
  - by apply child_space.
  - by eapply child_like, F.
  - done.
  - intros a x Ha Hf Hx. split; [by eapply child_view|]. transitivity (ubyte OFFSET s pgd x); [done|].
    eapply (parent_view s L U' a a x HP); [|done..]. by eapply vm_space_backed.
Qed.

(** Read-only areas of the parent that were never shared are on lists of their own. *)
Definition lonely : Prop := forall a, a ∈ L -> copied a = false -> r_sh_next <$> regs s0 !! ar_ptr a = Some (ar_ptr a).

Lemma fork_linked s N T' : forking s L [] N N T' -> lonely -> L <> [] -> exists rs, link_shared (S (size (regs s))) org new org s = Some (s <| regs := rs |>) /\ ring rs N /\ ring rs (share <$> L) /\ Forall2 (paired rs) L N.
Proof.
  intros F Hlo Hne. pose proof F as [HP _ [_ Hap NDn HRn Hhn] _ HC]. pose proof VS as [[_ _ ND HR Hh] VL _ _ _ _ _ _]. destruct HP as [P1 _ _ _ _ _].
  assert (forall x, x ∈ ptrs L -> x ∈ EL) as HLE by (intros x Hx; apply elem_of_union_r; by apply elem_of_list_to_set).
  assert (ring (regs s) L) as HRs by (eapply ring_frame; [|exact HR]; intros x Hx; by apply P1, HLE).
  assert (nxt L 0 = org /\ org ∉ tail (ptrs L) /\ nxt L org = org) as (En&Hot&Eno). { destruct L as [|h M]; [done|]. injection Hh as <-. split; [done|]. split; [|done]. by apply NoDup_cons in ND as [? _]. }
  assert (nxt N 0 = new /\ nxt N new = new) as [Enn Enn'] by (destruct N as [|h M]; [done|]; by injection Hhn as <-).
  destruct (link_loop L N (S (size (regs s))) s (lst 0 L) (lst 0 N) org new) as (rs&El&CL&CN&HPs&_).
  - apply Forall2_same_length_lookup in HC as [Hlen HC]. apply Forall2_same_length_lookup. split; [done|]. intros i a n Hi Hn. pose proof (HC i a n Hi Hn) as Hca. assert (a ∈ L) as Ha by (by eapply list_elem_of_lookup_2).
    split; [apply Hca|]. split.
    + intros Hcp. destruct (is_free a) eqn:Hf; [|by apply (proj1 (Forall_forall _ _) HF)]. by rewrite (proj1 (Forall_forall _ _) (lo_flags _ VL) a Ha Hf).
    + intros Hcp. destruct (P1 (ar_ptr a)) as [_ ->]; [apply HLE; by apply list_elem_of_fmap_2|]. by apply Hlo.
  - unfold ring in HRs. by rewrite En in HRs.
  - unfold ring in HRn. by rewrite Enn in HRn.
  - apply NoDup_app. split; [done|]. split; [|done]. intros x Hx HxN. apply (Hap x HxN). by apply HLE.
  - done.
  - done.
  - pose proof (mapped_size (regs s) (ptrs L) ND (fun x => ring_mapped (regs s) _ x HRs)) as Hs. rewrite length_fmap in Hs. lia.
  - exists rs. rewrite Enn', Eno in El. split; [done|]. unfold ring. rewrite share_lst, share_nxt, En, Enn. done.
Qed.

Lemma share_free a : is_free a = true -> share a = a.
Proof. intros Hf. unfold share, child_flags, copied. rewrite Hf. by destruct a. Qed.

Lemma fork_copy_ok s1 : vm_space s1 new npgd (blank new) ∅ EL UL -> (forall x, x ∈ EL -> maps s1 !! x = maps s0 !! x /\ regs s1 !! x = regs s0 !! x) ->
  (forall x, x ∈ UL -> tabs (mm s1) !! x = tabs (mm s0) !! x) -> ram s1 = ram s0 -> cr3 s1 = cr3 s0 -> new <> 0 -> new ∉ EL -> Exists (fun a => is_free a = true) L -> lonely ->
  exists r s', fork_copy OFFSET new org s1 = Some (r, s') /\ ((r = 0 /\ parted s') \/ (r = new /\ exists N T', forked s' N T')).
Proof.
  intros V1 HE HT Er1 Ec1 Hn0 HnE Hex Hlo. pose proof VS as [[HH Hap ND HR Hh] VL _ Sp _ _ _ _]. assert (exists h M, L = h :: M) as (h&M&HL) by (destruct L; [done|by do 2 eexists]).
  destruct (fork_start s1 h M V1 HE HT Er1 Ec1 HL HnE) as (r&Eo&En&Eho&F). unfold fork_copy. rewrite Eo. cbn [mbind option_bind].
  match type of F with forking ?st _ _ _ _ _ => set (s2 := st) in * end. pose proof (fk_parted _ _ _ _ _ _ F) as HP2. rewrite En. destruct M as [|m M]; cbn [nxt].
  - rewrite Z.eqb_refl. exists new, s2. split; [done|]. right. split; [done|]. exists [h <| ar_ptr := new |>], ∅.
    assert (is_free h = true) as Hfh by (rewrite HL in Hex; inversion Hex as [? ? Hx|? ? Hx]; [done|inversion Hx]).
    rewrite HL in F. pose proof (fork_free [] [] [] h new ∅ s2 F Hfh) as F'. cbn [app] in F'. rewrite <- HL in F'. assert (s2 = s2 <| regs := regs s2 |>) as -> by (by destruct s2). apply fork_finish; [done|apply F'| |rewrite HL; constructor; [unfold paired, copied; by rewrite Hfh|constructor]].
    assert (share <$> L = L) as -> by (rewrite HL; cbn [fmap list_fmap]; by rewrite share_free). eapply ring_frame; [|exact HR]. intros x Hx. apply (pt_regs _ HP2). apply elem_of_union_r. by apply elem_of_list_to_set.
  - rewrite (proj2 (Z.eqb_neq org (ar_ptr m))).
    2: { intros E0. rewrite HL in ND. apply NoDup_cons in ND as [Hni _]. apply Hni. rewrite Eho, E0. by left. }
    pose proof (fk_map _ _ _ _ _ _ F) as Hm. destruct (maps s2 !! new) as [vm|]; [|discriminate Hm]. injection Hm as Hm. cbn [mbind option_bind]. rewrite Hm.
    assert (length L <= size (regs s2))%nat as Hsz.
    { assert (ring (regs s2) L) as HR2. { eapply ring_frame; [|exact HR]. intros x Hx. apply (pt_regs _ HP2). apply elem_of_union_r. by apply elem_of_list_to_set. }
      pose proof (mapped_size (regs s2) (ptrs L) ND (fun x => ring_mapped (regs s2) _ x HR2)) as Hs. by rewrite length_fmap in Hs. }
    destruct (fork_done (size (regs s2)) new s2 s2 [] h (m :: M) [] new ∅ HL) as (ok&s3&Ef&HP3&Hok).
    + unfold fork_node. by rewrite Eho, Z.eqb_refl.
    + done.
    + cbn [app]. by rewrite <- HL.
    + intros b M' s3 N' T'' Eb F3 Hne. injection Eb as <- <-. apply (fork_loop M (size (regs s2)) [h] m N' s3 T''); [done|done|done|]. rewrite HL in Hsz. cbn [length] in Hsz. lia.
    + rewrite Eho in Ef. rewrite Ef. cbn [mbind option_bind]. destruct ok; cbn [negb]; [|exists 0, s3; split; [done|by left]].
      destruct (Hok eq_refl) as (N&T'&F3). destruct (fork_linked s3 N T' F3 Hlo) as (rs&->&HN&HLs&HPs); [by rewrite HL|]. cbn [mbind option_bind]. eexists _, _. split; [done|]. right. split; [done|].
      exists N, T'. by apply fork_finish.
Qed.
End Fork.

Section Result.
Context {P : Type} `{PageSource P} (OFFSET : Z) (static : Z -> Prop) `{!PageSourceLaws P OFFSET static}.
Context {K : Type} `{HeapSource K} `{!HeapSourceLaws K}.
Context (HO : 0 < OFFSET < 2 ^ 32) (HOd : OFFSET mod 2 ^ 22 = 0) (HU : UMEM_MAX <= OFFSET).
Implicit Types s : vmem K P.

Lemma do_fork_ok s org pgd L T E U boot_pgd b : vm_space OFFSET static s org pgd L T E U -> tabs (mm s) !! boot_pgd = Some b -> Forall forkable L -> Exists (fun a => is_free a = true) L -> lonely s L ->
  exists new s', do_fork OFFSET boot_pgd org s = Some (new, s') /\
    ((new = 0 /\ parted OFFSET static s pgd L T E U s') \/ (new <> 0 /\ exists npgd N T', forked OFFSET static s org pgd L T E U new npgd s' N T')).
Proof.
  intros VS Hb HF Hex Hlo. pose proof VS as [[HH _ _ _ _] _ _ Sp _ _ _ _]. unfold do_fork.
  destruct (vm_create_ok OFFSET static HO HOd s boot_pgd b _ _ HH (sp_inv _ _ _ _ _ _ Sp) Hb) as (new&s1&Ec&Er1&Ec1&HE&Ho). rewrite Ec. cbn [mbind option_bind].
  destruct Ho as [(->&Em&HH1)|(Hn0&HnE&npgd&_&V1&_&HT)].
  { exists 0, s1. split; [done|]. left. split; [done|]. split; [done|by rewrite Em|by rewrite Er1|by eexists|rewrite Em; eexists; split; [done|apply Sp]|done]. }
  rewrite (proj2 (Z.eqb_neq new 0)) by done.
  destruct (fork_copy_ok OFFSET static HO HOd HU s org pgd L T E U new npgd VS HF s1 V1 HE HT Er1 Ec1 Hn0 HnE Hex Hlo) as (r&s'&Ef&Hr). exists r, s'. split; [done|].
  destruct Hr as [[-> HP]|(->&N&T'&Hfd)]; [by left|right]. split; [done|]. by exists npgd, N, T'.
Qed.
End Result.
