(* ===== verification/VmLoad.v ===== *)
(** * VmLoad: loading a boot task

    vm_load() gives a boot task its text, data and stack.  The theorem is about
    what the task then sees: the image at the addresses it was linked for, zeros
    in the rest of the data and on the stack, and text that cannot be written. *)
From stdpp Require Import base numbers gmap list.
From S2P Require Import Prelude Core Queue Page PageSpec PageSource HeapSource Mmu MmuSpec Vm VmRing VmLayout VmRegions VmSpace VmSpec VmLife VmMap VmFork.

Open Scope Z_scope.

Section Load.
Context {P : Type} `{PageSource P} (OFFSET : Z) (static : Z -> Prop) `{!PageSourceLaws P OFFSET static}.
Context {K : Type} `{HeapSource K} `{!HeapSourceLaws K}.
Context (HO : 0 < OFFSET < 2 ^ 32) (HOd : OFFSET mod 2 ^ 22 = 0) (HU : UMEM_MAX <= OFFSET).
Implicit Types (s : vmem K P) (m : mmu P).

Abbreviation vm_space := (VmSpace.vm_space OFFSET static).
Abbreviation held_pages := (VmSpace.held_pages OFFSET).
Abbreviation area_pages := (VmSpace.area_pages OFFSET).
Abbreviation backed := (VmSpace.backed OFFSET static).
Abbreviation user_page := (MmuSpec.user_page OFFSET).
Abbreviation ubyte := (VmFork.ubyte OFFSET).

(** An area in use with pages of its own. *)
Definition owned (a : area) : Prop := is_free a = false /\ owns_pages a = true.

Lemma owned_pages a : owned a -> area_pages a = page_list (ar_phys a + OFFSET) (ar_size a).
Proof. intros [Hf Ho]. unfold VmSpace.area_pages. by rewrite Hf, Ho. Qed.

(** The kernel addresses of its bytes. *)
Lemma owned_range m pgd L T U a : backed m pgd L T U -> a ∈ L -> owned a -> aligned (ar_phys a + OFFSET) /\ 0 < ar_phys a /\ ar_phys a + ar_size a + OFFSET <= 2 ^ 32 /\
  forall x, ar_phys a + OFFSET <= x < ar_phys a + OFFSET + ar_size a -> page x ∈ held_pages pgd T L.
Proof.
  intros B Ha Ho. pose proof B as [_ Sp _ _ VP _]. destruct (VP a Ha (proj1 Ho)) as (Ap&Hp&_). destruct (backed_range OFFSET static _ _ _ _ _ a B Ha) as (_&Hs&_&_&As).
  pose proof (OFFSET_aligned OFFSET HOd) as HOa. assert (aligned (ar_phys a + OFFSET)) as Al by (unfold aligned, PAGE_SIZE in *; Z.div_mod_to_equations; lia).
  assert (forall x, ar_phys a + OFFSET <= x < ar_phys a + OFFSET + ar_size a -> page x ∈ held_pages pgd T L) as Hpg.
  { intros x Hx. unfold VmSpace.held_pages. rewrite elem_of_cons, elem_of_app, list_elem_of_bind. right; right. exists a. split; [|done]. rewrite owned_pages by done. by apply page_list_elem. }
  assert (forall x, x ∈ held_pages pgd T L -> x ∈ U ∪ list_to_set (held_pages pgd T L)) as Hin by (intros x Hx; apply elem_of_union_r; by apply elem_of_list_to_set).
  destruct (kp_page _ _ _ (sp_inv _ _ _ _ _ _ Sp) (Hin _ (Hpg (ar_phys a + OFFSET) ltac:(lia)))) as (_&H1&_). destruct (kp_page _ _ _ (sp_inv _ _ _ _ _ _ Sp) (Hin _ (Hpg (ar_phys a + OFFSET + ar_size a - 1) ltac:(lia)))) as (_&_&H2&_).
  split_and!; try done; unfold aligned, page, PAGE_SIZE in *; Z.div_mod_to_equations; lia.
Qed.

(** *** memcpy() to user addresses *)

Lemma user_copy_ok pgd L T U a n : forall dst src s, backed (mm s) pgd L T U -> phys_to_virt OFFSET (cr3 s) = pgd -> a ∈ L -> owned a -> ar_addr a <= dst -> dst + Z.of_nat n <= ar_addr a + ar_size a ->
  let D := ar_phys a + OFFSET + (dst - ar_addr a) in (forall i, 0 <= i < Z.of_nat n -> ~ (D <= src + i < D + Z.of_nat n)) ->
  exists r, user_copy OFFSET n dst src s = Some (s <| ram := r |>) /\ forall x, r x = if decide (D <= x < D + Z.of_nat n) then ram s (src + (x - D)) else ram s x.
Proof.
  induction n as [|n IH]; intros dst src s B Hc Ha Ho Hd1 Hd2 D Hsrc; cbn [user_copy].
  { exists (ram s). split; [by destruct s|]. intros x. rewrite decide_False by lia. done. }
  destruct (owned_range _ _ _ _ _ a B Ha Ho) as (_&Hp&Hm&_). rewrite Hc, (extract_area OFFSET static HO HOd HU _ _ _ _ _ a dst B Ha (proj1 Ho)) by (unfold in_area; lia). cbn [mbind option_bind].
  rewrite (proj2 (Z.eqb_neq _ 0)) by lia. unfold phys_to_virt at 1. rewrite u32_small by lia. set (s1 := memcpy _ _ _ s).
  destruct (IH (dst + 1) (src + 1) s1) as (r&Er&Hr); [done|done|done|done|lia|lia|intros i Hi; specialize (Hsrc (i + 1)); unfold D in *; lia|]. rewrite Er. exists r. split; [done|].
  assert (forall x, ram s1 x = if decide (x = D) then ram s src else ram s x) as H1.
  { intros x. unfold s1, memcpy. cbn [ram set]. replace (ar_phys a + (dst - ar_addr a) + OFFSET) with D by (unfold D; lia). case_decide as Hx; [subst x; rewrite Z.leb_refl, (proj2 (Z.ltb_lt _ _)) by lia; cbn [andb]; f_equal; lia|].
    destruct (Z.leb_spec D x); [|done]. by destruct (Z.ltb_spec x (D + 1)); [lia|]. }
  intros x. rewrite Hr. replace (ar_phys a + OFFSET + (dst + 1 - ar_addr a)) with (D + 1) by (unfold D; lia). rewrite !H1.
  destruct (decide (D + 1 <= x < D + 1 + Z.of_nat n)); [rewrite (decide_True (P := D <= x < D + Z.of_nat (S n))) by lia; rewrite decide_False; [f_equal; lia|]|].
  - specialize (Hsrc (1 + (x - (D + 1)))). lia.
  - destruct (decide (x = D)) as [->|Hx]; [rewrite decide_True by lia; f_equal; lia|]. by rewrite decide_False by lia.
Qed.

(** *** A segment *)
Section Segment.
Context (map pgd : Z) (E U : gset Z).

(** What the areas in use, and the pages of others, hold is as before. *)
Record undisturbed (s s' : vmem K P) (L L' : list area) : Prop := {
  ud_areas : forall a, a ∈ L -> owned a -> a ∈ L' /\ forall x, in_area x a -> ubyte s' pgd x = ubyte s pgd x;
  ud_ram : forall x, page x ∈ U -> ram s' x = ram s x;
  ud_cr3 : cr3 s' = cr3 s;
}.
Lemma undisturbed_trans s1 s2 s3 L1 L2 L3 : undisturbed s1 s2 L1 L2 -> undisturbed s2 s3 L2 L3 -> undisturbed s1 s3 L1 L3.
Proof.
  intros [A1 R1 C1] [A2 R2 C2]. split; [|intros x Hx; by rewrite R2, R1|congruence]. intros a Ha Ho. destruct (A1 a Ha Ho) as [Ha2 H1]. destruct (A2 a Ha2 Ho) as [Ha3 H2].
  split; [done|]. intros x Hx. by rewrite H2, H1.
Qed.

Lemma ubyte_owned s L T a x : vm_space s map pgd L T E U -> a ∈ L -> owned a -> in_area x a -> ubyte s pgd x = Some (ram s (ar_phys a + OFFSET + (x - ar_addr a))).
Proof. intros V Ha Ho Hx. pose proof (vm_space_backed _ _ _ _ _ _ _ _ _ V) as B. destruct (owned_range _ _ _ _ _ a B Ha Ho) as (_&Hp&Hm&_). eapply ubyte_area; try done. apply Ho. Qed.

(** Areas in use do not overlap, and neither do their pages. *)
Lemma owned_apart s L1 a L2 T c x : vm_space s map pgd (L1 ++ a :: L2) T E U -> owned a -> c ∈ L1 ++ L2 -> owned c -> ar_phys a + OFFSET <= x < ar_phys a + OFFSET + ar_size a ->
  ~ (ar_phys c + OFFSET <= x < ar_phys c + OFFSET + ar_size c).
Proof.
  intros V Ha Hc Ho Hx Hx'. pose proof (vm_space_backed _ _ _ _ _ _ _ _ _ V) as B. assert (a ∈ L1 ++ a :: L2) as HaL by (apply elem_of_app; right; by left).
  assert (c ∈ L1 ++ a :: L2) as HcL by (rewrite elem_of_app, elem_of_cons; apply elem_of_app in Hc; tauto).
  destruct (owned_range _ _ _ _ _ a B HaL Ha) as (A1&_). destruct (owned_range _ _ _ _ _ c B HcL Ho) as (A2&_). destruct (backed_range OFFSET static _ _ _ _ _ a B HaL) as (_&_&_&_&S1). destruct (backed_range OFFSET static _ _ _ _ _ c B HcL) as (_&_&_&_&S2).
  pose proof (bk_nodup _ _ _ _ _ _ _ B) as ND. unfold VmSpace.held_pages in ND. apply NoDup_cons in ND as [_ (_&_&ND)%NoDup_app]. rewrite held_mid in ND. apply NoDup_app in ND as (_&Hd&_).
  apply (Hd (page x)); [rewrite owned_pages by done; by apply page_list_elem|]. apply list_elem_of_bind. exists c. split; [|done]. rewrite owned_pages by done. by apply page_list_elem.
Qed.

Lemma allocated_view s s' L T va sz : vm_space s map pgd L T E U -> vm_frame s s' map E U -> allocated OFFSET static s s' map pgd L T E U va sz ->
  exists M1 b M2 T', vm_space s' map pgd (M1 ++ b :: M2) T' E U /\ owned b /\ ar_addr b = va /\ ar_size b = sz /\ ar_flags b = Z.lor REG_READ REG_WRITE /\
    (forall i, 0 <= i < sz -> ubyte s' pgd (va + i) = Some 0) /\ undisturbed s s' L (M1 ++ M2).
Proof.
  intros V Hfr (L1&a&L2&Q&b&R&T'&phys&->&Ha&HC&Hb&V'&_&Hdis&Hram). set (b' := b <| ar_phys := phys |>) in *. destruct (cv_piece _ _ _ _ _ _ HC) as [Eb1 Eb2].
  assert (owned b') as Hob by (unfold owned, is_free, owns_pages; cbn [ar_flags b' set]; by rewrite Hb).
  assert (filled L1 Q b R L2 phys = (L1 ++ Q) ++ b' :: R ++ L2) as EL' by (unfold filled; rewrite <- !app_assoc; done). rewrite EL' in V'. exists (L1 ++ Q), b', (R ++ L2), T'. split; [done|].
  pose proof (vm_space_backed _ _ _ _ _ _ _ _ _ V') as B'. assert (b' ∈ (L1 ++ Q) ++ b' :: R ++ L2) as HbL by (apply elem_of_app; right; by left).
  destruct (owned_range _ _ _ _ _ b' B' HbL Hob) as (Ab&Hp&Hm&Hpg). split_and!; try done.
  - intros i Hi. rewrite (ubyte_owned s' _ T' b' _ V' HbL Hob) by (unfold in_area; change (ar_addr b') with (ar_addr b); change (ar_size b') with (ar_size b); lia). rewrite Hram. change (ar_phys b') with phys. change (ar_addr b') with (ar_addr b). rewrite Eb1, decide_True by lia. done.
  - destruct (backed_range OFFSET static _ _ _ _ _ b' B' HbL) as (_&_&_&_&Sb). change (ar_phys b') with phys in *. change (ar_size b') with (ar_size b) in *. rewrite Eb2 in *.
    assert (forall x, phys + OFFSET <= x < phys + OFFSET + sz -> page x ∉ U ∪ list_to_set (held_pages pgd T (L1 ++ a :: L2))) as Hnew.
    { intros x Hx Hin. apply (Hdis (page x)); [|done]. rewrite <- page_list_pages. apply elem_of_list_to_set. by apply page_list_elem. }
    split; [|intros x Hx; rewrite Hram, decide_False; [done|]; intros Hr; apply (Hnew x Hr); by apply elem_of_union_l|apply Hfr].
    intros c Hc Hoc. assert (c ∈ L1 \/ c ∈ L2) as Hc'. { apply elem_of_app in Hc as [?|[->|?]%elem_of_cons]; [tauto| |tauto]. destruct Hoc. congruence. }
    split; [rewrite !elem_of_app; tauto|]. assert (c ∈ (L1 ++ Q) ++ b' :: R ++ L2) as HcL by (rewrite !elem_of_app, elem_of_cons, elem_of_app; tauto).
    intros x Hx. rewrite (ubyte_owned s' _ T' c x V' HcL Hoc Hx), (ubyte_owned s _ T c x V Hc Hoc Hx). f_equal. rewrite Hram, decide_False; [done|]. intros Hr.
    apply (Hnew _ Hr), elem_of_union_r, elem_of_list_to_set. destruct (owned_range _ _ _ _ _ c (vm_space_backed _ _ _ _ _ _ _ _ _ V) Hc Hoc) as (_&_&_&Hpc). apply Hpc. unfold in_area in Hx. lia.
Qed.

(** The bytes of [src] are copied to a new area. *)
Lemma copy_view s M1 b M2 T src n va : vm_space s map pgd (M1 ++ b :: M2) T E U -> owned b -> ar_addr b = va -> phys_to_virt OFFSET (cr3 s) = pgd -> 0 <= n <= ar_size b -> (forall i, 0 <= i < n -> page (src + i) ∈ U) ->
  exists s', user_copy OFFSET (Z.to_nat n) va src s = Some s' /\ vm_space s' map pgd (M1 ++ b :: M2) T E U /\ undisturbed s s' (M1 ++ M2) (M1 ++ M2) /\
    forall i, 0 <= i < ar_size b -> ubyte s' pgd (va + i) = if decide (i < n) then Some (ram s (src + i)) else ubyte s pgd (va + i).
Proof.
  intros V Ho Eb Hc Hn Hsrc. pose proof (vm_space_backed _ _ _ _ _ _ _ _ _ V) as B. assert (b ∈ M1 ++ b :: M2) as HbL by (apply elem_of_app; right; by left).
  destruct (owned_range _ _ _ _ _ b B HbL Ho) as (Ab&Hp&Hm&Hpg). destruct (user_copy_ok pgd _ T U b (Z.to_nat n) va src s B Hc HbL Ho) as (r&Er&Hr); [lia|lia| |].
  { rewrite Z2Nat.id by lia. intros i Hi Hin. apply (va_apart _ _ _ _ _ _ _ _ _ V (page (src + i))); [|by apply Hsrc]. apply Hpg. lia. }
  rewrite Z2Nat.id in Hr by lia. rewrite Eb, Z.sub_diag, Z.add_0_r in Hr. rewrite Er. set (s' := s <| ram := r |>). exists s'. split; [done|].
  assert (vm_space s' map pgd (M1 ++ b :: M2) T E U) as V' by (destruct V as [[? ? ? ? ?] ? ? ? ? ? ? ?]; by split). split; [done|]. split; [split; [|intros x Hx; cbn [ram s' set]; rewrite Hr, decide_False; [done|]|done]|].
  - intros c Hc' Hoc. split; [done|]. assert (c ∈ M1 ++ b :: M2) as HcL by (rewrite elem_of_app, elem_of_cons; apply elem_of_app in Hc'; tauto). intros x Hx.
    rewrite (ubyte_owned s' _ T c x V' HcL Hoc Hx), (ubyte_owned s _ T c x V HcL Hoc Hx). f_equal. cbn [ram s' set]. rewrite Hr, decide_False; [done|]. intros Hin.
    apply (owned_apart s M1 b M2 T c (ar_phys c + OFFSET + (x - ar_addr c)) V Ho Hc' Hoc); unfold in_area in Hx; lia.
  - intros Hin. apply (va_apart _ _ _ _ _ _ _ _ _ V (page x)); [|done]. apply Hpg. lia.
  - intros i Hi. assert (in_area (va + i) b) as Hx by (unfold in_area; lia). rewrite (ubyte_owned s' _ T b _ V' HbL Ho Hx), (ubyte_owned s _ T b _ V HbL Ho Hx). cbn [ram s' set]. rewrite Hr, Eb.
    replace (ar_phys b + OFFSET + (va + i - va)) with (ar_phys b + OFFSET + i) by lia. case_decide; [rewrite decide_True by lia; do 2 f_equal; lia|by rewrite decide_False by lia].
Qed.

(** do_allocate() at an address and a copy to the new area. *)
Record segment (s s' : vmem K P) (L M1 M2 : list area) (b : area) (T : gset Z) (addr size src n : Z) : Prop := {
  sg_space : vm_space s' map pgd (M1 ++ b :: M2) T E U;
  sg_owned : owned b;
  sg_addr : ar_addr b = addr;
  sg_size : size <= ar_size b;
  sg_flags : ar_flags b = Z.lor REG_READ REG_WRITE;
  sg_bytes : forall i, 0 <= i < size -> ubyte s' pgd (addr + i) = Some (if decide (i < n) then ram s (src + i) else 0);
  sg_kept : undisturbed s s' L (M1 ++ M2);
}.

Lemma segment_ok s L T addr size src n : vm_space s map pgd L T E U -> phys_to_virt OFFSET (cr3 s) = pgd -> aligned addr -> 0 <= addr -> 0 < size -> addr + size + PAGE_SIZE < 2 ^ 32 ->
  0 <= n <= size -> (forall i, 0 <= i < n -> page (src + i) ∈ U) ->
  exists err va s1, do_allocate OFFSET false map addr size false s = Some (err, va, s1) /\ (exists L' T', vm_space s1 map pgd L' T' E U) /\
    (err = 0 -> va = addr /\ exists s2 M1 b M2 T', user_copy OFFSET (Z.to_nat n) va src s1 = Some s2 /\ segment s s2 L M1 M2 b T' addr size src n).
Proof.
  intros V Hc Aa H0' Hz Hmax Hn Hsrc. assert (page addr = addr) as Epg by (unfold page, aligned, PAGE_SIZE in *; lia).
  destruct (do_allocate_at_ok OFFSET static false HO HOd HU s map pgd L T E U addr size V H0' Hz Hmax ltac:(done)) as (err&va&s1&Ea&Hfr&Ho). rewrite Epg in Ho. exists err, va, s1. split; [done|].
  assert (size <= PAGE_ALIGN (addr + size) - addr) as Hge by (destruct (PAGE_ALIGN_ok (addr + size)); [lia|unfold PAGE_MASK, PAGE_SIZE in *; lia|lia]).
  destruct Ho as [(->&->&Hal)|[(->&_&->&_)|(->&_&_&[[(_&_&V')_]|(T'&_&_&V'&_)])]]; [|split; [by exists L, T|done]|split; [by exists L, T|done]|split; [by exists L, T'|done]].
  destruct (allocated_view s s1 L T addr _ V Hfr Hal) as (M1&b&M2&T'&V1&Ho&Eb&Esz&Efl&Hzero&K1). split; [by exists (M1 ++ b :: M2), T'|]. intros _. split; [done|].
  destruct (copy_view s1 M1 b M2 T' src n addr V1 Ho Eb) as (s2&E2&V2&K2&Hb); [by rewrite (ud_cr3 _ _ _ _ K1)|lia|done|]. exists s2, M1, b, M2, T'. split; [done|]. split; try done; [lia| |by eapply undisturbed_trans].
  intros i Hi. rewrite Hb by lia. destruct (decide (i < n)); [f_equal; apply (ud_ram _ _ _ _ K1), Hsrc; lia|]. apply Hzero. lia.
Qed.

Lemma undisturbed_same s s' L T L' T' M M' : vm_space s map pgd L T E U -> vm_space s' map pgd L' T' E U -> ram s' = ram s -> cr3 s' = cr3 s -> (forall c, c ∈ M -> owned c -> c ∈ L /\ c ∈ L' /\ c ∈ M') -> undisturbed s s' M M'.
Proof.
  intros V V' Er Ec HM. split; [|by rewrite Er|done]. intros c Hc Ho. destruct (HM c Hc Ho) as (H1&H2&H3). split; [done|]. intros x Hx.
  by rewrite (ubyte_owned s' _ T' c x V' H2 Ho Hx), (ubyte_owned s _ T c x V H1 Ho Hx), Er.
Qed.

(** *** The text *)
Lemma load_text_ok s L T md src : vm_space s map pgd L T E U -> phys_to_virt OFFSET (cr3 s) = pgd -> aligned (m_text md) -> 0 <= m_text md -> 0 < m_textsz md -> m_text md + m_textsz md + PAGE_SIZE < 2 ^ 32 ->
  (forall i, 0 <= i < m_textsz md -> page (src + i) ∈ U) ->
  exists ok s', load_text OFFSET false map md src s = Some (ok, s') /\ exists L' T', vm_space s' map pgd L' T' E U /\
    (ok = true -> undisturbed s s' L L' /\ exists b, b ∈ L' /\ owned b /\ ar_addr b = m_text md /\ m_textsz md <= ar_size b /\ flag (ar_flags b) REG_WRITE = false /\
       forall i, 0 <= i < m_textsz md -> ubyte s' pgd (m_text md + i) = Some (ram s (src + i))).
Proof.
  intros V Hc Aa H0' Hz Hmax Hsrc. unfold load_text. destruct (segment_ok s L T (m_text md) (m_textsz md) src (m_textsz md) V Hc Aa H0' Hz Hmax ltac:(lia) Hsrc) as (err&va&s1&->&(L'&T'&V')&Hok).
  cbn [mbind option_bind]. destruct (Z.eqb_spec err 0) as [->|He]; cbn [negb]; [|exists false, s1; split; [done|]; by exists L', T']. clear L' T' V'.
  destruct (Hok eq_refl) as (->&s2&M1&b&M2&T'&->&[V2 Ho Eb Hsz Hfl Hby HK]). cbn [mbind option_bind]. assert (b ∈ M1 ++ b :: M2) as HbL by (apply elem_of_app; right; by left).
  assert (page (m_text md) = m_text md) as Epg by (unfold page, aligned, PAGE_SIZE in *; lia). pose proof (va_layout _ _ _ _ _ _ _ _ _ V2) as VL. destruct (tiles_range _ _ _ b (lo_tiles _ VL) HbL) as (_&?&Hhi).
  destruct (do_attribute_ok OFFSET static HO HOd HU s2 map pgd _ T' E U (m_text md) VMA_READ V2) as (err&s3&->&Hfr&Er&Ha); [lia| |].
  { intros a HaL Ea. rewrite Epg in Ea. assert (a = b) as -> by (eapply area_unique; [exact VL|done|done|congruence]). unfold unshared. by rewrite Hfl. }
  cbn [mbind option_bind]. destruct Ha as [(->&L1&a&L2&EL'&Ea&_&_&V3&_)|(->&->&_)]; [|exists false, s2; split; [done|]; by exists (M1 ++ b :: M2), T'].
  rewrite Epg in Ea. destruct (split_unique _ _ _ _ _ _ _ _ (lo_tiles _ VL) EL') as (<-&<-&<-); [congruence|]. exists true, s3. split; [done|]. eexists _, T'. split; [exact V3|]. intros _.
  set (b2 := b <| ar_flags := access_flags (ar_flags b) VMA_READ |>) in *. assert (owned b2) as Ho2 by (unfold owned, is_free, owns_pages, b2; cbn [ar_flags set]; by rewrite Hfl).
  assert (b2 ∈ M1 ++ b2 :: M2) as Hb2 by (apply elem_of_app; right; by left). split.
  - eapply undisturbed_trans; [exact HK|]. apply (undisturbed_same s2 s3 _ T' _ T' _ _ V2 V3 Er); [apply Hfr|]. intros c Hc' _. rewrite !elem_of_app, !elem_of_cons. apply elem_of_app in Hc'. tauto.
  - exists b2. split_and!; try done; [unfold b2; cbn [ar_flags set]; by rewrite Hfl|]. intros i Hi. rewrite <- (decide_True (P := i < m_textsz md) (Some (ram s (src + i))) (Some 0)) by lia.
    transitivity (ubyte s2 pgd (m_text md + i)); [|rewrite (Hby i Hi); by case_decide].
    by rewrite (ubyte_owned s3 _ T' b2 _ V3 Hb2 Ho2), (ubyte_owned s2 _ T' b _ V2 HbL Ho), Er by (unfold in_area, b2; cbn [ar_addr ar_size set]; lia).
Qed.

(** *** The data *)
Lemma load_data_ok s L T md src : vm_space s map pgd L T E U -> phys_to_virt OFFSET (cr3 s) = pgd -> aligned (m_data md) -> 0 <= m_data md -> 0 <= m_datasz md -> 0 <= m_bsssz md -> m_data md + (m_datasz md + m_bsssz md) + PAGE_SIZE < 2 ^ 32 ->
  let dsrc := u32 (src + (m_data md - m_text md)) in (forall i, 0 <= i < m_datasz md -> page (dsrc + i) ∈ U) ->
  exists ok s', load_data OFFSET false map md src s = Some (ok, s') /\ exists L' T', vm_space s' map pgd L' T' E U /\
    (ok = true -> undisturbed s s' L L' /\ ((m_datasz md + m_bsssz md = 0) \/ exists b, b ∈ L' /\ owned b /\ ar_addr b = m_data md /\ m_datasz md + m_bsssz md <= ar_size b) /\
       forall i, 0 <= i < m_datasz md + m_bsssz md -> ubyte s' pgd (m_data md + i) = Some (if decide (i < m_datasz md) then ram s (dsrc + i) else 0)).
Proof.
  intros V Hc Aa H0' Hd Hb Hmax dsrc Hsrc. unfold load_data. rewrite (u32_small (m_datasz md + m_bsssz md)) by (unfold PAGE_SIZE in *; lia). fold dsrc. destruct (Z.eqb_spec (m_datasz md + m_bsssz md) 0) as [Ez|Hz]; cbn [negb].
  { exists true, s. split; [done|]. exists L, T. split; [done|]. intros _. split; [by apply (undisturbed_same s s L T L T)|]. split; [by left|]. lia. }
  destruct (segment_ok s L T (m_data md) (m_datasz md + m_bsssz md) dsrc (m_datasz md) V Hc Aa H0' ltac:(lia) Hmax ltac:(lia) Hsrc) as (err&va&s1&->&(L'&T'&V')&Hok).
  cbn [mbind option_bind]. destruct (Z.eqb_spec err 0) as [->|He]; cbn [negb]; [|exists false, s1; split; [done|]; by exists L', T'].
  destruct (Hok eq_refl) as (->&s2&M1&b&M2&T2&->&[V2 Ho Eb Hsz Hfl Hby HK]). cbn [mbind option_bind]. exists true, s2. split; [done|]. exists (M1 ++ b :: M2), T2. split; [done|]. intros _.
  assert (b ∈ M1 ++ b :: M2) as HbL by (apply elem_of_app; right; by left). split; [|split; [right; by exists b|done]].
  eapply undisturbed_trans; [exact HK|]. apply (undisturbed_same s2 s2 _ T2 _ T2 _ _ V2 V2); [done|done|]. intros c Hc' _. rewrite !elem_of_app, !elem_of_cons. apply elem_of_app in Hc'. tauto.
Qed.
End Segment.

(** ** The whole module *)

Definition image_pages (md : module) : gset Z := pages_of (m_phys md + OFFSET) (PAGE_ALIGN (m_size md)).

(** A module that the boot loader left on pages [U], linked at page boundaries. *)
Record module_ok (md : module) (U : gset Z) : Prop := {
  mo_aligned : aligned (m_phys md) /\ aligned (m_text md) /\ aligned (m_data md);
  mo_text : 0 <= m_text md /\ 0 < m_textsz md <= m_size md /\ m_text md + m_textsz md + PAGE_SIZE < 2 ^ 32;
  mo_data : m_text md <= m_data md /\ 0 <= m_datasz md /\ 0 <= m_bsssz md /\ m_data md - m_text md + m_datasz md <= m_size md /\ m_data md + (m_datasz md + m_bsssz md) + PAGE_SIZE < 2 ^ 32;
  mo_image : 0 <= m_phys md /\ m_phys md + OFFSET + m_size md + PAGE_SIZE < 2 ^ 32 /\ image_pages md ⊆ U;
}.

(** What the task sees afterwards. *)
Record loaded (s s' : vmem K P) (pgd : Z) (md : module) (L : list area) : Prop := {
  ld_text : forall i, 0 <= i < m_textsz md -> ubyte s' pgd (m_text md + i) = Some (ram s (m_phys md + OFFSET + i));
  ld_readonly : exists b, b ∈ L /\ is_free b = false /\ ar_addr b = m_text md /\ m_textsz md <= ar_size b /\ flag (ar_flags b) REG_WRITE = false;
  ld_data : forall i, 0 <= i < m_datasz md -> ubyte s' pgd (m_data md + i) = Some (ram s (m_phys md + OFFSET + (m_data md - m_text md) + i));
  ld_bss : forall i, 0 <= i < m_bsssz md -> ubyte s' pgd (m_data md + m_datasz md + i) = Some 0;
  ld_stack : forall i, 0 <= i < USTACK_SIZE -> ubyte s' pgd (USTACK_BASE + i) = Some 0;
}.

Lemma image_page md U i : module_ok md U -> 0 <= i < m_size md -> page (m_phys md + OFFSET + i) ∈ U.
Proof.
  intros [(Ap&_) _ _ (Hp&Hm&HI)] Hi. apply HI. unfold image_pages. rewrite <- page_list_pages. apply elem_of_list_to_set. pose proof (OFFSET_aligned OFFSET HOd) as HOa.
  destruct (PAGE_ALIGN_ok (m_size md)) as [Al Hge]; [lia|unfold PAGE_MASK, PAGE_SIZE in *; lia|]. apply page_list_elem; [unfold aligned, PAGE_SIZE in *; Z.div_mod_to_equations; lia|done|lia].
Qed.

(** The pages of the image are given back. *)
Lemma free_image s map pgd L T E U md : vm_space s map pgd L T E U -> module_ok md U ->
  exists s', vm_page_free (m_phys md) (m_size md) s = Some s' /\ vm_space s' map pgd L T E (U ∖ image_pages md) /\ ram s' = ram s /\ forall x, ubyte s' pgd x = ubyte s pgd x.
Proof.
  intros [[R1 R2 R3 R4 R5] VL VM Sp VN VA VP VPte] [_ Ht _ (Hp&Hm&HI)]. unfold vm_page_free.
  destruct (kp_free_ok (upages (mm s)) _ (m_phys md + OFFSET) (m_size md) (sp_inv _ _ _ _ _ _ Sp)) as (p'&Ef&HI'); [lia|unfold PAGE_MASK, PAGE_SIZE in *; lia|intros x Hx; by apply elem_of_union_l, HI|].
  replace (m_phys md + OFFSET - OFFSET) with (m_phys md) in Ef by lia. rewrite Ef. cbn [mbind option_bind]. eexists. split; [done|]. split; [|split; [done|intros x; by apply ubyte_tabs]]. fold (image_pages md) in HI'.
  assert ((U ∪ list_to_set (held_pages pgd T L)) ∖ image_pages md = U ∖ image_pages md ∪ list_to_set (held_pages pgd T L)) as Es.
  { apply set_eq. intros x. rewrite !elem_of_difference, !elem_of_union, elem_of_difference, !elem_of_list_to_set. split; [tauto|]. intros [[? ?]|Hx]; [tauto|]. split; [tauto|]. intros Hi%HI. by apply (VA x). }
  rewrite Es in HI'. split; cbn [mm set]; try done.
  - eapply space_pages; [exact Sp|done|..].
    + apply elem_of_union_r, elem_of_list_to_set. by left.
    + intros x Hx. apply elem_of_union_r, elem_of_list_to_set. unfold VmSpace.held_pages. rewrite elem_of_cons, elem_of_app, elem_of_elements. tauto.
  - intros x Hx [? _]%elem_of_difference. by apply (VA x).
Qed.

Lemma switched_pgd s map pgd L T E U : vm_space s map pgd L T E U -> phys_to_virt OFFSET (virt_to_phys OFFSET pgd) = pgd.
Proof.
  intros V. pose proof (va_space _ _ _ _ _ _ _ _ _ V) as Sp. destruct (kp_page _ _ pgd (sp_inv _ _ _ _ _ _ Sp)) as (_&H1&H2&_); [exact (proj1 (sp_own _ _ _ _ _ _ Sp))|]. unfold phys_to_virt, virt_to_phys, PAGE_SIZE in *. rewrite (u32_small (pgd - OFFSET)) by lia. rewrite u32_small by lia. lia.
Qed.

Lemma vm_load_ok s kern_map map pgd L T E U md : vm_space s map pgd L T E U -> map <> kern_map -> module_ok md U ->
  exists r stack s', vm_load OFFSET false kern_map map md s = Some (r, stack, s') /\
    ((r = -1 /\ exists L' T', vm_space s' map pgd L' T' E U) \/
     (r = 0 /\ stack = Some USTACK_BASE /\ exists L' T', vm_space s' map pgd L' T' E (U ∖ image_pages md) /\ loaded s s' pgd md L')).
Proof.
  intros V Hk HM. pose proof HM as [(_&At&Ad) (Ht0&Hts&Htm) (Hd0&Hds&Hbs&Hdi&Hdm) (Hp&Hm&_)]. unfold vm_load, vm_switch. rewrite (proj2 (Z.eqb_neq map kern_map)) by done.
  pose proof (va_map _ _ _ _ _ _ _ _ _ V) as Emp. destruct (maps s !! map) as [vm|]; [|discriminate Emp]. injection Emp as Emp. cbn [mbind option_bind]. rewrite Emp. unfold mmu_switch.
  match goal with |- context [load_text _ _ _ _ _ ?st] => set (s1 := st) end. assert (vm_space s1 map pgd L T E U) as V1 by (destruct V as [[? ? ? ? ?] ? ? ? ? ? ? ?]; by split).
  assert (phys_to_virt OFFSET (cr3 s1) = pgd) as Hc1 by (by eapply switched_pgd). assert (phys_to_virt OFFSET (m_phys md) = m_phys md + OFFSET) as Esrc by (unfold phys_to_virt, PAGE_SIZE in *; rewrite u32_small; lia). rewrite Esrc.
  destruct (load_text_ok map pgd E U s1 L T md (m_phys md + OFFSET) V1 Hc1 At Ht0) as (ok&s2&->&L2&T2&V2&H2); [lia|lia|intros i Hi; apply (image_page md U); [done|lia]|]. cbn [mbind option_bind].
  destruct ok; cbn [negb]; [|eexists _, _, s2; split; [done|]; left; split; [done|]; by exists L2, T2]. destruct (H2 eq_refl) as (K2&b&Hb&Hob&Eb&Hsb&Hwb&Hby). assert (phys_to_virt OFFSET (cr3 s2) = pgd) as Hc2 by (by rewrite (ud_cr3 _ _ _ _ _ _ K2)).
  assert (u32 (m_phys md + OFFSET + (m_data md - m_text md)) = m_phys md + OFFSET + (m_data md - m_text md)) as Eds by (apply u32_small; unfold PAGE_SIZE in *; lia).
  destruct (load_data_ok map pgd E U s2 L2 T2 md (m_phys md + OFFSET) V2 Hc2 Ad ltac:(lia) Hds Hbs Hdm) as (ok&s3&->&L3&T3&V3&H3); rewrite ?Eds.
  { intros i Hi. replace (m_phys md + OFFSET + (m_data md - m_text md) + i) with (m_phys md + OFFSET + (m_data md - m_text md + i)) by lia. apply (image_page md U); [done|lia]. }
  cbn [mbind option_bind]. destruct ok; cbn [negb]; [|eexists _, _, s3; split; [done|]; left; split; [done|]; by exists L3, T3]. destruct (H3 eq_refl) as (K3&Hdb&Hdy). rewrite Eds in Hdy. pose proof (undisturbed_trans pgd U _ _ _ _ _ _ K2 K3) as K23.
  destruct (segment_ok map pgd E U s3 L3 T3 USTACK_BASE USTACK_SIZE 0 0 V3) as (err&va&s4&->&(L4&T4&V4)&H4); [by rewrite (ud_cr3 _ _ _ _ _ _ K3)|done|done|done|done|done|lia|]. cbn [mbind option_bind].
  destruct (Z.eqb_spec err 0) as [->|He]; cbn [negb]; [|eexists _, _, s4; split; [done|]; left; split; [done|]; by exists L4, T4].
  destruct (H4 eq_refl) as (->&s5&M1&c&M2&T5&Ec&[V5 Hoc Ec1 Hcs _ Hcy K5]). cbn in Ec. injection Ec as <-.
  destruct (free_image s4 map pgd _ T5 E U md V5 HM) as (s6&->&V6&Er6&Hu6). cbn [mbind option_bind]. eexists _, _, s6. split; [done|]. right. split; [done|]. split; [done|]. exists (M1 ++ c :: M2), T5. split; [done|].
  assert (forall a x, a ∈ L3 -> owned a -> in_area x a -> ubyte s6 pgd x = ubyte s3 pgd x) as Hv by (intros a x Ha Hoa Hx; rewrite Hu6; by apply (ud_areas _ _ _ _ _ _ K5 a Ha Hoa)).
  destruct (ud_areas _ _ _ _ _ _ K3 b Hb Hob) as [Hb3 Hv3]. split.
  - intros i Hi. assert (in_area (m_text md + i) b) as Hx by (unfold in_area; lia). rewrite (Hv b _ Hb3 Hob Hx), (Hv3 _ Hx), (Hby i Hi). done.
  - exists b. destruct (ud_areas _ _ _ _ _ _ K5 b Hb3 Hob) as [Hb5 _]. split_and!; try done; [rewrite elem_of_app, elem_of_cons; apply elem_of_app in Hb5; tauto|apply Hob].
  - intros i Hi. destruct Hdb as [?|(d&Hd&Hod&Ed&Hsd)]; [lia|]. rewrite (Hv d) by (done || unfold in_area; lia). rewrite Hdy, decide_True by lia. f_equal. rewrite (ud_ram _ _ _ _ _ _ K2); [done|].
    replace (m_phys md + OFFSET + (m_data md - m_text md) + i) with (m_phys md + OFFSET + (m_data md - m_text md + i)) by lia. apply (image_page md U); [done|lia].
  - intros i Hi. destruct Hdb as [?|(d&Hd&Hod&Ed&Hsd)]; [lia|]. rewrite (Hv d) by (done || unfold in_area; lia). replace (m_data md + m_datasz md + i) with (m_data md + (m_datasz md + i)) by lia. rewrite Hdy, decide_False by lia. done.
  - intros i Hi. rewrite Hu6, Hcy, decide_False by lia. done.
Qed.
End Load.
