(* ===== verification/VmShare.v ===== *)
(** * VmShare: lists of shared regions

    The regions of several address spaces that show the same pages are on a
    ring through sh_prev and sh_next.  region_delete() takes a region off it. *)
From stdpp Require Import base numbers gmap list.
From S2P Require Import Prelude Core Queue Page PageSpec PageSource HeapSource Mmu MmuSpec Vm.

Open Scope Z_scope.

(** The regions [l], each linked to its neighbours; [prev] is before the first
    and [fin] after the last. *)
Fixpoint sh_chain (rs : gmap Z region) (prev : Z) (l : list Z) (fin : Z) : Prop :=
  match l with
  | [] => True
  | x :: l => (exists r, rs !! x = Some r /\ r_sh_prev r = prev /\ r_sh_next r = hd fin l) /\ sh_chain rs x l fin
  end.
Definition sh_ring (rs : gmap Z region) (l : list Z) : Prop := sh_chain rs (List.last l 0) l (hd 0 l).

Lemma sh_chain_frame rs rs' l : forall prev fin, (forall x, x ∈ l -> rs' !! x = rs !! x) -> sh_chain rs prev l fin -> sh_chain rs' prev l fin.
Proof.
  induction l as [|x l IH]; intros prev fin Hx; [done|]. intros [(r&Er&?) Hl]. split.
  - exists r. by rewrite Hx by (by left).
  - apply IH; [|done]. intros y Hy. apply Hx. by right.
Qed.

Lemma last_first (l : list Z) : forall x d, List.last (x :: l) d = List.last l x.
Proof. induction l as [|y l IH]; intros x d; [done|]. change (List.last (x :: y :: l) d) with (List.last (y :: l) d). by rewrite !IH. Qed.

Lemma sh_chain_snoc rs l z : forall prev fin,
  sh_chain rs prev (l ++ [z]) fin <-> sh_chain rs prev l z /\ exists r, rs !! z = Some r /\ r_sh_prev r = List.last l prev /\ r_sh_next r = fin.
Proof.
  induction l as [|x l IH]; intros prev fin; cbn [app sh_chain].
  - cbn. naive_solver.
  - rewrite IH. replace (hd fin (l ++ [z])) with (hd z l) by (by destruct l). rewrite last_first. naive_solver.
Qed.

Section Delete.
Context {K P : Type} `{HeapSource K} `{PageSource P}.
Implicit Types s : vmem K P.

(** A region whose neighbours on the ring changed; [last] says that it is the
    only one left. *)
Definition relinked (last : bool) (r r' : region) : Prop :=
  r' <| r_sh_prev := r_sh_prev r |> <| r_sh_next := r_sh_next r |> = r <| r_flags := if last then clr (r_flags r) REG_SHARED else r_flags r |>.

Lemma sh_unlink_ok s reg M : sh_ring (regs s) (reg :: M) -> NoDup (reg :: M) -> M <> [] -> exists rs, sh_unlink reg s = Some (s <| regs := rs |>) /\
  sh_ring rs M /\ (forall x, x ∉ M -> rs !! x = regs s !! x) /\
  forall x, x ∈ M -> exists r r', regs s !! x = Some r /\ rs !! x = Some r' /\ relinked (bool_decide (length M = 1%nat)) r r'.
Proof.
  intros [(r&Er&Ep&En) HM] [Hreg ND]%NoDup_cons Hne. destruct M as [|y M]; [done|]. cbn [hd] in En. rewrite !last_first in Ep. unfold sh_unlink, wr. rewrite Er. cbn [mbind option_bind].
  apply not_elem_of_cons in Hreg as [Hry Hreg]. destruct M as [|z M _] using rev_ind.
  - destruct HM as [(ry&Ey&Py&Ny) _]. cbn in Ep, Ny. rewrite Ep, Ey. cbn [mbind option_bind regs set]. rewrite lookup_insert_ne, Er by done. cbn [mbind option_bind]. rewrite En, lookup_insert_eq. cbn [mbind option_bind regs set].
    rewrite !lookup_insert_ne, Er by done. cbn [mbind option_bind]. rewrite Ep, En, Z.eqb_refl, lookup_insert_eq. cbn [mbind option_bind regs set]. eexists. split; [done|]. split_and!.
    + split; [|done]. eexists. rewrite lookup_insert_eq. split; [done|]. by cbn.
    + intros x Hx%not_elem_of_cons. rewrite !lookup_insert_ne by naive_solver. done.
    + intros x ->%list_elem_of_singleton. eexists _, _. split; [exact Ey|]. rewrite lookup_insert_eq. split; [done|]. unfold relinked. cbn. by destruct ry; cbn in *; subst.
  - rewrite List.last_last in Ep. apply NoDup_cons in ND as [Hy ND]. apply NoDup_app in ND as (ND&Hz&_). rewrite elem_of_app, list_elem_of_singleton in Hy, Hreg.
    assert (z ∉ M) as HzM by (intros Hin; apply (Hz z Hin); by left). assert (y <> z) as Hyz by tauto. destruct HM as [(ry&Ey&Py&Ny) HM]. apply sh_chain_snoc in HM as (HM&rz&Ez&Pz&Nz).
    rewrite Ep, Ez. cbn [mbind option_bind regs set]. rewrite lookup_insert_ne, Er by naive_solver. cbn [mbind option_bind]. rewrite En, lookup_insert_ne, Ey by done. cbn [mbind option_bind regs set].
    rewrite !lookup_insert_ne, Er by naive_solver. cbn [mbind option_bind]. rewrite Ep, En, (proj2 (Z.eqb_neq z y)) by done. eexists. split; [done|]. split_and!.
    + unfold sh_ring. change (y :: M ++ [z]) with ((y :: M) ++ [z]) at 1. rewrite List.last_last. cbn [hd sh_chain]. split.
      * eexists. rewrite lookup_insert_eq. split; [done|]. cbn. rewrite Ny. by destruct M.
      * apply sh_chain_snoc. split.
        -- eapply sh_chain_frame; [|exact HM]. intros x Hx. rewrite !lookup_insert_ne; [done|naive_solver..].
        -- eexists. rewrite lookup_insert_ne, lookup_insert_eq by done. split; [done|]. by cbn.
    + intros x Hx. rewrite not_elem_of_cons, elem_of_app, list_elem_of_singleton in Hx. rewrite !lookup_insert_ne; [done|naive_solver..].
    + intros x Hx. rewrite bool_decide_false by (cbn; rewrite length_app; cbn; lia).
      destruct (decide (x = y)) as [->|Hxy]; [eexists _, _; rewrite lookup_insert_eq; split_and!; [exact Ey|done|by destruct ry]|]. rewrite lookup_insert_ne by done.
      destruct (decide (x = z)) as [->|Hxz]; [eexists _, _; rewrite lookup_insert_eq; split_and!; [exact Ez|done|by destruct rz]|]. rewrite lookup_insert_ne by done.
      assert (x ∈ M) as HxM by (rewrite elem_of_cons, elem_of_app, list_elem_of_singleton in Hx; tauto).
      assert (is_Some (regs s !! x)) as [rx Ex]; [|exists rx, rx; split_and!; [done..|by destruct rx]].
      clear -HM HxM. revert HM. generalize y. induction M as [|w M IH]; intros p HM; [by apply not_elem_of_nil in HxM|]. destruct HM as [(rw&Ew&_) HM]. apply elem_of_cons in HxM as [->|HxM]; [by eexists|by eapply IH].
Qed.

(** Deleting a region that is shared takes it off the ring of the regions that
    show the same pages: the others stay linked in their order, the last of them
    is no longer marked shared, and nothing else about them changes.  The
    region's structure is given back unless it is the first one, which is part
    of the map. *)
Theorem region_delete_shared s head reg r M k : regs s !! reg = Some r -> flag (r_flags r) REG_SHARED = true -> sh_ring (regs s) (reg :: M) -> NoDup (reg :: M) -> M <> [] ->
  hs_free reg (kh s) = Some k ->
  exists s', region_delete head reg s = Some s' /\ sh_ring (regs s') M /\ mm s' = mm s /\ ram s' = ram s /\ cr3 s' = cr3 s /\
    (forall x, x ∉ reg :: M -> regs s' !! x = regs s !! x) /\
    (forall x, x ∈ M -> exists r r', regs s !! x = Some r /\ regs s' !! x = Some r' /\ relinked (bool_decide (length M = 1%nat)) r r') /\
    if decide (head = reg) then kh s' = kh s else kh s' = k /\ regs s' !! reg = None.
Proof.
  intros Er Hf HR ND Hne Hk. destruct (sh_unlink_ok s reg M HR ND Hne) as (rs&Eu&HR'&Ho&HM). unfold region_delete. rewrite Er. cbn [mbind option_bind]. rewrite Hf, Eu. cbn [mbind option_bind].
  apply NoDup_cons in ND as [Hreg ND]. assert (forall x, x ∉ reg :: M -> rs !! x = regs s !! x) as Ho' by (intros x [_ Hx]%not_elem_of_cons; by apply Ho). destruct (decide (head = reg)) as [->|Hh].
  - rewrite Z.eqb_refl. eexists. split; [done|]. by split_and!.
  - rewrite (proj2 (Z.eqb_neq head reg)) by done. unfold vm_kmem_free. cbn [kh set]. rewrite Hk. cbn [mbind option_bind]. eexists. split; [done|]. cbn [regs mm ram cr3 kh set].
    assert (forall x, x <> reg -> delete reg rs !! x = rs !! x) as Hd by (intros x Hx; by apply lookup_delete_ne). split_and!; try done.
    + eapply sh_chain_frame; [|exact HR']. intros x Hx. apply Hd. by intros ->.
    + intros x Hx. rewrite Hd; [by apply Ho'|]. intros ->. apply Hx. by left.
    + intros x Hx. rewrite Hd by (by intros ->). by apply HM.
    + apply lookup_delete_eq.
Qed.
End Delete.
