(* ===== verification/VmRun.v ===== *)
(** * VmRun: sequences of requests, and the theorems about vm.c

    Any sequence of vm_allocate(), vm_free() and vm_attribute() requests on an
    address space keeps its invariant and leaves the other address spaces alone;
    then the theorems about the single calls. *)
From stdpp Require Import base numbers gmap list.
From S2P Require Import Prelude Core Queue Page PageSpec PageSource HeapSource Mmu MmuSpec Vm VmRing VmLayout VmRegions VmSpace VmSpec VmLife VmMap VmFork VmLoad.

Open Scope Z_scope.

(** System calls on an address space; the flags say whether the task is valid, is
    the caller's and the caller has the capability. *)
Inductive vop :=
| VAlloc (valid self capable : bool) (uaddr : option Z) (again : Z) (writable : bool) (size : Z) (anywhere : bool)
| VFree (valid self capable : bool) (addr : Z)
| VAttr (valid self capable : bool) (addr attr : Z).

Section Run.
Context {P : Type} `{PageSource P} (OFFSET : Z) (static : Z -> Prop) `{!PageSourceLaws P OFFSET static}.
Context {K : Type} `{HeapSource K} `{!HeapSourceLaws K}.
Context (HO : 0 < OFFSET < 2 ^ 32) (HOd : OFFSET mod 2 ^ 22 = 0) (HU : UMEM_MAX <= OFFSET).
Implicit Types s : vmem K P.

Abbreviation vm_space := (VmSpace.vm_space OFFSET static).
Abbreviation clean := (VmSpace.clean OFFSET).
Abbreviation held_pages := (VmSpace.held_pages OFFSET).
Abbreviation pte := (MmuSpec.pte OFFSET).
Abbreviation user_page := (MmuSpec.user_page OFFSET).

Definition vstep (debug : bool) (map : Z) (op : vop) (s : vmem K P) : option (vmem K P) :=
  match op with
  | VAlloc valid self capable uaddr again writable size anywhere => snd <$> vm_allocate OFFSET debug valid self capable map uaddr again writable size anywhere s
  | VFree valid self capable addr => snd <$> vm_free OFFSET debug valid self capable map addr s
  | VAttr valid self capable addr attr => snd <$> vm_attribute OFFSET valid self capable map addr attr s
  end.
Fixpoint vrun (debug : bool) (map : Z) (ops : list vop) (s : vmem K P) : option (vmem K P) :=
  match ops with
  | [] => Some s
  | op :: ops => s ← vstep debug map op s; vrun debug map ops s
  end.

(** The range asked for, rounded to pages, does not wrap around. *)
Definition vop_ok (op : vop) : Prop :=
  match op with
  | VAlloc _ _ _ uaddr _ _ size anywhere =>
      0 <= size /\ if anywhere then size + PAGE_MASK < 2 ^ 32 else forall a, uaddr = Some a -> 0 <= a /\ a + size + PAGE_SIZE < 2 ^ 32
  | VFree _ _ _ addr | VAttr _ _ _ addr _ => 0 <= addr
  end.

Definition is_attr (op : vop) : Prop := match op with VAttr _ _ _ _ _ => True | _ => False end.
(** An allocation at an address, while the heap has not two more regions. *)
Definition starved (op : vop) (s : vmem K P) : Prop :=
  match op with VAlloc _ _ _ _ _ _ _ false => kmem_short 2 (kh s) | _ => False end.

Definition private (L : list area) : Prop := Forall unshared L.

Lemma private_filled L1 a L2 Q b R va size phys : carved a Q b R va size -> ar_flags b = Z.lor REG_READ REG_WRITE -> private (L1 ++ a :: L2) -> private (filled L1 Q b R L2 phys).
Proof.
  intros [_ HQ HR] Hb. unfold private, filled. rewrite !Forall_app, !Forall_cons. intros (F1&Fa&F2). split_and!; try done.
  - destruct HQ as [(->&_)|[-> _]]; [constructor|by constructor].
  - unfold unshared. cbn. by rewrite Hb.
  - destruct HR as [[-> _]|(p&->&_)]; repeat constructor.
Qed.

Lemma private_release L1 a L2 : private (L1 ++ a :: L2) -> private (release L1 a L2).
Proof.
  unfold private. rewrite Forall_app, Forall_cons. intros (F1&_&F2). unfold release.
  assert (unshared (join_next (a <| ar_flags := REG_FREE |>) L2).1 /\ Forall unshared (join_next (a <| ar_flags := REG_FREE |>) L2).2) as [Fa F3].
  { destruct L2 as [|b L2]; [done|]. cbn [join_next]. apply Forall_cons in F2 as [? ?]. destruct (is_free b); cbn [fst snd]; by repeat constructor. }
  destruct (join_next _ L2) as [a' L3]. cbn [fst snd] in *. destruct L1 as [|e L1 _] using rev_ind; [by constructor|]. rewrite join_prev_snoc.
  apply Forall_app in F1 as [F1 [Fe _]%Forall_cons]. destruct (is_free e); apply Forall_app; split; [done|by constructor|done|by repeat constructor].
Qed.

(** The bytes of the pages [U] are as they were. *)
Definition ram_kept s s' (U : gset Z) : Prop := forall p x, p ∈ U -> in_block x (p, PAGE_SIZE) -> ram s' x = ram s x.

Definition vgood s s' (map pgd : Z) (L : list area) (E U : gset Z) : Prop :=
  exists L' T', vm_space s' map pgd L' T' E U /\ (private L -> private L') /\ vm_frame s s' map E U /\ ram_kept s s' U.

Lemma same_kept s s' U : ram s' = ram s -> ram_kept s s' U.
Proof. intros E p x _ _. by rewrite E. Qed.

Lemma space_page s map pgd L T E U x : vm_space s map pgd L T E U -> x ∈ U ∪ list_to_set (held_pages pgd T L) -> aligned x.
Proof. intros VS Hx. by destruct (kp_page _ _ x (sp_inv _ _ _ _ _ _ (va_space _ _ _ _ _ _ _ _ _ VS)) Hx). Qed.

Lemma allocated_good s s' map pgd L T E U va size : allocated OFFSET static s s' map pgd L T E U va size -> vm_space s map pgd L T E U -> aligned size -> vm_frame s s' map E U ->
  vgood s s' map pgd L E U.
Proof.
  intros (L1&a&L2&Q&b&R&T'&phys&->&Ha&HC&Hb&VS&_&Hd&Hram) VS0 As Hf. exists (filled L1 Q b R L2 phys), T'. split; [done|]. split; [by eapply private_filled|]. split; [done|].
  intros p x Hp Hx. rewrite Hram. destruct (decide _) as [Hin|]; [|done]. exfalso.
  assert (in_block x (phys + OFFSET, size)) as (q&Hq&Hxq)%block_pages by (unfold in_block; cbn; lia); [|done].
  assert (aligned q) as Aq.
  { destruct (va_phys _ _ _ _ _ _ _ _ _ VS (b <| ar_phys := phys |>)) as [Ap _]; [apply carved_elem; by left|unfold is_free; cbn; by rewrite Hb|].
    apply elem_of_pages_of in Hq as (i&_&->). cbn in Ap. unfold aligned, PAGE_SIZE in *. Z.div_mod_to_equations. lia. }
  assert (p = q) as -> by (eapply aligned_apart; [eapply space_page; [exact VS0|by apply elem_of_union_l]|done..]).
  apply (Hd q); [done|by apply elem_of_union_l].
Qed.

Lemma refl_good s map pgd L T E U : vm_space s map pgd L T E U -> vgood s s map pgd L E U.
Proof. intros VS. exists L, T. split; [done|]. split; [done|]. split; [by apply rstep_frame|by apply same_kept]. Qed.

Lemma do_allocate_good debug s map pgd L T E U addr size (anywhere : bool) : vm_space s map pgd L T E U -> 0 <= size ->
  (if anywhere then size + PAGE_MASK < 2 ^ 32 else 0 <= addr /\ addr + size + PAGE_SIZE < 2 ^ 32) -> (debug = true -> anywhere = false -> ~ kmem_short 2 (kh s)) ->
  exists r s', do_allocate OFFSET debug map addr size anywhere s = Some (r, s') /\ vgood s s' map pgd L E U.
Proof.
  intros VS H0' Hmax Hd. destruct (decide (size = 0)) as [->|Hz]; [exists (EINVAL, 0), s; split; [done|by eapply refl_good]|]. destruct anywhere.
  - destruct (do_allocate_any_ok OFFSET static debug HO HOd HU s map pgd L T E U addr size VS) as (err&va&s'&->&Hf&Ho); [lia|done|]. exists (err, va), s'. split; [done|].
    destruct Ho as [(_&Hal&_)|(_&_&Er&[[(_&_&VS') _]|(va'&T'&k&ph&VS'&_)])]; [|exists L, T; by split_and!; try apply same_kept|exists L, T'; by split_and!; try apply same_kept].
    destruct (PAGE_ALIGN_ok size) as [As _]; [lia|done|]. by eapply allocated_good.
  - destruct Hmax as [Ha Hmax]. destruct (do_allocate_at_ok OFFSET static debug HO HOd HU s map pgd L T E U addr size VS) as (err&va&s'&->&Hf&Ho); [done|lia|done|by intros ->; apply Hd|]. exists (err, va), s'. split; [done|].
    destruct Ho as [(_&_&Hal)|[(_&_&->&_)|(_&_&Er&[[(_&_&VS') _]|(T'&k&ph&VS'&_)])]];
      [|by eapply refl_good|exists L, T; by split_and!; try apply same_kept|exists L, T'; by split_and!; try apply same_kept].
    eapply allocated_good; [exact Hal|done| |done]. assert (0 <= page addr <= addr /\ aligned (page addr)) as [Hpg Apg] by (unfold page, aligned, PAGE_SIZE; Z.div_mod_to_equations; lia).
    destruct (PAGE_ALIGN_ok (page addr + size)) as [As _]; [lia|unfold PAGE_MASK, PAGE_SIZE in *; lia|]. unfold aligned, PAGE_SIZE in *. Z.div_mod_to_equations. lia.
Qed.

Lemma do_free_good debug s map pgd L T E U addr : vm_space s map pgd L T E U -> 0 <= addr < UMEM_MAX -> exists r s', do_free OFFSET debug map addr s = Some (r, s') /\ vgood s s' map pgd L E U.
Proof.
  intros VS Ha. destruct (do_free_ok OFFSET static debug HO HOd HU s map pgd L T E U addr VS Ha) as (err&s'&->&Hf&Er&Ho). exists err, s'. split; [done|].
  destruct Ho as [(_&L1&a&L2&->&_&_&VS'&_)|(_&->&_)]; [|by eapply refl_good]. exists (release L1 a L2), T. split; [done|]. split; [apply private_release|]. split; [done|by apply same_kept].
Qed.

Lemma do_attribute_good s map pgd L T E U addr attr : vm_space s map pgd L T E U -> private L -> 0 <= addr < UMEM_MAX ->
  exists r s', do_attribute OFFSET map addr attr s = Some (r, s') /\ vgood s s' map pgd L E U.
Proof.
  intros VS Hp Ha. destruct (do_attribute_ok OFFSET static HO HOd HU s map pgd L T E U addr attr VS Ha) as (err&s'&->&Hf&Er&Ho); [intros a HaL _; by apply (proj1 (Forall_forall _ _) Hp)|]. exists err, s'. split; [done|].
  destruct Ho as [(_&L1&a&L2&->&_&_&_&VS'&_)|(_&->&_)]; [|by eapply refl_good]. eexists _, T. split; [exact VS'|]. split; [intros _|split; [done|by apply same_kept]].
  unfold private in *. rewrite Forall_app, Forall_cons in *. destruct Hp as (F1&Fa&F2). split_and!; try done. unfold unshared, access_flags in *. cbn [ar_flags set].
  by destruct (Bool.eqb _ _), (flag attr VMA_WRITE).
Qed.

Lemma vstep_ok debug s map pgd L T E U op : vm_space s map pgd L T E U -> vop_ok op -> (is_attr op -> private L) -> (debug = true -> ~ starved op s) ->
  exists s', vstep debug map op s = Some s' /\ vgood s s' map pgd L E U.
Proof.
  intros VS Hop Hp Hd. pose proof (refl_good _ _ _ _ _ _ _ VS) as HR. destruct op as [valid self capable uaddr again writable size anywhere|valid self capable addr|valid self capable addr attr]; cbn [vop_ok vstep is_attr starved] in *.
  - unfold vm_allocate. destruct (negb valid); [by exists s|]. destruct (_ && _); [by exists s|]. destruct uaddr as [a|]; [|by exists s]. destruct (_ && _); [by exists s|].
    destruct Hop as [H0' Hmax]. destruct (do_allocate_good debug s map pgd L T E U a size anywhere VS H0') as ([err va]&s'&->&HG); [destruct anywhere; [done|by apply Hmax]|by intros Hdb ->; apply Hd|].
    by exists s'.
  - unfold vm_free. destruct (negb valid); [by exists s|]. destruct (_ && _); [by exists s|]. unfold user_area. destruct (Z.ltb_spec addr UMEM_MAX); [|by exists s].
    destruct (do_free_good debug s map pgd L T E U addr VS) as (r&s'&->&HG); [lia|by exists s'].
  - unfold vm_attribute. destruct (_ || _); [by exists s|]. destruct (negb valid); [by exists s|]. destruct (_ && _); [by exists s|]. unfold user_area. destruct (Z.ltb_spec addr UMEM_MAX); [|by exists s].
    destruct (do_attribute_good s map pgd L T E U addr attr VS (Hp I)) as (r&s'&->&HG); [lia|by exists s'].
Qed.

Lemma vgood_trans s1 s2 s3 map pgd L L2 T2 E U : vm_space s2 map pgd L2 T2 E U -> (private L -> private L2) -> vm_frame s1 s2 map E U -> ram_kept s1 s2 U ->
  vgood s2 s3 map pgd L2 E U -> vgood s1 s3 map pgd L E U.
Proof.
  intros VS Hp F R (L3&T3&VS3&Hp3&F3&R3). exists L3, T3. split; [done|]. split; [auto|]. split; [by eapply vm_frame_trans|]. intros p x Hx Hb. by rewrite (R3 p x), (R p x).
Qed.

(** What a kernel with ASSERT does, one without does as well. *)
Definition upto {A} (x y : option A) : Prop := forall a, x = Some a -> y = Some a.
Lemma upto_refl {A} (x : option A) : upto x x.
Proof. by intros a. Qed.
Lemma upto_bind {A B} (x y : option A) (f g : A -> option B) : upto x y -> (forall a, upto (f a) (g a)) -> upto (x ≫= f) (y ≫= g).
Proof. intros Hx Hf b E. destruct x as [a|]; [|done]. rewrite (Hx a eq_refl). by apply Hf. Qed.
Lemma upto_fmap {A B} (x y : option A) (f : A -> B) : upto x y -> upto (f <$> x) (f <$> y).
Proof. intros Hx b E. destruct x as [a|]; [|done]. by rewrite (Hx a eq_refl). Qed.

Ltac upto_step := repeat match goal with
  | |- upto ?x ?x => apply upto_refl
  | |- upto (_ ≫= _) (_ ≫= _) => apply upto_bind; [|intros ?]
  | |- upto (if ?b then _ else _) _ => destruct b
  | |- upto (match ?b with _ => _ end) _ => destruct b
  end.

Lemma region_free_upto debug head reg s : upto (region_free debug head reg s) (region_free false head reg s).
Proof. unfold region_free. upto_step. unfold ASSERT. destruct debug, (negb _); by intros []. Qed.
Lemma split_rest_upto debug head reg prev size s : upto (split_rest debug head reg prev size s) (split_rest false head reg prev size s).
Proof. unfold split_rest. upto_step. apply region_free_upto. Qed.
Lemma region_split_upto debug head reg addr size s : upto (region_split debug head reg addr size s) (region_split false head reg addr size s).
Proof. unfold region_split. upto_step; apply split_rest_upto. Qed.
Lemma do_allocate_upto debug map addr size anywhere s : upto (do_allocate OFFSET debug map addr size anywhere s) (do_allocate OFFSET false map addr size anywhere s).
Proof. unfold do_allocate, allocate_region, allocate_pages. upto_step; try apply region_split_upto; apply region_free_upto. Qed.
Lemma vstep_upto debug map op s : upto (vstep debug map op s) (vstep false map op s).
Proof.
  destruct op; cbn [vstep]; [| |apply upto_refl]; apply upto_fmap.
  - unfold vm_allocate. upto_step. apply do_allocate_upto.
  - unfold vm_free, do_free. upto_step. apply region_free_upto.
Qed.

(** A call of the run meets an ASSERT that fails: an allocation at an address that
    finds the heap without memory for two regions. *)
Definition stops (debug : bool) (map : Z) (ops : list vop) s : Prop :=
  debug = true /\ exists ops1 op ops2 s1, ops = ops1 ++ op :: ops2 /\ vrun debug map ops1 s = Some s1 /\ starved op s1 /\ vstep debug map op s1 = None.

Lemma starved_dec op s : starved op s \/ ~ starved op s.
Proof.
  destruct op as [? ? ? ? ? ? ? []| |]; cbn [starved]; try (right; tauto). unfold kmem_short.
  destruct (hs_alloc SIZEOF_REGION (kh s)) as [[r k]|] eqn:E1; [|right; by intros (?&?&?&_)].
  destruct (decide (r = 0)); [left; exists r, k; tauto|]. destruct (hs_alloc SIZEOF_REGION k) as [[r2 k2]|] eqn:E2; [|right; intros (?&?&?&[?|(?&?&?&_)]); simplify_eq].
  destruct (decide (r2 = 0)); [left; exists r, k; split; [done|]; right; exists r2, k2; tauto|]. right. intros (?&?&?&[?|(?&?&?&[?|[]])]); simplify_eq.
Qed.

Lemma vstep_any debug s map pgd L T E U op : vm_space s map pgd L T E U -> vop_ok op -> (is_attr op -> private L) ->
  (exists s', vstep debug map op s = Some s' /\ vgood s s' map pgd L E U) \/ (debug = true /\ starved op s /\ vstep debug map op s = None).
Proof.
  intros VS Hop Hp. destruct (starved_dec op s) as [Hst|Hst]; [|left; by eapply vstep_ok]. destruct (vstep_ok false s map pgd L T E U op VS Hop Hp) as (s'&E1&HG); [done|].
  destruct (vstep debug map op s) as [s2|] eqn:E2.
  - left. pose proof (vstep_upto _ _ _ _ _ E2) as E3. rewrite E1 in E3. injection E3 as ->. by exists s2.
  - right. split; [|done]. destruct debug; [done|congruence].
Qed.

Lemma vrun_ok debug map pgd E U ops : forall s L T, vm_space s map pgd L T E U -> Forall vop_ok ops -> (private L \/ Forall (fun op => ~ is_attr op) ops) ->
  (exists s', vrun debug map ops s = Some s' /\ vgood s s' map pgd L E U) \/ (vrun debug map ops s = None /\ stops debug map ops s).
Proof.
  induction ops as [|op ops IH]; intros s L T VS Hok Hp; cbn [vrun]; [left; exists s; split; [done|by eapply refl_good]|]. apply Forall_cons in Hok as [Hop Hok].
  destruct (vstep_any debug s map pgd L T E U op VS Hop) as [(s1&E1&L1&T1&VS1&Hp1&F1&R1)|(Hdb&Hst&E1)]; [intros Ha; destruct Hp as [?|[? _]%Forall_cons]; done| |]; rewrite E1; cbn [mbind option_bind].
  2: { right. split; [done|]. split; [done|]. by exists [], op, ops, s. }
  destruct (IH s1 L1 T1 VS1 Hok) as [(s2&->&HG)|(En&Hdb&ops1&op'&ops2&s2&->&Hr&Hst)]; [destruct Hp as [?|[_ ?]%Forall_cons]; tauto| |].
  - left. exists s2. split; [done|]. by eapply vgood_trans.
  - right. split; [done|]. split; [done|]. exists (op :: ops1), op', ops2, s2. split; [done|]. split; [|done]. cbn [vrun]. by rewrite E1.
Qed.

(** ** The theorems *)

(** C2: Whatever vm_allocate(), vm_free() and vm_attribute() system calls are made
    for an address space, with any capabilities, addresses, attributes and user
    pointers, and any sizes for which the range rounded to pages does not wrap
    around: none of them faults, and the address space stays consistent: the
    regions tile the user addresses, free neighbours are merged, every area in
    use is mapped to its pages, and the pages and page tables belong to nobody
    else.  The address space has no shared areas, or none of the calls is
    vm_attribute().  A kernel without ASSERT always comes to the end; one with
    ASSERT does unless an allocation at an address finds the heap without
    memory for two regions. *)
Theorem vm_run_safe debug s map pgd L T E U ops : vm_space s map pgd L T E U -> Forall vop_ok ops -> (private L \/ Forall (fun op => ~ is_attr op) ops) ->
  (exists s' L' T', vrun debug map ops s = Some s' /\ vm_space s' map pgd L' T' E U /\ (private L -> private L')) \/ stops debug map ops s.
Proof. intros VS Hok Hp. destruct (vrun_ok debug map pgd E U ops s L T VS Hok Hp) as [(s'&?&L'&T'&?&?&_)|[_ ?]]; [left; by exists s', L', T'|by right]. Qed.

(** C8: Such calls for one address space do not touch another: one whose regions
    and pages are others' for the first keeps its layout, its pages, page tables
    and the translation of every address, and no byte changes of any page that is
    not the first one's or free: the other address spaces' memory has the same
    contents.  As in C2, ranges do not wrap around, and the first address space
    has no shared areas or the calls are without vm_attribute(). *)
Theorem vm_run_isolated debug s map1 pgd1 L1 T1 E1 U1 ops map2 pgd2 L2 T2 E2 U2 s' : vm_space s map1 pgd1 L1 T1 E1 U1 -> Forall vop_ok ops ->
  (private L1 \/ Forall (fun op => ~ is_attr op) ops) ->
  vm_space s map2 pgd2 L2 T2 E2 U2 -> (forall x, x ∈ ptrs L2 -> x ∈ E1) -> (forall x, x ∈ held_pages pgd2 T2 L2 -> x ∈ U1) -> vrun debug map1 ops s = Some s' ->
  (exists E2' U2', vm_space s' map2 pgd2 L2 T2 E2' U2') /\ (forall x, user_page x -> pte (mm s') pgd2 x = pte (mm s) pgd2 x) /\ ram_kept s s' U1.
Proof.
  intros VS1 Hok Hp VS2 HE HU' Hrun. assert (vgood s s' map1 pgd1 L1 E1 U1) as (L1'&T1'&VS1'&_&Hf&HR).
  { destruct (vrun_ok debug map1 pgd1 E1 U1 ops s L1 T1 VS1 Hok Hp) as [(s1&E&HG)|[E _]]; rewrite E in Hrun; [by injection Hrun as ->|done]. }
  destruct (vm_isolated OFFSET static HO HOd s s' map1 pgd1 L1' T1' E1 U1 map2 pgd2 L2 T2 E2 U2 VS1' Hf VS2 HE HU') as (E2'&U2'&?&?). split; [by exists E2', U2'|by split].
Qed.

(** Vm_allocate() anywhere takes the beginning of the first free area that is
    large enough: the piece is in use and writable, on pages nobody held, which
    are filled with zeros; no other memory, area or translation changes.  When
    it returns ENOMEM for want of a region structure or of pages, nothing has
    changed; when a page table could not be allocated the layout is restored. *)
Theorem vm_allocate_any_spec debug s map pgd L T E U addr size : vm_space s map pgd L T E U -> 0 < size -> size + PAGE_MASK < 2 ^ 32 ->
  let sz := PAGE_ALIGN size in
  exists err va s', do_allocate OFFSET debug map addr size true s = Some (err, va, s') /\ vm_frame s s' map E U /\
    ((err = 0 /\ allocated OFFSET static s s' map pgd L T E U va sz /\ exists a, List.find (fits sz) L = Some a /\ va = ar_addr a) \/
     (err = ENOMEM /\ va = 0 /\ ram s' = ram s /\
        ((refused OFFSET static s s' map pgd L T E U /\ (List.find (fits sz) L = None \/ kmem_short 1 (kh s) \/ fst <$> kp_alloc sz (upages (mm s)) = Some 0)) \/
         exists va, half_mapped OFFSET static s s' map pgd L E U va sz 7))).
Proof. by apply do_allocate_any_ok. Qed.

(** C30: Vm_allocate() at an address, of a range that does not wrap around (with a
    page to spare), takes the pages of the range out of the free area around
    them; if the range is not inside one free area it returns EINVAL and nothing
    changes; when memory for regions, pages or page tables is short it returns
    ENOMEM with the layout and all contents as before.  In a kernel with ASSERT
    the heap must have memory for two regions: region_split() would otherwise
    give back a region whose flags are still REG_FREE, which region_free()
    asserts against. *)
Theorem vm_allocate_at_spec debug s map pgd L T E U addr size : vm_space s map pgd L T E U -> 0 <= addr -> 0 < size -> addr + size + PAGE_SIZE < 2 ^ 32 ->
  (debug = true -> ~ kmem_short 2 (kh s)) ->
  let start := page addr in let sz := PAGE_ALIGN (start + size) - start in
  exists err va s', do_allocate OFFSET debug map addr size false s = Some (err, va, s') /\ vm_frame s s' map E U /\
    ((err = 0 /\ va = start /\ allocated OFFSET static s s' map pgd L T E U start sz) \/
     (err = EINVAL /\ va = 0 /\ s' = s /\ ~ exists a, a ∈ L /\ is_free a = true /\ ar_addr a <= start /\ start + sz <= ar_addr a + ar_size a) \/
     (err = ENOMEM /\ va = 0 /\ ram s' = ram s /\
        ((refused OFFSET static s s' map pgd L T E U /\ (kmem_short 2 (kh s) \/ fst <$> kp_alloc sz (upages (mm s)) = Some 0)) \/ half_mapped OFFSET static s s' map pgd L E U start sz 7))).
Proof. by apply do_allocate_at_ok. Qed.

(** Vm_free() gives back the area that starts at the page of the address: its
    addresses are unmapped and merged with free neighbours, its pages freed
    unless shared.  An invalid task, a missing capability, an address outside
    the user area or one where no area starts is an error that changes nothing. *)
Theorem vm_free_spec debug s map pgd L T E U (valid self capable : bool) addr : vm_space s map pgd L T E U -> 0 <= addr ->
  exists err s', vm_free OFFSET debug valid self capable map addr s = Some (err, s') /\ vm_frame s s' map E U /\ ram s' = ram s /\
    if negb valid then err = ESRCH /\ s' = s
    else if negb self && negb capable then err = EPERM /\ s' = s
    else if decide (UMEM_MAX <= addr) then err = EFAULT /\ s' = s
    else (err = 0 /\ freed OFFSET static s s' map pgd L T E U (page addr)) \/
         (err = EINVAL /\ s' = s /\ ~ exists a, a ∈ L /\ is_free a = false /\ ar_addr a = page addr).
Proof.
  intros VS Ha. assert (vm_frame s s map E U) as Hfr by (by apply rstep_frame). unfold vm_free, user_area. destruct valid; cbn [negb]; [|exists ESRCH, s; by split_and!].
  destruct (negb self && negb capable); [exists EPERM, s; by split_and!|]. destruct (Z.ltb_spec addr UMEM_MAX); cbn [negb].
  - destruct (do_free_ok OFFSET static debug HO HOd HU s map pgd L T E U addr VS) as (err&s'&E'&?&?&?); [lia|]. exists err, s'. rewrite decide_False by lia. by split_and!.
  - exists EFAULT, s. rewrite decide_True by lia. by split_and!.
Qed.

(** Allocating and freeing again leaves the layout as it was. *)
Theorem vm_allocate_free debug s map pgd L T E U size va s1 : vm_space s map pgd L T E U -> 0 < size -> size + PAGE_MASK < 2 ^ 32 ->
  do_allocate OFFSET debug map 0 size true s = Some (0, va, s1) ->
  exists s2 L' T', do_free OFFSET debug map va s1 = Some (0, s2) /\ vm_space s2 map pgd L' T' E U /\ shape <$> L' = shape <$> L /\ (clean s pgd L -> clean s2 pgd L').
Proof.
  intros VS Hz Hmax Hrun. destruct (PAGE_ALIGN_ok size) as [As Hge]; [lia|done|]. destruct (do_allocate_any_ok OFFSET static debug HO HOd HU s map pgd L T E U 0 size VS Hz Hmax) as (err&va'&s1'&Er&_&Ho). rewrite Er in Hrun. injection Hrun as -> -> ->.
  destruct Ho as [(_&(L1&a&L2&Q&b&R&T'&phys&->&Ha&HC&Hb&VS1&Hcl1&_)&_)|(?&_)]; [|done]. set (sz := PAGE_ALIGN size) in *. assert (0 < sz) as Hsz by lia.
  pose proof (va_layout _ _ _ _ _ _ _ _ _ VS) as VL. assert (a ∈ L1 ++ a :: L2) as HaL by (apply elem_of_app; right; by left). destruct (tiles_range _ _ _ a (lo_tiles _ VL) HaL) as (Hlo&_&Hhi).
  pose proof (carved_in _ _ _ _ _ _ va HC Hsz ltac:(lia)) as Hin. unfold in_area, UMEM_MAX, PAGE_SIZE in *. set (b' := b <| ar_phys := phys |>) in *. destruct (cv_piece _ _ _ _ _ _ HC) as [Eb _].
  assert (b' ∈ filled L1 Q b R L2 phys) as Hbin by (unfold filled; apply carved_elem; by left).
  assert (aligned va) as Ava. { rewrite <- Eb. change (ar_addr b) with (ar_addr b'). eapply (tiles_aligned _ _ _ b' (lo_tiles _ (va_layout _ _ _ _ _ _ _ _ _ VS1))); [done|exact Hbin]. }
  assert (page va = va) as Epg by (unfold page, aligned, PAGE_SIZE in *; lia). destruct (do_free_ok OFFSET static debug HO HOd HU s1 map pgd _ T' E U va VS1) as (err&s2&Ef&_&_&Ho); [unfold UMEM_MAX; lia|]. rewrite Epg in Ho.
  destruct Ho as [(->&M1&c&M2&EL&Hcf&Ec&VS2&Hcl2&_)|(_&_&Hno)].
  2: { destruct Hno. exists b'. split; [exact Hbin|]. split; [|exact Eb]. unfold is_free, b'. cbn. by rewrite Hb. }
  assert (filled L1 Q b R L2 phys = (L1 ++ Q) ++ b' :: R ++ L2) as EL' by (unfold filled; rewrite <- !app_assoc; done). rewrite EL' in EL.
  pose proof (lo_tiles _ (va_layout _ _ _ _ _ _ _ _ _ VS1)) as Ht1. rewrite EL' in Ht1. destruct (split_unique _ _ _ _ _ _ _ _ Ht1 EL) as (<-&<-&<-); [change (ar_addr b') with (ar_addr b); congruence|].
  assert (carved a Q b' R va sz) as HC' by (by destruct HC). destruct (release_carved L1 a L2 Q b' R va sz VL Ha HC' Hsz) as (ph&Erl&_). rewrite Erl in VS2, Hcl2.
  exists s2, (L1 ++ a <| ar_phys := ph |> :: L2), T'. split; [done|]. split; [done|]. split; [|intros Hcl; by apply Hcl2, Hcl1].
  rewrite !fmap_app, !fmap_cons. do 2 f_equal. unfold shape. change (is_free (a <| ar_phys := ph |>)) with (is_free a). by rewrite Ha.
Qed.

(** The walk of region_find() along the ring is a search in the layout: it finds
    the area that contains the range, and NULL when none does. *)
Theorem region_find_spec s map L E addr size : regions s map L E -> layout_ok L -> 0 <= addr -> 0 < size -> addr + size < 2 ^ 32 ->
  region_find map addr size s = Some (default 0 (ar_ptr <$> List.find (fun a => bool_decide (ar_addr a <= addr /\ addr + size <= ar_addr a + ar_size a)) L)).
Proof.
  intros R HL H0' Hz Hmax. rewrite (region_find_ok s map L E addr size R). do 3 f_equal. pose proof (fun a Ha => covers_range L a addr size HL Ha H0' Hz Hmax) as Hc. clear -Hc.
  induction L as [|a L IH]; [done|]. cbn [List.find]. rewrite IH by (intros b Hb; apply Hc; by right). specialize (Hc a ltac:(by left)).
  destruct (covers addr size a); [rewrite bool_decide_true by (by apply Hc); done|]. rewrite bool_decide_false; [done|]. intros Hr. by apply Hc in Hr.
Qed.

(** vm_create() makes an address space that is all free and unmapped, with one
    reference, or returns NULL and has given back what it took. *)
Theorem vm_create_spec s boot_pgd b E U : hs_inv (kh s) E -> kp_inv (upages (mm s)) U -> tabs (mm s) !! boot_pgd = Some b ->
  exists map s', vm_create OFFSET boot_pgd s = Some (map, s') /\ ram s' = ram s /\ cr3 s' = cr3 s /\
    (forall x, x ∈ E -> maps s' !! x = maps s !! x /\ regs s' !! x = regs s !! x) /\
    ((map = 0 /\ mm s' = mm s /\ hs_inv (kh s') E) \/
     (map <> 0 /\ map ∉ E /\ exists pgd, v_refcnt <$> maps s' !! map = Some 1 /\ vm_space s' map pgd (blank map) ∅ E U /\ clean s' pgd (blank map) /\
        (forall x, x ∈ U -> tabs (mm s') !! x = tabs (mm s) !! x))).
Proof. by apply vm_create_ok. Qed.

(** C31: Vm_terminate() of an address space without shared areas drops a reference;
    with the last one it gives back every page, page table and structure of the
    address space, and nothing else.  (What region_delete() does to the list of
    a shared area is [region_delete_shared].) *)
Theorem vm_terminate_spec s map pgd L T E U (v : vm_map) : vm_space s map pgd L T E U -> maps s !! map = Some v -> private L ->
  exists s', vm_terminate OFFSET map s = Some s' /\ ram s' = ram s /\ cr3 s' = cr3 s /\
    (forall x, x ∈ E -> regs s' !! x = regs s !! x /\ maps s' !! x = maps s !! x) /\ (forall x, x ∈ U -> tabs (mm s') !! x = tabs (mm s) !! x) /\
    if decide (1 < v_refcnt v) then maps s' !! map = Some (v <| v_refcnt := v_refcnt v - 1 |>) /\ vm_space s' map pgd L T E U
    else hs_inv (kh s') E /\ kp_inv (upages (mm s')) U.
Proof. by apply vm_terminate_ok. Qed.

(** vm_attribute() on a valid request sets the access of the area that starts at
    the page, in its flags and in every page-table entry; areas mapped from
    another task are refused. *)
Theorem vm_attribute_spec s map pgd L T E U (valid self capable : bool) addr attr : vm_space s map pgd L T E U -> private L -> 0 <= addr ->
  exists err s', vm_attribute OFFSET valid self capable map addr attr s = Some (err, s') /\ vm_frame s s' map E U /\ ram s' = ram s /\
    if (attr =? 0) || flag attr (Z.lnot (Z.lor VMA_READ VMA_WRITE)) then err = EINVAL /\ s' = s
    else if negb valid then err = ESRCH /\ s' = s
    else if negb self && negb capable then err = EPERM /\ s' = s
    else if decide (UMEM_MAX <= addr) then err = EFAULT /\ s' = s
    else (err = 0 /\ exists L1 a L2, L = L1 ++ a :: L2 /\ ar_addr a = page addr /\ is_free a = false /\ flag (ar_flags a) REG_MAPPED = false /\
            let b := a <| ar_flags := access_flags (ar_flags a) attr |> in vm_space s' map pgd (L1 ++ b :: L2) T E U /\ (clean s pgd L -> clean s' pgd (L1 ++ b :: L2))) \/
         (err = EINVAL /\ s' = s /\ ~ exists a, a ∈ L /\ ar_addr a = page addr /\ is_free a = false /\ flag (ar_flags a) REG_MAPPED = false).
Proof.
  intros VS Hp Ha. assert (vm_frame s s map E U) as Hfr by (by apply rstep_frame). unfold vm_attribute, user_area. destruct ((attr =? 0) || _); [exists EINVAL, s; by split_and!|]. destruct valid; cbn [negb]; [|exists ESRCH, s; by split_and!].
  destruct (negb self && negb capable); [exists EPERM, s; by split_and!|]. destruct (Z.ltb_spec addr UMEM_MAX); cbn [negb].
  - destruct (do_attribute_ok OFFSET static HO HOd HU s map pgd L T E U addr attr VS) as (err&s'&E'&?&?&?); [lia|intros a HaL _; by apply (proj1 (Forall_forall _ _) Hp)|]. exists err, s'. rewrite decide_False by lia. by split_and!.
  - exists EFAULT, s. rewrite decide_True by lia. by split_and!.
Qed.

(** Vm_map() of memory of another task gives the current task an area whose
    page-table entries are those of the range in the other task: both see the
    same memory with the same access.  A range that is not inside one area in
    use is EINVAL, and nothing changes. *)
Theorem vm_map_spec s tmap tpgd Lt Tt Et Ut map pgd L T E U addr size : vm_space s tmap tpgd Lt Tt Et Ut -> vm_space s map pgd L T E U ->
  (forall x, x ∈ ptrs Lt -> x ∈ E) -> 0 <= addr -> 0 < size -> addr + size + PAGE_SIZE < 2 ^ 32 ->
  let start := page addr in let sz := span addr size in
  exists err out s', do_map OFFSET false tmap map addr size true s = Some (err, out, s') /\ vm_frame s s' map E U /\ ram s' = ram s /\
    ((err = 0 /\ exists cur, out = Some (cur + (addr - start)) /\ aliased OFFSET static s tpgd Lt map pgd L E U s' start sz cur) \/
     (err = EINVAL /\ out = Some 0 /\ s' = s /\ ~ exists t, target Lt t start sz) \/
     (err = ENOMEM /\ out = Some 0 /\
        ((refused OFFSET static s s' map pgd L T E U /\ (List.find (fits sz) L = None \/ kmem_short 1 (kh s))) \/
         exists cur f, half_mapped OFFSET static s s' map pgd L E U cur sz f))).
Proof. intros VT VS HE. by apply (do_map_ok OFFSET static false HO HOd HU s tmap tpgd Lt Tt Et Ut map pgd L T E U VT VS HE). Qed.

(** C4: Vm_fork() of an address space that has a free area and no areas shared or
    mapped from elsewhere (each read-only one is alone on its list of shared
    regions) gives the child an address space with the parent's layout, in
    which every address in use shows the bytes that the parent saw; what the
    parent sees does not change.  Areas that can be written are on pages that
    nobody held before, so that later writes of one task are not seen by the
    other; read-only areas are marked shared on both sides and linked to each
    other, and only to each other, by sh_prev and sh_next.  When memory runs
    out the parent's address space is intact. *)
Theorem vm_fork_spec s org pgd L T E U boot_pgd b : vm_space s org pgd L T E U -> tabs (mm s) !! boot_pgd = Some b -> Forall forkable L -> Exists (fun a => is_free a = true) L -> lonely s L ->
  exists new s', vm_fork OFFSET boot_pgd org s = Some (new, s') /\
    ((new = 0 /\ exists E' U', vm_space s' org pgd L T E' U') \/
     (new <> 0 /\ exists npgd N T' E' U', vm_space s' new npgd N T' (E ∪ list_to_set (ptrs L)) (U ∪ list_to_set (held_pages pgd T L)) /\ vm_space s' org pgd (share <$> L) T E' U' /\ Forall2 like L N /\ Forall2 (paired (regs s')) L N /\
        forall a x, a ∈ L -> is_free a = false -> in_area x a -> ubyte OFFSET s' npgd x = ubyte OFFSET s pgd x /\ ubyte OFFSET s' pgd x = ubyte OFFSET s pgd x)).
Proof.
  intros VS Hb HF Hex Hlo. destruct (do_fork_ok OFFSET static HO HOd HU s org pgd L T E U boot_pgd b VS Hb HF Hex Hlo) as (new&s'&Ef&Ho). exists new, s'. split; [exact Ef|].
  destruct Ho as [[-> HP]|(Hn&npgd&N&T'&[(E'&U'&VP) VC HL Hpr Hv])]; [left; split; [done|]; by eapply parted_space|]. right. split; [done|]. by exists npgd, N, T', E', U'.
Qed.

(** C20: Vm_load() of a module linked at page boundaries gives the task its image:
    the text and the data at their addresses, zeros behind the data and on the
    stack, and text that cannot be written; the pages of the module are free
    afterwards.  If it fails, the address space is still consistent. *)
Theorem vm_load_spec s kern_map map pgd L T E U md : vm_space s map pgd L T E U -> map <> kern_map -> module_ok OFFSET md U ->
  exists r stack s', vm_load OFFSET false kern_map map md s = Some (r, stack, s') /\
    ((r = -1 /\ exists L' T', vm_space s' map pgd L' T' E U) \/
     (r = 0 /\ stack = Some USTACK_BASE /\ exists L' T', vm_space s' map pgd L' T' E (U ∖ image_pages OFFSET md) /\ loaded OFFSET s s' pgd md L')).
Proof. by apply vm_load_ok. Qed.
End Run.
