(* ===== verification/VmDemo.v ===== *)
(** * VmDemo: two address spaces on a small machine

    The memory of the page allocator's machine for the pages of the tasks, and a
    pool of four pages for the kernel allocator.  An address space is created,
    two pages are allocated in it, and a second address space is created; the
    theorems of VmRun are applied to these states. *)
From stdpp Require Import base numbers gmap list.
From S2P Require Import Prelude Core Queue Page PageSpec PageSource Kmem KmemSpec HeapSource Mmu MmuSpec Vm VmRing VmLayout VmRegions VmSpace VmSpec VmLife VmMap VmFork VmLoad VmShare VmRun.

Open Scope Z_scope.

Module VmDemo.
Import PageDemo.
Abbreviation static := MmuDemo.static.
Abbreviation boot := MmuDemo.boot.
Abbreviation free_blocks := KmemDemo.free_blocks.
Abbreviation kmem_pages := KmemDemo.kmem_pages.
#[local] Instance source : PageSource pmem := page_source OFFSET head.
#[local] Instance laws : PageSourceLaws pmem OFFSET static := page_laws OFFSET head offset_ok static.
#[local] Instance hsource : HeapSource (kheap pmem) := kmem_source OFFSET free_blocks kmem_pages.
#[local] Instance hlaws : HeapSourceLaws (kheap pmem) := kmem_laws OFFSET static free_blocks kmem_pages offset_ok KmemDemo.apart KmemDemo.heads_static.

Abbreviation machine := (vmem (kheap pmem) pmem).
Abbreviation vm_space := (VmSpace.vm_space OFFSET static).
Abbreviation held := (held_pages OFFSET).
Definition run {R : Type} (s : machine) (r : option (R * machine)) : machine := default s (snd <$> r).

Definition kernel_pool : pmem := default (empty_pmem head) (ps_mem <$> page_init OFFSET head [mk_physmem 0x20000 0x4000 MT_USABLE]).
Definition s0 : machine := mk_vmem ∅ ∅ (kmem_init free_blocks kmem_pages kernel_pool) MmuDemo.m0 (fun _ => 0) 0.
Definition A := 0x8002001c.
Definition pgdA := 0x80001000.
Definition s1 := run s0 (vm_create OFFSET boot s0).
Definition s2 := run s1 (do_allocate OFFSET false A 0 0x1800 true s1).
Definition B := 0x8002008c.
Definition pgdB := 0x80007000.
Definition s3 := run s2 (vm_create OFFSET boot s2).

Lemma umem_offset : UMEM_MAX <= OFFSET.
Proof. done. Qed.

Lemma kernel_pages : pages_ok OFFSET head kernel_pool [(0x80020000, 0x4000)].
Proof.
  split; [split|split].
  - split; [apply (bool_decide_unpack _); by vm_compute|]. vm_compute. tauto.
  - intros b [->|[]%elem_of_nil]%elem_of_cons; by vm_compute.
  - unfold block_ok, aligned, in_block. repeat constructor; cbn; unfold OFFSET, head, PAGE_SIZE; (reflexivity || lia).
  - unfold apart. repeat constructor.
Qed.

Lemma s0_heap : hs_inv (kh s0) ∅.
Proof.
  exists []. split; [|done]. apply kmem_init_live. eexists. split; [exact kernel_pages|]. split; [intros a ?%elem_of_empty; done|].
  intros x Hs (b&Hb&Hx). unfold MmuDemo.static, in_block in *. apply elem_of_cons in Hb as [->|[]%elem_of_nil]; cbn in Hx; lia.
Qed.

Lemma s0_boot : tabs (mm s0) !! boot = Some MmuDemo.boot_dir.
Proof. exact MmuDemo.m0_boot. Qed.
Lemma s0_pages : kp_inv (upages (mm s0)) ∅.
Proof. exact MmuDemo.m0_pages. Qed.

Lemma s1_runs : fst <$> vm_create OFFSET boot s0 = Some A.
Proof. by vm_compute. Qed.
Lemma s1_pgd : v_pgd <$> maps s1 !! A = Some pgdA.
Proof. by vm_compute. Qed.
Lemma s2_runs : fst <$> do_allocate OFFSET false A 0 0x1800 true s1 = Some (0, 0x1000).
Proof. by vm_compute. Qed.
Lemma s2_boot : tabs (mm s2) !! boot = Some MmuDemo.boot_dir.
Proof. by vm_compute. Qed.
Lemma s3_runs : fst <$> vm_create OFFSET boot s2 = Some B.
Proof. by vm_compute. Qed.
Lemma s3_pgd : v_pgd <$> maps s3 !! B = Some pgdB.
Proof. by vm_compute. Qed.
Lemma s2_fst_area : (fun r => (r_addr r, r_size r, r_flags r)) <$> regs s2 !! A = Some (0x1000, 0x2000, 3).
Proof. by vm_compute. Qed.
Lemma s3_maps : fst <$> do_map OFFSET false A B 0x1800 0x400 true s3 = Some (0, Some 0x1800).
Proof. by vm_compute. Qed.
Lemma A_nonzero : A <> 0.
Proof. done. Qed.
Lemma B_nonzero : B <> 0.
Proof. done. Qed.

#[local] Opaque s0 vm_create do_allocate do_free do_map do_attribute vm_terminate vm_free vm_attribute vrun A B.

Lemma run_some {R} (s : machine) (r : option (R * machine)) v s' : r = Some (v, s') -> run s r = s'.
Proof. by intros ->. Qed.
Lemma fst_some {R S} (r : option (R * S)) v w s : fst <$> r = Some v -> r = Some (w, s) -> v = w.
Proof. intros E ->. cbn in E. by injection E. Qed.

(** A new address space, with what it shares the memory with. *)
Lemma created s E U map pgd b : hs_inv (kh s) E -> kp_inv (upages (mm s)) U -> tabs (mm s) !! boot = Some b ->
  fst <$> vm_create OFFSET boot s = Some map -> map <> 0 -> let s' := run s (vm_create OFFSET boot s) in v_pgd <$> maps s' !! map = Some pgd ->
  vm_space s' map pgd (blank map) ∅ E U /\ VmSpace.clean OFFSET s' pgd (blank map) /\
  (forall x, x ∈ E -> maps s' !! x = maps s !! x /\ regs s' !! x = regs s !! x) /\ (forall x, x ∈ U -> tabs (mm s') !! x = tabs (mm s) !! x).
Proof.
  intros HH HP Hb Hr Hnz s' Hpgd. destruct (vm_create_ok OFFSET static MmuDemo.offset_range MmuDemo.offset_dir s boot b E U HH HP Hb) as (map'&s''&Ec&_&_&Hfr&Ho).
  pose proof (fst_some _ _ _ _ Hr Ec) as <-. assert (s' = s'') as Es by (unfold s'; exact (run_some _ _ _ _ Ec)). rewrite Es in *.
  destruct Ho as [[-> _]|(_&_&pgd'&_&VS&Hcl&HT)]; [by destruct Hnz|]. pose proof (va_map _ _ _ _ _ _ _ _ _ VS) as Ep. rewrite Hpgd in Ep. injection Ep as ->. by split_and!.
Qed.

Lemma s1_space : vm_space s1 A pgdA (blank A) ∅ ∅ ∅ /\ VmSpace.clean OFFSET s1 pgdA (blank A).
Proof. destruct (created s0 ∅ ∅ A pgdA _ s0_heap s0_pages s0_boot s1_runs A_nonzero s1_pgd) as (VS&Hcl&_). split; [exact VS|exact Hcl]. Qed.

#[local] Opaque s1.

Lemma blank_private map : private (blank map).
Proof. unfold private, blank. constructor; [done|constructor]. Qed.

(** Two pages at 0x1000, writable. *)
Lemma s2_space : exists L T, vm_space s2 A pgdA L T ∅ ∅ /\ private L.
Proof.
  destruct (do_allocate_any_ok OFFSET static false MmuDemo.offset_range MmuDemo.offset_dir umem_offset s1 A pgdA (blank A) ∅ ∅ ∅ 0 0x1800 (proj1 s1_space) eq_refl eq_refl) as (err&va&s'&Er&Hf&Ho).
  pose proof (fst_some _ _ _ _ s2_runs Er) as Ev. injection Ev as <- <-. assert (s2 = s') as -> by (unfold s2; exact (run_some _ _ _ _ Er)).
  destruct Ho as [(_&Hal&_)|(E&_)]; [|discriminate E]. destruct (allocated_good OFFSET static MmuDemo.offset_dir _ _ _ _ _ _ _ _ _ _ Hal (proj1 s1_space) eq_refl Hf) as (L&T&VS&Hp&_). exists L, T. split; [exact VS|exact (Hp (blank_private A))].
Qed.

Lemma s2_result : do_allocate OFFSET false A 0 0x1800 true s1 = Some (0, 0x1000, s2).
Proof. pose proof s2_runs as E. unfold s2, run. destruct (do_allocate OFFSET false A 0 0x1800 true s1) as [[r s]|]; [|discriminate E]. injection E as ->. reflexivity. Qed.

#[local] Opaque s2.

(** Both address spaces. *)
Lemma s3_spaces : exists L T E U E' U', vm_space s3 A pgdA L T E' U' /\ private L /\ vm_space s3 B pgdB (blank B) ∅ E U /\
  (forall x, x ∈ ptrs L -> x ∈ E) /\ (forall x, x ∈ held pgdA T L -> x ∈ U).
Proof.
  destruct s2_space as (L&T&VS&Hp). pose proof VS as [[HH _ _ _ _] _ _ [HP _ _ _] _ _ _ _].
  destruct (created s2 _ _ B pgdB _ HH HP s2_boot s3_runs B_nonzero s3_pgd) as (VB&_&HE&HU). exists L, T, (∅ ∪ list_to_set (ptrs L)), (∅ ∪ list_to_set (held pgdA T L)).
  assert (forall x, x ∈ ptrs L -> x ∈ (∅ : gset Z) ∪ list_to_set (ptrs L)) as H1 by (intros x Hx; apply elem_of_union_r; by apply elem_of_list_to_set).
  assert (forall x, x ∈ held pgdA T L -> x ∈ (∅ : gset Z) ∪ list_to_set (held pgdA T L)) as H2 by (intros x Hx; apply elem_of_union_r; by apply elem_of_list_to_set).
  destruct (vm_kept OFFSET static MmuDemo.offset_range MmuDemo.offset_dir s2 s3 B pgdB (blank B) ∅ _ _ A pgdA L T ∅ ∅ VB HE HU VS H1 H2) as (E'&U'&VA&_).
  exists E', U'. split; [exact VA|]. split; [exact Hp|]. split; [exact VB|]. split; [exact H1|exact H2].
Qed.

#[local] Opaque s3.

(** ** The theorems applied *)

Definition alloc (size : Z) : vop := VAlloc true true false (Some 0) 0 true size true.
Definition alloc_at (addr size : Z) : vop := VAlloc true true false (Some addr) addr true size false.

Definition requests : list vop := [alloc 0x1800; alloc_at 0x8800 100; VAttr true true false 0x8000 VMA_READ; VFree true false true 0x1000; VFree true false false 0x8000].
Lemma requests_ok : Forall vop_ok requests.
Proof. unfold requests, alloc, alloc_at. repeat constructor; cbn; intros; simplify_eq; unfold PAGE_SIZE, PAGE_MASK; lia. Qed.

Lemma requests_run : is_Some (vrun OFFSET true A requests s1).
Proof. assert (match vrun OFFSET true A requests s1 with Some _ => true | None => false end = true) as Hc by (by vm_compute). destruct (vrun _ _ _ _ _); [by eexists|discriminate Hc]. Qed.

Lemma vm_run_safe_witness : exists s' L' T', vrun OFFSET true A requests s1 = Some s' /\ vm_space s' A pgdA L' T' ∅ ∅ /\ private L'.
Proof.
  destruct (vm_run_safe OFFSET static MmuDemo.offset_range MmuDemo.offset_dir umem_offset true s1 A pgdA (blank A) ∅ ∅ ∅ requests (proj1 s1_space) requests_ok (or_introl (blank_private A)))
    as [(s'&L'&T'&Er&VS&Hp)|(_&ops1&op&ops2&s'&Eo&Er&_&En)].
  - exists s', L', T'. split; [exact Er|]. split; [exact VS|exact (Hp (blank_private A))].
  - exfalso. assert (is_Some (vrun OFFSET true A requests s1)) as [s2 E2] by exact requests_run. rewrite Eo in E2. clear -Er En E2. revert s' Er En E2.
    generalize s1. induction ops1 as [|o ops1 IH]; intros x s' Er En E2; cbn [app vrun] in *; [injection Er as ->; rewrite En in E2; discriminate E2|].
    destruct (vstep OFFSET true A o x) as [y|]; [|discriminate Er]. exact (IH y s' Er En E2).
Defined.

Lemma vm_run_isolated_witness : exists L T U s', vrun OFFSET false B requests s3 = Some s' /\
  (exists E' U', vm_space s' A pgdA L T E' U') /\ (forall x, user_page OFFSET x -> pte OFFSET (mm s') pgdA x = pte OFFSET (mm s3) pgdA x) /\
  (forall x, x ∈ held pgdA T L -> x ∈ U) /\ ram_kept s3 s' U.
Proof.
  destruct s3_spaces as (L&T&E&U&E'&U'&VA&_&VB&HE&HU).
  destruct (vrun_ok OFFSET static MmuDemo.offset_range MmuDemo.offset_dir umem_offset false B pgdB E U requests s3 (blank B) ∅ VB requests_ok (or_introl (blank_private B))) as [(s'&Er&_)|(_&Ed&_)]; [|discriminate Ed].
  exists L, T, U, s'. split; [exact Er|].
  destruct (vm_run_isolated OFFSET static MmuDemo.offset_range MmuDemo.offset_dir umem_offset false s3 B pgdB (blank B) ∅ E U requests A pgdA L T E' U' s' VB requests_ok (or_introl (blank_private B)) VA HE HU Er) as (H1&H2&H3).
  split; [exact H1|]. split; [exact H2|]. split; [exact HU|exact H3].
Defined.

Lemma vm_allocate_any_spec_witness : exists s', do_allocate OFFSET false A 0 0x1800 true s1 = Some (0, 0x1000, s') /\ allocated OFFSET static s1 s' A pgdA (blank A) ∅ ∅ ∅ 0x1000 0x2000.
Proof.
  destruct (vm_allocate_any_spec OFFSET static MmuDemo.offset_range MmuDemo.offset_dir umem_offset false s1 A pgdA (blank A) ∅ ∅ ∅ 0 0x1800 (proj1 s1_space) eq_refl eq_refl) as (err&va&s'&Er&_&Ho).
  pose proof (fst_some _ _ _ _ s2_runs Er) as Ev. injection Ev as <- <-. exists s'. split; [exact Er|].
  destruct Ho as [(_&Hal&_)|(E&_)]; [exact Hal|discriminate E].
Defined.

(** The kernel allocator has regions enough for a split. *)
Lemma two_blocks : ~ kmem_short 2 (kh s1).
Proof. apply enough_ok. by vm_compute. Qed.
Lemma at_runs : fst <$> do_allocate OFFSET true A 0x8800 100 false s1 = Some (0, 0x8000).
Proof. by vm_compute. Qed.

Lemma vm_allocate_at_spec_witness : exists s', do_allocate OFFSET true A 0x8800 100 false s1 = Some (0, 0x8000, s') /\ allocated OFFSET static s1 s' A pgdA (blank A) ∅ ∅ ∅ 0x8000 0x1000.
Proof.
  destruct (vm_allocate_at_spec OFFSET static MmuDemo.offset_range MmuDemo.offset_dir umem_offset true s1 A pgdA (blank A) ∅ ∅ ∅ 0x8800 100 (proj1 s1_space) ltac:(lia) eq_refl eq_refl (fun _ => two_blocks)) as (err&va&s'&Er&_&Ho).
  pose proof (fst_some _ _ _ _ at_runs Er) as Ev. injection Ev as <- <-. exists s'. split; [exact Er|].
  destruct Ho as [(_&_&Hal)|[(E&_)|(E&_)]]; [exact Hal|discriminate E..].
Defined.

Lemma free_runs : fst <$> vm_free OFFSET false true true false A 0x1234 s2 = Some 0.
Proof. by vm_compute. Qed.

Lemma vm_free_spec_witness : exists L T s', vm_space s2 A pgdA L T ∅ ∅ /\ vm_free OFFSET false true true false A 0x1234 s2 = Some (0, s') /\ freed OFFSET static s2 s' A pgdA L T ∅ ∅ 0x1000.
Proof.
  destruct s2_space as (L&T&VS&_).
  destruct (vm_free_spec OFFSET static MmuDemo.offset_range MmuDemo.offset_dir umem_offset false s2 A pgdA L T ∅ ∅ true true false 0x1234 VS ltac:(lia)) as (err&s'&Er&_&_&Ho).
  pose proof (fst_some _ _ _ _ free_runs Er) as <-. exists L, T, s'. split; [exact VS|]. split; [exact Er|]. cbn [negb andb] in Ho.
  destruct (decide (UMEM_MAX <= 0x1234)) as [Hd|_]; [destruct (Hd eq_refl)|]. destruct Ho as [(_&Hf)|(E&_)]; [exact Hf|discriminate E].
Defined.

Lemma vm_allocate_free_witness : exists s2' L' T', do_free OFFSET false A 0x1000 s2 = Some (0, s2') /\ vm_space s2' A pgdA L' T' ∅ ∅ /\ shape <$> L' = shape <$> blank A /\
  VmSpace.clean OFFSET s2' pgdA L'.
Proof.
  destruct (vm_allocate_free OFFSET static MmuDemo.offset_range MmuDemo.offset_dir umem_offset false s1 A pgdA (blank A) ∅ ∅ ∅ 0x1800 0x1000 s2 (proj1 s1_space) eq_refl eq_refl s2_result) as (s'&L'&T'&Ef&VS&Hs&Hcl).
  exists s', L', T'. split; [exact Ef|]. split; [exact VS|]. split; [exact Hs|exact (Hcl (proj2 s1_space))].
Defined.

Lemma region_find_spec_witness : exists L E, regions s2 A L E /\
  region_find A 0x1800 0x1000 s2 = Some (default 0 (ar_ptr <$> List.find (fun a => bool_decide (ar_addr a <= 0x1800 /\ 0x1800 + 0x1000 <= ar_addr a + ar_size a)) L)).
Proof.
  destruct s2_space as (L&T&VS&_). exists L, ∅. pose proof (va_regions _ _ _ _ _ _ _ _ _ VS) as R. split; [exact R|].
  exact (region_find_spec s2 A L ∅ 0x1800 0x1000 R (va_layout _ _ _ _ _ _ _ _ _ VS) ltac:(lia) eq_refl eq_refl).
Defined.

Lemma vm_create_spec_witness : exists s' pgd, vm_create OFFSET boot s0 = Some (A, s') /\ vm_space s' A pgd (blank A) ∅ ∅ ∅ /\ VmSpace.clean OFFSET s' pgd (blank A).
Proof.
  destruct (vm_create_spec OFFSET static MmuDemo.offset_range MmuDemo.offset_dir s0 boot MmuDemo.boot_dir ∅ ∅ s0_heap s0_pages s0_boot) as (map&s'&Er&_&_&_&Ho).
  pose proof (fst_some _ _ _ _ s1_runs Er) as <-. destruct Ho as [[E _]|(_&_&pgd&_&VS&Hcl&_)]; [destruct (A_nonzero E)|]. exists s', pgd. split; [exact Er|]. split; [exact VS|exact Hcl].
Defined.

Lemma s2_map : maps s2 !! A = Some (mk_vm_map 1 pgdA).
Proof. by vm_compute. Qed.

Lemma vm_terminate_spec_witness : exists s', vm_terminate OFFSET A s2 = Some s' /\ hs_inv (kh s') ∅ /\ kp_inv (upages (mm s')) ∅.
Proof.
  destruct s2_space as (L&T&VS&Hp).
  destruct (vm_terminate_spec OFFSET static MmuDemo.offset_range MmuDemo.offset_dir umem_offset s2 A pgdA L T ∅ ∅ _ VS s2_map Hp) as (s'&Er&_&_&_&_&Ho).
  exists s'. split; [exact Er|]. destruct (decide (1 < v_refcnt (mk_vm_map 1 pgdA))) as [Hd|_]; [discriminate Hd|exact Ho].
Defined.

Lemma attribute_runs : fst <$> vm_attribute OFFSET true true false A 0x1000 VMA_READ s2 = Some 0.
Proof. by vm_compute. Qed.

Lemma vm_attribute_spec_witness : exists s' L1 a L2 T, vm_attribute OFFSET true true false A 0x1000 VMA_READ s2 = Some (0, s') /\ ar_addr a = 0x1000 /\
  vm_space s' A pgdA (L1 ++ a <| ar_flags := access_flags (ar_flags a) VMA_READ |> :: L2) T ∅ ∅.
Proof.
  destruct s2_space as (L&T&VS&Hp).
  destruct (vm_attribute_spec OFFSET static MmuDemo.offset_range MmuDemo.offset_dir umem_offset s2 A pgdA L T ∅ ∅ true true false 0x1000 VMA_READ VS Hp ltac:(lia)) as (err&s'&Er&_&_&Ho).
  pose proof (fst_some _ _ _ _ attribute_runs Er) as <-. cbn [negb andb Z.eqb orb VMA_READ] in Ho.
  destruct (decide (UMEM_MAX <= 0x1000)) as [Hd|_]; [destruct (Hd eq_refl)|].
  destruct Ho as [(_&L1&a&L2&_&Ea&_&_&VS'&_)|(E&_)]; [|discriminate E]. exists s', L1, a, L2, T. split; [exact Er|]. split; [exact Ea|exact VS'].
Defined.

Lemma vm_map_spec_witness : exists L E U s', do_map OFFSET false A B 0x1800 0x400 true s3 = Some (0, Some 0x1800, s') /\
  aliased OFFSET static s3 pgdA L B pgdB (blank B) E U s' 0x1000 0x1000 0x1000.
Proof.
  destruct s3_spaces as (L&T&E&U&E'&U'&VA&_&VB&HE&_).
  destruct (vm_map_spec OFFSET static MmuDemo.offset_range MmuDemo.offset_dir umem_offset s3 A pgdA L T E' U' B pgdB (blank B) ∅ E U 0x1800 0x400 VA VB HE ltac:(lia) eq_refl eq_refl) as (err&out&s'&Er&_&_&Ho).
  pose proof (fst_some _ _ _ _ s3_maps Er) as Ev. injection Ev as <- <-. exists L, E, U, s'. split; [exact Er|].
  destruct Ho as [(_&cur&Ec&Hal)|[(Ee&_)|(Ee&_)]]; [|discriminate Ee..]. injection Ec as Ec. change (0x1800 - page 0x1800) with 0x800 in Ec.
  assert (cur = 0x1000) as -> by lia. exact Hal.
Defined.

(** *** A fork: a read-only area, a free one, a writable one and free addresses *)
Definition before_fork : list vop := [alloc 0x1800; VAttr true true false 0x1000 VMA_READ; alloc_at 0x5000 0x1000].
Lemma before_fork_ok : Forall vop_ok before_fork.
Proof. unfold before_fork, alloc, alloc_at. repeat constructor; cbn; intros; simplify_eq; unfold PAGE_SIZE, PAGE_MASK; lia. Qed.
Definition s4 : machine := default s1 (vrun OFFSET false A before_fork s1).
Definition L4 : list area := default [] (layout_of A s4).

Lemma L4_areas : (fun a => (ar_addr a, ar_size a, ar_flags a)) <$> L4 = [(0x1000, 0x2000, 1); (0x3000, 0x2000, 0x80); (0x5000, 0x1000, 3); (0x6000, 0x7fffa000, 0x80)].
Proof. by vm_compute. Qed.

Lemma s4_space : exists T, vm_space s4 A pgdA L4 T ∅ ∅.
Proof.
  destruct (vrun_ok OFFSET static MmuDemo.offset_range MmuDemo.offset_dir umem_offset false A pgdA ∅ ∅ before_fork s1 (blank A) ∅ (proj1 s1_space) before_fork_ok (or_introl (blank_private A))) as [(s'&Er&L&T&VS&_)|(_&Ed&_)]; [|discriminate Ed].
  exists T. unfold L4. assert (s4 = s') as -> by (unfold s4; by rewrite Er). rewrite (layout_of_ok s' A L ∅ (va_regions _ _ _ _ _ _ _ _ _ VS)). exact VS.
Qed.
Lemma s4_boot : tabs (mm s4) !! boot = Some MmuDemo.boot_dir.
Proof. by vm_compute. Qed.

Lemma check_all {X} (f : X -> bool) (l : list X) (Q : X -> Prop) : forallb f l = true -> (forall a, f a = true -> Q a) -> forall a, a ∈ l -> Q a.
Proof. intros Hf HQ a Ha. apply HQ. rewrite List.forallb_forall in Hf. apply Hf. by apply list_elem_of_In. Qed.

Lemma L4_forkable : Forall forkable L4.
Proof.
  apply Forall_forall. apply (check_all (fun a => is_free a || (negb (flag (ar_flags a) REG_SHARED) && negb (flag (ar_flags a) REG_MAPPED)))); [by vm_compute|].
  intros a Ha Hf. rewrite Hf in Ha. cbn [orb] in Ha. by apply andb_prop in Ha as [?%negb_true_iff ?%negb_true_iff].
Qed.
Lemma L4_free : Exists (fun a => is_free a = true) L4.
Proof.
  assert (existsb is_free L4 = true) as (a&Ha&Hf)%List.existsb_exists by (by vm_compute). apply Exists_exists. exists a. split; [by apply list_elem_of_In|exact Hf].
Qed.
Lemma s4_links : forallb (fun a => copied a || bool_decide (r_sh_next <$> regs s4 !! ar_ptr a = Some (ar_ptr a))) L4 = true.
Proof. by vm_compute. Qed.
Lemma alone a : copied a || bool_decide (r_sh_next <$> regs s4 !! ar_ptr a = Some (ar_ptr a)) = true -> copied a = false -> r_sh_next <$> regs s4 !! ar_ptr a = Some (ar_ptr a).
Proof. intros Ha Hc. rewrite Hc in Ha. exact (proj1 (bool_decide_eq_true _) Ha). Qed.
Lemma s4_lonely : lonely s4 L4.
Proof.
  exact (check_all (fun a => copied a || bool_decide (r_sh_next <$> regs s4 !! ar_ptr a = Some (ar_ptr a))) L4 (fun a => copied a = false -> r_sh_next <$> regs s4 !! ar_ptr a = Some (ar_ptr a)) s4_links alone).
Qed.

Definition C := 0x800200ec.
Lemma fork_runs : fst <$> vm_fork OFFSET boot A s4 = Some C.
Proof. by vm_compute. Qed.
Lemma C_nonzero : C <> 0.
Proof. done. Qed.

(** A task forks, and the child frees the area it shares with its parent and ends:
    region_free() has set the flags of the region to REG_FREE before it tests
    REG_SHARED, so the region stays on the parent's list of shared regions.  When
    the parent ends, region_delete() follows the list to the child's map, which
    is no longer there. *)
Definition child_gone : option machine := (c ← vm_fork OFFSET boot A s4; c ← do_free OFFSET false C 0x1000 (snd c); vm_terminate OFFSET C (snd c)).
Lemma shared_region_dangles : is_Some child_gone /\ (s ← child_gone; vm_terminate OFFSET A s) = None.
Proof. split; [|by vm_compute]. assert (match child_gone with Some _ => true | None => false end = true) as Hc by (by vm_compute). destruct child_gone; [by eexists|discriminate Hc]. Qed.

(** The child's first region is taken off the ring that it forms with its parent's. *)
Definition forked_state : machine := run s4 (vm_fork OFFSET boot A s4).
Definition child_region : region := default (mk_region 0 0 0 0 0 0 0 0) (regs forked_state !! C).
Definition parent_region : region := default (mk_region 0 0 0 0 0 0 0 0) (regs forked_state !! A).
Lemma shared_ring : sh_ring (regs forked_state) [C; A].
Proof.
  split; [exists child_region; split; [by vm_compute|]; split; by vm_compute|]. split; [|exact I]. exists parent_region. split; [by vm_compute|]. split; by vm_compute.
Qed.
Lemma child_freed : is_Some (hs_free C (kh forked_state)).
Proof. assert (match hs_free C (kh forked_state) with Some _ => true | None => false end = true) as Hc by (by vm_compute). destruct (hs_free _ _); [by eexists|discriminate Hc]. Qed.
Lemma region_delete_shared_witness : exists s', region_delete C C forked_state = Some s' /\ sh_ring (regs s') [A] /\ r_flags <$> regs s' !! A = Some REG_READ.
Proof.
  destruct child_freed as [k Hk].
  destruct (region_delete_shared forked_state C C child_region [A] k) as (s'&E&HR&_&_&_&_&HM&_); [by vm_compute|by vm_compute|exact shared_ring| |done|exact Hk|].
  - apply NoDup_cons. split; [intros ?%list_elem_of_singleton; done|apply NoDup_singleton].
  - exists s'. split; [exact E|]. split; [exact HR|]. destruct (HM A ltac:(by left)) as (r&r'&Er&->&Hr). cbn [fmap option_fmap option_map].
    assert (r = parent_region) as -> by (unfold parent_region; by rewrite Er). unfold relinked in Hr. apply (f_equal r_flags) in Hr. cbn [r_flags set] in Hr. f_equal. etransitivity; [exact Hr|]. by vm_compute.
Defined.

#[local] Opaque s4 L4 vm_fork vm_load C.

Lemma vm_fork_spec_witness : exists s' npgd N T E' U' E U, vm_fork OFFSET boot A s4 = Some (C, s') /\ vm_space s' C npgd N T E U /\ (exists T', vm_space s' A pgdA (share <$> L4) T' E' U') /\ Forall2 like L4 N /\ Forall2 (paired (regs s')) L4 N /\
  forall a x, a ∈ L4 -> is_free a = false -> in_area x a -> ubyte OFFSET s' npgd x = ubyte OFFSET s4 pgdA x.
Proof.
  destruct s4_space as (T&VS).
  destruct (vm_fork_spec OFFSET static MmuDemo.offset_range MmuDemo.offset_dir umem_offset s4 A pgdA L4 T ∅ ∅ boot _ VS s4_boot L4_forkable L4_free s4_lonely) as (new&s'&Er&Ho).
  pose proof (fst_some _ _ _ _ fork_runs Er) as <-. destruct Ho as [[E _]|(_&npgd&N&T'&E'&U'&VC&VP&HL&Hpr&Hv)]; [destruct (C_nonzero E)|].
  exists s', npgd, N, T', E', U'. eexists _, _. split; [exact Er|]. split; [exact VC|]. split; [exists T; exact VP|]. split; [exact HL|]. split; [exact Hpr|]. intros a x Ha Hf Hx. exact (proj1 (Hv a x Ha Hf Hx)).
Defined.

(** *** A module of two pages is loaded into a new address space *)
Definition image : gset Z := pages_of (0x1000 + OFFSET) 0x2000.
Definition module_pool : pmem := default mem (snd <$> kp_alloc 0x2000 mem).
Definition l0 : machine := mk_vmem ∅ ∅ (kmem_init free_blocks kmem_pages kernel_pool) (mk_mmu (tabs MmuDemo.m0) module_pool) (fun x => x mod 256) 0.
Definition pgdL := 0x80005000.
Definition l1 : machine := run l0 (vm_create OFFSET boot l0).
Definition md : module := mk_module 0x1000 0x1804 0x8000 0x8000 0x9000 0x9004 0 0x20 4 0x100 0.

Lemma image_taken : fst <$> kp_alloc 0x2000 mem = Some 0x1000.
Proof. by vm_compute. Qed.
Lemma l1_runs : fst <$> vm_create OFFSET boot l0 = Some A.
Proof. by vm_compute. Qed.
Lemma l1_pgd : v_pgd <$> maps l1 !! A = Some pgdL.
Proof. by vm_compute. Qed.
Lemma load_runs : fst <$> vm_load OFFSET false 1 A md l1 = Some (0, Some 0x1000).
Proof. by vm_compute. Qed.

Lemma l0_heap : hs_inv (kh l0) ∅.
Proof. exact s0_heap. Qed.
Lemma l0_boot : tabs (mm l0) !! boot = Some MmuDemo.boot_dir.
Proof. exact MmuDemo.m0_boot. Qed.
Lemma module_pool_image : kp_inv module_pool image.
Proof.
  pose proof image_taken as Ei. destruct (kp_alloc_ok mem ∅ 0x2000 MmuDemo.mmu_pages_free eq_refl eq_refl) as (r&p&Ea&Hr). change (kp_alloc 0x2000 mem = Some (r, p)) in Ea. unfold module_pool. rewrite Ea. rewrite Ea in Ei. cbn [fmap option_fmap option_map fst snd default from_option] in Ei |- *. injection Ei as ->.
  destruct Hr as [[E _]|(_&_&HI)]; [discriminate E|]. rewrite (right_id_L ∅ (∪)) in HI. exact HI.
Qed.
Lemma l0_pages : kp_inv (upages (mm l0)) image.
Proof. exact module_pool_image. Qed.

Lemma not_kernel : A <> 1.
Proof. by vm_compute. Qed.

#[local] Opaque l0 image module_pool.
Lemma l1_space : vm_space l1 A pgdL (blank A) ∅ ∅ image.
Proof. exact (proj1 (created l0 ∅ image A pgdL _ l0_heap l0_pages l0_boot l1_runs A_nonzero l1_pgd)). Qed.
#[local] Transparent image.
Lemma md_ok : module_ok OFFSET md image.
Proof. split; [done|done|done|]. split; [done|]. split; [done|]. unfold image_pages. intros x Hx. exact Hx. Qed.
#[local] Opaque l1 image md.

Lemma vm_load_spec_witness : exists s' L T, vm_load OFFSET false 1 A md l1 = Some (0, Some USTACK_BASE, s') /\ vm_space s' A pgdL L T ∅ (image ∖ image_pages OFFSET md) /\ loaded OFFSET l1 s' pgdL md L.
Proof.
  destruct (vm_load_spec OFFSET static MmuDemo.offset_range MmuDemo.offset_dir umem_offset l1 1 A pgdL (blank A) ∅ ∅ image md l1_space not_kernel md_ok) as (r&stack&s'&Er&Ho).
  pose proof (fst_some _ _ _ _ load_runs Er) as Ev. injection Ev as <- <-. destruct Ho as [[E _]|(_&_&L&T&VS&HL)]; [discriminate E|].
  exists s', L, T. split; [exact Er|]. split; [exact VS|exact HL].
Defined.
End VmDemo.
