(* ===== verification/Lib.v ===== *)
(** * Lib: the kernel's copies of the C string routines, sys/lib

    The routines are translated loop by loop over a memory of bytes; an access
    outside the memory is a fault.  The memory is abstract, the class
    [ByteMem]: a finite map of mapped bytes is one (a wild pointer faults), the
    flat memory of the kernel in vm.c another.

    The other components use these routines through what they compute:
    [Thread.strlcpy], [Object.same_name], [Vm.memcpy] and [Vm.memset].  The
    theorems below are what justifies that. *)
From stdpp Require Import base numbers gmap list.
From S2P Require Import Prelude.

Open Scope Z_scope.

(** Bytes are 0 .. 255; a [char] reads one as a signed number. *)
Definition char_of (b : Z) : Z := let u := b mod 256 in if u <? 128 then u else u - 256.

Class ByteMem (M : Type) := {
  ldb : Z -> M -> option Z;
  stb : Z -> Z -> M -> option M;
}.
Class ByteMemLaws (M : Type) `{ByteMem M} := {
  stb_ok : forall a v m, is_Some (ldb a m) -> is_Some (stb a v m);
  ldb_stb : forall a b v m m', stb a v m = Some m' -> ldb b m' = if decide (a = b) then Some v else ldb b m;
}.

(** Mapped bytes. *)
#[export] Instance gmap_bytes : ByteMem (gmap Z Z) := {|
  ldb a m := m !! a;
  stb a v m := match m !! a with Some _ => Some (<[a := v]> m) | None => None end;
|}.
#[export] Instance gmap_bytes_laws : ByteMemLaws (gmap Z Z).
Proof.
  split.
  - intros a v m [b Hb]. cbn in *. rewrite Hb. by eexists.
  - intros a b v m m' E. cbn in *. destruct (m !! a); simplify_eq. apply lookup_insert.
Qed.

(** The physical memory as the kernel sees it, where every address is good. *)
#[export] Instance flat_bytes : ByteMem (Z -> Z) := {|
  ldb a r := Some (r a);
  stb a v r := Some (fun x => if x =? a then v else r x);
|}.
#[export] Instance flat_bytes_laws : ByteMemLaws (Z -> Z).
Proof.
  split; [by eexists|]. intros a b v m m' [= <-]. cbn. case_decide; subst; [by rewrite Z.eqb_refl|].
  by destruct (Z.eqb_spec b a); [congruence|].
Qed.

(** ** The routines *)
Section Routines.
Context {M : Type} `{ByteMem M}.

(** while (count--) *tmp++ = *s++; *)
Fixpoint memcpy_loop (count : nat) (tmp s : Z) (m : M) : option M :=
  match count with
  | O => Some m
  | S count => c ← ldb s m; m ← stb tmp c m; memcpy_loop count (tmp + 1) (s + 1) m
  end.
Definition memcpy (dest src : Z) (count : nat) (m : M) : option (Z * M) :=
  m ← memcpy_loop count dest src m; Some (dest, m).

(** while (count--) *p++ = (char)ch; *)
Fixpoint memset_loop (count : nat) (p ch : Z) (m : M) : option M :=
  match count with
  | O => Some m
  | S count => m ← stb p (ch mod 256) m; memset_loop count (p + 1) ch m
  end.
Definition memset (dest ch : Z) (count : nat) (m : M) : option (Z * M) :=
  m ← memset_loop count dest ch m; Some (dest, m).

(** for (tmp = str; count-- && *tmp != '\0'; ++tmp); *)
Fixpoint strnlen_loop (count : nat) (tmp : Z) (m : M) : option Z :=
  match count with
  | O => Some tmp
  | S count => c ← ldb tmp m; if c =? 0 then Some tmp else strnlen_loop count (tmp + 1) m
  end.
Definition strnlen (str : Z) (count : nat) (m : M) : option Z := tmp ← strnlen_loop count str m; Some (tmp - str).

(** [signed char res = *src - *tgt]: the difference loses its high bits. *)
Fixpoint strncmp_loop (count : nat) (src tgt res : Z) (m : M) : option Z :=
  match count with
  | O => Some res
  | S count =>
      a ← ldb src m; b ← ldb tgt m;
      let res := char_of (char_of a - char_of b) in
      if negb (res =? 0) then Some res
      else if a =? 0 then Some res
      else strncmp_loop count (src + 1) (tgt + 1) res m
  end.
Definition strncmp (src tgt : Z) (count : nat) (m : M) : option Z := strncmp_loop count src tgt 0 m.

(** while (count-- && ( *dest++ = *src++) != '\0'); *)
Fixpoint strncpy_loop (count : nat) (dest src : Z) (m : M) : option M :=
  match count with
  | O => Some m
  | S count => c ← ldb src m; m ← stb dest c m; if c =? 0 then Some m else strncpy_loop count (dest + 1) (src + 1) m
  end.
Definition strncpy (dest src : Z) (count : nat) (m : M) : option (Z * M) :=
  m ← strncpy_loop count dest src m; Some (dest, m).

(** while (--count && ( *dest = *src++) != '\0') dest++; the argument is the value
    of [count] after the first decrement.  At 0 the terminator is stored. *)
Fixpoint strlcpy_loop (count : nat) (dest src : Z) (m : M) : option (Z * M) :=
  match count with
  | O => m ← stb dest 0 m; Some (dest, m)
  | S count =>
      c ← ldb src m; m ← stb dest c m;
      if c =? 0 then Some (dest, m)
      else strlcpy_loop count (dest + 1) (src + 1) m
  end.
(** ASSERT(count != 0) *)
Definition strlcpy (dest src : Z) (count : nat) (m : M) : option (Z * M) :=
  match count with
  | O => None
  | S count => r ← strlcpy_loop count dest src m; Some (r.1 - dest, r.2)
  end.
End Routines.

(** ** Arrays and strings in memory *)
Section Arrays.
Context {M : Type} `{ByteMem M}.

Definition bytes_at (m : M) (p : Z) (l : list Z) : Prop :=
  forall i c, l !! i = Some c -> ldb (p + Z.of_nat i) m = Some c.
(** A null-terminated string: its characters are the bytes before the
    terminator. *)
Definition cstring (m : M) (p : Z) (s : list Z) : Prop :=
  bytes_at m p (s ++ [0]) /\ Forall (fun c => 0 < c < 256) s.
(** [n] bytes that may be stored to. *)
Definition room (m : M) (p : Z) (n : nat) : Prop :=
  forall i, (i < n)%nat -> is_Some (ldb (p + Z.of_nat i) m).
(** The bytes [l] have been stored from [p] on, and nothing else. *)
Definition wrote (m m' : M) (p : Z) (l : list Z) : Prop :=
  forall a, ldb a m' = if decide (p <= a < p + Z.of_nat (length l)) then l !! Z.to_nat (a - p) else ldb a m.

(** A loop that copies upwards works if no byte of the source is overwritten
    before it has been read. *)
Definition copy_ok (dest src : Z) (n : nat) : Prop := dest <= src \/ src + Z.of_nat n <= dest.

Lemma bytes_at_cons m p c l : bytes_at m p (c :: l) <-> ldb p m = Some c /\ bytes_at m (p + 1) l.
Proof.
  split.
  - intros HB. split; [rewrite <- (HB 0%nat c eq_refl); f_equal; lia|]. intros i d Hi. rewrite <- (HB (S i) d Hi). f_equal. lia.
  - intros [Hc HB] [|i] d Hd; [simplify_eq/=; rewrite <- Hc; f_equal; lia|]. rewrite <- (HB i d Hd). f_equal. lia.
Qed.

Lemma cstring_nil m p : cstring m p [] <-> ldb p m = Some 0.
Proof.
  unfold cstring. cbn [app]. rewrite bytes_at_cons. split; [tauto|]. intros E. split; [|constructor].
  split; [done|]. by intros i c ?.
Qed.

Lemma cstring_cons m p c s : cstring m p (c :: s) <-> ldb p m = Some c /\ 0 < c < 256 /\ cstring m (p + 1) s.
Proof. unfold cstring. cbn [app]. rewrite bytes_at_cons, Forall_cons. tauto. Qed.

Lemma room_S m p n : room m p (S n) <-> is_Some (ldb p m) /\ room m (p + 1) n.
Proof.
  split.
  - intros HR. split; [rewrite <- (Z.add_0_r p); apply (HR 0%nat); lia|]. intros i Hi.
    replace (p + 1 + Z.of_nat i) with (p + Z.of_nat (S i)) by lia. apply HR. lia.
  - intros [H0 HR] [|i] Hi; [by rewrite Z.add_0_r|]. replace (p + Z.of_nat (S i)) with (p + 1 + Z.of_nat i) by lia. apply HR. lia.
Qed.

Lemma copy_ok_S dest src n : copy_ok dest src (S n) -> copy_ok (dest + 1) (src + 1) n.
Proof. unfold copy_ok. lia. Qed.

Lemma wrote_nil m p : wrote m m p [].
Proof. intros a. cbn. by rewrite decide_False by lia. Qed.

Context `{!ByteMemLaws M}.

Lemma wrote_cons m m1 m' p c l : stb p c m = Some m1 -> wrote m1 m' (p + 1) l -> wrote m m' p (c :: l).
Proof.
  intros Hs HW a. rewrite HW. cbn [length]. rewrite (ldb_stb _ a _ _ _ Hs). destruct (decide (p = a)) as [->|].
  - rewrite decide_False, decide_True by lia. by replace (a - a) with 0 by lia.
  - repeat case_decide; try lia; [|done]. by replace (Z.to_nat (a - p)) with (S (Z.to_nat (a - (p + 1)))) by lia.
Qed.

Lemma wrote_bytes m m' p l : wrote m m' p l -> bytes_at m' p l.
Proof.
  intros HW i c Hi. rewrite HW, decide_True by (apply lookup_lt_Some in Hi; lia). by replace (Z.to_nat (p + Z.of_nat i - p)) with i by lia.
Qed.

(** A store outside an array leaves it as it was. *)
Lemma bytes_at_stb m m1 p c src l : stb p c m = Some m1 -> p < src \/ src + Z.of_nat (length l) <= p ->
  bytes_at m src l -> bytes_at m1 src l.
Proof.
  intros Hs Hne HB i d Hi. rewrite (ldb_stb _ _ _ _ _ Hs), decide_False; [by apply HB|]. apply lookup_lt_Some in Hi. lia.
Qed.

Lemma room_stb m m1 p c q n : stb p c m = Some m1 -> room m q n -> room m1 q n.
Proof. intros Hs HR i Hi. rewrite (ldb_stb _ _ _ _ _ Hs). case_decide; [done|]. by apply HR. Qed.
End Arrays.

(** ** What the routines compute *)
Section Specs.
Context {M : Type} `{ByteMemLaws M}.

Lemma memcpy_loop_ok l dest src m : bytes_at m src l -> room m dest (length l) -> copy_ok dest src (length l) ->
  exists m', memcpy_loop (length l) dest src m = Some m' /\ wrote m m' dest l.
Proof.
  revert dest src m. induction l as [|c l IH]; intros dest src m HB HR HC; [exists m; split; [done|apply wrote_nil]|].
  apply bytes_at_cons in HB as [Hc HB]. cbn [length] in *. apply room_S in HR as [Hd HR]. destruct (stb_ok dest c m Hd) as [m1 E1].
  destruct (IH (dest + 1) (src + 1) m1) as (m'&E&HW).
  - eapply bytes_at_stb; [done| |done]. unfold copy_ok in HC. lia.
  - by eapply room_stb.
  - by apply copy_ok_S.
  - exists m'. cbn. rewrite Hc. cbn. rewrite E1. cbn. rewrite E. split; [done|]. by eapply wrote_cons.
Qed.

Lemma memset_loop_ok n dest ch m : room m dest n ->
  exists m', memset_loop n dest ch m = Some m' /\ wrote m m' dest (replicate n (ch mod 256)).
Proof.
  revert dest m. induction n as [|n IH]; intros dest m HR; [exists m; split; [done|apply wrote_nil]|].
  apply room_S in HR as [Hd HR]. destruct (stb_ok dest (ch mod 256) m Hd) as [m1 E1].
  destruct (IH (dest + 1) m1) as (m'&E&HW); [by eapply room_stb|]. exists m'. cbn. rewrite E1. cbn. rewrite E. split; [done|]. by eapply wrote_cons.
Qed.

Lemma strnlen_loop_ok s n p m : cstring m p s -> strnlen_loop n p m = Some (p + Z.of_nat (n `min` length s)).
Proof.
  revert n p. induction s as [|c s IH]; intros [|n] p HS; cbn [strnlen_loop Nat.min length]; try (f_equal; lia).
  - apply cstring_nil in HS. rewrite HS. cbn. f_equal. lia.
  - apply cstring_cons in HS as (Hc&Hr&HS). rewrite Hc. cbn. destruct (Z.eqb_spec c 0); [lia|]. rewrite (IH n _ HS). f_equal. lia.
Qed.

Lemma char_of_range b : -128 <= char_of b < 128.
Proof. unfold char_of. pose proof (Z.mod_pos_bound b 256 ltac:(lia)). destruct (Z.ltb_spec (b mod 256) 128); lia. Qed.

Lemma char_of_mod b : char_of b mod 256 = b mod 256.
Proof.
  unfold char_of. pose proof (Z.mod_pos_bound b 256 ltac:(lia)). destruct (Z.ltb_spec (b mod 256) 128); [by rewrite Z.mod_mod by lia|].
  rewrite Zminus_mod, Z.mod_mod, Z.mod_same, Z.sub_0_r, Z.mod_mod by lia. done.
Qed.

(** The truncated difference of two bytes vanishes only if they are equal. *)
Lemma char_diff_0 a b : 0 <= a < 256 -> 0 <= b < 256 -> char_of (char_of a - char_of b) = 0 <-> a = b.
Proof.
  intros Ha Hb. split; [|intros ->; by rewrite Z.sub_diag]. intros E. pose proof (char_of_mod (char_of a - char_of b)) as Em. rewrite E in Em.
  rewrite Z.mod_0_l, Zminus_mod, !char_of_mod, (Z.mod_small a), (Z.mod_small b) in Em by lia. Z.div_mod_to_equations. lia.
Qed.

Lemma strncmp_loop_ok s t n p q m : cstring m p s -> cstring m q t ->
  exists r, strncmp_loop n p q 0 m = Some r /\ (r = 0 <-> take n s = take n t).
Proof.
  revert t n p q. induction s as [|a s IH]; intros t [|n] p q HS HT; cbn [strncmp_loop take]; try (by exists 0).
  - apply cstring_nil in HS. destruct t as [|b t]; [apply cstring_nil in HT|apply cstring_cons in HT as (HT&Hb&_)]; rewrite HS, HT; cbn [mbind option_bind].
    + by exists 0.
    + pose proof (char_diff_0 0 b ltac:(lia) ltac:(lia)) as Hd. destruct (Z.eqb_spec (char_of (char_of 0 - char_of b)) 0) as [E|E]; [apply Hd in E; lia|].
      eexists. split; [done|]. cbn. split; intros; [lia|done].
  - apply cstring_cons in HS as (HS&Ha&HS'). destruct t as [|b t].
    + apply cstring_nil in HT. rewrite HS, HT. cbn [mbind option_bind]. pose proof (char_diff_0 a 0 ltac:(lia) ltac:(lia)) as Hd.
      destruct (Z.eqb_spec (char_of (char_of a - char_of 0)) 0) as [E|E]; [apply Hd in E; lia|]. eexists. split; [done|]. cbn. split; intros; [lia|done].
    + apply cstring_cons in HT as (HT&Hb&HT'). rewrite HS, HT. cbn [mbind option_bind]. pose proof (char_diff_0 a b ltac:(lia) ltac:(lia)) as Hd.
      destruct (Z.eqb_spec (char_of (char_of a - char_of b)) 0) as [E|E]; cbn [negb].
      * rewrite E. apply Hd in E as <-. destruct (Z.eqb_spec a 0); [lia|]. destruct (IH t n (p + 1) (q + 1) HS' HT') as (r&->&Hr).
        exists r. split; [done|]. rewrite Hr. split; [by intros ->|]. by intros [= ->].
      * eexists. split; [done|]. split; [done|]. intros [= -> _]. by apply Hd.
Qed.

Lemma strncmp_loop_range n p q m r : strncmp_loop n p q 0 m = Some r -> -128 <= r < 128.
Proof.
  assert (forall r0, -128 <= r0 < 128 -> strncmp_loop n p q r0 m = Some r -> -128 <= r < 128) as Hg; [|by apply Hg].
  revert p q. induction n as [|n IH]; intros p q r0 Hr0; cbn [strncmp_loop]; [by intros [= <-]|].
  destruct (ldb p m) as [a|]; [|done]. destruct (ldb q m) as [b|]; [|done]. cbn [mbind option_bind].
  pose proof (char_of_range (char_of a - char_of b)). repeat case_match; try (by intros [= <-]). by apply IH.
Qed.

Lemma strncpy_loop_ok s n dest src m : cstring m src s -> room m dest n -> copy_ok dest src (S (length s)) ->
  exists m', strncpy_loop n dest src m = Some m' /\ wrote m m' dest (take n (s ++ [0])).
Proof.
  revert n dest src m. induction s as [|c s IH]; intros [|n] dest src m HS HR HC; cbn [strncpy_loop take];
    try (exists m; split; [done|apply wrote_nil]); apply room_S in HR as [Hd HR].
  - apply cstring_nil in HS. rewrite HS. cbn. destruct (stb_ok dest 0 m Hd) as [m1 E1]. rewrite E1. cbn. exists m1. split; [done|].
    eapply wrote_cons; [done|]. rewrite take_nil. apply wrote_nil.
  - apply cstring_cons in HS as (Hc&Hr&HS). rewrite Hc. cbn [mbind option_bind]. destruct (stb_ok dest c m Hd) as [m1 E1]. rewrite E1. cbn [mbind option_bind].
    destruct (Z.eqb_spec c 0); [lia|]. cbn [length] in HC. destruct (IH n (dest + 1) (src + 1) m1) as (m'&E&HW).
    + destruct HS as [HB HF]. split; [|done]. eapply bytes_at_stb; [done| |done]. unfold copy_ok in HC. rewrite length_app. cbn. lia.
    + by eapply room_stb.
    + by apply copy_ok_S.
    + exists m'. split; [done|]. by eapply wrote_cons.
Qed.

Lemma strlcpy_loop_ok s n dest src m : cstring m src s -> room m dest (S n) -> copy_ok dest src (S (length s)) ->
  exists m', strlcpy_loop n dest src m = Some (dest + Z.of_nat (n `min` length s), m') /\ wrote m m' dest (take n s ++ [0]).
Proof.
  revert n dest src m. induction s as [|c s IH]; intros [|n] dest src m HS HR HC; cbn [strlcpy_loop take app Nat.min length];
    apply room_S in HR as [Hd HR].
  1, 3: destruct (stb_ok dest 0 m Hd) as [m1 E1]; rewrite E1; cbn; exists m1; rewrite Z.add_0_r; (split; [done|]); eapply wrote_cons; [done|apply wrote_nil].
  - apply cstring_nil in HS. rewrite HS. cbn. destruct (stb_ok dest 0 m Hd) as [m1 E1]. rewrite E1. cbn. exists m1. rewrite Z.add_0_r. split; [done|].
    eapply wrote_cons; [done|apply wrote_nil].
  - apply cstring_cons in HS as (Hc&Hr&HS). rewrite Hc. cbn [mbind option_bind]. destruct (stb_ok dest c m Hd) as [m1 E1]. rewrite E1. cbn [mbind option_bind].
    destruct (Z.eqb_spec c 0); [lia|]. cbn [length] in HC. destruct (IH n (dest + 1) (src + 1) m1) as (m'&E&HW).
    + destruct HS as [HB HF]. split; [|done]. eapply bytes_at_stb; [done| |done]. unfold copy_ok in HC. rewrite length_app. cbn. lia.
    + by eapply room_stb.
    + by apply copy_ok_S.
    + exists m'. rewrite E. split; [do 2 f_equal; lia|]. by eapply wrote_cons.
Qed.
End Specs.
