(* ===== verification/Printf.v ===== *)
(** * Printf: sys/lib/vsprintf.c, atol.c and the byte-order routines

    A format and an output are lists of characters without the terminator; the
    output grows at its end, as [p] does.  The arguments are the words of the
    [va_list], each a number or a string.  Reading a format past its
    terminator, storing past [tmp[16]] and a failing ASSERT are faults. *)
From Stdlib Require Import Ascii.
From stdpp Require Import base numbers strings list.
From S2P Require Import Prelude Lib.

Open Scope Z_scope.

Definition chr (c : ascii) : Z := Z.of_N (N_of_ascii c).
Fixpoint str (s : string) : list Z :=
  match s with EmptyString => [] | String c s => chr c :: str s end.

(** include/sys/param.h, sys/include/debug.h *)
Definition SYSLOG_SIZE := 128.
Definition DBGMSG_SIZE := SYSLOG_SIZE + 12.

Inductive arg := ANum (n : Z) | AStr (s : option (list Z)).

(** #define isdigit(c)  ((u_int)((c) - '0') < 10) *)
Definition isdigit (c : Z) : bool := u32 (char_of c - 48) <? 10.

(** The digit, and the new value of *n: a long divided as an unsigned one. *)
Definition divide (n base : Z) : Z * Z := (u32 n mod base, s32 (u32 n / base)).

Fixpoint atoi_from (i : Z) (s : list Z) : Z * list Z :=
  match s with
  | [] => (i, [])
  | c :: r => if isdigit c then atoi_from (s32 (i * 10 + char_of c - 48)) r else (i, s)
  end.
Definition atoi (s : list Z) : Z * list Z := atoi_from 0 s.

(** "0123456789abcdef" *)
Definition digit_char (d : Z) : Z := if d <? 10 then 48 + d else 87 + d.

(** tmp[i++] = c; the last element stored comes first. *)
Definition TMP_SIZE : nat := 16.
Definition push (c : Z) (tmp : list Z) : option (list Z) :=
  if (length tmp <? TMP_SIZE)%nat then Some (c :: tmp) else None.

(** while (num != 0 || precision >= 0) { ... } *)
Fixpoint digits_loop (fuel : nat) (num precision base : Z) (tmp : list Z) : option (list Z) :=
  match fuel with
  | O => None
  | S fuel =>
      if negb (num =? 0) || (0 <=? precision) then
        let (d, num) := divide num base in
        tmp ← push (digit_char d) tmp;
        let precision := precision - 1 in
        tmp ← (if precision =? 0 then push 46 tmp else Some tmp);
        digits_loop fuel num precision base tmp
      else Some tmp
  end.
(** Each round stores a digit, and [tmp] holds 16. *)
Definition DIGITS_FUEL : nat := 17.

(** The conversion of a number: the characters that go to the buffer. *)
Definition put_num (num : Z) (sign : bool) (pad width precision base : Z) : option (list Z) :=
  let neg := sign && (num <? 0) in
  let '(num, width, pre) := if neg then (s32 (- num), width - 1, [45]) else (num, width, []) in
  tmp ← (if (num =? 0) && (precision <=? 0) then push 48 [] else digits_loop DIGITS_FUEL num precision base []);
  let width := width - Z.of_nat (length tmp) in
  Some (pre ++ replicate (Z.to_nat width) pad ++ tmp).

(** for (; *str && width != 0; str++, width--) ...; while (width-- > 0) ... *)
Fixpoint put_str (s : list Z) (pad width : Z) : list Z :=
  match s with
  | [] => replicate (Z.to_nat width) pad
  | c :: s => if width =? 0 then [] else c :: put_str s pad (width - 1)
  end.

Definition null_str : list Z := str "<NULL>".

(** One directive, after its '%': the rest of the format, of the arguments,
    and the characters it prints. *)
Definition directive (fmt : list Z) (args : list arg) : option (list Z * list arg * list Z) :=
  let '(pad, fmt) := match fmt with 48 :: r => (48, r) | _ => (32, fmt) end in
  let '(width, fmt) := match fmt with c :: _ => if isdigit c then atoi fmt else (-1, fmt) | [] => (-1, fmt) end in
  let '(precision, fmt) := match fmt with 46 :: r => atoi r | _ => (-1, fmt) end in
  let fmt := match fmt with 108 :: r => r | _ => fmt end in
  match fmt with
  | [] => None                   (* the loop steps over the terminator *)
  | c :: fmt =>
      let number (sign : bool) pad width base :=
        match args with
        | ANum n :: args => o ← put_num (s32 n) sign pad width precision base; Some (fmt, args, o)
        | _ => None
        end in
      if c =? chr "c" then
        match args with ANum n :: args => Some (fmt, args, [n mod 256]) | _ => None end
      else if c =? chr "s" then
        match args with AStr s :: args => Some (fmt, args, put_str (default null_str s) pad width) | _ => None end
      else if c =? chr "p" then number false 48 8 16
      else if (c =? chr "X") || (c =? chr "x") then number false pad width 16
      else if c =? chr "d" then number true pad width 10
      else if c =? chr "u" then number false pad width 10
      else if c =? chr "%" then Some (fmt, args, [37])
      else Some (fmt, args, [])
  end.

Fixpoint vsprintf_loop (fuel : nat) (fmt : list Z) (args : list arg) (out : list Z) : option (list Z) :=
  match fmt with
  | [] => Some out
  | c :: r =>
      match fuel with
      | O => None
      | S fuel =>
          if negb (Z.of_nat (length out) <? DBGMSG_SIZE) then None
          else if negb (c =? 37) then vsprintf_loop fuel r args (out ++ [c])
          else
            t ← directive r args;
            let '(r, args, o) := t in
            vsprintf_loop fuel r args (out ++ o)
      end
  end.
(** Every round consumes a character of the format. *)
Definition vsprintf (fmt : list Z) (args : list arg) : option (list Z) := vsprintf_loop (length fmt) fmt args [].

(** ** atol *)
Fixpoint skip_spaces (s : list Z) : list Z :=
  match s with 32 :: s => skip_spaces s | _ => s end.
Fixpoint atol_digits (val : Z) (s : list Z) : Z :=
  match s with
  | c :: s =>
      let c := char_of c in
      if (48 <=? c) && (c <=? 57) then atol_digits (s32 (s32 (val * 10) + (c - 48))) s else val
  | [] => val
  end.
Definition atol (s : list Z) : Z := atol_digits 0 (skip_spaces s).

(** ** Byte order (little-endian i386): s[0] .. s[3] are the bytes of x *)
Definition byte_of (x : Z) (i : Z) : Z := Z.land (Z.shiftr x (8 * i)) 255.
Definition htonl (x : Z) : Z :=
  u32 (Z.lor (Z.lor (Z.lor (Z.shiftl (byte_of x 0) 24) (Z.shiftl (byte_of x 1) 16)) (Z.shiftl (byte_of x 2) 8)) (byte_of x 3)).
Definition ntohl (x : Z) : Z :=
  u32 (Z.lor (Z.lor (Z.lor (Z.shiftl (byte_of x 0) 24) (Z.shiftl (byte_of x 1) 16)) (Z.shiftl (byte_of x 2) 8)) (byte_of x 3)).
Definition htons (x : Z) : Z := Z.lor (Z.shiftl (byte_of x 0) 8) (byte_of x 1) mod 2 ^ 16.
Definition ntohs (x : Z) : Z := Z.lor (Z.shiftl (byte_of x 0) 8) (byte_of x 1) mod 2 ^ 16.

Example vsprintf_1 : vsprintf (str "%3.3u %08x|%5d|%s|%-") [ANum 12345; ANum 0xbeef; ANum (-42); AStr None] =
  Some (str "12.345 0000beef|-  42|<NULL>|").
Proof. vm_compute. reflexivity. Qed.

(** ** Numerals *)

Definition digit_val (c : Z) : Z := if c <? 58 then c - 48 else c - 87.
Definition is_digit (base c : Z) : Prop := exists d, 0 <= d < base /\ c = digit_char d.
(** The number a string of digits denotes. *)
Definition value (base : Z) (l : list Z) : Z := fold_left (fun v c => v * base + digit_val c) l 0.

Lemma digit_val_char base d : 0 <= d < base -> base <= 16 -> digit_val (digit_char d) = d.
Proof.
  intros Hd Hb. unfold digit_char, digit_val. destruct (Z.ltb_spec d 10).
  - destruct (Z.ltb_spec (48 + d) 58); lia.
  - destruct (Z.ltb_spec (87 + d) 58); lia.
Qed.

Lemma fold_value base l v : fold_left (fun v c => v * base + digit_val c) l v = v * base ^ Z.of_nat (length l) + value base l.
Proof.
  unfold value. revert v. induction l as [|c l IH]; intros v; cbn [fold_left length]; [rewrite Z.pow_0_r; lia|].
  rewrite (IH (v * base + _)), (IH (0 * base + _)). rewrite Nat2Z.inj_succ, Z.pow_succ_r by lia. lia.
Qed.

Lemma value_app base l l' : value base (l ++ l') = value base l * base ^ Z.of_nat (length l') + value base l'.
Proof. unfold value at 1. rewrite fold_left_app. apply fold_value. Qed.

Lemma value_snoc base l d : 0 <= d < base -> base <= 16 -> value base (l ++ [digit_char d]) = value base l * base + d.
Proof. intros Hd Hb. rewrite value_app. unfold value at 2. cbn [fold_left length]. rewrite (digit_val_char base) by done. change (Z.of_nat 1) with 1. rewrite Z.pow_1_r. ring. Qed.

Lemma value_zeros base n l : value base (replicate n 48 ++ l) = value base l.
Proof. induction n as [|n IH]; [done|]. rewrite <- IH. done. Qed.

Lemma u32_s32 z : u32 (s32 z) = u32 z.
Proof. unfold s32. pose proof (u32_range z). destruct (u32 z <? 2 ^ 31); unfold u32 in *; Z.div_mod_to_equations; lia. Qed.

Lemma u32_0 z : - 2 ^ 31 <= z < 2 ^ 31 -> u32 z = 0 -> z = 0.
Proof. unfold u32. intros. Z.div_mod_to_equations. lia. Qed.

Lemma push_ok c tmp : (length tmp < TMP_SIZE)%nat -> push c tmp = Some (c :: tmp).
Proof. intros H. unfold push. by rewrite (proj2 (Nat.ltb_lt _ _) H). Qed.

Lemma divide_ok n base : 2 <= base -> let (d, n') := divide n base in
  0 <= d < base /\ - 2 ^ 31 <= n' < 2 ^ 31 /\ u32 n = u32 n' * base + d /\ u32 n' = u32 n / base.
Proof.
  intros Hb. unfold divide. pose proof (u32_range n). pose proof (Z.mod_pos_bound (u32 n) base ltac:(lia)).
  pose proof (Z.div_mod (u32 n) base ltac:(lia)). assert (0 <= u32 n / base < 2 ^ 32) by (split; [apply Z.div_pos; lia|apply Z.div_lt_upper_bound; nia]).
  rewrite u32_s32, (u32_small (u32 n / base)) by done. split_and!; try lia; try (apply s32_range); done.
Qed.

Section Digits.
Context (base : Z) (Hb : 2 <= base <= 16).

(** Without a precision the loop stores the digits of the number. *)
Lemma digits_loop_ok k fuel num p tmp : p < 0 -> - 2 ^ 31 <= num < 2 ^ 31 -> u32 num < base ^ Z.of_nat k ->
  (k < fuel)%nat -> (k + length tmp <= TMP_SIZE)%nat ->
  exists ds, digits_loop fuel num p base tmp = Some (ds ++ tmp) /\ Forall (is_digit base) ds /\ value base ds = u32 num /\ (length ds <= k)%nat.
Proof.
  revert fuel num p tmp. induction k as [|k IH]; intros [|fuel] num p tmp Hp Hn Hk Hf Hl; try lia; cbn [digits_loop].
  - assert (num = 0) as -> by (apply u32_0; [done|]; pose proof (u32_range num); rewrite Z.pow_0_r in Hk; lia).
    cbn [Z.eqb negb orb]. destruct (Z.leb_spec 0 p); [lia|]. exists []. split_and!; [done|constructor|done|done].
  - destruct (Z.eqb_spec num 0) as [->|Hne]; cbn [negb orb].
    { destruct (Z.leb_spec 0 p); [lia|]. exists []. split_and!; [done|constructor|done|cbn; lia]. }
    pose proof (divide_ok num base ltac:(lia)) as HD. destruct (divide num base) as [d n'] eqn:E. destruct HD as (Hd&Hn'&Hu&Hq).
    rewrite push_ok by lia. cbn [mbind option_bind]. destruct (Z.eqb_spec (p - 1) 0); [lia|]. cbn [mbind option_bind].
    destruct (IH fuel n' (p - 1) (digit_char d :: tmp)) as (ds&E'&HF&HV&HL); cbn [length]; try lia.
    { rewrite Nat2Z.inj_succ, Z.pow_succ_r in Hk by lia. nia. }
    exists (ds ++ [digit_char d]). rewrite E', <- app_assoc. split_and!; [done| | |].
    + apply Forall_app. split; [done|]. constructor; [by exists d|constructor].
    + rewrite value_snoc by lia. lia.
    + rewrite length_app. cbn. lia.
Qed.

(** With precision P > 0 the last P digits come first, then the point. *)
Lemma digits_loop_frac P fuel num tmp : (S P + length tmp <= TMP_SIZE)%nat -> (0 < P)%nat -> (P <= fuel)%nat ->
  exists fs num', digits_loop fuel num (Z.of_nat P) base tmp = digits_loop (fuel - P) num' 0 base (46 :: fs ++ tmp) /\ length fs = P /\
    Forall (is_digit base) fs /\ - 2 ^ 31 <= num' < 2 ^ 31 /\ u32 num' = u32 num / base ^ Z.of_nat P /\
    u32 num = u32 num' * base ^ Z.of_nat P + value base fs.
Proof.
  revert fuel num tmp. induction P as [|P IH]; intros [|fuel] num tmp Hl HP Hf; try lia. cbn [digits_loop].
  replace (0 <=? Z.of_nat (S P)) with true by (symmetry; apply Z.leb_le; lia). rewrite orb_true_r.
  pose proof (divide_ok num base ltac:(lia)) as HD. destruct (divide num base) as [d n'] eqn:E. destruct HD as (Hd&Hn'&Hu&Hq).
  rewrite push_ok by lia. cbn [mbind option_bind]. destruct (Z.eqb_spec (Z.of_nat (S P) - 1) 0) as [Ez|Ez].
  - assert (P = 0%nat) as -> by lia. rewrite push_ok by (cbn; lia). cbn [mbind option_bind]. exists [digit_char d], n'. rewrite Nat.sub_succ, Nat.sub_0_r.
    change (Z.of_nat 1 - 1) with 0. change (Z.of_nat 1) with 1. rewrite Z.pow_1_r. change [digit_char d] with ([] ++ [digit_char d]).
    rewrite value_snoc by lia. cbn -[u32 digit_char]. split_and!; try done; try lia. constructor; [by exists d|constructor].
  - destruct (IH fuel n' (digit_char d :: tmp)) as (fs&n2&E2&Hfs&HF&Hn2&Hq2&Hu2); cbn [length]; try lia.
    exists (fs ++ [digit_char d]), n2. replace (Z.of_nat (S P) - 1) with (Z.of_nat P) by lia. cbn [mbind option_bind]. rewrite E2, <- app_assoc.
    rewrite length_app, Nat2Z.inj_succ, Z.pow_succ_r, value_snoc by lia. cbn [length app Nat.sub]. split; [done|]. split; [lia|]. split; [|split; [done|split]].
    + apply Forall_app. split; [done|]. constructor; [by exists d|constructor].
    + rewrite Hq2, Hq, Z.div_div by lia. done.
    + rewrite Hu, Hu2. ring.
Qed.
End Digits.

Lemma u32_pow10 n : u32 n < 10 ^ Z.of_nat 10.
Proof. pose proof (u32_range n). change (10 ^ Z.of_nat 10) with 10000000000. lia. Qed.

(** The digits of a number without precision, 0 included. *)
Lemma plain_digits num p base k : 2 <= base <= 16 -> p < 0 -> - 2 ^ 31 <= num < 2 ^ 31 -> u32 num < base ^ Z.of_nat k -> (0 < k <= TMP_SIZE)%nat ->
  exists ds, (if (num =? 0) && (p <=? 0) then push 48 [] else digits_loop DIGITS_FUEL num p base []) = Some ds /\
    Forall (is_digit base) ds /\ value base ds = u32 num /\ (0 < length ds <= k)%nat.
Proof.
  intros Hb Hp Hn Hu Hk. destruct (Z.eqb_spec num 0) as [->|Hne]; cbn [andb].
  - destruct (Z.leb_spec p 0); [|lia]. exists [48]. split_and!; [done| |done|cbn; lia|cbn; lia]. constructor; [|constructor]. exists 0. split; [lia|done].
  - destruct (digits_loop_ok base Hb k DIGITS_FUEL num p []) as (ds&E&HF&HV&HL); [done|done|done|unfold DIGITS_FUEL, TMP_SIZE in *; lia|cbn; lia|].
    rewrite app_nil_r in E. exists ds. split_and!; try done. destruct ds; [|cbn; lia]. exfalso. apply Hne. by apply u32_0.
Qed.

(** ** atol reads numerals back *)
Lemma digit10_char c : is_digit 10 c -> char_of c = c /\ 48 <= c <= 57 /\ digit_val c = c - 48.
Proof.
  intros (d&Hd&->). unfold digit_char, char_of, digit_val. destruct (Z.ltb_spec d 10); [|lia]. rewrite Z.mod_small by lia.
  destruct (Z.ltb_spec (48 + d) 128); [|lia]. destruct (Z.ltb_spec (48 + d) 58); lia.
Qed.

Lemma value_nonneg base l : 2 <= base <= 16 -> Forall (is_digit base) l -> 0 <= value base l.
Proof.
  intros Hb. induction l as [|c l IH] using rev_ind; [done|]. rewrite Forall_app, Forall_singleton. intros [HF (d&Hd&->)].
  rewrite value_snoc by lia. specialize (IH HF). nia.
Qed.

Lemma atol_digits_ok l v : Forall (is_digit 10) l -> 0 <= v -> v * 10 ^ Z.of_nat (length l) + value 10 l < 2 ^ 31 ->
  atol_digits v l = v * 10 ^ Z.of_nat (length l) + value 10 l.
Proof.
  revert v. induction l as [|c l IH]; intros v HF Hv Hlt; [cbn; lia|]. apply Forall_cons in HF as [Hc HF].
  pose proof (value_nonneg 10 l ltac:(lia) HF) as Hl. destruct (digit10_char c Hc) as (Ec&Hr&Hdv). cbn [atol_digits]. rewrite Ec.
  assert (value 10 (c :: l) = (c - 48) * 10 ^ Z.of_nat (length l) + value 10 l) as Ev by (unfold value at 1; cbn [fold_left]; by rewrite fold_value, Hdv).
  cbn [length] in *. rewrite Nat2Z.inj_succ, Z.pow_succ_r, Ev in * by lia. assert (0 < 10 ^ Z.of_nat (length l)) by (apply Z.pow_pos_nonneg; lia).
  destruct (Z.leb_spec 48 c); [|lia]. destruct (Z.leb_spec c 57); [|lia]. cbn [andb]. assert (0 <= v * 10 + (c - 48) < 2 ^ 31) by nia.
  rewrite !s32_id by (try rewrite s32_id; lia). rewrite IH by (done || lia || nia). ring.
Qed.

Lemma skip_spaces_pad n l : (forall r, l <> 32 :: r) -> skip_spaces (replicate n 32 ++ l) = l.
Proof. intros Hl. induction n as [|n IH]; [|done]. destruct l as [|c l]; [done|]. cbn. destruct (decide (c = 32)) as [->|]; [by destruct (Hl l)|]. repeat case_match; congruence || done. Qed.

Lemma skip_spaces_digit c l : is_digit 10 c -> skip_spaces (c :: l) = c :: l.
Proof. intros Hc. apply (skip_spaces_pad 0). intros r [= ->]. apply digit10_char in Hc. lia. Qed.

Lemma atol_numeral l : Forall (is_digit 10) l -> value 10 l < 2 ^ 31 -> atol l = value 10 l.
Proof.
  intros HF Hlt. unfold atol. replace (skip_spaces l) with l; [|destruct l as [|c l]; [done|]; apply Forall_cons in HF as [Hc _]; by rewrite skip_spaces_digit].
  rewrite atol_digits_ok; [lia|done|lia|lia].
Qed.

Definition padding (pad width : Z) (ds : list Z) : list Z := replicate (Z.to_nat (width - Z.of_nat (length ds))) pad.

(** Every number, whatever the base, is printed: a sign, the padding, then its
    digits. *)
Lemma put_num_ok num (sign : bool) pad width base : - 2 ^ 31 <= num < 2 ^ 31 -> 10 <= base <= 16 ->
  let mag := if sign && (num <? 0) then - num else u32 num in
  exists ds, put_num num sign pad width (-1) base =
    Some (if sign && (num <? 0) then 45 :: padding pad (width - 1) ds ++ ds else padding pad width ds ++ ds) /\
    Forall (is_digit base) ds /\ value base ds = mag /\ (0 < length ds <= 10)%nat.
Proof.
  intros Hn Hb mag. assert (forall z, u32 z < base ^ Z.of_nat 10) as Hpow.
  { intros z. pose proof (u32_pow10 z). pose proof (Z.pow_le_mono_l 10 base (Z.of_nat 10) ltac:(lia)). lia. }
  unfold put_num. subst mag. destruct (sign && (num <? 0)) eqn:Es.
  - apply andb_prop in Es as [-> Hneg%Z.ltb_lt]. destruct (plain_digits (s32 (- num)) (-1) base 10) as (ds&E&HF&HV&HL);
      [lia|lia|apply s32_range|apply Hpow|unfold TMP_SIZE; lia|]. rewrite E. cbn [mbind option_bind]. exists ds. rewrite HV, u32_s32, u32_small by lia. done.
  - destruct (plain_digits num (-1) base 10) as (ds&E&HF&HV&HL); [lia|lia|done|apply Hpow|unfold TMP_SIZE; lia|]. rewrite E. cbn [mbind option_bind].
    by exists ds.
Qed.

(** Padding with blanks or with zeros does not change what atol reads. *)
Lemma atol_padded pad width ds : pad = 32 \/ pad = 48 -> Forall (is_digit 10) ds -> (0 < length ds)%nat -> value 10 ds < 2 ^ 31 ->
  atol (padding pad width ds ++ ds) = value 10 ds.
Proof.
  intros [-> | ->] HF Hl Hv; unfold padding.
  - unfold atol. rewrite skip_spaces_pad; [rewrite atol_digits_ok; [lia|done|lia|lia]|]. intros r ->. apply Forall_cons in HF as [Hc _].
    apply digit10_char in Hc. lia.
  - rewrite atol_numeral; [by rewrite value_zeros| |by rewrite value_zeros]. apply Forall_app. split; [|done].
    apply Forall_replicate. exists 0. split; [lia|done].
Qed.

(** C37: The conversions %d and %u of sys/lib/vsprintf.c, with blanks or zeros as
    padding, any field width and no precision, print every number num with
    0 <= num < 2^31 so that atol() of the kernel, which reads no minus sign,
    reads the same number back; the output is at least as wide
    as the field and a number never needs more than ten characters, so tmp[16]
    is large enough. *)
Theorem put_num_atol num (sign : bool) pad width : 0 <= num < 2 ^ 31 -> pad = 32 \/ pad = 48 ->
  exists o, put_num num sign pad width (-1) 10 = Some o /\ atol o = num /\
    width <= Z.of_nat (length o) <= Z.max width 10.
Proof.
  intros Hn Hp. destruct (put_num_ok num sign pad width 10) as (ds&E&HF&HV&HL); [lia|lia|]. assert (sign && (num <? 0) = false) as Es.
  { destruct sign; [|done]. cbn. apply Z.ltb_ge. lia. }
  rewrite Es in *. rewrite u32_small in HV by lia. exists (padding pad width ds ++ ds). split; [done|]. split; [rewrite atol_padded; lia || done|].
  unfold padding. rewrite length_app, length_replicate. lia.
Qed.

Lemma put_num_atol_witness : exists o, put_num 2005 true 32 8 (-1) 10 = Some o /\ atol o = 2005 /\ 8 <= Z.of_nat (length o) <= Z.max 8 10.
Proof. apply (put_num_atol 2005 true 32 8); [lia|by left]. Defined.

Lemma value_bound base l : 2 <= base <= 16 -> Forall (is_digit base) l -> value base l < base ^ Z.of_nat (length l).
Proof.
  intros Hb. induction l as [|c l IH] using rev_ind; [done|]. rewrite Forall_app, Forall_singleton. intros [HF (d&Hd&->)].
  rewrite value_snoc, length_app by lia. cbn [length]. rewrite Nat2Z.inj_add, Z.pow_add_r by lia. change (Z.of_nat 1) with 1. rewrite Z.pow_1_r.
  specialize (IH HF). nia.
Qed.

(** What is left of a number after P + 1 of its digits has at most 9 - P. *)
Lemma fixed_top num n1 n2 d (P : nat) : 0 <= num < 2 ^ 32 -> (0 < P <= 9)%nat -> u32 n1 = num / 10 ^ Z.of_nat P -> u32 n1 = u32 n2 * 10 + d -> 0 <= d ->
  u32 n2 < 10 ^ Z.of_nat (9 - P).
Proof.
  intros Hn HP H1 H2 Hd. assert (0 < 10 ^ Z.of_nat P) as Hpos by (apply Z.pow_pos_nonneg; lia).
  assert (num / 10 ^ Z.of_nat P < 10 * 10 ^ Z.of_nat (9 - P)) as Hlt; [|lia]. apply Z.div_lt_upper_bound; [done|].
  replace (10 ^ Z.of_nat P * (10 * 10 ^ Z.of_nat (9 - P))) with (10 ^ 10); [lia|]. rewrite <- Z.pow_succ_r, <- Z.pow_add_r by lia. f_equal. lia.
Qed.

(** A precision P between 1 and 9. *)
Lemma put_num_frac num pad width (P : nat) : - 2 ^ 31 <= num < 2 ^ 31 -> (0 < P <= 9)%nat ->
  exists ip fp, put_num num false pad width (Z.of_nat P) 10 =
      Some (padding pad width (ip ++ 46 :: fp) ++ ip ++ 46 :: fp) /\
    Forall (is_digit 10) ip /\ Forall (is_digit 10) fp /\ length fp = P /\ (0 < length ip <= 10 - P)%nat /\
    value 10 ip = u32 num / 10 ^ Z.of_nat P /\ value 10 fp = u32 num mod 10 ^ Z.of_nat P.
Proof.
  intros Hn HP. unfold put_num. cbn [andb]. destruct (Z.leb_spec (Z.of_nat P) 0); [lia|]. rewrite andb_false_r.
  destruct (digits_loop_frac 10 ltac:(lia) P DIGITS_FUEL num []) as (fs&n1&E&Hl&HF&Hn1&Hq&Hu); [cbn; unfold TMP_SIZE; lia|lia|unfold DIGITS_FUEL; lia|].
  rewrite E, app_nil_r. assert (exists f, (DIGITS_FUEL - P = S f)%nat /\ (f = 16 - P)%nat) as (f&->&Hf) by (exists (16 - P)%nat; unfold DIGITS_FUEL; lia).
  cbn [digits_loop]. rewrite orb_true_r. pose proof (divide_ok n1 10 ltac:(lia)) as HD. destruct (divide n1 10) as [d n2] eqn:Ed. destruct HD as (Hd&Hn2&Hu2&Hq2).
  rewrite push_ok by (cbn; unfold TMP_SIZE; lia). cbn [mbind option_bind]. change (0 - 1) with (-1). cbn [Z.eqb mbind option_bind].
  destruct (digits_loop_ok 10 ltac:(lia) (9 - P) f n2 (-1) (digit_char d :: 46 :: fs)) as (ds&E2&HF2&HV2&HL2);
    [lia|done|apply (fixed_top (u32 num) n1 n2 d P (u32_range num) HP Hq Hu2); lia|lia|cbn; unfold TMP_SIZE; lia|].
  rewrite E2. cbn [mbind option_bind]. exists (ds ++ [digit_char d]), fs. rewrite <- app_assoc. cbn [app]. split; [done|].
  split; [apply Forall_app; split; [done|]; constructor; [by exists d|constructor]|]. split; [done|]. split; [done|].
  split; [rewrite length_app; cbn; lia|]. rewrite value_snoc by lia. split; [lia|]. apply Z.mod_unique_pos with (u32 n1); [|lia].
  pose proof (value_nonneg 10 fs ltac:(lia) HF). split; [done|]. rewrite <- Hl. apply value_bound; [lia|done].
Qed.

(** A precision P between 1 and 9 prints an unsigned long as a fixed-point
    fraction (the time stamps of printf()): the digits of num / 10^P, a point,
    and exactly P digits that denote num mod 10^P. *)
Theorem put_num_fixed num pad width (P : nat) : 0 <= num < 2 ^ 32 -> (0 < P <= 9)%nat ->
  exists ip fp, put_num (s32 num) false pad width (Z.of_nat P) 10 =
      Some (padding pad width (ip ++ 46 :: fp) ++ ip ++ 46 :: fp) /\
    Forall (is_digit 10) ip /\ Forall (is_digit 10) fp /\ length fp = P /\ (0 < length ip <= 10 - P)%nat /\
    value 10 ip = num / 10 ^ Z.of_nat P /\ value 10 fp = num mod 10 ^ Z.of_nat P.
Proof. 
  intros Hn HP. pose proof (put_num_frac (s32 num) pad width P (s32_range num) HP) as HF. rewrite u32_s32, (u32_small num Hn) in HF. exact HF.
Qed.

Lemma put_num_fixed_witness : exists ip fp, put_num (s32 4294967295) false 32 3 (Z.of_nat 3) 10 = Some (padding 32 3 (ip ++ 46 :: fp) ++ ip ++ 46 :: fp) /\
  Forall (is_digit 10) ip /\ Forall (is_digit 10) fp /\ length fp = 3%nat /\ (0 < length ip <= 10 - 3)%nat /\
  value 10 ip = 4294967295 / 10 ^ Z.of_nat 3 /\ value 10 fp = 4294967295 mod 10 ^ Z.of_nat 3.
Proof. apply (put_num_fixed 4294967295 32 3 3); lia. Defined.
