(* ===== verification/LibSpec.v ===== *)
(** * LibSpec: what sys/lib promises to the rest of the kernel

    The contracts of the string routines, and their agreement with the
    functions by which the other components use them: comparing and truncating
    names ([Object.same_name], [Thread.strlcpy]) and filling and copying pages
    ([Vm.memset], [Vm.memcpy]). *)
From stdpp Require Import base numbers gmap list.
From S2P Require Import Prelude Queue Core Kernel Object Thread Page PageSource Kmem HeapSource Mmu Vm Lib Printf.

Open Scope Z_scope.

Section Strings.
Context {M : Type} `{ByteMemLaws M}.

(** C36: strncmp() of two strings returns, and returns 0 exactly when their
    first count characters are the same (whatever the sign of the truncated
    difference); with MAXOBJNAME this is the comparison of object names. *)
Theorem strncmp_spec p q s t n m : cstring m p s -> cstring m q t ->
  exists r, Lib.strncmp p q n m = Some r /\ - 128 <= r < 128 /\ (r = 0 <-> take n s = take n t) /\
    (n = MAXOBJNAME -> (r =? 0) = same_name s t).
Proof.
  intros HS HT. destruct (strncmp_loop_ok s t n p q m HS HT) as (r&E&Hr). exists r. split; [done|]. split; [by eapply strncmp_loop_range|].
  split; [done|]. intros ->. unfold same_name. case_bool_decide as Hd; [by apply Z.eqb_eq, Hr|]. apply Z.eqb_neq. intros E0. by apply Hd, Hr.
Qed.

(** strlcpy() into a buffer of count > 0 bytes that does not lie inside the
    source: it returns the number of characters copied, leaves the first
    count - 1 characters of the source as a terminated string, and touches
    nothing but these bytes and the terminator. *)
Theorem strlcpy_spec dest src s count m : (0 < count)%nat -> cstring m src s -> room m dest count -> copy_ok dest src (S (length s)) ->
  exists m', Lib.strlcpy dest src count m = Some (Z.of_nat (length (Thread.strlcpy s count)), m') /\
    cstring m' dest (Thread.strlcpy s count) /\ wrote m m' dest (Thread.strlcpy s count ++ [0]).
Proof.
  intros Hc HS HR HC. destruct count as [|n]; [lia|]. unfold Thread.strlcpy. rewrite Nat.sub_succ, Nat.sub_0_r.
  destruct (strlcpy_loop_ok s n dest src m HS HR HC) as (m'&E&HW). exists m'. cbn [Lib.strlcpy]. rewrite E. cbn. rewrite length_take. split; [do 2 f_equal; lia|].
  split; [|done]. split; [by eapply wrote_bytes|]. apply Forall_take. apply HS.
Qed.

(** strncpy() stores the string and its terminator if there is room for it,
    else the first count characters without one; the rest of the buffer keeps
    its contents (it is not padded). *)
Theorem strncpy_spec dest src s count m : cstring m src s -> room m dest count -> copy_ok dest src (S (length s)) ->
  exists m', Lib.strncpy dest src count m = Some (dest, m') /\ wrote m m' dest (take count (s ++ [0])) /\
    ((length s < count)%nat -> cstring m' dest s).
Proof.
  intros HS HR HC. destruct (strncpy_loop_ok s count dest src m HS HR HC) as (m'&E&HW). exists m'. unfold Lib.strncpy. rewrite E. split; [done|]. split; [done|].
  intros Hl. split; [|apply HS]. rewrite take_ge in HW by (rewrite length_app; cbn; lia). by eapply wrote_bytes.
Qed.

(** strnlen() is the length of the string, cut off at count. *)
Theorem strnlen_spec p s n m : cstring m p s -> Lib.strnlen p n m = Some (Z.of_nat (n `min` length s)).
Proof. intros HS. unfold Lib.strnlen. rewrite (strnlen_loop_ok s n p m HS). cbn. f_equal. lia. Qed.
End Strings.

Section Pages.
Context {K P : Type}.

Lemma flat_bytes_at (r : Z -> Z) p n : bytes_at r p ((fun i => r (p + Z.of_nat i)) <$> seq 0 n).
Proof. intros i c Hi. rewrite list_lookup_fmap in Hi. apply fmap_Some in Hi as (j&[-> _]%lookup_seq&->). done. Qed.

Lemma flat_room (r : Z -> Z) p n : room r p n.
Proof. intros i Hi. by eexists. Qed.

(** The loops of memcpy() and memset() compute what vm.c is modelled with:
    when the destination is not inside the source, copying byte by byte
    upwards moves the whole block, and filling stores the byte everywhere. *)
Theorem memory_routines_refine dst src ch (n : nat) (s : vmem K P) : copy_ok dst src n -> 0 <= ch < 256 ->
  exists r1 r2, Lib.memcpy dst src n (ram s) = Some (dst, r1) /\ (forall x, r1 x = ram (Vm.memcpy dst src (Z.of_nat n) s) x) /\
    Lib.memset dst ch n (ram s) = Some (dst, r2) /\ (forall x, r2 x = ram (Vm.memset dst ch (Z.of_nat n) s) x).
Proof.
  intros HC Hch. set (l := (fun i => ram s (src + Z.of_nat i)) <$> seq 0 n). assert (length l = n) as Hl by (unfold l; by rewrite length_fmap, length_seq).
  destruct (memcpy_loop_ok l dst src (ram s)) as (r1&E1&W1); [apply flat_bytes_at|apply flat_room|by rewrite Hl|].
  destruct (memset_loop_ok n dst ch (ram s)) as (r2&E2&W2); [apply flat_room|]. rewrite Hl in E1. exists r1, r2. unfold Lib.memcpy, Lib.memset.
  rewrite E1, E2. split; [done|]. split; [|split; [done|]]; intros x.
  - specialize (W1 x). cbn [ldb flat_bytes] in W1. rewrite Hl in W1. cbn. destruct (Z.leb_spec dst x), (Z.ltb_spec x (dst + Z.of_nat n)); cbn [andb];
      [|rewrite decide_False in W1 by lia; congruence..]. rewrite decide_True in W1 by lia. unfold l in W1.
    rewrite list_lookup_fmap, lookup_seq_lt in W1 by lia. cbn in W1. simplify_eq. rewrite W1. f_equal. lia.
  - specialize (W2 x). cbn [ldb flat_bytes] in W2. rewrite length_replicate, Z.mod_small in W2 by lia. cbn.
    destruct (Z.leb_spec dst x), (Z.ltb_spec x (dst + Z.of_nat n)); cbn [andb]; [|rewrite decide_False in W2 by lia; congruence..].
    rewrite decide_True, lookup_replicate_2 in W2 by lia. congruence.
Qed.
End Pages.

(** ** Byte order *)
Lemma byte_of_div x i : 0 <= i -> byte_of x i = (x / 2 ^ (8 * i)) mod 256.
Proof. intros Hi. unfold byte_of. change 255 with (Z.ones 8). by rewrite Z.land_ones, Z.shiftr_div_pow2 by lia. Qed.

Lemma lor_shift a b k : 0 <= k -> 0 <= b < 2 ^ k -> Z.lor (Z.shiftl a k) b = a * 2 ^ k + b.
Proof.
  intros Hk Hb. assert (Z.land (Z.shiftl a k) b = 0) as Hd.
  { apply Z.bits_inj'. intros j Hj. rewrite Z.land_spec, Z.bits_0. destruct (Z.ltb_spec j k); [by rewrite Z.shiftl_spec_low|].
    rewrite <- (Z.mod_small b (2 ^ k)) by done. rewrite Z.mod_pow2_bits_high by lia. apply andb_false_r. }
  by rewrite <- Z.lxor_lor, <- Z.add_nocarry_lxor, Z.shiftl_mul_pow2 by done.
Qed.

Lemma htonl_bytes x : htonl x = byte_of x 0 * 2 ^ 24 + byte_of x 1 * 2 ^ 16 + byte_of x 2 * 2 ^ 8 + byte_of x 3.
Proof.
  assert (forall i, 0 <= i -> 0 <= byte_of x i < 256) as HB by (intros i Hi; rewrite byte_of_div by done; apply Z.mod_pos_bound; lia).
  pose proof (HB 0 ltac:(lia)). pose proof (HB 1 ltac:(lia)). pose proof (HB 2 ltac:(lia)). pose proof (HB 3 ltac:(lia)). unfold htonl.
  rewrite <- !Z.lor_assoc, (lor_shift (byte_of x 2)), (lor_shift (byte_of x 1)), (lor_shift (byte_of x 0)) by lia. rewrite u32_small by lia. lia.
Qed.

Lemma htons_bytes x : htons x = byte_of x 0 * 2 ^ 8 + byte_of x 1.
Proof.
  assert (forall i, 0 <= i -> 0 <= byte_of x i < 256) as HB by (intros i Hi; rewrite byte_of_div by done; apply Z.mod_pos_bound; lia).
  pose proof (HB 0 ltac:(lia)). pose proof (HB 1 ltac:(lia)). unfold htons. rewrite (lor_shift (byte_of x 0)) by lia. apply Z.mod_small. lia.
Qed.

Definition word (b0 b1 b2 b3 : Z) : Z := b0 + b1 * 2 ^ 8 + b2 * 2 ^ 16 + b3 * 2 ^ 24.

Lemma word_bytes b0 b1 b2 b3 : 0 <= b0 < 256 -> 0 <= b1 < 256 -> 0 <= b2 < 256 -> 0 <= b3 < 256 ->
  byte_of (word b0 b1 b2 b3) 0 = b0 /\ byte_of (word b0 b1 b2 b3) 1 = b1 /\ byte_of (word b0 b1 b2 b3) 2 = b2 /\ byte_of (word b0 b1 b2 b3) 3 = b3.
Proof.
  intros H0 H1 H2 H3. unfold word. rewrite !byte_of_div by lia. change (2 ^ (8 * 0)) with 1. change (2 ^ (8 * 1)) with 256.
  change (2 ^ (8 * 2)) with 65536. change (2 ^ (8 * 3)) with 16777216. split_and!; Z.div_mod_to_equations; lia.
Qed.

Lemma htonl_word b0 b1 b2 b3 : 0 <= b0 < 256 -> 0 <= b1 < 256 -> 0 <= b2 < 256 -> 0 <= b3 < 256 ->
  htonl (word b0 b1 b2 b3) = word b3 b2 b1 b0.
Proof. intros H0 H1 H2 H3. destruct (word_bytes b0 b1 b2 b3 H0 H1 H2 H3) as (E0&E1&E2&E3). rewrite htonl_bytes, E0, E1, E2, E3. unfold word. lia. Qed.

Lemma htons_word b0 b1 : 0 <= b0 < 256 -> 0 <= b1 < 256 -> htons (word b0 b1 0 0) = word b1 b0 0 0.
Proof. intros H0 H1. destruct (word_bytes b0 b1 0 0) as (E0&E1&_); [lia..|]. rewrite htons_bytes, E0, E1. unfold word. lia. Qed.

Lemma word_split x : 0 <= x < 2 ^ 32 -> exists b0 b1 b2 b3, x = word b0 b1 b2 b3 /\ 0 <= b0 < 256 /\ 0 <= b1 < 256 /\ 0 <= b2 < 256 /\ 0 <= b3 < 256 /\
  (x < 2 ^ 16 -> b2 = 0 /\ b3 = 0).
Proof.
  intros Hx. exists (x mod 256), (x / 256 mod 256), (x / 65536 mod 256), (x / 16777216). unfold word.
  assert (x / 65536 = x / 256 / 256) as -> by (by rewrite Z.div_div). assert (x / 16777216 = x / 256 / 256 / 256) as -> by (by rewrite !Z.div_div).
  set (y := x / 256). pose proof (Z.div_mod x 256 ltac:(lia)) as Ex. fold y in Ex. pose proof (Z.mod_pos_bound x 256 ltac:(lia)).
  set (z := y / 256). pose proof (Z.div_mod y 256 ltac:(lia)) as Ey. fold z in Ey. pose proof (Z.mod_pos_bound y 256 ltac:(lia)).
  pose proof (Z.div_mod z 256 ltac:(lia)) as Ez. pose proof (Z.mod_pos_bound z 256 ltac:(lia)). split_and!; try lia.
Qed.

(** The byte-order routines are inverse to each other on every 32-bit, resp.
    16-bit word. *)
Theorem byte_order_roundtrip x : (0 <= x < 2 ^ 32 -> ntohl (htonl x) = x /\ htonl (ntohl x) = x) /\
  (0 <= x < 2 ^ 16 -> ntohs (htons x) = x /\ htons (ntohs x) = x).
Proof.
  change ntohl with htonl. change ntohs with htons. split; intros Hx; destruct (word_split x) as (b0&b1&b2&b3&->&?&?&?&?&Hs); try lia.
  - by rewrite !htonl_word.
  - destruct Hs as [-> ->]; [lia|]. by rewrite !htons_word.
Qed.

(** ** Examples: the names of two objects in memory, alike in their first two
    characters. *)
Module LibDemo.
Definition names : gmap Z Z := list_to_map [(16, 97); (17, 98); (18, 99); (19, 0); (32, 97); (33, 98); (34, 0)].

Lemma names_abc : cstring names 16 [97; 98; 99] /\ cstring names 32 [97; 98].
Proof.
  split; (split; [|by repeat constructor]); intros i c Hi; do 4 (destruct i as [|i]; [simplify_eq/=; vm_compute; reflexivity|]); done.
Qed.

Lemma strncmp_spec_witness : (exists r, Lib.strncmp 16 32 MAXOBJNAME names = Some r /\ (r =? 0) = false) /\
  (exists r, Lib.strncmp 16 32 2 names = Some r /\ (r = 0 <-> take 2 [97; 98; 99] = take 2 [97; 98])).
Proof.
  split.
  - destruct (strncmp_spec 16 32 [97; 98; 99] [97; 98] MAXOBJNAME names (proj1 names_abc) (proj2 names_abc)) as (r&E&_&_&Hr). exists r.
    split; [exact E|]. rewrite (Hr eq_refl). reflexivity.
  - destruct (strncmp_spec 16 32 [97; 98; 99] [97; 98] 2%nat names (proj1 names_abc) (proj2 names_abc)) as (r&E&_&Hr&_). exists r. split; [exact E|exact Hr].
Defined.
End LibDemo.
