(* ===== verification/KernLog.v ===== *)
(** * KernLog: the kernel's messages, sys/kern/debug.c and sys_log()

    printf() formats a message into [dbg_msg], appends it to the ring buffer
    [log_buf] and hands it to the print routine; debug_getlog() copies what has
    not been read yet to the user, debug_getbuf() lends it to a driver.  The
    code exists only in a kernel built with DEBUG, where ASSERT is on.

    [log_tail] and the two read positions count every byte ever logged, modulo
    2^32.  The messages handed to the print routine are kept as a trace.
    Interrupts are off throughout (irq_lock(), see Irq.v), so each routine is
    one step.  An access outside a static array is a fault. *)
From stdpp Require Import base numbers gmap list strings.
From S2P Require Import Prelude Core Kernel UserMem Thread Lib Printf.

Open Scope Z_scope.

Definition LOGBUF_SIZE := 2048.
Definition DBG_MSG_LEN := DBGMSG_SIZE + 12.        (* dbg_msg[DBGMSG_SIZE + 12] *)
Definition SYSLOG_BUF := SYSLOG_SIZE + 12.         (* buf[SYSLOG_SIZE + MAXTHNAME] *)
Definition LOGINDEX (x : Z) : Z := Z.land x (LOGBUF_SIZE - 1).
Definition NEWLINE := 10.

Record klog := mk_klog {
  log_buf : list Z;
  log_tail : Z;               (* u_long *)
  p_eol : bool;               (* printf: eol *)
  getlog_head : Z;            (* debug_getlog: head *)
  getbuf_head : Z;            (* debug_getbuf: head *)
  sl_buf : list Z;            (* sys_log: buf *)
  sl_eol : bool;              (* sys_log: eol *)
  console : list (list Z);    (* the calls of print_func, oldest first *)
  log_umem : gmap (Z * Z) Z;  (* user memory *)
}.
#[export] Instance klog_eta : Settable klog := fun x =>
  mk_klog (log_buf x) (log_tail x) (p_eol x) (getlog_head x) (getbuf_head x) (sl_buf x) (sl_eol x) (console x) (log_umem x).

(** log_buf[LOGINDEX(log_tail)] = c; log_tail++; *)
Definition log_char (s : klog) (c : Z) : klog :=
  s <| log_buf ::= <[Z.to_nat (LOGINDEX (log_tail s)) := c]> |> <| log_tail ::= fun t => u32 (t + 1) |>.
Definition log_chars (l : list Z) (s : klog) : klog := fold_left log_char l s.

(** The time stamp at the start of a line. *)
Definition stamp (fmt : list Z) (now : Z) (s : klog) : option (list Z) :=
  if p_eol s && negb (bool_decide (head fmt = Some NEWLINE)) then vsprintf (str "%3.3u ") [ANum now] else Some [].

(** [now] is timer_count().  The message and its terminator must fit in
    dbg_msg, and dbg_msg[len - 1] must exist. *)
Definition printf (fmt : list Z) (args : list arg) (now : Z) (s : klog) : option klog :=
  t ← stamp fmt now s;
  o ← vsprintf fmt args;
  let msg := t ++ o in
  if negb (Z.of_nat (length msg) + 1 <=? DBG_MSG_LEN) then None
  else
    c ← last msg;
    let s := s <| p_eol := (c =? NEWLINE) |> in
    let s := log_chars msg s in
    Some (s <| console ::= fun l => l ++ [msg] |>).

(** do { c = log_buf[LOGINDEX(head)]; head++; len--; } while (len > 0 && c != '\n'); *)
Fixpoint discard (n : nat) (buf : list Z) (head len : Z) : option (Z * Z) :=
  match n with
  | O => None
  | S n =>
      c ← buf !! Z.to_nat (LOGINDEX head);
      let head := u32 (head + 1) in
      let len := len - 1 in
      if (0 <? len) && negb (c =? NEWLINE) then discard n buf head len else Some (head, len)
  end.

(** The part of debug_getlog and debug_getbuf before the copy: the position and
    the number of the bytes to read. *)
Definition unread (buf : list Z) (tail head : Z) : option (Z * Z) :=
  let len := u32 (tail - head) in
  if LOGBUF_SIZE <? len then discard (Z.to_nat LOGBUF_SIZE) buf (u32 (tail - LOGBUF_SIZE)) LOGBUF_SIZE
  else Some (head, len).

(** The [n] bytes at log_buf + LOGINDEX(head), which end inside the array. *)
Definition log_slice (buf : list Z) (head n : Z) : option (list Z) :=
  if LOGINDEX head + n <=? LOGBUF_SIZE then Some (take (Z.to_nat n) (drop (Z.to_nat (LOGINDEX head)) buf)) else None.

(** umem_copyout() for the task with address space [m]. *)
Definition log_copyout (m a : Z) (bs : list Z) (s : klog) : bool * klog :=
  if umem_ok a (Z.of_nat (length bs)) then
    let '(ok, M) := uwrite (log_umem s) m a bs in (ok, s <| log_umem := M |>)
  else (false, s).

(** umem_copyout(log_buf + LOGINDEX(head), buf, n), then head += n. *)
Definition getlog_part (m buf n : Z) (s : klog) : option (bool * klog) :=
  l ← log_slice (log_buf s) (getlog_head s) n;
  match log_copyout m buf l s with
  | (false, s) => Some (false, s)
  | (true, s) => Some (true, s <| getlog_head ::= fun h => u32 (h + n) |>)
  end.

Definition debug_getlog (m buf : Z) (s : klog) : option (Z * klog) :=
  if u32 (log_tail s - getlog_head s) =? 0 then Some (0, s)
  else
    u ← unread (log_buf s) (log_tail s) (getlog_head s);
    let '(head, len) := u in
    let s := s <| getlog_head := head |> in
    let buf_len := LOGBUF_SIZE - LOGINDEX head in
    if buf_len <? len then
      t ← getlog_part m buf buf_len s;
      let '(ok, s) := t in
      if negb ok then Some (- EFAULT, s)
      else
        t ← getlog_part m (buf + buf_len) (len - buf_len) s;
        let '(ok, s) := t in
        Some (if (ok : bool) then len else - EFAULT, s)
    else if len =? 0 then Some (len, s)
    else
      t ← getlog_part m buf len s;
      let '(ok, s) := t in
      Some (if (ok : bool) then len else - EFAULT, s).

(** The number of bytes and, when there are any, their index in log_buf. *)
Definition debug_getbuf (s : klog) : option (Z * Z * klog) :=
  if u32 (log_tail s - getbuf_head s) =? 0 then Some (0, 0, s)
  else
    u ← unread (log_buf s) (log_tail s) (getbuf_head s);
    let '(head, len) := u in
    let buf_len := LOGBUF_SIZE - LOGINDEX head in
    let len := if buf_len <? len then buf_len else len in
    Some (len, LOGINDEX head, s <| getbuf_head := u32 (head + len) |>).

(** ** sys_log *)

(** Bytes stored into a static array from index [i] on. *)
Definition splice (i : nat) (l buf : list Z) : option (list Z) :=
  if (i + length l <=? length buf)%nat then Some (take i buf ++ l ++ drop (i + length l) buf) else None.

(** The thread's name and a colon at the start of a line; [p] as an index. *)
Definition sys_log_name (name : list Z) (s : klog) : option (list Z * nat) :=
  match name with
  | _ :: _ =>
      if sl_eol s then
        let pre := Thread.strlcpy name MAXTHNAME in
        b ← splice 0 (pre ++ [0]) (sl_buf s);
        b ← splice (length pre) [58] b;
        Some (b, S (length pre))
      else Some (sl_buf s, 0%nat)
  | [] => Some (sl_buf s, 0%nat)
  end.

(** [a] is the user's string, [name] the name of the current thread and [m] its
    address space.  The buffer is the format of printf(). *)
Definition sys_log (a now : Z) (name : list Z) (m : Z) (s : klog) : option (Z * klog) :=
  t ← sys_log_name name s;
  let '(b, p) := t in
  let s := s <| sl_buf := b |> in
  match (if UMEM_MAX <=? a then None else scasb (log_umem s) m a (Z.to_nat SYSLOG_SIZE) 0) with
  | None => Some (EFAULT, s)
  | Some len =>
      if SYSLOG_SIZE <=? len then Some (EINVAL, s)
      else
        match (if umem_ok a (len + 1) then uread (log_umem s) m a (Z.to_nat (len + 1)) else None) with
        | None => Some (EFAULT, s)
        | Some bs =>
            b ← splice p bs b;
            (* p[len - 1] *)
            c ← (if 0 <? Z.of_nat p + len then b !! Z.to_nat (Z.of_nat p + len - 1) else None);
            let s := s <| sl_buf := b |> <| sl_eol := (c =? NEWLINE) |> in
            fmt ← cstr b;
            s ← printf fmt [] now s;
            Some (0, s)
        end
  end.
