(* ===== verification/KernLogSpec.v ===== *)
(** * KernLogSpec: the ring buffer of messages implements a log

    The abstract state is the list of every byte ever logged and two positions
    in it.  [log_rep] relates it to the ring buffer and the wrapping counters of
    debug.c. *)
From stdpp Require Import base numbers gmap list strings.
From S2P Require Import Prelude Core Kernel UserMem Thread Lib Printf KernLog.

Open Scope Z_scope.

Definition len (l : list Z) : Z := Z.of_nat (length l).

Record log_rep (s : klog) (H : list Z) : Prop := {
  lr_size : len (log_buf s) = LOGBUF_SIZE;
  lr_tail : log_tail s = u32 (len H);
  lr_bytes : forall k : nat, len H - LOGBUF_SIZE <= Z.of_nat k < len H ->
    log_buf s !! Z.to_nat (Z.of_nat k mod LOGBUF_SIZE) = H !! k;
}.

(** What is left of a log after its first line. *)
Fixpoint after_line (l : list Z) : list Z :=
  match l with [] => [] | c :: l => if c =? NEWLINE then l else after_line l end.
(** What a reader gets: everything, or if that is more than the buffer holds
    the complete lines among the last 2048 bytes. *)
Definition deliver (l : list Z) : list Z :=
  if len l <=? LOGBUF_SIZE then l else after_line (drop (length l - Z.to_nat LOGBUF_SIZE) l).

(** ** Indices *)
Lemma LOGINDEX_mod z : LOGINDEX z = z mod LOGBUF_SIZE.
Proof. unfold LOGINDEX, LOGBUF_SIZE. change (2048 - 1) with (Z.ones 11). by rewrite Z.land_ones by lia. Qed.

Lemma LOGINDEX_u32 z : LOGINDEX (u32 z) = z mod LOGBUF_SIZE.
Proof.
  rewrite LOGINDEX_mod. unfold u32, LOGBUF_SIZE. change (2 ^ 32) with (2048 * 2097152).
  rewrite Z.rem_mul_r by lia. rewrite Z.mul_comm, Z.mod_add, Z.mod_mod by lia. done.
Qed.

Lemma LOGINDEX_range z : 0 <= LOGINDEX z < LOGBUF_SIZE.
Proof. rewrite LOGINDEX_mod. apply Z.mod_pos_bound. unfold LOGBUF_SIZE. lia. Qed.

Lemma u32_plus a b : u32 (u32 a + b) = u32 (a + b).
Proof. unfold u32. by rewrite Z.add_mod_idemp_l. Qed.
Lemma u32_minus a b : u32 (u32 a - u32 b) = u32 (a - b).
Proof. unfold u32. by rewrite <- Zminus_mod. Qed.
Lemma u32_minus_l a b : u32 (u32 a - b) = u32 (a - b).
Proof. unfold u32. by rewrite Zminus_mod_idemp_l. Qed.

(** Two positions less than a buffer apart have different indices. *)
Lemma index_ne j k : 0 < k - j < LOGBUF_SIZE -> j mod LOGBUF_SIZE <> k mod LOGBUF_SIZE.
Proof. unfold LOGBUF_SIZE. intros H E. Z.div_mod_to_equations. lia. Qed.

(** ** Appending *)
Lemma log_char_ok s H c : log_rep s H -> log_rep (log_char s c) (H ++ [c]).
Proof.
  intros [Hs Ht Hb]. unfold log_char. assert (len (H ++ [c]) = len H + 1) as El by (unfold len; rewrite length_app; cbn; lia). split; cbn.
  - unfold len in *. by rewrite length_insert.
  - by rewrite El, Ht, u32_plus.
  - intros k. rewrite El, Ht, LOGINDEX_u32. intros Hk. pose proof (Z.mod_pos_bound (len H) LOGBUF_SIZE ltac:(unfold LOGBUF_SIZE; lia)).
    pose proof (Z.mod_pos_bound (Z.of_nat k) LOGBUF_SIZE ltac:(unfold LOGBUF_SIZE; lia)). destruct (decide (Z.of_nat k = len H)) as [Ek|Hne].
    + rewrite Ek, list_lookup_insert_eq by (unfold len in *; lia). unfold len in Ek. by rewrite lookup_app_r, (proj2 (Nat.sub_0_le _ _)) by lia.
    + pose proof (index_ne (Z.of_nat k) (len H) ltac:(lia)). rewrite list_lookup_insert_ne by lia. unfold len in *. rewrite lookup_app_l by lia. apply Hb. lia.
Qed.

Lemma log_chars_ok l s H : log_rep s H -> log_rep (log_chars l s) (H ++ l).
Proof.
  revert s H. induction l as [|c l IH]; intros s H HR; [by rewrite app_nil_r|]. cbn. rewrite (app_assoc H [c] l : H ++ c :: l = _). by apply IH, log_char_ok.
Qed.

Lemma log_chars_same l s : getlog_head (log_chars l s) = getlog_head s /\ getbuf_head (log_chars l s) = getbuf_head s /\ p_eol (log_chars l s) = p_eol s /\
  console (log_chars l s) = console s /\ log_umem (log_chars l s) = log_umem s /\ sl_buf (log_chars l s) = sl_buf s /\ sl_eol (log_chars l s) = sl_eol s.
Proof. revert s. induction l as [|c l IH]; intros s; [done|]. change (log_chars (c :: l) s) with (log_chars l (log_char s c)). destruct (IH (log_char s c)) as (->&->&->&->&->&->&->). done. Qed.

(** ** Reading *)
Lemma log_byte s H (k : nat) : log_rep s H -> len H - LOGBUF_SIZE <= Z.of_nat k < len H ->
  log_buf s !! Z.to_nat (LOGINDEX (u32 (Z.of_nat k))) = H !! k.
Proof. intros HR Hk. rewrite LOGINDEX_u32. by apply (lr_bytes _ _ HR). Qed.

Lemma discard_ok s H n (k : nat) : log_rep s H -> len H - LOGBUF_SIZE <= Z.of_nat k < len H -> len H - Z.of_nat k <= Z.of_nat n ->
  exists k' : nat, discard n (log_buf s) (u32 (Z.of_nat k)) (len H - Z.of_nat k) = Some (u32 (Z.of_nat k'), len H - Z.of_nat k') /\
    (k < k')%nat /\ Z.of_nat k' <= len H /\ drop k' H = after_line (drop k H).
Proof.
  intros HR. revert k. induction n as [|n IH]; intros k Hk Hn; [lia|]. cbn [discard]. rewrite (log_byte _ _ _ HR Hk).
  destruct (H !! k) as [c|] eqn:Hc; [|apply lookup_ge_None in Hc; unfold len in *; lia]. cbn [mbind option_bind]. rewrite u32_plus, (drop_S _ _ _ Hc). cbn [after_line].
  replace (Z.of_nat k + 1) with (Z.of_nat (S k)) by lia. replace (len H - Z.of_nat k - 1) with (len H - Z.of_nat (S k)) by lia.
  destruct (Z.eqb_spec c NEWLINE) as [->|Hnl]; [rewrite andb_false_r; exists (S k); split_and!; [done|lia|lia|done]|].
  destruct (Z.ltb_spec 0 (len H - Z.of_nat (S k))) as [Hl|Hl]; cbn [andb negb].
  - destruct (IH (S k)) as (k'&E&?&?&?); [lia..|]. exists k'. split_and!; [done|lia|lia|done].
  - exists (S k). split_and!; [done|lia|lia|]. rewrite (drop_ge H) by (unfold len in *; lia). done.
Qed.

(** What the two readers determine first. *)
Lemma unread_ok s H (h : nat) : log_rep s H -> (h <= length H)%nat -> len H - Z.of_nat h < 2 ^ 32 ->
  exists k : nat, unread (log_buf s) (log_tail s) (u32 (Z.of_nat h)) = Some (u32 (Z.of_nat k), len H - Z.of_nat k) /\
    (h <= k <= length H)%nat /\ len H - LOGBUF_SIZE <= Z.of_nat k /\ drop k H = deliver (drop h H).
Proof.
  intros HR Hh Hlt. unfold unread. rewrite (lr_tail _ _ HR), u32_minus, (u32_small (len H - Z.of_nat h)) by (unfold len in *; lia).
  unfold deliver. assert (len (drop h H) = len H - Z.of_nat h) as -> by (unfold len; rewrite length_drop; lia). rewrite Z.leb_antisym.
  destruct (Z.ltb_spec LOGBUF_SIZE (len H - Z.of_nat h)) as [Hov|Hov]; cbn [negb].
  - set (k := (length H - Z.to_nat LOGBUF_SIZE)%nat). assert (Z.of_nat k = len H - LOGBUF_SIZE) as Ek by (unfold k, len, LOGBUF_SIZE in *; lia).
    rewrite u32_minus_l, <- Ek. destruct (discard_ok s H (Z.to_nat LOGBUF_SIZE) k HR) as (k'&E&?&?&Ed); [unfold LOGBUF_SIZE in *; lia..|].
    replace (len H - Z.of_nat k) with LOGBUF_SIZE in E by lia. exists k'. split; [done|]. split; [unfold len, LOGBUF_SIZE in *; lia|]. split; [lia|].
    rewrite Ed, drop_drop, length_drop. do 2 f_equal. unfold k, len, LOGBUF_SIZE in *. lia.
  - exists h. split; [done|]. split; [lia|]. split; [lia|done].
Qed.

Lemma log_slice_ok s H (k n : nat) : log_rep s H -> len H - LOGBUF_SIZE <= Z.of_nat k -> (k + n <= length H)%nat ->
  LOGINDEX (u32 (Z.of_nat k)) + Z.of_nat n <= LOGBUF_SIZE ->
  log_slice (log_buf s) (u32 (Z.of_nat k)) (Z.of_nat n) = Some (take n (drop k H)).
Proof.
  intros HR Hk Hn Hi. unfold log_slice. rewrite (proj2 (Z.leb_le _ _)) by done. f_equal. rewrite Nat2Z.id. apply list_eq. intros i.
  destruct (decide (i < n)%nat) as [Hlt|Hge]; [|rewrite !lookup_take_ge by lia; done]. rewrite !lookup_take_lt, !lookup_drop by done.
  rewrite <- (lr_bytes _ _ HR) by (unfold len in *; lia). f_equal. rewrite LOGINDEX_u32 in *. rewrite Nat2Z.inj_add.
  pose proof (Z.mod_pos_bound (Z.of_nat k) LOGBUF_SIZE ltac:(unfold LOGBUF_SIZE; lia)).
  rewrite <- Z.add_mod_idemp_l by (unfold LOGBUF_SIZE; lia). rewrite (Z.mod_small (_ + Z.of_nat i)) by lia. lia.
Qed.

(** ** debug_getlog *)

(** The bytes [l] lie in user memory at [a], and nothing else has changed. *)
Definition delivered (M M' : gmap (Z * Z) Z) (m a : Z) (l : list Z) : Prop :=
  (forall i : nat, (i < length l)%nat -> M' !! (m, a + Z.of_nat i) = l !! i) /\
  (forall m' x, m' <> m \/ x < a \/ a + len l <= x -> M' !! (m', x) = M !! (m', x)).

Lemma delivered_app M M1 M2 m a l1 l2 : delivered M M1 m a l1 -> delivered M1 M2 m (a + len l1) l2 -> delivered M M2 m a (l1 ++ l2).
Proof.
  unfold delivered, len. intros [Hi1 Ho1] [Hi2 Ho2]. split.
  - rewrite length_app. intros i Hi. destruct (decide (i < length l1)%nat) as [Hlt|Hge].
    + rewrite Ho2 by lia. rewrite lookup_app_l by done. by apply Hi1.
    + rewrite lookup_app_r, <- Hi2 by lia. do 2 f_equal. lia.
  - rewrite length_app. intros m' x Hx. rewrite Ho2 by lia. apply Ho1. lia.
Qed.

Lemma delivered_nil M m a : delivered M M m a [].
Proof. split; [intros i Hi; cbn in Hi; lia|done]. Qed.

Lemma delivered_mapped M M' m a l b n : delivered M M' m a l -> mapped M m b n -> mapped M' m b n.
Proof.
  intros [Hi Ho] HM i Hib. destruct (decide (a <= b + i < a + len l)) as [Hin|Hout]; [|rewrite Ho by lia; by apply HM].
  replace (b + i) with (a + Z.of_nat (Z.to_nat (b + i - a))) by lia. unfold len in Hin. rewrite Hi by lia. apply lookup_lt_is_Some_2. lia.
Qed.

Lemma log_copyout_ok m a l s : umem_ok a (len l) = true -> mapped (log_umem s) m a (length l) ->
  exists M', log_copyout m a l s = (true, s <| log_umem := M' |>) /\ delivered (log_umem s) M' m a l.
Proof.
  intros Hok HM. unfold log_copyout. change (Z.of_nat (length l)) with (len l). rewrite Hok. destruct (uwrite_ok _ _ _ _ HM) as (M'&->&Hi&Ho). by exists M'.
Qed.

Lemma log_rep_ext s s' H : log_rep s H -> log_buf s' = log_buf s -> log_tail s' = log_tail s -> log_rep s' H.
Proof. intros [Hs Ht Hb] Eb Et. split; rewrite ?Eb, ?Et; done. Qed.

Lemma getlog_part_ok m buf s H (k n : nat) : log_rep s H -> getlog_head s = u32 (Z.of_nat k) -> len H - LOGBUF_SIZE <= Z.of_nat k ->
  (k + n <= length H)%nat -> LOGINDEX (u32 (Z.of_nat k)) + Z.of_nat n <= LOGBUF_SIZE -> umem_ok buf (Z.of_nat n) = true -> mapped (log_umem s) m buf n ->
  exists s', getlog_part m buf (Z.of_nat n) s = Some (true, s') /\ log_rep s' H /\ getlog_head s' = u32 (Z.of_nat (k + n)) /\
    delivered (log_umem s) (log_umem s') m buf (take n (drop k H)).
Proof.
  intros HR Eh Hk Hn Hi Hok HM. unfold getlog_part. rewrite Eh, (log_slice_ok s H k n HR Hk Hn Hi). cbn [mbind option_bind].
  assert (length (take n (drop k H)) = n) as Hl by (rewrite length_take, length_drop; lia).
  destruct (log_copyout_ok m buf (take n (drop k H)) s) as (M'&->&HD); [unfold len; by rewrite Hl|by rewrite Hl|].
  eexists. split; [done|]. split; [by eapply log_rep_ext|]. cbn. rewrite Eh, u32_plus, Nat2Z.inj_add. done.
Qed.

Lemma wrap_index k : LOGINDEX (u32 (k + (LOGBUF_SIZE - LOGINDEX (u32 k)))) = 0.
Proof. rewrite !LOGINDEX_u32. unfold LOGBUF_SIZE. Z.div_mod_to_equations. lia. Qed.

(** The bytes from position k to the end of the log, in one or two parts. *)
Lemma getlog_ok m buf s H (h : nat) : log_rep s H -> getlog_head s = u32 (Z.of_nat h) -> (h <= length H)%nat -> len H - Z.of_nat h < 2 ^ 32 ->
  let l := deliver (drop h H) in
  umem_ok buf (len l) = true -> mapped (log_umem s) m buf (length l) ->
  exists s', debug_getlog m buf s = Some (len l, s') /\ log_rep s' H /\ getlog_head s' = u32 (len H) /\
    delivered (log_umem s) (log_umem s') m buf l.
Proof.
  intros HR Eh Hh Hlt l Hok HM. unfold debug_getlog. destruct (unread_ok s H h HR Hh Hlt) as (k&Eu&Hk&Hkb&Ed). fold l in Ed.
  assert (len l = len H - Z.of_nat k) as El by (rewrite <- Ed; unfold len; rewrite length_drop; lia). apply Z.ltb_lt in Hok.
  rewrite Eh, Eu, (lr_tail _ _ HR), u32_minus, (u32_small (len H - _)) by (unfold len in *; lia).
  destruct (Z.eqb_spec (len H - Z.of_nat h) 0) as [Ez|Ez].
  { assert (l = []) as Enil by (rewrite <- Ed; apply drop_ge; unfold len in *; lia). exists s. rewrite Enil. replace (len H) with (Z.of_nat h) by lia.
    split; [done|]. split; [done|]. split; [done|apply delivered_nil]. }
  cbn [mbind option_bind]. set (s1 := s <| getlog_head := u32 (Z.of_nat k) |>). pose proof (LOGINDEX_range (u32 (Z.of_nat k))) as HX.
  assert (log_rep s1 H) as HR1 by (by eapply log_rep_ext). rewrite <- El.
  destruct (Z.ltb_spec (LOGBUF_SIZE - LOGINDEX (u32 (Z.of_nat k))) (len l)) as [Hw|Hw].
  - set (n := Z.to_nat (LOGBUF_SIZE - LOGINDEX (u32 (Z.of_nat k)))). assert (LOGBUF_SIZE - LOGINDEX (u32 (Z.of_nat k)) = Z.of_nat n) as En by lia.
    pose proof (wrap_index (Z.of_nat k)) as Hwi. rewrite En in *. destruct (getlog_part_ok m buf s1 H k n HR1 eq_refl Hkb) as (s2&->&HR2&Eh2&D2);
      [unfold len in *; lia|lia|apply Z.ltb_lt; lia|intros i Hi; apply HM; unfold len in *; lia|]. cbn [mbind option_bind negb].
    replace (len l - Z.of_nat n) with (Z.of_nat (length l - n)) by (unfold len in *; lia). rewrite Ed in D2.
    assert (len (take n l) = Z.of_nat n) as Hn by (unfold len in *; rewrite length_take; lia).
    destruct (getlog_part_ok m (buf + Z.of_nat n) s2 H (k + n) (length l - n) HR2 Eh2) as (s3&->&HR3&Eh3&D3);
      [lia|unfold len in *; lia|rewrite Nat2Z.inj_add, Hwi; unfold len in *; lia|apply Z.ltb_lt; unfold len in *; lia| |].
    { eapply delivered_mapped; [done|]. intros i Hi. rewrite <- Z.add_assoc. apply HM. unfold len in *. lia. }
    exists s3. split; [done|]. split; [done|]. split; [rewrite Eh3; f_equal; unfold len in *; lia|]. rewrite <- (take_drop n l).
    eapply delivered_app; [done|]. rewrite Hn. rewrite <- drop_drop, Ed, take_ge in D3 by (rewrite length_drop; lia). done.
  - destruct (Z.eqb_spec (len l) 0) as [El0|El0].
    + assert (l = []) as Enil by (apply nil_length_inv; unfold len in *; lia). exists s1. split; [done|]. split; [done|]. cbn.
      split; [f_equal; lia|]. rewrite Enil. apply delivered_nil.
    + destruct (getlog_part_ok m buf s1 H k (length l) HR1 eq_refl Hkb) as (s2&E2&HR2&Eh2&D2);
        [unfold len in *; lia|unfold len in *; lia|by apply Z.ltb_lt|done|]. fold (len l) in E2. rewrite E2. cbn [mbind option_bind]. exists s2. split; [done|]. split; [done|].
      split; [rewrite Eh2; f_equal; unfold len in *; lia|]. by rewrite Ed, take_ge in D2.
Qed.

(** ** printf *)

Lemma stamp_directive now : directive (str "3.3u ") [ANum now] = o ← put_num (s32 now) false 32 3 3 10; Some (str " ", [], o).
Proof. reflexivity. Qed.

Lemma stamp_format now o : put_num (s32 now) false 32 3 3 10 = Some o -> len o < DBGMSG_SIZE -> vsprintf (str "%3.3u ") [ANum now] = Some (o ++ [32]).
Proof.
  intros E Hl. unfold vsprintf. change (str "%3.3u ") with (37 :: str "3.3u "). cbn [length vsprintf_loop]. rewrite stamp_directive, E.
  cbn [mbind option_bind length str app]. change (Z.of_nat 0 <? DBGMSG_SIZE) with true. change (37 =? 37) with true. cbn [negb mbind option_bind vsprintf_loop].
  rewrite (proj2 (Z.ltb_lt (Z.of_nat (length o)) _)) by done. done.
Qed.

(** The time in seconds with three decimals, at least three characters wide, and a
    blank. *)
Definition time_stamp (now : Z) (t : list Z) : Prop := exists ip fp,
  t = (padding 32 3 (ip ++ 46 :: fp) ++ ip ++ 46 :: fp) ++ [32] /\ Forall (is_digit 10) ip /\ Forall (is_digit 10) fp /\ (0 < length ip)%nat /\ length fp = 3%nat /\
  value 10 ip = u32 now / 1000 /\ value 10 fp = u32 now mod 1000.

(** The stamp of a line: at most 12 characters. *)
Lemma stamp_ok fmt now s : exists t, stamp fmt now s = Some t /\ len t <= 12 /\
  if p_eol s && negb (bool_decide (head fmt = Some NEWLINE)) then time_stamp now t else t = [].
Proof.
  unfold stamp. destruct (p_eol s && negb (bool_decide (head fmt = Some NEWLINE))) eqn:Hst; [|by exists []].
  destruct (put_num_frac (s32 now) 32 3 3 (s32_range now)) as (ip&fp&E&Hip&Hfp&Hf&Hi&Hv1&Hv2); [lia|]. rewrite u32_s32 in Hv1, Hv2. change (Z.of_nat 3) with 3 in E.
  assert (len (padding 32 3 (ip ++ 46 :: fp) ++ ip ++ 46 :: fp) <= 11) as Hl.
  { unfold len, padding. rewrite !length_app, length_replicate. cbn [length]. lia. }
  rewrite (stamp_format _ _ E) by (unfold DBGMSG_SIZE, SYSLOG_SIZE; lia). eexists. split; [done|]. split; [unfold len in *; rewrite length_app; cbn; lia|].
  exists ip, fp. split_and!; try done. lia.
Qed.

Lemma printf_ok fmt args now s H o : log_rep s H -> vsprintf fmt args = Some o -> o <> [] -> len o < DBGMSG_SIZE ->
  exists t s', stamp fmt now s = Some t /\ len t <= 12 /\ printf fmt args now s = Some s' /\ log_rep s' (H ++ t ++ o) /\
    console s' = console s ++ [t ++ o] /\ p_eol s' = bool_decide (last o = Some NEWLINE) /\
    getlog_head s' = getlog_head s /\ getbuf_head s' = getbuf_head s /\ log_umem s' = log_umem s /\
    sl_buf s' = sl_buf s /\ sl_eol s' = sl_eol s.
Proof.
  intros HR Ev Hne Hl. destruct (stamp_ok fmt now s) as (t&Et&Ht&_). unfold printf. rewrite Et, Ev. cbn [mbind option_bind].
  assert (len (t ++ o) + 1 <= DBG_MSG_LEN) as Hfit by (unfold len, DBG_MSG_LEN, DBGMSG_SIZE in *; rewrite length_app; lia).
  rewrite (proj2 (Z.leb_le (Z.of_nat (length (t ++ o)) + 1) _)) by done. cbn [negb]. destruct (last o) as [c|] eqn:El; [|by apply last_None in El].
  assert (last (t ++ o) = Some c) as -> by (by rewrite last_app, El). cbn [mbind option_bind]. exists t. eexists. split; [done|]. split; [done|]. split; [done|].
  set (s1 := s <| p_eol := c =? NEWLINE |>). destruct (log_chars_same (t ++ o) s1) as (E1&E2&E3&E4&E5&E6&E7).
  cbn [set]. split; [apply (log_rep_ext (log_chars (t ++ o) s1)); [|done..]; apply log_chars_ok; by apply (log_rep_ext s)|].
  cbn. rewrite E1, E2, E3, E4, E5, E6, E7. split_and!; try done. cbn. case_bool_decide as Hd; [by injection Hd as ->|]. apply Z.eqb_neq. congruence.
Qed.

(** A printf() whose text is formatted to [o], which with its time stamp and
    terminator fits in dbg_msg and is not empty: the message goes to the end of
    the log and to the print routine, unread positions stay, and the next
    message gets a stamp exactly when this one ended a line. *)
Theorem printf_spec fmt args now s H o : log_rep s H -> vsprintf fmt args = Some o -> o <> [] -> len o < DBGMSG_SIZE ->
  exists t s', stamp fmt now s = Some t /\ len t <= 12 /\ printf fmt args now s = Some s' /\ log_rep s' (H ++ t ++ o) /\
    console s' = console s ++ [t ++ o] /\ p_eol s' = bool_decide (last o = Some NEWLINE) /\
    getlog_head s' = getlog_head s /\ getbuf_head s' = getbuf_head s /\ log_umem s' = log_umem s.
Proof.
  intros HR Ev Hne Hl. destruct (printf_ok fmt args now s H o HR Ev Hne Hl) as (t&s'&?&?&?&?&?&?&?&?&?&_). by exists t, s'.
Qed.

(** ** The readers *)

(** C15: debug_getlog() refines reading a log: if fewer than 2^32 bytes have been
    logged since position [h], where the last call stopped, and the user's
    buffer is mapped, it returns the number of the bytes to deliver, copies
    exactly these bytes (everything unread or, after an overrun, the complete
    lines that survive in the ring buffer) across the wrap-around of the
    buffer and of the counters, changes no other user memory, and leaves
    nothing unread: a second call returns 0. *)
Theorem debug_getlog_spec m buf s H (h : nat) : log_rep s H -> getlog_head s = u32 (Z.of_nat h) -> (h <= length H)%nat ->
  len H - Z.of_nat h < 2 ^ 32 -> umem_ok buf (len (deliver (drop h H))) = true ->
  mapped (log_umem s) m buf (length (deliver (drop h H))) ->
  exists s', debug_getlog m buf s = Some (len (deliver (drop h H)), s') /\ log_rep s' H /\
    delivered (log_umem s) (log_umem s') m buf (deliver (drop h H)) /\ debug_getlog m buf s' = Some (0, s').
Proof.
  intros HR Eh Hh Hlt Hok HM. destruct (getlog_ok m buf s H h HR Eh Hh Hlt Hok HM) as (s'&E&HR'&Eh'&HD). exists s'. split_and!; try done; try apply HD.
  unfold debug_getlog. rewrite Eh', (lr_tail _ _ HR'), Z.sub_diag. done.
Qed.

(** debug_getbuf() lends the unread bytes up to the end of the array, and the
    rest next time. *)
Theorem debug_getbuf_spec s H (h : nat) : log_rep s H -> getbuf_head s = u32 (Z.of_nat h) -> (h <= length H)%nat -> len H - Z.of_nat h < 2 ^ 32 ->
  let l := deliver (drop h H) in
  exists (n h' : nat) i s', debug_getbuf s = Some (Z.of_nat n, i, s') /\ take n (drop (Z.to_nat i) (log_buf s)) = take n l /\ (l <> [] -> (0 < n)%nat) /\
    log_rep s' H /\ getbuf_head s' = u32 (Z.of_nat h') /\ drop h' H = drop n l.
Proof.
  intros HR Eh Hh Hlt l. unfold debug_getbuf. destruct (unread_ok s H h HR Hh Hlt) as (k&Eu&Hk&Hkb&Ed). fold l in Ed.
  assert (len l = len H - Z.of_nat k) as El by (rewrite <- Ed; unfold len; rewrite length_drop; lia).
  rewrite Eh, Eu, (lr_tail _ _ HR), u32_minus, (u32_small (len H - _)) by (unfold len in *; lia).
  destruct (Z.eqb_spec (len H - Z.of_nat h) 0) as [Ez|Ez].
  { assert (l = []) as Enil by (rewrite <- Ed; apply drop_ge; unfold len in *; lia). exists 0%nat, h, 0, s. rewrite Enil. split_and!; try done.
    rewrite drop_nil. apply drop_ge. unfold len in *. lia. }
  cbn [mbind option_bind]. pose proof (LOGINDEX_range (u32 (Z.of_nat k))) as HX. rewrite <- El.
  set (z := if _ <? _ then _ else _). assert (0 <= z <= len l /\ LOGINDEX (u32 (Z.of_nat k)) + z <= LOGBUF_SIZE /\ (0 < len l -> 0 < z)) as (Hz&Hzi&Hzp).
  { unfold z. destruct (Z.ltb_spec (LOGBUF_SIZE - LOGINDEX (u32 (Z.of_nat k))) (len l)); unfold len in *; lia. }
  pose proof (log_slice_ok s H k (Z.to_nat z) HR Hkb) as Hsl. unfold log_slice in Hsl. rewrite Z2Nat.id, (proj2 (Z.leb_le _ _)) in Hsl by lia.
  exists (Z.to_nat z), (k + Z.to_nat z)%nat, (LOGINDEX (u32 (Z.of_nat k))). eexists. rewrite Z2Nat.id by lia. split; [done|].
  split; [rewrite <- Ed; by injection Hsl; [|unfold len in *; lia..]|]. split.
  { intros Hne. enough (0 < len l) by lia. unfold len. destruct l; [done|]. cbn. lia. }
  split; [by apply (log_rep_ext s)|]. split; [cbn; by rewrite u32_plus, Nat2Z.inj_add, Z2Nat.id by lia|]. by rewrite <- drop_drop, Ed.
Qed.

(** ** sys_log *)

Definition plain (c : Z) : Prop := c <> 0 /\ c <> 37.
Definition nonzero (c : Z) : Prop := c <> 0.

Lemma plain_nonzero l : Forall plain l -> Forall nonzero l.
Proof. intros HF. apply (Forall_impl _ _ _ HF). by intros c [Hc _]. Qed.

Lemma vsprintf_loop_plain fmt args out : Forall plain fmt -> len out + len fmt <= DBGMSG_SIZE -> vsprintf_loop (length fmt) fmt args out = Some (out ++ fmt).
Proof.
  revert out. induction fmt as [|c fmt IH]; intros out HF Hl; [by rewrite app_nil_r|]. apply Forall_cons in HF as [[_ Hc] HF]. cbn [length vsprintf_loop].
  assert (len (c :: fmt) = len fmt + 1) as El by (unfold len; cbn; lia). assert (0 <= len fmt) by (unfold len; lia).
  rewrite (proj2 (Z.ltb_lt (Z.of_nat (length out)) _)) by (unfold len in *; lia). rewrite (proj2 (Z.eqb_neq c 37) Hc). cbn [negb].
  rewrite IH; [by rewrite <- app_assoc|done|]. unfold len in *. rewrite length_app. cbn. lia.
Qed.

Lemma vsprintf_plain fmt args : Forall plain fmt -> len fmt <= DBGMSG_SIZE -> vsprintf fmt args = Some fmt.
Proof. intros HF Hl. apply (vsprintf_loop_plain fmt args []); [done|unfold len in *; cbn; lia]. Qed.

Lemma cstr_app l r : Forall nonzero l -> cstr (l ++ 0 :: r) = Some l.
Proof. induction 1 as [|c l Hc HF IH]; [done|]. cbn. rewrite (proj2 (Z.eqb_neq c 0) Hc), IH. done. Qed.

Lemma splice_length i l b b' : splice i l b = Some b' -> length b' = length b.
Proof.
  unfold splice. destruct (Nat.leb_spec (i + length l) (length b)); [|done]. intros [= <-]. rewrite !length_app, length_take, length_drop. lia.
Qed.

Lemma splice_ok i l b : (i + length l <= length b)%nat -> splice i l b = Some (take i b ++ l ++ drop (i + length l) b).
Proof. intros H. unfold splice. by rewrite (proj2 (Nat.leb_le _ _) H). Qed.

(** What goes in front of a message. *)
Definition log_prefix (name : list Z) (eol : bool) : list Z :=
  match name with _ :: _ => if eol then Thread.strlcpy name MAXTHNAME ++ [58] else [] | [] => [] end.

Lemma log_prefix_length name eol : (length (log_prefix name eol) <= 12)%nat.
Proof. destruct name, eol; cbn [log_prefix]; try (cbn; lia). rewrite length_app. unfold Thread.strlcpy. rewrite length_take. unfold MAXTHNAME. cbn [length]. lia. Qed.

Lemma log_prefix_plain name eol : Forall plain name -> Forall plain (log_prefix name eol).
Proof.
  intros HF. destruct name as [|c name]; [constructor|]. destruct eol; [|constructor]. cbn [log_prefix]. apply Forall_app. split; [by apply Forall_take|].
  constructor; [by split|constructor].
Qed.

Lemma sys_log_name_ok name s : len (sl_buf s) = SYSLOG_BUF -> exists b, sys_log_name name s = Some (b, length (log_prefix name (sl_eol s))) /\
  len b = SYSLOG_BUF /\ take (length (log_prefix name (sl_eol s))) b = log_prefix name (sl_eol s).
Proof.
  intros Hl. assert (length (sl_buf s) = 140%nat) as Hn by (unfold len, SYSLOG_BUF, SYSLOG_SIZE in Hl; lia). unfold sys_log_name.
  destruct name as [|c name]; [by exists (sl_buf s)|]. destruct (sl_eol s); [|by exists (sl_buf s)]. cbn [log_prefix].
  assert (length (Thread.strlcpy (c :: name) MAXTHNAME) <= 11)%nat as Hp by (unfold Thread.strlcpy, MAXTHNAME; rewrite length_take; lia).
  revert Hp. generalize (Thread.strlcpy (c :: name) MAXTHNAME) as pre. intros pre Hp. set (b := take 0 (sl_buf s) ++ (pre ++ [0]) ++ drop (0 + length (pre ++ [0])) (sl_buf s)).
  assert (splice 0 (pre ++ [0]) (sl_buf s) = Some b) as Eb by (apply splice_ok; rewrite length_app; cbn [length]; lia). rewrite Eb. apply splice_length in Eb. cbn [mbind option_bind].
  assert (length pre + length [58%Z] <= length b)%nat as Hb by (cbn [length]; lia). pose proof (splice_ok _ _ _ Hb) as Eb'. rewrite Eb'. apply splice_length in Eb'.
  eexists. cbn [mbind option_bind]. split; [do 2 f_equal; rewrite length_app; cbn; lia|]. split; [unfold len in *; lia|].
  assert (take (length pre) b = pre) as Et by (unfold b; rewrite take_0, app_nil_l, <- app_assoc; apply take_app_length).
  rewrite Et, app_assoc. apply take_app_length.
Qed.

(** The string [msg] lies in user memory. *)
Definition user_string (M : gmap (Z * Z) Z) (m a : Z) (msg : list Z) : Prop :=
  uread M m a (S (length msg)) = Some (msg ++ [0]).

Lemma scasb_msg M m a msg n : user_string M m a msg -> Forall nonzero msg -> (length msg < n)%nat -> scasb M m a n 0 = Some (len msg).
Proof.
  intros [Hl HM]%uread_ok HF Hn. rewrite (scasb_string M m a n 0 msg); [done|done| |].
  - intros j c Hj. rewrite Forall_lookup in HF. split; [by apply (HF j c Hj)|]. apply lookup_lt_Some in Hj as Hlt.
    rewrite HM by lia. by rewrite lookup_app_l.
  - rewrite HM by lia. by rewrite lookup_app_r, Nat.sub_diag by lia.
Qed.

(** A terminated message reaches printf() as its format. *)
Lemma sys_log_reach a now name m s msg : len (sl_buf s) = SYSLOG_BUF -> user_string (log_umem s) m a msg ->
  Forall nonzero msg -> Forall plain name -> msg <> [] -> len msg < SYSLOG_SIZE -> a + len msg + 1 < UMEM_MAX ->
  exists b, len b = SYSLOG_BUF /\
    let s1 := s <| sl_buf := b |> <| sl_eol := bool_decide (last msg = Some NEWLINE) |> in
    sys_log a now name m s = s' ← printf (log_prefix name (sl_eol s) ++ msg) [] now s1; Some (0, s').
Proof.
  intros Hb HU HF HFn Hne Hl Ha. unfold sys_log. destruct (sys_log_name_ok name s Hb) as (b&->&Hb1&Htk). cbn [mbind option_bind].
  pose proof (log_prefix_length name (sl_eol s)) as Hp. pose proof (plain_nonzero _ (log_prefix_plain name (sl_eol s) HFn)) as HFp.
  set (pre := log_prefix name (sl_eol s)) in *. cbn [set log_umem].
  rewrite (proj2 (Z.leb_gt UMEM_MAX a)) by (unfold len in *; lia). rewrite (scasb_msg _ _ _ msg _ HU HF) by (unfold len in *; lia).
  rewrite (proj2 (Z.leb_gt SYSLOG_SIZE (len msg))) by done. unfold umem_ok. rewrite (proj2 (Z.ltb_lt (a + (len msg + 1)) UMEM_MAX)) by lia.
  replace (Z.to_nat (len msg + 1)) with (S (length msg)) by (unfold len; lia). unfold user_string in HU. rewrite HU.
  assert (length pre + length (msg ++ [0%Z]) <= length b)%nat as Hsp by (unfold len, SYSLOG_BUF, SYSLOG_SIZE in *; rewrite length_app; cbn [length]; lia).
  pose proof (splice_ok _ _ _ Hsp) as Es. rewrite Htk in Es. rewrite Es. pose proof (splice_length _ _ _ _ Es) as Hb2. clear Es. cbn [mbind option_bind].
  set (b' := pre ++ (msg ++ [0]) ++ _) in *. assert (exists r, b' = (pre ++ msg) ++ 0 :: r) as [r Er] by (eexists; unfold b'; by rewrite <- !app_assoc).
  clearbody b'. destruct (last msg) as [c|] eqn:El; [|by apply last_None in El].
  assert (0 < length msg)%nat as Hpos by (destruct msg; [done|cbn; lia]). rewrite (proj2 (Z.ltb_lt 0 _)) by (unfold len; lia).
  assert (b' !! Z.to_nat (Z.of_nat (length pre) + len msg - 1) = Some c) as ->.
  { rewrite Er, lookup_app_l, lookup_app_r by (rewrite ?length_app; unfold len; lia). rewrite last_lookup in El. rewrite <- El. f_equal. unfold len. lia. }
  cbn [mbind option_bind]. assert (cstr b' = Some (pre ++ msg)) as -> by (rewrite Er; apply cstr_app, Forall_app; by split). cbn [mbind option_bind].
  assert ((c =? NEWLINE) = bool_decide (Some c = Some NEWLINE)) as ->.
  { case_bool_decide as Hd; [by injection Hd as ->|]. apply Z.eqb_neq. congruence. }
  exists b'. split; [unfold len in *; lia|done].
Qed.

(** C35: sys_log() of a terminated user string of 1 to 127 characters, when
    neither the string nor the thread's name contains a conversion character:
    the call succeeds for every tick count (dbg_msg[152] holds the longest
    stamp, name and message), and exactly this is appended to the log and
    passed to the print routine: at the start of a line that is not empty the
    time in seconds with three decimals and a blank; if the last message ended a
    line and the thread has a name, the name and a colon; and the message. *)
Theorem sys_log_spec a now name m s H msg : log_rep s H -> len (sl_buf s) = SYSLOG_BUF -> user_string (log_umem s) m a msg ->
  Forall plain msg -> Forall plain name -> msg <> [] -> len msg < SYSLOG_SIZE -> a + len msg + 1 < UMEM_MAX ->
  exists t s', sys_log a now name m s = Some (0, s') /\ log_rep s' (H ++ t ++ log_prefix name (sl_eol s) ++ msg) /\
    (if p_eol s && negb (bool_decide (head (log_prefix name (sl_eol s) ++ msg) = Some NEWLINE)) then time_stamp now t else t = []) /\
    len (sl_buf s') = SYSLOG_BUF /\ console s' = console s ++ [t ++ log_prefix name (sl_eol s) ++ msg] /\
    sl_eol s' = bool_decide (last msg = Some NEWLINE) /\ p_eol s' = bool_decide (last msg = Some NEWLINE).
Proof.
  intros HR Hb HU HF HFn Hne Hl Ha. destruct (sys_log_reach a now name m s msg) as (b&Hb'&->); try done; [by apply plain_nonzero|].
  pose proof (log_prefix_length name (sl_eol s)) as Hp. pose proof (log_prefix_plain name (sl_eol s) HFn) as HFp. set (pre := log_prefix name (sl_eol s)) in *.
  assert (len (pre ++ msg) < DBGMSG_SIZE) as Hfit by (unfold len, DBGMSG_SIZE, SYSLOG_SIZE in *; rewrite length_app; lia).
  set (s1 := s <| sl_buf := b |> <| sl_eol := bool_decide (last msg = Some NEWLINE) |>).
  destruct (printf_ok (pre ++ msg) [] now s1 H (pre ++ msg)) as (t&s'&Est&Ht&Ep&HR'&Hc&Hpe&_&_&_&Esl&Eeol);
    [by apply (log_rep_ext s)|apply vsprintf_plain; [by apply Forall_app|lia]| |done|].
  { destruct msg; [done|]. by destruct pre. }
  destruct (stamp_ok (pre ++ msg) now s1) as (t'&Est'&_&Hst). assert (t' = t) as -> by congruence.
  exists t, s'. rewrite Ep. cbn [mbind option_bind]. rewrite Esl, Eeol, Hpe. split_and!; try done. do 2 f_equal. rewrite last_app.
  destruct (last msg) eqn:El; [done|]. by apply last_None in El.
Qed.

(** ** The format of sys_log *)

Lemma vsprintf_loop_skip pre r args out n : Forall plain pre -> len out + len pre <= DBGMSG_SIZE ->
  vsprintf_loop (length pre + n) (pre ++ r) args out = vsprintf_loop n r args (out ++ pre).
Proof.
  revert out. induction pre as [|c pre IH]; intros out HF Hl; [by rewrite app_nil_r|]. apply Forall_cons in HF as [[_ Hc] HF]. cbn [length Nat.add app vsprintf_loop].
  assert (len (c :: pre) = len pre + 1) as El by (unfold len; cbn; lia). assert (0 <= len pre) by (unfold len; lia).
  rewrite (proj2 (Z.ltb_lt (Z.of_nat (length out)) _)) by (unfold len in *; lia). rewrite (proj2 (Z.eqb_neq c 37) Hc). cbn [negb].
  rewrite IH; [by rewrite <- app_assoc|done|]. unfold len in *. rewrite length_app. cbn. lia.
Qed.

Lemma conversion_needs_arg c : c ∈ str "duxpcs" -> directive [c] [] = None.
Proof. intros Hc. repeat (apply elem_of_cons in Hc as [->|Hc]; [reflexivity|]). by apply elem_of_nil in Hc. Qed.

(** sys_log() passes the user's string to printf() as its format: a message
    that consists of a conversion (%d, %u, %x, %p, %c or %s) makes the kernel
    fetch an argument that was not passed, a fault, whatever the thread. *)
Theorem sys_log_format a now name m s c : len (sl_buf s) = SYSLOG_BUF -> user_string (log_umem s) m a [37; c] ->
  c ∈ str "duxpcs" -> Forall plain name -> a + 3 < UMEM_MAX -> sys_log a now name m s = None.
Proof.
  intros Hb HU Hc HFn Ha. assert (c <> 0) as Hc0 by (intros ->; by apply (bool_decide_eq_false (0 ∈ str "duxpcs"))).
  destruct (sys_log_reach a now name m s [37; c]) as (b&_&->); [done|done|apply Forall_cons; split; [done|by apply Forall_singleton]|done|done|done|unfold len; cbn [length]; lia|].
  pose proof (log_prefix_length name (sl_eol s)) as Hp. pose proof (log_prefix_plain name (sl_eol s) HFn) as HFp. set (pre := log_prefix name (sl_eol s)) in *.
  set (s1 := s <| sl_buf := b |> <| sl_eol := _ |>). unfold printf. destruct (stamp (pre ++ [37; c]) now s1) as [t|]; [|done]. cbn [mbind option_bind].
  assert (vsprintf (pre ++ [37; c]) [] = None) as ->; [|done]. unfold vsprintf. rewrite length_app, vsprintf_loop_skip; [|done|unfold len, DBGMSG_SIZE, SYSLOG_SIZE; cbn; lia].
  cbn [length vsprintf_loop app]. rewrite (proj2 (Z.ltb_lt (Z.of_nat (length pre)) _)) by (unfold DBGMSG_SIZE, SYSLOG_SIZE; lia). cbn [negb].
  change (37 =? 37) with true. cbn [negb]. assert (directive [c] [] = None) as ->; [|done]. by apply conversion_needs_arg.
Qed.

(** ** Examples *)
Module LogDemo.

(** A user page at 0x1000 of address space 1 that holds [l]. *)
Definition upage (l : list Z) : gmap (Z * Z) Z := list_to_map (imap (fun i c => ((1, 0x1000 + Z.of_nat i), c)) l).
Definition log0 (l : list Z) : klog := mk_klog (replicate 2048 0) 0 false 0 0 (replicate 140 0) true [] (upage l).

Lemma log0_rep l : log_rep (log0 l) [].
Proof. split; [reflexivity|reflexivity|]. intros k Hk. unfold len in Hk. cbn in Hk. lia. Qed.

Definition hello : list Z := str "hello".
Definition s_hello : klog := log_chars hello (log0 (replicate 5 0)).

Lemma s_hello_rep : log_rep s_hello hello.
Proof. apply (log_chars_ok hello (log0 _) []), log0_rep. Qed.

Lemma hello_mapped : mapped (log_umem s_hello) 1 0x1000 5.
Proof.
  intros i Hi. assert (i = 0 \/ i = 1 \/ i = 2 \/ i = 3 \/ i = 4) as Hc by lia.
  destruct Hc as [->|[->|[->|[->| ->]]]]; exists 0; vm_compute; reflexivity.
Qed.

Lemma debug_getlog_spec_witness : exists s', debug_getlog 1 0x1000 s_hello = Some (5, s') /\ log_rep s' hello /\
  delivered (log_umem s_hello) (log_umem s') 1 0x1000 hello /\ debug_getlog 1 0x1000 s' = Some (0, s').
Proof. exact (debug_getlog_spec 1 0x1000 s_hello hello 0 s_hello_rep eq_refl (Nat.le_0_l _) eq_refl eq_refl hello_mapped). Defined.

Lemma printf_spec_witness : exists t s', stamp (str "n=%d") 7 s_hello = Some t /\ len t <= 12 /\ printf (str "n=%d") [ANum 42] 7 s_hello = Some s' /\
  log_rep s' (hello ++ t ++ str "n=42") /\ console s' = console s_hello ++ [t ++ str "n=42"] /\ p_eol s' = bool_decide (last (str "n=42") = Some NEWLINE) /\
  getlog_head s' = getlog_head s_hello /\ getbuf_head s' = getbuf_head s_hello /\ log_umem s' = log_umem s_hello.
Proof. apply (printf_spec (str "n=%d") [ANum 42] 7 s_hello hello (str "n=42") s_hello_rep); [vm_compute; reflexivity|discriminate|reflexivity]. Defined.

(** A log whose last line is complete. *)
Definition log1 (l : list Z) : klog := log0 l <| p_eol := true |>.
Lemma sys_log_spec_witness : exists t s', sys_log 0x1000 12345 (str "sh") 1 (log1 (str "boot" ++ [0])) = Some (0, s') /\
  log_rep s' ([] ++ t ++ str "sh:" ++ str "boot") /\ time_stamp 12345 t /\ console s' = [] ++ [t ++ str "sh:" ++ str "boot"].
Proof.
  destruct (sys_log_spec 0x1000 12345 (str "sh") 1 (log1 (str "boot" ++ [0])) [] (str "boot")) as (t&s'&E&HR&Ht&_&Hc&_); try reflexivity.
  - apply (log_rep_ext (log0 (str "boot" ++ [0]))); [apply log0_rep|reflexivity..].
  - apply (bool_decide_unpack (Forall plain (str "boot"))). vm_compute. exact I.
  - apply (bool_decide_unpack (Forall plain (str "sh"))). vm_compute. exact I.
  - discriminate.
  - exists t, s'. split; [exact E|]. split; [exact HR|]. split; [exact Ht|exact Hc].
Defined.

Lemma sys_log_format_witness : sys_log 0x1000 7 (str "sh") 1 (log0 (str "%s" ++ [0])) = None.
Proof.
  apply (sys_log_format 0x1000 7 (str "sh") 1 (log0 (str "%s" ++ [0])) 115); try reflexivity.
  - apply (bool_decide_unpack (115 ∈ str "duxpcs")). vm_compute. exact I.
  - apply (bool_decide_unpack (Forall plain (str "sh"))). vm_compute. exact I.
Defined.

(** 2400 bytes, one line in eight, overrun the buffer: of the last 2048 bytes the
    first line goes. *)
Definition lines : list Z := mjoin (replicate 300 (str "1234567" ++ [NEWLINE])).
Lemma getlog_overrun : match debug_getlog 1 0x1000 (log_chars lines (log0 (replicate 2048 0))) with
  | Some (rc, s) => (rc, getlog_head s) | None => (0, 0) end = (2040, 2400).
Proof. vm_compute. reflexivity. Qed.
End LogDemo.
