(* ===== verification/Irq.v ===== *)
(** * Irq: interrupt control, sys/arch/i386/pc/interrupt.c and sys/kern/irq.c

    The 8259 controller is its 16-bit mask register and its trigger-mode
    register; interrupt.c keeps a priority level for each vector and a mask for
    each level.  irq.c adds the nesting lock, the table of attached interrupts
    and the interrupt service threads (IST).

    A service routine (ISR) is driver code: what it returns is an argument of
    irq_handler().  So are the results of kmem_alloc() and kthread_create() in
    irq_attach().  The control state of an IST is the place where irq_thread()
    stands; its accesses to [istreq] happen with interrupts disabled and are
    one step.  An array index out of range and a failing ASSERT are faults. *)
From stdpp Require Import base numbers gmap list.
From S2P Require Import Prelude.

Open Scope Z_scope.

Definition NIRQS := 16.
Definition NIPLS := 12.
Definition IPL_NONE := 0.
Definition IPL_HIGH := 11.
Definition IRQ_PRIO_IST := 16.
Definition ISTPRIO (prio : Z) : Z := IRQ_PRIO_IST + (IPL_HIGH - prio).

Inductive isr_result := INT_DONE | INT_ERROR | INT_CONTINUE.
#[export] Instance isr_result_eq_dec : EqDecision isr_result.
Proof. solve_decision. Defined.

(** ** The interrupt controller *)
Module Pic.
Record pic := mk_pic {
  irq_level : Z;
  ipl_table : list Z;    (* vector -> level *)
  mask_table : list Z;   (* level -> mask *)
  imr : Z;               (* the mask registers of both 8259 *)
  elcr : Z;              (* the edge/level control registers *)
}.
#[export] Instance pic_eta : Settable pic := fun x =>
  mk_pic (irq_level x) (ipl_table x) (mask_table x) (imr x) (elcr x).

Definition bit (vector : Z) : Z := Z.shiftl 1 vector.

(** outb(mask & 0xff, PIC_M + 1); outb(mask >> 8, PIC_S + 1); *)
Definition update_mask (s : pic) : option pic :=
  mask ← mask_table s !! Z.to_nat (irq_level s);
  Some (s <| imr := Z.lor (Z.land mask 0xff) (Z.shiftl (Z.land (Z.shiftr mask 8) 0xff) 8) |>).

(** for (i = 0; i < level; i++) mask_table[i] = f(mask_table[i]); *)
Fixpoint levels_loop (n i : nat) (f : Z -> Z) (t : list Z) : option (list Z) :=
  match n with
  | O => Some t
  | S n => m ← t !! i; levels_loop n (S i) f (<[i := f m]> t)
  end.

Definition set_ipl (vector level : Z) (s : pic) : option pic :=
  _ ← ipl_table s !! Z.to_nat vector; Some (s <| ipl_table ::= <[Z.to_nat vector := level]> |>).

Definition interrupt_unmask (vector level : Z) (s : pic) : option pic :=
  s ← set_ipl vector level s;
  t ← levels_loop (Z.to_nat level) 0 (fun m => clr m (bit vector)) (mask_table s);
  update_mask (s <| mask_table := t |>).

Definition interrupt_mask (vector : Z) (s : pic) : option pic :=
  level ← ipl_table s !! Z.to_nat vector;
  t ← levels_loop (Z.to_nat level) 0 (fun m => Z.lor m (bit vector)) (mask_table s);
  s ← set_ipl vector IPL_NONE (s <| mask_table := t |>);
  update_mask s.

(** IMODE_LEVEL is [true]. *)
Definition interrupt_setup (vector : Z) (level_mode : bool) (s : pic) : pic :=
  s <| elcr ::= fun v => if level_mode then Z.lor v (bit vector) else clr v (bit vector) |>.

(** interrupt_handler(), before and after the call of irq_handler(): the level
    is raised, and put back. *)
Definition interrupt_enter (vector : Z) (s : pic) : option (Z * pic) :=
  let old_ipl := irq_level s in
  new_ipl ← ipl_table s !! Z.to_nat vector;
  s ← update_mask (if old_ipl <? new_ipl then s <| irq_level := new_ipl |> else s);
  Some (old_ipl, s).
Definition interrupt_exit (old_ipl : Z) (s : pic) : option pic := update_mask (s <| irq_level := old_ipl |>).

(** The registers after reset do not matter: every level masks everything but
    the cascade, IRQ 2. *)
Definition interrupt_init (s : pic) : pic :=
  s <| irq_level := IPL_NONE |> <| ipl_table := replicate 16 IPL_NONE |> <| mask_table := replicate 12 0xfffb |> <| imr := 0xfffb |>.

(** The controller presents [vector] to the processor. *)
Definition unmasked (vector : Z) (s : pic) : bool := negb (Z.testbit (imr s) vector).
End Pic.
Import Pic.

(** ** irq_lock and irq_unlock *)
Module IrqLock.
Record cpu := mk_cpu {
  eflags_if : Z;          (* the EFL_IF bit: 0x200 or 0 *)
  nr_irq_locks : Z;
  saved_irq_state : Z;
}.
#[export] Instance cpu_eta : Settable cpu := fun x => mk_cpu (eflags_if x) (nr_irq_locks x) (saved_irq_state x).

Definition interrupt_save (c : cpu) : Z := eflags_if c.
Definition interrupt_disable (c : cpu) : cpu := c <| eflags_if := 0 |>.
Definition interrupt_restore (sts : Z) (c : cpu) : cpu := c <| eflags_if := sts |>.

(** ASSERT(nr_irq_locks != 0): the counter has not wrapped. *)
Definition irq_lock (c : cpu) : option cpu :=
  let s := interrupt_save c in
  let c := interrupt_disable c in
  let c := c <| nr_irq_locks ::= fun n => s32 (n + 1) |> in
  let c := if nr_irq_locks c =? 1 then c <| saved_irq_state := s |> else c in
  if nr_irq_locks c =? 0 then None else Some c.

Definition irq_unlock (c : cpu) : option cpu :=
  if negb (0 <? nr_irq_locks c) then None
  else
    let c := c <| nr_irq_locks ::= Z.pred |> in
    Some (if nr_irq_locks c =? 0 then interrupt_restore (saved_irq_state c) c else c).

(** A sequence of calls: [true] locks, [false] unlocks. *)
Fixpoint irq_calls (l : list bool) (c : cpu) : option cpu :=
  match l with
  | [] => Some c
  | b :: l => c ← (if (b : bool) then irq_lock c else irq_unlock c); irq_calls l c
  end.
End IrqLock.

(** ** Attached interrupts and their threads *)

(** Where irq_thread() stands: at the top of its loop, in sched_sleep() on the
    queue of istevt, woken up but not running yet, and in the call of the IST. *)
Inductive ist_pc := IstTop | IstSleeping | IstWoken | IstCalling.
#[export] Instance ist_pc_eq_dec : EqDecision ist_pc.
Proof. solve_decision. Defined.

Record irq := mk_irq {
  i_vector : Z;
  i_ist : bool;           (* ist != NULL *)
  i_istreq : Z;           (* int *)
  i_thread : Z;
  i_pc : ist_pc;
}.
#[export] Instance irq_eta : Settable irq := fun x => mk_irq (i_vector x) (i_ist x) (i_istreq x) (i_thread x) (i_pc x).

(** The calls that irq.c makes of the allocator and of the thread code to give
    something back. *)
Inductive irq_release := KmemFree (a : Z) | KthreadTerminate (th : Z).

Record irqs := mk_irqs {
  irq_objs : gmap Z irq;
  irq_table : gmap Z Z;   (* vector -> struct irq, absent for NULL *)
  ipic : pic;
  released : list irq_release;
}.
#[export] Instance irqs_eta : Settable irqs := fun x => mk_irqs (irq_objs x) (irq_table x) (ipic x) (released x).

Definition upd_irq (a : Z) (f : irq -> irq) (s : irqs) : option irqs :=
  i ← irq_objs s !! a; Some (s <| irq_objs ::= <[a := f i]> |>).

(** [mem] and [th] are what kmem_alloc() and kthread_create() return, 0 for
    NULL; a block in use would break the contract of the allocator.  The result
    is the handle. *)
Definition irq_attach (vector prio : Z) (shared has_ist : bool) (mem th : Z) (s : irqs) : option (Z * irqs) :=
  if negb (irq_level (ipic s) =? 0) then None
  else if mem =? 0 then Some (0, s)
  else if bool_decide (is_Some (irq_objs s !! mem)) then None
  else if has_ist && (th =? 0) then Some (0, s <| released ::= fun l => l ++ [KmemFree mem] |>)
  else
    let i := mk_irq vector has_ist 0 (if has_ist then th else 0) IstTop in
    let s := s <| irq_objs ::= <[mem := i]> |> in
    if negb ((0 <=? vector) && (vector <? NIRQS)) then None
    else
      let s := s <| irq_table ::= <[vector := mem]> |> in
      p ← interrupt_unmask vector prio (interrupt_setup vector shared (ipic s));
      Some (mem, s <| ipic := p |>).

Definition irq_detach (a : Z) (s : irqs) : option irqs :=
  if negb (irq_level (ipic s) =? 0) then None
  else
    i ← irq_objs s !! a;
    if negb (i_vector i <? NIRQS) then None
    else
      p ← interrupt_mask (i_vector i) (ipic s);
      Some (s <| ipic := p |> <| irq_table ::= delete (i_vector i) |> <| irq_objs ::= delete a |>
              <| released ::= fun l => l ++ (if negb (i_thread i =? 0) then [KthreadTerminate (i_thread i)] else []) ++ [KmemFree a] |>).

(** sched_wakeup(&irq->istevt) *)
Definition ist_wakeup (i : irq) : irq := if decide (i_pc i = IstSleeping) then i <| i_pc := IstWoken |> else i.

Definition irq_handler (vector : Z) (rc : isr_result) (s : irqs) : option irqs :=
  match irq_table s !! vector with
  | None => Some s                       (* stray interrupt *)
  | Some a =>
      i ← irq_objs s !! a;
      if decide (rc = INT_CONTINUE) then
        if negb (i_ist i) then None
        else
          let i := ist_wakeup (i <| i_istreq ::= fun n => s32 (n + 1) |>) in
          if i_istreq i =? 0 then None else Some (s <| irq_objs ::= <[a := i]> |>)
      else Some s
  end.

(** irq->istreq--; ASSERT(irq->istreq >= 0); then the IST is called. *)
Definition ist_take (i : irq) : option irq :=
  let i := i <| i_istreq ::= Z.pred |> in
  if 0 <=? i_istreq i then Some (i <| i_pc := IstCalling |>) else None.

(** irq_thread(), from one point where interrupts are enabled, or where the
    thread is switched out, to the next. *)
Definition irq_thread (i : irq) : option irq :=
  match i_pc i with
  | IstTop => if i_istreq i <=? 0 then Some (i <| i_pc := IstSleeping |>) else ist_take i
  | IstSleeping => Some i                (* not running *)
  | IstWoken => ist_take i
  | IstCalling => Some (i <| i_pc := IstTop |>)
  end.
