(* ===== verification/IrqSpec.v ===== *)
(** * IrqSpec: what interrupt.c and irq.c guarantee

    The controller lets through exactly the interrupts above the current level,
    so handlers nest by strictly rising level and at most eleven deep.
    Balanced irq_lock()/irq_unlock() calls restore the interrupt flag.  No
    request for an interrupt service thread is lost, and none is served twice. *)
From stdpp Require Import base numbers gmap list.
From S2P Require Import Prelude Irq.

Open Scope Z_scope.
Import Pic.

(** ** Bits of masks *)
Lemma bit_spec v w : 0 <= v -> Z.testbit (bit v) w = (v =? w).
Proof. intros Hv. unfold bit. rewrite Z.shiftl_1_l. by apply Z.pow2_bits_eqb. Qed.

Lemma clr_bit_spec m v w : 0 <= v -> Z.testbit (clr m (bit v)) w = Z.testbit m w && negb (v =? w).
Proof. intros Hv. unfold clr. by rewrite Z.ldiff_spec, bit_spec. Qed.

Lemma lor_bit_spec m v w : 0 <= v -> Z.testbit (Z.lor m (bit v)) w = Z.testbit m w || (v =? w).
Proof. intros Hv. by rewrite Z.lor_spec, bit_spec. Qed.

(** The bits of a 16-bit register. *)
Definition word16 (m : Z) : Prop := forall w, 16 <= w -> Z.testbit m w = false.

Lemma split_bytes m : word16 m -> Z.lor (Z.land m 0xff) (Z.shiftl (Z.land (Z.shiftr m 8) 0xff) 8) = m.
Proof.
  intros HW. apply Z.bits_inj'. intros w Hw. change 0xff with (Z.ones 8). rewrite Z.lor_spec, Z.land_spec. destruct (decide (w < 8)) as [Hlt|Hge].
  - rewrite Z.ones_spec_low, Z.shiftl_spec_low by lia. by rewrite andb_true_r, orb_false_r.
  - rewrite Z.ones_spec_high, Z.shiftl_spec, Z.land_spec, Z.shiftr_spec by lia. rewrite andb_false_r. cbn [orb]. replace (w - 8 + 8) with w by lia.
    destruct (decide (w < 16)) as [Hlt|Hge']; [rewrite Z.ones_spec_low by lia; by rewrite andb_true_r|by rewrite (HW w) by lia].
Qed.

Lemma levels_loop_ok n i f (t : list Z) : (i + n <= length t)%nat -> exists t', levels_loop n i f t = Some t' /\ length t' = length t /\
  forall j, t' !! j = if decide (i <= j < i + n)%nat then f <$> t !! j else t !! j.
Proof.
  revert i t. induction n as [|n IH]; intros i t Hn; [exists t; split_and!; [done|done|]; intros j; by rewrite decide_False by lia|].
  destruct (lookup_lt_is_Some_2 t i ltac:(lia)) as [m Hm]. cbn [levels_loop]. rewrite Hm. cbn [mbind option_bind].
  destruct (IH (S i) (<[i := f m]> t)) as (t'&E&Hl&Ht'); [rewrite length_insert; lia|]. exists t'. rewrite length_insert in Hl. split_and!; [done|done|]. intros j.
  rewrite Ht'. destruct (decide (i = j)) as [->|Hne].
  - rewrite decide_False, decide_True, list_lookup_insert_eq, Hm by lia. done.
  - rewrite list_lookup_insert_ne by done. repeat case_decide; done || lia.
Qed.

(** ** The invariant of the controller *)

(** The level of a vector. *)
Definition ipl (s : pic) (v : Z) : Z := default 0 (ipl_table s !! Z.to_nat v).
(** The cascade, IRQ 2, is not used for a device. *)
Definition vec (v : Z) : Prop := 0 <= v < NIRQS /\ v <> 2.

(** A mask lets a vector pass if its level is above that of the mask. *)
Definition mask_for (s : pic) (i : nat) (m : Z) : Prop :=
  word16 m /\ forall v, vec v -> Z.testbit m v = (ipl s v <=? Z.of_nat i).

Record pic_ok (s : pic) : Prop := {
  po_ipls : length (ipl_table s) = 16%nat;
  po_range : forall v, vec v -> 0 <= ipl s v <= IPL_HIGH;
  po_masks : length (mask_table s) = 12%nat;
  po_level : 0 <= irq_level s <= IPL_HIGH;
  po_bits : forall i m, mask_table s !! i = Some m -> mask_for s i m;
  po_imr : mask_table s !! Z.to_nat (irq_level s) = Some (imr s);
}.

Lemma unmasked_level s v : pic_ok s -> vec v -> unmasked v s = (irq_level s <? ipl s v).
Proof.
  intros HP Hv. unfold unmasked. destruct (po_bits _ HP _ _ (po_imr _ HP)) as [_ ->]; [|done]. pose proof (po_level _ HP). rewrite Z2Nat.id by lia.
  by rewrite Z.leb_antisym, negb_involutive.
Qed.

(** Writing the mask registers establishes the last clause. *)
Lemma update_mask_ok s : length (ipl_table s) = 16%nat -> (forall v, vec v -> 0 <= ipl s v <= IPL_HIGH) -> length (mask_table s) = 12%nat ->
  0 <= irq_level s <= IPL_HIGH -> (forall i m, mask_table s !! i = Some m -> mask_for s i m) ->
  exists m, update_mask s = Some (s <| imr := m |>) /\ mask_table s !! Z.to_nat (irq_level s) = Some m /\ pic_ok (s <| imr := m |>).
Proof.
  intros H1 H2 H3 H4 H5. destruct (lookup_lt_is_Some_2 (mask_table s) (Z.to_nat (irq_level s))) as [m Hm]; [unfold IPL_HIGH in *; lia|].
  unfold update_mask. rewrite Hm. cbn [mbind option_bind]. destruct (H5 _ _ Hm) as [HW _]. rewrite (split_bytes m HW). exists m. split_and!; [done|done|]. by split.
Qed.

Lemma ipl_insert s v w l : length (ipl_table s) = 16%nat -> vec v -> vec w ->
  ipl (s <| ipl_table ::= <[Z.to_nat v := l]> |>) w = if decide (v = w) then l else ipl s w.
Proof.
  unfold vec, NIRQS. intros Hl Hv Hw. unfold ipl. cbn. case_decide as Hd; [subst; by rewrite list_lookup_insert_eq by lia|].
  by rewrite list_lookup_insert_ne by lia.
Qed.

Lemma set_ipl_ok s v l : length (ipl_table s) = 16%nat -> vec v -> set_ipl v l s = Some (s <| ipl_table ::= <[Z.to_nat v := l]> |>).
Proof.
  unfold vec, NIRQS. intros Hl Hv. unfold set_ipl. destruct (lookup_lt_is_Some_2 (ipl_table s) (Z.to_nat v)) as [x ->]; [lia|]. done.
Qed.

Lemma word16_clr m v : 0 <= v -> word16 m -> word16 (clr m (bit v)).
Proof. intros Hv HW w Hw. by rewrite clr_bit_spec, HW. Qed.
Lemma word16_lor m v : 0 <= v < 16 -> word16 m -> word16 (Z.lor m (bit v)).
Proof. intros Hv HW w Hw. rewrite lor_bit_spec, HW by lia. apply Z.eqb_neq. lia. Qed.

Lemma interrupt_unmask_ok s v level : pic_ok s -> vec v -> 0 <= level <= IPL_HIGH -> ipl s v = IPL_NONE ->
  exists t m, interrupt_unmask v level s = Some (s <| ipl_table ::= <[Z.to_nat v := level]> |> <| mask_table := t |> <| imr := m |>) /\
    pic_ok (s <| ipl_table ::= <[Z.to_nat v := level]> |> <| mask_table := t |> <| imr := m |>) /\ length t = 12%nat /\
    (forall j, t !! j = if decide (j < Z.to_nat level)%nat then (fun m => clr m (bit v)) <$> mask_table s !! j else mask_table s !! j).
Proof.
  intros HP Hv Hl Hn. destruct HP as [H1 H2 H3 H4 H5 H6]. assert (0 <= v < 16) as Hv' by (unfold vec, NIRQS in Hv; lia). unfold interrupt_unmask.
  rewrite (set_ipl_ok s v level H1 Hv). cbn [mbind option_bind]. set (s1 := s <| ipl_table ::= <[Z.to_nat v := level]> |>).
  destruct (levels_loop_ok (Z.to_nat level) 0 (fun m => clr m (bit v)) (mask_table s1)) as (t&E&Ht&Hlk); [cbn; unfold IPL_HIGH in *; lia|]. rewrite E. cbn [mbind option_bind].
  assert (forall j, t !! j = if decide (j < Z.to_nat level)%nat then (fun m => clr m (bit v)) <$> mask_table s !! j else mask_table s !! j) as Hlk'.
  { intros j. rewrite Hlk. repeat case_decide; done || lia. }
  destruct (update_mask_ok (s1 <| mask_table := t |>)) as (m&Eu&_&HP').
  - cbn. by rewrite length_insert.
  - intros w Hw. change (0 <= ipl s1 w <= IPL_HIGH). unfold s1. rewrite ipl_insert by done. case_decide; [done|]. by apply H2.
  - cbn. by rewrite Ht.
  - done.
  - cbn. intros i m. rewrite Hlk'. destruct (decide (i < Z.to_nat level)%nat) as [Hi|Hi]; intros Hm.
    + apply fmap_Some in Hm as (m0&Hm0&->). destruct (H5 _ _ Hm0) as [HW HB]. split; [apply word16_clr; [lia|done]|]. intros w Hw.
      change (ipl _ w) with (ipl s1 w). unfold s1. rewrite clr_bit_spec, HB, ipl_insert by (done || lia). destruct (decide (v = w)) as [->|Hne].
      * rewrite Z.eqb_refl, andb_false_r. symmetry. apply Z.leb_gt. lia.
      * rewrite (proj2 (Z.eqb_neq v w) Hne). apply andb_true_r.
    + destruct (H5 _ _ Hm) as [HW HB]. split; [done|]. intros w Hw. change (ipl _ w) with (ipl s1 w). unfold s1. rewrite HB, ipl_insert by done.
      case_decide; [subst w|done]. rewrite Hn. unfold IPL_NONE. rewrite !(proj2 (Z.leb_le _ _)) by lia. done.
  - exists t, m. rewrite Eu. split; [done|]. split; [done|]. split; [by rewrite Ht|done].
Qed.

Lemma interrupt_mask_ok s v : pic_ok s -> vec v ->
  exists t m, interrupt_mask v s = Some (s <| mask_table := t |> <| ipl_table ::= <[Z.to_nat v := IPL_NONE]> |> <| imr := m |>) /\
    pic_ok (s <| mask_table := t |> <| ipl_table ::= <[Z.to_nat v := IPL_NONE]> |> <| imr := m |>) /\ length t = 12%nat /\
    (forall j, t !! j = if decide (j < Z.to_nat (ipl s v))%nat then (fun m => Z.lor m (bit v)) <$> mask_table s !! j else mask_table s !! j).
Proof.
  intros HP Hv. destruct HP as [H1 H2 H3 H4 H5 H6]. assert (0 <= v < 16) as Hv' by (unfold vec, NIRQS in Hv; lia). unfold interrupt_mask.
  destruct (lookup_lt_is_Some_2 (ipl_table s) (Z.to_nat v)) as [level Hlev]; [lia|]. assert (ipl s v = level) as El by (unfold ipl; by rewrite Hlev).
  rewrite Hlev, El. cbn [mbind option_bind]. pose proof (H2 v Hv) as Hr. rewrite El in Hr.
  destruct (levels_loop_ok (Z.to_nat level) 0 (fun m => Z.lor m (bit v)) (mask_table s)) as (t&E&Ht&Hlk); [unfold IPL_HIGH in *; lia|]. rewrite E. cbn [mbind option_bind].
  assert (forall j, t !! j = if decide (j < Z.to_nat level)%nat then (fun m => Z.lor m (bit v)) <$> mask_table s !! j else mask_table s !! j) as Hlk'.
  { intros j. rewrite Hlk. repeat case_decide; done || lia. }
  rewrite set_ipl_ok by done. cbn [mbind option_bind]. set (s0 := s <| mask_table := t |>). set (s1 := s0 <| ipl_table ::= <[Z.to_nat v := IPL_NONE]> |>).
  assert (forall w, vec w -> ipl s1 w = if decide (v = w) then IPL_NONE else ipl s w) as Hipl by (intros w Hw; exact (ipl_insert s0 v w IPL_NONE H1 Hv Hw)).
  destruct (update_mask_ok s1) as (m&Eu&_&HP').
  - cbn. by rewrite length_insert.
  - intros w Hw. rewrite Hipl by done. case_decide; [unfold IPL_NONE, IPL_HIGH; lia|]. by apply H2.
  - cbn. by rewrite Ht.
  - done.
  - intros i m. change (mask_table s1) with t. rewrite Hlk'. destruct (decide (i < Z.to_nat level)%nat) as [Hi|Hi]; intros Hm.
    + apply fmap_Some in Hm as (m0&Hm0&->). destruct (H5 _ _ Hm0) as [HW HB]. split; [apply word16_lor; [lia|done]|]. intros w Hw.
      rewrite lor_bit_spec, HB, Hipl by (done || lia). destruct (decide (v = w)) as [->|Hne].
      * rewrite Z.eqb_refl, orb_true_r. symmetry. apply Z.leb_le. unfold IPL_NONE. lia.
      * rewrite (proj2 (Z.eqb_neq v w) Hne). apply orb_false_r.
    + destruct (H5 _ _ Hm) as [HW HB]. split; [done|]. intros w Hw. rewrite HB, Hipl by done.
      case_decide; [subst w|done]. rewrite El. unfold IPL_NONE. rewrite !(proj2 (Z.leb_le _ _)) by lia. done.
  - exists t, m. rewrite Eu. split; [done|]. split; [done|]. split; [by rewrite Ht|done].
Qed.

(** Changing the level reloads the mask. *)
Lemma set_level_ok s l : pic_ok s -> 0 <= l <= IPL_HIGH -> exists m, update_mask (s <| irq_level := l |>) = Some (s <| irq_level := l |> <| imr := m |>) /\
  pic_ok (s <| irq_level := l |> <| imr := m |>).
Proof.
  intros [H1 H2 H3 H4 H5 H6] Hl. destruct (update_mask_ok (s <| irq_level := l |>)) as (m&E&_&HP); [done..|]. exists m. by split.
Qed.

Lemma interrupt_enter_ok s v : pic_ok s -> vec v -> exists m, let l := Z.max (irq_level s) (ipl s v) in
  interrupt_enter v s = Some (irq_level s, s <| irq_level := l |> <| imr := m |>) /\ pic_ok (s <| irq_level := l |> <| imr := m |>).
Proof.
  intros HP Hv. pose proof (po_range _ HP v Hv) as Hr. pose proof (po_level _ HP) as Hl. destruct (set_level_ok s (Z.max (irq_level s) (ipl s v)) HP) as (m&E&HP'); [lia|].
  exists m. cbn zeta. split; [|done]. unfold interrupt_enter. destruct (lookup_lt_is_Some_2 (ipl_table s) (Z.to_nat v)) as [x Hx];
    [rewrite (po_ipls _ HP); unfold vec, NIRQS in Hv; lia|]. assert (ipl s v = x) as <- by (unfold ipl; by rewrite Hx). rewrite Hx. cbn [mbind option_bind].
  assert ((if irq_level s <? ipl s v then s <| irq_level := ipl s v |> else s) = s <| irq_level := Z.max (irq_level s) (ipl s v) |>) as ->.
  { destruct (Z.ltb_spec (irq_level s) (ipl s v)); [by rewrite Z.max_r by lia|]. rewrite Z.max_l by lia. by destruct s. }
  rewrite E. done.
Qed.

(** ** Nesting *)

(** The handlers that are active, innermost first: the level to go back to and
    the vector.  Vectors are attached and detached outside of handlers. *)
Record nest := mk_nest { n_pic : pic; n_stack : list (Z * Z) }.

Inductive nest_step : nest -> nest -> Prop :=
| nest_deliver p p' st v old : vec v -> unmasked v p = true -> interrupt_enter v p = Some (old, p') ->
    nest_step (mk_nest p st) (mk_nest p' ((old, v) :: st))
| nest_return p p' st v old : interrupt_exit old p = Some p' -> nest_step (mk_nest p ((old, v) :: st)) (mk_nest p' st)
| nest_attach p p' v level : vec v -> 0 <= level <= IPL_HIGH -> ipl p v = IPL_NONE -> interrupt_unmask v level p = Some p' ->
    nest_step (mk_nest p []) (mk_nest p' [])
| nest_detach p p' v : vec v -> interrupt_mask v p = Some p' -> nest_step (mk_nest p []) (mk_nest p' []).

(** The level at the top of a stack, and stacks whose levels fall outwards. *)
Definition top_level (p : pic) (st : list (Z * Z)) : Z := match st with [] => 0 | (_, v) :: _ => ipl p v end.
Fixpoint rising (p : pic) (st : list (Z * Z)) : Prop :=
  match st with [] => True | (old, v) :: st => vec v /\ old = top_level p st /\ old < ipl p v /\ rising p st end.

Record nest_ok (n : nest) : Prop := {
  no_pic : pic_ok (n_pic n);
  no_level : irq_level (n_pic n) = top_level (n_pic n) (n_stack n);
  no_rising : rising (n_pic n) (n_stack n);
}.

Lemma rising_ext p p' st : ipl_table p' = ipl_table p -> rising p st -> rising p' st /\ top_level p' st = top_level p st.
Proof.
  intros E. assert (forall v, ipl p' v = ipl p v) as Ei by (intros v; unfold ipl; by rewrite E). induction st as [|[old v] st IH]; [done|].
  intros (Hv&Ho&Hlt&HR). destruct (IH HR) as [HR' Et]. cbn. rewrite Ei, Et. done.
Qed.

Lemma nest_step_ok n n' : nest_ok n -> nest_step n n' -> nest_ok n'.
Proof.
  intros [HP HL HR] Hs. destruct Hs as [p p' st v old Hv Hu E|p p' st v old E|p p' v level Hv Hl Hn E|p p' v Hv E]; cbn [n_pic n_stack] in *.
  - rewrite (unmasked_level p v HP Hv) in Hu. apply Z.ltb_lt in Hu. destruct (interrupt_enter_ok p v HP Hv) as (m&E'&HP'). rewrite E' in E. injection E as <- <-.
    set (p' := p <| irq_level := Z.max (irq_level p) (ipl p v) |> <| imr := m |>) in *. destruct (rising_ext p p' st eq_refl HR) as [HR' Et].
    split; [done|change (Z.max (irq_level p) (ipl p v) = ipl p v); lia|]. change (vec v /\ irq_level p = top_level p' st /\ irq_level p < ipl p v /\ rising p' st). rewrite Et. done.
  - destruct HR as (Hv&Ho&Hlt&HR). cbn in HL. pose proof (po_level _ HP) as Hlev. pose proof (po_range _ HP v Hv).
    assert (0 <= old) as H0. { rewrite Ho. destruct st as [|[o w] st]; [done|]. cbn. destruct HR as (Hw&_). apply (po_range _ HP w Hw). }
    destruct (set_level_ok p old HP) as (m&E'&HP'); [lia|]. unfold interrupt_exit in E. rewrite E' in E. injection E as <-.
    set (p' := p <| irq_level := old |> <| imr := m |>) in *. destruct (rising_ext p p' st eq_refl HR) as [HR' Et]. split; [done| |done].
    change (old = top_level p' st). by rewrite Et.
  - destruct (interrupt_unmask_ok p v level HP Hv Hl Hn) as (t&m&E'&HP'&_). rewrite E' in E. injection E as <-. by split.
  - destruct (interrupt_mask_ok p v HP Hv) as (t&m&E'&HP'&_). rewrite E' in E. injection E as <-. by split.
Qed.

Lemma interrupt_init_ipl p v : vec v -> ipl (interrupt_init p) v = 0.
Proof.
  intros [Hv _]. unfold ipl. change (ipl_table (interrupt_init p)) with (replicate 16 IPL_NONE). by rewrite lookup_replicate_2 by (unfold NIRQS in Hv; lia).
Qed.

(** 0xfffb has every bit below 16 but bit 2. *)
Lemma masked_all v : vec v -> Z.testbit 0xfffb v = true.
Proof.
  unfold vec, NIRQS. intros Hv.
  assert (v = 0 \/ v = 1 \/ v = 3 \/ v = 4 \/ v = 5 \/ v = 6 \/ v = 7 \/ v = 8 \/ v = 9 \/ v = 10 \/ v = 11 \/ v = 12 \/ v = 13 \/ v = 14 \/ v = 15) as Hc by lia.
  repeat (destruct Hc as [->|Hc]; [reflexivity|]). by subst.
Qed.

Lemma interrupt_init_ok p : pic_ok (interrupt_init p).
Proof.
  split; try done.
  - intros v Hv. rewrite interrupt_init_ipl by done. unfold IPL_HIGH. lia.
  - change (mask_table (interrupt_init p)) with (replicate 12 0xfffb). intros i m [-> Hi]%lookup_replicate. split.
    + intros w Hw. apply Z.bits_above_log2; [lia|]. change (Z.log2 0xfffb) with 15. lia.
    + intros v Hv. rewrite interrupt_init_ipl, masked_all by done. symmetry. apply Z.leb_le. lia.
Qed.

Lemma nest_reach_ok n n' : nest_ok n -> rtc nest_step n n' -> nest_ok n'.
Proof. intros Hn. induction 1 as [|n n1 n' Hs _ IH]; [done|]. by apply IH, (nest_step_ok n). Qed.

(** Each active handler has its own level, between 1 and [top_level]. *)
Lemma rising_depth p st : rising p st -> Z.of_nat (length st) <= top_level p st.
Proof.
  induction st as [|[old v] st IH]; [done|]. intros (_&Ho&Hlt&HR). specialize (IH HR). cbn [length top_level]. lia.
Qed.

Lemma rising_below p st old v : rising p st -> (old, v) ∈ st -> vec v /\ ipl p v <= top_level p st.
Proof.
  induction st as [|[o w] st IH]; [by intros _ ?%elem_of_nil|]. intros (Hw&Ho&Hlt&HR) [[= -> ->]|Hin]%elem_of_cons; [by split; [|cbn]|].
  destruct (IH HR Hin). split; [done|]. cbn. lia.
Qed.

(** C12: From initialisation on, whatever is attached and detached and however
    interrupts arrive: the controller presents a vector exactly when its level
    is above the current level, which is that of the innermost active handler;
    so no interrupt whose handler is active is taken again, and at most eleven
    handlers are active at a time (the bound on the interrupt stack). *)
Theorem interrupt_nesting p n : rtc nest_step (mk_nest (interrupt_init p) []) n ->
  (forall v, vec v -> unmasked v (n_pic n) = (irq_level (n_pic n) <? ipl (n_pic n) v)) /\
  irq_level (n_pic n) = top_level (n_pic n) (n_stack n) /\
  (forall old v, (old, v) ∈ n_stack n -> unmasked v (n_pic n) = false) /\
  Z.of_nat (length (n_stack n)) <= IPL_HIGH.
Proof.
  intros Hr. assert (nest_ok n) as [HP HL HR]. { eapply nest_reach_ok; [|done]. split; [apply interrupt_init_ok|done|done]. }
  pose proof (po_level _ HP) as Hlev. split; [intros v Hv; by apply unmasked_level|]. split; [done|]. split.
  - intros old v Hin. destruct (rising_below _ _ _ _ HR Hin) as [Hv Hle]. rewrite (unmasked_level _ _ HP Hv). apply Z.ltb_ge. lia.
  - pose proof (rising_depth _ _ HR). lia.
Qed.

(** ** irq_lock *)
Section Lock.
Import IrqLock.

(** The number of locks held after a sequence of calls, if none unlocks too often. *)
Fixpoint depth (d : Z) (l : list bool) : option Z :=
  match l with
  | [] => Some d
  | true :: l => depth (d + 1) l
  | false :: l => if 0 <? d then depth (d - 1) l else None
  end.

Lemma irq_lock_eq c : 0 <= nr_irq_locks c < 2 ^ 31 - 1 ->
  irq_lock c = Some (mk_cpu 0 (nr_irq_locks c + 1) (if nr_irq_locks c =? 0 then eflags_if c else saved_irq_state c)).
Proof.
  intros Hd. unfold irq_lock, interrupt_save, interrupt_disable. destruct c as [f n v]. cbn in *. rewrite s32_id by lia.
  destruct (Z.eqb_spec (n + 1) 1), (Z.eqb_spec n 0); try lia; cbn; destruct (Z.eqb_spec (n + 1) 0); lia || done.
Qed.

Lemma irq_unlock_eq c : 0 < nr_irq_locks c ->
  irq_unlock c = Some (mk_cpu (if nr_irq_locks c =? 1 then saved_irq_state c else eflags_if c) (nr_irq_locks c - 1) (saved_irq_state c)).
Proof.
  intros Hd. unfold irq_unlock, interrupt_restore. destruct c as [f n v]. cbn in *. rewrite (proj2 (Z.ltb_lt 0 n) Hd). cbn.
  destruct (Z.eqb_spec (Z.pred n) 0), (Z.eqb_spec n 1); try lia; done.
Qed.

Lemma irq_calls_ok l c d' flag : 0 <= nr_irq_locks c -> nr_irq_locks c + Z.of_nat (length l) < 2 ^ 31 ->
  eflags_if c = (if nr_irq_locks c =? 0 then flag else 0) -> (0 < nr_irq_locks c -> saved_irq_state c = flag) -> depth (nr_irq_locks c) l = Some d' ->
  exists c', irq_calls l c = Some c' /\ nr_irq_locks c' = d' /\ eflags_if c' = (if d' =? 0 then flag else 0).
Proof.
  revert c. induction l as [|[] l IH]; intros c Hd Hl He Hs Hdep; cbn [depth irq_calls length] in *; [simplify_eq; by exists c|..].
  - rewrite irq_lock_eq by lia. cbn [mbind option_bind]. apply IH; cbn; [lia|lia|destruct (Z.eqb_spec (nr_irq_locks c + 1) 0); lia| |done].
    intros _. destruct (Z.eqb_spec (nr_irq_locks c) 0); [done|]. apply Hs. lia.
  - destruct (Z.ltb_spec 0 (nr_irq_locks c)) as [Hpos|]; [|done]. rewrite irq_unlock_eq by done. cbn [mbind option_bind]. apply IH; cbn; [lia|lia| |by intros; apply Hs|done].
    destruct (Z.eqb_spec (nr_irq_locks c) 1), (Z.eqb_spec (nr_irq_locks c - 1) 0); try lia. rewrite He. destruct (Z.eqb_spec (nr_irq_locks c) 0); lia.
Qed.

(** Any sequence of irq_lock() and irq_unlock() calls that starts unlocked
    and never unlocks more often than it locked: interrupts are disabled while
    a lock is held, and the flag is what it was before the first irq_lock()
    as soon as all are released, however the calls nest. *)
Theorem irq_lock_nesting l c d : nr_irq_locks c = 0 -> Z.of_nat (length l) < 2 ^ 31 -> depth 0 l = Some d ->
  exists c', irq_calls l c = Some c' /\ nr_irq_locks c' = d /\ eflags_if c' = (if d =? 0 then eflags_if c else 0).
Proof. intros Hn Hl Hd. apply (irq_calls_ok l c d (eflags_if c)); rewrite Hn; done || lia. Qed.

Lemma irq_lock_nesting_witness : exists c', irq_calls [true; true; false; false] (mk_cpu 0x200 0 0) = Some c' /\ nr_irq_locks c' = 0 /\
  eflags_if c' = (if 0 =? 0 then 0x200 else 0).
Proof. apply (irq_lock_nesting [true; true; false; false] (mk_cpu 0x200 0 0) 0); reflexivity. Defined.
End Lock.

(** ** Interrupt service threads *)

(** An interrupt of a vector, whose ISR returns [rc], is handled; or the thread of
    descriptor [a] runs to the next point. *)
Inductive ist_event := Interrupt (vector : Z) (rc : isr_result) | IstRun (a : Z).

(** A sequence of events, and the descriptors whose IST is called by it, in
    order. *)
Fixpoint ist_trace (l : list ist_event) (s : irqs) : option (irqs * list Z) :=
  match l with
  | [] => Some (s, [])
  | Interrupt v rc :: l => s ← irq_handler v rc s; ist_trace l s
  | IstRun a :: l =>
      i ← irq_objs s !! a;
      i' ← irq_thread i;
      r ← ist_trace l (s <| irq_objs ::= <[a := i']> |>);
      Some (r.1, if decide (i_pc i' = IstCalling) then a :: r.2 else r.2)
  end.

(** The requests for descriptor [a] among the interrupts. *)
Definition requests_for (s : irqs) (a : Z) (e : ist_event) : bool :=
  match e with Interrupt v rc => bool_decide (irq_table s !! v = Some a /\ rc = INT_CONTINUE) | IstRun _ => false end.
Definition requests (s : irqs) (a : Z) (l : list ist_event) : Z := Z.of_nat (length (filter (fun e => requests_for s a e = true) l)).
Definition calls (a : Z) (c : list Z) : Z := Z.of_nat (length (filter (fun x => x = a) c)).

(** Waiting for a request, the thread sleeps only if there is none, and is
    woken only by one. *)
Record ist_ok (i : irq) : Prop := {
  io_req : 0 <= i_istreq i;
  io_sleep : i_pc i = IstSleeping -> i_istreq i = 0;
  io_woken : i_pc i = IstWoken -> 0 < i_istreq i;
}.

(** The descriptor after a request. *)
Definition ist_request (i : irq) : irq := ist_wakeup (i <| i_istreq ::= fun n => s32 (n + 1) |>).

Lemma ist_request_ok i : ist_ok i -> i_istreq i + 1 < 2 ^ 31 -> ist_ok (ist_request i) /\ i_istreq (ist_request i) = i_istreq i + 1 /\
  i_pc (ist_request i) <> IstSleeping.
Proof.
  intros [H1 H2 H3] Hlt. unfold ist_request, ist_wakeup. destruct i as [v b n t pc]. cbn in *. case_decide as Hd; cbn; rewrite s32_id by lia.
  - split; [split; cbn; try rewrite s32_id by lia; done || lia|done].
  - split; [split; cbn; try rewrite s32_id by lia; done || lia|done].
Qed.

Lemma irq_thread_ist i i' : irq_thread i = Some i' -> i_ist i' = i_ist i.
Proof.
  unfold irq_thread, ist_take. destruct i as [v b n t []]; cbn; repeat case_match; intros; simplify_eq; done.
Qed.

(** The thread never fails its assertion, and a call takes one request. *)
Lemma irq_thread_ok i : ist_ok i -> exists i', irq_thread i = Some i' /\ ist_ok i' /\
  i_istreq i = i_istreq i' + (if decide (i_pc i' = IstCalling) then 1 else 0).
Proof.
  intros [H1 H2 H3]. unfold irq_thread, ist_take. destruct i as [v b n t pc]. cbn in *. destruct pc; cbn.
  - destruct (Z.leb_spec n 0); [eexists; split; [done|]; split; [split; cbn; done || lia|cbn; case_decide; done || lia]|]. rewrite (proj2 (Z.leb_le 0 (Z.pred n))) by lia.
    eexists. split; [done|]. split; [split; cbn; done || lia|cbn; case_decide; done || lia].
  - eexists. split; [done|]. split; [split; cbn; done || lia|cbn; case_decide; done || lia].
  - specialize (H3 eq_refl). rewrite (proj2 (Z.leb_le 0 (Z.pred n))) by lia. eexists. split; [done|]. split; [split; cbn; done || lia|cbn; case_decide; done || lia].
  - eexists. split; [done|]. split; [split; cbn; done || lia|cbn; case_decide; done || lia].
Qed.

(** irq_handler() ignores an interrupt nobody is attached to and one whose
    ISR is done; when the ISR asks for its IST it queues one request for the
    interrupt attached to this vector and no other, and the service thread,
    if it slept, is woken. *)
Theorem irq_handler_spec v rc s : (forall a, irq_table s !! v = Some a -> exists i, irq_objs s !! a = Some i /\ ist_ok i /\ i_istreq i + 1 < 2 ^ 31 /\
    (rc = INT_CONTINUE -> i_ist i = true)) ->
  exists s', irq_handler v rc s = Some s' /\ irq_table s' = irq_table s /\ ipic s' = ipic s /\
    (forall a, irq_objs s' !! a = match irq_objs s !! a with
       | Some i => Some (if decide (irq_table s !! v = Some a /\ rc = INT_CONTINUE) then ist_request i else i)
       | None => None end) /\
    (forall a i, irq_table s !! v = Some a -> rc = INT_CONTINUE -> irq_objs s' !! a = Some i -> ist_ok i /\ i_pc i <> IstSleeping).
Proof.
  intros HT. unfold irq_handler. destruct (irq_table s !! v) as [a|] eqn:Et; [|exists s; split_and!; try done; intros a; destruct (irq_objs s !! a); [by rewrite decide_False by naive_solver|done]].
  destruct (HT a eq_refl) as (i&Hi&HI&Hlt&Hist). rewrite Hi. cbn [mbind option_bind]. destruct (decide (rc = INT_CONTINUE)) as [->|Hrc].
  - rewrite (Hist eq_refl). cbn [negb]. change (ist_wakeup _) with (ist_request i). destruct (ist_request_ok i HI Hlt) as (HI'&Eq&Hpc). rewrite Eq. pose proof (io_req _ HI).
    destruct (Z.eqb_spec (i_istreq i + 1) 0); [lia|]. eexists. split; [done|]. split_and!; [done|done|..].
    + intros x. cbn. destruct (decide (a = x)) as [<-|Hne]; [rewrite lookup_insert_eq, Hi; by rewrite decide_True|]. rewrite lookup_insert_ne by done.
      destruct (irq_objs s !! x); [|done]. rewrite decide_False by naive_solver. done.
    + cbn. intros x j [= <-] _. rewrite lookup_insert_eq. intros [= <-]. done.
  - exists s. split_and!; try done. intros x. destruct (irq_objs s !! x); [|done]. by rewrite decide_False by naive_solver.
Qed.

(** ** No request is lost *)

(** Every descriptor is sound, and what is attached exists; an ISR that asks for
    an IST has one (ASSERT(irq->ist)). *)
Record irqs_ok (s : irqs) : Prop := {
  iq_objs : forall a i, irq_objs s !! a = Some i -> ist_ok i;
  iq_table : forall v a, irq_table s !! v = Some a -> is_Some (irq_objs s !! a);
}.
Definition event_ok (s : irqs) (e : ist_event) : Prop :=
  match e with
  | Interrupt v rc => forall a i, irq_table s !! v = Some a -> irq_objs s !! a = Some i -> rc = INT_CONTINUE -> i_ist i = true
  | IstRun a => is_Some (irq_objs s !! a)
  end.

Lemma requests_cons s a e l : requests s a (e :: l) = requests s a l + (if requests_for s a e then 1 else 0).
Proof. unfold requests. rewrite filter_cons. destruct (decide (requests_for s a e = true)) as [->|]; [cbn; lia|]. destruct (requests_for s a e); [done|lia]. Qed.
Lemma calls_cons a x c : calls a (x :: c) = calls a c + (if decide (x = a) then 1 else 0).
Proof. unfold calls. rewrite filter_cons. case_decide; cbn; lia. Qed.

(** A step that keeps the table and the ISTs. *)
Record same_irqs (s s' : irqs) : Prop := {
  si_table : irq_table s' = irq_table s;
  si_objs : forall a, i_ist <$> irq_objs s' !! a = i_ist <$> irq_objs s !! a;
}.
Lemma same_event s s' e : same_irqs s s' -> event_ok s e -> event_ok s' e.
Proof.
  intros [Ht Ho]. destruct e as [v rc|a]; cbn.
  - intros H a i. rewrite Ht. intros Ha Hi Hrc. specialize (Ho a). rewrite Hi in Ho. destruct (irq_objs s !! a) as [j|] eqn:Hj; [|done].
    cbn in Ho. injection Ho as Ho. rewrite Ho. by eapply H.
  - intros [i Hi]. specialize (Ho a). rewrite Hi in Ho. destruct (irq_objs s' !! a); [by eexists|done].
Qed.
Lemma same_requests s s' a l : irq_table s' = irq_table s -> requests s' a l = requests s a l.
Proof. intros Ht. unfold requests. do 2 f_equal. apply list_filter_iff. intros [v rc|x]; cbn; [by rewrite Ht|done]. Qed.

Definition istreq_of (s : irqs) (a : Z) : Z := from_option i_istreq 0 (irq_objs s !! a).

Lemma irq_handler_step v rc s : irqs_ok s -> event_ok s (Interrupt v rc) -> (forall a i, irq_objs s !! a = Some i -> i_istreq i + 1 < 2 ^ 31) ->
  exists s', irq_handler v rc s = Some s' /\ irqs_ok s' /\ same_irqs s s' /\
    forall a, istreq_of s' a = istreq_of s a + (if requests_for s a (Interrupt v rc) then 1 else 0).
Proof.
  intros [Ho Ht] He Hlt. destruct (irq_handler_spec v rc s) as (s'&E&Et&_&Eo&_).
  { intros a Ha. destruct (Ht v a Ha) as [i Hi]. exists i. split_and!; [done|by eapply Ho|by eapply Hlt|by eapply He]. }
  exists s'. split; [done|].
  assert (forall a i, irq_objs s !! a = Some i -> ist_ok (ist_request i) /\ i_istreq (ist_request i) = i_istreq i + 1) as HR.
  { intros a i Hi. destruct (ist_request_ok i) as (?&?&_); [by eapply Ho|by eapply Hlt|done]. }
  split_and!; [split|split|].
  - intros a i. rewrite Eo. destruct (irq_objs s !! a) as [j|] eqn:Hj; [|done]. intros [= <-]. destruct (decide (irq_table s !! v = Some a /\ rc = INT_CONTINUE)); [by eapply HR|by eapply Ho].
  - intros w a. rewrite Et. intros Ha. destruct (Ht w a Ha) as [i Hi]. rewrite Eo, Hi. by eexists.
  - done.
  - intros a. rewrite Eo. destruct (irq_objs s !! a) as [j|]; [|done]. cbn. f_equal. destruct (decide (irq_table s !! v = Some a /\ rc = INT_CONTINUE)); [|done]. unfold ist_request, ist_wakeup. by destruct (decide (i_pc _ = IstSleeping)).
  - intros a. unfold istreq_of, requests_for. rewrite Eo. destruct (irq_objs s !! a) as [j|] eqn:Hj; cbn.
    + case_bool_decide; [rewrite decide_True by done|rewrite decide_False by done; lia]. by apply (HR a j).
    + rewrite bool_decide_eq_false_2; [done|]. intros [Ha _]. destruct (Ht v a Ha) as [i Hi]. congruence.
Qed.

(** C13: whatever the interleaving of interrupts of all vectors, each handled by
    irq_handler() with any result of the ISR, with steps of the service
    threads: no assertion fails, and for every descriptor the number of calls
    of its IST plus its pending requests is the number it had pending before
    plus the number of interrupts attached to it that asked for the IST; so no
    request is lost, served twice or served by another thread, and a thread
    sleeps only when it has no request pending.  Conditions: an ISR returns
    INT_CONTINUE only if there is an IST (the driver's contract), the threads
    that run belong to attached interrupts, and fewer than 2^31 requests are
    pending on a descriptor. *)
Theorem ist_no_lost_request l s : irqs_ok s -> (forall e, e ∈ l -> event_ok s e) ->
  (forall a i, irq_objs s !! a = Some i -> i_istreq i + Z.of_nat (length l) < 2 ^ 31) ->
  exists s' c, ist_trace l s = Some (s', c) /\ irqs_ok s' /\ irq_table s' = irq_table s /\
    forall a, calls a c + istreq_of s' a = istreq_of s a + requests s a l.
Proof.
  revert s. induction l as [|e l IH]; intros s HK HE Hlt; [exists s, []; split_and!; try done; intros a; unfold requests, calls; cbn; lia|].
  assert (forall s1, irqs_ok s1 -> same_irqs s s1 -> (forall a, istreq_of s1 a <= istreq_of s a + 1) ->
    exists s' c, ist_trace l s1 = Some (s', c) /\ irqs_ok s' /\ irq_table s' = irq_table s1 /\ forall a, calls a c + istreq_of s' a = istreq_of s1 a + requests s1 a l) as Hnext.
  { intros s1 HK1 HS1 Hq1. apply IH; [done|intros x Hx; eapply same_event; [done|]; apply HE; by right|]. intros a i Hi. specialize (Hq1 a). unfold istreq_of in Hq1. rewrite Hi in Hq1.
    pose proof (si_objs _ _ HS1 a) as Ho. rewrite Hi in Ho. destruct (irq_objs s !! a) as [j|] eqn:Hj; [|done]. specialize (Hlt a j Hj). cbn [length from_option] in *. lia. }
  destruct e as [v rc|a]; cbn [ist_trace].
  - destruct (irq_handler_step v rc s HK) as (s1&E1&HK1&HS1&Hq1); [apply HE; by left|intros a i Hi; specialize (Hlt a i Hi); cbn [length] in Hlt; lia|]. rewrite E1. cbn [mbind option_bind].
    destruct (Hnext s1 HK1 HS1) as (s'&c&E2&HK2&Ht2&Hc); [intros a; rewrite Hq1; destruct (requests_for _ _ _); lia|]. exists s', c. split_and!; [done|done|by rewrite Ht2, (si_table _ _ HS1)|].
    intros a. rewrite Hc, Hq1, requests_cons, (same_requests s s1) by apply HS1. lia.
  - destruct (HE (IstRun a)) as [i Hi]; [by left|]. rewrite Hi. cbn [mbind option_bind]. destruct (irq_thread_ok i (iq_objs _ HK a i Hi)) as (i1&E1&HI1&En1). rewrite E1. cbn [mbind option_bind].
    set (s1 := s <| irq_objs ::= <[a := i1]> |>).
    assert (forall x, istreq_of s1 x = istreq_of s x - (if decide (x = a /\ i_pc i1 = IstCalling) then 1 else 0)) as Hq1.
    { intros x. unfold istreq_of, s1. cbn. rewrite lookup_insert. destruct (decide (a = x)) as [<-|Hne]; [|rewrite (decide_False (P := x = a /\ _)) by naive_solver; lia].
      rewrite Hi. cbn. destruct (decide (i_pc i1 = IstCalling)); [rewrite decide_True by done|rewrite decide_False by naive_solver]; lia. }
    destruct (Hnext s1) as (s'&c&E2&HK2&Ht2&Hc).
    + split; cbn.
      * intros x j. rewrite lookup_insert_Some. intros [[_ <-]|[_ ?]]; [done|by eapply (iq_objs _ HK)].
      * intros v x Hx. apply lookup_insert_is_Some'. right. by apply (iq_table _ HK v).
    + split; [done|]. intros x. cbn. rewrite lookup_insert. destruct (decide (a = x)) as [<-|]; [|done]. rewrite Hi. cbn. f_equal. by eapply irq_thread_ist.
    + intros x. rewrite Hq1. destruct (decide (x = a /\ i_pc i1 = IstCalling)); lia.
    + rewrite E2. cbn [mbind option_bind fst snd]. eexists _, _. split; [done|]. split; [done|]. split; [by rewrite Ht2|]. intros x. rewrite requests_cons. cbn [requests_for].
      specialize (Hc x). rewrite (same_requests s s1) in Hc by done. rewrite Hq1 in Hc. destruct (decide (i_pc i1 = IstCalling)) as [Hpc|Hpc].
      * rewrite calls_cons. destruct (decide (a = x)) as [->|Hne]; [rewrite decide_True in Hc by done; lia|rewrite decide_False in Hc by naive_solver; lia].
      * rewrite decide_False in Hc by naive_solver. lia.
Qed.

(** ** The thread on its own *)

(** [k] steps of a thread, and the number of calls of the IST. *)
Fixpoint ist_runs (k : nat) (i : irq) : option (irq * Z) :=
  match k with
  | O => Some (i, 0)
  | S k =>
      i' ← irq_thread i;
      r ← ist_runs k i';
      Some (r.1, r.2 + (if decide (i_pc i' = IstCalling) then 1 else 0))
  end.

Lemma ist_runs_add k1 k2 i i1 n1 i2 n2 : ist_runs k1 i = Some (i1, n1) -> ist_runs k2 i1 = Some (i2, n2) -> ist_runs (k1 + k2) i = Some (i2, n1 + n2).
Proof.
  revert i n1. induction k1 as [|k1 IH]; intros i n1 H1 H2; cbn [ist_runs Nat.add] in *; [simplify_eq; by rewrite H2|].
  destruct (irq_thread i) as [i'|]; [|done]. cbn [mbind option_bind] in *. destruct (ist_runs k1 i') as [[x y]|] eqn:E; [|done]. cbn [mbind option_bind fst snd] in *. simplify_eq.
  rewrite (IH i' y E H2). cbn [mbind option_bind fst snd]. do 2 f_equal. lia.
Qed.

(** Taking a request and serving it. *)
Lemma ist_serve v b q t pc : 0 < q -> pc = IstTop \/ pc = IstWoken ->
  ist_runs 2 (mk_irq v b q t pc) = Some (mk_irq v b (q - 1) t IstTop, 1).
Proof.
  intros Hq Hpc. assert (irq_thread (mk_irq v b q t pc) = Some (mk_irq v b (q - 1) t IstCalling)) as E.
  { unfold irq_thread, ist_take. destruct Hpc as [->| ->]; cbn [i_pc i_istreq]; [rewrite (proj2 (Z.leb_gt q 0)) by lia|];
      cbn; rewrite (proj2 (Z.leb_le 0 (Z.pred q))), Z.sub_1_r by lia; done. }
  cbn [ist_runs]. rewrite E. done.
Qed.

(** From the top of its loop the thread serves what is pending, in two steps for
    each request. *)
Lemma ist_drain_top (n : nat) i : i_istreq i = Z.of_nat n -> i_pc i = IstTop -> exists i',
  ist_runs (2 * n + 1) i = Some (i', Z.of_nat n) /\ i_pc i' = IstSleeping /\ i_istreq i' = 0.
Proof.
  revert i. induction n as [|n IH]; intros [v b q t pc] Hq Hpc; cbn in Hq, Hpc; subst pc q.
  - eexists. split; [done|]. done.
  - destruct (IH (mk_irq v b (Z.of_nat n) t IstTop) eq_refl eq_refl) as (i'&E&Hs&Hz). exists i'. split; [|done].
    replace (2 * S n + 1)%nat with (2 + (2 * n + 1))%nat by lia.
    replace (Z.of_nat n) with (Z.of_nat (S n) - 1) in E at 1 by lia.
    rewrite (ist_runs_add _ _ _ _ _ _ _ (ist_serve v b (Z.of_nat (S n)) t IstTop ltac:(lia) (or_introl eq_refl)) E). do 2 f_equal. lia.
Qed.

(** Once interrupts stop, the service thread calls the IST exactly once for
    every pending request, within two steps per request and a few more, and
    goes to sleep with nothing pending. *)
Theorem ist_drains i : ist_ok i -> exists (k : nat) i', ist_runs k i = Some (i', i_istreq i) /\
  i_pc i' = IstSleeping /\ i_istreq i' = 0 /\ Z.of_nat k <= 2 * i_istreq i + 2.
Proof.
  intros HI. pose proof (io_req _ HI) as H0. destruct i as [v b q t pc]. cbn in *. destruct pc.
  - destruct (ist_drain_top (Z.to_nat q) (mk_irq v b q t IstTop)) as (i'&E&Hs&Hz); [cbn; lia|done|]. rewrite Z2Nat.id in E by done. eexists _, i'. split; [done|]. split_and!; [done|done|lia].
  - pose proof (io_sleep _ HI eq_refl) as Hq. cbn in Hq. subst q. exists 0%nat. by eexists.
  - pose proof (io_woken _ HI eq_refl) as Hq. cbn in Hq. destruct (ist_drain_top (Z.to_nat (q - 1)) (mk_irq v b (q - 1) t IstTop)) as (i'&E&Hs&Hz); [cbn; lia|done|].
    exists (2 + (2 * Z.to_nat (q - 1) + 1))%nat, i'. split_and!; [|done|done|lia]. 
    rewrite (ist_runs_add _ _ _ _ _ _ _ (ist_serve v b q t IstWoken Hq (or_intror eq_refl)) E). do 2 f_equal. lia.
  - destruct (ist_drain_top (Z.to_nat q) (mk_irq v b q t IstTop)) as (i'&E&Hs&Hz); [cbn; lia|done|]. rewrite Z2Nat.id in E by done.
    exists (1 + (2 * Z.to_nat q + 1))%nat, i'. split_and!; [|done|done|lia]. exact (ist_runs_add 1 _ (mk_irq v b q t IstCalling) (mk_irq v b q t IstTop) 0 _ _ eq_refl E).
Qed.

(** ** irq_attach and irq_detach *)

Lemma lor_clr m v : 0 <= v -> Z.testbit m v = true -> Z.lor (clr m (bit v)) (bit v) = m.
Proof.
  intros Hv Hm. apply Z.bits_inj'. intros w Hw. rewrite lor_bit_spec, clr_bit_spec by done. destruct (Z.eqb_spec v w) as [<-|]; [by rewrite Hm, orb_true_r|].
  by rewrite andb_true_r, orb_false_r.
Qed.

(** Masking a vector undoes its unmasking. *)
Lemma unmask_mask s v level s1 : pic_ok s -> vec v -> 0 <= level <= IPL_HIGH -> ipl s v = IPL_NONE -> interrupt_unmask v level s = Some s1 ->
  pic_ok s1 /\ ipl s1 v = level /\ irq_level s1 = irq_level s /\
  exists s2, interrupt_mask v s1 = Some s2 /\ pic_ok s2 /\ ipl_table s2 = ipl_table s /\ mask_table s2 = mask_table s /\ imr s2 = imr s /\ irq_level s2 = irq_level s.
Proof.
  intros HP Hv Hl Hn E. assert (0 <= v < 16) as Hv' by (unfold vec, NIRQS in Hv; lia). destruct (interrupt_unmask_ok s v level HP Hv Hl Hn) as (t&m&E1&HP1&Ht&Hlk). rewrite E1 in E. injection E as <-.
  set (s0 := s <| ipl_table ::= <[Z.to_nat v := level]> |>) in *. set (s1 := s0 <| mask_table := t |> <| imr := m |>) in *.
  assert (ipl s1 v = level) as Hi. { change (ipl s1 v) with (ipl s0 v). unfold s0. rewrite ipl_insert; [by rewrite decide_True|apply HP|done|done]. }
  split; [done|]. split; [done|]. split; [done|]. destruct (interrupt_mask_ok s1 v HP1 Hv) as (t2&m2&E2&HP2&Ht2&Hlk2). rewrite Hi in Hlk2.
  eexists. split; [exact E2|]. split; [done|]. assert (t2 = mask_table s) as Em.
  { apply list_eq. intros j. rewrite Hlk2. change (mask_table s1) with t. rewrite Hlk. destruct (decide (j < Z.to_nat level)%nat) as [Hj|Hj]; [|done].
    destruct (mask_table s !! j) as [x|] eqn:Hx; [|done]. cbn. f_equal. apply lor_clr; [lia|]. destruct (po_bits _ HP _ _ Hx) as [_ ->]; [|done]. rewrite Hn. apply Z.leb_le. unfold IPL_NONE. lia. }
  split_and!; [|done| |done].
  - cbn. rewrite list_insert_insert_eq. apply list_insert_id. unfold ipl in Hn. destruct (ipl_table s !! Z.to_nat v) as [x|] eqn:Hx; [cbn in Hn; by rewrite Hn|].
    apply lookup_ge_None in Hx. pose proof (po_ipls _ HP). lia.
  - pose proof (po_imr _ HP2) as Hm2. pose proof (po_imr _ HP) as Hm. cbn in Hm2 |- *. rewrite Em in Hm2. change (irq_level s0) with (irq_level s) in Hm2. congruence.
Qed.

(** C33: Attaching an interrupt to a free vector outside of handlers succeeds if
    memory and the thread are there: the descriptor is in the table, its
    vector gets the priority and is let through at every lower level; if the
    memory is not there nothing changes, and if the thread is not there the
    memory is given back and nothing else changes.  Detaching it leaves the
    descriptors, the table, the levels, the masks and the mask register as they
    were, terminates the service thread if there is one and gives the memory
    back, in this order. *)
Theorem irq_attach_detach v prio shared has_ist mem th s : pic_ok (ipic s) -> irq_level (ipic s) = 0 -> vec v -> 0 <= prio <= IPL_HIGH ->
  ipl (ipic s) v = IPL_NONE -> irq_table s !! v = None -> irq_objs s !! mem = None ->
  if mem =? 0 then irq_attach v prio shared has_ist mem th s = Some (0, s)
  else if has_ist && (th =? 0) then irq_attach v prio shared has_ist mem th s = Some (0, s <| released ::= fun l => l ++ [KmemFree mem] |>)
  else exists s1 s2, irq_attach v prio shared has_ist mem th s = Some (mem, s1) /\ irq_table s1 !! v = Some mem /\
    irq_objs s1 !! mem = Some (mk_irq v has_ist 0 (if has_ist then th else 0) IstTop) /\ pic_ok (ipic s1) /\ ipl (ipic s1) v = prio /\
    irq_detach mem s1 = Some s2 /\ irq_objs s2 = irq_objs s /\ irq_table s2 = irq_table s /\
    ipl_table (ipic s2) = ipl_table (ipic s) /\ mask_table (ipic s2) = mask_table (ipic s) /\ imr (ipic s2) = imr (ipic s) /\
    released s2 = released s1 ++ (if has_ist then [KthreadTerminate th] else []) ++ [KmemFree mem] /\ released s1 = released s.
Proof.
  intros HP Hz Hv Hp Hn Ht Ho. unfold irq_attach. rewrite Hz. change (0 =? 0) with true. cbn [negb]. destruct (mem =? 0); [done|].
  rewrite bool_decide_eq_false_2 by (rewrite Ho; by intros []). destruct (has_ist && (th =? 0)) eqn:Hth; [done|].
  assert ((0 <=? v) && (v <? NIRQS) = true) as -> by (unfold vec in Hv; apply andb_true_intro; split; [apply Z.leb_le|apply Z.ltb_lt]; lia). cbn [negb].
  set (p0 := interrupt_setup v shared (ipic s)). assert (pic_ok p0) as HP0 by (by destruct HP). change (ipic (s <| irq_objs ::= _ |> <| irq_table ::= _ |>)) with (ipic s). fold p0.
  destruct (interrupt_unmask_ok p0 v prio HP0 Hv Hp Hn) as (t&m&E1&_). rewrite E1. cbn [mbind option_bind].
  set (p1 := p0 <| ipl_table ::= <[Z.to_nat v := prio]> |> <| mask_table := t |> <| imr := m |>) in *.
  destruct (unmask_mask p0 v prio p1 HP0 Hv Hp Hn E1) as (HP1&Hi1&Hl1&p2&E2&_&Ei&Em&Er&_). change (irq_level p0) with (irq_level (ipic s)) in Hl1.
  eexists. unfold irq_detach. eexists. split; [done|]. cbn. rewrite !lookup_insert_eq. split; [done|]. split; [done|]. split; [done|]. split; [done|]. rewrite Hz. cbn.
  rewrite (proj2 (Z.ltb_lt v NIRQS)) by (unfold vec in Hv; lia). cbn. rewrite E2. cbn [mbind option_bind]. split; [done|]. cbn. rewrite !delete_insert_id by done.
  split_and!; try done. do 2 f_equal. destruct has_ist; [|done]. cbn in Hth. by rewrite Hth.
Qed.

(** ** Examples: the keyboard (IRQ 1, IPL_INPUT) is interrupted by the clock
    (IRQ 0, IPL_CLOCK) *)
Module IrqDemo.
Definition reset : pic := mk_pic 0 [] [] 0 0.
Definition p0 : pic := interrupt_init reset.
Definition p1 : pic := default p0 (interrupt_unmask 1 5 p0).
Definition p2 : pic := default p0 (interrupt_unmask 0 10 p1).
Definition enter (v : Z) (p : pic) : Z * pic := default (0, p0) (interrupt_enter v p).
Definition nested : nest := mk_nest (enter 0 (enter 1 p2).2).2 [(5, 0); (0, 1)].

Lemma vec_0 : vec 0.
Proof. unfold vec, NIRQS. lia. Qed.
Lemma vec_1 : vec 1.
Proof. unfold vec, NIRQS. lia. Qed.

Lemma nested_reached : rtc nest_step (mk_nest (interrupt_init reset) []) nested.
Proof.
  eapply rtc_l; [apply (nest_attach p0 p1 1 5 vec_1)|]; [unfold IPL_HIGH; lia|vm_compute; reflexivity|vm_compute; reflexivity|].
  eapply rtc_l; [apply (nest_attach p1 p2 0 10 vec_0)|]; [unfold IPL_HIGH; lia|vm_compute; reflexivity|vm_compute; reflexivity|].
  eapply rtc_l; [apply (nest_deliver p2 (enter 1 p2).2 [] 1 0 vec_1)|]; [vm_compute; reflexivity|vm_compute; reflexivity|].
  eapply rtc_l; [apply (nest_deliver (enter 1 p2).2 (enter 0 (enter 1 p2).2).2 [(0, 1)] 0 5 vec_0)|]; [vm_compute; reflexivity|vm_compute; reflexivity|].
  apply rtc_refl.
Qed.

Lemma interrupt_nesting_witness : (forall v, vec v -> unmasked v (n_pic nested) = (irq_level (n_pic nested) <? ipl (n_pic nested) v)) /\
  irq_level (n_pic nested) = top_level (n_pic nested) (n_stack nested) /\
  (forall old v, (old, v) ∈ n_stack nested -> unmasked v (n_pic nested) = false) /\ Z.of_nat (length (n_stack nested)) <= IPL_HIGH.
Proof. exact (interrupt_nesting reset nested nested_reached). Defined.

Definition ist0 : irq := mk_irq 1 true 0 0x80003000 IstTop.
Lemma ist0_ok : ist_ok ist0.
Proof. split; cbn; [lia|done|done]. Qed.

Definition ist3 : irq := mk_irq 1 true 3 0x80003000 IstWoken.
Lemma ist_drains_witness : exists (k : nat) i', ist_runs k ist3 = Some (i', 3) /\ i_pc i' = IstSleeping /\ i_istreq i' = 0 /\ Z.of_nat k <= 2 * 3 + 2.
Proof. apply (ist_drains ist3). split; cbn; [lia|done|lia]. Defined.

Definition irqs0 : irqs := mk_irqs ∅ ∅ p0 [].
Definition irqs1 : irqs := mk_irqs {[ 0x80004000 := ist0 ]} {[ 1 := 0x80004000 ]} p1 [].

Definition kbd_events : list ist_event :=
  [IstRun 0x80004000; Interrupt 1 INT_CONTINUE; Interrupt 7 INT_DONE; Interrupt 1 INT_CONTINUE; IstRun 0x80004000; Interrupt 1 INT_CONTINUE; IstRun 0x80004000; IstRun 0x80004000].
Lemma irqs1_ok : irqs_ok irqs1.
Proof.
  split.
  - intros a i Hi. cbn in Hi. apply lookup_singleton_Some in Hi as [_ <-]. exact ist0_ok.
  - intros v a Ha. cbn in Ha. apply lookup_singleton_Some in Ha as [_ <-]. cbn. by eexists.
Qed.
Lemma ist_no_lost_request_witness : exists s' c, ist_trace kbd_events irqs1 = Some (s', c) /\ irqs_ok s' /\ irq_table s' = irq_table irqs1 /\
  forall a, calls a c + istreq_of s' a = istreq_of irqs1 a + requests irqs1 a kbd_events.
Proof.
  apply (ist_no_lost_request kbd_events irqs1 irqs1_ok).
  - apply Forall_forall. repeat constructor; cbn; try (eexists; reflexivity); intros a i Ha Hi _; apply lookup_singleton_Some in Hi as [_ <-]; reflexivity.
  - intros a i Hi. cbn in Hi. apply lookup_singleton_Some in Hi as [_ <-]. vm_compute. reflexivity.
Defined.

Lemma irq_handler_spec_witness : exists s', irq_handler 1 INT_CONTINUE irqs1 = Some s' /\ irq_table s' = irq_table irqs1 /\ ipic s' = ipic irqs1 /\
  (forall a, irq_objs s' !! a = match irq_objs irqs1 !! a with
     | Some i => Some (if decide (irq_table irqs1 !! 1 = Some a /\ INT_CONTINUE = INT_CONTINUE) then ist_request i else i) | None => None end) /\
  (forall a i, irq_table irqs1 !! 1 = Some a -> INT_CONTINUE = INT_CONTINUE -> irq_objs s' !! a = Some i -> ist_ok i /\ i_pc i <> IstSleeping).
Proof. apply (irq_handler_spec 1 INT_CONTINUE irqs1). intros a [= <-]. exists ist0. split; [reflexivity|]. split; [exact ist0_ok|]. split; [reflexivity|reflexivity]. Defined.

Lemma irq_attach_detach_witness : exists s1 s2, irq_attach 1 5 false true 0x80004000 0x80003000 irqs0 = Some (0x80004000, s1) /\ irq_table s1 !! 1 = Some 0x80004000 /\
  irq_objs s1 !! 0x80004000 = Some ist0 /\ pic_ok (ipic s1) /\ ipl (ipic s1) 1 = 5 /\
  irq_detach 0x80004000 s1 = Some s2 /\ irq_objs s2 = ∅ /\ irq_table s2 = ∅ /\
  ipl_table (ipic s2) = ipl_table p0 /\ mask_table (ipic s2) = mask_table p0 /\ imr (ipic s2) = imr p0 /\
  released s2 = released s1 ++ [KthreadTerminate 0x80003000] ++ [KmemFree 0x80004000] /\ released s1 = [].
Proof.
  apply (irq_attach_detach 1 5 false true 0x80004000 0x80003000 irqs0 (interrupt_init_ok reset) eq_refl vec_1); [unfold IPL_HIGH; lia|reflexivity|reflexivity|reflexivity].
Defined.
End IrqDemo.
