(* ===== verification/Device.v ===== *)
(** * Device: device objects and their handles, sys/kern/device.c

    A device object counts its references: one for its driver, until
    device_destroy(), and one for every open handle.  A task has an array of
    handles; a descriptor is an index into it, disguised by FD_MAGIC.

    The routines of a driver are functions in the table [devio], over the state
    of the drivers and the user memory; they see the handle but do not change
    it, nor the device objects.  The scheduler is locked or the routine runs
    to its end, so each call is one step.  Following a pointer to a released
    device is a fault. *)
From stdpp Require Import base numbers gmap list.
From S2P Require Import Prelude Core Kernel HeapSource.

Open Scope Z_scope.

Definition EIO := 5.
Definition ENXIO := 6.
Definition EBADF := 9.
Definition ENODEV := 19.
Definition EMFILE := 24.

Definition FD_MAGIC := 0x44455600.
Definition DEVICE_MAGIC := 0x4465763f.
Definition MAXDEVNAME : nat := 12.
Definition CONFIG_DEV_OPEN_MAX : nat := 16.
Definition CAP_DEVIO := 0x80.
Definition SIZEOF_DEVICE := 40.

(** struct file; [f_dev] is 0 in a free slot. *)
Record file := mk_file { f_dev : Z; f_priv : Z; f_flags : Z }.
#[export] Instance file_eta : Settable file := fun x => mk_file (f_dev x) (f_priv x) (f_flags x).

(** ** driver_init

    The drivers of the static table; [drv_init] tells whether there is an
    initialisation routine.  The result is the sequence of the routines called. *)
Record driver := mk_driver { drv_name : list Z; drv_order : Z; drv_init : bool }.

(** The inner loop, with its ASSERT(drv->order < 16). *)
Fixpoint driver_pass (order : Z) (tbl : list driver) : option (list driver) :=
  match tbl with
  | [] => Some []
  | d :: tbl =>
      if negb (drv_order d <? 16) then None
      else r ← driver_pass order tbl; Some (if (drv_order d =? order) && drv_init d then d :: r else r)
  end.
Fixpoint driver_orders (n : nat) (order : Z) (tbl : list driver) : option (list driver) :=
  match n with
  | O => Some []
  | S n => l ← driver_pass order tbl; r ← driver_orders n (order + 1) tbl; Some (l ++ r)
  end.
Definition driver_init (tbl : list driver) : option (list driver) := driver_orders 16 0 tbl.

Section Device.
Context {K D : Type} `{HeapSource K}.

(** What drivers work on: their own state, and user memory. *)
Record world := mk_world { w_drv : D; w_umem : gmap (Z * Z) Z }.
#[export] Instance world_eta : Settable world := fun x => mk_world (w_drv x) (w_umem x).

(** struct devio; a missing routine is NULL.  [m] is the current address space. *)
Record devio := mk_devio {
  io_open : option (forall (m : Z) (f : file), world -> Z * world);
  io_close : option (forall (m : Z) (f : file), world -> Z * world);
  io_read : option (forall (m : Z) (f : file) (buf count blkno : Z), world -> Z * Z * world);
  io_write : option (forall (m : Z) (f : file) (buf count blkno : Z), world -> Z * Z * world);
  io_ioctl : option (forall (m : Z) (f : file) (cmd arg : Z), world -> Z * world);
  io_event : option (forall (event : Z), world -> Z * world);
}.

Record device := mk_device {
  d_magic : Z;
  d_refcnt : Z;
  d_flags : Z;
  d_io : devio;
  d_info : Z;
  d_name : list Z;        (* the characters of name *)
}.
#[export] Instance device_eta : Settable device := fun x =>
  mk_device (d_magic x) (d_refcnt x) (d_flags x) (d_io x) (d_info x) (d_name x).

(** The part of struct task that matters here. *)
Record dtask := mk_dtask { dt_map : Z; dt_capability : Z; dt_file : list file }.
#[export] Instance dtask_eta : Settable dtask := fun x => mk_dtask (dt_map x) (dt_capability x) (dt_file x).

Record dst := mk_dst {
  devs : gmap Z device;
  device_list : list Z;
  dtasks : gmap Z dtask;
  d_heap : K;
  d_world : world;
}.
#[export] Instance dst_eta : Settable dst := fun x => mk_dst (devs x) (device_list x) (dtasks x) (d_heap x) (d_world x).

Definition upd_dev (a : Z) (f : device -> device) (s : dst) : option dst :=
  d ← devs s !! a; Some (s <| devs ::= <[a := f d]> |>).
(** Slot [i] of the task's handles. *)
Definition upd_file (t : Z) (i : nat) (f : file -> file) (s : dst) : option dst :=
  k ← dtasks s !! t;
  x ← dt_file k !! i;
  Some (s <| dtasks ::= <[t := k <| dt_file ::= <[i := f x]> |>]> |>).

Definition device_valid (a : Z) (s : dst) : bool :=
  kern_area a && from_option (fun d => d_magic d =? DEVICE_MAGIC) false (devs s !! a).

(** 0 on success, -1 if the device is invalid. *)
Definition device_hold (a : Z) (s : dst) : option (Z * dst) :=
  if device_valid a s then s ← upd_dev a (fun d => d <| d_refcnt ::= Z.succ |>) s; Some (0, s)
  else Some (-1, s).

Definition device_release (a : Z) (s : dst) : option dst :=
  s ← upd_dev a (fun d => d <| d_refcnt ::= Z.pred |>) s;
  d ← devs s !! a;
  if d_refcnt d =? 0 then
    s ← upd_dev a (fun d => d <| d_magic := 0 |>) s;
    if bool_decide (a ∈ device_list s) then
      k ← hs_free a (d_heap s);
      Some (s <| device_list ::= filter (fun x => x <> a) |> <| devs ::= delete a |> <| d_heap := k |>)
    else None
  else Some s.

(** strncmp(dev->name, name, MAXDEVNAME) == 0 *)
Definition same_devname (x y : list Z) : bool := bool_decide (take MAXDEVNAME x = take MAXDEVNAME y).

Fixpoint lookup_in (name : list Z) (l : list Z) (s : dst) : option Z :=
  match l with
  | [] => Some 0
  | a :: l => d ← devs s !! a; if same_devname (d_name d) name then Some a else lookup_in name l s
  end.
Definition device_lookup (name : list Z) (s : dst) : option Z := lookup_in name (device_list s) s.

Definition device_create (io : devio) (name : list Z) (flags info : Z) (s : dst) : option (Z * dst) :=
  let len := (MAXDEVNAME `min` length name)%nat in       (* strnlen(name, MAXDEVNAME) *)
  if (len =? 0)%nat || (MAXDEVNAME <=? len)%nat then Some (0, s)
  else
    old ← device_lookup name s;
    if negb (old =? 0) then Some (0, s)
    else
      r ← hs_alloc SIZEOF_DEVICE (d_heap s);
      let '(a, k) := r in
      let s := s <| d_heap := k |> in
      if a =? 0 then Some (0, s)
      else
        (* strlcpy(dev->name, name, len + 1) *)
        let d := mk_device DEVICE_MAGIC 1 flags io info (take len name) in
        Some (a, s <| devs ::= <[a := d]> |> <| device_list ::= cons a |>).

Definition device_destroy (a : Z) (s : dst) : option (Z * dst) :=
  if device_valid a s then s ← device_release a s; Some (0, s) else Some (ENODEV, s).

(** ** Descriptors *)

(** while (file->dev) { file++; i++; if (i >= CONFIG_DEV_OPEN_MAX) ... }; the
    array ends where the loop gives up. *)
Fixpoint free_slot (i : nat) (l : list file) : option nat :=
  match l with
  | [] => None
  | f :: l => if f_dev f =? 0 then Some i else free_slot (S i) l
  end.

Definition fd_alloc (t : Z) (name : list Z) (s : dst) : option (Z * dst) :=
  k ← dtasks s !! t;
  match free_slot 0 (dt_file k) with
  | None => Some (- EMFILE, s)
  | Some i =>
      let fd := Z.lxor (Z.of_nat i) FD_MAGIC in
      a ← device_lookup name s;
      if a =? 0 then Some (- ENXIO, s)
      else
        r ← device_hold a s;
        let '(_, s) := r in
        d ← devs s !! a;
        s ← upd_file t i (fun _ => mk_file a (d_info d) 0) s;
        Some (fd, s)
  end.

Definition fd_index (fd : Z) : Z := u32 (Z.lxor fd FD_MAGIC).

(** The slot and the handle, or NULL. *)
Definition file_lookup (t fd : Z) (s : dst) : option (option (nat * file)) :=
  let i := fd_index fd in
  if Z.of_nat CONFIG_DEV_OPEN_MAX <=? i then Some None
  else
    k ← dtasks s !! t;
    f ← dt_file k !! Z.to_nat i;
    Some (if f_dev f =? 0 then None else Some (Z.to_nat i, f)).

Definition fd_free (t fd : Z) (s : dst) : option (Z * dst) :=
  r ← file_lookup t fd s;
  match r with
  | None => Some (- EBADF, s)
  | Some (i, f) =>
      s ← device_release (f_dev f) s;
      s ← upd_file t i (fun f => f <| f_dev := 0 |>) s;
      Some (0, s)
  end.

Definition dev_map (t : Z) (s : dst) : option Z := k ← dtasks s !! t; Some (dt_map k).

(** umem_copyin() and umem_copyout() of the current task. *)
Definition dev_copyin (t a : Z) (n : nat) (s : dst) : option (option (list Z)) :=
  m ← dev_map t s; Some (if umem_ok a (Z.of_nat n) then uread (w_umem (d_world s)) m a n else None).
Definition dev_copyout (t a : Z) (bs : list Z) (s : dst) : option (bool * dst) :=
  m ← dev_map t s;
  if umem_ok a (Z.of_nat (length bs)) then
    let '(ok, M) := uwrite (w_umem (d_world s)) m a bs in
    Some (ok, s <| d_world ::= fun w => w <| w_umem := M |> |>)
  else Some (false, s).
Definition dev_strnlen (t a : Z) (n : nat) (s : dst) : option (option Z) :=
  m ← dev_map t s; Some (if UMEM_MAX <=? a then None else scasb (w_umem (d_world s)) m a n 0).

(** ** System calls of task [t] *)

(** The part of device_open() after the descriptor [fd] has been allocated. *)
Definition device_open_fd (t fd flags fdp : Z) (s : dst) : option (Z * dst) :=
  k ← dtasks s !! t;
  x ← file_lookup t fd s;
  f ← x;
  s ← upd_file t (fst f) (fun f => f <| f_flags := flags |>) s;
  d ← devs s !! f_dev (snd f);
  let f := snd f <| f_flags := flags |> in
  let '(err, s) :=
    match io_open (d_io d) with
    | Some op => let '(err, w) := op (dt_map k) f (d_world s) in (err, s <| d_world := w |>)
    | None => (0, s)
    end in
  if err =? 0 then
    c ← dev_copyout t fdp (bytes_of_word (u32 fd)) s;
    let '(ok, s) := c in
    Some (if (ok : bool) then 0 else EFAULT, s)
  else
    r ← fd_free t fd s;
    Some (err, snd r).

Definition device_open (t name flags fdp : Z) (s : dst) : option (Z * dst) :=
  k ← dtasks s !! t;
  if negb (flag (dt_capability k) CAP_DEVIO) then Some (EPERM, s)
  else
    l ← dev_strnlen t name MAXDEVNAME s;
    match l with
    | None => Some (EFAULT, s)
    | Some len =>
        if len =? 0 then Some (ENOENT, s)
        else if Z.of_nat MAXDEVNAME <=? len then Some (ENAMETOOLONG, s)
        else
          b ← dev_copyin t name (Z.to_nat (len + 1)) s;
          match b with
          | None => Some (EFAULT, s)
          | Some bs =>
              (* str[MAXDEVNAME] has a terminator unless it is full *)
              let str := default bs (cstr bs) in
              r ← fd_alloc t str s;
              let '(fd, s) := r in
              if fd <? 0 then Some (- fd, s)
              else
                device_open_fd t fd flags fdp s
          end
    end.

Definition device_close (t fd : Z) (s : dst) : option (Z * dst) :=
  k ← dtasks s !! t;
  x ← file_lookup t fd s;
  match x with
  | None => Some (EBADF, s)
  | Some (_, f) =>
      d ← devs s !! f_dev f;
      let '(err, s) :=
        match io_close (d_io d) with
        | Some op => let '(err, w) := op (dt_map k) f (d_world s) in (err, s <| d_world := w |>)
        | None => (0, s)
        end in
      r ← fd_free t fd s;
      Some (err, snd r)
  end.

(** device_read() and device_write(), which differ in the routine. *)
Definition device_rw (sel : devio -> option (Z -> file -> Z -> Z -> Z -> world -> Z * Z * world)) (t fd buf nbyte blkno : Z) (s : dst) : option (Z * dst) :=
  k ← dtasks s !! t;
  x ← file_lookup t fd s;
  match x with
  | None => Some (EBADF, s)
  | Some (_, f) =>
      d ← devs s !! f_dev f;
      match sel (d_io d) with
      | None => Some (EIO, s)
      | Some op =>
          b ← dev_copyin t nbyte 4 s;
          match b with
          | None => Some (EFAULT, s)
          | Some bs =>
              let '(err, count, w) := op (dt_map k) f buf (word_of_bytes bs) blkno (d_world s) in
              let s := s <| d_world := w |> in
              if err =? 0 then
                c ← dev_copyout t nbyte (bytes_of_word count) s;
                let '(ok, s) := c in
                Some (if (ok : bool) then 0 else EFAULT, s)
              else Some (err, s)
          end
      end
  end.
Definition device_read : Z -> Z -> Z -> Z -> Z -> dst -> option (Z * dst) := device_rw io_read.
Definition device_write : Z -> Z -> Z -> Z -> Z -> dst -> option (Z * dst) := device_rw io_write.

Definition device_ioctl (t fd cmd arg : Z) (s : dst) : option (Z * dst) :=
  k ← dtasks s !! t;
  x ← file_lookup t fd s;
  match x with
  | None => Some (EBADF, s)
  | Some (_, f) =>
      d ← devs s !! f_dev f;
      match io_ioctl (d_io d) with
      | None => Some (EIO, s)
      | Some op => let '(err, w) := op (dt_map k) f cmd arg (d_world s) in Some (err, s <| d_world := w |>)
      end
  end.

(** ** The rest of the kernel's interface *)

(** [n] more slots of the task that exits, from slot [i] on.  The current task is
    [cur]. *)
Fixpoint terminate_loop (n i : nat) (cur task : Z) (s : dst) : option dst :=
  match n with
  | O => Some s
  | S n =>
      k ← dtasks s !! task;
      f ← dt_file k !! i;
      s ← (if f_dev f =? 0 then Some s
           else r ← device_close cur (Z.lxor (Z.of_nat i) FD_MAGIC) s; Some (snd r));
      terminate_loop n (S i) cur task s
  end.
Definition device_terminate (cur task : Z) (s : dst) : option dst := terminate_loop CONFIG_DEV_OPEN_MAX 0 cur task s.

Fixpoint broadcast_loop (l : list Z) (event : Z) (force : bool) (ret : Z) (s : dst) : option (Z * dst) :=
  match l with
  | [] => Some (ret, s)
  | a :: l =>
      d ← devs s !! a;
      match io_event (d_io d) with
      | None => broadcast_loop l event force ret s
      | Some op =>
          let '(err, w) := op event (d_world s) in
          let s := s <| d_world := w |> in
          if err =? 0 then broadcast_loop l event force ret s
          else if force then broadcast_loop l event force EIO s
          else Some (err, s)
      end
  end.
Definition device_broadcast (event : Z) (force : bool) (s : dst) : option (Z * dst) :=
  broadcast_loop (device_list s) event force 0 s.

(** The device number [cookie] of the list: its id, flags and name. *)
Definition device_info (cookie : Z) (s : dst) : option (Z * option (Z * Z * list Z)) :=
  match device_list s !! Z.to_nat cookie with
  | None => Some (ESRCH, None)
  | Some a => d ← devs s !! a; Some (0, Some (a, d_flags d, take (MAXDEVNAME - 1) (d_name d)))
  end.
End Device.
Arguments world : clear implicits.
Arguments devio : clear implicits.
Arguments device : clear implicits.
Arguments dst : clear implicits.
