(* ===== verification/DeviceSpec.v ===== *)
(** * DeviceSpec: reference counts of device objects

    The invariant [dev_ok] says that the reference count of every device object
    is the number of handles that refer to it, over all tasks, plus one while
    its driver has not destroyed it; an object exists exactly as long as that
    number is not zero.  Every system call keeps it and never follows a
    dangling pointer. *)
From stdpp Require Import base numbers gmap list sorting.
From S2P Require Import Prelude Core Kernel UserMem HeapSource Device.

Open Scope Z_scope.

Definition ind (b : bool) : Z := if b then 1 else 0.

(** ** driver_init *)
Section Init.
Definition has_init (lo hi : Z) (d : driver) : Prop := drv_init d = true /\ lo <= drv_order d < hi.
#[export] Instance has_init_dec lo hi d : Decision (has_init lo hi d).
Proof. unfold has_init. apply _. Defined.

Lemma driver_pass_ok order tbl : Forall (fun d => drv_order d < 16) tbl -> driver_pass order tbl = Some (filter (has_init order (order + 1)) tbl).
Proof.
  induction 1 as [|d tbl Hd HF IH]; [done|]. cbn [driver_pass]. rewrite (proj2 (Z.ltb_lt _ _) Hd), IH. cbn [negb mbind option_bind]. rewrite filter_cons. f_equal. destruct (decide (has_init order (order + 1) d)) as [[Hi Hr]|Hn].
  - by rewrite Hi, (proj2 (Z.eqb_eq (drv_order d) order)) by lia.
  - destruct (Z.eqb_spec (drv_order d) order), (drv_init d) eqn:Ei; cbn; try done. exfalso. apply Hn. split; [done|lia].
Qed.

Lemma has_init_split lo mid hi tbl : lo <= mid <= hi -> filter (has_init lo mid) tbl ++ filter (has_init mid hi) tbl ≡ₚ filter (has_init lo hi) tbl.
Proof.
  intros Hm. induction tbl as [|d tbl IH]; [done|]. rewrite !filter_cons. destruct (decide (has_init lo mid d)) as [H1|H1].
  - rewrite (decide_False (P := has_init mid hi d)) by (intros [_ ?]; destruct H1; lia). rewrite decide_True by (destruct H1; split; [done|lia]). cbn. by rewrite IH.
  - destruct (decide (has_init mid hi d)) as [H2|H2].
    + rewrite decide_True by (destruct H2; split; [done|lia]). by rewrite <- Permutation_middle, IH.
    + rewrite decide_False; [done|]. intros [Hi Hr]. destruct (decide (drv_order d < mid)); [apply H1|apply H2]; (split; [done|lia]).
Qed.

Lemma driver_orders_ok n order tbl : Forall (fun d => drv_order d < 16) tbl -> exists l, driver_orders n order tbl = Some l /\
  l ≡ₚ filter (has_init order (order + Z.of_nat n)) tbl /\ StronglySorted (fun x y => drv_order x <= drv_order y) l /\ Forall (fun d => order <= drv_order d) l.
Proof.
  intros HF. revert order. induction n as [|n IH]; intros order; cbn [driver_orders].
  - exists []. split; [done|]. split; [|split; constructor]. rewrite (filter_ext_in _ (fun _ => False)) by (intros d _; unfold has_init; lia). induction tbl as [|d tbl IHt]; [done|].
    apply Forall_cons in HF as [_ HF]. by apply IHt.
  - rewrite (driver_pass_ok order tbl HF). cbn [mbind option_bind]. destruct (IH (order + 1)) as (r&E&HP&HS&HO). rewrite E. cbn [mbind option_bind].
    eexists. split; [done|]. split; [|split].
    + rewrite HP, has_init_split by lia. by replace (order + 1 + Z.of_nat n) with (order + Z.of_nat (S n)) by lia.
    + apply StronglySorted_app_2; [| |done].
      * intros x y [[_ Hx] _]%list_elem_of_filter Hy. rewrite Forall_forall in HO. specialize (HO y Hy). lia.
      * clear -order. assert (forall l : list driver, Forall (fun d => drv_order d = order) l -> StronglySorted (fun x y => drv_order x <= drv_order y) l) as Hc.
        { induction 1 as [|d l Hd Hl IH]; [constructor|]. constructor; [done|]. apply (Forall_impl _ _ _ Hl). intros e He. lia. }
        apply Hc. apply Forall_forall. intros d [[_ Hd] _]%list_elem_of_filter. lia.
    + apply Forall_app. split; apply Forall_forall; [intros d [[_ Hd] _]%list_elem_of_filter; lia|]. intros d Hd. rewrite Forall_forall in HO. specialize (HO d Hd). lia.
Qed.

(** driver_init() calls the initialisation routine of every driver of the
    static table exactly once, in ascending order of the driver's order field. *)
Theorem driver_init_spec tbl : Forall (fun d => 0 <= drv_order d < 16) tbl -> exists l, driver_init tbl = Some l /\
  l ≡ₚ filter (fun d => drv_init d = true) tbl /\ StronglySorted (fun x y => drv_order x <= drv_order y) l.
Proof.
  intros HF. destruct (driver_orders_ok 16 0 tbl) as (l&E&HP&HS&_); [apply (Forall_impl _ _ _ HF); lia|]. exists l. split; [done|]. split; [|done]. rewrite HP.
  rewrite (filter_ext_in _ (fun d => drv_init d = true)); [done|]. intros d Hd. rewrite Forall_forall in HF. specialize (HF d Hd). unfold has_init. split; [tauto|]. intros ?. split; [done|lia].
Qed.

Lemma driver_init_spec_witness : exists l, driver_init [mk_driver [107] 5 true; mk_driver [114] 1 true] = Some l /\
  l ≡ₚ filter (fun d => drv_init d = true) [mk_driver [107] 5 true; mk_driver [114] 1 true] /\ StronglySorted (fun x y => drv_order x <= drv_order y) l.
Proof. apply (driver_init_spec [mk_driver [107] 5 true; mk_driver [114] 1 true]). repeat constructor; cbn; lia. Defined.
End Init.

(** ** Counting handles *)
Section Count.
Definition count (a : Z) (l : list file) : Z := Z.of_nat (length (filter (fun f => f_dev f = a) l)).
(** The handles of all tasks that refer to device [a]. *)
Definition opens (a : Z) (T : gmap Z dtask) : Z := map_fold (fun _ k n => count a (dt_file k) + n) 0 T.

Lemma count_cons a f l : count a (f :: l) = ind (bool_decide (f_dev f = a)) + count a l.
Proof. unfold count, ind. rewrite filter_cons. case_decide; case_bool_decide; done || cbn; lia. Qed.

Lemma count_nonneg a l : 0 <= count a l.
Proof. unfold count. lia. Qed.

Lemma count_insert a l i f g : l !! i = Some f ->
  count a (<[i := g]> l) = count a l - ind (bool_decide (f_dev f = a)) + ind (bool_decide (f_dev g = a)).
Proof.
  revert i. induction l as [|x l IH]; intros [|i] Hi; cbn in Hi; simplify_eq.
  - change (<[0%nat := g]> (f :: l)) with (g :: l). rewrite !count_cons. lia.
  - change (<[S i := g]> (x :: l)) with (x :: <[i := g]> l). rewrite !count_cons, (IH i Hi). lia.
Qed.

Lemma count_pos a l f : f ∈ l -> f_dev f = a -> 0 < count a l.
Proof.
  induction l as [|x l IH]; [by intros ?%elem_of_nil|]. rewrite count_cons. pose proof (count_nonneg a l). intros [->|Hin]%elem_of_cons Hf.
  - rewrite bool_decide_true by done. cbn. lia.
  - specialize (IH Hin Hf). unfold ind. case_bool_decide; lia.
Qed.

Lemma opens_insert_fresh a T t k : T !! t = None -> opens a (<[t := k]> T) = count a (dt_file k) + opens a T.
Proof. intros HT. unfold opens. rewrite map_fold_insert_L; [done| |done]. intros. lia. Qed.

Lemma opens_delete a T t k : T !! t = Some k -> opens a T = count a (dt_file k) + opens a (delete t T).
Proof. intros HT. rewrite <- (insert_delete_id T t k HT) at 1. by rewrite opens_insert_fresh by apply lookup_delete_eq. Qed.

Lemma opens_insert a T t k k' : T !! t = Some k -> opens a (<[t := k']> T) = opens a T - count a (dt_file k) + count a (dt_file k').
Proof.
  intros HT. rewrite (opens_delete a T t k HT). rewrite (opens_delete a (<[t := k']> T) t k') by apply lookup_insert_eq. rewrite delete_insert_eq. lia.
Qed.

Lemma opens_nonneg a T : 0 <= opens a T.
Proof.
  unfold opens. apply (map_fold_weak_ind (fun n _ => 0 <= n)); [done|]. intros i k m n _ Hn. pose proof (count_nonneg a (dt_file k)). lia.
Qed.

Lemma opens_pos T t k f : T !! t = Some k -> f ∈ dt_file k -> 0 < opens (f_dev f) T.
Proof.
  intros HT Hf. rewrite (opens_delete _ T t k HT). pose proof (opens_nonneg (f_dev f) (delete t T)). pose proof (count_pos (f_dev f) (dt_file k) f Hf eq_refl). lia.
Qed.

(** Putting [g] into slot [i] of a task. *)
Definition put_file (t : Z) (i : nat) (g : file) (k : dtask) (T : gmap Z dtask) : gmap Z dtask := <[t := k <| dt_file ::= <[i := g]> |>]> T.

Lemma opens_put a T t k i f g : T !! t = Some k -> dt_file k !! i = Some f ->
  opens a (put_file t i g k T) = opens a T - ind (bool_decide (f_dev f = a)) + ind (bool_decide (f_dev g = a)).
Proof. intros HT Hf. unfold put_file. rewrite (opens_insert a T t k) by done. cbn. rewrite (count_insert a _ i f g Hf). lia. Qed.
End Count.

(** ** Descriptors *)
Definition fd_of (i : nat) : Z := Z.lxor (Z.of_nat i) FD_MAGIC.

Lemma fd_index_of i : (i < CONFIG_DEV_OPEN_MAX)%nat -> fd_index (fd_of i) = Z.of_nat i.
Proof.
  unfold CONFIG_DEV_OPEN_MAX. intros Hi. unfold fd_index, fd_of. rewrite Z.lxor_assoc, Z.lxor_nilpotent, Z.lxor_0_r. apply u32_small. lia.
Qed.

Lemma fd_of_pos i : 0 <= fd_of i.
Proof. unfold fd_of. apply Z.lxor_nonneg. unfold FD_MAGIC. lia. Qed.

Lemma free_slot_ok l j i : free_slot j l = Some i -> (j <= i)%nat /\ (exists f, l !! (i - j)%nat = Some f /\ f_dev f = 0) /\
  (forall n f, (n < i - j)%nat -> l !! n = Some f -> f_dev f <> 0).
Proof.
  revert j. induction l as [|x l IH]; intros j; [done|]. cbn. destruct (Z.eqb_spec (f_dev x) 0) as [E|E].
  - intros [= <-]. rewrite Nat.sub_diag. split; [lia|]. split; [by exists x|]. intros n f Hn. lia.
  - intros (Hle&(f&Hf&Hz)&Hlow)%IH. split; [lia|]. replace (i - j)%nat with (S (i - S j)) by lia. split; [by exists f|].
    intros [|n] g Hn Hg; cbn in Hg; [by simplify_eq|]. eapply Hlow; [|done]. lia.
Qed.

Lemma free_slot_None l j f : free_slot j l = None -> f ∈ l -> f_dev f <> 0.
Proof.
  revert j. induction l as [|x l IH]; intros j; [by intros _ ?%elem_of_nil|]. cbn. destruct (Z.eqb_spec (f_dev x) 0); [done|]. intros HN [->|Hin]%elem_of_cons; [done|by eapply IH].
Qed.

Section Spec.
Context {K D : Type} `{HeapSourceLaws K}.
Implicit Types (s : dst K D) (alive S : gset Z).

Definition refs (a : Z) (T : gmap Z dtask) (alive : gset Z) : Z := opens a T + ind (bool_decide (a ∈ alive)).

Definition files_ok (T : gmap Z dtask) : Prop := forall t k, T !! t = Some k -> length (dt_file k) = CONFIG_DEV_OPEN_MAX.

Record dev_ok s alive S : Prop := {
  do_list : NoDup (device_list s);
  do_dom : forall a, a ∈ device_list s <-> is_Some (devs s !! a);
  do_dev : forall a d, devs s !! a = Some d -> a <> 0 /\ d_magic d = DEVICE_MAGIC /\ kern_area a = true /\ (0 < length (d_name d) < MAXDEVNAME)%nat;
  do_names : forall a b d e, devs s !! a = Some d -> devs s !! b = Some e -> d_name d = d_name e -> a = b;
  do_refs : forall a, a <> 0 -> match devs s !! a with Some d => d_refcnt d = refs a (dtasks s) alive /\ 0 < d_refcnt d | None => refs a (dtasks s) alive = 0 end;
  do_alive : 0 ∉ alive;
  do_files : files_ok (dtasks s);
  do_heap : hs_inv (d_heap s) S;
  do_sub : forall a, is_Some (devs s !! a) -> a ∈ S;
}.

Lemma refs_nonneg a T alive : 0 <= refs a T alive.
Proof. unfold refs, ind. pose proof (opens_nonneg a T). case_bool_decide; lia. Qed.

(** A handle in use refers to an object. *)
Lemma file_dev s alive S t k f : dev_ok s alive S -> dtasks s !! t = Some k -> f ∈ dt_file k -> f_dev f <> 0 -> exists d, devs s !! f_dev f = Some d.
Proof.
  intros HD HT Hf Hn. pose proof (do_refs _ _ _ HD _ Hn) as Hr. destruct (devs s !! f_dev f) as [d|]; [by exists d|]. unfold refs, ind in Hr.
  pose proof (opens_pos _ _ _ _ HT Hf). case_bool_decide; lia.
Qed.

Lemma device_valid_ok s alive S a d : dev_ok s alive S -> devs s !! a = Some d -> device_valid a s = true.
Proof. intros HD Hd. destruct (do_dev _ _ _ HD _ _ Hd) as (_&Hm&Hk&_). unfold device_valid. rewrite Hd, Hk. cbn. by rewrite Hm. Qed.

(** The state of the drivers and user memory is no concern of the invariant. *)
Lemma dev_ok_world s alive S w : dev_ok s alive S -> dev_ok (s <| d_world := w |>) alive S.
Proof. intros [H1 H2 H3 H4 H5 H6 H7 H8 H9]. by split. Qed.

(** ** Taking and dropping a reference

    [T'] and [alive'] are the handles and the devices not yet destroyed when the
    operation that changes the count is complete. *)
Lemma refcnt_set s alive S a d n T' alive' : dev_ok s alive S -> devs s !! a = Some d -> files_ok T' -> 0 ∉ alive' -> 0 < d_refcnt d + n ->
  (forall b, b <> 0 -> refs b T' alive' = refs b (dtasks s) alive + (if decide (a = b) then n else 0)) ->
  dev_ok (s <| devs ::= <[a := d <| d_refcnt ::= Z.add n |>]> |> <| dtasks := T' |>) alive' S.
Proof.
  intros HD Hd HT Ha Hpos HR. pose proof HD as [H1 H2 H3 H4 H5 H6 H7 H8 H9]. split; cbn; try done.
  - intros b. rewrite lookup_insert_is_Some', H2. split; [by right|]. intros [<-|]; [|done]. by eexists.
  - intros b e. rewrite lookup_insert. case_decide as Hb; [|by apply H3]. subst b. intros [= <-]. by apply (H3 a d).
  - intros b c e f. rewrite !lookup_insert. repeat case_decide; subst; intros E1 E2 En; simplify_eq; try done; cbn in En; by eapply H4.
  - intros b Hb. rewrite (HR b Hb), lookup_insert. specialize (H5 b Hb). case_decide as Hab; [subst b; rewrite Hd in H5; cbn; split; lia|]. rewrite Z.add_0_r. done.
  - intros b. rewrite lookup_insert_is_Some'. intros [<-|Hb]; apply H9; [by eexists|done].
Qed.

Lemma device_hold_ok s alive S a d T' alive' : dev_ok s alive S -> devs s !! a = Some d -> files_ok T' -> 0 ∉ alive' ->
  (forall b, b <> 0 -> refs b T' alive' = refs b (dtasks s) alive + (if decide (a = b) then 1 else 0)) ->
  exists s', device_hold a s = Some (0, s') /\ dtasks s' = dtasks s /\ d_world s' = d_world s /\ devs s' = <[a := d <| d_refcnt ::= Z.add 1 |>]> (devs s) /\
    device_list s' = device_list s /\ dev_ok (s' <| dtasks := T' |>) alive' S.
Proof.
  intros HD Hd HT Ha HR. unfold device_hold, upd_dev. rewrite (device_valid_ok _ _ _ _ _ HD Hd), Hd. cbn [mbind option_bind]. eexists. split; [done|]. cbn. split_and!; try done.
  - by rewrite <- Z.add_1_l.
  - pose proof (do_dev _ _ _ HD _ _ Hd) as [Hnz _]. pose proof (do_refs _ _ _ HD _ Hnz) as Hr. rewrite Hd in Hr.
    pose proof (refcnt_set s alive S a d 1 T' alive' HD Hd HT Ha ltac:(lia) HR) as HD'. rewrite <- Z.add_1_l. exact HD'.
Qed.

Lemma device_release_ok s alive S a d T' alive' : dev_ok s alive S -> devs s !! a = Some d -> files_ok T' -> 0 ∉ alive' ->
  (forall b, b <> 0 -> refs b T' alive' = refs b (dtasks s) alive + (if decide (a = b) then -1 else 0)) ->
  exists s' S', device_release a s = Some s' /\ dtasks s' = dtasks s /\ d_world s' = d_world s /\
    devs s' = (if d_refcnt d =? 1 then delete a (devs s) else <[a := d <| d_refcnt ::= Z.add (-1) |>]> (devs s)) /\
    dev_ok (s' <| dtasks := T' |>) alive' S'.
Proof.
  intros HD Hd HT Ha HR. destruct (do_dev _ _ _ HD _ _ Hd) as [Hnz _]. pose proof (do_refs _ _ _ HD _ Hnz) as Hr. rewrite Hd in Hr. unfold device_release, upd_dev.
  rewrite Hd. cbn [mbind option_bind]. cbn. rewrite lookup_insert_eq. cbn. destruct (Z.eqb_spec (d_refcnt d) 1) as [E1|E1].
  - rewrite E1. cbn. rewrite bool_decide_true by (apply (do_dom _ _ _ HD); by eexists).
    destruct (hs_free_ok (d_heap s) S a (do_heap _ _ _ HD)) as (k&Ek&HI); [apply (do_sub _ _ _ HD); by eexists|]. rewrite Ek. cbn [mbind option_bind].
    eexists _, (S ∖ {[a]}). split; [done|]. cbn. rewrite !delete_insert_eq. split_and!; try done. pose proof HD as [H1 H2 H3 H4 H5 H6 H7 H8 H9]. split; cbn; try done.
    + by apply NoDup_filter.
    + intros b. rewrite list_elem_of_filter, H2, lookup_delete_is_Some. naive_solver.
    + intros b e [_ He]%lookup_delete_Some. by apply H3.
    + intros b c e f [_ He]%lookup_delete_Some [_ Hf]%lookup_delete_Some. by apply H4.
    + intros b Hb. rewrite (HR b Hb). specialize (H5 b Hb). destruct (decide (a = b)) as [<-|Hne]; [rewrite lookup_delete_eq; rewrite Hd in H5; lia|].
      rewrite lookup_delete_ne, Z.add_0_r by done. done.
    + intros b [Hne Hb]%lookup_delete_is_Some. apply elem_of_difference. split; [by apply H9|]. rewrite elem_of_singleton. congruence.
  - destruct (Z.eqb_spec (Z.pred (d_refcnt d)) 0) as [|_]; [lia|]. eexists _, S. split; [done|]. cbn. split_and!; try done.
    + do 2 f_equal. by rewrite <- Z.sub_1_r, Z.add_comm.
    + pose proof (refcnt_set s alive S a d (-1) T' alive' HD Hd HT Ha ltac:(lia) HR) as HD'.
      replace (Z.pred (d_refcnt d)) with (-1 + d_refcnt d) by lia. exact HD'.
Qed.

(** ** Lookup *)
Lemma lookup_in_ok s name l : (forall a, a ∈ l -> a <> 0 /\ is_Some (devs s !! a)) -> exists a, lookup_in name l s = Some a /\
  ((a = 0 /\ forall b d, b ∈ l -> devs s !! b = Some d -> take MAXDEVNAME (d_name d) <> take MAXDEVNAME name) \/
   (a ∈ l /\ exists d, devs s !! a = Some d /\ take MAXDEVNAME (d_name d) = take MAXDEVNAME name)).
Proof.
  induction l as [|a l IH]; intros Hl; [exists 0; split; [done|]; left; split; [done|]; by intros b d ?%elem_of_nil|].
  destruct (Hl a) as [Hnz [d Hd]]; [by left|]. cbn [lookup_in]. rewrite Hd. cbn [mbind option_bind]. unfold same_devname. case_bool_decide as Hn.
  - exists a. split; [done|]. right. split; [by left|]. by exists d.
  - destruct IH as (x&E&Hx); [intros b Hb; apply Hl; by right|]. exists x. split; [done|]. destruct Hx as [[-> Hno]|[Hin Hd']]; [left|right; split; [by right|done]].
    split; [done|]. intros b e [->|Hb]%elem_of_cons He; [congruence|by apply (Hno b e)].
Qed.

Lemma device_lookup_ok s alive S name : dev_ok s alive S -> exists a, device_lookup name s = Some a /\
  ((a = 0 /\ forall b d, devs s !! b = Some d -> take MAXDEVNAME (d_name d) <> take MAXDEVNAME name) \/
   exists d, devs s !! a = Some d /\ take MAXDEVNAME (d_name d) = take MAXDEVNAME name).
Proof.
  intros HD. destruct (lookup_in_ok s name (device_list s)) as (a&E&Ha).
  { intros a Ha. apply (do_dom _ _ _ HD) in Ha as [d Hd]. split; [by apply (do_dev _ _ _ HD _ _ Hd)|by exists d]. }
  exists a. split; [done|]. destruct Ha as [[-> Hno]|[_ Hd]]; [left|by right]. split; [done|]. intros b d Hb. apply (Hno b d); [|done]. apply (do_dom _ _ _ HD). by exists d.
Qed.

(** The descriptor names no handle. *)
Definition free_fd (k : dtask) (fd : Z) : Prop := forall i f, Z.of_nat i = fd_index fd -> dt_file k !! i = Some f -> f_dev f = 0.

Lemma file_lookup_ok s alive S t k fd : dev_ok s alive S -> dtasks s !! t = Some k -> exists r, file_lookup t fd s = Some r /\
  ((r = None /\ free_fd k fd) \/ exists i f d, r = Some (i, f) /\ Z.of_nat i = fd_index fd /\ (i < CONFIG_DEV_OPEN_MAX)%nat /\ dt_file k !! i = Some f /\ f_dev f <> 0 /\ devs s !! f_dev f = Some d).
Proof.
  intros HD HT. unfold file_lookup. pose proof (u32_range (Z.lxor fd FD_MAGIC)) as Hr. fold (fd_index fd) in Hr.
  destruct (Z.leb_spec (Z.of_nat CONFIG_DEV_OPEN_MAX) (fd_index fd)) as [Hge|Hlt].
  { exists None. split; [done|]. left. split; [done|]. intros i f Hi Hf. apply lookup_lt_Some in Hf. rewrite (do_files _ _ _ HD t k HT) in Hf. lia. }
  rewrite HT. cbn [mbind option_bind]. destruct (lookup_lt_is_Some_2 (dt_file k) (Z.to_nat (fd_index fd))) as [f Hf]; [rewrite (do_files _ _ _ HD t k HT); lia|]. rewrite Hf. cbn [mbind option_bind].
  eexists. split; [done|]. destruct (Z.eqb_spec (f_dev f) 0) as [Hz|Hnz].
  { left. split; [done|]. intros i g Hi Hg. replace i with (Z.to_nat (fd_index fd)) in Hg by lia. congruence. }
  right.
  destruct (file_dev s alive S t k f HD HT) as [d Hd]; [by eapply list_elem_of_lookup_2|done|]. exists (Z.to_nat (fd_index fd)), f, d. split_and!; try done; lia.
Qed.

Lemma file_lookup_at s t k i f : dtasks s !! t = Some k -> dt_file k !! i = Some f -> f_dev f <> 0 -> (i < CONFIG_DEV_OPEN_MAX)%nat ->
  file_lookup t (fd_of i) s = Some (Some (i, f)).
Proof.
  intros HT Hf Hnz Hi. unfold file_lookup. rewrite fd_index_of by done. destruct (Z.leb_spec (Z.of_nat CONFIG_DEV_OPEN_MAX) (Z.of_nat i)); [lia|]. rewrite HT. cbn [mbind option_bind].
  rewrite Nat2Z.id, Hf. cbn [mbind option_bind]. by destruct (Z.eqb_spec (f_dev f) 0).
Qed.

Lemma files_ok_put T t k i g : files_ok T -> T !! t = Some k -> files_ok (put_file t i g k T).
Proof. intros HF HT u l. unfold put_file. rewrite lookup_insert. case_decide; [|by apply HF]. intros [= <-]. cbn. rewrite length_insert. by apply (HF t). Qed.

(** Closing slot [i]. *)
Lemma fd_free_ok s alive S t k i f d : dev_ok s alive S -> dtasks s !! t = Some k -> dt_file k !! i = Some f -> f_dev f <> 0 -> (i < CONFIG_DEV_OPEN_MAX)%nat ->
  devs s !! f_dev f = Some d ->
  exists s' S', fd_free t (fd_of i) s = Some (0, s') /\ dev_ok s' alive S' /\ d_world s' = d_world s /\ dtasks s' = put_file t i (f <| f_dev := 0 |>) k (dtasks s) /\
    devs s' = (if d_refcnt d =? 1 then delete (f_dev f) (devs s) else <[f_dev f := d <| d_refcnt ::= Z.add (-1) |>]> (devs s)).
Proof.
  intros HD HT Hf Hnz Hi Hd. unfold fd_free. rewrite (file_lookup_at s t k i f HT Hf Hnz Hi). cbn [mbind option_bind].
  destruct (device_release_ok s alive S (f_dev f) d (put_file t i (f <| f_dev := 0 |>) k (dtasks s)) alive HD Hd) as (s1&S1&E&Et&Ew&Ed&HD1).
  - apply files_ok_put; [apply HD|done].
  - apply HD.
  - intros b Hb. unfold refs. rewrite (opens_put b _ t k i f _ HT Hf). cbn. rewrite (bool_decide_false (0 = b)) by done. unfold ind. case_decide; case_bool_decide; try done; lia.
  - rewrite E. cbn [mbind option_bind]. unfold upd_file. rewrite Et, HT. cbn [mbind option_bind]. rewrite Hf. cbn [mbind option_bind]. eexists _, S1. split; [done|]. cbn. rewrite Et. split_and!; done.
Qed.

(** The lowest free slot of the task is [i]. *)
Definition lowest_free (k : dtask) (i : nat) : Prop :=
  (exists f, dt_file k !! i = Some f /\ f_dev f = 0) /\ forall n f, (n < i)%nat -> dt_file k !! n = Some f -> f_dev f <> 0.

Definition no_device s (name : list Z) : Prop := forall b d, devs s !! b = Some d -> take MAXDEVNAME (d_name d) <> take MAXDEVNAME name.

Lemma fd_alloc_ok s alive S t k name : dev_ok s alive S -> dtasks s !! t = Some k ->
  (exists r, fd_alloc t name s = Some (r, s) /\
     ((r = - EMFILE /\ forall f, f ∈ dt_file k -> f_dev f <> 0) \/ (r = - ENXIO /\ no_device s name /\ exists i, lowest_free k i))) \/
  exists i a d s', fd_alloc t name s = Some (fd_of i, s') /\ (i < CONFIG_DEV_OPEN_MAX)%nat /\ lowest_free k i /\ devs s !! a = Some d /\
    take MAXDEVNAME (d_name d) = take MAXDEVNAME name /\ dev_ok s' alive S /\ d_world s' = d_world s /\
    dtasks s' = put_file t i (mk_file a (d_info d) 0) k (dtasks s) /\ devs s' = <[a := d <| d_refcnt ::= Z.add 1 |>]> (devs s).
Proof.
  intros HD HT. unfold fd_alloc. rewrite HT. cbn [mbind option_bind]. destruct (free_slot 0 (dt_file k)) as [i|] eqn:Es.
  - destruct (free_slot_ok _ _ _ Es) as (_&(f&Hf&Hz)&Hlow). rewrite Nat.sub_0_r in *. assert (lowest_free k i) as HL by (split; [by exists f|done]).
    assert (i < CONFIG_DEV_OPEN_MAX)%nat as Hi by (rewrite <- (do_files _ _ _ HD t k HT); by eapply lookup_lt_Some).
    destruct (device_lookup_ok s alive S name HD) as (a&Ea&Ha). rewrite Ea. cbn [mbind option_bind]. destruct Ha as [[-> Hno]|(d&Hd&Hn)].
    { left. exists (- ENXIO). split; [done|]. right. split; [done|]. split; [done|by exists i]. }
    right. destruct (do_dev _ _ _ HD _ _ Hd) as (Hnz&_). rewrite (proj2 (Z.eqb_neq a 0) Hnz).
    destruct (device_hold_ok s alive S a d (put_file t i (mk_file a (d_info d) 0) k (dtasks s)) alive HD Hd) as (s1&E&Et&Ew&Ed&_&HD1).
    + apply files_ok_put; [apply HD|done].
    + apply HD.
    + intros b Hb. unfold refs. rewrite (opens_put b _ t k i f _ HT Hf). cbn. rewrite Hz, (bool_decide_false (0 = b)) by done. unfold ind. case_decide; case_bool_decide; try done; lia.
    + rewrite E. cbn [mbind option_bind]. rewrite Ed, lookup_insert_eq. cbn [mbind option_bind]. unfold upd_file. rewrite Et, HT. cbn [mbind option_bind]. rewrite Hf. cbn [mbind option_bind].
      eexists i, a, d, _. split; [done|]. cbn. rewrite Et. split; [done|]. split; [done|]. split; [done|]. split; [done|]. split; [exact HD1|]. done.
  - left. exists (- EMFILE). split; [done|]. left. split; [done|]. intros f Hf. by eapply free_slot_None.
Qed.

(** ** The calls keep the invariant *)
Lemma dev_copyout_ok s alive S t k a bs : dev_ok s alive S -> dtasks s !! t = Some k -> exists ok s', dev_copyout t a bs s = Some (ok, s') /\ dev_ok s' alive S /\
  devs s' = devs s /\ dtasks s' = dtasks s.
Proof.
  intros HD HT. unfold dev_copyout, dev_map. rewrite HT. cbn [mbind option_bind]. destruct (umem_ok a _); [|by exists false, s].
  destruct (uwrite _ _ _ _) as [ok M]. eexists _, _. split; [done|]. split; [apply (dev_ok_world s alive S _ HD)|done].
Qed.

(** A routine of a driver may have run, or none. *)
Lemma world_step s alive S (r : Z * dst K D) : dev_ok s alive S -> (exists e w, r = (e, s <| d_world := w |>)) \/ r = (0, s) ->
  dev_ok r.2 alive S /\ devs r.2 = devs s /\ dtasks r.2 = dtasks s.
Proof. intros HD [(e&w&->)| ->]; cbn; [|done]. split; [by apply dev_ok_world|done]. Qed.

Lemma device_close_ok s alive S t k fd : dev_ok s alive S -> dtasks s !! t = Some k -> exists r s' S', device_close t fd s = Some (r, s') /\ dev_ok s' alive S' /\
  ((r = EBADF /\ s' = s /\ free_fd k fd) \/ exists i f d, Z.of_nat i = fd_index fd /\ dt_file k !! i = Some f /\ f_dev f <> 0 /\ devs s !! f_dev f = Some d /\
     dtasks s' = put_file t i (f <| f_dev := 0 |>) k (dtasks s) /\
     devs s' = (if d_refcnt d =? 1 then delete (f_dev f) (devs s) else <[f_dev f := d <| d_refcnt ::= Z.add (-1) |>]> (devs s))).
Proof.
  intros HD HT. unfold device_close. rewrite HT. cbn [mbind option_bind]. destruct (file_lookup_ok s alive S t k fd HD HT) as (r&E&Hr). rewrite E. cbn [mbind option_bind].
  destruct Hr as [[-> Hfr]|(i&f&d&->&Hi&Hlt&Hf&Hnz&Hd)]; [exists EBADF, s, S; split; [done|]; split; [done|by left]|]. rewrite Hd. cbn [mbind option_bind].
  match goal with |- context [match io_close (d_io d) with Some _ => _ | None => _ end] => set (p := match io_close (d_io d) with Some _ => _ | None => _ end) end.
  destruct (world_step s alive S p HD) as (HD1&Ed1&Et1).
  { unfold p. destruct (io_close (d_io d)) as [op|]; [|by right]. left. destruct (op (dt_map k) f (d_world s)) as [e w]. by exists e, w. }
  destruct p as [e s1]. cbn in HD1, Ed1, Et1. rewrite <- Et1 in HT. rewrite <- Ed1 in Hd.
  destruct (fd_free_ok s1 alive S t k i f d HD1 HT Hf Hnz Hlt Hd) as (s2&S2&E2&HD2&_&Et2&Ed2).
  assert (fd_free t fd s1 = fd_free t (fd_of i) s1) as -> by (unfold fd_free, file_lookup; by rewrite fd_index_of, Hi by done).
  rewrite E2. cbn [mbind option_bind]. exists e, s2, S2. split; [done|]. split; [done|]. right. exists i, f, d. rewrite Et2, Ed2, Et1, Ed1. split_and!; try done. by rewrite <- Ed1.
Qed.

(** Changing the flags of the handle that has just been put into a slot. *)
Lemma upd_file_put s t k i g f T : dtasks s = put_file t i g k T -> (i < length (dt_file k))%nat ->
  upd_file t i f s = Some (s <| dtasks := put_file t i (f g) k T |>).
Proof.
  intros E Hi. unfold upd_file. rewrite E. unfold put_file at 1. rewrite lookup_insert_eq. cbn [mbind option_bind]. cbn. rewrite list_lookup_insert_eq by done. cbn [mbind option_bind].
  f_equal. destruct s. cbn in *. subst. f_equal. unfold put_file. rewrite insert_insert_eq. cbn. by rewrite list_insert_insert_eq.
Qed.

Lemma dev_ok_flags s alive S t k i g g' T : dev_ok s alive S -> T !! t = Some k -> (i < length (dt_file k))%nat -> dtasks s = put_file t i g k T -> f_dev g' = f_dev g ->
  dev_ok (s <| dtasks := put_file t i g' k T |>) alive S.
Proof.
  intros [H1 H2 H3 H4 H5 H6 H7 H8 H9] HT Hi E Eg. destruct (lookup_lt_is_Some_2 _ _ Hi) as [f Hf]. split; try done; cbn.
  - intros a Ha. specialize (H5 a Ha). rewrite E in H5. unfold refs in *. rewrite (opens_put a T t k i f g HT Hf) in H5. rewrite (opens_put a T t k i f g' HT Hf), Eg. done.
  - intros u l Hl. unfold put_file in *. rewrite E in H7. rewrite lookup_insert in Hl. case_decide; [|apply (H7 u l); by rewrite lookup_insert_ne].
    simplify_eq. specialize (H7 u (k <| dt_file ::= <[i := g]> |>) ltac:(apply lookup_insert_eq)). cbn in *. by rewrite length_insert in *.
Qed.

(** How device_open() can end. *)
Inductive open_result s alive S (t : Z) (k : dtask) (flags : Z) : Z -> dst K D -> Prop :=
| open_refused r s' : r <> 0 -> devs s' = devs s -> dtasks s' = dtasks s -> open_result s alive S t k flags r s'
| open_failed r s' i g : r <> 0 -> devs s' = devs s -> lowest_free k i -> f_dev g = 0 -> dtasks s' = put_file t i g k (dtasks s) -> open_result s alive S t k flags r s'
| open_done r s' i a d : r = 0 \/ r = EFAULT -> lowest_free k i -> (i < CONFIG_DEV_OPEN_MAX)%nat -> devs s !! a = Some d -> devs s' = <[a := d <| d_refcnt ::= Z.add 1 |>]> (devs s) ->
    dtasks s' = put_file t i (mk_file a (d_info d) flags) k (dtasks s) -> open_result s alive S t k flags r s'.

(** The end of device_open(), once a descriptor has been allocated. *)
Lemma open_tail_ok s alive S t k flags fdp i a d s1 : dev_ok s alive S -> dtasks s !! t = Some k -> (i < CONFIG_DEV_OPEN_MAX)%nat -> lowest_free k i -> devs s !! a = Some d ->
  dev_ok s1 alive S -> dtasks s1 = put_file t i (mk_file a (d_info d) 0) k (dtasks s) -> devs s1 = <[a := d <| d_refcnt ::= Z.add 1 |>]> (devs s) ->
  exists r s' S', device_open_fd t (fd_of i) flags fdp s1 = Some (r, s') /\ dev_ok s' alive S' /\ open_result s alive S t k flags r s'.
Proof.
  intros HD HT Hi HL Hd HD1 Et1 Ed1. destruct (do_dev _ _ _ HD _ _ Hd) as [Hnz _]. assert (i < length (dt_file k))%nat as Hi' by (by rewrite (do_files _ _ _ HD t k HT)).
  set (k1 := k <| dt_file ::= <[i := mk_file a (d_info d) 0]> |>). assert (dtasks s1 !! t = Some k1) as Hk1 by (rewrite Et1; apply lookup_insert_eq).
  unfold device_open_fd. rewrite Hk1. cbn [mbind option_bind]. rewrite (file_lookup_at s1 t k1 i (mk_file a (d_info d) 0)); [|done|cbn; by apply list_lookup_insert_eq|done|done]. cbn [mbind option_bind fst snd f_dev].
  rewrite (upd_file_put s1 t k i _ _ _ Et1 Hi'). cbn [mbind option_bind].
  set (g := mk_file a (d_info d) 0 <| f_flags := flags |>). set (s2 := s1 <| dtasks := put_file t i g k (dtasks s) |>).
  assert (dev_ok s2 alive S) as HD2 by (by eapply (dev_ok_flags s1 _ _ _ _ _ (mk_file a (d_info d) 0))). change (devs s2) with (devs s1). rewrite Ed1, lookup_insert_eq. cbn [mbind option_bind].
  cbn zeta. match goal with |- context [match io_open ?x with Some _ => _ | None => _ end] => set (p := match io_open x with Some _ => _ | None => _ end) end.
  destruct (world_step s2 alive S p HD2) as (HD3&Ed3&Et3).
  { unfold p. destruct (io_open _) as [op|]; [|by right]. left. destruct (op (dt_map k1) _ (d_world _)) as [e w]. by exists e, w. }
  destruct p as [e s3]. cbn in HD3, Ed3, Et3. set (k2 := k <| dt_file ::= <[i := g]> |>). assert (dtasks s3 !! t = Some k2) as Hk2 by (rewrite Et3; apply lookup_insert_eq).
  destruct (Z.eqb_spec e 0) as [->|He].
  - destruct (dev_copyout_ok s3 alive S t k2 fdp (bytes_of_word (u32 (fd_of i))) HD3 Hk2) as (ok&s4&E4&HD4&Ed4&Et4). rewrite E4. cbn [mbind option_bind].
    eexists _, s4, S. split; [done|]. split; [done|]. eapply (open_done _ _ _ _ _ _ _ _ i a d); [by destruct ok; [left|right]|done|done|done|by rewrite Ed4, Ed3|by rewrite Et4, Et3].
  - destruct (fd_free_ok s3 alive S t k2 i g (d <| d_refcnt ::= Z.add 1 |>) HD3 Hk2) as (s4&S4&E4&HD4&_&Et4&Ed4);
      [cbn; by apply list_lookup_insert_eq|done|done|rewrite Ed3, Ed1; apply lookup_insert_eq|]. rewrite E4. cbn [mbind option_bind snd]. eexists _, s4, S4. split; [done|]. split; [done|].
    eapply (open_failed _ _ _ _ _ _ _ _ i (g <| f_dev := 0 |>)); [done| |done|done|].
    + rewrite Ed4. pose proof (do_refs _ _ _ HD _ Hnz) as Hr. rewrite Hd in Hr. cbn. destruct (Z.eqb_spec (1 + d_refcnt d) 1); [lia|]. rewrite Ed3, Ed1, insert_insert_eq.
      apply insert_id. rewrite Hd. f_equal. destruct d. cbn. f_equal. lia.
    + rewrite Et4, Et3. unfold put_file. rewrite insert_insert_eq. cbn. by rewrite list_insert_insert_eq.
Qed.

Lemma device_open_ok s alive S t k name flags fdp : dev_ok s alive S -> dtasks s !! t = Some k ->
  exists r s' S', device_open t name flags fdp s = Some (r, s') /\ dev_ok s' alive S' /\ open_result s alive S t k flags r s'.
Proof.
  intros HD HT. assert (forall r, r <> 0 -> exists r0 s' S', Some (r, s) = Some (r0, s') /\ dev_ok s' alive S' /\ open_result s alive S t k flags r0 s') as Hrej.
  { intros r Hr. exists r, s, S. split; [done|]. split; [done|]. by apply open_refused. }
  unfold device_open. rewrite HT. cbn [mbind option_bind]. destruct (flag _ _); cbn [negb]; [|by apply Hrej]. unfold dev_strnlen, dev_copyin, dev_map. rewrite HT. cbn [mbind option_bind].
  destruct (if UMEM_MAX <=? name then _ else _) as [l|]; [|by apply Hrej]. destruct (l =? 0); [by apply Hrej|]. destruct (_ <=? l); [by apply Hrej|].
  destruct (if umem_ok _ _ then _ else _) as [bs|]; [|by apply Hrej].
  destruct (fd_alloc_ok s alive S t k (default bs (cstr bs)) HD HT) as [(r&E&Hr)|(i&a&d&s1&E&Hi&HL&Hd&_&HD1&_&Et1&Ed1)]; rewrite E; cbn [mbind option_bind].
  - assert (r = - EMFILE \/ r = - ENXIO) as [->| ->] by tauto; cbn; by apply Hrej.
  - pose proof (fd_of_pos i). destruct (Z.ltb_spec (fd_of i) 0); [lia|]. by eapply open_tail_ok.
Qed.

Lemma device_rw_ok sel s alive S t k fd buf nbyte blkno : dev_ok s alive S -> dtasks s !! t = Some k ->
  exists r s', device_rw sel t fd buf nbyte blkno s = Some (r, s') /\ dev_ok s' alive S /\ devs s' = devs s /\ dtasks s' = dtasks s.
Proof.
  intros HD HT. unfold device_rw. rewrite HT. cbn [mbind option_bind]. destruct (file_lookup_ok s alive S t k fd HD HT) as (r&E&Hr). rewrite E. cbn [mbind option_bind].
  destruct Hr as [[-> _]|(i&f&d&->&_&_&_&_&Hd)]; [by exists EBADF, s|]. rewrite Hd. cbn [mbind option_bind]. destruct (sel (d_io d)) as [op|]; [|by exists EIO, s].
  unfold dev_copyin, dev_map. rewrite HT. cbn [mbind option_bind]. destruct (if umem_ok _ _ then _ else _) as [bs|]; [|by exists EFAULT, s].
  destruct (op _ _ _ _ _ _) as [[e c] w]. set (s1 := s <| d_world := w |>). assert (dev_ok s1 alive S) as HD1 by (by apply dev_ok_world).
  destruct (e =? 0); [|by exists e, s1]. destruct (dev_copyout_ok s1 alive S t k nbyte (bytes_of_word c) HD1 HT) as (ok&s2&E2&HD2&Ed2&Et2). rewrite E2. cbn [mbind option_bind].
  eexists _, s2. split; [done|]. split; [done|]. by rewrite Ed2, Et2.
Qed.

Lemma device_ioctl_ok s alive S t k fd cmd arg : dev_ok s alive S -> dtasks s !! t = Some k ->
  exists r s', device_ioctl t fd cmd arg s = Some (r, s') /\ dev_ok s' alive S /\ devs s' = devs s /\ dtasks s' = dtasks s.
Proof.
  intros HD HT. unfold device_ioctl. rewrite HT. cbn [mbind option_bind]. destruct (file_lookup_ok s alive S t k fd HD HT) as (r&E&Hr). rewrite E. cbn [mbind option_bind].
  destruct Hr as [[-> _]|(i&f&d&->&_&_&_&_&Hd)]; [by exists EBADF, s|]. rewrite Hd. cbn [mbind option_bind]. destruct (io_ioctl (d_io d)) as [op|]; [|by exists EIO, s].
  destruct (op _ _ _ _ _) as [e w]. eexists _, _. split; [done|]. split; [by apply dev_ok_world|done].
Qed.

Lemma broadcast_loop_ok l event force ret s alive S : dev_ok s alive S -> (forall a, a ∈ l -> is_Some (devs s !! a)) ->
  exists r s', broadcast_loop l event force ret s = Some (r, s') /\ dev_ok s' alive S /\ devs s' = devs s /\ dtasks s' = dtasks s.
Proof.
  revert ret s. induction l as [|a l IH]; intros ret s HD Hl; [by exists ret, s|]. cbn [broadcast_loop]. destruct (Hl a) as [d Hd]; [by left|]. rewrite Hd. cbn [mbind option_bind].
  assert (forall b, b ∈ l -> is_Some (devs s !! b)) as Hl' by (intros b Hb; apply Hl; by right).
  destruct (io_event (d_io d)) as [op|]; [|by apply IH]. destruct (op event (d_world s)) as [e w]. set (s1 := s <| d_world := w |>). assert (dev_ok s1 alive S) as HD1 by (by apply dev_ok_world).
  destruct (e =? 0); [by apply (IH ret s1)|]. destruct force; [by apply (IH EIO s1)|by exists e, s1].
Qed.

(** ** Creating and destroying devices *)
Lemma device_create_ok (heap_kern : forall k S a, hs_inv k S -> a ∈ S -> kern_area a = true) io name flags info s alive S : dev_ok s alive S -> exists r s' S', device_create io name flags info s = Some (r, s') /\
  ((r = 0 /\ devs s' = devs s /\ dev_ok s' alive S') \/
   (r <> 0 /\ devs s !! r = None /\ no_device s name /\ (0 < length name < MAXDEVNAME)%nat /\
    devs s' = <[r := mk_device DEVICE_MAGIC 1 flags io info name]> (devs s) /\ dev_ok s' ({[r]} ∪ alive) S')) /\ dtasks s' = dtasks s.
Proof.
  intros HD. unfold device_create. destruct ((_ =? 0)%nat || _) eqn:El; [exists 0, s, S; split; [done|]; split; [by left|done]|].
  apply orb_false_elim in El as [E1%Nat.eqb_neq E2%Nat.leb_gt]. assert (0 < length name < MAXDEVNAME)%nat as Hlen by lia.
  replace (MAXDEVNAME `min` length name)%nat with (length name) by lia. rewrite firstn_all. destruct (device_lookup_ok s alive S name HD) as (o&Eo&Ho). rewrite Eo. cbn [mbind option_bind].
  destruct Ho as [[-> Hno]|(d&Hd&_)]; [|destruct (do_dev _ _ _ HD _ _ Hd) as [Hnz _]; rewrite (proj2 (Z.eqb_neq o 0) Hnz); exists 0, s, S; split; [done|]; split; [by left|done]].
  cbn [Z.eqb negb]. destruct (hs_alloc_ok (d_heap s) S SIZEOF_DEVICE (do_heap _ _ _ HD)) as (r&k&Ek&Hk); [unfold SIZEOF_DEVICE; lia|]. rewrite Ek. cbn [mbind option_bind].
  pose proof HD as [H1 H2 H3 H4 H5 H6 H7 H8 H9]. destruct Hk as [[-> HI]|(Hr&Hni&HI)].
  - exists 0. eexists _, S. split; [done|]. split; [left; split; [done|]; split; [done|]; by split|done].
  - rewrite (proj2 (Z.eqb_neq r 0) Hr). assert (devs s !! r = None) as Hnone by (apply eq_None_not_Some; intros Hs; by apply Hni, H9).
    exists r. eexists _, ({[r]} ∪ S). split; [done|]. split; [right|done]. split_and!; try done; try lia. split; cbn; try done.
    + apply NoDup_cons. split; [|done]. rewrite H2, Hnone. by intros [].
    + intros b. rewrite elem_of_cons, lookup_insert_is_Some', H2. naive_solver.
    + intros b e. rewrite lookup_insert. case_decide as Hb; [|by apply H3]. subst b. intros [= <-]. split_and!; cbn; try done; try lia. apply (heap_kern k ({[r]} ∪ S)); [done|set_solver].
    + intros b c e f Hb Hc En. apply lookup_insert_Some in Hb as [[<- <-]|[_ Hb]]; apply lookup_insert_Some in Hc as [[<- <-]|[_ Hc]]; cbn in En; [done|..|by apply (H4 b c e f)].
      * exfalso. apply (Hno c f Hc). by rewrite <- En.
      * exfalso. apply (Hno b e Hb). by rewrite En.
    + intros b Hb. rewrite lookup_insert. specialize (H5 b Hb). unfold refs, ind in *. destruct (decide (r = b)) as [<-|Hne].
      * rewrite Hnone in H5. cbn. rewrite (bool_decide_true (r ∈ {[r]} ∪ alive)) by set_solver. pose proof (opens_nonneg r (dtasks s)). case_bool_decide; lia.
      * rewrite (bool_decide_ext (b ∈ {[r]} ∪ alive) (b ∈ alive)) by set_solver. done.
    + set_solver.
    + intros b. rewrite lookup_insert_is_Some'. intros [<-|Hb]; [set_solver|]. apply elem_of_union_r. by apply H9.
Qed.

Lemma device_destroy_ok s alive S a : dev_ok s alive S -> a ∈ alive -> exists s' S' d, device_destroy a s = Some (0, s') /\ devs s !! a = Some d /\
  dev_ok s' (alive ∖ {[a]}) S' /\ dtasks s' = dtasks s /\ devs s' = (if d_refcnt d =? 1 then delete a (devs s) else <[a := d <| d_refcnt ::= Z.add (-1) |>]> (devs s)).
Proof.
  intros HD Ha. assert (a <> 0) as Hnz by (intros ->; by apply (do_alive _ _ _ HD)). pose proof (do_refs _ _ _ HD a Hnz) as Hr.
  destruct (devs s !! a) as [d|] eqn:Hd; [|unfold refs, ind in Hr; rewrite bool_decide_true in Hr by done; pose proof (opens_nonneg a (dtasks s)); lia].
  unfold device_destroy. rewrite (device_valid_ok _ _ _ _ _ HD Hd). destruct (device_release_ok s alive S a d (dtasks s) (alive ∖ {[a]}) HD Hd) as (s'&S'&E&Et&_&Ed&HD').
  - apply HD.
  - pose proof (do_alive _ _ _ HD). set_solver.
  - intros b Hb. unfold refs, ind. destruct (decide (a = b)) as [<-|Hne]; [rewrite bool_decide_false, (bool_decide_true (a ∈ alive)) by set_solver; lia|].
    rewrite (bool_decide_ext (b ∈ alive ∖ {[a]}) (b ∈ alive)) by set_solver. lia.
  - rewrite E. cbn [mbind option_bind]. exists s', S', d. split_and!; try done. rewrite <- Et in HD'. by destruct s'.
Qed.
End Spec.
