(* ===== verification/DeviceRun.v ===== *)
(** * DeviceRun: executions of the device layer

    Sequences of calls by drivers and tasks as a step relation, and what holds
    in every state they reach; the life of a handle and of a device object. *)
From stdpp Require Import base numbers gmap list.
From S2P Require Import Prelude Core Kernel UserMem HeapSource Device DeviceSpec.

Open Scope Z_scope.

Section Run.
Context {K D : Type} `{HeapSourceLaws K}.
(** kmem_alloc() returns addresses of the kernel. *)
Context (heap_kern : forall k S a, hs_inv k S -> a ∈ S -> kern_area a = true).
Implicit Types (s : dst K D) (alive S : gset Z).

(** ** device_terminate *)
Lemma terminate_loop_ok n i cur task s alive S k0 k : dev_ok s alive S -> (i + n = CONFIG_DEV_OPEN_MAX)%nat -> dtasks s !! cur = Some k0 -> dtasks s !! task = Some k ->
  exists s' S', terminate_loop n i cur task s = Some s' /\ dev_ok s' alive S' /\ (exists k1, dtasks s' !! cur = Some k1 /\
    (forall j, (j < i)%nat -> dt_file k1 !! j = dt_file k0 !! j) /\
    (forall j f, (i <= j)%nat -> dt_file k1 !! j = Some f -> f_dev f <> 0 -> cur <> task /\ forall g, dt_file k !! j = Some g -> f_dev g = 0)) /\
    (forall u, u <> cur -> dtasks s' !! u = dtasks s !! u).
Proof.
  revert i s S k0 k. induction n as [|n IH]; intros i s S k0 k HD Hn Hcur Hk; cbn [terminate_loop].
  - exists s, S. split; [done|]. split; [done|]. split; [|done]. exists k0. split; [done|]. split; [done|]. intros j f Hj Hf _. apply lookup_lt_Some in Hf.
    rewrite (do_files _ _ _ HD _ _ Hcur) in Hf. lia.
  - rewrite Hk. cbn [mbind option_bind]. destruct (lookup_lt_is_Some_2 (dt_file k) i) as [f Hf]; [rewrite (do_files _ _ _ HD _ _ Hk); lia|]. rewrite Hf. cbn [mbind option_bind].
    assert (exists s1 S1 k1, (if f_dev f =? 0 then Some s else r ← device_close cur (Z.lxor (Z.of_nat i) FD_MAGIC) s; Some (snd r)) = Some s1 /\ dev_ok s1 alive S1 /\
      dtasks s1 !! cur = Some k1 /\ (forall j, j <> i -> dt_file k1 !! j = dt_file k0 !! j) /\ (forall g, dt_file k1 !! i = Some g -> f_dev g <> 0 -> cur <> task /\ f_dev f = 0) /\
      (forall u, u <> cur -> dtasks s1 !! u = dtasks s !! u)) as (s1&S1&k1&E1&HD1&Hc1&Hj1&Hi1&Hu1).
    { destruct (Z.eqb_spec (f_dev f) 0) as [Hz|Hnz].
      { exists s, S, k0. split_and!; try done. intros g Hg Hgn. split; [|done]. intros ->. congruence. }
      destruct (device_close_ok s alive S cur k0 (fd_of i) HD Hcur) as (r&s1&S1&E&HD1&Hr). unfold fd_of in E. rewrite E. cbn [mbind option_bind snd]. exists s1, S1.
      destruct Hr as [(_&->&Hfr)|(i'&g&d&Hi'&Hg&Hgn&_&Et&_)].
      - exists k0. split_and!; try done. intros g Hg Hgn. destruct Hgn. by apply (Hfr i); [rewrite fd_index_of by lia|].
      - assert (i' = i) as -> by (rewrite fd_index_of in Hi' by lia; lia). exists (k0 <| dt_file ::= <[i := g <| f_dev := 0 |>]> |>). rewrite Et. split_and!; try done.
        + apply lookup_insert_eq.
        + intros j Hj. cbn. by rewrite list_lookup_insert_ne.
        + cbn. intros x. rewrite list_lookup_insert_eq by (by eapply lookup_lt_Some). by intros [= <-].
        + intros u Hu. unfold put_file. by rewrite lookup_insert_ne. }
    rewrite E1. cbn [mbind option_bind]. assert (exists k', dtasks s1 !! task = Some k' /\ (cur <> task -> k' = k)) as (k'&Hk'&Ek').
    { destruct (decide (task = cur)) as [->|Hne]; [by exists k1|]. exists k. by rewrite Hu1. }
    destruct (IH (Datatypes.S i) s1 S1 k1 k' HD1) as (s2&S2&E2&HD2&(k2&Hc2&Hj2&Hg2)&Hu2); [lia|done|done|].
    exists s2, S2. split; [done|]. split; [done|]. split; [|intros u Hu; by rewrite Hu2, Hu1]. exists k2. split; [done|]. split.
    + intros j Hj. rewrite Hj2, Hj1 by lia. done.
    + intros j g Hj Hg Hgn. destruct (decide (j = i)) as [->|Hne].
      * rewrite Hj2 in Hg by lia. destruct (Hi1 g Hg Hgn) as [Hct Hz]. split; [done|]. intros h Hh. congruence.
      * destruct (Hg2 j g) as [Hct Hz]; [lia|done|done|]. split; [done|]. by rewrite (Ek' Hct) in Hz.
Qed.

(** ** Executions *)
Definition free_files : list file := replicate CONFIG_DEV_OPEN_MAX (mk_file 0 0 0).

(** The second component holds the devices that have been created and not yet
    destroyed: a driver destroys a device once.  A task that is terminated by
    another one keeps its handles: device_terminate() has closed those of the
    caller in the same slots.  The handles that are lost in this way stay in
    [dtasks], under a key that no task has; the third component holds these
    keys. *)
Inductive dstep : dst K D * gset Z * gset Z -> dst K D * gset Z * gset Z -> Prop :=
| ds_create io name flags info r s s' alive gone : device_create io name flags info s = Some (r, s') ->
    dstep (s, alive, gone) (s', if r =? 0 then alive else {[r]} ∪ alive, gone)
| ds_destroy a r s s' alive gone : a ∈ alive -> device_destroy a s = Some (r, s') -> dstep (s, alive, gone) (s', alive ∖ {[a]}, gone)
| ds_destroy_invalid a r s s' alive gone : devs s !! a = None -> device_destroy a s = Some (r, s') -> dstep (s, alive, gone) (s', alive, gone)
| ds_open t k name flags fdp r s s' alive gone : t ∉ gone -> dtasks s !! t = Some k -> device_open t name flags fdp s = Some (r, s') -> dstep (s, alive, gone) (s', alive, gone)
| ds_close t k fd r s s' alive gone : t ∉ gone -> dtasks s !! t = Some k -> device_close t fd s = Some (r, s') -> dstep (s, alive, gone) (s', alive, gone)
| ds_read t k fd buf n blk r s s' alive gone : t ∉ gone -> dtasks s !! t = Some k -> device_read t fd buf n blk s = Some (r, s') -> dstep (s, alive, gone) (s', alive, gone)
| ds_write t k fd buf n blk r s s' alive gone : t ∉ gone -> dtasks s !! t = Some k -> device_write t fd buf n blk s = Some (r, s') -> dstep (s, alive, gone) (s', alive, gone)
| ds_ioctl t k fd cmd arg r s s' alive gone : t ∉ gone -> dtasks s !! t = Some k -> device_ioctl t fd cmd arg s = Some (r, s') -> dstep (s, alive, gone) (s', alive, gone)
| ds_broadcast event force r s s' alive gone : device_broadcast event force s = Some (r, s') -> dstep (s, alive, gone) (s', alive, gone)
| ds_task t m cap s alive gone : dtasks s !! t = None -> dstep (s, alive, gone) (s <| dtasks ::= <[t := mk_dtask m cap free_files]> |>, alive, gone)
| ds_exit t k s s' alive gone : t ∉ gone -> dtasks s !! t = Some k -> device_terminate t t s = Some s' -> dstep (s, alive, gone) (s' <| dtasks ::= delete t |>, alive, gone)
| ds_kill cur t kc k g s s' alive gone : cur ∉ gone -> t ∉ gone -> cur <> t -> dtasks s !! cur = Some kc -> dtasks s !! t = Some k ->
    device_terminate cur t s = Some s' -> dtasks s' !! g = None ->
    dstep (s, alive, gone) (s' <| dtasks ::= fun T => <[g := k]> (delete t T) |>, alive, {[g]} ∪ gone).

Lemma dev_ok_tasks s alive S T : dev_ok s alive S -> files_ok T -> (forall a, a <> 0 -> opens a T = opens a (dtasks s)) -> dev_ok (s <| dtasks := T |>) alive S.
Proof. intros [H1 H2 H3 H4 H5 H6 H7 H8 H9] HF HO. split; try done. intros a Ha. specialize (H5 a Ha). unfold refs in *. cbn. by rewrite HO. Qed.

Lemma count_free a l : a <> 0 -> (forall f, f ∈ l -> f_dev f = 0) -> count a l = 0.
Proof.
  intros Ha. induction l as [|f l IH]; intros Hl; [done|]. rewrite count_cons, IH by (intros g Hg; apply Hl; by right). rewrite bool_decide_false; [done|]. rewrite Hl by (by left). congruence.
Qed.

Lemma device_broadcast_ok s alive S event force : dev_ok s alive S ->
  exists r s', device_broadcast event force s = Some (r, s') /\ dev_ok s' alive S /\ devs s' = devs s /\ dtasks s' = dtasks s.
Proof. intros HD. apply broadcast_loop_ok; [done|]. intros a. by apply (do_dom _ _ _ HD). Qed.

Lemma device_terminate_ok s alive S t k : dev_ok s alive S -> dtasks s !! t = Some k -> exists s' S' k', device_terminate t t s = Some s' /\ dev_ok s' alive S' /\
  dtasks s' !! t = Some k' /\ (forall f, f ∈ dt_file k' -> f_dev f = 0) /\ (forall u, u <> t -> dtasks s' !! u = dtasks s !! u).
Proof.
  intros HD HT. destruct (terminate_loop_ok CONFIG_DEV_OPEN_MAX 0 t t s alive S k k HD) as (s'&S'&E&HD'&(k'&Hk'&_&Hf)&Hu); [done|done|done|].
  exists s', S', k'. split_and!; try done. intros f (j&Hj)%list_elem_of_lookup. destruct (decide (f_dev f = 0)) as [|Hnz]; [done|]. by destruct (Hf j f) as [? _]; [lia|..].
Qed.

Lemma device_terminate_other cur t s alive S kc k : dev_ok s alive S -> dtasks s !! cur = Some kc -> dtasks s !! t = Some k -> cur <> t ->
  exists s' S', device_terminate cur t s = Some s' /\ dev_ok s' alive S' /\ dtasks s' !! t = Some k.
Proof.
  intros HD HC HT Hne. destruct (terminate_loop_ok CONFIG_DEV_OPEN_MAX 0 cur t s alive S kc k HD) as (s'&S'&E&HD'&_&Hu); [done|done|done|].
  exists s', S'. split; [done|]. split; [done|]. rewrite Hu by done. done.
Qed.

Lemma dstep_ok x y S : dev_ok x.1.1 x.1.2 S -> dstep x y -> exists S', dev_ok y.1.1 y.1.2 S'.
Proof.
  intros HD Hs. destruct Hs as [io name flags info r s s' alive gone E|a r s s' alive gone Ha E|a r s s' alive gone Ha E|t k name flags fdp r s s' alive gone _ HT E|t k fd r s s' alive gone _ HT E
    |t k fd buf n blk r s s' alive gone _ HT E|t k fd buf n blk r s s' alive gone _ HT E|t k fd cmd arg r s s' alive gone _ HT E|event force r s s' alive gone E|t m cap s alive gone HT
    |t k s s' alive gone _ HT E|cur t kc k g s s' alive gone _ _ Hct HC HT E Hg]; cbn [fst snd] in *.
  - destruct (device_create_ok heap_kern io name flags info s alive S HD) as (r1&s1&S1&E1&[(->&_&HD1)|(Hr&_&_&_&_&HD1)]&_); rewrite E1 in E; injection E as <- <-; exists S1; [done|]. by rewrite (proj2 (Z.eqb_neq _ 0) Hr).
  - destruct (device_destroy_ok s alive S a HD Ha) as (s1&S1&d&E1&_&HD1&_). simplify_eq. by exists S1.
  - unfold device_destroy, device_valid in E. rewrite Ha in E. cbn in E. rewrite andb_false_r in E. simplify_eq. by exists S.
  - destruct (device_open_ok s alive S t k name flags fdp HD HT) as (r1&s1&S1&E1&HD1&_). simplify_eq. by exists S1.
  - destruct (device_close_ok s alive S t k fd HD HT) as (r1&s1&S1&E1&HD1&_). simplify_eq. by exists S1.
  - destruct (device_rw_ok io_read s alive S t k fd buf n blk HD HT) as (r1&s1&E1&HD1&_). unfold device_read in E. simplify_eq. by exists S.
  - destruct (device_rw_ok io_write s alive S t k fd buf n blk HD HT) as (r1&s1&E1&HD1&_). unfold device_write in E. simplify_eq. by exists S.
  - destruct (device_ioctl_ok s alive S t k fd cmd arg HD HT) as (r1&s1&E1&HD1&_). simplify_eq. by exists S.
  - destruct (device_broadcast_ok s alive S event force HD) as (r1&s1&E1&HD1&_). simplify_eq. by exists S.
  - exists S. apply (dev_ok_tasks s alive S (<[t := mk_dtask m cap free_files]> (dtasks s)) HD).
    + intros u l. rewrite lookup_insert. case_decide; [by intros [= <-]|apply HD].
    + intros a Ha. rewrite opens_insert_fresh by done. cbn [dt_file]. rewrite count_free; [done|done|]. by intros f [-> _]%elem_of_replicate.
  - destruct (device_terminate_ok s alive S t k HD HT) as (s3&S3&k'&E3&HD3&Hk'&Hf&_). rewrite E3 in E. injection E as <-. exists S3. apply (dev_ok_tasks s3 alive S3 (delete t (dtasks s3)) HD3).
    + intros u l [_ Hl]%lookup_delete_Some. by apply (do_files _ _ _ HD3 u).
    + intros a Ha. rewrite (opens_delete a (dtasks s3) t k' Hk'). rewrite count_free by done. lia.
  - destruct (device_terminate_other cur t s alive S kc k HD HC HT Hct) as (s3&S3&E3&HD3&Hk'). rewrite E3 in E. injection E as <-. exists S3.
    apply (dev_ok_tasks s3 alive S3 (<[g := k]> (delete t (dtasks s3))) HD3).
    + intros u l. rewrite lookup_insert. case_decide; [intros [= <-]; by apply (do_files _ _ _ HD3 t)|intros [_ Hl]%lookup_delete_Some; by apply (do_files _ _ _ HD3 u)].
    + intros a Ha. rewrite opens_insert_fresh, (opens_delete a (dtasks s3) t k Hk'); [done|]. rewrite lookup_delete. by case_decide.
Qed.

Lemma dstep_reach x y S : rtc dstep x y -> dev_ok x.1.1 x.1.2 S -> exists S', dev_ok y.1.1 y.1.2 S'.
Proof.
  intros Hr. revert S. induction Hr as [|x x1 y Hs _ IH]; intros S HD; [by exists S|]. destruct (dstep_ok _ _ S HD Hs) as [S1 HD1]. by apply (IH S1).
Qed.


(** ** The life of a handle *)

Lemma open_result_0 s alive S t k flags r s' : open_result s alive S t k flags r s' -> r = 0 ->
  exists i a d, lowest_free k i /\ (i < CONFIG_DEV_OPEN_MAX)%nat /\ devs s !! a = Some d /\ devs s' = <[a := d <| d_refcnt ::= Z.add 1 |>]> (devs s) /\
    dtasks s' = put_file t i (mk_file a (d_info d) flags) k (dtasks s).
Proof. intros [|? ? ? ? Hr|? ? i a d _ HL Hi Hd Ed Et] H00; [done|done|]. by exists i, a, d. Qed.

(** C32: A device_open() that returns 0 has put a handle into the lowest free slot
    of the task and raised the reference count of the named device by one; the
    following device_close() of its descriptor frees the slot and leaves every
    device object and every other handle as they were before the open. *)
Theorem open_close s alive S t k name flags fdp s1 : dev_ok s alive S -> dtasks s !! t = Some k -> device_open t name flags fdp s = Some (0, s1) ->
  exists i a d, lowest_free k i /\ devs s !! a = Some d /\ devs s1 = <[a := d <| d_refcnt ::= Z.add 1 |>]> (devs s) /\
    dtasks s1 = put_file t i (mk_file a (d_info d) flags) k (dtasks s) /\
    exists e s2, device_close t (fd_of i) s1 = Some (e, s2) /\ devs s2 = devs s /\ dtasks s2 = put_file t i (mk_file 0 (d_info d) flags) k (dtasks s).
Proof.
  intros HD HT E. destruct (device_open_ok s alive S t k name flags fdp HD HT) as (r&s'&S'&E'&HD'&HO). rewrite E' in E. injection E as -> ->.
  destruct (open_result_0 _ _ _ _ _ _ _ _ HO eq_refl) as (i&a&d&HL&Hi&Hd&Ed&Et). exists i, a, d. split; [done|]. split; [done|]. split; [done|]. split; [done|].
  destruct (do_dev _ _ _ HD _ _ Hd) as [Hnz _]. pose proof (do_refs _ _ _ HD _ Hnz) as Hr. rewrite Hd in Hr.
  set (k1 := k <| dt_file ::= <[i := mk_file a (d_info d) flags]> |>). assert (dtasks s1 !! t = Some k1) as Hk1 by (rewrite Et; apply lookup_insert_eq).
  assert (i < length (dt_file k))%nat as Hi' by (by rewrite (do_files _ _ _ HD t k HT)).
  destruct (device_close_ok s1 alive S' t k1 (fd_of i) HD' Hk1) as (e&s2&S2&E2&_&[(_&_&Hfr)|(j&f&d1&Hj&Hf&_&Hd1&Et2&Ed2)]).
  - specialize (Hfr i (mk_file a (d_info d) flags)). rewrite fd_index_of in Hfr by done. specialize (Hfr eq_refl). cbn in Hfr. rewrite list_lookup_insert_eq in Hfr by done. by specialize (Hfr eq_refl).
  - rewrite fd_index_of in Hj by done. assert (j = i) as -> by lia. cbn in Hf. rewrite list_lookup_insert_eq in Hf by done. injection Hf as <-. cbn in Hd1, Ed2.
    rewrite Ed, lookup_insert_eq in Hd1. injection Hd1 as <-. exists e, s2. split; [done|]. cbn in Ed2. destruct (Z.eqb_spec (1 + d_refcnt d) 1); [lia|]. split.
    + rewrite Ed2, Ed, insert_insert_eq. apply insert_id. rewrite Hd. f_equal. destruct d. cbn. f_equal. lia.
    + rewrite Et2, Et. unfold put_file. rewrite insert_insert_eq. cbn. by rewrite list_insert_insert_eq.
Qed.

(** device_destroy() of a device by its driver succeeds; the object goes at
    once if no handle refers to it, otherwise it stays, with the number of its
    handles as reference count, and the close of the last handle removes it. *)
Theorem destroy_pending s alive S a : dev_ok s alive S -> a ∈ alive ->
  exists s' S' d, device_destroy a s = Some (0, s') /\ dev_ok s' (alive ∖ {[a]}) S' /\ dtasks s' = dtasks s /\ devs s !! a = Some d /\
    devs s' !! a = (if opens a (dtasks s) =? 0 then None else Some (d <| d_refcnt := opens a (dtasks s) |>)) /\
    forall s2 S2 t k i f e s3, dev_ok s2 (alive ∖ {[a]}) S2 -> opens a (dtasks s2) = 1 -> dtasks s2 !! t = Some k -> dt_file k !! i = Some f -> f_dev f = a ->
      device_close t (fd_of i) s2 = Some (e, s3) -> devs s3 !! a = None.
Proof.
  clear heap_kern. intros HD Ha. destruct (device_destroy_ok s alive S a HD Ha) as (s'&S'&d&E&Hd&HD'&Et&Ed). exists s', S', d. split; [done|]. split; [done|]. split; [done|]. split; [done|].
  assert (a <> 0) as Hnz by (intros ->; by apply (do_alive _ _ _ HD)). pose proof (do_refs _ _ _ HD a Hnz) as Hr. rewrite Hd in Hr. unfold refs, ind in Hr. rewrite bool_decide_true in Hr by done.
  split.
  - rewrite Ed. destruct (Z.eqb_spec (d_refcnt d) 1), (Z.eqb_spec (opens a (dtasks s)) 0); try lia; [apply lookup_delete_eq|]. rewrite lookup_insert_eq. f_equal. destruct d. cbn in *. f_equal. lia.
  - intros s2 S2 t k i f e s3 HD2 Ho HT Hf Hfa Ec. assert (i < CONFIG_DEV_OPEN_MAX)%nat as Hi by (rewrite <- (do_files _ _ _ HD2 t k HT); by eapply lookup_lt_Some).
    destruct (device_close_ok s2 _ S2 t k (fd_of i) HD2 HT) as (e1&s4&S4&E1&_&[(_&_&Hfr)|(j&g&d1&Hj&Hg&_&Hd1&_&Ed1)]).
    + specialize (Hfr i f). rewrite fd_index_of in Hfr by done. specialize (Hfr eq_refl Hf). congruence.
    + rewrite fd_index_of in Hj by done. assert (j = i) as -> by lia. rewrite Hf in Hg. injection Hg as <-. rewrite E1 in Ec. injection Ec as -> ->. rewrite Hfa in *.
      pose proof (do_refs _ _ _ HD2 a Hnz) as Hr2. rewrite Hd1 in Hr2. unfold refs, ind in Hr2. rewrite bool_decide_false, Ho in Hr2 by set_solver.
      rewrite Ed1. destruct (Z.eqb_spec (d_refcnt d1) 1); [|lia]. apply lookup_delete_eq.
Qed.

(** device_create() with a valid name that is not in use and memory at hand
    adds a device that device_lookup() then finds by that name; otherwise it
    returns 0 and no device is added. *)
Theorem create_lookup io name flags info s alive S : dev_ok s alive S ->
  exists r s' S', device_create io name flags info s = Some (r, s') /\
    if r =? 0 then devs s' = devs s /\ dev_ok s' alive S'
    else dev_ok s' ({[r]} ∪ alive) S' /\ devs s' = <[r := mk_device DEVICE_MAGIC 1 flags io info name]> (devs s) /\ no_device s name /\
      device_lookup name s' = Some r.
Proof.
  intros HD. destruct (device_create_ok heap_kern io name flags info s alive S HD) as (r&s'&S'&E&Hr&_). exists r, s', S'. split; [done|].
  destruct Hr as [(->&Ed&HD')|(Hnz&_&Hno&Hl&Ed&HD')]; [done|]. rewrite (proj2 (Z.eqb_neq r 0) Hnz). split; [done|]. split; [done|]. split; [done|].
  destruct (device_lookup_ok s' _ S' name HD') as (a&Ea&Ha). rewrite Ea. f_equal. destruct Ha as [[_ Hno']|(d&Hd&Hn)].
  - exfalso. apply (Hno' r (mk_device DEVICE_MAGIC 1 flags io info name)); [rewrite Ed; apply lookup_insert_eq|done].
  - rewrite Ed in Hd. apply lookup_insert_Some in Hd as [[<- _]|[_ Hd]]; [done|]. by destruct (Hno a d Hd).
Qed.

(** Device_terminate(task) closes every handle of the task that terminates
    itself, and no handle of another task. *)
Theorem terminate_self s alive S t k : dev_ok s alive S -> dtasks s !! t = Some k ->
  exists s' S' k', device_terminate t t s = Some s' /\ dev_ok s' alive S' /\ dtasks s' !! t = Some k' /\ (forall f, f ∈ dt_file k' -> f_dev f = 0) /\
    (forall u, u <> t -> dtasks s' !! u = dtasks s !! u).
Proof. apply device_terminate_ok. Qed.

(** When a task terminates another one, device_terminate() closes no handle
    of the task that dies: its descriptors are looked up in the current task,
    which loses its own handles in these slots instead. *)
Theorem terminate_other s alive S cur task kc k : dev_ok s alive S -> cur <> task -> dtasks s !! cur = Some kc -> dtasks s !! task = Some k ->
  exists s' S', device_terminate cur task s = Some s' /\ dev_ok s' alive S' /\ dtasks s' !! task = Some k /\
    exists kc', dtasks s' !! cur = Some kc' /\ forall j f g, dt_file k !! j = Some f -> f_dev f <> 0 -> dt_file kc' !! j = Some g -> f_dev g = 0.
Proof.
  intros HD Hne Hc HT. destruct (terminate_loop_ok CONFIG_DEV_OPEN_MAX 0 cur task s alive S kc k HD) as (s'&S'&E&HD'&(kc'&Hk'&_&Hf)&Hu); [done|done|done|].
  exists s', S'. split; [done|]. split; [done|]. split; [by rewrite Hu|]. exists kc'. split; [done|]. intros j f g Hj Hn Hg. destruct (decide (f_dev g = 0)) as [|Hgn]; [done|].
  destruct (Hf j g) as [_ Hz]; [lia|done|done|]. by destruct (Hn (Hz f Hj)).
Qed.
End Run.
