(* ===== verification/DeviceDemo.v ===== *)
(** * DeviceDemo: a device, two tasks and their handles

    The theorems of DeviceRun applied to concrete states, over an allocator that
    hands out increasing addresses; and what becomes of a handle when its device
    is destroyed twice. *)
From stdpp Require Import base numbers gmap list.
From S2P Require Import Prelude Core Kernel UserMem HeapSource Device DeviceSpec DeviceRun.

Open Scope Z_scope.

Module DeviceDemo.

(** The next address, and the blocks in use. *)
Definition bump : Type := Z * gset Z.
#[local] Instance bump_source : HeapSource bump := {|
  hs_alloc n k := Some (k.1, (k.1 + 0x1000, {[k.1]} ∪ k.2));
  hs_free a k := if decide (a ∈ k.2) then Some (k.1, k.2 ∖ {[a]}) else None;
|}.
Definition bump_inv (k : bump) (S : gset Z) : Prop := k.2 = S /\ PAGE_OFFSET <= k.1 /\ forall a, a ∈ S -> PAGE_OFFSET <= a < k.1.
#[local] Instance bump_laws : HeapSourceLaws bump.
Proof.
  refine {| hs_inv := bump_inv |}.
  - intros k S a (_&_&Ha) Hin. specialize (Ha a Hin). unfold PAGE_OFFSET in Ha. lia.
  - intros [n U] S z (HE&Hn&Ha) _. cbn in *. subst U. exists n, (n + 0x1000, {[n]} ∪ S). split; [done|]. right. split; [unfold PAGE_OFFSET in *; lia|].
    split; [intros Hin; specialize (Ha n Hin); lia|]. split; [done|]. cbn. split; [lia|]. intros a [->%elem_of_singleton|Hin]%elem_of_union; [lia|]. specialize (Ha a Hin). lia.
  - intros [n U] S a (HE&Hn&Ha) Hin. cbn in *. subst U. rewrite decide_True by done. eexists. split; [done|]. split; [done|]. cbn. split; [done|].
    intros b [Hb _]%elem_of_difference. by apply Ha.
Defined.

Lemma bump_kern k S a : hs_inv k S -> a ∈ S -> kern_area a = true.
Proof. intros (_&_&Ha) Hin. unfold kern_area. apply Z.leb_le. by apply Ha. Qed.

(** A driver whose reads return nothing, counting how often it is opened. *)
Definition tty_io : devio Z := mk_devio (Some (fun _ _ w => (0, w <| w_drv ::= Z.succ |>))) None
  (Some (fun _ _ _ _ _ w => (0, 0, w))) None None (Some (fun _ w => (0, w))).
Definition tty : list Z := [116; 116; 121].

(** Task 1 has address space 7, with the name at 0x1000 and room for a
    descriptor at 0x1010. *)
Definition user : gmap (Z * Z) Z :=
  list_to_map [((7, 0x1000), 116); ((7, 0x1001), 116); ((7, 0x1002), 121); ((7, 0x1003), 0);
    ((7, 0x1010), 0); ((7, 0x1011), 0); ((7, 0x1012), 0); ((7, 0x1013), 0)].
Definition d0 : dst bump Z := mk_dst ∅ [] {[ 1 := mk_dtask 7 CAP_DEVIO free_files; 2 := mk_dtask 8 0 free_files ]} (PAGE_OFFSET, ∅) (mk_world 0 user).
Definition run {R : Type} (s : dst bump Z) (r : option (R * dst bump Z)) : dst bump Z := default s (snd <$> r).
Definition dev := PAGE_OFFSET.
Definition d1 : dst bump Z := run d0 (device_create tty_io tty 0 0 d0).
Definition d2 : dst bump Z := run d1 (device_open 1 0x1000 0 0x1010 d1).

Lemma d0_ok : dev_ok d0 ∅ ∅.
Proof.
  split; try done.
  - apply NoDup_nil_2.
  - intros a. split; [by intros ?%elem_of_nil|by intros [? ?]].
  - intros a Ha. change (devs d0 !! a) with (None : option (device Z)). unfold refs, ind. rewrite bool_decide_false by set_solver.
    unfold d0. cbn [dtasks]. rewrite opens_insert_fresh by done. rewrite <- insert_empty. rewrite opens_insert_fresh by done. cbn [dt_file].
    rewrite count_free; [done|done|]. by intros f [-> _]%elem_of_replicate.
  - intros t k. unfold d0. cbn [dtasks]. rewrite lookup_insert_Some, lookup_singleton_Some. intros [[_ <-]|[_ [_ <-]]]; done.
  - by intros a [? ?].
Qed.

Lemma create_runs : device_create tty_io tty 0 0 d0 = Some (dev, d1).
Proof. reflexivity. Qed.
Lemma open_runs : device_open 1 0x1000 0 0x1010 d1 = Some (0, d2).
Proof. reflexivity. Qed.

Lemma d1_ok : exists S, dev_ok d1 {[dev]} S.
Proof.
  destruct (device_create_ok bump_kern tty_io tty 0 0 d0 ∅ ∅ d0_ok) as (r&s'&S'&E&Hr&_). rewrite create_runs in E. injection E as <- <-.
  destruct Hr as [[Hz _]|(_&_&_&_&_&HD)]; [done|]. exists S'. by rewrite union_empty_r_L in HD.
Qed.

Definition task1 : dtask := mk_dtask 7 CAP_DEVIO free_files.
Lemma d1_task : dtasks d1 !! 1 = Some task1.
Proof. reflexivity. Qed.

Lemma d2_ok : exists S, dev_ok d2 {[dev]} S.
Proof.
  destruct d1_ok as [S HD]. destruct (device_open_ok d1 {[dev]} S 1 task1 0x1000 0 0x1010 HD d1_task) as (r&s'&S'&E&HD'&_). rewrite open_runs in E. injection E as <- <-. by exists S'.
Qed.

(** Task 2 terminates task 1: the handle of task 1 is lost. *)
Definition opened : dtask := default task1 (dtasks d2 !! 1).
Definition killed : dst bump Z := default d2 (device_terminate 2 1 d2) <| dtasks ::= fun T => <[-1 := opened]> (delete 1 T) |>.
Lemma kill_runs : device_terminate 2 1 d2 = Some (default d2 (device_terminate 2 1 d2)).
Proof. reflexivity. Qed.

Lemma killed_reached : rtc dstep (d0, ∅, ∅) (killed, {[dev]}, {[-1]}).
Proof.
  eapply rtc_l; [apply (ds_create tty_io tty 0 0 dev d0 d1 ∅ ∅ create_runs)|]. change (dev =? 0) with false. cbn iota. rewrite union_empty_r_L.
  eapply rtc_l; [apply (ds_open 1 task1 0x1000 0 0x1010 0 d1 d2 _ ∅ (not_elem_of_empty _) d1_task open_runs)|].
  eapply rtc_l; [apply (ds_kill 2 1 (mk_dtask 8 0 free_files) opened (-1) d2 _ _ ∅ (not_elem_of_empty _) (not_elem_of_empty _) ltac:(done) eq_refl eq_refl kill_runs eq_refl)|].
  rewrite union_empty_r_L. apply rtc_refl.
Qed.


Lemma open_close_witness : exists i a d, lowest_free task1 i /\ devs d1 !! a = Some d /\ devs d2 = <[a := d <| d_refcnt ::= Z.add 1 |>]> (devs d1) /\
  dtasks d2 = put_file 1 i (mk_file a (d_info d) 0) task1 (dtasks d1) /\
  exists e s2, device_close 1 (fd_of i) d2 = Some (e, s2) /\ devs s2 = devs d1 /\ dtasks s2 = put_file 1 i (mk_file 0 (d_info d) 0) task1 (dtasks d1).
Proof. destruct d1_ok as [S HD]. exact (open_close d1 {[dev]} S 1 task1 0x1000 0 0x1010 d2 HD d1_task open_runs). Defined.

Lemma destroy_pending_witness : exists s' S' d, device_destroy dev d2 = Some (0, s') /\ dev_ok s' ({[dev]} ∖ {[dev]}) S' /\ dtasks s' = dtasks d2 /\ devs d2 !! dev = Some d /\
  devs s' !! dev = (if opens dev (dtasks d2) =? 0 then None else Some (d <| d_refcnt := opens dev (dtasks d2) |>)) /\
  forall (s2 : dst bump Z) S2 t k i f e (s3 : dst bump Z), dev_ok s2 ({[dev]} ∖ {[dev]}) S2 -> opens dev (dtasks s2) = 1 -> dtasks s2 !! t = Some k -> dt_file k !! i = Some f -> f_dev f = dev ->
    device_close t (fd_of i) s2 = Some (e, s3) -> devs s3 !! dev = None.
Proof. destruct d2_ok as [S HD]. exact (destroy_pending d2 {[dev]} S dev HD (elem_of_singleton_2 dev dev eq_refl)). Defined.

Lemma create_lookup_witness : exists r s' S', device_create tty_io tty 0 0 d0 = Some (r, s') /\
  if r =? 0 then devs s' = devs d0 /\ dev_ok s' ∅ S'
  else dev_ok s' ({[r]} ∪ ∅) S' /\ devs s' = <[r := mk_device DEVICE_MAGIC 1 0 tty_io 0 tty]> (devs d0) /\ no_device d0 tty /\ device_lookup tty s' = Some r.
Proof. exact (create_lookup bump_kern tty_io tty 0 0 d0 ∅ ∅ d0_ok). Defined.

Definition task1_open : dtask := mk_dtask 7 CAP_DEVIO (<[0%nat := mk_file dev 0 0]> free_files).
Definition task2 : dtask := mk_dtask 8 0 free_files.
Lemma d2_task1 : dtasks d2 !! 1 = Some task1_open.
Proof. reflexivity. Qed.
Lemma d2_task2 : dtasks d2 !! 2 = Some task2.
Proof. reflexivity. Qed.

Lemma terminate_self_witness : exists s' S' k', device_terminate 1 1 d2 = Some s' /\ dev_ok s' {[dev]} S' /\ dtasks s' !! 1 = Some k' /\
  (forall f, f ∈ dt_file k' -> f_dev f = 0) /\ (forall u, u <> 1 -> dtasks s' !! u = dtasks d2 !! u).
Proof. destruct d2_ok as [S HD]. exact (terminate_self d2 {[dev]} S 1 task1_open HD d2_task1). Defined.

(** Task 2 terminates task 1, whose handle stays open. *)
Lemma terminate_other_witness : exists s' S', device_terminate 2 1 d2 = Some s' /\ dev_ok s' {[dev]} S' /\ dtasks s' !! 1 = Some task1_open /\
  exists kc', dtasks s' !! 2 = Some kc' /\ forall j f g, dt_file task1_open !! j = Some f -> f_dev f <> 0 -> dt_file kc' !! j = Some g -> f_dev g = 0.
Proof. destruct d2_ok as [S HD]. apply (terminate_other d2 {[dev]} S 2 1 task2 task1_open HD); [discriminate|exact d2_task2|exact d2_task1]. Defined.

(** The device is open once; its driver destroys it twice.  The second call, which
    still finds a valid object, releases it under the handle: the close that
    follows reads released memory. *)
Definition d3 : dst bump Z := run d2 (device_destroy dev d2).
Definition d4 : dst bump Z := run d3 (device_destroy dev d3).
Example destroyed_twice : device_valid dev d3 = true /\ devs d4 !! dev = None /\ (dtasks d4 !! 1 = Some task1_open) /\ device_close 1 (fd_of 0) d4 = None.
Proof. split; [reflexivity|]. split; [reflexivity|]. split; reflexivity. Qed.

(** The object that is to be destroyed is still found by name. *)
Example destroyed_found : device_lookup tty d3 = Some dev.
Proof. reflexivity. Qed.
End DeviceDemo.
