(* ===== verification/Dpc.v ===== *)
(** * Dpc: deferred procedure calls, the end of sys/kern/sched.c

    sched_dpc() queues a request and wakes the DPC thread, which calls the
    queued routines in turn.  Both touch the queue with interrupts disabled, so
    what the thread does between two points where it enables interrupts or is
    switched out is one step.  A routine is a code address with its argument;
    its call is an event of the step. *)
From stdpp Require Import base numbers gmap list.
From S2P Require Import Prelude.

Open Scope Z_scope.

Definition DPC_FREE := 0x4470463f.
Definition DPC_PENDING := 0x4470503f.

(** struct dpc, whose link is on the queue or not. *)
Record dpc := mk_dpc { dpc_st : Z; dpc_func : Z; dpc_arg : Z }.
#[export] Instance dpc_eta : Settable dpc := fun x => mk_dpc (dpc_st x) (dpc_func x) (dpc_arg x).

(** Where dpc_thread() stands: before its first sched_sleep(), sleeping, woken up,
    behind interrupt_enable() with a dpc taken off the queue, and in the call
    of its routine. *)
Inductive dpc_pc := DpcStart | DpcSleeping | DpcWoken | DpcFetch (a : Z) | DpcCalling.
#[export] Instance dpc_pc_eq_dec : EqDecision dpc_pc.
Proof. solve_decision. Defined.

Record dpcs := mk_dpcs {
  dpc_objs : gmap Z dpc;
  dpcq : list Z;
  dpc_at : dpc_pc;
}.
#[export] Instance dpcs_eta : Settable dpcs := fun x => mk_dpcs (dpc_objs x) (dpcq x) (dpc_at x).

(** Linking a dpc that is already on the queue would corrupt it: a fault. *)
Definition sched_dpc (a func arg : Z) (s : dpcs) : option dpcs :=
  d ← dpc_objs s !! a;
  if negb (bool_decide (dpc_st d = DPC_PENDING)) && bool_decide (a ∈ dpcq s) then None
  else
    let q := if decide (dpc_st d = DPC_PENDING) then dpcq s else dpcq s ++ [a] in
    let s := s <| dpcq := q |> <| dpc_objs ::= <[a := mk_dpc DPC_PENDING func arg]> |> in
    (* sched_wakeup(&dpc_event) *)
    Some (if decide (dpc_at s = DpcSleeping) then s <| dpc_at := DpcWoken |> else s).

(** while (!queue_empty(&dpcq)) { ... }, up to interrupt_enable(); then sched_sleep(). *)
Definition dpc_loop (s : dpcs) : option dpcs :=
  match dpcq s with
  | [] => Some (s <| dpc_at := DpcSleeping |>)
  | a :: q =>
      d ← dpc_objs s !! a;
      Some (s <| dpcq := q |> <| dpc_objs ::= <[a := d <| dpc_st := DPC_FREE |>]> |> <| dpc_at := DpcFetch a |>)
  end.

(** The routine called, if any: dpc->func and dpc->arg are read with interrupts
    enabled, so a request for the same dpc may come before.  The two reads are
    one step. *)
Definition dpc_thread (s : dpcs) : option (option (Z * Z) * dpcs) :=
  match dpc_at s with
  | DpcStart => Some (None, s <| dpc_at := DpcSleeping |>)
  | DpcSleeping => Some (None, s)
  | DpcWoken | DpcCalling => s ← dpc_loop s; Some (None, s)
  | DpcFetch a => d ← dpc_objs s !! a; Some (Some (dpc_func d, dpc_arg d), s <| dpc_at := DpcCalling |>)
  end.

(** Requests by drivers, interleaved with steps of the thread. *)
Inductive dpc_event := DpcRequest (a func arg : Z) | DpcRun.

Fixpoint dpc_trace (l : list dpc_event) (s : dpcs) : option (list (Z * Z) * dpcs) :=
  match l with
  | [] => Some ([], s)
  | DpcRequest a func arg :: l => s ← sched_dpc a func arg s; dpc_trace l s
  | DpcRun :: l =>
      r ← dpc_thread s;
      t ← dpc_trace l (snd r);
      Some (match fst r with Some c => c :: fst t | None => fst t end, snd t)
  end.

(** ** The queue holds the pending requests *)

(** The requests the thread still has to call: the one it has taken off the
    queue, and those on it. *)
Definition fetched (s : dpcs) : list Z := match dpc_at s with DpcFetch a => [a] | _ => [] end.
Definition dpc_todo (s : dpcs) : list Z := fetched s ++ dpcq s.

Record dpc_ok (s : dpcs) : Prop := {
  dk_nodup : NoDup (dpcq s);
  dk_dom : forall a, a ∈ dpc_todo s -> is_Some (dpc_objs s !! a);
  dk_pending : forall a d, dpc_objs s !! a = Some d -> (dpc_st d = DPC_PENDING <-> a ∈ dpcq s);
}.
(** The thread sleeps only when nothing is pending. *)
Definition dpc_awake (s : dpcs) : Prop := dpc_at s <> DpcStart /\ (dpc_at s = DpcSleeping -> dpcq s = []).

Lemma sched_dpc_ok a func arg s : dpc_ok s -> is_Some (dpc_objs s !! a) -> exists s', sched_dpc a func arg s = Some s' /\ dpc_ok s' /\
  dpcq s' = (if decide (a ∈ dpcq s) then dpcq s else dpcq s ++ [a]) /\ dpc_objs s' = <[a := mk_dpc DPC_PENDING func arg]> (dpc_objs s) /\
  dpc_at s' = (if decide (dpc_at s = DpcSleeping) then DpcWoken else dpc_at s) /\ fetched s' = fetched s.
Proof.
  intros [H1 H2 H3] [d Hd]. unfold sched_dpc. rewrite Hd. cbn [mbind option_bind]. pose proof (H3 a d Hd) as Hp. assert (negb (bool_decide (dpc_st d = DPC_PENDING)) && bool_decide (a ∈ dpcq s) = false) as ->.
  { destruct (bool_decide_reflect (dpc_st d = DPC_PENDING)) as [|Hn]; [done|]. cbn. apply bool_decide_false. intros Hin. by apply Hn, Hp. }
  set (q := if decide (dpc_st d = DPC_PENDING) then _ else _). assert (q = if decide (a ∈ dpcq s) then dpcq s else dpcq s ++ [a]) as Eq.
  { unfold q. destruct (decide (dpc_st d = DPC_PENDING)) as [Hs|Hs]; [by rewrite decide_True by (by apply Hp)|]. rewrite decide_False; [done|]. by intros Hin%Hp. }
  clearbody q. assert (forall b, b ∈ q <-> b = a \/ b ∈ dpcq s) as Hq.
  { intros b. rewrite Eq. case_decide; [|rewrite elem_of_app, list_elem_of_singleton; tauto]. naive_solver. }
  set (s1 := s <| dpcq := q |> <| dpc_objs ::= _ |>). change (dpc_at s1) with (dpc_at s).
  set (s2 := if decide (dpc_at s = DpcSleeping) then _ else _). assert (fetched s2 = fetched s) as Ef.
  { unfold s2, fetched. destruct (decide (dpc_at s = DpcSleeping)) as [->|]; done. }
  assert (dpcq s2 = q) as Eq2 by (unfold s2; by destruct (decide (dpc_at s = DpcSleeping))).
  assert (dpc_objs s2 = <[a := mk_dpc DPC_PENDING func arg]> (dpc_objs s)) as Eo2 by (unfold s2; by destruct (decide (dpc_at s = DpcSleeping))).
  exists s2. split; [done|]. split; [|split_and!; [by rewrite Eq2|done|unfold s2; by destruct (decide (dpc_at s = DpcSleeping))|done]]. split.
  - rewrite Eq2, Eq. case_decide as Hin; [done|]. apply NoDup_app. split; [done|]. split; [|apply NoDup_singleton]. intros b Hb ->%list_elem_of_singleton. done.
  - intros b. unfold dpc_todo. rewrite Ef, Eo2, Eq2, elem_of_app, Hq. intros Hb. apply lookup_insert_is_Some'.
    destruct (decide (a = b)); [by left|right]. apply H2, elem_of_app. destruct Hb as [?|[?|?]]; [by left|done|by right].
  - intros b e. rewrite Eq2, Hq, Eo2, lookup_insert_Some. intros [[<- <-]|[Hne He]]; [cbn; tauto|]. rewrite (H3 b e He). split; [by right|]. by intros [->|].
Qed.

(** What one step of the thread does when it is awake. *)
Lemma dpc_thread_ok s : dpc_ok s -> dpc_awake s -> exists r s', dpc_thread s = Some (r, s') /\ dpc_ok s' /\ dpc_awake s' /\
  (forall a, is_Some (dpc_objs s' !! a) <-> is_Some (dpc_objs s !! a)) /\
  (forall a d, dpc_objs s !! a = Some d -> exists d', dpc_objs s' !! a = Some d' /\ dpc_func d' = dpc_func d /\ dpc_arg d' = dpc_arg d) /\
  match fetched s with
  | a :: _ => (exists d, dpc_objs s !! a = Some d /\ r = Some (dpc_func d, dpc_arg d)) /\ dpcq s' = dpcq s /\ dpc_at s' = DpcCalling
  | [] => r = None /\ match dpcq s with [] => dpc_at s' = DpcSleeping /\ dpcq s' = [] | a :: q => dpc_at s' = DpcFetch a /\ dpcq s' = q end
  end.
Proof.
  intros HK HA. pose proof HK as [H1 H2 H3]. pose proof HA as [Hst Haw]. unfold dpc_thread, fetched. unfold dpc_todo, fetched in H2.
  destruct (dpc_at s) as [| | |a|] eqn:Eat; [done|..].
  1:{ exists None, s. split; [done|]. split; [exact HK|]. split; [split; rewrite Eat; done|]. split; [done|]. split; [intros b d Hd; by exists d|]. by rewrite (Haw eq_refl). }
  2:{ destruct (H2 a) as [d Hd]; [by left|]. rewrite Hd. eexists _, _. split; [done|]. split_and!; try done; cbn; [|intros b e He; by exists e|by exists d].
      split; try done. intros b Hb. apply H2. cbn. by right. }
  all: unfold dpc_loop; destruct (dpcq s) as [|a q] eqn:Eq; cbn [mbind option_bind].
  1, 3: exists None, (s <| dpc_at := DpcSleeping |>); split; [done|]; split; [|split; [|split; [done|split; [|done]]]];
    [split; unfold dpc_todo, fetched; cbn; rewrite Eq; try done; by intros b ?%elem_of_nil|split; [done|by intros _; cbn]|intros b e He; by exists e].
  all: destruct (H2 a) as [d Hd]; [by left|]; rewrite Hd; cbn [mbind option_bind]; apply NoDup_cons in H1 as [Hni H1];
    exists None, (s <| dpcq := q |> <| dpc_objs ::= <[a := d <| dpc_st := DPC_FREE |>]> |> <| dpc_at := DpcFetch a |>);
    (split; [done|]); (split; [|split; [done|split; [|split; [|done]]]]);
    [split; unfold dpc_todo, fetched; cbn; [done|..]|intros b; cbn; rewrite lookup_insert_is_Some'; split; [intros [<-|?]; [by eexists|done]|by right]|].
  1, 4: intros b Hb; apply lookup_insert_is_Some'; right; by apply H2.
  1, 3: intros b e; rewrite lookup_insert_Some; intros [[<- <-]|[Hne He]]; [cbn; split; [done|by intros ?]|]; rewrite (H3 b e He), elem_of_cons; split; [intros [->|]; done|by right].
  all: intros b e He; cbn; rewrite lookup_insert; case_decide; [subst b; exists (d <| dpc_st := DPC_FREE |>); by simplify_eq|by exists e].
Qed.

(** ** Every request is called *)

(** The routine and argument last passed for a dpc. *)
Fixpoint last_request (a : Z) (l : list dpc_event) (fg : Z * Z) : Z * Z :=
  match l with
  | [] => fg
  | DpcRequest b f g :: l => last_request a l (if decide (b = a) then (f, g) else fg)
  | DpcRun :: l => last_request a l fg
  end.
Definition dpc_call (s : dpcs) (a : Z) : Z * Z := match dpc_objs s !! a with Some d => (dpc_func d, dpc_arg d) | None => (0, 0) end.

Definition known (l : list dpc_event) (s : dpcs) : Prop := forall a f g, DpcRequest a f g ∈ l -> is_Some (dpc_objs s !! a).

Lemma dpc_call_keep s s' a : (forall a d, dpc_objs s !! a = Some d -> exists d', dpc_objs s' !! a = Some d' /\ dpc_func d' = dpc_func d /\ dpc_arg d' = dpc_arg d) ->
  is_Some (dpc_objs s !! a) -> dpc_call s' a = dpc_call s a.
Proof. intros H [d Hd]. unfold dpc_call. destruct (H a d Hd) as (d'&->&->&->). by rewrite Hd. Qed.

(** Any interleaving runs, and leaves for every dpc what was last passed. *)
Lemma dpc_trace_ok l s : dpc_ok s -> dpc_awake s -> known l s ->
  exists c s', dpc_trace l s = Some (c, s') /\ dpc_ok s' /\ dpc_awake s' /\
    forall a, (is_Some (dpc_objs s' !! a) <-> is_Some (dpc_objs s !! a)) /\
      (is_Some (dpc_objs s !! a) -> dpc_call s' a = last_request a l (dpc_call s a)).
Proof.
  revert s. induction l as [|[a f g|] l IH]; intros s HK HA HN; cbn [dpc_trace last_request]; [by exists [], s|..].
  - assert (is_Some (dpc_objs s !! a)) as Hsa by (apply (HN a f g); by left).
    destruct (sched_dpc_ok a f g s HK Hsa) as (s1&E&HK1&_&Ho&Hat&_). rewrite E. cbn [mbind option_bind].
    assert (forall b, is_Some (dpc_objs s1 !! b) <-> is_Some (dpc_objs s !! b)) as HD.
    { intros b. rewrite Ho, lookup_insert_is_Some'. split; [intros [<-|?]; done|by right]. }
    destruct (IH s1) as (c&s'&E'&HK'&HA'&HL); [done| |intros b f' g' Hin; apply HD, (HN b f' g'); by right|].
    { destruct HA as [Hst Haw]. split; rewrite Hat; case_decide; done. }
    exists c, s'. split_and!; try done. intros b. destruct (HL b) as [Hi Hc]. split; [rewrite Hi; apply HD|]. intros Hb. rewrite Hc by (by apply HD). f_equal. unfold dpc_call. rewrite Ho, lookup_insert. destruct (decide (a = b)); done.
  - destruct (dpc_thread_ok s HK HA) as (r&s1&E&HK1&HA1&HD&HF&_). rewrite E. cbn [mbind option_bind fst snd].
    destruct (IH s1) as (c&s'&E'&HK'&HA'&HL); [done|done|intros b f' g' Hin; apply HD, (HN b f' g'); by right|]. rewrite E'. cbn [mbind option_bind fst snd].
    eexists _, s'. split_and!; try done. intros b. destruct (HL b) as [Hi Hc]. split; [rewrite Hi; apply HD|]. intros Hb. rewrite Hc by (by apply HD). f_equal. by apply dpc_call_keep.
Qed.

Lemma dpc_trace_app l1 l2 s c1 s1 c2 s2 : dpc_trace l1 s = Some (c1, s1) -> dpc_trace l2 s1 = Some (c2, s2) -> dpc_trace (l1 ++ l2) s = Some (c1 ++ c2, s2).
Proof.
  revert s c1. induction l1 as [|[a f g|] l1 IH]; intros s c1; cbn [dpc_trace app]; [by intros [= <- <-]|..].
  - destruct (sched_dpc a f g s) as [s'|]; [|done]. cbn [mbind option_bind]. apply IH.
  - destruct (dpc_thread s) as [[r s']|]; [|done]. cbn [mbind option_bind fst snd]. destruct (dpc_trace l1 s') as [[c s'']|] eqn:E; [|done]. cbn [mbind option_bind fst snd].
    intros [= <- <-] H2. rewrite (IH _ _ E H2). cbn. by destruct r.
Qed.

Lemma dpc_trace_run l s : dpc_trace (DpcRun :: l) s = r ← dpc_thread s; t ← dpc_trace l (snd r); Some (match fst r with Some c => c :: fst t | None => fst t end, snd t).
Proof. done. Qed.

(** The steps the thread needs to call what it has to. *)
Definition dpc_rounds (s : dpcs) : nat := S (length (fetched s) + 2 * length (dpcq s)).

Lemma dpc_drains_ok n s : dpc_ok s -> dpc_awake s -> n = dpc_rounds s ->
  exists s', dpc_trace (replicate n DpcRun) s = Some (dpc_call s <$> dpc_todo s, s') /\ dpc_ok s' /\ dpcq s' = [] /\ dpc_at s' = DpcSleeping.
Proof.
  revert s. induction n as [n IH] using lt_wf_ind. intros s HK HA ->. unfold dpc_rounds, dpc_todo in *. rewrite replicate_S, dpc_trace_run.
  destruct (dpc_thread_ok s HK HA) as (r&s1&E&HK1&HA1&HD&HF&HS). rewrite E. cbn [mbind option_bind fst snd].
  destruct (fetched s) as [|a fq] eqn:Ef.
  - destruct HS as [-> HS]. destruct (dpcq s) as [|a q] eqn:Eq.
    + destruct HS as [Hat Hq]. cbn. by exists s1.
    + destruct HS as [Hat Hq]. assert (fetched s1 = [a]) as Ef1 by (unfold fetched; by rewrite Hat).
      destruct (IH (S (1 + 2 * length q))%nat ltac:(cbn; lia) s1 HK1 HA1) as (s'&E'&H'); [by rewrite Ef1, Hq|].
      replace (length [] + 2 * length (a :: q))%nat with (S (1 + 2 * length q))%nat by (cbn; lia). rewrite E'. cbn [mbind option_bind fst snd]. exists s'. split; [|done].
      do 2 f_equal. rewrite Ef1, Hq. apply list_fmap_ext. intros i b Hb%list_elem_of_lookup_2. symmetry. symmetry. apply dpc_call_keep; [done|]. apply (dk_dom _ HK). unfold dpc_todo. by rewrite Ef, Eq.
  - destruct HS as ((d&Hd&->)&Hq&Hat). assert (fetched s1 = []) as Ef1 by (unfold fetched; by rewrite Hat).
    assert (fq = []) as ->. { unfold fetched in Ef. destruct (dpc_at s); naive_solver. }
    destruct (IH (S (2 * length (dpcq s)))%nat ltac:(cbn; lia) s1 HK1 HA1) as (s'&E'&H'); [by rewrite Ef1, Hq|].
    replace (length [a] + 2 * length (dpcq s))%nat with (S (2 * length (dpcq s)))%nat by (cbn; lia). rewrite E'. cbn [mbind option_bind fst snd]. exists s'. split; [|done].
    do 2 f_equal. rewrite Ef1, Hq. cbn [app fmap list_fmap]. f_equal; [unfold dpc_call; by rewrite Hd|]. apply list_fmap_ext. intros i b Hb%list_elem_of_lookup_2.
    apply dpc_call_keep; [done|]. apply (dk_dom _ HK). unfold dpc_todo. rewrite Ef. by right.
Qed.

(** A request that has just been made, and is not repeated, is called by the
    steps that follow or is still to be called. *)
Lemma dpc_request_stays l a fg s c s' : dpc_ok s -> dpc_awake s -> known l s -> (forall f g, DpcRequest a f g ∉ l) ->
  a ∈ dpc_todo s -> dpc_call s a = fg -> dpc_trace l s = Some (c, s') -> fg ∈ c \/ a ∈ dpc_todo s'.
Proof.
  revert s c. induction l as [|[b f g|] l IH]; intros s c HK HA HN Hl Ha Hc; cbn [dpc_trace]; [intros [= _ <-]; by right|..].
  - destruct (sched_dpc_ok b f g s HK) as (s1&E&HK1&Hq&Ho&Hat&Hf); [apply (HN b f g); by left|]. rewrite E. cbn [mbind option_bind].
    assert (b <> a) as Hne by (intros ->; apply (Hl f g); by left). apply (IH s1); [done| |intros x f' g' Hx; rewrite Ho; apply lookup_insert_is_Some'; right; apply (HN x f' g'); by right|intros f' g' Hx; apply (Hl f' g'); by right| |].
    + destruct HA as [Hst Haw]. split; rewrite Hat; case_decide; done.
    + unfold dpc_todo in *. rewrite Hf, Hq. revert Ha. rewrite !elem_of_app. intros [?|?]; [by left|]. right. destruct (decide (b ∈ dpcq s)); [assumption|]. apply elem_of_app. by left.
    + rewrite <- Hc. unfold dpc_call. by rewrite Ho, lookup_insert_ne.
  - destruct (dpc_thread_ok s HK HA) as (r&s1&E&HK1&HA1&HD&HF&HS). rewrite E. cbn [mbind option_bind fst snd].
    destruct (dpc_trace l s1) as [[c1 s2]|] eqn:E1; [|done]. cbn [mbind option_bind fst snd]. intros [= <- <-].
    assert (dpc_call s1 a = fg) as Hc1 by (rewrite <- Hc; apply dpc_call_keep; [done|by apply (dk_dom _ HK)]).
    assert (a ∈ dpc_todo s1 \/ r = Some fg) as [Ha1|Hr].
    { unfold dpc_todo in *. destruct (fetched s) as [|x fq] eqn:Ef.
      - left. destruct HS as [-> HS]. destruct (dpcq s) as [|x q]; [by apply elem_of_nil in Ha|]. destruct HS as [Hat Hq]. unfold fetched. by rewrite Hat, Hq.
      - destruct HS as ((d&Hd&->)&Hq&Hat). assert (fq = []) as ->. { unfold fetched in Ef. destruct (dpc_at s); naive_solver. }
        apply elem_of_cons in Ha as [->|Ha]; [right; rewrite <- Hc; unfold dpc_call; by rewrite Hd|left; rewrite Hq; apply elem_of_app; by right]. }
    + destruct (IH s1 c1 HK1 HA1) as [?|?]; try done; [intros x f' g' Hx; apply HD, (HN x f' g'); by right|intros f' g' Hx; apply (Hl f' g'); by right|left|by right]. destruct r; [by right|done].
    + left. rewrite Hr. by left.
Qed.

Lemma dpc_just_requested l a f g s c s0 : dpc_ok s -> dpc_awake s -> known (l ++ [DpcRequest a f g]) s ->
  dpc_trace (l ++ [DpcRequest a f g]) s = Some (c, s0) -> a ∈ dpc_todo s0 /\ dpc_call s0 a = (f, g).
Proof.
  intros HK HA HN E. assert (known l s) as HN1 by (intros x f' g' Hx; apply (HN x f' g'), elem_of_app; by left).
  destruct (dpc_trace_ok l s HK HA HN1) as (c1&s1&E1&HK1&HA1&HL). destruct (sched_dpc_ok a f g s1 HK1) as (s2&E2&_&Hq&Ho&_).
  { apply HL, (HN a f g), elem_of_app. right. by left. }
  assert (dpc_trace [DpcRequest a f g] s1 = Some ([], s2)) as E3 by (cbn; by rewrite E2). rewrite (dpc_trace_app _ _ _ _ _ _ _ E1 E3) in E. injection E as <- <-. split.
  - unfold dpc_todo. rewrite Hq. apply elem_of_app. right. destruct (decide (a ∈ dpcq s1)); [assumption|]. apply elem_of_app. right. by left.
  - unfold dpc_call. by rewrite Ho, lookup_insert_eq.
Qed.


(** From a state where the DPC thread has gone to sleep for the first time,
    whatever the interleaving of requests with its steps: the queue holds
    exactly the pending requests, each once, and the thread never sleeps
    while a request is pending. *)
Theorem dpc_no_lost_request l s : dpc_ok s -> dpc_awake s -> known l s ->
  exists c s', dpc_trace l s = Some (c, s') /\ dpc_ok s' /\ dpc_awake s'.
Proof. intros HK HA HN. destruct (dpc_trace_ok l s HK HA HN) as (c&s'&E&HK'&HA'&_). by exists c, s'. Qed.

(** ** Examples *)
Module DpcDemo.
(** Two requests pending for a thread that has been woken. *)
Definition s0 : dpcs := mk_dpcs {[ 16 := mk_dpc DPC_PENDING 100 1; 32 := mk_dpc DPC_PENDING 200 2 ]} [16; 32] DpcWoken.

Lemma s0_ok : dpc_ok s0.
Proof.
  split.
  - apply (bool_decide_unpack _). by vm_compute.
  - intros a Ha. cbn in Ha. rewrite elem_of_cons, list_elem_of_singleton in Ha. destruct Ha as [->| ->]; by eexists.
  - intros a d Hd. unfold s0 in *. cbn in *. rewrite lookup_insert_Some, lookup_singleton_Some in Hd. rewrite elem_of_cons, list_elem_of_singleton. destruct Hd as [[<- <-]|[_ [<- <-]]]; cbn; tauto.
Qed.

(** The first request is overtaken while the thread is about to call it. *)
Definition events : list dpc_event := [DpcRun; DpcRequest 16 101 7; DpcRun; DpcRun].
Lemma events_known : known events s0.
Proof.
  intros a func arg Hin. unfold events in Hin. rewrite !elem_of_cons in Hin.
  destruct Hin as [Hc|[Hc|[Hc|[Hc|Hc]]]]; try discriminate; [injection Hc as -> _ _; by eexists|by apply elem_of_nil in Hc].
Qed.


Lemma dpc_no_lost_request_witness : exists c s', dpc_trace events s0 = Some (c, s') /\ dpc_ok s' /\ dpc_awake s'.
Proof. exact (dpc_no_lost_request events s0 s0_ok ltac:(split; done) events_known). Defined.

(** A request made before the thread runs for the first time (while drivers
    initialise) wakes nobody: the thread then goes to sleep with the request on
    its queue, where it waits for the next one. *)
Definition boot : dpcs := mk_dpcs {[ 16 := mk_dpc 0 0 0 ]} [] DpcStart.
Example dpc_early_request : (fun r => (fst r, dpcq (snd r), dpc_at (snd r))) <$> dpc_trace [DpcRequest 16 100 1; DpcRun; DpcRun] boot = Some ([], [16], DpcSleeping).
Proof. vm_compute. reflexivity. Qed.
End DpcDemo.
