(* ===== verification/Tty.v ===== *)
(** * Tty: terminals, dev/gen/tty.c, and the serial line below them

    A terminal has three ring buffers of characters: what was typed
    ([t_rawq]), complete lines ([t_canq], canonical mode) and what waits for
    output ([t_outq]).  Characters arrive at interrupt level, tty_input(), and
    readers and writers are called through the device table (Device.v).

    Beside the fields of struct tty the state has what the code acts on: the
    characters handed to the hardware, the wakeups of the two events, the
    signals posted to [sig_task], and user memory.  The buffers hold [char]s,
    which are signed on the i386.  The routine that starts output, [t_oproc],
    is a parameter; serial_start() of dev/i386/pc/serial.c and console_start()
    of console.c are two.

    A routine that sleeps returns [Blocked] with what it has to resume with;
    interrupts and other calls run in between.  An index outside a buffer is a
    fault. *)
From stdpp Require Import base numbers gmap list.
From S2P Require Import Prelude Core Kernel UserMem Lib.

Open Scope Z_scope.

Definition TTYQ_SIZE := 256.
Definition TTYQ_HIWAT := 246.
Definition NCCS := 20%nat.
Definition VEOF := 0%nat.
Definition VEOL := 1%nat.
Definition VERASE := 3%nat.
Definition VKILL := 5%nat.
Definition VINTR := 8%nat.
Definition VQUIT := 9%nat.
Definition VSUSP := 10%nat.
Definition VSTART := 12%nat.
Definition VSTOP := 13%nat.
Definition INLCR := 0x40.
Definition IGNCR := 0x80.
Definition ICRNL := 0x100.
Definition IXON := 0x200.
Definition IXANY := 0x800.
Definition ONLCR := 2.
Definition OXTABS := 4.
Definition ECHOE := 2.
Definition ECHO := 8.
Definition ECHONL := 0x10.
Definition ISIG := 0x80.
Definition ICANON := 0x100.
Definition NOFLSH := 0x80000000.
Definition TS_ASLEEP := 1.
Definition TS_BUSY := 4.
Definition TS_TTSTOP := 0x200.
Definition FREAD := 1.
Definition FWRITE := 2.
Definition O_NONBLOCK := 4.
Definition SIGINT := 2.
Definition SIGQUIT := 3.
Definition SIGTSTP := 18.

(** The characters the code names. *)
Definition BS := 8.
Definition TAB := 9.
Definition NL := 10.
Definition CR := 13.
Definition SPACE := 32.

Definition has (w f : Z) : bool := negb (Z.land w f =? 0).
Definition is_ctrl (c : Z) : bool := (c <? 32) || (c =? 0x7f).

(** ** Queues *)
Record tty_queue := mk_ttyq { tq_buf : list Z; tq_head : Z; tq_tail : Z; tq_count : Z }.
#[export] Instance tty_queue_eta : Settable tty_queue := fun x => mk_ttyq (tq_buf x) (tq_head x) (tq_tail x) (tq_count x).

Definition ttyq_next (i : Z) : Z := Z.land (i + 1) (TTYQ_SIZE - 1).
Definition ttyq_prev (i : Z) : Z := Z.land (i - 1) (TTYQ_SIZE - 1).
Definition ttyq_full (q : tty_queue) : bool := TTYQ_SIZE <=? tq_count q.
Definition ttyq_empty (q : tty_queue) : bool := tq_count q =? 0.

(** tq_buf[i], with the bounds of the array. *)
Definition tq_at (q : tty_queue) (i : Z) : option Z := if 0 <=? i then tq_buf q !! Z.to_nat i else None.

Definition ttyq_getc (q : tty_queue) : option (Z * tty_queue) :=
  if ttyq_empty q then Some (-1, q)
  else
    c ← tq_at q (tq_head q);
    Some (c, q <| tq_head ::= ttyq_next |> <| tq_count ::= Z.pred |>).

Definition ttyq_putc (c : Z) (q : tty_queue) : option tty_queue :=
  if ttyq_full q then Some q
  else
    _ ← tq_at q (tq_tail q);
    Some (q <| tq_buf ::= <[Z.to_nat (tq_tail q) := char_of c]> |> <| tq_tail ::= ttyq_next |> <| tq_count ::= Z.succ |>).

Definition ttyq_unputc (q : tty_queue) : option (Z * tty_queue) :=
  if ttyq_empty q then Some (-1, q)
  else
    let q := q <| tq_tail ::= ttyq_prev |> in
    c ← tq_at q (tq_tail q);
    Some (c, q <| tq_count ::= Z.pred |>).

(** while ((c = ttyq_getc(from)) != -1) ttyq_putc(c, to); the fuel is one more
    than the characters in [from]. *)
Fixpoint catq_loop (n : nat) (from to : tty_queue) : option (tty_queue * tty_queue) :=
  match n with
  | O => None
  | S n =>
      r ← ttyq_getc from;
      let '(c, from) := r in
      if c =? -1 then Some (from, to) else to ← ttyq_putc c to; catq_loop n from to
  end.
Definition tty_catq (from to : tty_queue) : option (tty_queue * tty_queue) := catq_loop (S (Z.to_nat (tq_count from))) from to.

(** while (ttyq_getc(q) != -1); *)
Fixpoint drain_loop (n : nat) (q : tty_queue) : option tty_queue :=
  match n with
  | O => None
  | S n => r ← ttyq_getc q; let '(c, q) := r in if c =? -1 then Some q else drain_loop n q
  end.
Definition drain (q : tty_queue) : option tty_queue := drain_loop (S (Z.to_nat (tq_count q))) q.

(** ** Terminals *)
Record termios := mk_termios {
  c_iflag : Z; c_oflag : Z; c_cflag : Z; c_lflag : Z;
  c_cc : list Z;             (* NCCS unsigned characters *)
  c_ispeed : Z; c_ospeed : Z;
}.
Record winsize := mk_winsize { ws_row : Z; ws_col : Z; ws_xpixel : Z; ws_ypixel : Z }.

Record tty := mk_tty {
  t_rawq : tty_queue;
  t_canq : tty_queue;
  t_outq : tty_queue;
  t_termios : termios;
  t_winsize : winsize;
  t_state : Z;
  t_column : Z;
  t_pgid : Z;
  sig_task : Z;              (* a static variable of the driver *)
  t_sent : list Z;           (* characters handed to the hardware *)
  t_in_wakeups : nat;        (* sched_wakeup(&tp->t_input) *)
  t_out_wakeups : nat;       (* sched_wakeup(&tp->t_output) *)
  t_posted : list (Z * Z);   (* exception_post(task, signal) *)
  t_umem : gmap (Z * Z) Z;   (* user memory *)
}.
#[export] Instance tty_eta : Settable tty := fun x =>
  mk_tty (t_rawq x) (t_canq x) (t_outq x) (t_termios x) (t_winsize x) (t_state x) (t_column x) (t_pgid x) (sig_task x)
    (t_sent x) (t_in_wakeups x) (t_out_wakeups x) (t_posted x) (t_umem x).

Definition t_iflag (s : tty) : Z := c_iflag (t_termios s).
Definition t_oflag (s : tty) : Z := c_oflag (t_termios s).
Definition t_lflag (s : tty) : Z := c_lflag (t_termios s).
Definition t_cc (s : tty) (i : nat) : Z := default 0 (c_cc (t_termios s) !! i).

Definition set_state (f : Z) (s : tty) : tty := s <| t_state ::= fun w => Z.lor w f |>.
Definition clr_state (f : Z) (s : tty) : tty := s <| t_state ::= fun w => Z.ldiff w f |>.
Definition wakeup_input (s : tty) : tty := s <| t_in_wakeups ::= S |>.
Definition wakeup_output (s : tty) : tty := s <| t_out_wakeups ::= S |>.
Definition upd_rawq (q : tty_queue) (s : tty) : tty := s <| t_rawq := q |>.
Definition out_putc (c : Z) (s : tty) : option tty := q ← ttyq_putc c (t_outq s); Some (s <| t_outq := q |>).

(** do ttyq_putc(' ', &tp->t_outq); while (--i > 0); *)
Fixpoint put_spaces (i : nat) (s : tty) : option tty :=
  match i with
  | O => Some s
  | S i => s ← out_putc SPACE s; put_spaces i s
  end.

(** The column after [c]. *)
Definition next_column (c col : Z) : Z :=
  if c =? BS then (if 0 <? col then col - 1 else col)
  else if c =? TAB then Z.ldiff (col + 8) 7
  else if (c =? NL) || (c =? CR) then 0
  else if negb (is_ctrl c) then col + 1 else col.

Definition tty_output (c : Z) (s : tty) : option tty :=
  if negb (has (t_lflag s) ICANON) then out_putc c s
  else if (c =? TAB) && has (t_oflag s) OXTABS then
    let i := 8 - Z.land (t_column s) 7 in
    put_spaces (Z.to_nat i) (s <| t_column ::= Z.add i |>)
  else
    s ← (if (c =? NL) && has (t_oflag s) ONLCR then out_putc CR s else Some s);
    s ← out_putc c s;
    Some (s <| t_column ::= next_column c |>).

Definition tty_rubout (s : tty) : option tty :=
  if negb (has (t_lflag s) ECHO) then Some s
  else if has (t_lflag s) ECHOE then s ← tty_output BS s; s ← tty_output SPACE s; tty_output BS s
  else tty_output (t_cc s VERASE) s.

Definition tty_echo (c : Z) (s : tty) : option tty :=
  if negb (has (t_lflag s) ECHO) then
    if (c =? NL) && has (t_lflag s) ECHONL then tty_output NL s else Some s
  else if is_ctrl c && negb (c =? NL) && negb (c =? TAB) && negb (c =? BS) then
    s ← tty_output 94 s; tty_output (c + 65 - 1) s
  else tty_output c s.

Definition tty_done (s : tty) : tty :=
  let s := if tq_count (t_outq s) =? 0 then clr_state TS_BUSY s else s in
  if has (t_state s) TS_ASLEEP then wakeup_output (clr_state TS_ASLEEP s) else s.

(** What a call of a task comes to; [A] is what it resumes with after a sleep. *)
Inductive outcome (A : Type) :=
  | Returned (err count : Z) (s : tty)
  | Blocked (a : A) (s : tty).
Arguments Returned {A} err count s.
Arguments Blocked {A} a s.

Section Tty.
(** t_oproc: the routine of the hardware driver, or NULL. *)
Context (t_oproc : option (tty -> option tty)).

Definition tty_start (s : tty) : option tty :=
  if has (t_state s) (Z.lor TS_TTSTOP TS_BUSY) then Some s
  else match t_oproc with Some f => f s | None => Some s end.

Definition tty_flush (rw : Z) (s : tty) : option tty :=
  s ← (if has rw FREAD then
         can ← drain (t_canq s); raw ← drain (t_rawq s);
         Some (wakeup_input (s <| t_canq := can |> <| t_rawq := raw |>))
       else Some s);
  if has rw FWRITE then tty_start (clr_state TS_TTSTOP s) else Some s.

(** *** Input *)

(** Label restartoutput of tty_input(). *)
Definition tty_restart (sig : Z) (s : tty) : option tty :=
  let s := clr_state TS_TTSTOP s in
  let s := if negb (sig =? -1) && negb (sig_task s =? 0) then s <| t_posted ::= fun l => l ++ [(sig_task s, sig)] |> else s in
  tty_start s.

(** Label endcase. *)
Definition tty_endcase (sig : Z) (s : tty) : option tty :=
  if has (t_state s) TS_TTSTOP && negb (has (t_iflag s) IXANY) && negb (t_cc s VSTART =? t_cc s VSTOP) then Some s
  else tty_restart sig s.

(** while (!ttyq_empty(&tp->t_rawq)) { ttyq_unputc(); tty_rubout(); } *)
Fixpoint kill_loop (n : nat) (s : tty) : option tty :=
  if ttyq_empty (t_rawq s) then Some s
  else
    match n with
    | O => None
    | S n => r ← ttyq_unputc (t_rawq s); s ← tty_rubout (upd_rawq (snd r) s); kill_loop n s
    end.

(** A character that is input: the check for overflow and what follows. *)
Definition tty_input_char (c : Z) (s : tty) : option tty :=
  if ttyq_full (t_rawq s) then s ← tty_flush (Z.lor FREAD FWRITE) s; tty_endcase (-1) s
  else
    q ← ttyq_putc c (t_rawq s);
    let s := upd_rawq q s in
    s ← (if has (t_lflag s) ICANON then
           if (c =? NL) || (c =? t_cc s VEOF) || (c =? t_cc s VEOL) then
             r ← tty_catq (t_rawq s) (t_canq s);
             let '(raw, can) := r in
             Some (wakeup_input (s <| t_rawq := raw |> <| t_canq := can |>))
           else Some s
         else Some (wakeup_input s));
    s ← (if has (t_lflag s) ECHO then tty_echo c s else Some s);
    tty_endcase (-1) s.

(** The signal characters: quit and suspend. *)
Definition tty_input_sig (c : Z) (s : tty) : option tty :=
  let signal sig :=
    s ← (if negb (has (t_lflag s) NOFLSH) then tty_flush (Z.lor FREAD FWRITE) s else Some s);
    s ← tty_echo c s;
    tty_endcase sig s in
  if has (t_lflag s) ISIG then
    if (c =? t_cc s VINTR) || (c =? t_cc s VQUIT) then signal (if c =? t_cc s VINTR then SIGINT else SIGQUIT)
    else if c =? t_cc s VSUSP then signal SIGTSTP
    else tty_input_char c s
  else tty_input_char c s.

(** The editing characters: erase and kill. *)
Definition tty_input_edit (c : Z) (s : tty) : option tty :=
  if has (t_lflag s) ICANON then
    if (c =? t_cc s VERASE) || (c =? BS) then
      s ← (if negb (ttyq_empty (t_rawq s)) then r ← ttyq_unputc (t_rawq s); tty_rubout (upd_rawq (snd r) s) else Some s);
      tty_endcase (-1) s
    else if c =? t_cc s VKILL then
      s ← kill_loop (Z.to_nat (tq_count (t_rawq s))) s;
      tty_endcase (-1) s
    else tty_input_sig c s
  else tty_input_sig c s.

(** The flow control characters: stop and start. *)
Definition tty_input_flow (c : Z) (s : tty) : option tty :=
  if has (t_iflag s) IXON then
    if c =? t_cc s VSTOP then
      if negb (has (t_state s) TS_TTSTOP) then Some (set_state TS_TTSTOP s)
      else if negb (c =? t_cc s VSTART) then Some s
      else tty_endcase (-1) s
    else if c =? t_cc s VSTART then tty_restart (-1) s
    else tty_input_edit c s
  else tty_input_edit c s.

Definition tty_input (c : Z) (s : tty) : option tty :=
  if c =? CR then
    if has (t_iflag s) IGNCR then tty_endcase (-1) s
    else tty_input_flow (if has (t_iflag s) ICRNL then NL else c) s
  else tty_input_flow (if (c =? NL) && has (t_iflag s) INLCR then CR else c) s.

(** *** Calls of tasks

    The functions below run from the start of a call or the end of a sleep to
    its end or the next sleep.  In the code interrupts may come in between, for
    only the single queue operations lock them out: TtyIntr has the calls in
    steps, and shows what these functions are of them.

    [m] is the address space of the caller. *)
Definition tty_copyout (m a : Z) (bs : list Z) (s : tty) : bool * tty :=
  if umem_ok a (Z.of_nat (length bs)) then let '(ok, M) := uwrite (t_umem s) m a bs in (ok, s <| t_umem := M |>) else (false, s).
Definition tty_copyin (m a : Z) (n : nat) (s : tty) : option (list Z) :=
  if umem_ok a (Z.of_nat n) then uread (t_umem s) m a n else None.

(** qp = (lflag & ICANON) ? &tp->t_canq : &tp->t_rawq; *)
Definition in_queue (lflag : Z) (s : tty) : tty_queue := if has lflag ICANON then t_canq s else t_rawq s.
Definition set_in_queue (lflag : Z) (q : tty_queue) (s : tty) : tty := if has lflag ICANON then s <| t_canq := q |> else s <| t_rawq := q |>.

(** while (count < *nbyte) ...; every round takes a character. *)
Fixpoint read_loop (n : nat) (m lflag buf nbyte count : Z) (s : tty) : option (outcome Z) :=
  match n with
  | O => None
  | S n =>
      if negb (count <? nbyte) then Some (Returned 0 count s)
      else
        r ← ttyq_getc (in_queue lflag s);
        let '(c, q) := r in
        let s := set_in_queue lflag q s in
        if c =? -1 then Some (Returned 0 count s)
        else if (c =? t_cc s VEOF) && has lflag ICANON then Some (Returned 0 count s)
        else
          let count := count + 1 in
          match tty_copyout m buf [c mod 256] s with
          | (false, s) => Some (Returned EFAULT nbyte s)
          | (true, s) =>
              if has lflag ICANON && ((c =? NL) || (c =? t_cc s VEOL)) then Some (Returned 0 count s)
              else read_loop n m lflag (buf + 1) nbyte count s
          end
  end.

(** while (ttyq_empty(qp)) sched_sleep(); then the transfer.  A reader that
    sleeps has its copy of the local flags. *)
Definition tty_read_wait (m lflag buf nbyte : Z) (s : tty) : option (outcome Z) :=
  if ttyq_empty (in_queue lflag s) then Some (Blocked lflag s)
  else read_loop (S (Z.to_nat (tq_count (in_queue lflag s)))) m lflag buf nbyte 0 s.

Definition tty_read (m f_flags buf nbyte : Z) (s : tty) : option (outcome Z) :=
  let lflag := t_lflag s in
  if has f_flags O_NONBLOCK && ttyq_empty (in_queue lflag s) then Some (Returned EAGAIN nbyte s)
  else tty_read_wait m lflag buf nbyte s.

(** A reader whose sched_sleep() returned [rc]. *)
Definition tty_read_wake (m lflag buf nbyte rc : Z) (s : tty) : option (outcome Z) :=
  if rc =? SLP_INTR then Some (Returned EINTR nbyte s) else tty_read_wait m lflag buf nbyte s.

(** while (remain > 0) ...; a round in which tty_start() makes room continues
    with the same character.  A writer that sleeps resumes at the head of the
    loop with its [remain], [buf] and [count]. *)
Fixpoint write_loop (remain : nat) (m buf nbyte count : Z) (s : tty) : option (outcome (nat * Z * Z)) :=
  match remain with
  | O => s ← tty_start s; Some (Returned 0 count s)
  | S remain' =>
      let put s :=
        match tty_copyin m buf 1 s with
        | Some [c] => s ← tty_output c s; write_loop remain' m (buf + 1) nbyte (count + 1) s
        | _ => Some (Returned EFAULT nbyte s)
        end in
      if TTYQ_HIWAT <? tq_count (t_outq s) then
        s ← tty_start s;
        if tq_count (t_outq s) <=? TTYQ_HIWAT then put s
        else Some (Blocked (remain, buf, count) (set_state TS_ASLEEP s))
      else put s
  end.
Definition tty_write (m buf nbyte : Z) (s : tty) : option (outcome (nat * Z * Z)) := write_loop (Z.to_nat nbyte) m buf nbyte 0 s.

(** *** ioctl *)
Definition IOC_VOID := 0x20000000.
Definition IOC_OUT := 0x40000000.
Definition IOC_IN := 0x80000000.
Definition _IOC (inout group num len : Z) : Z := Z.lor (Z.lor (Z.lor inout (Z.shiftl (Z.land len 0x1fff) 16)) (Z.shiftl group 8)) num.
Definition SIZEOF_TERMIOS := 44.
Definition SIZEOF_WINSIZE := 8.
Definition TIOCFLUSH := _IOC IOC_IN 116 16 4.
Definition TIOCGETA := _IOC IOC_OUT 116 19 SIZEOF_TERMIOS.
Definition TIOCSETA := _IOC IOC_IN 116 20 SIZEOF_TERMIOS.
Definition TIOCSETAW := _IOC IOC_IN 116 21 SIZEOF_TERMIOS.
Definition TIOCSETAF := _IOC IOC_IN 116 22 SIZEOF_TERMIOS.
Definition TIOCGPGRP := _IOC IOC_OUT 116 119 4.
Definition TIOCSPGRP := _IOC IOC_IN 116 118 4.
Definition TIOCOUTQ := _IOC IOC_OUT 116 115 4.
Definition TIOCSTOP := _IOC IOC_VOID 116 111 0.
Definition TIOCSTART := _IOC IOC_VOID 116 110 0.
Definition TIOCGWINSZ := _IOC IOC_OUT 116 104 SIZEOF_WINSIZE.
Definition TIOCSWINSZ := _IOC IOC_IN 116 103 SIZEOF_WINSIZE.
Definition TIOCSETSIGT := _IOC IOC_IN 116 200 4.
Definition TIOCINQ := _IOC IOC_OUT 116 201 4.

(** struct termios and struct winsize in memory: four words, the control
    characters, two longs; four half words. *)
Definition bytes_of_termios (t : termios) : list Z :=
  bytes_of_word (c_iflag t) ++ bytes_of_word (c_oflag t) ++ bytes_of_word (c_cflag t) ++ bytes_of_word (c_lflag t) ++
  c_cc t ++ bytes_of_word (u32 (c_ispeed t)) ++ bytes_of_word (u32 (c_ospeed t)).
Definition word_at (i : nat) (l : list Z) : Z := word_of_bytes (take 4 (drop i l)).
Definition termios_of_bytes (l : list Z) : termios :=
  mk_termios (word_at 0 l) (word_at 4 l) (word_at 8 l) (word_at 12 l) (take NCCS (drop 16 l)) (s32 (word_at 36 l)) (s32 (word_at 40 l)).
Definition bytes_of_half (w : Z) : list Z := take 2 (bytes_of_word w).
Definition bytes_of_winsize (w : winsize) : list Z :=
  bytes_of_half (ws_row w) ++ bytes_of_half (ws_col w) ++ bytes_of_half (ws_xpixel w) ++ bytes_of_half (ws_ypixel w).

(** if (umem_copyout(...)) return EFAULT; break; and the same for copyin. *)
Definition ioctl_out (m data : Z) (bs : list Z) (s : tty) : outcome unit :=
  let '(ok, s) := tty_copyout m data bs s in Returned (if (ok : bool) then 0 else EFAULT) 0 s.
Definition ioctl_in (m data : Z) (n : nat) (f : list Z -> tty -> tty) (s : tty) : outcome unit :=
  match tty_copyin m data n s with Some bs => Returned 0 0 (f bs s) | None => Returned EFAULT 0 s end.

(** The loop of tty_wait(), up to its sleep or its end. *)
Definition wait_round (f : tty -> option tty) (s : tty) : option (bool * tty) :=
  s ← f s; Some (if negb (has (t_state s) TS_BUSY) then (true, s) else (false, set_state TS_ASLEEP s)).
Definition tty_wait (s : tty) : option (bool * tty) :=
  match t_oproc with
  | Some f => if 0 <? tq_count (t_outq s) then wait_round f (set_state TS_BUSY s) else Some (true, s)
  | None => Some (true, s)
  end.

(** TIOCSETAW and TIOCSETAF after tty_wait(). *)
Definition ioctl_seta (m cmd data : Z) (s : tty) : option (outcome unit) :=
  s ← (if cmd =? TIOCSETAF then tty_flush FREAD s else Some s);
  Some (ioctl_in m data (Z.to_nat SIZEOF_TERMIOS) (fun bs s => s <| t_termios := termios_of_bytes bs |>) s).
Definition ioctl_waited (m cmd data : Z) (r : bool * tty) : option (outcome unit) :=
  let '(done, s) := r in if (done : bool) then ioctl_seta m cmd data s else Some (Blocked tt s).

(** [tp_winsize] is the address of tp->t_winsize, which TIOCSWINSZ passes to
    umem_copyin() as the user address; a kernel address fails there. *)
Definition tty_ioctl (tp_winsize m cmd data : Z) (s : tty) : option (outcome unit) :=
  if cmd =? TIOCGETA then Some (ioctl_out m data (bytes_of_termios (t_termios s)) s)
  else if (cmd =? TIOCSETAW) || (cmd =? TIOCSETAF) then r ← tty_wait s; ioctl_waited m cmd data r
  else if cmd =? TIOCSETA then ioctl_seta m cmd data s
  else if cmd =? TIOCSPGRP then Some (ioctl_in m data 4 (fun bs s => s <| t_pgid := s32 (word_of_bytes bs) |>) s)
  else if cmd =? TIOCGPGRP then Some (ioctl_out m data (bytes_of_word (u32 (t_pgid s))) s)
  else if cmd =? TIOCFLUSH then Some (ioctl_in m data 4 (fun _ s => s) s)
  else if cmd =? TIOCSTART then
    if has (t_state s) TS_TTSTOP then s ← tty_start (clr_state TS_TTSTOP s); Some (Returned 0 0 s) else Some (Returned 0 0 s)
  else if cmd =? TIOCSTOP then Some (Returned 0 0 (if negb (has (t_state s) TS_TTSTOP) then set_state TS_TTSTOP s else s))
  else if cmd =? TIOCGWINSZ then Some (ioctl_out m data (bytes_of_winsize (t_winsize s)) s)
  else if cmd =? TIOCSWINSZ then if umem_ok tp_winsize SIZEOF_WINSIZE then None else Some (Returned EFAULT 0 s)
  else if cmd =? TIOCSETSIGT then Some (ioctl_in m data 4 (fun bs s => s <| sig_task := word_of_bytes bs |>) s)
  else if cmd =? TIOCINQ then Some (ioctl_out m data (bytes_of_word (tq_count (in_queue (t_lflag s) s))) s)
  else if cmd =? TIOCOUTQ then Some (ioctl_out m data (bytes_of_word (tq_count (t_outq s))) s)
  else Some (Returned 0 0 s).

(** TIOCSETAW or TIOCSETAF whose sleep in tty_wait() ended. *)
Definition tty_ioctl_wake (m cmd data : Z) (s : tty) : option (outcome unit) :=
  match t_oproc with Some f => r ← wait_round f s; ioctl_waited m cmd data r | None => None end.
End Tty.

(** ** Initialisation *)
Definition ttydefchars : list Z := [4; 255; 255; 127; 23; 21; 18; 255; 3; 28; 26; 25; 17; 19; 22; 15; 1; 0; 255; 255].
Definition TTYDEF_IFLAG := Z.lor (Z.lor (Z.lor 2 ICRNL) IXON) IXANY.
Definition TTYDEF_OFLAG := Z.lor (Z.lor 1 ONLCR) OXTABS.
Definition TTYDEF_CFLAG := Z.lor (Z.lor 0x800 0x300) 0x4000.
Definition TTYDEF_LFLAG := Z.lor (Z.lor (Z.lor (Z.lor (Z.lor ECHO ICANON) ISIG) ECHOE) 4) ECHONL.
Definition TTYDEF_SPEED := 9600.

Definition zero_queue : tty_queue := mk_ttyq (replicate (Z.to_nat TTYQ_SIZE) 0) 0 0 0.
(** The fields of struct tty; the rest of the state stays. *)
Definition tty_init (s : tty) : tty :=
  s <| t_rawq := zero_queue |> <| t_canq := zero_queue |> <| t_outq := zero_queue |>
    <| t_termios := mk_termios TTYDEF_IFLAG TTYDEF_OFLAG TTYDEF_CFLAG TTYDEF_LFLAG ttydefchars TTYDEF_SPEED TTYDEF_SPEED |>
    <| t_winsize := mk_winsize 0 0 0 0 |> <| t_state := 0 |> <| t_column := 0 |> <| t_pgid := 0 |>.

(** ** The drivers below

    while ((c = ttyq_getc(&tp->t_outq)) >= 0) put_char(c); *)
Fixpoint send_loop (n : nat) (s : tty) : option tty :=
  match n with
  | O => None
  | S n =>
      r ← ttyq_getc (t_outq s);
      let '(c, q) := r in
      let s := s <| t_outq := q |> in
      if 0 <=? c then send_loop n (s <| t_sent ::= fun l => l ++ [c] |>) else Some s
  end.
Definition serial_start (s : tty) : option tty := send_loop (S (Z.to_nat (tq_count (t_outq s)))) s.
Definition console_start (s : tty) : option tty := s ← send_loop (S (Z.to_nat (tq_count (t_outq s)))) s; Some (tty_done s).

(** serial_isr(): [iir] and [data] are what the two registers hold. *)
Definition IIR_MASK := 7.
Definition IIR_TXB := 2.
Definition IIR_RXB := 4.
Definition serial_isr (iir data : Z) (s : tty) : option tty :=
  let iir := Z.land iir IIR_MASK in
  if iir =? IIR_TXB then Some (tty_done s)
  else if iir =? IIR_RXB then tty_input (Some serial_start) data s
  else Some s.
