(* ===== verification/TtyQueue.v ===== *)
(** * TtyQueue: the ring buffers of the terminals are queues

    [contents q] is the sequence of characters in a ring buffer.  Within the
    invariant [tq_ok] the operations of dev/gen/tty.c add and take characters
    at the ends of that sequence, drop what does not fit into 256 characters,
    and never leave the array. *)
From stdpp Require Import base numbers gmap list.
From S2P Require Import Prelude Core Kernel UserMem Lib Tty.

Open Scope Z_scope.

Definition tq_ok (q : tty_queue) : Prop :=
  length (tq_buf q) = Z.to_nat TTYQ_SIZE /\ 0 <= tq_head q < TTYQ_SIZE /\ 0 <= tq_count q <= TTYQ_SIZE /\
  tq_tail q = (tq_head q + tq_count q) mod TTYQ_SIZE /\ Forall (fun c => -128 <= c < 128) (tq_buf q).

Definition slot (q : tty_queue) (i : nat) : Z := default 0 (tq_buf q !! Z.to_nat ((tq_head q + Z.of_nat i) mod TTYQ_SIZE)).
Definition contents (q : tty_queue) : list Z := slot q <$> seq 0 (Z.to_nat (tq_count q)).

Lemma ttyq_next_mod i : ttyq_next i = (i + 1) mod TTYQ_SIZE.
Proof. unfold ttyq_next, TTYQ_SIZE. change (256 - 1) with (Z.ones 8). by rewrite Z.land_ones. Qed.
Lemma ttyq_prev_mod i : ttyq_prev i = (i - 1) mod TTYQ_SIZE.
Proof. unfold ttyq_prev, TTYQ_SIZE. change (256 - 1) with (Z.ones 8). by rewrite Z.land_ones. Qed.

Lemma length_contents q : length (contents q) = Z.to_nat (tq_count q).
Proof. unfold contents. by rewrite length_fmap, length_seq. Qed.

Lemma tq_count_contents q : tq_ok q -> tq_count q = Z.of_nat (length (contents q)).
Proof. intros (_&_&?&_). rewrite length_contents. lia. Qed.

Lemma contents_bound q : tq_ok q -> (length (contents q) <= Z.to_nat TTYQ_SIZE)%nat.
Proof. intros (_&_&?&_). rewrite length_contents. unfold TTYQ_SIZE in *. lia. Qed.

Lemma ttyq_empty_iff q : tq_ok q -> ttyq_empty q = bool_decide (contents q = []).
Proof.
  intros H. unfold ttyq_empty. rewrite tq_count_contents by done. case_bool_decide as Hc; [by rewrite Hc|].
  apply Z.eqb_neq. destruct (contents q); [done|cbn; lia].
Qed.

Lemma ttyq_full_iff q : tq_ok q -> ttyq_full q = bool_decide (Z.to_nat TTYQ_SIZE <= length (contents q))%nat.
Proof.
  intros H. unfold ttyq_full. rewrite tq_count_contents by done. unfold TTYQ_SIZE. case_bool_decide; [apply Z.leb_le|apply Z.leb_gt]; lia.
Qed.

(** Indices stay inside the array. *)
Lemma tq_at_ok q i : tq_ok q -> 0 <= i < TTYQ_SIZE -> exists c, tq_at q i = Some c /\ tq_buf q !! Z.to_nat i = Some c /\ -128 <= c < 128.
Proof.
  intros (Hl&_&_&_&HF) Hi. unfold tq_at. rewrite (proj2 (Z.leb_le 0 i)) by lia.
  destruct (lookup_lt_is_Some_2 (tq_buf q) (Z.to_nat i)) as [c Hc]; [unfold TTYQ_SIZE in *; lia|]. exists c. split_and!; try done; by apply (Forall_lookup_1 _ _ _ _ HF Hc).
Qed.

Lemma contents_chars q : tq_ok q -> Forall (fun c => -128 <= c < 128) (contents q).
Proof.
  intros H. apply Forall_forall. intros c (i&->&_)%list_elem_of_fmap. unfold slot.
  destruct (tq_at_ok q ((tq_head q + Z.of_nat i) mod TTYQ_SIZE) H) as (c&_&->&?); [apply Z.mod_pos_bound; unfold TTYQ_SIZE; lia|done].
Qed.

Lemma slot_shift q q' : tq_buf q' = tq_buf q -> tq_head q' = (tq_head q + 1) mod TTYQ_SIZE -> forall i, slot q' i = slot q (S i).
Proof.
  intros Hb Hh i. unfold slot. rewrite Hb, Hh, Zplus_mod_idemp_l. do 4 f_equal. lia.
Qed.

Lemma ttyq_getc_ok q : tq_ok q ->
  match contents q with
  | [] => ttyq_getc q = Some (-1, q)
  | c :: l => exists q', ttyq_getc q = Some (c, q') /\ tq_ok q' /\ contents q' = l
  end.
Proof.
  intros H. pose proof H as (Hl&Hh&Hc&Ht&HF). unfold ttyq_getc. rewrite ttyq_empty_iff by done. destruct (contents q) as [|c l] eqn:E; [done|]. cbn [bool_decide].
  assert (0 < tq_count q) as Hpos by (rewrite tq_count_contents, E by done; cbn; lia).
  rewrite bool_decide_false by done. destruct (tq_at_ok q (tq_head q) H Hh) as (d&->&Hd&_). cbn [mbind option_bind].
  set (q' := q <| tq_head ::= ttyq_next |> <| tq_count ::= Z.pred |>).
  assert (forall i, slot q' i = slot q (S i)) as Hs by (apply slot_shift; [done|apply ttyq_next_mod]).
  unfold contents in E. replace (Z.to_nat (tq_count q)) with (S (Z.to_nat (Z.pred (tq_count q)))) in E by lia. cbn [seq fmap list_fmap] in E.
  injection E as E0 E1. exists q'. split; [|split].
  - do 2 f_equal. rewrite <- E0. unfold slot. rewrite Z.add_0_r, Z.mod_small, Hd by lia. done.
  - unfold tq_ok. cbn. rewrite ttyq_next_mod, Zplus_mod_idemp_l, Ht. split_and!; try done; try lia; try (apply Z.mod_pos_bound; unfold TTYQ_SIZE; lia).
    f_equal. lia.
  - unfold contents. cbn [tq_count q']. rewrite <- E1, <- fmap_S_seq, <- list_fmap_compose. apply list_fmap_ext. intros i x _. apply Hs.
Qed.

Lemma char_of_id c : -128 <= c < 128 -> char_of c = c.
Proof.
  intros Hc. unfold char_of. destruct (decide (0 <= c)); [rewrite Z.mod_small by lia; by rewrite (proj2 (Z.ltb_lt c 128)) by lia|].
  replace (c mod 256) with (c + 256) by (apply (Z.mod_unique _ _ (-1)); lia). rewrite (proj2 (Z.ltb_ge (c + 256) 128)) by lia. lia.
Qed.

(** Different positions of a buffer that is not full are different slots. *)
Lemma slot_inj h i j : 0 <= h < TTYQ_SIZE -> 0 <= i < j -> j < TTYQ_SIZE -> (h + i) mod TTYQ_SIZE <> (h + j) mod TTYQ_SIZE.
Proof. unfold TTYQ_SIZE. intros ? ? ? E. Z.to_euclidean_division_equations. lia. Qed.

Definition queue_put (c : Z) (l : list Z) : list Z := if decide (length l < Z.to_nat TTYQ_SIZE)%nat then l ++ [char_of c] else l.

Lemma ttyq_putc_ok c q : tq_ok q -> exists q', ttyq_putc c q = Some q' /\ tq_ok q' /\ contents q' = queue_put c (contents q).
Proof.
  intros H. pose proof H as (Hl&Hh&Hc&Ht&HF). unfold ttyq_putc, queue_put. rewrite ttyq_full_iff by done. case_bool_decide as Hf.
  { rewrite decide_False by lia. by exists q. }
  rewrite decide_True by lia. assert (tq_count q < TTYQ_SIZE) as Hlt by (rewrite length_contents in Hf; unfold TTYQ_SIZE in *; lia).
  assert (0 <= tq_tail q < TTYQ_SIZE) as Htr by (rewrite Ht; apply Z.mod_pos_bound; unfold TTYQ_SIZE; lia).
  destruct (tq_at_ok q (tq_tail q) H Htr) as (d&->&Hd&_). cbn [mbind option_bind]. eexists. split; [done|]. split.
  - unfold tq_ok. cbn. rewrite length_insert, ttyq_next_mod, Ht, Zplus_mod_idemp_l. split_and!; try done; try lia; [f_equal; lia|].
    apply Forall_insert; [done|apply char_of_range].
  - unfold contents. cbn [tq_count set]. replace (Z.to_nat (Z.succ (tq_count q))) with (Z.to_nat (tq_count q) + 1)%nat by lia.
    rewrite seq_app, fmap_app. f_equal.
    + apply list_fmap_ext. intros i x Hx. apply lookup_seq in Hx as [-> Hx]. unfold slot. cbn. rewrite list_lookup_insert_ne; [done|].
      rewrite Ht. intros E%Z2Nat.inj; try (apply Z.mod_pos_bound; unfold TTYQ_SIZE; lia). symmetry in E. revert E. apply slot_inj; lia.
    + cbn [seq fmap list_fmap Nat.add]. unfold slot. cbn. rewrite Z2Nat.id by lia. rewrite <- Ht. by rewrite list_lookup_insert_eq by (unfold TTYQ_SIZE in *; lia).
Qed.

Lemma ttyq_unputc_ok q : tq_ok q -> contents q <> [] -> exists c q', ttyq_unputc q = Some (c, q') /\ tq_ok q' /\ contents q = contents q' ++ [c].
Proof.
  intros H Hne. pose proof H as (Hl&Hh&Hc&Ht&HF). unfold ttyq_unputc. rewrite ttyq_empty_iff, bool_decide_false by done.
  assert (0 < tq_count q) as Hpos by (rewrite tq_count_contents by done; destruct (contents q); [done|cbn; lia]).
  set (q1 := q <| tq_tail ::= ttyq_prev |>). assert (tq_tail q1 = (tq_head q + (tq_count q - 1)) mod TTYQ_SIZE) as Ht1.
  { cbn. rewrite ttyq_prev_mod, Ht, Zminus_mod_idemp_l. f_equal. lia. }
  destruct (tq_at_ok q (tq_tail q1) H) as (c&Hat&Hb&_); [rewrite Ht1; apply Z.mod_pos_bound; unfold TTYQ_SIZE; lia|].
  change (tq_at q1 (tq_tail q1)) with (tq_at q (tq_tail q1)). rewrite Hat. cbn [mbind option_bind]. exists c. eexists. split; [done|]. split.
  - unfold tq_ok. change (tq_tail (q1 <| tq_count ::= Z.pred |>)) with (tq_tail q1). rewrite Ht1. cbn. rewrite <- Z.sub_1_r. split_and!; try done; lia.
  - unfold contents. cbn [tq_count set]. replace (Z.to_nat (tq_count q)) with (Z.to_nat (Z.pred (tq_count q)) + 1)%nat by lia.
    rewrite seq_app, fmap_app. f_equal. cbn [seq fmap list_fmap Nat.add]. unfold slot. f_equal. rewrite Z2Nat.id by lia.
    rewrite <- Z.sub_1_r, <- Ht1, Hb. done.
Qed.

(** ** The loops *)
Lemma drain_loop_ok n q : tq_ok q -> (length (contents q) < n)%nat -> exists q', drain_loop n q = Some q' /\ tq_ok q' /\ (-1 ∉ contents q -> contents q' = []).
Proof.
  revert q. induction n as [|n IH]; intros q H Hn; [lia|]. pose proof (ttyq_getc_ok q H) as HG. cbn [drain_loop].
  destruct (contents q) as [|c l] eqn:E; [rewrite HG; by exists q|]. destruct HG as (q'&->&H'&El). cbn [mbind option_bind].
  destruct (Z.eqb_spec c (-1)) as [->|]; [exists q'; split_and!; [done..|]; intros Hx; set_solver|].
  destruct (IH q' H') as (q2&E2&H2&C2); [rewrite El; cbn in Hn; lia|]. exists q2. split_and!; [done..|]. intros Hx. apply C2. rewrite El. set_solver.
Qed.
Lemma drain_ok q : tq_ok q -> exists q', drain q = Some q' /\ tq_ok q' /\ (-1 ∉ contents q -> contents q' = []).
Proof. intros H. apply drain_loop_ok; [done|]. rewrite length_contents. lia. Qed.

Definition queue_cat (to from : list Z) : list Z := take (Z.to_nat TTYQ_SIZE) (to ++ from).

Lemma queue_cat_put to c from : -128 <= c < 128 -> (length to <= Z.to_nat TTYQ_SIZE)%nat -> queue_cat (queue_put c to) from = queue_cat to (c :: from).
Proof.
  intros Hc Hl. unfold queue_put, queue_cat. rewrite char_of_id by done. case_decide; [by rewrite <- app_assoc|].
  rewrite !take_app_le by lia. done.
Qed.

Lemma catq_loop_ok n from to : tq_ok from -> tq_ok to -> (length (contents from) < n)%nat ->
  exists from' to', catq_loop n from to = Some (from', to') /\ tq_ok from' /\ tq_ok to' /\
    (-1 ∉ contents from -> contents from' = [] /\ contents to' = queue_cat (contents to) (contents from)).
Proof.
  revert from to. induction n as [|n IH]; intros from to Hf Ht Hn; [lia|]. pose proof (ttyq_getc_ok from Hf) as HG. cbn [catq_loop].
  pose proof (contents_chars from Hf) as HC. destruct (contents from) as [|c l] eqn:E.
  { rewrite HG. cbn. exists from, to. split_and!; try done. intros _. split; [done|]. unfold queue_cat. rewrite app_nil_r, take_ge; [done|]. by apply contents_bound. }
  destruct HG as (f'&->&Hf'&El). cbn [mbind option_bind]. apply Forall_cons in HC as [Hc _].
  destruct (Z.eqb_spec c (-1)) as [->|]; [exists f', to; split_and!; try done; intros Hx; set_solver|].
  destruct (ttyq_putc_ok c to Ht) as (t'&->&Ht'&Et). cbn [mbind option_bind].
  destruct (IH f' t' Hf' Ht') as (f2&t2&E2&Hf2&Ht2&C2); [rewrite El; cbn in Hn; lia|]. exists f2, t2. split_and!; try done.
  intros Hx. destruct C2 as [-> ->]; [rewrite El; set_solver|]. rewrite El, Et, queue_cat_put; [done|done|]. by apply contents_bound.
Qed.
Lemma tty_catq_ok from to : tq_ok from -> tq_ok to ->
  exists from' to', tty_catq from to = Some (from', to') /\ tq_ok from' /\ tq_ok to' /\
    (-1 ∉ contents from -> contents from' = [] /\ contents to' = queue_cat (contents to) (contents from)).
Proof. intros Hf Ht. apply catq_loop_ok; [done..|]. rewrite length_contents. lia. Qed.

Lemma zero_queue_ok : tq_ok zero_queue /\ contents zero_queue = [].
Proof.
  split; [|done]. unfold tq_ok, zero_queue, TTYQ_SIZE. cbn [tq_buf tq_head tq_tail tq_count].
  split_and!; [by rewrite length_replicate|lia..|done|apply Forall_replicate; lia].
Qed.
