(* ===== verification/TtySpec.v ===== *)
(** * TtySpec: the line discipline

    What a terminal does with a character that arrives, stated without buffers,
    echo and output ([classify], [effect]), and the proof that tty_input()
    refines it over any hardware driver that keeps to [TtyDriver].  Readers and
    writers: a typed line is what is read, and everything written is sent. *)
From stdpp Require Import base numbers gmap list.
From S2P Require Import Prelude Core Kernel UserMem Lib Tty TtyQueue.

Open Scope Z_scope.

Definition tty_ok (s : tty) : Prop := tq_ok (t_rawq s) /\ tq_ok (t_canq s) /\ tq_ok (t_outq s).
(** A character 0xff in a buffer of [char]s is -1, which the loops take for the
    end of the queue. *)
Definition clean (s : tty) : Prop := -1 ∉ contents (t_rawq s) /\ -1 ∉ contents (t_canq s).

(** ** The abstract terminal *)
Record lstate := mk_lstate {
  l_raw : list Z;             (* the line being typed *)
  l_can : list Z;             (* complete lines *)
  l_stopped : bool;
  l_wakeups : nat;            (* of readers *)
  l_posted : list (Z * Z);
}.
Definition abs (s : tty) : lstate :=
  mk_lstate (contents (t_rawq s)) (contents (t_canq s)) (has (t_state s) TS_TTSTOP) (t_in_wakeups s) (t_posted s).

Inductive action := AIgnore | AStop | AStart | AErase | AKill | ASignal (sig : Z) | AChar (c : Z).

Definition cc_of (t : termios) (i : nat) : Z := default 0 (c_cc t !! i).
(** What a character means, IGNCR, ICRNL and INLCR included. *)
Definition translate (t : termios) (c : Z) : option Z :=
  if c =? CR then if has (c_iflag t) IGNCR then None else Some (if has (c_iflag t) ICRNL then NL else CR)
  else Some (if (c =? NL) && has (c_iflag t) INLCR then CR else c).
Definition classify (t : termios) (c : Z) : action :=
  match translate t c with
  | None => AIgnore
  | Some c =>
      if has (c_iflag t) IXON && (c =? cc_of t VSTOP) then AStop
      else if has (c_iflag t) IXON && (c =? cc_of t VSTART) then AStart
      else if has (c_lflag t) ICANON && ((c =? cc_of t VERASE) || (c =? BS)) then AErase
      else if has (c_lflag t) ICANON && (c =? cc_of t VKILL) then AKill
      else if has (c_lflag t) ISIG && (c =? cc_of t VINTR) then ASignal SIGINT
      else if has (c_lflag t) ISIG && (c =? cc_of t VQUIT) then ASignal SIGQUIT
      else if has (c_lflag t) ISIG && (c =? cc_of t VSUSP) then ASignal SIGTSTP
      else AChar c
  end.

Definition restart (task sig : Z) (l : lstate) : lstate :=
  mk_lstate (l_raw l) (l_can l) false (l_wakeups l)
    (l_posted l ++ if negb (sig =? -1) && negb (task =? 0) then [(task, sig)] else []).
(** Any character restarts stopped output if IXANY is set. *)
Definition endcase (t : termios) (task sig : Z) (l : lstate) : lstate :=
  if l_stopped l && negb (has (c_iflag t) IXANY) && negb (cc_of t VSTART =? cc_of t VSTOP) then l else restart task sig l.
Definition flush_all (l : lstate) : lstate := mk_lstate [] [] false (S (l_wakeups l)) (l_posted l).
(** A character is added to the line; the end of a line moves it to the
    complete ones.  A full line is thrown away with all input. *)
Definition ends_line (t : termios) (c : Z) : bool := (c =? NL) || (c =? cc_of t VEOF) || (c =? cc_of t VEOL).
Definition add_char (t : termios) (c : Z) (l : lstate) : lstate :=
  let raw := l_raw l ++ [char_of c] in
  if decide (Z.to_nat TTYQ_SIZE <= length (l_raw l))%nat then flush_all l
  else if has (c_lflag t) ICANON then
    if ends_line t c then mk_lstate [] (queue_cat (l_can l) raw) (l_stopped l) (S (l_wakeups l)) (l_posted l)
    else mk_lstate raw (l_can l) (l_stopped l) (l_wakeups l) (l_posted l)
  else mk_lstate raw (l_can l) (l_stopped l) (S (l_wakeups l)) (l_posted l).

Definition set_raw (f : list Z -> list Z) (l : lstate) : lstate := mk_lstate (f (l_raw l)) (l_can l) (l_stopped l) (l_wakeups l) (l_posted l).
Definition set_stopped (l : lstate) : lstate := mk_lstate (l_raw l) (l_can l) true (l_wakeups l) (l_posted l).

Definition effect (t : termios) (task : Z) (a : action) (l : lstate) : lstate :=
  match a with
  | AIgnore => endcase t task (-1) l
  | AStop =>
      if negb (l_stopped l) then set_stopped l
      else if negb (cc_of t VSTOP =? cc_of t VSTART) then l else endcase t task (-1) l
  | AStart => restart task (-1) l
  | AErase => endcase t task (-1) (set_raw (fun r => take (length r - 1) r) l)
  | AKill => endcase t task (-1) (set_raw (fun _ => []) l)
  | ASignal sig => endcase t task sig (if has (c_lflag t) NOFLSH then l else flush_all l)
  | AChar c => endcase t task (-1) (add_char t c l)
  end.

(** ** What a hardware driver promises *)

(** The part of the state that output does not touch. *)
Definition in_view (s : tty) :=
  (t_rawq s, t_canq s, t_termios s, t_winsize s, t_pgid s, sig_task s, t_in_wakeups s, t_posted s, t_umem s, has (t_state s) TS_TTSTOP).

Class TtyDriver (oproc : option (tty -> option tty)) := oproc_ok :
  forall f s, oproc = Some f -> tty_ok s -> exists s', f s = Some s' /\ tty_ok s' /\ in_view s' = in_view s /\ t_column s' = t_column s /\
    (Forall (fun c => 0 <= c) (contents (t_outq s)) -> exists l, contents (t_outq s) = l ++ contents (t_outq s') /\ t_sent s' = t_sent s ++ l).

#[export] Instance no_driver : TtyDriver None.
Proof. intros f s [=]. Qed.

Lemma send_loop_ok n s : tty_ok s -> (length (contents (t_outq s)) < n)%nat ->
  exists s', send_loop n s = Some s' /\ tty_ok s' /\ in_view s' = in_view s /\ t_state s' = t_state s /\ t_column s' = t_column s /\
    (Forall (fun c => 0 <= c) (contents (t_outq s)) -> contents (t_outq s') = [] /\ t_sent s' = t_sent s ++ contents (t_outq s)).
Proof.
  revert s. induction n as [|n IH]; intros s H Hn; [lia|]. destruct H as (H1&H2&H3). cbn [send_loop]. pose proof (ttyq_getc_ok _ H3) as HG.
  destruct (contents (t_outq s)) as [|c l] eqn:E.
  { rewrite HG. cbn. eexists. split_and!; [done|done|done|done|done|]. cbn. by rewrite app_nil_r. }
  destruct HG as (q&->&Hq&El). cbn [mbind option_bind]. destruct (Z.leb_spec 0 c) as [Hc|Hc].
  - destruct (IH (s <| t_outq := q |> <| t_sent ::= fun l => l ++ [c] |>)) as (s'&->&H'&Ev&Es&Ec&Hs); [done|cbn; rewrite El; cbn in Hn; lia|].
    exists s'. split_and!; try done. intros [_ HF]%Forall_cons. destruct Hs as [Hs1 Hs2]; [cbn; by rewrite El|]. cbn in Hs2. split; [done|].
    by rewrite Hs2, El, <- app_assoc.
  - eexists. split_and!; [done|done|done|done|done|]. intros [? _]%Forall_cons. lia.
Qed.

Lemma serial_start_ok s : tty_ok s ->
  exists s', serial_start s = Some s' /\ tty_ok s' /\ in_view s' = in_view s /\ t_state s' = t_state s /\ t_column s' = t_column s /\
    (Forall (fun c => 0 <= c) (contents (t_outq s)) -> contents (t_outq s') = [] /\ t_sent s' = t_sent s ++ contents (t_outq s)).
Proof. intros H. apply send_loop_ok; [done|]. rewrite length_contents. lia. Qed.

#[export] Instance serial_driver : TtyDriver (Some serial_start).
Proof.
  intros f s [= <-] H. destruct (serial_start_ok s H) as (s'&E&H'&Ev&_&Ec&Hs). exists s'. split_and!; try done. intros HF. destruct (Hs HF) as [-> ->].
  eexists. by rewrite app_nil_r.
Qed.

(** Clearing other flags leaves a flag as it is. *)
Lemma has_ldiff w f g : Z.land g f = 0 -> has (Z.ldiff w f) g = has w g.
Proof.
  intros Hf. unfold has. do 2 f_equal. apply Z.bits_inj. intros i.
  assert (Z.testbit g i && Z.testbit f i = false) as Hi by (by rewrite <- Z.land_spec, Hf, Z.bits_0).
  rewrite !Z.land_spec, Z.ldiff_spec. destruct (Z.testbit g i), (Z.testbit f i), (Z.testbit w i); done.
Qed.

Lemma tty_done_view s : tty_ok s -> tty_ok (tty_done s) /\ in_view (tty_done s) = in_view s /\ t_column (tty_done s) = t_column s /\
  t_outq (tty_done s) = t_outq s /\ t_sent (tty_done s) = t_sent s.
Proof.
  intros H. unfold tty_done.
  assert (forall s f, Z.land TS_TTSTOP f = 0 -> in_view (clr_state f s) = in_view s) as HV.
  { intros x f Hf. unfold in_view, clr_state. cbn. f_equal. by apply has_ldiff. }
  set (s1 := if _ =? 0 then _ else s). assert (tty_ok s1 /\ in_view s1 = in_view s /\ t_column s1 = t_column s /\ t_outq s1 = t_outq s /\ t_sent s1 = t_sent s) as (H1&V1&C1&O1&S1).
  { unfold s1. destruct (_ =? 0); [|done]. split_and!; try done. by apply HV. }
  destruct (has (t_state s1) TS_ASLEEP); [|done]. split_and!; try done. rewrite <- V1, <- (HV s1 TS_ASLEEP); done.
Qed.

#[export] Instance console_driver : TtyDriver (Some console_start).
Proof.
  intros f s [= <-] H. unfold console_start. destruct (serial_start_ok s H) as (s'&E&H'&Ev&_&Ec&Hs). unfold serial_start in E. rewrite E. cbn [mbind option_bind].
  destruct (tty_done_view s' H') as (H2&V2&C2&O2&S2). eexists. split; [done|]. split; [done|]. split; [congruence|]. split; [congruence|]. intros HF. destruct (Hs HF) as [C C']. rewrite O2, S2, C, C'.
  eexists. by rewrite app_nil_r.
Qed.

(** ** Output of single characters *)

(** The characters that [c] puts into the output queue, and the new column. *)
Definition opost (t : termios) (col c : Z) : list Z * Z :=
  if negb (has (c_lflag t) ICANON) then ([c], col)
  else if (c =? TAB) && has (c_oflag t) OXTABS then
    let i := 8 - Z.land col 7 in (replicate (Z.to_nat i) SPACE, i + col)
  else ((if (c =? NL) && has (c_oflag t) ONLCR then [CR; c] else [c]), next_column c col).

Definition queue_puts (cs l : list Z) : list Z := foldl (fun l c => queue_put c l) l cs.

(** [s'] is [s] after putting [cs] into the output queue. *)
Definition put_out (cs : list Z) (s s' : tty) : Prop :=
  tty_ok s' /\ in_view s' = in_view s /\ t_state s' = t_state s /\ t_sent s' = t_sent s /\ contents (t_outq s') = queue_puts cs (contents (t_outq s)).

Lemma put_out_trans cs1 cs2 s1 s2 s3 : put_out cs1 s1 s2 -> put_out cs2 s2 s3 -> put_out (cs1 ++ cs2) s1 s3.
Proof.
  intros (?&?&?&?&E1) (?&?&?&?&E2). unfold put_out, queue_puts in *. rewrite foldl_app, <- E1. split_and!; try done; congruence.
Qed.

Lemma out_putc_ok c s : tty_ok s -> exists s', out_putc c s = Some s' /\ put_out [c] s s' /\ t_column s' = t_column s.
Proof.
  intros (H1&H2&H3). unfold out_putc. destruct (ttyq_putc_ok c _ H3) as (q&->&Hq&Eq). cbn [mbind option_bind]. eexists. split; [done|]. by unfold put_out.
Qed.

Lemma put_spaces_ok n s : tty_ok s -> exists s', put_spaces n s = Some s' /\ put_out (replicate n SPACE) s s' /\ t_column s' = t_column s.
Proof.
  revert s. induction n as [|n IH]; intros s H; cbn [put_spaces]; [by exists s|].
  destruct (out_putc_ok SPACE s H) as (s1&->&H1&C1). cbn [mbind option_bind]. destruct (IH s1) as (s2&E2&H2&C2); [apply H1|]. exists s2.
  split_and!; [done| |congruence]. apply (put_out_trans [SPACE] _ _ s1); done.
Qed.

Lemma tty_output_ok c s : tty_ok s ->
  exists s', tty_output c s = Some s' /\ put_out (opost (t_termios s) (t_column s) c).1 s s' /\ t_column s' = (opost (t_termios s) (t_column s) c).2.
Proof.
  intros H. unfold tty_output, opost, t_lflag, t_oflag. destruct (has _ ICANON); cbn [negb]; [|by apply out_putc_ok].
  destruct (_ && _) eqn:ET; [|].
  { set (i := 8 - _). destruct (put_spaces_ok (Z.to_nat i) (s <| t_column ::= Z.add i |>)) as (s'&E&HP&C); [exact H|]. exists s'.
    split; [exact E|]. split; [exact HP|exact C]. }
  set (nl := _ && has _ ONLCR).
  assert (exists s1 : tty, ((if nl then out_putc CR s else Some s) = Some s1) /\ put_out (if nl then [CR] else []) s s1 /\ t_column s1 = t_column s) as (s1&->&H1&C1)
    by (destruct nl; [by apply out_putc_ok|by exists s]).
  cbn [mbind option_bind]. destruct (out_putc_ok c s1) as (s2&->&H2&C2); [apply H1|]. cbn [mbind option_bind]. eexists. split; [done|]. cbn. split; [|by rewrite C2, C1].
  pose proof (put_out_trans _ _ _ _ _ H1 H2) as H3. by destruct nl.
Qed.

(** ** Steps of the abstract terminal *)

Definition rest (s : tty) := (t_termios s, t_winsize s, t_pgid s, sig_task s, t_umem s).

Section Steps.
(** What is known of the character that arrives. *)
Context {P : Prop}.

(** [r] is a state that is related to [s] by [f], if no 0xff is stored. *)
Definition does (r : option tty) (s : tty) (f : lstate -> lstate) : Prop :=
  exists s', r = Some s' /\ tty_ok s' /\ rest s' = rest s /\ (P -> clean s -> clean s' /\ abs s' = f (abs s)).

Lemma does_bind r s f k g : does r s f -> (forall s', tty_ok s' -> rest s' = rest s -> does (k s') s' g) -> does (r ≫= k) s (fun l => g (f l)).
Proof.
  intros (s1&->&H1&R1&A1) HK. destruct (HK s1 H1 R1) as (s2&E2&H2&R2&A2). exists s2. cbn. split_and!; [done|done|congruence|].
  intros HP C. destruct (A1 HP C) as [C1 E1]. destruct (A2 HP C1) as [C2 ->]. by rewrite E1.
Qed.

(** Only output happens. *)
Definition quiet (r : option tty) (s : tty) : Prop := exists s', r = Some s' /\ tty_ok s' /\ in_view s' = in_view s.

Lemma quiet_bind r s k : quiet r s -> (forall s', tty_ok s' -> quiet (k s') s') -> quiet (r ≫= k) s.
Proof. intros (s1&->&H1&V1) HK. destruct (HK s1 H1) as (s2&E2&H2&V2). exists s2. cbn. split_and!; [done|done|congruence]. Qed.
Lemma quiet_ret s : tty_ok s -> quiet (Some s) s.
Proof. intros H. by exists s. Qed.
Lemma quiet_output c s : tty_ok s -> quiet (tty_output c s) s.
Proof. intros H. destruct (tty_output_ok c s H) as (s'&E&(?&?&_)&_). by exists s'. Qed.

Lemma does_view r s : quiet r s -> does r s (fun l => l).
Proof.
  intros (s'&->&H'&V). unfold in_view in V. simplify_eq. exists s'. unfold rest, clean, abs. split_and!; try done; [congruence|].
  intros _ C. split; congruence.
Qed.

Lemma does_ret s : tty_ok s -> does (Some s) s (fun l => l).
Proof. intros H. apply does_view. by exists s. Qed.

Lemma quiet_rubout s : tty_ok s -> quiet (tty_rubout s) s.
Proof.
  intros H. unfold tty_rubout. destruct (negb _); [by apply quiet_ret|]. destruct (has _ _); [|by apply quiet_output].
  repeat (apply quiet_bind; [by apply quiet_output|]; intros ? ?). by apply quiet_output.
Qed.

Lemma quiet_echo c s : tty_ok s -> quiet (tty_echo c s) s.
Proof.
  intros H. unfold tty_echo. destruct (negb _), (_ && _); try (by apply quiet_ret); try (by apply quiet_output).
  apply quiet_bind; [by apply quiet_output|]. intros ? ?. by apply quiet_output.
Qed.

Lemma has_clr w f : has (Z.ldiff w f) f = false.
Proof. unfold has. by rewrite Z.land_ldiff. Qed.
Lemma has_set w f : 0 < f -> has (Z.lor w f) f = true.
Proof. intros Hf. unfold has. rewrite Z.land_comm, Z.land_lor_distr_r, Z.land_diag. destruct (Z.eqb_spec (Z.lor (Z.land f w) f) 0) as [E|]; [|done].
  apply Z.lor_eq_0_iff in E as [_ E]. lia. Qed.

Lemma does_eq r s f g : does r s f -> (abs s = abs s -> f (abs s) = g (abs s)) -> does r s g.
Proof. intros (s'&E&H&R&A) Hfg. exists s'. split_and!; try done. rewrite <- Hfg by done. done. Qed.

(** ** Editing the line *)

(** Output, and a new raw queue. *)
Lemma does_raw r s q f : (exists s', r = Some s' /\ tty_ok s' /\ in_view s' = in_view (upd_rawq q s)) -> contents q = f (contents (t_rawq s)) ->
  (P -> -1 ∉ contents (t_rawq s) -> -1 ∉ contents q) -> does r s (set_raw f).
Proof.
  intros (s'&->&H'&V) E Hc. unfold in_view in V. cbn in V. simplify_eq. exists s'. unfold rest, clean, abs, set_raw. cbn. split_and!; try done; [congruence|].
  intros HP [C1 C2]. rewrite <- E. split; [split; [by apply Hc|congruence]|congruence].
Qed.

Lemma erase_ok s : tty_ok s -> contents (t_rawq s) <> [] ->
  exists c q s', (r ← ttyq_unputc (t_rawq s); tty_rubout (upd_rawq (snd r) s)) = Some s' /\ tty_ok s' /\ in_view s' = in_view (upd_rawq q s) /\
    contents (t_rawq s) = contents q ++ [c].
Proof.
  intros (H1&H2&H3) Hne. destruct (ttyq_unputc_ok _ H1 Hne) as (c&q&->&Hq&Ec). cbn [mbind option_bind snd].
  destruct (quiet_rubout (upd_rawq q s)) as (s'&E&H'&V); [done|]. by exists c, q, s'.
Qed.

Lemma kill_loop_ok n s : tty_ok s -> (length (contents (t_rawq s)) <= n)%nat ->
  exists s' q, kill_loop n s = Some s' /\ tty_ok s' /\ in_view s' = in_view (upd_rawq q s) /\ contents q = [].
Proof.
  revert s. induction n as [|n IH]; intros s H Hn; cbn [kill_loop]; rewrite ttyq_empty_iff by apply H; case_bool_decide as HE.
  1,3: by exists s, (t_rawq s).
  { destruct (contents (t_rawq s)); [done|cbn in Hn; lia]. }
  destruct (erase_ok s H HE) as (c&q&s1&E1&H1&V1&Ec). destruct (ttyq_unputc (t_rawq s)) as [r|]; [|done]. cbn [mbind option_bind] in *. rewrite E1. cbn [mbind option_bind].
  assert (t_rawq s1 = q) as Eq by (unfold in_view in V1; cbn in V1; by simplify_eq).
  destruct (IH s1 H1) as (s2&q2&E2&H2&V2&C2); [rewrite Eq; rewrite Ec, length_app in Hn; cbn in Hn; lia|]. exists s2, q2. split_and!; try done.
  rewrite V2. clear V2. unfold in_view in *. cbn in *. simplify_eq. congruence.
Qed.

Section Discipline.
Context {oproc : option (tty -> option tty)} `{!TtyDriver oproc}.

Lemma tty_start_ok s : tty_ok s -> exists s', tty_start oproc s = Some s' /\ tty_ok s' /\ in_view s' = in_view s /\ t_column s' = t_column s /\
  (Forall (fun c => 0 <= c) (contents (t_outq s)) -> exists l, contents (t_outq s) = l ++ contents (t_outq s') /\ t_sent s' = t_sent s ++ l).
Proof.
  intros H. unfold tty_start. assert (exists s', Some s = Some s' /\ tty_ok s' /\ in_view s' = in_view s /\ t_column s' = t_column s /\
    (Forall (fun c => 0 <= c) (contents (t_outq s)) -> exists l, contents (t_outq s) = l ++ contents (t_outq s') /\ t_sent s' = t_sent s ++ l)) as Hid.
  { exists s. split_and!; try done. intros _. exists []. by rewrite app_nil_r. }
  destruct (has _ _); [done|]. destruct oproc as [f|] eqn:E; [|done]. by apply oproc_ok.
Qed.

Lemma does_start s : tty_ok s -> does (tty_start oproc s) s (fun l => l).
Proof. intros H. apply does_view. destruct (tty_start_ok s H) as (s'&E&?&?&_). by exists s'. Qed.

Lemma does_restart sig s : tty_ok s -> does (tty_restart oproc sig s) s (restart (sig_task s) sig).
Proof.
  intros H. unfold tty_restart. set (s1 := clr_state _ s).
  set (s2 := if negb (sig =? -1) && negb (sig_task s1 =? 0) then _ else s1).
  assert (does (Some s2) s (restart (sig_task s) sig)) as HD.
  { exists s2. assert (tty_ok s2 /\ rest s2 = rest s /\ contents (t_rawq s2) = contents (t_rawq s) /\ contents (t_canq s2) = contents (t_canq s)) as (H2&R2&C1&C2)
      by (unfold s2; by destruct (_ && _)). split_and!; try done. intros _ C. split; [unfold clean; by rewrite C1, C2|].
    unfold abs, restart. rewrite C1, C2. cbn. unfold s2. change (sig_task s1) with (sig_task s). destruct (_ && _); cbn; rewrite has_clr; by rewrite ?app_nil_r. }
  eapply does_eq; [apply (does_bind (Some s2) s _ (tty_start oproc) (fun l => l) HD)|done]. intros s' H' _. by apply does_start.
Qed.

Lemma does_endcase sig s : tty_ok s -> does (tty_endcase oproc sig s) s (endcase (t_termios s) (sig_task s) sig).
Proof.
  intros H. unfold tty_endcase, endcase. change (t_cc s) with (cc_of (t_termios s)). unfold t_iflag.
  destruct (_ && _) eqn:E.
  - eapply does_eq; [by apply does_ret|]. intros _. cbn [abs l_stopped]. by rewrite E.
  - eapply does_eq; [by apply does_restart|]. intros _. cbn [abs l_stopped]. by rewrite E.
Qed.

Lemma does_flush s : tty_ok s -> does (tty_flush oproc (Z.lor FREAD FWRITE) s) s flush_all.
Proof.
  intros H. unfold tty_flush. change (has (Z.lor FREAD FWRITE) FREAD) with true. change (has (Z.lor FREAD FWRITE) FWRITE) with true. cbn iota.
  destruct H as (H1&H2&H3). destruct (drain_ok _ H2) as (can&->&Hc&Cc). destruct (drain_ok _ H1) as (raw&->&Hr&Cr). cbn [mbind option_bind].
  set (s1 := clr_state _ _). assert (does (Some s1) s flush_all) as HD.
  { exists s1. split_and!; try done. intros _ [C1 C2]. split; [split; cbn; rewrite ?Cc, ?Cr by done; set_solver|].
    unfold abs, flush_all, s1, clr_state, wakeup_input. cbn. by rewrite has_clr, Cc, Cr. }
  eapply does_eq; [apply (does_bind (Some s1) s _ (tty_start oproc) (fun l => l) HD)|done]. intros s' H' _. by apply does_start.
Qed.

Lemma does_edit_erase s : tty_ok s ->
  does (if negb (ttyq_empty (t_rawq s)) then r ← ttyq_unputc (t_rawq s); tty_rubout (upd_rawq (snd r) s) else Some s) s (set_raw (fun r => take (length r - 1) r)).
Proof.
  intros H. rewrite ttyq_empty_iff by apply H. case_bool_decide as HE; cbn [negb].
  - eapply does_eq; [by apply does_ret|]. intros _. unfold abs, set_raw. cbn. by rewrite HE.
  - destruct (erase_ok s H HE) as (c&q&s'&E&H'&V&Ec). apply (does_raw _ _ q); [by exists s'| |]; rewrite Ec; [|set_solver].
    rewrite length_app, Nat.add_sub. by rewrite take_app_length.
Qed.

Lemma does_kill s : tty_ok s -> does (kill_loop (Z.to_nat (tq_count (t_rawq s))) s) s (set_raw (fun _ => [])).
Proof.
  intros H. destruct (kill_loop_ok (Z.to_nat (tq_count (t_rawq s))) s H) as (s'&q&E&H'&V&C); [by rewrite length_contents|].
  apply (does_raw _ _ q); [by exists s'|done|]. rewrite C. set_solver.
Qed.

(** ** tty_input() *)
Lemma does_endcase_of sig s s0 : tty_ok s -> rest s = rest s0 -> does (tty_endcase oproc sig s) s (endcase (t_termios s0) (sig_task s0) sig).
Proof. intros H R. unfold rest in R. simplify_eq. replace (t_termios s0) with (t_termios s) by congruence. replace (sig_task s0) with (sig_task s) by congruence. by apply does_endcase. Qed.

(** A step, then output, then the label endcase. *)
Lemma does_step_end r s f sig : does r s f -> does (r ≫= tty_endcase oproc sig) s (fun l => endcase (t_termios s) (sig_task s) sig (f l)).
Proof. intros HD. apply (does_bind _ _ _ _ (endcase (t_termios s) (sig_task s) sig) HD). intros s' H' R'. by apply does_endcase_of. Qed.

Lemma does_quiet r s f k : does r s f -> (forall s', tty_ok s' -> quiet (k s') s') -> does (r ≫= k) s f.
Proof. intros HD HK. apply (does_bind _ _ _ _ (fun l => l) HD). intros s' H' _. by apply does_view, HK. Qed.

Lemma does_add_char c s : (P -> char_of c <> -1) -> tty_ok s -> (length (contents (t_rawq s)) < Z.to_nat TTYQ_SIZE)%nat ->
  exists q, ttyq_putc c (t_rawq s) = Some q /\ let s1 := upd_rawq q s in
    does (if has (t_lflag s1) ICANON then
            if (c =? NL) || (c =? t_cc s1 VEOF) || (c =? t_cc s1 VEOL) then
              r ← tty_catq (t_rawq s1) (t_canq s1);
              let '(raw, can) := r in Some (wakeup_input (s1 <| t_rawq := raw |> <| t_canq := can |>))
            else Some s1
          else Some (wakeup_input s1)) s (add_char (t_termios s) c).
Proof.
  intros Hc (H1&H2&H3) Hlt. destruct (ttyq_putc_ok c _ H1) as (q&E&Hq&Eq). unfold queue_put in Eq. rewrite decide_True in Eq by done. exists q. split; [done|].
  cbv zeta. set (s1 := upd_rawq q s). change (t_cc s1) with (cc_of (t_termios s)). change (t_lflag s1) with (c_lflag (t_termios s)). change (t_rawq s1) with q. change (t_canq s1) with (t_canq s).
  unfold add_char. fold (ends_line (t_termios s) c). destruct (has _ ICANON); [destruct (ends_line _ c)|].
  - destruct (tty_catq_ok q (t_canq s) Hq H2) as (raw&can&->&Hr&Hcan&HC). cbn [mbind option_bind]. eexists. split; [done|]. split; [done|]. split; [done|].
    intros HP [C1 C2]. destruct HC as [Cr Cc]; [rewrite Eq; specialize (Hc HP); set_solver|]. rewrite decide_False by (cbn; lia). unfold clean, abs. cbn.
    rewrite Cr, Cc, Eq. split; [|done]. split; [set_solver|]. unfold queue_cat. intros Hin. specialize (Hc HP).
    apply (subseteq_take (Z.to_nat TTYQ_SIZE)) in Hin. set_solver.
  - eexists. split; [done|]. split; [done|]. split; [done|]. intros HP [C1 C2]. rewrite decide_False by (cbn; lia). unfold clean, abs. cbn. rewrite Eq.
    specialize (Hc HP). split; [set_solver|done].
  - eexists. split; [done|]. split; [done|]. split; [done|]. intros HP [C1 C2]. rewrite decide_False by (cbn; lia). unfold clean, abs. cbn. rewrite Eq.
    specialize (Hc HP). split; [set_solver|done].
Qed.

Lemma does_input_char c s : (P -> char_of c <> -1) -> tty_ok s ->
  does (tty_input_char oproc c s) s (effect (t_termios s) (sig_task s) (AChar c)).
Proof.
  intros Hc H. unfold tty_input_char, effect. rewrite ttyq_full_iff by apply H. case_bool_decide as Hf.
  - eapply does_eq; [apply does_step_end, does_flush, H|]. intros _. unfold add_char. by rewrite decide_True.
  - destruct (does_add_char c s Hc H) as (q&->&HD); [lia|]. cbn [mbind option_bind]. cbv zeta in HD.
    match goal with |- does (?r ≫= fun s => (@?e s) ≫= ?k) _ _ => change (does (r ≫= fun s => e s ≫= k) s (fun l => endcase (t_termios s) (sig_task s) (-1) (add_char (t_termios s) c l))) end.
    eapply does_bind; [exact HD|]. intros s1 H1 R1.
    eapply does_eq; [apply (does_step_end _ s1 (fun l => l)), does_view|].
    + destruct (has _ ECHO); [by apply quiet_echo|by apply quiet_ret].
    + intros _. unfold rest in R1. simplify_eq. cbv beta. congruence.
Qed.

Lemma does_signal c sig s : tty_ok s ->
  does (s1 ← (if negb (has (t_lflag s) NOFLSH) then tty_flush oproc (Z.lor FREAD FWRITE) s else Some s); s1 ← tty_echo c s1; tty_endcase oproc sig s1) s
    (effect (t_termios s) (sig_task s) (ASignal sig)).
Proof.
  intros H. unfold effect. assert (does (if negb (has (t_lflag s) NOFLSH) then tty_flush oproc (Z.lor FREAD FWRITE) s else Some s) s
    (fun l => if has (c_lflag (t_termios s)) NOFLSH then l else flush_all l)) as HD
    by (unfold t_lflag; destruct (has _ NOFLSH); cbn [negb]; [by apply does_ret|by apply does_flush]).
  eapply does_bind; [exact HD|]. intros s1 H1 R1. eapply does_eq; [apply (does_step_end _ s1 (fun l => l)), does_view, quiet_echo, H1|].
  intros _. unfold rest in R1. simplify_eq. cbv beta. congruence.
Qed.

Lemma does_input_sig c s : (P -> char_of c <> -1) -> tty_ok s ->
  does (tty_input_sig oproc c s) s (effect (t_termios s) (sig_task s)
    (if has (c_lflag (t_termios s)) ISIG && (c =? cc_of (t_termios s) VINTR) then ASignal SIGINT
     else if has (c_lflag (t_termios s)) ISIG && (c =? cc_of (t_termios s) VQUIT) then ASignal SIGQUIT
     else if has (c_lflag (t_termios s)) ISIG && (c =? cc_of (t_termios s) VSUSP) then ASignal SIGTSTP else AChar c)).
Proof.
  intros Hc H. unfold tty_input_sig. change (t_cc s) with (cc_of (t_termios s)). change (t_lflag s) with (c_lflag (t_termios s)).
  destruct (has _ ISIG); cbn [andb]; [|by apply does_input_char]. destruct (c =? cc_of _ VINTR); cbn [orb]; [by apply does_signal|].
  destruct (c =? cc_of _ VQUIT); [by apply does_signal|]. destruct (c =? cc_of _ VSUSP); [by apply does_signal|by apply does_input_char].
Qed.

Lemma does_set_stopped s : tty_ok s -> does (Some (set_state TS_TTSTOP s)) s set_stopped.
Proof.
  intros H. eexists. split; [done|]. split; [done|]. split; [done|]. intros _ C. split; [done|]. unfold abs, set_stopped, set_state. cbn. by rewrite has_set.
Qed.

Lemma does_input_flow c s : (P -> char_of c <> -1) -> tty_ok s ->
  does (tty_input_flow oproc c s) s (effect (t_termios s) (sig_task s)
    (if has (c_iflag (t_termios s)) IXON && (c =? cc_of (t_termios s) VSTOP) then AStop
     else if has (c_iflag (t_termios s)) IXON && (c =? cc_of (t_termios s) VSTART) then AStart
     else if has (c_lflag (t_termios s)) ICANON && ((c =? cc_of (t_termios s) VERASE) || (c =? BS)) then AErase
     else if has (c_lflag (t_termios s)) ICANON && (c =? cc_of (t_termios s) VKILL) then AKill
     else if has (c_lflag (t_termios s)) ISIG && (c =? cc_of (t_termios s) VINTR) then ASignal SIGINT
     else if has (c_lflag (t_termios s)) ISIG && (c =? cc_of (t_termios s) VQUIT) then ASignal SIGQUIT
     else if has (c_lflag (t_termios s)) ISIG && (c =? cc_of (t_termios s) VSUSP) then ASignal SIGTSTP else AChar c)).
Proof.
  intros Hc H. unfold tty_input_flow, tty_input_edit. change (t_cc s) with (cc_of (t_termios s)). change (t_lflag s) with (c_lflag (t_termios s)).
  change (t_iflag s) with (c_iflag (t_termios s)).
  destruct (has _ IXON); cbn [andb]; [destruct (Z.eqb_spec c (cc_of (t_termios s) VSTOP)) as [->|]|].
  - unfold effect. destruct (has (t_state s) TS_TTSTOP) eqn:ES; cbn [negb].
    + destruct (_ =? _) eqn:EE; cbn [negb]; [eapply does_eq; [by apply does_endcase|]|eapply does_eq; [by apply does_ret|]]; intros _; cbn [abs l_stopped]; by rewrite ES, ?EE.
    + eapply does_eq; [by apply does_set_stopped|]. intros _. cbn [abs l_stopped]. by rewrite ES.
  - destruct (c =? cc_of _ VSTART); [by apply does_restart|].
    destruct (has _ ICANON); cbn [andb]; [|by apply does_input_sig]. destruct (_ || _); [by apply does_step_end, does_edit_erase|].
    destruct (c =? cc_of _ VKILL); [by apply does_step_end, does_kill|by apply does_input_sig].
  - destruct (has _ ICANON); cbn [andb]; [|by apply does_input_sig]. destruct (_ || _); [by apply does_step_end, does_edit_erase|].
    destruct (c =? cc_of _ VKILL); [by apply does_step_end, does_kill|by apply does_input_sig].
Qed.

Lemma does_input c s : (P -> 0 <= c < 255) -> tty_ok s -> does (tty_input oproc c s) s (effect (t_termios s) (sig_task s) (classify (t_termios s) c)).
Proof.
  intros Hc H. assert (forall d, d = CR \/ d = NL \/ d = c -> P -> char_of d <> -1) as Hd.
  { intros d Hd HP. specialize (Hc HP). unfold char_of, CR, NL in *. intros E. pose proof (Z.mod_small d 256 ltac:(lia)) as Em. rewrite Em in E.
    destruct (Z.ltb_spec d 128); lia. }
  unfold tty_input, classify, translate. change (t_iflag s) with (c_iflag (t_termios s)). destruct (Z.eqb_spec c CR) as [->|].
  - destruct (has _ IGNCR); [by apply does_endcase|]. destruct (has _ ICRNL); apply does_input_flow; auto.
  - destruct (_ && has _ INLCR); apply does_input_flow; auto.
Qed.
End Discipline.
End Steps.

(** C10: tty_input() refines the line discipline: over any hardware driver that
    keeps to its contract ([TtyDriver]), in a terminal with consistent buffers
    and no character 0xff queued for input, a character c with 0 <= c < 255 never
    leaves a buffer and queues no 0xff, and what happens to the line being typed, the complete lines, the stop
    state, the wakeups of readers and the signals posted is what [classify] and
    [effect] say, echo and output aside; settings and user memory stay. *)
Theorem tty_input_refines oproc `{!TtyDriver oproc} c s : tty_ok s -> clean s -> 0 <= c < 255 ->
  exists s', tty_input oproc c s = Some s' /\ tty_ok s' /\ clean s' /\ abs s' = effect (t_termios s) (sig_task s) (classify (t_termios s) c) (abs s) /\
    t_termios s' = t_termios s /\ t_umem s' = t_umem s.
Proof.
  intros H C Hc. destruct (does_input (P := True) c s (fun _ => Hc) H) as (s'&E&H'&R&A). destruct (A I C) as [C' EA]. unfold rest in R. simplify_eq.
  exists s'. by split_and!.
Qed.
