(* ===== verification/TtyRun.v ===== *)
(** * TtyRun: readers and writers of terminals

    Sequences of interrupts and calls never leave the buffers; a typed and
    edited line is what a reader gets; and what is written is sent, tabs and
    newlines expanded, without losing a character at the high-water mark. *)
From stdpp Require Import base numbers gmap list.
From S2P Require Import Prelude Core Kernel UserMem Lib Tty TtyQueue TtySpec.

Open Scope Z_scope.

(** ** User memory *)
Lemma copyout_byte m a b s : umem_ok a 1 = true -> is_Some (t_umem s !! (m, a)) ->
  tty_copyout m a [b] s = (true, s <| t_umem ::= <[(m, a) := b]> |>).
Proof. intros Ha [v Hv]. unfold tty_copyout. change (Z.of_nat (length [b])) with 1. rewrite Ha. cbn [uwrite]. by rewrite Hv. Qed.

Lemma tty_copyout_ok m a bs s : tty_ok s -> exists ok M, tty_copyout m a bs s = (ok, s <| t_umem := M |>).
Proof.
  intros H. unfold tty_copyout. destruct (umem_ok _ _); [|exists false, (t_umem s); by destruct s].
  destruct (uwrite _ _ _ _) as [ok M]. by exists ok, M.
Qed.

(** ** Reading *)
Definition final {A} (o : outcome A) : tty := match o with Returned _ _ s => s | Blocked _ s => s end.

Lemma in_queue_ok lflag s : tty_ok s -> tq_ok (in_queue lflag s).
Proof. intros (?&?&_). unfold in_queue. by destruct (has _ _). Qed.
Lemma set_in_queue_ok lflag q s : tty_ok s -> tq_ok q -> tty_ok (set_in_queue lflag q s).
Proof. intros (?&?&?) ?. unfold set_in_queue. by destruct (has _ _). Qed.
Lemma in_queue_set lflag q s : in_queue lflag (set_in_queue lflag q s) = q.
Proof. unfold in_queue, set_in_queue. by destruct (has _ _). Qed.

Lemma read_loop_safe n m lflag buf nbyte count s : tty_ok s -> (length (contents (in_queue lflag s)) < n)%nat ->
  exists o, read_loop n m lflag buf nbyte count s = Some o /\ tty_ok (final o).
Proof.
  revert buf count s. induction n as [|n IH]; intros buf count s H Hn; [lia|]. cbn [read_loop]. destruct (negb _); [by eexists|].
  pose proof (ttyq_getc_ok _ (in_queue_ok lflag s H)) as HG. destruct (contents (in_queue lflag s)) as [|c l] eqn:E.
  { rewrite HG. cbn. eexists. split; [done|]. apply set_in_queue_ok; [done|by apply in_queue_ok]. }
  destruct HG as (q&->&Hq&El). cbn [mbind option_bind]. set (s1 := set_in_queue lflag q s). assert (tty_ok s1) as H1 by by apply set_in_queue_ok.
  destruct (c =? -1); [by eexists|]. destruct (_ && has lflag ICANON); [by eexists|].
  destruct (tty_copyout_ok m buf [c mod 256] s1 H1) as (ok&M&->). destruct ok; [|by eexists]. destruct (has lflag ICANON && _); [by eexists|].
  apply IH; [done|]. change (in_queue lflag (s1 <| t_umem := M |>)) with (in_queue lflag s1). unfold s1. rewrite in_queue_set, El. cbn in Hn. lia.
Qed.

Lemma tty_read_wait_safe m lflag buf nbyte s : tty_ok s -> exists o, tty_read_wait m lflag buf nbyte s = Some o /\ tty_ok (final o).
Proof.
  intros H. unfold tty_read_wait. destruct (ttyq_empty _); [by eexists|]. apply read_loop_safe; [done|]. rewrite length_contents. lia.
Qed.

(** The characters of a line before its end. *)
Definition line_char (s : tty) (c : Z) : Prop := 0 <= c < 128 /\ c <> NL /\ c <> t_cc s VEOF /\ c <> t_cc s VEOL.

(** A canonical reader gets the first line and no more. *)
Lemma read_loop_line l n m lflag buf nbyte count s rest : tty_ok s -> has lflag ICANON = true ->
  contents (t_canq s) = l ++ NL :: rest -> Forall (line_char s) l -> NL <> t_cc s VEOF -> (length l < n)%nat -> count + Z.of_nat (length l) < nbyte ->
  buf + Z.of_nat (length l) + 1 < UMEM_MAX -> mapped (t_umem s) m buf (S (length l)) ->
  exists s', read_loop n m lflag buf nbyte count s = Some (Returned 0 (count + Z.of_nat (length l) + 1) s') /\ tty_ok s' /\
    contents (t_canq s') = rest /\ t_rawq s' = t_rawq s /\ uwrite (t_umem s) m buf (l ++ [NL]) = (true, t_umem s').
Proof.
  intros H Hcan. revert n buf count s H. induction l as [|c l IH]; intros n buf count s H HQ HF Heof Hn Hcnt Hbuf Hmap; (destruct n as [|n]; [lia|]);
    cbn [read_loop]; rewrite (proj2 (Z.ltb_lt count nbyte)) by (cbn in Hcnt; lia); cbn [negb];
    pose proof (ttyq_getc_ok _ (in_queue_ok lflag s H)) as HG; unfold in_queue in HG |- *; rewrite Hcan in HG |- *; rewrite HQ in HG; cbn [app] in HG;
    destruct HG as (q&->&Hq&El); cbn [mbind option_bind]; unfold set_in_queue; rewrite Hcan; set (s1 := s <| t_canq := q |>).
  - change (NL =? -1) with false. change (t_cc s1) with (t_cc s). rewrite (proj2 (Z.eqb_neq _ _) Heof). cbn [andb].
    rewrite copyout_byte; [|apply Z.ltb_lt; cbn in Hbuf; lia|specialize (Hmap 0 ltac:(cbn; lia)); by rewrite Z.add_0_r in Hmap].
    change (NL =? NL) with true. cbn [orb andb]. eexists. split; [do 2 f_equal; cbn; lia|]. destruct H as (H1&H2&H3). split_and!; try done.
    cbn. specialize (Hmap 0 ltac:(cbn; lia)). rewrite Z.add_0_r in Hmap. destruct Hmap as [v ->]. done.
  - apply Forall_cons in HF as [(Hc&Hnl&Hve&Hvl) HF]. rewrite (proj2 (Z.eqb_neq c (-1))) by lia. change (t_cc s1) with (t_cc s). rewrite (proj2 (Z.eqb_neq _ _) Hve). cbn [andb].
    assert (is_Some (t_umem s !! (m, buf))) as Hm0 by (specialize (Hmap 0 ltac:(cbn; lia)); by rewrite Z.add_0_r in Hmap).
    rewrite copyout_byte; [|apply Z.ltb_lt; cbn in Hbuf; lia|done]. cbn iota. set (s2 := s1 <| t_umem ::= _ |>). change (t_cc s2) with (t_cc s).
    rewrite (proj2 (Z.eqb_neq _ _) Hnl), (proj2 (Z.eqb_neq _ _) Hvl). cbn [orb andb].
    destruct (IH n (buf + 1) (count + 1) s2) as (s'&->&H'&C'&R'&U'); try done.
    + destruct H as (H1&H2&H3). done.
    + cbn in Hn. lia.
    + cbn in Hcnt. lia.
    + cbn in Hbuf. lia.
    + intros i Hi. change (t_umem s2) with (<[(m, buf) := c mod 256]> (t_umem s)). apply lookup_insert_is_Some'. right.
      replace (buf + 1 + i) with (buf + (i + 1)) by lia. apply Hmap. cbn. lia.
    + exists s'. split; [do 2 f_equal; cbn; lia|]. split_and!; try done. cbn [app uwrite]. destruct Hm0 as [v ->].
      change (t_umem s2) with (<[(m, buf) := c mod 256]> (t_umem s)) in U'. by rewrite Z.mod_small in U' by lia.
Qed.

(** ** A typed line *)
Definition DEL := 127.
Definition edit_line (ts : list Z) : list Z := foldl (fun l c => if c =? DEL then take (length l - 1) l else l ++ [c]) [] ts.

Fixpoint tty_type (oproc : option (tty -> option tty)) (cs : list Z) (s : tty) : option tty :=
  match cs with [] => Some s | c :: cs => s ← tty_input oproc c s; tty_type oproc cs s end.

Definition default_termios : termios := mk_termios TTYDEF_IFLAG TTYDEF_OFLAG TTYDEF_CFLAG TTYDEF_LFLAG ttydefchars TTYDEF_SPEED TTYDEF_SPEED.

(** A printable character is none of the special ones. *)
Ltac not_char c := repeat match goal with |- context [c =? ?k] => rewrite (proj2 (Z.eqb_neq c k)) by lia end; rewrite ?orb_false_r, ?andb_false_r; cbn [orb andb].

Lemma classify_default c : 32 <= c <= 127 -> classify default_termios c = if c =? DEL then AErase else AChar c.
Proof.
  intros Hc. unfold DEL. destruct (Z.eqb_spec c 127) as [->|]; [reflexivity|]. unfold classify, translate, cc_of, default_termios, CR, NL, BS.
  cbn [c_iflag c_lflag c_cc ttydefchars lookup list_lookup default id VSTOP VSTART VERASE VKILL VINTR VQUIT VSUSP]. not_char c. not_char c. reflexivity.
Qed.

Lemma edit_line_snoc ts c : edit_line (ts ++ [c]) = if c =? DEL then take (length (edit_line ts) - 1) (edit_line ts) else edit_line ts ++ [c].
Proof. unfold edit_line. by rewrite foldl_app. Qed.
Lemma edit_line_length ts : (length (edit_line ts) <= length ts)%nat.
Proof.
  induction ts as [|c ts IH] using rev_ind; [done|]. rewrite edit_line_snoc, length_app. destruct (c =? DEL); [rewrite length_take|rewrite length_app]; cbn; lia.
Qed.
Lemma edit_line_chars ts : Forall (fun c => 32 <= c <= 127) ts -> Forall (fun c => 32 <= c < 127) (edit_line ts).
Proof.
  induction ts as [|c ts IH] using rev_ind; [done|]. rewrite Forall_app, edit_line_snoc. intros [Hts Hc]. apply Forall_cons in Hc as [Hc _]. specialize (IH Hts).
  destruct (Z.eqb_spec c DEL); [by apply Forall_take|]. apply Forall_app. split; [done|]. apply Forall_singleton. unfold DEL in *. lia.
Qed.
Lemma tty_type_app oproc cs ds s : tty_type oproc (cs ++ ds) s = tty_type oproc cs s ≫= tty_type oproc ds.
Proof. revert s. induction cs as [|c cs IH]; intros s; [done|]. cbn. destruct (tty_input oproc c s) as [s'|]; [apply IH|done]. Qed.

Section Typing.
Context {oproc : option (tty -> option tty)} `{!TtyDriver oproc}.

(** Printable characters and DEL edit the line being typed. *)
Lemma type_edit ts s l0 : tty_ok s -> clean s -> t_termios s = default_termios -> l_raw (abs s) = l0 -> l_stopped (abs s) = false ->
  Forall (fun c => 32 <= c <= 127) ts -> (length l0 + length ts < Z.to_nat TTYQ_SIZE)%nat ->
  exists s', tty_type oproc ts s = Some s' /\ tty_ok s' /\ clean s' /\ t_termios s' = default_termios /\ t_umem s' = t_umem s /\
    abs s' = mk_lstate (foldl (fun l c => if c =? DEL then take (length l - 1) l else l ++ [c]) l0 ts) (l_can (abs s)) false (l_wakeups (abs s)) (l_posted (abs s)).
Proof.
  revert s l0. induction ts as [|c ts IH]; intros s l0 H C T Hr Hst HF Hl; cbn [tty_type foldl].
  { exists s. split_and!; try done. unfold abs in *. cbn in *. by rewrite Hr, Hst. }
  apply Forall_cons in HF as [Hc HF]. destruct (does_input (P := True) c s) as (s1&->&H1&R1&A1); [intros _; lia|done|]. cbn [mbind option_bind].
  destruct (A1 I C) as [C1 E1]. rewrite T, classify_default in E1 by done.
  assert (t_termios s1 = t_termios s /\ t_umem s1 = t_umem s) as [T1 U1] by (unfold rest in R1; by simplify_eq). clear R1. subst l0.
  set (l1 := if c =? DEL then take (length (l_raw (abs s)) - 1) (l_raw (abs s)) else l_raw (abs s) ++ [c]).
  assert (abs s1 = mk_lstate l1 (l_can (abs s)) false (l_wakeups (abs s)) (l_posted (abs s))) as E1'.
  { rewrite E1. unfold l1. destruct (Z.eqb_spec c DEL) as [|Hd]; unfold DEL in *; unfold effect, endcase, restart.
    - cbn [set_raw l_stopped]. rewrite Hst. cbn [andb set_raw l_raw l_can l_wakeups l_posted]. by rewrite app_nil_r.
    - assert (ends_line default_termios c = false) as EL.
      { unfold ends_line, cc_of, default_termios. cbn [c_cc ttydefchars lookup list_lookup default id VEOF VEOL]. unfold NL. by not_char c. }
      unfold add_char. rewrite decide_False by (cbn in Hl |- *; lia). rewrite EL. change (has (c_lflag default_termios) ICANON) with true. cbn iota.
      cbn [l_stopped]. rewrite Hst. cbn [andb l_raw l_can l_wakeups l_posted]. rewrite app_nil_r, char_of_id by lia. done. }
  destruct (IH s1 l1) as (s2&E2&H2&C2&T2&U2&A2); try done; [congruence|by rewrite E1'|by rewrite E1'| |].
  { unfold l1. destruct (c =? DEL); [rewrite length_take|rewrite length_app]; cbn in Hl |- *; lia. }
  exists s2. split_and!; try done; [congruence|]. by rewrite A2, E1'.
Qed.

(** C18: A line that is typed with printable characters and DEL (at most 255
    keys) and ended with the return key wakes the readers once, and a reader of
    a large enough buffer gets exactly the edited line and a newline; nothing
    is left behind, for any hardware driver. *)
Theorem typed_line_read ts s0 m buf nbyte f_flags : Forall (fun c => 32 <= c <= 127) ts -> (length ts < 256)%nat ->
  Z.of_nat (length (edit_line ts)) < nbyte -> buf + Z.of_nat (length (edit_line ts)) + 1 < UMEM_MAX -> mapped (t_umem s0) m buf (S (length (edit_line ts))) ->
  exists s1 s2, tty_type oproc (ts ++ [CR]) (tty_init s0) = Some s1 /\ t_in_wakeups s1 = S (t_in_wakeups s0) /\
    tty_read m f_flags buf nbyte s1 = Some (Returned 0 (Z.of_nat (length (edit_line ts)) + 1) s2) /\
    uread (t_umem s2) m buf (S (length (edit_line ts))) = Some (edit_line ts ++ [NL]) /\
    contents (t_rawq s2) = [] /\ contents (t_canq s2) = [].
Proof.
  intros HF Hl Hn Hb Hm. set (s := tty_init s0). destruct zero_queue_ok as [HZ CZ].
  assert (tty_ok s /\ clean s /\ abs s = mk_lstate [] [] false (t_in_wakeups s0) (t_posted s0)) as (H&C&A).
  { split; [done|]. unfold clean, abs. cbn [s tty_init set t_rawq t_canq t_state]. rewrite CZ. split; [set_solver|done]. }
  destruct (type_edit ts s [] H C) as (s1&E1&H1&C1&T1&U1&A1); try done. fold (edit_line ts) in A1. rewrite A in A1. cbn [l_can l_wakeups l_posted] in A1.
  destruct (does_input (P := True) CR s1) as (s2&E2&H2&R2&A2); [intros _; unfold CR; lia|done|]. destruct (A2 I C1) as [C2 EA2].
  assert (t_termios s2 = t_termios s1 /\ t_umem s2 = t_umem s1) as [T2 U2] by (unfold rest in R2; by simplify_eq). clear A2 R2. rewrite T1 in EA2.
  change (classify default_termios CR) with (AChar NL) in EA2. rewrite A1 in EA2. pose proof (edit_line_length ts) as Hlen.
  unfold effect, endcase, add_char in EA2. cbn [l_raw l_can l_stopped l_wakeups l_posted] in EA2. rewrite decide_False in EA2 by (unfold TTYQ_SIZE; lia).
  change (has (c_lflag default_termios) ICANON) with true in EA2. change (ends_line default_termios NL) with true in EA2. cbn -[queue_cat char_of] in EA2.
  change (char_of NL) with NL in EA2. unfold restart, queue_cat in EA2. cbn [app] in EA2. rewrite take_ge in EA2 by (rewrite length_app; change (length [NL]) with 1%nat; unfold TTYQ_SIZE; lia).
  assert (contents (t_rawq s2) = [] /\ contents (t_canq s2) = edit_line ts ++ [NL] /\ t_in_wakeups s2 = S (t_in_wakeups s0)) as (Cr&Cc&Cw) by (unfold abs in EA2; cbn [l_raw l_can l_wakeups] in EA2; by simplify_eq).
  assert (has (t_lflag s2) ICANON = true) as Hcan by (unfold t_lflag; by rewrite T2, T1).
  assert (t_cc s2 = cc_of default_termios) as Hcc by (unfold t_cc, cc_of; by rewrite T2, T1).
  destruct (read_loop_line (edit_line ts) (S (Z.to_nat (tq_count (t_canq s2)))) m (t_lflag s2) buf nbyte 0 s2 []) as (s3&E3&H3&C3&R3&U3); try done.
  - eapply Forall_impl; [apply edit_line_chars, HF|]. intros c Hc. unfold line_char. rewrite Hcc. cbn. unfold NL. cbn in Hc. lia.
  - by rewrite Hcc.
  - rewrite <- length_contents, Cc, length_app. cbn. lia.
  - by rewrite U2, U1.
  - exists s2, s3. split; [|split; [done|split; [|split; [|split; [by rewrite R3|done]]]]].
    + rewrite tty_type_app, E1. cbn [mbind option_bind tty_type]. by rewrite E2.
    + unfold tty_read, tty_read_wait, in_queue. rewrite Hcan, ttyq_empty_iff, bool_decide_false by (try apply H2; rewrite Cc; by destruct (edit_line ts)).
      rewrite andb_false_r. rewrite E3. done.
    + apply uwrite_read in U3. rewrite length_app in U3. cbn in U3. by rewrite Nat.add_1_r in U3.
Qed.
End Typing.

(** ** Writing *)

(** Everything that was or will be sent, in order. *)
Definition out_stream (s : tty) : list Z := t_sent s ++ contents (t_outq s).
Definition ascii (l : list Z) : Prop := Forall (fun c => 0 <= c < 128) l.

Fixpoint opost_all (t : termios) (col : Z) (cs : list Z) : list Z * Z :=
  match cs with
  | [] => ([], col)
  | c :: cs => let r := opost_all t (opost t col c).2 cs in ((opost t col c).1 ++ r.1, r.2)
  end.

Lemma queue_puts_fit cs l : ascii cs -> (length l + length cs <= Z.to_nat TTYQ_SIZE)%nat -> queue_puts cs l = l ++ cs.
Proof.
  revert l. induction cs as [|c cs IH]; intros l HF Hl; [by rewrite app_nil_r|]. apply Forall_cons in HF as [Hc HF].
  change (queue_puts (c :: cs) l) with (queue_puts cs (queue_put c l)). unfold queue_put. rewrite decide_True by (cbn in Hl; lia). rewrite char_of_id by lia.
  rewrite IH; [by rewrite <- app_assoc|done|]. rewrite length_app. cbn in Hl |- *. lia.
Qed.

Lemma opost_bounds t col c : 0 <= c < 128 -> ascii (opost t col c).1 /\ (length (opost t col c).1 <= 8)%nat.
Proof.
  intros Hc. assert (0 <= Z.land col 7 < 8) by (change 7 with (Z.ones 3); rewrite Z.land_ones by lia; apply Z.mod_pos_bound; lia).
  assert (ascii [c]) as H1 by by apply Forall_singleton.
  unfold opost. destruct (negb _); [cbn; split; [done|lia]|]. destruct (_ && _).
  - cbn [fst]. rewrite length_replicate. split; [apply Forall_replicate; unfold SPACE; lia|lia].
  - cbn [fst]. destruct (_ && _); cbn; (split; [|lia]); [|done]. apply Forall_cons. split; [unfold CR; lia|done].
Qed.

(** What holds of a terminal whose output is text. *)
Definition text_out (s : tty) : Prop := tty_ok s /\ ascii (contents (t_outq s)).

Lemma output_stream c s : text_out s -> 0 <= c < 128 -> tq_count (t_outq s) <= TTYQ_HIWAT ->
  exists s', tty_output c s = Some s' /\ text_out s' /\ in_view s' = in_view s /\ t_state s' = t_state s /\
    t_column s' = (opost (t_termios s) (t_column s) c).2 /\ out_stream s' = out_stream s ++ (opost (t_termios s) (t_column s) c).1.
Proof.
  intros [H HA] Hc Hq. destruct (tty_output_ok c s H) as (s'&E&(H'&V&St&Se&C)&Col). destruct (opost_bounds (t_termios s) (t_column s) c Hc) as [OA OL].
  rewrite queue_puts_fit in C; [|done|unfold TTYQ_SIZE, TTYQ_HIWAT in *; rewrite length_contents; lia]. exists s'. unfold text_out, out_stream, ascii.
  rewrite Se, C, app_assoc. split_and!; try done. by apply Forall_app.
Qed.

Lemma uread_cons M m a n c l : uread M m a (S n) = Some (c :: l) -> uread M m a 1 = Some [c] /\ uread M m (a + 1) n = Some l.
Proof.
  intros [Hl H]%uread_ok. split; apply uread_ok.
  - split; [done|]. intros [|i] Hi; [|lia]. by rewrite (H 0%nat) by lia.
  - split; [by simplify_eq/=|]. intros i Hi. change (l !! i) with ((c :: l) !! S i). rewrite <- H by lia. do 2 f_equal. lia.
Qed.

Lemma uread_length M m a n l : uread M m a n = Some l -> length l = n.
Proof. by intros [? _]%uread_ok. Qed.

Section Writing.
Context {oproc : option (tty -> option tty)} `{!TtyDriver oproc}.

Lemma start_stream s : text_out s -> exists s', tty_start oproc s = Some s' /\ text_out s' /\ in_view s' = in_view s /\ t_column s' = t_column s /\
  out_stream s' = out_stream s.
Proof.
  intros [H HA]. destruct (tty_start_ok s H) as (s'&E&H'&V&C&HS). destruct HS as (l&E1&E2); [eapply Forall_impl; [exact HA|]; by intros ? [? _]|].
  exists s'. unfold text_out, out_stream, ascii in *. rewrite E1 in HA |- *. apply Forall_app in HA as [_ HA]. rewrite E2, <- app_assoc. by split_and!.
Qed.

(** Where a writer stands after [k] characters. *)
Definition written (s : tty) (cs : list Z) (k : nat) (s' : tty) : Prop :=
  text_out s' /\ t_termios s' = t_termios s /\ t_umem s' = t_umem s /\ t_column s' = (opost_all (t_termios s) (t_column s) (take k cs)).2 /\
  out_stream s' = out_stream s ++ (opost_all (t_termios s) (t_column s) (take k cs)).1.

Lemma written_0 s cs s' : text_out s' -> in_view s' = in_view s -> t_column s' = t_column s -> out_stream s' = out_stream s -> written s cs 0 s'.
Proof. intros HT V C O. unfold in_view in V. unfold written. cbn. rewrite app_nil_r. simplify_eq. by split_and!. Qed.

Lemma written_S s c cs k s1 s' : in_view s1 = in_view s -> t_column s1 = (opost (t_termios s) (t_column s) c).2 ->
  out_stream s1 = out_stream s ++ (opost (t_termios s) (t_column s) c).1 -> written s1 cs k s' -> written s (c :: cs) (S k) s'.
Proof.
  intros V C O (HT&T&U&C'&O'). assert (t_termios s1 = t_termios s /\ t_umem s1 = t_umem s) as [T1 U1] by (unfold in_view in V; by simplify_eq).
  unfold written. cbn [take opost_all fst snd]. rewrite C', O', O, T1, C, <- app_assoc. split_and!; try done; congruence.
Qed.

(** C38: No ASCII character that is written is lost: over any hardware driver that
    keeps to its contract, a writer of bytes 0 to 127 from readable user memory,
    on a terminal whose output queue holds only such bytes, and without
    interrupts during the write, puts every byte, tabs and newlines expanded,
    behind what was sent or queued before, in order.  It returns when all are queued, or sleeps above the high-water
    mark with its position in the buffer, from where it resumes. *)
Theorem tty_write_stream cs m buf nbyte count s : text_out s -> uread (t_umem s) m buf (length cs) = Some cs -> ascii cs ->
  buf + Z.of_nat (length cs) < UMEM_MAX ->
  exists o, write_loop oproc (length cs) m buf nbyte count s = Some o /\
    match o with
    | Returned err n s' => err = 0 /\ n = count + Z.of_nat (length cs) /\ written s cs (length cs) s'
    | Blocked (r, b, n) s' => exists k, (k < length cs)%nat /\ r = (length cs - k)%nat /\ b = buf + Z.of_nat k /\ n = count + Z.of_nat k /\
        written s cs k s' /\ TTYQ_HIWAT < tq_count (t_outq s')
    end.
Proof.
  revert buf count s. induction cs as [|c cs IH]; intros buf count s HT HU HA Hb; cbn [length write_loop].
  { destruct (start_stream s HT) as (s'&->&HT'&V&C&O). cbn. eexists. split; [done|]. cbn. split_and!; [done|lia|]. by apply written_0. }
  apply Forall_cons in HA as [Hc HA]. cbn [length] in HU, Hb.
  assert (forall s1, text_out s1 -> in_view s1 = in_view s -> t_column s1 = t_column s -> out_stream s1 = out_stream s -> tq_count (t_outq s1) <= TTYQ_HIWAT ->
    exists o, match tty_copyin m buf 1 s1 with
              | Some [c] => s ← tty_output c s1; write_loop oproc (length cs) m (buf + 1) nbyte (count + 1) s
              | _ => Some (Returned EFAULT nbyte s1)
              end = Some o /\
      match o with
      | Returned err n s' => err = 0 /\ n = count + Z.of_nat (S (length cs)) /\ written s (c :: cs) (S (length cs)) s'
      | Blocked (r, b, n) s' => exists k, (k < S (length cs))%nat /\ r = (S (length cs) - k)%nat /\ b = buf + Z.of_nat k /\ n = count + Z.of_nat k /\
          written s (c :: cs) k s' /\ TTYQ_HIWAT < tq_count (t_outq s')
      end) as Hput.
  { intros s1 HT1 V1 C1 O1 Hq. assert (t_termios s1 = t_termios s /\ t_umem s1 = t_umem s) as [T1 U1] by (unfold in_view in V1; by simplify_eq).
    apply uread_cons in HU as [HU1 HU2]. unfold tty_copyin, umem_ok. rewrite (proj2 (Z.ltb_lt _ UMEM_MAX)) by lia. rewrite U1, HU1.
    destruct (output_stream c s1 HT1 Hc Hq) as (s2&->&HT2&V2&_&C2&O2). cbn [mbind option_bind]. rewrite T1, C1 in C2. rewrite O1, T1, C1 in O2.
    destruct (IH (buf + 1) (count + 1) s2 HT2) as (o&E&Ho); [by replace (t_umem s2) with (t_umem s) by (unfold in_view in *; simplify_eq; congruence)|done|lia|].
    exists o. split; [done|]. destruct o as [err n s'|[[r b] n] s'].
    - destruct Ho as (->&->&HW). split_and!; [done|lia|]. eapply written_S; [|exact C2|exact O2|exact HW]. congruence.
    - destruct Ho as (k&Hk&->&->&->&HW&Hhi). exists (S k). split_and!; try lia; try done. eapply written_S; [|exact C2|exact O2|exact HW]. congruence. }
  destruct (Z.ltb_spec TTYQ_HIWAT (tq_count (t_outq s))) as [Hhi|]; [|by apply Hput].
  destruct (start_stream s HT) as (s1&->&HT1&V1&C1&O1). cbn [mbind option_bind]. destruct (Z.leb_spec (tq_count (t_outq s1)) TTYQ_HIWAT) as [|Hh1]; [by apply Hput|].
  eexists. split; [done|]. cbn. exists 0%nat. split_and!; try lia. destruct (written_0 s (c :: cs) s1 HT1 V1 C1 O1) as (?&?&?&?&?). by unfold written.
Qed.
End Writing.

(** Over the serial line, writing text to a terminal that is not stopped
    never sleeps: tty_write() returns with everything sent and an empty
    queue. *)
Theorem tty_write_serial cs m buf s : text_out s -> has (t_state s) (Z.lor TS_TTSTOP TS_BUSY) = false ->
  uread (t_umem s) m buf (length cs) = Some cs -> ascii cs -> buf + Z.of_nat (length cs) < UMEM_MAX ->
  exists s', tty_write (Some serial_start) m buf (Z.of_nat (length cs)) s = Some (Returned 0 (Z.of_nat (length cs)) s') /\
    contents (t_outq s') = [] /\ t_sent s' = t_sent s ++ contents (t_outq s) ++ (opost_all (t_termios s) (t_column s) cs).1.
Proof.
  unfold tty_write. rewrite Nat2Z.id. intros HT HS HU HA Hb.
  assert (forall s, text_out s -> has (t_state s) (Z.lor TS_TTSTOP TS_BUSY) = false -> exists s', tty_start (Some serial_start) s = Some s' /\ text_out s' /\
    in_view s' = in_view s /\ t_column s' = t_column s /\ t_state s' = t_state s /\ contents (t_outq s') = [] /\ t_sent s' = out_stream s) as Hstart.
  { clear. intros s [H HA] HS. unfold tty_start. rewrite HS. destruct (serial_start_ok s H) as (s'&E&H'&V&St&C&Hs). exists s'.
    destruct Hs as [C1 C2]; [eapply Forall_impl; [exact HA|]; by intros ? [? _]|]. unfold text_out. rewrite C1. split_and!; try done. constructor. }
  enough (forall nbyte count, exists s', write_loop (Some serial_start) (length cs) m buf nbyte count s = Some (Returned 0 (count + Z.of_nat (length cs)) s') /\
    contents (t_outq s') = [] /\ t_sent s' = out_stream s ++ (opost_all (t_termios s) (t_column s) cs).1) as HE.
  { destruct (HE (Z.of_nat (length cs)) 0) as (s'&E&E1&E2). exists s'. rewrite E, E2. unfold out_stream. split_and!; [do 2 f_equal; lia|done|by rewrite app_assoc]. }
  intros nbyte. revert buf s HT HS HU HA Hb. induction cs as [|c cs IH]; intros buf s HT HS HU HA Hb count; cbn [length write_loop].
  { destruct (Hstart s HT HS) as (s'&->&HT'&V&C&St&C1&C2). cbn. exists s'. rewrite C2, app_nil_r. split_and!; try done. do 2 f_equal. lia. }
  apply Forall_cons in HA as [Hc HA]. apply uread_cons in HU as [HU1 HU2]. cbn [length] in Hb.
  assert (forall s1, text_out s1 -> in_view s1 = in_view s -> t_column s1 = t_column s -> t_state s1 = t_state s -> out_stream s1 = out_stream s -> tq_count (t_outq s1) <= TTYQ_HIWAT ->
    exists s', match tty_copyin m buf 1 s1 with
              | Some [c] => s ← tty_output c s1; write_loop (Some serial_start) (length cs) m (buf + 1) nbyte (count + 1) s
              | _ => Some (Returned EFAULT nbyte s1)
              end = Some (Returned 0 (count + Z.of_nat (S (length cs))) s') /\
      contents (t_outq s') = [] /\ t_sent s' = out_stream s ++ (opost_all (t_termios s) (t_column s) (c :: cs)).1) as Hput.
  { intros s1 HT1 V1 C1 S1 O1 Hq. assert (t_termios s1 = t_termios s /\ t_umem s1 = t_umem s) as [T1 U1] by (unfold in_view in V1; by simplify_eq).
    unfold tty_copyin, umem_ok. rewrite (proj2 (Z.ltb_lt _ UMEM_MAX)) by lia. rewrite U1, HU1.
    destruct (output_stream c s1 HT1 Hc Hq) as (s2&->&HT2&V2&S2&C2&O2). cbn [mbind option_bind].
    assert (t_termios s2 = t_termios s /\ t_umem s2 = t_umem s) as [T2 U2] by (unfold in_view in *; simplify_eq; split; congruence).
    destruct (IH (buf + 1) s2 HT2) with (count := count + 1) as (s'&E&E1&E2); [congruence|by rewrite U2|done|lia|].
    exists s'. rewrite E. split_and!; [do 2 f_equal; lia|done|]. rewrite E2, O2, O1, C2, T2, T1, C1. cbn [opost_all fst]. by rewrite app_assoc. }
  destruct (Z.ltb_spec TTYQ_HIWAT (tq_count (t_outq s))) as [Hhi|]; [|by apply Hput].
  destruct (Hstart s HT HS) as (s1&->&HT1&V1&C1&S1&E1&E2). cbn [mbind option_bind].
  assert (tq_count (t_outq s1) = 0) as Hz by (rewrite tq_count_contents, E1 by apply HT1; done). rewrite Hz. change (0 <=? TTYQ_HIWAT) with true. cbn iota.
  apply Hput; try done; [|rewrite Hz; done]. unfold out_stream at 1. by rewrite E1, E2, app_nil_r.
Qed.

(** ** No call faults *)
Section Safety.
Context {f : tty -> option tty} `{!TtyDriver (Some f)}.

Definition safe {A} (r : option (outcome A)) : Prop := exists o, r = Some o /\ tty_ok (final o).

Lemma start_safe s : tty_ok s -> exists s', tty_start (Some f) s = Some s' /\ tty_ok s'.
Proof. intros H. destruct (tty_start_ok s H) as (s'&?&?&_). by exists s'. Qed.

Lemma write_loop_safe n m buf nbyte count s : tty_ok s -> safe (write_loop (Some f) n m buf nbyte count s).
Proof.
  revert buf count s. induction n as [|n IH]; intros buf count s H; cbn [write_loop].
  { destruct (start_safe s H) as (s'&->&H'). cbn. by eexists. }
  assert (forall s1, tty_ok s1 -> safe (match tty_copyin m buf 1 s1 with
    | Some [c] => s ← tty_output c s1; write_loop (Some f) n m (buf + 1) nbyte (count + 1) s
    | _ => Some (Returned EFAULT nbyte s1) end)) as Hput.
  { intros s1 H1. destruct (tty_copyin m buf 1 s1) as [[|c [|d l]]|]; try (by eexists). destruct (quiet_output c s1 H1) as (s2&->&H2&_). by apply IH. }
  destruct (_ <? _); [|by apply Hput]. destruct (start_safe s H) as (s1&->&H1). cbn [mbind option_bind]. destruct (_ <=? _); [by apply Hput|by eexists].
Qed.

Lemma flush_safe rw s : tty_ok s -> exists s', tty_flush (Some f) rw s = Some s' /\ tty_ok s'.
Proof.
  intros H. unfold tty_flush. destruct H as (H1&H2&H3). destruct (has rw FREAD).
  - destruct (drain_ok _ H2) as (can&->&Hc&_). destruct (drain_ok _ H1) as (raw&->&Hr&_). cbn [mbind option_bind]. destruct (has rw FWRITE); [by apply start_safe|by eexists].
  - cbn [mbind option_bind]. destruct (has rw FWRITE); [by apply start_safe|by eexists].
Qed.

Lemma ioctl_in_safe m data n g s : (forall bs s, tty_ok s -> tty_ok (g bs s)) -> tty_ok s -> tty_ok (final (ioctl_in m data n g s)).
Proof. intros Hg H. unfold ioctl_in. destruct (tty_copyin _ _ _ _); [by apply Hg|done]. Qed.
Lemma ioctl_out_safe m data bs s : tty_ok s -> tty_ok (final (ioctl_out m data bs s)).
Proof. intros H. unfold ioctl_out. by destruct (tty_copyout_ok m data bs s H) as (ok&M&->). Qed.

Lemma ioctl_seta_safe m cmd data s : tty_ok s -> safe (ioctl_seta (Some f) m cmd data s).
Proof.
  intros H. unfold ioctl_seta. assert (exists s', (if cmd =? TIOCSETAF then tty_flush (Some f) FREAD s else Some s) = Some s' /\ tty_ok s') as (s'&->&H')
    by (destruct (cmd =? TIOCSETAF); [by apply flush_safe|by exists s]). cbn [mbind option_bind]. eexists. split; [done|]. by apply ioctl_in_safe.
Qed.
Lemma ioctl_waited_safe m cmd data s : tty_ok s -> safe (r ← wait_round f s; ioctl_waited (Some f) m cmd data r).
Proof.
  intros H. unfold wait_round. destruct (oproc_ok f s eq_refl H) as (s'&->&H'&_). cbn [mbind option_bind]. destruct (negb _); cbn [ioctl_waited]; [by apply ioctl_seta_safe|by eexists].
Qed.

Lemma tty_ioctl_safe tp m cmd data s : UMEM_MAX <= tp -> tty_ok s -> safe (tty_ioctl (Some f) tp m cmd data s).
Proof.
  intros Htp H. unfold tty_ioctl. destruct (cmd =? TIOCGETA); [eexists; split; [done|by apply ioctl_out_safe]|].
  destruct (_ || _).
  { unfold tty_wait. destruct (0 <? _); [by apply ioctl_waited_safe|]. cbn. by apply ioctl_seta_safe. }
  destruct (cmd =? TIOCSETA); [by apply ioctl_seta_safe|]. destruct (cmd =? TIOCSPGRP); [eexists; split; [done|by apply ioctl_in_safe]|].
  destruct (cmd =? TIOCGPGRP); [eexists; split; [done|by apply ioctl_out_safe]|]. destruct (cmd =? TIOCFLUSH); [eexists; split; [done|by apply ioctl_in_safe]|].
  destruct (cmd =? TIOCSTART). { destruct (has _ _); [destruct (start_safe (clr_state TS_TTSTOP s) H) as (s'&->&H')|]; by eexists. }
  destruct (cmd =? TIOCSTOP). { destruct (negb _); by eexists. }
  destruct (cmd =? TIOCGWINSZ); [eexists; split; [done|by apply ioctl_out_safe]|].
  destruct (cmd =? TIOCSWINSZ). { unfold umem_ok, SIZEOF_WINSIZE. rewrite (proj2 (Z.ltb_ge _ _)) by lia. by eexists. }
  destruct (cmd =? TIOCSETSIGT); [eexists; split; [done|by apply ioctl_in_safe]|].
  destruct (cmd =? TIOCINQ); [eexists; split; [done|by apply ioctl_out_safe]|]. destruct (cmd =? TIOCOUTQ); [eexists; split; [done|by apply ioctl_out_safe]|by eexists].
Qed.

End Safety.
