(* ===== verification/TtyIntr.v ===== *)
(** * TtyIntr: terminals under interrupts

    A task in tty_read(), tty_write() or tty_ioctl() can be interrupted, or
    switched out, between any two of its accesses: only the single queue
    operations disable interrupts.  Here the calls are programs with a counter,
    of which one step makes at most one operation on a queue and one test or
    update of other fields; steps of any number of calls alternate with
    interrupts.  The interrupt routines run to their end: serial_isr() and
    kbd_isr() call tty_input() and tty_done() at interrupt level.

    Without interrupts in between, the steps of a read or write come to what
    the functions of Tty.v compute ([calls_undisturbed]). *)
From stdpp Require Import base numbers gmap list relations.
From S2P Require Import Prelude Core Kernel UserMem Lib Tty TtyQueue TtySpec TtyRun.

Open Scope Z_scope.

(** ** Programs *)

(** tty_output(): before the tests, with a character for the raw queue, at a tab,
    at the column and the spaces for it, at the newline test, with the
    character, at the update of the column. *)
Inductive out_pc :=
| OutTest (c : Z) | OutRaw (c : Z) | OutTab | OutTabColumn (i : Z) | OutSpaces (i : nat)
| OutNl (c : Z) | OutChar (c : Z) | OutColumn (c : Z).

(** The place in a call, with its local variables.  [Start k] is in tty_start(),
    [Oproc k] and [Send c k] in the loop of the driver's start routine, [DoneBusy k]
    and [DoneAsleep k] in its call of tty_done(), all returning to [k]; [Return] is the end of the call. *)
Inductive tty_pc :=
| RdStart (m f_flags buf nbyte : Z)
| RdWait (m lflag buf nbyte : Z)
| RdSleep (m lflag buf nbyte : Z)
| RdGet (m lflag buf nbyte count : Z)
| RdChar (m lflag buf nbyte count c : Z)
| RdCopied (m lflag buf nbyte count c : Z)
| WrHead (remain : nat) (m buf nbyte count : Z)
| WrRoom (remain : nat) (m buf nbyte count : Z)
| WrMark (remain : nat) (m buf nbyte count : Z)
| WrSleep (remain : nat) (m buf nbyte count : Z)
| WrCopy (remain : nat) (m buf nbyte count : Z)
| WrOut (remain : nat) (m buf nbyte count : Z) (o : out_pc)
| IoStart (m cmd data : Z)
| IoWaited (m cmd data : Z)
| IoMark (m cmd data : Z)
| IoSleep (m cmd data : Z)
| IoFlush (m cmd data : Z)
| IoFlushCan (m data : Z)
| IoFlushRaw (m data : Z)
| IoFlushed (m data : Z)
| IoSet (m data : Z)
| Start (k : tty_pc)
| Oproc (k : tty_pc)
| Send (c : Z) (k : tty_pc)
| DoneBusy (k : tty_pc)
| DoneAsleep (k : tty_pc)
| Return (err count : Z).

Definition out_step (o : out_pc) (s : tty) : option (option out_pc * tty) :=
  match o with
  | OutTest c =>
      Some (Some (if negb (has (t_lflag s) ICANON) then OutRaw c
                  else if (c =? TAB) && has (t_oflag s) OXTABS then OutTab else OutNl c), s)
  | OutRaw c => s ← out_putc c s; Some (None, s)
  | OutTab => Some (Some (OutTabColumn (8 - Z.land (t_column s) 7)), s)
  | OutTabColumn i => Some (Some (OutSpaces (Z.to_nat i)), s <| t_column ::= Z.add i |>)
  | OutSpaces O => Some (None, s)
  | OutSpaces (S i) => s ← out_putc SPACE s; Some (Some (OutSpaces i), s)
  | OutNl c => s ← (if (c =? NL) && has (t_oflag s) ONLCR then out_putc CR s else Some s); Some (Some (OutChar c), s)
  | OutChar c => s ← out_putc c s; Some (Some (OutColumn c), s)
  | OutColumn c => Some (None, s <| t_column ::= next_column c |>)
  end.

Section Machine.
(** The start routine: console_start(), which calls tty_done() at its end, or
    serial_start(). *)
Context (console : bool).
(** The address of tp->t_winsize. *)
Context (tp_winsize : Z).

(** The start routine without interrupts. *)
Definition oproc : tty -> option tty := if console then console_start else serial_start.

Definition tty_pc_step (p : tty_pc) (s : tty) : option (tty_pc * tty) :=
  match p with
  | RdStart m f_flags buf nbyte =>
      let lflag := t_lflag s in
      Some (if has f_flags O_NONBLOCK && ttyq_empty (in_queue lflag s) then Return EAGAIN nbyte else RdWait m lflag buf nbyte, s)
  | RdWait m lflag buf nbyte =>
      Some (if ttyq_empty (in_queue lflag s) then RdSleep m lflag buf nbyte else RdGet m lflag buf nbyte 0, s)
  | RdGet m lflag buf nbyte count =>
      if negb (count <? nbyte) then Some (Return 0 count, s)
      else
        r ← ttyq_getc (in_queue lflag s);
        let '(c, q) := r in
        Some (if c =? -1 then Return 0 count else RdChar m lflag buf nbyte count c, set_in_queue lflag q s)
  | RdChar m lflag buf nbyte count c =>
      if (c =? t_cc s VEOF) && has lflag ICANON then Some (Return 0 count, s)
      else
        let '(ok, s) := tty_copyout m buf [c mod 256] s in
        Some (if (ok : bool) then RdCopied m lflag buf nbyte (count + 1) c else Return EFAULT nbyte, s)
  | RdCopied m lflag buf nbyte count c =>
      Some (if has lflag ICANON && ((c =? NL) || (c =? t_cc s VEOL)) then Return 0 count
            else RdGet m lflag (buf + 1) nbyte count, s)
  | WrHead remain m buf nbyte count =>
      match remain with
      | O => Some (Start (Return 0 count), s)
      | S _ =>
          Some (if TTYQ_HIWAT <? tq_count (t_outq s) then Start (WrRoom remain m buf nbyte count)
                else WrCopy remain m buf nbyte count, s)
      end
  | WrRoom remain m buf nbyte count =>
      Some (if tq_count (t_outq s) <=? TTYQ_HIWAT then WrHead remain m buf nbyte count else WrMark remain m buf nbyte count, s)
  | WrMark remain m buf nbyte count => Some (WrSleep remain m buf nbyte count, set_state TS_ASLEEP s)
  | WrCopy remain m buf nbyte count =>
      match tty_copyin m buf 1 s with
      | Some [c] => Some (WrOut (pred remain) m buf nbyte count (OutTest c), s)
      | _ => Some (Return EFAULT nbyte, s)
      end
  | WrOut remain m buf nbyte count o =>
      r ← out_step o s;
      let '(o, s) := r in
      Some (match o with Some o => WrOut remain m buf nbyte count o | None => WrHead remain m (buf + 1) nbyte (count + 1) end, s)
  | IoStart m cmd data =>
      if (cmd =? TIOCSETAW) || (cmd =? TIOCSETAF) then
        if 0 <? tq_count (t_outq s) then Some (Oproc (IoWaited m cmd data), set_state TS_BUSY s) else Some (IoFlush m cmd data, s)
      else if cmd =? TIOCSTART then
        if has (t_state s) TS_TTSTOP then Some (Start (Return 0 0), clr_state TS_TTSTOP s) else Some (Return 0 0, s)
      else
        r ← tty_ioctl (Some oproc) tp_winsize m cmd data s;
        match r with Returned err n s => Some (Return err n, s) | Blocked _ _ => None end
  | IoWaited m cmd data => Some (if negb (has (t_state s) TS_BUSY) then IoFlush m cmd data else IoMark m cmd data, s)
  | IoMark m cmd data => Some (IoSleep m cmd data, set_state TS_ASLEEP s)
  | IoFlush m cmd data => Some (if cmd =? TIOCSETAF then IoFlushCan m data else IoSet m data, s)
  | IoFlushCan m data => r ← ttyq_getc (t_canq s); Some (if fst r =? -1 then IoFlushRaw m data else IoFlushCan m data, s <| t_canq := snd r |>)
  | IoFlushRaw m data => r ← ttyq_getc (t_rawq s); Some (if fst r =? -1 then IoFlushed m data else IoFlushRaw m data, s <| t_rawq := snd r |>)
  | IoFlushed m data => Some (IoSet m data, wakeup_input s)
  | IoSet m data =>
      match ioctl_in m data (Z.to_nat SIZEOF_TERMIOS) (fun bs s => s <| t_termios := termios_of_bytes bs |>) s with
      | Returned err n s => Some (Return err n, s)
      | Blocked _ _ => None
      end
  | Start k => Some (if has (t_state s) (Z.lor TS_TTSTOP TS_BUSY) then k else Oproc k, s)
  | Oproc k =>
      r ← ttyq_getc (t_outq s);
      let '(c, q) := r in
      let s := s <| t_outq := q |> in
      Some (if 0 <=? c then Send c k else if console then DoneBusy k else k, s)
  | Send c k => Some (Oproc k, s <| t_sent ::= fun l => l ++ [c] |>)
  | DoneBusy k => Some (DoneAsleep k, if tq_count (t_outq s) =? 0 then clr_state TS_BUSY s else s)
  | DoneAsleep k => Some (k, if has (t_state s) TS_ASLEEP then wakeup_output (clr_state TS_ASLEEP s) else s)
  | RdSleep _ _ _ _ | WrSleep _ _ _ _ _ | IoSleep _ _ _ | Return _ _ => Some (p, s)
  end.

(** sched_sleep() returns [rc]. *)
Definition tty_pc_wake (rc : Z) (p : tty_pc) : tty_pc :=
  match p with
  | RdSleep m lflag buf nbyte => if rc =? SLP_INTR then Return EINTR nbyte else RdWait m lflag buf nbyte
  | WrSleep remain m buf nbyte count => WrHead remain m buf nbyte count
  | IoSleep m cmd data => Oproc (IoWaited m cmd data)
  | p => p
  end.

(** ** Interrupts and calls *)
Inductive tty_event :=
| EvInput (c : Z)                                  (* a character arrives *)
| EvDone                                           (* the hardware has sent one *)
| EvRead (i : nat) (m f_flags buf nbyte : Z)       (* task [i] calls *)
| EvWrite (i : nat) (m buf nbyte : Z)
| EvIoctl (i : nat) (m cmd data : Z)
| EvRun (i : nat)                                  (* one step of its call *)
| EvWake (i : nat) (rc : Z).

Definition with_call (i : nat) (f : tty_pc -> tty -> option (tty_pc * tty)) (x : gmap nat tty_pc * tty) : option (gmap nat tty_pc * tty) :=
  match x.1 !! i with
  | Some p => r ← f p x.2; Some (<[i := r.1]> x.1, r.2)
  | None => Some x
  end.

Definition tty_event_step (e : tty_event) (x : gmap nat tty_pc * tty) : option (gmap nat tty_pc * tty) :=
  match e with
  | EvInput c => s ← tty_input (Some oproc) c x.2; Some (x.1, s)
  | EvDone => Some (x.1, tty_done x.2)
  | EvRead i m f_flags buf nbyte => Some (<[i := RdStart m f_flags buf nbyte]> x.1, x.2)
  | EvWrite i m buf nbyte => Some (<[i := WrHead (Z.to_nat nbyte) m buf nbyte 0]> x.1, x.2)
  | EvIoctl i m cmd data => Some (<[i := IoStart m cmd data]> x.1, x.2)
  | EvRun i => with_call i tty_pc_step x
  | EvWake i rc => with_call i (fun p s => Some (tty_pc_wake rc p, s)) x
  end.

Fixpoint tty_events (l : list tty_event) (x : gmap nat tty_pc * tty) : option (gmap nat tty_pc * tty) :=
  match l with [] => Some x | e :: l => x ← tty_event_step e x; tty_events l x end.
End Machine.

(** ** Safety *)
#[local] Instance oproc_driver console : TtyDriver (Some (oproc console)).
Proof. destruct console; apply _. Qed.

Lemma out_putc_safe c s : tty_ok s -> exists s', out_putc c s = Some s' /\ tty_ok s'.
Proof. intros (H1&H2&H3). unfold out_putc. destruct (ttyq_putc_ok c _ H3) as (q&->&Hq&_). by eexists. Qed.

Lemma out_step_safe o s : tty_ok s -> exists o' s', out_step o s = Some (o', s') /\ tty_ok s'.
Proof.
  intros H. destruct o as [c|c| |i|[|i]|c|c|c]; cbn [out_step]; try (by do 2 eexists).
  - destruct (out_putc_safe c s H) as (s'&->&H'). by do 2 eexists.
  - destruct (out_putc_safe SPACE s H) as (s'&->&H'). by do 2 eexists.
  - destruct (_ && _); [|by do 2 eexists]. destruct (out_putc_safe CR s H) as (s'&->&H'). by do 2 eexists.
  - destruct (out_putc_safe c s H) as (s'&->&H'). by do 2 eexists.
Qed.

Lemma getc_safe q : tq_ok q -> exists c q', ttyq_getc q = Some (c, q') /\ tq_ok q'.
Proof.
  intros Hq. pose proof (ttyq_getc_ok _ Hq) as HG. destruct (contents q) as [|c l]; [rewrite HG; by eexists _, q|].
  destruct HG as (q'&->&Hq'&_). by do 2 eexists.
Qed.

Lemma tty_pc_step_safe console tp p s : UMEM_MAX <= tp -> tty_ok s -> exists p' s', tty_pc_step console tp p s = Some (p', s') /\ tty_ok s'.
Proof.
  intros Htp H. pose proof H as (H1&H2&H3). destruct p; cbn [tty_pc_step]; try (by do 2 eexists).
  - destruct (negb _); [by do 2 eexists|]. destruct (getc_safe _ (in_queue_ok lflag s H)) as (c&q&->&Hq). cbn [mbind option_bind].
    do 2 eexists. split; [done|]. by apply set_in_queue_ok.
  - destruct (_ && _); [by do 2 eexists|]. destruct (tty_copyout_ok m buf [c mod 256] s H) as (ok&M&->). by do 2 eexists.
  - destruct remain; by do 2 eexists.
  - destruct (tty_copyin m buf 1 s) as [[|c [|d l]]|]; by do 2 eexists.
  - destruct (out_step_safe o s H) as (o'&s'&->&H'). by do 2 eexists.
  - destruct (_ || _) eqn:Ec; [case_match; by do 2 eexists|]. destruct (cmd =? TIOCSTART) eqn:Es; [case_match; by do 2 eexists|].
    destruct (tty_ioctl_safe (f := oproc console) tp m cmd data s Htp H) as (o&Eo&Ho). rewrite Eo. cbn [mbind option_bind]. destruct o as [err n s'|u s']; [by do 2 eexists|].
    exfalso. revert Eo. unfold tty_ioctl, ioctl_seta, ioctl_in, ioctl_out. rewrite Ec, Es. repeat case_match; intros; simplify_eq; cbn in *; simplify_eq;
      rewrite ?orb_true_r in Ec; repeat case_match; done.
  - destruct (getc_safe _ H2) as (c&q&->&Hq). by do 2 eexists.
  - destruct (getc_safe _ H1) as (c&q&->&Hq). by do 2 eexists.
  - unfold ioctl_in. destruct (tty_copyin _ _ _ _); by do 2 eexists.
  - destruct (getc_safe _ H3) as (c&q&->&Hq). cbn [mbind option_bind]. by do 2 eexists.
  - do 2 eexists. split; [done|]. by destruct (_ =? _).
  - do 2 eexists. split; [done|]. by destruct (has _ _).
Qed.

Lemma tty_event_step_safe console tp e x : UMEM_MAX <= tp -> tty_ok x.2 -> exists x', tty_event_step console tp e x = Some x' /\ tty_ok x'.2.
Proof.
  intros Htp H. destruct x as [C s]. cbn in H. destruct e; cbn [tty_event_step fst snd].
  - destruct (does_input (oproc := Some (oproc console)) (P := False) c s) as (s'&->&H'&_); [done|done|by eexists].
  - destruct (tty_done_view s H) as (H'&_). by eexists.
  - by eexists.
  - by eexists.
  - by eexists.
  - unfold with_call. cbn [fst snd]. destruct (C !! i) as [p|]; [|by eexists]. destruct (tty_pc_step_safe console tp p s Htp H) as (p'&s'&->&H'). by eexists.
  - unfold with_call. cbn [fst snd]. destruct (C !! i) as [p|]; by eexists.
Qed.

(** C17: from tty_init() on, on the serial line or the console, whatever characters (0xff included) and transmitter interrupts
    arrive and whatever calls of tty_read(), tty_write() and tty_ioctl() any
    number of tasks make, with any arguments and any user memory: however the
    interrupts and the steps of the calls, which are interruptible between any
    two accesses to a queue, interleave and whichever sleeps end, no buffer is
    left and the three ring buffers stay consistent.  The interrupt routines
    themselves are not interrupted.  The terminal is in kernel memory. *)
Theorem tty_run_safe console tp l s0 : UMEM_MAX <= tp -> exists C s, tty_events console tp l (∅, tty_init s0) = Some (C, s) /\ tty_ok s.
Proof.
  intros Htp. assert (tty_ok (tty_init s0)) as H by (destruct zero_queue_ok; done).
  enough (forall x, tty_ok x.2 -> exists x', tty_events console tp l x = Some x' /\ tty_ok x'.2) as HE.
  { destruct (HE (∅, tty_init s0) H) as ([C s]&E&H'). by exists C, s. }
  clear H. induction l as [|e l IH]; intros x H; cbn [tty_events]; [by exists x|]. destruct (tty_event_step_safe console tp e x Htp H) as (x'&->&H'). by apply IH.
Qed.

(** ** Calls without interrupts *)
Section Undisturbed.
Context (console : bool) (tp : Z).

Definition runs (x y : tty_pc * tty) : Prop := rtc (fun x y => tty_pc_step console tp x.1 x.2 = Some y) x y.

Lemma runs_step p s y z : tty_pc_step console tp p s = Some y -> runs y z -> runs (p, s) z.
Proof. intros E H. by apply rtc_l with y. Qed.
Lemma runs_end x : runs x x.
Proof. apply rtc_refl. Qed.
Lemma runs_trans x y z : runs x y -> runs y z -> runs x z.
Proof. unfold runs. intros H1 H2. by transitivity y. Qed.

(** The step is the evaluation of [tty_pc_step]. *)
Ltac run_step := eapply runs_step; [cbn [tty_pc_step out_step mbind option_bind]; reflexivity|].

Lemma send_runs n s s' k : send_loop n s = Some s' -> runs (Oproc k, s) (if console then DoneBusy k else k, s').
Proof.
  revert s. induction n as [|n IH]; intros s E; [done|]. cbn [send_loop] in E. destruct (ttyq_getc (t_outq s)) as [[c q]|] eqn:Eg; [|done]. cbn [mbind option_bind] in E.
  destruct (0 <=? c) eqn:Ec.
  - eapply runs_step; [cbn [tty_pc_step]; rewrite Eg; cbn [mbind option_bind]; rewrite Ec; done|]. run_step. by apply IH.
  - simplify_eq. eapply runs_step; [cbn [tty_pc_step]; rewrite Eg; cbn [mbind option_bind]; rewrite Ec; done|]. apply runs_end.
Qed.

Lemma oproc_runs s s' k : oproc console s = Some s' -> runs (Oproc k, s) (k, s').
Proof.
  unfold oproc. destruct console eqn:HC.
  - unfold console_start. destruct (send_loop _ s) as [s1|] eqn:E; [|done]. intros [= <-]. apply send_runs with (k := k) in E. rewrite HC in E.
    eapply runs_trans; [exact E|]. run_step. run_step. apply runs_end.
  - intros E. apply send_runs with (k := k) in E. by rewrite HC in E.
Qed.

Lemma start_runs s s' k : tty_start (Some (oproc console)) s = Some s' -> runs (Start k, s) (k, s').
Proof.
  unfold tty_start. destruct (has _ _) eqn:E; intros H; (eapply runs_step; [cbn [tty_pc_step]; rewrite E; done|]).
  - simplify_eq. apply runs_end.
  - by apply oproc_runs.
Qed.

Lemma spaces_run r m buf nbyte count i s s' : put_spaces i s = Some s' ->
  runs (WrOut r m buf nbyte count (OutSpaces i), s) (WrHead r m (buf + 1) nbyte (count + 1), s').
Proof.
  revert s. induction i as [|i IH]; intros s E; cbn [put_spaces] in E.
  - simplify_eq. run_step. apply runs_end.
  - destruct (out_putc SPACE s) as [s1|] eqn:Ep; [|done]. eapply runs_step; [cbn [tty_pc_step out_step]; rewrite Ep; done|]. by apply IH.
Qed.

Lemma output_runs r m buf nbyte count c s s' : tty_output c s = Some s' ->
  runs (WrOut r m buf nbyte count (OutTest c), s) (WrHead r m (buf + 1) nbyte (count + 1), s').
Proof.
  intros E. unfold tty_output in E. run_step. destruct (negb _).
  { eapply runs_step; [cbn [tty_pc_step out_step]; rewrite E; done|]. apply runs_end. }
  destruct (_ && _).
  { run_step. run_step. by apply spaces_run. }
  destruct (if (c =? NL) && has (t_oflag s) ONLCR then _ else _) as [s1|] eqn:E1; [|done]. cbn [mbind option_bind] in E.
  destruct (out_putc c s1) as [s2|] eqn:E2; [|done]. cbn [mbind option_bind] in E. simplify_eq.
  eapply runs_step; [cbn [tty_pc_step out_step]; rewrite E1; done|]. eapply runs_step; [cbn [tty_pc_step out_step]; rewrite E2; done|]. run_step. apply runs_end.
Qed.

Definition read_end (m buf nbyte : Z) (o : outcome Z) : tty_pc * tty :=
  match o with Returned err n s => (Return err n, s) | Blocked lflag s => (RdSleep m lflag buf nbyte, s) end.
Definition write_end (m nbyte : Z) (o : outcome (nat * Z * Z)) : tty_pc * tty :=
  match o with Returned err n s => (Return err n, s) | Blocked (remain, buf, count) s => (WrSleep remain m buf nbyte count, s) end.

Lemma read_loop_runs n m lflag buf nbyte count s o b : read_loop n m lflag buf nbyte count s = Some o ->
  runs (RdGet m lflag buf nbyte count, s) (read_end m b nbyte o).
Proof.
  revert buf count s. induction n as [|n IH]; intros buf count s E; [done|]. cbn [read_loop] in E.
  destruct (negb (count <? nbyte)) eqn:En. { simplify_eq. eapply runs_step; [cbn [tty_pc_step]; rewrite En; done|]. apply runs_end. }
  destruct (ttyq_getc _) as [[c q]|] eqn:Eg; [|done]. cbn [mbind option_bind] in E.
  eapply runs_step; [cbn [tty_pc_step]; rewrite En, Eg; done|]. destruct (c =? -1) eqn:E1. { simplify_eq. apply runs_end. }
  destruct (_ && has lflag ICANON) eqn:E2. { simplify_eq. eapply runs_step; [cbn [tty_pc_step]; rewrite E2; done|]. apply runs_end. }
  destruct (tty_copyout m buf _ _) as [[|] s1] eqn:E3; (eapply runs_step; [cbn [tty_pc_step]; rewrite E2, E3; done|]); [|simplify_eq; apply runs_end].
  run_step. destruct (has lflag ICANON && _). { simplify_eq. apply runs_end. } by apply IH.
Qed.

Lemma read_wait_runs m lflag buf nbyte s o : tty_read_wait m lflag buf nbyte s = Some o -> runs (RdWait m lflag buf nbyte, s) (read_end m buf nbyte o).
Proof.
  unfold tty_read_wait. intros E. run_step. destruct (ttyq_empty _); [simplify_eq; apply runs_end|]. by eapply read_loop_runs.
Qed.

Lemma write_loop_runs remain m buf nbyte count s o : write_loop (Some (oproc console)) remain m buf nbyte count s = Some o ->
  runs (WrHead remain m buf nbyte count, s) (write_end m nbyte o).
Proof.
  revert buf count s. induction remain as [|r IH]; intros buf count s E; cbn [write_loop] in E.
  { destruct (tty_start _ s) as [s1|] eqn:Es; [|done]. cbn [mbind option_bind] in E. simplify_eq. run_step. by apply start_runs. }
  assert (forall s1, match tty_copyin m buf 1 s1 with
      | Some [c] => s ← tty_output c s1; write_loop (Some (oproc console)) r m (buf + 1) nbyte (count + 1) s
      | _ => Some (Returned EFAULT nbyte s1) end = Some o ->
    runs (WrCopy (S r) m buf nbyte count, s1) (write_end m nbyte o)) as Hput.
  { intros s1 E1. destruct (tty_copyin m buf 1 s1) as [[|c [|d l]]|] eqn:Ei; (eapply runs_step; [cbn [tty_pc_step]; rewrite Ei; done|]); simplify_eq; try apply runs_end.
    destruct (tty_output c s1) as [s2|] eqn:Eo; [|done]. eapply runs_trans; [by apply output_runs|]. by apply IH. }
  run_step. destruct (TTYQ_HIWAT <? _); [|by apply Hput]. destruct (tty_start _ s) as [s1|] eqn:Es; [|done]. cbn [mbind option_bind] in E.
  eapply runs_trans; [by apply start_runs|]. run_step. destruct (tq_count (t_outq s1) <=? TTYQ_HIWAT) eqn:El.
  - run_step. rewrite (proj2 (Z.ltb_ge _ _)) by (by apply Z.leb_le). by apply Hput.
  - simplify_eq. run_step. apply runs_end.
Qed.

End Undisturbed.
