(* ===== verification/TtyDemo.v ===== *)
(** * TtyDemo: a terminal on the serial line

    Calls that do not do what their callers expect, and the theorems of TtySpec
    and TtyRun applied to a small terminal. *)
From stdpp Require Import base numbers gmap list.
From S2P Require Import Prelude Core Kernel UserMem Lib Tty TtyQueue TtySpec TtyRun TtyIntr.

Open Scope Z_scope.

(** Two requests of tty_ioctl() do nothing of what they are for: TIOCSWINSZ
    exchanges the arguments of umem_copyin() and fails with EFAULT for every
    window size, and TIOCFLUSH leaves the switch before it flushes: input and
    output stay queued whatever flags are passed. *)
Theorem tty_ioctl_ignored oproc tp m data s bs : UMEM_MAX <= tp -> tty_copyin m data 4 s = Some bs ->
  tty_ioctl oproc tp m TIOCSWINSZ data s = Some (Returned EFAULT 0 s) /\ tty_ioctl oproc tp m TIOCFLUSH data s = Some (Returned 0 0 s).
Proof.
  intros Htp Hbs. split.
  - unfold tty_ioctl. change (TIOCSWINSZ =? TIOCSWINSZ) with true. unfold umem_ok. rewrite (proj2 (Z.ltb_ge _ _)) by (unfold SIZEOF_WINSIZE; lia). reflexivity.
  - change (tty_ioctl oproc tp m TIOCFLUSH data s) with (Some (ioctl_in m data 4 (fun _ s => s) s)). unfold ioctl_in. by rewrite Hbs.
Qed.

Module TtyDemo.
(** A buffer of eight bytes at 0x1000, which contain H, tab, newline. *)
Definition mem : gmap (Z * Z) Z := list_to_map (imap (fun i b => ((1, 0x1000 + Z.of_nat i), b)) [72; 9; 10; 0; 0; 0; 0; 0]).
Definition off : tty := mk_tty zero_queue zero_queue zero_queue default_termios (mk_winsize 0 0 0 0) 0 0 0 0 [] 0 0 [] mem.
Definition fresh : tty := tty_init off.

Lemma fresh_ok : tty_ok fresh.
Proof. destruct zero_queue_ok as [H _]. done. Qed.
Lemma fresh_clean : clean fresh.
Proof. destruct zero_queue_ok as [_ H]. unfold clean. change (t_rawq fresh) with zero_queue. change (t_canq fresh) with zero_queue. rewrite H. set_solver. Qed.
Lemma fresh_text : text_out fresh.
Proof. split; [apply fresh_ok|]. change (t_outq fresh) with zero_queue. rewrite (proj2 zero_queue_ok). constructor. Qed.
Lemma mem_mapped n : (n <= 8)%nat -> mapped mem 1 0x1000 n.
Proof.
  intros Hn i Hi. assert (i = 0 \/ i = 1 \/ i = 2 \/ i = 3 \/ i = 4 \/ i = 5 \/ i = 6 \/ i = 7) as Hc by lia.
  destruct Hc as [->|[->|[->|[->|[->|[->|[->| ->]]]]]]]; vm_compute; by eexists.
Qed.

(** A character 0xff that arrives while the terminal is not canonical wakes the
    reader, which takes it for the end of the queue and returns no bytes, the
    mark of the end of a file. *)
Definition raw_mode : tty := fresh <| t_termios := mk_termios 0 0 0 0 ttydefchars 9600 9600 |>.
Example ff_reads_as_eof : exists s1 s2, tty_input (Some serial_start) 255 raw_mode = Some s1 /\ tq_count (t_rawq s1) = 1 /\
  tty_read 1 0 0x1000 8 s1 = Some (Returned 0 0 s2) /\ tq_count (t_rawq s2) = 0.
Proof. do 2 eexists. split; [vm_compute; reflexivity|]. split; [reflexivity|]. split; [vm_compute; reflexivity|]. reflexivity. Qed.

(** A byte above 0x7f ends the loop of serial_start(): it is dropped, and what
    follows waits for the next start. *)
Example high_byte_dropped : exists s1 s2 s3, tty_output 200 raw_mode = Some s1 /\ tty_output 65 s1 = Some s2 /\
  tty_start (Some serial_start) s2 = Some s3 /\ t_sent s3 = [] /\ tq_count (t_outq s3) = 1.
Proof. do 3 eexists. split; [vm_compute; reflexivity|]. split; [vm_compute; reflexivity|]. split; [vm_compute; reflexivity|]. split; reflexivity. Qed.

Lemma tty_input_refines_witness : exists s', tty_input (Some serial_start) 3 fresh = Some s' /\ tty_ok s' /\
  abs s' = effect (t_termios fresh) (sig_task fresh) (ASignal SIGINT) (abs fresh).
Proof.
  destruct (tty_input_refines (Some serial_start) 3 fresh fresh_ok fresh_clean ltac:(lia)) as (s'&E&H'&_&A&_). exists s'. split; [exact E|]. split; [exact H'|exact A].
Defined.

Lemma typed_line_read_witness : exists s1 s2, tty_type (Some serial_start) ([97; 98; 127; 99] ++ [CR]) (tty_init off) = Some s1 /\
  tty_read 1 0 0x1000 8 s1 = Some (Returned 0 3 s2) /\ uread (t_umem s2) 1 0x1000 3 = Some [97; 99; 10].
Proof.
  destruct (typed_line_read (oproc := Some serial_start) [97; 98; 127; 99] off 1 0x1000 8 0) as (s1&s2&E1&_&E2&E3&_).
  - repeat (apply Forall_cons; split; [lia|]). constructor.
  - cbn. lia.
  - reflexivity.
  - reflexivity.
  - apply mem_mapped. cbn. lia.
  - exists s1, s2. split; [exact E1|]. split; [exact E2|exact E3].
Defined.

Lemma hello : uread (t_umem fresh) 1 0x1000 3 = Some [72; 9; 10] /\ ascii [72; 9; 10].
Proof. split; [vm_compute; reflexivity|]. repeat (apply Forall_cons; split; [lia|]). constructor. Qed.

Lemma tty_write_stream_witness : exists o, write_loop (Some serial_start) 3 1 0x1000 3 0 fresh = Some o.
Proof.
  destruct (tty_write_stream (oproc := Some serial_start) [72; 9; 10] 1 0x1000 3 0 fresh fresh_text (proj1 hello) (proj2 hello) ltac:(reflexivity)) as (o&E&_). exists o. exact E.
Defined.

Lemma tty_write_serial_witness : exists s', tty_write (Some serial_start) 1 0x1000 3 fresh = Some (Returned 0 3 s') /\
  t_sent s' = [72; 32; 32; 32; 32; 32; 32; 32; 13; 10].
Proof.
  destruct (tty_write_serial [72; 9; 10] 1 0x1000 fresh fresh_text ltac:(reflexivity) (proj1 hello) (proj2 hello) ltac:(reflexivity)) as (s'&E&_&ES).
  exists s'. split; [exact E|]. rewrite ES. reflexivity.
Defined.

Lemma tty_run_safe_witness : exists C s,
  tty_events true 0x80001000
    [EvWrite 0 1 0x1000 3; EvRun 0; EvRun 0; EvInput 255; EvRun 0; EvRead 1 1 0 0x1000 8; EvRun 1; EvRun 1; EvDone; EvRun 0; EvWake 1 0; EvRun 1]
    (∅, tty_init off) = Some (C, s) /\ tty_ok s.
Proof. apply tty_run_safe. unfold UMEM_MAX. lia. Defined.


Lemma tty_ioctl_ignored_witness : tty_ioctl (Some serial_start) 0x80001000 1 TIOCFLUSH 0x1000 fresh = Some (Returned 0 0 fresh).
Proof. apply (tty_ioctl_ignored (Some serial_start) 0x80001000 1 0x1000 fresh [72; 9; 10; 0]); [unfold UMEM_MAX; lia|vm_compute; reflexivity]. Defined.
End TtyDemo.
