(* ===== verification/Ramfs.v ===== *)
(** * Ramfs: the file system in memory, usr/server/fs/ramfs

    Nodes and file buffers are at addresses, linked as in the source: the
    children of a directory are a list through [rn_next].  What malloc() and
    vm_allocate() return is an argument of the operation, [None] for failure;
    vm_allocate() gives zeroed pages.  An access to memory that is not
    allocated, and a copy past the end of a buffer, are faults.

    The vnode and the open file a call works on are passed to it and returned;
    the virtual file system has them locked, so that calls on a file do not
    interleave.  Calls on a FIFO that wait on the condition variable of the
    vnode return [FifoWait] with what they resume with. *)
From stdpp Require Import base numbers gmap list.
From S2P Require Import Prelude Core Kernel Page Device Tty.

Open Scope Z_scope.

Definition VREG := 1.
Definition VDIR := 2.
Definition VFIFO := 7.
Definition O_APPEND := 8.
Definition PIPE_BUF := 1024.
Definition ALLPERMS := 4095.
Definition EISDIR := 21.
Definition ESPIPE := 29.
Definition EPIPE := 32.
Definition DT_DIR := 4.
Definition DT_REG := 8.
Definition S_IFMT := 0xf000.
Definition S_ISDIR (mode : Z) : bool := Z.land mode S_IFMT =? 0x4000.
Definition S_ISREG (mode : Z) : bool := Z.land mode S_IFMT =? 0x8000.
Definition S_ISFIFO (mode : Z) : bool := (Z.land mode S_IFMT =? 0x1000) || (Z.land mode S_IFMT =? 0xc000).

(** struct ramfs_node; [rn_cap] is the size of the allocation at [rn_name]. *)
Record ramfs_node := mk_rnode {
  rn_next : Z;
  rn_child : Z;
  rn_type : Z;
  rn_name : list Z;
  rn_cap : Z;
  rn_namelen : Z;
  rn_size : Z;
  rn_buf : Z;
  rn_bufsize : Z;
  rn_read_fds : Z;
  rn_write_fds : Z;
}.
#[export] Instance ramfs_node_eta : Settable ramfs_node := fun x =>
  mk_rnode (rn_next x) (rn_child x) (rn_type x) (rn_name x) (rn_cap x) (rn_namelen x) (rn_size x) (rn_buf x) (rn_bufsize x) (rn_read_fds x) (rn_write_fds x).

(** The fields of struct vnode that a file system uses; [v_cond] tells whether
    the condition variable exists, [v_signals] counts cond_signal() calls. *)
Record vnode := mk_vnode { v_data : Z; v_type : Z; v_mode : Z; v_size : Z; v_cond : bool; v_signals : nat }.
#[export] Instance vnode_eta : Settable vnode := fun x => mk_vnode (v_data x) (v_type x) (v_mode x) (v_size x) (v_cond x) (v_signals x).

(** struct file of include/sys/file.h. *)
Record vfile := mk_vfile { vf_flags : Z; vf_offset : Z }.
#[export] Instance vfile_eta : Settable vfile := fun x => mk_vfile (vf_flags x) (vf_offset x).

Record rfs := mk_rfs { nodes : gmap Z ramfs_node; bufs : gmap Z (list Z) }.
#[export] Instance rfs_eta : Settable rfs := fun x => mk_rfs (nodes x) (bufs x).

Definition upd_node (a : Z) (f : ramfs_node -> ramfs_node) (s : rfs) : option rfs :=
  n ← nodes s !! a; Some (s <| nodes ::= <[a := f n]> |>).

(** memcpy() from and to a buffer; nothing is accessed for a length of 0. *)
Definition buf_read (a off len : Z) (s : rfs) : option (list Z) :=
  if len =? 0 then Some []
  else b ← bufs s !! a; if (0 <=? off) && (off + len <=? Z.of_nat (length b)) then Some (take (Z.to_nat len) (drop (Z.to_nat off) b)) else None.
Definition overlay (off : nat) (l b : list Z) : list Z := take off b ++ l ++ drop (off + length l) b.
Definition buf_write (a off : Z) (l : list Z) (s : rfs) : option rfs :=
  if Z.of_nat (length l) =? 0 then Some s
  else b ← bufs s !! a;
       if (0 <=? off) && (off + Z.of_nat (length l) <=? Z.of_nat (length b)) then Some (s <| bufs ::= <[a := overlay (Z.to_nat off) l b]> |>) else None.
(** vm_free() of an address that is not allocated fails without effect. *)
Definition buf_free (a : Z) (s : rfs) : rfs := s <| bufs ::= delete a |>.

(** ** Nodes and directories *)

(** [np] is the first malloc(), [nm] tells whether the second one succeeds. *)
Definition ramfs_allocate_node (name : list Z) (type : Z) (np : option Z) (nm : bool) (s : rfs) : Z * rfs :=
  match np with
  | None => (NULL, s)
  | Some a =>
      if nm then
        let len := Z.of_nat (length name) in
        (a, s <| nodes ::= <[a := mk_rnode NULL NULL type name (len + 1) len 0 NULL 0 0 0]> |>)
      else (NULL, s)
  end.
Definition ramfs_free_node (np : Z) (s : rfs) : option rfs := _ ← nodes s !! np; Some (s <| nodes ::= delete np |>).

(** while (prev->rn_next != NULL) prev = prev->rn_next; *)
Fixpoint last_node (n : nat) (prev : Z) (s : rfs) : option Z :=
  match n with
  | O => None
  | S n => p ← nodes s !! prev; if rn_next p =? NULL then Some prev else last_node n (rn_next p) s
  end.
Definition ramfs_add_node (dnp : Z) (name : list Z) (type : Z) (np : option Z) (nm : bool) (s : rfs) : option (Z * rfs) :=
  let '(a, s) := ramfs_allocate_node name type np nm s in
  if a =? NULL then Some (NULL, s)
  else
    d ← nodes s !! dnp;
    if rn_child d =? NULL then s ← upd_node dnp (fun d => d <| rn_child := a |>) s; Some (a, s)
    else
      prev ← last_node (size (nodes s)) (rn_child d) s;
      s ← upd_node prev (fun p => p <| rn_next := a |>) s; Some (a, s).

(** for (prev = child; prev->rn_next != np; prev = prev->rn_next)
      if (prev->rn_next == NULL) return ENOENT; *)
Fixpoint prev_node (n : nat) (prev np : Z) (s : rfs) : option Z :=
  match n with
  | O => None
  | S n =>
      p ← nodes s !! prev;
      if rn_next p =? np then Some prev else if rn_next p =? NULL then Some NULL else prev_node n (rn_next p) np s
  end.
Definition ramfs_remove_node (dnp np : Z) (s : rfs) : option (Z * rfs) :=
  d ← nodes s !! dnp;
  if rn_child d =? NULL then Some (EBUSY, s)
  else
    if rn_child d =? np then
      x ← nodes s !! np;
      s ← upd_node dnp (fun d => d <| rn_child := rn_next x |>) s; s ← ramfs_free_node np s; Some (0, s)
    else
      prev ← prev_node (size (nodes s)) (rn_child d) np s;
      if prev =? NULL then Some (ENOENT, s)
      else x ← nodes s !! np; s ← upd_node prev (fun p => p <| rn_next := rn_next x |>) s; s ← ramfs_free_node np s; Some (0, s).

(** [tmp] tells whether the malloc() for a longer name succeeds.  strcpy() past
    the end of the allocation is a fault. *)
Definition ramfs_rename_node (np : Z) (name : list Z) (tmp : bool) (s : rfs) : option (Z * rfs) :=
  x ← nodes s !! np;
  let len := Z.of_nat (length name) in
  if len <=? rn_namelen x then
    if negb (len + 1 <=? rn_cap x) then None
    else s ← upd_node np (fun x => x <| rn_name := name |> <| rn_namelen := len |>) s; Some (0, s)
  else if tmp then s ← upd_node np (fun x => x <| rn_name := name |> <| rn_cap := len + 1 |> <| rn_namelen := len |>) s; Some (0, s)
  else Some (ENOMEM, s).

(** np->rn_namelen == len && memcmp(name, np->rn_name, len) == 0 *)
Definition name_matches (name : list Z) (x : ramfs_node) : bool :=
  (rn_namelen x =? Z.of_nat (length name)) && bool_decide (name = take (length name) (rn_name x)).
Fixpoint find_name (n : nat) (np : Z) (name : list Z) (s : rfs) : option Z :=
  if np =? NULL then Some NULL
  else
    match n with
    | O => None
    | S n => x ← nodes s !! np; if name_matches name x then Some np else find_name n (rn_next x) name s
    end.
Definition ramfs_lookup (dvp : vnode) (name : list Z) (vp : vnode) (s : rfs) : option (Z * vnode) :=
  if bool_decide (name = []) then Some (ENOENT, vp)
  else
    d ← nodes s !! v_data dvp;
    np ← find_name (size (nodes s)) (rn_child d) name s;
    if np =? NULL then Some (ENOENT, vp)
    else
      x ← nodes s !! np;
      Some (0, vp <| v_data := np |> <| v_mode := ALLPERMS |> <| v_type := rn_type x |> <| v_size := (if rn_type x =? VFIFO then 0 else rn_size x) |>).

Definition ramfs_mkdir (dvp : vnode) (name : list Z) (mode : Z) (np : option Z) (nm : bool) (s : rfs) : option (Z * rfs) :=
  if negb (S_ISDIR mode) then Some (EINVAL, s)
  else
    r ← ramfs_add_node (v_data dvp) name VDIR np nm s;
    let '(a, s) := r in
    if a =? NULL then Some (ENOMEM, s) else s ← upd_node a (fun x => x <| rn_size := 0 |>) s; Some (0, s).
Definition ramfs_rmdir (dvp vp : vnode) (s : rfs) : option (Z * rfs) := ramfs_remove_node (v_data dvp) (v_data vp) s.

Definition ramfs_create (dvp : vnode) (name : list Z) (mode : Z) (np : option Z) (nm : bool) (s : rfs) : option (Z * rfs) :=
  if negb (S_ISREG mode) then Some (EINVAL, s)
  else r ← ramfs_add_node (v_data dvp) name VREG np nm s; let '(a, s) := r in Some (if a =? NULL then ENOMEM else 0, s).

Definition ramfs_remove (dvp vp : vnode) (s : rfs) : option (Z * vnode * rfs) :=
  x ← nodes s !! v_data vp;
  s ← (if negb (rn_buf x =? NULL) then upd_node (v_data vp) (fun x => x <| rn_buf := NULL |> <| rn_bufsize := 0 |>) (buf_free (rn_buf x) s) else Some s);
  r ← ramfs_remove_node (v_data dvp) (v_data vp) s;
  let '(err, s) := r in Some (err, vp <| v_size := 0 |>, s).

(** rn_size keeps its value. *)
Definition ramfs_truncate (vp : vnode) (s : rfs) : option (Z * vnode * rfs) :=
  x ← nodes s !! v_data vp;
  s ← (if negb (rn_buf x =? NULL) then upd_node (v_data vp) (fun x => x <| rn_buf := NULL |> <| rn_bufsize := 0 |>) (buf_free (rn_buf x) s) else Some s);
  Some (0, vp <| v_size := 0 |>, s).

(** [np], [nm] and [tmp] are the allocations of the new node and name. *)
Definition ramfs_rename (dvp1 vp1 dvp2 : vnode) (same_dir : bool) (vp2 : option vnode) (name2 : list Z) (np : option Z) (nm tmp : bool) (s : rfs) : option (Z * rfs) :=
  r ← (match vp2 with Some v => ramfs_remove_node (v_data dvp2) (v_data v) s | None => Some (0, s) end);
  let '(err, s) := r in
  if negb (err =? 0) then Some (err, s)
  else if same_dir then ramfs_rename_node (v_data vp1) name2 tmp s
  else
    old ← nodes s !! v_data vp1;
    r ← ramfs_add_node (v_data dvp2) name2 VREG np nm s;
    let '(a, s) := r in
    if a =? NULL then Some (ENOMEM, s)
    else
      s ← (if v_type vp1 =? VREG then
             upd_node a (fun x => x <| rn_buf := rn_buf old |> <| rn_size := rn_size old |> <| rn_bufsize := rn_bufsize old |>) s
           else Some s);
      r ← ramfs_remove_node (v_data dvp1) (v_data vp1) s;
      Some (0, snd r).

(** The entry of a directory; for (i = 0; i != offset - 2; i++) np = np->rn_next; *)
Fixpoint nth_node (i : nat) (np : Z) (s : rfs) : option Z :=
  match i with
  | O => Some np
  | S i => x ← nodes s !! np; if rn_next x =? NULL then Some NULL else nth_node i (rn_next x) s
  end.
Definition ramfs_readdir (vp : vnode) (fp : vfile) (s : rfs) : option (Z * option (Z * list Z) * vfile) :=
  let entry t name := Some (0, Some (t, name), fp <| vf_offset ::= Z.succ |>) in
  if vf_offset fp =? 0 then entry DT_DIR [46]
  else if vf_offset fp =? 1 then entry DT_DIR [46; 46]
  else
    d ← nodes s !! v_data vp;
    if rn_child d =? NULL then Some (ENOENT, None, fp)
    else
      np ← nth_node (Z.to_nat (vf_offset fp - 2)) (rn_child d) s;
      if np =? NULL then Some (ENOENT, None, fp)
      else x ← nodes s !! np; entry (if rn_type x =? VDIR then DT_DIR else DT_REG) (rn_name x).

(** ** Regular files *)
Definition ramfs_read_file (vp : vnode) (fp : vfile) (size : Z) (s : rfs) : option (Z * list Z * vfile) :=
  let off := vf_offset fp in
  if s32 (v_size vp) <=? off then Some (0, [], fp)
  else
    let size := if u32 (v_size vp - off) <? size then u32 (v_size vp - off) else size in
    x ← nodes s !! v_data vp;
    l ← buf_read (rn_buf x) off size s;
    Some (0, l, fp <| vf_offset ::= Z.add size |>).

(** The buffer for a file that grows to [end_pos]; [nb] is the address that
    vm_allocate() returns. *)
Definition grow_file (vp : vnode) (x : ramfs_node) (file_pos end_pos : Z) (nb : option Z) (s : rfs) : option (option rfs) :=
  match nb with
  | None => Some None
  | Some b =>
      let new_size := PAGE_ALIGN end_pos in
      let s := s <| bufs ::= <[b := replicate (Z.to_nat new_size) 0]> |> in
      s ← (if negb (rn_size x =? 0) then l ← buf_read (rn_buf x) 0 (v_size vp) s; s ← buf_write b 0 l s; Some (buf_free (rn_buf x) s) else Some s);
      s ← (if v_size vp <? file_pos then buf_write b (v_size vp) (replicate (Z.to_nat (file_pos - v_size vp)) 0) s else Some s);
      s ← upd_node (v_data vp) (fun x => x <| rn_buf := b |> <| rn_bufsize := new_size |>) s;
      Some (Some s)
  end.
Definition ramfs_write_file (vp : vnode) (fp : vfile) (l : list Z) (nb : option Z) (s : rfs) : option (Z * Z * vnode * vfile * rfs) :=
  let size := Z.of_nat (length l) in
  x ← nodes s !! v_data vp;
  let end_pos := s32 (v_size vp) in
  let file_pos := if has (vf_flags fp) O_APPEND then end_pos else vf_offset fp in
  let put vp s :=
    x ← nodes s !! v_data vp;
    s ← buf_write (rn_buf x) file_pos l s;
    Some (0, size, vp, fp <| vf_offset ::= Z.add size |>, s) in
  if u32 end_pos <? u32 (file_pos + size) then
    let end_pos := s32 (file_pos + size) in
    r ← (if s32 (rn_bufsize x) <? end_pos then grow_file vp x file_pos end_pos nb s else Some (Some s));
    match r with
    | None => Some (EIO, 0, vp, fp, s)
    | Some s => s ← upd_node (v_data vp) (fun x => x <| rn_size := end_pos |>) s; put (vp <| v_size := end_pos |>) s
    end
  else put vp s.

(** ** FIFOs

    [rn_bufsize] counts the bytes ever written and [rn_size] the bytes ever
    read, modulo 2^32. *)
Definition notify (vp : vnode) : vnode := if v_cond vp then vp <| v_signals ::= S |> else vp.

Definition ramfs_open (vp : vnode) (flags : Z) (s : rfs) : option (Z * rfs) :=
  if negb (v_type vp =? VFIFO) then Some (0, s)
  else
    x ← nodes s !! v_data vp;
    let rw := Z.land flags (Z.lor FREAD FWRITE) in
    if (Z.land flags (Z.lor O_NONBLOCK (Z.lor FREAD FWRITE)) =? Z.lor O_NONBLOCK FWRITE) && (rn_read_fds x =? 0) then Some (ENXIO, s)
    else if rw =? FREAD then s ← upd_node (v_data vp) (fun x => x <| rn_read_fds ::= Z.succ |>) s; Some (0, s)
    else if rw =? FWRITE then s ← upd_node (v_data vp) (fun x => x <| rn_write_fds ::= Z.succ |>) s; Some (0, s)
    else Some (EINVAL, s).

Definition ramfs_close (vp : vnode) (fp : vfile) (s : rfs) : option (Z * vnode * rfs) :=
  if negb (v_type vp =? VFIFO) then Some (0, vp, s)
  else
    x ← nodes s !! v_data vp;
    if has (vf_flags fp) FREAD then
      s ← upd_node (v_data vp) (fun x => x <| rn_read_fds ::= Z.pred |>) s;
      Some (0, if rn_read_fds x - 1 =? 0 then notify vp else vp, s)
    else
      s ← upd_node (v_data vp) (fun x => x <| rn_write_fds ::= Z.pred |>) s;
      Some (0, if rn_write_fds x - 1 =? 0 then notify vp else vp, s).

(** [buf] is the malloc() of the buffer, with what the memory held. *)
Definition ramfs_mkfifo (dvp : vnode) (name : list Z) (mode : Z) (np : option Z) (nm : bool) (buf : option (Z * list Z)) (s : rfs) : option (Z * rfs) :=
  if negb (S_ISFIFO mode) then Some (EINVAL, s)
  else
    r ← ramfs_add_node (v_data dvp) name VFIFO np nm s;
    let '(a, s) := r in
    if a =? NULL then Some (ENOMEM, s)
    else match buf with
         | None => r ← ramfs_remove_node (v_data dvp) a s; Some (ENOMEM, snd r)
         | Some (b, l) => s ← upd_node a (fun x => x <| rn_buf := b |>) (s <| bufs ::= <[b := l]> |>); Some (0, s)
         end.

(** What read() and write() of a FIFO come to: an error and a count with the
    bytes read or not yet written, or a wait with the bytes so far and the
    remaining size. *)
Inductive fifo_result :=
  | FifoRet (err : Z) (l : list Z)
  | FifoWait (l : list Z) (size : Z).

(** return (read) ? 0 : err; *)
Definition fifo_end (err : Z) (l : list Z) : fifo_result := FifoRet (if bool_decide (l = []) then err else 0) l.

(** The loop of ramfs_read_fifo(); [l] is what has been read.  A round that
    does not end the loop reads at least a byte. *)
Fixpoint read_fifo_loop (n : nat) (vp : vnode) (fp : vfile) (l : list Z) (size : Z) (s : rfs) : option (fifo_result * vnode * rfs) :=
  match n with
  | O => None
  | S n =>
      if size =? 0 then Some (fifo_end 0 l, vp, s)
      else
        x ← nodes s !! v_data vp;
        let avail := u32 (rn_bufsize x - rn_size x) in
        if avail =? 0 then
          if rn_write_fds x =? 0 then Some (fifo_end 0 l, vp, s)
          else if has (vf_flags fp) O_NONBLOCK then Some (fifo_end EAGAIN l, vp, s)
          else Some (FifoWait l size, vp <| v_cond := true |>, s)
        else
          let vp := if avail =? PIPE_BUF then notify vp else vp in
          let off := Z.land (rn_size x) (PIPE_BUF - 1) in
          let avail := if PIPE_BUF - off <? avail then PIPE_BUF - off else avail in
          let len := if size <? avail then size else avail in
          d ← buf_read (rn_buf x) off len s;
          s ← upd_node (v_data vp) (fun x => x <| rn_size ::= fun z => u32 (z + len) |>) s;
          read_fifo_loop n vp fp (l ++ d) (size - len) s
  end.
Definition ramfs_read_fifo (vp : vnode) (fp : vfile) (size : Z) (s : rfs) : option (fifo_result * vnode * rfs) :=
  read_fifo_loop (S (Z.to_nat size)) vp fp [] size s.
(** The reader resumes when cond_wait() returns [err]. *)
Definition read_fifo_wake (err : Z) (l : list Z) (vp : vnode) (fp : vfile) (size : Z) (s : rfs) : option (fifo_result * vnode * rfs) :=
  if negb (err =? 0) then Some (fifo_end err l, vp, s) else read_fifo_loop (S (Z.to_nat size)) vp fp l size s.

(** The loop of ramfs_write_fifo(); [l] is what is still to be written and
    [done] the number of bytes written. *)
Definition fifo_wend (err : Z) (done : Z) (l : list Z) : fifo_result := FifoRet (if done =? 0 then err else 0) l.
Fixpoint write_fifo_loop (n : nat) (vp : vnode) (fp : vfile) (l : list Z) (done : Z) (s : rfs) : option (fifo_result * vnode * rfs) :=
  match n with
  | O => None
  | S n =>
      let size := Z.of_nat (length l) in
      if size =? 0 then Some (fifo_wend 0 done l, vp, s)
      else
        x ← nodes s !! v_data vp;
        if rn_read_fds x =? 0 then Some (fifo_wend EPIPE done l, vp, s)
        else
          let free := u32 (PIPE_BUF - u32 (rn_bufsize x - rn_size x)) in
          if free =? 0 then
            if has (vf_flags fp) O_NONBLOCK then Some (fifo_wend EAGAIN done l, vp, s)
            else Some (FifoWait l done, vp <| v_cond := true |>, s)
          else
            let vp := if free =? PIPE_BUF then notify vp else vp in
            let off := Z.land (rn_bufsize x) (PIPE_BUF - 1) in
            let free := if PIPE_BUF - off <? free then PIPE_BUF - off else free in
            let len := if size <? free then size else free in
            s ← buf_write (rn_buf x) off (take (Z.to_nat len) l) s;
            s ← upd_node (v_data vp) (fun x => x <| rn_bufsize ::= fun z => u32 (z + len) |>) s;
            write_fifo_loop n vp fp (drop (Z.to_nat len) l) (done + len) s
  end.
Definition ramfs_write_fifo (vp : vnode) (fp : vfile) (l : list Z) (s : rfs) : option (fifo_result * vnode * rfs) :=
  write_fifo_loop (S (length l)) vp fp l 0 s.
Definition write_fifo_wake (err : Z) (l : list Z) (vp : vnode) (fp : vfile) (done : Z) (s : rfs) : option (fifo_result * vnode * rfs) :=
  if negb (err =? 0) then Some (fifo_wend err done l, vp, s) else write_fifo_loop (S (length l)) vp fp l done s.

(** ** Reading and writing

    ramfs_read() and ramfs_write() by the type of the vnode. *)
Inductive io_result :=
  | IoRet (err count : Z) (l : list Z) (vp : vnode) (fp : vfile) (s : rfs)
  | IoWait (r : fifo_result) (vp : vnode) (fp : vfile) (s : rfs).

Definition ramfs_read (vp : vnode) (fp : vfile) (size : Z) (s : rfs) : option io_result :=
  if v_type vp =? VFIFO then
    r ← ramfs_read_fifo vp fp size s;
    let '(r, vp, s) := r in
    Some (match r with FifoRet err l => IoRet err (Z.of_nat (length l)) l vp fp s | FifoWait _ _ => IoWait r vp fp s end)
  else if v_type vp =? VDIR then Some (IoRet EISDIR 0 [] vp fp s)
  else if negb (v_type vp =? VREG) then Some (IoRet EINVAL 0 [] vp fp s)
  else r ← ramfs_read_file vp fp size s; let '(err, l, fp) := r in Some (IoRet err (Z.of_nat (length l)) l vp fp s).

Definition ramfs_write (vp : vnode) (fp : vfile) (l : list Z) (nb : option Z) (s : rfs) : option io_result :=
  if v_type vp =? VFIFO then
    r ← ramfs_write_fifo vp fp l s;
    let '(r, vp, s) := r in
    Some (match r with FifoRet err l' => IoRet err (Z.of_nat (length l) - Z.of_nat (length l')) l' vp fp s | FifoWait _ _ => IoWait r vp fp s end)
  else if v_type vp =? VDIR then Some (IoRet EISDIR 0 [] vp fp s)
  else if negb (v_type vp =? VREG) then Some (IoRet EINVAL 0 [] vp fp s)
  else r ← ramfs_write_file vp fp l nb s; let '(err, n, vp, fp, s) := r in Some (IoRet err n [] vp fp s).

Definition ramfs_seek (vp : vnode) : Z := if v_type vp =? VFIFO then ESPIPE else 0.

(** ramfs_mount(): the root node. *)
Definition ramfs_mount (root : vnode) (np : option Z) (nm : bool) (s : rfs) : Z * vnode * rfs :=
  let '(a, s) := ramfs_allocate_node [47] VDIR np nm s in
  if a =? NULL then (ENOMEM, root, s) else (0, root <| v_data := a |>, s).

(** ** The system calls above, usr/server/fs/vfs/vfs_syscalls.c *)
Definition sys_read (vp : vnode) (fp : vfile) (size : Z) (s : rfs) : option io_result :=
  if negb (has (vf_flags fp) FREAD) then Some (IoRet EPERM 0 [] vp fp s)
  else if size =? 0 then Some (IoRet 0 0 [] vp fp s)
  else ramfs_read vp fp size s.
(** FWRITE is not tested. *)
Definition sys_write (vp : vnode) (fp : vfile) (l : list Z) (nb : option Z) (s : rfs) : option io_result :=
  if Z.of_nat (length l) =? 0 then Some (IoRet 0 0 [] vp fp s) else ramfs_write vp fp l nb s.

Definition SEEK_SET := 0.
Definition SEEK_CUR := 1.
Definition SEEK_END := 2.
Definition sys_lseek (vp : vnode) (fp : vfile) (off type : Z) : Z * option Z * vfile :=
  let go off :=
    let err := ramfs_seek vp in
    if err =? 0 then (0, Some off, fp <| vf_offset := off |>) else (err, None, fp) in
  if type =? SEEK_SET then go (if off <? 0 then 0 else off)
  else if type =? SEEK_CUR then
    go (if s32 (v_size vp) <? s32 (vf_offset fp + off) then s32 (v_size vp) else if s32 (vf_offset fp + off) <? 0 then 0 else s32 (vf_offset fp + off))
  else if type =? SEEK_END then
    go (if 0 <? off then s32 (v_size vp) else if s32 (s32 (v_size vp) + off) <? 0 then 0 else s32 (v_size vp + off))
  else (EINVAL, None, fp).
