(* ===== verification/RamfsSpec.v ===== *)
(** * RamfsSpec: files of the file system in memory

    A regular file is a sequence of bytes: reading takes a slice of it, writing
    replaces a slice and fills a gap with zeros, whatever the buffer below does
    ([file_ok]: the buffer holds the bytes and zeros after them).  A FIFO is a
    queue of bytes. *)
From stdpp Require Import base numbers gmap list.
From S2P Require Import Prelude Core Kernel Page PageSpec Device Tty Ramfs.

Open Scope Z_scope.

Definition zeros (n : nat) : list Z := replicate n 0.

(** ** Regular files *)

(** The node of [vp] is a file with the bytes [f]. *)
Definition file_ok (s : rfs) (vp : vnode) (x : ramfs_node) (f : list Z) : Prop :=
  nodes s !! v_data vp = Some x /\ v_type vp = VREG /\ v_size vp = Z.of_nat (length f) /\ rn_size x = Z.of_nat (length f) /\
  rn_size x <= rn_bufsize x < 2 ^ 31 /\
  (f = [] /\ rn_bufsize x = 0 \/ bufs s !! rn_buf x = Some (f ++ zeros (Z.to_nat (rn_bufsize x - rn_size x)))).

(** The contents after [l] is written at [pos]; a gap is filled with zeros. *)
Definition write_at (pos : nat) (l f : list Z) : list Z :=
  take pos (f ++ zeros (pos - length f)) ++ l ++ drop (pos + length l) f.

Lemma write_at_length pos l f : length (write_at pos l f) = Nat.max (length f) (pos + length l).
Proof. unfold write_at, zeros. rewrite !length_app, length_take, length_app, length_replicate, length_drop. lia. Qed.

Lemma overlay_length off l b : (off + length l <= length b)%nat -> length (overlay off l b) = length b.
Proof. intros H. unfold overlay. rewrite !length_app, length_take, length_drop. lia. Qed.

Lemma overlay_write pos l f k : (pos + length l <= length f + k)%nat ->
  overlay pos l (f ++ zeros k) = write_at pos l f ++ zeros (length f + k - Nat.max (length f) (pos + length l)).
Proof.
  intros H. unfold overlay, write_at, zeros. rewrite <- !app_assoc. f_equal; [|f_equal].
  - rewrite !take_app, !take_replicate. do 2 f_equal. lia.
  - rewrite drop_app, drop_replicate. do 2 f_equal. lia.
Qed.

(** Reading back what was written. *)
Lemma write_at_read pos l f : take (length l) (drop pos (write_at pos l f)) = l.
Proof.
  unfold write_at. assert (length (take pos (f ++ zeros (pos - length f))) = pos) as E by (unfold zeros; rewrite length_take, length_app, length_replicate; lia).
  rewrite drop_app_ge by lia. rewrite E, Nat.sub_diag. by rewrite drop_0, take_app_length.
Qed.

Lemma buf_write_ok a off l s b : bufs s !! a = Some b -> 0 <= off -> off + Z.of_nat (length l) <= Z.of_nat (length b) ->
  buf_write a off l s = Some (s <| bufs ::= <[a := overlay (Z.to_nat off) l b]> |>).
Proof.
  intros Hb H0 H1. unfold buf_write. destruct (Z.eqb_spec (Z.of_nat (length l)) 0) as [E|].
  - destruct l; [|done]. unfold overlay. cbn. rewrite Nat.add_0_r, take_drop. rewrite insert_id by done. by destruct s.
  - rewrite Hb. cbn [mbind option_bind]. by rewrite (proj2 (Z.leb_le _ _) H0), (proj2 (Z.leb_le _ _) H1).
Qed.

Lemma buf_read_ok a off len s b : bufs s !! a = Some b -> 0 <= off -> 0 <= len -> off + len <= Z.of_nat (length b) ->
  buf_read a off len s = Some (take (Z.to_nat len) (drop (Z.to_nat off) b)).
Proof.
  intros Hb H0 Hl H1. unfold buf_read. destruct (Z.eqb_spec len 0) as [->|]; [done|]. rewrite Hb. cbn [mbind option_bind].
  by rewrite (proj2 (Z.leb_le _ _) H0), (proj2 (Z.leb_le _ _) H1).
Qed.

(** The buffer that grow_file() installs. *)
Lemma grow_file_ok s vp x f pos end_pos nb : file_ok s vp x f -> bufs s !! nb = None -> Z.of_nat (length f) <= end_pos -> 0 < end_pos < 2 ^ 31 - PAGE_SIZE -> 0 <= pos <= end_pos ->
  exists s', grow_file vp x pos end_pos (Some nb) s = Some (Some s') /\
    nodes s' = <[v_data vp := x <| rn_buf := nb |> <| rn_bufsize := PAGE_ALIGN end_pos |>]> (nodes s) /\
    bufs s' !! nb = Some (f ++ zeros (Z.to_nat (PAGE_ALIGN end_pos) - length f)) /\
    (forall a, a <> rn_buf x -> a <> nb -> bufs s' !! a = bufs s !! a).
Proof.
  intros (Hx&Ht&Hv&Hn&Hb&HB) Hnb Hf He Hp. unfold grow_file. destruct (PAGE_ALIGN_ok end_pos) as [_ HA]; [lia|unfold PAGE_MASK, PAGE_SIZE in *; lia|].
  set (N := PAGE_ALIGN end_pos) in *. set (s1 := s <| bufs ::= <[nb := replicate (Z.to_nat N) 0]> |>). rewrite Hn, Hv.
  assert (exists s2, (if negb (Z.of_nat (length f) =? 0) then l ← buf_read (rn_buf x) 0 (Z.of_nat (length f)) s1; s ← buf_write nb 0 l s1; Some (buf_free (rn_buf x) s) else Some s1) = Some s2 /\
    nodes s2 = nodes s /\ bufs s2 !! nb = Some (f ++ zeros (Z.to_nat N - length f)) /\ (forall a, a <> rn_buf x -> a <> nb -> bufs s2 !! a = bufs s !! a)) as (s2&->&N2&B2&O2).
  { destruct HB as [[-> HB]|HB].
    - cbn. eexists. split; [done|]. split_and!; [done|cbn; rewrite lookup_insert_eq; by rewrite Nat.sub_0_r|]. intros a _ Ha. cbn. by rewrite lookup_insert_ne.
    - assert (rn_buf x <> nb) as Hne by (intros E; rewrite E in HB; congruence). destruct (Z.eqb_spec (Z.of_nat (length f)) 0) as [E|E]; cbn [negb].
      { destruct f; [|done]. eexists. split; [done|]. split_and!; [done|cbn; rewrite lookup_insert_eq; by rewrite Nat.sub_0_r|]. intros a _ Ha. cbn. by rewrite lookup_insert_ne. }
      rewrite (buf_read_ok _ _ _ _ (f ++ zeros (Z.to_nat (rn_bufsize x - rn_size x)))); [|cbn; by rewrite lookup_insert_ne|lia|lia|rewrite length_app; lia].
      cbn [mbind option_bind]. rewrite Nat2Z.id, drop_0, take_app_length. rewrite (buf_write_ok _ _ _ _ (zeros (Z.to_nat N))); [|cbn; by rewrite lookup_insert_eq|lia|unfold zeros; rewrite length_replicate; lia].
      cbn [mbind option_bind]. eexists. split; [done|]. split_and!; [done| |].
      + cbn. rewrite lookup_delete_ne, lookup_insert_eq by done. f_equal. change (zeros (Z.to_nat N)) with ([] ++ zeros (Z.to_nat N)). rewrite overlay_write by (cbn; lia).
        unfold write_at. cbn. rewrite drop_nil, app_nil_r. done.
      + intros a H1 H2. cbn. by rewrite lookup_delete_ne, !lookup_insert_ne by done. }
  cbn [mbind option_bind].
  assert (exists s3, (if Z.of_nat (length f) <? pos then buf_write nb (Z.of_nat (length f)) (replicate (Z.to_nat (pos - Z.of_nat (length f))) 0) s2 else Some s2) = Some s3 /\
    nodes s3 = nodes s /\ bufs s3 !! nb = Some (f ++ zeros (Z.to_nat N - length f)) /\ (forall a, a <> rn_buf x -> a <> nb -> bufs s3 !! a = bufs s !! a)) as (s3&->&N3&B3&O3).
  { destruct (Z.ltb_spec (Z.of_nat (length f)) pos); [|by exists s2]. rewrite (buf_write_ok _ _ _ _ _ B2); [|lia|rewrite length_app; unfold zeros; rewrite !length_replicate; lia].
    eexists. split; [done|]. split_and!; [done| |intros a H1 H2; cbn; rewrite lookup_insert_ne by done; by apply O2].
    cbn. rewrite lookup_insert_eq. f_equal. rewrite overlay_write by (rewrite length_replicate; lia). unfold write_at, zeros. rewrite Nat2Z.id, length_replicate, Nat.sub_diag.
    rewrite (skipn_all2 f) by lia. cbn [replicate]. rewrite !app_nil_r, firstn_all, <- app_assoc. f_equal. rewrite <- replicate_add. f_equal. lia. }
  cbn [mbind option_bind]. unfold upd_node. rewrite N3, Hx. cbn [mbind option_bind]. eexists. split; [done|]. cbn. by rewrite N3.
Qed.

(** Writing inside the buffer. *)
Lemma put_ok s vp x f pos l n : nodes s !! v_data vp = Some x -> bufs s !! rn_buf x = Some (f ++ zeros (Z.to_nat n - length f)) -> 0 <= pos ->
  Z.of_nat (length f) <= n -> pos + Z.of_nat (length l) <= n ->
  exists s', buf_write (rn_buf x) pos l s = Some s' /\ nodes s' = nodes s /\
    bufs s' !! rn_buf x = Some (write_at (Z.to_nat pos) l f ++ zeros (Z.to_nat n - length (write_at (Z.to_nat pos) l f))) /\
    (forall a, a <> rn_buf x -> bufs s' !! a = bufs s !! a).
Proof.
  intros Hx HB Hp Hf Hl. rewrite (buf_write_ok _ _ _ _ _ HB); [|lia|rewrite length_app; unfold zeros; rewrite length_replicate; lia].
  eexists. split; [done|]. split_and!; [done| |intros a Ha; cbn; by rewrite lookup_insert_ne]. cbn. rewrite lookup_insert_eq, overlay_write by lia.
  rewrite write_at_length. do 3 f_equal. lia.
Qed.

(** What a write of [l] at [pos] that succeeds leaves behind. *)
Definition wrote_file (s : rfs) (vp : vnode) (x : ramfs_node) (f : list Z) (pos : Z) (l : list Z) (nb : option Z) (vp' : vnode) (s' : rfs) : Prop :=
  exists x', file_ok s' vp' x' (write_at (Z.to_nat pos) l f) /\ v_data vp' = v_data vp /\ nodes s' = <[v_data vp := x']> (nodes s) /\
    (forall a, a <> rn_buf x -> Some a <> nb -> bufs s' !! a = bufs s !! a).

Lemma write_file_ok s vp x f fp l nb : file_ok s vp x f -> (forall b, nb = Some b -> bufs s !! b = None) -> (0 < length l)%nat ->
  let pos := if has (vf_flags fp) O_APPEND then Z.of_nat (length f) else vf_offset fp in
  0 <= pos -> pos + Z.of_nat (length l) < 2 ^ 31 - PAGE_SIZE ->
  (rn_bufsize x < pos + Z.of_nat (length l) /\ nb = None /\ ramfs_write_file vp fp l nb s = Some (EIO, 0, vp, fp, s)) \/
  (exists vp' s', ramfs_write_file vp fp l nb s = Some (0, Z.of_nat (length l), vp', fp <| vf_offset ::= Z.add (Z.of_nat (length l)) |>, s') /\
     wrote_file s vp x f pos l nb vp' s').
Proof.
  intros HF Hnb Hl pos Hp Hpl. unfold PAGE_SIZE in Hpl. pose proof HF as (Hx&Ht&Hv&Hn&Hb&HB). unfold ramfs_write_file. rewrite Hx. cbn [mbind option_bind].
  rewrite Hv, (s32_id (Z.of_nat (length f))) by lia. fold pos. rewrite (u32_small (Z.of_nat (length f))), (u32_small (pos + _)), (s32_id (rn_bufsize x)), (s32_id (pos + _)) by lia.
  pose proof (write_at_length (Z.to_nat pos) l f) as HW.
  destruct (Z.ltb_spec (Z.of_nat (length f)) (pos + Z.of_nat (length l))) as [Hg|Hg].
  - destruct (Z.ltb_spec (rn_bufsize x) (pos + Z.of_nat (length l))) as [Hgrow|Hfit].
    + destruct nb as [b|]; [|left; by split_and!]. right. specialize (Hnb b eq_refl).
      destruct (grow_file_ok s vp x f pos (pos + Z.of_nat (length l)) b HF Hnb) as (s1&->&N1&B1&O1); [lia|unfold PAGE_SIZE; lia|lia|]. cbn [mbind option_bind].
      destruct (PAGE_ALIGN_ok (pos + Z.of_nat (length l))) as [_ HA]; [lia|unfold PAGE_MASK, PAGE_SIZE in *; lia|].
      set (x2 := x <| rn_buf := b |> <| rn_bufsize := PAGE_ALIGN (pos + Z.of_nat (length l)) |> <| rn_size := pos + Z.of_nat (length l) |>).
      set (s2 := s1 <| nodes := <[v_data vp := x2]> (nodes s) |>).
      assert (upd_node (v_data vp) (fun x => x <| rn_size := pos + Z.of_nat (length l) |>) s1 = Some s2) as ->
        by (unfold upd_node; rewrite N1, lookup_insert_eq; cbn; unfold s2; do 2 f_equal; by rewrite N1, insert_insert_eq).
      cbn [mbind option_bind]. change (v_data (vp <| v_size := pos + Z.of_nat (length l) |>)) with (v_data vp). change (nodes s2) with (<[v_data vp := x2]> (nodes s)).
      rewrite lookup_insert_eq. cbn [mbind option_bind].
      destruct (put_ok s2 vp x2 f pos l (PAGE_ALIGN (pos + Z.of_nat (length l)))) as (s3&E3&N3&B3&O3); [cbn; by rewrite lookup_insert_eq|done|done|lia|lia|].
      exists (vp <| v_size := pos + Z.of_nat (length l) |>), s3. split.
      { rewrite E3. done. }
      exists x2. rewrite N3. split_and!; [|done|done|].
      * unfold file_ok. rewrite N3. cbn [rn_size rn_bufsize rn_buf x2 set v_data v_type v_size]. rewrite HW. split_and!; try done; try (unfold PAGE_SIZE in *; lia); [cbn; by rewrite lookup_insert_eq|].
        right. cbn [x2 rn_buf set] in B3. rewrite B3, HW. do 3 f_equal. lia.
      * intros a H1 H2. rewrite O3 by (cbn; congruence). cbn. apply O1; congruence.
    + right. destruct HB as [[-> HB]|HB]; [cbn in *; lia|]. cbn [mbind option_bind].
      set (x2 := x <| rn_size := pos + Z.of_nat (length l) |>). set (s2 := s <| nodes ::= <[v_data vp := x2]> |>).
      assert (upd_node (v_data vp) (fun x => x <| rn_size := pos + Z.of_nat (length l) |>) s = Some s2) as -> by (unfold upd_node; by rewrite Hx).
      cbn [mbind option_bind]. change (v_data (vp <| v_size := pos + Z.of_nat (length l) |>)) with (v_data vp). change (nodes s2) with (<[v_data vp := x2]> (nodes s)).
      rewrite lookup_insert_eq. cbn [mbind option_bind].
      destruct (put_ok s2 vp x2 f pos l (rn_bufsize x)) as (s3&E3&N3&B3&O3); [cbn; by rewrite lookup_insert_eq|cbn; rewrite HB; do 3 f_equal; lia|done|lia|lia|].
      exists (vp <| v_size := pos + Z.of_nat (length l) |>), s3. split.
      { by rewrite E3. }
      exists x2. rewrite N3. split_and!; [|done|done|].
      * unfold file_ok. rewrite N3. cbn [rn_size rn_bufsize rn_buf x2 set v_data v_type v_size]. rewrite HW. split_and!; try done; try lia; [cbn; by rewrite lookup_insert_eq|].
        right. cbn [x2 rn_buf set] in B3. rewrite B3, HW. do 3 f_equal. lia.
      * intros a H1 H2. rewrite O3 by done. done.
  - right. destruct HB as [[-> HB]|HB]; [cbn in *; lia|].
    destruct (put_ok s vp x f pos l (rn_bufsize x)) as (s3&E3&N3&B3&O3); [done|rewrite HB; do 3 f_equal; lia|done|lia|lia|].
    exists vp, s3. rewrite E3. split; [done|]. exists x. rewrite N3. split_and!; [|done|by rewrite insert_id|intros a H1 H2; by apply O3].
    unfold file_ok. rewrite N3, HW. split_and!; try done; try lia. right. rewrite B3, HW. do 3 f_equal. lia.
Qed.

Lemma read_file_ok s vp x f fp size : file_ok s vp x f -> 0 <= vf_offset fp < 2 ^ 31 -> 0 <= size ->
  ramfs_read_file vp fp size s = Some (0, take (Z.to_nat size) (drop (Z.to_nat (vf_offset fp)) f),
    fp <| vf_offset ::= Z.add (Z.of_nat (length (take (Z.to_nat size) (drop (Z.to_nat (vf_offset fp)) f)))) |>).
Proof.
  intros (Hx&Ht&Hv&Hn&Hb&HB) Ho Hs. unfold ramfs_read_file. rewrite Hv, s32_id by lia. destruct (Z.leb_spec (Z.of_nat (length f)) (vf_offset fp)) as [Hge|Hlt].
  - rewrite (drop_ge f) by lia. rewrite take_nil. cbn. destruct fp as [fl off]. done.
  - rewrite u32_small by lia. rewrite Hx. cbn [mbind option_bind]. destruct HB as [[-> _]|HB]; [cbn in Hlt; lia|].
    set (n := if _ <? size then _ else size). assert (n = Z.min size (Z.of_nat (length f) - vf_offset fp)) as En by (unfold n; destruct (Z.ltb_spec (Z.of_nat (length f) - vf_offset fp) size); lia).
    rewrite (buf_read_ok _ _ _ _ _ HB); [|lia|lia|rewrite length_app; lia]. cbn [mbind option_bind].
    assert (take (Z.to_nat n) (drop (Z.to_nat (vf_offset fp)) (f ++ zeros (Z.to_nat (rn_bufsize x - rn_size x)))) = take (Z.to_nat size) (drop (Z.to_nat (vf_offset fp)) f)) as ->.
    { rewrite drop_app_le by lia. rewrite take_app_le by (rewrite length_drop; lia). destruct (decide (n = size)) as [->|]; [done|]. rewrite !take_ge by (rewrite length_drop; lia). done. }
    replace (Z.of_nat (length (take _ _))) with n; [done|]. rewrite length_take, length_drop. lia.
Qed.

(** C7: Files are sequences of bytes.  A write to a file with the bytes [f], at
    its offset or at the end with O_APPEND: if pages for a longer file cannot
    be allocated it is EIO and nothing changes; else the file has the bytes
    [write_at pos l f], a gap reading as zeros whether or not the buffer moved,
    no other node or buffer changes, and the offset advances.  A read returns
    the bytes that lie between the offset and the end of the file, as many as
    asked for, and EPERM without FREAD. *)
Theorem ramfs_file_refines s vp x f fp l nb size : file_ok s vp x f -> (forall b, nb = Some b -> bufs s !! b = None) -> (0 < length l)%nat ->
  0 <= vf_offset fp -> vf_offset fp + Z.of_nat (length f) + Z.of_nat (length l) < 2 ^ 31 - PAGE_SIZE -> 0 < size ->
  let pos := if has (vf_flags fp) O_APPEND then Z.of_nat (length f) else vf_offset fp in
  let slice := take (Z.to_nat size) (drop (Z.to_nat (vf_offset fp)) f) in
  (nb = None /\ sys_write vp fp l nb s = Some (IoRet EIO 0 [] vp fp s) \/
   exists vp' s', sys_write vp fp l nb s = Some (IoRet 0 (Z.of_nat (length l)) [] vp' (fp <| vf_offset ::= Z.add (Z.of_nat (length l)) |>) s') /\
     wrote_file s vp x f pos l nb vp' s') /\
  sys_read vp fp size s = Some (if has (vf_flags fp) FREAD then IoRet 0 (Z.of_nat (length slice)) slice vp (fp <| vf_offset ::= Z.add (Z.of_nat (length slice)) |>) s
                                else IoRet EPERM 0 [] vp fp s).
Proof.
  intros HF Hnb Hl Ho Hb Hs pos slice. unfold PAGE_SIZE in Hb. pose proof HF as (Hx&Ht&_). split.
  - unfold sys_write, ramfs_write. rewrite (proj2 (Z.eqb_neq (Z.of_nat (length l)) 0)), Ht by lia. cbn [Z.eqb Pos.eqb VREG VFIFO VDIR negb].
    assert (0 <= pos /\ pos + Z.of_nat (length l) < 2 ^ 31 - PAGE_SIZE) as [Hp Hpl] by (unfold pos, PAGE_SIZE; destruct (has _ _); lia).
    destruct (write_file_ok s vp x f fp l nb HF Hnb Hl Hp Hpl) as [(_&HN&->)|(vp'&s'&->&HW)]; [by left|right; by exists vp', s'].
  - unfold sys_read, ramfs_read. destruct (has _ FREAD); cbn [negb]; [|done]. rewrite (proj2 (Z.eqb_neq size 0)), Ht by lia. cbn [Z.eqb Pos.eqb VREG VFIFO VDIR negb].
    rewrite (read_file_ok s vp x f) by (done || lia). done.
Qed.

(** What is written at an offset is read back: after a write that succeeds,
    seeking to the old offset and reading as many bytes returns them, also
    when the file grew, moved to a new buffer or got a gap. *)
Theorem ramfs_write_read s vp x f fp l b : file_ok s vp x f -> bufs s !! b = None -> (0 < length l)%nat -> has (vf_flags fp) FREAD = true ->
  has (vf_flags fp) O_APPEND = false -> 0 <= vf_offset fp -> vf_offset fp + Z.of_nat (length l) < 2 ^ 31 - PAGE_SIZE ->
  exists vp' fp' fp2 fp3 s', sys_write vp fp l (Some b) s = Some (IoRet 0 (Z.of_nat (length l)) [] vp' fp' s') /\
    sys_lseek vp' fp' (vf_offset fp) SEEK_SET = (0, Some (vf_offset fp), fp2) /\
    sys_read vp' fp2 (Z.of_nat (length l)) s' = Some (IoRet 0 (Z.of_nat (length l)) l vp' fp3 s').
Proof.
  intros HF Hb Hl Hr Ha Ho Hpl. pose proof HF as (Hx&Ht&_). unfold sys_write, ramfs_write. rewrite (proj2 (Z.eqb_neq (Z.of_nat (length l)) 0)), Ht by lia.
  cbn [Z.eqb Pos.eqb VREG VFIFO VDIR negb]. pose proof (write_file_ok s vp x f fp l (Some b) HF) as HWF. cbv zeta in HWF. rewrite Ha in HWF.
  destruct HWF as [(_&[=]&_)|(vp'&s'&->&x'&HF'&_)]; [by intros ? [= <-]|done|done|done|]. pose proof HF' as (_&Ht'&_).
  cbn [mbind option_bind]. eexists vp', _, _, _, s'. split; [done|]. unfold sys_lseek. cbn [Z.eqb SEEK_SET]. unfold ramfs_seek. rewrite Ht', (proj2 (Z.ltb_ge _ 0)) by lia.
  cbn [Z.eqb Pos.eqb VREG VFIFO]. split; [done|]. unfold sys_read, ramfs_read. cbn [vf_flags vf_offset set]. rewrite Hr, Ht', (proj2 (Z.eqb_neq (Z.of_nat (length l)) 0)) by lia.
  cbn [Z.eqb Pos.eqb VREG VFIFO VDIR negb]. unfold PAGE_SIZE in Hpl. rewrite (read_file_ok _ _ _ _ _ _ HF') by (cbn; lia). cbn [vf_offset set mbind option_bind].
  rewrite Nat2Z.id, write_at_read. done.
Qed.

(** ** Truncation *)

(** A search for a name does not depend on sizes and buffers. *)
Lemma find_name_ext s s' name : (forall a, (fun x => (rn_next x, rn_name x, rn_namelen x)) <$> nodes s' !! a = (fun x => (rn_next x, rn_name x, rn_namelen x)) <$> nodes s !! a) ->
  forall n a, find_name n a name s' = find_name n a name s.
Proof.
  intros HE. induction n as [|n IH]; intros a; cbn [find_name]; destruct (a =? NULL); try done. specialize (HE a).
  destruct (nodes s' !! a) as [x'|], (nodes s !! a) as [x|]; try done. cbn [mbind option_bind fmap option_fmap option_map] in *. simplify_eq.
  unfold name_matches. replace (rn_namelen x') with (rn_namelen x) by congruence. replace (rn_name x') with (rn_name x) by congruence. replace (rn_next x') with (rn_next x) by congruence.
  by destruct (_ && _).
Qed.

(** C40: ramfs_truncate() frees the buffer of a file but keeps its size in the
    node: the vnode at hand has size 0, but the next lookup of the name gives
    the old size again, and every read inside it follows a NULL pointer. *)
Theorem truncate_keeps_size s dvp name vp0 vp x f : ramfs_lookup dvp name vp0 s = Some (0, vp) -> file_ok s vp x f -> f <> [] -> rn_buf x <> NULL -> bufs s !! NULL = None ->
  exists vp1 s', ramfs_truncate vp s = Some (0, vp1, s') /\ v_size vp1 = 0 /\ ramfs_lookup dvp name vp0 s' = Some (0, vp) /\
    (forall fp size, has (vf_flags fp) FREAD = true -> 0 <= vf_offset fp < Z.of_nat (length f) -> 0 < size -> sys_read vp fp size s' = None).
Proof.
  intros HL (Hx&Ht&Hv&Hn&Hb&HB) Hf Hbuf Hnull. unfold ramfs_truncate. rewrite Hx. cbn [mbind option_bind]. rewrite (proj2 (Z.eqb_neq _ _) Hbuf). cbn [negb].
  unfold upd_node. change (nodes (buf_free (rn_buf x) s)) with (nodes s). rewrite Hx. cbn [mbind option_bind].
  set (s' := set nodes _ _). eexists _, s'. split; [done|]. split; [done|].
  assert (forall a, nodes s' !! a = if decide (a = v_data vp) then Some (x <| rn_buf := NULL |> <| rn_bufsize := 0 |>) else nodes s !! a) as HN.
  { intros a. change (nodes s') with (<[v_data vp := x <| rn_buf := NULL |> <| rn_bufsize := 0 |>]> (nodes s)). case_decide; [subst; by rewrite lookup_insert_eq|by rewrite lookup_insert_ne]. }
  assert (size (nodes s') = size (nodes s)) as HS.
  { change (nodes s') with (<[v_data vp := x <| rn_buf := NULL |> <| rn_bufsize := 0 |>]> (nodes s)). rewrite map_size_insert, Hx. done. }
  split.
  - revert HL. unfold ramfs_lookup. case_bool_decide; [done|]. rewrite HS, HN.
    assert (forall n a, find_name n a name s' = find_name n a name s) as HE by (apply find_name_ext; intros a; rewrite HN; case_decide; [subst; by rewrite Hx|done]).
    destruct (nodes s !! v_data dvp) as [d|] eqn:Hd; [|done]. cbn [mbind option_bind].
    assert (exists d', (if decide (v_data dvp = v_data vp) then Some (x <| rn_buf := NULL |> <| rn_bufsize := 0 |>) else Some d) = Some d' /\ rn_child d' = rn_child d) as (d'&->&Ed)
      by (case_decide as E; [rewrite E, Hx in Hd; simplify_eq; by eexists|by eexists]).
    cbn [mbind option_bind]. rewrite Ed, HE. destruct (find_name _ _ _ _) as [np|]; [|done]. cbn [mbind option_bind]. destruct (np =? NULL); [done|]. rewrite HN.
    destruct (nodes s !! np) as [y|] eqn:Hy; [|done]. cbn [mbind option_bind]. intros [= <-]. case_decide as E; [|done]. cbn in Hx. rewrite Hy in Hx. simplify_eq. done.
  - intros fp sz Hr Ho Hsz. unfold sys_read, ramfs_read. rewrite Hr, (proj2 (Z.eqb_neq sz 0)), Ht by lia. cbn [Z.eqb Pos.eqb VREG VFIFO VDIR negb].
    unfold ramfs_read_file. rewrite Hv, s32_id by lia. rewrite (proj2 (Z.leb_gt _ _)) by lia. rewrite HN, decide_True by done. cbn [mbind option_bind rn_buf set].
    rewrite u32_small by lia. unfold buf_read. set (n := if _ <? sz then _ else sz). assert (n <> 0) as Hn0 by (unfold n; destruct (_ <? _); lia).
    rewrite (proj2 (Z.eqb_neq _ _) Hn0). change (bufs s' !! NULL) with (delete (rn_buf x) (bufs s) !! NULL). rewrite lookup_delete_ne, Hnull by done. done.
Qed.
