(* ===== verification/RamfsFifo.v ===== *)
(** * RamfsFifo: a FIFO is a queue of bytes

    The circular buffer of 1024 bytes and the two counters modulo 2^32 hold a
    sequence of bytes ([fifo_ok]); the loops of ramfs_read_fifo() and
    ramfs_write_fifo(), which copy up to the end of the buffer at a time, take
    from its front and add to its end. *)
From stdpp Require Import base numbers gmap list.
From S2P Require Import Prelude Core Kernel Page Device Tty Ramfs RamfsSpec.

Open Scope Z_scope.

Definition fpos (z : Z) : nat := Z.to_nat (z mod PIPE_BUF).

(** The FIFO of [vp] holds the bytes [q]. *)
Definition fifo_ok (s : rfs) (vp : vnode) (x : ramfs_node) (q : list Z) : Prop :=
  nodes s !! v_data vp = Some x /\ rn_bufsize x = u32 (rn_size x + Z.of_nat (length q)) /\ 0 <= rn_size x < 2 ^ 32 /\ Z.of_nat (length q) <= PIPE_BUF /\
  exists b, bufs s !! rn_buf x = Some b /\ Z.of_nat (length b) = PIPE_BUF /\ forall i : nat, (i < length q)%nat -> b !! fpos (rn_size x + Z.of_nat i) = q !! i.

Lemma land_pipe z : Z.land z (PIPE_BUF - 1) = z mod PIPE_BUF.
Proof. unfold PIPE_BUF. change (1024 - 1) with (Z.ones 10). by rewrite Z.land_ones. Qed.

Lemma u32_mod_pipe z : u32 z mod PIPE_BUF = z mod PIPE_BUF.
Proof. unfold u32, PIPE_BUF. change (2 ^ 32) with (1024 * 4194304). rewrite Z.mul_comm. symmetry. rewrite <- (Z.mod_mod_divide _ (4194304 * 1024) 1024); [done|by exists 4194304]. Qed.

Lemma u32_u32_add a b : u32 (u32 a + b) = u32 (a + b).
Proof. unfold u32. by rewrite Zplus_mod_idemp_l. Qed.

Lemma fifo_count s vp x q : fifo_ok s vp x q -> u32 (rn_bufsize x - rn_size x) = Z.of_nat (length q).
Proof.
  intros (_&Hw&Hr&Hl&_). rewrite Hw. unfold u32. rewrite Zminus_mod_idemp_l. replace (rn_size x + Z.of_nat (length q) - rn_size x) with (Z.of_nat (length q)) by lia.
  apply Z.mod_small. unfold PIPE_BUF in Hl. lia.
Qed.

(** ** One copy *)

(** Taking [len] bytes that do not wrap around. *)
Lemma fifo_take s vp x q len : fifo_ok s vp x q -> 0 <= len <= Z.of_nat (length q) -> rn_size x mod PIPE_BUF + len <= PIPE_BUF ->
  exists s', buf_read (rn_buf x) (rn_size x mod PIPE_BUF) len s = Some (take (Z.to_nat len) q) /\
    upd_node (v_data vp) (fun x => x <| rn_size ::= fun z => u32 (z + len) |>) s = Some s' /\
    fifo_ok s' vp (x <| rn_size := u32 (rn_size x + len) |>) (drop (Z.to_nat len) q).
Proof.
  intros (Hx&Hw&Hr&Hl&b&Hb&Hlen&HQ) Hn Hoff. assert (0 <= rn_size x mod PIPE_BUF < PIPE_BUF) as Hm by (apply Z.mod_pos_bound; unfold PIPE_BUF; lia).
  unfold upd_node. rewrite Hx. cbn [mbind option_bind]. eexists. split_and!; [|done|].
  - rewrite (buf_read_ok _ _ _ _ _ Hb) by lia. f_equal. apply list_eq. intros i. destruct (decide (i < Z.to_nat len)%nat) as [Hi|Hi].
    + rewrite !lookup_take_lt, lookup_drop by done. rewrite <- HQ by lia. f_equal. unfold fpos. rewrite <- Zplus_mod_idemp_l, (Z.mod_small (_ + _)) by lia. lia.
    + rewrite !lookup_ge_None_2; [done|rewrite length_take; lia|rewrite length_take; lia].
  - unfold fifo_ok. cbn. rewrite lookup_insert_eq, length_drop. split_and!; [done| |apply u32_range|apply u32_range|lia|].
    + rewrite u32_u32_add, Hw. f_equal. lia.
    + exists b. split_and!; [done|done|]. intros i Hi. rewrite lookup_drop, <- HQ by lia. f_equal. unfold fpos. f_equal.
      rewrite <- Zplus_mod_idemp_l, u32_mod_pipe, Zplus_mod_idemp_l. f_equal. lia.
Qed.

(** A position of the queue that is not below the end of it lies above the free
    space that follows. *)
Lemma ring_apart r i n k : 0 <= i < n -> n + k <= PIPE_BUF -> (r + n) mod PIPE_BUF <= (r + i) mod PIPE_BUF -> (r + n) mod PIPE_BUF + k <= (r + i) mod PIPE_BUF.
Proof. unfold PIPE_BUF. intros Hi Hk. Z.to_euclidean_division_equations. lia. Qed.

(** Adding bytes that do not wrap around. *)
Lemma fifo_put s vp x q l : fifo_ok s vp x q -> Z.of_nat (length q) + Z.of_nat (length l) <= PIPE_BUF -> rn_bufsize x mod PIPE_BUF + Z.of_nat (length l) <= PIPE_BUF ->
  exists s1 s', buf_write (rn_buf x) (rn_bufsize x mod PIPE_BUF) l s = Some s1 /\
    upd_node (v_data vp) (fun x => x <| rn_bufsize ::= fun z => u32 (z + Z.of_nat (length l)) |>) s1 = Some s' /\
    fifo_ok s' vp (x <| rn_bufsize := u32 (rn_bufsize x + Z.of_nat (length l)) |>) (q ++ l).
Proof.
  intros (Hx&Hw&Hr&Hl&b&Hb&Hlen&HQ) Hn Hoff. assert (0 <= rn_bufsize x mod PIPE_BUF < PIPE_BUF) as Hm by (apply Z.mod_pos_bound; unfold PIPE_BUF; lia).
  set (off := rn_bufsize x mod PIPE_BUF) in *. rewrite (buf_write_ok _ _ _ _ _ Hb) by lia.
  exists (s <| bufs ::= <[rn_buf x := overlay (Z.to_nat off) l b]> |>). eexists. split; [done|]. split; [unfold upd_node; cbn; by rewrite Hx|]. unfold fifo_ok. cbn. rewrite !lookup_insert_eq, length_app. split_and!; [done| |lia|lia|lia|].
  - rewrite Hw, u32_u32_add. f_equal. lia.
  - eexists. split; [done|]. split; [rewrite overlay_length; lia|]. intros i Hi. unfold overlay.
    assert (off = (rn_size x + Z.of_nat (length q)) mod PIPE_BUF) as Eoff by (unfold off; rewrite Hw; apply u32_mod_pipe).
    assert (fpos (rn_size x + Z.of_nat i) < Z.to_nat PIPE_BUF)%nat as Hfp by (unfold fpos; pose proof (Z.mod_pos_bound (rn_size x + Z.of_nat i) PIPE_BUF ltac:(unfold PIPE_BUF; lia)); lia).
    assert (length (take (Z.to_nat off) b) = Z.to_nat off) as Elt by (rewrite length_take; lia).
    destruct (decide (i < length q)%nat) as [Hq|Hq].
    + rewrite (lookup_app_l q) by done. rewrite <- HQ by done. set (p := fpos _) in *.
      destruct (decide (p < Z.to_nat off)%nat) as [Hp|Hp]; [rewrite lookup_app_l by lia; by rewrite lookup_take_lt|].
      assert (Z.to_nat off + length l <= p)%nat as Hpl.
      { pose proof (ring_apart (rn_size x) (Z.of_nat i) (Z.of_nat (length q)) (Z.of_nat (length l)) ltac:(lia) ltac:(lia)) as HR. rewrite <- Eoff in HR. unfold p, fpos in *.
        pose proof (Z.mod_pos_bound (rn_size x + Z.of_nat i) PIPE_BUF ltac:(unfold PIPE_BUF; lia)). specialize (HR ltac:(lia)). lia. }
      rewrite lookup_app_r, Elt by lia. rewrite lookup_app_r by lia. rewrite lookup_drop. f_equal. lia.
    + rewrite (lookup_app_r q) by lia. assert (fpos (rn_size x + Z.of_nat i) = Z.to_nat off + (i - length q))%nat as ->.
      { unfold fpos. replace (rn_size x + Z.of_nat i) with (rn_size x + Z.of_nat (length q) + Z.of_nat (i - length q)) by lia.
        rewrite <- Zplus_mod_idemp_l, <- Eoff. rewrite Z.mod_small by lia. lia. }
      rewrite lookup_app_r, Elt by lia. rewrite lookup_app_l by lia. f_equal. lia.
Qed.

(** ** The loops *)
Lemma fifo_ok_vp s vp vp' x q : v_data vp' = v_data vp -> fifo_ok s vp x q -> fifo_ok s vp' x q.
Proof. unfold fifo_ok. by intros ->. Qed.
Lemma notify_data vp (b : bool) : v_data (if b then notify vp else vp) = v_data vp.
Proof. destruct b; [|done]. unfold notify. by destruct (v_cond vp). Qed.

(** The vnode after a call: a waiting call has initialised the condition. *)
Definition waited (r : fifo_result) (vp : vnode) : vnode := match r with FifoWait _ _ => vp <| v_cond := true |> | FifoRet _ _ => vp end.
(** A reader that makes room in a full FIFO signals the writers, a writer that
    puts bytes into an empty one the readers. *)
Definition read_signal (size : Z) (q : list Z) (vp : vnode) : vnode := if bool_decide (size <> 0 /\ Z.of_nat (length q) = PIPE_BUF) then notify vp else vp.
Definition write_signal (l q : list Z) (vp : vnode) : vnode := if bool_decide (l <> [] /\ q = []) then notify vp else vp.

(** The ends of a FIFO that are open. *)
Definition fds (x : ramfs_node) := (rn_read_fds x, rn_write_fds x).

(** What a reader gets that has read [l] and wants [size] more bytes. *)
Definition read_outcome (fp : vfile) (writers : Z) (l : list Z) (size : Z) (q : list Z) : fifo_result :=
  if size <=? Z.of_nat (length q) then fifo_end 0 (l ++ take (Z.to_nat size) q)
  else if writers =? 0 then fifo_end 0 (l ++ q)
  else if has (vf_flags fp) O_NONBLOCK then fifo_end EAGAIN (l ++ q)
  else FifoWait (l ++ q) (size - Z.of_nat (length q)).

Lemma read_fifo_loop_ok n vp fp l size s x q : fifo_ok s vp x q -> 0 <= size < Z.of_nat n ->
  exists s' x', read_fifo_loop n vp fp l size s =
      Some (read_outcome fp (rn_write_fds x) l size q, waited (read_outcome fp (rn_write_fds x) l size q) (read_signal size q vp), s') /\
    fifo_ok s' vp x' (drop (Z.to_nat size) q) /\ fds x' = fds x.
Proof.
  revert vp l size s x q. induction n as [|n IH]; intros vp l size s x q HF Hn; [lia|]. pose proof HF as (Hx&_&_&Hq&_). cbn [read_fifo_loop].
  destruct (Z.eqb_spec size 0) as [->|Hs].
  { exists s, x. unfold read_outcome, read_signal. rewrite (proj2 (Z.leb_le 0 _)) by lia. cbn [Z.to_nat]. rewrite take_0, app_nil_r, drop_0, bool_decide_false by tauto. done. }
  rewrite Hx. cbn [mbind option_bind]. rewrite (fifo_count _ _ _ _ HF). destruct (Z.eqb_spec (Z.of_nat (length q)) 0) as [E|E].
  { destruct q; [|done]. unfold read_outcome, read_signal. rewrite bool_decide_false by (unfold PIPE_BUF; cbn; lia). change (Z.of_nat (length [])) with 0. rewrite (proj2 (Z.leb_gt size 0)), app_nil_r, drop_nil by lia.
    destruct (rn_write_fds x =? 0); [by exists s, x|]. destruct (has _ _); [by exists s, x|]. exists s, x. by rewrite Z.sub_0_r. }
  rewrite land_pipe. set (off := rn_size x mod PIPE_BUF). assert (0 <= off < PIPE_BUF) as Ho by (apply Z.mod_pos_bound; unfold PIPE_BUF; lia).
  set (vp1 := if _ =? PIPE_BUF then _ else vp). assert (v_data vp1 = v_data vp) as Hv1 by apply notify_data.
  set (len := if size <? _ then size else _). assert (len = Z.min size (Z.min (Z.of_nat (length q)) (PIPE_BUF - off))) as El.
  { unfold len. destruct (Z.ltb_spec (PIPE_BUF - off) (Z.of_nat (length q))); [destruct (Z.ltb_spec size (PIPE_BUF - off))|destruct (Z.ltb_spec size (Z.of_nat (length q)))]; lia. }
  destruct (fifo_take s vp x q len HF) as (s1&E0&E1&HF1); [lia|fold off; lia|]. fold off in E0. rewrite E0, Hv1. cbn [mbind option_bind]. rewrite E1. cbn [mbind option_bind].
  destruct (IH vp1 (l ++ take (Z.to_nat len) q) (size - len) s1 _ _ (fifo_ok_vp _ _ _ _ _ Hv1 HF1)) as (s2&x2&->&HF2&Hf2); [lia|].
  exists s2, x2. rewrite drop_drop in HF2. replace (Z.to_nat len + Z.to_nat (size - len))%nat with (Z.to_nat size) in HF2 by lia. split_and!; [|by eapply fifo_ok_vp|done].
  assert (read_signal (size - len) (drop (Z.to_nat len) q) vp1 = read_signal size q vp) as ->.
  { unfold read_signal. rewrite bool_decide_false by (rewrite length_drop; lia). unfold vp1. destruct (Z.eqb_spec (Z.of_nat (length q)) PIPE_BUF); [by rewrite bool_decide_true|]. by rewrite bool_decide_false by tauto. }
  match goal with |- Some (?a, waited ?a ?v, ?s) = Some (?b, _, _) => assert (a = b) as ->; [|done] end. unfold read_outcome. cbn [rn_write_fds set]. rewrite length_drop, <- !app_assoc.
  destruct (Z.leb_spec size (Z.of_nat (length q))), (Z.leb_spec (size - len) (Z.of_nat (length q - Z.to_nat len))); try lia.
  - f_equal. f_equal. rewrite <- (take_drop (Z.to_nat len) (take (Z.to_nat size) q)). rewrite take_take, skipn_firstn_comm. f_equal; [f_equal; lia|f_equal; lia].
  - rewrite take_drop. destruct (rn_write_fds x =? 0); [done|]. destruct (has _ _); [done|]. f_equal. lia.
Qed.

(** What a writer of [l] comes to that has written [done] bytes. *)
Definition room_of (q : list Z) : nat := Z.to_nat PIPE_BUF - length q.
Definition write_outcome (fp : vfile) (l : list Z) (done : Z) (q : list Z) : fifo_result :=
  if decide (length l <= room_of q)%nat then fifo_wend 0 (done + Z.of_nat (length l)) []
  else if has (vf_flags fp) O_NONBLOCK then fifo_wend EAGAIN (done + Z.of_nat (room_of q)) (drop (room_of q) l)
  else FifoWait (drop (room_of q) l) (done + Z.of_nat (room_of q)).

Lemma write_fifo_loop_ok n vp fp l done s x q : fifo_ok s vp x q -> rn_read_fds x <> 0 -> (length l < n)%nat ->
  exists s' x', write_fifo_loop n vp fp l done s = Some (write_outcome fp l done q, waited (write_outcome fp l done q) (write_signal l q vp), s') /\
    fifo_ok s' vp x' (q ++ take (room_of q) l) /\ fds x' = fds x.
Proof.
  revert vp l done s x q. induction n as [|n IH]; intros vp l done s x q HF Hr Hn; [lia|]. pose proof HF as (Hx&_&_&Hq&_). cbn [write_fifo_loop].
  destruct (Z.eqb_spec (Z.of_nat (length l)) 0) as [E|Hs].
  { destruct l; [|done]. exists s, x. unfold write_outcome, write_signal. rewrite decide_True by (cbn; lia). rewrite take_nil, app_nil_r, bool_decide_false by tauto. by rewrite Z.add_0_r. }
  rewrite Hx. cbn [mbind option_bind]. rewrite (proj2 (Z.eqb_neq _ _) Hr). rewrite (fifo_count _ _ _ _ HF).
  rewrite (u32_small (PIPE_BUF - _)) by (unfold PIPE_BUF in *; lia). destruct (Z.eqb_spec (PIPE_BUF - Z.of_nat (length q)) 0) as [E|E].
  { assert (room_of q = 0)%nat as ER by (unfold room_of; lia). unfold write_outcome, write_signal. rewrite (bool_decide_false (l <> [] /\ _)) by (intros [_ ->]; done). rewrite ER, decide_False by lia. cbn [Z.of_nat]. rewrite drop_0, take_0, app_nil_r, Z.add_0_r.
    destruct (has _ _); by exists s, x. }
  rewrite land_pipe. set (off := rn_bufsize x mod PIPE_BUF). assert (0 <= off < PIPE_BUF) as Ho by (apply Z.mod_pos_bound; unfold PIPE_BUF; lia).
  set (vp1 := if _ =? PIPE_BUF then _ else vp). assert (v_data vp1 = v_data vp) as Hv1 by apply notify_data.
  set (len := if Z.of_nat (length l) <? _ then _ else _). assert (len = Z.min (Z.of_nat (length l)) (Z.min (PIPE_BUF - Z.of_nat (length q)) (PIPE_BUF - off))) as El.
  { unfold len. destruct (Z.ltb_spec (PIPE_BUF - off) (PIPE_BUF - Z.of_nat (length q))); [destruct (Z.ltb_spec (Z.of_nat (length l)) (PIPE_BUF - off))|destruct (Z.ltb_spec (Z.of_nat (length l)) (PIPE_BUF - Z.of_nat (length q)))]; lia. }
  assert (length (take (Z.to_nat len) l) = Z.to_nat len) as Elt by (rewrite length_take; lia).
  destruct (fifo_put s vp x q (take (Z.to_nat len) l) HF) as (s1&s2&E1&E2&HF2); [rewrite Elt; lia|rewrite Elt; fold off; lia|]. fold off in E1. rewrite E1. cbn [mbind option_bind].
  rewrite Elt, Z2Nat.id in E2 by lia. rewrite Hv1, E2. cbn [mbind option_bind].
  destruct (IH vp1 (drop (Z.to_nat len) l) (done + len) s2 _ _ (fifo_ok_vp _ _ _ _ _ Hv1 HF2)) as (s3&x3&->&HF3&Hf3); [done|rewrite length_drop; lia|].
  assert (room_of (q ++ take (Z.to_nat len) l) = room_of q - Z.to_nat len)%nat as ER by (unfold room_of; rewrite length_app, Elt; lia). rewrite ER in HF3.
  assert (write_signal (drop (Z.to_nat len) l) (q ++ take (Z.to_nat len) l) vp1 = write_signal l q vp) as ->.
  { unfold write_signal. rewrite bool_decide_false by (intros [_ Ea]; apply (f_equal length) in Ea; rewrite length_app, Elt in Ea; cbn in Ea; lia). unfold vp1.
    destruct (Z.eqb_spec (PIPE_BUF - Z.of_nat (length q)) PIPE_BUF) as [Eq|Eq]; [destruct q; [|cbn in Eq; lia]; rewrite bool_decide_true; [done|]; split; [by intros ->|done]|].
    rewrite bool_decide_false; [done|]. intros [_ ->]. by apply Eq. }
  exists s3, x3. split_and!; [| |done].
  - match goal with |- Some (?a, waited ?a ?v, ?s) = Some (?b, _, _) => assert (a = b) as ->; [|done] end. unfold write_outcome. rewrite ER, length_drop, drop_drop. unfold room_of in *. destruct (decide _), (decide _); try lia.
    + f_equal. lia.
    + replace (Z.to_nat len + _)%nat with (Z.to_nat PIPE_BUF - length q)%nat by lia. replace (done + len + _) with (done + Z.of_nat (Z.to_nat PIPE_BUF - length q)) by lia. done.
  - replace (q ++ take (room_of q) l) with ((q ++ take (Z.to_nat len) l) ++ take (room_of q - Z.to_nat len) (drop (Z.to_nat len) l)); [by eapply fifo_ok_vp|].
    rewrite <- app_assoc. f_equal. rewrite <- (take_drop (Z.to_nat len) (take (room_of q) l)). rewrite take_take, skipn_firstn_comm. f_equal. f_equal. unfold room_of. lia.
Qed.

(** C16: A FIFO is a bounded queue of bytes.  A write without a reader fails with
    EPIPE and changes nothing.  With a reader it adds the bytes that fit into
    1024 at the end, in order, and returns if all did, else reports the partial
    count (EAGAIN if it is 0) or waits with the rest; it signals the condition
    exactly if the FIFO was empty.  A read takes the oldest bytes and returns if
    there are enough, at the end of file if no writer is left, else reports
    what there is (EAGAIN if nothing) or waits for more; it signals exactly if
    the FIFO was full.  The ends that are open stay open, and the counters may
    wrap around. *)
Theorem fifo_is_queue s vp x q fp l size : fifo_ok s vp x q ->
  (rn_read_fds x = 0 -> l <> [] -> ramfs_write_fifo vp fp l s = Some (FifoRet EPIPE l, vp, s)) /\
  (rn_read_fds x <> 0 -> exists s' x', ramfs_write_fifo vp fp l s = Some (write_outcome fp l 0 q, waited (write_outcome fp l 0 q) (write_signal l q vp), s') /\
     fifo_ok s' vp x' (q ++ take (room_of q) l) /\ fds x' = fds x) /\
  (0 <= size -> exists s' x', ramfs_read_fifo vp fp size s =
       Some (read_outcome fp (rn_write_fds x) [] size q, waited (read_outcome fp (rn_write_fds x) [] size q) (read_signal size q vp), s') /\
     fifo_ok s' vp x' (drop (Z.to_nat size) q) /\ fds x' = fds x).
Proof.
  intros HF. split_and!.
  - intros Hr Hl. pose proof HF as (Hx&_). unfold ramfs_write_fifo. cbn [write_fifo_loop]. destruct l; [done|]. cbn [length]. rewrite (proj2 (Z.eqb_neq _ 0)) by lia.
    rewrite Hx. cbn [mbind option_bind]. by rewrite Hr.
  - intros Hr. apply write_fifo_loop_ok; [done..|lia].
  - intros Hs. apply read_fifo_loop_ok; [done|lia].
Qed.
