(* ===== verification/RamfsTree.v ===== *)
(** * RamfsTree: directories of the file system in memory

    The lists of children as sequences of nodes, the invariant of the tree of
    nodes, and what adding, removing, renaming and looking up names do. *)
From stdpp Require Import base numbers gmap list.
From S2P Require Import Prelude Core Kernel Page Device Tty Ramfs RamfsSpec.

Open Scope Z_scope.

(** The list that begins at [a] and follows [rn_next]. *)
Fixpoint chain (m : gmap Z ramfs_node) (a : Z) (l : list Z) : Prop :=
  match l with
  | [] => a = NULL
  | b :: l => a = b /\ a <> NULL /\ exists x, m !! a = Some x /\ chain m (rn_next x) l
  end.

Lemma chain_ext m m' a l : (forall b, b ∈ l -> rn_next <$> m' !! b = rn_next <$> m !! b) -> chain m a l -> chain m' a l.
Proof.
  revert a. induction l as [|b l IH]; intros a HE; [done|]. intros (->&Hn&x&Hx&Hl). split; [done|]. split; [done|].
  pose proof (HE b ltac:(set_solver)) as Hb. rewrite Hx in Hb. destruct (m' !! b) as [x'|] eqn:Hx'; [|done]. cbn in Hb. simplify_eq.
  exists x'. split; [done|]. replace (rn_next x') with (rn_next x) by congruence. apply IH; [|done]. intros c Hc. apply HE. set_solver.
Qed.

Lemma chain_mapped m a l : chain m a l -> forall b, b ∈ l -> b <> NULL /\ is_Some (m !! b).
Proof.
  revert a. induction l as [|b l IH]; intros a Hc c Hin; [set_solver|]. destruct Hc as (->&Hn&x&Hx&Hl). apply elem_of_cons in Hin as [->|Hin]; [|by eapply IH].
  split; [done|by eexists].
Qed.

Lemma chain_length m a l : NoDup l -> chain m a l -> (length l <= size m)%nat.
Proof. intros Hnd Hc. apply mapped_size; [done|]. intros b Hb. by eapply chain_mapped. Qed.

(** ** The tree *)
Record tree_ok (s : rfs) (kids : gmap Z (list Z)) : Prop := {
  tree_node : forall a x, nodes s !! a = Some x -> a <> NULL /\ rn_namelen x = Z.of_nat (length (rn_name x)) /\ rn_namelen x < rn_cap x /\
    exists l, kids !! a = Some l /\ chain (nodes s) (rn_child x) l;
  tree_dir : forall a l, kids !! a = Some l -> is_Some (nodes s !! a) /\ NoDup l /\ a ∉ l;
  tree_apart : forall a b la lb c, kids !! a = Some la -> kids !! b = Some lb -> c ∈ la -> c ∈ lb -> a = b;
}.

Definition node_name (s : rfs) (a : Z) : list Z := match nodes s !! a with Some x => rn_name x | None => [] end.

(** ** Looking up a name *)
Lemma name_matches_iff name x : rn_namelen x = Z.of_nat (length (rn_name x)) -> name_matches name x = bool_decide (rn_name x = name).
Proof.
  intros Hl. unfold name_matches. rewrite Hl. case_bool_decide as H1; case_bool_decide as H2.
  - subst. by rewrite Z.eqb_refl.
  - rewrite andb_true_r. apply Z.eqb_neq. intros E. apply H2. rewrite H1. rewrite take_ge; [done|lia].
  - subst. rewrite take_ge in H1 by lia. done.
  - apply andb_false_r.
Qed.

Fixpoint first_named (s : rfs) (l : list Z) (name : list Z) : Z :=
  match l with [] => NULL | a :: l => if bool_decide (node_name s a = name) then a else first_named s l name end.

Lemma find_name_ok s kids l : tree_ok s kids -> forall n a name, chain (nodes s) a l -> (length l <= n)%nat -> find_name n a name s = Some (first_named s l name).
Proof.
  intros HT. induction l as [|b l IH]; intros n a name Hc Hn; cbn [chain first_named] in *.
  - subst. by destruct n.
  - destruct Hc as (->&Hnz&x&Hx&Hl). destruct n as [|n]; [cbn in Hn; lia|]. cbn [find_name]. rewrite (proj2 (Z.eqb_neq _ _) Hnz), Hx. cbn [mbind option_bind].
    unfold node_name. rewrite Hx. destruct (tree_node _ _ HT b x Hx) as (_&HL&_). rewrite name_matches_iff by done. case_bool_decide; [done|]. apply IH; [done|cbn in Hn; lia].
Qed.

Lemma lookup_ok s kids d l name vp dvp : tree_ok s kids -> kids !! d = Some l -> v_data dvp = d -> name <> [] ->
  exists vp', ramfs_lookup dvp name vp s = Some (if first_named s l name =? NULL then ENOENT else 0, vp') /\
    (first_named s l name = NULL -> vp' = vp) /\ (first_named s l name <> NULL -> v_data vp' = first_named s l name /\
       exists x, nodes s !! first_named s l name = Some x /\ v_type vp' = rn_type x /\ v_size vp' = if rn_type x =? VFIFO then 0 else rn_size x).
Proof.
  intros HT Hk <- Hne. unfold ramfs_lookup. rewrite bool_decide_false by done. destruct (tree_dir _ _ HT _ _ Hk) as ([x Hx]&Hnd&_). rewrite Hx. cbn [mbind option_bind].
  destruct (tree_node _ _ HT _ _ Hx) as (_&_&_&l'&Hk'&Hc). assert (l' = l) as -> by congruence.
  rewrite (find_name_ok s kids l HT) by (done || by eapply chain_length). cbn [mbind option_bind]. destruct (Z.eqb_spec (first_named s l name) NULL) as [E|E]; [by exists vp|].
  assert (first_named s l name ∈ l) as Hin.
  { clear -E. induction l as [|b l IH]; cbn [first_named] in *; [done|]. case_bool_decide; [set_solver|]. apply elem_of_cons. right. by apply IH. }
  destruct (chain_mapped _ _ _ Hc _ Hin) as [_ [y Hy]]. rewrite Hy. cbn [mbind option_bind]. eexists. split; [done|]. split; [done|]. intros _. split; [done|]. by exists y.
Qed.

(** ** Adding a node *)
Lemma last_node_ok s a l : chain (nodes s) a l -> forall n b, last l = Some b -> (length l <= n)%nat -> last_node n a s = Some b.
Proof.
  revert a. induction l as [|c l IH]; intros a Hc n b Hb Hn; [done|]. destruct Hc as (->&Hnz&x&Hx&Hl). destruct n as [|n]; [cbn in Hn; lia|]. cbn [last_node]. rewrite Hx.
  cbn [mbind option_bind]. destruct l as [|d l].
  - cbn in Hl. rewrite Hl, Z.eqb_refl. by cbn in Hb.
  - pose proof Hl as (Hd&Hdn&_). rewrite (proj2 (Z.eqb_neq (rn_next x) NULL)) by congruence. apply IH; [done|by rewrite last_cons_cons in Hb|cbn in Hn |- *; lia].
Qed.

Lemma chain_snoc m m' h l b a x : chain m h (l ++ [b]) -> NoDup (l ++ [b]) -> a <> NULL -> m' !! a = Some x -> rn_next x = NULL ->
  (forall c, c ∈ l -> rn_next <$> m' !! c = rn_next <$> m !! c) -> rn_next <$> m' !! b = Some a -> chain m' h (l ++ [b; a]).
Proof.
  revert h. induction l as [|c l IH]; intros h Hc Hnd Ha Hx Hxn HE Hb; cbn [app chain] in *.
  - destruct Hc as (->&Hbn&y&Hy&_). split; [done|]. split; [done|]. destruct (m' !! b) as [y'|]; [|done]. exists y'. cbn in Hb. simplify_eq. split; [done|].
    split; [done|]. split; [done|]. by exists x.
  - destruct Hc as (->&Hcn&y&Hy&Hl). split; [done|]. split; [done|]. apply NoDup_cons in Hnd as [_ Hnd]. pose proof (HE c ltac:(set_solver)) as Hc'. rewrite Hy in Hc'.
    destruct (m' !! c) as [y'|]; [|done]. cbn in Hc'. simplify_eq. exists y'. split; [done|]. replace (rn_next y') with (rn_next y) by congruence. apply IH; try done. intros e He. apply HE. set_solver.
Qed.

(** What stays of a node when links change. *)
Definition body (x : ramfs_node) := (rn_type x, rn_name x, rn_cap x, rn_namelen x, rn_size x, rn_buf x, rn_bufsize x, rn_read_fds x, rn_write_fds x).

Definition new_node (type : Z) (name : list Z) : ramfs_node := mk_rnode NULL NULL type name (Z.of_nat (length name) + 1) (Z.of_nat (length name)) 0 NULL 0 0 0.

(** A node that is not there is in no list. *)
Lemma tree_fresh s kids a : tree_ok s kids -> nodes s !! a = None -> kids !! a = None /\ forall e le, kids !! e = Some le -> a ∉ le.
Proof.
  intros HT Ha. split.
  - destruct (kids !! a) as [la|] eqn:E; [|done]. destruct (tree_dir _ _ HT _ _ E) as ([? ?]&_). congruence.
  - intros e le He Hin. destruct (tree_dir _ _ HT _ _ He) as ([y Hy]&_). destruct (tree_node _ _ HT _ _ Hy) as (_&_&_&l2&Hk2&Hc2). assert (l2 = le) as -> by congruence.
    destruct (chain_mapped _ _ _ Hc2 _ Hin) as [_ [z Hz]]. congruence.
Qed.

Lemma chain_children s kids d x l : tree_ok s kids -> kids !! d = Some l -> nodes s !! d = Some x -> chain (nodes s) (rn_child x) l.
Proof. intros HT Hk Hx. destruct (tree_node _ _ HT _ _ Hx) as (_&_&_&l'&Hk'&Hc). by simplify_eq. Qed.

(** Linking the new node [a] behind [p], the directory or its last child. *)
Lemma tree_add s kids d l a new p y0 y : tree_ok s kids -> kids !! d = Some l -> nodes s !! a = None -> a <> NULL ->
  rn_next new = NULL -> rn_child new = NULL -> rn_namelen new = Z.of_nat (length (rn_name new)) -> rn_namelen new < rn_cap new ->
  nodes s !! p = Some y0 -> (p = d /\ l = [] /\ y = y0 <| rn_child := a |> \/ exists l0, l = l0 ++ [p] /\ y = y0 <| rn_next := a |>) ->
  tree_ok (s <| nodes := <[p := y]> (<[a := new]> (nodes s)) |>) (<[d := l ++ [a]]> (<[a := []]> kids)).
Proof.
  intros HT Hk Ha Han Hn1 Hn2 Hn3 Hn4 Hp HC. destruct (tree_fresh _ _ _ HT Ha) as [Hka Hfr]. destruct (tree_dir _ _ HT _ _ Hk) as ([x Hx]&Hnd&Hdl).
  assert (d <> a) as Hda by congruence. assert (p <> a) as Hpa by congruence. set (m' := <[p := y]> (<[a := new]> (nodes s))).
  assert (m' !! a = Some new) as Hma by (unfold m'; by rewrite lookup_insert_ne, lookup_insert_eq).
  assert (forall e le, e <> d -> kids !! e = Some le -> forall z, nodes s !! e = Some z -> chain m' (rn_child z) le) as Hother.
  { intros e le Hed He z Hz. eapply chain_ext; [|by eapply chain_children]. intros c Hc. unfold m'. destruct (decide (c = p)) as [->|].
    - destruct HC as [(->&->&->)|(l0&->&->)]; [rewrite lookup_insert_eq, Hx; cbn; congruence|]. exfalso. apply Hed. eapply (tree_apart _ _ HT e d _ _ p He Hk); [done|set_solver].
    - rewrite lookup_insert_ne by done. destruct (decide (c = a)) as [->|]; [by destruct (Hfr _ _ He)|by rewrite lookup_insert_ne]. }
  assert (exists x', m' !! d = Some x' /\ body x' = body x /\ chain m' (rn_child x') (l ++ [a])) as (x'&Hx'&Hbx&Hcx).
  { pose proof (chain_children _ _ _ _ _ HT Hk Hx) as Hc. destruct HC as [(->&->&->)|(l0&->&->)].
    - exists (y0 <| rn_child := a |>). unfold m'. rewrite lookup_insert_eq. simplify_eq. split_and!; [done|done|]. cbn. split; [done|]. split; [done|]. exists new. by rewrite lookup_insert_ne, lookup_insert_eq.
    - exists x. assert (d <> p) as Hdp by set_solver. split_and!; [unfold m'; by rewrite !lookup_insert_ne|done|]. rewrite <- app_assoc. eapply chain_snoc; try done.
      + intros c Hcl. unfold m'. apply NoDup_app in Hnd as (_&Hnd&_). rewrite !lookup_insert_ne; [done| |].
        * intros ->. by apply (Hfr _ _ Hk), elem_of_app; left.
        * intros ->. apply (Hnd _ Hcl). set_solver.
      + unfold m'. by rewrite lookup_insert_eq. }
  constructor; cbn [nodes set]; fold m'.
  - intros b z Hz. destruct (decide (b = a)) as [->|Hba].
    { rewrite Hma in Hz. simplify_eq. split_and!; try done. exists []. rewrite lookup_insert_ne, lookup_insert_eq by done. done. }
    destruct (decide (b = d)) as [->|Hbd].
    { rewrite Hx' in Hz. simplify_eq. destruct (tree_node _ _ HT _ _ Hx) as (?&HL&HC'&_). unfold body in Hbx. simplify_eq. split_and!; [done|congruence|congruence|]. exists (l ++ [a]). by rewrite lookup_insert_eq. }
    assert (exists z0, nodes s !! b = Some z0 /\ body z = body z0 /\ rn_child z = rn_child z0) as (z0&Hz0&Hbz&Hcz).
    { unfold m' in Hz. destruct (decide (b = p)) as [->|]; [|rewrite !lookup_insert_ne in Hz by done; by exists z]. rewrite lookup_insert_eq in Hz. simplify_eq. exists y0.
      destruct HC as [(->&_)|(l0&_&->)]; [done|done]. }
    destruct (tree_node _ _ HT _ _ Hz0) as (?&HL&HC'&lb&Hkb&_). unfold body in Hbz. simplify_eq. split_and!; [done|congruence|congruence|]. exists lb. rewrite !lookup_insert_ne by done. split; [done|].
    rewrite Hcz. by apply (Hother b).
  - intros b lb Hb. destruct (decide (b = d)) as [->|Hbd].
    + rewrite lookup_insert_eq in Hb. simplify_eq. split_and!; [by eexists| |set_solver]. apply NoDup_app. split_and!; [done|set_solver|apply NoDup_singleton].
    + rewrite lookup_insert_ne in Hb by done. destruct (decide (b = a)) as [->|Hba]; [rewrite lookup_insert_eq in Hb; simplify_eq; split_and!; [by eexists|constructor|set_solver]|].
      rewrite lookup_insert_ne in Hb by done. destruct (tree_dir _ _ HT _ _ Hb) as ([z Hz]&?&?). split_and!; try done. unfold m'. destruct (decide (b = p)) as [->|]; [rewrite lookup_insert_eq; by eexists|].
      rewrite !lookup_insert_ne by done. by eexists.
  - assert (forall b lb c, <[d := l ++ [a]]> (<[a := []]> kids) !! b = Some lb -> c ∈ lb -> (c = a /\ b = d) \/ exists lb', kids !! b = Some lb' /\ c ∈ lb') as Hin.
    { intros b lb c Hb Hc. destruct (decide (b = d)) as [->|Hbd]; [rewrite lookup_insert_eq in Hb; simplify_eq; apply elem_of_app in Hc as [Hc|Hc]; [right; by exists l|left; split; [set_solver|done]]|].
      rewrite lookup_insert_ne in Hb by done. destruct (decide (b = a)) as [->|]; [rewrite lookup_insert_eq in Hb; simplify_eq; set_solver|]. rewrite lookup_insert_ne in Hb by done. right. by exists lb. }
    intros b1 b2 l1 l2 c H1 H2 Hc1 Hc2. destruct (Hin _ _ _ H1 Hc1) as [[-> ->]|(l1'&K1&C1)], (Hin _ _ _ H2 Hc2) as [[? ->]|(l2'&K2&C2)]; try done.
    + by destruct (Hfr _ _ K2).
    + subst. by destruct (Hfr _ _ K1).
    + by eapply (tree_apart _ _ HT).
Qed.

Lemma add_node_ok s kids d l name type a : tree_ok s kids -> kids !! d = Some l -> nodes s !! a = None -> a <> NULL ->
  exists s', ramfs_add_node d name type (Some a) true s = Some (a, s') /\ tree_ok s' (<[d := l ++ [a]]> (<[a := []]> kids)) /\ bufs s' = bufs s /\
    nodes s' !! a = Some (new_node type name) /\ (forall b, b <> a -> body <$> nodes s' !! b = body <$> nodes s !! b).
Proof.
  intros HT Hk Ha Han. destruct (tree_dir _ _ HT _ _ Hk) as ([x Hx]&Hnd&Hdl). pose proof (chain_children _ _ _ _ _ HT Hk Hx) as Hc. assert (d <> a) as Hda by congruence.
  unfold ramfs_add_node, ramfs_allocate_node. fold (new_node type name). set (s1 := s <| nodes ::= <[a := new_node type name]> |>). rewrite (proj2 (Z.eqb_neq _ _) Han).
  change (nodes s1) with (<[a := new_node type name]> (nodes s)). rewrite lookup_insert_ne, Hx by done. cbn [mbind option_bind].
  assert (forall p y0 y, nodes s !! p = Some y0 -> body y = body y0 -> (p = d /\ l = [] /\ y = y0 <| rn_child := a |> \/ exists l0, l = l0 ++ [p] /\ y = y0 <| rn_next := a |>) ->
    let s' := s <| nodes := <[p := y]> (<[a := new_node type name]> (nodes s)) |> in
    tree_ok s' (<[d := l ++ [a]]> (<[a := []]> kids)) /\ bufs s' = bufs s /\ nodes s' !! a = Some (new_node type name) /\ (forall b, b <> a -> body <$> nodes s' !! b = body <$> nodes s !! b)) as Hadd.
  { intros p y0 y Hp Hb HC. assert (p <> a) by congruence. cbn. split_and!; [|done|by rewrite lookup_insert_ne, lookup_insert_eq|].
    - apply (tree_add s kids d l a (new_node type name) p y0 y); try done. cbn. lia.
    - intros b Hba. destruct (decide (b = p)) as [->|]; [rewrite lookup_insert_eq, Hp; cbn; by rewrite Hb|by rewrite !lookup_insert_ne]. }
  destruct l as [|b0 l0 _] using rev_ind.
  - cbn in Hc. rewrite Hc, Z.eqb_refl. unfold upd_node. change (nodes s1) with (<[a := new_node type name]> (nodes s)). rewrite lookup_insert_ne, Hx by done. cbn [mbind option_bind].
    eexists. split; [done|]. apply (Hadd d x); [done|done|]. left. done.
  - assert (rn_child x <> NULL) as Hcn by (destruct l0; cbn [app chain] in Hc; destruct Hc as (?&?&_); congruence). rewrite (proj2 (Z.eqb_neq _ _) Hcn).
    destruct (tree_fresh _ _ _ HT Ha) as [_ Hfr]. assert (chain (nodes s1) (rn_child x) (l0 ++ [b0])) as Hc1.
    { eapply chain_ext; [|exact Hc]. intros c Hin. change (nodes s1) with (<[a := new_node type name]> (nodes s)). rewrite lookup_insert_ne; [done|]. intros ->. by apply (Hfr _ _ Hk). }
    rewrite (last_node_ok s1 _ _ Hc1 _ b0); [|by rewrite last_snoc|by apply (chain_length _ (rn_child x))]. cbn [mbind option_bind].
    destruct (chain_mapped _ _ _ Hc b0 ltac:(set_solver)) as [_ [y0 Hy0]]. assert (b0 <> a) by congruence. unfold upd_node. change (nodes s1) with (<[a := new_node type name]> (nodes s)).
    rewrite lookup_insert_ne, Hy0 by done. cbn [mbind option_bind]. eexists. split; [done|]. apply (Hadd b0 y0); [done|done|]. right. by exists l0.
Qed.

(** ** Removing a node *)
Lemma prev_node_ok s a l0 p x l2 n : chain (nodes s) a (l0 ++ p :: x :: l2) -> NoDup (l0 ++ p :: x :: l2) -> (length l0 < n)%nat -> prev_node n a x s = Some p.
Proof.
  revert a n. induction l0 as [|c l0 IH]; intros a n Hc Hnd Hn; (destruct n as [|n]; [lia|]); cbn [app chain] in Hc; cbn [prev_node].
  - destruct Hc as (->&_&y&Hy&Hx&_). rewrite Hy. cbn [mbind option_bind]. by rewrite Hx, Z.eqb_refl.
  - destruct Hc as (->&_&y&Hy&Hl). rewrite Hy. cbn [mbind option_bind]. cbn [app] in Hnd. apply NoDup_cons in Hnd as [_ Hnd].
    assert (exists e l', l0 ++ p :: x :: l2 = e :: l' /\ e <> x) as (e&l'&El&Hex).
    { destruct l0 as [|e l0]; cbn [app] in *; [exists p|exists e]; eexists; (split; [done|]); apply NoDup_cons in Hnd as [Hni _]; intros ->; apply Hni; set_solver. }
    pose proof Hl as Hl'. rewrite El in Hl'. destruct Hl' as (Ee&Hen&_). rewrite (proj2 (Z.eqb_neq (rn_next y) x)), (proj2 (Z.eqb_neq (rn_next y) NULL)) by congruence.
    apply IH; [done|done|cbn in Hn; lia].
Qed.

Lemma prev_node_none s a l x n : chain (nodes s) a l -> l <> [] -> x <> NULL -> x ∉ tail l -> (length l <= n)%nat -> prev_node n a x s = Some NULL.
Proof.
  revert a n. induction l as [|c l IH]; intros a n Hc Hne Hx Hni Hn; [done|]. destruct n as [|n]; [cbn in Hn; lia|]. destruct Hc as (->&_&y&Hy&Hl). cbn [prev_node]. rewrite Hy. cbn [mbind option_bind].
  destruct l as [|e l]; cbn [chain] in Hl.
  - rewrite Hl. rewrite (proj2 (Z.eqb_neq NULL x)) by congruence. done.
  - pose proof Hl as (Ee&Hen&_). cbn [tail] in Hni. rewrite (proj2 (Z.eqb_neq (rn_next y) x)) by set_solver. rewrite (proj2 (Z.eqb_neq (rn_next y) NULL)) by congruence.
    apply IH; try done; [set_solver|cbn in Hn |- *; lia].
Qed.

Lemma chain_drop m m' h l0 p x xx l2 : chain m h (l0 ++ p :: x :: l2) -> m !! x = Some xx -> (forall c, c ∈ l0 ++ l2 -> rn_next <$> m' !! c = rn_next <$> m !! c) ->
  rn_next <$> m' !! p = Some (rn_next xx) -> chain m' h (l0 ++ p :: l2).
Proof.
  revert h. induction l0 as [|c l0 IH]; intros h Hc Hx HE Hp; cbn [app chain] in *.
  - destruct Hc as (->&Hpn&y&Hy&->&Hxn&xx'&Hxx&Hl). split; [done|]. split; [done|]. destruct (m' !! p) as [y'|]; [|done]. cbn in Hp. exists y'. split; [done|]. assert (xx' = xx) as -> by congruence.
    replace (rn_next y') with (rn_next xx) by congruence. eapply chain_ext; [|exact Hl]. intros c Hc. apply HE. set_solver.
  - destruct Hc as (->&Hcn&y&Hy&Hl). split; [done|]. split; [done|]. pose proof (HE c ltac:(set_solver)) as Hc'. rewrite Hy in Hc'. destruct (m' !! c) as [y'|]; [|done]. cbn in Hc'. exists y'.
    split; [done|]. replace (rn_next y') with (rn_next y) by congruence. apply IH; try done. intros e He. apply HE. set_solver.
Qed.

(** Unlinking the node [x] behind [p], the directory or the child before it. *)
Lemma tree_del s kids d l1 l2 x xx p y0 y : tree_ok s kids -> kids !! d = Some (l1 ++ x :: l2) -> nodes s !! x = Some xx -> nodes s !! p = Some y0 ->
  (p = d /\ l1 = [] /\ y = y0 <| rn_child := rn_next xx |> \/ exists l0, l1 = l0 ++ [p] /\ y = y0 <| rn_next := rn_next xx |>) ->
  tree_ok (s <| nodes := delete x (<[p := y]> (nodes s)) |>) (delete x (<[d := l1 ++ l2]> kids)).
Proof.
  intros HT Hk Hx Hp HC. destruct (tree_dir _ _ HT _ _ Hk) as ([dd Hd]&Hnd&Hdl). assert (d <> x) as Hdx by set_solver. set (m' := delete x (<[p := y]> (nodes s))).
  assert (x ∉ l1 ++ l2) as Hxl by (apply NoDup_app in Hnd as (_&H1&H2); apply NoDup_cons in H2 as [H2 _]; intros [Hi|Hi]%elem_of_app; [apply (H1 _ Hi); set_solver|done]).
  assert (p <> x) as Hpx.
  { destruct HC as [(->&_)|(l0&->&_)]; [done|]. set_solver. }
  assert (forall e le, e <> d -> kids !! e = Some le -> forall z, nodes s !! e = Some z -> chain m' (rn_child z) le) as Hother.
  { intros e le Hed He z Hz. eapply chain_ext; [|by eapply chain_children]. intros c Hc. unfold m'.
    assert (c ∉ l1 ++ x :: l2) as Hcn by (intros Hin; apply Hed; by eapply (tree_apart _ _ HT e d _ _ c)).
    rewrite lookup_delete_ne by set_solver. destruct (decide (c = p)) as [->|]; [|by rewrite lookup_insert_ne].
    destruct HC as [(->&->&->)|(l0&->&->)]; [rewrite lookup_insert_eq, Hp; done|]. set_solver. }
  assert (exists x', m' !! d = Some x' /\ body x' = body dd /\ chain m' (rn_child x') (l1 ++ l2)) as (x'&Hx'&Hbx&Hcx).
  { pose proof (chain_children _ _ _ _ _ HT Hk Hd) as Hc. destruct HC as [(->&->&->)|(l0&->&->)].
    - exists (y0 <| rn_child := rn_next xx |>). unfold m'. rewrite lookup_delete_ne, lookup_insert_eq by done. simplify_eq. split_and!; [done|done|]. cbn.
      cbn [app chain] in Hc. destruct Hc as (Ex&_&xx'&Hxx&Hl). subst x. simplify_eq. eapply chain_ext; [|exact Hl]. intros c Hcl. rewrite lookup_delete_ne by set_solver.
      destruct (decide (c = d)) as [->|]; [rewrite lookup_insert_eq, Hp; done|by rewrite lookup_insert_ne].
    - exists dd. assert (d <> p) as Hdp by set_solver. split_and!; [unfold m'; by rewrite lookup_delete_ne, lookup_insert_ne|done|]. rewrite <- app_assoc in Hc, Hnd, Hxl |- *. cbn [app] in *.
      eapply chain_drop; [exact Hc|exact Hx| |].
      + intros c Hcl. unfold m'. rewrite lookup_delete_ne by set_solver. rewrite lookup_insert_ne; [done|]. intros ->. apply NoDup_app in Hnd as (_&H1&H2). apply NoDup_cons in H2 as [H2 _].
        apply elem_of_app in Hcl as [Hi|Hi]; [apply (H1 _ Hi); set_solver|set_solver].
      + unfold m'. by rewrite lookup_delete_ne, lookup_insert_eq. }
  constructor; cbn [nodes set]; fold m'.
  - intros b z Hz. destruct (decide (b = x)) as [->|Hbx2]; [unfold m' in Hz; by rewrite lookup_delete_eq in Hz|]. rewrite lookup_delete_ne by done.
    destruct (decide (b = d)) as [->|Hbd].
    { rewrite Hx' in Hz. simplify_eq. destruct (tree_node _ _ HT _ _ Hd) as (?&HL&HC'&_). unfold body in Hbx. simplify_eq. split_and!; [done|congruence|congruence|]. exists (l1 ++ l2). by rewrite lookup_insert_eq. }
    assert (exists z0, nodes s !! b = Some z0 /\ body z = body z0 /\ rn_child z = rn_child z0) as (z0&Hz0&Hbz&Hcz).
    { unfold m' in Hz. rewrite lookup_delete_ne in Hz by done. destruct (decide (b = p)) as [->|]; [|rewrite lookup_insert_ne in Hz by done; by exists z]. rewrite lookup_insert_eq in Hz. simplify_eq. exists y0.
      destruct HC as [(->&_)|(l0&_&->)]; [done|done]. }
    destruct (tree_node _ _ HT _ _ Hz0) as (?&HL&HC'&lb&Hkb&_). unfold body in Hbz. simplify_eq. split_and!; [done|congruence|congruence|]. exists lb. rewrite lookup_insert_ne by done. split; [done|].
    rewrite Hcz. by apply (Hother b).
  - intros b lb Hb. destruct (decide (b = x)) as [->|Hbx2]; [by rewrite lookup_delete_eq in Hb|]. rewrite lookup_delete_ne in Hb by done. destruct (decide (b = d)) as [->|Hbd].
    + rewrite lookup_insert_eq in Hb. simplify_eq. split_and!; [by eexists| |set_solver]. apply NoDup_app in Hnd as (Hn1&Hn2&Hn3). apply NoDup_cons in Hn3 as [_ Hn3]. apply NoDup_app. split_and!; [done|set_solver|done].
    + rewrite lookup_insert_ne in Hb by done. destruct (tree_dir _ _ HT _ _ Hb) as ([z Hz]&?&?). split_and!; try done. unfold m'. rewrite lookup_delete_ne by done.
      destruct (decide (b = p)) as [->|]; [rewrite lookup_insert_eq; by eexists|]. rewrite lookup_insert_ne by done. by eexists.
  - assert (forall b lb c, delete x (<[d := l1 ++ l2]> kids) !! b = Some lb -> c ∈ lb -> exists lb', kids !! b = Some lb' /\ c ∈ lb') as Hin.
    { intros b lb c Hb Hc. destruct (decide (b = x)) as [->|]; [by rewrite lookup_delete_eq in Hb|]. rewrite lookup_delete_ne in Hb by done.
      destruct (decide (b = d)) as [->|Hbd]; [rewrite lookup_insert_eq in Hb; simplify_eq; eexists; split; [done|set_solver]|]. rewrite lookup_insert_ne in Hb by done. by exists lb. }
    intros b1 b2 la lb c H1 H2 Hc1 Hc2. destruct (Hin _ _ _ H1 Hc1) as (l1'&K1&C1), (Hin _ _ _ H2 Hc2) as (l2'&K2&C2). by eapply (tree_apart _ _ HT).
Qed.

Lemma remove_node_ok s kids d l1 x l2 : tree_ok s kids -> kids !! d = Some (l1 ++ x :: l2) ->
  exists s', ramfs_remove_node d x s = Some (0, s') /\ tree_ok s' (delete x (<[d := l1 ++ l2]> kids)) /\ bufs s' = bufs s /\ nodes s' !! x = None /\
    (forall b, b <> x -> body <$> nodes s' !! b = body <$> nodes s !! b) /\ (forall b, b <> x -> b <> d -> rn_child <$> nodes s' !! b = rn_child <$> nodes s !! b).
Proof.
  intros HT Hk. destruct (tree_dir _ _ HT _ _ Hk) as ([dd Hd]&Hnd&Hdl). pose proof (chain_children _ _ _ _ _ HT Hk Hd) as Hc. assert (d <> x) as Hdx by set_solver.
  destruct (chain_mapped _ _ _ Hc x ltac:(set_solver)) as [Hxn [xx Hx]].
  assert (forall p y0 y, nodes s !! p = Some y0 -> body y = body y0 -> p <> x ->
    (p = d /\ l1 = [] /\ y = y0 <| rn_child := rn_next xx |> \/ exists l0, l1 = l0 ++ [p] /\ y = y0 <| rn_next := rn_next xx |>) ->
    let s' := s <| nodes := delete x (<[p := y]> (nodes s)) |> in
    tree_ok s' (delete x (<[d := l1 ++ l2]> kids)) /\ bufs s' = bufs s /\ nodes s' !! x = None /\ (forall b, b <> x -> body <$> nodes s' !! b = body <$> nodes s !! b) /\
    (forall b, b <> x -> b <> d -> rn_child <$> nodes s' !! b = rn_child <$> nodes s !! b)) as Hdel.
  { intros p y0 y Hp Hb Hpx HC. cbn. split_and!; [by eapply tree_del|done|apply lookup_delete_eq| |]; intros b Hbx; rewrite lookup_delete_ne by done.
    - destruct (decide (b = p)) as [->|]; [rewrite lookup_insert_eq, Hp; cbn; by rewrite Hb|by rewrite lookup_insert_ne].
    - intros Hbd. destruct (decide (b = p)) as [->|]; [rewrite lookup_insert_eq, Hp; by destruct HC as [(->&_)|(l0&_&->)]|by rewrite lookup_insert_ne]. }
  unfold ramfs_remove_node. rewrite Hd. cbn [mbind option_bind].
  assert (rn_child dd <> NULL) as Hcn by (destruct l1; cbn [app chain] in Hc; destruct Hc as (?&?&_); congruence). rewrite (proj2 (Z.eqb_neq _ _) Hcn).
  destruct l1 as [|p l0 _] using rev_ind.
  - cbn [app chain] in Hc. destruct Hc as (Ec&_). rewrite Ec, Z.eqb_refl, Hx. cbn [mbind option_bind]. unfold upd_node. rewrite Hd. cbn [mbind option_bind]. unfold ramfs_free_node. cbn [nodes set].
    rewrite lookup_insert_ne, Hx by done. cbn [mbind option_bind]. eexists. split; [done|]. apply (Hdel d dd); [done|done|done|]. left. done.
  - rewrite <- app_assoc in Hc, Hnd. cbn [app] in Hc, Hnd. assert (p <> x) as Hpx by (apply NoDup_app in Hnd as (_&_&H2); apply NoDup_cons in H2 as [H2 _]; set_solver).
    assert (rn_child dd <> x) as Hcx.
    { destruct l0 as [|e l0]; cbn [app chain] in Hc; destruct Hc as (Ee&_); rewrite Ee; [done|]. intros ->. cbn [app] in Hnd. apply NoDup_cons in Hnd as [Hni _]. apply Hni. set_solver. }
    rewrite (proj2 (Z.eqb_neq _ _) Hcx). rewrite (prev_node_ok s _ l0 p x l2); [|done|done|pose proof (chain_length _ _ _ Hnd Hc) as Hlen; rewrite length_app in Hlen; cbn in Hlen; lia].
    cbn [mbind option_bind]. destruct (chain_mapped _ _ _ Hc p ltac:(set_solver)) as [Hpn [y0 Hp]]. rewrite (proj2 (Z.eqb_neq _ _) Hpn), Hx. cbn [mbind option_bind]. unfold upd_node. rewrite Hp.
    cbn [mbind option_bind]. unfold ramfs_free_node. cbn [nodes set]. rewrite lookup_insert_ne, Hx by done. cbn [mbind option_bind]. eexists. split; [done|].
    apply (Hdel p y0); [done|done|done|]. right. by exists l0.
Qed.
