(* ===== verification/RamfsRun.v ===== *)
(** * RamfsRun: the name space of the file system in memory

    A directory is a finite map from names to nodes ([dirmap]); the operations
    of ramfs on linked lists look up, insert and delete in it, and any sequence
    of them keeps the tree of nodes consistent. *)
From stdpp Require Import base numbers gmap list.
From S2P Require Import Prelude Core Kernel Page Device Tty Ramfs RamfsSpec RamfsTree.

Open Scope Z_scope.

Definition dirmap (s : rfs) (l : list Z) : gmap (list Z) Z := list_to_map ((fun a => (node_name s a, a)) <$> l).
Definition unique_names (s : rfs) (kids : gmap Z (list Z)) : Prop := forall d l, kids !! d = Some l -> NoDup (node_name s <$> l).

Lemma first_named_dirmap s l name : first_named s l name = default NULL (dirmap s l !! name).
Proof.
  induction l as [|a l IH]; [done|]. cbn [first_named]. unfold dirmap. cbn [fmap list_fmap]. rewrite list_to_map_cons. case_bool_decide as E.
  - subst. by rewrite lookup_insert_eq.
  - rewrite lookup_insert_ne by done. exact IH.
Qed.

Lemma dirmap_elem s l name a : dirmap s l !! name = Some a -> a ∈ l /\ node_name s a = name.
Proof. intros H%elem_of_list_to_map_2. apply list_elem_of_fmap in H as (b&[= -> ->]&Hb). done. Qed.

Lemma dirmap_none s l name : dirmap s l !! name = None -> name ∉ node_name s <$> l.
Proof. intros H%not_elem_of_list_to_map_2. by rewrite <- list_fmap_compose in H. Qed.

(** Directories whose nodes keep their names. *)
Lemma names_ext s s' l : (forall b, b ∈ l -> node_name s' b = node_name s b) -> (node_name s' <$> l) = (node_name s <$> l) /\ dirmap s' l = dirmap s l.
Proof.
  intros HE. assert ((fun a => (node_name s' a, a)) <$> l = (fun a => (node_name s a, a)) <$> l) as E.
  { apply list_fmap_ext. intros i b Hb. by rewrite HE by (by eapply list_elem_of_lookup_2). }
  split; [|unfold dirmap; by rewrite E]. apply list_fmap_ext. intros i b Hb. apply HE. by eapply list_elem_of_lookup_2.
Qed.

Lemma body_name s s' b : body <$> nodes s' !! b = body <$> nodes s !! b -> node_name s' b = node_name s b.
Proof. unfold node_name. destruct (nodes s' !! b), (nodes s !! b); cbn; intros E; try done. unfold body in E. by simplify_eq. Qed.

Lemma dirmap_snoc s l name a : name ∉ node_name s <$> l -> node_name s a = name -> dirmap s (l ++ [a]) = <[name := a]> (dirmap s l).
Proof.
  intros Hn Ha. unfold dirmap. rewrite fmap_app. cbn [fmap list_fmap]. rewrite Ha. apply list_to_map_snoc. by rewrite <- list_fmap_compose.
Qed.

Lemma dirmap_del s l1 x l2 : NoDup (node_name s <$> l1 ++ x :: l2) -> dirmap s (l1 ++ l2) = delete (node_name s x) (dirmap s (l1 ++ x :: l2)).
Proof.
  intros Hnd. assert (NoDup (node_name s <$> x :: l1 ++ l2)) as Hnd' by (rewrite <- Permutation_middle in Hnd; done). unfold dirmap.
  rewrite (list_to_map_proper ((fun a => (node_name s a, a)) <$> l1 ++ x :: l2) ((fun a => (node_name s a, a)) <$> x :: l1 ++ l2)).
  - cbn [fmap list_fmap]. rewrite list_to_map_cons, delete_insert_id; [done|]. apply not_elem_of_list_to_map_1. rewrite <- list_fmap_compose.
    cbn [fmap list_fmap] in Hnd'. by apply NoDup_cons in Hnd' as [? _].
  - by rewrite <- list_fmap_compose.
  - by rewrite <- Permutation_middle.
Qed.

Definition dirv (d : Z) : vnode := mk_vnode d VDIR 0 0 false 0.

(** [s'] is [s] with the directory [d] changed to the map [m]; the nodes [gone] are
    freed.  Every other directory has its list of nodes and its map. *)
Definition dir_becomes (s : rfs) (kids : gmap Z (list Z)) (d : Z) (m : gmap (list Z) Z) (gone : gset Z) (s' : rfs) : Prop :=
  exists kids' l', tree_ok s' kids' /\ unique_names s' kids' /\ kids' !! d = Some l' /\ dirmap s' l' = m /\
    (forall e le, e <> d -> e ∉ gone -> kids !! e = Some le -> kids' !! e = Some le /\ dirmap s' le = dirmap s le) /\
    (forall e, e ∈ gone -> kids' !! e = None /\ nodes s' !! e = None).

Lemma add_dir s kids d l name type a : tree_ok s kids -> unique_names s kids -> kids !! d = Some l -> dirmap s l !! name = None -> nodes s !! a = None -> a <> NULL ->
  exists s', ramfs_add_node d name type (Some a) true s = Some (a, s') /\ dir_becomes s kids d (<[name := a]> (dirmap s l)) ∅ s' /\ bufs s' = bufs s /\
    nodes s' !! a = Some (new_node type name) /\ (forall b, b <> a -> body <$> nodes s' !! b = body <$> nodes s !! b).
Proof.
  intros HT HU Hk Hn Ha Han. destruct (add_node_ok s kids d l name type a HT Hk Ha Han) as (s'&E&HT'&Hb&Hnew&Hbody). exists s'. split_and!; try done.
  destruct (tree_fresh _ _ _ HT Ha) as [Hka Hfr]. destruct (tree_dir _ _ HT _ _ Hk) as ([? Hd]&_&_). assert (d <> a) by congruence.
  assert (forall e le, kids !! e = Some le -> (node_name s' <$> le) = (node_name s <$> le) /\ dirmap s' le = dirmap s le) as Hsame.
  { intros e le He. apply names_ext. intros b Hin. apply body_name, Hbody. intros ->. by apply (Hfr _ _ He). }
  assert (node_name s' a = name) as Hna by (unfold node_name; by rewrite Hnew). destruct (Hsame d l Hk) as [Hnl Hdl]. apply dirmap_none in Hn.
  exists (<[d := l ++ [a]]> (<[a := []]> kids)), (l ++ [a]). split_and!; [done| |by rewrite lookup_insert_eq| | |by intros e ?%elem_of_empty].
  - intros e le He. destruct (decide (e = d)) as [->|]; [rewrite lookup_insert_eq in He; simplify_eq; rewrite fmap_app; apply NoDup_app; rewrite Hnl; split_and!; [by eapply HU| |apply NoDup_singleton]|].
    { intros y Hy Hy2. cbn in Hy2. apply list_elem_of_singleton in Hy2. by subst. }
    rewrite lookup_insert_ne in He by done. destruct (decide (e = a)) as [->|]; [rewrite lookup_insert_eq in He; simplify_eq; constructor|]. rewrite lookup_insert_ne in He by done.
    destruct (Hsame e le He) as [-> _]. by eapply HU.
  - rewrite (dirmap_snoc s' l name a); [by rewrite Hdl|by rewrite Hnl|done].
  - intros e le Hed _ He. destruct (decide (e = a)) as [->|]; [congruence|]. rewrite !lookup_insert_ne by done. split; [done|]. by apply Hsame in He as [_ ?].
Qed.

Lemma remove_dir s kids d l name a : tree_ok s kids -> unique_names s kids -> kids !! d = Some l -> dirmap s l !! name = Some a ->
  exists s', ramfs_remove_node d a s = Some (0, s') /\ dir_becomes s kids d (delete name (dirmap s l)) {[a]} s' /\ bufs s' = bufs s /\ nodes s' !! a = None /\
    (forall b, b <> a -> body <$> nodes s' !! b = body <$> nodes s !! b) /\ (forall b, b <> a -> b <> d -> rn_child <$> nodes s' !! b = rn_child <$> nodes s !! b).
Proof.
  intros HT HU Hk Hn. destruct (dirmap_elem _ _ _ _ Hn) as [Hin Hname]. apply list_elem_of_split in Hin as (l1&l2&->).
  destruct (remove_node_ok s kids d l1 a l2 HT Hk) as (s'&E&HT'&Hb&Hgone&Hbody&Hch). exists s'. split_and!; try done. destruct (tree_dir _ _ HT _ _ Hk) as (_&Hnd&Hdl). assert (d <> a) by set_solver.
  assert (forall e le, kids !! e = Some le -> a ∉ le -> (node_name s' <$> le) = (node_name s <$> le) /\ dirmap s' le = dirmap s le) as Hsame.
  { intros e le He Hni. apply names_ext. intros b Hin. apply body_name, Hbody. by intros ->. }
  assert (a ∉ l1 ++ l2) as Hal by (apply NoDup_app in Hnd as (_&H1&H2); apply NoDup_cons in H2 as [H2 _]; intros [Hi|Hi]%elem_of_app; [apply (H1 _ Hi); set_solver|done]).
  destruct (names_ext s s' (l1 ++ l2)) as [Hnl Hdm]; [intros b Hi; apply body_name, Hbody; by intros ->|].
  exists (delete a (<[d := l1 ++ l2]> kids)), (l1 ++ l2). split_and!; [done| |by rewrite lookup_delete_ne, lookup_insert_eq| | |intros e ->%elem_of_singleton; by rewrite lookup_delete_eq].
  - intros e le He. destruct (decide (e = a)) as [->|]; [by rewrite lookup_delete_eq in He|]. rewrite lookup_delete_ne in He by done. destruct (decide (e = d)) as [->|].
    + rewrite lookup_insert_eq in He. simplify_eq. rewrite Hnl. pose proof (HU _ _ Hk) as HN. rewrite fmap_app in *. cbn [fmap list_fmap] in HN. apply NoDup_app in HN as (N1&N2&N3).
      apply NoDup_cons in N3 as [_ N3]. apply NoDup_app. split_and!; [done|set_solver|done].
    + rewrite lookup_insert_ne in He by done. destruct (Hsame e le He) as [-> _]; [|by eapply HU]. intros Hin. apply n0. eapply (tree_apart _ _ HT e d _ _ a He Hk); [done|set_solver].
  - rewrite Hdm, (dirmap_del s l1 a l2); [by rewrite Hname|]. by eapply HU.
  - intros e le Hed Hea%not_elem_of_singleton He. rewrite lookup_delete_ne, lookup_insert_ne by done. split; [done|].
    destruct (Hsame e le He) as [_ HD]; [|exact HD]. intros Hin. apply Hed. eapply (tree_apart _ _ HT e d _ _ a He Hk); [done|set_solver].
Qed.

(** The node [a] of a new file or directory is in directory [d]; nothing else has
    changed. *)
Definition made (s s' : rfs) (kids : gmap Z (list Z)) (d : Z) (l : list Z) (name : list Z) (type a : Z) : Prop :=
  dir_becomes s kids d (<[name := a]> (dirmap s l)) ∅ s' /\ bufs s' = bufs s /\ nodes s' !! a = Some (new_node type name) /\
  forall b, b <> a -> body <$> nodes s' !! b = body <$> nodes s !! b.

(** The vnode that a lookup of [name] fills in. *)
Lemma lookup_dir s kids d l name vp : tree_ok s kids -> kids !! d = Some l -> name <> [] ->
  exists vp', ramfs_lookup (dirv d) name vp s = Some (if dirmap s l !! name then 0 else ENOENT, vp') /\
    (forall a, dirmap s l !! name = Some a -> v_data vp' = a /\ exists x, nodes s !! a = Some x /\ v_type vp' = rn_type x).
Proof.
  intros HT Hk Hne. destruct (lookup_ok s kids d l name vp (dirv d) HT Hk eq_refl Hne) as (vp'&E&H0&H1). exists vp'. rewrite first_named_dirmap in *.
  destruct (dirmap s l !! name) as [a|] eqn:Ed; cbn [default id] in *; [|split; [done|done]].
  assert (a <> NULL) as Ha.
  { destruct (dirmap_elem _ _ _ _ Ed) as [Hin _]. destruct (tree_dir _ _ HT _ _ Hk) as ([x Hx]&_). by destruct (chain_mapped _ _ _ (chain_children _ _ _ _ _ HT Hk Hx) a Hin). }
  rewrite (proj2 (Z.eqb_neq _ _) Ha) in E. split; [done|]. intros b [= <-]. destruct (H1 Ha) as (Hv&x&Hx&Ht&_). split; [done|]. by exists x.
Qed.

(** ramfs_remove() frees the buffer first; the tree does not depend on it. *)
Lemma tree_same s s' kids : (forall b, (fun x => (rn_next x, rn_child x, rn_name x, rn_cap x, rn_namelen x)) <$> nodes s' !! b = (fun x => (rn_next x, rn_child x, rn_name x, rn_cap x, rn_namelen x)) <$> nodes s !! b) ->
  tree_ok s kids -> tree_ok s' kids /\ (forall b, node_name s' b = node_name s b).
Proof.
  intros HE HT. assert (forall b x', nodes s' !! b = Some x' -> exists x, nodes s !! b = Some x /\ rn_next x' = rn_next x /\ rn_child x' = rn_child x /\ rn_name x' = rn_name x /\ rn_cap x' = rn_cap x /\ rn_namelen x' = rn_namelen x) as Hback.
  { intros b x' Hx'. specialize (HE b). rewrite Hx' in HE. destruct (nodes s !! b) as [x|]; [|done]. cbn in HE. simplify_eq. exists x. by split_and!. }
  split.
  - constructor.
    + intros b x' Hx'. destruct (Hback _ _ Hx') as (x&Hx&E1&E2&E3&E4&E5). destruct (tree_node _ _ HT _ _ Hx) as (?&?&?&l&Hk&Hc). rewrite E3, E4, E5, E2. split_and!; try done. exists l. split; [done|].
      eapply chain_ext; [|exact Hc]. intros c _. specialize (HE c). destruct (nodes s' !! c), (nodes s !! c); cbn in *; try done; simplify_eq; congruence.
    + intros b l Hk. destruct (tree_dir _ _ HT _ _ Hk) as ([x Hx]&?&?). split_and!; try done. specialize (HE b). rewrite Hx in HE. by destruct (nodes s' !! b).
    + apply (tree_apart _ _ HT).
  - intros b. unfold node_name. specialize (HE b). destruct (nodes s' !! b), (nodes s !! b); cbn in *; try done; simplify_eq; congruence.
Qed.

Lemma dir_becomes_view s s0 kids d m gone s' : (forall b, node_name s0 b = node_name s b) -> dir_becomes s0 kids d m gone s' -> dir_becomes s kids d m gone s'.
Proof.
  intros HN (kids'&l'&HT&HU&Hk&Hm&Ho&Hg). exists kids', l'. split_and!; try done. intros e le Hed Heg He. destruct (Ho e le Hed Heg He) as [? Hd]. split; [done|].
  rewrite Hd. by apply names_ext.
Qed.

(** Removing a file: its buffer is freed, then its node. *)
Lemma remove_file s kids d l name a vp : tree_ok s kids -> unique_names s kids -> kids !! d = Some l -> dirmap s l !! name = Some a -> v_data vp = a ->
  exists vp' s' x, ramfs_remove (dirv d) vp s = Some (0, vp', s') /\ dir_becomes s kids d (delete name (dirmap s l)) {[a]} s' /\ nodes s !! a = Some x /\ nodes s' !! a = None /\
    bufs s' = (if rn_buf x =? NULL then bufs s else delete (rn_buf x) (bufs s)) /\ (forall b, b <> a -> body <$> nodes s' !! b = body <$> nodes s !! b).
Proof.
  intros HT HU Hk Hn Hv. destruct (dirmap_elem _ _ _ _ Hn) as [Hin Hname]. destruct (tree_dir _ _ HT _ _ Hk) as ([dd Hd]&_).
  destruct (chain_mapped _ _ _ (chain_children _ _ _ _ _ HT Hk Hd) a Hin) as [_ [x Hx]]. unfold ramfs_remove. rewrite Hv, Hx. cbn [mbind option_bind].
  set (s1 := if negb (rn_buf x =? NULL) then s <| bufs ::= delete (rn_buf x) |> <| nodes ::= <[a := x <| rn_buf := NULL |> <| rn_bufsize := 0 |>]> |> else s).
  assert ((if negb (rn_buf x =? NULL) then upd_node a (fun x => x <| rn_buf := NULL |> <| rn_bufsize := 0 |>) (buf_free (rn_buf x) s) else Some s) = Some s1) as ->.
  { unfold s1. destruct (negb _); [|done]. unfold upd_node. cbn. by rewrite Hx. }
  cbn [mbind option_bind]. assert (forall b, (fun x => (rn_next x, rn_child x, rn_name x, rn_cap x, rn_namelen x)) <$> nodes s1 !! b = (fun x => (rn_next x, rn_child x, rn_name x, rn_cap x, rn_namelen x)) <$> nodes s !! b) as HE.
  { intros b. unfold s1. destruct (negb _); [|done]. cbn. destruct (decide (b = a)) as [->|]; [by rewrite lookup_insert_eq, Hx|by rewrite lookup_insert_ne]. }
  destruct (tree_same s s1 kids HE HT) as [HT1 HN1]. assert (unique_names s1 kids) as HU1.
  { intros e le He. rewrite (proj1 (names_ext s s1 le (fun b _ => HN1 b))). by eapply HU. }
  change (v_data (dirv d)) with d. destruct (remove_dir s1 kids d l name a HT1 HU1 Hk) as (s'&->&HD&Hb&Hg&Hbd&_); [by rewrite (proj2 (names_ext s s1 l (fun b _ => HN1 b)))|].
  rewrite (proj2 (names_ext s s1 l (fun b _ => HN1 b))) in HD. cbn [mbind option_bind]. eexists _, s', x. split; [done|]. split_and!; try done.
  - eapply dir_becomes_view; [exact HN1|exact HD].
  - rewrite Hb. unfold s1. by destruct (_ =? _).
  - intros b Hba. rewrite Hbd by done. unfold s1. destruct (negb _); [|done]. cbn. by rewrite lookup_insert_ne.
Qed.

(** C11: A directory is a map from names to nodes.  ramfs_lookup() finds what the
    map has and returns ENOENT otherwise; ramfs_create() and ramfs_mkdir() of a
    name that is not there insert an empty file or directory, on failing
    allocations return ENOMEM without change, and for a mode of another type
    EINVAL without change; ramfs_remove() of what a lookup found deletes the
    name, frees the node and its buffer and no other.  Every other directory
    keeps its nodes and its map, every other node its type, name, size and
    buffer, and the tree stays consistent. *)
Theorem ramfs_dir_refines s kids d l name vp : tree_ok s kids -> unique_names s kids -> kids !! d = Some l -> name <> [] ->
  (exists vp', ramfs_lookup (dirv d) name vp s = Some (if dirmap s l !! name then 0 else ENOENT, vp') /\ forall a, dirmap s l !! name = Some a -> v_data vp' = a) /\
  (forall a, dirmap s l !! name = None -> nodes s !! a = None -> a <> NULL -> forall mode,
     (S_ISREG mode = true -> exists s', ramfs_create (dirv d) name mode (Some a) true s = Some (0, s') /\ made s s' kids d l name VREG a) /\
     (S_ISDIR mode = true -> exists s', ramfs_mkdir (dirv d) name mode (Some a) true s = Some (0, s') /\ made s s' kids d l name VDIR a)) /\
  (forall mode np nm, np = None \/ nm = false \/ S_ISREG mode = false -> ramfs_create (dirv d) name mode np nm s = Some (if S_ISREG mode then ENOMEM else EINVAL, s)) /\
  (forall mode np nm, np = None \/ nm = false \/ S_ISDIR mode = false -> ramfs_mkdir (dirv d) name mode np nm s = Some (if S_ISDIR mode then ENOMEM else EINVAL, s)) /\
  (forall a v, dirmap s l !! name = Some a -> v_data v = a -> exists v' s' x, ramfs_remove (dirv d) v s = Some (0, v', s') /\
     dir_becomes s kids d (delete name (dirmap s l)) {[a]} s' /\ nodes s !! a = Some x /\ nodes s' !! a = None /\
     bufs s' = (if rn_buf x =? NULL then bufs s else delete (rn_buf x) (bufs s)) /\ forall b, b <> a -> body <$> nodes s' !! b = body <$> nodes s !! b).
Proof.
  intros HT HU Hk Hne. split_and!.
  - destruct (lookup_dir s kids d l name vp HT Hk Hne) as (vp'&E&Hv). exists vp'. split; [done|]. intros a Ha. by destruct (Hv a Ha).
  - intros a Hn Ha Han mode. split; intros Hm.
    + destruct (add_dir s kids d l name VREG a HT HU Hk Hn Ha Han) as (s'&E&HD&Hb&Hnew&Hbd). exists s'. unfold ramfs_create. rewrite Hm. cbn [negb v_data dirv].
      rewrite E. cbn [mbind option_bind]. by rewrite (proj2 (Z.eqb_neq _ _) Han).
    + destruct (add_dir s kids d l name VDIR a HT HU Hk Hn Ha Han) as (s'&E&HD&Hb&Hnew&Hbd). exists s'. unfold ramfs_mkdir. rewrite Hm. cbn [negb v_data dirv].
      rewrite E. cbn [mbind option_bind]. rewrite (proj2 (Z.eqb_neq _ _) Han). unfold upd_node. rewrite Hnew. cbn [mbind option_bind]. split; [|done]. do 2 f_equal. destruct s' as [n b]. cbn in *. f_equal. by rewrite insert_id.
  - intros mode np nm Hf. unfold ramfs_create, ramfs_add_node, ramfs_allocate_node. destruct (S_ISREG mode); [|done]. destruct Hf as [->|[-> |?]]; [done|by destruct np|done].
  - intros mode np nm Hf. unfold ramfs_mkdir, ramfs_add_node, ramfs_allocate_node. destruct (S_ISDIR mode); [|done]. destruct Hf as [->|[-> |?]]; [done|by destruct np|done].
  - intros a v Hn Hv. by apply (remove_file s kids d l name a v).
Qed.

(** ** Renaming *)
Lemma rename_node_tree s kids d l name a name2 tmp : tree_ok s kids -> unique_names s kids -> kids !! d = Some l -> dirmap s l !! name = Some a -> dirmap s l !! name2 = None ->
  (tmp = true \/ length name2 <= length name)%nat -> exists s', ramfs_rename_node a name2 tmp s = Some (0, s') /\ dir_becomes s kids d (<[name2 := a]> (delete name (dirmap s l))) ∅ s' /\ bufs s' = bufs s.
Proof.
  intros HT HU Hk Hn Hn2 Hlen. destruct (dirmap_elem _ _ _ _ Hn) as [Hin Hname]. destruct (tree_dir _ _ HT _ _ Hk) as ([dd Hd]&Hnd&Hdl).
  destruct (chain_mapped _ _ _ (chain_children _ _ _ _ _ HT Hk Hd) a Hin) as [Han [x Hx]]. destruct (tree_node _ _ HT _ _ Hx) as (_&HL&HC&_).
  assert (rn_name x = name) as Hxn by (unfold node_name in Hname; by rewrite Hx in Hname).
  assert (exists x', ramfs_rename_node a name2 tmp s = Some (0, s <| nodes ::= <[a := x']> |>) /\ rn_next x' = rn_next x /\ rn_child x' = rn_child x /\ rn_name x' = name2 /\
    rn_namelen x' = Z.of_nat (length name2) /\ rn_namelen x' < rn_cap x') as (x'&E&E1&E2&E3&E4&E5).
  { unfold ramfs_rename_node. rewrite Hx. cbn [mbind option_bind]. unfold upd_node. rewrite Hx. cbn [mbind option_bind]. destruct (Z.leb_spec (Z.of_nat (length name2)) (rn_namelen x)) as [Hle|Hgt].
    - rewrite (proj2 (Z.leb_le _ _)) by lia. cbn [negb]. eexists. split; [done|]. cbn. split_and!; try done. lia.
    - destruct Hlen as [->|Hlen]; [|rewrite Hxn in HL; lia]. eexists. split; [done|]. cbn. split_and!; try done. lia. }
  set (s' := s <| nodes ::= <[a := x']> |>) in *. exists s'. split_and!; try done.
  assert (forall b, b <> a -> nodes s' !! b = nodes s !! b) as Hne by (intros b Hb; cbn; by rewrite lookup_insert_ne).
  assert (nodes s' !! a = Some x') as Hx' by (cbn; by rewrite lookup_insert_eq).
  assert (tree_ok s' kids) as HT'.
  { constructor.
    - intros b z Hz. assert (exists z0, nodes s !! b = Some z0 /\ rn_child z = rn_child z0 /\ rn_namelen z = Z.of_nat (length (rn_name z)) /\ rn_namelen z < rn_cap z) as (z0&Hz0&Ec&En&Ecap).
      { destruct (decide (b = a)) as [->|]; [rewrite Hx' in Hz; simplify_eq; exists x; split_and!; try done; congruence|]. rewrite Hne in Hz by done. exists z. destruct (tree_node _ _ HT _ _ Hz) as (?&?&?&_). by split_and!. }
      destruct (tree_node _ _ HT _ _ Hz0) as (?&_&_&lb&Hkb&Hcb). split_and!; try done. exists lb. split; [done|]. rewrite Ec. eapply chain_ext; [|exact Hcb]. intros c _.
      destruct (decide (c = a)) as [->|]; [rewrite Hx', Hx; cbn; congruence|by rewrite Hne].
    - intros b lb Hb. destruct (tree_dir _ _ HT _ _ Hb) as ([z Hz]&?&?). split_and!; try done. destruct (decide (b = a)) as [->|]; [by eexists|rewrite Hne by done; by eexists].
    - apply (tree_apart _ _ HT). }
  assert (forall b, b <> a -> node_name s' b = node_name s b) as Hnm by (intros b Hb; unfold node_name; by rewrite Hne).
  assert (node_name s' a = name2) as Hna by (unfold node_name; by rewrite Hx').
  apply list_elem_of_split in Hin as (l1&l2&->). apply dirmap_none in Hn2. pose proof (HU _ _ Hk) as HN.
  assert (a ∉ l1 ++ l2) as Hal by (apply NoDup_app in Hnd as (_&H1&H2); apply NoDup_cons in H2 as [H2 _]; intros [Hi|Hi]%elem_of_app; [apply (H1 _ Hi); set_solver|done]).
  destruct (names_ext s s' (l1 ++ l2)) as [Hnl Hdm]; [intros b Hi; apply Hnm; by intros ->|].
  assert (NoDup (node_name s' <$> a :: l1 ++ l2)) as HN'.
  { rewrite <- Permutation_middle in HN. cbn [fmap list_fmap] in HN |- *. apply NoDup_cons in HN as [_ HN]. rewrite Hnl. apply NoDup_cons. split; [|done]. rewrite Hna. intros Hi. apply Hn2.
    rewrite fmap_app in *. cbn [fmap list_fmap]. set_solver. }
  exists kids, (l1 ++ a :: l2). split_and!; [done| |done| | |by intros e ?%elem_of_empty].
  - intros e le He. destruct (decide (e = d)) as [->|Hed]; [simplify_eq; by rewrite <- Permutation_middle|]. destruct (names_ext s s' le) as [-> _]; [|by eapply HU]. intros b Hi. apply Hnm.
    intros ->. apply Hed. eapply (tree_apart _ _ HT e d _ _ a He Hk); [done|set_solver].
  - unfold dirmap at 1. rewrite (list_to_map_proper ((fun a => (node_name s' a, a)) <$> l1 ++ a :: l2) ((fun a => (node_name s' a, a)) <$> a :: l1 ++ l2)).
    + cbn [fmap list_fmap]. rewrite list_to_map_cons, Hna. f_equal. change (list_to_map ((fun a => (node_name s' a, a)) <$> l1 ++ l2)) with (dirmap s' (l1 ++ l2)). rewrite Hdm, (dirmap_del s l1 a l2) by done. by rewrite Hname.
    + rewrite <- list_fmap_compose. by rewrite <- Permutation_middle.
    + by rewrite <- Permutation_middle.
  - intros e le Hed _ He. split; [done|]. apply names_ext. intros b Hi. apply Hnm. intros ->. apply Hed. eapply (tree_apart _ _ HT e d _ _ a He Hk); [done|set_solver].
Qed.

(** Renaming inside a directory to a name that is not taken moves the entry
    of the map, whether the new name fits the old buffer or not. *)
Theorem ramfs_rename_same_dir s kids d l name a name2 vp np nm tmp : tree_ok s kids -> unique_names s kids -> kids !! d = Some l -> dirmap s l !! name = Some a -> dirmap s l !! name2 = None ->
  v_data vp = a -> (tmp = true \/ length name2 <= length name)%nat ->
  exists s', ramfs_rename (dirv d) vp (dirv d) true None name2 np nm tmp s = Some (0, s') /\ dir_becomes s kids d (<[name2 := a]> (delete name (dirmap s l))) ∅ s' /\ bufs s' = bufs s.
Proof.
  intros HT HU Hk Hn Hn2 Hv Hl. unfold ramfs_rename. cbn [mbind option_bind Z.eqb negb]. rewrite Hv. by apply (rename_node_tree s kids d l name a name2 tmp).
Qed.

(** C39: Renaming from one directory to another (not into the node itself), onto a
    name that is not taken there, with memory for the new node, takes the old name out of the first directory's map, frees the old
    node and puts a new regular file into the second one's map; every other
    directory keeps its nodes and its map, the tree stays consistent and no
    buffer changes.  For a regular file the new one takes over buffer and size,
    so the bytes move; for a directory or a FIFO it has no children, no bytes
    and the wrong type: what was in the directory is lost, and rename() still
    returns 0. *)
Theorem ramfs_rename_other_dir s kids d1 l1 name1 a d2 l2 name2 b vp x tmp : tree_ok s kids -> unique_names s kids -> kids !! d1 = Some l1 -> kids !! d2 = Some l2 -> d1 <> d2 -> d2 <> a ->
  dirmap s l1 !! name1 = Some a -> dirmap s l2 !! name2 = None -> nodes s !! a = Some x -> v_data vp = a -> v_type vp = rn_type x -> nodes s !! b = None -> b <> NULL ->
  exists s' y, ramfs_rename (dirv d1) vp (dirv d2) false None name2 (Some b) true tmp s = Some (0, s') /\
    (exists kids' l1' l2', tree_ok s' kids' /\ unique_names s' kids' /\ kids' !! d1 = Some l1' /\ kids' !! d2 = Some l2' /\
       dirmap s' l1' = delete name1 (dirmap s l1) /\ dirmap s' l2' = <[name2 := b]> (dirmap s l2) /\
       forall e le, e <> d1 -> e <> d2 -> e <> a -> kids !! e = Some le -> kids' !! e = Some le /\ dirmap s' le = dirmap s le) /\
    nodes s' !! a = None /\ nodes s' !! b = Some y /\ rn_type y = VREG /\ rn_name y = name2 /\ bufs s' = bufs s /\
    (rn_type x = VREG -> rn_buf y = rn_buf x /\ rn_size y = rn_size x /\ rn_bufsize y = rn_bufsize x) /\
    (rn_type x <> VREG -> rn_child y = NULL /\ rn_buf y = NULL /\ rn_size y = 0).
Proof.
  intros HT HU Hk1 Hk2 Hd Hd2a Hn1 Hn2 Hx Hv Ht Hb Hbn. assert (b <> a) as Hba by congruence. unfold ramfs_rename. cbn [mbind option_bind Z.eqb negb]. rewrite Hv, Hx. cbn [mbind option_bind].
  change (v_data (dirv d2)) with d2. change (v_data (dirv d1)) with d1. destruct (add_dir s kids d2 l2 name2 VREG b HT HU Hk2 Hn2 Hb Hbn) as (s1&->&HD&Hb1&Hnew&Hbody1). cbn [mbind option_bind].
  rewrite (proj2 (Z.eqb_neq _ _) Hbn). destruct HD as (kids1&l'&HT1&HU1&Hk2'&Hm2&Ho&_). destruct (Ho d1 l1 Hd (not_elem_of_empty _) Hk1) as [Hk1' Hm1].
  rewrite Ht. set (y := if rn_type x =? VREG then new_node VREG name2 <| rn_buf := rn_buf x |> <| rn_size := rn_size x |> <| rn_bufsize := rn_bufsize x |> else new_node VREG name2).
  set (s2 := s1 <| nodes ::= <[b := y]> |>).
  assert ((if rn_type x =? VREG then upd_node b (fun z => z <| rn_buf := rn_buf x |> <| rn_size := rn_size x |> <| rn_bufsize := rn_bufsize x |>) s1 else Some s1) = Some s2) as ->.
  { unfold s2, y. destruct (_ =? VREG); [unfold upd_node; by rewrite Hnew|]. destruct s1 as [n bb]. cbn in *. by rewrite insert_id. }
  cbn [mbind option_bind].
  assert (forall c, (fun x => (rn_next x, rn_child x, rn_name x, rn_cap x, rn_namelen x)) <$> nodes s2 !! c = (fun x => (rn_next x, rn_child x, rn_name x, rn_cap x, rn_namelen x)) <$> nodes s1 !! c) as HE.
  { intros c. cbn. destruct (decide (c = b)) as [->|]; [rewrite lookup_insert_eq, Hnew; unfold y; by destruct (_ =? _)|by rewrite lookup_insert_ne]. }
  destruct (tree_same s1 s2 kids1 HE HT1) as [HT2 HN2]. assert (unique_names s2 kids1) as HU2.
  { intros e le He. rewrite (proj1 (names_ext s1 s2 le (fun c _ => HN2 c))). by eapply HU1. }
  assert (forall le, dirmap s2 le = dirmap s1 le) as HM2 by (intros le; exact (proj2 (names_ext s1 s2 le (fun c _ => HN2 c)))).
  destruct (remove_dir s2 kids1 d1 l1 name1 a HT2 HU2 Hk1') as (s3&->&HD3&Hb3&Hg3&Hbody3&Hch3); [by rewrite HM2, Hm1|]. cbn [mbind option_bind snd].
  assert (b <> d1) as Hbd1 by (intros ->; destruct (tree_dir _ _ HT _ _ Hk1) as ([? ?]&_); congruence).
  assert (exists z, nodes s3 !! b = Some z /\ body z = body y /\ rn_child z = rn_child y) as (z&Hz&Hbz&Hcz).
  { pose proof (Hbody3 b Hba) as E1. pose proof (Hch3 b Hba Hbd1) as E2. change (nodes s2) with (<[b := y]> (nodes s1)) in E1, E2. rewrite lookup_insert_eq in E1, E2.
    destruct (nodes s3 !! b) as [z|]; [|done]. exists z. change (Some (body z) = Some (body y)) in E1. change (Some (rn_child z) = Some (rn_child y)) in E2. split_and!; congruence. }
  exists s3, z. unfold body in Hbz. split; [done|]. split.
  { destruct HD3 as (kids3&l1'&HT3&HU3&Hk13&Hm13&Ho3&_). destruct (Ho3 d2 l') as [Hk23 Hm23]; [congruence|by apply not_elem_of_singleton|done|].
    exists kids3, l1', l'. split_and!; [done|done|done|done|by rewrite Hm13, HM2, Hm1|by rewrite Hm23, HM2, Hm2|].
    intros e le H1 H2 Hea He. destruct (Ho e le H2 (not_elem_of_empty _) He) as [He1 Hme1]. destruct (Ho3 e le H1) as [He3 Hme3]; [by apply not_elem_of_singleton|done|]. split; [done|].
    by rewrite Hme3, HM2, Hme1. }
  split; [done|]. split; [done|].
  assert (rn_type y = VREG /\ rn_name y = name2 /\ rn_child y = NULL /\ (rn_type x = VREG -> rn_buf y = rn_buf x /\ rn_size y = rn_size x /\ rn_bufsize y = rn_bufsize x) /\
    (rn_type x <> VREG -> rn_buf y = NULL /\ rn_size y = 0)) as (Y1&Y2&Y3&Y4&Y5) by (unfold y; destruct (Z.eqb_spec (rn_type x) VREG); by split_and!).
  assert (rn_type z = rn_type y /\ rn_name z = rn_name y /\ rn_buf z = rn_buf y /\ rn_size z = rn_size y /\ rn_bufsize z = rn_bufsize y) as (Z1&Z2&Z3&Z4&Z5) by (by simplify_eq).
  rewrite Z1, Z2, Z3, Z4, Z5, Hcz. split_and!; try done; [by rewrite Hb3|]. intros Hne. destruct (Y5 Hne). done.
Qed.
