(* ===== verification/RamfsDemo.v ===== *)
(** * RamfsDemo: a small file system in memory

    A root directory with a file [a] and a directory [d], which has a file [x];
    and a FIFO whose counters are about to wrap around.  The theorems on ramfs
    applied to them, and a write through a file opened for reading. *)
From stdpp Require Import base numbers gmap list.
From S2P Require Import Prelude Core Kernel Page Device Tty Ramfs RamfsSpec RamfsFifo RamfsTree RamfsRun.

Open Scope Z_scope.

Module RamfsDemo.
Definition root := 0x100.
Definition file_a := 0x200.
Definition dir_d := 0x300.
Definition file_x := 0x400.
Definition hi : list Z := [104; 105].
Definition node_a : ramfs_node := mk_rnode dir_d NULL VREG [97] 2 1 2 0x1000 4096 0 0.
Definition node_d : ramfs_node := mk_rnode NULL file_x VDIR [100] 2 1 0 NULL 0 0 0.
Definition the_nodes : list (Z * ramfs_node) :=
  [(root, mk_rnode NULL file_a VDIR [47] 2 1 0 NULL 0 0 0); (file_a, node_a); (dir_d, node_d); (file_x, mk_rnode NULL NULL VREG [120] 2 1 0 NULL 0 0 0)].
Definition fs : rfs := mk_rfs (list_to_map the_nodes) {[0x1000 := hi ++ zeros 4094]}.
Definition kids : gmap Z (list Z) := list_to_map [(root, [file_a; dir_d]); (file_a, []); (dir_d, [file_x]); (file_x, [])].

Lemma fs_tree : tree_ok fs kids.
Proof.
  constructor.
  - intros a x Hx. change (nodes fs) with (list_to_map (M := gmap Z ramfs_node) the_nodes) in Hx. apply elem_of_list_to_map_2 in Hx. unfold the_nodes in Hx.
    repeat (apply elem_of_cons in Hx as [[= -> ->]|Hx]; [split; [done|]; split; [done|]; split; [done|];
      first [exists [file_a; dir_d]; split; [reflexivity|] | exists [file_x]; split; [reflexivity|] | exists []; split; [reflexivity|]]; cbn [chain rn_child rn_next node_d];
      repeat (first [done | split; [done|] | eexists; split; [reflexivity|] | reflexivity]) |]). set_solver.
  - intros a l Hl. unfold kids in Hl. apply elem_of_list_to_map_2 in Hl.
    repeat (apply elem_of_cons in Hl as [[= -> ->]|Hl]; [split; [eexists; reflexivity|]; split; [apply (bool_decide_unpack _); vm_compute; exact I|apply (bool_decide_unpack _); vm_compute; exact I]|]). set_solver.
  - intros a b la lb c Ha Hb Hca Hcb. unfold kids in Ha, Hb. apply elem_of_list_to_map_2 in Ha, Hb.
    repeat (apply elem_of_cons in Ha as [[= -> ->]|Ha]; [repeat (apply elem_of_cons in Hb as [[= -> ->]|Hb]; [first [done | exfalso; unfold file_a, dir_d, file_x in *; set_solver]|]); set_solver|]). set_solver.
Qed.

Lemma fs_names : unique_names fs kids.
Proof.
  intros d l Hl. unfold kids in Hl. apply elem_of_list_to_map_2 in Hl.
  repeat (apply elem_of_cons in Hl as [[= -> ->]|Hl]; [apply (bool_decide_unpack _); vm_compute; exact I|]). set_solver.
Qed.

Definition vn_a : vnode := mk_vnode file_a VREG ALLPERMS 2 false 0.
Definition vn_d : vnode := mk_vnode dir_d VDIR ALLPERMS 0 false 0.
Definition blank : vnode := mk_vnode NULL 0 0 0 false 0.

Lemma file_a_ok : file_ok fs vn_a node_a hi.
Proof. unfold file_ok. split_and!; [reflexivity..|done|done|right; vm_compute; reflexivity]. Qed.

Definition rdwr : vfile := mk_vfile 3 10.

(** Two bytes, a gap of eight, three bytes. *)
Lemma ramfs_file_refines_witness : exists vp' s', sys_write vn_a rdwr [1; 2; 3] (Some 0x5000) fs = Some (IoRet 0 3 [] vp' (mk_vfile 3 13) s') /\
  wrote_file fs vn_a node_a hi 10 [1; 2; 3] (Some 0x5000) vp' s'.
Proof.
  destruct (ramfs_file_refines fs vn_a node_a hi rdwr [1; 2; 3] (Some 0x5000) 5 file_a_ok) as [[(?&_)|(vp'&s'&E&HW)] _].
  - intros b [= <-]. reflexivity.
  - cbn. lia.
  - cbn. lia.
  - reflexivity.
  - lia.
  - done.
  - exists vp', s'. split; [exact E|exact HW].
Defined.

Lemma ramfs_write_read_witness : exists vp' fp' fp2 fp3 s', sys_write vn_a rdwr [1; 2; 3] (Some 0x5000) fs = Some (IoRet 0 3 [] vp' fp' s') /\
  sys_lseek vp' fp' 10 SEEK_SET = (0, Some 10, fp2) /\ sys_read vp' fp2 3 s' = Some (IoRet 0 3 [1; 2; 3] vp' fp3 s').
Proof.
  apply (ramfs_write_read fs vn_a node_a hi rdwr [1; 2; 3] 0x5000 file_a_ok); [reflexivity|cbn; lia|reflexivity|reflexivity|cbn; lia|reflexivity].
Defined.

Lemma truncate_keeps_size_witness : exists vp1 s', ramfs_truncate vn_a fs = Some (0, vp1, s') /\ v_size vp1 = 0 /\
  ramfs_lookup (dirv root) [97] blank s' = Some (0, vn_a) /\ sys_read vn_a (mk_vfile 1 0) 1 s' = None.
Proof.
  destruct (truncate_keeps_size fs (dirv root) [97] blank vn_a node_a hi) as (vp1&s'&E1&E2&E3&E4).
  - vm_compute. reflexivity.
  - exact file_a_ok.
  - done.
  - done.
  - reflexivity.
  - exists vp1, s'. split; [exact E1|]. split; [exact E2|]. split; [exact E3|]. apply E4; [reflexivity|cbn; lia|lia].
Defined.

Lemma ramfs_dir_refines_witness : (exists vp', ramfs_lookup (dirv root) [98] blank fs = Some (ENOENT, vp')) /\
  (exists s', ramfs_create (dirv root) [98] 0x81ff (Some 0x500) true fs = Some (0, s') /\ made fs s' kids root [file_a; dir_d] [98] VREG 0x500) /\
  ramfs_mkdir (dirv root) [98] 0x81ff (Some 0x500) true fs = Some (EINVAL, fs).
Proof.
  destruct (ramfs_dir_refines fs kids root [file_a; dir_d] [98] blank fs_tree fs_names eq_refl ltac:(done)) as ((vp'&E&_)&H2&_&H4&_). split; [exists vp'; exact E|]. split.
  - exact (proj1 (H2 0x500 eq_refl eq_refl ltac:(done) 0x81ff) eq_refl).
  - exact (H4 0x81ff (Some 0x500) true (or_intror (or_intror eq_refl))).
Defined.

Lemma ramfs_rename_same_dir_witness : exists s', ramfs_rename (dirv root) vn_a (dirv root) true None [98; 99] None false true fs = Some (0, s') /\
  dir_becomes fs kids root (<[[98; 99] := file_a]> (delete [97] (dirmap fs [file_a; dir_d]))) ∅ s'.
Proof.
  destruct (ramfs_rename_same_dir fs kids root [file_a; dir_d] [97] file_a [98; 99] vn_a None false true fs_tree fs_names eq_refl eq_refl eq_refl eq_refl (or_introl eq_refl)) as (s'&E&HD&_).
  exists s'. split; [exact E|exact HD].
Defined.

(** The file [a] moved into the directory [d]. *)
Lemma ramfs_rename_other_dir_witness : exists s' y, ramfs_rename (dirv root) vn_a (dirv dir_d) false None [98] (Some 0x500) true false fs = Some (0, s') /\
  nodes s' !! 0x500 = Some y /\ rn_buf y = 0x1000 /\ rn_size y = 2.
Proof.
  destruct (ramfs_rename_other_dir fs kids root [file_a; dir_d] [97] file_a dir_d [file_x] [98] 0x500 vn_a node_a false fs_tree fs_names eq_refl eq_refl ltac:(done) ltac:(done) eq_refl eq_refl eq_refl eq_refl eq_refl eq_refl ltac:(done))
    as (s'&y&E&_&_&Hy&_&_&_&HR&_). exists s', y. destruct (HR eq_refl) as (H1&H2&_). split; [exact E|]. split; [exact Hy|]. split; [exact H1|exact H2].
Defined.

(** A directory that is moved becomes an empty regular file, and its file [x] is
    in no directory any more. *)
Definition fs2 : rfs := fs <| nodes ::= <[0x600 := mk_rnode NULL NULL VDIR [101] 2 1 0 NULL 0 0 0]> |> <| bufs := ∅ |>.
Example moved_directory_is_lost : exists s' y, ramfs_rename (dirv root) vn_d (dirv 0x600) false None [98] (Some 0x500) true false fs2 = Some (0, s') /\
  nodes s' !! 0x500 = Some y /\ rn_type y = VREG /\ rn_child y = NULL /\ nodes s' !! dir_d = None /\ is_Some (nodes s' !! file_x).
Proof. do 2 eexists. split; [vm_compute; reflexivity|]. split; [vm_compute; reflexivity|]. split; [reflexivity|]. split; [reflexivity|]. split; [reflexivity|]. vm_compute. by eexists. Qed.

(** sys_write() does not look at the mode of the open file: a file that was
    opened for reading only is written. *)
Example read_only_written :
  match sys_write vn_a (mk_vfile FREAD 0) [120] None fs with
  | Some (IoRet err n _ vp' _ s') =>
      err = 0 /\ n = 1 /\ match sys_read vp' (mk_vfile FREAD 0) 2 s' with Some (IoRet err n l _ _ _) => err = 0 /\ l = [120; 105] | _ => False end
  | _ => False
  end.
Proof. vm_compute. done. Qed.

(** A FIFO with a reader and a writer, and counters near 2^32. *)
Definition node_f : ramfs_node := mk_rnode NULL NULL VFIFO [102] 2 1 0xfffffffe 0x3000 0xfffffffe 1 1.
Definition ffs : rfs := mk_rfs {[0x700 := node_f]} {[0x3000 := replicate 1024 7]}.
Definition vn_f : vnode := mk_vnode 0x700 VFIFO ALLPERMS 0 false 0.

Lemma fifo_f_ok : fifo_ok ffs vn_f node_f [].
Proof. split; [reflexivity|]. split; [reflexivity|]. split; [done|]. split; [done|]. eexists. split; [reflexivity|]. split; [vm_compute; reflexivity|]. intros i Hi. cbn in Hi. lia. Qed.

Lemma fifo_is_queue_witness : exists s1 x1, ramfs_write_fifo vn_f (mk_vfile 2 0) [1; 2; 3; 4] ffs = Some (FifoRet 0 [], vn_f, s1) /\ fifo_ok s1 vn_f x1 [1; 2; 3; 4].
Proof.
  destruct (fifo_is_queue ffs vn_f node_f [] (mk_vfile 2 0) [1; 2; 3; 4] 4 fifo_f_ok) as (_&HW&_). destruct (HW ltac:(done)) as (s1&x1&E&HF&_). exists s1, x1.
  split; [exact E|exact HF].
Defined.
End RamfsDemo.
